(* ===== verification/_CoqProject ===== *)
-Q . S2P
Prelude.v
Checksum.v
Frame.v
Ipnet.v
Rules.v
VnetHeader.v
Framing.v
Fastpath.v
Switch.v
Dhcp.v
Dns.v
Gateway.v
Router.v
NatEngine.v
Vtcp.v
VtcpFlow.v
VtcpTask.v
Nat.v
Ledger.v
Plan.v
Converge.v
Effects.v
Apply.v
Reseed.v
TableCache.v
Disk.v
Qcow2.v
Qcow2Read.v
Qcow2Alloc.v
Qcow2Phys.v
Qcow2Steps.v
Qcow2Free.v
Qcow2Write.v
Qcow2Guest.v
Qcow2Correct.v
Qcow2Reads.v
Qcow2Discard.v
Qcow2Open.v
Qcow2Durable.v
Qcow2Header.v
Qcow2Create.v
Qcow2Snapshot.v
Qcow2Walk.v
Qcow2Copied.v
Qcow2Owned.v
Qcow2SnapTable.v
Qcow2Snaps.v
Qcow2Reach.v
Qcow2Counted.v
Qcow2SnapApply.v
Qcow2SnapTake.v
Qcow2SnapDelete.v
Qcow2History.v
