(* ===== verification/Prelude.v ===== *)
(** * vmlab: the network fabric, the workspace syncer and the disk images

    vmlab runs labs of virtual machines on one host. This library models the
    parts of it that decide what a guest may reach and what happens to a
    developer's files, and proves what makes them correct. Paths below are
    relative to the repository root.

    ** The parts and how they interact

    - Every segment of a lab is an Ethernet switch in user space. Frames come in
      over length-prefixed streams or from a kernel fast path, are judged by the
      port's layer-3 rules, and are flooded or sent to the port that owns the
      destination ([src/net/frame.rs], [framing.rs], [rules.rs], [switch.rs],
      [ebpf/fastpath-logic], [hv/crates/vmlab-hv-proto/src/net.rs]).
    - The segment's gateway is a port of that switch. It answers ARP, DHCP and
      DNS itself and hands everything else to its uplink: the router between
      segments or the NAT engine ([dhcp.rs], [dns.rs], [gateway.rs],
      [router.rs], [nat/]).
    - The NAT engine turns guest flows into host sockets: UDP through a socket
      per flow, echo through a probe, TCP through a user-space TCP of its own
      (vTCP), behind a guard that keeps worktree-isolated labs off the host.
    - The workspace syncer keeps a directory of the host (the canonical copy)
      and its copy in a dev machine the same: [src/labd/workspace/plan.rs]
      reconciles the two trees with the ledger of what was last agreed,
      [apply.rs] carries the plan out against two file systems others write to,
      [reseed.rs] brings the guest back to host truth after a restore.
    - A machine's disks are raw or qcow2 images ([hv/crates/vmlab-disk]). A
      qcow2 image maps guest clusters to clusters of its file through two
      levels of tables behind a write-back cache, counts the references to
      every cluster so that snapshots can share them, and leaves unmapped
      clusters to a backing image, which is an image again.

    ** Files

    - [Prelude]: panics ([outcome]) and I/O errors as values, bytes, words and
      their wrap-around, slices, splices and edits confined to ranges, ordered
      string sets, the [vmlab] hint database and the tactics.
    - [Checksum], [Frame]: the internet checksum and the frame views and
      builders of [frame.rs]. [Ipnet]: the interface of the third-party CIDR
      type, with its laws and an instance.
    - [Rules]: the layer-3 rule engine of [rules.rs]. [VnetHeader]: packet
      metadata, GSO and the flow hash of [net.rs]. [Framing]: [framing.rs] over
      streams that arrive in pieces of any size. [Fastpath]: the kernel's
      framing state machine and redirect decisions. [Switch]: [switch.rs].
    - [Dhcp], [Dns]: the two servers. [Gateway]: neighbour table, held packets
      and dispatch. [Router]: legs, routes and verdicts.
    - [NatEngine]: the state the NAT tasks share and the host guard. [Vtcp],
      [VtcpFlow], [VtcpTask]: segments, one flow's state and its task ([vtcp.rs]).
      [Nat]: dispatch, UDP, echo and engine-originated flows.
    - [Ledger], [Plan]: [ledger.rs] and [plan.rs]. [Converge]: the abstract
      effect of a plan. [Effects]: programs over calls whose answers nobody
      controls, and their traces. [Apply]: [apply.rs]. [Reseed]: [reseed.rs].
    - [TableCache]: the cache of tables and the packed refcount fields.
      [Disk]: the interface of a disk image ([DiskImage]), what one image
      promises to the image over it ([DiskContents]), and raw images. [Qcow2]:
      the state of a qcow2 image and its read path; [Qcow2Read]: what a guest
      byte is, and that reads return it. [Qcow2Alloc]: [refcount.rs].
      [Qcow2Write]: guest writes, discard, growth, flush and creation.
      [Qcow2Phys], [Qcow2Steps], [Qcow2Free]: what each step does to refcounts,
      tables and clusters, up to the allocator; [Qcow2Guest], [Qcow2Correct]:
      the invariant of a writable image, and that writes are correct;
      [Qcow2Reads]: what a read leaves; [Qcow2Discard]: that discards are
      correct. [Qcow2Open]: [parse], from a file to an image; [Qcow2Durable]:
      that a flush leaves a file that opens as the same disk; [Qcow2Header]:
      the backing reference in the header; [Qcow2Create]: that new images are
      valid.
    - [Qcow2Snapshot]: [snapshot.rs]. [Qcow2Walk], [Qcow2Copied]: what counting
      an L1 table's references and rewriting the copied bits do. [Qcow2Owned]:
      what snapshots own and what a step must leave of it ([stays]);
      [Qcow2SnapTable]: the snapshot table read back and the ids;
      [Qcow2Snaps]: the invariant of an image with snapshots ([snaps]);
      [Qcow2Reach]: the clusters an L1 table reaches; [Qcow2Counted]: that
      every reference is counted ([kept]). [Qcow2SnapApply], [Qcow2SnapTake],
      [Qcow2SnapDelete]: applying, taking and deleting a snapshot.
      [Qcow2History]: the disk with named versions that an image implements.

    ** How code is modelled

    Machine integers are [Z] with their wrap-around written out; bytes are
    [list Z]; a Rust string is its UTF-8 bytes; an IPv4 address is its [u32]. A
    [HashMap] is a [gmap]; iterating a [BTreeMap] or [BTreeSet] of strings is
    [in_order]. A slice or index that can be out of range gives [Panic]. The
    clock is an argument in nanoseconds. What a task sends to channels, sockets
    or other tasks is a list of actions; tokio's [select!] is a choice among the
    enabled branches, so step relations over all choices cover every schedule.
    Code of other crates is a class with the operations the source calls
    ([Ipv4NetOps], [LedgerJson], the writer of a proxied stream) or a parameter
    (SHA-256, [str::to_lowercase]); laws are stated only where a theorem needs
    them, with an instance that satisfies them.

    ** What is shown

    - Codecs: builders and parsers of frames, options, names and metadata round
      trip; the checksum is that of RFC 1071 and every one written verifies; the
      frame reader refines the flat specification however the stream is cut; a
      GSO packet is cut exactly when it can be, into the segments a receiver
      expects.
    - Isolation and routing: the switch delivers to exactly the ports the rules
      and the isolation flags allow, the kernel's redirects are ones the switch
      would make in every state but a removal's two halves, rules decide by
      specificity and order with the rewritten packet and the owed answer
      spelled out, port mappings map replies back, the router's verdict on every packet is the one its table
      says, and the guard never lets an isolated lab open a flow to its host.
    - Services: no two DHCP clients hold one address, both servers answer
      exactly what their specifications say and never panic.
    - vTCP: what the host reads is a prefix of what the guest sent whatever the
      network does, and the other way round; no input panics a flow; a silent
      flow ends; a live one never stalls. Over a whole run of the engine, frames
      that reach one flow task or socket are of one flow.
    - Workspace: a plan only ever lands on a copy that is exactly what was
      agreed, or that the developer ruled against; conflicts and adoptions are
      exact of what hashed trees hold; every path is settled; mass deletions of
      the canonical copy, however many were answered for, are held back; both directions are one rule; a pass that lands in full is the
      last. Under any failure and any concurrent writer, [apply] replaces or
      removes only a destination it has just checked, and records only what it
      has seen; a re-seed restores host truth and never writes to the host.
    - Disk images: the cache loses no table; a read through any mapping, cache
      state and backing chain returns the mapped bytes; the allocator hands out
      only free clusters, and one for every cluster of [room]: those the
      refcount table can still describe; a guest write changes the bytes it
      names and neither another guest byte nor a cluster that a snapshot
      shares; a discard gives the whole clusters in its range back to the
      allocator and shows the backing image there; after a flush
      the file alone opens as the disk that was written; a new image opens
      with the size and backing reference asked for and shows its backing.
    - Snapshots: an image is a disk with named versions of it. Any sequence of
      reads, writes, discards, flushes, restarts from the file, and listing,
      taking, applying and deleting of snapshots, refused ones included, returns what
      that abstract disk returns: applying a snapshot gives back every byte as
      it was, and deleting one touches no other. The theorem is about snapshots
      without vmstate whose L1 table and snapshot table fit one cluster each,
      which is what the code writes for disks of up to 4 TiB at 64 KiB
      clusters.

    ** Fuel

    Loops without a structural argument run on fuel, and a lemma shows that it
    is enough: six rounds fold any 64-bit sum ([fold_carry_exits]); the option
    and name loops of DHCP and DNS consume a byte a round, so the length of the
    message bounds them and their [Panic] for missing fuel never comes out;
    the volume descent of [Plan] lengthens its prefix every round
    ([volume_prefix_fuel]). Reads and writes of a disk image advance a byte or
    more a round ([read_bytes_spec], [write_bytes_spec]). The allocator's
    functions call each other; [ALLOC_FUEL] bounds the depth of the calls, and
    [find_free_spec] shows that an image with [room] left needs no more than
    five of them. The loops of [parse] over header
    extensions and UTF-8 text take a byte or more a round; their fuel is the
    number of bytes. A [u64] has at most twenty digits ([parse_to_string]).

    ** Not modelled

    Sockets, processes and files themselves; the port forwarder and the kernel
    loaders of the fabric, which only move bytes between them; configuration,
    templates, images and registries; the daemons and the command line; the
    virtual machine monitor and its devices; the guest agent and its protocol.
    Of the disk images: finding and opening backing files, conversions between
    images, and failures of the host's disk; the write theorem is about images
    without compressed clusters, and growing, the vmstate of a snapshot and the
    read-only view are modelled but no theorem is about them.
    Of the workspace: scanning, watching, ignore rules (a third-party matcher)
    and the syncer's task, which feed [reconcile] and [apply] their arguments. *)

From Stdlib Require Export ZArith Lia.
From stdpp Require Export base tactics list gmap strings sorting.
#[global] Open Scope Z_scope.

(** ** Panics as values

    Rust code panics on an out-of-range slice, index or [copy_from_slice].
    A function of the source that computes such an index returns [outcome];
    its totality theorem says that [Panic] never comes out. *)

Inductive outcome (A : Type) : Type :=
| Ret (a : A)
| Panic.
Arguments Ret {A} _.
Arguments Panic {A}.

#[global] Instance outcome_ret : MRet outcome := λ A a, Ret a.
#[global] Instance outcome_bind : MBind outcome := λ A B f m,
  match m with Ret a => f a | Panic => Panic end.
#[global] Instance outcome_fmap : FMap outcome := λ A B f m,
  match m with Ret a => Ret (f a) | Panic => Panic end.

Definition returns {A} (m : outcome A) : Prop := ∃ a, m = Ret a.

(** ** I/O results

    [io::Result]: a value or an error of a kind. Where the code of an
    [io::Result] function also slices at computed offsets, [Crash] is the
    panic. *)

Inductive io_kind := InvalidData | InvalidInput | UnexpectedEof.
#[global] Instance io_kind_eq_dec : EqDecision io_kind.
Proof. solve_decision. Defined.

Inductive io (A : Type) : Type :=
| Ok (a : A)
| Err (k : io_kind)
| Crash.
Arguments Ok {A} _.
Arguments Err {A} _.
Arguments Crash {A}.

#[global] Instance io_ret : MRet io := λ A a, Ok a.
#[global] Instance io_bind : MBind io := λ A B f m,
  match m with Ok a => f a | Err k => Err k | Crash => Crash end.
#[global] Instance io_fmap : FMap io := λ A B f m,
  match m with Ok a => Ok (f a) | Err k => Err k | Crash => Crash end.

(** A panicking operation inside an [io::Result] function, and
    [.ok_or_else(..)?]. *)
Definition lift {A} (m : outcome A) : io A :=
  match m with Ret a => Ok a | Panic => Crash end.
Definition ok_or {A} (k : io_kind) (o : option A) : io A :=
  match o with Some a => Ok a | None => Err k end.

(** [io_spec P x]: [x] does not crash, its only error is [InvalidData], and
    a value it returns satisfies [P]. *)
Definition io_spec {A} (P : A → Prop) (x : io A) : Prop :=
  match x with Ok a => P a | Err k => k = InvalidData | Crash => False end.

Lemma io_spec_bind {A B} (P : A → Prop) (Q : B → Prop) (x : io A) (f : A → io B) :
  io_spec P x → (∀ a, x = Ok a → P a → io_spec Q (f a)) → io_spec Q (x ≫= f).
Proof. destruct x; cbn; auto. Qed.
Lemma io_spec_mono {A} (P Q : A → Prop) (x : io A) :
  io_spec P x → (∀ a, P a → Q a) → io_spec Q x.
Proof. destruct x; cbn; auto. Qed.
Lemma io_spec_Ok {A} (P : A → Prop) (x : io A) a : io_spec P x → x = Ok a → P a.
Proof. by intros H ->. Qed.

(** Peel one bind of an [io] computation known to return. *)
Lemma bind_Ok {A B} (x : io A) (f : A → io B) r :
  (x ≫= f) = Ok r → ∃ a, x = Ok a ∧ f a = Ok r.
Proof. destruct x; cbn; try done. eauto. Qed.
Ltac bind_inv H :=
  let a := fresh "a" in let E := fresh "E" in
  apply bind_Ok in H as (a & E & H).

(** ** Machine integers: a [w]-bit unsigned integer is a [Z] in range *)

Definition wrap8 (z : Z) : Z := z mod 2 ^ 8.
Definition wrap16 (z : Z) : Z := z mod 2 ^ 16.
Definition wrap32 (z : Z) : Z := z mod 2 ^ 32.
Definition wrap64 (z : Z) : Z := z mod 2 ^ 64.

Definition is_u8 (z : Z) : Prop := 0 ≤ z < 256.
Definition is_u16 (z : Z) : Prop := 0 ≤ z < 65536.
Definition is_u32 (z : Z) : Prop := 0 ≤ z < 4294967296.

(** [a.wrapping_add(b)] and [a.wrapping_sub(b)] on [u32]. *)
Definition wadd32 (a b : Z) : Z := wrap32 (a + b).
Definition wsub32 (a b : Z) : Z := wrap32 (a - b).

(** [a.saturating_sub(b)] on an unsigned type. *)
Definition sat_sub (a b : Z) : Z := Z.max 0 (a - b).

(** [n.div_ceil(d)] on [usize]. *)
Definition div_ceil (n d : Z) : Z := (n + d - 1) / d.

(** ** Byte buffers *)

Abbreviation bytes := (list Z) (only parsing).

Definition bytes_ok (l : bytes) : Prop := Forall is_u8 l.

(** [buf.len()] as a machine integer. *)
Definition len {A} (l : list A) : Z := Z.of_nat (length l).

(** [buf[i]] and [&buf[a..b]] where the source has already checked the
    range; the in-range facts are theorems about the checking code. *)
Definition idx (l : bytes) (i : Z) : Z := nth (Z.to_nat i) l 0.
Definition slice {A} (l : list A) (a b : Z) : list A :=
  take (Z.to_nat (b - a)) (drop (Z.to_nat a) l).

(** The same operations where the range is computed from packet contents:
    they panic as the source's do. *)
Definition slice_chk {A} (l : list A) (a b : Z) : outcome (list A) :=
  if (0 <=? a) && (a <=? b) && (b <=? len l) then Ret (slice l a b) else Panic.
Definition idx_chk (l : bytes) (i : Z) : outcome Z :=
  if (0 <=? i) && (i <? len l) then Ret (idx l i) else Panic.

(** [buf[off..off + src.len()].copy_from_slice(src)]. *)
Definition splice {A} (l : list A) (off : Z) (src : list A) : list A :=
  take (Z.to_nat off) l ++ src ++ drop (Z.to_nat off + length src) l.
Definition copy_at {A} (l : list A) (off : Z) (src : list A) : outcome (list A) :=
  if (0 <=? off) && (off + len src <=? len l) then Ret (splice l off src) else Panic.

(** [buf.get(a..b)]. *)
Definition get_range {A} (l : list A) (a b : Z) : option (list A) :=
  if (0 <=? a) && (a <=? b) && (b <=? len l) then Some (slice l a b) else None.
Definition get_idx (l : bytes) (i : Z) : option Z :=
  if (0 <=? i) && (i <? len l) then Some (idx l i) else None.

(** Big-endian encodings ([to_be_bytes], [from_be_bytes]). *)
Definition be16 (n : Z) : bytes := [n / 256; n mod 256].
Definition be32 (n : Z) : bytes :=
  [n / 16777216; n / 65536 mod 256; n / 256 mod 256; n mod 256].
Definition of_be16 (a b : Z) : Z := a * 256 + b.
Definition of_be32 (a b c d : Z) : Z := ((a * 256 + b) * 256 + c) * 256 + d.

(** ** Automation *)

Create HintDb vmlab.

Ltac ints :=
  unfold is_u8, is_u16, is_u32, wadd32, wsub32, sat_sub, div_ceil,
    wrap8, wrap16, wrap32, wrap64, of_be16, of_be32 in *.

(** Case analysis on the boolean comparisons of the source, keeping the
    arithmetic facts. *)
Ltac bsplit :=
  repeat match goal with
  | H : _ && _ = true |- _ => apply andb_true_iff in H; destruct H
  | H : _ || _ = false |- _ => apply orb_false_iff in H; destruct H
  | H : negb _ = true |- _ => apply negb_true_iff in H
  | H : negb _ = false |- _ => apply negb_false_iff in H
  | H : (_ <? _) = true |- _ => apply Z.ltb_lt in H
  | H : (_ <? _) = false |- _ => apply Z.ltb_ge in H
  | H : (_ <=? _) = true |- _ => apply Z.leb_le in H
  | H : (_ <=? _) = false |- _ => apply Z.leb_gt in H
  | H : (_ =? _) = true |- _ => apply Z.eqb_eq in H
  | H : (_ =? _) = false |- _ => apply Z.eqb_neq in H
  end.

(** Destruct the scrutinee of the goal's or a hypothesis' outermost match. *)
Ltac case_goal :=
  match goal with
  | |- context [match ?x with _ => _ end] => destruct x eqn:?
  end.
Ltac case_in H :=
  match type of H with
  | context [match ?x with _ => _ end] => destruct x eqn:?
  end.

(** Range facts about concrete values, by evaluation. *)
#[global] Instance is_u8_dec z : Decision (is_u8 z).
Proof. unfold is_u8. apply _. Defined.
#[global] Instance is_u16_dec z : Decision (is_u16 z).
Proof. unfold is_u16. apply _. Defined.
#[global] Instance is_u32_dec z : Decision (is_u32 z).
Proof. unfold is_u32. apply _. Defined.
#[global] Instance bytes_ok_dec l : Decision (bytes_ok l).
Proof. unfold bytes_ok. apply _. Defined.
Ltac concrete := apply (bool_decide_unpack _); vm_compute; exact I.

(** ** Lengths *)

Lemma len_nonneg {A} (l : list A) : 0 ≤ len l.
Proof. unfold len; lia. Qed.
#[export] Hint Resolve len_nonneg : vmlab.

Lemma len_nil {A} : len (@nil A) = 0.
Proof. reflexivity. Qed.
Lemma len_cons {A} (x : A) l : len (x :: l) = 1 + len l.
Proof. unfold len; simpl; lia. Qed.
Lemma len_incl {A} (l k : list A) : NoDup l → (∀ x, x ∈ l → x ∈ k) → len l ≤ len k.
Proof. intros Hl Hi. unfold len. apply inj_le, submseteq_length, NoDup_submseteq; done. Qed.
Lemma len_app {A} (l1 l2 : list A) : len (l1 ++ l2) = len l1 + len l2.
Proof. unfold len; rewrite length_app; lia. Qed.
Lemma len_take {A} (l : list A) n : len (take n l) = Z.min (Z.of_nat n) (len l).
Proof. unfold len; rewrite length_take; lia. Qed.
Lemma len_drop {A} (l : list A) n : len (drop n l) = Z.max 0 (len l - Z.of_nat n).
Proof. unfold len; rewrite length_drop; lia. Qed.
Lemma len_replicate {A} n (x : A) : len (replicate n x) = Z.of_nat n.
Proof. unfold len; rewrite length_replicate; lia. Qed.
Lemma len_be16 n : len (be16 n) = 2.
Proof. reflexivity. Qed.
Lemma len_be32 n : len (be32 n) = 4.
Proof. reflexivity. Qed.
Lemma to_nat_len {A} (l : list A) : Z.to_nat (len l) = length l.
Proof. unfold len; lia. Qed.

Create Rewrite HintDb len.
#[export] Hint Rewrite @len_nil @len_cons @len_app @len_take @len_drop
  @len_replicate len_be16 len_be32 : len.

(** Arithmetic over buffer lengths. *)
Ltac lens :=
  repeat match goal with
  | |- context [len ?l] =>
      lazymatch goal with
      | _ : 0 ≤ len l |- _ => fail
      | _ => pose proof (len_nonneg l)
      end
  | _ : context [len ?l] |- _ =>
      lazymatch goal with
      | _ : 0 ≤ len l |- _ => fail
      | _ => pose proof (len_nonneg l)
      end
  end.
Ltac len_lia := autorewrite with len in *; lens; lia.

Lemma len_slice {A} (l : list A) a b :
  0 ≤ a ≤ b → b ≤ len l → len (slice l a b) = b - a.
Proof. intros. unfold slice. len_lia. Qed.
Lemma len_slice_le {A} (l : list A) a b :
  0 ≤ a ≤ b → len (slice l a b) ≤ b - a.
Proof. intros. unfold slice. len_lia. Qed.
Lemma len_splice {A} (l : list A) off src :
  0 ≤ off → off + len src ≤ len l → len (splice l off src) = len l.
Proof. intros. unfold splice. autorewrite with len. unfold len in *. lia. Qed.

(** ** Reading through concatenations *)

Lemma idx_app_l l1 l2 i : 0 ≤ i < len l1 → idx (l1 ++ l2) i = idx l1 i.
Proof. unfold idx, len. intros. apply app_nth1. lia. Qed.
Lemma idx_app_r l1 l2 i : len l1 ≤ i → idx (l1 ++ l2) i = idx l2 (i - len l1).
Proof.
  unfold idx, len. intros. rewrite app_nth2 by lia. f_equal. lia.
Qed.
Lemma idx_take l n i : 0 ≤ i < Z.of_nat n → idx (take n l) i = idx l i.
Proof.
  unfold idx. intros.
  rewrite <-!nth_default_eq. unfold nth_default.
  rewrite <-(take_drop n l) at 2.
  destruct (decide (i < len (take n l))).
  - unfold len in *. rewrite nth_error_app1 by lia. done.
  - rewrite length_take in * || idtac. unfold len in *. rewrite length_take in *.
    rewrite drop_ge by lia. rewrite app_nil_r. done.
Qed.
Lemma idx_drop l n i : 0 ≤ i → idx (drop n l) i = idx l (Z.of_nat n + i).
Proof.
  unfold idx. intros. rewrite nth_skipn. f_equal. lia.
Qed.
Lemma idx_slice l a b i : 0 ≤ a → 0 ≤ i < b - a → idx (slice l a b) i = idx l (a + i).
Proof.
  intros. unfold slice. rewrite idx_take by lia. rewrite idx_drop by lia.
  f_equal. lia.
Qed.
Lemma idx_splice_in l off src i :
  0 ≤ off → off + len src ≤ len l → off ≤ i < off + len src →
  idx (splice l off src) i = idx src (i - off).
Proof.
  intros. unfold splice. rewrite idx_app_r by len_lia.
  rewrite idx_app_l by len_lia. f_equal. len_lia.
Qed.
Lemma idx_splice_out l off src i :
  0 ≤ off → off + len src ≤ len l → 0 ≤ i → i < off ∨ off + len src ≤ i →
  idx (splice l off src) i = idx l i.
Proof.
  intros ? ? ? [?|?]; unfold splice.
  - rewrite idx_app_l by len_lia. apply idx_take. lia.
  - rewrite idx_app_r by len_lia. rewrite idx_app_r by len_lia.
    rewrite idx_drop by len_lia. f_equal. unfold len in *. rewrite length_take. lia.
Qed.

Lemma idx_ext (l1 l2 : bytes) :
  len l1 = len l2 → (∀ i, 0 ≤ i < len l1 → idx l1 i = idx l2 i) → l1 = l2.
Proof.
  unfold len, idx. intros Hl Hi. apply (nth_ext _ _ 0 0); [lia|]. intros n Hn.
  specialize (Hi (Z.of_nat n)). rewrite Nat2Z.id in Hi. apply Hi. lia.
Qed.

Lemma slice_app_l {A} (l1 l2 : list A) a b :
  0 ≤ a ≤ b → b ≤ len l1 → slice (l1 ++ l2) a b = slice l1 a b.
Proof.
  unfold slice, len. intros. rewrite drop_app_le by lia.
  apply take_app_le. rewrite length_drop. lia.
Qed.
Lemma slice_app_r {A} (l1 l2 : list A) a b :
  len l1 ≤ a → slice (l1 ++ l2) a b = slice l2 (a - len l1) (b - len l1).
Proof.
  unfold slice, len. intros. rewrite drop_app_ge by lia. f_equal; [lia|]. f_equal; lia.
Qed.
Lemma slice_full {A} (l : list A) b : len l ≤ b → slice l 0 b = l.
Proof. unfold slice, len. intros. rewrite drop_0. apply take_ge. lia. Qed.
Lemma slice_to_end {A} (l : list A) a b : 0 ≤ a → len l ≤ b → slice l a b = drop (Z.to_nat a) l.
Proof. unfold slice, len. intros. apply take_ge. rewrite length_drop. lia. Qed.
Lemma take_slice {A} (l : list A) a b :
  0 ≤ a ≤ b → take (Z.to_nat b) l = take (Z.to_nat a) l ++ slice l a b.
Proof.
  intros. unfold slice. replace (Z.to_nat b) with (Z.to_nat a + Z.to_nat (b - a))%nat by lia.
  by rewrite take_take_drop.
Qed.
Lemma drop_slice {A} (l : list A) a b d :
  0 ≤ a → 0 ≤ d → drop (Z.to_nat d) (slice l a b) = slice l (a + d) b.
Proof.
  intros. unfold slice. rewrite skipn_firstn_comm, drop_drop.
  f_equal; [lia|f_equal; lia].
Qed.
Lemma slice_chk_ret {A} (l : list A) a b :
  0 ≤ a ≤ b → b ≤ len l → slice_chk l a b = Ret (slice l a b).
Proof.
  intros. unfold slice_chk.
  rewrite !(proj2 (Z.leb_le _ _)) by lia. reflexivity.
Qed.
Lemma copy_at_ret {A} (l : list A) off src :
  0 ≤ off → off + len src ≤ len l → copy_at l off src = Ret (splice l off src).
Proof.
  intros. unfold copy_at.
  rewrite !(proj2 (Z.leb_le _ _)) by lia. reflexivity.
Qed.
Lemma idx_chk_ret l i : 0 ≤ i < len l → idx_chk l i = Ret (idx l i).
Proof.
  intros. unfold idx_chk.
  rewrite (proj2 (Z.leb_le _ _)), (proj2 (Z.ltb_lt _ _)) by lia. reflexivity.
Qed.

(** ** Byte ranges *)

Lemma is_u8_div16 n : is_u16 n → is_u8 (n / 256).
Proof. ints. intros. split; [apply Z.div_pos; lia|]. apply Z.div_lt_upper_bound; lia. Qed.
Lemma is_u8_mod n : is_u8 (n mod 256).
Proof. ints. apply Z.mod_pos_bound. lia. Qed.
Lemma bytes_ok_be16 n : is_u16 n → bytes_ok (be16 n).
Proof. intros. repeat constructor; auto using is_u8_div16, is_u8_mod; apply is_u8_mod || idtac.
  all: pose proof (is_u8_div16 n H); pose proof (is_u8_mod n); ints; lia. Qed.
Lemma bytes_ok_be32 n : is_u32 n → bytes_ok (be32 n).
Proof.
  intros H. pose proof (is_u8_mod n). pose proof (is_u8_mod (n / 256)).
  pose proof (is_u8_mod (n / 65536)).
  assert (is_u8 (n / 16777216)).
  { ints. split; [apply Z.div_pos; lia|]. apply Z.div_lt_upper_bound; lia. }
  repeat constructor; ints; lia.
Qed.
Lemma bytes_ok_app l1 l2 : bytes_ok l1 → bytes_ok l2 → bytes_ok (l1 ++ l2).
Proof. intros. apply Forall_app. done. Qed.
Lemma bytes_ok_take n l : bytes_ok l → bytes_ok (take n l).
Proof. apply Forall_take. Qed.
Lemma bytes_ok_drop n l : bytes_ok l → bytes_ok (drop n l).
Proof. apply Forall_drop. Qed.
Lemma bytes_ok_slice l a b : bytes_ok l → bytes_ok (slice l a b).
Proof. intros. by apply bytes_ok_take, bytes_ok_drop. Qed.
Lemma bytes_ok_splice l off src : bytes_ok l → bytes_ok src → bytes_ok (splice l off src).
Proof.
  intros. unfold splice.
  auto using bytes_ok_app, bytes_ok_take, bytes_ok_drop.
Qed.
Lemma bytes_ok_zeros n : bytes_ok (replicate n 0).
Proof. apply Forall_replicate. ints. lia. Qed.
Lemma bytes_ok_nil : bytes_ok [].
Proof. constructor. Qed.
Lemma bytes_ok_cons b l : is_u8 b → bytes_ok l → bytes_ok (b :: l).
Proof. constructor; done. Qed.
#[export] Hint Resolve bytes_ok_be16 bytes_ok_be32 bytes_ok_app bytes_ok_take
  bytes_ok_drop bytes_ok_slice bytes_ok_splice bytes_ok_zeros bytes_ok_nil
  bytes_ok_cons is_u8_mod is_u8_div16 : vmlab.

Lemma idx_u8 l i : bytes_ok l → is_u8 (idx l i).
Proof.
  intros Hl. unfold idx. destruct (decide (Z.to_nat i < length l)%nat).
  - assert (Hin : In (nth (Z.to_nat i) l 0) l) by (apply nth_In; lia).
    eapply Forall_forall in Hl; [exact Hl|]. by apply list_elem_of_In.
  - rewrite nth_overflow by lia. ints. lia.
Qed.
#[export] Hint Resolve idx_u8 : vmlab.
#[export] Hint Extern 2 (is_u8 _) => (unfold is_u8; lia) : vmlab.
#[export] Hint Extern 2 (is_u16 _) => (unfold is_u16; lia) : vmlab.
#[export] Hint Extern 2 (is_u32 _) => (unfold is_u32; lia) : vmlab.

Lemma of_be16_u16 a b : is_u8 a → is_u8 b → is_u16 (of_be16 a b).
Proof. ints. lia. Qed.
Lemma of_be32_u32 a b c d : is_u8 a → is_u8 b → is_u8 c → is_u8 d → is_u32 (of_be32 a b c d).
Proof. ints. lia. Qed.
#[export] Hint Resolve of_be16_u16 of_be32_u32 : vmlab.

Lemma of_be16_be16 n : of_be16 (n / 256) (n mod 256) = n.
Proof. unfold of_be16. rewrite (Z.div_mod n 256) at 3 by lia. lia. Qed.
Lemma of_be32_be32 n :
  of_be32 (n / 16777216) (n / 65536 mod 256) (n / 256 mod 256) (n mod 256) = n.
Proof.
  unfold of_be32.
  pose proof (Z.div_mod n 256 ltac:(lia)).
  pose proof (Z.div_mod (n / 256) 256 ltac:(lia)).
  pose proof (Z.div_mod (n / 65536) 256 ltac:(lia)).
  replace (n / 16777216) with (n / 65536 / 256) by (rewrite Z.div_div by lia; f_equal; lia).
  replace (n / 256 / 256) with (n / 65536) in * by (rewrite Z.div_div by lia; f_equal; lia).
  lia.
Qed.
Lemma be16_of_be16 a b : is_u8 a → is_u8 b → be16 (of_be16 a b) = [a; b].
Proof.
  ints. intros. unfold be16. f_equal; [|f_equal].
  - rewrite Z.add_comm, Z.div_add by lia. rewrite Z.div_small by lia. lia.
  - rewrite Z.add_comm, Z.mod_add by lia. apply Z.mod_small. lia.
Qed.

(** ** Keeping the best element of a list

    The loop that the rule engine and the DNS zone share: walk the list,
    skip what does not match, and replace the current best only by a
    strictly greater key, so that ties keep the earlier element. *)

Section best.
Context {A K : Type} (matches : A → bool) (key : A → K) (gtb : K → K → bool).

Definition best_step (best : option (A * K)) (x : A) : option (A * K) :=
  if matches x then
    match best with
    | None => Some (x, key x)
    | Some (_, k) => if gtb (key x) k then Some (x, key x) else best
    end
  else best.
Definition best_loop (l : list A) : option (A * K) := foldl best_step None l.

Context (gtb_trans : ∀ a b c, gtb a b = true → gtb b c = true → gtb a c = true)
  (gtb_neg_trans : ∀ a b c, gtb a b = false → gtb b c = false → gtb a c = false).

(** [x] is the best of [l]: it matches, strictly beats every matching
    element before it and is not beaten by one after it. *)
Definition is_best (l : list A) (x : A) : Prop :=
  ∃ l1 l2, l = l1 ++ x :: l2 ∧ matches x = true ∧
    (∀ y, y ∈ l1 → matches y = true → gtb (key x) (key y) = true) ∧
    (∀ y, y ∈ l2 → matches y = true → gtb (key y) (key x) = false).

Lemma best_loop_spec l :
  match best_loop l with
  | None => ∀ y, y ∈ l → matches y = false
  | Some (x, k) => k = key x ∧ is_best l x
  end.
Proof using gtb_trans gtb_neg_trans.
  unfold best_loop. induction l as [|y l IH] using rev_ind; [intros y Hy; by apply elem_of_nil in Hy|].
  rewrite foldl_snoc. destruct (foldl best_step None l) as [[x k]|].
  - destruct IH as (-> & l1 & l2 & -> & Hm & Hb & Ha). unfold best_step.
    destruct (matches y) eqn:Hy; [destruct (gtb (key y) (key x)) eqn:Hg|]; split; try done.
    + exists (l1 ++ x :: l2), []. split_and!; [done|done| |intros z Hz; by apply elem_of_nil in Hz].
      intros z Hz Hmz. apply elem_of_app in Hz as [Hz|Hz]; [by eapply gtb_trans; eauto|].
      apply elem_of_cons in Hz as [->|Hz]; [done|].
      destruct (gtb (key y) (key z)) eqn:Hyz; [done|].
      rewrite (gtb_neg_trans _ _ _ Hyz (Ha z Hz Hmz)) in Hg. done.
    + exists l1, (l2 ++ [y]). rewrite <-app_assoc. split_and!; try done.
      intros z Hz Hmz. apply elem_of_app in Hz as [Hz|Hz]; [by apply Ha|].
      apply list_elem_of_singleton in Hz as ->. done.
    + exists l1, (l2 ++ [y]). rewrite <-app_assoc. split_and!; try done.
      intros z Hz Hmz. apply elem_of_app in Hz as [Hz|Hz]; [by apply Ha|].
      apply list_elem_of_singleton in Hz as ->. congruence.
  - unfold best_step. destruct (matches y) eqn:Hy.
    + split; [done|]. exists l, []. split_and!; try done.
      * intros z Hz Hmz. rewrite IH in Hmz; done.
      * intros z Hz. by apply elem_of_nil in Hz.
    + intros z Hz. apply elem_of_app in Hz as [Hz|Hz]; [by apply IH|].
      by apply list_elem_of_singleton in Hz as ->.
Qed.

Lemma best_loop_Some l x k :
  best_loop l = Some (x, k) → k = key x ∧ is_best l x.
Proof using gtb_trans gtb_neg_trans.
  intros E. pose proof (best_loop_spec l) as H. by rewrite E in H.
Qed.

Lemma best_loop_None l : best_loop l = None ↔ ∀ y, y ∈ l → matches y = false.
Proof using gtb_trans gtb_neg_trans.
  pose proof (best_loop_spec l) as H. destruct (best_loop l) as [[x k]|]; [|done].
  split; [done|]. intros Hn. destruct H as (_ & l1 & l2 & -> & Hm & _).
  rewrite Hn in Hm; [done|]. apply elem_of_app. right. left.
Qed.

Lemma is_best_elem l x : is_best l x → x ∈ l ∧ matches x = true.
Proof using. intros (l1 & l2 & -> & Hm & _). split; [|done]. apply elem_of_app. right. left. Qed.
End best.

(** ** Reachability *)

Lemma rtc_preserves {A} (R : relation A) (P : A → Prop) x y :
  (∀ a b, P a → R a b → P b) → rtc R x y → P x → P y.
Proof. intros Hs. induction 1; eauto. Qed.

(** ** Filters *)

Lemma filter_keep {A} (P : A → Prop) `{∀ x, Decision (P x)} (l : list A) :
  (∀ x, x ∈ l → P x) → filter P l = l.
Proof.
  induction l as [|x l IH]; intros Hp; [done|]. rewrite filter_cons, decide_True by set_solver.
  f_equal. apply IH. set_solver.
Qed.

(** ** Splices seen from one side of a cut *)

Lemma drop_splice_lo {A} (l : list A) off src n :
  0 ≤ off → off + len src ≤ Z.of_nat n → off + len src ≤ len l →
  drop n (splice l off src) = drop n l.
Proof.
  unfold splice, len. intros. rewrite app_assoc, drop_app_ge.
  - rewrite drop_drop. f_equal. rewrite length_app, length_take. lia.
  - rewrite length_app, length_take. lia.
Qed.
Lemma drop_splice_hi {A} (l : list A) off src n :
  Z.of_nat n ≤ off → off + len src ≤ len l →
  drop n (splice l off src) = splice (drop n l) (off - Z.of_nat n) src.
Proof.
  unfold splice, len. intros. rewrite drop_app_le by (rewrite length_take; lia).
  rewrite skipn_firstn_comm, drop_drop. f_equal; [f_equal; lia|]. do 2 f_equal. lia.
Qed.
Lemma take_splice_hi {A} (l : list A) off src n :
  Z.of_nat n ≤ off → off + len src ≤ len l → take n (splice l off src) = take n l.
Proof.
  unfold splice, len. intros. rewrite take_app_le by (rewrite length_take; lia).
  rewrite take_take. f_equal. lia.
Qed.
Lemma take_splice_lo {A} (l : list A) off src n :
  0 ≤ off → off + len src ≤ Z.of_nat n → off + len src ≤ len l →
  take n (splice l off src) = splice (take n l) off src.
Proof.
  unfold splice, len. intros.
  rewrite take_app_ge by (rewrite length_take; lia).
  rewrite take_app_ge by (rewrite length_take; lia).
  rewrite take_take, Nat.min_l by lia. f_equal. f_equal.
  rewrite !length_take. rewrite firstn_skipn_comm. f_equal. f_equal. lia.
Qed.

Lemma slice_splice_out {A} (l : list A) off src a b :
  0 ≤ a ≤ b → 0 ≤ off → off + len src ≤ len l → b ≤ off ∨ off + len src ≤ a →
  slice (splice l off src) a b = slice l a b.
Proof.
  intros Hab Hoff Hl [Hb|Ha]; unfold slice.
  - rewrite !firstn_skipn_comm, take_splice_hi; [done|lia|done].
  - rewrite drop_splice_lo; [done|lia|lia|done].
Qed.
Lemma slice_splice_in {A} (l : list A) off src a b :
  0 ≤ a → a ≤ off → off + len src ≤ b → b ≤ len l →
  slice (splice l off src) a b = splice (slice l a b) (off - a) src.
Proof.
  intros. pose proof (len_nonneg src). unfold slice. rewrite drop_splice_hi by lia.
  replace (off - Z.of_nat (Z.to_nat a)) with (off - a) by lia.
  rewrite take_splice_lo; [done|lia|lia|rewrite len_drop; lia].
Qed.

(** ** Checked writes *)

Lemma slice_tail {A} (l : list A) a : 0 ≤ a ≤ len l → slice_chk l a (len l) = Ret (drop (Z.to_nat a) l).
Proof. intros. rewrite slice_chk_ret by lia. f_equal. apply slice_to_end; lia. Qed.

(** Zeroing a field and storing [v] in it is one splice of [v]. *)
Lemma copy_twice out off a b v :
  0 ≤ off → off + 2 ≤ len out →
  copy_at out off [a; b] = Ret (splice out off [a; b]) ∧
  copy_at (splice out off [a; b]) off (be16 v) = Ret (splice out off (be16 v)).
Proof.
  intros. rewrite copy_at_ret by (change (len [a; b]) with 2; lia). split; [done|].
  rewrite copy_at_ret by (rewrite ?len_splice; rewrite ?len_be16; change (len [a; b]) with 2; lia).
  f_equal. unfold splice. cbn [length be16].
  rewrite take_app_le, take_take, Nat.min_id by (unfold len in *; rewrite length_take; lia).
  f_equal. f_equal. rewrite app_assoc.
  rewrite drop_app_ge by (unfold len in *; rewrite length_app, length_take; cbn; lia).
  rewrite drop_drop. f_equal. unfold len in *. rewrite length_app, length_take. cbn. lia.
Qed.

(** ** Edits confined to ranges

    [edited rs a b]: [b] has the length of [a] and differs from it only at
    offsets inside the ranges [rs], given as (offset, length). *)

Definition in_ranges (rs : list (Z * Z)) (i : Z) : Prop :=
  Exists (λ r, r.1 ≤ i < r.1 + r.2) rs.
Definition edited (rs : list (Z * Z)) (a b : bytes) : Prop :=
  len b = len a ∧ ∀ i, 0 ≤ i → ¬ in_ranges rs i → idx b i = idx a i.

Lemma edited_refl rs a : edited rs a a.
Proof. done. Qed.
Lemma edited_trans rs1 rs2 a b c :
  edited rs1 a b → edited rs2 b c → edited (rs1 ++ rs2) a c.
Proof.
  intros [L1 E1] [L2 E2]. split; [congruence|]. intros i Hi Hn.
  unfold in_ranges in Hn. rewrite Exists_app in Hn. rewrite E2, E1; tauto.
Qed.
Lemma edited_splice l off src :
  0 ≤ off → off + len src ≤ len l → edited [(off, len src)] l (splice l off src).
Proof.
  intros. split; [by apply len_splice|]. intros i Hi Hn. apply idx_splice_out; try done.
  destruct (decide (i < off)); [by left|]. destruct (decide (off + len src ≤ i)); [by right|].
  exfalso. apply Hn. constructor. cbn. lia.
Qed.
Lemma edited_weaken rs1 rs2 a b :
  (∀ i, in_ranges rs1 i → in_ranges rs2 i) → edited rs1 a b → edited rs2 a b.
Proof. intros Hs [L E]. split; [done|]. intros i Hi Hn. apply E; auto. Qed.
Lemma edited_idx rs a b i : edited rs a b → 0 ≤ i → ¬ in_ranges rs i → idx b i = idx a i.
Proof. intros [_ E]. apply E. Qed.
Lemma edited_len rs a b : edited rs a b → len b = len a.
Proof. by intros [? _]. Qed.

Lemma in_ranges_nil i : in_ranges [] i ↔ False.
Proof. unfold in_ranges. by rewrite Exists_nil. Qed.
Lemma in_ranges_cons o n rs i :
  in_ranges ((o, n) :: rs) i ↔ o ≤ i < o + n ∨ in_ranges rs i.
Proof. unfold in_ranges. by rewrite Exists_cons. Qed.
Lemma in_ranges_app rs1 rs2 i :
  in_ranges (rs1 ++ rs2) i ↔ in_ranges rs1 i ∨ in_ranges rs2 i.
Proof. unfold in_ranges. by rewrite Exists_app. Qed.

(** Goals about membership in concrete ranges. *)
Ltac ranges :=
  rewrite ?in_ranges_app, ?in_ranges_cons, ?in_ranges_nil in *; lia.

(** ** Filters *)

Lemma elem_of_not_nil {A} (l : list A) x : x ∈ l → l ≠ [].
Proof. intros Hx ->. by apply elem_of_nil in Hx. Qed.
Lemma filter_none {A} (P : A → Prop) `{∀ x, Decision (P x)} l : (∀ x, x ∈ l → ¬ P x) → filter P l = [].
Proof.
  induction l as [|x l IH]; intros Hn; [done|]. rewrite filter_cons_False by (apply Hn; by left).
  apply IH. intros y Hy. apply Hn. by right.
Qed.
Lemma len_filter_mono {A} (P Q : A → Prop) `{∀ x, Decision (P x)} `{∀ x, Decision (Q x)} l :
  (∀ x, P x → Q x) → len (filter P l) ≤ len (filter Q l).
Proof.
  intros HPQ. unfold len. apply inj_le. induction l as [|x l IH]; [done|]. rewrite !filter_cons.
  repeat case_decide; simpl; try lia. exfalso. auto.
Qed.

(** ** Strings and slices in order *)

(** [<=] on byte slices: lexicographic, a prefix is smaller. *)
Fixpoint bytes_leb (a b : bytes) : bool :=
  match a, b with
  | [], _ => true
  | _ :: _, [] => false
  | x :: a, y :: b => (x <? y) || ((x =? y) && bytes_leb a b)
  end.

Lemma bytes_leb_total a b : bytes_leb a b = false → bytes_leb b a = true.
Proof.
  revert b. induction a as [|x a IH]; intros [|y b]; cbn; try done.
  intros [H1 H2]%orb_false_iff. apply orb_true_iff. bsplit.
  destruct (decide (y < x)); [left; by apply Z.ltb_lt|right]. assert (x = y) as -> by lia.
  rewrite Z.eqb_refl in *. cbn in *. by apply IH.
Qed.
Lemma bytes_leb_antisym a b : bytes_leb a b = true → bytes_leb b a = true → a = b.
Proof.
  revert b. induction a as [|x a IH]; intros [|y b]; cbn; try done.
  intros H1 H2. apply orb_true_iff in H1, H2.
  assert (x = y) as ->.
  { destruct H1 as [H1|H1], H2 as [H2|H2]; bsplit; lia. }
  rewrite Z.ltb_irrefl, Z.eqb_refl in *. cbn in *. f_equal. apply IH; [by destruct H1|by destruct H2].
Qed.
Lemma bytes_leb_refl a : bytes_leb a a = true.
Proof. induction a as [|x a IH]; [done|]. cbn. by rewrite Z.ltb_irrefl, Z.eqb_refl, IH. Qed.
Lemma bytes_leb_trans a b c : bytes_leb a b = true → bytes_leb b c = true → bytes_leb a c = true.
Proof.
  revert b c. induction a as [|x a IH]; intros [|y b] [|z c]; cbn; try done.
  intros H1 H2. apply orb_true_iff in H1, H2. apply orb_true_iff.
  destruct H1 as [H1|[H1 Ha]%andb_prop], H2 as [H2|[H2 Hb]%andb_prop]; bsplit; [left; apply Z.ltb_lt; lia..|].
  right. apply andb_true_intro. split; [apply Z.eqb_eq; lia|by eapply IH].
Qed.

(** The order of [BTreeMap<String, _>] and [BTreeSet<String>]. *)
Definition bytes_le (a b : bytes) : Prop := bytes_leb a b = true.
#[global] Instance bytes_le_dec a b : Decision (bytes_le a b).
Proof. unfold bytes_le. apply _. Defined.
#[global] Instance bytes_le_total : Total bytes_le.
Proof. intros a b. unfold bytes_le. destruct (bytes_leb a b) eqn:E; [by left|right; by apply bytes_leb_total]. Qed.
#[global] Instance bytes_le_trans : Transitive bytes_le.
Proof. intros a b c. apply bytes_leb_trans. Qed.

(** The elements of a set in order: what iterating a [BTreeSet] gives. *)
Definition in_order (s : gset bytes) : list bytes := merge_sort bytes_le (elements s).

Lemma elem_of_in_order s x : x ∈ in_order s ↔ x ∈ s.
Proof. unfold in_order. rewrite merge_sort_Permutation. apply elem_of_elements. Qed.
Lemma NoDup_in_order s : NoDup (in_order s).
Proof. unfold in_order. rewrite merge_sort_Permutation. apply NoDup_elements. Qed.
Lemma Sorted_in_order s : Sorted bytes_le (in_order s).
Proof. apply Sorted_merge_sort, _. Qed.

(** A sorted list at two indices, and a sorted list filtered. *)
Lemma StronglySorted_lookup {A} (R : A → A → Prop) l j k x y :
  StronglySorted R l → l !! j = Some x → l !! k = Some y → (j < k)%nat → R x y.
Proof.
  intros Hs. revert j k. induction Hs as [|z l Hs IH Hz]; intros j k Hj Hk Hjk; [done|].
  destruct k as [|k]; [lia|]. simpl in Hk. destruct j as [|j]; simpl in Hj.
  - simplify_eq. rewrite Forall_forall in Hz. eapply Hz, list_elem_of_lookup_2, Hk.
  - eapply (IH j k); [done..|lia].
Qed.
Lemma StronglySorted_filtered {A} (R : A → A → Prop) (P : A → Prop) `{∀ x, Decision (P x)} l :
  StronglySorted R l → StronglySorted R (filter P l).
Proof.
  induction 1 as [|z l Hs IH Hz]; [constructor|]. rewrite filter_cons. case_decide; [|done]. constructor; [done|].
  rewrite Forall_forall in *. intros x [_ ?]%list_elem_of_filter. auto.
Qed.
Lemma bytes_leb_prefix a b : bytes_leb a (a ++ b) = true.
Proof. induction a as [|x a IH]; [done|]. cbn. by rewrite Z.ltb_irrefl, Z.eqb_refl, IH. Qed.
