(* ===== verification/Checksum.v ===== *)
(** * The internet checksum (RFC 1071)

    [internet_checksum] and [l4_checksum] of [src/net/frame.rs], with the
    one's-complement arithmetic that every checksum theorem of the
    development rests on: folding carries is the canonical representative
    modulo 65535, sums distribute over even-length prefixes, and storing the
    computed checksum at an even offset makes the buffer verify. *)

From S2P Require Import Prelude.

(** ** Definitions *)

(** The loop over [data.as_chunks::<2>()] and the odd trailing byte. *)
Fixpoint sum_be16 (data : bytes) (sum : Z) : Z :=
  match data with
  | hi :: lo :: rest => sum_be16 rest (sum + of_be16 hi lo)
  | [last] => sum + of_be16 last 0
  | [] => sum
  end.

(** [while sum > 0xFFFF { sum = (sum & 0xFFFF) + (sum >> 16) }]; the fuel is
    enough for every [u64] sum ([fold_carry_exits]). *)
Fixpoint fold_carry (fuel : nat) (sum : Z) : Z :=
  match fuel with
  | O => sum
  | S f =>
      if 0xFFFF <? sum
      then fold_carry f (Z.land sum 0xFFFF + Z.shiftr sum 16)
      else sum
  end.

Definition carry_fuel : nat := 6.

Definition internet_checksum (data : bytes) : Z :=
  Z.lxor (wrap16 (fold_carry carry_fuel (sum_be16 data 0))) 0xFFFF.

Definition octets (ip : Z) : bytes := be32 ip.

Definition pseudo_header (src dst proto segment_len : Z) : bytes :=
  octets src ++ octets dst ++ [0; proto] ++ be16 segment_len.

Definition l4_checksum (src dst proto : Z) (segment : bytes) : option Z :=
  if len segment <=? 0xFFFF
  then Some (internet_checksum (pseudo_header src dst proto (len segment) ++ segment))
  else None.

(** ** One's-complement arithmetic *)

(** The canonical representative of a one's-complement sum: 0 only for 0. *)
Definition oc_norm (s : Z) : Z := if s =? 0 then 0 else 1 + (s - 1) mod 65535.

Lemma fold_step s :
  Z.land s 0xFFFF + Z.shiftr s 16 = s mod 65536 + s / 65536.
Proof.
  change 0xFFFF with (Z.ones 16).
  rewrite Z.land_ones, Z.shiftr_div_pow2 by lia. reflexivity.
Qed.

Lemma oc_norm_step s : 65535 < s → oc_norm (s mod 65536 + s / 65536) = oc_norm s.
Proof.
  intros Hs. unfold oc_norm.
  assert (1 ≤ s / 65536) by (apply Z.div_le_lower_bound; lia).
  pose proof (Z.mod_pos_bound s 65536 ltac:(lia)).
  pose proof (Z.div_mod s 65536 ltac:(lia)).
  rewrite !(proj2 (Z.eqb_neq _ _)) by lia. f_equal.
  replace (s - 1) with (s mod 65536 + s / 65536 - 1 + (s / 65536) * 65535) by lia.
  by rewrite Z.mod_add by lia.
Qed.

Lemma oc_norm_small s : 0 ≤ s ≤ 65535 → oc_norm s = s.
Proof.
  intros. unfold oc_norm. case_goal; bsplit; [lia|].
  rewrite Z.mod_small by lia. lia.
Qed.

Lemma oc_norm_range s : 0 ≤ oc_norm s ≤ 65535.
Proof.
  unfold oc_norm. case_goal; [lia|].
  pose proof (Z.mod_pos_bound (s - 1) 65535 ltac:(lia)). lia.
Qed.

Lemma fold_step_shrinks s (k : Z) :
  0 ≤ k → 0 ≤ s < 2 ^ (16 + k) → 0 ≤ s mod 65536 + s / 65536 < 65536 + 2 ^ k.
Proof.
  intros Hk Hs. pose proof (Z.mod_pos_bound s 65536 ltac:(lia)).
  rewrite Z.pow_add_r in Hs by lia. change (2 ^ 16) with 65536 in Hs.
  assert (s / 65536 < 2 ^ k) by (apply Z.div_lt_upper_bound; lia).
  assert (0 ≤ s / 65536) by (apply Z.div_pos; lia). lia.
Qed.

(** The loop exits within the fuel and computes the canonical representative,
    for every sum a [u64] can hold. *)
Lemma fold_carry_exits s : 0 ≤ s < 2 ^ 64 → fold_carry carry_fuel s = oc_norm s.
Proof.
  intros Hs.
  assert (Hgen : ∀ fuel s, 0 ≤ s →
    (fuel = 6%nat ∧ s < 2 ^ 64 ∨ fuel = 5%nat ∧ s < 2 ^ 49 ∨ fuel = 4%nat ∧ s < 2 ^ 34 ∨
     fuel = 3%nat ∧ s < 2 ^ 19 ∨ fuel = 2%nat ∧ s < 65536 + 8 ∨ fuel = 1%nat ∧ s ≤ 65535) →
    fold_carry fuel s = oc_norm s).
  { clear. intros fuel. induction fuel as [|fuel IH]; intros s Hs0 Hc; [lia|].
    cbn [fold_carry]. destruct (0xFFFF <? s) eqn:E; bsplit; [|symmetry; apply oc_norm_small; lia].
    rewrite fold_step, <-oc_norm_step by lia.
    pose proof (Z.mod_pos_bound s 65536 ltac:(lia)).
    assert (0 ≤ s / 65536) by (apply Z.div_pos; lia).
    apply IH; [lia|].
    destruct Hc as [[Hf Hc]|[[Hf Hc]|[[Hf Hc]|[[Hf Hc]|[[Hf Hc]|[Hf Hc]]]]]]; try lia.
    - pose proof (fold_step_shrinks s 48 ltac:(lia) ltac:(lia)). lia.
    - pose proof (fold_step_shrinks s 33 ltac:(lia) ltac:(lia)). lia.
    - pose proof (fold_step_shrinks s 18 ltac:(lia) ltac:(lia)). lia.
    - pose proof (fold_step_shrinks s 3 ltac:(lia) ltac:(lia)). lia.
    - assert (s / 65536 = 1) as -> by (symmetry; apply (Z.div_unique s 65536 1 (s - 65536)); lia).
      pose proof (Z.div_mod s 65536 ltac:(lia)). lia. }
  apply Hgen; [lia|]. left. split; [reflexivity|lia].
Qed.

Lemma lxor_ffff s : 0 ≤ s ≤ 65535 → Z.lxor (wrap16 s) 0xFFFF = 65535 - s.
Proof.
  intros Hs. unfold wrap16. rewrite Z.mod_small by lia.
  change 0xFFFF with (Z.ones 16).
  replace (65535 - s) with (Z.ones 16 - s) by reflexivity.
  rewrite Z.sub_nocarry_ldiff.
  - apply Z.bits_inj'. intros n Hn. rewrite Z.lxor_spec, Z.ldiff_spec.
    destruct (decide (n < 16)).
    + rewrite Z.ones_spec_low by lia. by destruct (Z.testbit s n).
    + rewrite Z.ones_spec_high by lia.
      rewrite (Z.bits_above_log2 s n); [done|lia|].
      destruct (decide (s = 0)) as [->|]; [simpl; lia|].
      apply Z.log2_lt_pow2; [lia|].
      apply Z.lt_le_trans with (2 ^ 16); [lia|]. apply Z.pow_le_mono_r; lia.
  - apply Z.ldiff_ones_r_low; [lia|].
    destruct (decide (s = 0)) as [->|]; [simpl; lia|].
    apply Z.log2_lt_pow2; lia.
Qed.

(** ** Word sums *)

Lemma sum_be16_acc data acc : sum_be16 data acc = acc + sum_be16 data 0.
Proof.
  revert acc. induction data as [data IH] using (induction_ltof1 _ (@length Z)).
  intros acc. destruct data as [|a [|b r]]; simpl; [lia|ints; lia|].
  rewrite (IH r) by (unfold ltof; simpl; lia).
  rewrite (IH r ltac:(unfold ltof; simpl; lia) (0 + of_be16 a b)). lia.
Qed.

Lemma sum_be16_cons2 a b r : sum_be16 (a :: b :: r) 0 = of_be16 a b + sum_be16 r 0.
Proof. cbn [sum_be16]. rewrite sum_be16_acc. lia. Qed.

(** Sums distribute over a concatenation whose first part has even length. *)
Lemma sum_be16_app l1 l2 :
  Nat.Even (length l1) → sum_be16 (l1 ++ l2) 0 = sum_be16 l1 0 + sum_be16 l2 0.
Proof.
  induction l1 as [l1 IH] using (induction_ltof1 _ (@length Z)). intros He.
  destruct l1 as [|a [|b r]]; [done| |].
  - destruct He as [k Hk]. simpl in Hk. lia.
  - cbn [app]. rewrite !sum_be16_cons2, IH; [lia|unfold ltof; simpl; lia|].
    destruct He as [k Hk]. exists (k - 1)%nat. simpl in Hk. lia.
Qed.

Lemma sum_be16_nonneg l : bytes_ok l → 0 ≤ sum_be16 l 0.
Proof.
  induction l as [l IH] using (induction_ltof1 _ (@length Z)). intros Hl.
  destruct l as [|a [|b r]]; [done| |].
  - inversion Hl; subst. simpl. ints. lia.
  - inversion Hl as [|? ? Ha Hl']; subst. inversion Hl' as [|? ? Hb Hr]; subst.
    rewrite sum_be16_cons2. specialize (IH r ltac:(unfold ltof; simpl; lia) Hr).
    ints. lia.
Qed.

(** A buffer of [n] bytes sums to at most [65535 * ceil(n/2)]: up to 131074
    bytes the [u32] accumulator of the source cannot overflow. *)
Lemma sum_be16_bound l : bytes_ok l → sum_be16 l 0 ≤ 65535 * ((len l + 1) / 2).
Proof.
  induction l as [l IH] using (induction_ltof1 _ (@length Z)). intros Hl.
  destruct l as [|a [|b r]]; [done| |].
  - inversion Hl; subst. cbn [sum_be16]. replace ((len [a] + 1) / 2) with 1 by reflexivity. ints. lia.
  - inversion Hl as [|? ? Ha Hl']; subst. inversion Hl' as [|? ? Hb Hr]; subst.
    rewrite sum_be16_cons2. specialize (IH r ltac:(unfold ltof; simpl; lia) Hr).
    rewrite !len_cons. replace (1 + (1 + len r) + 1) with (len r + 1 + 1 * 2) by lia.
    rewrite Z.div_add by lia. ints. lia.
Qed.

(** Buffers short enough that no accumulator of the source overflows. *)
Lemma checksum_sum_u32 l : bytes_ok l → len l ≤ 131074 → is_u32 (sum_be16 l 0).
Proof.
  intros Hl Hn. pose proof (sum_be16_bound l Hl). pose proof (sum_be16_nonneg l Hl).
  assert ((len l + 1) / 2 < 65538) by (apply Z.div_lt_upper_bound; lia).
  ints. lia.
Qed.

Lemma internet_checksum_norm l :
  bytes_ok l → len l ≤ 131074 → internet_checksum l = 65535 - oc_norm (sum_be16 l 0).
Proof.
  intros Hl Hn. pose proof (checksum_sum_u32 l Hl Hn). unfold internet_checksum. ints.
  rewrite fold_carry_exits by lia. apply lxor_ffff, oc_norm_range.
Qed.

Lemma internet_checksum_u16 l :
  bytes_ok l → len l ≤ 131074 → is_u16 (internet_checksum l).
Proof.
  intros Hl Hn. rewrite internet_checksum_norm by done.
  pose proof (oc_norm_range (sum_be16 l 0)). ints. lia.
Qed.
#[export] Hint Resolve internet_checksum_u16 : vmlab.

(** A buffer verifies exactly when its sum is a positive multiple of 65535. *)
Lemma internet_checksum_zero l :
  bytes_ok l → len l ≤ 131074 →
  internet_checksum l = 0 ↔ 0 < sum_be16 l 0 ∧ sum_be16 l 0 mod 65535 = 0.
Proof.
  intros Hl Hn. rewrite internet_checksum_norm by done.
  pose proof (sum_be16_nonneg l Hl) as Hnn. set (s := sum_be16 l 0) in *.
  unfold oc_norm. case_goal; bsplit; [split; [lia|intros []; lia]|].
  pose proof (Z.mod_pos_bound (s - 1) 65535 ltac:(lia)).
  pose proof (Z.div_mod (s - 1) 65535 ltac:(lia)).
  pose proof (Z.mod_pos_bound s 65535 ltac:(lia)).
  pose proof (Z.div_mod s 65535 ltac:(lia)).
  split.
  - intros. split; [lia|].
    symmetry; apply (Z.mod_unique s 65535 ((s - 1) / 65535 + 1) 0); lia.
  - intros [_ Hm]. rewrite <-(Z.mod_unique (s - 1) 65535 (s / 65535 - 1) 65534); lia.
Qed.

(** ** Storing a checksum *)

(** The sum after two bytes at an even offset are overwritten. *)
Lemma sum_be16_splice l off v :
  Nat.Even (Z.to_nat off) → 0 ≤ off → off + 2 ≤ len l → is_u16 v →
  idx l off = 0 → idx l (off + 1) = 0 →
  sum_be16 (splice l off (be16 v)) 0 = sum_be16 l 0 + v.
Proof.
  intros He H0 Hl Hv Hz1 Hz2. unfold splice.
  assert (Hsplit : l = take (Z.to_nat off) l ++ [0; 0] ++ drop (Z.to_nat off + 2) l).
  { rewrite <-(take_drop (Z.to_nat off) l) at 1. f_equal.
    rewrite <-drop_drop.
    pose proof (idx_drop l (Z.to_nat off) 0 ltac:(lia)) as E1.
    pose proof (idx_drop l (Z.to_nat off) 1 ltac:(lia)) as E2.
    rewrite Z2Nat.id, Z.add_0_r in E1 by lia. rewrite Z2Nat.id in E2 by lia.
    assert (Hd : 2 ≤ len (drop (Z.to_nat off) l)) by len_lia.
    destruct (drop (Z.to_nat off) l) as [|a [|b r]]; [by cbn in Hd..|].
    change (idx (a :: b :: r) 0) with a in E1. change (idx (a :: b :: r) 1) with b in E2.
    cbn [drop]. rewrite drop_0. cbn [app]. congruence. }
  rewrite Hsplit at 3.
  assert (Nat.Even (length (take (Z.to_nat off) l))).
  { rewrite length_take, Nat.min_l; [done|]. unfold len in *. lia. }
  rewrite !sum_be16_app by (done || by exists 1%nat).
  rewrite length_app || idtac.
  replace (length (be16 v)) with 2%nat by reflexivity.
  unfold be16. cbn [sum_be16]. rewrite of_be16_be16. ints. lia.
Qed.

(** Writing the computed checksum over a zero field at an even offset makes
    any even-length-prefixed buffer verify. *)
Lemma checksum_stored_verifies l off v :
  bytes_ok l → len l ≤ 131074 →
  Nat.Even (Z.to_nat off) → 0 ≤ off → off + 2 ≤ len l →
  idx l off = 0 → idx l (off + 1) = 0 →
  v = internet_checksum l ∨ v = 65535 ∧ internet_checksum l = 0 →
  internet_checksum (splice l off (be16 v)) = 0.
Proof.
  intros Hl Hn He H0 Hlen Hz1 Hz2 Hv.
  pose proof (internet_checksum_u16 l Hl Hn) as Hc.
  assert (Hvu : is_u16 v) by (destruct Hv as [->|[-> _]]; [done|ints; lia]).
  apply internet_checksum_zero; [auto with vmlab| |].
  { rewrite len_splice; rewrite ?len_be16; lia. }
  rewrite sum_be16_splice by done.
  rewrite internet_checksum_norm in * by done.
  pose proof (sum_be16_nonneg l Hl). set (s := sum_be16 l 0) in *. clearbody s.
  unfold oc_norm in *. destruct (s =? 0) eqn:E; bsplit.
  - destruct Hv as [->|[-> ?]]; [|lia]. subst. split; [lia|reflexivity].
  - pose proof (Z.mod_pos_bound (s - 1) 65535 ltac:(lia)).
    pose proof (Z.div_mod (s - 1) 65535 ltac:(lia)) as Hdm.
    split; [destruct Hv as [->|[-> ?]]; ints; lia|].
    destruct Hv as [->|[-> ?]].
    + symmetry. apply (Z.mod_unique _ 65535 ((s - 1) / 65535 + 1) 0); lia.
    + symmetry. apply (Z.mod_unique _ 65535 ((s - 1) / 65535 + 2) 0); lia.
Qed.

(** ** Transport checksums over the pseudo-header *)

Lemma splice_app_r {A} (l1 l2 : list A) off src :
  0 ≤ off → splice (l1 ++ l2) (len l1 + off) src = l1 ++ splice l2 off src.
Proof.
  intros. unfold splice, len.
  rewrite take_app_ge, drop_app_ge by lia. rewrite <-app_assoc. do 2 f_equal; [f_equal; lia|].
  do 2 f_equal. lia.
Qed.

Lemma len_pseudo_header src dst pr n : len (pseudo_header src dst pr n) = 12.
Proof. reflexivity. Qed.

Lemma pseudo_header_ok src dst pr n :
  is_u32 src → is_u32 dst → is_u8 pr → is_u16 n → bytes_ok (pseudo_header src dst pr n).
Proof. intros. unfold pseudo_header, octets. auto 20 with vmlab. Qed.

Lemma l4_checksum_eq src dst pr seg :
  len seg ≤ 65535 →
  l4_checksum src dst pr seg = Some (internet_checksum (pseudo_header src dst pr (len seg) ++ seg)).
Proof. intros. unfold l4_checksum. by rewrite (proj2 (Z.leb_le _ _)) by done. Qed.

Section l4.
Context (src dst pr : Z) (seg : bytes).
Context (Hsrc : is_u32 src) (Hdst : is_u32 dst) (Hpr : is_u8 pr) (Hseg : bytes_ok seg).

Lemma l4_checksum_Some : len seg ≤ 65535 → ∃ c, l4_checksum src dst pr seg = Some c ∧ is_u16 c.
Proof using Hsrc Hdst Hpr Hseg.
  intros Hlen. unfold l4_checksum. rewrite (proj2 (Z.leb_le _ _)) by done.
  eexists. split; [done|]. pose proof (len_nonneg seg).
  apply internet_checksum_u16.
  - apply bytes_ok_app; [apply pseudo_header_ok; auto with vmlab|done].
  - rewrite len_app, len_pseudo_header. lia.
Qed.

Lemma l4_checksum_None : l4_checksum src dst pr seg = None ↔ 65535 < len seg.
Proof using. unfold l4_checksum. case_goal; bsplit; split; intros; done || lia. Qed.

(** Storing the transport checksum (0 sent as 0xFFFF, as RFC 768 wants)
    over a zero field at an even offset makes the segment verify. *)
Lemma l4_checksum_stored off c v :
  l4_checksum src dst pr seg = Some c → v = c ∨ v = 65535 ∧ c = 0 →
  Nat.Even (Z.to_nat off) → 0 ≤ off → off + 2 ≤ len seg →
  idx seg off = 0 → idx seg (off + 1) = 0 →
  l4_checksum src dst pr (splice seg off (be16 v)) = Some 0.
Proof using Hsrc Hdst Hpr Hseg.
  unfold l4_checksum. intros Hc Hv [k Hk] H0 Hoff Hz1 Hz2.
  rewrite len_splice by (rewrite ?len_be16; lia).
  destruct (_ <=? _) eqn:Hlen; bsplit; [|done]. simplify_eq. f_equal.
  set (ph := pseudo_header src dst pr (len seg)) in *.
  assert (Hph : len ph = 12) by done. pose proof (len_nonneg seg).
  rewrite <-(splice_app_r ph) by done.
  apply (checksum_stored_verifies (ph ++ seg) (len ph + off) v).
  - apply bytes_ok_app; [apply pseudo_header_ok; auto with vmlab|done].
  - rewrite len_app. lia.
  - exists (6 + k)%nat. lia.
  - lia.
  - rewrite len_app. lia.
  - rewrite idx_app_r by lia. by replace (len ph + off - len ph) with off by lia.
  - rewrite idx_app_r by lia. by replace (len ph + off + 1 - len ph) with (off + 1) by lia.
  - done.
Qed.
End l4.

(** Unfolding a checksum during conversion is never useful: proofs go through
    the lemmas above. *)
#[global] Opaque internet_checksum l4_checksum.

(** RFC 1071: a byte at an even position is the high half of its word and one
    at an odd position the low half; a buffer of odd length is padded with a
    zero byte. The sum of the words is the weighted sum of the bytes, and the
    checksum its one's complement. *)
Definition byte_weight (i : nat) (b : Z) : Z := b * (if Nat.even i then 256 else 1).
Definition rfc1071_sum (l : bytes) : Z := foldr Z.add 0 (imap byte_weight l).

Lemma sum_be16_rfc1071 l : sum_be16 l 0 = rfc1071_sum l.
Proof.
  induction l as [l IH] using (induction_ltof1 _ (@length Z)); unfold ltof in IH. destruct l as [|hi [|lo rest]].
  - done.
  - unfold rfc1071_sum. simpl. unfold byte_weight, of_be16. simpl. lia.
  - cbn [sum_be16]. rewrite sum_be16_acc, IH by (simpl; lia). unfold rfc1071_sum, of_be16.
    change (imap byte_weight (hi :: lo :: rest)) with (byte_weight 0 hi :: byte_weight 1 lo :: imap byte_weight rest). cbn [foldr]. unfold byte_weight at 2 3. simpl. lia.
Qed.

(** C17: on any buffer an IPv4 datagram can give it (up to 131074 bytes),
    [internet_checksum]'s [u32] accumulator does not overflow, its carry loop
    ends within its fuel, and the result is the complement of the
    one's-complement sum of the buffer's words as RFC 1071 defines it; storing
    it over a zero field at an even offset makes the buffer verify to zero. *)
Theorem internet_checksum_rfc1071 (l : bytes) :
  bytes_ok l → len l ≤ 131074 →
  is_u32 (sum_be16 l 0) ∧
  internet_checksum l = 65535 - oc_norm (rfc1071_sum l) ∧
  ∀ off, Nat.Even (Z.to_nat off) → 0 ≤ off → off + 2 ≤ len l →
    idx l off = 0 → idx l (off + 1) = 0 →
    internet_checksum (splice l off (be16 (internet_checksum l))) = 0.
Proof.
  intros Hl Hn. split; [by apply checksum_sum_u32|]. rewrite <-sum_be16_rfc1071. split; [by apply internet_checksum_norm|].
  intros. apply checksum_stored_verifies; auto.
Qed.
(** The last of the 21 bytes counts as a word's high half. *)
Lemma internet_checksum_rfc1071_witness :
  internet_checksum [69; 0; 0; 115; 0; 0; 64; 0; 64; 17; 0; 0; 192; 168; 0; 1; 192; 168; 0; 199; 8] = 65535 - 0x4f9e.
Proof.
  destruct (internet_checksum_rfc1071 [69; 0; 0; 115; 0; 0; 64; 0; 64; 17; 0; 0; 192; 168; 0; 1; 192; 168; 0; 199; 8]) as (_ & E & _).
  - concrete.
  - concrete.
  - exact E.
Defined.
