(* ===== verification/Frame.v ===== *)
(** * Frame views and builders ([src/net/frame.rs])

    A view is the buffer it wraps; [parse] is the only way the source makes
    one, and the [*_in_bounds] lemmas show that after a successful [parse]
    every accessor reads inside the buffer. Builders return the bytes pushed
    by the source, in order, with the checksum field overwritten last. *)

From S2P Require Import Prelude Checksum.

(** ** Constants and field readers *)

Definition ETHERTYPE_IPV4 : Z := 0x0800.
Definition ETHERTYPE_ARP : Z := 0x0806.
Definition IPPROTO_ICMP : Z := 1.
Definition IPPROTO_TCP : Z := 6.
Definition IPPROTO_UDP : Z := 17.
Definition ETH_HEADER_LEN : Z := 14.
Definition TCP_FIN : Z := 0x01.
Definition TCP_SYN : Z := 0x02.
Definition TCP_RST : Z := 0x04.
Definition TCP_PSH : Z := 0x08.
Definition TCP_ACK : Z := 0x10.
Definition TCP_URG : Z := 0x20.

(** [MacAddr([u8; 6])] and [Ipv4Addr] (its [u32] value). *)
Abbreviation MacAddr := (list Z) (only parsing).
Abbreviation Ipv4Addr := Z (only parsing).
Definition mac_ok (m : MacAddr) : Prop := length m = 6%nat ∧ bytes_ok m.
Definition MAC_BROADCAST : MacAddr := replicate 6 0xff.

Definition u16_at (buf : bytes) (off : Z) : Z := of_be16 (idx buf off) (idx buf (off + 1)).
Definition u32_at (buf : bytes) (off : Z) : Z :=
  of_be32 (idx buf off) (idx buf (off + 1)) (idx buf (off + 2)) (idx buf (off + 3)).
Definition mac_at (buf : bytes) (off : Z) : MacAddr := slice buf off (off + 6).
Definition ipv4_at (buf : bytes) (off : Z) : Ipv4Addr :=
  of_be32 (idx buf off) (idx buf (off + 1)) (idx buf (off + 2)) (idx buf (off + 3)).

(** ** Ethernet *)

Record EthView := { eth_buf : bytes }.
Definition EthView_parse (buf : bytes) : option EthView :=
  if ETH_HEADER_LEN <=? len buf then Some {| eth_buf := buf |} else None.
Definition dst_mac (e : EthView) : MacAddr := mac_at (eth_buf e) 0.
Definition src_mac (e : EthView) : MacAddr := mac_at (eth_buf e) 6.
Definition ethertype (e : EthView) : Z := u16_at (eth_buf e) 12.
Definition eth_payload (e : EthView) : bytes := slice (eth_buf e) ETH_HEADER_LEN (len (eth_buf e)).

Definition eth_build (dst src : MacAddr) (ethertype : Z) (payload : bytes) : bytes :=
  dst ++ src ++ be16 ethertype ++ payload.

(** ** ARP *)

Inductive ArpOp := Request | Reply.
#[global] Instance ArpOp_eq_dec : EqDecision ArpOp.
Proof. solve_decision. Defined.

Definition ARP_LEN : Z := 28.
Record ArpView := { arp_buf : bytes }.
Definition ArpView_parse (buf : bytes) : option ArpView :=
  if len buf <? ARP_LEN then None
  else if negb (u16_at buf 0 =? 1) || negb (u16_at buf 2 =? ETHERTYPE_IPV4)
          || negb (idx buf 4 =? 6) || negb (idx buf 5 =? 4) then None
  else if negb ((u16_at buf 6 =? 1) || (u16_at buf 6 =? 2)) then None
  else Some {| arp_buf := buf |}.
Definition arp_op (a : ArpView) : ArpOp :=
  if u16_at (arp_buf a) 6 =? 1 then Request else Reply.
Definition sha (a : ArpView) : MacAddr := mac_at (arp_buf a) 8.
Definition spa (a : ArpView) : Ipv4Addr := ipv4_at (arp_buf a) 14.
Definition tha (a : ArpView) : MacAddr := mac_at (arp_buf a) 18.
Definition tpa (a : ArpView) : Ipv4Addr := ipv4_at (arp_buf a) 24.

Definition arp_build (op : Z) (sha : MacAddr) (spa : Ipv4Addr) (tha : MacAddr)
    (tpa : Ipv4Addr) : bytes :=
  be16 1 ++ be16 ETHERTYPE_IPV4 ++ [6] ++ [4] ++ be16 op
    ++ sha ++ octets spa ++ tha ++ octets tpa.
Definition arp_request_build (sha : MacAddr) (spa tpa : Ipv4Addr) : bytes :=
  let arp := arp_build 1 sha spa (replicate 6 0) tpa in
  eth_build MAC_BROADCAST sha ETHERTYPE_ARP arp.
Definition arp_reply_build (sha : MacAddr) (spa : Ipv4Addr) (tha : MacAddr)
    (tpa : Ipv4Addr) : bytes :=
  let arp := arp_build 2 sha spa tha tpa in
  eth_build tha sha ETHERTYPE_ARP arp.

(** ** IPv4 *)

Definition IPV4_MIN_HEADER_LEN : Z := 20.
Record Ipv4View := { ip_buf : bytes }.
Definition Ipv4View_parse (buf : bytes) : option Ipv4View :=
  if len buf <? IPV4_MIN_HEADER_LEN then None
  else if negb (Z.shiftr (idx buf 0) 4 =? 4) then None
  else
    let header_len := Z.land (idx buf 0) 0x0F * 4 in
    if (header_len <? IPV4_MIN_HEADER_LEN) || (len buf <? header_len) then None
    else
      let total_len := u16_at buf 2 in
      if (total_len <? header_len) || (len buf <? total_len) then None
      else Some {| ip_buf := buf |}.
Definition ip_version (v : Ipv4View) : Z := Z.shiftr (idx (ip_buf v) 0) 4.
Definition ihl (v : Ipv4View) : Z := Z.land (idx (ip_buf v) 0) 0x0F.
Definition header_len (v : Ipv4View) : Z := ihl v * 4.
Definition total_len (v : Ipv4View) : Z := u16_at (ip_buf v) 2.
Definition ip_id (v : Ipv4View) : Z := u16_at (ip_buf v) 4.
Definition ip_flags (v : Ipv4View) : Z := Z.shiftr (idx (ip_buf v) 6) 5.
Definition dont_fragment (v : Ipv4View) : bool := negb (Z.land (ip_flags v) 2 =? 0).
Definition more_fragments (v : Ipv4View) : bool := negb (Z.land (ip_flags v) 1 =? 0).
Definition frag_offset (v : Ipv4View) : Z := Z.land (u16_at (ip_buf v) 6) 0x1FFF.
Definition ttl (v : Ipv4View) : Z := idx (ip_buf v) 8.
Definition proto (v : Ipv4View) : Z := idx (ip_buf v) 9.
Definition header_checksum (v : Ipv4View) : Z := u16_at (ip_buf v) 10.
Definition ip_src (v : Ipv4View) : Ipv4Addr := ipv4_at (ip_buf v) 12.
Definition ip_dst (v : Ipv4View) : Ipv4Addr := ipv4_at (ip_buf v) 16.
Definition ip_options (v : Ipv4View) : bytes :=
  slice (ip_buf v) IPV4_MIN_HEADER_LEN (header_len v).
Definition ip_payload (v : Ipv4View) : bytes := slice (ip_buf v) (header_len v) (total_len v).
Definition ip_checksum_valid (v : Ipv4View) : bool :=
  internet_checksum (slice (ip_buf v) 0 (header_len v)) =? 0.

Definition ipv4_build (src dst : Ipv4Addr) (proto ttl : Z) (payload : bytes) (id : Z)
    : option bytes :=
  let total := IPV4_MIN_HEADER_LEN + len payload in
  if total <=? 0xFFFF then
    let p := [0x45] ++ [0] ++ be16 total ++ be16 id ++ [0; 0] ++ [ttl] ++ [proto]
               ++ [0; 0] ++ octets src ++ octets dst in
    let csum := internet_checksum p in
    Some (splice p 10 (be16 csum) ++ payload)
  else None.

(** ** UDP *)

Definition UDP_HEADER_LEN : Z := 8.
Record UdpView := { udp_buf : bytes }.
Definition UdpView_parse (buf : bytes) : option UdpView :=
  if len buf <? UDP_HEADER_LEN then None
  else
    let l := u16_at buf 4 in
    if (l <? UDP_HEADER_LEN) || (len buf <? l) then None
    else Some {| udp_buf := buf |}.
Definition udp_src_port (v : UdpView) : Z := u16_at (udp_buf v) 0.
Definition udp_dst_port (v : UdpView) : Z := u16_at (udp_buf v) 2.
Definition udp_len (v : UdpView) : Z := u16_at (udp_buf v) 4.
Definition udp_is_empty (v : UdpView) : bool := udp_len v =? UDP_HEADER_LEN.
Definition udp_checksum (v : UdpView) : Z := u16_at (udp_buf v) 6.
Definition udp_payload (v : UdpView) : bytes := slice (udp_buf v) UDP_HEADER_LEN (udp_len v).
Definition udp_checksum_valid (v : UdpView) (src dst : Ipv4Addr) : bool :=
  if udp_checksum v =? 0 then true
  else bool_decide (l4_checksum src dst IPPROTO_UDP (slice (udp_buf v) 0 (udp_len v)) = Some 0).

Definition udp_build (src_ip dst_ip : Ipv4Addr) (src_port dst_port : Z) (payload : bytes)
    : option bytes :=
  let l := UDP_HEADER_LEN + len payload in
  if l <=? 0xFFFF then
    let p := be16 src_port ++ be16 dst_port ++ be16 l ++ [0; 0] ++ payload in
    c ← l4_checksum src_ip dst_ip IPPROTO_UDP p;
    let csum := if c =? 0 then 0xFFFF else c in
    Some (splice p 6 (be16 csum))
  else None.

(** ** TCP *)

Definition TCP_MIN_HEADER_LEN : Z := 20.
Definition TCP_MAX_OPTIONS_LEN : Z := 40.
Record TcpView := { tcp_buf : bytes }.
Definition TcpView_parse (buf : bytes) : option TcpView :=
  if len buf <? TCP_MIN_HEADER_LEN then None
  else
    let data_offset := Z.shiftr (idx buf 12) 4 * 4 in
    if (data_offset <? TCP_MIN_HEADER_LEN) || (len buf <? data_offset) then None
    else Some {| tcp_buf := buf |}.
Definition tcp_src_port (v : TcpView) : Z := u16_at (tcp_buf v) 0.
Definition tcp_dst_port (v : TcpView) : Z := u16_at (tcp_buf v) 2.
Definition tcp_seq (v : TcpView) : Z := u32_at (tcp_buf v) 4.
Definition tcp_ack (v : TcpView) : Z := u32_at (tcp_buf v) 8.
Definition data_offset (v : TcpView) : Z := Z.shiftr (idx (tcp_buf v) 12) 4 * 4.
Definition tcp_flags (v : TcpView) : Z := idx (tcp_buf v) 13.
Definition is_fin (v : TcpView) : bool := negb (Z.land (tcp_flags v) TCP_FIN =? 0).
Definition is_syn (v : TcpView) : bool := negb (Z.land (tcp_flags v) TCP_SYN =? 0).
Definition is_rst (v : TcpView) : bool := negb (Z.land (tcp_flags v) TCP_RST =? 0).
Definition is_psh (v : TcpView) : bool := negb (Z.land (tcp_flags v) TCP_PSH =? 0).
Definition is_ack (v : TcpView) : bool := negb (Z.land (tcp_flags v) TCP_ACK =? 0).
Definition is_urg (v : TcpView) : bool := negb (Z.land (tcp_flags v) TCP_URG =? 0).
Definition tcp_window (v : TcpView) : Z := u16_at (tcp_buf v) 14.
Definition tcp_checksum (v : TcpView) : Z := u16_at (tcp_buf v) 16.
Definition tcp_options (v : TcpView) : bytes :=
  slice (tcp_buf v) TCP_MIN_HEADER_LEN (data_offset v).
Definition tcp_payload (v : TcpView) : bytes :=
  slice (tcp_buf v) (data_offset v) (len (tcp_buf v)).
Definition tcp_checksum_valid (v : TcpView) (src dst : Ipv4Addr) : bool :=
  bool_decide (l4_checksum src dst IPPROTO_TCP (tcp_buf v) = Some 0).

Record TcpFields := {
  f_src_port : Z; f_dst_port : Z; f_seq : Z; f_ack : Z;
  f_flags : Z; f_window : Z; f_options : bytes }.

(** [p.resize(n, x)]. *)
Definition resize (p : bytes) (n x : Z) : bytes :=
  take (Z.to_nat n) p ++ replicate (Z.to_nat n - length p) x.

Definition tcp_build (src_ip dst_ip : Ipv4Addr) (fields : TcpFields) (payload : bytes)
    : option bytes :=
  let opts := slice (f_options fields) 0 (Z.min (len (f_options fields)) TCP_MAX_OPTIONS_LEN) in
  let opts_padded := div_ceil (len opts) 4 * 4 in
  let header_len := TCP_MIN_HEADER_LEN + opts_padded in
  let p := be16 (f_src_port fields) ++ be16 (f_dst_port fields) ++ be32 (f_seq fields)
             ++ be32 (f_ack fields) ++ [wrap8 (Z.shiftl (wrap8 (header_len / 4)) 4)]
             ++ [f_flags fields] ++ be16 (f_window fields) ++ [0; 0] ++ [0; 0] ++ opts in
  let p := resize p header_len 0 ++ payload in
  csum ← l4_checksum src_ip dst_ip IPPROTO_TCP p;
  Some (splice p 16 (be16 csum)).

(** ** ICMP *)

Definition ICMP_HEADER_LEN : Z := 8.
Definition ICMP_ECHO_REPLY : Z := 0.
Definition ICMP_DEST_UNREACHABLE : Z := 3.
Definition ICMP_ECHO_REQUEST : Z := 8.
Record IcmpView := { icmp_buf : bytes }.
Definition IcmpView_parse (buf : bytes) : option IcmpView :=
  if ICMP_HEADER_LEN <=? len buf then Some {| icmp_buf := buf |} else None.
Definition icmp_type (v : IcmpView) : Z := idx (icmp_buf v) 0.
Definition icmp_code (v : IcmpView) : Z := idx (icmp_buf v) 1.
Definition icmp_checksum (v : IcmpView) : Z := u16_at (icmp_buf v) 2.
Definition icmp_rest (v : IcmpView) : bytes :=
  [idx (icmp_buf v) 4; idx (icmp_buf v) 5; idx (icmp_buf v) 6; idx (icmp_buf v) 7].
Definition icmp_payload (v : IcmpView) : bytes :=
  slice (icmp_buf v) ICMP_HEADER_LEN (len (icmp_buf v)).
Definition icmp_checksum_valid (v : IcmpView) : bool := internet_checksum (icmp_buf v) =? 0.

Definition icmp_build (icmp_type code : Z) (rest payload : bytes) : bytes :=
  let p := [icmp_type] ++ [code] ++ [0; 0] ++ rest ++ payload in
  let csum := internet_checksum p in
  splice p 2 (be16 csum).

Definition icmp_echo_reply_for (request_ipv4_packet : bytes) : option bytes :=
  ip ← Ipv4View_parse request_ipv4_packet;
  if negb (proto ip =? IPPROTO_ICMP) then None
  else
    icmp ← IcmpView_parse (ip_payload ip);
    if negb (icmp_type icmp =? ICMP_ECHO_REQUEST) || negb (icmp_code icmp =? 0) then None
    else
      let reply := icmp_build ICMP_ECHO_REPLY 0 (icmp_rest icmp) (icmp_payload icmp) in
      ipv4_build (ip_dst ip) (ip_src ip) IPPROTO_ICMP 64 reply (ip_id ip).

Definition icmp_unreachable_for (original_ipv4 : bytes) (code : Z) : bytes :=
  let quote_len :=
    match Ipv4View_parse original_ipv4 with
    | Some ip => Z.min (header_len ip + 8) (len original_ipv4)
    | None => Z.min (len original_ipv4) 28
    end in
  icmp_build ICMP_DEST_UNREACHABLE code [0; 0; 0; 0] (slice original_ipv4 0 quote_len).

(** ** Views stay inside their buffer *)

Lemma bytes_ok_octets ip : is_u32 ip → bytes_ok (octets ip).
Proof. apply bytes_ok_be32. Qed.
#[export] Hint Resolve bytes_ok_octets : vmlab.

Lemma u16_at_u16 buf off : bytes_ok buf → is_u16 (u16_at buf off).
Proof. unfold u16_at. auto with vmlab. Qed.
Lemma u32_at_u32 buf off : bytes_ok buf → is_u32 (u32_at buf off).
Proof. unfold u32_at. auto with vmlab. Qed.
Lemma ipv4_at_u32 buf off : bytes_ok buf → is_u32 (ipv4_at buf off).
Proof. unfold ipv4_at. auto with vmlab. Qed.
#[export] Hint Resolve u16_at_u16 u32_at_u32 ipv4_at_u32 : vmlab.

Lemma EthView_parse_Some buf v :
  EthView_parse buf = Some v → v = {| eth_buf := buf |} ∧ 14 ≤ len buf.
Proof. unfold EthView_parse. case_goal; intros; simplify_eq. unfold ETH_HEADER_LEN in *. bsplit. done. Qed.

Lemma Ipv4View_parse_Some buf v :
  Ipv4View_parse buf = Some v →
  v = {| ip_buf := buf |} ∧ 20 ≤ len buf ∧ Z.shiftr (idx buf 0) 4 = 4 ∧
  20 ≤ header_len v ≤ total_len v ∧ total_len v ≤ len buf.
Proof.
  unfold Ipv4View_parse, IPV4_MIN_HEADER_LEN, header_len, total_len, ihl.
  repeat (case_goal; [done|]). intros. simplify_eq. bsplit. cbn [ip_buf]. split_and!; lia || done.
Qed.

Lemma Ipv4View_parse_intro buf :
  20 ≤ len buf → Z.shiftr (idx buf 0) 4 = 4 →
  20 ≤ Z.land (idx buf 0) 15 * 4 ≤ u16_at buf 2 → u16_at buf 2 ≤ len buf →
  Ipv4View_parse buf = Some {| ip_buf := buf |}.
Proof.
  intros. unfold Ipv4View_parse, IPV4_MIN_HEADER_LEN.
  rewrite (proj2 (Z.ltb_ge _ _)), (proj2 (Z.eqb_eq _ 4)) by done. cbn [negb].
  rewrite !(proj2 (Z.ltb_ge _ _)) by lia. done.
Qed.

Lemma UdpView_parse_Some buf v :
  UdpView_parse buf = Some v →
  v = {| udp_buf := buf |} ∧ 8 ≤ len buf ∧ 8 ≤ udp_len v ≤ len buf.
Proof.
  unfold UdpView_parse, UDP_HEADER_LEN, udp_len.
  repeat (case_goal; [done|]). intros. simplify_eq. bsplit. cbn [udp_buf]. split_and!; lia || done.
Qed.

Lemma TcpView_parse_Some buf v :
  TcpView_parse buf = Some v →
  v = {| tcp_buf := buf |} ∧ 20 ≤ len buf ∧ 20 ≤ data_offset v ≤ len buf.
Proof.
  unfold TcpView_parse, TCP_MIN_HEADER_LEN, data_offset.
  repeat (case_goal; [done|]). intros. simplify_eq. bsplit. cbn [tcp_buf]. split_and!; lia || done.
Qed.

Lemma IcmpView_parse_Some buf v :
  IcmpView_parse buf = Some v → v = {| icmp_buf := buf |} ∧ 8 ≤ len buf.
Proof.
  unfold IcmpView_parse, ICMP_HEADER_LEN. case_goal; intros; simplify_eq. bsplit. done.
Qed.

(** ** IPv4 packets *)

Section ipv4.
Context (src dst pr tt : Z) (payload : bytes) (id : Z).
Context (Hsrc : is_u32 src) (Hdst : is_u32 dst) (Hpr : is_u8 pr) (Htt : is_u8 tt)
  (Hid : is_u16 id) (Hpay : bytes_ok payload).

(** The header the source pushes, with checksum field [a; b]. *)
Definition ipv4_header (a b : Z) : bytes :=
  [0x45] ++ [0] ++ be16 (20 + len payload) ++ be16 id ++ [0; 0] ++ [tt] ++ [pr]
    ++ [a; b] ++ octets src ++ octets dst.

Definition ipv4_csum : Z := internet_checksum (ipv4_header 0 0).

Definition ipv4_bytes : bytes := ipv4_header (ipv4_csum / 256) (ipv4_csum mod 256) ++ payload.

Lemma ipv4_header_splice a b x y : splice (ipv4_header a b) 10 [x; y] = ipv4_header x y.
Proof using. reflexivity. Qed.

Lemma ipv4_build_eq :
  ipv4_build src dst pr tt payload id =
    if 20 + len payload <=? 65535 then Some ipv4_bytes else None.
Proof using.
  unfold ipv4_build, ipv4_bytes. change IPV4_MIN_HEADER_LEN with 20.
  destruct (_ <=? _); [|done]. by rewrite <-(ipv4_header_splice 0 0).
Qed.

Lemma ipv4_header_ok a b :
  20 + len payload ≤ 65535 → is_u8 a → is_u8 b → bytes_ok (ipv4_header a b).
Proof using Hsrc Hdst Hpr Htt Hid.
  intros. pose proof (len_nonneg payload). unfold ipv4_header. auto 20 with vmlab.
Qed.

Lemma ipv4_csum_u16 : 20 + len payload ≤ 65535 → is_u16 ipv4_csum.
Proof using Hsrc Hdst Hpr Htt Hid.
  intros. apply internet_checksum_u16; [apply ipv4_header_ok; auto with vmlab|done].
Qed.

Lemma ipv4_header_verifies :
  20 + len payload ≤ 65535 →
  internet_checksum (ipv4_header (ipv4_csum / 256) (ipv4_csum mod 256)) = 0.
Proof using Hsrc Hdst Hpr Htt Hid.
  intros. rewrite <-(ipv4_header_splice 0 0).
  apply (checksum_stored_verifies (ipv4_header 0 0) 10 ipv4_csum); try done.
  - apply ipv4_header_ok; auto with vmlab.
  - by exists 5%nat.
  - by left.
Qed.

Lemma ipv4_total_built pad : total_len {| ip_buf := ipv4_bytes ++ pad |} = 20 + len payload.
Proof using. exact (of_be16_be16 (20 + len payload)). Qed.

Lemma len_ipv4_bytes : len ipv4_bytes = 20 + len payload.
Proof using. unfold ipv4_bytes. rewrite len_app. reflexivity. Qed.

(** Parsing a built packet, with any Ethernet padding behind it. *)
Lemma ipv4_parse_built pad :
  Ipv4View_parse (ipv4_bytes ++ pad) = Some {| ip_buf := ipv4_bytes ++ pad |}.
Proof using.
  pose proof (ipv4_total_built pad) as Ht. unfold total_len in Ht. cbn [ip_buf] in Ht.
  pose proof len_ipv4_bytes. apply Ipv4View_parse_intro; rewrite ?Ht, ?len_app; try reflexivity.
  - len_lia.
  - change (Z.land _ _ * 4) with 20. len_lia.
  - len_lia.
Qed.

Lemma ipv4_payload_built pad : ip_payload {| ip_buf := ipv4_bytes ++ pad |} = payload.
Proof using.
  unfold ip_payload. rewrite ipv4_total_built.
  change (header_len _) with 20. cbn [ip_buf]. unfold ipv4_bytes. rewrite <-app_assoc.
  rewrite slice_app_r by done. change (len (ipv4_header _ _)) with 20.
  replace (20 - 20) with 0 by lia. replace (20 + len payload - 20) with (len payload) by lia.
  rewrite slice_app_l by len_lia. apply slice_full. lia.
Qed.

Lemma ipv4_bytes_ok : 20 + len payload ≤ 65535 → bytes_ok ipv4_bytes.
Proof using Hsrc Hdst Hpr Htt Hid Hpay.
  intros. apply bytes_ok_app; [|done]. pose proof (ipv4_csum_u16 ltac:(done)).
  apply ipv4_header_ok; auto with vmlab.
Qed.

Lemma ipv4_checksum_built pad :
  20 + len payload ≤ 65535 → ip_checksum_valid {| ip_buf := ipv4_bytes ++ pad |} = true.
Proof using Hsrc Hdst Hpr Htt Hid.
  intros. unfold ip_checksum_valid. change (header_len _) with 20. cbn [ip_buf].
  unfold ipv4_bytes. rewrite <-app_assoc, slice_app_l, slice_full by done.
  by rewrite ipv4_header_verifies.
Qed.
End ipv4.

(** What a parsed IPv4 packet carries. *)
Definition ip_carries (v : Ipv4View) (src dst pr tt id : Z) (payload : bytes) : Prop :=
  ip_src v = src ∧ ip_dst v = dst ∧ proto v = pr ∧ ttl v = tt ∧ ip_id v = id ∧
  header_len v = 20 ∧ frag_offset v = 0 ∧ ip_payload v = payload ∧
  ip_checksum_valid v = true.

Lemma ipv4_build_Some src dst pr tt payload id p :
  is_u32 src → is_u32 dst → is_u8 pr → is_u8 tt → is_u16 id → bytes_ok payload →
  ipv4_build src dst pr tt payload id = Some p →
  bytes_ok p ∧ len p = 20 + len payload ∧ len p ≤ 65535 ∧
  ∀ pad, Ipv4View_parse (p ++ pad) = Some {| ip_buf := p ++ pad |} ∧
         ip_carries {| ip_buf := p ++ pad |} src dst pr tt id payload.
Proof.
  intros Hsrc Hdst Hpr Htt Hid Hpay. rewrite ipv4_build_eq.
  destruct (_ <=? _) eqn:Hfit; bsplit; intros; simplify_eq.
  pose proof (len_ipv4_bytes src dst pr tt payload id).
  split; [by apply ipv4_bytes_ok|]. split; [done|]. split; [lia|]. intros pad.
  split; [apply ipv4_parse_built|].
  split; [exact (of_be32_be32 src)|]. split; [exact (of_be32_be32 dst)|].
  do 2 (split; [done|]). split; [exact (of_be16_be16 id)|]. do 2 (split; [done|]).
  split; [apply ipv4_payload_built|by apply ipv4_checksum_built].
Qed.

Lemma ipv4_build_None src dst pr tt payload id :
  ipv4_build src dst pr tt payload id = None ↔ 65535 < 20 + len payload.
Proof. rewrite ipv4_build_eq. case_goal; bsplit; split; intros; done || lia. Qed.

(** ** UDP datagrams *)

Section udp.
Context (src dst sp dp : Z) (payload : bytes).
Context (Hsrc : is_u32 src) (Hdst : is_u32 dst) (Hsp : is_u16 sp) (Hdp : is_u16 dp)
  (Hpay : bytes_ok payload).

Definition udp_segment (a b : Z) : bytes :=
  be16 sp ++ be16 dp ++ be16 (8 + len payload) ++ [a; b] ++ payload.

Lemma udp_segment_ok a b :
  8 + len payload ≤ 65535 → is_u8 a → is_u8 b → bytes_ok (udp_segment a b).
Proof using Hsp Hdp Hpay.
  intros. pose proof (len_nonneg payload). unfold udp_segment. auto 20 with vmlab.
Qed.

Lemma len_udp_segment a b : len (udp_segment a b) = 8 + len payload.
Proof using. unfold udp_segment. len_lia. Qed.

Lemma udp_segment_parse a b :
  UdpView_parse (udp_segment a b) = Some {| udp_buf := udp_segment a b |}.
Proof using.
  unfold UdpView_parse. rewrite len_udp_segment. pose proof (len_nonneg payload).
  assert (u16_at (udp_segment a b) 4 = 8 + len payload) as ->
    by exact (of_be16_be16 (8 + len payload)).
  unfold UDP_HEADER_LEN. rewrite !(proj2 (Z.ltb_ge _ _)) by lia. done.
Qed.

Lemma udp_segment_payload a b : udp_payload {| udp_buf := udp_segment a b |} = payload.
Proof using.
  unfold udp_payload, udp_len. cbn [udp_buf].
  assert (u16_at (udp_segment a b) 4 = 8 + len payload) as ->
    by exact (of_be16_be16 (8 + len payload)).
  unfold udp_segment. rewrite !app_assoc. rewrite slice_app_r by done.
  apply slice_full. change (len _) with 8 at 3. lia.
Qed.
End udp.

Definition udp_carries (v : UdpView) (src dst sp dp : Z) (payload : bytes) : Prop :=
  udp_src_port v = sp ∧ udp_dst_port v = dp ∧ udp_payload v = payload ∧
  udp_checksum v ≠ 0 ∧ udp_checksum_valid v src dst = true.

Lemma udp_build_Some src dst sp dp payload p :
  is_u32 src → is_u32 dst → is_u16 sp → is_u16 dp → bytes_ok payload →
  udp_build src dst sp dp payload = Some p →
  bytes_ok p ∧ len p = 8 + len payload ∧ len p ≤ 65535 ∧
  UdpView_parse p = Some {| udp_buf := p |} ∧
  udp_carries {| udp_buf := p |} src dst sp dp payload.
Proof.
  intros Hsrc Hdst Hsp Hdp Hpay. unfold udp_build. change UDP_HEADER_LEN with 8.
  destruct (_ <=? _) eqn:Hfit; bsplit; [|done].
  change (be16 sp ++ _) with (udp_segment sp dp payload 0 0).
  set (seg := udp_segment sp dp payload 0 0).
  assert (Hseg : bytes_ok seg) by (apply udp_segment_ok; auto with vmlab).
  assert (Hlen : len seg = 8 + len payload) by apply len_udp_segment.
  destruct (l4_checksum_Some src dst IPPROTO_UDP seg) as (c & Hc & Hcu); try done; [lia|].
  rewrite Hc. cbn [mbind option_bind]. intros; simplify_eq.
  set (v := if c =? 0 then 65535 else c).
  assert (Hv : v = c ∨ v = 65535 ∧ c = 0)
    by (unfold v; destruct (c =? 0) eqn:?; bsplit; [right|left]; done).
  assert (Hvu : is_u16 v) by (destruct Hv as [->|[-> _]]; auto with vmlab).
  assert (Hv0 : v ≠ 0) by (unfold v; destruct (c =? 0) eqn:?; bsplit; lia).
  pose proof (l4_checksum_stored src dst IPPROTO_UDP seg Hsrc Hdst ltac:(done) Hseg 6 c v Hc Hv
    ltac:(by exists 3%nat) ltac:(lia) ltac:(pose proof (len_nonneg payload); lia) eq_refl eq_refl)
    as Hver.
  change (splice seg 6 (be16 v)) with (udp_segment sp dp payload (v / 256) (v mod 256)) in *.
  split; [apply udp_segment_ok; auto with vmlab|]. rewrite len_udp_segment.
  do 2 (split; [lia|]). split; [apply udp_segment_parse|].
  assert (Hck : udp_checksum {| udp_buf := udp_segment sp dp payload (v / 256) (v mod 256) |} = v)
    by exact (of_be16_be16 v).
  split; [exact (of_be16_be16 sp)|]. split; [exact (of_be16_be16 dp)|].
  split; [apply udp_segment_payload|]. split; [congruence|].
  unfold udp_checksum_valid. rewrite Hck, (proj2 (Z.eqb_neq _ _)) by done.
  apply bool_decide_eq_true. cbn [udp_buf].
  rewrite slice_full; [done|]. rewrite len_udp_segment.
  unfold udp_len. cbn [udp_buf].
  assert (u16_at (udp_segment sp dp payload (v / 256) (v mod 256)) 4 = 8 + len payload) as ->
    by exact (of_be16_be16 (8 + len payload)). lia.
Qed.

Lemma udp_build_None src dst sp dp payload :
  is_u32 src → is_u32 dst → is_u16 sp → is_u16 dp → bytes_ok payload →
  udp_build src dst sp dp payload = None ↔ 65535 < 8 + len payload.
Proof.
  intros Hsrc Hdst Hsp Hdp Hpay. unfold udp_build. change UDP_HEADER_LEN with 8.
  destruct (_ <=? _) eqn:Hfit; bsplit; [|split; intros; done || lia].
  change (be16 sp ++ _) with (udp_segment sp dp payload 0 0).
  destruct (l4_checksum_Some src dst IPPROTO_UDP (udp_segment sp dp payload 0 0))
    as (c & -> & _); [done..|apply udp_segment_ok; auto with vmlab|rewrite len_udp_segment; lia|].
  split; [done|lia].
Qed.

(** ** TCP segments *)

Section tcp.
Context (src dst : Z) (f : TcpFields) (payload : bytes).
Context (Hsrc : is_u32 src) (Hdst : is_u32 dst)
  (Hsp : is_u16 (f_src_port f)) (Hdp : is_u16 (f_dst_port f))
  (Hseq : is_u32 (f_seq f)) (Hack : is_u32 (f_ack f))
  (Hfl : is_u8 (f_flags f)) (Hwin : is_u16 (f_window f))
  (Hopt : bytes_ok (f_options f)) (Hpay : bytes_ok payload).

(** The options as sent: clipped to 40 bytes, zero-padded to a word. *)
Definition tcp_opts : bytes := take 40 (f_options f).
Definition tcp_pad : nat := Z.to_nat (div_ceil (len tcp_opts) 4 * 4 - len tcp_opts).
Definition tcp_hlen : Z := 20 + len tcp_opts + Z.of_nat tcp_pad.

Definition tcp_segment (a b : Z) : bytes :=
  (be16 (f_src_port f) ++ be16 (f_dst_port f) ++ be32 (f_seq f) ++ be32 (f_ack f)
    ++ [tcp_hlen * 4] ++ [f_flags f] ++ be16 (f_window f) ++ [a; b] ++ [0; 0])
  ++ (tcp_opts ++ replicate tcp_pad 0) ++ payload.

Lemma tcp_hlen_eq :
  tcp_hlen = 20 + div_ceil (len tcp_opts) 4 * 4 ∧ tcp_hlen mod 4 = 0 ∧ 20 ≤ tcp_hlen ≤ 60.
Proof using.
  assert (len tcp_opts ≤ 40) by (unfold tcp_opts; len_lia).
  pose proof (len_nonneg tcp_opts). unfold tcp_hlen, tcp_pad, div_ceil.
  set (n := len tcp_opts) in *. clearbody n.
  pose proof (Z.div_mod (n + 4 - 1) 4 ltac:(lia)).
  pose proof (Z.mod_pos_bound (n + 4 - 1) 4 ltac:(lia)).
  set (q := (n + 4 - 1) / 4) in *. clearbody q.
  rewrite Z2Nat.id by lia. replace (20 + n + (q * 4 - n)) with (20 + q * 4) by lia.
  split; [done|]. split; [|lia]. replace (20 + q * 4) with ((5 + q) * 4) by lia.
  apply Z.mod_mul. lia.
Qed.

Lemma tcp_build_eq :
  tcp_build src dst f payload =
    csum ← l4_checksum src dst IPPROTO_TCP (tcp_segment 0 0);
    Some (tcp_segment (csum / 256) (csum mod 256)).
Proof using.
  pose proof tcp_hlen_eq as (Hh & Hm & Hb). unfold tcp_build.
  replace (slice (f_options f) 0 _) with tcp_opts.
  2:{ unfold slice, tcp_opts, TCP_MAX_OPTIONS_LEN. rewrite drop_0.
      destruct (decide (len (f_options f) ≤ 40)).
      - rewrite !take_ge; unfold len in *; try done; lia.
      - f_equal. unfold len in *. lia. }
  change TCP_MIN_HEADER_LEN with 20. rewrite <-Hh.
  assert (wrap8 (Z.shiftl (wrap8 (tcp_hlen / 4)) 4) = tcp_hlen * 4) as ->.
  { pose proof (Z.div_mod tcp_hlen 4 ltac:(lia)). ints.
    rewrite (Z.mod_small (tcp_hlen / 4)) by lia. rewrite Z.shiftl_mul_pow2 by lia.
    rewrite Z.mod_small by lia. lia. }
  match goal with |- context [resize ?p ?n ?x ++ payload] =>
    replace (resize p n x ++ payload) with (tcp_segment 0 0) end.
  - destruct (l4_checksum _ _ _ _); done.
  - unfold resize. match goal with |- context [take _ ?p] =>
      assert (Hp : length p = (20 + length tcp_opts)%nat) by (rewrite !length_app; reflexivity)
    end.
    rewrite Hp, take_ge by (rewrite Hp; unfold tcp_hlen, len; lia).
    replace (Z.to_nat tcp_hlen - (20 + length tcp_opts))%nat with tcp_pad
      by (unfold tcp_hlen, len; lia).
    unfold tcp_segment. by rewrite <-!app_assoc.
Qed.

Lemma tcp_segment_ok a b : is_u8 a → is_u8 b → bytes_ok (tcp_segment a b).
Proof using Hsp Hdp Hseq Hack Hfl Hwin Hopt Hpay.
  intros. pose proof tcp_hlen_eq. unfold tcp_segment, tcp_opts.
  assert (is_u8 (tcp_hlen * 4)) by (ints; lia). auto 30 with vmlab.
Qed.

Lemma len_tcp_segment a b : len (tcp_segment a b) = tcp_hlen + len payload.
Proof using. unfold tcp_segment, tcp_hlen. len_lia. Qed.

Lemma tcp_segment_offset a b : data_offset {| tcp_buf := tcp_segment a b |} = tcp_hlen.
Proof using.
  pose proof tcp_hlen_eq. unfold data_offset. cbn [tcp_buf].
  change (idx (tcp_segment a b) 12) with (tcp_hlen * 4).
  rewrite Z.shiftr_div_pow2 by lia. change (2 ^ 4) with 16.
  pose proof (Z.div_mod tcp_hlen 4 ltac:(lia)).
  assert (tcp_hlen * 4 / 16 = tcp_hlen / 4) as ->
    by (symmetry; apply (Z.div_unique _ 16 _ 0); lia). lia.
Qed.

Lemma tcp_segment_parse a b :
  TcpView_parse (tcp_segment a b) = Some {| tcp_buf := tcp_segment a b |}.
Proof using.
  pose proof tcp_hlen_eq. pose proof (tcp_segment_offset a b) as Ho. unfold data_offset in Ho.
  cbn [tcp_buf] in Ho. unfold TcpView_parse, TCP_MIN_HEADER_LEN. rewrite Ho, len_tcp_segment.
  pose proof (len_nonneg payload). rewrite !(proj2 (Z.ltb_ge _ _)) by lia. done.
Qed.

Lemma tcp_segment_payload a b : tcp_payload {| tcp_buf := tcp_segment a b |} = payload.
Proof using.
  unfold tcp_payload. rewrite tcp_segment_offset. cbn [tcp_buf]. rewrite len_tcp_segment.
  unfold tcp_segment. rewrite app_assoc, slice_app_r;
    (match goal with |- context [len (?l ++ (tcp_opts ++ ?z))] =>
       assert (len (l ++ (tcp_opts ++ z)) = tcp_hlen) as -> by (unfold tcp_hlen; len_lia) end); [|lia].
  rewrite Z.sub_diag. apply slice_full. lia.
Qed.

Lemma tcp_segment_options a b :
  tcp_options {| tcp_buf := tcp_segment a b |} = tcp_opts ++ replicate tcp_pad 0.
Proof using.
  unfold tcp_options. rewrite tcp_segment_offset. cbn [tcp_buf]. unfold tcp_segment.
  rewrite slice_app_r by done. change TCP_MIN_HEADER_LEN with 20.
  match goal with |- context [len ?l] => change (len l) with 20 end.
  rewrite slice_app_l by (unfold tcp_hlen; len_lia). apply slice_full. unfold tcp_hlen. len_lia.
Qed.
End tcp.

Definition tcp_carries (v : TcpView) (src dst : Z) (f : TcpFields) (payload : bytes) : Prop :=
  tcp_src_port v = f_src_port f ∧ tcp_dst_port v = f_dst_port f ∧
  tcp_seq v = f_seq f ∧ tcp_ack v = f_ack f ∧ tcp_flags v = f_flags f ∧
  tcp_window v = f_window f ∧ tcp_options v = tcp_opts f ++ replicate (tcp_pad f) 0 ∧
  tcp_payload v = payload ∧ tcp_checksum_valid v src dst = true.

Definition tcp_fields_ok (f : TcpFields) : Prop :=
  is_u16 (f_src_port f) ∧ is_u16 (f_dst_port f) ∧ is_u32 (f_seq f) ∧ is_u32 (f_ack f) ∧
  is_u8 (f_flags f) ∧ is_u16 (f_window f) ∧ bytes_ok (f_options f).

#[global] Instance tcp_fields_ok_dec f : Decision (tcp_fields_ok f).
Proof. unfold tcp_fields_ok. apply _. Defined.

Lemma tcp_build_Some src dst f payload p :
  is_u32 src → is_u32 dst → tcp_fields_ok f → bytes_ok payload →
  tcp_build src dst f payload = Some p →
  bytes_ok p ∧ len p = tcp_hlen f + len payload ∧ len p ≤ 65535 ∧
  TcpView_parse p = Some {| tcp_buf := p |} ∧
  tcp_carries {| tcp_buf := p |} src dst f payload.
Proof.
  intros Hsrc Hdst (Hsp & Hdp & Hseq & Hack & Hfl & Hwin & Hopt) Hpay.
  rewrite tcp_build_eq. set (seg := tcp_segment f payload 0 0).
  assert (Hseg : bytes_ok seg) by (apply tcp_segment_ok; auto with vmlab).
  assert (Hlen : len seg = tcp_hlen f + len payload) by apply len_tcp_segment.
  pose proof (tcp_hlen_eq f) as (_ & _ & Hh). pose proof (len_nonneg payload).
  destruct (l4_checksum src dst IPPROTO_TCP seg) as [c|] eqn:Hc; [|done].
  cbn [mbind option_bind]. intros; simplify_eq.
  assert (Hfit : len seg ≤ 65535).
  { destruct (decide (65535 < len seg)) as [Hl|]; [|lia].
    apply (proj2 (l4_checksum_None src dst IPPROTO_TCP seg)) in Hl. congruence. }
  destruct (l4_checksum_Some src dst IPPROTO_TCP seg) as (c' & Hc' & Hcu); try done.
  simplify_eq.
  pose proof (l4_checksum_stored src dst IPPROTO_TCP seg Hsrc Hdst ltac:(done) Hseg 16 c c Hc
    (or_introl eq_refl) ltac:(by exists 8%nat) ltac:(lia) ltac:(lia) eq_refl eq_refl) as Hver.
  change (splice seg 16 (be16 c)) with (tcp_segment f payload (c / 256) (c mod 256)) in *.
  split; [apply tcp_segment_ok; auto with vmlab|]. rewrite len_tcp_segment.
  do 2 (split; [lia|]). split; [apply tcp_segment_parse|].
  split; [exact (of_be16_be16 (f_src_port f))|]. split; [exact (of_be16_be16 (f_dst_port f))|].
  split; [exact (of_be32_be32 (f_seq f))|]. split; [exact (of_be32_be32 (f_ack f))|].
  split; [done|]. split; [exact (of_be16_be16 (f_window f))|].
  split; [apply tcp_segment_options|]. split; [apply tcp_segment_payload|].
  unfold tcp_checksum_valid. by apply bool_decide_eq_true.
Qed.

Lemma tcp_build_None src dst f payload :
  tcp_build src dst f payload = None ↔ 65535 < tcp_hlen f + len payload.
Proof.
  rewrite tcp_build_eq, <-(len_tcp_segment f payload 0 0).
  rewrite <-(l4_checksum_None src dst IPPROTO_TCP).
  by destruct (l4_checksum _ _ _ _).
Qed.

(** ** ICMP messages *)

Lemma ip_payload_ok v : bytes_ok (ip_buf v) → bytes_ok (ip_payload v).
Proof. unfold ip_payload. auto with vmlab. Qed.
#[export] Hint Resolve ip_payload_ok : vmlab.

Lemma len_ip_payload buf v :
  Ipv4View_parse buf = Some v → len (ip_payload v) = total_len v - header_len v.
Proof.
  intros (-> & ? & ? & ? & ?)%Ipv4View_parse_Some. unfold ip_payload. cbn [ip_buf].
  rewrite len_slice; lia.
Qed.

Lemma total_len_u16 v : bytes_ok (ip_buf v) → is_u16 (total_len v).
Proof. unfold total_len. auto with vmlab. Qed.

Definition icmp_carries (v : IcmpView) (t c : Z) (rest payload : bytes) : Prop :=
  icmp_type v = t ∧ icmp_code v = c ∧ icmp_rest v = rest ∧ icmp_payload v = payload ∧
  icmp_checksum_valid v = true.

Section icmp.
Context (t c r0 r1 r2 r3 : Z) (payload : bytes).
Context (Ht : is_u8 t) (Hc : is_u8 c) (Hr : bytes_ok [r0; r1; r2; r3])
  (Hpay : bytes_ok payload) (Hlen : len payload ≤ 65535).

Definition icmp_message (a b : Z) : bytes :=
  [t] ++ [c] ++ [a; b] ++ [r0; r1; r2; r3] ++ payload.

Lemma icmp_message_ok a b : is_u8 a → is_u8 b → bytes_ok (icmp_message a b).
Proof using Ht Hc Hr Hpay. intros. unfold icmp_message. auto 20 with vmlab. Qed.

Lemma len_icmp_message a b : len (icmp_message a b) = 8 + len payload.
Proof using. unfold icmp_message. len_lia. Qed.

Lemma icmp_build_ok :
  let m := icmp_build t c [r0; r1; r2; r3] payload in
  bytes_ok m ∧ len m = 8 + len payload ∧
  IcmpView_parse m = Some {| icmp_buf := m |} ∧
  icmp_carries {| icmp_buf := m |} t c [r0; r1; r2; r3] payload.
Proof using Ht Hc Hr Hpay Hlen.
  assert (Hm : bytes_ok (icmp_message 0 0)) by (apply icmp_message_ok; auto with vmlab).
  pose proof (len_icmp_message 0 0) as Hl. pose proof (len_nonneg payload).
  unfold icmp_build. change ([t] ++ _) with (icmp_message 0 0).
  set (cs := internet_checksum (icmp_message 0 0)).
  assert (is_u16 cs) by (apply internet_checksum_u16; [done|lia]).
  pose proof (checksum_stored_verifies (icmp_message 0 0) 2 cs Hm ltac:(lia)
    ltac:(by exists 1%nat) ltac:(lia) ltac:(lia) eq_refl eq_refl (or_introl eq_refl)) as Hv.
  change (splice (icmp_message 0 0) 2 (be16 cs)) with (icmp_message (cs / 256) (cs mod 256)) in *.
  cbv zeta. split; [apply icmp_message_ok; auto with vmlab|].
  rewrite len_icmp_message. split; [done|].
  split. { unfold IcmpView_parse, ICMP_HEADER_LEN. rewrite len_icmp_message.
           rewrite (proj2 (Z.leb_le _ _)); [done|lia]. }
  do 3 (split; [done|]). split.
  - unfold icmp_payload. cbn [icmp_buf]. rewrite len_icmp_message.
    change (icmp_message (cs / 256) (cs mod 256))
      with ([t; c; cs / 256; cs mod 256; r0; r1; r2; r3] ++ payload).
    rewrite slice_app_r by done. apply slice_full. change (len [t; _; _; _; _; _; _; _]) with 8. lia.
  - unfold icmp_checksum_valid. cbn [icmp_buf]. by rewrite Hv.
Qed.
End icmp.

Lemma icmp_echo_reply_inv pkt reply :
  bytes_ok pkt → icmp_echo_reply_for pkt = Some reply →
  ∃ ip q, Ipv4View_parse pkt = Some ip ∧ proto ip = IPPROTO_ICMP ∧
    IcmpView_parse (ip_payload ip) = Some q ∧ icmp_type q = ICMP_ECHO_REQUEST ∧ icmp_code q = 0 ∧
    ipv4_build (ip_dst ip) (ip_src ip) IPPROTO_ICMP 64
      (icmp_build ICMP_ECHO_REPLY 0 (icmp_rest q) (icmp_payload q)) (ip_id ip) = Some reply.
Proof.
  intros Hok. unfold icmp_echo_reply_for.
  destruct (Ipv4View_parse pkt) as [ip|] eqn:Hip; [|done]. cbn [mbind option_bind].
  case_goal; bsplit; [done|].
  destruct (IcmpView_parse _) as [q|] eqn:Hq; [|done]. cbn [mbind option_bind].
  case_goal; bsplit; [done|]. intros. eauto 10.
Qed.

(** Echo requests are always answered: the mirrored message fits. *)
Lemma icmp_echo_reply_total pkt ip q :
  bytes_ok pkt → Ipv4View_parse pkt = Some ip → proto ip = IPPROTO_ICMP →
  IcmpView_parse (ip_payload ip) = Some q → icmp_type q = ICMP_ECHO_REQUEST → icmp_code q = 0 →
  ∃ reply v r, icmp_echo_reply_for pkt = Some reply ∧ bytes_ok reply ∧
    Ipv4View_parse reply = Some v ∧
    ip_carries v (ip_dst ip) (ip_src ip) IPPROTO_ICMP 64 (ip_id ip) (ip_payload v) ∧
    IcmpView_parse (ip_payload v) = Some r ∧
    icmp_carries r ICMP_ECHO_REPLY 0 (icmp_rest q) (icmp_payload q).
Proof.
  intros Hok Hip Hpr Hq Ht Hc.
  pose proof (len_ip_payload _ _ Hip) as Hpl.
  pose proof (Ipv4View_parse_Some _ _ Hip) as (Eip & _ & _ & ? & ?).
  assert (Hokip : bytes_ok (ip_buf ip)) by (subst; done).
  pose proof (total_len_u16 _ Hokip) as Htl. pose proof (ip_payload_ok _ Hokip) as Hpok.
  pose proof (IcmpView_parse_Some _ _ Hq) as (Eq & Hl8).
  assert (Hqp : bytes_ok (icmp_payload q)) by (subst; unfold icmp_payload; auto with vmlab).
  assert (Hqpl : len (icmp_payload q) = len (ip_payload ip) - 8).
  { subst q. unfold icmp_payload, ICMP_HEADER_LEN. cbn [icmp_buf]. rewrite len_slice; lia. }
  assert (Hrest : bytes_ok (icmp_rest q)) by (subst q; unfold icmp_rest; auto 10 with vmlab).
  unfold icmp_echo_reply_for. rewrite Hip. cbn [mbind option_bind].
  rewrite Hpr, Hq. cbn [mbind option_bind]. rewrite Ht, Hc. cbn [Z.eqb negb orb Pos.eqb].
  change (negb (IPPROTO_ICMP =? IPPROTO_ICMP)) with false.
  change (negb (ICMP_ECHO_REQUEST =? ICMP_ECHO_REQUEST)) with false. cbn [orb].
  unfold is_u16 in Htl.
  destruct (icmp_build_ok ICMP_ECHO_REPLY 0 (idx (icmp_buf q) 4) (idx (icmp_buf q) 5)
    (idx (icmp_buf q) 6) (idx (icmp_buf q) 7) (icmp_payload q)) as (Mok & Ml & Mp & Mc);
    [unfold ICMP_ECHO_REPLY; auto with vmlab..|exact Hrest|done|lia|].
  change [_; _; _; _] with (icmp_rest q) in *. set (m := icmp_build _ _ _ _) in *.
  destruct (ipv4_build _ _ _ _ _ _) as [reply|] eqn:Hb;
    [|apply ipv4_build_None in Hb; lia].
  apply ipv4_build_Some in Hb as (Rok & Rl & _ & Hall);
    [|unfold ip_dst, ip_src, ip_id, IPPROTO_ICMP; auto with vmlab..].
  destruct (Hall []) as [Hrp Hrc]. rewrite app_nil_r in *.
  pose proof Hrc as (_ & _ & _ & _ & _ & _ & _ & Hrpl & _).
  exists reply, {| ip_buf := reply |}, {| icmp_buf := m |}.
  rewrite Hrpl. auto 10.
Qed.

(** ** Ethernet and ARP *)

Lemma eth_build_parse d s et payload :
  mac_ok d → mac_ok s → is_u16 et →
  ∃ e, EthView_parse (eth_build d s et payload) = Some e ∧
    dst_mac e = d ∧ src_mac e = s ∧ ethertype e = et ∧ eth_payload e = payload.
Proof.
  intros [Hd _] [Hs _] He.
  do 7 (destruct d as [|? d]; try done). do 7 (destruct s as [|? s]; try done).
  unfold EthView_parse, eth_build, ETH_HEADER_LEN.
  rewrite (proj2 (Z.leb_le _ _)) by len_lia.
  eexists. split; [done|]. do 2 (split; [done|]). split; [exact (of_be16_be16 et)|].
  unfold eth_payload. cbn [eth_buf]. rewrite slice_to_end by (done || lia). reflexivity.
Qed.

(** A UDP datagram in an IPv4 packet in an Ethernet frame reads back. *)
Definition udp_frame (dm sm : MacAddr) (si di sp dp tt id : Z) (b : bytes) : option bytes :=
  u ← udp_build si di sp dp b; p ← ipv4_build si di IPPROTO_UDP tt u id;
  Some (eth_build dm sm ETHERTYPE_IPV4 p).
Definition udp_frame_carries (frame : bytes) (dm sm : MacAddr) (si di sp dp : Z) (b : bytes) : Prop :=
  ∃ eth ip udp,
    EthView_parse frame = Some eth ∧ dst_mac eth = dm ∧ src_mac eth = sm ∧ ethertype eth = ETHERTYPE_IPV4 ∧
    Ipv4View_parse (eth_payload eth) = Some ip ∧ ip_src ip = si ∧ ip_dst ip = di ∧
    proto ip = IPPROTO_UDP ∧ ip_checksum_valid ip = true ∧
    UdpView_parse (ip_payload ip) = Some udp ∧ udp_src_port udp = sp ∧ udp_dst_port udp = dp ∧
    udp_payload udp = b ∧ udp_checksum_valid udp si di = true.

Lemma udp_frame_ok dm sm si di sp dp tt id b :
  mac_ok dm → mac_ok sm → is_u32 si → is_u32 di → is_u16 sp → is_u16 dp → is_u8 tt → is_u16 id →
  bytes_ok b → len b ≤ 65507 →
  ∃ frame, udp_frame dm sm si di sp dp tt id b = Some frame ∧ udp_frame_carries frame dm sm si di sp dp b.
Proof.
  intros Hdm Hsm Hsi Hdi Hsp Hdp Htt Hid Hb Hl. unfold udp_frame.
  destruct (udp_build si di sp dp b) as [u|] eqn:Hu; [|apply udp_build_None in Hu; done || lia].
  apply udp_build_Some in Hu as (Huo & Hul & _ & Hup & Hus & Hud & Hupay & _ & Huc); try done.
  cbn [mbind option_bind].
  destruct (ipv4_build si di IPPROTO_UDP tt u id) as [p|] eqn:Hp; [|apply ipv4_build_None in Hp; lia].
  apply ipv4_build_Some in Hp as (Hpo & _ & _ & Hpp); try done.
  specialize (Hpp []) as (Hpp & Hsrc & Hdst & Hpr & _ & _ & _ & _ & Hpay & Hck). rewrite app_nil_r in *.
  destruct (eth_build_parse dm sm ETHERTYPE_IPV4 p) as (e & He & Hed & Hes & Het & Hep); try done.
  eexists. split; [reflexivity|]. exists e, {| ip_buf := p |}, {| udp_buf := u |}.
  rewrite Hep, Hpay. split_and!; done.
Qed.

Lemma arp_build_parse op s si t ti :
  op = 1 ∨ op = 2 → mac_ok s → mac_ok t →
  ∃ a, ArpView_parse (arp_build op s si t ti) = Some a ∧
    arp_op a = (if op =? 1 then Request else Reply) ∧
    sha a = s ∧ spa a = si ∧ tha a = t ∧ tpa a = ti.
Proof.
  intros Hop [Hs _] [Ht _].
  do 7 (destruct s as [|? s]; try done). do 7 (destruct t as [|? t]; try done).
  unfold ArpView_parse, ARP_LEN.
  assert (Hl : len (arp_build op [z; z0; z1; z2; z3; z4] si [z5; z6; z7; z8; z9; z10] ti) = 28) by done.
  rewrite Hl. change (28 <? 28) with false. cbn match.
  assert (Ho : u16_at (arp_build op [z; z0; z1; z2; z3; z4] si [z5; z6; z7; z8; z9; z10] ti) 6 = op)
    by exact (of_be16_be16 op).
  rewrite Ho. destruct Hop as [-> | ->]; (eexists; split; [reflexivity|]);
    (split; [reflexivity|]); split; try reflexivity; (split; [exact (of_be32_be32 si)|]);
    (split; [reflexivity|exact (of_be32_be32 ti)]).
Qed.

(** ** Fields of edited buffers *)

(** Fields read through edits. *)
Lemma u16_at_edited rs a b off :
  edited rs a b → 0 ≤ off → (∀ i, off ≤ i < off + 2 → ¬ in_ranges rs i) →
  u16_at b off = u16_at a off.
Proof.
  intros E H0 Hn. unfold u16_at. rewrite !(edited_idx _ _ _ _ E); try lia; try done; apply Hn; lia.
Qed.

Lemma ipv4_at_edited rs a b off :
  edited rs a b → 0 ≤ off → (∀ i, off ≤ i < off + 4 → ¬ in_ranges rs i) →
  ipv4_at b off = ipv4_at a off.
Proof.
  intros E H0 Hn. unfold ipv4_at. rewrite !(edited_idx _ _ _ _ E); try lia; try done; apply Hn; lia.
Qed.

Lemma u16_at_splice l off v :
  0 ≤ off → off + 2 ≤ len l → u16_at (splice l off (be16 v)) off = v.
Proof.
  intros. unfold u16_at. rewrite !idx_splice_in by (rewrite ?len_be16; lia).
  replace (off - off) with 0 by lia. replace (off + 1 - off) with 1 by lia.
  exact (of_be16_be16 v).
Qed.

Lemma ipv4_at_splice l off v :
  0 ≤ off → off + 4 ≤ len l → ipv4_at (splice l off (octets v)) off = v.
Proof.
  intros. unfold ipv4_at. assert (Hv : len (octets v) = 4) by done.
  rewrite !idx_splice_in by (rewrite ?Hv; lia).
  replace (off - off) with 0 by lia. replace (off + 1 - off) with 1 by lia.
  replace (off + 2 - off) with 2 by lia. replace (off + 3 - off) with 3 by lia.
  exact (of_be32_be32 v).
Qed.

Lemma ip_payload_idx v i :
  0 ≤ header_len v → 0 ≤ i → header_len v + i < total_len v →
  idx (ip_payload v) i = idx (ip_buf v) (header_len v + i).
Proof. intros. unfold ip_payload. apply idx_slice; lia. Qed.

Lemma ip_payload_u16 v i :
  0 ≤ header_len v → 0 ≤ i → header_len v + i + 2 ≤ total_len v →
  u16_at (ip_payload v) i = u16_at (ip_buf v) (header_len v + i).
Proof.
  intros. unfold u16_at. rewrite !ip_payload_idx by lia. by rewrite Z.add_assoc.
Qed.

(** ** What the builders promise *)

(** C18: [ipv4_build] fails exactly when header and payload exceed 65535
    bytes; otherwise the packet it returns parses, also with Ethernet padding
    behind it, to the source, destination, protocol, TTL, identification and
    payload it was given, with a valid header checksum. *)
Theorem ipv4_build_roundtrip (src dst pr tt : Z) (payload : bytes) (id : Z) :
  is_u32 src → is_u32 dst → is_u8 pr → is_u8 tt → is_u16 id → bytes_ok payload →
  match ipv4_build src dst pr tt payload id with
  | Some p => ∀ pad, ∃ v, Ipv4View_parse (p ++ pad) = Some v ∧
                ip_carries v src dst pr tt id payload
  | None => 65535 < 20 + len payload
  end.
Proof.
  intros Hs Hd Hp Ht Hi Hpay. destruct (ipv4_build _ _ _ _ _ _) as [p|] eqn:Hb.
  - apply ipv4_build_Some in Hb as (_ & _ & _ & Hall); [|done..]. intros pad. eauto.
  - by apply ipv4_build_None in Hb.
Qed.
Lemma ipv4_build_roundtrip_witness :
  match ipv4_build 0x0A000001 0x0A000002 IPPROTO_UDP 64 [1; 2; 3] 7 with
  | Some p => ∀ pad, ∃ v, Ipv4View_parse (p ++ pad) = Some v ∧
                ip_carries v 0x0A000001 0x0A000002 IPPROTO_UDP 64 7 [1; 2; 3]
  | None => 65535 < 20 + len [1; 2; 3]
  end.
Proof.
  apply ipv4_build_roundtrip; concrete.
Defined.

(** [udp_build] fails exactly when header and payload exceed 65535 bytes;
    otherwise the datagram parses back to the ports and payload, carries a
    non-zero checksum, and that checksum verifies against the pseudo-header. *)
Theorem udp_build_roundtrip (src dst sp dp : Z) (payload : bytes) :
  is_u32 src → is_u32 dst → is_u16 sp → is_u16 dp → bytes_ok payload →
  match udp_build src dst sp dp payload with
  | Some p => ∃ v, UdpView_parse p = Some v ∧ udp_carries v src dst sp dp payload
  | None => 65535 < 8 + len payload
  end.
Proof.
  intros Hs Hd Hp Hq Hpay. destruct (udp_build _ _ _ _ _) as [p|] eqn:Hb.
  - apply udp_build_Some in Hb as (_ & _ & _ & ? & ?); [|done..]. eauto.
  - by apply udp_build_None in Hb.
Qed.
Lemma udp_build_roundtrip_witness :
  match udp_build 0x0A000001 0x0A000002 53 4000 [1; 2; 3] with
  | Some p => ∃ v, UdpView_parse p = Some v ∧ udp_carries v 0x0A000001 0x0A000002 53 4000 [1; 2; 3]
  | None => 65535 < 8 + len [1; 2; 3]
  end.
Proof.
  apply udp_build_roundtrip; concrete.
Defined.

(** [tcp_build] fails exactly when the padded header and payload exceed
    65535 bytes; otherwise the segment parses back to every field it was
    given (options clipped to 40 bytes and zero-padded to a word) and the
    payload, and its checksum verifies against the pseudo-header. *)
Theorem tcp_build_roundtrip (src dst : Z) (f : TcpFields) (payload : bytes) :
  is_u32 src → is_u32 dst → tcp_fields_ok f → bytes_ok payload →
  match tcp_build src dst f payload with
  | Some p => ∃ v, TcpView_parse p = Some v ∧ tcp_carries v src dst f payload
  | None => 65535 < tcp_hlen f + len payload
  end.
Proof.
  intros Hs Hd Hf Hpay. destruct (tcp_build _ _ _ _) as [p|] eqn:Hb.
  - apply tcp_build_Some in Hb as (_ & _ & _ & ? & ?); [|done..]. eauto.
  - by apply tcp_build_None in Hb.
Qed.
Definition sample_fields : TcpFields :=
  {| f_src_port := 80; f_dst_port := 40000; f_seq := 0xFFFFFFFF; f_ack := 5;
     f_flags := Z.lor TCP_SYN TCP_ACK; f_window := 65535; f_options := [2; 4; 5; 0xB4; 1] |}.
Lemma tcp_build_roundtrip_witness :
  match tcp_build 0x0A000001 0x0A000002 sample_fields [9; 8] with
  | Some p => ∃ v, TcpView_parse p = Some v ∧
                tcp_carries v 0x0A000001 0x0A000002 sample_fields [9; 8]
  | None => 65535 < tcp_hlen sample_fields + len [9; 8]
  end.
Proof.
  apply tcp_build_roundtrip; concrete.
Defined.

(** [icmp_echo_reply_for] answers exactly the parseable ICMP echo
    requests with code 0, and every answer is an IPv4 packet with swapped
    addresses, the request's identification and a valid header checksum whose
    ICMP message is an echo reply with the same identifier, sequence and data
    and a valid checksum. *)
Theorem icmp_echo_reply_correct (pkt : bytes) :
  bytes_ok pkt →
  match icmp_echo_reply_for pkt with
  | Some reply =>
      ∃ ip q v r, Ipv4View_parse pkt = Some ip ∧ IcmpView_parse (ip_payload ip) = Some q ∧
        icmp_type q = ICMP_ECHO_REQUEST ∧ Ipv4View_parse reply = Some v ∧
        ip_carries v (ip_dst ip) (ip_src ip) IPPROTO_ICMP 64 (ip_id ip) (ip_payload v) ∧
        IcmpView_parse (ip_payload v) = Some r ∧
        icmp_carries r ICMP_ECHO_REPLY 0 (icmp_rest q) (icmp_payload q)
  | None => ∀ ip q, Ipv4View_parse pkt = Some ip → proto ip = IPPROTO_ICMP →
      IcmpView_parse (ip_payload ip) = Some q → icmp_code q = 0 → icmp_type q ≠ ICMP_ECHO_REQUEST
  end.
Proof.
  intros Hok. destruct (icmp_echo_reply_for pkt) as [reply|] eqn:Hr.
  - destruct (icmp_echo_reply_inv _ _ Hok Hr) as (ip & q & Hip & Hp & Hq & Ht & Hc & _).
    destruct (icmp_echo_reply_total pkt ip q) as (reply' & v & r & E & _ & ? & ? & ? & ?); try done.
    simplify_eq. exists ip, q, v, r. auto 10.
  - intros ip q Hip Hp Hq Hc Ht.
    destruct (icmp_echo_reply_total pkt ip q) as (reply' & ? & ? & E & _); try done. congruence.
Qed.
Definition sample_ping : bytes :=
  default [] (ipv4_build 0x0A000001 0x0A000002 IPPROTO_ICMP 64
    (icmp_build ICMP_ECHO_REQUEST 0 [0; 1; 0; 9] [97; 98]) 3).
Lemma icmp_echo_reply_correct_witness :
  is_Some (icmp_echo_reply_for sample_ping) ∧
  match icmp_echo_reply_for sample_ping with
  | Some reply =>
      ∃ ip q v r, Ipv4View_parse sample_ping = Some ip ∧ IcmpView_parse (ip_payload ip) = Some q ∧
        icmp_type q = ICMP_ECHO_REQUEST ∧ Ipv4View_parse reply = Some v ∧
        ip_carries v (ip_dst ip) (ip_src ip) IPPROTO_ICMP 64 (ip_id ip) (ip_payload v) ∧
        IcmpView_parse (ip_payload v) = Some r ∧
        icmp_carries r ICMP_ECHO_REPLY 0 (icmp_rest q) (icmp_payload q)
  | None => ∀ ip q, Ipv4View_parse sample_ping = Some ip → proto ip = IPPROTO_ICMP →
      IcmpView_parse (ip_payload ip) = Some q → icmp_code q = 0 → icmp_type q ≠ ICMP_ECHO_REQUEST
  end.
Proof.
  split; [vm_compute; eauto|]. apply icmp_echo_reply_correct.
  concrete.
Defined.

(** ARP frames as the gateway and the router send them parse back
    through the Ethernet and ARP views to the operation and addresses they
    were built from: requests are broadcast with an unspecified target
    hardware address, replies are unicast to the asker. *)
Theorem arp_frames_roundtrip (s t : MacAddr) (si ti : Z) :
  mac_ok s → mac_ok t →
  (∃ e a, EthView_parse (arp_request_build s si ti) = Some e ∧
     ArpView_parse (eth_payload e) = Some a ∧ ethertype e = ETHERTYPE_ARP ∧
     dst_mac e = MAC_BROADCAST ∧ src_mac e = s ∧ arp_op a = Request ∧
     sha a = s ∧ spa a = si ∧ tpa a = ti) ∧
  (∃ e a, EthView_parse (arp_reply_build s si t ti) = Some e ∧
     ArpView_parse (eth_payload e) = Some a ∧ ethertype e = ETHERTYPE_ARP ∧
     dst_mac e = t ∧ src_mac e = s ∧ arp_op a = Reply ∧
     sha a = s ∧ spa a = si ∧ tha a = t ∧ tpa a = ti).
Proof.
  intros Hs Ht.
  assert (Hb : mac_ok MAC_BROADCAST) by (split; [done|by repeat constructor]).
  assert (Hz : mac_ok (replicate 6 0)) by (split; [done|by repeat constructor]).
  split.
  - destruct (arp_build_parse 1 s si (replicate 6 0) ti) as (a & Ha & ? & ? & ? & _ & ?); auto.
    destruct (eth_build_parse MAC_BROADCAST s ETHERTYPE_ARP (arp_build 1 s si (replicate 6 0) ti))
      as (e & He & ? & ? & ? & Hp); [done..|]. exists e, a. rewrite Hp. auto 10.
  - destruct (arp_build_parse 2 s si t ti) as (a & Ha & ? & ? & ? & ? & ?); auto.
    destruct (eth_build_parse t s ETHERTYPE_ARP (arp_build 2 s si t ti))
      as (e & He & ? & ? & ? & Hp); [done..|]. exists e, a. rewrite Hp. auto 12.
Qed.
Lemma arp_frames_roundtrip_witness :
  ∃ e a, EthView_parse (arp_reply_build [2; 0; 0; 0; 0; 1] 1 [2; 0; 0; 0; 0; 2] 2) = Some e ∧
     ArpView_parse (eth_payload e) = Some a ∧ ethertype e = ETHERTYPE_ARP ∧
     dst_mac e = [2; 0; 0; 0; 0; 2] ∧ src_mac e = [2; 0; 0; 0; 0; 1] ∧ arp_op a = Reply ∧
     sha a = [2; 0; 0; 0; 0; 1] ∧ spa a = 1 ∧ tha a = [2; 0; 0; 0; 0; 2] ∧ tpa a = 2.
Proof.
  apply arp_frames_roundtrip; (split; [done|concrete]).
Defined.
