(* ===== verification/Ipnet.v ===== *)
(** * The [ipnet::Ipv4Net] interface

    CIDR networks come from the third-party crate [ipnet]; the fabric only
    calls the methods below. [Ipv4NetOps] is what it calls, [Ipv4NetLaws]
    the documented behaviour its theorems rely on, and [cidr] an
    implementation that satisfies the laws, used by the witnesses. *)

From S2P Require Import Prelude.

Class Ipv4NetOps (Net : Type) := {
  net_eq_dec :: EqDecision Net;
  net_contains : Net → Z → bool;   (* [contains(&ip)] *)
  net_prefix_len : Net → Z;        (* [prefix_len()] *)
  net_network : Net → Z;           (* [network()] *)
  net_broadcast : Net → Z;         (* [broadcast()] *)
  net_netmask : Net → Z;           (* [netmask()] *)
  net_hosts : Net → list Z;        (* [hosts()], in iteration order *)
  net_default : Net;               (* [Ipv4Net::default()], 0.0.0.0/0 *)
  net_leb : Net → Net → bool;      (* the crate's [Ord] *)
}.

(** Documented: a network is the address range from [network()] to
    [broadcast()], and the bits of [network()] past the prefix are zero;
    [hosts()] yields addresses of that range, once each, and
    neither end of it when the prefix is shorter than /31. *)
Class Ipv4NetLaws (Net : Type) `{Ipv4NetOps Net} := {
  net_prefix_range n : 0 ≤ net_prefix_len n ≤ 32;
  net_network_u32 n : is_u32 (net_network n);
  net_network_aligned n : (2 ^ (32 - net_prefix_len n) | net_network n);
  net_broadcast_u32 n : is_u32 (net_broadcast n);
  net_netmask_u32 n : is_u32 (net_netmask n);
  net_contains_spec n ip :
    net_contains n ip = true ↔ net_network n ≤ ip ≤ net_broadcast n;
  net_hosts_contained n ip : ip ∈ net_hosts n → net_contains n ip = true;
  net_hosts_spec n ip : net_prefix_len n < 31 →
    ip ∈ net_hosts n ↔ net_network n < ip < net_broadcast n;
  net_hosts_nodup n : NoDup (net_hosts n);
  net_default_prefix : net_prefix_len net_default = 0;
  net_default_network : net_network net_default = 0;
  net_leb_total a b : net_leb a b = true ∨ net_leb b a = true;
}.

(** ** A concrete implementation *)

Record cidr := Cidr { cidr_addr : Z; cidr_plen : Z }.
#[global] Instance cidr_eq_dec : EqDecision cidr.
Proof. solve_decision. Defined.

(** The prefix length and address as the crate's constructor normalises
    them: [prefix_len <= 32] and a 32-bit address. *)
Definition cidr_p (n : cidr) : Z := Z.max 0 (Z.min 32 (cidr_plen n)).
Definition cidr_span (n : cidr) : Z := 2 ^ (32 - cidr_p n).
Definition cidr_network (n : cidr) : Z := wrap32 (cidr_addr n) / cidr_span n * cidr_span n.
Definition cidr_broadcast (n : cidr) : Z := cidr_network n + cidr_span n - 1.
Definition cidr_hosts (n : cidr) : list Z :=
  if cidr_p n <? 31 then seqZ (cidr_network n + 1) (cidr_span n - 2)
  else seqZ (cidr_network n) (cidr_span n).
Definition cidr_leb (a b : cidr) : bool :=
  (cidr_addr a <? cidr_addr b) || ((cidr_addr a =? cidr_addr b) && (cidr_plen a <=? cidr_plen b)).

#[global] Instance cidr_ops : Ipv4NetOps cidr := {
  net_contains n ip := (cidr_network n <=? ip) && (ip <=? cidr_broadcast n);
  net_prefix_len := cidr_p;
  net_network := cidr_network;
  net_broadcast := cidr_broadcast;
  net_netmask n := 2 ^ 32 - cidr_span n;
  net_hosts := cidr_hosts;
  net_default := Cidr 0 0;
  net_leb := cidr_leb;
}.

Lemma cidr_span_bounds n : 1 ≤ cidr_span n ≤ 2 ^ 32 ∧ (cidr_span n | 2 ^ 32).
Proof.
  unfold cidr_span. assert (0 ≤ cidr_p n ≤ 32) by (unfold cidr_p; lia).
  split; [split|].
  - apply (Z.pow_le_mono_r 2 0); lia.
  - apply Z.pow_le_mono_r; lia.
  - exists (2 ^ cidr_p n). rewrite <-Z.pow_add_r by lia. f_equal. lia.
Qed.

Lemma cidr_network_bounds n :
  0 ≤ cidr_network n ∧ cidr_broadcast n < 2 ^ 32.
Proof.
  destruct (cidr_span_bounds n) as [Hs [k Hk]]. unfold cidr_broadcast, cidr_network, wrap32.
  pose proof (Z.mod_pos_bound (cidr_addr n) (2 ^ 32) ltac:(lia)).
  set (a := cidr_addr n mod 2 ^ 32) in *. set (s := cidr_span n) in *. clearbody a s.
  pose proof (Z.div_pos a s ltac:(lia) ltac:(lia)).
  assert (a / s < k) by (apply Z.div_lt_upper_bound; lia).
  split; nia.
Qed.

#[global] Instance cidr_laws : Ipv4NetLaws cidr.
Proof.
  split; cbn; intros.
  - unfold cidr_p. lia.
  - pose proof (cidr_network_bounds n). pose proof (cidr_span_bounds n).
    unfold is_u32, cidr_broadcast in *. lia.
  - unfold cidr_network. apply Z.divide_factor_r.
  - pose proof (cidr_network_bounds n). pose proof (cidr_span_bounds n).
    unfold is_u32, cidr_broadcast in *. lia.
  - pose proof (cidr_span_bounds n). unfold is_u32. lia.
  - rewrite andb_true_iff, !Z.leb_le. lia.
  - rewrite andb_true_iff, !Z.leb_le. unfold cidr_hosts, cidr_broadcast in *.
    pose proof (cidr_span_bounds n).
    case_in H; apply elem_of_seqZ in H; lia.
  - unfold cidr_hosts. rewrite (proj2 (Z.ltb_lt _ _)) by done.
    rewrite elem_of_seqZ. unfold cidr_broadcast. lia.
  - unfold cidr_hosts. case_goal; apply NoDup_seqZ.
  - reflexivity.
  - reflexivity.
  - unfold cidr_leb. destruct (Z.lt_trichotomy (cidr_addr a) (cidr_addr b)) as [|[->|]].
    + left. rewrite (proj2 (Z.ltb_lt _ _)) by done. done.
    + rewrite Z.ltb_irrefl, Z.eqb_refl. cbn. rewrite !Z.leb_le. lia.
    + right. rewrite (proj2 (Z.ltb_lt _ _)) by done. done.
Qed.
