(* ===== verification/Rules.v ===== *)
(** * The L3 rule engine ([src/net/rules.rs])

    [RuleSet] with its operations as state-passing functions. The clock is an
    argument: every operation reads it once, in nanoseconds. [eval] and
    [eval_return] slice and overwrite the packet at offsets computed from its
    header, so they return [outcome]. *)

From S2P Require Import Prelude Checksum Frame Ipnet.

(** ** Data *)

(** [config::model]: [L4Proto], [HostPort], [RedirectRule], [BlockRule]
    (their [span] is diagnostic only). *)
Inductive L4Proto := Tcp | Udp | Icmp.
#[global] Instance L4Proto_eq_dec : EqDecision L4Proto.
Proof. solve_decision. Defined.

Record HostPort := { hp_ip : Ipv4Addr; hp_port : option Z }.
Record RedirectRule := { r_from : HostPort; r_to : HostPort; r_proto : option L4Proto }.
Record BlockRule (Net : Type) := { b_cidr : Net; b_proto : option L4Proto; b_port : option Z }.
Arguments b_cidr {Net} _.
Arguments b_proto {Net} _.
Arguments b_port {Net} _.

(** [CONN_IDLE]: 300 seconds. *)
Definition CONN_IDLE : Z := 300 * 1000000000.

Inductive Verdict :=
| Pass
| Drop (reply : option bytes)
| Rewrite (packet : bytes).

Record ConnKey := mkConnKey {
  ck_src : Ipv4Addr; ck_sport : Z; ck_dst : Ipv4Addr; ck_dport : Z; ck_proto : Z }.
#[global] Instance ConnKey_eq_dec : EqDecision ConnKey.
Proof. solve_decision. Defined.
#[global] Instance ConnKey_countable : Countable ConnKey.
Proof.
  refine (inj_countable'
    (λ k, (ck_src k, ck_sport k, ck_dst k, ck_dport k, ck_proto k))
    (λ '(a, b, c, d, e), mkConnKey a b c d e) _).
  by intros [].
Defined.

Record RevVal := { orig_ip : Ipv4Addr; orig_port : option Z; last : Z }.

Record Meta := {
  m_l4 : option L4Proto;
  m_dst_port : option Z;
  m_conn_ports : option (Z * Z) }.

Definition Meta_of (ip : Ipv4View) : Meta :=
  if proto ip =? IPPROTO_TCP then
    let p := TcpView_parse (ip_payload ip) in
    {| m_l4 := Some Tcp;
       m_dst_port := tcp_dst_port <$> p;
       m_conn_ports := (λ t, (tcp_src_port t, tcp_dst_port t)) <$> p |}
  else if proto ip =? IPPROTO_UDP then
    let p := UdpView_parse (ip_payload ip) in
    {| m_l4 := Some Udp;
       m_dst_port := udp_dst_port <$> p;
       m_conn_ports := (λ u, (udp_src_port u, udp_dst_port u)) <$> p |}
  else if proto ip =? IPPROTO_ICMP then
    {| m_l4 := Some Icmp;
       m_dst_port := None;
       m_conn_ports :=
         i ← IcmpView_parse (ip_payload ip);
         let id := of_be16 (nth 0 (icmp_rest i) 0) (nth 1 (icmp_rest i) 0) in
         if icmp_type i =? ICMP_ECHO_REQUEST then Some (id, 0)
         else if icmp_type i =? ICMP_ECHO_REPLY then Some (0, id)
         else None |}
  else {| m_l4 := None; m_dst_port := None; m_conn_ports := None |}.

Section rules.
Context {Net : Type} `{Ipv4NetOps Net}.

Record RuleSet := mkRuleSet {
  next_id : Z;
  redirects : list (Z * RedirectRule);
  blocks : list (Z * BlockRule Net);
  conns : gmap ConnKey RevVal }.

Definition RuleSet_new : RuleSet := mkRuleSet 0 [] [] ∅.

(** ** Mutation *)

Definition add_block (rs : RuleSet) (rule : BlockRule Net) : RuleSet * Z :=
  let id := next_id rs + 1 in
  (mkRuleSet id (redirects rs) (blocks rs ++ [(id, rule)]) (conns rs), id).

Definition add_redirect (rs : RuleSet) (rule : RedirectRule) : RuleSet * Z :=
  let id := next_id rs + 1 in
  (mkRuleSet id (redirects rs ++ [(id, rule)]) (blocks rs) (conns rs), id).

Definition remove (rs : RuleSet) (id : Z) : RuleSet * bool :=
  let before := len (redirects rs) + len (blocks rs) in
  let rd := filter (λ x, x.1 ≠ id) (redirects rs) in
  let bl := filter (λ x, x.1 ≠ id) (blocks rs) in
  (mkRuleSet (next_id rs) rd bl (conns rs), negb (len rd + len bl =? before)).

Definition expire_conns (rs : RuleSet) (now : Z) : RuleSet :=
  mkRuleSet (next_id rs) (redirects rs) (blocks rs)
    (filter (λ kv, now - last kv.2 < CONN_IDLE) (conns rs)).

Definition insert_conn (rs : RuleSet) (k : ConnKey) (v : RevVal) : RuleSet :=
  mkRuleSet (next_id rs) (redirects rs) (blocks rs) (<[k:=v]> (conns rs)).

(** ** Rule selection *)

Definition proto_ok (rule : option L4Proto) (m : Meta) : bool :=
  match rule with
  | Some p => bool_decide (m_l4 m = Some p)
  | None => true
  end.
Definition port_ok (rule : option Z) (m : Meta) : bool :=
  match rule with
  | Some port => bool_decide (m_dst_port m = Some port)
  | None => true
  end.

Definition redirect_matches (ip : Ipv4View) (m : Meta) (r : RedirectRule) : bool :=
  (hp_ip (r_from r) =? ip_dst ip) && proto_ok (r_proto r) m && port_ok (hp_port (r_from r)) m.
Definition redirect_spec (r : RedirectRule) : bool := bool_decide (is_Some (hp_port (r_from r))).
Definition best_redirect (rs : RuleSet) (ip : Ipv4View) (m : Meta) : option RedirectRule :=
  fst <$> best_loop (redirect_matches ip m) redirect_spec (λ a b, a && negb b)
            (snd <$> redirects rs).

Definition block_matches (ip : Ipv4View) (m : Meta) (b : BlockRule Net) : bool :=
  net_contains (b_cidr b) (ip_dst ip) && proto_ok (b_proto b) m && port_ok (b_port b) m.
Definition block_spec (b : BlockRule Net) : Z * bool * bool :=
  (net_prefix_len (b_cidr b), bool_decide (is_Some (b_port b)), bool_decide (is_Some (b_proto b))).

(** [>] on [(u8, bool, bool)]: lexicographic. *)
Definition spec_gtb (a b : Z * bool * bool) : bool :=
  let '(n, p, q) := a in let '(n', p', q') := b in
  (n' <? n) || ((n =? n') && ((p && negb p') || (Bool.eqb p p' && (q && negb q')))).
Definition best_block (rs : RuleSet) (ip : Ipv4View) (m : Meta) : option (BlockRule Net) :=
  fst <$> best_loop (block_matches ip m) block_spec spec_gtb (snd <$> blocks rs).

(** ** Packet rewriting *)

Definition copy_opt (out : bytes) (off : Z) (src : option bytes) : outcome bytes :=
  match src with Some s => copy_at out off s | None => Ret out end.

(** The TCP/UDP checksum refresh of [rewrite_packet]; the inner [None] is
    the source's [?] on [l4_checksum]. *)
Definition rewrite_l4 (pr hl : Z) (out : bytes) : outcome (option bytes) :=
  let src := ipv4_at out 12 in
  let dst := ipv4_at out 16 in
  if (pr =? IPPROTO_TCP) && (hl + 18 <=? len out) then
    out ← copy_at out (hl + 16) [0; 0];
    seg ← slice_chk out hl (len out);
    match l4_checksum src dst IPPROTO_TCP seg with
    | None => Ret None
    | Some c => Some <$> copy_at out (hl + 16) (be16 c)
    end
  else if (pr =? IPPROTO_UDP) && (hl + 8 <=? len out) then
    b6 ← idx_chk out (hl + 6);
    b7 ← idx_chk out (hl + 7);
    if negb (b6 =? 0) || negb (b7 =? 0) then
      out ← copy_at out (hl + 6) [0; 0];
      seg ← slice_chk out hl (len out);
      match l4_checksum src dst IPPROTO_UDP seg with
      | None => Ret None
      | Some c => Some <$> copy_at out (hl + 6) (be16 (if c =? 0 then 0xFFFF else c))
      end
    else Ret (Some out)
  else Ret (Some out).

Definition rewrite_packet (pkt : bytes) (ip : Ipv4View)
    (new_src new_dst : option (Ipv4Addr * option Z)) : outcome (option bytes) :=
  let total := total_len ip in
  let hl := header_len ip in
  out ← slice_chk pkt 0 total;
  out ← copy_opt out 12 ((octets ∘ fst) <$> new_src);
  out ← copy_opt out 16 ((octets ∘ fst) <$> new_dst);
  let sp := new_src ≫= snd in
  let dp := new_dst ≫= snd in
  out ← (if ((proto ip =? IPPROTO_TCP) || (proto ip =? IPPROTO_UDP)) && (hl + 4 <=? len out) then
           out ← copy_opt out hl (be16 <$> sp);
           copy_opt out (hl + 2) (be16 <$> dp)
         else Ret out);
  l4 ← rewrite_l4 (proto ip) hl out;
  match l4 with
  | None => Ret None
  | Some out =>
      out ← copy_at out 10 [0; 0];
      hdr ← slice_chk out 0 hl;
      Some <$> copy_at out 10 (be16 (internet_checksum hdr))
  end.

(** ** Block replies *)

Definition b2z (b : bool) : Z := if b then 1 else 0.

(** The RFC 793 reset answering [tcp]: sequence, acknowledgement, flags. *)
Definition reset_numbers (tcp : TcpView) : Z * Z * Z :=
  if is_ack tcp then (tcp_ack tcp, 0, TCP_RST)
  else
    let advance := wrap32 (len (tcp_payload tcp)) + b2z (is_syn tcp) + b2z (is_fin tcp) in
    (0, wadd32 (tcp_seq tcp) advance, Z.lor TCP_RST TCP_ACK).

Definition reset_fields (tcp : TcpView) : TcpFields :=
  let '(seq, ack, flags) := reset_numbers tcp in
  {| f_src_port := tcp_dst_port tcp; f_dst_port := tcp_src_port tcp;
     f_seq := seq; f_ack := ack; f_flags := flags; f_window := 0; f_options := [] |}.

Definition block_reply (pkt : bytes) (ip : Ipv4View) : option bytes :=
  if proto ip =? IPPROTO_TCP then
    tcp ← TcpView_parse (ip_payload ip);
    if is_rst tcp then None
    else
      seg ← tcp_build (ip_dst ip) (ip_src ip) (reset_fields tcp) [];
      ipv4_build (ip_dst ip) (ip_src ip) IPPROTO_TCP 64 seg 0
  else if proto ip =? IPPROTO_UDP then
    let icmp := icmp_unreachable_for pkt 3 in
    ipv4_build (ip_dst ip) (ip_src ip) IPPROTO_ICMP 64 icmp 0
  else
    let icmp := icmp_unreachable_for pkt 1 in
    ipv4_build (ip_dst ip) (ip_src ip) IPPROTO_ICMP 64 icmp 0.

(** ** Evaluation *)

(** The reply-direction key recorded for a redirected packet. *)
Definition rev_key (ip : Ipv4View) (new_ip : Ipv4Addr) (new_port : option Z)
    (sport dport : Z) : ConnKey :=
  let '(rev_sport, rev_dport) :=
    if (proto ip =? IPPROTO_TCP) || (proto ip =? IPPROTO_UDP)
    then (default dport new_port, sport)
    else (0, Z.max sport dport) in
  mkConnKey new_ip rev_sport (ip_src ip) rev_dport (proto ip).

Definition eval (rs : RuleSet) (now : Z) (pkt : bytes) : outcome (Verdict * RuleSet) :=
  match Ipv4View_parse pkt with
  | None => Ret (Pass, rs)
  | Some ip =>
      let rs := expire_conns rs now in
      let meta := Meta_of ip in
      match best_redirect rs ip meta with
      | Some rule =>
          let new_ip := hp_ip (r_to rule) in
          let new_port := (λ orig, default orig (hp_port (r_to rule))) <$> m_dst_port meta in
          let rs :=
            match m_conn_ports meta with
            | Some (sport, dport) =>
                insert_conn rs (rev_key ip new_ip new_port sport dport)
                  {| orig_ip := ip_dst ip; orig_port := m_dst_port meta; last := now |}
            | None => rs
            end in
          out ← rewrite_packet pkt ip None (Some (new_ip, new_port));
          match out with
          | Some out => Ret (Rewrite out, rs)
          | None => Ret (Pass, rs)
          end
      | None =>
          match best_block rs ip meta with
          | Some _ =>
              head ← slice_chk pkt 0 (total_len ip);
              Ret (Drop (block_reply head ip), rs)
          | None => Ret (Pass, rs)
          end
      end
  end.

Definition eval_return (rs : RuleSet) (now : Z) (pkt : bytes) : outcome (Verdict * RuleSet) :=
  match Ipv4View_parse pkt with
  | None => Ret (Pass, rs)
  | Some ip =>
      match m_conn_ports (Meta_of ip) with
      | None => Ret (Pass, rs)
      | Some (sport, dport) =>
          let key := mkConnKey (ip_src ip) sport (ip_dst ip) dport (proto ip) in
          match conns rs !! key with
          | Some v =>
              if now - last v <? CONN_IDLE then
                let v := {| orig_ip := orig_ip v; orig_port := orig_port v; last := now |} in
                let rs := insert_conn rs key v in
                out ← rewrite_packet pkt ip (Some (orig_ip v, orig_port v)) None;
                match out with
                | Some out => Ret (Rewrite out, rs)
                | None => Ret (Pass, rs)
                end
              else Ret (Pass, rs)
          | None => Ret (Pass, rs)
          end
      end
  end.

End rules.
Arguments RuleSet Net : clear implicits.

(** ** Rewriting a packet *)

(** The range an optional write touches. *)
Definition opt_range {A} (o : option A) (off k : Z) : list (Z * Z) :=
  match o with Some _ => [(off, k)] | None => [] end.

Lemma in_opt_range {A} (o : option A) off k i : in_ranges (opt_range o off k) i → off ≤ i < off + k.
Proof. destruct o; cbn; ranges. Qed.

Lemma copy_opt_spec out off k src :
  bytes_ok out → (∀ s, src = Some s → bytes_ok s ∧ len s = k) →
  0 ≤ off → 0 ≤ k → off + k ≤ len out →
  ∃ out', copy_opt out off src = Ret out' ∧ bytes_ok out' ∧
    edited (opt_range src off k) out out' ∧ out' = default out (splice out off <$> src).
Proof.
  intros Hok Hs Hoff Hk Hl. destruct src as [s|]; cbn.
  - destruct (Hs s eq_refl) as [Hsok <-]. rewrite copy_at_ret by done.
    eexists. split; [done|]. split; [auto with vmlab|]. split; [by apply edited_splice|done].
  - eexists. split; [done|]. split; [done|]. split; [apply edited_refl|done].
Qed.



Definition l4_field (pr : Z) : Z := if pr =? IPPROTO_TCP then 16 else 6.

(** Refreshing the checksum field at [hl + off] of a segment starting at [hl]. *)
Lemma refresh_l4 out hl off pr zf :
  bytes_ok out → 20 ≤ hl → 0 ≤ off → Nat.Even (Z.to_nat off) → hl + off + 2 ≤ len out →
  len out ≤ 65535 → is_u8 pr →
  let src := ipv4_at out 12 in let dst := ipv4_at out 16 in
  ∃ c, l4_checksum src dst pr (drop (Z.to_nat hl) (splice out (hl + off) [0; 0])) = Some c ∧
    is_u16 c ∧
    (let v := if zf && (c =? 0) then 0xFFFF else c in
     is_u16 v ∧
     l4_checksum src dst pr (drop (Z.to_nat hl) (splice out (hl + off) (be16 v))) = Some 0).
Proof.
  intros Hok Hhl Hoff Hev Hl Hlen Hpr src dst.
  set (seg := drop (Z.to_nat hl) (splice out (hl + off) [0; 0])).
  assert (Hseg : seg = splice (drop (Z.to_nat hl) out) off [0; 0]).
  { unfold seg. rewrite drop_splice_hi by (change (len [0; 0]) with 2; lia). f_equal. lia. }
  assert (Hsl : len seg = len out - hl).
  { rewrite Hseg, len_splice; change (len [0; 0]) with 2; rewrite ?len_drop; lia. }
  assert (Hsok : bytes_ok seg) by (rewrite Hseg; auto 10 with vmlab).
  destruct (l4_checksum_Some src dst pr seg) as (c & Hc & Hcu);
    [unfold src; auto with vmlab|unfold dst; auto with vmlab|done|done|lia|].
  exists c. split; [done|]. split; [done|]. cbv zeta.
  set (v := if zf && (c =? 0) then 65535 else c).
  assert (Hv : v = c ∨ v = 65535 ∧ c = 0).
  { unfold v. destruct zf; cbn; [|by left]. destruct (c =? 0) eqn:?; bsplit; [right|left]; done. }
  split; [destruct Hv as [->|[-> _]]; auto with vmlab|].
  assert (Hd : drop (Z.to_nat hl) (splice out (hl + off) (be16 v)) = splice seg off (be16 v)).
  { rewrite drop_splice_hi by (rewrite ?len_be16; lia). rewrite Hseg.
    replace (hl + off - Z.of_nat (Z.to_nat hl)) with off by lia.
    destruct (copy_twice (drop (Z.to_nat hl) out) off 0 0 v) as [_ E]; [lia|rewrite len_drop; lia|].
    unfold copy_at in E. case_in E; [|done]. by simplify_eq. }
  rewrite Hd. apply (l4_checksum_stored src dst pr seg) with (c := c); try done;
    [unfold src; auto with vmlab|unfold dst; auto with vmlab|lia| |].
  - rewrite Hseg. rewrite idx_splice_in; change (len [0; 0]) with 2; rewrite ?len_drop; try lia.
    by rewrite Z.sub_diag.
  - rewrite Hseg. rewrite idx_splice_in; change (len [0; 0]) with 2; rewrite ?len_drop; try lia.
    by replace (off + 1 - off) with 1 by lia.
Qed.

Lemma rewrite_l4_tcp hl out :
  bytes_ok out → 20 ≤ hl → hl + 18 ≤ len out → len out ≤ 65535 →
  ∃ out', rewrite_l4 IPPROTO_TCP hl out = Ret (Some out') ∧ bytes_ok out' ∧
    edited [(hl + 16, 2)] out out' ∧
    l4_checksum (ipv4_at out 12) (ipv4_at out 16) IPPROTO_TCP (drop (Z.to_nat hl) out') = Some 0.
Proof.
  intros Hok Hhl Hl Hlen. unfold rewrite_l4. rewrite (proj2 (Z.leb_le (hl + 18) _)) by done.
  cbn [andb Z.eqb IPPROTO_TCP Pos.eqb]. change (IPPROTO_TCP =? IPPROTO_TCP) with true. cbn [andb].
  destruct (refresh_l4 out hl 16 IPPROTO_TCP false) as (c & Hc & Hcu & Hv & Hver);
    [done|done|lia|by exists 8%nat|lia|done|done|]. cbn [andb] in *.
  destruct (copy_twice out (hl + 16) 0 0 c) as [E1 E2]; [lia|lia|].
  rewrite E1. cbn [mbind outcome_bind].
  rewrite slice_tail by (rewrite len_splice; change (len [0; 0]) with 2; lia).
  cbn [mbind outcome_bind]. rewrite Hc, E2. cbn.
  eexists. split; [done|]. split; [auto with vmlab|]. split; [|done].
  by apply (edited_splice out (hl + 16) (be16 c)); rewrite ?len_be16; lia.
Qed.

Lemma rewrite_l4_udp hl out :
  bytes_ok out → 20 ≤ hl → hl + 8 ≤ len out → len out ≤ 65535 →
  ∃ out', rewrite_l4 IPPROTO_UDP hl out = Ret (Some out') ∧ bytes_ok out' ∧
    edited [(hl + 6, 2)] out out' ∧
    (u16_at out (hl + 6) = 0 → out' = out) ∧
    (u16_at out (hl + 6) ≠ 0 → u16_at out' (hl + 6) ≠ 0 ∧
     l4_checksum (ipv4_at out 12) (ipv4_at out 16) IPPROTO_UDP (drop (Z.to_nat hl) out') = Some 0).
Proof.
  intros Hok Hhl Hl Hlen. unfold rewrite_l4. rewrite (proj2 (Z.leb_le (hl + 8) _)) by done.
  change (IPPROTO_UDP =? IPPROTO_TCP) with false. change (IPPROTO_UDP =? IPPROTO_UDP) with true.
  cbn [andb]. rewrite !idx_chk_ret by lia. cbn [mbind outcome_bind].
  assert (Hz : negb (idx out (hl + 6) =? 0) || negb (idx out (hl + 7) =? 0) = true
               ↔ u16_at out (hl + 6) ≠ 0).
  { unfold u16_at. replace (hl + 6 + 1) with (hl + 7) by lia.
    pose proof (idx_u8 out (hl + 6) Hok). pose proof (idx_u8 out (hl + 7) Hok). ints.
    rewrite orb_true_iff, !negb_true_iff, !Z.eqb_neq. lia. }
  destruct (_ || _) eqn:E.
  2:{ exists out. split; [done|]. split; [done|]. split; [apply edited_refl|]. split; [done|].
      intros Hn%Hz. done. }
  destruct (refresh_l4 out hl 6 IPPROTO_UDP true) as (c & Hc & Hcu & Hv & Hver);
    [done|done|lia|by exists 3%nat|lia|done|done|]. cbn [andb] in *.
  set (v := if c =? 0 then 65535 else c) in *.
  destruct (copy_twice out (hl + 6) 0 0 v) as [E1 E2]; [lia|lia|].
  rewrite E1. cbn [mbind outcome_bind].
  rewrite slice_tail by (rewrite len_splice; change (len [0; 0]) with 2; lia).
  cbn [mbind outcome_bind]. rewrite Hc. fold v. rewrite E2. cbn.
  eexists. split; [done|]. split; [auto with vmlab|].
  split; [by apply (edited_splice out (hl + 6) (be16 v)); rewrite ?len_be16; lia|].
  split; [intros Hz0; by apply Hz in Hz0|]. intros _. split; [|done].
  unfold u16_at. rewrite !idx_splice_in by (rewrite ?len_be16; lia).
  replace (hl + 6 - (hl + 6)) with 0 by lia. replace (hl + 6 + 1 - (hl + 6)) with 1 by lia.
  change (of_be16 _ _) with (of_be16 (v / 256) (v mod 256)). rewrite of_be16_be16.
  unfold v. destruct (c =? 0) eqn:?; bsplit; lia.
Qed.

Lemma rewrite_l4_other pr hl out :
  (pr = IPPROTO_TCP → len out < hl + 18) → (pr = IPPROTO_UDP → len out < hl + 8) →
  rewrite_l4 pr hl out = Ret (Some out).
Proof.
  intros Ht Hu. unfold rewrite_l4.
  destruct (pr =? IPPROTO_TCP) eqn:E1; bsplit.
  - rewrite (proj2 (Z.leb_gt (hl + 18) _)) by (by apply Ht). subst. done.
  - destruct (pr =? IPPROTO_UDP) eqn:E2; bsplit; [|done].
    rewrite (proj2 (Z.leb_gt (hl + 8) _)) by (by apply Hu). done.
Qed.


(** An endpoint to write: an address and an optional port. *)
Abbreviation endpoint := (option (Z * option Z)).
Definition ep_ip (e : endpoint) : option Z := fst <$> e.
Definition ep_port (e : endpoint) : option Z := e ≫= snd.
Definition endpoint_ok (e : endpoint) : Prop :=
  (∀ a, ep_ip e = Some a → is_u32 a) ∧ (∀ q, ep_port e = Some q → is_u16 q).

Definition has_ports (pr : Z) : bool := (pr =? IPPROTO_TCP) || (pr =? IPPROTO_UDP).

(** Where a rewrite may touch the packet. *)
Definition addr_ranges (pr hl : Z) (ns nd : endpoint) : list (Z * Z) :=
  opt_range ns 12 4 ++ opt_range nd 16 4
    ++ (if has_ports pr then opt_range (ep_port ns) hl 2 ++ opt_range (ep_port nd) (hl + 2) 2
        else []).
Definition rewrite_ranges (pr hl : Z) (ns nd : endpoint) : list (Z * Z) :=
  addr_ranges pr hl ns nd ++ (if has_ports pr then [(hl + l4_field pr, 2)] else []) ++ [(10, 2)].

Section rewrite.
Context (pkt : bytes) (ip : Ipv4View) (ns nd : endpoint).
Context (Hok : bytes_ok pkt) (Hip : Ipv4View_parse pkt = Some ip)
  (Hns : endpoint_ok ns) (Hnd : endpoint_ok nd).

Let hl := header_len ip.
Let head := take (Z.to_nat (total_len ip)) pkt.

Lemma rewrite_bounds :
  20 ≤ hl ≤ total_len ip ∧ total_len ip ≤ 65535 ∧ bytes_ok head ∧ len head = total_len ip ∧
  slice_chk pkt 0 (total_len ip) = Ret head ∧ edited [] (ip_payload ip) (drop (Z.to_nat hl) head).
Proof using Hok Hip.
  pose proof (Ipv4View_parse_Some _ _ Hip) as (E & ? & ? & Hh & ?). fold hl in Hh.
  pose proof (total_len_u16 ip) as Ht. rewrite E in Ht at 1. specialize (Ht Hok). unfold is_u16 in Ht.
  split; [done|]. split; [lia|]. split; [unfold head; auto with vmlab|].
  split; [unfold head; len_lia|].
  split; [rewrite slice_chk_ret by lia; unfold slice; rewrite drop_0; do 2 f_equal; lia|].
  unfold ip_payload, slice, head. rewrite E. cbn [ip_buf]. rewrite skipn_firstn_comm.
  replace (Z.to_nat (total_len {| ip_buf := pkt |} - header_len {| ip_buf := pkt |}))
    with (Z.to_nat (total_len {| ip_buf := pkt |}) - Z.to_nat (header_len {| ip_buf := pkt |}))%nat
    by (subst ip; lia). unfold hl. rewrite E. apply edited_refl.
Qed.

Lemma head_fields :
  ipv4_at head 12 = ip_src ip ∧ ipv4_at head 16 = ip_dst ip ∧
  (∀ i, 0 ≤ i → i + 2 ≤ total_len ip → u16_at head i = u16_at (ip_buf ip) i) ∧
  idx head 0 = idx (ip_buf ip) 0 ∧ idx head 9 = proto ip.
Proof using Hok Hip.
  pose proof rewrite_bounds as (? & ? & _ & _ & _).
  pose proof (Ipv4View_parse_Some _ _ Hip) as (E & _).
  unfold head, ip_src, ip_dst, proto, ipv4_at, u16_at.
  assert (Hi : ∀ i, 0 ≤ i < total_len ip →
    idx (take (Z.to_nat (total_len ip)) pkt) i = idx (ip_buf ip) i).
  { intros. rewrite idx_take by lia. by rewrite E. }
  rewrite !Hi by lia. split_and!; try done. intros. by rewrite !Hi by lia.
Qed.

(** The addresses and ports written before any checksum. *)
Lemma rewrite_addresses :
  ∃ o, bytes_ok o ∧ len o = total_len ip ∧ edited (addr_ranges (proto ip) hl ns nd) head o ∧
    ipv4_at o 12 = default (ip_src ip) (ep_ip ns) ∧
    ipv4_at o 16 = default (ip_dst ip) (ep_ip nd) ∧
    (has_ports (proto ip) = true → hl + 4 ≤ total_len ip →
      u16_at o hl = default (u16_at (ip_buf ip) hl) (ep_port ns) ∧
      u16_at o (hl + 2) = default (u16_at (ip_buf ip) (hl + 2)) (ep_port nd)) ∧
    rewrite_packet pkt ip ns nd =
      l4 ← rewrite_l4 (proto ip) hl o;
      match l4 with
      | None => Ret None
      | Some out =>
          out ← copy_at out 10 [0; 0];
          hdr ← slice_chk out 0 hl;
          Some <$> copy_at out 10 (be16 (internet_checksum hdr))
      end.
Proof using Hok Hip Hns Hnd.
  destruct rewrite_bounds as (Hhl & Ht & Hhok & Hhlen & Hsl & _).
  destruct head_fields as (Fs & Fd & Fp & _).
  unfold rewrite_packet. rewrite Hsl. cbn [mbind outcome_bind].
  destruct (copy_opt_spec head 12 4 ((octets ∘ fst) <$> ns)) as (o1 & -> & O1 & E1 & V1);
    [done| |lia|lia|lia|].
  { intros s Hs. destruct ns as [[a q]|]; simplify_eq/=. split; [|done].
    apply bytes_ok_octets. by apply (proj1 Hns). }
  cbn [mbind outcome_bind]. pose proof (edited_len _ _ _ E1) as L1.
  destruct (copy_opt_spec o1 16 4 ((octets ∘ fst) <$> nd)) as (o2 & -> & O2 & E2 & V2);
    [done| |lia|lia|lia|].
  { intros s Hs. destruct nd as [[a q]|]; simplify_eq/=. split; [|done].
    apply bytes_ok_octets. by apply (proj1 Hnd). }
  cbn [mbind outcome_bind]. pose proof (edited_len _ _ _ E2) as L2.
  assert (A1 : ipv4_at o1 12 = default (ip_src ip) (ep_ip ns)).
  { rewrite V1. destruct ns as [[a q]|]; cbn; [|done]. apply ipv4_at_splice; lia. }
  assert (A2 : ipv4_at o2 16 = default (ip_dst ip) (ep_ip nd)).
  { rewrite V2. destruct nd as [[a q]|]; cbn; [apply ipv4_at_splice; lia|].
    rewrite (ipv4_at_edited _ _ _ 16 E1); [done|lia|]. intros i Hi Hr%in_opt_range. lia. }
  rewrite <-(ipv4_at_edited _ _ _ 12 E2) in A1;
    [|lia|intros i Hi Hr%in_opt_range; lia].
  fold (ep_port ns) (ep_port nd). fold hl. fold (has_ports (proto ip)).
  unfold addr_ranges.
  replace (opt_range ((octets ∘ fst) <$> ns) 12 4) with (opt_range ns 12 4) in E1 by (by destruct ns).
  replace (opt_range ((octets ∘ fst) <$> nd) 16 4) with (opt_range nd 16 4) in E2 by (by destruct nd).
  pose proof (edited_trans _ _ _ _ _ E1 E2) as E12.
  destruct (has_ports (proto ip)) eqn:Hp; cbn [andb].
  2:{ exists o2. cbn [mbind outcome_bind]. rewrite app_nil_r.
      split; [done|]. split; [lia|]. split; [done|]. done. }
  destruct (hl + 4 <=? len o2) eqn:H4; bsplit.
  2:{ exists o2. cbn [mbind outcome_bind].
      split; [done|]. split; [lia|]. split.
      - eapply edited_weaken; [|exact E12]. intros i. rewrite !in_ranges_app. tauto.
      - do 2 (split; [done|]). split; [intros; lia|done]. }
  destruct (copy_opt_spec o2 hl 2 (be16 <$> ep_port ns)) as (o3 & -> & O3 & E3 & V3);
    [done| |lia|lia|lia|].
  { intros s Hs. destruct (ep_port ns) as [q|] eqn:Eq; simplify_eq/=.
    split; [apply bytes_ok_be16; by apply (proj2 Hns)|done]. }
  cbn [mbind outcome_bind]. pose proof (edited_len _ _ _ E3) as L3.
  destruct (copy_opt_spec o3 (hl + 2) 2 (be16 <$> ep_port nd)) as (o4 & -> & O4 & E4 & V4);
    [done| |lia|lia|lia|].
  { intros s Hs. destruct (ep_port nd) as [q|] eqn:Eq; simplify_eq/=.
    split; [apply bytes_ok_be16; by apply (proj2 Hnd)|done]. }
  cbn [mbind outcome_bind]. pose proof (edited_len _ _ _ E4) as L4.
  exists o4. split; [done|]. split; [lia|].
  replace (opt_range (be16 <$> ep_port ns) hl 2) with (opt_range (ep_port ns) hl 2) in E3
    by (by destruct (ep_port ns)).
  replace (opt_range (be16 <$> ep_port nd) (hl + 2) 2) with (opt_range (ep_port nd) (hl + 2) 2) in E4
    by (by destruct (ep_port nd)).
  pose proof (edited_trans _ _ _ _ _ E3 E4) as E34.
  split; [pose proof (edited_trans _ _ _ _ _ E12 E34) as E; by rewrite <-app_assoc in E|].
  assert (Hout : ∀ i, i < hl → ¬ in_ranges
    (opt_range (ep_port ns) hl 2 ++ opt_range (ep_port nd) (hl + 2) 2) i).
  { intros i Hi. rewrite in_ranges_app. intros [Hr%in_opt_range|Hr%in_opt_range]; lia. }
  split; [rewrite (ipv4_at_edited _ _ _ 12 E34); [done|lia|]; intros; apply Hout; lia|].
  split; [rewrite (ipv4_at_edited _ _ _ 16 E34); [done|lia|]; intros; apply Hout; lia|].
  split; [|done]. intros _ Hfit.
  assert (B2 : ∀ i, hl ≤ i → i + 2 ≤ total_len ip → u16_at o2 i = u16_at (ip_buf ip) i).
  { intros i Hi Hi2. rewrite (u16_at_edited _ _ _ i E12); [by apply Fp; lia|lia|].
    intros j Hj. rewrite in_ranges_app. intros [Hr%in_opt_range|Hr%in_opt_range]; lia. }
  split.
  - rewrite (u16_at_edited _ _ _ hl E4); [|lia|intros i Hi Hr%in_opt_range; lia].
    rewrite V3. destruct (ep_port ns); cbn; [apply u16_at_splice; lia|apply B2; lia].
  - rewrite V4. destruct (ep_port nd); cbn; [apply u16_at_splice; lia|].
    rewrite (u16_at_edited _ _ _ (hl + 2) E3); [apply B2; lia|lia|].
    intros i Hi Hr%in_opt_range; lia.
Qed.
End rewrite.

(** The IPv4 header checksum refresh that ends a rewrite (and a routed hop). *)
Lemma header_refresh o hl :
  bytes_ok o → 20 ≤ hl ≤ len o → len o ≤ 65535 →
  ∃ out,
    (out ← copy_at o 10 [0; 0];
     hdr ← slice_chk out 0 hl;
     Some <$> copy_at out 10 (be16 (internet_checksum hdr))) = Ret (Some out) ∧
    bytes_ok out ∧ edited [(10, 2)] o out ∧
    internet_checksum (take (Z.to_nat hl) out) = 0 ∧
    drop (Z.to_nat hl) out = drop (Z.to_nat hl) o.
Proof.
  intros Hok Hhl Hl. set (z := splice o 10 [0; 0]).
  assert (Hz : len z = len o) by (apply len_splice; change (len [0; 0]) with 2; lia).
  assert (Hzok : bytes_ok z) by (unfold z; auto 10 with vmlab).
  set (c := internet_checksum (take (Z.to_nat hl) z)).
  assert (Hcu : is_u16 c) by (apply internet_checksum_u16; [auto with vmlab|rewrite len_take; lia]).
  destruct (copy_twice o 10 0 0 c) as [E1 E2]; [lia|lia|].
  exists (splice o 10 (be16 c)). rewrite E1. cbn [mbind outcome_bind].
  rewrite slice_chk_ret by (fold z; lia). cbn [mbind outcome_bind].
  replace (slice (splice o 10 [0; 0]) 0 hl) with (take (Z.to_nat hl) z)
    by (unfold slice; rewrite drop_0; f_equal; lia).
  fold c. rewrite E2. split; [done|]. split; [auto with vmlab|].
  split; [by apply (edited_splice o 10 (be16 c)); rewrite ?len_be16; lia|]. split.
  - assert (take (Z.to_nat hl) (splice o 10 (be16 c)) = splice (take (Z.to_nat hl) z) 10 (be16 c)) as ->.
    { rewrite <-take_splice_lo by (rewrite ?len_be16; lia). f_equal.
      unfold copy_at in E2. case_in E2; [|done]. by simplify_eq. }
    apply (checksum_stored_verifies _ 10 c); try done.
    + auto with vmlab.
    + rewrite len_take. lia.
    + by exists 5%nat.
    + rewrite len_take. lia.
    + rewrite idx_take by lia. unfold z. rewrite idx_splice_in by (change (len [0; 0]) with 2; lia). done.
    + rewrite idx_take by lia. unfold z. rewrite idx_splice_in by (change (len [0; 0]) with 2; lia). done.
    + by left.
  - apply drop_splice_lo; rewrite ?len_be16; lia.
Qed.

(** What the rewritten packet is. *)
Definition rewritten (ip v : Ipv4View) (ns nd : endpoint) : Prop :=
  header_len v = header_len ip ∧ total_len v = total_len ip ∧ proto v = proto ip ∧
  ip_src v = default (ip_src ip) (ep_ip ns) ∧ ip_dst v = default (ip_dst ip) (ep_ip nd) ∧
  ip_checksum_valid v = true ∧
  (has_ports (proto ip) = true → header_len ip + 4 ≤ total_len ip →
    u16_at (ip_buf v) (header_len ip) = default (u16_at (ip_buf ip) (header_len ip)) (ep_port ns) ∧
    u16_at (ip_buf v) (header_len ip + 2)
      = default (u16_at (ip_buf ip) (header_len ip + 2)) (ep_port nd)) ∧
  (proto ip = IPPROTO_TCP → header_len ip + 18 ≤ total_len ip →
    l4_checksum (ip_src v) (ip_dst v) IPPROTO_TCP (ip_payload v) = Some 0) ∧
  (proto ip = IPPROTO_UDP → header_len ip + 8 ≤ total_len ip →
    (u16_at (ip_buf ip) (header_len ip + 6) = 0 → u16_at (ip_buf v) (header_len ip + 6) = 0) ∧
    (u16_at (ip_buf ip) (header_len ip + 6) ≠ 0 →
      u16_at (ip_buf v) (header_len ip + 6) ≠ 0 ∧
      l4_checksum (ip_src v) (ip_dst v) IPPROTO_UDP (ip_payload v) = Some 0)).

Lemma has_ports_spec pr : has_ports pr = true ↔ pr = IPPROTO_TCP ∨ pr = IPPROTO_UDP.
Proof. unfold has_ports. by rewrite orb_true_iff, !Z.eqb_eq. Qed.

(** The transport step over an already re-addressed packet [o]. *)
Lemma rewrite_l4_spec pr hl o :
  bytes_ok o → 20 ≤ hl ≤ len o → len o ≤ 65535 →
  ∃ o', rewrite_l4 pr hl o = Ret (Some o') ∧ bytes_ok o' ∧
    edited (if has_ports pr then [(hl + l4_field pr, 2)] else []) o o' ∧
    (pr = IPPROTO_TCP → hl + 18 ≤ len o →
      l4_checksum (ipv4_at o 12) (ipv4_at o 16) pr (drop (Z.to_nat hl) o') = Some 0) ∧
    (pr = IPPROTO_UDP → hl + 8 ≤ len o →
      (u16_at o (hl + 6) = 0 → u16_at o' (hl + 6) = 0) ∧
      (u16_at o (hl + 6) ≠ 0 → u16_at o' (hl + 6) ≠ 0 ∧
        l4_checksum (ipv4_at o 12) (ipv4_at o 16) pr (drop (Z.to_nat hl) o') = Some 0)).
Proof.
  intros Hok Hhl Hl.
  destruct (decide (pr = IPPROTO_TCP ∧ hl + 18 ≤ len o)) as [[-> Hf]|Hn1].
  { destruct (rewrite_l4_tcp hl o) as (o' & -> & ? & ? & ?); [done|lia|done|done|].
    exists o'. do 3 (split; [done|]). split; [done|]. intros; discriminate. }
  destruct (decide (pr = IPPROTO_UDP ∧ hl + 8 ≤ len o)) as [[-> Hf]|Hn2].
  { destruct (rewrite_l4_udp hl o) as (o' & -> & ? & ? & Hz & ?); [done|lia|done|done|].
    exists o'. do 3 (split; [done|]). split; [done|]. intros _ _. split; [|done].
    intros E. by rewrite (Hz E). }
  rewrite rewrite_l4_other by lia. exists o. do 2 (split; [done|]).
  split; [apply edited_refl|]. split; intros; lia.
Qed.

Lemma rewrite_packet_spec pkt ip ns nd :
  bytes_ok pkt → Ipv4View_parse pkt = Some ip → endpoint_ok ns → endpoint_ok nd →
  ∃ out, rewrite_packet pkt ip ns nd = Ret (Some out) ∧ bytes_ok out ∧
    edited (rewrite_ranges (proto ip) (header_len ip) ns nd)
      (take (Z.to_nat (total_len ip)) pkt) out ∧
    Ipv4View_parse out = Some {| ip_buf := out |} ∧ rewritten ip {| ip_buf := out |} ns nd.
Proof.
  intros Hok Hip Hns Hnd.
  destruct (rewrite_bounds pkt ip Hok Hip) as (Hhl & Ht & Hhok & Hhlen & _ & _).
  destruct (head_fields pkt ip Hok Hip) as (_ & _ & Fp & F0 & F9).
  pose proof (Ipv4View_parse_Some _ _ Hip) as (Eip & _ & Hver & _).
  destruct (rewrite_addresses pkt ip ns nd Hok Hip Hns Hnd)
    as (o & Ook & Ol & Oe & Os & Od & Op & ->).
  destruct (rewrite_l4_spec (proto ip) (header_len ip) o) as (o' & -> & O'ok & O'e & O'tcp & O'udp);
    [done|lia|lia|]. cbn [mbind outcome_bind].
  pose proof (edited_len _ _ _ O'e) as L'.
  destruct (header_refresh o' (header_len ip)) as (out & -> & Outok & Oute & Outc & Outd);
    [done|lia|lia|].
  pose proof (edited_len _ _ _ Oute) as Lout.
  pose proof (edited_trans _ _ _ _ _ O'e Oute) as Elate.
  exists out. split; [done|]. split; [done|].
  split; [exact (edited_trans _ _ _ _ _ Oe Elate)|].
  set (late := (if has_ports (proto ip) then _ else _) ++ _) in *.
  assert (Hlate : ∀ i, in_ranges late i →
    (10 ≤ i < 12) ∨ has_ports (proto ip) = true ∧
    header_len ip + l4_field (proto ip) ≤ i < header_len ip + l4_field (proto ip) + 2).
  { intros i. unfold late. destruct (has_ports _); ranges. }
  assert (Hl4f : l4_field (proto ip) = 6 ∨ l4_field (proto ip) = 16)
    by (unfold l4_field; case_goal; auto).
  assert (Hfix : ∀ i, 0 ≤ i < 10 → idx out i = idx (take (Z.to_nat (total_len ip)) pkt) i).
  { intros i Hi. rewrite (edited_idx _ _ _ i Elate); [|lia|intros ?%Hlate; lia].
    apply (edited_idx _ _ _ i Oe); [lia|]. unfold addr_ranges. rewrite !in_ranges_app.
    intros [?%in_opt_range|[?%in_opt_range|Hr]]; try lia.
    destruct (has_ports _); [rewrite in_ranges_app in Hr; destruct Hr as [?%in_opt_range|?%in_opt_range]; lia
      |by apply in_ranges_nil in Hr]. }
  assert (V0 : idx out 0 = idx (ip_buf ip) 0) by (rewrite Hfix by lia; exact F0).
  assert (Vh : header_len {| ip_buf := out |} = header_len ip)
    by (unfold header_len, ihl; cbn [ip_buf]; by rewrite V0).
  assert (Vt : total_len {| ip_buf := out |} = total_len ip).
  { transitivity (u16_at (take (Z.to_nat (total_len ip)) pkt) 2); [|by apply Fp; lia].
    unfold total_len at 1, u16_at. cbn [ip_buf]. by rewrite !Hfix by lia. }
  assert (Vp : ip_payload {| ip_buf := out |} = drop (Z.to_nat (header_len ip)) o').
  { unfold ip_payload. rewrite Vh, Vt. cbn [ip_buf].
    rewrite slice_to_end by lia. done. }
  assert (Vs : ip_src {| ip_buf := out |} = ipv4_at o 12).
  { apply (ipv4_at_edited _ _ _ 12 Elate); [lia|]. intros i Hi ?%Hlate. lia. }
  assert (Vd : ip_dst {| ip_buf := out |} = ipv4_at o 16).
  { apply (ipv4_at_edited _ _ _ 16 Elate); [lia|]. intros i Hi ?%Hlate. lia. }
  split.
  { apply Ipv4View_parse_intro.
    - lia.
    - rewrite V0, Eip. done.
    - change (Z.land (idx out 0) 15 * 4) with (header_len {| ip_buf := out |}).
      change (u16_at out 2) with (total_len {| ip_buf := out |}). rewrite Vh, Vt. lia.
    - change (u16_at out 2) with (total_len {| ip_buf := out |}). lia. }
  unfold rewritten. rewrite Vh, Vt, Vs, Vd, Vp. do 2 (split; [done|]).
  split; [unfold proto at 1; cbn [ip_buf]; rewrite Hfix by lia; done|].
  do 2 (split; [done|]).
  split. { unfold ip_checksum_valid. rewrite Vh. cbn [ip_buf].
           unfold slice. rewrite drop_0, Z.sub_0_r, Outc. done. }
  cbn [ip_buf].
  assert (Hhi : ∀ i, header_len ip ≤ i → u16_at out i = u16_at o' i).
  { intros i Hi. apply (u16_at_edited _ _ _ i Oute); [lia|]. intros j Hj. ranges. }
  split.
  { intros Hp Hf. destruct (Op Hp Hf) as [P1 P2]. rewrite !Hhi by lia.
    rewrite !(u16_at_edited _ _ _ _ O'e); [done|lia| |lia|];
      intros i Hi; rewrite Hp; ranges. }
  rewrite Ol in *. split; [intros E Hf; specialize (O'tcp E Hf); by rewrite E in O'tcp|].
  intros E Hf. destruct (O'udp E Hf) as [U1 U2]. rewrite Hhi by lia.
  assert (Ho6 : u16_at o (header_len ip + 6) = u16_at (ip_buf ip) (header_len ip + 6)).
  { rewrite (u16_at_edited _ _ _ _ Oe); [apply Fp; lia|lia|]. intros i Hi.
    unfold addr_ranges. rewrite E. cbn. rewrite !in_ranges_app.
    intros [?%in_opt_range|[?%in_opt_range|[?%in_opt_range|?%in_opt_range]]]; lia. }
  rewrite <-Ho6. split; [done|]. intros Hn. destruct (U2 Hn) as [U3 U4].
  rewrite E in U4. done.
Qed.

(** ** Ports through a rewrite *)


(** A packet with trackable ports has at least eight transport bytes, and
    its ports are its first two words. *)
Lemma meta_ports pkt ip sp dp :
  Ipv4View_parse pkt = Some ip → has_ports (proto ip) = true →
  m_conn_ports (Meta_of ip) = Some (sp, dp) →
  header_len ip + 8 ≤ total_len ip ∧ sp = u16_at (ip_buf ip) (header_len ip) ∧
  dp = u16_at (ip_buf ip) (header_len ip + 2) ∧ m_dst_port (Meta_of ip) = Some dp.
Proof.
  intros Hip Hp%has_ports_spec Hm.
  pose proof (len_ip_payload _ _ Hip) as Hl.
  pose proof (Ipv4View_parse_Some _ _ Hip) as (_ & _ & _ & Hh & _).
  unfold Meta_of in *. destruct Hp as [E|E]; rewrite E in *.
  - change (IPPROTO_TCP =? IPPROTO_TCP) with true in *. cbn [m_conn_ports m_dst_port] in *.
    destruct (TcpView_parse _) as [t|] eqn:Ht; [|done]. cbn in Hm. simplify_eq.
    apply TcpView_parse_Some in Ht as (-> & Hl20 & _). split; [lia|].
    unfold tcp_src_port, tcp_dst_port. cbn [tcp_buf fmap option_fmap option_map].
    rewrite !ip_payload_u16 by lia. by rewrite Z.add_0_r.
  - change (IPPROTO_UDP =? IPPROTO_TCP) with false in *.
    change (IPPROTO_UDP =? IPPROTO_UDP) with true in *. cbn [m_conn_ports m_dst_port] in *.
    destruct (UdpView_parse _) as [u|] eqn:Hu; [|done]. cbn in Hm. simplify_eq.
    apply UdpView_parse_Some in Hu as (-> & Hl8 & _). split; [lia|].
    unfold udp_src_port, udp_dst_port. cbn [udp_buf fmap option_fmap option_map].
    rewrite !ip_payload_u16 by lia. by rewrite Z.add_0_r.
Qed.

(** The bytes [Meta_of] looks at besides the ports are not rewritten. *)
Lemma meta_rewritten pkt ip out ns nd sp dp :
  bytes_ok pkt → Ipv4View_parse pkt = Some ip → Ipv4View_parse out = Some {| ip_buf := out |} →
  edited (rewrite_ranges (proto ip) (header_len ip) ns nd)
      (take (Z.to_nat (total_len ip)) pkt) out →
  rewritten ip {| ip_buf := out |} ns nd → has_ports (proto ip) = true →
  m_conn_ports (Meta_of ip) = Some (sp, dp) →
  m_conn_ports (Meta_of {| ip_buf := out |})
    = Some (default sp (ep_port ns), default dp (ep_port nd)).
Proof.
  intros Hok Hip Hout He Hr Hp Hm.
  destruct (meta_ports _ _ _ _ Hip Hp Hm) as (H8 & -> & -> & _).
  destruct (head_fields pkt ip Hok Hip) as (_ & _ & _ & _ & _).
  pose proof (Ipv4View_parse_Some _ _ Hip) as (Eip & _ & _ & Hh & _).
  destruct Hr as (Rh & Rt & Rp & _ & _ & _ & Rports & _).
  destruct (Rports Hp ltac:(lia)) as [R1 R2]. cbn [ip_buf] in R1, R2.
  pose proof (len_ip_payload _ _ Hip) as Hl. pose proof (len_ip_payload _ _ Hout) as Hl'.
  rewrite Rh, Rt in Hl'.
  assert (Hsame : ∀ i, 4 ≤ i → i < l4_field (proto ip) ∨ l4_field (proto ip) + 2 ≤ i →
    header_len ip + i < total_len ip → idx (ip_payload {| ip_buf := out |}) i = idx (ip_payload ip) i).
  { intros i Hi4 Hi Hit. rewrite !ip_payload_idx by lia. rewrite Rh. cbn [ip_buf].
    rewrite (edited_idx _ _ _ _ He); [rewrite idx_take by lia; by rewrite Eip|lia|].
    unfold rewrite_ranges, addr_ranges. rewrite Hp, !in_ranges_app, in_ranges_cons, in_ranges_nil.
    assert (0 ≤ l4_field (proto ip)) by (unfold l4_field; case_goal; lia).
    intros [[?%in_opt_range|[?%in_opt_range|[?%in_opt_range|?%in_opt_range]]]|?]; ranges. }
  apply has_ports_spec in Hp as Hp'. unfold Meta_of in *. rewrite Rp in *.
  destruct Hp' as [E|E]; rewrite E in *.
  - change (IPPROTO_TCP =? IPPROTO_TCP) with true in *. cbn [m_conn_ports] in *.
    destruct (TcpView_parse (ip_payload ip)) as [t|] eqn:Ht; [|done].
    apply TcpView_parse_Some in Ht as (-> & Hl20 & Ho). unfold data_offset in Ho. cbn [tcp_buf] in Ho.
    unfold TcpView_parse, TCP_MIN_HEADER_LEN. rewrite (Hsame 12) by (cbn; lia).
    rewrite !(proj2 (Z.ltb_ge _ _)) by lia. cbn.
    unfold tcp_src_port, tcp_dst_port. cbn [tcp_buf]. rewrite !ip_payload_u16 by lia.
    rewrite Rh, Z.add_0_r. cbn [ip_buf]. by rewrite R1, R2.
  - change (IPPROTO_UDP =? IPPROTO_TCP) with false in *.
    change (IPPROTO_UDP =? IPPROTO_UDP) with true in *. cbn [m_conn_ports] in *.
    destruct (UdpView_parse (ip_payload ip)) as [u|] eqn:Hu; [|done].
    apply UdpView_parse_Some in Hu as (-> & Hl8 & Ho). unfold udp_len in Ho. cbn [udp_buf] in Ho.
    unfold UdpView_parse, UDP_HEADER_LEN.
    assert (u16_at (ip_payload {| ip_buf := out |}) 4 = u16_at (ip_payload ip) 4) as ->
      by (unfold u16_at; rewrite !Hsame by (cbn; lia); done).
    rewrite !(proj2 (Z.ltb_ge _ _)) by lia. cbn.
    unfold udp_src_port, udp_dst_port. cbn [udp_buf]. rewrite !ip_payload_u16 by lia.
    rewrite Rh, Z.add_0_r. cbn [ip_buf]. by rewrite R1, R2.
Qed.

(** ** The rewritten packet, read again *)

(** [v] is [ip] between the endpoints [ns] and [nd], where given, and otherwise
    the same packet: its header checksum is valid; a TCP segment has the new
    ports, a valid checksum and everything else unchanged; so has a UDP
    datagram, which carries a checksum exactly when it carried one, valid when
    the datagram fills the packet; any other payload is untouched. *)
Definition retargeted (ip v : Ipv4View) (ns nd : endpoint) : Prop :=
  header_len v = header_len ip ∧ total_len v = total_len ip ∧ proto v = proto ip ∧
  ip_src v = default (ip_src ip) (ep_ip ns) ∧ ip_dst v = default (ip_dst ip) (ep_ip nd) ∧
  ip_checksum_valid v = true ∧
  (∀ t, proto ip = IPPROTO_TCP → TcpView_parse (ip_payload ip) = Some t →
    ∃ t', TcpView_parse (ip_payload v) = Some t' ∧
      tcp_src_port t' = default (tcp_src_port t) (ep_port ns) ∧ tcp_dst_port t' = default (tcp_dst_port t) (ep_port nd) ∧
      tcp_seq t' = tcp_seq t ∧ tcp_ack t' = tcp_ack t ∧ tcp_flags t' = tcp_flags t ∧ tcp_window t' = tcp_window t ∧
      tcp_options t' = tcp_options t ∧ tcp_payload t' = tcp_payload t ∧
      tcp_checksum_valid t' (ip_src v) (ip_dst v) = true) ∧
  (∀ u, proto ip = IPPROTO_UDP → UdpView_parse (ip_payload ip) = Some u →
    ∃ u', UdpView_parse (ip_payload v) = Some u' ∧
      udp_src_port u' = default (udp_src_port u) (ep_port ns) ∧ udp_dst_port u' = default (udp_dst_port u) (ep_port nd) ∧
      udp_payload u' = udp_payload u ∧ (udp_checksum u' = 0 ↔ udp_checksum u = 0) ∧
      (udp_len u = len (ip_payload ip) → udp_checksum_valid u' (ip_src v) (ip_dst v) = true)) ∧
  (has_ports (proto ip) = false → ip_payload v = ip_payload ip).

Lemma slice_same (l l' : bytes) a b :
  0 ≤ a ≤ b → b ≤ len l → b ≤ len l' → (∀ i, a ≤ i < b → idx l i = idx l' i) → slice l a b = slice l' a b.
Proof.
  intros Ha Hl Hl' Hi. apply idx_ext; rewrite !len_slice by lia; [done|]. intros i Hx. rewrite !idx_slice by lia. apply Hi. lia.
Qed.

Section reread.
Context (pkt out : bytes) (ip : Ipv4View) (ns nd : endpoint).
Context (Hok : bytes_ok pkt) (Hip : Ipv4View_parse pkt = Some ip) (Hout : Ipv4View_parse out = Some {| ip_buf := out |}).
Context (He : edited (rewrite_ranges (proto ip) (header_len ip) ns nd) (take (Z.to_nat (total_len ip)) pkt) out).
Context (Hr : rewritten ip {| ip_buf := out |} ns nd).

Let pay := ip_payload ip.
Let pay' := ip_payload {| ip_buf := out |}.

Lemma reread_len : len pay' = len pay ∧ len pay = total_len ip - header_len ip.
Proof using Hip Hout Hr.
  pose proof (len_ip_payload _ _ Hip) as Hl. pose proof (len_ip_payload _ _ Hout) as Hl'.
  destruct Hr as (Rh & Rt & _). unfold pay, pay'. rewrite Rh, Rt in Hl'. lia.
Qed.

Lemma reread_same i :
  0 ≤ i < len pay → (has_ports (proto ip) = true → 4 ≤ i ∧ (i < l4_field (proto ip) ∨ l4_field (proto ip) + 2 ≤ i)) →
  idx pay' i = idx pay i.
Proof using Hok Hip Hout He Hr.
  intros Hi Hp. destruct reread_len as [Hl Hl2]. pose proof (Ipv4View_parse_Some _ _ Hip) as (Eip & _ & _ & Hh & _).
  destruct Hr as (Rh & Rt & _). unfold pay, pay'. rewrite !ip_payload_idx by lia. rewrite Rh. cbn [ip_buf].
  rewrite (edited_idx _ _ _ _ He); [rewrite idx_take by lia; by rewrite Eip|lia|].
  unfold rewrite_ranges, addr_ranges.
  destruct (has_ports (proto ip)); rewrite !in_ranges_app, ?in_ranges_cons, !in_ranges_nil.
  - destruct (Hp eq_refl) as [H4 Hf]. assert (0 ≤ l4_field (proto ip)) by (unfold l4_field; case_goal; lia).
    intros [[?%in_opt_range|[?%in_opt_range|[?%in_opt_range|?%in_opt_range]]]|?]; lia.
  - intros [[?%in_opt_range|[?%in_opt_range|[]]]|?]; lia.
Qed.

Lemma reread_ports : has_ports (proto ip) = true → 4 ≤ len pay →
  u16_at pay' 0 = default (u16_at pay 0) (ep_port ns) ∧ u16_at pay' 2 = default (u16_at pay 2) (ep_port nd).
Proof using Hip Hout Hr.
  intros Hp H4. destruct reread_len as [Hl Hl2]. pose proof (Ipv4View_parse_Some _ _ Hip) as (_ & _ & _ & Hh & _).
  pose proof Hr as (Rh & Rt & _ & _ & _ & _ & Rp & _). destruct (Rp Hp ltac:(lia)) as [R1 R2].
  unfold pay, pay'. rewrite !ip_payload_u16 by lia. rewrite Rh, !Z.add_0_r. done.
Qed.

Lemma reread_tcp t : proto ip = IPPROTO_TCP → TcpView_parse pay = Some t →
  ∃ t', TcpView_parse pay' = Some t' ∧
    tcp_src_port t' = default (tcp_src_port t) (ep_port ns) ∧ tcp_dst_port t' = default (tcp_dst_port t) (ep_port nd) ∧
    tcp_seq t' = tcp_seq t ∧ tcp_ack t' = tcp_ack t ∧ tcp_flags t' = tcp_flags t ∧ tcp_window t' = tcp_window t ∧
    tcp_options t' = tcp_options t ∧ tcp_payload t' = tcp_payload t ∧
    tcp_checksum_valid t' (ip_src {| ip_buf := out |}) (ip_dst {| ip_buf := out |}) = true.
Proof using Hok Hip Hout He Hr.
  intros E (-> & Hl20 & Ho)%TcpView_parse_Some. destruct reread_len as [Hl Hl2].
  assert (∀ i, 4 ≤ i < 16 ∨ 18 ≤ i → i < len pay → idx pay' i = idx pay i) as Hs.
  { intros i Hi Hil. apply reread_same; [lia|]. unfold l4_field. rewrite E. cbn. intros _. lia. }
  destruct (reread_ports) as [P1 P2]; [by rewrite E|lia|].
  assert (data_offset {| tcp_buf := pay' |} = data_offset {| tcp_buf := pay |}) as Hd
    by (unfold data_offset; cbn [tcp_buf]; by rewrite Hs by lia).
  exists {| tcp_buf := pay' |}. unfold data_offset in Ho. cbn [tcp_buf] in Ho. split.
  { unfold TcpView_parse, TCP_MIN_HEADER_LEN. rewrite (Hs 12) by lia. rewrite !(proj2 (Z.ltb_ge _ _)) by lia. done. }
  do 2 (split; [done|]). unfold tcp_seq, tcp_ack, tcp_flags, tcp_window, u32_at, u16_at. cbn [tcp_buf].
  rewrite !Hs by lia. do 4 (split; [done|]). split_and!.
  - unfold tcp_options. rewrite Hd. unfold data_offset, TCP_MIN_HEADER_LEN. cbn [tcp_buf]. apply slice_same; [lia..|]. intros. apply Hs; lia.
  - unfold tcp_payload. rewrite Hd. unfold data_offset. cbn [tcp_buf]. rewrite Hl. apply slice_same; [lia..|]. intros. apply Hs; lia.
  - apply bool_decide_eq_true_2. destruct Hr as (_ & _ & _ & _ & _ & _ & _ & Rt & _). apply Rt; [done|lia].
Qed.

Lemma reread_udp u : proto ip = IPPROTO_UDP → UdpView_parse pay = Some u →
  ∃ u', UdpView_parse pay' = Some u' ∧
    udp_src_port u' = default (udp_src_port u) (ep_port ns) ∧ udp_dst_port u' = default (udp_dst_port u) (ep_port nd) ∧
    udp_payload u' = udp_payload u ∧ (udp_checksum u' = 0 ↔ udp_checksum u = 0) ∧
    (udp_len u = len pay → udp_checksum_valid u' (ip_src {| ip_buf := out |}) (ip_dst {| ip_buf := out |}) = true).
Proof using Hok Hip Hout He Hr.
  intros E (-> & Hl8 & Ho)%UdpView_parse_Some. destruct reread_len as [Hl Hl2].
  pose proof (Ipv4View_parse_Some _ _ Hip) as (_ & _ & _ & Hh & _).
  assert (∀ i, 4 ≤ i < 6 ∨ 8 ≤ i → i < len pay → idx pay' i = idx pay i) as Hs.
  { intros i Hi Hil. apply reread_same; [lia|]. unfold l4_field. rewrite E. cbn. intros _. lia. }
  destruct (reread_ports) as [P1 P2]; [by rewrite E|lia|].
  unfold udp_len in Ho. cbn [udp_buf] in Ho.
  assert (u16_at pay' 4 = u16_at pay 4) as H4 by (unfold u16_at; by rewrite !Hs by lia).
  pose proof Hr as (Rh & Rt & _ & _ & _ & _ & _ & _ & Ru). destruct (Ru E ltac:(lia)) as [U1 U2].
  assert (u16_at (ip_buf ip) (header_len ip + 6) = u16_at pay 6) as F6 by (unfold pay; by rewrite ip_payload_u16 by lia).
  assert (u16_at out (header_len ip + 6) = u16_at pay' 6) as F6'
    by (unfold pay'; rewrite ip_payload_u16 by (lia); by rewrite Rh).
  cbn [ip_buf] in U1, U2. rewrite F6, F6' in U1, U2.
  exists {| udp_buf := pay' |}. split.
  { unfold UdpView_parse, UDP_HEADER_LEN. rewrite H4, !(proj2 (Z.ltb_ge _ _)) by lia. done. }
  do 2 (split; [done|]). unfold udp_payload, udp_checksum, udp_checksum_valid, udp_len, udp_checksum. cbn [udp_buf]. rewrite H4.
  split; [apply slice_same; [unfold UDP_HEADER_LEN; lia..|]; intros; unfold UDP_HEADER_LEN in *; apply Hs; lia|].
  split; [split; [|done]; intros Hz; destruct (decide (u16_at pay 6 = 0)) as [|Hn]; [done|by apply U2 in Hn as [? _]]|].
  intros Hfull. destruct (u16_at pay' 6 =? 0) eqn:Hz; [done|]. apply Z.eqb_neq in Hz.
  rewrite slice_full by lia. apply bool_decide_eq_true_2. apply U2. intros Hn. by apply Hz, U1.
Qed.

Lemma reread : retargeted ip {| ip_buf := out |} ns nd.
Proof using Hok Hip Hout He Hr.
  pose proof Hr as (Rh & Rt & Rp & Rs & Rd & Rc & _). unfold retargeted. do 6 (split; [done|]).
  split; [exact reread_tcp|]. split; [exact reread_udp|]. intros Hp. destruct reread_len as [Hl _].
  apply idx_ext; [done|]. fold pay pay'. intros i Hi. apply reread_same; [lia|]. by rewrite Hp.
Qed.
End reread.

(** ** Rule selection *)

Lemma bool_gtb_trans (a b c : bool) :
  (a && negb b) = true → (b && negb c) = true → (a && negb c) = true.
Proof. by destruct a, b, c. Qed.
Lemma bool_gtb_neg_trans (a b c : bool) :
  (a && negb b) = false → (b && negb c) = false → (a && negb c) = false.
Proof. by destruct a, b, c. Qed.
Lemma spec_gtb_trans a b c :
  spec_gtb a b = true → spec_gtb b c = true → spec_gtb a c = true.
Proof.
  destruct a as [[n p] q], b as [[n' p'] q'], c as [[n'' p''] q'']. unfold spec_gtb.
  destruct p, q, p', q', p'', q''; cbn; rewrite ?andb_false_r, ?andb_true_r, ?orb_false_r; lia.
Qed.
Lemma spec_gtb_neg_trans a b c :
  spec_gtb a b = false → spec_gtb b c = false → spec_gtb a c = false.
Proof.
  destruct a as [[n p] q], b as [[n' p'] q'], c as [[n'' p''] q'']. unfold spec_gtb.
  destruct p, q, p', q', p'', q''; cbn; rewrite ?andb_false_r, ?andb_true_r, ?orb_false_r; lia.
Qed.

Section eval.
Context {Net : Type} `{Ipv4NetOps Net}.
Implicit Types (rs : RuleSet Net).

Lemma best_redirect_spec rs ip m :
  match best_redirect rs ip m with
  | Some r => is_best (redirect_matches ip m) redirect_spec (λ a b, a && negb b)
                (snd <$> redirects rs) r
  | None => ∀ r, r ∈ snd <$> redirects rs → redirect_matches ip m r = false
  end.
Proof using.
  unfold best_redirect.
  pose proof (best_loop_spec (redirect_matches ip m) redirect_spec (λ a b, a && negb b)
    bool_gtb_trans bool_gtb_neg_trans (snd <$> redirects rs)) as Hb.
  destruct (best_loop _ _ _ _) as [[r k]|]; cbn; [by destruct Hb|done].
Qed.

Lemma best_block_spec rs ip m :
  match best_block rs ip m with
  | Some b => is_best (block_matches ip m) block_spec spec_gtb (snd <$> blocks rs) b
  | None => ∀ b, b ∈ snd <$> blocks rs → block_matches ip m b = false
  end.
Proof using.
  unfold best_block.
  pose proof (best_loop_spec (block_matches ip m) block_spec spec_gtb
    spec_gtb_trans spec_gtb_neg_trans (snd <$> blocks rs)) as Hb.
  destruct (best_loop _ _ _ _) as [[b k]|]; cbn; [by destruct Hb|done].
Qed.

(** ** Well-formed rule sets and their preservation *)

Definition redirect_ok (r : RedirectRule) : Prop :=
  is_u32 (hp_ip (r_to r)) ∧ ∀ q, hp_port (r_to r) = Some q → is_u16 q.
Definition revval_ok (v : RevVal) : Prop :=
  is_u32 (orig_ip v) ∧ ∀ q, orig_port v = Some q → is_u16 q.

(** Rule ids are fresh and distinct; targets and recorded origins are
    machine addresses and ports. *)
Record ruleset_ok (rs : RuleSet Net) : Prop := {
  rs_targets : ∀ id r, (id, r) ∈ redirects rs → redirect_ok r;
  rs_origins : ∀ k v, conns rs !! k = Some v → revval_ok v;
  rs_ids : NoDup ((redirects rs).*1 ++ (blocks rs).*1);
  rs_bound : ∀ id, id ∈ (redirects rs).*1 ++ (blocks rs).*1 → 0 < id ≤ next_id rs;
}.

Lemma ruleset_new_ok : ruleset_ok (@RuleSet_new Net).
Proof using.
  split; cbn; intros; try set_solver. constructor.
Qed.

Lemma expire_ok rs now : ruleset_ok rs → ruleset_ok (expire_conns rs now).
Proof using.
  intros [Ht Ho Hn Hb]. split; cbn; try done.
  intros k v Hk. apply map_lookup_filter_Some in Hk as [Hk _]. eauto.
Qed.
Lemma insert_conn_ok rs k v : ruleset_ok rs → revval_ok v → ruleset_ok (insert_conn rs k v).
Proof using.
  intros [Ht Ho Hn Hb] Hv. split; cbn; try done.
  intros k' v' Hk. rewrite lookup_insert in Hk. case_decide; simplify_eq; eauto.
Qed.

Lemma meta_dst_port_u16 ip p :
  bytes_ok (ip_buf ip) → m_dst_port (Meta_of ip) = Some p → is_u16 p.
Proof using.
  intros Hok. assert (Hpk : bytes_ok (ip_payload ip)) by (unfold ip_payload; auto with vmlab).
  unfold Meta_of. destruct (_ =? _); [|destruct (_ =? _); [|by destruct (_ =? _)]]; cbn [m_dst_port].
  - destruct (TcpView_parse _) as [t|] eqn:Ht; cbn; [|done]. intros; simplify_eq.
    apply TcpView_parse_Some in Ht as [-> _]. unfold tcp_dst_port. auto with vmlab.
  - destruct (UdpView_parse _) as [u|] eqn:Hu; cbn; [|done]. intros; simplify_eq.
    apply UdpView_parse_Some in Hu as [-> _]. unfold udp_dst_port. auto with vmlab.
Qed.

(** The endpoint a redirect rule sends a packet to. *)
Definition redirect_target (r : RedirectRule) (m : Meta) : endpoint :=
  Some (hp_ip (r_to r), (λ orig, default orig (hp_port (r_to r))) <$> m_dst_port m).

Lemma redirect_target_ok r ip :
  bytes_ok (ip_buf ip) → redirect_ok r → endpoint_ok (redirect_target r (Meta_of ip)).
Proof using.
  intros Hok [Hip Hp]. split; cbn; intros; simplify_eq; [done|].
  destruct (m_dst_port (Meta_of ip)) as [p|] eqn:E; [|done]. simplify_eq/=.
  destruct (hp_port (r_to r)) eqn:E'; cbn; [by apply Hp|]. by eapply meta_dst_port_u16.
Qed.

(** The state after a packet was redirected by [r]. *)
Definition after_redirect rs now ip (r : RedirectRule) : RuleSet Net :=
  match m_conn_ports (Meta_of ip) with
  | Some (sport, dport) =>
      insert_conn (expire_conns rs now)
        (rev_key ip (hp_ip (r_to r)) (ep_port (redirect_target r (Meta_of ip))) sport dport)
        {| orig_ip := ip_dst ip; orig_port := m_dst_port (Meta_of ip); last := now |}
  | None => expire_conns rs now
  end.

(** [eval] on an IPv4 packet, branch by branch. *)
Lemma eval_spec rs now pkt ip :
  ruleset_ok rs → bytes_ok pkt → Ipv4View_parse pkt = Some ip →
  match best_redirect rs ip (Meta_of ip) with
  | Some r =>
      ∃ out, eval rs now pkt = Ret (Rewrite out, after_redirect rs now ip r) ∧ bytes_ok out ∧
        edited (rewrite_ranges (proto ip) (header_len ip) None (redirect_target r (Meta_of ip)))
          (take (Z.to_nat (total_len ip)) pkt) out ∧
        Ipv4View_parse out = Some {| ip_buf := out |} ∧
        rewritten ip {| ip_buf := out |} None (redirect_target r (Meta_of ip))
  | None =>
      match best_block rs ip (Meta_of ip) with
      | Some _ =>
          eval rs now pkt =
            Ret (Drop (block_reply (take (Z.to_nat (total_len ip)) pkt) ip), expire_conns rs now)
      | None => eval rs now pkt = Ret (Pass, expire_conns rs now)
      end
  end.
Proof using.
  intros Hrs Hok Hip. unfold eval. rewrite Hip.
  change (best_redirect (expire_conns rs now)) with (best_redirect rs).
  change (best_block (expire_conns rs now)) with (best_block rs).
  pose proof (best_redirect_spec rs ip (Meta_of ip)) as Hb.
  pose proof (Ipv4View_parse_Some _ _ Hip) as (Eip & _).
  destruct (best_redirect rs ip (Meta_of ip)) as [r|].
  - apply is_best_elem in Hb as [Hin _]. apply list_elem_of_fmap in Hin as ([id r'] & -> & Hin).
    cbn [snd]. assert (Hr : redirect_ok r') by (by eapply rs_targets).
    destruct (rewrite_packet_spec pkt ip None (redirect_target r' (Meta_of ip)))
      as (out & Hrw & Hout & He & Hp & Hrn);
      [done|done|done|apply redirect_target_ok; [by rewrite Eip|done]|].
    fold (redirect_target r' (Meta_of ip)). rewrite Hrw. cbn [mbind outcome_bind]. eauto 10.
  - destruct (best_block rs ip (Meta_of ip)) as [b|]; [|done].
    destruct (rewrite_bounds pkt ip Hok Hip) as (_ & _ & _ & _ & -> & _). done.
Qed.

Lemma after_redirect_ok rs now ip r :
  ruleset_ok rs → bytes_ok (ip_buf ip) → ruleset_ok (after_redirect rs now ip r).
Proof using.
  intros Hrs Hok. unfold after_redirect. case_goal; [|by apply expire_ok]. case_goal.
  apply insert_conn_ok; [by apply expire_ok|]. split; cbn.
  - unfold ip_dst. auto with vmlab.
  - intros. by eapply meta_dst_port_u16.
Qed.

(** [eval_return] on an IPv4 packet that hits a live translation entry. *)
Lemma eval_return_hit rs now pkt ip sport dport v :
  ruleset_ok rs → bytes_ok pkt → Ipv4View_parse pkt = Some ip →
  m_conn_ports (Meta_of ip) = Some (sport, dport) →
  conns rs !! mkConnKey (ip_src ip) sport (ip_dst ip) dport (proto ip) = Some v →
  now - last v < CONN_IDLE →
  ∃ out rs', eval_return rs now pkt = Ret (Rewrite out, rs') ∧ bytes_ok out ∧ ruleset_ok rs' ∧
    edited (rewrite_ranges (proto ip) (header_len ip) (Some (orig_ip v, orig_port v)) None)
      (take (Z.to_nat (total_len ip)) pkt) out ∧
    Ipv4View_parse out = Some {| ip_buf := out |} ∧
    rewritten ip {| ip_buf := out |} (Some (orig_ip v, orig_port v)) None.
Proof using.
  intros Hrs Hok Hip Hm Hk Hlive. unfold eval_return. rewrite Hip, Hm, Hk.
  rewrite (proj2 (Z.ltb_lt _ _)) by done. cbn [orig_ip orig_port].
  assert (Hv : revval_ok v) by (by eapply rs_origins).
  destruct (rewrite_packet_spec pkt ip (Some (orig_ip v, orig_port v)) None)
    as (out & -> & Hout & He & Hp & Hrn); [done|done| |done|].
  { destruct Hv. split; cbn; intros; simplify_eq; eauto. }
  cbn [mbind outcome_bind]. eexists _, _. split; [done|]. split; [done|].
  split; [|done]. apply insert_conn_ok; [done|]. done.
Qed.

Ltac pass_case :=
  eexists _, _; split; [reflexivity|]; split; [done|]; split; [done|intros; discriminate].

Lemma eval_return_total rs now pkt :
  ruleset_ok rs → bytes_ok pkt →
  ∃ v rs', eval_return rs now pkt = Ret (v, rs') ∧ ruleset_ok rs' ∧
    (∀ r, v ≠ Drop r) ∧ ∀ out, v = Rewrite out → bytes_ok out.
Proof using.
  intros Hrs Hok. destruct (Ipv4View_parse pkt) as [ip|] eqn:Hip;
    [|unfold eval_return; rewrite Hip; pass_case].
  destruct (m_conn_ports (Meta_of ip)) as [[sport dport]|] eqn:Hm;
    [|unfold eval_return; rewrite Hip, Hm; pass_case].
  destruct (conns rs !! mkConnKey (ip_src ip) sport (ip_dst ip) dport (proto ip)) as [v|] eqn:Hk;
    [|unfold eval_return; rewrite Hip, Hm, Hk; pass_case].
  destruct (decide (now - last v < CONN_IDLE)) as [Hl|Hl].
  - edestruct eval_return_hit as (out & rs' & -> & ? & ? & _); try done.
    eexists _, _. split; [done|]. split; [done|]. split; [done|]. intros; by simplify_eq.
  - unfold eval_return. rewrite Hip, Hm, Hk, (proj2 (Z.ltb_ge _ _)) by lia. pass_case.
Qed.

(** ** Return translation *)

(** The ports after a rewrite, for every protocol the engine tracks. *)
Lemma meta_ports_rewritten pkt ip out ns nd sp dp :
  bytes_ok pkt → Ipv4View_parse pkt = Some ip → Ipv4View_parse out = Some {| ip_buf := out |} →
  edited (rewrite_ranges (proto ip) (header_len ip) ns nd)
      (take (Z.to_nat (total_len ip)) pkt) out →
  rewritten ip {| ip_buf := out |} ns nd →
  has_ports (proto ip) = true ∨ ep_port ns = None ∧ ep_port nd = None →
  m_conn_ports (Meta_of ip) = Some (sp, dp) →
  m_conn_ports (Meta_of {| ip_buf := out |})
    = Some (default sp (ep_port ns), default dp (ep_port nd)).
Proof using.
  intros Hok Hip Hout He Hr Hp Hm. destruct (has_ports (proto ip)) eqn:Hpp.
  { by eapply meta_rewritten. }
  destruct Hp as [|[-> ->]]; [done|]. cbn [default from_option id]. rewrite <-Hm. f_equal.
  enough (Hpay : ip_payload {| ip_buf := out |} = ip_payload ip).
  { destruct Hr as (_ & _ & Rp & _). unfold Meta_of. by rewrite Hpay, Rp. }
  pose proof (Ipv4View_parse_Some _ _ Hip) as (Eip & _ & _ & Hh & _).
  pose proof (len_ip_payload _ _ Hip) as Hl. pose proof (len_ip_payload _ _ Hout) as Hl'.
  destruct Hr as (Rh & Rt & _). rewrite Rh, Rt in Hl'.
  apply idx_ext; [lia|]. intros i Hi. rewrite !ip_payload_idx by lia. rewrite Rh. cbn [ip_buf].
  rewrite (edited_idx _ _ _ _ He); [rewrite idx_take by lia; by rewrite Eip|lia|].
  unfold rewrite_ranges, addr_ranges. rewrite Hpp, !in_ranges_app, in_ranges_cons, in_ranges_nil.
  intros [[?%in_opt_range|[?%in_opt_range|[]]]|?]; ranges.
Qed.

(** Only TCP and UDP packets have a destination port. *)
Lemma no_ports_no_port ip : has_ports (proto ip) = false → m_dst_port (Meta_of ip) = None.
Proof using.
  unfold has_ports, Meta_of. intros [E1 E2]%orb_false_iff. rewrite E1, E2.
  destruct (proto ip =? IPPROTO_ICMP); done.
Qed.

(** [rip] answers [v]: addresses and tracked ports swapped. *)
Definition answers (v rip : Ipv4View) : Prop :=
  ip_src rip = ip_dst v ∧ ip_dst rip = ip_src v ∧ proto rip = proto v ∧
  ∃ sp dp, m_conn_ports (Meta_of v) = Some (sp, dp) ∧ m_conn_ports (Meta_of rip) = Some (dp, sp).

(** The packets whose translation is recorded for the return path: TCP and
    UDP with readable ports, and ICMP echo requests. *)
Definition trackable (ip : Ipv4View) : Prop :=
  ∃ sp dp, m_conn_ports (Meta_of ip) = Some (sp, dp) ∧
    (has_ports (proto ip) = true ∨ dp = 0 ∧ 0 ≤ sp).

(** A redirect recorded for [ip] is found by the key of an answer to it. *)
Lemma after_redirect_lookup rs now ip out r rip :
  trackable ip →
  rewritten ip {| ip_buf := out |} None (redirect_target r (Meta_of ip)) →
  (∀ sp dp, m_conn_ports (Meta_of ip) = Some (sp, dp) →
    m_conn_ports (Meta_of {| ip_buf := out |})
      = Some (sp, default dp (ep_port (redirect_target r (Meta_of ip))))) →
  answers {| ip_buf := out |} rip →
  ∃ sp dp sp' dp', m_conn_ports (Meta_of ip) = Some (sp, dp) ∧
    m_conn_ports (Meta_of rip) = Some (sp', dp') ∧
    conns (after_redirect rs now ip r) !! mkConnKey (ip_src rip) sp' (ip_dst rip) dp' (proto rip)
      = Some {| orig_ip := ip_dst ip; orig_port := m_dst_port (Meta_of ip); last := now |}.
Proof using.
  intros (sp & dp & Hm & Hk) (_ & _ & Rp & Rs & Rd & _) Hports (As & Ad & Ap & sp' & dp' & Hv & Hr).
  rewrite (Hports _ _ Hm) in Hv. injection Hv as <- <-. eexists sp, dp, _, sp. do 2 (split; [done|]).
  unfold after_redirect. rewrite Hm. cbn [conns insert_conn expire_conns].
  match goal with |- <[?k:=_]> _ !! ?k' = _ => replace k' with k; [by rewrite lookup_insert_eq|] end.
  rewrite As, Ad, Ap, Rs, Rd, Rp. cbn [ep_ip redirect_target default fmap option_fmap option_map].
  unfold rev_key. destruct Hk as [Hp|[-> Hnn]].
  - change ((proto ip =? IPPROTO_TCP) || (proto ip =? IPPROTO_UDP)) with (has_ports (proto ip)).
    by rewrite Hp.
  - change ((proto ip =? IPPROTO_TCP) || (proto ip =? IPPROTO_UDP)) with (has_ports (proto ip)).
    destruct (has_ports (proto ip)) eqn:Hp; [done|].
    cbn [ep_port]. rewrite (no_ports_no_port _ Hp). cbn. f_equal. lia.
Qed.

Lemma eval_rewrite_inv rs now pkt ip out rs' :
  ruleset_ok rs → bytes_ok pkt → Ipv4View_parse pkt = Some ip →
  eval rs now pkt = Ret (Rewrite out, rs') →
  ∃ r, best_redirect rs ip (Meta_of ip) = Some r ∧ rs' = after_redirect rs now ip r ∧
    bytes_ok out ∧
    edited (rewrite_ranges (proto ip) (header_len ip) None (redirect_target r (Meta_of ip)))
      (take (Z.to_nat (total_len ip)) pkt) out ∧
    Ipv4View_parse out = Some {| ip_buf := out |} ∧
    rewritten ip {| ip_buf := out |} None (redirect_target r (Meta_of ip)).
Proof using.
  intros Hrs Hok Hip He. pose proof (eval_spec rs now pkt ip Hrs Hok Hip) as Hs.
  destruct (best_redirect rs ip (Meta_of ip)) as [r|]; [|destruct (best_block rs ip (Meta_of ip)); congruence].
  destruct Hs as (out' & E & ?). rewrite E in He. simplify_eq. eauto.
Qed.

Lemma dnat_reply rs now now' pkt ip out rs' reply rip :
  ruleset_ok rs → bytes_ok pkt → Ipv4View_parse pkt = Some ip → trackable ip →
  eval rs now pkt = Ret (Rewrite out, rs') →
  bytes_ok reply → Ipv4View_parse reply = Some rip → answers {| ip_buf := out |} rip →
  now' - now < CONN_IDLE →
  ∃ back rs'', eval_return rs' now' reply = Ret (Rewrite back, rs'') ∧
    Ipv4View_parse back = Some {| ip_buf := back |} ∧
    answers ip {| ip_buf := back |} ∧ ip_checksum_valid {| ip_buf := back |} = true.
Proof using.
  intros Hrs Hok Hip Ht He Hrok Hrip Ha Hlive.
  destruct (eval_rewrite_inv _ _ _ _ _ _ Hrs Hok Hip He)
    as (r & Hb & -> & Hout & Hed & Hop & Hrw).
  assert (Hnp : ∀ o, has_ports (proto ip) = true ∨ ep_port (Some (o, m_dst_port (Meta_of ip))) = None).
  { intros o. destruct (has_ports (proto ip)) eqn:Hp; [by left|right]. cbn. by apply no_ports_no_port. }
  assert (Hports : ∀ sp dp, m_conn_ports (Meta_of ip) = Some (sp, dp) →
    m_conn_ports (Meta_of {| ip_buf := out |})
      = Some (sp, default dp (ep_port (redirect_target r (Meta_of ip))))).
  { intros sp dp Hm.
    apply (meta_ports_rewritten pkt ip out None (redirect_target r (Meta_of ip))); try done.
    destruct (Hnp 0) as [|E]; [by left|right]. split; [done|]. cbn in *. by rewrite E. }
  assert (Hrs' : ruleset_ok (after_redirect rs now ip r)).
  { apply after_redirect_ok; [done|]. apply Ipv4View_parse_Some in Hip as [-> _]. done. }
  destruct (after_redirect_lookup rs now ip out r rip Ht Hrw Hports Ha)
    as (sp & dp & sp' & dp' & Hm & Hm' & Hk).
  destruct (eval_return_hit (after_redirect rs now ip r) now' reply rip _ _ _ Hrs' Hrok Hrip Hm' Hk Hlive)
    as (back & rs'' & E & Hbok & _ & Hbed & Hbp & Hbrw).
  exists back, rs''. do 2 (split; [done|]). pose proof Hbrw as (_ & _ & Bp & Bs & Bd & Bc & _).
  split; [|done]. cbn [orig_ip orig_port] in *.
  destruct Ha as (As & Ad & Ap & sp1 & dp1 & Hv & Hr'). rewrite (Hports _ _ Hm) in Hv. simplify_eq.
  destruct Hrw as (_ & _ & Rp & Rs & Rd & _).
  split; [exact Bs|]. split; [rewrite Bd; cbn; by rewrite Ad, Rs|].
  split; [by rewrite Bp, Ap, Rp|]. exists sp1, dp. split; [done|].
  rewrite (meta_ports_rewritten reply rip back (Some (ip_dst ip, m_dst_port (Meta_of ip))) None
    _ _ Hrok Hrip Hbp Hbed Hbrw) with (2 := Hr').
  2:{ rewrite Ap, Rp. destruct (Hnp (ip_dst ip)); [by left|by right]. }
  cbn. f_equal. f_equal. destruct (has_ports (proto ip)) eqn:Hp.
  - destruct (meta_ports _ _ _ _ Hip Hp Hm) as (_ & _ & _ & ->). done.
  - cbn. by rewrite (no_ports_no_port _ Hp).
Qed.

(** ** Rule ids *)

Definition rule_ids rs : list Z := (redirects rs).*1 ++ (blocks rs).*1.

Lemma filter_ids {A} (l : list (Z * A)) id :
  (filter (λ x, x.1 ≠ id) l).*1 = filter (λ i, i ≠ id) l.*1.
Proof using.
  induction l as [|[i a] l IH]; [done|]. rewrite fmap_cons, !filter_cons. cbn [fst].
  case_decide; [rewrite fmap_cons|]; by rewrite IH.
Qed.
Lemma remove_ids rs id : rule_ids (remove rs id).1 = filter (λ i, i ≠ id) (rule_ids rs).
Proof using. unfold rule_ids. cbn. by rewrite !filter_ids, filter_app. Qed.

Lemma len_rules rs : len (redirects rs) + len (blocks rs) = len (rule_ids rs).
Proof using. unfold rule_ids, len. rewrite length_app, !length_fmap. lia. Qed.

Lemma remove_result rs id : (remove rs id).2 = true ↔ id ∈ rule_ids rs.
Proof using.
  change ((remove rs id).2) with (negb (len (redirects (remove rs id).1) + len (blocks (remove rs id).1)
    =? len (redirects rs) + len (blocks rs))).
  rewrite !len_rules, remove_ids, negb_true_iff, Z.eqb_neq. unfold len. split.
  - intros Hn. destruct (decide (id ∈ rule_ids rs)) as [|Hni]; [done|]. exfalso. apply Hn.
    f_equal. f_equal. apply filter_keep. intros x Hx ->. done.
  - intros Hin Heq. apply Nat2Z.inj in Heq.
    pose proof (length_filter_lt (λ i, i ≠ id) (rule_ids rs) id Hin ltac:(by intros [])). lia.
Qed.

Lemma ruleset_ok_ids rs :
  ruleset_ok rs → NoDup (rule_ids rs) ∧ ∀ id, id ∈ rule_ids rs → 0 < id ≤ next_id rs.
Proof using. intros [_ _ Hn Hb]. done. Qed.

Lemma add_redirect_ok rs r : 0 ≤ next_id rs → ruleset_ok rs → redirect_ok r → ruleset_ok (add_redirect rs r).1.
Proof using.
  intros Hnn [Ht Ho Hn Hb] Hr. split; cbn; try done.
  - intros id r' [Hin|Hin%list_elem_of_singleton]%elem_of_app; [eauto|by simplify_eq].
  - rewrite fmap_app. cbn. rewrite <-app_assoc. apply NoDup_app in Hn as (N1 & N2 & N3).
    apply NoDup_app. split; [done|]. split.
    + intros x Hx [->|Hx']%elem_of_cons; [|by eapply N2].
      assert (next_id rs + 1 ≤ next_id rs) by (apply Hb, elem_of_app; auto). lia.
    + constructor; [|done]. intros Hx. assert (next_id rs + 1 ≤ next_id rs) by (apply Hb, elem_of_app; auto). lia.
  - intros id. rewrite fmap_app. cbn. rewrite !elem_of_app, list_elem_of_singleton.
    intros [[Hx| ->]|Hx]; [|lia|]; assert (0 < id ≤ next_id rs)
      by (apply Hb, elem_of_app; auto); lia.
Qed.
Lemma add_block_ok rs b : 0 ≤ next_id rs → ruleset_ok rs → ruleset_ok (add_block rs b).1.
Proof using.
  intros Hnn [Ht Ho Hn Hb]. split; cbn; try done.
  - rewrite fmap_app, app_assoc. cbn. apply NoDup_app. split; [done|]. split; [|by apply NoDup_singleton].
    intros x Hx Heq%list_elem_of_singleton. subst.
    assert (next_id rs + 1 ≤ next_id rs) by (by apply Hb). lia.
  - intros id. rewrite fmap_app, app_assoc. cbn. rewrite elem_of_app, list_elem_of_singleton.
    intros [Hx| ->]; [|lia]. assert (0 < id ≤ next_id rs) by (by apply Hb). lia.
Qed.
Lemma remove_ok rs id : ruleset_ok rs → ruleset_ok (remove rs id).1.
Proof using.
  intros Hrs. pose proof (remove_ids rs id) as Hids. destruct Hrs as [Ht Ho Hn Hb].
  split.
  - intros i r [_ Hin]%list_elem_of_filter. eauto.
  - done.
  - fold (rule_ids (remove rs id).1). rewrite Hids. by apply NoDup_filter.
  - fold (rule_ids (remove rs id).1). rewrite Hids. intros i [_ Hin]%list_elem_of_filter. by apply Hb.
Qed.

(** One operation on a rule set: a mutation, or a packet evaluated in either
    direction. *)
Inductive rs_step : RuleSet Net → RuleSet Net → Prop :=
| step_add_block rs b : rs_step rs (add_block rs b).1
| step_add_redirect rs r : redirect_ok r → rs_step rs (add_redirect rs r).1
| step_remove rs id : rs_step rs (remove rs id).1
| step_eval rs now pkt v rs' :
    bytes_ok pkt → eval rs now pkt = Ret (v, rs') → rs_step rs rs'
| step_eval_return rs now pkt v rs' :
    bytes_ok pkt → eval_return rs now pkt = Ret (v, rs') → rs_step rs rs'.

Definition rs_inv rs : Prop := 0 ≤ next_id rs ∧ ruleset_ok rs.

Lemma eval_ok rs now pkt v rs' :
  ruleset_ok rs → bytes_ok pkt → eval rs now pkt = Ret (v, rs') →
  ruleset_ok rs' ∧ next_id rs' = next_id rs.
Proof using.
  intros Hrs Hok He. destruct (Ipv4View_parse pkt) as [ip|] eqn:Hip.
  2:{ unfold eval in He. rewrite Hip in He. by simplify_eq. }
  pose proof (eval_spec rs now pkt ip Hrs Hok Hip) as Hs.
  destruct (best_redirect rs ip (Meta_of ip)) as [r|].
  - destruct Hs as (out & E & _). rewrite E in He. simplify_eq. split.
    + apply after_redirect_ok; [done|]. by apply Ipv4View_parse_Some in Hip as [-> _].
    + unfold after_redirect. by repeat case_goal.
  - destruct (best_block rs ip (Meta_of ip)); rewrite Hs in He; simplify_eq;
      (split; [by apply expire_ok|done]).
Qed.

Lemma eval_return_next_id rs now pkt v rs' :
  eval_return rs now pkt = Ret (v, rs') → next_id rs' = next_id rs.
Proof using.
  unfold eval_return. repeat (case_goal; try (intros; by simplify_eq)).
  match goal with |- context [rewrite_packet ?a ?b ?c ?d] => destruct (rewrite_packet a b c d) as [[]|] end;
    cbn; intros; by simplify_eq.
Qed.

Lemma rs_step_inv rs rs' : rs_step rs rs' → rs_inv rs → rs_inv rs' ∧ next_id rs ≤ next_id rs'.
Proof using.
  intros [rs0 b|rs0 r|rs0 id|rs0 now pkt v rs1|rs0 now pkt v rs1] [Hnn Hok].
  - split; [split; [cbn; lia|by apply add_block_ok]|cbn; lia].
  - split; [split; [cbn; lia|by apply add_redirect_ok]|cbn; lia].
  - split; [split; [done|by apply remove_ok]|cbn; lia].
  - destruct (eval_ok rs0 now pkt v rs1) as [? E]; [done..|]. split; [split; [lia|done]|lia].
  - destruct (eval_return_total rs0 now pkt) as (v' & rs'' & E & ? & _); [done..|].
    assert (rs'' = rs1) as -> by congruence.
    rewrite (eval_return_next_id _ _ _ _ _ E). split; [split; [|done]|lia].
    by rewrite (eval_return_next_id _ _ _ _ _ E).
Qed.

Lemma rs_steps_inv rs rs' : rtc rs_step rs rs' → rs_inv rs → rs_inv rs' ∧ next_id rs ≤ next_id rs'.
Proof using.
  induction 1 as [|rs1 rs2 rs3 Hs _ IH]; [split; [done|lia]|]. intros Hi.
  destruct (rs_step_inv _ _ Hs Hi) as [Hi2 ?]. destruct (IH Hi2). split; [done|lia].
Qed.
End eval.

(** ** Block replies *)

Lemma reset_fields_ok tcp : bytes_ok (tcp_buf tcp) → tcp_fields_ok (reset_fields tcp).
Proof.
  intros Hok. unfold reset_fields, reset_numbers, tcp_fields_ok.
  assert (0 ≤ wadd32 (tcp_seq tcp)
    (wrap32 (len (tcp_payload tcp)) + b2z (is_syn tcp) + b2z (is_fin tcp)) < 4294967296)
    by (ints; apply Z.mod_pos_bound; lia).
  destruct (is_ack tcp); cbn; unfold tcp_dst_port, tcp_src_port, tcp_ack;
    split_and!; auto with vmlab; done.
Qed.

(** A blocked TCP segment that is not itself a reset is always answered. *)
Lemma block_reply_tcp pkt head ip tcp :
  bytes_ok pkt → Ipv4View_parse pkt = Some ip → proto ip = IPPROTO_TCP →
  TcpView_parse (ip_payload ip) = Some tcp → is_rst tcp = false →
  ∃ p v t, block_reply head ip = Some p ∧ Ipv4View_parse p = Some v ∧
    ip_carries v (ip_dst ip) (ip_src ip) IPPROTO_TCP 64 0 (ip_payload v) ∧
    TcpView_parse (ip_payload v) = Some t ∧
    tcp_carries t (ip_dst ip) (ip_src ip) (reset_fields tcp) [].
Proof.
  intros Hok Hip Hp Ht Hr. pose proof (Ipv4View_parse_Some _ _ Hip) as (Eip & _).
  assert (Hbuf : bytes_ok (ip_buf ip)) by (by rewrite Eip).
  pose proof (TcpView_parse_Some _ _ Ht) as (Et & _).
  assert (Hf : tcp_fields_ok (reset_fields tcp)) by (apply reset_fields_ok; rewrite Et; cbn [tcp_buf]; auto with vmlab).
  assert (Ho : f_options (reset_fields tcp) = [])
    by (unfold reset_fields; by destruct (reset_numbers tcp) as [[??]?]).
  assert (Hh : tcp_hlen (reset_fields tcp) = 20).
  { unfold tcp_hlen, tcp_pad, tcp_opts. by rewrite Ho. }
  assert (Hs : is_u32 (ip_src ip)) by (unfold ip_src; auto with vmlab).
  assert (Hd : is_u32 (ip_dst ip)) by (unfold ip_dst; auto with vmlab).
  unfold block_reply. rewrite Hp, Ht. change (IPPROTO_TCP =? IPPROTO_TCP) with true.
  cbn [mbind option_bind]. rewrite Hr.
  destruct (tcp_build (ip_dst ip) (ip_src ip) (reset_fields tcp) []) as [seg|] eqn:Hb.
  2:{ apply tcp_build_None in Hb. rewrite Hh in Hb. change (len (@nil Z)) with 0 in Hb. lia. }
  apply tcp_build_Some in Hb as (Sok & Sl & _ & Sp & Sc); [|done..|auto with vmlab].
  rewrite Hh in Sl. change (len (@nil Z)) with 0 in Sl. cbn [mbind option_bind].
  destruct (ipv4_build _ _ _ _ seg _) as [p|] eqn:Hb; [|apply ipv4_build_None in Hb; lia].
  apply ipv4_build_Some in Hb as (_ & _ & _ & Hall); [|done..|auto with vmlab|done].
  destruct (Hall []) as [Hpp Hpc]. rewrite app_nil_r in *.
  pose proof Hpc as (_ & _ & _ & _ & _ & _ & _ & Hpl & _).
  exists p, {| ip_buf := p |}, {| tcp_buf := seg |}. rewrite Hpl. done.
Qed.

(** The destination-unreachable answer quotes the header and eight bytes. *)
Lemma unreachable_reply pkt ip code :
  bytes_ok pkt → Ipv4View_parse pkt = Some ip → is_u8 code →
  let head := take (Z.to_nat (total_len ip)) pkt in
  ∃ p v m, ipv4_build (ip_dst ip) (ip_src ip) IPPROTO_ICMP 64 (icmp_unreachable_for head code) 0 = Some p ∧
    Ipv4View_parse p = Some v ∧
    ip_carries v (ip_dst ip) (ip_src ip) IPPROTO_ICMP 64 0 (ip_payload v) ∧
    IcmpView_parse (ip_payload v) = Some m ∧
    icmp_carries m ICMP_DEST_UNREACHABLE code [0; 0; 0; 0]
      (take (Z.to_nat (header_len ip + 8)) head).
Proof.
  intros Hok Hip Hc head.
  destruct (rewrite_bounds pkt ip Hok Hip) as (Hh & Htot & Hhok & Hhl & _). fold head in Hhok, Hhl.
  destruct (head_fields pkt ip Hok Hip) as (_ & _ & Fp & F0 & _). fold head in Fp, F0.
  pose proof (Ipv4View_parse_Some _ _ Hip) as (Eip & _ & Hv & Hb & _).
  assert (Hbuf : bytes_ok (ip_buf ip)) by (by rewrite Eip).
  assert (Hhp : Ipv4View_parse head = Some {| ip_buf := head |}).
  { apply Ipv4View_parse_intro; [lia|by rewrite F0, Eip| |]; rewrite ?F0, ?Fp by lia; [done|].
    change (total_len ip ≤ len head). lia. }
  assert (Hq : icmp_unreachable_for head code
      = icmp_build ICMP_DEST_UNREACHABLE code [0; 0; 0; 0] (take (Z.to_nat (header_len ip + 8)) head)).
  { unfold icmp_unreachable_for. rewrite Hhp.
    assert (header_len {| ip_buf := head |} = header_len ip) as ->
      by (unfold header_len, ihl; cbn [ip_buf]; by rewrite F0).
    f_equal. unfold slice. rewrite drop_0, Z.sub_0_r.
    destruct (decide (header_len ip + 8 ≤ len head)).
    - by rewrite Z.min_l by lia.
    - rewrite Z.min_r by lia. rewrite !take_ge; [done| |]; unfold len in *; lia. }
  assert (Hil : header_len ip ≤ 60).
  { unfold header_len, ihl. change 15 with (Z.ones 4). rewrite Z.land_ones by lia.
    pose proof (Z.mod_pos_bound (idx (ip_buf ip) 0) (2 ^ 4) ltac:(lia)). lia. }
  set (quote := take _ head) in *.
  assert (Hql : len quote ≤ 68) by (unfold quote; rewrite len_take; lia).
  assert (Hqok : bytes_ok quote) by (unfold quote; auto with vmlab).
  rewrite Hq. destruct (icmp_build_ok ICMP_DEST_UNREACHABLE code 0 0 0 0 quote) as (Mok & Ml & Mp & Mc);
    [unfold ICMP_DEST_UNREACHABLE; auto with vmlab|done|auto 10 with vmlab|done|lia|].
  set (m := icmp_build _ _ _ _) in *.
  destruct (ipv4_build _ _ _ _ m _) as [p|] eqn:Hbd; [|apply ipv4_build_None in Hbd; lia].
  apply ipv4_build_Some in Hbd as (_ & _ & _ & Hall);
    [|unfold ip_dst, ip_src, IPPROTO_ICMP; auto with vmlab..].
  destruct (Hall []) as [Hpp Hpc]. rewrite app_nil_r in *.
  pose proof Hpc as (_ & _ & _ & _ & _ & _ & _ & Hpl & _).
  exists p, {| ip_buf := p |}, {| icmp_buf := m |}. rewrite Hpl. done.
Qed.

(** ** The answer to a blocked packet *)

(** The fail-fast answer to the blocked packet [ip], whose bytes are [head]: a
    TCP segment that is not a reset gets an RST that follows RFC 793 (sequence
    number from the segment's acknowledgement if it has one; otherwise an
    acknowledgement of everything the segment occupies), a reset or an
    unreadable segment gets none, UDP gets port-unreachable and anything else
    host-unreachable quoting the header and eight bytes; every answer is a valid
    packet from the blocked destination to the sender. *)
Definition refusal (ip : Ipv4View) (head : bytes) (reply : option bytes) : Prop :=
  if proto ip =? IPPROTO_TCP then
    match TcpView_parse (ip_payload ip) with
    | Some tcp =>
        if is_rst tcp then reply = None
        else ∃ p v t, reply = Some p ∧ Ipv4View_parse p = Some v ∧
          ip_carries v (ip_dst ip) (ip_src ip) IPPROTO_TCP 64 0 (ip_payload v) ∧
          TcpView_parse (ip_payload v) = Some t ∧
          tcp_src_port t = tcp_dst_port tcp ∧ tcp_dst_port t = tcp_src_port tcp ∧
          is_rst t = true ∧ tcp_checksum_valid t (ip_dst ip) (ip_src ip) = true ∧
          if is_ack tcp then tcp_seq t = tcp_ack tcp ∧ is_ack t = false
          else tcp_seq t = 0 ∧ is_ack t = true ∧
               tcp_ack t = (tcp_seq tcp + len (tcp_payload tcp) + b2z (is_syn tcp)
                              + b2z (is_fin tcp)) mod 2 ^ 32
    | None => reply = None
    end
  else ∃ p v m, reply = Some p ∧ Ipv4View_parse p = Some v ∧
    ip_carries v (ip_dst ip) (ip_src ip) IPPROTO_ICMP 64 0 (ip_payload v) ∧
    IcmpView_parse (ip_payload v) = Some m ∧
    icmp_carries m ICMP_DEST_UNREACHABLE (if proto ip =? IPPROTO_UDP then 3 else 1) [0; 0; 0; 0]
      (take (Z.to_nat (header_len ip + 8)) head).

Lemma block_reply_correct (pkt : bytes) (ip : Ipv4View) :
  bytes_ok pkt → Ipv4View_parse pkt = Some ip →
  let head := take (Z.to_nat (total_len ip)) pkt in refusal ip head (block_reply head ip).
Proof.
  intros Hok Hip head. unfold refusal. destruct (proto ip =? IPPROTO_TCP) eqn:Hp.
  - apply Z.eqb_eq in Hp. destruct (TcpView_parse (ip_payload ip)) as [tcp|] eqn:Ht;
      [|unfold block_reply; by rewrite Hp, Ht].
    destruct (is_rst tcp) eqn:Hr; [unfold block_reply; rewrite Hp, Ht; cbn; by rewrite Hr|].
    destruct (block_reply_tcp pkt head ip tcp Hok Hip Hp Ht Hr) as (p & v & t & ? & ? & ? & ? & Hc).
    exists p, v, t. do 4 (split; [done|]).
    unfold tcp_carries, reset_fields, reset_numbers in Hc.
    destruct (is_ack tcp); cbn in Hc; destruct Hc as (-> & -> & -> & Ca & Cf & _ & _ & _ & ->);
      unfold is_rst, is_ack; rewrite Cf; do 4 (split; [done|]); [done|].
    do 2 (split; [done|]). rewrite Ca. unfold wadd32, wrap32.
    generalize (tcp_seq tcp), (len (tcp_payload tcp)), (b2z (is_syn tcp)), (b2z (is_fin tcp)).
    intros q l sy fi. replace (q + (l mod 2 ^ 32 + sy + fi)) with (q + sy + fi + l mod 2 ^ 32) by lia.
    rewrite Z.add_mod_idemp_r by lia. f_equal. lia.
  - unfold block_reply. rewrite Hp. destruct (proto ip =? IPPROTO_UDP);
      apply (unreachable_reply pkt ip); auto with vmlab.
Qed.


(** ** What an evaluation owes *)

(** The packet is of protocol [p]; it is addressed to port [q]. *)
Definition is_l4 (ip : Ipv4View) (p : L4Proto) : Prop :=
  proto ip = match p with Tcp => 6 | Udp => 17 | Icmp => 1 end.
Definition to_port (ip : Ipv4View) (q : Z) : Prop :=
  (proto ip = 6 ∧ ∃ t, TcpView_parse (ip_payload ip) = Some t ∧ tcp_dst_port t = q) ∨
  (proto ip = 17 ∧ ∃ u, UdpView_parse (ip_payload ip) = Some u ∧ udp_dst_port u = q).
(** A rule's protocol and port, where it names them, are the packet's. *)
Definition covers (pr : option L4Proto) (port : option Z) (ip : Ipv4View) : Prop :=
  (∀ p, pr = Some p → is_l4 ip p) ∧ (∀ q, port = Some q → to_port ip q).
Definition redirects_packet (ip : Ipv4View) (r : RedirectRule) : Prop :=
  hp_ip (r_from r) = ip_dst ip ∧ covers (r_proto r) (hp_port (r_from r)) ip.

(** The redirect that applies: a rule with a port before those without, the
    earlier one among equals. *)
Definition applies (rules : list RedirectRule) (ip : Ipv4View) (r : RedirectRule) : Prop :=
  ∃ l1 l2, rules = l1 ++ r :: l2 ∧ redirects_packet ip r ∧
    (∀ r', r' ∈ l1 → redirects_packet ip r' → hp_port (r_from r') = None ∧ hp_port (r_from r) ≠ None) ∧
    (∀ r', r' ∈ l2 → redirects_packet ip r' → hp_port (r_from r') ≠ None → hp_port (r_from r) ≠ None).

(** The key by which an answer to the redirected packet is recognised: from the
    target and its port to the packet's sender and port; for an echo, its
    identifier. *)
Definition answer_key (r : RedirectRule) (ip : Ipv4View) (k : ConnKey) : Prop :=
  let from sp dp := k = mkConnKey (hp_ip (r_to r)) (default dp (hp_port (r_to r))) (ip_src ip) sp (proto ip) in
  (proto ip = 6 ∧ ∃ t, TcpView_parse (ip_payload ip) = Some t ∧ from (tcp_src_port t) (tcp_dst_port t)) ∨
  (proto ip = 17 ∧ ∃ u, UdpView_parse (ip_payload ip) = Some u ∧ from (udp_src_port u) (udp_dst_port u)) ∨
  (proto ip = 1 ∧ ∃ m, IcmpView_parse (ip_payload ip) = Some m ∧ icmp_type m ∈ [8; 0] ∧
     k = mkConnKey (hp_ip (r_to r)) 0 (ip_src ip) (u16_at (ip_payload ip) 4) 1).

Lemma proto_ok_spec pr ip : proto_ok pr (Meta_of ip) = true ↔ ∀ p, pr = Some p → is_l4 ip p.
Proof.
  assert (∀ p, m_l4 (Meta_of ip) = Some p ↔ is_l4 ip p) as Hm.
  { intros p. unfold Meta_of, is_l4, IPPROTO_TCP, IPPROTO_UDP, IPPROTO_ICMP.
    destruct (proto ip =? 6) eqn:E1; [|destruct (proto ip =? 17) eqn:E2; [|destruct (proto ip =? 1) eqn:E3]];
      bsplit; destruct p; cbn; split; intros; try done; lia. }
  unfold proto_ok. destruct pr as [p|]; [|by split]. rewrite bool_decide_eq_true, Hm. naive_solver.
Qed.
Lemma dst_port_spec ip q : m_dst_port (Meta_of ip) = Some q ↔ to_port ip q.
Proof.
  unfold Meta_of, to_port, IPPROTO_TCP, IPPROTO_UDP, IPPROTO_ICMP.
  destruct (proto ip =? 6) eqn:E1; [|destruct (proto ip =? 17) eqn:E2; [|destruct (proto ip =? 1) eqn:E3]]; bsplit; cbn.
  - rewrite fmap_Some. naive_solver lia.
  - rewrite fmap_Some. naive_solver lia.
  - split; [done|lia].
  - split; [done|lia].
Qed.
Lemma port_ok_spec port ip : port_ok port (Meta_of ip) = true ↔ ∀ q, port = Some q → to_port ip q.
Proof. unfold port_ok. destruct port as [q|]; [|by split]. rewrite bool_decide_eq_true, dst_port_spec. naive_solver. Qed.

Lemma redirect_matches_spec ip r : redirect_matches ip (Meta_of ip) r = true ↔ redirects_packet ip r.
Proof.
  unfold redirect_matches, redirects_packet, covers. rewrite !andb_true_iff, Z.eqb_eq, proto_ok_spec, port_ok_spec. tauto.
Qed.

Lemma meta_rev_key r ip k :
  bytes_ok (ip_buf ip) →
  answer_key r ip k ↔
  ∃ sp dp, m_conn_ports (Meta_of ip) = Some (sp, dp) ∧
    k = rev_key ip (hp_ip (r_to r)) (ep_port (redirect_target r (Meta_of ip))) sp dp.
Proof.
  intros Hok. unfold answer_key, rev_key, redirect_target, Meta_of, IPPROTO_TCP, IPPROTO_UDP, IPPROTO_ICMP, ep_port.
  destruct (proto ip =? 6) eqn:E1; [|destruct (proto ip =? 17) eqn:E2; [|destruct (proto ip =? 1) eqn:E3]]; bsplit; cbn.
  - destruct (TcpView_parse (ip_payload ip)) as [t|]; cbn; naive_solver lia.
  - destruct (UdpView_parse (ip_payload ip)) as [u|]; cbn; naive_solver lia.
  - destruct (IcmpView_parse (ip_payload ip)) as [m|] eqn:Hm; cbn; [|naive_solver lia].
    apply IcmpView_parse_Some in Hm as [-> Hl]. set (m := {| icmp_buf := ip_payload ip |}).
    change (of_be16 _ _) with (u16_at (ip_payload ip) 4).
    assert (0 ≤ u16_at (ip_payload ip) 4) by (apply u16_at_u16; by apply ip_payload_ok).
    rewrite E3. unfold ICMP_ECHO_REQUEST, ICMP_ECHO_REPLY. split.
    + intros [[? _]|[[? _]|(_ & m' & [= <-] & Ht & ->)]]; [lia..|].
      apply elem_of_cons in Ht as [Ht|Ht%list_elem_of_singleton]; rewrite Ht; cbn; eexists _, _; (split; [done|]); f_equal; lia.
    + intros (sp & dp & Hc & ->). right; right. split; [done|]. exists m. split; [done|].
      destruct (icmp_type m =? 8) eqn:T1; [|destruct (icmp_type m =? 0) eqn:T2; [|done]]; bsplit; simplify_eq;
        (split; [set_solver|f_equal; lia]).
  - naive_solver lia.
Qed.

Section verdicts.
Context {Net : Type} `{Ipv4NetOps Net}.
Implicit Types (rs : RuleSet Net).

Definition blocks_packet (ip : Ipv4View) (b : BlockRule Net) : Prop :=
  net_contains (b_cidr b) (ip_dst ip) = true ∧ covers (b_proto b) (b_port b) ip.

(** The translations used less than 300 s ago, which [rs'] keeps, plus those in [new]. *)
Definition remembers rs (now : Z) (new : ConnKey → Prop) (entry : RevVal → Prop) rs' : Prop :=
  ∀ k v, conns rs' !! k = Some v ↔
    new k ∧ entry v ∨ ¬ new k ∧ conns rs !! k = Some v ∧ now - last v < 300 * 1000000000.

(** What a translation entry records: where the packet was going, and when. *)
Definition records (ip : Ipv4View) (now : Z) (v : RevVal) : Prop :=
  orig_ip v = ip_dst ip ∧ (∀ q, orig_port v = Some q ↔ to_port ip q) ∧ last v = now.

Definition judged rs (now : Z) (ip : Ipv4View) (head : bytes) (v : Verdict) rs' : Prop :=
  let rules := (redirects rs).*2 in
  (∃ r out o, applies rules ip r ∧ v = Rewrite out ∧ Ipv4View_parse out = Some o ∧
     retargeted ip o None (Some (hp_ip (r_to r), hp_port (r_to r))) ∧
     remembers rs now (answer_key r ip) (records ip now) rs') ∨
  (∀ r, r ∈ rules → ¬ redirects_packet ip r) ∧ remembers rs now (λ _, False) (λ _, False) rs' ∧
  ((∃ b reply, b ∈ (blocks rs).*2 ∧ blocks_packet ip b ∧ v = Drop reply ∧ refusal ip head reply) ∨
   (∀ b, b ∈ (blocks rs).*2 → ¬ blocks_packet ip b) ∧ v = Pass).

Lemma block_matches_spec ip (b : BlockRule Net) : block_matches ip (Meta_of ip) b = true ↔ blocks_packet ip b.
Proof using.
  unfold block_matches, blocks_packet, covers. rewrite !andb_true_iff, proto_ok_spec, port_ok_spec. tauto.
Qed.

Lemma expire_remembers rs now : remembers rs now (λ _, False) (λ _, False) (expire_conns rs now).
Proof using. intros k v. cbn. rewrite map_lookup_filter_Some. cbn. unfold CONN_IDLE. tauto. Qed.

Lemma redirect_remembers rs now ip r :
  bytes_ok (ip_buf ip) → remembers rs now (answer_key r ip) (records ip now) (after_redirect rs now ip r).
Proof using.
  intros Hok k v. rewrite meta_rev_key by done. pose proof (expire_remembers rs now k v) as He. unfold after_redirect.
  destruct (m_conn_ports (Meta_of ip)) as [[sp dp]|]; [|rewrite He; naive_solver].
  set (k0 := rev_key _ _ _ _ _).
  assert ((∃ sp' dp', Some (sp, dp) = Some (sp', dp') ∧
            k = rev_key ip (hp_ip (r_to r)) (ep_port (redirect_target r (Meta_of ip))) sp' dp') ↔ k = k0) as ->.
  { unfold k0. naive_solver. }
  cbn [conns insert_conn]. rewrite lookup_insert_Some, He. unfold records. setoid_rewrite <-dst_port_spec. split.
  - intros [[<- <-]|[Hn ?]]; [left|right; naive_solver]. done.
  - intros [[-> (E1 & E2 & E3)]|[Hn ?]]; [left|right; naive_solver]. split; [done|]. destruct v as [oi op ls]. cbn in *. subst. f_equal.
    apply option_eq. intros q. symmetry. apply E2.
Qed.

Lemma best_redirect_applies rs ip r :
  best_redirect rs ip (Meta_of ip) = Some r → applies (redirects rs).*2 ip r.
Proof using.
  intros Hb. pose proof (best_redirect_spec rs ip (Meta_of ip)) as Hs. rewrite Hb in Hs.
  destruct Hs as (l1 & l2 & Hl & Hm & H1 & H2). exists l1, l2. split; [done|]. rewrite <-redirect_matches_spec. split; [done|].
  unfold redirect_spec in *. split; intros r' Hin Hr'%redirect_matches_spec.
  - specialize (H1 r' Hin Hr'). apply andb_true_iff in H1 as [Hp Hn%negb_true_iff].
    apply bool_decide_eq_true in Hp. apply bool_decide_eq_false in Hn. split; [by apply eq_None_not_Some|].
    intros E. rewrite E in Hp. by destruct Hp.
  - intros Hp E. specialize (H2 r' Hin Hr'). apply andb_false_iff in H2 as [Hn%bool_decide_eq_false|Hn%negb_false_iff].
    + by apply Hp, eq_None_not_Some.
    + apply bool_decide_eq_true in Hn. rewrite E in Hn. by destruct Hn.
Qed.

(** The redirect's target is what [rewrite_packet] writes. *)
Lemma retargeted_to ip v r :
  retargeted ip v None (redirect_target r (Meta_of ip)) →
  retargeted ip v None (Some (hp_ip (r_to r), hp_port (r_to r))).
Proof using.
  intros (H1 & H2 & H3 & H4 & H5 & H6 & Ht & Hu & Ho). unfold retargeted. do 4 (split; [done|]). do 2 (split; [done|]).
  split; [|split; [|done]].
  - intros t Hp Hparse. destruct (Ht t Hp Hparse) as (t' & ? & ? & Hd & Hrest). exists t'. do 2 (split; [done|]). split; [|done].
    rewrite Hd. unfold ep_port, redirect_target, Meta_of. rewrite Hp. change (IPPROTO_TCP =? IPPROTO_TCP) with true. cbn.
    rewrite Hparse. cbn. by destruct (hp_port (r_to r)).
  - intros u Hp Hparse. destruct (Hu u Hp Hparse) as (u' & ? & ? & Hd & Hrest). exists u'. do 2 (split; [done|]). split; [|done].
    rewrite Hd. unfold ep_port, redirect_target, Meta_of. rewrite Hp.
    change (IPPROTO_UDP =? IPPROTO_TCP) with false. change (IPPROTO_UDP =? IPPROTO_UDP) with true. cbn.
    rewrite Hparse. cbn. by destruct (hp_port (r_to r)).
Qed.

Lemma eval_judged rs now pkt ip :
  ruleset_ok rs → bytes_ok pkt → Ipv4View_parse pkt = Some ip →
  ∃ v rs', eval rs now pkt = Ret (v, rs') ∧ judged rs now ip (take (Z.to_nat (total_len ip)) pkt) v rs' ∧
    redirects rs' = redirects rs ∧ blocks rs' = blocks rs ∧ next_id rs' = next_id rs.
Proof using.
  intros Hrs Hok Hip. pose proof (eval_spec rs now pkt ip Hrs Hok Hip) as Hs.
  pose proof (Ipv4View_parse_Some _ _ Hip) as (Eip & _). assert (bytes_ok (ip_buf ip)) as Hbuf by (by rewrite Eip).
  destruct (best_redirect rs ip (Meta_of ip)) as [r|] eqn:Hb.
  { destruct Hs as (out & E & Hout & Hed & Hop & Hrw). eexists _, _. split; [exact E|]. split.
    - left. exists r, out, {| ip_buf := out |}. split; [by apply best_redirect_applies|]. do 2 (split; [done|]).
      split; [apply retargeted_to; exact (reread pkt out ip None _ Hok Hip Hop Hed Hrw)|by apply redirect_remembers].
    - unfold after_redirect. destruct (m_conn_ports (Meta_of ip)) as [[]|]; done. }
  assert (∀ r, r ∈ (redirects rs).*2 → ¬ redirects_packet ip r) as Hno.
  { pose proof (best_redirect_spec rs ip (Meta_of ip)) as Hbs. rewrite Hb in Hbs.
    intros r Hin Hr%redirect_matches_spec. rewrite (Hbs r Hin) in Hr. done. }
  pose proof (best_block_spec rs ip (Meta_of ip)) as Hbs.
  destruct (best_block rs ip (Meta_of ip)) as [b|]; (eexists _, _; split; [exact Hs|]; split; [|done]; right;
    split; [done|]; split; [apply expire_remembers|]).
  - left. apply is_best_elem in Hbs as [Hin Hm%block_matches_spec]. exists b. eexists. do 2 (split; [done|]). split; [done|].
    by apply block_reply_correct.
  - right. split; [|done]. intros b Hin Hm%block_matches_spec. rewrite (Hbs b Hin) in Hm. done.
Qed.
End verdicts.

(** ** What the rule engine promises *)

(** C19: [eval] never panics and judges every packet by its rules. What does not
    parse as IPv4 passes and changes nothing. Otherwise the redirect that
    applies, if one matches the packet's destination, protocol and port, is the
    first of the most specific ones: the packet comes out addressed to its
    target, with the original destination recorded under the key of the answers;
    else a packet a block rule covers is dropped with the answer it is owed; else
    it passes. In each case exactly the translations used within 300 s remain
    and the rules stay as they are. *)
Theorem eval_total_precedence {Net} `{Ipv4NetOps Net} (rs : RuleSet Net) (now : Z) (pkt : bytes) :
  ruleset_ok rs → bytes_ok pkt →
  ∃ v rs', eval rs now pkt = Ret (v, rs') ∧
    redirects rs' = redirects rs ∧ blocks rs' = blocks rs ∧ next_id rs' = next_id rs ∧
    match Ipv4View_parse pkt with
    | None => v = Pass ∧ rs' = rs
    | Some ip => judged rs now ip (take (Z.to_nat (total_len ip)) pkt) v rs'
    end.
Proof.
  intros Hrs Hok. destruct (Ipv4View_parse pkt) as [ip|] eqn:Hip.
  - destruct (eval_judged rs now pkt ip Hrs Hok Hip) as (v & rs' & ? & ? & ? & ? & ?). exists v, rs'. done.
  - exists Pass, rs. unfold eval. by rewrite Hip.
Qed.

(** Rule selection. The redirect [eval] applies matches the packet, beats
    every earlier matching redirect strictly (a rule with a port beats one
    without) and no later one beats it; when none is chosen, none matches.
    The same for blocks, ordered by prefix length, then port, then protocol. *)
Theorem rule_selection_most_specific {Net} `{Ipv4NetOps Net} (rs : RuleSet Net)
    (ip : Ipv4View) (m : Meta) :
  match best_redirect rs ip m with
  | Some r => is_best (redirect_matches ip m) redirect_spec (λ a b, a && negb b)
                (redirects rs).*2 r
  | None => ∀ r, r ∈ (redirects rs).*2 → redirect_matches ip m r = false
  end ∧
  match best_block rs ip m with
  | Some b => is_best (block_matches ip m) block_spec spec_gtb (blocks rs).*2 b
  | None => ∀ b, b ∈ (blocks rs).*2 → block_matches ip m b = false
  end.
Proof. split; [apply best_redirect_spec|apply best_block_spec]. Qed.

(** C20: [rewrite_packet] returns a packet for every parseable IPv4 packet. It
    differs from the original in the replaced addresses and ports, the transport
    checksum and the header checksum only; read again, it is the same packet
    between the new endpoints, with a valid header checksum and, by the parsers'
    own checks, a valid TCP checksum; a UDP datagram keeps having a checksum or
    not, and the checksum is valid when the datagram fills the packet. *)
Theorem rewrite_packet_correct (pkt : bytes) (ip : Ipv4View) (ns nd : endpoint) :
  bytes_ok pkt → Ipv4View_parse pkt = Some ip → endpoint_ok ns → endpoint_ok nd →
  ∃ out v, rewrite_packet pkt ip ns nd = Ret (Some out) ∧
    edited (rewrite_ranges (proto ip) (header_len ip) ns nd)
      (take (Z.to_nat (total_len ip)) pkt) out ∧
    Ipv4View_parse out = Some v ∧ retargeted ip v ns nd.
Proof.
  intros Hok Hip Hns Hnd. destruct (rewrite_packet_spec pkt ip ns nd) as (out & E & ? & He & Hp & Hr); [done..|].
  exists out, {| ip_buf := out |}. do 3 (split; [done|]). exact (reread pkt out ip ns nd Hok Hip Hp He Hr).
Qed.

(** C7: DNAT round trip. If [eval] redirected a TCP, UDP or ICMP echo-request
    packet, then an answer from the redirect target (addresses and ports of
    the rewritten packet swapped) arriving within [CONN_IDLE] is rewritten by
    [eval_return] into an answer from the original destination. *)
Theorem dnat_round_trip {Net} `{Ipv4NetOps Net} (rs rs' : RuleSet Net) (now now' : Z)
    (pkt out reply : bytes) (ip rip : Ipv4View) :
  ruleset_ok rs → bytes_ok pkt → Ipv4View_parse pkt = Some ip → trackable ip →
  eval rs now pkt = Ret (Rewrite out, rs') →
  bytes_ok reply → Ipv4View_parse reply = Some rip → answers {| ip_buf := out |} rip →
  now' - now < CONN_IDLE →
  ∃ back rs'', eval_return rs' now' reply = Ret (Rewrite back, rs'') ∧
    Ipv4View_parse back = Some {| ip_buf := back |} ∧
    answers ip {| ip_buf := back |} ∧ ip_checksum_valid {| ip_buf := back |} = true.
Proof. apply dnat_reply. Qed.

(** Over every sequence of mutations and packet evaluations from an empty
    rule set, rule ids stay distinct, an id handed out later differs from
    every id live at any earlier point, [remove] reports exactly whether the
    id named a rule, and it drops that rule and no other. *)
Theorem rule_ids_never_reused {Net} `{Ipv4NetOps Net} (rs rs' : RuleSet Net) (b : BlockRule Net)
    (r : RedirectRule) (id : Z) :
  rtc rs_step RuleSet_new rs → rtc rs_step rs rs' →
  NoDup (rule_ids rs') ∧
  (∀ i, i ∈ rule_ids rs → i ≠ (add_block rs' b).2 ∧ i ≠ (add_redirect rs' r).2) ∧
  ((remove rs' id).2 = true ↔ id ∈ rule_ids rs') ∧
  (∀ i, i ∈ rule_ids (remove rs' id).1 ↔ i ∈ rule_ids rs' ∧ i ≠ id).
Proof.
  intros H1 H2. destruct (rs_steps_inv _ _ H1) as [Hi _]; [split; [done|apply ruleset_new_ok]|].
  destruct (rs_steps_inv _ _ H2 Hi) as [[_ Hok'] Hle]. destruct Hi as [_ Hok].
  destruct (ruleset_ok_ids _ Hok) as [_ Hb]. destruct (ruleset_ok_ids _ Hok') as [Hn _].
  split; [done|]. split.
  - intros i Hin. specialize (Hb _ Hin). cbn. lia.
  - split; [apply remove_result|]. intros i. rewrite remove_ids, list_elem_of_filter. tauto.
Qed.

(** ** Worked instances *)

Definition sample_redirect : RedirectRule :=
  {| r_from := {| hp_ip := 0x0A000063; hp_port := Some 80 |};
     r_to := {| hp_ip := 0x0A000005; hp_port := Some 8080 |}; r_proto := Some Tcp |}.
Definition sample_block : BlockRule cidr :=
  {| b_cidr := Cidr 0x01020300 24; b_proto := None; b_port := None |}.
Definition sample_rules : RuleSet cidr :=
  (add_redirect (add_block RuleSet_new sample_block).1 sample_redirect).1.

Definition sample_syn (src dst sp dp : Z) : bytes :=
  default [] (seg ← tcp_build src dst {| f_src_port := sp; f_dst_port := dp; f_seq := 100; f_ack := 0;
                      f_flags := TCP_SYN; f_window := 1000; f_options := [] |} [];
              ipv4_build src dst IPPROTO_TCP 64 seg 1).
(** 10.0.0.7:40000 to the redirected 10.0.0.99:80, and the target's answer. *)
Definition sample_request : bytes := sample_syn 0x0A000007 0x0A000063 40000 80.
Definition sample_reply : bytes := sample_syn 0x0A000005 0x0A000007 8080 40000.
(** To a blocked network. *)
Definition sample_blocked : bytes := sample_syn 0x0A000007 0x01020304 40000 80.

Lemma sample_steps : rtc rs_step RuleSet_new sample_rules.
Proof.
  eapply rtc_l; [apply (step_add_block RuleSet_new sample_block)|].
  apply rtc_once, step_add_redirect. split; [concrete|]. intros q [= <-]. concrete.
Qed.
Lemma sample_rules_ok : ruleset_ok sample_rules.
Proof.
  destruct (rs_steps_inv _ _ sample_steps) as [[_ ?] _]; [|done].
  split; [done|apply ruleset_new_ok].
Qed.

Lemma eval_total_precedence_witness :
  (∃ v rs', eval sample_rules 0 sample_request = Ret (v, rs') ∧
     judged sample_rules 0 {| ip_buf := sample_request |} (take (Z.to_nat 40) sample_request) v rs') ∧
  (∃ v rs', eval sample_rules 0 sample_blocked = Ret (v, rs') ∧
     judged sample_rules 0 {| ip_buf := sample_blocked |} (take (Z.to_nat 40) sample_blocked) v rs').
Proof.
  assert (Ipv4View_parse sample_request = Some {| ip_buf := sample_request |} ∧
    Ipv4View_parse sample_blocked = Some {| ip_buf := sample_blocked |} ∧
    total_len {| ip_buf := sample_request |} = 40 ∧ total_len {| ip_buf := sample_blocked |} = 40) as (E1 & E2 & T1 & T2)
    by (split_and!; by vm_compute).
  split.
  - destruct (eval_total_precedence sample_rules 0 sample_request sample_rules_ok ltac:(concrete))
      as (v & rs' & Hev & _ & _ & _ & Hj). rewrite E1, T1 in Hj. exists v, rs'. exact (conj Hev Hj).
  - destruct (eval_total_precedence sample_rules 0 sample_blocked sample_rules_ok ltac:(concrete))
      as (v & rs' & Hev & _ & _ & _ & Hj). rewrite E2, T2 in Hj. exists v, rs'. exact (conj Hev Hj).
Defined.

Lemma rewrite_packet_correct_witness :
  ∃ out v, rewrite_packet sample_request {| ip_buf := sample_request |} None
      (Some (0x0A000005, Some 8080)) = Ret (Some out) ∧
    edited (rewrite_ranges 6 20 None (Some (0x0A000005, Some 8080)))
      (take (Z.to_nat 40) sample_request) out ∧
    Ipv4View_parse out = Some v ∧
    retargeted {| ip_buf := sample_request |} v None (Some (0x0A000005, Some 8080)).
Proof.
  apply (rewrite_packet_correct sample_request {| ip_buf := sample_request |} None
    (Some (0x0A000005, Some 8080))); [concrete|vm_compute; reflexivity| |].
  - split; intros ? [=].
  - split; intros ? [= <-]; concrete.
Defined.

Definition sample_out : bytes * RuleSet cidr :=
  match eval sample_rules 0 sample_request with
  | Ret (Rewrite out, rs') => (out, rs')
  | _ => ([], RuleSet_new)
  end.
Lemma dnat_round_trip_witness :
  ∃ out rs' back rs'', eval sample_rules 0 sample_request = Ret (Rewrite out, rs') ∧
    eval_return rs' 5 sample_reply = Ret (Rewrite back, rs'') ∧
    Ipv4View_parse back = Some {| ip_buf := back |} ∧
    answers {| ip_buf := sample_request |} {| ip_buf := back |} ∧
    ip_checksum_valid {| ip_buf := back |} = true.
Proof.
  exists (sample_out.1), (sample_out.2).
  destruct (dnat_round_trip sample_rules sample_out.2 0 5 sample_request sample_out.1 sample_reply
    {| ip_buf := sample_request |} {| ip_buf := sample_reply |} sample_rules_ok)
    as (back & rs'' & Hall).
  - concrete.
  - vm_compute. reflexivity.
  - exists 40000, 80. split; [vm_compute; reflexivity|]. left. vm_compute. reflexivity.
  - vm_compute. reflexivity.
  - concrete.
  - vm_compute. reflexivity.
  - do 3 (split; [vm_compute; reflexivity|]). exists 40000, 8080.
    split; vm_compute; reflexivity.
  - concrete.
  - exists back, rs''. split; [vm_compute; reflexivity|exact Hall].
Defined.

Lemma rule_ids_never_reused_witness :
  NoDup (rule_ids sample_rules) ∧
  (∀ i, i ∈ rule_ids sample_rules →
    i ≠ (add_block sample_rules sample_block).2 ∧ i ≠ (add_redirect sample_rules sample_redirect).2) ∧
  ((remove sample_rules 1).2 = true ↔ 1 ∈ rule_ids sample_rules) ∧
  (∀ i, i ∈ rule_ids (remove sample_rules 1).1 ↔ i ∈ rule_ids sample_rules ∧ i ≠ 1).
Proof.
  exact (rule_ids_never_reused sample_rules sample_rules sample_block sample_redirect 1
    sample_steps (rtc_refl _ _)).
Defined.

(** ** Fragments *)

(** The second fragment of a UDP datagram: no UDP header, only data. *)
Definition sample_fragment : bytes :=
  splice (default [] (ipv4_build 0x0A000007 0x0A000063 IPPROTO_UDP 64 [0;1; 2;3; 0;8; 6;7; 8;9] 1))
    6 [0; 185].
Definition fragment_rules : RuleSet cidr :=
  (add_redirect RuleSet_new
    {| r_from := {| hp_ip := 0x0A000063; hp_port := None |};
       r_to := {| hp_ip := 0x0A000005; hp_port := None |}; r_proto := None |}).1.

(** [eval] does not look at the fragment offset. There is a non-first
    fragment of a UDP datagram, sent to an address with a plain address
    redirect, whose rewrite changes the fragment's data: the bytes at the
    offset of a UDP checksum are overwritten although the fragment carries no
    UDP header. *)
Theorem eval_rewrites_fragment_data :
  ∃ (rs : RuleSet cidr) (pkt out : bytes) (ip v : Ipv4View) (rs' : RuleSet cidr),
    Ipv4View_parse pkt = Some ip ∧ frag_offset ip ≠ 0 ∧
    eval rs 0 pkt = Ret (Rewrite out, rs') ∧ Ipv4View_parse out = Some v ∧
    ip_payload v ≠ ip_payload ip.
Proof.
  exists fragment_rules, sample_fragment. eexists _, _, _, _.
  split; [vm_compute; reflexivity|]. split; [vm_compute; discriminate|].
  split; [vm_compute; reflexivity|]. split; [vm_compute; reflexivity|]. vm_compute. discriminate.
Qed.

(** ** Bytes after the UDP datagram *)

(** A UDP datagram of one byte in a packet two bytes longer than it. *)
Definition padded_packet : bytes :=
  default [] (u ← udp_build 0x0A000007 0x0A000063 53 53 [9];
              ipv4_build 0x0A000007 0x0A000063 IPPROTO_UDP 64 (u ++ [1; 2]) 1).

Definition padded_out : bytes :=
  match rewrite_packet padded_packet {| ip_buf := padded_packet |} None (Some (0x0A000005, None)) with
  | Ret (Some out) => out | _ => [] end.

(** [rewrite_packet] sums the whole payload, not the datagram: there is a packet
    with bytes after its UDP datagram whose checksum is valid, and which a
    redirect turns into a packet whose checksum is not. *)
Theorem rewrite_breaks_padded_udp :
  ∃ (pkt out : bytes) (ip v : Ipv4View) (u u' : UdpView),
    Ipv4View_parse pkt = Some ip ∧ UdpView_parse (ip_payload ip) = Some u ∧
    udp_checksum_valid u (ip_src ip) (ip_dst ip) = true ∧
    rewrite_packet pkt ip None (Some (0x0A000005, None)) = Ret (Some out) ∧
    Ipv4View_parse out = Some v ∧ UdpView_parse (ip_payload v) = Some u' ∧
    udp_checksum_valid u' (ip_src v) (ip_dst v) = false.
Proof.
  set (ip := {| ip_buf := padded_packet |}). set (v := {| ip_buf := padded_out |}).
  exists padded_packet, padded_out, ip, v, {| udp_buf := ip_payload ip |}, {| udp_buf := ip_payload v |}.
  split_and!; vm_compute; reflexivity.
Qed.
