(* ===== verification/VnetHeader.v ===== *)
(** * Switch metadata and software offload completion
      ([hv/crates/vmlab-hv-proto/src/net.rs])

    The virtio-net header a capable port carries beside each frame, its
    stream metadata, and [segments], which completes a partial checksum or
    cuts a GSO packet for a raw port. All slices of [segments] are at offsets
    read from the frame, so it is an [io] computation that can [Crash]. *)

From S2P Require Import Prelude Checksum Frame.

(** ** Constants *)

Definition VNET_MAX_FRAME_LEN : Z := 65536 + 14.
Definition METADATA_LEN : Z := 16.
Definition NEEDS_CSUM : Z := 1.
Definition DATA_VALID : Z := 2.
Definition GSO_NONE : Z := 0.
Definition GSO_TCPV4 : Z := 1.
Definition GSO_TCPV6 : Z := 4.
Definition GSO_UDP : Z := 5.
Definition GSO_ECN : Z := 128.

Record Header := mkHeader {
  h_flags : Z; h_gso_type : Z; h_hdr_len : Z;
  h_gso_size : Z; h_csum_start : Z; h_csum_offset : Z }.
#[global] Instance Header_eq_dec : EqDecision Header.
Proof. solve_decision. Defined.
Definition Header_default : Header := mkHeader 0 0 0 0 0 0.

(** [u16::to_le_bytes], [u16::from_le_bytes], and [!x] on [u8]. *)
Definition le16 (n : Z) : bytes := [n mod 256; n / 256].
Definition of_le16 (a b : Z) : Z := b * 256 + a.
Definition not8 (x : Z) : Z := Z.lxor x 255.

(** [be16(bytes, at)]. *)
Definition get_be16 (l : bytes) (at_ : Z) : io Z :=
  word ← ok_or InvalidData (get_range l at_ (at_ + 2));
  Ok (of_be16 (idx word 0) (idx word 1)).
Definition get_byte (l : bytes) (at_ : Z) : io Z := ok_or InvalidData (get_idx l at_).

(** ** The checksum accumulator ([Sum]) *)

Definition sum_add (sum : Z) (l : bytes) : Z := sum_be16 l sum.
Definition sum_finish (sum : Z) : Z := Z.lxor (wrap16 (fold_carry carry_fuel sum)) 0xFFFF.
Definition checksum (l : bytes) : Z := sum_finish (sum_add 0 l).

(** ** Frame layout *)

Record Layout := { l_ip : Z; l_transport : Z; l_protocol : Z; l_ipv4 : bool }.

Definition is_vlan (kind : Z) : bool := (kind =? 0x8100) || (kind =? 0x88a8).

(** The VLAN loop: at most two tags. *)
Fixpoint skip_vlan (n : nat) (frame : bytes) (ip kind : Z) : io (Z * Z) :=
  match n with
  | O => Ok (ip, kind)
  | S n =>
      if negb (is_vlan kind) then Ok (ip, kind)
      else kind ← get_be16 frame (ip + 2); skip_vlan n frame (ip + 4) kind
  end.

Definition is_ext_header (protocol : Z) : bool :=
  (protocol =? 0) || (protocol =? 43) || (protocol =? 60) || (protocol =? 51).

(** The IPv6 extension-header loop: at most eight headers. *)
Fixpoint skip_ext (n : nat) (frame : bytes) (at_ protocol : Z) : io (Z * Z) :=
  match n with
  | O => Ok (at_, protocol)
  | S n =>
      if negb (is_ext_header protocol) then Ok (at_, protocol)
      else
        next ← get_byte frame at_;
        l ← get_byte frame (at_ + 1);
        skip_ext n frame
          (at_ + (if protocol =? 51 then (l + 2) * 4 else (l + 1) * 8)) next
  end.

Definition Layout_ip (frame : bytes) (ip kind : Z) : io (Z * Z * bool) :=
  if kind =? 0x0800 then
    first ← get_byte frame ip;
    let l := Z.land first 15 * 4 in
    if negb (Z.shiftr first 4 =? 4) || (l <? 20) then Err InvalidData
    else
      frag ← get_be16 frame (ip + 6);
      if negb (Z.land frag 0x3fff =? 0) then Err InvalidData
      else protocol ← get_byte frame (ip + 9); Ok (ip + l, protocol, true)
  else if kind =? 0x86dd then
    match get_idx frame ip with
    | None => Err InvalidData
    | Some first =>
        if negb (Z.shiftr first 4 =? 6) then Err InvalidData
        else
          protocol ← get_byte frame (ip + 6);
          r ← skip_ext 8 frame (ip + 40) protocol;
          Ok (r.1, r.2, false)
    end
  else Err InvalidData.

Definition Layout_parse (frame : bytes) : io Layout :=
  kind ← get_be16 frame 12;
  r ← skip_vlan 2 frame 14 kind;
  let '(ip, kind) := r in
  r ← Layout_ip frame ip kind;
  let '(transport, protocol, ipv4) := r in
  min ← (if protocol =? 6 then Ok 20 else if protocol =? 17 then Ok 8 else Err InvalidData);
  if len frame <? transport + min then Err InvalidData
  else Ok {| l_ip := ip; l_transport := transport; l_protocol := protocol; l_ipv4 := ipv4 |}.

Definition transport_checksum (lay : Layout) (frame : bytes) : io Z :=
  let l := wrap32 (len frame - l_transport lay) in
  sum ← (if l_ipv4 lay then
           addrs ← lift (slice_chk frame (l_ip lay + 12) (l_ip lay + 20));
           Ok (sum_add (sum_add (sum_add 0 addrs) [0; l_protocol lay]) (be16 (wrap16 l)))
         else
           addrs ← lift (slice_chk frame (l_ip lay + 8) (l_ip lay + 40));
           Ok (sum_add (sum_add (sum_add 0 addrs) (be32 l)) [0; 0; 0; l_protocol lay]));
  body ← lift (slice_chk frame (l_transport lay) (len frame));
  Ok (sum_finish (sum_add sum body)).

(** ** Header codec *)

Definition gso_kind (h : Header) : Z := Z.land (h_gso_type h) (not8 GSO_ECN).
Definition gso_known (kind : Z) : bool :=
  (kind =? GSO_NONE) || (kind =? GSO_TCPV4) || (kind =? GSO_TCPV6) || (kind =? GSO_UDP).
Definition gso_tcp (kind : Z) : bool := (kind =? GSO_TCPV4) || (kind =? GSO_TCPV6).

(** The flag and type check of [decode]. *)
Definition header_bad (h : Header) : bool :=
  negb (Z.land (h_flags h) (not8 (Z.lor NEEDS_CSUM DATA_VALID)) =? 0)
  || (h_flags h =? Z.lor NEEDS_CSUM DATA_VALID)
  || negb (gso_known (gso_kind h))
  || (negb (Z.land (h_gso_type h) GSO_ECN =? 0) && negb (gso_tcp (gso_kind h))).

Definition decode (l : bytes) : io Header :=
  if len l <? 10 then Err InvalidData
  else
    let word at_ := of_le16 (idx l at_) (idx l (at_ + 1)) in
    let header := mkHeader (idx l 0) (idx l 1) (word 2) (word 4) (word 6) (word 8) in
    if header_bad header then Err InvalidData else Ok header.

Definition encode (h : Header) : bytes :=
  [h_flags h; h_gso_type h] ++ le16 (h_hdr_len h) ++ le16 (h_gso_size h)
    ++ le16 (h_csum_start h) ++ le16 (h_csum_offset h) ++ [0; 0].

Definition needs_csum (h : Header) : bool := negb (Z.land (h_flags h) NEEDS_CSUM =? 0).

(** The GSO part of [validate], over a parsed layout. *)
Definition gso_bad (h : Header) (lay : Layout) : bool :=
  let kind := gso_kind h in
  let tcp := gso_tcp kind in
  (h_gso_size h =? 0)
  || negb (needs_csum h)
  || negb (h_csum_start h =? l_transport lay)
  || negb (h_csum_offset h =? (if tcp then 16 else 6))
  || (tcp && negb (l_protocol lay =? 6))
  || (negb tcp && negb (l_protocol lay =? 17))
  || ((kind =? GSO_TCPV4) && negb (l_ipv4 lay))
  || ((kind =? GSO_TCPV6) && l_ipv4 lay).

Definition validate (h : Header) (frame : bytes) : io () :=
  _ ← decode (encode h);
  if (VNET_MAX_FRAME_LEN <? len frame) || (len frame <? 14) then Err InvalidData
  else if needs_csum h && (len frame <? h_csum_start h + h_csum_offset h + 2) then Err InvalidData
  else if negb (gso_kind h =? GSO_NONE) then
    layout ← Layout_parse frame;
    if gso_bad h layout then Err InvalidData else Ok ()
  else Ok ().

Definition metadata (h : Header) (queue : Z) : bytes := be16 1 ++ be16 queue ++ encode h.

Definition from_metadata (body : bytes) : io (Header * Z * bytes) :=
  if len body <? METADATA_LEN then Err InvalidData
  else
    v ← get_be16 body 0;
    if negb (v =? 1) then Err InvalidData
    else
      header ← decode (slice body 4 METADATA_LEN);
      let frame := slice body METADATA_LEN (len body) in
      _ ← validate header frame;
      queue ← get_be16 body 2;
      Ok (header, queue, frame).

(** ** Segmentation *)

(** [part[at] &= mask]. *)
Definition mask_at (part : bytes) (at_ mask : Z) : io bytes :=
  b ← lift (idx_chk part at_);
  lift (copy_at part at_ [Z.land b mask]).

(** The network-layer header of one segment. *)
Definition segment_ip (frame : bytes) (lay : Layout) (index : Z) (part : bytes) : io bytes :=
  let ip := l_ip lay in
  if l_ipv4 lay then
    let length := len part - ip in
    if 65535 <? length then Err InvalidData
    else
      part ← lift (copy_at part (ip + 2) (be16 length));
      id0 ← get_be16 frame (ip + 4);
      let id := wrap16 (id0 + wrap16 index) in
      part ← lift (copy_at part (ip + 4) (be16 id));
      part ← lift (copy_at part (ip + 10) [0; 0]);
      hdr ← lift (slice_chk part ip (l_transport lay));
      lift (copy_at part (ip + 10) (be16 (checksum hdr)))
  else
    let length := len part - ip - 40 in
    if 65535 <? length then Err InvalidData
    else lift (copy_at part (ip + 4) (be16 length)).

(** The transport header of one segment, and where its checksum lives. *)
Definition segment_l4 (frame : bytes) (lay : Layout) (tcp : bool) (index count offset : Z)
    (part : bytes) : io (bytes * Z) :=
  let t := l_transport lay in
  if tcp then
    sq ← lift (slice_chk frame (t + 4) (t + 8));
    part ← lift (copy_at part (t + 4) (be32 (wadd32 (u32_at sq 0) (wrap32 offset))));
    part ← (if negb (index + 1 =? count) then mask_at part (t + 13) (not8 (Z.lor 1 8)) else Ok part);
    part ← (if negb (index =? 0) then mask_at part (t + 13) (not8 128) else Ok part);
    Ok (part, t + 16)
  else
    part ← lift (copy_at part (t + 4) (be16 (wrap16 (len part - t))));
    Ok (part, t + 6).

(** One iteration of the segmentation loop. *)
Definition segment (frame : bytes) (lay : Layout) (tcp : bool) (payload size count : Z)
    (data : bytes) (index : Z) : io bytes :=
  let offset := index * size in
  let end_ := Z.min (offset + size) (len data) in
  head ← lift (slice_chk frame 0 payload);
  chunk ← lift (slice_chk data offset end_);
  part ← segment_ip frame lay index (head ++ chunk);
  r ← segment_l4 frame lay tcp index count offset part;
  let '(part, field) := r in
  part ← lift (copy_at part field [0; 0]);
  value ← transport_checksum lay part;
  let value := if negb tcp && (value =? 0) then 0xffff else value in
  lift (copy_at part field (be16 value)).

Fixpoint collect {A} (l : list (io A)) : io (list A) :=
  match l with
  | [] => Ok []
  | x :: l => a ← x; r ← collect l; Ok (a :: r)
  end.

Definition MAX_SEGMENT_BYTES : Z := 4 * 1024 * 1024.

(** Completing the checksum of a packet that is not GSO. *)
Definition complete_checksum (h : Header) (frame : bytes) : io bytes :=
  if needs_csum h then
    let start := h_csum_start h in
    let field := start + h_csum_offset h in
    body ← lift (slice_chk frame start (len frame));
    let value := checksum body in
    let value := if value =? 0 then 0xffff else value in
    lift (copy_at frame field (be16 value))
  else Ok frame.

Definition segments (h : Header) (frame : bytes) (mtu : Z) : io (list bytes) :=
  _ ← validate h frame;
  if h_gso_type h =? GSO_NONE then frame ← complete_checksum h frame; Ok [frame]
  else
    lay ← Layout_parse frame;
    let transport := l_transport lay in
    let tcp := l_protocol lay =? 6 in
    payload ← (if tcp then
                 b ← get_byte frame (transport + 12);
                 let l := Z.shiftr b 4 * 4 in
                 if l <? 20 then Err InvalidData else Ok (transport + l)
               else Ok (transport + 8));
    if len frame <? payload then Err InvalidData
    else if mtu <? payload - l_ip lay then Err InvalidData
    else
      let budget := mtu - (payload - l_ip lay) in
      let size := Z.min budget (h_gso_size h) in
      if size =? 0 then Err InvalidData
      else
        let data := slice frame payload (len frame) in
        if negb tcp && (budget <? Z.min (h_gso_size h) (len data)) then Err InvalidData
        else
          let count := Z.max (div_ceil (len data) size) 1 in
          if MAX_SEGMENT_BYTES <? count * payload + len data then Err InvalidData
          else collect (segment frame lay tcp payload size count data <$> seqZ 0 count).

(** ** Flow hash *)

(** FNV-1a over 32 bits. *)
Definition fnv_add (hash : Z) (l : bytes) : Z :=
  foldl (λ h b, wrap32 (Z.lxor h b * 16777619)) hash l.

(** [<=] on pairs of byte slices. *)
Definition pair_leb (a b : bytes * bytes) : bool :=
  if bool_decide (a.1 = b.1) then bytes_leb a.2 b.2 else bytes_leb a.1 b.1.

Definition flow_hash (frame : bytes) : Z :=
  let hash := 2166136261 in
  match Layout_parse frame with
  | Ok lay =>
      let '(source, destination) :=
        if l_ipv4 lay
        then (slice frame (l_ip lay + 12) (l_ip lay + 16), slice frame (l_ip lay + 16) (l_ip lay + 20))
        else (slice frame (l_ip lay + 8) (l_ip lay + 24), slice frame (l_ip lay + 24) (l_ip lay + 40)) in
      let source_port := slice frame (l_transport lay) (l_transport lay + 2) in
      let destination_port := slice frame (l_transport lay + 2) (l_transport lay + 4) in
      let hash :=
        if pair_leb (source, source_port) (destination, destination_port)
        then fnv_add (fnv_add (fnv_add (fnv_add hash source) source_port) destination) destination_port
        else fnv_add (fnv_add (fnv_add (fnv_add hash destination) destination_port) source) source_port in
      fnv_add hash [l_protocol lay]
  | _ => fnv_add hash (slice frame 0 (Z.min (len frame) 14))
  end.

(** ** Layouts stay inside their frame *)

Lemma get_be16_spec l a : io_spec (λ v, 0 ≤ a ∧ a + 2 ≤ len l ∧ v = u16_at l a) (get_be16 l a).
Proof.
  unfold get_be16, get_range. destruct (_ && _) eqn:E; [|done]. bsplit. cbn. split_and!; [lia|lia|].
  unfold u16_at. rewrite !idx_slice by lia. by rewrite Z.add_0_r.
Qed.
Lemma get_be16_ret l a : 0 ≤ a → a + 2 ≤ len l → get_be16 l a = Ok (u16_at l a).
Proof.
  intros. unfold get_be16, get_range. rewrite !(proj2 (Z.leb_le _ _)) by lia. cbn.
  unfold u16_at. rewrite !idx_slice by lia. by rewrite Z.add_0_r.
Qed.
Lemma get_byte_spec l a : io_spec (λ v, 0 ≤ a < len l ∧ v = idx l a) (get_byte l a).
Proof. unfold get_byte, get_idx. destruct (_ && _) eqn:E; [|done]. bsplit. cbn. split; [lia|done]. Qed.

Lemma get_byte_ret l a : 0 ≤ a < len l → get_byte l a = Ok (idx l a).
Proof. intros. unfold get_byte, get_idx. by rewrite (proj2 (Z.leb_le 0 a)), (proj2 (Z.ltb_lt a _)) by lia. Qed.

Lemma skip_vlan_spec n frame ip kind :
  io_spec (λ r, ip ≤ r.1 ≤ ip + 4 * Z.of_nat n) (skip_vlan n frame ip kind).
Proof.
  revert ip kind. induction n as [|n IH]; intros ip kind; cbn [skip_vlan]; [cbn; lia|].
  case_goal; [cbn; lia|]. eapply io_spec_bind; [apply get_be16_spec|]. intros kind' _ _.
  eapply io_spec_mono; [apply IH|]. intros r Hr. cbn in *. lia.
Qed.
Lemma skip_ext_spec n frame at_ pr :
  bytes_ok frame → io_spec (λ r, at_ ≤ r.1) (skip_ext n frame at_ pr).
Proof.
  intros Hok. revert at_ pr. induction n as [|n IH]; intros at_ pr; cbn [skip_ext]; [cbn; lia|].
  case_goal; [cbn; lia|]. eapply io_spec_bind; [apply get_byte_spec|]. intros next _ _.
  eapply io_spec_bind; [apply get_byte_spec|]. intros l _ [_ ->].
  eapply io_spec_mono; [apply IH|]. intros r Hr. cbn in *.
  pose proof (idx_u8 frame (at_ + 1) Hok) as Hb. unfold is_u8 in Hb. destruct (pr =? 51); lia.
Qed.

(** What a parsed layout promises. *)
Definition ip_layout_ok (frame : bytes) (ip transport protocol : Z) (ipv4 : bool) : Prop :=
  if ipv4 then
    Z.shiftr (idx frame ip) 4 = 4 ∧ transport = ip + Z.land (idx frame ip) 15 * 4 ∧
    ip + 20 ≤ transport ∧ protocol = idx frame (ip + 9)
  else ip + 40 ≤ transport.
Definition layout_ok (frame : bytes) (lay : Layout) : Prop :=
  14 ≤ l_ip lay ≤ 22 ∧ (l_protocol lay = 6 ∨ l_protocol lay = 17) ∧
  l_transport lay + (if l_protocol lay =? 6 then 20 else 8) ≤ len frame ∧
  ip_layout_ok frame (l_ip lay) (l_transport lay) (l_protocol lay) (l_ipv4 lay).

Lemma layout_transport frame lay :
  layout_ok frame lay →
  l_ip lay + (if l_ipv4 lay then 20 else 40) ≤ l_transport lay ∧ 34 ≤ l_transport lay.
Proof.
  intros (Hip & _ & _ & Hv). unfold ip_layout_ok in Hv.
  destruct (l_ipv4 lay); [destruct Hv as (_ & _ & ? & _)|]; lia.
Qed.

Lemma Layout_ip_spec frame ip kind :
  bytes_ok frame →
  io_spec (λ r, ip_layout_ok frame ip r.1.1 r.1.2 r.2) (Layout_ip frame ip kind).
Proof.
  intros Hok. unfold Layout_ip. destruct (kind =? 2048).
  - eapply io_spec_bind; [apply get_byte_spec|]. intros first _ [_ ->]. cbv zeta.
    case_goal; [done|]. bsplit. eapply io_spec_bind; [apply get_be16_spec|]. intros frag _ _.
    case_goal; [done|]. eapply io_spec_bind; [apply get_byte_spec|]. intros pr _ [_ ->].
    cbn. split_and!; lia || done.
  - destruct (kind =? 34525); [|done]. case_goal; [|done]. case_goal; [done|].
    eapply io_spec_bind; [apply get_byte_spec|]. intros pr _ _.
    eapply io_spec_bind; [by apply skip_ext_spec|]. intros r _ Hr. exact Hr.
Qed.

Lemma Layout_parse_spec frame : bytes_ok frame → io_spec (layout_ok frame) (Layout_parse frame).
Proof.
  intros Hok. unfold Layout_parse. eapply io_spec_bind; [apply get_be16_spec|]. intros kind _ _.
  eapply io_spec_bind; [apply skip_vlan_spec|]. intros [ip kind'] _ Hip. cbn [fst] in Hip.
  eapply io_spec_bind; [by apply Layout_ip_spec|]. intros [[tr pr] v4] _ Hlay. cbn [fst snd] in Hlay.
  apply io_spec_bind with (P := λ mn, (pr = 6 ∨ pr = 17) ∧ mn = if pr =? 6 then 20 else 8).
  { destruct (pr =? 6) eqn:P6; bsplit; [cbn; auto|]. destruct (pr =? 17) eqn:P17; bsplit; cbn; auto. }
  intros mn _ [Hpr ->]. case_goal; [done|]. bsplit.
  split; cbn [l_ip l_transport l_protocol l_ipv4]; [lia|]. done.
Qed.

(** ** The accumulator computes the internet checksum *)

#[local] Transparent internet_checksum.
Lemma checksum_internet l : checksum l = internet_checksum l.
Proof. reflexivity. Qed.
#[local] Opaque internet_checksum.

Lemma sum_add_app s l1 l2 : Nat.Even (length l1) → sum_add (sum_add s l1) l2 = sum_add s (l1 ++ l2).
Proof.
  intros He. unfold sum_add.
  rewrite (sum_be16_acc l2), (sum_be16_acc l1), (sum_be16_acc (l1 ++ l2)), sum_be16_app by done. lia.
Qed.

(** The pseudo-header the transport checksum covers. *)
Definition pseudo (lay : Layout) (part : bytes) : bytes :=
  if l_ipv4 lay
  then slice part (l_ip lay + 12) (l_ip lay + 20) ++ [0; l_protocol lay]
         ++ be16 (len part - l_transport lay)
  else slice part (l_ip lay + 8) (l_ip lay + 40) ++ be32 (len part - l_transport lay)
         ++ [0; 0; 0; l_protocol lay].

(** A segment candidate the layout's offsets fit. *)
Definition part_ok (lay : Layout) (part : bytes) : Prop :=
  bytes_ok part ∧ 14 ≤ l_ip lay ≤ 22 ∧ is_u8 (l_protocol lay) ∧
  l_ip lay + (if l_ipv4 lay then 20 else 40) ≤ l_transport lay ≤ len part ∧
  len part - l_ip lay ≤ 65535.

Lemma len_slice_even {A} (l : list A) a n :
  0 ≤ a → 0 ≤ n → a + n ≤ len l → length (slice l a (a + n)) = Z.to_nat n.
Proof. intros. pose proof (len_slice l a (a + n)). unfold len in *. lia. Qed.

Lemma pseudo_even lay part : part_ok lay part →
  Nat.Even (length (pseudo lay part)) ∧ len (pseudo lay part) = if l_ipv4 lay then 12 else 40.
Proof.
  intros (_ & Hip & _ & Ht & _). unfold pseudo. revert Ht. destruct (l_ipv4 lay); intros Ht.
  - pose proof (len_slice_even part (l_ip lay + 12) 8) as E.
    replace (l_ip lay + 12 + 8) with (l_ip lay + 20) in E by lia.
    unfold len. rewrite length_app, E by lia. cbn. split; [by exists 6%nat|done].
  - pose proof (len_slice_even part (l_ip lay + 8) 32) as E.
    replace (l_ip lay + 8 + 32) with (l_ip lay + 40) in E by lia.
    unfold len. rewrite length_app, E by lia. cbn. split; [by exists 20%nat|done].
Qed.
Lemma pseudo_ok lay part : part_ok lay part → bytes_ok (pseudo lay part).
Proof.
  intros (Hok & Hip & Hp & Ht & Hl). unfold pseudo.
  revert Ht. destruct (l_ipv4 lay); intros Ht; auto 20 with vmlab.
Qed.

Lemma slice_even {A} (l : list A) a b k :
  0 ≤ a → b = a + 2 * Z.of_nat k → b ≤ len l → Nat.Even (length (slice l a b)).
Proof. intros ? -> ?. rewrite len_slice_even by lia. exists k. lia. Qed.

Lemma transport_checksum_eq lay part : part_ok lay part →
  transport_checksum lay part
    = Ok (internet_checksum (pseudo lay part ++ drop (Z.to_nat (l_transport lay)) part)).
Proof.
  intros (Hok & Hip & Hpr & Ht & Hl). unfold transport_checksum, pseudo.
  assert (W32 : wrap32 (len part - l_transport lay) = len part - l_transport lay)
    by (unfold wrap32; apply Z.mod_small; destruct (l_ipv4 lay); lia).
  assert (W16 : wrap16 (len part - l_transport lay) = len part - l_transport lay)
    by (unfold wrap16; apply Z.mod_small; destruct (l_ipv4 lay); lia).
  rewrite W32, W16, <-checksum_internet. unfold checksum.
  revert Ht. destruct (l_ipv4 lay); intros Ht; rewrite slice_chk_ret by lia; cbn [lift mbind io_bind];
    rewrite slice_chk_ret by lia; cbn [lift mbind io_bind];
    rewrite (slice_to_end part (l_transport lay)) by lia; rewrite <-!app_assoc, <-!sum_add_app; try done; try (by exists 1%nat); try (by exists 2%nat).
  - by apply (slice_even _ _ _ 4); lia.
  - by apply (slice_even _ _ _ 16); lia.
Qed.

(** ** One segment *)

Lemma part_ok_edited lay rs part part' :
  part_ok lay part → bytes_ok part' → edited rs part part' → part_ok lay part'.
Proof.
  intros (? & ? & ? & ? & ?) Hok' E. unfold part_ok. by rewrite (edited_len _ _ _ E).
Qed.

Lemma pseudo_splice lay part off src :
  part_ok lay part → l_transport lay ≤ off → off + len src ≤ len part →
  pseudo lay (splice part off src) = pseudo lay part.
Proof.
  intros (_ & Hip & _ & Ht & _) Hoff Hl. unfold pseudo. revert Ht.
  destruct (l_ipv4 lay); intros Ht; rewrite slice_splice_out, len_splice by lia; done.
Qed.

Lemma splice_twice (l : bytes) off a b v :
  0 ≤ off → off + 2 ≤ len l → splice (splice l off [a; b]) off (be16 v) = splice l off (be16 v).
Proof.
  intros. destruct (copy_twice l off a b v) as [_ E]; [done..|]. unfold copy_at in E.
  case_in E; [|done]. by simplify_eq.
Qed.

(** Zeroing the transport checksum field, recomputing and storing makes the
    segment verify; [zf] is UDP's "0 means none" substitution. *)
Lemma store_transport lay part field zf :
  part_ok lay part → l_transport lay ≤ field → field + 2 ≤ len part →
  Nat.Even (Z.to_nat (field - l_transport lay)) →
  ∃ c, transport_checksum lay (splice part field [0; 0]) = Ok c ∧
    let v := if zf && (c =? 0) then 0xffff else c in
    is_u16 v ∧ (zf = true → v ≠ 0) ∧ transport_checksum lay (splice part field (be16 v)) = Ok 0.
Proof.
  intros Hp Ht Hl He. pose proof Hp as (Hok & Hip & _ & Htr & Hlen).
  assert (Hip' : l_ip lay ≤ l_transport lay) by (destruct (l_ipv4 lay); lia).
  assert (Hpz : part_ok lay (splice part field [0; 0])).
  { apply (part_ok_edited lay [(field, 2)] part); auto 10 with vmlab.
    apply (edited_splice part field [0; 0]); [lia|done]. }
  destruct (pseudo_even _ _ Hp) as [Hev Hpl]. pose proof (pseudo_ok _ _ Hp) as Hpok.
  rewrite transport_checksum_eq by done. rewrite pseudo_splice by done.
  rewrite drop_splice_hi by (change (len [0; 0]) with 2; lia).
  set (body := drop (Z.to_nat (l_transport lay)) part).
  replace (field - Z.of_nat (Z.to_nat (l_transport lay))) with (field - l_transport lay) by lia.
  remember (field - l_transport lay) as off eqn:Hoff.
  assert (Hbl : len body = len part - l_transport lay) by (unfold body; rewrite len_drop; lia).
  assert (Hbok : bytes_ok body) by (unfold body; auto with vmlab).
  set (msg := pseudo lay part ++ splice body off [0; 0]).
  assert (Hmok : bytes_ok msg) by (unfold msg; auto 10 with vmlab).
  assert (Hml : len msg = len (pseudo lay part) + len body).
  { unfold msg. rewrite len_app, len_splice; [done|lia|change (len [0; 0]) with 2; lia]. }
  assert (Hmb : len msg ≤ 131074) by (rewrite Hml, Hpl; destruct (l_ipv4 lay); lia).
  exists (internet_checksum msg). split; [done|]. cbv zeta.
  set (v := if zf && _ then 65535 else _).
  assert (Hv : v = internet_checksum msg ∨ v = 65535 ∧ internet_checksum msg = 0).
  { unfold v. destruct zf; cbn; [|by left]. destruct (_ =? 0) eqn:?; bsplit; [right|left]; done. }
  assert (Hvu : is_u16 v).
  { destruct Hv as [->|[-> _]]; [by apply internet_checksum_u16|auto with vmlab]. }
  split; [done|]. split.
  { intros ->. unfold v. cbn. destruct (_ =? 0) eqn:?; bsplit; lia. }
  assert (Hps : part_ok lay (splice part field (be16 v))).
  { apply (part_ok_edited lay [(field, 2)] part); auto 10 with vmlab.
    apply (edited_splice part field (be16 v)); [lia|done]. }
  rewrite transport_checksum_eq by done. rewrite pseudo_splice by done.
  rewrite drop_splice_hi by (rewrite ?len_be16; lia). fold body.
  replace (field - Z.of_nat (Z.to_nat (l_transport lay))) with off by lia.
  assert (Hsp : pseudo lay part ++ splice body off (be16 v)
    = splice msg (len (pseudo lay part) + off) (be16 v)).
  { unfold msg. rewrite splice_app_r by lia. by rewrite splice_twice by lia. }
  pose proof (len_nonneg (pseudo lay part)). rewrite Hsp. f_equal. apply checksum_stored_verifies; try done.
  - rewrite Z2Nat.inj_add, to_nat_len by lia. destruct Hev as [x ->], He as [y ->]. exists (x + y)%nat. lia.
  - lia.
  - rewrite Hml. lia.
  - unfold msg. rewrite idx_app_r, idx_splice_in by (change (len [0; 0]) with 2; lia).
    by replace (_ - _ - _) with 0 by lia.
  - unfold msg. rewrite idx_app_r, idx_splice_in by (change (len [0; 0]) with 2; lia).
    by replace (_ - _ - _) with 1 by lia.
Qed.

Lemma lift_copy (part : bytes) off src :
  0 ≤ off → off + len src ≤ len part → lift (copy_at part off src) = Ok (splice part off src).
Proof. intros. by rewrite copy_at_ret. Qed.

Definition ip_ranges (lay : Layout) : list (Z * Z) :=
  if l_ipv4 lay then [(l_ip lay + 2, 2); (l_ip lay + 4, 2); (l_ip lay + 10, 2)]
  else [(l_ip lay + 4, 2)].

(** The IPv4 header of a segment, as the parser of [Frame] reads it. *)
Definition ipv4_segment (lay : Layout) (frame part : bytes) (index : Z) : Prop :=
  u16_at part (l_ip lay + 2) = len part - l_ip lay ∧
  u16_at part (l_ip lay + 4) = wrap16 (u16_at frame (l_ip lay + 4) + index) ∧
  internet_checksum (slice part (l_ip lay) (l_transport lay)) = 0.

Lemma segment_ip_spec frame lay index part :
  part_ok lay part → l_transport lay ≤ len frame → 0 ≤ index →
  ∃ part', segment_ip frame lay index part = Ok part' ∧ bytes_ok part' ∧
    edited (ip_ranges lay) part part' ∧
    if l_ipv4 lay then ipv4_segment lay frame part' index
    else u16_at part' (l_ip lay + 4) = len part - l_ip lay - 40.
Proof.
  intros Hp Hfl Hidx. pose proof Hp as (Hok & Hip & _ & Ht & Hl).
  unfold segment_ip, ip_ranges, ipv4_segment. revert Ht. destruct (l_ipv4 lay); intros Ht.
  2:{ rewrite (proj2 (Z.ltb_ge _ _)) by lia. rewrite lift_copy by (rewrite ?len_be16; lia).
      eexists. split; [done|]. split; [auto 10 with vmlab|].
      split; [by apply (edited_splice part _ (be16 _)); rewrite ?len_be16; lia|].
      apply u16_at_splice; lia. }
  rewrite (proj2 (Z.ltb_ge _ _)) by lia.
  rewrite lift_copy by (rewrite ?len_be16; lia). cbn [mbind io_bind].
  rewrite get_be16_ret by lia. cbn [mbind io_bind].
  assert (Wid : wrap16 (u16_at frame (l_ip lay + 4) + wrap16 index)
    = wrap16 (u16_at frame (l_ip lay + 4) + index))
    by (unfold wrap16; by rewrite Z.add_mod_idemp_r by lia).
  rewrite Wid. set (id := wrap16 _). assert (is_u16 id) by (unfold id, wrap16, is_u16; apply Z.mod_pos_bound; lia).
  set (p1 := splice part (l_ip lay + 2) _).
  assert (L1 : len p1 = len part) by (apply len_splice; rewrite ?len_be16; lia).
  rewrite lift_copy by (rewrite ?len_be16; lia). cbn [mbind io_bind].
  set (p2 := splice p1 (l_ip lay + 4) _).
  assert (L2 : len p2 = len part) by (unfold p2; rewrite len_splice; rewrite ?len_be16; lia).
  assert (Ok2 : bytes_ok p2) by (unfold p2, p1; auto 10 with vmlab).
  rewrite lift_copy by (change (len [0; 0]) with 2; lia). cbn [mbind io_bind].
  rewrite slice_chk_ret by (rewrite ?len_splice; change (len [0; 0]) with 2; lia). cbn [mbind io_bind lift].
  rewrite slice_splice_in by (change (len [0; 0]) with 2; lia).
  replace (l_ip lay + 10 - l_ip lay) with 10 by lia.
  set (hdr := slice p2 (l_ip lay) (l_transport lay)).
  assert (Hhl : len hdr = l_transport lay - l_ip lay) by (apply len_slice; lia).
  rewrite checksum_internet. set (c := internet_checksum (splice hdr 10 [0; 0])).
  assert (Hz : len (splice hdr 10 [0; 0]) = len hdr) by (apply len_splice; change (len [0; 0]) with 2; lia).
  assert (Hzok : bytes_ok (splice hdr 10 [0; 0])) by (unfold hdr; auto 10 with vmlab).
  assert (Hcu : is_u16 c) by (apply internet_checksum_u16; [done|lia]).
  rewrite lift_copy by (rewrite ?len_splice; rewrite ?len_be16; change (len [0; 0]) with 2; lia).
  rewrite splice_twice by lia. set (p3 := splice p2 (l_ip lay + 10) (be16 c)).
  exists p3. split; [done|]. split; [unfold p3; auto with vmlab|].
  assert (E1 : edited [(l_ip lay + 2, 2)] part p1) by (apply (edited_splice part _ (be16 _)); rewrite ?len_be16; lia).
  assert (E2 : edited [(l_ip lay + 4, 2)] p1 p2) by (apply (edited_splice p1 _ (be16 _)); rewrite ?len_be16; lia).
  assert (E3 : edited [(l_ip lay + 10, 2)] p2 p3) by (apply (edited_splice p2 _ (be16 _)); rewrite ?len_be16; lia).
  split; [exact (edited_trans _ _ _ _ _ E1 (edited_trans _ _ _ _ _ E2 E3))|].
  split.
  { rewrite (edited_len _ _ _ E3), L2.
    rewrite (u16_at_edited _ _ _ _ (edited_trans _ _ _ _ _ E2 E3)) by (lia || (intros; ranges)).
    apply u16_at_splice; lia. }
  split.
  { rewrite (u16_at_edited _ _ _ _ E3) by (lia || (intros; ranges)). apply u16_at_splice; lia. }
  unfold p3. rewrite slice_splice_in by (rewrite ?len_be16; lia). fold hdr.
  replace (l_ip lay + 10 - l_ip lay) with 10 by lia.
  rewrite <-(splice_twice hdr 10 0 0) by lia. apply checksum_stored_verifies; auto; try lia.
  - by exists 5%nat.
  - rewrite idx_splice_in by (change (len [0; 0]) with 2; lia). done.
  - rewrite idx_splice_in by (change (len [0; 0]) with 2; lia). done.
Qed.

Definition l4_ranges (lay : Layout) (tcp : bool) : list (Z * Z) :=
  let t := l_transport lay in if tcp then [(t + 4, 4); (t + 13, 1)] else [(t + 4, 2)].

Lemma land_u8 a m : is_u8 a → is_u8 (Z.land a m).
Proof.
  intros Ha. assert (E : Z.land a (Z.ones 8) = a).
  { rewrite Z.land_ones by lia. apply Z.mod_small. exact Ha. }
  rewrite <-E, <-Z.land_assoc, (Z.land_comm _ m), Z.land_assoc, Z.land_ones by lia.
  unfold is_u8. apply (Z.mod_pos_bound _ (2 ^ 8)). lia.
Qed.

Lemma mask_at_spec part at_ m :
  bytes_ok part → 0 ≤ at_ < len part → 0 ≤ m →
  ∃ part', mask_at part at_ m = Ok part' ∧ bytes_ok part' ∧ edited [(at_, 1)] part part' ∧
    idx part' at_ = Z.land (idx part at_) m.
Proof.
  intros Hok Hat Hm. unfold mask_at. rewrite idx_chk_ret by done. cbn [lift mbind io_bind].
  set (b := Z.land (idx part at_) m).
  assert (Hb : is_u8 b).
  { apply land_u8. auto with vmlab. }
  rewrite lift_copy by (change (len [b]) with 1; lia). eexists. split; [done|].
  split; [auto 10 with vmlab|]. split; [apply (edited_splice part at_ [b]); change (len [b]) with 1; lia|].
  rewrite idx_splice_in by (change (len [b]) with 1; lia). by rewrite Z.sub_diag.
Qed.

(** The flag byte a TCP segment of a burst carries: FIN and PSH only on the
    last one, CWR only on the first. *)
Definition segment_flags (f index count : Z) : Z :=
  let f := if negb (index + 1 =? count) then Z.land f (not8 (Z.lor 1 8)) else f in
  if negb (index =? 0) then Z.land f (not8 128) else f.

Lemma segment_l4_spec frame lay (tcp : bool) index count offset part :
  part_ok lay part → bytes_ok frame → 0 ≤ l_transport lay →
  l_transport lay + (if tcp then 20 else 8) ≤ len part →
  l_transport lay + (if tcp then 20 else 8) ≤ len frame →
  ∃ part', segment_l4 frame lay tcp index count offset part
      = Ok (part', l_transport lay + if tcp then 16 else 6) ∧ bytes_ok part' ∧
    edited (l4_ranges lay tcp) part part' ∧
    if tcp
    then u32_at part' (l_transport lay + 4) = wadd32 (u32_at frame (l_transport lay + 4)) offset ∧
         idx part' (l_transport lay + 13) = segment_flags (idx part (l_transport lay + 13)) index count
    else u16_at part' (l_transport lay + 4) = len part - l_transport lay.
Proof.
  intros (Hok & Hip & _ & Htr & Hl) Hfok Ht Hpl Hfl. unfold segment_l4, l4_ranges.
  assert (l_ip lay ≤ l_transport lay) by (destruct (l_ipv4 lay); lia). clear Htr.
  remember (l_transport lay) as t eqn:Et. destruct tcp.
  2:{ assert (W : wrap16 (len part - t) = len part - t).
      { unfold wrap16. apply Z.mod_small. lia. }
      rewrite W. rewrite lift_copy by (rewrite ?len_be16; lia). cbn [mbind io_bind].
      eexists. split; [done|]. split; [auto 10 with vmlab|].
      split; [by apply (edited_splice part _ (be16 _)); rewrite ?len_be16; lia|].
      apply u16_at_splice; lia. }
  rewrite slice_chk_ret by lia. cbn [mbind io_bind lift].
  assert (Hsq : u32_at (slice frame (t + 4) (t + 8)) 0 = u32_at frame (t + 4)).
  { unfold u32_at. rewrite !idx_slice by lia. by rewrite !Z.add_assoc, Z.add_0_r. }
  rewrite Hsq. assert (W : wadd32 (u32_at frame (t + 4)) (wrap32 offset) = wadd32 (u32_at frame (t + 4)) offset)
    by (unfold wadd32, wrap32; by rewrite Z.add_mod_idemp_r by lia).
  rewrite W. set (sq := wadd32 _ _).
  assert (is_u32 sq) by (unfold sq, wadd32, wrap32, is_u32; apply Z.mod_pos_bound; lia).
  rewrite lift_copy by (rewrite ?len_be32; lia). cbn [mbind io_bind].
  set (p1 := splice part (t + 4) (be32 sq)).
  assert (O1 : bytes_ok p1) by (unfold p1; auto with vmlab).
  assert (E1 : edited [(t + 4, 4)] part p1) by (apply (edited_splice part _ (be32 _)); rewrite ?len_be32; lia).
  pose proof (edited_len _ _ _ E1) as L1.
  assert (Hm : ∀ (c : bool) m p, bytes_ok p → len p = len part → 0 ≤ m →
    ∃ p', (if c then mask_at p (t + 13) m else Ok p) = Ok p' ∧ bytes_ok p' ∧ edited [(t + 13, 1)] p p' ∧
      idx p' (t + 13) = if c then Z.land (idx p (t + 13)) m else idx p (t + 13)).
  { intros c m p Hp Hlp Hm0. destruct c; [apply mask_at_spec; [done|lia|done]|].
    exists p. split; [done|]. split; [done|]. split; [apply edited_refl|done]. }
  destruct (Hm (negb (index + 1 =? count)) (not8 (Z.lor 1 8)) p1) as (p2 & -> & O2 & E2 & F2);
    [done..|]. cbn [mbind io_bind].
  pose proof (edited_len _ _ _ E2) as L2.
  destruct (Hm (negb (index =? 0)) (not8 128) p2) as (p3 & -> & O3 & E3 & F3); [done|lia|done|].
  cbn [mbind io_bind]. exists p3. split; [done|]. split; [done|].
  split. { apply (edited_weaken ([(t + 4, 4)] ++ [(t + 13, 1)] ++ [(t + 13, 1)]));
             [intros i; ranges|eauto using edited_trans]. }
  split.
  - pose proof (edited_trans _ _ _ _ _ E2 E3) as E23. unfold u32_at.
    rewrite !(edited_idx _ _ _ _ E23) by (lia || ranges).
    unfold p1. rewrite !idx_splice_in by (rewrite ?len_be32; lia).
    replace (t + 4 - (t + 4)) with 0 by lia. replace (t + 4 + 1 - (t + 4)) with 1 by lia.
    replace (t + 4 + 2 - (t + 4)) with 2 by lia. replace (t + 4 + 3 - (t + 4)) with 3 by lia.
    exact (of_be32_be32 sq).
  - rewrite F3, F2. unfold segment_flags.
    rewrite (edited_idx _ _ _ _ E1) by (lia || ranges). by repeat case_goal.
Qed.

(** Everything one iteration promises about its segment. *)
Record segment_ok (frame : bytes) (lay : Layout) (tcp : bool) (payload offset index count : Z)
    (chunk part : bytes) : Prop := {
  seg_bytes : bytes_ok part;
  seg_edits : edited (ip_ranges lay ++ l4_ranges lay tcp ++ [(l_transport lay + (if tcp then 16 else 6), 2)])
                (slice frame 0 payload ++ chunk) part;
  seg_ip : if l_ipv4 lay then ipv4_segment lay frame part index
           else u16_at part (l_ip lay + 4) = len part - l_ip lay - 40;
  seg_l4 : if tcp
           then u32_at part (l_transport lay + 4)
                  = wadd32 (u32_at frame (l_transport lay + 4)) offset ∧
                idx part (l_transport lay + 13)
                  = segment_flags (idx frame (l_transport lay + 13)) index count
           else u16_at part (l_transport lay + 4) = len part - l_transport lay ∧
                u16_at part (l_transport lay + 6) ≠ 0;
  seg_csum : transport_checksum lay part = Ok 0;
}.

Section segment.
Context (frame : bytes) (lay : Layout) (tcp : bool) (payload size : Z).
Context (Hok : bytes_ok frame) (Hlay : layout_ok frame lay)
  (Hpay : l_transport lay + (if tcp then 20 else 8) ≤ payload ≤ len frame)
  (Hsize : 1 ≤ size) (Hfit : payload - l_ip lay + size ≤ 65535).

Let data := slice frame payload (len frame).
Let count := Z.max (div_ceil (len data) size) 1.
Definition chunk_of (index : Z) : bytes :=
  slice data (index * size) (Z.min (index * size + size) (len data)).

Lemma count_bounds :
  1 ≤ count ∧ (count - 1) * size ≤ len data ≤ count * size ∧
  (0 < len data → (count - 1) * size < len data).
Proof using Hsize.
  unfold count, div_ceil. pose proof (len_nonneg data). set (n := len data) in *. clearbody n.
  pose proof (Z.div_mod (n + size - 1) size ltac:(lia)).
  pose proof (Z.mod_pos_bound (n + size - 1) size ltac:(lia)).
  set (q := (n + size - 1) / size) in *. clearbody q.
  assert (0 ≤ q) by nia.
  destruct (decide (q = 0)) as [->|]; [rewrite Z.max_r by lia; lia|rewrite Z.max_l by lia; nia].
Qed.

Lemma chunk_bounds index :
  0 ≤ index < count →
  0 ≤ index * size ≤ Z.min (index * size + size) (len data) ∧
  len (chunk_of index) = Z.min (index * size + size) (len data) - index * size ∧
  bytes_ok (chunk_of index).
Proof using Hsize Hok.
  intros Hi. destruct count_bounds as (_ & Hc & _).
  assert (index * size ≤ len data) by nia.
  assert (0 ≤ index * size) by nia.
  split; [lia|]. unfold chunk_of. rewrite len_slice by lia. split; [done|].
  unfold data. auto with vmlab.
Qed.

Lemma segment_spec index :
  0 ≤ index < count →
  ∃ part, segment frame lay tcp payload size count data index = Ok part ∧
    segment_ok frame lay tcp payload (index * size) index count (chunk_of index) part.
Proof using Hok Hlay Hpay Hsize Hfit.
  intros Hi. destruct (chunk_bounds index Hi) as (Hoff & Hcl & Hcok).
  pose proof Hlay as (Hip & Hpr & Hfl & _). destruct (layout_transport _ _ Hlay) as [Htr Ht0].
  assert (Hmin : 8 ≤ (if tcp then 20 else 8)) by (destruct tcp; lia).
  unfold segment. rewrite slice_chk_ret by lia. cbn [lift mbind io_bind].
  rewrite slice_chk_ret by lia. cbn [lift mbind io_bind]. fold (chunk_of index).
  set (part0 := slice frame 0 payload ++ chunk_of index).
  assert (L0 : len part0 = payload + len (chunk_of index))
    by (unfold part0; rewrite len_app, len_slice by lia; lia).
  pose proof (len_nonneg (chunk_of index)) as Hc0.
  assert (P0 : part_ok lay part0).
  { split; [unfold part0; auto with vmlab|]. split; [done|].
    split; [destruct Hpr as [-> | ->]; auto with vmlab|]. split; lia. }
  destruct (segment_ip_spec frame lay index part0 P0) as (p1 & -> & O1 & E1 & F1); [lia|lia|].
  cbn [mbind io_bind]. pose proof (part_ok_edited _ _ _ _ P0 O1 E1) as P1.
  pose proof (edited_len _ _ _ E1) as L1.
  destruct (segment_l4_spec frame lay tcp index count (index * size) p1 P1 Hok)
    as (p2 & -> & O2 & E2 & F2); [lia|destruct tcp; lia|destruct tcp; lia|].
  cbn [mbind io_bind]. pose proof (part_ok_edited _ _ _ _ P1 O2 E2) as P2.
  pose proof (edited_len _ _ _ E2) as L2.
  set (field := l_transport lay + if tcp then 16 else 6).
  assert (Hf : l_transport lay ≤ field ∧ field + 2 ≤ len p2) by (unfold field; destruct tcp; lia).
  rewrite lift_copy by (change (len [0; 0]) with 2; lia). cbn [mbind io_bind].
  destruct (store_transport lay p2 field (negb tcp) P2) as (c & -> & Hc); [lia|lia| |].
  { unfold field. replace (l_transport lay + _ - _) with (if tcp then 16 else 6) by lia.
    destruct tcp; [by exists 8%nat|by exists 3%nat]. }
  cbn [mbind io_bind]. cbv zeta in Hc. set (v := if negb tcp && (c =? 0) then 65535 else c) in *.
  destruct Hc as (Hvu & Hv0 & Hver).
  assert (Hst : lift (copy_at (splice p2 field [0; 0]) field (be16 v)) = Ok (splice p2 field (be16 v))).
  { destruct (copy_twice p2 field 0 0 v) as [_ ->]; [lia|lia|done]. }
  rewrite Hst. eexists. split; [done|].
  assert (E3 : edited [(field, 2)] p2 (splice p2 field (be16 v)))
    by (apply (edited_splice p2 _ (be16 _)); rewrite ?len_be16; lia).
  pose proof (edited_len _ _ _ E3) as L3.
  assert (Hr2 : ∀ i, in_ranges (l4_ranges lay tcp) i → l_transport lay + 4 ≤ i < l_transport lay + 14)
    by (intros i; unfold l4_ranges; destruct tcp; ranges).
  assert (Hr1 : ∀ i, in_ranges (ip_ranges lay) i → l_ip lay + 2 ≤ i < l_ip lay + 12)
    by (intros i; unfold ip_ranges; destruct (l_ipv4 lay); ranges).
  pose proof (edited_trans _ _ _ _ _ E2 E3) as E23.
  split.
  - auto with vmlab.
  - exact (edited_trans _ _ _ _ _ E1 E23).
  - assert (Hlo : ∀ i, 0 ≤ i → i + 2 ≤ l_transport lay →
      u16_at (splice p2 field (be16 v)) i = u16_at p1 i).
    { intros i Hi0 Hi2. apply (u16_at_edited _ _ _ _ E23); [done|]. intros j Hj.
      rewrite in_ranges_app. intros [?%Hr2|?]; [lia|ranges]. }
    assert (Hhdr : slice (splice p2 field (be16 v)) (l_ip lay) (l_transport lay)
      = slice p1 (l_ip lay) (l_transport lay)).
    { apply idx_ext; rewrite !len_slice by (destruct (l_ipv4 lay); lia); [done|].
      intros i Hi0. rewrite !idx_slice by lia. apply (edited_idx _ _ _ _ E23); [lia|].
      rewrite in_ranges_app. intros [?%Hr2|?]; [lia|ranges]. }
    unfold ipv4_segment in *. rewrite Hhdr. revert F1 Htr. destruct (l_ipv4 lay); intros F1 Htr.
    + rewrite !Hlo by lia. rewrite L3, L2. done.
    + rewrite Hlo by lia. rewrite F1. lia.
  - destruct tcp.
    + destruct F2 as [F2 F2']. split.
      * rewrite <-F2. unfold u32_at. rewrite !(edited_idx _ _ _ _ E3) by (lia || (unfold field; ranges)).
        done.
      * rewrite (edited_idx _ _ _ _ E3) by (lia || (unfold field; ranges)). rewrite F2'. f_equal.
        rewrite (edited_idx _ _ _ _ E1) by (lia || (intros ?%Hr1; destruct (l_ipv4 lay); lia)).
        unfold part0. rewrite idx_app_l by (rewrite len_slice; lia). by rewrite idx_slice, Z.add_0_l by lia.
    + split.
      * rewrite (u16_at_edited _ _ _ _ E3) by (lia || (intros; unfold field; ranges)). lia.
      * fold field. rewrite u16_at_splice by lia. by apply Hv0.
  - done.
Qed.

(** The chunks are the data, in order. *)
Lemma chunks_concat :
  concat (chunk_of <$> seqZ 0 count) = data.
Proof using Hsize.
  clear Hok Hlay Hpay Hfit tcp lay. assert (Hgen : ∀ n : nat, Z.of_nat n ≤ count →
    concat (chunk_of <$> seqZ 0 (Z.of_nat n)) = take (n * Z.to_nat size) data).
  { induction n as [|n IH]; intros Hn; [done|].
    rewrite Nat2Z.inj_succ. unfold Z.succ. rewrite seqZ_app by lia.
    rewrite fmap_app, concat_app, IH by lia. rewrite seqZ_cons, seqZ_nil by lia. cbn [fmap list_fmap concat]. rewrite app_nil_r. unfold chunk_of, slice.
    replace ((S n) * Z.to_nat size)%nat with (n * Z.to_nat size + Z.to_nat size)%nat by lia.
    rewrite <-take_take_drop. f_equal.
    destruct count_bounds as (_ & Hc & _).
    replace (Z.to_nat ((0 + Z.of_nat n) * size)) with (n * Z.to_nat size)%nat by nia.
    rewrite Z.add_0_l.
    destruct (decide (Z.of_nat n * size + size ≤ len data)).
    - f_equal. lia.
    - rewrite !take_ge; [done| |]; rewrite length_drop; unfold len in *; nia. }
  destruct count_bounds as (Hc1 & Hc & _).
  specialize (Hgen (Z.to_nat count)). rewrite Z2Nat.id in Hgen by lia. rewrite Hgen by lia.
  apply take_ge. unfold len in *. nia.
Qed.
End segment.

(** ** The whole packet *)

Lemma collect_spec {A B} (P : A → B → Prop) (f : A → io B) l :
  (∀ x, x ∈ l → ∃ b, f x = Ok b ∧ P x b) → ∃ r, collect (f <$> l) = Ok r ∧ Forall2 P l r.
Proof.
  induction l as [|x l IH]; intros H; cbn; [by exists []; split|].
  destruct (H x) as (b & -> & Hb); [left|]. cbn.
  destruct IH as (r & -> & Hr); [intros; apply H; by right|]. cbn.
  exists (b :: r). split; [done|by constructor].
Qed.

(** The header fields as the struct's types bound them. *)
Definition header_ok (h : Header) : Prop :=
  is_u8 (h_flags h) ∧ is_u8 (h_gso_type h) ∧ is_u16 (h_hdr_len h) ∧
  is_u16 (h_gso_size h) ∧ is_u16 (h_csum_start h) ∧ is_u16 (h_csum_offset h).
#[global] Instance header_ok_dec h : Decision (header_ok h).
Proof. unfold header_ok. apply _. Defined.

Lemma decode_spec l : io_spec (λ _, True) (decode l).
Proof. unfold decode. by repeat case_goal. Qed.

Lemma validate_spec h frame :
  bytes_ok frame →
  io_spec (λ _, 14 ≤ len frame ≤ 65550 ∧
    (needs_csum h = true → h_csum_start h + h_csum_offset h + 2 ≤ len frame)) (validate h frame).
Proof.
  intros Hok. unfold validate, VNET_MAX_FRAME_LEN.
  eapply io_spec_bind; [apply decode_spec|]. intros _ _ _.
  case_goal; [done|]. bsplit. destruct (needs_csum h && _) eqn:Hc; [done|].
  assert (Hn : needs_csum h = true → h_csum_start h + h_csum_offset h + 2 ≤ len frame)
    by (intros Hn; rewrite Hn in Hc; cbn in Hc; bsplit; lia).
  case_goal; [|cbn; split; [lia|done]].
  eapply io_spec_bind; [by apply Layout_parse_spec|]. intros lay _ _.
  case_goal; [done|]. cbn. split; [lia|done].
Qed.

(** Where the payload of a GSO packet starts. *)
Definition gso_payload (frame : bytes) (lay : Layout) : Z :=
  if l_protocol lay =? 6
  then l_transport lay + Z.shiftr (idx frame (l_transport lay + 12)) 4 * 4
  else l_transport lay + 8.

(** [parts] is the segmentation of [frame] in chunks of [size] bytes. *)
Record gso_split (h : Header) (frame : bytes) (mtu : Z) (lay : Layout) (size : Z)
    (parts : list bytes) : Prop := {
  gs_parse : Layout_parse frame = Ok lay;
  gs_fits : l_transport lay + (if l_protocol lay =? 6 then 20 else 8)
              ≤ gso_payload frame lay ≤ len frame;
  gs_size : size = Z.min (mtu - (gso_payload frame lay - l_ip lay)) (h_gso_size h);
  gs_count : len parts = Z.max (div_ceil (len frame - gso_payload frame lay) size) 1;
  gs_size_pos : 1 ≤ size ≤ h_gso_size h;
  gs_mtu : gso_payload frame lay - l_ip lay + size ≤ mtu;
  gs_total : len parts * gso_payload frame lay + (len frame - gso_payload frame lay)
               ≤ MAX_SEGMENT_BYTES;
  gs_data : concat (chunk_of frame (gso_payload frame lay) size <$> seqZ 0 (len parts))
              = slice frame (gso_payload frame lay) (len frame);
  gs_parts : Forall2 (λ index part,
      segment_ok frame lay (l_protocol lay =? 6) (gso_payload frame lay) (index * size)
        index (len parts) (chunk_of frame (gso_payload frame lay) size index) part)
    (seqZ 0 (len parts)) parts;
}.

(** The payload offset [segments] computes. *)
Lemma gso_payload_spec frame lay :
  io_spec (λ p, p = gso_payload frame lay ∧ l_transport lay + (if l_protocol lay =? 6 then 20 else 8) ≤ p)
  (if l_protocol lay =? 6 then
     b ← get_byte frame (l_transport lay + 12);
     let l := Z.shiftr b 4 * 4 in
     if l <? 20 then Err InvalidData else Ok (l_transport lay + l)
   else Ok (l_transport lay + 8)).
Proof.
  unfold gso_payload. destruct (l_protocol lay =? 6); [|cbn; split; [done|lia]].
  eapply io_spec_bind; [apply get_byte_spec|]. intros b _ [_ ->]. cbv zeta.
  case_goal; [done|]. bsplit. cbn. split; [done|lia].
Qed.

Lemma collect_segments frame lay payload size :
  bytes_ok frame → layout_ok frame lay →
  l_transport lay + (if l_protocol lay =? 6 then 20 else 8) ≤ payload ≤ len frame → 1 ≤ size →
  payload - l_ip lay + size ≤ 65535 →
  let data := slice frame payload (len frame) in let count := Z.max (div_ceil (len data) size) 1 in
  ∃ parts, collect (segment frame lay (l_protocol lay =? 6) payload size count data <$> seqZ 0 count) = Ok parts ∧
    Forall2 (λ index part, segment_ok frame lay (l_protocol lay =? 6) payload (index * size) index count
       (chunk_of frame payload size index) part) (seqZ 0 count) parts.
Proof.
  intros Hok Hlay Hpay Hsize Hfit data count. apply collect_spec. intros index Hi%elem_of_seqZ.
  apply segment_spec; try done; lia.
Qed.

Lemma segments_gso h frame mtu :
  header_ok h → bytes_ok frame → is_u16 mtu → h_gso_type h ≠ GSO_NONE →
  io_spec (λ parts, ∃ lay size, gso_split h frame mtu lay size parts) (segments h frame mtu).
Proof.
  intros (_ & _ & _ & Hgs & _ & _) Hok Hmtu Hgso. unfold segments.
  eapply io_spec_bind; [by apply validate_spec|]. intros _ _ _.
  rewrite (proj2 (Z.eqb_neq _ _)) by done.
  eapply io_spec_bind; [by apply Layout_parse_spec|]. intros lay Hparse Hlay.
  eapply io_spec_bind; [apply gso_payload_spec|]. intros payload _ [-> Hpay].
  destruct (layout_transport _ _ Hlay) as [_ Ht0].
  assert (0 ≤ gso_payload frame lay) by (destruct (l_protocol lay =? 6); lia).
  set (payload := gso_payload frame lay) in *.
  destruct (len frame <? payload) eqn:H1; [done|]. bsplit.
  destruct (mtu <? payload - l_ip lay) eqn:H2; [done|]. bsplit.
  set (budget := mtu - (payload - l_ip lay)). set (size := Z.min budget (h_gso_size h)).
  destruct (size =? 0) eqn:H3; [done|]. bsplit.
  assert (Hsize : 1 ≤ size ≤ h_gso_size h ∧ size ≤ budget) by (unfold size, budget in *; ints; lia).
  destruct (negb _ && _); [done|].
  set (data := slice frame payload (len frame)).
  set (count := Z.max (div_ceil (len data) size) 1).
  destruct (MAX_SEGMENT_BYTES <? _) eqn:H4; [done|]. bsplit.
  assert (Hfit : payload - l_ip lay + size ≤ 65535) by (unfold budget in *; ints; lia).
  destruct (collect_segments frame lay payload size Hok Hlay) as (parts & Hc & Hall); [lia..|].
  fold data in Hc, Hall. fold count in Hc, Hall. rewrite Hc.
  exists lay, size.
  assert (Hn : len parts = count).
  { pose proof (Forall2_length _ _ _ Hall) as Hlen. rewrite length_seqZ in Hlen.
    unfold len. rewrite <-Hlen. lia. }
  split; rewrite ?Hn; fold payload; try done; try (unfold budget in *; lia).
  - unfold count, data. by rewrite len_slice by lia.
  - rewrite <-(len_slice frame payload (len frame)) by lia. done.
  - apply chunks_concat. lia.
Qed.

(** ** What a segment is to its receiver *)

Lemma be32_of_be32 a b c d :
  is_u8 a → is_u8 b → is_u8 c → is_u8 d → be32 (of_be32 a b c d) = [a; b; c; d].
Proof.
  unfold is_u8, be32, of_be32. intros.
  assert (E1 : (((a * 256 + b) * 256 + c) * 256 + d) / 256 = (a * 256 + b) * 256 + c)
    by (symmetry; apply (Z.div_unique _ 256 _ d); lia).
  assert (E2 : (((a * 256 + b) * 256 + c) * 256 + d) / 65536 = a * 256 + b)
    by (symmetry; apply (Z.div_unique _ 65536 _ (c * 256 + d)); lia).
  assert (E3 : (((a * 256 + b) * 256 + c) * 256 + d) / 16777216 = a)
    by (symmetry; apply (Z.div_unique _ 16777216 _ ((b * 256 + c) * 256 + d)); lia).
  rewrite E1, E2, E3. f_equal. f_equal; [symmetry; apply (Z.mod_unique _ 256 a); lia|].
  f_equal; [symmetry; apply (Z.mod_unique _ 256 (a * 256 + b)); lia|].
  f_equal. symmetry. apply (Z.mod_unique _ 256 ((a * 256 + b) * 256 + c)); lia.
Qed.

Lemma octets_at buf off :
  bytes_ok buf → 0 ≤ off → off + 4 ≤ len buf → octets (ipv4_at buf off) = slice buf off (off + 4).
Proof.
  intros Hok H0 Hl. unfold octets, ipv4_at. rewrite be32_of_be32 by auto with vmlab.
  apply idx_ext; [rewrite len_slice by lia; change (4 = off + 4 - off); lia|]. intros i Hi. change (len _) with 4 in Hi.
  rewrite idx_slice by lia.
  assert (i = 0 ∨ i = 1 ∨ i = 2 ∨ i = 3) as [->|[->|[->| ->]]] by lia; cbn; by rewrite ?Z.add_0_r.
Qed.

Lemma slice_drop {A} (l : list A) n a b :
  0 ≤ n → 0 ≤ a → slice (drop (Z.to_nat n) l) a b = slice l (n + a) (n + b).
Proof. intros. unfold slice. rewrite drop_drop. f_equal; [lia|]. f_equal. lia. Qed.
Lemma slice_slice_app {A} (l : list A) a b c :
  0 ≤ a ≤ b → b ≤ c → slice l a b ++ slice l b c = slice l a c.
Proof.
  intros. unfold slice. replace (Z.to_nat (c - a)) with (Z.to_nat (b - a) + Z.to_nat (c - b))%nat by lia.
  rewrite <-take_take_drop, drop_drop. do 3 f_equal. lia.
Qed.

Section receiver.
Context (frame : bytes) (lay : Layout) (tcp : bool) (payload offset index count : Z) (chunk part : bytes).
Context (Hok : bytes_ok frame) (Hlay : layout_ok frame lay) (Hcok : bytes_ok chunk)
  (Hpay : l_transport lay + (if tcp then 20 else 8) ≤ payload ≤ len frame)
  (Hfit : payload + len chunk - l_ip lay ≤ 65535)
  (Hseg : segment_ok frame lay tcp payload offset index count chunk part).

Lemma segment_len : len part = payload + len chunk.
Proof using Hpay Hseg Hlay.
  destruct (layout_transport _ _ Hlay). pose proof (edited_len _ _ _ (seg_edits _ _ _ _ _ _ _ _ _ Hseg)) as ->.
  rewrite len_app, len_slice by (destruct tcp; lia). lia.
Qed.

(** Bytes outside the rewritten header fields are the original's. *)
Lemma segment_idx i :
  0 ≤ i < payload →
  ¬ in_ranges (ip_ranges lay ++ l4_ranges lay tcp ++ [(l_transport lay + (if tcp then 16 else 6), 2)]) i →
  idx part i = idx frame i.
Proof using Hpay Hseg Hlay.
  intros Hi Hn. rewrite (edited_idx _ _ _ _ (seg_edits _ _ _ _ _ _ _ _ _ Hseg)) by (lia || done).
  rewrite idx_app_l by (rewrite len_slice by lia; lia). by rewrite idx_slice, Z.add_0_l by lia.
Qed.

Lemma segment_ranges i :
  in_ranges (ip_ranges lay ++ l4_ranges lay tcp ++ [(l_transport lay + (if tcp then 16 else 6), 2)]) i →
  l_ip lay + 2 ≤ i < l_ip lay + 6 ∨ l_ip lay + 10 ≤ i < l_ip lay + 12 ∨
  l_transport lay + 4 ≤ i < l_transport lay + (if tcp then 20 else 8).
Proof using.
  clear Hseg Hpay Hlay Hok Hcok Hfit. unfold ip_ranges, l4_ranges. rewrite !in_ranges_app.
  destruct (l_ipv4 lay), tcp; ranges.
Qed.

Lemma segment_chunk : drop (Z.to_nat payload) part = chunk.
Proof using Hpay Hseg Hlay.
  destruct (layout_transport _ _ Hlay) as [_ Ht].
  pose proof segment_len as Hl. pose proof (len_nonneg chunk).
  apply idx_ext; [rewrite len_drop; destruct tcp; lia|]. intros i Hi. rewrite len_drop in Hi.
  rewrite idx_drop by lia. pose proof Hlay as (Hip & _).
  rewrite (edited_idx _ _ _ _ (seg_edits _ _ _ _ _ _ _ _ _ Hseg)).
  - rewrite idx_app_r by (rewrite len_slice; destruct tcp; lia).
    rewrite len_slice by (destruct tcp; lia). f_equal. destruct tcp; lia.
  - lia.
  - intros [?|[?|?]]%segment_ranges; destruct tcp; destruct (layout_transport _ _ Hlay);
      destruct (l_ipv4 lay); lia.
Qed.

Lemma segment_pseudo (Hv4 : l_ipv4 lay = true) :
  let v := {| ip_buf := drop (Z.to_nat (l_ip lay)) part |} in
  pseudo lay part
    = pseudo_header (ip_src v) (ip_dst v) (l_protocol lay) (len part - l_transport lay).
Proof using Hpay Hseg Hlay.
  destruct (layout_transport _ _ Hlay) as [Htr _]. pose proof segment_len as Hl.
  pose proof Hlay as (Hip & _). pose proof (len_nonneg chunk). pose proof (seg_bytes _ _ _ _ _ _ _ _ _ Hseg).
  unfold pseudo, pseudo_header, ip_src, ip_dst. rewrite Hv4 in *. cbn [ip_buf].
  rewrite !octets_at by (rewrite ?len_drop; auto with vmlab; destruct tcp; lia).
  rewrite !slice_drop by lia.
  replace (l_ip lay + (12 + 4)) with (l_ip lay + 16) by lia.
  replace (l_ip lay + (16 + 4)) with (l_ip lay + 20) by lia.
  rewrite <-(slice_slice_app part (l_ip lay + 12) (l_ip lay + 16) (l_ip lay + 20)) by lia.
  by rewrite <-!app_assoc.
Qed.

(** An IPv4 segment parses, with valid header and transport checksums. *)
Lemma segment_ipv4_view (Hv4 : l_ipv4 lay = true) :
  let v := {| ip_buf := drop (Z.to_nat (l_ip lay)) part |} in
  Ipv4View_parse (ip_buf v) = Some v ∧ ip_checksum_valid v = true ∧
  proto v = l_protocol lay ∧ ip_id v = wrap16 (u16_at frame (l_ip lay + 4) + index) ∧
  ip_payload v = drop (Z.to_nat (l_transport lay)) part ∧
  l4_checksum (ip_src v) (ip_dst v) (proto v) (ip_payload v) = Some 0.
Proof using Hpay Hseg Hlay Hok Hfit.
  intros v. destruct (layout_transport _ _ Hlay) as [Htr _]. pose proof segment_len as Hl.
  pose proof Hlay as (Hip & _ & _ & Hlip). pose proof (len_nonneg chunk) as Hc0.
  pose proof (seg_bytes _ _ _ _ _ _ _ _ _ Hseg) as Hpok.
  pose proof (seg_ip _ _ _ _ _ _ _ _ _ Hseg) as Hsip.
  pose proof (seg_csum _ _ _ _ _ _ _ _ _ Hseg) as Hcs.
  rewrite Hv4 in *. destruct Hlip as (Hver & Htl & _ & Hpr). destruct Hsip as (Hs1 & Hs2 & Hs3).
  assert (Hmin : 8 ≤ if tcp then 20 else 8) by (destruct tcp; lia).
  assert (Hidx : ∀ i, 0 ≤ i → idx (ip_buf v) i = idx part (l_ip lay + i)).
  { intros i Hi. unfold v. cbn [ip_buf]. rewrite idx_drop by lia. f_equal. lia. }
  assert (Hkeep : ∀ i, i = l_ip lay ∨ i = l_ip lay + 9 → idx part i = idx frame i).
  { intros i Hi. apply segment_idx; [lia|]. intros [?|[?|?]]%segment_ranges; lia. }
  assert (H0 : idx (ip_buf v) 0 = idx frame (l_ip lay))
    by (rewrite Hidx, Z.add_0_r by lia; apply Hkeep; auto).
  assert (Hu16 : ∀ i, 0 ≤ i → u16_at (ip_buf v) i = u16_at part (l_ip lay + i)).
  { intros i Hi. unfold u16_at. rewrite !Hidx by lia. by rewrite Z.add_assoc. }
  assert (Hhl : header_len v = l_transport lay - l_ip lay).
  { unfold header_len, ihl. rewrite H0. lia. }
  assert (Htot : total_len v = len part - l_ip lay) by (unfold total_len; rewrite Hu16 by lia; done).
  assert (Hbl : len (ip_buf v) = len part - l_ip lay) by (unfold v; cbn [ip_buf]; rewrite len_drop; lia).
  assert (Hprv : proto v = l_protocol lay).
  { unfold proto. rewrite Hidx by lia. rewrite Hkeep by auto. done. }
  assert (Hpl : ip_payload v = drop (Z.to_nat (l_transport lay)) part).
  { unfold ip_payload. rewrite Hhl, Htot. unfold v. cbn [ip_buf]. rewrite slice_drop by lia.
    replace (l_ip lay + (l_transport lay - l_ip lay)) with (l_transport lay) by lia.
    apply slice_to_end; lia. }
  split. { apply Ipv4View_parse_intro; rewrite ?H0, ?Hu16 by lia; lia || done. }
  split. { unfold ip_checksum_valid. rewrite Hhl. unfold v. cbn [ip_buf]. rewrite slice_drop by lia.
           rewrite Z.add_0_r. replace (l_ip lay + (l_transport lay - l_ip lay)) with (l_transport lay) by lia.
           by rewrite Hs3. }
  split; [done|]. split; [unfold ip_id; rewrite Hu16 by lia; done|]. split; [done|].
  rewrite Hprv, Hpl. rewrite transport_checksum_eq in Hcs.
  - injection Hcs as Hcs. rewrite segment_pseudo in Hcs by done. fold v in Hcs.
    rewrite l4_checksum_eq by (rewrite len_drop; lia).
    replace (len (drop _ part)) with (len part - l_transport lay) by (rewrite len_drop; lia).
    by rewrite Hcs.
  - split; [done|]. split; [done|]. split; [rewrite Hpr; auto with vmlab|]. rewrite Hv4. lia.
Qed.
End receiver.

(** ** Codec *)

Lemma of_le16_le16 n : of_le16 (n mod 256) (n / 256) = n.
Proof. unfold of_le16. pose proof (Z.div_mod n 256 ltac:(lia)). lia. Qed.

Lemma decode_encode h : decode (encode h) = if header_bad h then Err InvalidData else Ok h.
Proof.
  unfold decode. change (len (encode h) <? 10) with false. cbv zeta.
  match goal with |- context [header_bad ?x] => assert (x = h) as -> end; [|done].
  destruct h as [f g a b c d]. f_equal; first [reflexivity|exact (of_le16_le16 _)].
Qed.

Lemma metadata_roundtrip h q frame :
  is_u16 q →
  from_metadata (metadata h q ++ frame) =
    match validate h frame with Ok _ => Ok (h, q, frame) | Err k => Err k | Crash => Crash end.
Proof.
  intros Hq. unfold from_metadata. assert (Hl : len (metadata h q) = 16) by done.
  rewrite (proj2 (Z.ltb_ge _ _)) by (unfold METADATA_LEN; rewrite len_app; len_lia).
  pose proof (len_nonneg frame).
  rewrite !get_be16_ret by (rewrite ?len_app; lia). cbn [mbind io_bind].
  assert (u16_at (metadata h q ++ frame) 0 = 1) as -> by done. cbn [Z.eqb negb Pos.eqb].
  assert (u16_at (metadata h q ++ frame) 2 = q) as -> by exact (of_be16_be16 q).
  assert (slice (metadata h q ++ frame) 4 METADATA_LEN = encode h) as ->.
  { rewrite slice_app_l by (unfold METADATA_LEN; lia). done. }
  assert (slice (metadata h q ++ frame) METADATA_LEN (len (metadata h q ++ frame)) = frame) as ->.
  { rewrite slice_to_end by (done || lia). done. }
  unfold validate. rewrite decode_encode. destruct (header_bad h) eqn:Hb; [done|]. cbn [mbind io_bind].
  rewrite decode_encode, Hb. cbn [mbind io_bind].
  repeat case_goal; done.
Qed.

(** ** Completing a partial checksum *)

Lemma splice_self l off :
  bytes_ok l → 0 ≤ off → off + 2 ≤ len l → splice l off (be16 (u16_at l off)) = l.
Proof.
  intros Hok H0 Hl. apply idx_ext; [by rewrite len_splice|]. rewrite len_splice by done. intros i Hi.
  destruct (decide (off ≤ i < off + 2)) as [Hin|].
  - unfold u16_at. rewrite be16_of_be16 by auto with vmlab.
    rewrite idx_splice_in by (change (len [_; _]) with 2; lia).
    assert (i = off ∨ i = off + 1) as [-> | ->] by lia;
      [by rewrite Z.sub_diag|by replace (off + 1 - off) with 1 by lia].
  - apply idx_splice_out; rewrite ?len_be16; lia.
Qed.

Lemma sum_be16_replace l off v :
  bytes_ok l → Nat.Even (Z.to_nat off) → 0 ≤ off → off + 2 ≤ len l → is_u16 v →
  sum_be16 (splice l off (be16 v)) 0 + u16_at l off = sum_be16 l 0 + v.
Proof.
  intros Hok He H0 Hl Hv. set (z := splice l off [0; 0]).
  assert (Hz : len z = len l) by (by apply len_splice).
  assert (Z0 : idx z off = 0)
    by (unfold z; rewrite idx_splice_in by (change (len [0; 0]) with 2; lia); by rewrite Z.sub_diag).
  assert (Z1 : idx z (off + 1) = 0)
    by (unfold z; rewrite idx_splice_in by (change (len [0; 0]) with 2; lia);
        by replace (off + 1 - off) with 1 by lia).
  assert (Hs : ∀ w, is_u16 w → sum_be16 (splice l off (be16 w)) 0 = sum_be16 z 0 + w).
  { intros w Hw. rewrite <-(splice_twice l off 0 0 w) by done. apply sum_be16_splice; done || lia. }
  pose proof (Hs (u16_at l off) ltac:(auto with vmlab)) as Hl'. rewrite splice_self in Hl' by done.
  rewrite Hs by done. lia.
Qed.

Lemma oc_norm_mod s : 0 ≤ s → oc_norm s mod 65535 = s mod 65535.
Proof.
  intros Hs. unfold oc_norm. case_goal; bsplit; [by subst|].
  rewrite Z.add_mod_idemp_r by lia. f_equal. lia.
Qed.

Lemma complete_checksum_spec h frame :
  header_ok h → bytes_ok frame → needs_csum h = true → 14 ≤ len frame ≤ 65550 →
  h_csum_start h + h_csum_offset h + 2 ≤ len frame → Nat.Even (Z.to_nat (h_csum_offset h)) →
  let field := h_csum_start h + h_csum_offset h in
  ∃ out, complete_checksum h frame = Ok out ∧ edited [(field, 2)] frame out ∧
    u16_at out field ≠ 0 ∧
    ∀ seed, seed mod 65535 = u16_at frame field mod 65535 →
      (seed + sum_be16 (drop (Z.to_nat (h_csum_start h)) out) 0) mod 65535 = 0.
Proof.
  intros (_ & _ & _ & _ & Hst & Hco) Hok Hn Hlen Hf He field. ints. unfold complete_checksum. rewrite Hn.
  rewrite slice_tail by lia. cbn [lift mbind io_bind].
  set (body := drop _ frame). assert (Hbl : len body = len frame - h_csum_start h)
    by (unfold body; rewrite len_drop; lia).
  assert (Hbok : bytes_ok body) by (unfold body; auto with vmlab).
  rewrite checksum_internet, internet_checksum_norm by (done || lia).
  pose proof (oc_norm_range (sum_be16 body 0)) as Hr. pose proof (sum_be16_nonneg body Hbok) as Hnn.
  set (v := if _ =? 0 then 65535 else _).
  assert (Hv : v mod 65535 = (65535 - oc_norm (sum_be16 body 0)) mod 65535 ∧ 1 ≤ v ≤ 65535).
  { unfold v. case_goal; bsplit; split; try lia; done || idtac.
    by replace (65535 - oc_norm (sum_be16 body 0)) with 0 by lia. }
  fold field. rewrite lift_copy by (unfold field; rewrite ?len_be16; lia).
  eexists. split; [done|]. split; [by apply (edited_splice frame field (be16 v)); unfold field; rewrite ?len_be16; lia|].
  split; [rewrite u16_at_splice by (unfold field; lia); lia|]. intros seed Hseed.
  rewrite drop_splice_hi by (unfold field; rewrite ?len_be16; lia). fold body.
  replace (field - Z.of_nat (Z.to_nat (h_csum_start h))) with (h_csum_offset h) by (unfold field; lia).
  pose proof (sum_be16_replace body (h_csum_offset h) v Hbok He ltac:(lia) ltac:(lia)
    ltac:(unfold is_u16; lia)) as Hsum.
  assert (Hu : u16_at body (h_csum_offset h) = u16_at frame field).
  { unfold u16_at, body, field. rewrite !idx_drop by lia. f_equal; f_equal; lia. }
  rewrite Hu in Hsum. replace (sum_be16 (splice body _ _) 0) with (sum_be16 body 0 + v - u16_at frame field) by lia.
  pose proof (oc_norm_mod (sum_be16 body 0) Hnn) as Hoc. destruct Hv as [Hvm _].
  set (s := sum_be16 body 0) in *. set (o := oc_norm s) in *. set (u := u16_at frame field) in *.
  clearbody s o u v. rewrite (Z.mod_eq seed), (Z.mod_eq u) in Hseed by lia.
  rewrite (Z.mod_eq v), (Z.mod_eq (65535 - o)) in Hvm by lia. rewrite (Z.mod_eq o), (Z.mod_eq s) in Hoc by lia.
  apply Z.mod_divide; [lia|].
  exists (seed / 65535 - u / 65535 + (s / 65535 - o / 65535) + v / 65535 - (65535 - o) / 65535 + 1). lia.
Qed.

Lemma segments_safe h frame mtu :
  header_ok h → bytes_ok frame → is_u16 mtu →
  io_spec (λ parts, Forall bytes_ok parts) (segments h frame mtu).
Proof.
  intros Hh Hok Hmtu. destruct (decide (h_gso_type h = GSO_NONE)) as [E|E].
  - unfold segments. eapply io_spec_bind; [by apply validate_spec|]. intros _ _ [Hl Hn].
    rewrite E. change (GSO_NONE =? GSO_NONE) with true. unfold complete_checksum.
    destruct (needs_csum h); [|by repeat constructor]. specialize (Hn eq_refl).
    destruct Hh as (_ & _ & _ & _ & Hst & Hco). ints.
    rewrite slice_tail by lia. cbn [lift mbind io_bind]. rewrite lift_copy by (rewrite ?len_be16; lia).
    cbn. constructor; [|constructor]. apply bytes_ok_splice; [done|]. apply bytes_ok_be16.
    rewrite checksum_internet.
    assert (is_u16 (internet_checksum (drop (Z.to_nat (h_csum_start h)) frame)))
      by (apply internet_checksum_u16; [auto with vmlab|rewrite len_drop; lia]).
    case_goal; [done|done].
  - eapply io_spec_mono; [by apply segments_gso|]. intros parts (lay & size & Hs).
    apply Forall_forall. intros part (i & Hi)%list_elem_of_lookup.
    destruct (Forall2_lookup_r _ _ _ _ _ (gs_parts _ _ _ _ _ _ Hs) Hi) as (x & _ & Hseg). apply Hseg.
Qed.

(** ** Flow hash *)

Lemma pair_leb_total a b : pair_leb a b = false → pair_leb b a = true.
Proof.
  unfold pair_leb. repeat case_bool_decide; try congruence; apply bytes_leb_total.
Qed.
Lemma pair_leb_antisym a b : pair_leb a b = true → pair_leb b a = true → a = b.
Proof.
  destruct a as [a1 a2], b as [b1 b2]. unfold pair_leb. cbn.
  repeat case_bool_decide; try congruence; intros.
  - f_equal; [done|by apply bytes_leb_antisym].
  - exfalso. eauto using bytes_leb_antisym.
Qed.

(** The two (address, port) endpoints the hash covers. *)
Definition flow_ends (lay : Layout) (frame : bytes) : (bytes * bytes) * (bytes * bytes) :=
  let t := l_transport lay in
  let ports := (slice frame t (t + 2), slice frame (t + 2) (t + 4)) in
  if l_ipv4 lay
  then ((slice frame (l_ip lay + 12) (l_ip lay + 16), ports.1),
        (slice frame (l_ip lay + 16) (l_ip lay + 20), ports.2))
  else ((slice frame (l_ip lay + 8) (l_ip lay + 24), ports.1),
        (slice frame (l_ip lay + 24) (l_ip lay + 40), ports.2)).

Definition fnv_ends (a b : bytes * bytes) : Z :=
  fnv_add (fnv_add (fnv_add (fnv_add 2166136261 a.1) a.2) b.1) b.2.

Lemma flow_hash_eq frame lay :
  Layout_parse frame = Ok lay →
  flow_hash frame =
    let '(a, b) := flow_ends lay frame in
    fnv_add (if pair_leb a b then fnv_ends a b else fnv_ends b a) [l_protocol lay].
Proof. intros H. unfold flow_hash, flow_ends, fnv_ends. rewrite H. by destruct (l_ipv4 lay). Qed.

(** ** What the offload code promises *)

(** The total number of bytes in [parts]. *)
Definition total_bytes (parts : list bytes) : Z := len (concat parts).

Lemma gso_chunks h frame mtu lay size parts :
  bytes_ok frame → gso_split h frame mtu lay size parts →
  Forall2 (λ index part, drop (Z.to_nat (gso_payload frame lay)) part
    = chunk_of frame (gso_payload frame lay) size index ∧
    len part = gso_payload frame lay + len (chunk_of frame (gso_payload frame lay) size index))
    (seqZ 0 (len parts)) parts.
Proof.
  intros Hok Hs. pose proof (io_spec_Ok _ _ _ (Layout_parse_spec _ Hok) (gs_parse _ _ _ _ _ _ Hs)) as Hlay.
  pose proof (gs_fits _ _ _ _ _ _ Hs) as Hfit.
  eapply Forall2_impl; [exact (gs_parts _ _ _ _ _ _ Hs)|]. intros index part Hseg. cbn in *.
  split; [by eapply segment_chunk|by eapply segment_len].
Qed.

Lemma concat_chunks (f : Z → bytes) k l (parts : list bytes) :
  Forall2 (λ index part, drop k part = f index ∧ len part = Z.of_nat k + len (f index)) l parts →
  concat (drop k <$> parts) = concat (f <$> l) ∧
  total_bytes parts = len parts * Z.of_nat k + len (concat (f <$> l)).
Proof.
  unfold total_bytes. induction 1 as [|i part l parts [Hd Hl] _ [IH1 IH2]]; cbn; [done|].
  rewrite Hd, IH1. split; [done|]. rewrite !len_app, len_cons, Hl, IH2. lia.
Qed.

Lemma chunk_len_le frame payload size index :
  0 ≤ size → 0 ≤ index * size → len (chunk_of frame payload size index) ≤ size.
Proof.
  intros. unfold chunk_of, slice at 1. rewrite len_take. lia.
Qed.

(** Where the headers of a GSO packet end. *)
Definition headers_end (frame : bytes) (lay : Layout) : Z :=
  l_transport lay + if l_protocol lay =? 6 then 4 * (idx frame (l_transport lay + 12) / 16) else 8.
(** How many payload bytes a segment carries. *)
Definition segment_size (h : Header) (frame : bytes) (mtu : Z) (lay : Layout) : Z :=
  Z.min (mtu - (headers_end frame lay - l_ip lay)) (h_gso_size h).
Definition segment_count (h : Header) (frame : bytes) (mtu : Z) (lay : Layout) : Z :=
  Z.max (div_ceil (len frame - headers_end frame lay) (segment_size h frame mtu lay)) 1.

(** The packets that can be cut for [mtu]: valid ones whose headers are there
    and leave room for a byte, whose UDP datagrams need not be cut further than
    the sender asked, and whose segments together take at most four MiB. *)
Definition segmentable (h : Header) (frame : bytes) (mtu : Z) (lay : Layout) : Prop :=
  let e := headers_end frame lay in
  validate h frame = Ok () ∧ Layout_parse frame = Ok lay ∧
  l_transport lay + (if l_protocol lay =? 6 then 20 else 8) ≤ e ≤ len frame ∧
  e - l_ip lay < mtu ∧ 1 ≤ h_gso_size h ∧
  (l_protocol lay ≠ 6 → Z.min (h_gso_size h) (len frame - e) ≤ mtu - (e - l_ip lay)) ∧
  segment_count h frame mtu lay * e + (len frame - e) ≤ 4 * 1024 * 1024.

(** The [index]-th of [count] segments of [size] payload bytes. *)
Record cut_of (frame : bytes) (lay : Layout) (mtu size count index : Z) (part : bytes) : Prop := {
  so_payload : let e := headers_end frame lay in
    drop (Z.to_nat e) part = slice frame (e + index * size) (Z.min (e + index * size + size) (len frame));
  so_mtu : len part - l_ip lay ≤ mtu;
  so_rest : ∀ i, 0 ≤ i < headers_end frame lay →
    ¬ in_ranges (ip_ranges lay ++ l4_ranges lay (l_protocol lay =? 6)
                  ++ [(l_transport lay + (if l_protocol lay =? 6 then 16 else 6), 2)]) i → idx part i = idx frame i;
  so_tcp : l_protocol lay = 6 →
    u32_at part (l_transport lay + 4) = (u32_at frame (l_transport lay + 4) + index * size) mod 2 ^ 32 ∧
    ∀ b, 0 ≤ b < 8 → Z.testbit (idx part (l_transport lay + 13)) b =
      Z.testbit (idx frame (l_transport lay + 13)) b &&
      (if bool_decide (b = 0 ∨ b = 3) then index + 1 =? count else if b =? 7 then index =? 0 else true);
  so_udp : l_protocol lay = 17 →
    u16_at part (l_transport lay + 4) = len part - l_transport lay ∧ u16_at part (l_transport lay + 6) ≠ 0;
  so_ipv4 : l_ipv4 lay = true →
    let v := {| ip_buf := drop (Z.to_nat (l_ip lay)) part |} in
    Ipv4View_parse (ip_buf v) = Some v ∧ ip_checksum_valid v = true ∧ proto v = l_protocol lay ∧
    ip_id v = (u16_at frame (l_ip lay + 4) + index) mod 2 ^ 16 ∧
    ip_payload v = drop (Z.to_nat (l_transport lay)) part ∧
    l4_checksum (ip_src v) (ip_dst v) (proto v) (ip_payload v) = Some 0;
  so_ipv6 : l_ipv4 lay = false →
    u16_at part (l_ip lay + 4) = len part - l_ip lay - 40 ∧
    internet_checksum (slice part (l_ip lay + 8) (l_ip lay + 40) ++ be32 (len part - l_transport lay)
                        ++ [0; 0; 0; l_protocol lay] ++ drop (Z.to_nat (l_transport lay)) part) = 0;
}.

Lemma headers_end_eq frame lay : headers_end frame lay = gso_payload frame lay.
Proof.
  unfold headers_end, gso_payload. destruct (l_protocol lay =? 6); [|done].
  rewrite Z.shiftr_div_pow2 by lia. change (2 ^ 4) with 16. lia.
Qed.

Lemma segment_flags_bits f index count b :
  0 ≤ b < 8 →
  Z.testbit (segment_flags f index count) b = Z.testbit f b &&
    (if bool_decide (b = 0 ∨ b = 3) then index + 1 =? count else if b =? 7 then index =? 0 else true).
Proof.
  intros Hb. unfold segment_flags. change (not8 (Z.lor 1 8)) with 246. change (not8 128) with 127.
  assert (b = 0 ∨ b = 1 ∨ b = 2 ∨ b = 3 ∨ b = 4 ∨ b = 5 ∨ b = 6 ∨ b = 7) as Hc by lia.
  destruct (index + 1 =? count), (index =? 0); cbn [negb]; rewrite ?Z.land_spec;
    repeat destruct Hc as [->|Hc]; subst; cbn; by rewrite ?andb_true_r, ?andb_false_r.
Qed.

(** One segment, from what the loop's iteration promises. *)
Lemma segment_cut h frame mtu lay size parts n part :
  bytes_ok frame → is_u16 mtu → gso_split h frame mtu lay size parts → parts !! n = Some part →
  cut_of frame lay mtu size (len parts) (Z.of_nat n) part.
Proof.
  intros Hok Hmtu Hs Hpart.
  pose proof (io_spec_Ok _ _ _ (Layout_parse_spec _ Hok) (gs_parse _ _ _ _ _ _ Hs)) as Hlay.
  destruct (layout_transport _ _ Hlay) as [Htr Ht0]. pose proof (gso_chunks _ _ _ _ _ _ Hok Hs) as Hch.
  destruct Hs as [Hp Hfit _ _ Hsz Hm _ _ Hparts].
  destruct (Forall2_lookup_r _ _ _ _ _ Hparts Hpart) as (index & Hi & Hseg). cbn in Hseg.
  pose proof (Forall2_lookup_lr _ _ _ _ _ _ Hch Hi Hpart) as [Hd Hl].
  apply lookup_seqZ in Hi as [-> Hn]. rewrite Z.add_0_l in *.
  assert (8 ≤ if l_protocol lay =? 6 then 20 else 8) as Hmin by (destruct (l_protocol lay =? 6); lia).
  assert (0 ≤ Z.of_nat n * size) as Hoff by nia.
  pose proof (chunk_len_le frame (gso_payload frame lay) size (Z.of_nat n) ltac:(lia) Hoff) as Hcl.
  assert (len part - l_ip lay ≤ mtu) as Hlm by lia.
  pose proof (len_nonneg (chunk_of frame (gso_payload frame lay) size (Z.of_nat n))) as Hc0.
  assert (part_ok lay part) as Hpo.
  { pose proof Hlay as (? & Hpr & _). split; [apply Hseg|]. split; [done|].
    split; [destruct Hpr as [-> | ->]; auto with vmlab|]. ints. lia. }
  split; rewrite ?headers_end_eq; try done.
  - cbv zeta. rewrite Hd. unfold chunk_of. rewrite len_slice by lia. unfold slice. rewrite skipn_firstn_comm, take_take, skipn_skipn.
    f_equal; [lia|f_equal; lia].
  - intros i Hi Hr. eapply segment_idx; [exact Hlay|exact Hfit|exact Hseg|done|done].
  - intros E. pose proof (seg_l4 _ _ _ _ _ _ _ _ _ Hseg) as Hl4. rewrite E in Hl4. change (6 =? 6) with true in Hl4.
    destruct Hl4 as [Hsq Hf]. split; [exact Hsq|]. intros b Hb. rewrite Hf. by apply segment_flags_bits.
  - intros E. pose proof (seg_l4 _ _ _ _ _ _ _ _ _ Hseg) as Hl4. rewrite E in Hl4. exact Hl4.
  - intros E v. edestruct (segment_ipv4_view frame lay (l_protocol lay =? 6)) as (V1 & V2 & V3 & V4 & V5 & V6);
      [exact Hok|exact Hlay|exact Hfit| |exact Hseg|exact E|]; [ints; lia|].
    fold v in V1, V2, V3, V4, V5, V6. done.
  - intros E. pose proof (seg_ip _ _ _ _ _ _ _ _ _ Hseg) as Hsip. rewrite E in Hsip. split; [done|].
    pose proof (seg_csum _ _ _ _ _ _ _ _ _ Hseg) as Hcs. rewrite transport_checksum_eq in Hcs by done.
    unfold pseudo in Hcs. rewrite E in Hcs. injection Hcs as Hcs. by rewrite <-!app_assoc in Hcs.
Qed.

(** [segments] succeeds on the packets that can be cut and on no others. *)
Lemma segments_succeeds h frame mtu :
  header_ok h → bytes_ok frame → is_u16 mtu → h_gso_type h ≠ GSO_NONE →
  match segments h frame mtu with
  | Ok _ => ∃ lay, segmentable h frame mtu lay
  | Err _ => ∀ lay, ¬ segmentable h frame mtu lay
  | Crash => True
  end.
Proof.
  intros (_ & _ & _ & Hgs & _ & _) Hok Hmtu Hgso. unfold segments, segmentable.
  destruct (validate h frame) as [[]| |] eqn:Hv; cbn [mbind io_bind]; [|by intros lay (? & _)|done].
  rewrite (proj2 (Z.eqb_neq _ _)) by done.
  destruct (Layout_parse frame) as [lay| |] eqn:Hparse; cbn [mbind io_bind]; [|by intros lay (_ & ? & _)|done].
  pose proof (io_spec_Ok _ _ _ (Layout_parse_spec _ Hok) Hparse) as Hlay. pose proof Hlay as (_ & Hpr & Hlen & _).
  destruct (layout_transport _ _ Hlay) as [_ Ht0].
  assert (∀ (P : Layout → Prop), ¬ P lay → ∀ lay', ¬ (Ok () = Ok () ∧ Ok lay = Ok lay' ∧ P lay')) as Hone
    by (intros P HP lay' (_ & [= <-] & ?); done).
  unfold segment_count, segment_size. pose proof (headers_end_eq frame lay) as He.
  pose proof (gso_payload_spec frame lay) as Hps.
  match type of Hps with io_spec _ ?x => destruct x as [payload| |] eqn:Hpay end; cbn [mbind io_bind]; [| |done].
  2:{ apply (Hone (λ lay, _)). intros ([Hlo _] & _). rewrite He in Hlo. unfold gso_payload in Hlo.
      destruct (l_protocol lay =? 6); [|done]. rewrite get_byte_ret in Hpay by lia. cbn in Hpay.
      destruct (_ <? 20) eqn:H20; [|done]. apply Z.ltb_lt in H20. lia. }
  destruct Hps as [-> Hps]. rewrite <-He. set (e := headers_end frame lay) in *.
  assert (34 ≤ e) by (destruct (l_protocol lay =? 6); lia).
  destruct (len frame <? e) eqn:H1; bsplit; [apply (Hone (λ lay, _)); lia|].
  destruct (mtu <? e - l_ip lay) eqn:H2; bsplit; [apply (Hone (λ lay, _)); lia|].
  set (size := Z.min (mtu - (e - l_ip lay)) (h_gso_size h)).
  destruct (size =? 0) eqn:H3; bsplit; [apply (Hone (λ lay, _)); unfold size in *; ints; lia|].
  rewrite len_slice by lia.
  destruct (negb (l_protocol lay =? 6) && _) eqn:H4.
  { apply andb_true_iff in H4 as [Hq%negb_true_iff%Z.eqb_neq Hb%Z.ltb_lt]. apply (Hone (λ lay, _)).
    intros (_ & _ & _ & Hu & _). specialize (Hu Hq). lia. }
  destruct (MAX_SEGMENT_BYTES <? _) eqn:H5; bsplit; [apply (Hone (λ lay, _)); fold e size; unfold MAX_SEGMENT_BYTES in *; lia|].
  destruct (collect_segments frame lay e size Hok Hlay) as (parts & Hc & _); [unfold size in *; ints; lia..|].
  rewrite len_slice in Hc by lia. rewrite Hc. exists lay. fold e size. unfold MAX_SEGMENT_BYTES, size in *. ints. split_and!; try done; try lia.
Qed.

(** C21: [segments] cuts a GSO packet exactly when it can be cut, and otherwise
    fails with [InvalidData]; it never panics. The segments carry the packet's
    payload in order, each as many bytes as the MTU and the sender's size allow;
    a segment is within the MTU and has the packet's headers but for these
    fields: the IP length, the IPv4 identification (advanced by its index) and
    header checksum, the TCP sequence number (advanced by the bytes before it),
    FIN and PSH kept on the last segment only and CWR on the first only, the UDP
    length, and the transport checksum, which verifies. *)
Theorem segments_gso_correct (h : Header) (frame : bytes) (mtu : Z) :
  header_ok h → bytes_ok frame → is_u16 mtu → h_gso_type h ≠ GSO_NONE →
  match segments h frame mtu with
  | Ok parts => ∃ lay, segmentable h frame mtu lay ∧ len parts = segment_count h frame mtu lay ∧
      concat (drop (Z.to_nat (headers_end frame lay)) <$> parts) = drop (Z.to_nat (headers_end frame lay)) frame ∧
      total_bytes parts ≤ MAX_SEGMENT_BYTES ∧
      ∀ n part, parts !! n = Some part →
        cut_of frame lay mtu (segment_size h frame mtu lay) (len parts) (Z.of_nat n) part
  | Err k => k = InvalidData ∧ ∀ lay, ¬ segmentable h frame mtu lay
  | Crash => False
  end.
Proof.
  intros Hh Hok Hmtu Hgso. pose proof (segments_gso h frame mtu Hh Hok Hmtu Hgso) as Hsg.
  pose proof (segments_succeeds h frame mtu Hh Hok Hmtu Hgso) as Hsu.
  destruct (segments h frame mtu) as [parts|k|]; [|split; [exact Hsg|exact Hsu]|exact Hsg].
  destruct Hsg as (lay & size & Hs), Hsu as (lay' & Hlay').
  assert (lay' = lay) as ->.
  { destruct Hlay' as (_ & Hp & _). pose proof (gs_parse _ _ _ _ _ _ Hs). congruence. }
  exists lay. split; [done|]. pose proof (gso_chunks _ _ _ _ _ _ Hok Hs) as Hch. pose proof Hs as [Hp Hfit Hsize Hcount Hsz Hm Htot Hdata _].
  pose proof (io_spec_Ok _ _ _ (Layout_parse_spec _ Hok) Hp) as Hlay. destruct (layout_transport _ _ Hlay) as [_ Ht].
  unfold segment_count, segment_size. rewrite !headers_end_eq, <-Hsize. split; [done|].
  assert (H0 : 0 ≤ gso_payload frame lay) by (destruct (l_protocol lay =? 6); lia).
  destruct (concat_chunks (chunk_of frame (gso_payload frame lay) size) (Z.to_nat (gso_payload frame lay))
    (seqZ 0 (len parts)) parts) as [Hc1 Hc2].
  { eapply Forall2_impl; [exact Hch|]. intros i part. cbn. by rewrite Z2Nat.id by lia. }
  split; [rewrite Hc1, Hdata; apply slice_to_end; lia|].
  split; [rewrite Hc2, Hdata, Z2Nat.id by lia; by rewrite len_slice by lia|].
  intros n part Hpart. by eapply segment_cut.
Qed.

(** On a packet that is not GSO, [segments] never panics, fails only with
    [InvalidData], and returns one frame: the input if no checksum was
    requested; otherwise the input with only the checksum field replaced by a
    non-zero value, such that the bytes from [csum_start] together with any
    pseudo-header sum the field was seeded with verify. *)
Theorem segments_completes_checksum (h : Header) (frame : bytes) (mtu : Z) :
  header_ok h → bytes_ok frame → h_gso_type h = GSO_NONE →
  Nat.Even (Z.to_nat (h_csum_offset h)) →
  io_spec (λ parts, ∃ out, parts = [out] ∧
    if needs_csum h then
      let field := h_csum_start h + h_csum_offset h in
      edited [(field, 2)] frame out ∧ u16_at out field ≠ 0 ∧
      ∀ seed, seed mod 65535 = u16_at frame field mod 65535 →
        (seed + sum_be16 (drop (Z.to_nat (h_csum_start h)) out) 0) mod 65535 = 0
    else out = frame) (segments h frame mtu).
Proof.
  intros Hh Hok Hg He. unfold segments. eapply io_spec_bind; [by apply validate_spec|].
  intros _ _ [Hl Hn]. rewrite Hg. change (GSO_NONE =? GSO_NONE) with true.
  destruct (needs_csum h) eqn:Hc.
  - destruct (complete_checksum_spec h frame) as (out & -> & ?); auto. cbn. eauto.
  - unfold complete_checksum. rewrite Hc. cbn. eauto.
Qed.

(** Vnet stream metadata round trip. Reading back the metadata of a
    header and queue with a frame behind it returns exactly that header,
    queue and frame if the header is valid for the frame, and the error of
    [validate] otherwise. *)
Theorem metadata_codec (h : Header) (q : Z) (frame : bytes) :
  is_u16 q →
  from_metadata (metadata h q ++ frame) =
    match validate h frame with Ok _ => Ok (h, q, frame) | Err k => Err k | Crash => Crash end.
Proof. apply metadata_roundtrip. Qed.

(** [flow_hash] is bidirectional: two frames of one flow whose source
    and destination endpoints are swapped hash alike, so both directions are
    steered to the same queue pair. *)
Theorem flow_hash_bidirectional (f1 f2 : bytes) (lay1 lay2 : Layout) :
  Layout_parse f1 = Ok lay1 → Layout_parse f2 = Ok lay2 →
  l_protocol lay1 = l_protocol lay2 →
  flow_ends lay2 f2 = ((flow_ends lay1 f1).2, (flow_ends lay1 f1).1) →
  flow_hash f1 = flow_hash f2.
Proof.
  intros H1 H2 Hp He. rewrite (flow_hash_eq _ _ H1), (flow_hash_eq _ _ H2), He, Hp.
  destruct (flow_ends lay1 f1) as [a b]. cbn [fst snd]. f_equal.
  destruct (pair_leb a b) eqn:Hab, (pair_leb b a) eqn:Hba; try done.
  - by rewrite (pair_leb_antisym _ _ Hab Hba).
  - apply pair_leb_total in Hab. congruence.
Qed.

(** ** Worked instances *)

Definition sample_tcp (sp dp src dst : Z) (payload : bytes) : bytes :=
  eth_build [2; 0; 0; 0; 0; 2] [2; 0; 0; 0; 0; 1] ETHERTYPE_IPV4
    (default [] (seg ← tcp_build src dst {| f_src_port := sp; f_dst_port := dp; f_seq := 0xFFFFFFFF;
        f_ack := 7; f_flags := 0x18; f_window := 100; f_options := [] |} payload;
      ipv4_build src dst IPPROTO_TCP 64 seg 65535)).
Definition sample_gso : bytes := sample_tcp 80 4000 0x0A000001 0x0A000002 [1; 2; 3; 4; 5].
Definition sample_header : Header := mkHeader NEEDS_CSUM GSO_TCPV4 54 2 34 16.

(** Five payload bytes in segments of two: three frames. *)
Example sample_gso_parts :
  (length <$> segments sample_header sample_gso 1500) = Ok 3%nat.
Proof. vm_compute. reflexivity. Qed.

Definition sample_parts : list bytes := match segments sample_header sample_gso 1500 with Ok parts => parts | _ => [] end.

Lemma segments_gso_correct_witness :
  segments sample_header sample_gso 1500 = Ok sample_parts ∧ len sample_parts = 3 ∧
  ∃ lay, Layout_parse sample_gso = Ok lay ∧
    ∀ n part, sample_parts !! n = Some part →
      cut_of sample_gso lay 1500 (segment_size sample_header sample_gso 1500 lay) (len sample_parts) (Z.of_nat n) part.
Proof.
  assert (segments sample_header sample_gso 1500 = Ok sample_parts) as Hp by (vm_compute; reflexivity).
  pose proof (segments_gso_correct sample_header sample_gso 1500 ltac:(concrete) ltac:(concrete) ltac:(concrete)
    ltac:(discriminate)) as Hw. rewrite Hp in Hw. destruct Hw as (lay & (_ & Hl & _) & _ & _ & _ & Hs).
  split; [exact Hp|]. split; [vm_compute; reflexivity|]. exists lay. split; [exact Hl|exact Hs].
Defined.

Lemma segments_completes_checksum_witness :
  io_spec (λ parts, ∃ out, parts = [out] ∧
      edited [(50, 2)] sample_gso out ∧ u16_at out 50 ≠ 0 ∧
      ∀ seed, seed mod 65535 = u16_at sample_gso 50 mod 65535 →
        (seed + sum_be16 (drop 34 out) 0) mod 65535 = 0)
    (segments (mkHeader NEEDS_CSUM GSO_NONE 0 0 34 16) sample_gso 1500).
Proof.
  apply (segments_completes_checksum (mkHeader NEEDS_CSUM GSO_NONE 0 0 34 16) sample_gso 1500);
    [concrete|concrete|reflexivity|by exists 8%nat].
Defined.

Lemma metadata_codec_witness :
  from_metadata (metadata sample_header 3 ++ sample_gso) = Ok (sample_header, 3, sample_gso).
Proof. rewrite (metadata_codec sample_header 3 sample_gso ltac:(concrete)). vm_compute. reflexivity. Defined.

Lemma flow_hash_bidirectional_witness :
  flow_hash (sample_tcp 80 4000 1 2 []) = flow_hash (sample_tcp 4000 80 2 1 [9]).
Proof.
  apply (flow_hash_bidirectional _ _ {| l_ip := 14; l_transport := 34; l_protocol := 6; l_ipv4 := true |}
    {| l_ip := 14; l_transport := 34; l_protocol := 6; l_ipv4 := true |}); vm_compute; reflexivity.
Defined.
