(* ===== verification/Framing.v ===== *)
(** * Stream framing ([src/net/framing.rs])

    QEMU's length-prefixed frames over a byte stream. The reader sees the
    stream in pieces of any size: a [stream] is the list of pieces the socket
    will hand out, each [read] returning at most one of them, and its end is
    EOF. [deframe] is the specification over the flat byte string, and the
    refinement theorem says the code computes it whatever the pieces are. *)

From S2P Require Import Prelude Checksum Frame VnetHeader.

(** ** The socket *)

Inductive piece := Data (b : bytes) | Fault (k : io_kind).
Abbreviation stream := (list piece) (only parsing).

(** [r.read(&mut buf)] with room for [want] bytes. *)
Definition sread (want : Z) (s : stream) : io (bytes * stream) :=
  match s with
  | [] => Ok ([], [])
  | Fault k :: _ => Err k
  | Data b :: s =>
      if len b <=? want then Ok (b, s)
      else Ok (take (Z.to_nat want) b, Data (drop (Z.to_nat want) b) :: s)
  end.

(** [r.read_exact(&mut buf)] with [want] bytes, [got] of them read. *)
Fixpoint read_exact (fuel : nat) (want : Z) (got : bytes) (s : stream) : io (bytes * stream) :=
  match fuel with
  | O => Crash
  | S fuel =>
      if want <=? len got then Ok (got, s)
      else
        r ← sread (want - len got) s;
        match r with
        | ([], _) => Err UnexpectedEof
        | (n, s) => read_exact fuel want (got ++ n) s
        end
  end.

(** ** Modes and packets *)

Inductive FramingMode := Raw | Vnet (queue_pairs : Z).
#[global] Instance FramingMode_eq_dec : EqDecision FramingMode.
Proof. solve_decision. Defined.

Definition queue_pairs (vcpus : Z) : Z := Z.max 1 (Z.min 31 vcpus).

Record Packet := mkPacket { p_frame : bytes; p_header : Header; p_queue : Z }.
Definition Packet_raw (frame : bytes) : Packet := mkPacket frame Header_default 0.

Definition for_port (p : Packet) (mode : FramingMode) (mtu : Z) : io (list Packet) :=
  match mode with
  | Vnet qp =>
      if negb (qp =? 0)
      then Ok [mkPacket (p_frame p) (p_header p) (flow_hash (p_frame p) mod qp)]
      else Err InvalidInput
  | Raw =>
      if decide (p_header p = Header_default) then Ok [p]
      else parts ← segments (p_header p) (p_frame p) mtu; Ok (Packet_raw <$> (parts : list bytes))
  end.

Definition MAX_FRAME_LEN : Z := 65536 + 14 + 4.

(** ** Reading *)

(** The length-prefix loop of [read_body]; [None] is a clean EOF. *)
Fixpoint read_prefix (fuel : nat) (filled : bytes) (s : stream) : io (option bytes * stream) :=
  match fuel with
  | O => Crash
  | S fuel =>
      if len filled <? 4 then
        r ← sread (4 - len filled) s;
        match r with
        | ([], s) => if len filled =? 0 then Ok (None, s) else Err UnexpectedEof
        | (n, s) => read_prefix fuel (filled ++ n) s
        end
      else Ok (Some filled, s)
  end.

Definition read_body (s : stream) (limit : Z) : io (option bytes * stream) :=
  r ← read_prefix 5 [] s;
  match r with
  | (None, s) => Ok (None, s)
  | (Some len_buf, s) =>
      let l := u32_at len_buf 0 in
      if limit <? l then Err InvalidData
      else r ← read_exact (S (Z.to_nat l)) l [] s; Ok (Some r.1, r.2)
  end.

Definition read_frame (s : stream) : io (option bytes * stream) := read_body s MAX_FRAME_LEN.

Definition read_packet (s : stream) (mode : FramingMode) : io (option Packet * stream) :=
  match mode with
  | Raw => r ← read_frame s; Ok (option_map Packet_raw r.1, r.2)
  | Vnet qp =>
      r ← read_body s (VNET_MAX_FRAME_LEN + METADATA_LEN);
      match r with
      | (None, s) => Ok (None, s)
      | (Some body, s) =>
          m ← from_metadata body;
          let '(header, queue, frame) := m in
          if qp <=? queue then Err InvalidData
          else
            let offset := len body - len frame in
            Ok (Some (mkPacket (slice body offset (len body)) header queue), s)
      end
  end.

(** ** Writing: the bytes handed to a sink that accepts them *)

Definition write_frame (frame : bytes) : io bytes :=
  if MAX_FRAME_LEN <? len frame then Err InvalidInput
  else Ok (be32 (wrap32 (len frame)) ++ frame).

Definition write_packet (p : Packet) (mode : FramingMode) : io bytes :=
  match mode with
  | Raw => write_frame (p_frame p)
  | Vnet qp =>
      _ ← validate (p_header p) (p_frame p);
      if qp <=? p_queue p then Err InvalidInput
      else
        let l := wrap32 (METADATA_LEN + len (p_frame p)) in
        Ok (be32 l ++ metadata (p_header p) (p_queue p) ++ p_frame p)
  end.

(** The reader task of a stream port: packets until EOF or an error. *)
Fixpoint read_loop (fuel : nat) (mode : FramingMode) (s : stream) : list Packet * io () :=
  match fuel with
  | O => ([], Crash)
  | S fuel =>
      match read_packet s mode with
      | Ok (Some p, s) => let r := read_loop fuel mode s in (p :: r.1, r.2)
      | Ok (None, _) => ([], Ok ())
      | Err k => ([], Err k)
      | Crash => ([], Crash)
      end
  end.

(** ** Specification over the flat byte string *)

Definition deframe (limit : Z) (b : bytes) : io (option (bytes * bytes)) :=
  if len b =? 0 then Ok None
  else if len b <? 4 then Err UnexpectedEof
  else
    let l := u32_at b 0 in
    if limit <? l then Err InvalidData
    else if len b <? 4 + l then Err UnexpectedEof
    else Ok (Some (slice b 4 (4 + l), drop (Z.to_nat (4 + l)) b)).

(** The bytes a stream of non-empty, fault-free pieces holds. *)
Definition piece_ok (p : piece) : Prop := match p with Data b => b ≠ [] | Fault _ => False end.
Definition stream_ok (s : stream) : Prop := Forall piece_ok s.
Definition piece_bytes (p : piece) : bytes := match p with Data b => b | Fault _ => [] end.
Definition contents (s : stream) : bytes := concat (piece_bytes <$> s).

Lemma sread_spec want s :
  stream_ok s → 0 < want →
  ∃ n s', sread want s = Ok (n, s') ∧ stream_ok s' ∧ contents s = n ++ contents s' ∧
    len n ≤ want ∧ (n = [] ↔ contents s = []).
Proof.
  intros Hs Hw. destruct s as [|[b|k] s]; cbn.
  - exists [], []. split_and!; try done. change (len []) with 0. lia.
  - apply Forall_cons in Hs as [Hb Hs]. cbn in Hb.
    assert (0 < len b) by (destruct b; [done|len_lia]).
    case_goal; bsplit.
    + exists b, s. split_and!; try done. change (contents (Data b :: s)) with (b ++ contents s).
      split; [done|]. by intros [? _]%app_nil.
    + eexists _, _. split; [done|]. unfold contents. cbn. rewrite app_assoc, take_drop.
      assert (Hd : drop (Z.to_nat want) b ≠ []).
      { intros E. apply (f_equal len) in E. rewrite len_drop in E. cbn in E. change (len []) with 0 in E. lia. }
      split; [by constructor|]. split; [done|]. split; [rewrite len_take; lia|].
      split.
      * intros E. apply (f_equal len) in E. rewrite len_take in E. change (len []) with 0 in E. lia.
      * by intros [? _]%app_nil.
  - apply Forall_cons in Hs as [[] _].
Qed.

(** [read_exact] returns the next bytes, or EOF if there are too few. *)
Lemma read_exact_spec fuel want got s :
  stream_ok s → len got ≤ want → want - len got < Z.of_nat fuel →
  if want - len got <=? len (contents s)
  then ∃ s', read_exact fuel want got s
         = Ok (got ++ take (Z.to_nat (want - len got)) (contents s), s') ∧
       stream_ok s' ∧ contents s' = drop (Z.to_nat (want - len got)) (contents s)
  else read_exact fuel want got s = Err UnexpectedEof.
Proof.
  revert got s. induction fuel as [|fuel IH]; intros got s Hs Hg Hf; [lia|].
  cbn [read_exact]. destruct (want <=? len got) eqn:Hd; bsplit.
  { rewrite (proj2 (Z.leb_le _ _)) by (lens; lia).
    replace (want - len got) with 0 by lia. rewrite app_nil_r. eauto. }
  destruct (sread_spec (want - len got) s Hs ltac:(lia)) as (n & s' & -> & Hs' & Hc & Hn & Hnil).
  cbn [mbind io_bind]. destruct n as [|x n].
  - rewrite (proj1 Hnil eq_refl). change (len []) with 0.
    rewrite (proj2 (Z.leb_gt _ _)) by lia. done.
  - set (m := x :: n) in *. specialize (IH (got ++ m) s' Hs').
    assert (Hm : 0 < len m) by (unfold m; len_lia). rewrite len_app in IH.
    specialize (IH ltac:(lia) ltac:(lia)). rewrite Hc, len_app.
    assert (Hb : (want - len got <=? len m + len (contents s')) = (want - (len got + len m) <=? len (contents s')))
      by (destruct (_ <=? _) eqn:E1, (_ <=? _) eqn:E2; bsplit; try done; lia).
    rewrite Hb. case_goal; [|done]. destruct IH as (s'' & -> & ? & Hc'').
    exists s''. split; [|split; [done|]].
    + f_equal. f_equal. rewrite <-app_assoc. f_equal.
      rewrite take_app_ge by (unfold len in *; lia). f_equal. f_equal. unfold len in *. lia.
    + rewrite Hc''. rewrite drop_app_ge by (unfold len in *; lia). f_equal. unfold len in *. lia.
Qed.

Lemma read_prefix_spec fuel filled s :
  stream_ok s → len filled ≤ 4 → 4 - len filled < Z.of_nat fuel →
  let b := filled ++ contents s in
  if len b =? 0 then ∃ s', read_prefix fuel filled s = Ok (None, s') ∧ contents s' = [] ∧ stream_ok s'
  else if len b <? 4 then read_prefix fuel filled s = Err UnexpectedEof
  else ∃ s', read_prefix fuel filled s = Ok (Some (take 4 b), s') ∧ contents s' = drop 4 b ∧ stream_ok s'.
Proof.
  revert filled s. induction fuel as [|fuel IH]; intros filled s Hs Hl Hf b; [lia|].
  cbn [read_prefix]. destruct (len filled <? 4) eqn:Hd; bsplit.
  2:{ assert (H4 : length filled = 4%nat) by (unfold len in *; lia). unfold b.
      rewrite (proj2 (Z.eqb_neq _ _)), (proj2 (Z.ltb_ge _ _)) by len_lia.
      exists s. rewrite take_app_le, take_ge, drop_app_ge by lia. rewrite H4. done. }
  destruct (sread_spec (4 - len filled) s Hs ltac:(lia)) as (n & s' & -> & Hs' & Hc & Hn & Hnil).
  cbn [mbind io_bind]. destruct n as [|x n].
  - pose proof (proj1 Hnil eq_refl) as E. unfold b. rewrite E, app_nil_r.
    destruct (len filled =? 0); [exists s'|rewrite (proj2 (Z.ltb_lt _ _)) by done; done].
    rewrite E in Hc. done.
  - set (m := x :: n) in *. assert (Hm : 0 < len m) by (unfold m; len_lia).
    specialize (IH (filled ++ m) s' Hs'). rewrite len_app in IH.
    specialize (IH ltac:(lia) ltac:(lia)). cbv zeta in IH. rewrite <-app_assoc, <-Hc in IH. exact IH.
Qed.

Lemma contents_bytes_ok_prefix b : 4 ≤ len b → u32_at (take 4 b) 0 = u32_at b 0.
Proof. intros. unfold u32_at. rewrite !idx_take by lia. done. Qed.

(** The reader computes [deframe] on the bytes it is given, in whatever
    pieces they arrive, and leaves exactly the rest. *)
Definition reads (r : io (option bytes * stream)) (spec : io (option (bytes * bytes))) : Prop :=
  match spec with
  | Ok None => ∃ s', r = Ok (None, s') ∧ contents s' = []
  | Ok (Some (f, rest)) => ∃ s', r = Ok (Some f, s') ∧ contents s' = rest ∧ stream_ok s'
  | Err k => r = Err k
  | Crash => False
  end.

Lemma read_body_deframe limit s :
  stream_ok s → bytes_ok (contents s) → reads (read_body s limit) (deframe limit (contents s)).
Proof.
  intros Hs Hok. unfold read_body, deframe.
  pose proof (read_prefix_spec 5 [] s Hs ltac:(done) ltac:(done)) as Hp. cbn [app] in Hp. cbv zeta in Hp.
  destruct (len (contents s) =? 0) eqn:H0; [destruct Hp as (s' & -> & ? & _); cbn; eauto|].
  destruct (len (contents s) <? 4) eqn:H4; [by rewrite Hp|]. bsplit.
  destruct Hp as (s' & -> & Hc & Hs'). cbn [mbind io_bind].
  rewrite contents_bytes_ok_prefix by done. set (l := u32_at (contents s) 0).
  assert (Hl : is_u32 l) by (unfold l; auto with vmlab). unfold is_u32 in Hl.
  destruct (limit <? l); [done|].
  pose proof (read_exact_spec (S (Z.to_nat l)) l [] s' Hs' ltac:(change (len []) with 0; lia)
    ltac:(change (len []) with 0; lia)) as He.
  change (len []) with 0 in He. rewrite Z.sub_0_r, Hc, len_drop in He.
  destruct (len (contents s) <? 4 + l) eqn:Hfit; bsplit.
  - rewrite (proj2 (Z.leb_gt _ _)) in He by lia. by rewrite He.
  - rewrite (proj2 (Z.leb_le _ _)) in He by lia. destruct He as (s'' & -> & Hs'' & Hc'').
    cbn. exists s''. split; [|split; [|done]].
    + do 3 f_equal. unfold slice. f_equal. lia.
    + rewrite Hc'', drop_drop. f_equal. lia.
Qed.

(** ** Round trips *)

Lemma deframe_prefix limit f rest :
  len f ≤ limit → limit < 2 ^ 32 → deframe limit (be32 (len f) ++ f ++ rest) = Ok (Some (f, rest)).
Proof.
  intros Hl Hlim. unfold deframe.
  assert (Hu : u32_at (be32 (len f) ++ f ++ rest) 0 = len f) by exact (of_be32_be32 (len f)).
  rewrite Hu. rewrite (proj2 (Z.eqb_neq _ _)) by len_lia.
  rewrite !(proj2 (Z.ltb_ge _ _)) by len_lia. do 3 f_equal.
  - rewrite slice_app_r by (rewrite len_be32; lia). rewrite len_be32.
    replace (4 - 4) with 0 by lia. replace (4 + len f - 4) with (len f) by lia.
    rewrite slice_app_l, slice_full by (lens; lia). done.
  - rewrite app_assoc, drop_app_ge; [|rewrite length_app; unfold len; cbn; lia].
    rewrite length_app. change (length (be32 (len f))) with 4%nat.
    replace (Z.to_nat (4 + len f) - (4 + length f))%nat with 0%nat by (unfold len; lia). done.
Qed.

Lemma write_frame_Ok frame b :
  write_frame frame = Ok b → len frame ≤ MAX_FRAME_LEN ∧ b = be32 (len frame) ++ frame.
Proof.
  unfold write_frame, MAX_FRAME_LEN. case_goal; [done|]. bsplit. intros [= <-]. split; [lia|].
  unfold wrap32. rewrite Z.mod_small; [done|lens; lia].
Qed.

(** A packet as the switch hands it to a port of mode [mode]. *)
Definition writable (mode : FramingMode) (p : Packet) : Prop :=
  bytes_ok (p_frame p) ∧ is_u16 (p_queue p) ∧ header_ok (p_header p) ∧
  match mode with
  | Raw => p_header p = Header_default ∧ p_queue p = 0
  | Vnet _ => True
  end.

Lemma encode_ok h : header_ok h → bytes_ok (encode h).
Proof.
  intros (? & ? & ? & ? & ? & ?). unfold encode, le16. auto 30 with vmlab.
Qed.

(** Reading back what [write_packet] wrote. *)
Lemma write_read_packet mode p b s rest :
  writable mode p → write_packet p mode = Ok b →
  stream_ok s → contents s = b ++ rest → bytes_ok rest →
  ∃ s', read_packet s mode = Ok (Some p, s') ∧ contents s' = rest ∧ stream_ok s'.
Proof.
  intros (Hf & Hq & Hh & Hmode) Hw Hs Hc Hr. destruct mode as [|qp]; cbn [write_packet read_packet] in *.
  - destruct Hmode as [Eh Eq]. apply write_frame_Ok in Hw as [Hl ->]. pose proof (len_nonneg (p_frame p)).
    assert (Hcok : bytes_ok (contents s)).
    { rewrite Hc. unfold MAX_FRAME_LEN in Hl. apply bytes_ok_app; [|done]. apply bytes_ok_app; [|done].
      apply bytes_ok_be32. unfold is_u32. lia. }
    pose proof (read_body_deframe MAX_FRAME_LEN s Hs Hcok) as Hd. rewrite Hc, <-app_assoc in Hd.
    rewrite deframe_prefix in Hd by (unfold MAX_FRAME_LEN in *; lia).
    destruct Hd as (s' & E & ? & ?). unfold read_frame. rewrite E. cbn. exists s'.
    split; [|done]. destruct p as [f h q]. cbn in *. by subst.
  - destruct (validate (p_header p) (p_frame p)) as [[]|k|] eqn:Hv; try done. cbn [mbind io_bind] in Hw.
    case_in Hw; [done|].
    match type of Hw with Ok ?x = Ok b => assert (b = x) as -> by congruence end. clear Hw.
    pose proof (io_spec_Ok _ _ _ (validate_spec (p_header p) _ Hf) Hv) as [Hl _].
    set (body := metadata (p_header p) (p_queue p) ++ p_frame p).
    assert (Hbl : len body = 16 + len (p_frame p)) by (unfold body; by rewrite len_app).
    assert (Hw32 : wrap32 (METADATA_LEN + len (p_frame p)) = len body).
    { rewrite Hbl. unfold wrap32, METADATA_LEN. apply Z.mod_small. lia. }
    rewrite Hw32 in Hc. fold body in Hc.
    assert (Hbok : bytes_ok body).
    { unfold body, metadata. pose proof (encode_ok _ Hh). auto 20 with vmlab. }
    assert (Hcok : bytes_ok (contents s)).
    { rewrite Hc. apply bytes_ok_app; [|done]. apply bytes_ok_app; [|done].
      apply bytes_ok_be32. unfold is_u32. lia. }
    pose proof (read_body_deframe (VNET_MAX_FRAME_LEN + METADATA_LEN) s Hs Hcok) as Hd.
    rewrite Hc, <-app_assoc in Hd.
    rewrite deframe_prefix in Hd by (unfold VNET_MAX_FRAME_LEN, METADATA_LEN; lia).
    destruct Hd as (s' & E & ? & ?). rewrite E. cbn [mbind io_bind].
    change (from_metadata body) with (from_metadata (metadata (p_header p) (p_queue p) ++ p_frame p)).
    rewrite metadata_roundtrip by done. rewrite Hv. cbn [mbind io_bind].
    rewrite Heqb0. exists s'. split; [|done].
    replace (slice body _ _) with (p_frame p); [by destruct p|].
    unfold body at 1. rewrite slice_app_r by (change (len (metadata _ _)) with 16; lia).
    change (len (metadata _ _)) with 16. symmetry. rewrite Hbl.
    replace (16 + len (p_frame p) - len (p_frame p) - 16) with 0 by lia. apply slice_full. lia.
Qed.

(** A packet whose fields are in the range of their types. *)
Definition packet_ok (p : Packet) : Prop := bytes_ok (p_frame p) ∧ header_ok (p_header p).

Lemma for_port_safe p mode mtu :
  packet_ok p → is_u16 mtu →
  for_port p mode mtu ≠ Crash ∧ ∀ out, for_port p mode mtu = Ok out → Forall packet_ok out.
Proof.
  intros [Hf Hh] Hm. destruct mode as [|qp]; cbn.
  - case_goal; [split; [done|]; intros out [= <-]; by apply Forall_singleton|].
    pose proof (segments_safe (p_header p) (p_frame p) mtu Hh Hf Hm) as Hs.
    destruct (segments _ _ _) as [parts|k|]; [|done|done]. cbn in *. split; [done|].
    intros out [= <-]. apply Forall_fmap. eapply Forall_impl; [exact Hs|]. intros b Hb.
    split; [done|]. unfold header_ok. cbn. auto 10 with vmlab.
  - case_goal; [|done]. split; [done|]. intros out [= <-]. by apply Forall_singleton.
Qed.

(** The writer task of a stream port. *)
Definition write_all (mode : FramingMode) (ps : list Packet) : io bytes :=
  r ← collect ((λ p, write_packet p mode) <$> ps); Ok (concat r).

Lemma write_packet_ok mode p b : writable mode p → write_packet p mode = Ok b → bytes_ok b.
Proof.
  intros (Hf & Hq & Hh & _) Hw. pose proof (len_nonneg (p_frame p)). destruct mode as [|qp]; cbn [write_packet] in Hw.
  - apply write_frame_Ok in Hw as [Hl ->]. unfold MAX_FRAME_LEN in Hl.
    apply bytes_ok_app; [apply bytes_ok_be32; unfold is_u32; lia|done].
  - bind_inv Hw. case_in Hw; [done|].
    match type of Hw with Ok ?x = Ok b => assert (b = x) as -> by congruence end.
    pose proof (encode_ok _ Hh). unfold metadata.
    assert (is_u32 (wrap32 (METADATA_LEN + len (p_frame p)))) by (ints; apply Z.mod_pos_bound; lia).
    auto 20 with vmlab.
Qed.

(** C22: [read_frame] refines the flat specification. On any stream of
    non-empty pieces it returns what [deframe] says of the concatenated
    bytes: a clean EOF exactly on a boundary, [UnexpectedEof] inside a prefix
    or a body, [InvalidData] above the cap, otherwise the frame, leaving
    exactly the bytes behind it. *)
Theorem read_frame_refines_deframe (s : stream) :
  stream_ok s → bytes_ok (contents s) →
  reads (read_frame s) (deframe MAX_FRAME_LEN (contents s)).
Proof. apply read_body_deframe. Qed.
Lemma read_frame_refines_deframe_witness :
  reads (read_frame [Data [0; 0]; Data [0; 2; 7]; Data [8; 0]])
    (Ok (Some ([7; 8], [0]))).
Proof.
  apply (read_frame_refines_deframe [Data [0; 0]; Data [0; 2; 7]; Data [8; 0]]);
    [by repeat constructor|concrete].
Defined.

Lemma read_loop_written mode ps b s :
  Forall (writable mode) ps → write_all mode ps = Ok b →
  stream_ok s → contents s = b →
  read_loop (S (length ps)) mode s = (ps, Ok ()).
Proof.
  revert b s. induction ps as [|p ps IH]; intros b s Hws Hw Hs Hc.
  - injection Hw as <-. destruct s as [|q s]; [by destruct mode|].
    apply Forall_cons in Hs as [Hq _]. destruct q; [|done]. unfold contents in Hc. cbn in Hc, Hq.
    by apply app_nil in Hc as [? _].
  - apply Forall_cons in Hws as [Hwp Hws]. unfold write_all in Hw. rewrite fmap_cons in Hw. cbn [collect] in Hw.
    destruct (write_packet p mode) as [bp|k|] eqn:Hp; try done. cbn [mbind io_bind] in Hw.
    destruct (collect _) as [r|k|] eqn:Hr; try done. cbn [mbind io_bind] in Hw.
    assert (b = concat (bp :: r)) as -> by congruence. cbn [concat] in Hc.
    assert (Hrest : write_all mode ps = Ok (concat r)) by (unfold write_all; by rewrite Hr).
    assert (Hrok : bytes_ok (concat r)).
    { clear -Hr Hws. revert r Hr. induction ps as [|q ps IH]; intros r Hr; [injection Hr as <-; constructor|].
      apply Forall_cons in Hws as [Hq Hws]. rewrite fmap_cons in Hr. cbn [collect] in Hr.
      bind_inv Hr. bind_inv Hr. injection Hr as <-. cbn.
      apply bytes_ok_app; [by eapply write_packet_ok|by apply IH]. }
    destruct (write_read_packet mode p bp s (concat r) Hwp Hp Hs Hc Hrok) as (s' & E & Hc' & Hs').
    cbn [length]. remember (S (length ps)) as fuel. cbn [read_loop]. rewrite E. subst fuel.
    by rewrite (IH _ _ Hws Hrest Hs' Hc').
Qed.

(** Framing round trip. If the writer task of a port wrote a list of
    packets, the reader task of the peer in the same mode, reading the bytes
    in any pieces, delivers exactly these packets in order (header and queue
    included on a vnet port) and ends in a clean EOF. *)
Theorem stream_round_trip (mode : FramingMode) (ps : list Packet) (b : bytes) (s : stream) :
  Forall (writable mode) ps → write_all mode ps = Ok b → stream_ok s → contents s = b →
  read_loop (S (length ps)) mode s = (ps, Ok ()).
Proof. apply read_loop_written. Qed.
Definition sample_packets : list Packet :=
  [mkPacket sample_gso sample_header 1; mkPacket sample_gso Header_default 0].
Definition sample_stream : bytes :=
  match write_all (Vnet 2) sample_packets with Ok b => b | _ => [] end.
Lemma stream_round_trip_witness :
  read_loop 3 (Vnet 2) [Data (take 9 sample_stream); Data (drop 9 sample_stream)]
    = (sample_packets, Ok ()).
Proof.
  apply (stream_round_trip (Vnet 2) sample_packets sample_stream).
  - repeat constructor; concrete.
  - vm_compute. reflexivity.
  - repeat constructor; discriminate.
  - unfold contents. cbn [fmap list_fmap piece_bytes concat]. rewrite app_nil_r. apply take_drop.
Defined.

(** What [for_port] hands to a port. A vnet port without queue pairs is
    refused; otherwise it gets the packet itself on a queue below its number
    of pairs. A raw port gets packets without offload state: the packet
    itself if it had none, otherwise the completed or segmented frames. *)
Theorem for_port_correct (p : Packet) (mode : FramingMode) (mtu : Z) :
  match mode with
  | Vnet qp =>
      0 ≤ qp →
      for_port p mode mtu = (if decide (qp = 0) then Err InvalidInput
                             else Ok [mkPacket (p_frame p) (p_header p) (flow_hash (p_frame p) mod qp)]) ∧
      (qp ≠ 0 → 0 ≤ flow_hash (p_frame p) mod qp < qp)
  | Raw =>
      ∀ out, for_port p mode mtu = Ok out →
        Forall (λ q, p_header q = Header_default) out ∧
        (p_header p = Header_default → out = [p]) ∧
        (p_header p ≠ Header_default → segments (p_header p) (p_frame p) mtu = Ok (p_frame <$> out))
  end.
Proof.
  destruct mode as [|qp]; cbn.
  - intros out H. destruct (decide (p_header p = Header_default)) as [E|E].
    + injection H as <-. split; [by constructor|done].
    + bind_inv H. injection H as <-. split; [by apply Forall_fmap, Forall_true|]. split; [done|].
      intros _. rewrite E0. f_equal. rewrite <-list_fmap_compose. symmetry. by apply list_fmap_id.
  - intros Hq. split.
    + destruct (decide (qp = 0)) as [->|Hn]; [done|]. by rewrite (proj2 (Z.eqb_neq _ _)).
    + intros Hn. apply Z.mod_pos_bound. lia.
Qed.
Lemma for_port_correct_witness :
  for_port (mkPacket sample_gso sample_header 0) (Vnet 2) 1500
    = Ok [mkPacket sample_gso sample_header (flow_hash sample_gso mod 2)].
Proof. exact (proj1 (for_port_correct (mkPacket sample_gso sample_header 0) (Vnet 2) 1500 ltac:(done))). Defined.
