(* ===== verification/Fastpath.v ===== *)
(** * Kernel fast-path decisions ([ebpf/fastpath-logic/src/lib.rs])

    The framing state machine the verdict program runs on every socket
    buffer, and the redirect decisions. [tracks] relates the machine's state
    to the bytes the socket carried so far; the theorems say that the machine
    never loses the frame boundary without saying so, and that only a buffer
    holding exactly one frame is a redirect candidate. *)

From S2P Require Import Prelude Checksum Frame VnetHeader Framing.

Definition PREFIX_LEN : Z := 4.
Definition FP_ETH_HEADER_LEN : Z := 14.
Definition FP_MAX_FRAME_LEN : Z := 65536 + 14 + 4.
Definition MAX_BOUNDARIES_PER_SKB : nat := 16.
Definition FLAG_DESYNC : Z := 1.

Record FrameState := mkFrameState {
  remaining : Z; prefix_buf : bytes; prefix_have : Z; fs_flags : Z }.
Definition FrameState_default : FrameState := mkFrameState 0 [0; 0; 0; 0] 0 0.

Inductive SkbClass := Aligned (frame_len : Z) | Passthrough | Desync.

Definition set_desync (st : FrameState) : FrameState :=
  mkFrameState (remaining st) (prefix_buf st) (prefix_have st) (Z.lor (fs_flags st) FLAG_DESYNC).

(** [walk_boundaries]; [n] counts down the boundaries still allowed, and
    [read off k] loads [k] bytes of the buffer at [off]. *)
Fixpoint walk_boundaries (n : nat) (st : FrameState) (l off : Z) (read : Z → Z → option bytes)
    : FrameState * SkbClass :=
  match n with
  | O => (set_desync st, Desync)
  | S n =>
      if l <=? off then (st, Passthrough)
      else
        let start := Z.land (prefix_have st) 3 in
        let need := PREFIX_LEN - start in
        let avail := l - off in
        let take := if need <? avail then need else avail in
        match read off take with
        | None => (set_desync st, Desync)
        | Some b =>
            let buf := splice (prefix_buf st) start b in
            let have := start + take in
            let off := off + take in
            if have <? PREFIX_LEN
            then (mkFrameState (remaining st) buf have (fs_flags st), Passthrough)
            else
              let flen := u32_at buf 0 in
              let st := mkFrameState (remaining st) buf 0 (fs_flags st) in
              if FP_MAX_FRAME_LEN <? flen then (set_desync st, Desync)
              else
                let rest := l - off in
                if rest <=? flen
                then (mkFrameState (flen - rest) buf 0 (fs_flags st), Passthrough)
                else walk_boundaries n st l (off + flen) read
        end
  end.

Definition step_skb (st : FrameState) (l : Z) (read : Z → Z → option bytes)
    : FrameState * SkbClass :=
  if negb (Z.land (fs_flags st) FLAG_DESYNC =? 0) then (st, Passthrough)
  else if (0 <? remaining st) && (l <=? remaining st) then
    (mkFrameState (remaining st - l) (prefix_buf st) (prefix_have st) (fs_flags st), Passthrough)
  else
    let off := remaining st in
    let st := mkFrameState 0 (prefix_buf st) (prefix_have st) (fs_flags st) in
    if (off =? 0) && (prefix_have st =? 0) && (PREFIX_LEN <? l) then
      match read 0 4 with
      | None => (set_desync st, Desync)
      | Some b =>
          let flen := u32_at b 0 in
          if FP_MAX_FRAME_LEN <? flen then (set_desync st, Desync)
          else if (FP_ETH_HEADER_LEN <=? flen) && (flen =? l - PREFIX_LEN) then (st, Aligned flen)
          else walk_boundaries MAX_BOUNDARIES_PER_SKB st l off read
      end
    else walk_boundaries MAX_BOUNDARIES_PER_SKB st l off read.

(** ** Redirect decisions *)

Inductive FrameVerdict := Redirect (dst_port : Z) | FPass.

Definition classify_frame (dst_mac src_mac : MacAddr) (ingress_port : Z) (lookup : MacAddr → option Z)
    : FrameVerdict :=
  if negb (Z.land (idx dst_mac 0) 1 =? 0) then FPass
  else
    match lookup src_mac with
    | Some p =>
        if p =? ingress_port then
          match lookup dst_mac with
          | Some q => if negb (q =? ingress_port) then Redirect q else FPass
          | None => FPass
          end
        else FPass
    | None => FPass
    end.

Definition XDP_FLAG_ISOLATED : Z := 1.
Inductive XdpVerdict := ForwardTo (tag : Z) | Punt | XDrop.

Definition classify_xdp_guest (conf_flags my_tag : Z) (dst_mac : MacAddr) (lookup : MacAddr → option Z)
    : XdpVerdict :=
  if (Z.land conf_flags XDP_FLAG_ISOLATED =? 0) && (Z.land (idx dst_mac 0) 1 =? 0) then
    match lookup dst_mac with
    | Some tag => if tag =? my_tag then XDrop else ForwardTo tag
    | None => Punt
    end
  else Punt.

(** ** The state machine and the byte stream *)

(** One frame on the wire. *)
Definition frame_bytes (f : bytes) : bytes := be32 (len f) ++ f.

(** A read that succeeds returns the buffer's bytes. *)
Definition reads_from (skb : bytes) (read : Z → Z → option bytes) : Prop :=
  ∀ off k b, 0 ≤ off → 0 < k ≤ 4 → off + k ≤ len skb → read off k = Some b → b = slice skb off (off + k).

(** [B], the bytes carried so far, is whole frames and then what the state
    says: the first bytes of a prefix, or a prefix and a part of its frame. *)
Definition tail_ok (st : FrameState) (tail : bytes) : Prop :=
  if remaining st =? 0 then tail = take (Z.to_nat (prefix_have st)) (prefix_buf st)
  else prefix_have st = 0 ∧ 0 < remaining st ∧
       ∃ n body, tail = be32 n ++ body ∧ n ≤ FP_MAX_FRAME_LEN ∧ len body + remaining st = n.
Definition whole (fs : list bytes) : Prop := Forall (λ f, len f ≤ FP_MAX_FRAME_LEN) fs.
Definition state_ok (st : FrameState) : Prop :=
  0 ≤ prefix_have st < 4 ∧ length (prefix_buf st) = 4%nat ∧ bytes_ok (prefix_buf st) ∧ fs_flags st = 0.
Definition tracks (st : FrameState) (B : bytes) : Prop :=
  state_ok st ∧ ∃ fs tail, B = concat (frame_bytes <$> fs) ++ tail ∧ whole fs ∧ tail_ok st tail.

Lemma land3 x : 0 ≤ x < 4 → Z.land x 3 = x.
Proof. intros. change 3 with (Z.ones 2). rewrite Z.land_ones by lia. apply Z.mod_small. cbn. lia. Qed.

Lemma whole_snoc fs f : whole fs → len f ≤ FP_MAX_FRAME_LEN → whole (fs ++ [f]).
Proof. intros. apply Forall_app. split; [done|by constructor]. Qed.
Lemma concat_snoc (fs : list bytes) f :
  concat (frame_bytes <$> (fs ++ [f])) = concat (frame_bytes <$> fs) ++ frame_bytes f.
Proof. rewrite fmap_app, concat_app. cbn. by rewrite app_nil_r. Qed.

(** A completed prefix. *)
Lemma prefix_value (buf : bytes) : length buf = 4%nat → bytes_ok buf → buf = be32 (u32_at buf 0).
Proof.
  intros Hl Hok. destruct buf as [|a [|b [|c [|d [|]]]]]; try done.
  unfold u32_at. cbn. symmetry. apply be32_of_be32; unfold bytes_ok in Hok;
    rewrite !Forall_cons in Hok; tauto.
Qed.

(** Accumulating prefix bytes. *)
Lemma take_splice_acc (buf b : bytes) start :
  0 ≤ start → start + len b ≤ len buf →
  take (Z.to_nat (start + len b)) (splice buf start b) = take (Z.to_nat start) buf ++ b.
Proof.
  intros. unfold splice. rewrite app_assoc, take_app_le.
  - apply take_ge. rewrite length_app, length_take. unfold len in *. lia.
  - rewrite length_app, length_take. unfold len in *. lia.
Qed.

(** The machine sits on a boundary or inside a prefix after [off] bytes. *)
Definition at_prefix (st : FrameState) (B : bytes) : Prop :=
  state_ok st ∧ remaining st = 0 ∧
  ∃ fs, B = concat (frame_bytes <$> fs) ++ take (Z.to_nat (prefix_have st)) (prefix_buf st) ∧ whole fs.

Lemma at_prefix_tracks st B : at_prefix st B → tracks st B.
Proof.
  intros (Hs & Hr & fs & -> & Hw). split; [done|]. exists fs, (take (Z.to_nat (prefix_have st)) (prefix_buf st)).
  split; [done|]. split; [done|]. unfold tail_ok. by rewrite Hr.
Qed.

Lemma set_desync_flag st : fs_flags st = 0 → Z.land (fs_flags (set_desync st)) FLAG_DESYNC ≠ 0.
Proof. intros E. cbn. by rewrite E. Qed.

Definition step_result (B : bytes) (r : FrameState * SkbClass) : Prop :=
  match r.2 with
  | Desync => Z.land (fs_flags r.1) FLAG_DESYNC ≠ 0
  | Passthrough => tracks r.1 B
  | Aligned _ => False
  end.

Lemma walk_tracks n st skb off read B :
  reads_from skb read → bytes_ok skb → 0 ≤ off ≤ len skb →
  at_prefix st (B ++ take (Z.to_nat off) skb) →
  step_result (B ++ skb) (walk_boundaries n st (len skb) off read).
Proof.
  intros Hrd Hok. revert st off. induction n as [|n IH]; intros st off Hoff Hat;
    pose proof Hat as (Hst & Hrem & fs & HB & Hw); cbn [walk_boundaries].
  { apply set_desync_flag. apply Hst. }
  destruct (len skb <=? off) eqn:Hend; bsplit.
  { replace off with (len skb) in Hat by lia. rewrite to_nat_len, take_ge in Hat by done.
    by apply at_prefix_tracks. }
  destruct Hst as (Hh & Hbl & Hbok & Hfl). rewrite land3 by done. unfold PREFIX_LEN.
  set (start := prefix_have st) in *.
  set (k := if 4 - start <? len skb - off then 4 - start else len skb - off).
  assert (Hk : 0 < k ≤ 4 ∧ off + k ≤ len skb ∧ start + k ≤ 4 ∧ (start + k < 4 → off + k = len skb)).
  { unfold k. case_goal; bsplit; lia. }
  destruct (read off k) as [b|] eqn:Hread; [|by apply set_desync_flag].
  apply Hrd in Hread; [|lia..]. subst b. set (b := slice skb off (off + k)).
  assert (Hlb : len b = k) by (unfold b; rewrite len_slice; lia).
  set (buf := splice (prefix_buf st) start b).
  assert (Hbuf : length buf = 4%nat ∧ bytes_ok buf).
  { assert (len buf = len (prefix_buf st)) by (apply len_splice; [lia|rewrite Hlb; unfold len; lia]).
    split; [unfold len in *; lia|]. unfold buf, b. auto with vmlab. }
  assert (HB' : B ++ take (Z.to_nat (off + k)) skb
    = concat (frame_bytes <$> fs) ++ take (Z.to_nat (start + k)) buf).
  { rewrite (take_slice skb off (off + k)) by lia. rewrite app_assoc, HB, <-app_assoc. f_equal.
    unfold buf. replace (start + k) with (start + len b) by lia.
    rewrite take_splice_acc; [done|lia|]. unfold len at 2. lia. }
  destruct (start + k <? 4) eqn:Hpart; bsplit.
  { apply at_prefix_tracks. split; [split_and!; cbn; [lia|lia|apply Hbuf|apply Hbuf|done]|]. split; [done|].
    exists fs. split; [|done]. etransitivity; [|exact HB'].
    destruct Hk as (_ & _ & _ & Hke). rewrite (Hke ltac:(done)), to_nat_len, take_ge by done. done. }
  assert (Hval : take (Z.to_nat (start + k)) buf = be32 (u32_at buf 0)).
  { rewrite take_ge by lia. apply prefix_value; tauto. }
  assert (Hu : is_u32 (u32_at buf 0)) by (apply u32_at_u32; tauto). unfold is_u32 in Hu.
  rewrite Hval in HB'. set (flen := u32_at buf 0) in *.
  assert (Hst' : ∀ r, state_ok (mkFrameState r buf 0 (fs_flags st))).
  { intros r. split_and!; cbn; try done; tauto || lia. }
  destruct (FP_MAX_FRAME_LEN <? flen) eqn:Hmax; [by apply set_desync_flag|]. bsplit.
  cbn [remaining fs_flags]. destruct (len skb - (off + k) <=? flen) eqn:Hrest; bsplit.
  - split; [apply Hst'|]. assert (HBs : B ++ skb
      = concat (frame_bytes <$> fs) ++ be32 flen ++ drop (Z.to_nat (off + k)) skb).
    { rewrite app_assoc, <-HB', <-app_assoc, take_drop. done. }
    assert (Hdl : len (drop (Z.to_nat (off + k)) skb) = len skb - (off + k)) by (rewrite len_drop; lia).
    destruct (decide (flen - (len skb - (off + k)) = 0)) as [Hz|Hz].
    + exists (fs ++ [drop (Z.to_nat (off + k)) skb]), []. rewrite concat_snoc, app_nil_r, HBs.
      split; [unfold frame_bytes; by replace (len (drop _ skb)) with flen by lia|].
      split; [apply whole_snoc; [done|lia]|]. unfold tail_ok. cbn. by rewrite Hz.
    + exists fs, (be32 flen ++ drop (Z.to_nat (off + k)) skb). split; [done|]. split; [done|].
      unfold tail_ok. cbn. rewrite (proj2 (Z.eqb_neq _ _)) by done. split; [done|]. split; [lia|].
      eexists _, _. split; [done|]. lia.
  - apply IH; [lia|]. split; [rewrite Hrem; apply Hst'|]. split; [done|].
    exists (fs ++ [slice skb (off + k) (off + k + flen)]). rewrite concat_snoc. cbn [prefix_have prefix_buf].
    rewrite take_0, app_nil_r. split.
    + rewrite (take_slice skb (off + k)) by lia. rewrite app_assoc, HB', <-app_assoc. f_equal.
      unfold frame_bytes. f_equal. f_equal. rewrite len_slice; lia.
    + apply whole_snoc; [done|]. rewrite len_slice; lia.
Qed.

Lemma walk_end n st l off read :
  l ≤ off → walk_boundaries (S n) st l off read = (st, Passthrough).
Proof. intros. cbn [walk_boundaries]. by rewrite (proj2 (Z.leb_le _ _)). Qed.

(** Bytes that continue a frame begun in an earlier buffer. *)
Lemma continue_tracks st skb B :
  tracks st B → 0 < remaining st → len skb ≤ remaining st →
  tracks (mkFrameState (remaining st - len skb) (prefix_buf st) (prefix_have st) (fs_flags st)) (B ++ skb).
Proof.
  intros (Hst & fs & tail & -> & Hw & Ht) Hr Hl. split; [done|]. unfold tail_ok in *.
  rewrite (proj2 (Z.eqb_neq _ _)) in Ht by lia. destruct Ht as (Hh & _ & n & body & -> & Hn & Hb).
  cbn [remaining prefix_have prefix_buf]. destruct (decide (remaining st - len skb = 0)) as [Hz|Hz].
  - exists (fs ++ [body ++ skb]), []. rewrite concat_snoc, app_nil_r, <-!app_assoc. split.
    + unfold frame_bytes. rewrite len_app. by replace (len body + len skb) with n by lia.
    + split; [apply whole_snoc; [done|rewrite len_app; lia]|]. by rewrite Hz, Hh.
  - exists fs, (be32 n ++ body ++ skb). rewrite <-!app_assoc. split; [done|]. split; [done|].
    rewrite (proj2 (Z.eqb_neq _ _)) by done. split; [done|]. split; [lia|].
    exists n, (body ++ skb). split; [done|]. rewrite len_app. lia.
Qed.

(** Bytes that finish a frame and go on. *)
Lemma finish_at_prefix st skb B :
  tracks st B → 0 ≤ remaining st < len skb →
  at_prefix (mkFrameState 0 (prefix_buf st) (prefix_have st) (fs_flags st))
    (B ++ take (Z.to_nat (remaining st)) skb).
Proof.
  intros (Hst & fs & tail & -> & Hw & Ht) Hr. unfold tail_ok in Ht.
  split; [done|]. split; [done|]. cbn [prefix_have prefix_buf].
  destruct (decide (remaining st = 0)) as [Hz|Hz].
  - rewrite Hz in *. cbn in Ht. exists fs. rewrite take_0, app_nil_r, Ht. done.
  - rewrite (proj2 (Z.eqb_neq _ _)) in Ht by done. destruct Ht as (Hh & _ & n & body & -> & Hn & Hb).
    exists (fs ++ [body ++ take (Z.to_nat (remaining st)) skb]). rewrite concat_snoc, Hh, take_0, app_nil_r.
    assert (Hl : len (take (Z.to_nat (remaining st)) skb) = remaining st) by (rewrite len_take; lia).
    rewrite <-!app_assoc. split.
    + unfold frame_bytes. rewrite len_app, Hl. by replace (len body + remaining st) with n by lia.
    + apply whole_snoc; [done|]. rewrite len_app. lia.
Qed.

(** What one step promises. *)
Definition step_ok (st : FrameState) (B skb : bytes) (r : FrameState * SkbClass) : Prop :=
  match r.2 with
  | Aligned n =>
      tracks r.1 (B ++ skb) ∧ (∃ fs, B = concat (frame_bytes <$> fs)) ∧
      ∃ f, skb = frame_bytes f ∧ len f = n ∧ 14 ≤ n ≤ FP_MAX_FRAME_LEN
  | Passthrough => tracks r.1 (B ++ skb)
  | Desync => Z.land (fs_flags r.1) FLAG_DESYNC ≠ 0
  end.

Lemma step_result_ok st B skb r : step_result (B ++ skb) r → step_ok st B skb r.
Proof. unfold step_result, step_ok. by destruct r.2. Qed.

Lemma step_skb_ok st skb read B :
  tracks st B → bytes_ok skb → reads_from skb read →
  step_ok st B skb (step_skb st (len skb) read).
Proof.
  intros Ht Hok Hrd. pose proof Ht as ((Hh & Hbl & Hbok & Hfl) & fs & tail & HB & Hw & Htail).
  assert (Hrem : 0 ≤ remaining st).
  { unfold tail_ok in Htail. destruct (remaining st =? 0) eqn:E; bsplit; [lia|]. destruct Htail as (_ & ? & _). lia. }
  assert (Hneg : negb (Z.land (fs_flags st) FLAG_DESYNC =? 0) = false) by (by rewrite Hfl).
  unfold step_skb. rewrite Hneg.
  destruct ((0 <? remaining st) && (len skb <=? remaining st)) eqn:Hc; bsplit.
  { by apply continue_tracks. }
  assert (Hat : remaining st < len skb ∨ remaining st = 0 ∧ len skb = 0).
  { apply andb_false_iff in Hc as [Hc|Hc]; bsplit; lens; lia. }
  destruct Hat as [Hlt|[Hz Hz']].
  2:{ destruct skb as [|x skb]; [|rewrite len_cons in Hz'; pose proof (len_nonneg skb); lia].
      change (PREFIX_LEN <? len []) with false. rewrite andb_false_r.
      rewrite (walk_end 15) by (rewrite Hz; done). unfold step_ok. cbn [fst snd]. rewrite app_nil_r.
      destruct st as [r buf hv fl]. cbn in Hz. by subst r. }
  pose proof (finish_at_prefix st skb B Ht ltac:(lia)) as Hat.
  set (st0 := mkFrameState 0 (prefix_buf st) (prefix_have st) (fs_flags st)) in *.
  assert (Hwalk : step_ok st B skb (walk_boundaries MAX_BOUNDARIES_PER_SKB st0 (len skb) (remaining st) read)).
  { apply step_result_ok, walk_tracks; try done. lia. }
  change (prefix_have st0) with (prefix_have st).
  destruct ((remaining st =? 0) && _ && _) eqn:Hfast; [|exact Hwalk]. bsplit.
  unfold PREFIX_LEN in *. destruct (read 0 4) as [b|] eqn:Hread; [|by apply set_desync_flag].
  apply Hrd in Hread; [|lia..]. subst b.
  assert (Hu : u32_at (slice skb 0 (0 + 4)) 0 = u32_at skb 0).
  { unfold u32_at. by rewrite !idx_slice by lia. }
  rewrite Hu. destruct (FP_MAX_FRAME_LEN <? u32_at skb 0) eqn:Hmax; [by apply set_desync_flag|]. bsplit.
  destruct ((FP_ETH_HEADER_LEN <=? _) && _) eqn:Hal; [|exact Hwalk]. bsplit.
  unfold FP_ETH_HEADER_LEN in *.
  assert (Hsk : skb = frame_bytes (drop 4 skb)).
  { rewrite <-(take_drop 4 skb) at 1. unfold frame_bytes. f_equal. rewrite len_drop.
    replace (Z.max 0 (len skb - Z.of_nat 4)) with (u32_at skb 0) by lia.
    rewrite <-(contents_bytes_ok_prefix skb) by lia. apply prefix_value; [|auto with vmlab].
    rewrite length_take. unfold len in *. lia. }
  assert (Hfs : B = concat (frame_bytes <$> fs)).
  { unfold tail_ok in Htail. replace (remaining st) with 0 in Htail by lia. cbn in Htail.
    replace (prefix_have st) with 0 in Htail by lia. rewrite take_0 in Htail. rewrite HB, Htail, app_nil_r. done. }
  assert (Hdl : len (drop 4 skb) = u32_at skb 0) by (rewrite len_drop; lia).
  split.
  - apply at_prefix_tracks. split; [done|]. split; [done|]. exists (fs ++ [drop 4 skb]).
    cbn [fst st0 prefix_have]. replace (prefix_have st) with 0 by lia.
    change (Z.to_nat 0) with 0%nat.
    rewrite concat_snoc, take_0, app_nil_r, <-Hsk, Hfs. split; [done|]. apply whole_snoc; [done|lia].
  - split; [eauto|]. exists (drop 4 skb). split; [done|]. lia.
Qed.

(** ** What the fast path promises *)

(** C23: as long as the machine has not declared a desync, its state describes
    the stream: after any buffer the bytes so far are whole frames followed
    by the partial prefix or partial frame the state records; and a buffer it
    calls [Aligned] starts on a frame boundary and holds exactly one frame of
    that length, between an Ethernet header and the cap. *)
Theorem step_skb_tracks_stream (st : FrameState) (B skb : bytes) (read : Z → Z → option bytes) :
  tracks st B → bytes_ok skb → reads_from skb read →
  step_ok st B skb (step_skb st (len skb) read).
Proof. apply step_skb_ok. Qed.
Definition exact_read (skb : bytes) (off k : Z) : option bytes := get_range skb off (off + k).
Lemma step_skb_tracks_stream_witness :
  step_ok FrameState_default [] (frame_bytes (replicate 14 7))
    (step_skb FrameState_default (len (frame_bytes (replicate 14 7)))
       (exact_read (frame_bytes (replicate 14 7)))).
Proof.
  apply (step_skb_tracks_stream FrameState_default [] (frame_bytes (replicate 14 7))).
  - split; [split_and!; concrete|]. exists [], []. split; [done|]. split; [constructor|done].
  - concrete.
  - intros off k b ? ? ? E. unfold exact_read, get_range in E. case_in E; congruence.
Defined.

(** On a frame boundary, a buffer that is exactly one frame of acceptable
    size is recognised and leaves the machine on the boundary. *)
Theorem step_skb_recognises_frame (st : FrameState) (f : bytes) (read : Z → Z → option bytes) :
  fs_flags st = 0 → remaining st = 0 → prefix_have st = 0 →
  14 ≤ len f ≤ FP_MAX_FRAME_LEN → read 0 4 = Some (be32 (len f)) →
  step_skb st (len (frame_bytes f)) read
    = (mkFrameState 0 (prefix_buf st) 0 0, Aligned (len f)).
Proof.
  intros Hfl Hr Hh Hl Hrd. unfold step_skb. rewrite Hfl, Hr. cbn [Z.land negb Z.eqb FLAG_DESYNC Z.ltb andb Z.compare].
  cbn [prefix_have]. rewrite Hh. unfold frame_bytes. rewrite len_app, len_be32.
  rewrite (proj2 (Z.ltb_lt _ _)) by (unfold PREFIX_LEN; lia). cbn [Z.eqb andb]. rewrite Hrd.
  assert (u32_at (be32 (len f)) 0 = len f) as -> by exact (of_be32_be32 (len f)).
  rewrite (proj2 (Z.ltb_ge _ _)) by lia. unfold FP_ETH_HEADER_LEN, PREFIX_LEN.
  rewrite (proj2 (Z.leb_le 14 (len f))) by lia.
  replace (4 + len f - 4) with (len f) by lia. by rewrite !Z.eqb_refl.
Qed.
Lemma step_skb_recognises_frame_witness :
  step_skb FrameState_default (len (frame_bytes (replicate 14 7))) (λ _ _, Some (be32 14))
    = (mkFrameState 0 [0; 0; 0; 0] 0 0, Aligned 14).
Proof.
  apply (step_skb_recognises_frame FrameState_default (replicate 14 7)); try done.
Defined.
