(* ===== verification/Switch.v ===== *)
(** * The L2 switch ([src/net/switch.rs]) and its sockmap mirror
      ([src/net/fastpath/sockmap.rs], [SegmentOffload])

    The state behind the switch's mutex and atomics, one function per
    critical section, composed into the operations of the source. Egress
    queues are channels of a third-party crate: [Channel] is the one method
    the switch calls on them. Every send is logged with its egress port, so
    that the theorems speak about what leaves the switch. *)

From S2P Require Import Prelude Checksum Frame VnetHeader Framing Fastpath.

(** ** Interfaces to code outside the repository *)

(** [mpsc::Sender::try_send]: the queue after the send, or [None] when the
    message was refused (full or closed). *)
Class Channel (Tx Msg : Type) := try_send : Tx → Msg → option Tx.

(** Inserting into the kernel's bounded MAC map. *)
Class MacMap := {
  mac_map_insert : gmap MacAddr Z → MacAddr → Z → gmap MacAddr Z;
}.
(** Documented: the insertion happened, or it failed because the map is full
    and then the key was not present and the map is unchanged. *)
Class MacMapLaws `{MacMap} := {
  mac_map_insert_spec m k v :
    mac_map_insert m k v = <[k:=v]> m ∨ (m !! k = None ∧ mac_map_insert m k v = m);
}.

(** ** Data *)

Definition PORT_QUEUE_CAPACITY : Z := 512.

Inductive PortClass := Guest (isolated : bool) | Service.
#[global] Instance PortClass_eq_dec : EqDecision PortClass.
Proof. solve_decision. Defined.

Inductive HookAction :=
| HookPass
| HookDrop
| HookReplace (f : bytes)
| HookInject (forward : option bytes) (reply : list bytes).

Record PortConfig := mkPortConfig { c_framing : FramingMode; c_mtu : Z }.
Definition PortConfig_default : PortConfig := mkPortConfig Raw 1500.

Definition delivery_allowed (ingress egress : PortClass) : bool :=
  negb match ingress, egress with
       | Guest true, Guest _ => true
       | Guest _, Guest true => true
       | _, _ => false
       end.

Definition is_multicast (mac : MacAddr) : bool := negb (Z.land (idx mac 0) 1 =? 0).

(** The sockmap mirror: which ports are offloaded, and the kernel's MAC map. *)
Record SegmentOffload := mkOffload { off_ports : gset Z; off_macs : gmap MacAddr Z }.

Section switch.
Context {PTx FTx : Type} `{Channel PTx Packet} `{Channel FTx bytes} `{MacMap}.

Inductive PortTx := Packets (tx : PTx) | Frames (tx : FTx).
Record PortEntry := mkPortEntry { pe_class : PortClass; pe_tx : PortTx; pe_config : PortConfig }.

Record Switch := mkSwitch {
  ports : gmap Z PortEntry;
  macs : gmap MacAddr Z;
  next_port : Z;
  forwarded : Z;
  flooded : Z;
  dropped : Z;
  offload : option SegmentOffload }.

Definition Switch_new (off : option SegmentOffload) : Switch := mkSwitch ∅ ∅ 0 0 0 0 off.

(** ** Small updates *)

Definition set_ports sw p := mkSwitch p (macs sw) (next_port sw) (forwarded sw) (flooded sw) (dropped sw) (offload sw).
Definition set_macs sw m := mkSwitch (ports sw) m (next_port sw) (forwarded sw) (flooded sw) (dropped sw) (offload sw).
Definition set_offload sw o := mkSwitch (ports sw) (macs sw) (next_port sw) (forwarded sw) (flooded sw) (dropped sw) o.
Definition count sw (f fl d : Z) :=
  mkSwitch (ports sw) (macs sw) (next_port sw) (forwarded sw + f) (flooded sw + fl) (dropped sw + d) (offload sw).

(** ** The sockmap mirror *)

Definition off_add_port (o : SegmentOffload) (id : Z) : SegmentOffload :=
  mkOffload ({[id]} ∪ off_ports o) (off_macs o).

Definition relearn (o : SegmentOffload) (mac : MacAddr) (port : Z) : SegmentOffload :=
  if decide (port ∈ off_ports o)
  then mkOffload (off_ports o) (mac_map_insert (off_macs o) mac port)
  else mkOffload (off_ports o) (delete mac (off_macs o)).

(** Both branches of the source scrub the purged MACs. *)
Definition off_remove_port (o : SegmentOffload) (id : Z) (purged : list MacAddr) : SegmentOffload :=
  mkOffload (off_ports o ∖ {[id]}) (foldr delete (off_macs o) purged).

(** ** Ports *)

Definition alloc_port (sw : Switch) : Switch * Z :=
  (mkSwitch (ports sw) (macs sw) (next_port sw + 1) (forwarded sw) (flooded sw) (dropped sw) (offload sw),
   next_port sw).

Definition attach (sw : Switch) (id : Z) (class : PortClass) (tx : PTx) (config : PortConfig) : Switch :=
  set_ports sw (<[id := mkPortEntry class (Packets tx) config]> (ports sw)).

(** Registering a stream port: [register] is the outcome of the kernel calls
    of [off.add_port]. *)
Definition add_stream_port_with_config (sw : Switch) (tx : PTx) (class : PortClass)
    (config : PortConfig) (register : bool) : Switch * Z :=
  let '(sw, id) := alloc_port sw in
  let sw := attach sw id class tx config in
  match offload sw, class, c_framing config with
  | Some off, Guest false, Raw =>
      if register then (set_offload sw (Some (off_add_port off id)), id) else (sw, id)
  | _, _, _ => (sw, id)
  end.

Definition add_channel_port_with_mtu (sw : Switch) (tx : FTx) (class : PortClass) (mtu : Z)
    : Switch * Z :=
  let '(sw, id) := alloc_port sw in
  (set_ports sw (<[id := mkPortEntry class (Frames tx) (mkPortConfig Raw mtu)]> (ports sw)), id).

(** [remove_port] under the switch lock: the MACs it purged, or [None] when
    the port was already gone. *)
Definition remove_port_locked (sw : Switch) (id : Z) : Switch * option (list MacAddr) :=
  match ports sw !! id with
  | None => (sw, None)
  | Some _ =>
      let purged := (map_to_list (filter (λ kv, kv.2 = id) (macs sw))).*1 in
      (set_macs (set_ports sw (delete id (ports sw))) (filter (λ kv, kv.2 ≠ id) (macs sw)),
       Some purged)
  end.
(** ... and after it released the lock. *)
Definition remove_port_offload (sw : Switch) (id : Z) (purged : list MacAddr) : Switch :=
  match offload sw with
  | Some off => set_offload sw (Some (off_remove_port off id purged))
  | None => sw
  end.
Definition remove_port (sw : Switch) (id : Z) : Switch :=
  match remove_port_locked sw id with
  | (sw, None) => sw
  | (sw, Some purged) => remove_port_offload sw id purged
  end.

(** ** Delivery *)

Definition send (e : PortEntry) (p : Packet) : option PortEntry :=
  match pe_tx e with
  | Packets tx => (λ tx, mkPortEntry (pe_class e) (Packets tx) (pe_config e)) <$> try_send tx p
  | Frames tx => (λ tx, mkPortEntry (pe_class e) (Frames tx) (pe_config e)) <$> try_send tx (p_frame p)
  end.

(** The result of [deliver]: the port after it, what was queued, how many
    packets were dropped. [delivered] is "something was queued". *)
Record Delivery := mkDelivery { d_entry : PortEntry; d_sent : list Packet; d_drops : Z }.
Definition delivered (d : Delivery) : bool := match d_sent d with [] => false | _ => true end.

Definition deliver_one (d : Delivery) (p : Packet) : Delivery :=
  match send (d_entry d) p with
  | Some e => mkDelivery e (d_sent d ++ [p]) (d_drops d)
  | None => mkDelivery (d_entry d) (d_sent d) (d_drops d + 1)
  end.
Definition deliver (e : PortEntry) (p : Packet) : outcome Delivery :=
  match for_port p (c_framing (pe_config e)) (c_mtu (pe_config e)) with
  | Ok packets => Ret (foldl deliver_one (mkDelivery e [] 0) packets)
  | Err _ => Ret (mkDelivery e [] 1)
  | Crash => Panic
  end.

(** One logged send: egress port and packet. *)
Abbreviation log := (list (Z * Packet)) (only parsing).

Definition commit (sw : Switch) (id : Z) (d : Delivery) : Switch * log :=
  (count (set_ports sw (<[id := d_entry d]> (ports sw))) 0 0 (d_drops d), (λ p, (id, p)) <$> d_sent d).

(** ** Forwarding *)

Definition learn (sw : Switch) (src : MacAddr) (port : Z) : Switch :=
  if is_multicast src then sw
  else
    let prev := macs sw !! src in
    let sw := set_macs sw (<[src := port]> (macs sw)) in
    if decide (prev ≠ Some port) then
      match offload sw with
      | Some off => set_offload sw (Some (relearn off src port))
      | None => sw
      end
    else sw.

(** The flood loop over the port table, in the table's iteration order;
    [n] counts the ports reached. *)
Fixpoint flood_loop (sw : Switch) (order : list Z) (port : Z) (class : PortClass) (p : Packet)
    (n : Z) (l : log) : outcome (Switch * Z * log) :=
  match order with
  | [] => Ret (sw, n, l)
  | id :: order =>
      match ports sw !! id with
      | None => flood_loop sw order port class p n l
      | Some entry =>
          if bool_decide (id = port) || negb (delivery_allowed class (pe_class entry))
          then flood_loop sw order port class p n l
          else
            d ← deliver entry p;
            let '(sw, sent) := commit sw id d in
            flood_loop sw order port class p (if delivered d then n + 1 else n) (l ++ sent)
      end
  end.

Definition forward_packet (sw : Switch) (order : list Z) (port : Z) (class : PortClass) (p : Packet)
    : outcome (Switch * log) :=
  let frame := p_frame p in
  if len frame <? ETH_HEADER_LEN then Ret (count sw 0 0 1, [])
  else
    let dst := slice frame 0 6 in
    let src := slice frame 6 12 in
    let sw := learn sw src port in
    let unicast_target := if is_multicast dst then None else macs sw !! dst in
    match unicast_target with
    | Some target =>
        if decide (target ≠ port) then
          match ports sw !! target with
          | None => Ret (count sw 0 0 1, [])
          | Some entry =>
              if negb (delivery_allowed class (pe_class entry)) then Ret (count sw 0 0 1, [])
              else
                d ← deliver entry p;
                let '(sw, sent) := commit sw target d in
                Ret (if delivered d then count sw 1 0 0 else sw, sent)
          end
        else Ret (count sw 0 0 1, [])
    | None =>
        r ← flood_loop sw order port class p 0 [];
        let '(sw, n, sent) := r in
        Ret (if 0 <? n then count sw 0 1 0 else count sw 0 0 1, sent)
    end.

(** ** Ingress *)

Definition ingress_lookup (sw : Switch) (port : Z) : option (PortClass * Z) :=
  (λ e, (pe_class e, c_mtu (pe_config e))) <$> ports sw !! port.

(** [rewritten]: the packets a hook's replacement frame becomes, and the
    drop count. *)
Definition rewritten (original : Packet) (frame : bytes) (mtu : Z) : outcome (list Packet * Z) :=
  if h_gso_type (p_header original) =? GSO_NONE then Ret ([Packet_raw frame], 0)
  else
    match segments (p_header original) frame mtu with
    | Ok frames => Ret (Packet_raw <$> (frames : list bytes), 0)
    | Err _ => Ret ([], 1)
    | Crash => Panic
    end.

(** Replies queued back out the ingress port. *)
Fixpoint inject (sw : Switch) (port : Z) (reply : list bytes) : outcome (Switch * log) :=
  match reply with
  | [] => Ret (sw, [])
  | r :: reply =>
      match ports sw !! port with
      | None => Ret (sw, [])
      | Some e =>
          d ← deliver e (Packet_raw r);
          let '(sw, sent) := commit sw port d in
          rest ← inject sw port reply;
          Ret (rest.1, sent ++ rest.2)
      end
  end.

(** The hook's verdict applied: the switch, the replies sent, the packets to
    forward. *)
Definition apply_hook (sw : Switch) (port mtu : Z) (packet : Packet) (action : HookAction)
    : outcome (Switch * log * list Packet) :=
  match action with
  | HookPass => Ret (sw, [], [packet])
  | HookDrop => Ret (count sw 0 0 1, [], [])
  | HookReplace f =>
      r ← rewritten packet f mtu; Ret (count sw 0 0 r.2, [], r.1)
  | HookInject forward reply =>
      s ← inject sw port reply;
      match forward with
      | None => Ret (s.1, s.2, [])
      | Some f => r ← rewritten packet f mtu; Ret (count s.1 0 0 r.2, s.2, r.1)
      end
  end.

Fixpoint forward_all (sw : Switch) (orders : list (list Z)) (port : Z) (class : PortClass)
    (ps : list Packet) : outcome (Switch * log) :=
  match ps with
  | [] => Ret (sw, [])
  | p :: ps =>
      r ← forward_packet sw (hd [] orders) port class p;
      rest ← forward_all r.1 (tl orders) port class ps;
      Ret (rest.1, r.2 ++ rest.2)
  end.

(** [ingress_packet] run without interleaving: [hook] is the installed hook,
    [orders] the port table's iteration order at each flood. The second log
    component holds the replies, the third the forwarded sends. *)
Definition ingress_packet (sw : Switch) (hook : option (Z → PortClass → bytes → HookAction))
    (orders : list (list Z)) (port : Z) (packet : Packet) : outcome (Switch * log * log) :=
  match ingress_lookup sw port with
  | None => Ret (sw, [], [])
  | Some (class, mtu) =>
      let action := match hook with Some h => h port class (p_frame packet) | None => HookPass end in
      a ← apply_hook sw port mtu packet action;
      let '(sw, replies, forward) := a in
      r ← forward_all sw orders port class forward;
      Ret (r.1, replies, r.2)
  end.

End switch.
Arguments Switch PTx FTx : clear implicits.
Arguments PortEntry PTx FTx : clear implicits.

(** ** Frame conditions of the operations *)

Section facts.
Context {PTx FTx : Type} `{Channel PTx Packet} `{Channel FTx bytes} `{MacMap}.
Implicit Types (sw : Switch PTx FTx) (e : PortEntry PTx FTx).

(** Two port tables with the same ports, classes and configurations. *)
Definition shape e : PortClass * PortConfig := (pe_class e, pe_config e).
Definition same_ports sw sw' : Prop := ∀ id, shape <$> ports sw' !! id = shape <$> ports sw !! id.

Lemma same_ports_refl sw : same_ports sw sw.
Proof. done. Qed.
Lemma same_ports_trans sw1 sw2 sw3 : same_ports sw1 sw2 → same_ports sw2 sw3 → same_ports sw1 sw3.
Proof. intros H12 H23 id. by rewrite H23. Qed.
Lemma same_ports_lookup sw sw' id e' :
  same_ports sw sw' → ports sw' !! id = Some e' → ∃ e, ports sw !! id = Some e ∧ shape e' = shape e.
Proof.
  intros Hs E. specialize (Hs id). rewrite E in Hs. cbn in Hs. symmetry in Hs.
  apply fmap_Some in Hs as (e & ? & ?). eauto.
Qed.

Lemma send_same e p e' : send e p = Some e' → shape e' = shape e.
Proof. unfold send. destruct (pe_tx e); destruct (try_send _ _); cbn; intros; by simplify_eq. Qed.

(** [deliver] changes only the queue, logs copies the configuration allows,
    and reports "delivered" exactly when something was queued. *)
Lemma deliver_fold d ps :
  shape (d_entry (foldl deliver_one d ps)) = shape (d_entry d).
Proof.
  revert d. induction ps as [|p ps IH]; intros d; cbn; [done|].
  rewrite IH. unfold deliver_one. destruct (send (d_entry d) p) as [e'|] eqn:E.
  - by apply send_same in E.
  - done.
Qed.
Lemma deliver_same e p d : deliver e p = Ret d → shape (d_entry d) = shape e.
Proof.
  unfold deliver. case_goal; intros; simplify_eq; [|done].
  apply (deliver_fold (mkDelivery e [] 0)).
Qed.

Lemma commit_same sw id e d :
  ports sw !! id = Some e → shape (d_entry d) = shape e → same_ports sw (commit sw id d).1.
Proof.
  intros E Hs id'. cbn. destruct (decide (id = id')) as [->|Hn].
  - rewrite lookup_insert_eq, E. cbn. by rewrite Hs.
  - by rewrite lookup_insert_ne.
Qed.

(** What forwarding leaves alone. *)
Definition same_rest sw sw' : Prop :=
  macs sw' = macs sw ∧ next_port sw' = next_port sw ∧ offload sw' = offload sw.

(** The ports a frame of class [class] from [port] may leave by. *)
Definition may_leave sw (port : Z) (class : PortClass) (id : Z) : Prop :=
  id ≠ port ∧ ∃ e, ports sw !! id = Some e ∧ delivery_allowed class (pe_class e) = true.

Lemma may_leave_same sw sw' port class id :
  same_ports sw sw' → may_leave sw' port class id → may_leave sw port class id.
Proof.
  intros Hs (Hn & e' & E & Ha). split; [done|].
  destruct (same_ports_lookup _ _ _ _ Hs E) as (e & ? & [= Hc _]). exists e. by rewrite <-Hc.
Qed.

Lemma flood_loop_spec sw order port class p n l sw' n' l' :
  flood_loop sw order port class p n l = Ret (sw', n', l') →
  same_ports sw sw' ∧ same_rest sw sw' ∧
  ∃ sent, l' = l ++ sent ∧ Forall (λ x, may_leave sw port class x.1) sent.
Proof.
  revert sw n l. induction order as [|id order IH]; intros sw n l Hr; cbn [flood_loop] in Hr.
  - simplify_eq. split; [apply same_ports_refl|]. split; [done|]. exists []. by rewrite app_nil_r.
  - destruct (ports sw !! id) as [e|] eqn:E; [|by apply IH in Hr].
    destruct (_ || _) eqn:Hskip; [by apply IH in Hr|]. bsplit.
    destruct (deliver e p) as [d|] eqn:Hd; [|done]. cbn [mbind outcome_bind] in Hr.
    pose proof (commit_same sw id e d E (deliver_same _ _ _ Hd)) as Hs.
    destruct (commit sw id d) as [sw1 sent] eqn:Hc. cbn [fst] in Hs.
    assert (Hr1 : same_rest sw sw1) by (unfold commit in Hc; by simplify_eq).
    apply IH in Hr as (Hs' & (R1 & R2 & R3) & sent' & -> & Hall).
    split; [by eapply same_ports_trans|]. destruct Hr1 as (Q1 & Q2 & Q3).
    split; [split; [congruence|split; congruence]|].
    exists (sent ++ sent'). rewrite <-app_assoc. split; [done|]. apply Forall_app. split.
    + unfold commit in Hc. injection Hc as _ <-. apply Forall_fmap, Forall_forall. intros q _. cbn.
      match goal with E : bool_decide _ = false |- _ => apply bool_decide_eq_false in E end. split; [done|]. eauto.
    + eapply Forall_impl; [exact Hall|]. intros x. by apply may_leave_same.
Qed.

Lemma learn_ports sw src port : ports (learn sw src port) = ports sw ∧ next_port (learn sw src port) = next_port sw.
Proof. unfold learn. repeat case_goal; done. Qed.

(** Everything [forward_packet] does, seen from outside: the sends go to
    ports the frame may leave by, the table keeps its ports and classes, and
    the MAC table and its kernel mirror change by learning only. *)
Lemma forward_packet_spec sw order port class p sw' l :
  forward_packet sw order port class p = Ret (sw', l) →
  same_ports sw sw' ∧ next_port sw' = next_port sw ∧
  Forall (λ x, may_leave sw port class x.1) l ∧
  let learned := if len (p_frame p) <? 14 then sw else learn sw (slice (p_frame p) 6 12) port in
  macs sw' = macs learned ∧ offload sw' = offload learned.
Proof.
  unfold forward_packet. change ETH_HEADER_LEN with 14. cbv zeta.
  destruct (len (p_frame p) <? 14).
  { intros; simplify_eq. split; [by intros id|]. split; [done|]. split; [constructor|done]. }
  set (src := slice (p_frame p) 6 12). set (sw1 := learn sw src port).
  destruct (learn_ports sw src port) as [Hp Hn]. fold sw1 in Hp, Hn.
  assert (Hs1 : ∀ s, ports s = ports sw1 → same_ports sw s).
  { intros s E id. by rewrite E, Hp. }
  destruct (if is_multicast _ then None else _) as [target|].
  - destruct (decide (target ≠ port)) as [Ht|Ht].
    2:{ intros; simplify_eq. split; [by apply Hs1|]. split; [done|]. split; [constructor|done]. }
    destruct (ports sw1 !! target) as [e|] eqn:E.
    2:{ intros; simplify_eq. split; [by apply Hs1|]. split; [done|]. split; [constructor|done]. }
    destruct (negb _) eqn:Hal.
    { intros; simplify_eq. split; [by apply Hs1|]. split; [done|]. split; [constructor|done]. }
    apply negb_false_iff in Hal. destruct (deliver e p) as [d|] eqn:Hd; [|done].
    cbn [mbind outcome_bind]. pose proof (commit_same sw1 target e d E (deliver_same _ _ _ Hd)) as Hs.
    unfold commit in *. cbn [fst] in Hs. cbv zeta. intros Hr.
    assert (Hl : l = (λ q, (target, q)) <$> d_sent d) by (destruct (delivered d); congruence).
    assert (Hsw : ports sw' = <[target := d_entry d]> (ports sw1) ∧ next_port sw' = next_port sw1 ∧
      macs sw' = macs sw1 ∧ offload sw' = offload sw1).
    { destruct (delivered d); injection Hr as <- _; done. }
    destruct Hsw as (Hports & Hnx & Hm & Ho). split.
    { apply (same_ports_trans _ sw1); [by apply Hs1|]. intros id. rewrite Hports. exact (Hs id). }
    split; [congruence|]. split; [|done]. rewrite Hl. apply Forall_fmap, Forall_forall. intros q _. cbn.
    split; [done|]. exists e. by rewrite <-Hp.
  - destruct (flood_loop sw1 order port class p 0 []) as [[[sw2 n] sent]|] eqn:Hf; [|done].
    apply flood_loop_spec in Hf as (Hs & (R1 & R2 & R3) & sent' & -> & Hall).
    cbn [mbind outcome_bind app]. intros Hr.
    assert (Hsw : ports sw' = ports sw2 ∧ next_port sw' = next_port sw2 ∧ macs sw' = macs sw2 ∧
      offload sw' = offload sw2 ∧ l = sent') by (destruct (0 <? n); injection Hr as <- <-; done).
    destruct Hsw as (Hports & Hnx & Hm & Ho & ->).
    assert (Hs2 : same_ports sw sw2) by (apply (same_ports_trans _ sw1); [by apply Hs1|done]).
    split; [intros id; rewrite Hports; apply Hs2|]. split; [congruence|].
    split; [|split; congruence]. eapply Forall_impl; [exact Hall|]. intros x. apply may_leave_same. by apply Hs1.
Qed.
End facts.

(** ** The switch under concurrency

    Every port has its own reader task, ports come and go, and the kernel
    redirects on its own. A step is one critical section: reading the ingress
    port's class, running the hook, forwarding one packet, the two halves of
    [remove_port]. Tasks interleave freely; [s_looked] and [s_inflight] hold
    what reader tasks carry from one critical section to the next. *)

Section system.
Context {PTx FTx : Type} `{Channel PTx Packet} `{Channel FTx bytes} `{MacMap} `{!MacMapLaws}.
Implicit Types (sw : Switch PTx FTx).

Inductive event :=
| Sent (src dst : Z) (p : Packet)
| Replied (port : Z) (p : Packet)
| Redirected (src dst : Z).

Record Sys := mkSys {
  s_sw : Switch PTx FTx;
  s_born : gmap Z PortClass;       (* class of every port ever attached *)
  s_looked : list (Z * PortClass * Z * Packet);
  s_inflight : list (Z * PortClass * Packet);
  s_removing : list (Z * list MacAddr);
  s_trace : list event }.

Definition Sys_new (off : bool) : Sys :=
  mkSys (Switch_new (if off then Some (mkOffload ∅ ∅) else None)) ∅ [] [] [] [].

Inductive sys_step : Sys → Sys → Prop :=
| step_add_stream sw born lk fl rm tr tx class config register sw' id :
    add_stream_port_with_config sw tx class config register = (sw', id) →
    sys_step (mkSys sw born lk fl rm tr) (mkSys sw' (<[id:=class]> born) lk fl rm tr)
| step_add_channel sw born lk fl rm tr tx class mtu sw' id :
    add_channel_port_with_mtu sw tx class mtu = (sw', id) →
    sys_step (mkSys sw born lk fl rm tr) (mkSys sw' (<[id:=class]> born) lk fl rm tr)
| step_lookup sw born lk fl rm tr port p class mtu :
    ingress_lookup sw port = Some (class, mtu) →
    sys_step (mkSys sw born lk fl rm tr) (mkSys sw born (lk ++ [(port, class, mtu, p)]) fl rm tr)
| step_hook sw born lk1 lk2 fl rm tr port class mtu p action sw' replies forward :
    apply_hook sw port mtu p action = Ret (sw', replies, forward) →
    sys_step (mkSys sw born (lk1 ++ (port, class, mtu, p) :: lk2) fl rm tr)
      (mkSys sw' born (lk1 ++ lk2) (fl ++ ((λ q, (port, class, q)) <$> forward)) rm
         (tr ++ ((λ x, Replied x.1 x.2) <$> replies)))
| step_forward sw born lk fl1 fl2 rm tr port class p order sw' l :
    forward_packet sw order port class p = Ret (sw', l) →
    sys_step (mkSys sw born lk (fl1 ++ (port, class, p) :: fl2) rm tr)
      (mkSys sw' born lk (fl1 ++ fl2) rm (tr ++ ((λ x, Sent port x.1 x.2) <$> l)))
| step_remove sw born lk fl rm tr id sw' purged :
    remove_port_locked sw id = (sw', Some purged) →
    sys_step (mkSys sw born lk fl rm tr) (mkSys sw' born lk fl (rm ++ [(id, purged)]) tr)
| step_remove_offload sw born lk fl rm1 rm2 tr id purged :
    sys_step (mkSys sw born lk fl (rm1 ++ (id, purged) :: rm2) tr)
      (mkSys (remove_port_offload sw id purged) born lk fl (rm1 ++ rm2) tr)
| step_kernel sw born lk fl rm tr off port dst src q :
    offload sw = Some off → port ∈ off_ports off →
    classify_frame dst src port (λ m, off_macs off !! m) = Redirect q →
    sys_step (mkSys sw born lk fl rm tr) (mkSys sw born lk fl rm (tr ++ [Redirected port q])).

(** ** Invariant *)

(** Who may talk to whom: a service port with everyone, guests with each other
    unless one of them is isolated. *)
Definition may_exchange (c c' : PortClass) : Prop :=
  c = Service ∨ c' = Service ∨ (c = Guest false ∧ c' = Guest false).

Lemma delivery_allowed_spec c c' : delivery_allowed c c' = true ↔ may_exchange c c'.
Proof. unfold may_exchange. destruct c as [[]|], c' as [[]|]; simpl; naive_solver. Qed.

Definition event_ok (born : gmap Z PortClass) (ev : event) : Prop :=
  match ev with
  | Sent src dst _ | Redirected src dst =>
      src ≠ dst ∧ ∃ c c', born !! src = Some c ∧ born !! dst = Some c' ∧ may_exchange c c'
  | Replied _ _ => True
  end.

Record sys_inv (s : Sys) : Prop := {
  inv_ports : ∀ id e, ports (s_sw s) !! id = Some e → s_born s !! id = Some (pe_class e);
  inv_born : ∀ id c, s_born s !! id = Some c → 0 ≤ id < next_port (s_sw s);
  inv_next : 0 ≤ next_port (s_sw s);
  inv_looked : Forall (λ x, s_born s !! x.1.1.1 = Some x.1.1.2) (s_looked s);
  inv_inflight : Forall (λ x, s_born s !! x.1.1 = Some x.1.2) (s_inflight s);
  inv_off_ports : ∀ off id, offload (s_sw s) = Some off → id ∈ off_ports off →
    s_born s !! id = Some (Guest false);
  inv_off_macs : ∀ off m id, offload (s_sw s) = Some off → off_macs off !! m = Some id →
    s_born s !! id = Some (Guest false);
  inv_trace : Forall (event_ok (s_born s)) (s_trace s);
}.

Lemma Sys_new_inv off : sys_inv (Sys_new off).
Proof.
  split; cbn; try done; try (intros *; by rewrite lookup_empty).
  - destruct off; intros o id Ho; simplify_eq; cbn; set_solver.
  - destruct off; intros o m id Ho; simplify_eq; cbn; by rewrite lookup_empty.
Qed.

Lemma event_ok_mono born born' ev : born ⊆ born' → event_ok born ev → event_ok born' ev.
Proof.
  intros Hsub. destruct ev; cbn; try done; intros (Hn & c & c' & Hc & Hc' & Ha);
    (split; [done|]); exists c, c'; split_and!; try done; by eapply lookup_weaken.
Qed.

(** The inner state of the switch may change freely as long as the table's
    shape, the id counter and the mirror keep their facts. *)
Definition mirror_ok (born : gmap Z PortClass) (o : option SegmentOffload) : Prop :=
  ∀ off, o = Some off →
    (∀ id, id ∈ off_ports off → born !! id = Some (Guest false)) ∧
    (∀ m id, off_macs off !! m = Some id → born !! id = Some (Guest false)).

Lemma sys_inv_mirror s : sys_inv s → mirror_ok (s_born s) (offload (s_sw s)).
Proof. intros Hi off Ho. split; [intros id; by eapply inv_off_ports|intros m id; by eapply inv_off_macs]. Qed.

Lemma sys_inv_update sw sw' born lk fl rm tr lk' fl' rm' tr' :
  sys_inv (mkSys sw born lk fl rm tr) → same_ports sw sw' → next_port sw' = next_port sw →
  mirror_ok born (offload sw') →
  Forall (λ x, born !! x.1.1.1 = Some x.1.1.2) lk' → Forall (λ x, born !! x.1.1 = Some x.1.2) fl' →
  Forall (event_ok born) tr' →
  sys_inv (mkSys sw' born lk' fl' rm' tr').
Proof.
  intros [Hp Hb Hn _ _ _ _ _] Hs Hnx Hm Hlk Hfl Htr. split; cbn in *; try done.
  - intros id e' E. destruct (same_ports_lookup _ _ _ _ Hs E) as (e & E' & [= -> _]). by apply Hp.
  - rewrite Hnx. done.
  - by rewrite Hnx.
  - intros off id Ho. by apply (Hm off Ho).
  - intros off m id Ho. by apply (Hm off Ho).
Qed.

Lemma relearn_mirror born off m port :
  mirror_ok born (Some off) → mirror_ok born (Some (relearn off m port)).
Proof.
  intros Hm o [= <-]. destruct (Hm off eq_refl) as [Hp Hmac]. unfold relearn.
  case_decide as Hin; (split; cbn; [done|]); intros m' id Hl.
  - destruct (mac_map_insert_spec (off_macs off) m port) as [E|[_ E]]; rewrite E in Hl; [|eauto].
    rewrite lookup_insert in Hl. case_decide; simplify_eq; eauto.
  - apply lookup_delete_Some in Hl as [_ Hl]. eauto.
Qed.
Lemma learn_mirror born sw src port :
  mirror_ok born (offload sw) → mirror_ok born (offload (learn sw src port)).
Proof.
  intros Hm. unfold learn. destruct (is_multicast src); [done|]. cbv zeta. case_decide; [|done].
  cbn [offload set_macs]. destruct (offload sw) as [off|] eqn:E; [|cbn; by rewrite E].
  cbn. by apply relearn_mirror.
Qed.

Lemma foldr_delete_Some (m : gmap MacAddr Z) l k v : foldr delete m l !! k = Some v → m !! k = Some v.
Proof.
  induction l as [|x l IH]; cbn; [done|]. intros [_ Hl]%lookup_delete_Some. auto.
Qed.

Lemma inject_spec sw port reply sw' l :
  inject sw port reply = Ret (sw', l) →
  same_ports sw sw' ∧ same_rest sw sw' ∧ Forall (λ x, x.1 = port) l.
Proof.
  revert sw sw' l. induction reply as [|r reply IH]; intros sw sw' l; cbn [inject].
  - intros; simplify_eq. split; [apply same_ports_refl|]. split; [done|constructor].
  - destruct (ports sw !! port) as [e|] eqn:E;
      [|intros; simplify_eq; split; [apply same_ports_refl|split; [done|constructor]]].
    destruct (deliver e (Packet_raw r)) as [d|] eqn:Hd; [|done]. cbn [mbind outcome_bind].
    pose proof (commit_same sw port e d E (deliver_same _ _ _ Hd)) as Hs.
    unfold commit in *. cbn [fst] in Hs. cbv zeta.
    destruct (inject _ port reply) as [[sw2 l2]|] eqn:Hi; [|done]. cbn. intros; simplify_eq.
    apply IH in Hi as (Hs2 & (R1 & R2 & R3) & Hl2). split; [by eapply same_ports_trans|].
    split; [done|]. apply Forall_app. split; [|done]. apply Forall_fmap, Forall_forall. done.
Qed.

Lemma apply_hook_spec sw port mtu p action sw' replies forward :
  apply_hook sw port mtu p action = Ret (sw', replies, forward) →
  same_ports sw sw' ∧ same_rest sw sw' ∧ Forall (λ x, x.1 = port) replies.
Proof.
  destruct action as [| |f|fwd reply]; cbn [apply_hook].
  - intros; simplify_eq. split; [apply same_ports_refl|]. split; [done|constructor].
  - intros; simplify_eq. split; [by intros id|]. split; [done|constructor].
  - destruct (rewritten p f mtu) as [[ps d]|]; [|done]. cbn. intros; simplify_eq.
    split; [by intros id|]. split; [done|constructor].
  - destruct (inject sw port reply) as [[sw1 l1]|] eqn:Hi; [|done]. cbn [mbind outcome_bind fst snd].
    apply inject_spec in Hi as (Hs & Hr & Hl). destruct fwd as [f|]; [|intros; by simplify_eq].
    destruct (rewritten p f mtu) as [[ps d]|]; [|done]. cbn. intros; simplify_eq. done.
Qed.

(** Attaching a port: a fresh id, its class recorded at birth. *)
Lemma add_port_inv sw sw' born lk fl rm tr id class e :
  sys_inv (mkSys sw born lk fl rm tr) →
  id = next_port sw → ports sw' = <[id := e]> (ports sw) → pe_class e = class →
  next_port sw' = next_port sw + 1 →
  (∀ off', offload sw' = Some off' → ∃ off, offload sw = Some off ∧ off_macs off' = off_macs off ∧
     (off_ports off' = off_ports off ∨ class = Guest false ∧ off_ports off' = {[id]} ∪ off_ports off)) →
  sys_inv (mkSys sw' (<[id:=class]> born) lk fl rm tr).
Proof.
  intros [Hp Hb Hn Hlk Hfl Hop Hom Htr] -> Hports Hc Hnx Hoff. cbn in *.
  assert (Hfresh : born !! next_port sw = None).
  { destruct (born !! next_port sw) eqn:E; [|done]. apply Hb in E. lia. }
  assert (Hsub : born ⊆ <[next_port sw:=class]> born) by (by apply insert_subseteq).
  assert (Hlift : ∀ k c, born !! k = Some c → <[next_port sw:=class]> born !! k = Some c).
  { intros k c Hk. by eapply lookup_weaken. }
  split; cbn.
  - intros id e' E. rewrite Hports, lookup_insert in E. case_decide; simplify_eq.
    + by rewrite lookup_insert_eq.
    + apply Hlift. by apply Hp.
  - intros k c E. rewrite lookup_insert in E. case_decide; simplify_eq; [lia|]. apply Hb in E. lia.
  - lia.
  - eapply Forall_impl; [exact Hlk|]. intros x. apply Hlift.
  - eapply Forall_impl; [exact Hfl|]. intros x. apply Hlift.
  - intros off' id Ho Hin. destruct (Hoff _ Ho) as (off & Eo & _ & [Ep|[Hg Ep]]); rewrite Ep in Hin.
    + apply Hlift. by eapply Hop.
    + apply elem_of_union in Hin as [Hin|Hin]; [|apply Hlift; by eapply Hop].
      apply elem_of_singleton in Hin as ->. rewrite lookup_insert_eq. by rewrite Hg.
  - intros off' m id Ho Hin. destruct (Hoff _ Ho) as (off & Eo & Em & _). rewrite Em in Hin.
    apply Hlift. by eapply Hom.
  - eapply Forall_impl; [exact Htr|]. intros ev. by apply event_ok_mono.
Qed.

Lemma remove_mirror born off id purged :
  mirror_ok born (Some off) → mirror_ok born (Some (off_remove_port off id purged)).
Proof.
  intros Hm o [= <-]. destruct (Hm off eq_refl) as [Hp Hmac]. split; cbn.
  - intros id' Hin. apply elem_of_difference in Hin as [Hin _]. auto.
  - intros m id' Hl. eapply Hmac. by eapply foldr_delete_Some.
Qed.

Lemma sys_step_inv s s' : sys_step s s' → sys_inv s → sys_inv s'.
Proof.
  intros Hst Hi. pose proof (sys_inv_mirror _ Hi) as Hm. destruct Hst as
    [sw born lk fl rm tr tx class config register sw' id Ha
    |sw born lk fl rm tr tx class mtu sw' id Ha
    |sw born lk fl rm tr port p class mtu Hl
    |sw born lk1 lk2 fl rm tr port class mtu p action sw' replies forward Hh
    |sw born lk fl1 fl2 rm tr port class p order sw' l Hf
    |sw born lk fl rm tr id sw' purged Hr
    |sw born lk fl rm1 rm2 tr id purged
    |sw born lk fl rm tr off port dst src q Ho Hin Hc]; cbn in Hm;
    pose proof (inv_looked _ Hi) as Ilk; pose proof (inv_inflight _ Hi) as Ifl;
    pose proof (inv_trace _ Hi) as Itr; cbn in Ilk, Ifl, Itr.
  - unfold add_stream_port_with_config in Ha. cbn in Ha.
    apply (add_port_inv sw _ _ _ _ _ _ _ _ (mkPortEntry class (Packets tx) config)); try done;
      repeat case_in Ha; simplify_eq; try done; cbn; intros o Eo; simplify_eq; eauto 10.
  - unfold add_channel_port_with_mtu in Ha. cbn in Ha. injection Ha as <- <-.
    apply (add_port_inv sw _ _ _ _ _ _ _ _ (mkPortEntry class (Frames tx) (mkPortConfig Raw mtu)));
      try done. cbn. eauto 10.
  - eapply sys_inv_update; try done. apply Forall_app. split; [done|]. constructor; [|constructor].
    unfold ingress_lookup in Hl. apply fmap_Some in Hl as (e & E & [= -> ->]). cbn. by apply (inv_ports _ Hi).
  - apply apply_hook_spec in Hh as (Hs & (R1 & R2 & R3) & Hreps).
    apply Forall_app in Ilk as [I1 [I2 I3]%Forall_cons]. cbn in I2.
    eapply sys_inv_update; try done.
    + by rewrite R3.
    + by apply Forall_app.
    + apply Forall_app. split; [done|]. apply Forall_fmap, Forall_forall. by intros q _.
    + apply Forall_app. split; [done|]. apply Forall_fmap, Forall_forall. by intros q _.
  - apply forward_packet_spec in Hf as (Hs & Hn & Hl & _ & Ho).
    apply Forall_app in Ifl as [I1 [I2 I3]%Forall_cons]. cbn in I2.
    eapply sys_inv_update; try done.
    + rewrite Ho. case_goal; [done|]. by apply learn_mirror.
    + by apply Forall_app.
    + apply Forall_app. split; [done|]. apply Forall_fmap. eapply Forall_impl; [exact Hl|].
      intros x (Hne & e & E & Hal). cbn. split; [done|]. exists class, (pe_class e).
      split; [done|]. split; [by apply (inv_ports _ Hi)|by apply delivery_allowed_spec].
  - unfold remove_port_locked in Hr. destruct (ports sw !! id) as [e|] eqn:E; [|done].
    assert (sw' = set_macs (set_ports sw (delete id (ports sw))) (filter (λ kv, kv.2 ≠ id) (macs sw)))
      as -> by congruence.
    destruct Hi as [Hp Hb Hn ? ? ? ? ?]. split; cbn in *; try done.
    intros id' e' E'. apply lookup_delete_Some in E' as [_ E']. by apply Hp.
  - unfold remove_port_offload. destruct (offload sw) as [off|] eqn:Ho.
    + eapply sys_inv_update; try done. by apply remove_mirror.
    + eapply sys_inv_update; try done. by rewrite Ho.
  - eapply sys_inv_update; try done. apply Forall_app. split; [done|]. constructor; [|constructor].
    destruct (Hm off Ho) as [_ Hmac]. unfold classify_frame in Hc. repeat case_in Hc; try done.
    injection Hc as <-. bsplit. subst. cbn. split; [done|]. exists (Guest false), (Guest false).
    split; [by eapply Hmac|]. split; [by eapply Hmac|by right; right].
Qed.

Lemma sys_steps_inv s s' : rtc sys_step s s' → sys_inv s → sys_inv s'.
Proof. induction 1; eauto using sys_step_inv. Qed.
End system.
Arguments Sys PTx FTx : clear implicits.

(** ** Exact forwarding *)

Section exact.
Context {PTx FTx : Type} `{Channel PTx Packet} `{Channel FTx bytes} `{MacMap}.
Implicit Types (sw : Switch PTx FTx) (e : PortEntry PTx FTx).

Definition config_ok sw : Prop := ∀ id e, ports sw !! id = Some e → is_u16 (c_mtu (pe_config e)).

Lemma deliver_total e p : packet_ok p → is_u16 (c_mtu (pe_config e)) → ∃ d, deliver e p = Ret d.
Proof.
  intros Hp Hm. unfold deliver.
  destruct (for_port_safe p (c_framing (pe_config e)) _ Hp Hm) as [Hc _].
  destruct (for_port _ _ _); eauto. done.
Qed.

(** The copies of [p] a port gets when it is delivered to. *)
Definition copies e p : list Packet :=
  match deliver e p with Ret d => d_sent d | Panic => [] end.
Definition flood_copies sw port class p id : list (Z * Packet) :=
  match ports sw !! id with
  | Some e =>
      if bool_decide (id = port) || negb (delivery_allowed class (pe_class e)) then []
      else (λ q, (id, q)) <$> copies e p
  | None => []
  end.

Lemma filter_tagged (id id' : Z) (l : list Packet) :
  filter (λ x, x.1 = id') ((λ q, (id, q)) <$> l) = if decide (id = id') then (λ q, (id, q)) <$> l else [].
Proof.
  induction l as [|q l IH]; cbn [fmap list_fmap]; [by case_decide|].
  rewrite filter_cons. cbn [fst]. rewrite IH. case_decide; done.
Qed.

Lemma flood_loop_exact sw order port class p n l :
  packet_ok p → config_ok sw → NoDup order →
  ∃ sw' n' sent, flood_loop sw order port class p n l = Ret (sw', n', l ++ sent) ∧
    ∀ id, filter (λ x, x.1 = id) sent = if decide (id ∈ order) then flood_copies sw port class p id else [].
Proof.
  intros Hp. revert sw n l. induction order as [|i order IH]; intros sw n l Hc Hnd; cbn [flood_loop].
  { exists sw, n, []. rewrite app_nil_r. split; [done|]. intros id. rewrite decide_False by set_solver. done. }
  apply NoDup_cons in Hnd as [Hni Hnd].
  assert (Hskip : flood_copies sw port class p i = [] →
    ∃ sw' n' sent, flood_loop sw order port class p n l = Ret (sw', n', l ++ sent) ∧
      ∀ id, filter (λ x, x.1 = id) sent
        = if decide (id ∈ i :: order) then flood_copies sw port class p id else []).
  { intros Hz. destruct (IH sw n l Hc Hnd) as (sw' & n' & sent & E & Hs). exists sw', n', sent.
    split; [done|]. intros id. rewrite Hs. destruct (decide (id = i)) as [->|Hne].
    - by rewrite decide_False, decide_True, Hz by set_solver.
    - destruct (decide (id ∈ order)); [rewrite decide_True by set_solver|rewrite decide_False by set_solver]; done. }
  unfold flood_copies at 1 in Hskip. destruct (ports sw !! i) as [e|] eqn:E; [|by apply Hskip].
  destruct (_ || _) eqn:Hb; [by apply Hskip|].
  destruct (deliver_total e p Hp (Hc _ _ E)) as [d Hd]. rewrite Hd. cbn [mbind outcome_bind].
  unfold commit. cbv zeta. set (sw1 := count _ _ _ _).
  destruct (IH sw1 (if delivered d then n + 1 else n) (l ++ ((λ q, (i, q)) <$> d_sent d)))
    as (sw' & n' & sent & E' & Hs); [|done|].
  { intros id e1 E1. cbn in E1. rewrite lookup_insert in E1. case_decide; simplify_eq; [|eauto].
    apply deliver_same in Hd as [= _ ->]. eauto. }
  exists sw', n', (((λ q, (i, q)) <$> d_sent d) ++ sent). rewrite app_assoc. split; [done|].
  intros id. rewrite filter_app, filter_tagged, Hs. destruct (decide (i = id)) as [<-|Hne].
  - rewrite decide_False by done. rewrite decide_True by set_solver. rewrite app_nil_r.
    unfold flood_copies, copies. by rewrite E, Hb, Hd.
  - assert (Hfc : flood_copies sw1 port class p id = flood_copies sw port class p id).
    { unfold flood_copies. cbn. by rewrite lookup_insert_ne. }
    rewrite Hfc. destruct (decide (id ∈ order)); [rewrite decide_True by set_solver|rewrite decide_False by set_solver];
      done.
Qed.

(** The table entry a frame is sent towards, when its destination is known. *)
Definition target_of sw (dst : MacAddr) : option Z := if is_multicast dst then None else macs sw !! dst.

Lemma forward_exact sw order port class p :
  packet_ok p → config_ok sw → NoDup order → (∀ id, id ∈ order ↔ is_Some (ports sw !! id)) →
  14 ≤ len (p_frame p) →
  ∃ sw' l, forward_packet sw order port class p = Ret (sw', l) ∧
    match target_of (learn sw (slice (p_frame p) 6 12) port) (slice (p_frame p) 0 6) with
    | Some t =>
        l = match ports sw !! t with
            | Some e => if bool_decide (t = port) || negb (delivery_allowed class (pe_class e)) then []
                        else (λ q, (t, q)) <$> copies e p
            | None => []
            end
    | None => ∀ id, filter (λ x, x.1 = id) l = flood_copies sw port class p id
    end.
Proof.
  intros Hp Hc Hnd Hord Hl. unfold forward_packet. change ETH_HEADER_LEN with 14.
  rewrite (proj2 (Z.ltb_ge _ _)) by done. cbv zeta.
  set (sw1 := learn sw _ port). destruct (learn_ports sw (slice (p_frame p) 6 12) port) as [Hp1 _]. fold sw1 in Hp1.
  fold (target_of sw1 (slice (p_frame p) 0 6)). destruct (target_of _ _) as [t|].
  - rewrite Hp1. destruct (decide (t ≠ port)) as [Ht|Ht].
    + rewrite bool_decide_eq_false_2 by done. cbn [orb].
      destruct (ports sw !! t) as [e|] eqn:E; [|eauto]. destruct (negb _); [eauto|].
      destruct (deliver_total e p Hp (Hc _ _ E)) as [d Hd]. unfold copies. rewrite Hd.
      cbn [mbind outcome_bind]. unfold commit. cbv zeta. eauto.
    + apply dec_stable in Ht. rewrite bool_decide_eq_true_2 by done. cbn [orb].
      destruct (ports sw !! t); eauto.
  - destruct (flood_loop_exact sw1 order port class p 0 []) as (sw' & n' & sent & E & Hs); [done| |done|].
    { intros id e He. rewrite Hp1 in He. eauto. }
    rewrite E. cbn [mbind outcome_bind app]. eexists _, _. split; [done|]. intros id. rewrite Hs.
    unfold flood_copies. rewrite Hp1. case_decide as Hin; [done|]. rewrite Hord in Hin.
    destruct (ports sw !! id); [|done]. exfalso. apply Hin. eauto.
Qed.

(** ** The MAC table, its kernel mirror, and removal *)

(** The mirror holds only what the switch has learned. *)
Definition coherent sw : Prop := ∀ off, offload sw = Some off → off_macs off ⊆ macs sw.

Lemma learn_macs sw src port :
  macs (learn sw src port) = if is_multicast src then macs sw else <[src := port]> (macs sw).
Proof. unfold learn. by repeat case_goal. Qed.

Lemma learn_coherent `{!MacMapLaws} sw src port : coherent sw → coherent (learn sw src port).
Proof.
  intros Hc off'. rewrite learn_macs. unfold learn. destruct (is_multicast src); [apply Hc|]. cbv zeta.
  case_decide as Hd; [|]; cbn [offload set_macs].
  - destruct (offload sw) as [off|] eqn:Ho; [|cbn; by rewrite Ho].
    cbn. intros [= <-]. specialize (Hc off Ho). unfold relearn. case_decide; cbn.
    + destruct (mac_map_insert_spec (off_macs off) src port) as [E|[En E]]; rewrite E.
      * by apply insert_mono.
      * apply insert_subseteq_r; done.
    + transitivity (delete src (macs sw)); [by apply delete_mono|].
      apply map_subseteq_spec. intros k v Hk. apply lookup_delete_Some in Hk as [Hne Hk].
      by rewrite lookup_insert_ne.
  - intros Ho. rewrite insert_id by done. by apply Hc.
Qed.

Lemma foldr_delete_None (m : gmap MacAddr Z) l k : k ∈ l → foldr delete m l !! k = None.
Proof.
  induction l as [|x l IH]; cbn; [by intros ?%elem_of_nil|]. intros [->|Hin]%elem_of_cons.
  - by rewrite lookup_delete_eq.
  - destruct (decide (x = k)) as [->|]; [by rewrite lookup_delete_eq|rewrite lookup_delete_ne by done; auto].
Qed.

Lemma remove_port_spec sw id :
  coherent sw → is_Some (ports sw !! id) →
  let sw' := remove_port sw id in
  ports sw' = delete id (ports sw) ∧ macs sw' = filter (λ kv, kv.2 ≠ id) (macs sw) ∧
  (∀ off', offload sw' = Some off' → ∀ m, off_macs off' !! m ≠ Some id) ∧ coherent sw'.
Proof.
  intros Hc [e E] sw'. unfold sw', remove_port, remove_port_locked. rewrite E. cbn [fst snd].
  set (purged := (map_to_list _).*1). unfold remove_port_offload. cbn [offload set_macs set_ports].
  destruct (offload sw) as [off|] eqn:Ho.
  2:{ cbn. split; [done|]. split; [done|]. rewrite Ho. split; [done|]. intros o Eo. cbn in Eo. congruence. }
  cbn [ports macs offload set_offload]. split; [done|]. split; [done|].
  assert (Hno : ∀ m, foldr delete (off_macs off) purged !! m ≠ Some id).
  { intros m Hm. pose proof (foldr_delete_Some _ _ _ _ Hm) as Hm'.
    assert (Hin : m ∈ purged); [|rewrite foldr_delete_None in Hm by done; done].
    apply list_elem_of_fmap. exists (m, id). split; [done|]. apply elem_of_map_to_list.
    apply map_lookup_filter_Some. split; [|done]. by eapply lookup_weaken; [|apply Hc]. }
  split; [intros o [= <-]; apply Hno|]. intros o [= <-]. cbn. apply map_subseteq_spec. intros m v Hm.
  pose proof (foldr_delete_Some _ _ _ _ Hm) as Hm'. apply map_lookup_filter_Some. split.
  - by eapply lookup_weaken; [|apply Hc].
  - cbn. intros ->. by apply (Hno m).
Qed.

(** A frame between two learned ports is forwarded to the second and teaches nothing. *)
Lemma known_unicast sw off order port q p :
  classify_frame (slice (p_frame p) 0 6) (slice (p_frame p) 6 12) port (λ m, off_macs off !! m) = Redirect q →
  macs sw !! slice (p_frame p) 6 12 = Some port → macs sw !! slice (p_frame p) 0 6 = Some q →
  (∀ e, ports sw !! q = Some e → pe_class e = Guest false) →
  packet_ok p → config_ok sw → 14 ≤ len (p_frame p) →
  ∃ sw', forward_packet sw order port (Guest false) p
      = Ret (sw', match ports sw !! q with Some e => (λ x, (q, x)) <$> copies e p | None => [] end) ∧
    macs sw' = macs sw ∧ offload sw' = offload sw.
Proof.
  intros Hcl Hsrc Hdst He Hp Hcfg Hl.
  unfold classify_frame in Hcl. repeat case_in Hcl; try done. injection Hcl as ->. bsplit. subst.
  assert (Hlm : macs (learn sw (slice (p_frame p) 6 12) port) = macs sw).
  { rewrite learn_macs. case_goal; [done|]. by rewrite insert_id. }
  assert (Hlo : offload (learn sw (slice (p_frame p) 6 12) port) = offload sw).
  { unfold learn. case_goal; [done|]. cbv zeta. by rewrite decide_False by (intros Hn; by apply Hn). }
  unfold forward_packet. change ETH_HEADER_LEN with 14. rewrite (proj2 (Z.ltb_ge _ _)) by done. cbv zeta.
  destruct (learn_ports sw (slice (p_frame p) 6 12) port) as [Hpo _].
  assert (is_multicast (slice (p_frame p) 0 6) = false) as ->
    by (unfold is_multicast; apply negb_false_iff, Z.eqb_eq; done).
  rewrite Hlm, Hdst, decide_True, Hpo by done.
  destruct (ports sw !! q) as [e|] eqn:Eq; [|eexists; split; [done|done]].
  rewrite (He e eq_refl). cbn [delivery_allowed negb].
  destruct (deliver_total e p Hp (Hcfg _ _ Eq)) as [d Hd]. unfold copies. rewrite Hd.
  cbn [mbind outcome_bind]. unfold commit. cbv zeta.
  eexists. split; [done|]. destruct (delivered d); cbn; done.
Qed.
End exact.

(** ** The kernel's map under concurrency *)

Section mirror.
Context {PTx FTx : Type} `{Channel PTx Packet} `{Channel FTx bytes} `{MacMap} `{!MacMapLaws}.
Implicit Types (sw : Switch PTx FTx).

(** [m] was on port [q], whose removal has left the switch and not yet the kernel. *)
Definition leaving (rm : list (Z * list MacAddr)) (m : MacAddr) (q : Z) : Prop := ∃ purged, (q, purged) ∈ rm ∧ m ∈ purged.

(** Where the kernel has a MAC, the switch has it, or unlearned it and is about to tell. *)
Definition mirrored sw (rm : list (Z * list MacAddr)) : Prop :=
  ∀ off m q, offload sw = Some off → off_macs off !! m = Some q →
    macs sw !! m = Some q ∨ (macs sw !! m = None ∧ leaving rm m q).

Lemma mirrored_same sw sw' rm : macs sw' = macs sw → offload sw' = offload sw → mirrored sw rm → mirrored sw' rm.
Proof. intros Hm Ho Hc off m q. rewrite Hm, Ho. apply Hc. Qed.

Lemma learn_mirrored sw rm src port : mirrored sw rm → mirrored (learn sw src port) rm.
Proof.
  intros Hc off m q. rewrite learn_macs. unfold learn. destruct (is_multicast src); [apply Hc|]. cbv zeta.
  destruct (decide (src = m)) as [<-|Hne].
  - rewrite lookup_insert_eq. case_decide as Hd; cbn [offload set_macs].
    + destruct (offload sw) as [off0|] eqn:Ho; [|cbn; congruence]. cbn. intros [= <-]. unfold relearn. case_decide; cbn.
      * destruct (mac_map_insert_spec (off_macs off0) src port) as [E|[En E]]; rewrite E; [|congruence].
        rewrite lookup_insert_eq. by left.
      * by rewrite lookup_delete_eq.
    + intros Ho Hq. destruct (Hc off src q Ho Hq) as [E|[E _]]; [left|]; destruct (decide (macs sw !! src = Some port)); [congruence|done|congruence|done].
  - rewrite lookup_insert_ne by done. case_decide as Hd; cbn [offload set_macs]; [|apply Hc].
    destruct (offload sw) as [off0|] eqn:Ho; [|cbn; congruence]. cbn. intros [= <-] Hq. apply (Hc off0); [done|].
    revert Hq. unfold relearn. case_decide; cbn.
    + destruct (mac_map_insert_spec (off_macs off0) src port) as [E|[En E]]; rewrite E; [|done]. by rewrite lookup_insert_ne.
    + by rewrite lookup_delete_ne.
Qed.

Lemma remove_locked_mirrored sw rm id sw' purged :
  remove_port_locked sw id = (sw', Some purged) → mirrored sw rm → mirrored sw' (rm ++ [(id, purged)]).
Proof.
  unfold remove_port_locked. destruct (ports sw !! id); [|done]. intros Heq Hc.
  assert (sw' = set_macs (set_ports sw (delete id (ports sw))) (filter (λ kv, kv.2 ≠ id) (macs sw)) ∧
    purged = (map_to_list (filter (λ kv, kv.2 = id) (macs sw))).*1) as [-> ->] by (split; congruence).
  clear Heq. intros off m q Ho Hq. cbn in Ho |- *. destruct (Hc off m q Ho Hq) as [E|[E (purged & Hin & Hp)]].
  - destruct (decide (q = id)) as [->|Hne]; [right|left; by apply map_lookup_filter_Some].
    split; [apply map_lookup_filter_None; right; intros x Hx; simplify_eq; simpl; by intros Hn|].
    eexists. split; [apply elem_of_app; right; by apply list_elem_of_singleton|].
    apply list_elem_of_fmap. exists (m, id). split; [done|]. apply elem_of_map_to_list, map_lookup_filter_Some. done.
  - right. split; [apply map_lookup_filter_None; by left|]. exists purged. split; [apply elem_of_app; by left|done].
Qed.

Lemma remove_offload_mirrored sw rm1 rm2 id purged :
  mirrored sw (rm1 ++ (id, purged) :: rm2) → mirrored (remove_port_offload sw id purged) (rm1 ++ rm2).
Proof.
  intros Hc off m q. unfold remove_port_offload. destruct (offload sw) as [off0|] eqn:Ho; [|congruence].
  cbn. intros [= <-] Hq. cbn in Hq. destruct (decide (m ∈ purged)) as [Hin|Hni]; [by rewrite foldr_delete_None in Hq|].
  apply foldr_delete_Some in Hq. destruct (Hc off0 m q Ho Hq) as [E|[E (l & Hl & Hm)]]; [by left|right].
  split; [done|]. exists l. split; [|done]. apply elem_of_app in Hl as [Hl|[Hl|Hl]%elem_of_cons].
  - apply elem_of_app. by left.
  - simplify_eq. done.
  - apply elem_of_app. by right.
Qed.

Lemma sys_step_mirrored (s s' : Sys PTx FTx) :
  sys_step s s' → mirrored (s_sw s) (s_removing s) → mirrored (s_sw s') (s_removing s').
Proof.
  intros Hst Hc. destruct Hst as
    [sw born lk fl rm tr tx class config register sw' id Ha
    |sw born lk fl rm tr tx class mtu sw' id Ha
    |sw born lk fl rm tr port p class mtu Hl
    |sw born lk1 lk2 fl rm tr port class mtu p action sw' replies forward Hh
    |sw born lk fl1 fl2 rm tr port class p order sw' l Hf
    |sw born lk fl rm tr id sw' purged Hr
    |sw born lk fl rm1 rm2 tr id purged
    |sw born lk fl rm tr off port dst src q Ho Hin Hcl]; cbn in *; try done.
  - unfold add_stream_port_with_config in Ha. cbn in Ha. intros off m q Ho Hq.
    assert (macs sw' = macs sw ∧ ∃ off0, offload sw = Some off0 ∧ off_macs off0 = off_macs off) as (-> & off0 & E & E').
    { repeat case_in Ha; simplify_eq; cbn in *; simplify_eq; eauto. }
    apply (Hc off0); [done|by rewrite E'].
  - unfold add_channel_port_with_mtu in Ha. cbn in Ha. simplify_eq. exact Hc.
  - apply apply_hook_spec in Hh as (_ & (Hm & _ & Ho) & _). by eapply mirrored_same.
  - apply forward_packet_spec in Hf as (_ & _ & _ & Hm & Ho). eapply mirrored_same; [exact Hm|exact Ho|].
    case_goal; [done|by apply learn_mirrored].
  - by eapply remove_locked_mirrored.
  - by apply remove_offload_mirrored.
Qed.

Lemma sys_steps_mirrored off (s : Sys PTx FTx) : rtc sys_step (Sys_new off) s → mirrored (s_sw s) (s_removing s).
Proof.
  intros Hr. apply (rtc_preserves sys_step (λ s : Sys PTx FTx, mirrored (s_sw s) (s_removing s)) (Sys_new off) s); [|exact Hr|].
  - intros a b Ha Hs. by eapply sys_step_mirrored.
  - intros o m q Ho Hq. destruct off; [|done]. injection Ho as <-. cbn in Hq. by rewrite lookup_empty in Hq.
Qed.
End mirror.

(** ** What the switch promises *)

Section promises.
Context {PTx FTx : Type} `{Channel PTx Packet} `{Channel FTx bytes} `{MacMap} `{!MacMapLaws}.
Implicit Types (sw : Switch PTx FTx).

(** C3: isolation and no echo, under every interleaving of reader tasks,
    port attachment and removal, hooks and kernel redirects: whatever the
    switch sends or the kernel redirects goes to a port other than the
    ingress port, and the classes both ports were attached with allow it, so
    an isolated guest exchanges frames with service ports only. *)
Theorem switch_isolation (off : bool) (s : Sys PTx FTx) (ev : event) :
  rtc sys_step (Sys_new off) s → ev ∈ s_trace s → event_ok (s_born s) ev.
Proof.
  intros Hr Hin. pose proof (inv_trace _ (sys_steps_inv _ _ Hr (Sys_new_inv off))) as Ht.
  by eapply Forall_forall in Ht.
Qed.

(** [forward_packet] does not panic and delivers exactly: a frame for a
    learned MAC goes to that port only, if it is another attached port whose
    class allows it, and to nobody otherwise; any other frame goes to every
    other allowed port once, whatever the table's iteration order. What a
    port gets are the copies its framing and MTU ask for that its queue
    accepts. *)
Theorem forward_packet_exact sw (order : list Z) (port : Z) (class : PortClass) (p : Packet) :
  packet_ok p → config_ok sw → NoDup order → (∀ id, id ∈ order ↔ is_Some (ports sw !! id)) →
  14 ≤ len (p_frame p) →
  ∃ sw' l, forward_packet sw order port class p = Ret (sw', l) ∧
    match target_of (learn sw (slice (p_frame p) 6 12) port) (slice (p_frame p) 0 6) with
    | Some t =>
        l = match ports sw !! t with
            | Some e => if bool_decide (t = port) || negb (delivery_allowed class (pe_class e)) then []
                        else (λ q, (t, q)) <$> copies e p
            | None => []
            end
    | None => ∀ id, filter (λ x, x.1 = id) l = flood_copies sw port class p id
    end.
Proof. apply forward_exact. Qed.

(** Removing an attached port takes it and every MAC learned on it out of
    the switch and out of the kernel's map, leaves every other port and MAC
    alone, and keeps the kernel's map a part of the switch's table, which
    learning preserves too. *)
Theorem remove_port_purges sw (id : Z) (src : MacAddr) (port : Z) :
  coherent sw → is_Some (ports sw !! id) →
  let sw' := remove_port sw id in
  ports sw' !! id = None ∧
  (∀ i, i ≠ id → ports sw' !! i = ports sw !! i) ∧
  (∀ m p, macs sw' !! m = Some p ↔ macs sw !! m = Some p ∧ p ≠ id) ∧
  (∀ off' m, offload sw' = Some off' → off_macs off' !! m ≠ Some id) ∧
  coherent sw' ∧ coherent (learn sw src port).
Proof.
  intros Hc Hs sw'. destruct (remove_port_spec sw id Hc Hs) as (Hp & Hm & Ho & Hc'). fold sw' in Hp, Hm, Ho, Hc'.
  split; [rewrite Hp; apply lookup_delete_eq|]. split; [intros; rewrite Hp; by apply lookup_delete_ne|].
  split; [intros m p; rewrite Hm; apply map_lookup_filter_Some|]. split; [intros; by eapply Ho|].
  split; [done|by apply learn_coherent].
Qed.

(** C24: the kernel fast path refines the switch. In every state that reader
    tasks, port attachment and removal, hooks and learning reach, in any
    interleaving: when the kernel redirects a frame to [q], the switch would
    have sent it to [q] and to no other port, or dropped it when [q] is no
    longer attached, and learned nothing from it; except while one of the two
    ports is being removed, when the switch has already unlearned its MAC and
    [remove_port] is yet to tell the kernel. *)
Theorem kernel_redirect_refines_switch (on : bool) (s : Sys PTx FTx) (off : SegmentOffload) (order : list Z) (port q : Z)
    (p : Packet) :
  rtc sys_step (Sys_new on) s → let sw := s_sw s in let dst := slice (p_frame p) 0 6 in let src := slice (p_frame p) 6 12 in
  offload sw = Some off → classify_frame dst src port (λ m, off_macs off !! m) = Redirect q →
  packet_ok p → config_ok sw → 14 ≤ len (p_frame p) →
  (∃ sw', forward_packet sw order port (Guest false) p
       = Ret (sw', match ports sw !! q with Some e => (λ x, (q, x)) <$> copies e p | None => [] end) ∧
     macs sw' = macs sw ∧ offload sw' = offload sw) ∨
  macs sw !! src = None ∧ leaving (s_removing s) src port ∨
  macs sw !! dst = None ∧ leaving (s_removing s) dst q.
Proof.
  intros Hr sw dst src Ho Hcl Hp Hcfg Hl.
  pose proof (sys_steps_inv _ _ Hr (Sys_new_inv on)) as Hi. pose proof (sys_steps_mirrored on s Hr) as Hm.
  assert (off_macs off !! src = Some port ∧ off_macs off !! dst = Some q) as [Hs Hd].
  { unfold classify_frame in Hcl. repeat case_in Hcl; try done. injection Hcl as ->. bsplit. by subst. }
  destruct (Hm off src port Ho Hs) as [Es|?]; [|by right; left].
  destruct (Hm off dst q Ho Hd) as [Ed|?]; [|by right; right]. left.
  apply (known_unicast sw off order port q p); try done.
  intros e He. pose proof (inv_ports _ Hi q e He) as Hb. rewrite (inv_off_macs _ Hi off dst q Ho Hd) in Hb. congruence.
Qed.
End promises.

(** ** Worked instances: bounded queues *)

#[local] Instance packet_queue : Channel (list Packet) Packet :=
  λ q p, if len q <? PORT_QUEUE_CAPACITY then Some (q ++ [p]) else None.
#[local] Instance frame_queue : Channel (list bytes) bytes :=
  λ q f, if len q <? PORT_QUEUE_CAPACITY then Some (q ++ [f]) else None.
#[local] Instance sample_mac_map : MacMap := {| mac_map_insert m k v := <[k:=v]> m |}.
#[local] Instance sample_mac_map_laws : MacMapLaws.
Proof. split. by left. Defined.

Abbreviation sample_switch := (Switch (list Packet) (list bytes)) (only parsing).
Abbreviation sample_system := (Sys (list Packet) (list bytes)) (only parsing).
Definition mac_a : MacAddr := [2; 0; 0; 0; 0; 1].
Definition mac_b : MacAddr := [2; 0; 0; 0; 0; 2].
Definition eth_ab : Packet := Packet_raw (eth_build mac_b mac_a 0x0800 [1; 2]).
Definition eth_ba : Packet := Packet_raw (eth_build mac_a mac_b 0x0800 [3; 4]).

(** Two plain guests (0, 1), an isolated one (2) and the gateway (3). *)
Definition sw_ports : sample_switch :=
  let add sw class := (add_stream_port_with_config sw [] class PortConfig_default true).1 in
  (add_channel_port_with_mtu
     (add (add (add (Switch_new (Some (mkOffload ∅ ∅))) (Guest false)) (Guest false)) (Guest true))
     [] Service 1500).1.
Definition after (sw : sample_switch) (port : Z) (class : PortClass) (p : Packet) : sample_switch * list (Z * Packet) :=
  match forward_packet sw [0; 1; 2; 3] port class p with Ret r => r | Panic => (sw, []) end.
(** After 0 sent a frame to 1, which was unknown, and 1 answered. *)
Definition sw_learned : sample_switch := (after (after sw_ports 0 (Guest false) eth_ab).1 1 (Guest false) eth_ba).1.

Example flood_skips_isolated :
  (after sw_ports 0 (Guest false) eth_ab).2 = [(1, eth_ab); (3, eth_ab)].
Proof. vm_compute. reflexivity. Qed.

Definition sys_a : sample_system :=
  mkSys (add_channel_port_with_mtu (Switch_new None) [] (Guest false) 1500).1 (<[0 := Guest false]> ∅)
    [] [] [] [].
Definition sys_b : sample_system :=
  mkSys (add_channel_port_with_mtu (s_sw sys_a) [] Service 1500).1 (<[1 := Service]> (s_born sys_a)) [] [] [] [].
Definition sys_c : sample_system :=
  mkSys (s_sw sys_b) (s_born sys_b) [] [(0, Guest false, eth_ab)] [] [].
Definition sys_d : sample_system :=
  mkSys (after (s_sw sys_b) 0 (Guest false) eth_ab).1 (s_born sys_b) [] [] []
    [Sent 0 1 eth_ab].

Definition sys_l : sample_system :=
  mkSys (s_sw sys_b) (s_born sys_b) [(0, Guest false, 1500, eth_ab)] [] [] [].

Lemma sys_steps_c : rtc sys_step (Sys_new false) sys_c.
Proof.
  apply (rtc_l _ _ sys_a).
  { exact (step_add_channel (Switch_new None) ∅ [] [] [] [] [] (Guest false) 1500 (s_sw sys_a) 0 eq_refl). }
  apply (rtc_l _ _ sys_b).
  { exact (step_add_channel (s_sw sys_a) (s_born sys_a) [] [] [] [] [] Service 1500 (s_sw sys_b) 1 eq_refl). }
  apply (rtc_l _ _ sys_l).
  { apply (step_lookup (s_sw sys_b) (s_born sys_b) [] [] [] [] 0 eth_ab (Guest false) 1500).
    vm_compute. reflexivity. }
  apply rtc_once. exact (step_hook (s_sw sys_b) (s_born sys_b) [] [] [] [] [] 0 (Guest false) 1500 eth_ab
    HookPass (s_sw sys_b) [] [eth_ab] eq_refl).
Qed.
Lemma sys_steps_d : rtc sys_step (Sys_new false) sys_d.
Proof.
  eapply rtc_r; [apply sys_steps_c|].
  apply (step_forward (s_sw sys_b) (s_born sys_b) [] [] [] [] [] 0 (Guest false) eth_ab [0; 1; 2; 3]
    (s_sw sys_d) [(1, eth_ab)]).
  vm_compute. reflexivity.
Qed.

Lemma switch_isolation_witness : event_ok (s_born sys_d) (Sent 0 1 eth_ab).
Proof. apply (switch_isolation false sys_d); [apply sys_steps_d|left]. Defined.

Lemma sample_config : config_ok sw_ports ∧ config_ok sw_learned.
Proof.
  split; intros id e He;
    [assert (Hall : map_Forall (λ _ e, is_u16 (c_mtu (pe_config e))) (ports sw_ports)) by concrete
    |assert (Hall : map_Forall (λ _ e, is_u16 (c_mtu (pe_config e))) (ports sw_learned)) by concrete];
    exact (Hall _ _ He).
Qed.
Definition off_learned : SegmentOffload := default (mkOffload ∅ ∅) (offload sw_learned).
Lemma sample_offload : offload sw_learned = Some off_learned.
Proof. vm_compute. reflexivity. Qed.
Lemma sample_coherent : coherent sw_learned.
Proof.
  intros off Ho. rewrite sample_offload in Ho. assert (off = off_learned) as -> by congruence.
  assert (Hall : map_Forall (λ k v, macs sw_learned !! k = Some v) (off_macs off_learned)) by concrete.
  apply map_subseteq_spec. intros k v. apply Hall.
Qed.

Lemma forward_packet_exact_witness :
  ∃ sw' l, forward_packet sw_ports [0; 1; 2; 3] 0 (Guest false) eth_ab = Ret (sw', l) ∧
    ∀ id, filter (λ x, x.1 = id) l = flood_copies sw_ports 0 (Guest false) eth_ab id.
Proof.
  apply (forward_packet_exact sw_ports [0; 1; 2; 3] 0 (Guest false) eth_ab).
  - split; concrete.
  - apply sample_config.
  - concrete.
  - intros id. unfold is_Some. split.
    + intros Hin. repeat (apply elem_of_cons in Hin as [->|Hin]; [vm_compute; eauto|]).
      by apply elem_of_nil in Hin.
    + intros [e He]. apply elem_of_map_to_list in He.
      apply (list_elem_of_fmap_2 fst) in He. cbn [fst] in He. revert He.
      assert ((map_to_list (ports sw_ports)).*1 ⊆ [0; 1; 2; 3]) as Hsub by concrete. intros He. by apply Hsub.
  - concrete.
Defined.

Lemma remove_port_purges_witness :
  let sw' := remove_port sw_learned 1 in
  ports sw' !! 1 = None ∧
  (∀ i, i ≠ 1 → ports sw' !! i = ports sw_learned !! i) ∧
  (∀ m p, macs sw' !! m = Some p ↔ macs sw_learned !! m = Some p ∧ p ≠ 1) ∧
  (∀ off' m, offload sw' = Some off' → off_macs off' !! m ≠ Some 1) ∧
  coherent sw' ∧ coherent (learn sw_learned mac_a 2).
Proof.
  apply (remove_port_purges sw_learned 1 mac_a 2); [apply sample_coherent|].
  eexists. vm_compute. reflexivity.
Defined.

Definition port1 : PortEntry (list Packet) (list bytes) :=
  mkPortEntry (Guest false) (Packets [eth_ab]) PortConfig_default.

(** The system in which two plain guests sit on offloaded ports and have
    exchanged a frame each: the kernel then has both MACs. *)
Definition guests : sample_switch :=
  let add sw class := (add_stream_port_with_config sw [] class PortConfig_default true).1 in
  add (add (Switch_new (Some (mkOffload ∅ ∅))) (Guest false)) (Guest false).
Definition guests_talk : sample_switch := (after (after guests 0 (Guest false) eth_ab).1 1 (Guest false) eth_ba).1.
Definition guests_born : gmap Z PortClass := <[1 := Guest false]> (<[0 := Guest false]> ∅).
Definition talk_trace : list event := [Sent 0 1 eth_ab; Sent 1 0 eth_ba].

(** A reader task's way from the port table to the forwarded frame. *)
Lemma read_and_forward (sw sw' : sample_switch) born tr port p l :
  ingress_lookup sw port = Some (Guest false, 1500) →
  forward_packet sw [0; 1; 2; 3] port (Guest false) p = Ret (sw', l) →
  rtc sys_step (mkSys sw born [] [] [] tr) (mkSys sw' born [] [] [] (tr ++ ((λ x, Sent port x.1 x.2) <$> l))).
Proof.
  intros Hl Hf. eapply rtc_l; [exact (step_lookup sw born [] [] [] tr port p (Guest false) 1500 Hl)|].
  eapply rtc_l; [exact (step_hook sw born [] [] [] [] tr port (Guest false) 1500 p HookPass sw [] [p] eq_refl)|].
  apply rtc_once. cbn. rewrite (app_nil_r tr). exact (step_forward sw born [] [] [] [] tr port (Guest false) p [0; 1; 2; 3] sw' l Hf).
Qed.

Lemma guests_run : rtc sys_step (Sys_new true) (mkSys guests_talk guests_born [] [] [] talk_trace).
Proof.
  set (sw1 := (add_stream_port_with_config (Switch_new (Some (mkOffload ∅ ∅))) [] (Guest false) PortConfig_default true).1 : sample_switch).
  apply (rtc_l _ _ (mkSys sw1 (<[0 := Guest false]> ∅) [] [] [] [])).
  { exact (step_add_stream (Switch_new (Some (mkOffload ∅ ∅))) ∅ [] [] [] [] [] (Guest false) PortConfig_default true sw1 0 eq_refl). }
  apply (rtc_l _ _ (mkSys guests guests_born [] [] [] [])).
  { exact (step_add_stream sw1 (<[0 := Guest false]> ∅) [] [] [] [] [] (Guest false) PortConfig_default true guests 1 eq_refl). }
  etransitivity; [apply (read_and_forward guests (after guests 0 (Guest false) eth_ab).1 guests_born [] 0 eth_ab [(1, eth_ab)]);
    vm_compute; reflexivity|].
  apply (read_and_forward (after guests 0 (Guest false) eth_ab).1 guests_talk guests_born [Sent 0 1 eth_ab] 1 eth_ba [(0, eth_ba)]);
    vm_compute; reflexivity.
Qed.

Definition guests_off : SegmentOffload := default (mkOffload ∅ ∅) (offload guests_talk).

Lemma guests_talk_ok :
  offload guests_talk = Some guests_off ∧ config_ok guests_talk ∧
  classify_frame (slice (p_frame eth_ab) 0 6) (slice (p_frame eth_ab) 6 12) 0 (λ m, off_macs guests_off !! m) = Redirect 1 ∧
  copies port1 eth_ab = [eth_ab] ∧ ports guests_talk !! 1 = Some port1.
Proof.
  split_and!; [by vm_compute| |by vm_compute..].
  intros id e He.
  assert (Hall : map_Forall (λ _ e, is_u16 (c_mtu (pe_config e))) (ports guests_talk)) by concrete. exact (Hall _ _ He).
Qed.

Lemma kernel_redirect_refines_switch_witness :
  ∃ sw', forward_packet guests_talk [0; 1] 0 (Guest false) eth_ab = Ret (sw', [(1, eth_ab)]) ∧
    macs sw' = macs guests_talk ∧ offload sw' = offload guests_talk.
Proof.
  destruct guests_talk_ok as (Ho & Hc & Hcl & Hcp & Hp).
  pose proof (kernel_redirect_refines_switch true (mkSys guests_talk guests_born [] [] [] talk_trace) guests_off [0; 1] 0 1 eth_ab
    guests_run Ho Hcl ltac:(split; concrete) Hc ltac:(concrete)) as Hw. cbv zeta in Hw. cbn [s_sw s_removing] in Hw.
  rewrite Hp, Hcp in Hw. destruct Hw as [Hw|[[_ (l & Hl & _)]|[_ (l & Hl & _)]]]; [exact Hw|by apply elem_of_nil in Hl..].
Defined.

(** ** A removal race *)

Definition sw_gone : sample_switch := (remove_port_locked (s_sw sys_b) 0).1.
Definition sys_race : sample_system :=
  mkSys (after sw_gone 0 (Guest false) eth_ab).1 (s_born sys_b) [] [] [] [Sent 0 1 eth_ab].

(** A reader task that read its port's class before the port was removed
    still learns the frame's source MAC afterwards. There is an execution
    that ends with no task in flight and a MAC bound to a port that is gone,
    and a frame for that MAC is then dropped instead of flooded. *)
Theorem remove_port_race_leaves_mac :
  ∃ (s : sample_system) (m : MacAddr) (id : Z),
    rtc sys_step (Sys_new false) s ∧ s_looked s = [] ∧ s_inflight s = [] ∧ s_removing s = [] ∧
    ports (s_sw s) !! id = None ∧ macs (s_sw s) !! m = Some id ∧
    ∃ sw', forward_packet (s_sw s) [1] 1 Service (Packet_raw (eth_build m mac_b 0x0800 [])) = Ret (sw', []) ∧
      dropped sw' = dropped (s_sw s) + 1.
Proof.
  exists sys_race, mac_a, 0. split.
  - transitivity sys_c; [apply sys_steps_c|].
    apply (rtc_l _ _ (mkSys sw_gone (s_born sys_b) [] [(0, Guest false, eth_ab)] [(0, [])] [])).
    { apply (step_remove (s_sw sys_b) (s_born sys_b) [] [(0, Guest false, eth_ab)] [] [] 0 sw_gone []).
      reflexivity. }
    apply (rtc_l _ _ (mkSys sw_gone (s_born sys_b) [] [(0, Guest false, eth_ab)] [] [])).
    { exact (step_remove_offload sw_gone (s_born sys_b) [] [(0, Guest false, eth_ab)] [] [] [] 0 []). }
    apply rtc_once, (step_forward sw_gone (s_born sys_b) [] [] [] [] [] 0 (Guest false) eth_ab [0; 1; 2; 3]
      (s_sw sys_race) [(1, eth_ab)]). vm_compute. reflexivity.
  - do 3 (split; [reflexivity|]). split; [vm_compute; reflexivity|]. split; [vm_compute; reflexivity|].
    eexists. split; [vm_compute; reflexivity|]. vm_compute. reflexivity.
Qed.
