(* ===== verification/Dhcp.v ===== *)
(** * The DHCP server ([src/net/dhcp.rs])

    The lease table and its state machine: [handle] takes an Ethernet frame
    and returns the server after it and the reply frame, if any. The clock is
    an argument, read once per frame, in nanoseconds. The option loop of
    [parse_bootp] runs on fuel; running out of it would be a [Panic], and the
    totality theorem says it does not happen. *)

From S2P Require Import Prelude Checksum Frame Ipnet.

(** ** Constants *)

Definition DHCP_SERVER_PORT : Z := 67.
Definition DHCP_CLIENT_PORT : Z := 68.
Definition DHCP_DISCOVER : Z := 1.
Definition DHCP_OFFER : Z := 2.
Definition DHCP_REQUEST : Z := 3.
Definition DHCP_DECLINE : Z := 4.
Definition DHCP_ACK : Z := 5.
Definition DHCP_NAK : Z := 6.
Definition DHCP_RELEASE : Z := 7.
Definition BOOTREQUEST : Z := 1.
Definition BOOTREPLY : Z := 2.
Definition MAGIC_COOKIE : bytes := [99; 130; 83; 99].
Definition BOOTP_MIN_LEN : Z := 240.
Definition FLAG_BROADCAST : Z := 0x8000.
Definition OPT_PAD : Z := 0.
Definition OPT_SUBNET_MASK : Z := 1.
Definition OPT_ROUTER : Z := 3.
Definition OPT_DNS : Z := 6.
Definition OPT_DOMAIN : Z := 15.
Definition OPT_MTU : Z := 26.
Definition OPT_REQUESTED_IP : Z := 50.
Definition OPT_LEASE_TIME : Z := 51.
Definition OPT_MSG_TYPE : Z := 53.
Definition OPT_SERVER_ID : Z := 54.
Definition OPT_CLASSLESS_ROUTES : Z := 121.
Definition OPT_END : Z := 255.

Definition UNSPECIFIED : Ipv4Addr := 0.
Definition BROADCAST : Ipv4Addr := 0xFFFFFFFF.

(** ** Requests *)

Record BootpRequest := {
  xid : Z; q_flags : Z; ciaddr : Ipv4Addr; giaddr : Ipv4Addr; chaddr : MacAddr;
  msg_type : Z; requested_ip : option Ipv4Addr; server_id : option Ipv4Addr }.

Definition ipv4_from (b : bytes) : Ipv4Addr := ipv4_at b 0.

(** What the option loop collects. *)
Record BootpOpts := { o_type : option Z; o_requested : option Ipv4Addr; o_server : option Ipv4Addr }.

Definition note_option (o : BootpOpts) (code l : Z) (val : bytes) : BootpOpts :=
  if (code =? OPT_MSG_TYPE) && (l =? 1)
  then {| o_type := Some (idx val 0); o_requested := o_requested o; o_server := o_server o |}
  else if (code =? OPT_REQUESTED_IP) && (l =? 4)
  then {| o_type := o_type o; o_requested := Some (ipv4_from val); o_server := o_server o |}
  else if (code =? OPT_SERVER_ID) && (l =? 4)
  then {| o_type := o_type o; o_requested := o_requested o; o_server := Some (ipv4_from val) |}
  else o.

Fixpoint bootp_options (fuel : nat) (p : bytes) (i : Z) (o : BootpOpts) : outcome (option BootpOpts) :=
  match fuel with
  | O => Panic
  | S fuel =>
      if len p <=? i then Ret (Some o)
      else
        let code := idx p i in
        if code =? OPT_PAD then bootp_options fuel p (i + 1) o
        else if code =? OPT_END then Ret (Some o)
        else
          match get_idx p (i + 1) with
          | None => Ret None
          | Some l =>
              let end_ := i + 2 + l in
              match get_range p (i + 2) end_ with
              | None => Ret None
              | Some val => bootp_options fuel p end_ (note_option o code l val)
              end
          end
  end.

Definition parse_bootp (p : bytes) : outcome (option BootpRequest) :=
  if len p <? BOOTP_MIN_LEN then Ret None
  else if negb (idx p 0 =? BOOTREQUEST) || negb (idx p 1 =? 1) || negb (idx p 2 =? 6) then Ret None
  else if negb (bool_decide (slice p 236 240 = MAGIC_COOKIE)) then Ret None
  else
    o ← bootp_options (S (length p)) p 240 {| o_type := None; o_requested := None; o_server := None |};
    Ret (o ≫= λ o, (λ t,
      {| xid := u32_at p 4; q_flags := u16_at p 10; ciaddr := ipv4_from (slice p 12 16);
         giaddr := ipv4_from (slice p 24 28); chaddr := slice p 28 34; msg_type := t;
         requested_ip := o_requested o; server_id := o_server o |}) <$> o_type o).

(** ** Replies *)

(** Append a TLV option; the length octet is the value's length as [u8]. *)
Definition opt (code : Z) (val : bytes) : bytes := [code; wrap8 (len val)] ++ val.

Record Lease := mkLease { l_addr : Ipv4Addr; expiry : Z }.

Section dhcp.
Context {Net : Type} `{Ipv4NetOps Net}.

Record DhcpConfig := mkDhcpConfig {
  subnet : Net;
  gateway : Ipv4Addr;
  router : Ipv4Addr;
  server_mac : MacAddr;
  dns_server : option Ipv4Addr;
  domain : option bytes;
  routes : list (Net * Ipv4Addr);
  reservations : gmap MacAddr Ipv4Addr;
  lease_secs : Z;
  mtu : Z }.

Definition DhcpConfig_new (sn : Net) (gw : Ipv4Addr) (mac : MacAddr) : DhcpConfig :=
  mkDhcpConfig sn gw gw mac None None [] ∅ 3600 1500.

Definition encode_classless_routes (routes : list (Net * Ipv4Addr)) : bytes :=
  concat ((λ '(net, via),
    let plen := net_prefix_len net in
    [plen] ++ slice (octets (net_network net)) 0 (div_ceil plen 8) ++ octets via) <$> routes).

Record DhcpServer := mkDhcpServer {
  config : DhcpConfig;
  leases : gmap MacAddr Lease;
  declined : gset Ipv4Addr }.

Definition DhcpServer_new (c : DhcpConfig) : DhcpServer := mkDhcpServer c ∅ ∅.

(** [reconfigure(f)] and [set_routes]. *)
Definition reconfigure (s : DhcpServer) (f : DhcpConfig → DhcpConfig) : DhcpServer :=
  mkDhcpServer (f (config s)) (leases s) (declined s).
Definition set_routes (s : DhcpServer) (r : list (Net * Ipv4Addr)) : DhcpServer :=
  reconfigure s (λ c, mkDhcpConfig (subnet c) (gateway c) (router c) (server_mac c) (dns_server c)
    (domain c) r (reservations c) (lease_secs c) (mtu c)).

(** ** Allocation *)

Definition lease_of (s : DhcpServer) (now : Z) (mac : MacAddr) : option Ipv4Addr :=
  l ← leases s !! mac; if now <? expiry l then Some (l_addr l) else None.

(** The addresses of the unexpired leases. *)
Definition leased (s : DhcpServer) (now : Z) : list Ipv4Addr :=
  l_addr <$> filter (λ l, now < expiry l) (map_to_list (leases s)).*2.
Definition reserved (s : DhcpServer) : list Ipv4Addr := (map_to_list (reservations (config s))).*2.

Definition taken (s : DhcpServer) (now : Z) : list Ipv4Addr :=
  leased s now ++ reserved s ++ [gateway (config s)] ++ elements (declined s).

Definition alloc (s : DhcpServer) (now : Z) : option Ipv4Addr :=
  head (filter (λ h, h ∉ taken s now) (net_hosts (subnet (config s)))).

Definition ip_for (s : DhcpServer) (now : Z) (mac : MacAddr) : option Ipv4Addr :=
  match reservations (config s) !! mac with
  | Some ip => Some ip
  | None => match lease_of s now mac with Some ip => Some ip | None => alloc s now end
  end.

Definition requestable (s : DhcpServer) (now : Z) (ip : Ipv4Addr) : bool :=
  net_contains (subnet (config s)) ip
  && negb (ip =? net_network (subnet (config s)))
  && negb (ip =? net_broadcast (subnet (config s)))
  && negb (ip =? gateway (config s))
  && negb (bool_decide (ip ∈ reserved s))
  && negb (bool_decide (ip ∈ declined s))
  && negb (bool_decide (ip ∈ leased s now)).

Definition grant (s : DhcpServer) (now : Z) (mac : MacAddr) (ip : Ipv4Addr) : DhcpServer :=
  mkDhcpServer (config s)
    (<[mac := mkLease ip (now + lease_secs (config s) * 1000000000)]> (leases s)) (declined s).

Definition drop_lease (s : DhcpServer) (mac : MacAddr) : DhcpServer :=
  mkDhcpServer (config s) (delete mac (leases s)) (declined s).

Definition purge_expired (s : DhcpServer) (now : Z) : DhcpServer :=
  mkDhcpServer (config s) (filter (λ kv, now < expiry kv.2) (leases s)) (declined s).

(** ** Reply construction *)

(** The routes option 121 carries: the default route rides along. *)
Definition offered_routes (c : DhcpConfig) : list (Net * Ipv4Addr) :=
  if bool_decide (Exists (λ r, net_prefix_len r.1 = 0) (routes c)) then routes c
  else routes c ++ [(net_default, router c)].

Definition reply_options (c : DhcpConfig) (mt : Z) : bytes :=
  opt OPT_MSG_TYPE [mt] ++ opt OPT_SERVER_ID (octets (gateway c))
  ++ (if negb (mt =? DHCP_NAK) then
        opt OPT_LEASE_TIME (be32 (lease_secs c))
        ++ opt OPT_SUBNET_MASK (octets (net_netmask (subnet c)))
        ++ opt OPT_ROUTER (octets (router c))
        ++ match dns_server c with Some d => opt OPT_DNS (octets d) | None => [] end
        ++ match domain c with Some d => opt OPT_DOMAIN d | None => [] end
        ++ (if negb (mtu c =? 1500) then opt OPT_MTU (be16 (mtu c)) else [])
        ++ match routes c with
           | [] => []
           | _ => opt OPT_CLASSLESS_ROUTES (encode_classless_routes (offered_routes c))
           end
      else [])
  ++ [OPT_END].

Definition bootp_reply (c : DhcpConfig) (req : BootpRequest) (mt : Z) (yiaddr : Ipv4Addr) : bytes :=
  let ciaddr := if mt =? DHCP_ACK then ciaddr req else UNSPECIFIED in
  [BOOTREPLY] ++ [1] ++ [6] ++ [0] ++ be32 (xid req) ++ [0; 0] ++ be16 (q_flags req)
  ++ octets ciaddr ++ octets yiaddr ++ octets (gateway c) ++ octets (giaddr req)
  ++ chaddr req ++ replicate 10 0 ++ replicate 64 0 ++ replicate 128 0 ++ MAGIC_COOKIE
  ++ reply_options c mt.

Definition build_reply (s : DhcpServer) (req : BootpRequest) (mt : Z) (yi : option Ipv4Addr)
    : option bytes :=
  let c := config s in
  let yiaddr := default UNSPECIFIED yi in
  let b := bootp_reply c req mt yiaddr in
  let broadcast := (mt =? DHCP_NAK) || negb (Z.land (q_flags req) FLAG_BROADCAST =? 0)
                   || (yiaddr =? UNSPECIFIED) in
  let '(dst_mac, dst_ip) := if broadcast then (MAC_BROADCAST, BROADCAST) else (chaddr req, yiaddr) in
  udp ← udp_build (gateway c) dst_ip DHCP_SERVER_PORT DHCP_CLIENT_PORT b;
  ip ← ipv4_build (gateway c) dst_ip IPPROTO_UDP 64 udp (wrap16 (Z.land (xid req) 0xFFFF));
  Some (eth_build dst_mac (server_mac c) ETHERTYPE_IPV4 ip).

(** ** Message handling *)

Definition on_discover (s : DhcpServer) (now : Z) (req : BootpRequest) : DhcpServer * option bytes :=
  match ip_for s now (chaddr req) with
  | None => (s, None)
  | Some ip =>
      let s := grant s now (chaddr req) ip in (s, build_reply s req DHCP_OFFER (Some ip))
  end.

(** The address a REQUEST is granted. *)
Definition granted (s : DhcpServer) (now : Z) (req : BootpRequest) : option Ipv4Addr :=
  let requested :=
    match requested_ip req with
    | Some r => Some r
    | None => if negb (ciaddr req =? UNSPECIFIED) then Some (ciaddr req) else None
    end in
  let entitled :=
    match reservations (config s) !! chaddr req with
    | Some ip => Some ip
    | None => lease_of s now (chaddr req)
    end in
  match requested, entitled with
  | None, Some e => Some e
  | Some r, Some e => if r =? e then Some e else None
  | Some r, None => if requestable s now r then Some r else None
  | None, None => None
  end.

Definition on_request (s : DhcpServer) (now : Z) (req : BootpRequest) : DhcpServer * option bytes :=
  let other := match server_id req with Some sid => negb (sid =? gateway (config s)) | None => false end in
  if other then (drop_lease s (chaddr req), None)
  else
    match granted s now req with
    | Some ip => let s := grant s now (chaddr req) ip in (s, build_reply s req DHCP_ACK (Some ip))
    | None => (s, build_reply s req DHCP_NAK None)
    end.

Definition on_decline (s : DhcpServer) (req : BootpRequest) : DhcpServer :=
  let declined_ip :=
    match leases s !! chaddr req with Some l => Some (l_addr l) | None => requested_ip req end in
  let s := drop_lease s (chaddr req) in
  match declined_ip with
  | Some ip => mkDhcpServer (config s) (leases s) ({[ip]} ∪ declined s)
  | None => s
  end.

(** The DHCP request an Ethernet frame carries. *)
Definition dhcp_request (eth_frame : bytes) : outcome (option BootpRequest) :=
  match
    eth ← EthView_parse eth_frame;
    if negb (ethertype eth =? ETHERTYPE_IPV4) then None
    else
      ip ← Ipv4View_parse (eth_payload eth);
      if negb (proto ip =? IPPROTO_UDP) then None
      else
        udp ← UdpView_parse (ip_payload ip);
        if negb (udp_src_port udp =? DHCP_CLIENT_PORT) || negb (udp_dst_port udp =? DHCP_SERVER_PORT)
        then None else Some (udp_payload udp)
  with
  | None => Ret None
  | Some p => parse_bootp p
  end.

Definition dispatch (s : DhcpServer) (now : Z) (req : BootpRequest) : DhcpServer * option bytes :=
  if msg_type req =? DHCP_DISCOVER then on_discover s now req
  else if msg_type req =? DHCP_REQUEST then on_request s now req
  else if msg_type req =? DHCP_RELEASE then (drop_lease s (chaddr req), None)
  else if msg_type req =? DHCP_DECLINE then (on_decline s req, None)
  else (s, None).

Definition handle (s : DhcpServer) (now : Z) (eth_frame : bytes) : outcome (DhcpServer * option bytes) :=
  req ← dhcp_request eth_frame;
  match req with
  | None => Ret (s, None)
  | Some req => Ret (dispatch (purge_expired s now) now req)
  end.

End dhcp.
Arguments DhcpConfig Net : clear implicits.
Arguments DhcpServer Net : clear implicits.

(** ** The option loop terminates *)

Lemma bootp_options_returns p fuel i o :
  0 ≤ i ≤ len p → len p - i < Z.of_nat fuel → returns (bootp_options fuel p i o).
Proof.
  revert i o. induction fuel as [|fuel IH]; intros i o Hi Hf; cbn [bootp_options]; [lia|].
  destruct (len p <=? i) eqn:E; [by eexists|]. bsplit.
  destruct (idx p i =? OPT_PAD); [apply IH; lia|].
  destruct (idx p i =? OPT_END); [by eexists|].
  destruct (get_idx p (i + 1)) as [l|]; [|by eexists].
  unfold get_range. destruct (_ && _ && _) eqn:Hr; [|by eexists]. bsplit. apply IH; lia.
Qed.

Lemma parse_bootp_returns p : returns (parse_bootp p).
Proof.
  unfold parse_bootp, BOOTP_MIN_LEN. destruct (len p <? 240) eqn:Hl; [by eexists|]. bsplit.
  destruct (_ || _ || _); [by eexists|]. destruct (negb _); [by eexists|].
  set (o := Build_BootpOpts _ _ _).
  destruct (bootp_options_returns p (S (length p)) 240 o) as [r ->]; [lia|unfold len; lia|].
  by eexists.
Qed.

Lemma dhcp_request_returns f : returns (dhcp_request f).
Proof. unfold dhcp_request. destruct (_ ≫= _); [apply parse_bootp_returns|by eexists]. Qed.

(** What a parsed request is known to hold. *)
Definition req_ok (q : BootpRequest) : Prop :=
  is_u32 (xid q) ∧ is_u16 (q_flags q) ∧ is_u32 (ciaddr q) ∧ is_u32 (giaddr q) ∧ mac_ok (chaddr q) ∧
  (∀ ip, requested_ip q = Some ip → is_u32 ip).

Lemma bootp_options_requested p fuel i o o' :
  bytes_ok p → (∀ ip, o_requested o = Some ip → is_u32 ip) →
  bootp_options fuel p i o = Ret (Some o') → ∀ ip, o_requested o' = Some ip → is_u32 ip.
Proof.
  intros Hp. revert i o. induction fuel as [|fuel IH]; intros i o Ho; cbn [bootp_options]; [done|].
  destruct (len p <=? i); [by intros [= <-]|].
  destruct (idx p i =? OPT_PAD); [by apply IH|].
  destruct (idx p i =? OPT_END); [by intros [= <-]|].
  destruct (get_idx p (i + 1)) as [l|]; [|done].
  unfold get_range. destruct (_ && _ && _); [|done]. apply IH.
  unfold note_option. repeat (case_goal; try done). cbn. intros ip [= <-].
  apply ipv4_at_u32. auto with vmlab.
Qed.

Lemma parse_bootp_ok p q : bytes_ok p → parse_bootp p = Ret (Some q) → req_ok q.
Proof.
  intros Hp. unfold parse_bootp, BOOTP_MIN_LEN. destruct (len p <? 240) eqn:Hl; [done|]. bsplit.
  destruct (_ || _ || _); [done|]. destruct (negb _); [done|].
  destruct (bootp_options _ _ _ _) as [[o|]|] eqn:E; cbn; [|done|done].
  destruct (o_type o); cbn; [|done]. intros [= <-]. repeat split; cbn [xid q_flags ciaddr giaddr chaddr requested_ip].
  1,2: by apply u32_at_u32.
  1,2: by apply u16_at_u16.
  1-4: apply ipv4_at_u32; auto with vmlab.
  - unfold slice. rewrite length_take, length_drop. unfold len in *. lia.
  - auto with vmlab.
  - eapply bootp_options_requested; [exact Hp| |exact E|eassumption]. done.
  - eapply bootp_options_requested; [exact Hp| |exact E|eassumption]. done.
Qed.

Lemma dhcp_request_ok f q : bytes_ok f → dhcp_request f = Ret (Some q) → req_ok q.
Proof.
  intros Hf. unfold dhcp_request.
  destruct (EthView_parse f) as [eth|] eqn:E1; cbn; [|done].
  destruct (negb _); cbn; [done|].
  destruct (Ipv4View_parse _) as [ip|] eqn:E2; cbn; [|done].
  destruct (negb _); cbn; [done|].
  destruct (UdpView_parse _) as [udp|] eqn:E3; cbn; [|done].
  destruct (_ || _); cbn; [done|]. apply parse_bootp_ok.
  apply EthView_parse_Some in E1 as [-> _].
  apply Ipv4View_parse_Some in E2 as (-> & _). apply UdpView_parse_Some in E3 as (-> & _).
  unfold udp_payload, ip_payload, eth_payload. cbn. auto with vmlab.
Qed.

Section facts.
Context {Net : Type} `{Ipv4NetLaws Net}.
Implicit Types (s : DhcpServer Net) (c : DhcpConfig Net).

(** ** Which addresses are handed out *)

Lemma elem_of_leased s now ip :
  ip ∈ leased s now ↔ ∃ mac l, leases s !! mac = Some l ∧ now < expiry l ∧ l_addr l = ip.
Proof.
  unfold leased. rewrite list_elem_of_fmap. split.
  - intros (l & -> & Hl). apply list_elem_of_filter in Hl as [Hn Hl].
    apply list_elem_of_fmap in Hl as ([mac l'] & -> & Hm).
    apply elem_of_map_to_list in Hm. eauto.
  - intros (mac & l & Hm & Hn & <-). exists l. split; [done|].
    apply list_elem_of_filter. split; [done|]. apply list_elem_of_fmap.
    exists (mac, l). split; [done|]. by apply elem_of_map_to_list.
Qed.
Lemma elem_of_reserved s ip :
  ip ∈ reserved s ↔ ∃ mac, reservations (config s) !! mac = Some ip.
Proof.
  unfold reserved. rewrite list_elem_of_fmap. split.
  - intros ([mac ip'] & -> & Hm). apply elem_of_map_to_list in Hm. eauto.
  - intros (mac & Hm). exists (mac, ip). split; [done|]. by apply elem_of_map_to_list.
Qed.

(** [alloc] is the first host nobody has a claim on; it fails only when
    every host has one. *)
Definition free s now ip : Prop :=
  ip ∉ leased s now ∧ ip ∉ reserved s ∧ ip ≠ gateway (config s) ∧ ip ∉ declined s.

Lemma taken_free s now ip : ip ∉ taken s now ↔ free s now ip.
Proof.
  unfold taken, free. rewrite !not_elem_of_app, list_elem_of_singleton, elem_of_elements. tauto.
Qed.
Lemma alloc_spec s now :
  match alloc s now with
  | Some ip => ∃ before after, net_hosts (subnet (config s)) = before ++ ip :: after ∧
      free s now ip ∧ ∀ h, h ∈ before → ¬ free s now h
  | None => ∀ h, h ∈ net_hosts (subnet (config s)) → ¬ free s now h
  end.
Proof.
  unfold alloc. induction (net_hosts _) as [|h hs IH]; [set_solver|].
  rewrite filter_cons. destruct (decide (h ∉ taken s now)) as [Hh|Hh].
  - exists [], hs. cbn. split; [done|]. split; [by apply taken_free|set_solver].
  - rewrite taken_free in Hh. destruct (head _) as [ip|].
    + destruct IH as (b & a & -> & Hf & Hb). exists (h :: b), a. split; [done|]. split; [done|].
      intros h' [->|Hin]%elem_of_cons; auto.
    + intros h' [->|Hin]%elem_of_cons; auto.
Qed.

Lemma requestable_spec s now ip :
  requestable s now ip = true ↔
  (net_contains (subnet (config s)) ip = true ∧ ip ≠ net_network (subnet (config s)) ∧
   ip ≠ net_broadcast (subnet (config s))) ∧ free s now ip.
Proof.
  unfold requestable, free. rewrite !andb_true_iff, !negb_true_iff, !Z.eqb_neq, !bool_decide_eq_false.
  tauto.
Qed.

(** ** The lease table *)

(** A reserved client holds its reservation; another client holds an
    address of the subnet that is neither reserved nor the gateway's. *)
Definition lease_ok s mac (l : Lease) : Prop :=
  match reservations (config s) !! mac with
  | Some ip => l_addr l = ip
  | None => net_contains (subnet (config s)) (l_addr l) = true ∧
      l_addr l ∉ reserved s ∧ l_addr l ≠ gateway (config s)
  end.
Record leases_inv s : Prop := {
  li_ok : map_Forall (lease_ok s) (leases s);
  li_distinct : ∀ m1 m2 l1 l2, leases s !! m1 = Some l1 → leases s !! m2 = Some l2 →
    l_addr l1 = l_addr l2 → m1 = m2;
}.

Lemma leases_inv_sub s s' :
  leases_inv s → config s' = config s → leases s' ⊆ leases s → leases_inv s'.
Proof.
  intros [Hok Hd] Hc Hs. split.
  - intros m l Hl. unfold lease_ok, reserved in *. rewrite Hc.
    apply (Hok m l). eapply lookup_weaken; eauto.
  - intros m1 m2 l1 l2 H1 H2. eapply Hd; eapply lookup_weaken; eauto.
Qed.
Lemma leases_inv_purge s now : leases_inv s → leases_inv (purge_expired s now).
Proof. intros Hi. apply (leases_inv_sub s); [done|done|]. apply map_filter_subseteq. Qed.
Lemma leases_inv_drop s mac : leases_inv s → leases_inv (drop_lease s mac).
Proof. intros Hi. apply (leases_inv_sub s); [done|done|]. apply delete_subseteq. Qed.
Lemma leases_inv_decline s q : leases_inv s → leases_inv (on_decline s q).
Proof.
  intros Hi. unfold on_decline. destruct (match leases s !! _ with Some _ => _ | None => _ end).
  - apply (leases_inv_sub s); [done|done|]. apply delete_subseteq.
  - by apply leases_inv_drop.
Qed.

(** [grant] keeps the invariant when the address is the client's own or
    nobody else's. *)
Lemma leases_inv_grant s now mac ip :
  leases_inv s → lease_ok s mac (mkLease ip 0) →
  (∀ m l, leases s !! m = Some l → l_addr l = ip → m = mac) → leases_inv (grant s now mac ip).
Proof.
  intros [Hok Hd] Hip Hu. split.
  - apply map_Forall_insert_2; [exact Hip|exact Hok].
  - cbn. intros m1 m2 l1 l2 H1 H2 Ha.
    apply lookup_insert_Some in H1 as [[<- <-]|[N1 H1]];
      apply lookup_insert_Some in H2 as [[<- <-]|[N2 H2]]; [done| | |by eapply Hd].
    + cbn in Ha. symmetry. by eapply Hu.
    + cbn in Ha. by eapply Hu.
Qed.

(** Every entry of the table is unexpired, as after [purge_expired]. *)
Definition fresh s now : Prop := map_Forall (λ _ l, now < expiry l) (leases s).
Lemma fresh_purge s now : fresh (purge_expired s now) now.
Proof. intros m l Hl. by apply map_lookup_filter_Some in Hl as [_ ?]. Qed.
Lemma lease_of_Some s now mac ip :
  lease_of s now mac = Some ip → ∃ e, leases s !! mac = Some (mkLease ip e).
Proof.
  unfold lease_of. destruct (leases s !! mac) as [[a e]|]; cbn; [|done].
  case_goal; intros; simplify_eq. eauto.
Qed.

Definition injective_reservations c : Prop :=
  ∀ m1 m2 ip, reservations c !! m1 = Some ip → reservations c !! m2 = Some ip → m1 = m2.

(** Nobody else holds an address that is a client's reservation, its own
    lease, or free. *)
Lemma reserved_unique s mac ip m l :
  leases_inv s → injective_reservations (config s) → reservations (config s) !! mac = Some ip →
  leases s !! m = Some l → l_addr l = ip → m = mac.
Proof.
  intros [Hok _] Hinj Hr Hl <-. specialize (Hok m l Hl). unfold lease_ok in Hok.
  destruct (reservations (config s) !! m) as [ip'|] eqn:Hm.
  - subst. by eapply Hinj.
  - destruct Hok as (_ & Hn & _). exfalso. apply Hn, elem_of_reserved. eauto.
Qed.
Lemma own_unique s now mac ip m l :
  leases_inv s → lease_of s now mac = Some ip → leases s !! m = Some l → l_addr l = ip → m = mac.
Proof.
  intros [_ Hd] Hm Hl Ha. apply lease_of_Some in Hm as [e Hm]. by eapply Hd.
Qed.
Lemma free_unique s now mac ip m l :
  fresh s now → ip ∉ leased s now → leases s !! m = Some l → l_addr l = ip → m = mac.
Proof.
  intros Hf Hn Hl Ha. exfalso. apply Hn, elem_of_leased. exists m, l. split; [done|].
  split; [by apply (Hf m)|done].
Qed.

(** An address given to a client that has no reservation and no lease. *)
Lemma leases_inv_grant_free s now mac ip :
  leases_inv s → fresh s now → reservations (config s) !! mac = None →
  net_contains (subnet (config s)) ip = true → free s now ip → leases_inv (grant s now mac ip).
Proof.
  intros Hi Hf Hr Hc (Hl & Hres & Hg & _). apply leases_inv_grant; [done| |].
  - unfold lease_ok. rewrite Hr. done.
  - intros m l. by eapply free_unique.
Qed.
(** An address given to a client entitled to it. *)
Definition entitled s now mac : option Ipv4Addr :=
  match reservations (config s) !! mac with Some ip => Some ip | None => lease_of s now mac end.
Lemma leases_inv_grant_entitled s now mac ip :
  leases_inv s → injective_reservations (config s) → entitled s now mac = Some ip →
  leases_inv (grant s now mac ip).
Proof.
  intros Hi Hinj He. unfold entitled in He.
  destruct (reservations (config s) !! mac) as [ip'|] eqn:Hr.
  - simplify_eq. apply leases_inv_grant; [done| |].
    + unfold lease_ok. by rewrite Hr.
    + intros m l. by eapply reserved_unique.
  - apply leases_inv_grant; [done| |].
    + destruct (lease_of_Some _ _ _ _ He) as [e Hl]. apply (li_ok _ Hi) in Hl.
      unfold lease_ok in *. by rewrite Hr in *.
    + intros m l. by eapply own_unique.
Qed.

Lemma ip_for_cases s now mac ip :
  ip_for s now mac = Some ip →
  entitled s now mac = Some ip ∨
  (reservations (config s) !! mac = None ∧ lease_of s now mac = None ∧ alloc s now = Some ip).
Proof.
  unfold ip_for, entitled. destruct (reservations (config s) !! mac); [by left|].
  destruct (lease_of s now mac); [by left|by right].
Qed.
Lemma granted_cases s now q ip :
  granted s now q = Some ip →
  entitled s now (chaddr q) = Some ip ∨
  (reservations (config s) !! chaddr q = None ∧ lease_of s now (chaddr q) = None ∧
   requestable s now ip = true).
Proof.
  unfold granted, entitled. set (r := match requested_ip q with Some _ => _ | None => _ end).
  destruct (reservations (config s) !! chaddr q) as [e|].
  - destruct r; [case_goal|]; intros; simplify_eq; by left.
  - destruct (lease_of s now (chaddr q)) as [e|].
    + destruct r; [case_goal|]; intros; simplify_eq; by left.
    + destruct r; [case_goal|]; intros; simplify_eq; by right.
Qed.

Lemma alloc_contained s now ip :
  alloc s now = Some ip → net_contains (subnet (config s)) ip = true ∧ free s now ip.
Proof.
  intros Ha. pose proof (alloc_spec s now) as Hs. rewrite Ha in Hs.
  destruct Hs as (b & a & Hh & Hf & _). split; [|done]. apply net_hosts_contained.
  rewrite Hh. apply elem_of_app. right. left.
Qed.

Lemma leases_inv_dispatch s now q :
  leases_inv s → fresh s now → injective_reservations (config s) →
  leases_inv (dispatch s now q).1 ∧ config (dispatch s now q).1 = config s.
Proof.
  intros Hi Hf Hinj. unfold dispatch.
  destruct (_ =? DHCP_DISCOVER).
  { unfold on_discover. destruct (ip_for s now (chaddr q)) as [ip|] eqn:Hip; [|done].
    split; [|done]. cbn. apply ip_for_cases in Hip as [He|(Hr & Hl & Ha)].
    - by apply leases_inv_grant_entitled.
    - apply alloc_contained in Ha as [Hc Hfr]. by apply leases_inv_grant_free. }
  destruct (_ =? DHCP_REQUEST).
  { unfold on_request. destruct (match server_id q with Some _ => _ | None => _ end).
    { split; [by apply leases_inv_drop|done]. }
    destruct (granted s now q) as [ip|] eqn:Hg; [|done]. split; [|done]. cbn.
    apply granted_cases in Hg as [He|(Hr & Hl & Hq)].
    - by apply leases_inv_grant_entitled.
    - apply requestable_spec in Hq as [(Hc & _) Hfr]. by apply leases_inv_grant_free. }
  destruct (_ =? DHCP_RELEASE); [split; [by apply leases_inv_drop|done]|].
  destruct (_ =? DHCP_DECLINE); [|done]. split; [by apply leases_inv_decline|].
  cbn. unfold on_decline. by repeat case_goal.
Qed.

(** ** The life of a server: frames handled at any times, and reconfigurations *)

Inductive dhcp_step : DhcpServer Net → DhcpServer Net → Prop :=
| step_handle s now f s' r : handle s now f = Ret (s', r) → dhcp_step s s'
| step_routes s r : dhcp_step s (set_routes s r)
| step_reconfigure s f :
    reservations (f (config s)) = reservations (config s) →
    gateway (f (config s)) = gateway (config s) → subnet (f (config s)) = subnet (config s) →
    dhcp_step s (reconfigure s f).

Lemma leases_inv_handle s now f s' r :
  leases_inv s → injective_reservations (config s) → handle s now f = Ret (s', r) →
  leases_inv s' ∧ config s' = config s.
Proof.
  intros Hi Hinj. unfold handle. destruct (dhcp_request f) as [[q|]|]; cbn; [|by intros [= <- _]|done].
  intros [= Hs].
  destruct (leases_inv_dispatch (purge_expired s now) now q) as [H1 H2];
    [by apply leases_inv_purge|apply fresh_purge|done|].
  rewrite Hs in H1, H2. done.
Qed.

Lemma leases_inv_step s s' :
  leases_inv s ∧ injective_reservations (config s) → dhcp_step s s' →
  leases_inv s' ∧ injective_reservations (config s').
Proof.
  intros [Hi Hinj] Hs. inversion Hs as [s0 now f s1 r Hh|s0 r|s0 f E1 E2 E3]; subst.
  - destruct (leases_inv_handle _ _ _ _ _ Hi Hinj Hh) as [? ->]. done.
  - split; [|done]. destruct Hi. by split.
  - split; [|unfold injective_reservations in *; cbn; by rewrite E1]. destruct Hi as [Hok Hd].
    split; [|done]. intros m l Hl. specialize (Hok m l Hl). unfold lease_ok, reserved in *. cbn.
    by rewrite E1, E2, E3.
Qed.

(** ** What a client reads from a reply *)

(** RFC 2132: walk the options up to the end marker. *)
Fixpoint tlvs (fuel : nat) (b : bytes) : option (list (Z * bytes)) :=
  match fuel, b with
  | O, _ | _, [] => None
  | S fuel, code :: rest =>
      if code =? OPT_PAD then tlvs fuel rest
      else if code =? OPT_END then Some []
      else
        match rest with
        | [] => None
        | l :: rest =>
            if len rest <? l then None
            else ((code, take (Z.to_nat l) rest) ::.) <$> tlvs fuel (drop (Z.to_nat l) rest)
        end
  end.
Fixpoint opt_get (k : Z) (os : list (Z * bytes)) : option bytes :=
  match os with
  | [] => None
  | (c, v) :: os => if c =? k then Some v else opt_get k os
  end.

(** RFC 3442: the routes of option 121, as prefix length, network and
    router. *)
Fixpoint decode_routes (fuel : nat) (b : bytes) : option (list (Z * Ipv4Addr * Ipv4Addr)) :=
  match fuel, b with
  | O, _ => None
  | _, [] => Some []
  | S fuel, plen :: rest =>
      let n := Z.to_nat (div_ceil plen 8) in
      if len rest <? Z.of_nat n + 4 then None
      else
        let net := ipv4_at (take n rest ++ replicate (4 - n) 0) 0 in
        ((plen, net, ipv4_at (drop n rest) 0) ::.) <$> decode_routes fuel (drop (n + 4) rest)
  end.

Lemma tlvs_opts os fuel :
  Forall (λ o, 0 < o.1 < 255 ∧ len o.2 ≤ 255) os → (length os < fuel)%nat →
  tlvs fuel (concat (uncurry opt <$> os) ++ [OPT_END]) = Some os.
Proof.
  intros Hos. revert fuel. induction Hos as [|[code val] os [Hc Hv] Hos IH]; intros fuel Hf.
  { destruct fuel; [cbn in Hf; lia|done]. }
  destruct fuel as [|fuel]; [cbn in Hf; lia|]. cbn [fmap list_fmap uncurry concat].
  unfold opt. cbn [app]. cbn [tlvs]. cbn [fst snd] in *.
  unfold OPT_PAD. rewrite (proj2 (Z.eqb_neq code 0)) by lia.
  pose proof (len_nonneg val). unfold wrap8. rewrite Z.mod_small by lia.
  rewrite <-app_assoc. rewrite (proj2 (Z.ltb_ge _ _)).
  2: { rewrite len_app.
       match goal with |- context [len val + len ?l] => pose proof (len_nonneg l) end. lia. }
  rewrite to_nat_len, take_app_length, drop_app_length.
  rewrite IH by (cbn in Hf; lia). unfold OPT_END. by rewrite (proj2 (Z.eqb_neq _ _)) by lia.
Qed.

(** The significant octets of an aligned network, padded with zeros, are its
    octets. *)
Lemma significant_octets net n :
  is_u32 net → (2 ^ (8 * (4 - n)) | net) → 0 ≤ n ≤ 4 →
  take (Z.to_nat n) (octets net) ++ replicate (4 - Z.to_nat n) 0 = octets net.
Proof.
  intros Hu [k Hk] Hn. unfold is_u32 in Hu.
  assert (Hc : n = 0 ∨ n = 1 ∨ n = 2 ∨ n = 3 ∨ n = 4) by lia.
  unfold octets, be32. destruct Hc as [->|[->|[->|[->| ->]]]]; [| | | |done].
  all: match goal with |- context [Z.to_nat ?x] =>
         let y := eval compute in (Z.to_nat x) in change (Z.to_nat x) with y end.
  all: match type of Hk with _ = _ * ?x => let y := eval compute in x in change x with y in Hk end.
  all: cbn [take replicate app Nat.sub];
    repeat apply (f_equal2 cons); try done; Z.to_euclidean_division_equations; lia.
Qed.

Definition route_view (r : Net * Ipv4Addr) : Z * Ipv4Addr * Ipv4Addr :=
  (net_prefix_len r.1, net_network r.1, r.2).

Lemma decode_encode_routes rs fuel :
  Forall (λ r, is_u32 r.2) rs → (length rs < fuel)%nat →
  decode_routes fuel (encode_classless_routes rs) = Some (route_view <$> rs).
Proof.
  intros Hrs. revert fuel. induction Hrs as [|[net via] rs Hv Hrs IH]; intros fuel Hf.
  { by destruct fuel; [cbn in Hf; lia|]. }
  destruct fuel as [|fuel]; [cbn in Hf; lia|].
  unfold encode_classless_routes in *. cbn [fmap list_fmap concat].
  pose proof (net_prefix_range net) as Hp. set (plen := net_prefix_len net) in *.
  set (n := div_ceil plen 8). assert (Hn : 0 ≤ n ≤ 4 ∧ plen ≤ 8 * n).
  { unfold n, div_ceil. Z.to_euclidean_division_equations. lia. }
  assert (Hs : slice (octets (net_network net)) 0 n = take (Z.to_nat n) (octets (net_network net)))
    by (unfold slice; rewrite drop_0; do 2 f_equal; lia).
  rewrite Hs, <-!app_assoc. cbn [app decode_routes]. fold n.
  set (tl := concat _) in *. set (sig := take _ (octets _)) in *.
  assert (Hl : length sig = Z.to_nat n)
    by (unfold sig; rewrite length_take; change (length (octets _)) with 4%nat; lia).
  rewrite (proj2 (Z.ltb_ge _ _)).
  2: { rewrite !len_app. pose proof (len_nonneg tl). change (len (octets via)) with 4.
       unfold len at 1. lia. }
  rewrite <-Hl, take_app_length, drop_app_length.
  replace (length sig + 4)%nat with (length sig + length (octets via))%nat by done.
  rewrite app_assoc, <-length_app, drop_app_length. unfold tl. rewrite IH by (cbn in Hf; lia).
  cbn. do 2 f_equal. unfold route_view. cbn [fst snd]. fold plen. f_equal; [f_equal|].
  - unfold sig. rewrite length_take. change (length (octets _)) with 4%nat.
    replace (Z.to_nat n `min` 4)%nat with (Z.to_nat n) by lia.
    rewrite significant_octets; [exact (of_be32_be32 _)|apply net_network_u32| |lia].
    eapply Z.divide_trans; [|apply net_network_aligned]. fold plen.
    exists (2 ^ (8 * n - plen)). rewrite <-Z.pow_add_r by lia. f_equal. lia.
  - exact (of_be32_be32 via).
Qed.

(** ** The options of a reply, as a list *)

Definition opt_if {A} (code : Z) (o : option A) (f : A → bytes) : list (Z * bytes) :=
  match o with Some a => [(code, f a)] | None => [] end.
Definition lease_opts c : list (Z * bytes) :=
  [(OPT_LEASE_TIME, be32 (lease_secs c)); (OPT_SUBNET_MASK, octets (net_netmask (subnet c)));
   (OPT_ROUTER, octets (router c))]
  ++ opt_if OPT_DNS (dns_server c) octets ++ opt_if OPT_DOMAIN (domain c) id
  ++ (if mtu c =? 1500 then [] else [(OPT_MTU, be16 (mtu c))])
  ++ match routes c with
     | [] => []
     | _ => [(OPT_CLASSLESS_ROUTES, encode_classless_routes (offered_routes c))]
     end.
Definition reply_opts c (mt : Z) : list (Z * bytes) :=
  [(OPT_MSG_TYPE, [mt]); (OPT_SERVER_ID, octets (gateway c))]
  ++ if mt =? DHCP_NAK then [] else lease_opts c.

Lemma reply_options_eq c mt :
  reply_options c mt = concat (uncurry opt <$> reply_opts c mt) ++ [OPT_END].
Proof.
  unfold reply_options, reply_opts, lease_opts, opt_if.
  destruct (mt =? DHCP_NAK), (dns_server c), (domain c), (mtu c =? 1500), (routes c);
    cbn [negb]; rewrite !fmap_app; cbn [fmap list_fmap uncurry]; rewrite !concat_app; cbn [concat];
    rewrite ?app_nil_r, <-?app_assoc; reflexivity.
Qed.

(** A configuration whose options fit their length octets. *)
Record config_ok c : Prop := {
  ck_gateway : is_u32 (gateway c); ck_router : is_u32 (router c); ck_mac : mac_ok (server_mac c);
  ck_dns : ∀ d, dns_server c = Some d → is_u32 d;
  ck_domain : ∀ d, domain c = Some d → bytes_ok d ∧ len d ≤ 255;
  ck_lease : is_u32 (lease_secs c); ck_mtu : is_u16 (mtu c);
  ck_res : map_Forall (λ _ ip, is_u32 ip) (reservations c);
  ck_vias : Forall (λ r, is_u32 r.2) (routes c);
  ck_routes : len (encode_classless_routes (offered_routes c)) ≤ 255;
}.

Lemma encode_routes_ok rs : Forall (λ r, is_u32 r.2) rs → bytes_ok (encode_classless_routes rs).
Proof.
  induction 1 as [|[net via] rs Hv Hrs IH]; [constructor|].
  unfold encode_classless_routes in *. cbn [fmap list_fmap concat]. apply bytes_ok_app; [|done].
  pose proof (net_prefix_range net). pose proof (net_network_u32 net).
  cbn [app]. apply bytes_ok_cons; [ints; lia|].
  apply bytes_ok_app; [apply bytes_ok_slice|]; by apply bytes_ok_octets.
Qed.
Lemma offered_vias c : config_ok c → Forall (λ r, is_u32 r.2) (offered_routes c).
Proof.
  intros Hc. unfold offered_routes. destruct (bool_decide _); [apply Hc|].
  apply Forall_app. split; [apply Hc|]. repeat constructor; apply Hc.
Qed.

Lemma reply_opts_fit c mt :
  config_ok c → is_u8 mt →
  Forall (λ o, (0 < o.1 < 255 ∧ len o.2 ≤ 255) ∧ bytes_ok o.2) (reply_opts c mt).
Proof.
  intros Hc Hm. assert (Hw : ∀ k n, 0 < k < 255 → is_u32 n →
    (0 < k < 255 ∧ len (octets n) ≤ 255) ∧ bytes_ok (octets n)).
  { intros. split; [split; [done|change (len (octets n)) with 4; lia]|by apply bytes_ok_octets]. }
  pose proof (net_netmask_u32 (subnet c)). destruct Hc as [Hg Hr Hmac Hdns Hdom Hls Hmtu Hres Hvia Hrt].
  assert (Hc : config_ok c) by done.
  unfold reply_opts. apply Forall_app. split.
  { constructor; [|constructor; [by apply Hw|constructor]].
    cbn [fst snd]. split; [split; [done|change (len [mt]) with 1; lia]|]. apply bytes_ok_cons; [done|constructor]. }
  destruct (mt =? DHCP_NAK); [constructor|]. unfold lease_opts. rewrite !Forall_app. split_and!.
  - do 3 (constructor; [by apply Hw|]). constructor.
  - unfold opt_if. destruct (dns_server c) as [d|]; constructor; [|constructor]. apply Hw; [done|by apply Hdns].
  - unfold opt_if. destruct (domain c) as [d|]; constructor; [|constructor]. destruct (Hdom d eq_refl). done.
  - destruct (mtu c =? 1500); constructor; [|constructor]. cbn [fst snd].
    split; [split; [done|rewrite len_be16; lia]|auto with vmlab].
  - destruct (routes c); constructor; [|constructor]. cbn [fst snd]. split; [done|].
    apply encode_routes_ok. by apply offered_vias.
Qed.

Lemma len_opts os :
  Forall (λ o, len o.2 ≤ 255) os → len (concat (uncurry opt <$> os)) ≤ 257 * len os.
Proof.
  induction 1 as [|[k v] os Hv Hos IH]; [done|]. cbn [fmap list_fmap concat uncurry]. unfold opt at 1.
  rewrite len_app, !len_cons, len_nil || idtac. cbn [app]. cbn [snd] in Hv. len_lia.
Qed.

Lemma reply_opts_few c mt : len (reply_opts c mt) ≤ 9.
Proof.
  unfold reply_opts, lease_opts, opt_if.
  by destruct (mt =? DHCP_NAK), (dns_server c), (domain c), (mtu c =? 1500), (routes c).
Qed.
Lemma opts_ok os : Forall (λ o, 0 < o.1 < 255 ∧ bytes_ok o.2) os → bytes_ok (concat (uncurry opt <$> os)).
Proof.
  induction 1 as [|[k v] os [Hk Hv] Hos IH]; [constructor|]. cbn [fmap list_fmap concat uncurry]. cbn [fst snd] in *.
  unfold opt. apply bytes_ok_app; [|done]. apply bytes_ok_app; [|done].
  repeat constructor; try (ints; lia). all: unfold wrap8; apply Z.mod_pos_bound; lia.
Qed.

(** ** The reply frame *)

(** What the client of [q] reads in [b], the BOOTP payload. *)
Record bootp_says c (q : BootpRequest) (mt yi : Z) (b : bytes) : Prop := {
  bs_op : idx b 0 = BOOTREPLY;
  bs_hw : idx b 1 = 1 ∧ idx b 2 = 6;
  bs_xid : u32_at b 4 = xid q;
  bs_flags : u16_at b 10 = q_flags q;
  bs_ciaddr : ipv4_at b 12 = if mt =? DHCP_ACK then ciaddr q else 0;
  bs_yiaddr : ipv4_at b 16 = yi;
  bs_siaddr : ipv4_at b 20 = gateway c;
  bs_giaddr : ipv4_at b 24 = giaddr q;
  bs_chaddr : slice b 28 34 = chaddr q;
  bs_cookie : slice b 236 240 = MAGIC_COOKIE;
  bs_opts : tlvs (length b) (drop 240 b) = Some (reply_opts c mt);
}.

Lemma bootp_reply_says c q mt yi :
  config_ok c → is_u8 mt → mac_ok (chaddr q) → bootp_says c q mt yi (bootp_reply c q mt yi).
Proof.
  intros Hc Hm [Hch _]. unfold bootp_reply. set (o := reply_options c mt).
  destruct (chaddr q) as [|c0 [|c1 [|c2 [|c3 [|c4 [|c5 [|]]]]]]] eqn:Hq; try done.
  split; try done; try exact (of_be32_be32 _); try exact (of_be16_be16 _).
  transitivity (tlvs (240 + length o) o); [done|]. unfold o.
  rewrite reply_options_eq. apply tlvs_opts.
  - eapply Forall_impl; [by apply reply_opts_fit|]. by intros ? [? _].
  - pose proof (reply_opts_few c mt). unfold len in *. lia.
Qed.

Ltac piece_ok :=
  lazymatch goal with
  | |- bytes_ok (octets _) => apply bytes_ok_octets; assumption
  | |- bytes_ok (be32 _) => apply bytes_ok_be32; assumption
  | |- bytes_ok (be16 _) => apply bytes_ok_be16; assumption
  | |- bytes_ok (replicate _ _) => apply bytes_ok_zeros
  | |- bytes_ok (_ :: _) => concrete
  | |- bytes_ok MAGIC_COOKIE => concrete
  | |- _ => assumption
  end.
Lemma bootp_reply_fits c q mt yi :
  config_ok c → is_u8 mt → req_ok q → is_u32 yi →
  bytes_ok (bootp_reply c q mt yi) ∧ len (bootp_reply c q mt yi) ≤ 2560.
Proof.
  intros Hc Hm (Hx & Hf & Hci & Hgi & [Hch Hcb] & _) Hy. pose proof (reply_opts_fit c mt Hc Hm) as Hfit.
  assert (Ho : bytes_ok (reply_options c mt) ∧ len (reply_options c mt) ≤ 257 * 9 + 1).
  { rewrite reply_options_eq. split.
    - apply bytes_ok_app; [|by repeat constructor]. apply opts_ok.
      eapply Forall_impl; [exact Hfit|]. by intros ? [[? _] ?].
    - rewrite len_app. change (len [OPT_END]) with 1. pose proof (reply_opts_few c mt).
      pose proof (len_opts (reply_opts c mt)) as Hl. apply Z.add_le_mono_r.
      etransitivity; [apply Hl|lia]. eapply Forall_impl; [exact Hfit|]. by intros ? [[_ ?] _]. }
  destruct Ho as [Hob Hol]. unfold bootp_reply.
  assert (Hcu : is_u32 (if mt =? DHCP_ACK then ciaddr q else UNSPECIFIED))
    by (destruct (_ =? _); [done|unfold UNSPECIFIED; ints; lia]).
  pose proof (ck_gateway c Hc). split.
  - repeat (lazymatch goal with |- bytes_ok (_ ++ _) => apply bytes_ok_app end; [piece_ok|]). done.
  - assert (Hl6 : len (chaddr q) = 6) by (unfold len; lia).
    unfold octets, MAGIC_COOKIE. autorewrite with len. lia.
Qed.

(** The frame a client receives: addressed to it, or broadcast when it asked
    for that or has no address yet. *)
Definition broadcast_reply (q : BootpRequest) (mt yi : Z) : Prop :=
  mt = DHCP_NAK ∨ Z.testbit (q_flags q) 15 = true ∨ yi = 0.
Definition reply_says c (q : BootpRequest) (mt yi : Z) (frame : bytes) : Prop :=
  ∃ dm di b, udp_frame_carries frame dm (server_mac c) (gateway c) di 67 68 b ∧
    (broadcast_reply q mt yi → dm = MAC_BROADCAST ∧ di = 0xFFFFFFFF) ∧
    (¬ broadcast_reply q mt yi → dm = chaddr q ∧ di = yi) ∧
    bootp_says c q mt yi b.

Lemma flag_testbit f : negb (Z.land f FLAG_BROADCAST =? 0) = Z.testbit f 15.
Proof.
  unfold FLAG_BROADCAST. change 0x8000 with (2 ^ 15).
  destruct (Z.testbit f 15) eqn:E.
  - apply negb_true_iff, Z.eqb_neq. intros H1. apply (f_equal (λ x, Z.testbit x 15)) in H1.
    rewrite Z.land_spec, E, Z.pow2_bits_true in H1 by lia. done.
  - apply negb_false_iff, Z.eqb_eq. apply Z.bits_inj'. intros n Hn.
    rewrite Z.land_spec, Z.bits_0. destruct (decide (n = 15)) as [->|]; [by rewrite E|].
    rewrite Z.pow2_bits_false by lia. apply andb_false_r.
Qed.

Lemma broadcast_spec (q : BootpRequest) mt yi :
  (mt =? DHCP_NAK) || negb (Z.land (q_flags q) FLAG_BROADCAST =? 0) || (yi =? UNSPECIFIED) = true
  ↔ broadcast_reply q mt yi.
Proof. rewrite flag_testbit, !orb_true_iff, !Z.eqb_eq. unfold broadcast_reply. tauto. Qed.

Lemma build_reply_says s q mt oyi :
  config_ok (config s) → is_u8 mt → req_ok q → is_u32 (default 0 oyi) →
  ∃ frame, build_reply s q mt oyi = Some frame ∧ reply_says (config s) q mt (default 0 oyi) frame.
Proof.
  intros Hc Hm Hq Hy. set (yi := default 0 oyi) in *. set (c := config s) in *.
  destruct (bootp_reply_fits c q mt yi Hc Hm Hq Hy) as [Hbok Hbl].
  pose proof (broadcast_spec q mt yi) as Hbr. destruct Hq as (Hx & Hf & _ & _ & Hch & _).
  set (br := (mt =? DHCP_NAK) || _ || _) in *.
  set (dm := if br then MAC_BROADCAST else chaddr q). set (di := if br then BROADCAST else yi).
  assert (Hbuild : build_reply s q mt oyi = udp_frame dm (server_mac c) (gateway c) di DHCP_SERVER_PORT
    DHCP_CLIENT_PORT 64 (wrap16 (Z.land (xid q) 0xFFFF)) (bootp_reply c q mt yi)).
  { unfold build_reply. fold c. change (default UNSPECIFIED oyi) with yi. fold br. unfold dm, di. by destruct br. }
  destruct (udp_frame_ok dm (server_mac c) (gateway c) di DHCP_SERVER_PORT DHCP_CLIENT_PORT 64
    (wrap16 (Z.land (xid q) 0xFFFF)) (bootp_reply c q mt yi)) as (frame & Hfr & Hcar); try done.
  { unfold dm. destruct br; [by split; [|concrete]|done]. }
  { apply Hc. } { apply Hc. }
  { unfold di. destruct br; [unfold BROADCAST; ints; lia|done]. }
  { unfold wrap16, is_u16. apply Z.mod_pos_bound. lia. }
  { lia. }
  exists frame. split; [congruence|]. exists dm, di, (bootp_reply c q mt yi). split; [exact Hcar|].
  split_and!.
  - intros Hb. apply Hbr in Hb. unfold dm, di. by rewrite Hb.
  - intros Hb. assert (br = false) as Hb' by (destruct br; [exfalso; by apply Hb, Hbr|done]).
    unfold dm, di. by rewrite Hb'.
  - by apply bootp_reply_says.
Qed.

(** ** The protocol, as a relation

    What may happen when a server whose expired leases are gone handles the
    request [q]: the server after it and the answer. *)

(** The address a client asks for: option 50, else a non-zero [ciaddr]. *)
Definition asks (q : BootpRequest) (ip : Ipv4Addr) : Prop :=
  requested_ip q = Some ip ∨ (requested_ip q = None ∧ ciaddr q = ip ∧ ip ≠ 0).
(** The address a REQUEST may be acknowledged with. *)
Definition may_hold s now (q : BootpRequest) (ip : Ipv4Addr) : Prop :=
  match entitled s now (chaddr q) with
  | Some e => ip = e ∧ ∀ r, asks q r → r = e
  | None => asks q ip ∧ free s now ip ∧
      net_network (subnet (config s)) < ip < net_broadcast (subnet (config s))
  end.
(** The address a DISCOVER is offered: the client's own, else the first free
    host of the subnet. *)
Definition offers s now mac ip : Prop :=
  match entitled s now mac with
  | Some e => ip = e
  | None => ∃ before after, net_hosts (subnet (config s)) = before ++ ip :: after ∧
      free s now ip ∧ ∀ h, h ∈ before → ¬ free s now h
  end.
Definition selected s (q : BootpRequest) : Prop :=
  ∀ sid, server_id q = Some sid → sid = gateway (config s).

Inductive dhcp_answer s now (q : BootpRequest) : DhcpServer Net → option bytes → Prop :=
| ans_offer ip frame :
    msg_type q = DHCP_DISCOVER → offers s now (chaddr q) ip →
    reply_says (config s) q DHCP_OFFER ip frame →
    dhcp_answer s now q (grant s now (chaddr q) ip) (Some frame)
| ans_exhausted :
    msg_type q = DHCP_DISCOVER → entitled s now (chaddr q) = None →
    (∀ h, h ∈ net_hosts (subnet (config s)) → ¬ free s now h) → dhcp_answer s now q s None
| ans_other_server :
    msg_type q = DHCP_REQUEST → ¬ selected s q → dhcp_answer s now q (drop_lease s (chaddr q)) None
| ans_ack ip frame :
    msg_type q = DHCP_REQUEST → selected s q → may_hold s now q ip →
    reply_says (config s) q DHCP_ACK ip frame →
    dhcp_answer s now q (grant s now (chaddr q) ip) (Some frame)
| ans_nak frame :
    msg_type q = DHCP_REQUEST → selected s q → (∀ ip, ¬ may_hold s now q ip) →
    reply_says (config s) q DHCP_NAK 0 frame → dhcp_answer s now q s (Some frame)
| ans_release :
    msg_type q = DHCP_RELEASE → dhcp_answer s now q (drop_lease s (chaddr q)) None
| ans_decline s' :
    msg_type q = DHCP_DECLINE → config s' = config s → leases s' = delete (chaddr q) (leases s) →
    (∀ ip, ip ∈ declined s' ↔ ip ∈ declined s ∨
       match leases s !! chaddr q with Some l => ip = l_addr l | None => requested_ip q = Some ip end) →
    dhcp_answer s now q s' None
| ans_ignored :
    msg_type q ∉ [DHCP_DISCOVER; DHCP_REQUEST; DHCP_RELEASE; DHCP_DECLINE] → dhcp_answer s now q s None.

Lemma entitled_u32 s now mac ip :
  config_ok (config s) → leases_inv s → entitled s now mac = Some ip → is_u32 ip.
Proof.
  intros Hc Hi He. unfold entitled in He. destruct (reservations (config s) !! mac) as [ip'|] eqn:Hr.
  - simplify_eq. by eapply (ck_res _ Hc).
  - apply lease_of_Some in He as [e He]. apply (li_ok _ Hi) in He. unfold lease_ok in He.
    rewrite Hr in He. destruct He as [He _]. apply net_contains_spec in He. cbn in He.
    pose proof (net_network_u32 (subnet (config s))). pose proof (net_broadcast_u32 (subnet (config s))).
    ints; lia.
Qed.

Lemma ip_for_offers s now mac :
  match ip_for s now mac with
  | Some ip => offers s now mac ip
  | None => entitled s now mac = None ∧ ∀ h, h ∈ net_hosts (subnet (config s)) → ¬ free s now h
  end.
Proof.
  assert (Hip : ip_for s now mac =
    match entitled s now mac with Some e => Some e | None => alloc s now end)
    by (unfold ip_for, entitled; by destruct (reservations _ !! _)).
  rewrite Hip. unfold offers. destruct (entitled s now mac) as [e|]; [done|].
  pose proof (alloc_spec s now) as Ha. destruct (alloc s now); done.
Qed.
Lemma offers_u32 s now mac ip :
  config_ok (config s) → leases_inv s → offers s now mac ip → is_u32 ip.
Proof.
  intros Hc Hi. unfold offers. destruct (entitled s now mac) as [e|] eqn:He.
  - intros ->. by eapply entitled_u32.
  - intros (b & a & Hh & _). assert (Hin : ip ∈ net_hosts (subnet (config s)))
      by (rewrite Hh; apply elem_of_app; right; left).
    apply net_hosts_contained, net_contains_spec in Hin.
    pose proof (net_network_u32 (subnet (config s))). pose proof (net_broadcast_u32 (subnet (config s))).
    ints; lia.
Qed.

Lemma granted_may_hold s now q ip : granted s now q = Some ip ↔ may_hold s now q ip.
Proof.
  unfold granted, may_hold.
  change (match reservations (config s) !! chaddr q with Some e => Some e | None => lease_of s now (chaddr q) end)
    with (entitled s now (chaddr q)).
  set (r := match requested_ip q with Some _ => _ | None => _ end).
  assert (Hr : ∀ x, r = Some x ↔ asks q x).
  { intros x. unfold r, asks, UNSPECIFIED. destruct (requested_ip q) as [y|].
    - split; [intros [= ->]; by left|intros [[= ->]|[? _]]; done].
    - destruct (ciaddr q =? 0) eqn:E; cbn; bsplit.
      + split; [done|]. intros [?|(_ & <- & ?)]; done.
      + split; [intros [= <-]; by right|]. intros [?|(_ & <- & ?)]; done. }
  destruct r as [x|]; destruct (entitled s now (chaddr q)) as [e|].
  - destruct (x =? e) eqn:E; bsplit.
    + subst. split; [intros [= <-]; split; [done|]|by intros [-> _]].
      intros y Hy. apply Hr in Hy. congruence.
    + split; [done|]. intros [-> Ha]. exfalso. apply E. by apply Ha, Hr.
  - destruct (requestable s now x) eqn:E.
    + apply requestable_spec in E as [(Hc & Hn & Hb) Hf]. apply net_contains_spec in Hc. split.
      * intros [= <-]. split; [by apply Hr|]. split; [done|lia].
      * intros [Ha _]. apply Hr in Ha. congruence.
    + split; [done|]. intros (Ha & Hf & Hb). apply Hr in Ha. injection Ha as ->.
      rewrite (proj2 (requestable_spec s now ip)) in E; [done|]. split; [|done].
      rewrite net_contains_spec. lia.
  - split; [intros [= <-]; split; [done|]|by intros [-> _]]. intros y Hy. apply Hr in Hy. done.
  - split; [done|]. intros [Ha _]. apply Hr in Ha. done.
Qed.
Lemma may_hold_u32 s now q ip :
  config_ok (config s) → leases_inv s → may_hold s now q ip → is_u32 ip.
Proof.
  intros Hc Hi. unfold may_hold. destruct (entitled s now (chaddr q)) as [e|] eqn:He.
  - intros [-> _]. by eapply entitled_u32.
  - intros (_ & _ & Hb). pose proof (net_network_u32 (subnet (config s))).
    pose proof (net_broadcast_u32 (subnet (config s))). ints; lia.
Qed.

Lemma on_request_answers s now q :
  config_ok (config s) → leases_inv s → req_ok q → msg_type q = DHCP_REQUEST →
  dhcp_answer s now q (on_request s now q).1 (on_request s now q).2.
Proof.
  intros Hc Hi Hq Ht. unfold on_request.
  assert (Hsel : match server_id q with Some sid => negb (sid =? gateway (config s)) | None => false end = false
    ↔ selected s q).
  { unfold selected. destruct (server_id q) as [sid|]; [|by split].
    rewrite negb_false_iff, Z.eqb_eq. split; [by intros -> ? [= <-]|by intros H1; apply H1]. }
  destruct (match server_id q with Some _ => _ | None => _ end).
  { apply ans_other_server; [done|]. by intros H1%Hsel. }
  destruct (granted s now q) as [ip|] eqn:Hg.
  - apply granted_may_hold in Hg. destruct (build_reply_says (grant s now (chaddr q) ip) q DHCP_ACK (Some ip))
      as (frame & -> & Hf); try done; [by eapply may_hold_u32|]. apply ans_ack; try done. by apply Hsel.
  - destruct (build_reply_says s q DHCP_NAK None) as (frame & -> & Hf); try done.
    apply ans_nak; try done; [by apply Hsel|]. intros ip Hm. apply granted_may_hold in Hm. cbn in Hm. congruence.
Qed.

Lemma len_encode_routes rs : (length rs ≤ length (encode_classless_routes rs))%nat.
Proof.
  induction rs as [|[net via] rs IH]; [done|]. unfold encode_classless_routes in *.
  cbn [fmap list_fmap concat]. rewrite !length_app. cbn [length]. lia.
Qed.
Lemma offered_routes_decode c :
  config_ok c → ∃ rs,
    decode_routes (S (length (encode_classless_routes (offered_routes c))))
      (encode_classless_routes (offered_routes c)) = Some rs ∧
    (rs = route_view <$> routes c ∨ rs = (route_view <$> routes c) ++ [(0, 0, router c)]) ∧
    Exists (λ r, r.1.1 = 0) rs.
Proof.
  intros Hc. exists (route_view <$> offered_routes c). split.
  { apply decode_encode_routes; [by apply offered_vias|].
    pose proof (len_encode_routes (offered_routes c)). lia. }
  unfold offered_routes. destruct (bool_decide _) eqn:E.
  - apply bool_decide_eq_true in E. split; [by left|]. rewrite Exists_fmap. exact E.
  - split.
    + right. rewrite fmap_app. cbn. unfold route_view at 2. cbn.
      by rewrite net_default_prefix, net_default_network.
    + rewrite fmap_app, Exists_app. right. constructor. cbn. apply net_default_prefix.
Qed.

Lemma dispatch_answers s now q :
  config_ok (config s) → leases_inv s → req_ok q →
  dhcp_answer s now q (dispatch s now q).1 (dispatch s now q).2.
Proof.
  intros Hc Hi Hq. unfold dispatch. destruct (_ =? DHCP_DISCOVER) eqn:E1; bsplit.
  { unfold on_discover. pose proof (ip_for_offers s now (chaddr q)) as Ho.
    destruct (ip_for s now (chaddr q)) as [ip|]; [|destruct Ho; by apply ans_exhausted].
    destruct (build_reply_says (grant s now (chaddr q) ip) q DHCP_OFFER (Some ip))
      as (frame & -> & Hf); try done; [by eapply offers_u32|]. by apply ans_offer. }
  destruct (_ =? DHCP_REQUEST) eqn:E2; bsplit; [by apply on_request_answers|].
  destruct (_ =? DHCP_RELEASE) eqn:E3; bsplit; [by apply ans_release|].
  destruct (_ =? DHCP_DECLINE) eqn:E4; bsplit; [|apply ans_ignored; set_solver].
  cbn [fst snd]. apply ans_decline; unfold on_decline; [done|..];
    destruct (leases s !! chaddr q) as [l|]; try destruct (requested_ip q); try done; cbn; set_solver.
Qed.
End facts.

(** ** Theorems *)

(** C11: no address is handed out twice. Whatever frames a new server handles,
    at whatever times, and whatever reconfiguration it sees that keeps its
    subnet, gateway and reservations: if no two clients share a reservation,
    no two clients of the lease table hold the same address; a client with a
    reservation holds exactly that, and any other client an address of the
    subnet that is neither reserved nor the gateway. *)
Theorem dhcp_addresses_unique {Net} `{Ipv4NetLaws Net} (c : DhcpConfig Net) (s : DhcpServer Net) :
  injective_reservations c → rtc dhcp_step (DhcpServer_new c) s →
  (∀ m1 m2 l1 l2, leases s !! m1 = Some l1 → leases s !! m2 = Some l2 →
     l_addr l1 = l_addr l2 → m1 = m2) ∧
  (∀ mac l, leases s !! mac = Some l →
     match reservations (config s) !! mac with
     | Some ip => l_addr l = ip
     | None => net_contains (subnet (config s)) (l_addr l) = true ∧
         (∀ m, reservations (config s) !! m ≠ Some (l_addr l)) ∧ l_addr l ≠ gateway (config s)
     end).
Proof.
  intros Hinj Hr.
  assert (Hi : leases_inv s ∧ injective_reservations (config s)).
  { refine (rtc_preserves dhcp_step (λ x, leases_inv x ∧ injective_reservations (config x)) _ _ _ Hr _).
    - intros x y Hx Hxy. by eapply leases_inv_step.
    - split; [|done]. by split. }
  destruct Hi as [[Hok Hd] _]. split; [exact Hd|]. intros mac l Hl. specialize (Hok mac l Hl).
  unfold lease_ok in Hok. destruct (reservations (config s) !! mac); [done|].
  destruct Hok as (? & Hn & ?). split; [done|]. split; [|done].
  intros m Hm. apply Hn, elem_of_reserved. eauto.
Qed.


(** What a client reads in the options of an OFFER or ACK of a
    configuration whose options fit their length octets: the message type,
    the server, the lease time, mask and router, DNS server and domain when
    configured, the MTU unless it is 1500, and, when there are routes,
    option 121 decodes (RFC 3442) to exactly those routes, with a default
    route among what it decodes to. A NAK carries type and server only. *)
Theorem dhcp_reply_options {Net} `{Ipv4NetLaws Net} (c : DhcpConfig Net) (q : BootpRequest) (mt yi : Z) :
  config_ok c → mac_ok (chaddr q) → is_u8 mt →
  let b := bootp_reply c q mt yi in
  ∃ os, tlvs (length b) (drop 240 b) = Some os ∧
    opt_get 53 os = Some [mt] ∧ opt_get 54 os = Some (octets (gateway c)) ∧
    if mt =? DHCP_NAK then length os = 2%nat
    else
      opt_get 51 os = Some (be32 (lease_secs c)) ∧
      opt_get 1 os = Some (octets (net_netmask (subnet c))) ∧
      opt_get 3 os = Some (octets (router c)) ∧
      opt_get 6 os = octets <$> dns_server c ∧
      opt_get 15 os = domain c ∧
      opt_get 26 os = (if mtu c =? 1500 then None else Some (be16 (mtu c))) ∧
      match routes c with
      | [] => opt_get 121 os = None
      | _ => ∃ enc rs, opt_get 121 os = Some enc ∧ decode_routes (S (length enc)) enc = Some rs ∧
          (rs = route_view <$> routes c ∨ rs = (route_view <$> routes c) ++ [(0, 0, router c)]) ∧
          Exists (λ r, r.1.1 = 0) rs
      end.
Proof.
  intros Hc Hch Hm b. exists (reply_opts c mt). split; [by apply bootp_reply_says|].
  do 2 (split; [done|]). unfold reply_opts. destruct (mt =? DHCP_NAK); [done|].
  unfold lease_opts, opt_if. do 3 (split; [done|]).
  split; [by destruct (dns_server c), (domain c), (mtu c =? 1500), (routes c)|].
  split; [by destruct (dns_server c), (domain c), (mtu c =? 1500), (routes c)|].
  split; [by destruct (dns_server c), (domain c), (mtu c =? 1500), (routes c)|].
  pose proof (offered_routes_decode c Hc) as Hd.
  destruct (routes c) as [|r rs] eqn:Hr.
  - by destruct (dns_server c), (domain c), (mtu c =? 1500).
  - destruct Hd as (l & Hd & Hl & Hx). exists (encode_classless_routes (offered_routes c)), l.
    split; [by destruct (dns_server c), (domain c), (mtu c =? 1500)|]. done.
Qed.

(** ** Witnesses *)

Definition mac_n (n : Z) : MacAddr := [2; 0; 0; 0; 0; n].
Definition sample_net : cidr := Cidr 0x0A000000 29.
Definition sample_config : DhcpConfig cidr :=
  mkDhcpConfig sample_net 0x0A000001 0x0A000001 (mac_n 0xFE) (Some 0x0A000001) (Some [108; 97; 98])
    [(Cidr 0x0A010000 16, 0x0A000001)] {[mac_n 2 := 0x0A000005]} 3600 1400.
Definition sample_bootp (mac : MacAddr) (opts : bytes) : bytes :=
  [BOOTREQUEST; 1; 6; 0] ++ be32 0x12345678 ++ [0; 0] ++ be16 0 ++ replicate 16 0 ++ mac
  ++ replicate 202 0 ++ MAGIC_COOKIE ++ opts ++ [OPT_END].
Definition sample_request (mac : MacAddr) (opts : bytes) : bytes :=
  default [] (udp_frame MAC_BROADCAST mac 0 0xFFFFFFFF 68 67 64 1 (sample_bootp mac opts)).
Definition sample_discover (mac : MacAddr) : bytes := sample_request mac (opt OPT_MSG_TYPE [DHCP_DISCOVER]).
Definition after_frame (s : DhcpServer cidr) (now : Z) (f : bytes) : DhcpServer cidr :=
  match handle s now f with Ret (s', _) => s' | Panic => s end.
(** Client 1 and the reserved client 2 have been offered an address. *)
Definition sample_one : DhcpServer cidr :=
  after_frame (DhcpServer_new sample_config) 0 (sample_discover (mac_n 1)).
Definition sample_two : DhcpServer cidr := after_frame sample_one 5 (sample_discover (mac_n 2)).

Lemma sample_config_ok : config_ok sample_config.
Proof.
  split; [concrete|concrete|split; [done|concrete]|intros d [= <-]; concrete
    |intros d [= <-]; split; concrete|concrete..].
Qed.
Lemma sample_reservations : injective_reservations sample_config.
Proof.
  intros m1 m2 ip H1 H2. cbn in H1, H2.
  apply lookup_singleton_Some in H1 as [<- _], H2 as [<- _]. done.
Qed.
Lemma after_frame_step s now f :
  (match handle s now f with Ret _ => true | Panic => false end) = true →
  dhcp_step s (after_frame s now f).
Proof.
  unfold after_frame. destruct (handle s now f) as [[s' r]|] eqn:E; [|done]. intros _.
  by eapply step_handle.
Qed.
Lemma sample_two_reachable : rtc dhcp_step (DhcpServer_new sample_config) sample_two.
Proof.
  eapply rtc_l; [|apply rtc_once]; apply after_frame_step; vm_compute; reflexivity.
Qed.

Lemma dhcp_addresses_unique_witness :
  l_addr <$> leases sample_two !! mac_n 1 = Some 0x0A000002 ∧
  l_addr <$> leases sample_two !! mac_n 2 = Some 0x0A000005 ∧
  ∀ m1 m2 l1 l2, leases sample_two !! m1 = Some l1 → leases sample_two !! m2 = Some l2 →
    l_addr l1 = l_addr l2 → m1 = m2.
Proof.
  split; [vm_compute; reflexivity|]. split; [vm_compute; reflexivity|].
  exact (proj1 (dhcp_addresses_unique sample_config sample_two sample_reservations sample_two_reachable)).
Defined.


Definition sample_q : BootpRequest :=
  {| xid := 7; q_flags := 0; ciaddr := 0; giaddr := 0; chaddr := mac_n 1; msg_type := 1;
     requested_ip := None; server_id := None |}.
Lemma dhcp_reply_options_witness :
  let b := bootp_reply sample_config sample_q DHCP_OFFER 0x0A000002 in
  ∃ os, tlvs (length b) (drop 240 b) = Some os ∧
    opt_get 26 os = Some (be16 1400) ∧ ∃ enc, opt_get 121 os = Some enc ∧
    decode_routes (S (length enc)) enc = Some [(16, 0x0A010000, 0x0A000001); (0, 0, 0x0A000001)].
Proof.
  pose proof (dhcp_reply_options sample_config sample_q DHCP_OFFER 0x0A000002 sample_config_ok
    ltac:(split; [done|concrete]) ltac:(concrete)) as (os & Hos & _).
  exists os. split; [exact Hos|]. vm_compute in Hos. injection Hos as <-.
  split; [vm_compute; reflexivity|]. eexists. split; vm_compute; reflexivity.
Defined.

(** ** Findings *)

(** The length octet of an option is the value's length modulo 256: with 32
    routes to /24 networks option 121 announces 5 bytes of its 261, and the
    options of the reply no longer parse. *)
Definition many_routes : DhcpConfig cidr :=
  mkDhcpConfig sample_net 0x0A000001 0x0A000001 (mac_n 0xFE) None None
    ((λ n, (Cidr (0x0A010000 + 256 * n) 24, 0x0A000001)) <$> seqZ 0 32) ∅ 3600 1500.
Lemma option_121_truncated :
  let b := bootp_reply many_routes sample_q DHCP_OFFER 0x0A000002 in
  len (encode_classless_routes (offered_routes many_routes)) = 261 ∧
  tlvs (length b) (drop 240 b) = None.
Proof. split; vm_compute; reflexivity. Qed.

(** [reconfigure] does not look at the lease table: a reservation for an
    address that is leased makes two clients hold it at once. *)
Definition reserve (mac : MacAddr) (ip : Ipv4Addr) (c : DhcpConfig cidr) : DhcpConfig cidr :=
  mkDhcpConfig (subnet c) (gateway c) (router c) (server_mac c) (dns_server c) (domain c) (routes c)
    (<[mac := ip]> (reservations c)) (lease_secs c) (mtu c).
Definition sample_clash : DhcpServer cidr :=
  after_frame (reconfigure sample_one (reserve (mac_n 3) 0x0A000002)) 5 (sample_discover (mac_n 3)).
Lemma reconfigure_duplicates_address :
  lease_of sample_clash 6 (mac_n 1) = Some 0x0A000002 ∧
  lease_of sample_clash 6 (mac_n 3) = Some 0x0A000002.
Proof. split; vm_compute; reflexivity. Qed.
