(* ===== verification/Dns.v ===== *)
(** * The DNS server ([src/net/dns.rs])

    The name database of a segment ([DnsZone]) and the protocol engine over
    it. A Rust [str] is its UTF-8 bytes. The loop of [parse_qname] runs on
    fuel; running out of it would be a [Panic], and the totality theorem
    says it does not happen. *)

From S2P Require Import Prelude Checksum Frame.

(** ** Constants *)

Definition DNS_PORT : Z := 53.
Definition QTYPE_A : Z := 1.
Definition QTYPE_AAAA : Z := 28.
Definition QTYPE_ANY : Z := 255.
Definition QCLASS_IN : Z := 1.
Definition RCODE_NOERROR : Z := 0.
Definition RCODE_NXDOMAIN : Z := 3.
Definition RCODE_NOTIMP : Z := 4.
Definition ANSWER_TTL : Z := 60.

(** ** Names *)

Definition DOT : Z := 46.
Definition STAR : Z := 42.

Definition to_ascii_lowercase (b : Z) : Z := if (65 <=? b) && (b <=? 90) then b + 32 else b.

(** [trim_end_matches('.')]. *)
Fixpoint trim_end_dots (s : bytes) : bytes :=
  match s with
  | [] => []
  | b :: s =>
      match trim_end_dots s with
      | [] => if b =? DOT then [] else [b]
      | t => b :: t
      end
  end.

Definition normalize (name : bytes) : bytes := to_ascii_lowercase <$> trim_end_dots name.

(** [strip_prefix("*.")] and [ends_with]. *)
Definition strip_wild (pattern : bytes) : option bytes :=
  match pattern with
  | a :: b :: rest => if (a =? STAR) && (b =? DOT) then Some rest else None
  | _ => None
  end.
Definition ends_with (s suffix : bytes) : bool :=
  (len suffix <=? len s) && bool_decide (drop (length s - length suffix) s = suffix).

Definition pattern_matches (pattern name : bytes) : bool :=
  match strip_wild pattern with
  | Some rest =>
      (len rest + 1 <? len name) && ends_with name rest && (idx name (len name - len rest - 1) =? DOT)
  | None => bool_decide (pattern = name)
  end.

(** [pattern.split('.').count()]. *)
Definition labels (pattern : bytes) : Z := 1 + len (filter (λ b, b = DOT) pattern).
Definition specificity (pattern : bytes) : Z * bool :=
  (labels pattern, negb (match strip_wild pattern with Some _ => true | None => false end)).
(** [>] on [(usize, bool)]. *)
Definition dns_spec_gtb (a b : Z * bool) : bool :=
  (b.1 <? a.1) || ((a.1 =? b.1) && a.2 && negb b.2).

(** ** The zone *)

Inductive DnsAnswer := A (ip : Ipv4Addr) | Nxdomain | Zero | Forward.
Inductive RecordKind := Dynamic | Static.
Inductive SinkholeMode := SinkNxdomain | SinkZero.
Record RecordEntry := mkRecord { r_ip : Ipv4Addr; r_kind : RecordKind }.
Record WildcardRecord := mkWild { w_id : Z; w_pattern : bytes; w_ip : Ipv4Addr }.
Record SinkholeEntry := mkSink { s_id : Z; s_pattern : bytes; s_mode : SinkholeMode }.

Record DnsRespondCtx := mkCtx {
  client_mac : MacAddr; server_mac : MacAddr; client_ip : Ipv4Addr; server_ip : Ipv4Addr; client_port : Z }.

Section dns.
(** [std::net::SocketAddr]: stored and handed on, never inspected. *)
Context {SocketAddr : Type}.

Record DnsZone := mkZone {
  suffix : bytes;
  upstream : option SocketAddr;
  records : gmap bytes RecordEntry;
  wildcards : list WildcardRecord;
  sinkholes : list SinkholeEntry;
  rule_names : gmap Z bytes;
  next_id : Z }.

Definition DnsZone_new (sfx : bytes) : DnsZone := mkZone (normalize sfx) None ∅ [] [] ∅ 0.

Definition set_records z r := mkZone (suffix z) (upstream z) r (wildcards z) (sinkholes z) (rule_names z) (next_id z).

Definition alloc_id (z : DnsZone) : DnsZone * Z :=
  (mkZone (suffix z) (upstream z) (records z) (wildcards z) (sinkholes z) (rule_names z) (next_id z + 1),
   next_id z + 1).

Definition fqdn (z : DnsZone) (name : bytes) : bytes :=
  let n := normalize name in
  if bool_decide (n = suffix z) || ends_with n (DOT :: suffix z) then n else n ++ [DOT] ++ suffix z.

Definition register (z : DnsZone) (name : bytes) (ip : Ipv4Addr) : DnsZone :=
  set_records z (<[fqdn z name := mkRecord ip Dynamic]> (records z)).

Definition unregister (z : DnsZone) (name : bytes) : DnsZone * bool :=
  (set_records z (delete (fqdn z name) (records z)), bool_decide (is_Some (records z !! fqdn z name))).

Definition set_static (z : DnsZone) (pattern : bytes) (ip : Ipv4Addr) : DnsZone * Z :=
  let '(z, id) := alloc_id z in
  let p := normalize pattern in
  (match strip_wild p with
   | Some _ => mkZone (suffix z) (upstream z) (records z) (wildcards z ++ [mkWild id p ip]) (sinkholes z)
                 (rule_names z) (next_id z)
   | None => mkZone (suffix z) (upstream z) (<[p := mkRecord ip Static]> (records z)) (wildcards z)
               (sinkholes z) (<[id := p]> (rule_names z)) (next_id z)
   end, id).

Definition add_sinkhole (z : DnsZone) (pattern : bytes) (mode : SinkholeMode) : DnsZone * Z :=
  let '(z, id) := alloc_id z in
  (mkZone (suffix z) (upstream z) (records z) (wildcards z)
     (sinkholes z ++ [mkSink id (normalize pattern) mode]) (rule_names z) (next_id z), id).

Definition remove_rule (z : DnsZone) (id : Z) : DnsZone * bool :=
  match rule_names z !! id with
  | Some name =>
      (mkZone (suffix z) (upstream z) (delete name (records z)) (wildcards z) (sinkholes z)
         (delete id (rule_names z)) (next_id z),
       bool_decide (is_Some (records z !! name)))
  | None =>
      let w := filter (λ w, w_id w ≠ id) (wildcards z) in
      let s := filter (λ s, s_id s ≠ id) (sinkholes z) in
      (mkZone (suffix z) (upstream z) (records z) w s (rule_names z) (next_id z),
       negb (len (wildcards z) + len (sinkholes z) =? len w + len s))
  end.

Definition best_sinkhole (z : DnsZone) (name : bytes) : option SinkholeEntry :=
  fst <$> best_loop (λ s, pattern_matches (s_pattern s) name) (λ s, specificity (s_pattern s)) dns_spec_gtb (sinkholes z).
Definition best_wildcard (z : DnsZone) (name : bytes) : option WildcardRecord :=
  fst <$> best_loop (λ w, pattern_matches (w_pattern w) name) (λ w, specificity (w_pattern w)) dns_spec_gtb (wildcards z).

Definition zone_lookup (z : DnsZone) (qname : bytes) : DnsAnswer :=
  let name := normalize qname in
  match best_sinkhole z name with
  | Some s => match s_mode s with SinkNxdomain => Nxdomain | SinkZero => Zero end
  | None =>
      match records z !! name with
      | Some entry => A (r_ip entry)
      | None =>
          match best_wildcard z name with
          | Some w => A (w_ip w)
          | None => match upstream z with Some _ => Forward | None => Nxdomain end
          end
      end
  end.

(** ** Wire format *)

(** [name.push(char::from(b))]: a byte of 128 or more is the Latin-1
    character of that code, two bytes in UTF-8. *)
Definition push_char (b : Z) : bytes := if b <? 128 then [b] else [192 + b / 64; 128 + b mod 64].

Fixpoint qname_loop (fuel : nat) (msg : bytes) (off : Z) (name : bytes) : outcome (option (bytes * Z)) :=
  match fuel with
  | O => Panic
  | S fuel =>
      match get_idx msg off with
      | None => Ret None
      | Some l =>
          if l =? 0 then Ret (Some (name, off + 1))
          else if 63 <? l then Ret None
          else
            match get_range msg (off + 1) (off + 1 + l) with
            | None => Ret None
            | Some label =>
                let name := (match name with [] => [] | _ => name ++ [DOT] end)
                            ++ concat ((λ b, push_char (to_ascii_lowercase b)) <$> label) in
                if 255 <? len name then Ret None else qname_loop fuel msg (off + 1 + l) name
            end
      end
  end.
Definition parse_qname (msg : bytes) (off : Z) : outcome (option (bytes * Z)) :=
  qname_loop (S (length msg)) msg off [].

Definition build_response (query : bytes) (question_end rcode : Z) (answer : option Ipv4Addr) : bytes :=
  slice query 0 2
  ++ [Z.lor (Z.lor (Z.lor 0x80 (Z.land (idx query 2) 0x78)) 0x04) (Z.land (idx query 2) 0x01)]
  ++ [Z.lor 0x80 (Z.land rcode 0x0F)]
  ++ be16 1 ++ be16 (match answer with Some _ => 1 | None => 0 end) ++ be16 0 ++ be16 0
  ++ slice query 12 question_end
  ++ match answer with
     | Some ip => [0xC0; 0x0C] ++ be16 QTYPE_A ++ be16 QCLASS_IN ++ be32 ANSWER_TTL ++ be16 4 ++ octets ip
     | None => []
     end.

(** ** The server *)

Definition build_frame (c : DnsRespondCtx) (dns_payload : bytes) : option bytes :=
  udp ← udp_build (server_ip c) (client_ip c) DNS_PORT (client_port c) dns_payload;
  ip ← ipv4_build (server_ip c) (client_ip c) IPPROTO_UDP 64 udp 0;
  Some (eth_build (client_mac c) (server_mac c) ETHERTYPE_IPV4 ip).

Inductive DnsAction :=
| DnsReply (frame : bytes)
| ForwardUpstream (upstream : SocketAddr) (query_id : Z) (raw_query : bytes) (respond : DnsRespondCtx)
| Ignore.

Definition forward_action (u : SocketAddr) (msg : bytes) (respond : DnsRespondCtx) : DnsAction :=
  ForwardUpstream u (u16_at msg 0) msg respond.

(** The DNS message an Ethernet frame carries to port 53, and the addresses
    of its answer. *)
Definition dns_message (eth_frame : bytes) : option (bytes * DnsRespondCtx) :=
  eth ← EthView_parse eth_frame;
  if negb (ethertype eth =? ETHERTYPE_IPV4) then None
  else
    ip ← Ipv4View_parse (eth_payload eth);
    if negb (proto ip =? IPPROTO_UDP) then None
    else
      udp ← UdpView_parse (ip_payload ip);
      if negb (udp_dst_port udp =? DNS_PORT) then None
      else Some (udp_payload udp,
        mkCtx (src_mac eth) (dst_mac eth) (ip_src ip) (ip_dst ip) (udp_src_port udp)).

Record Question := mkQuestion { q_name : bytes; q_type : Z; q_class : Z; question_end : Z }.

Definition dns_question (msg : bytes) : outcome (option Question) :=
  if (len msg <? 12) || negb (Z.land (idx msg 2) 0x80 =? 0) then Ret None
  else if negb (u16_at msg 4 =? 1) then Ret None
  else
    r ← parse_qname msg 12;
    match r with
    | None => Ret None
    | Some (qname, off) =>
        match get_range msg off (off + 4) with
        | None => Ret None
        | Some rest => Ret (Some (mkQuestion qname (u16_at rest 0) (u16_at rest 2) (off + 4)))
        end
    end.

Definition reply (respond : DnsRespondCtx) (payload : bytes) : DnsAction :=
  match build_frame respond payload with Some frame => DnsReply frame | None => Ignore end.

(** The verdict on a parsed question. *)
Definition answer_question (z : DnsZone) (msg : bytes) (respond : DnsRespondCtx) (q : Question) : DnsAction :=
  let say rcode a := reply respond (build_response msg (question_end q) rcode a) in
  let nxdomain := say RCODE_NXDOMAIN None in
  let answer := zone_lookup z (q_name q) in
  let opcode := Z.land (Z.shiftr (idx msg 2) 3) 0x0F in
  let elsewhere := match upstream z with
                   | Some u => forward_action u msg respond
                   | None => say RCODE_NOTIMP None
                   end in
  if negb (opcode =? 0) || negb (q_class q =? QCLASS_IN) then elsewhere
  else
    let forward := match upstream z with Some u => forward_action u msg respond | None => nxdomain end in
    if (q_type q =? QTYPE_A) || (q_type q =? QTYPE_ANY) then
      match answer with
      | A a => say RCODE_NOERROR (Some a)
      | Zero => say RCODE_NOERROR (Some 0)
      | Nxdomain => nxdomain
      | Forward => forward
      end
    else if q_type q =? QTYPE_AAAA then
      match answer with
      | A _ | Zero => say RCODE_NOERROR None
      | Nxdomain => nxdomain
      | Forward => forward
      end
    else elsewhere.

Definition DnsServer_handle (z : DnsZone) (eth_frame : bytes) : outcome DnsAction :=
  match dns_message eth_frame with
  | None => Ret Ignore
  | Some (msg, respond) =>
      q ← dns_question msg;
      Ret (match q with None => Ignore | Some q => answer_question z msg respond q end)
  end.

End dns.
Arguments DnsZone SocketAddr : clear implicits.
Arguments DnsAction SocketAddr : clear implicits.

(** [forward_upstream]: [exchange] is the socket exchange with the upstream,
    whose datagram is cut to the 4096-byte buffer; the reply must carry the
    query's id. *)
Definition forward_upstream (exchange : bytes → option bytes) (raw_query : bytes) : option bytes :=
  buf ← exchange raw_query;
  let buf := take 4096 buf in
  if (len buf <? 2) || (len raw_query <? 2) || negb (bool_decide (slice buf 0 2 = slice raw_query 0 2))
  then None else Some buf.

(** ** Patterns *)

(** What a pattern covers: itself, or every name with at least one label
    before the part after [*.]. *)
Definition covers (pattern name : bytes) : Prop :=
  match strip_wild pattern with
  | Some rest => ∃ extra, extra ≠ [] ∧ name = extra ++ DOT :: rest
  | None => pattern = name
  end.
Definition more_specific (p q : bytes) : Prop :=
  labels q < labels p ∨ (labels q = labels p ∧ strip_wild p = None ∧ strip_wild q ≠ None).

Lemma drop_idx (l : bytes) (k : nat) : (k < length l)%nat → drop k l = idx l (Z.of_nat k) :: drop (S k) l.
Proof.
  intros Hk. destruct (lookup_lt_is_Some_2 l k Hk) as [x Hx]. rewrite (drop_S l x k Hx). f_equal.
  unfold idx. rewrite Nat2Z.id, nth_lookup, Hx. done.
Qed.

Lemma pattern_matches_spec p name : pattern_matches p name = true ↔ covers p name.
Proof.
  unfold pattern_matches, covers, ends_with. destruct (strip_wild p) as [rest|].
  2: apply bool_decide_eq_true.
  rewrite !andb_true_iff, Z.ltb_lt, Z.leb_le, bool_decide_eq_true, Z.eqb_eq. unfold len. split.
  - intros ((Hl & _ & He) & Hd). set (k := (length name - length rest - 1)%nat).
    exists (take k name). split.
    + intros Hn. apply (f_equal length) in Hn. rewrite length_take in Hn. cbn in Hn. lia.
    + rewrite <-(take_drop k name) at 1. f_equal. rewrite drop_idx by lia.
      replace (Z.of_nat k) with (Z.of_nat (length name) - Z.of_nat (length rest) - 1) by lia.
      rewrite Hd. f_equal. replace (S k) with (length name - length rest)%nat by lia. exact He.
  - intros (extra & Hx & ->). rewrite length_app. cbn [length].
    assert (length extra ≠ 0%nat) by (by destruct extra).
    replace (length extra + S (length rest) - length rest)%nat with (S (length extra)) by lia.
    replace (Z.of_nat (length extra + S (length rest)) - Z.of_nat (length rest) - 1) with (len extra)
      by (unfold len; lia).
    split_and!; [lia|lia| |].
    + change (extra ++ DOT :: rest) with (extra ++ [DOT] ++ rest). rewrite app_assoc.
      replace (S (length extra)) with (length (extra ++ [DOT])) by (rewrite length_app; cbn; lia).
      apply drop_app_length.
    + rewrite idx_app_r by lia. by rewrite Z.sub_diag.
Qed.

Lemma dns_spec_gtb_spec p q :
  dns_spec_gtb (specificity p) (specificity q) = true ↔ more_specific p q.
Proof.
  unfold dns_spec_gtb, specificity, more_specific. cbn [fst snd].
  rewrite orb_true_iff, !andb_true_iff, !negb_true_iff, Z.ltb_lt, Z.eqb_eq.
  destruct (strip_wild p), (strip_wild q); naive_solver lia.
Qed.
Lemma dns_spec_gtb_trans a b c :
  dns_spec_gtb a b = true → dns_spec_gtb b c = true → dns_spec_gtb a c = true.
Proof.
  unfold dns_spec_gtb. destruct a as [a []], b as [b []], c as [c []]; cbn [fst snd];
    rewrite !orb_true_iff, !andb_true_iff, !Z.ltb_lt, !Z.eqb_eq; cbn; intuition (try done; try lia).
Qed.
Lemma dns_spec_gtb_neg_trans a b c :
  dns_spec_gtb a b = false → dns_spec_gtb b c = false → dns_spec_gtb a c = false.
Proof.
  unfold dns_spec_gtb. destruct a as [a []], b as [b []], c as [c []]; cbn [fst snd];
    rewrite !orb_false_iff, !andb_false_iff, !Z.ltb_ge, !Z.eqb_neq; cbn; intuition (try done; try lia).
Qed.

(** [x] is the entry of [l] that decides [name]: it covers the name, is more
    specific than every covering entry before it, and no covering entry
    after it is more specific. *)
Definition decides {X} (pat : X → bytes) (l : list X) (name : bytes) (x : X) : Prop :=
  ∃ l1 l2, l = l1 ++ x :: l2 ∧ covers (pat x) name ∧
    (∀ y, y ∈ l1 → covers (pat y) name → more_specific (pat x) (pat y)) ∧
    (∀ y, y ∈ l2 → covers (pat y) name → ¬ more_specific (pat y) (pat x)).

Lemma best_decides {X} (pat : X → bytes) (l : list X) name :
  match fst <$> best_loop (λ x, pattern_matches (pat x) name) (λ x, specificity (pat x)) dns_spec_gtb l with
  | Some x => decides pat l name x
  | None => ∀ y, y ∈ l → ¬ covers (pat y) name
  end.
Proof.
  destruct (best_loop _ _ _ l) as [[x k]|] eqn:E; cbn.
  - apply best_loop_Some in E as (_ & l1 & l2 & -> & Hm & H1 & H2);
      [|apply dns_spec_gtb_trans|apply dns_spec_gtb_neg_trans].
    exists l1, l2. split; [done|]. split; [by apply pattern_matches_spec|]. split.
    + intros y Hy Hc. apply dns_spec_gtb_spec, H1; [done|]. by apply pattern_matches_spec.
    + intros y Hy Hc Hs. apply dns_spec_gtb_spec in Hs. rewrite H2 in Hs; [done|done|].
      by apply pattern_matches_spec.
  - rewrite best_loop_None in E by (apply dns_spec_gtb_trans || apply dns_spec_gtb_neg_trans).
    intros y Hy Hc. apply pattern_matches_spec in Hc. by rewrite E in Hc.
Qed.

(** ** Question names *)

Lemma get_idx_Some l i x : get_idx l i = Some x → 0 ≤ i < len l ∧ x = idx l i.
Proof. unfold get_idx. destruct (_ && _) eqn:E; [|done]. bsplit. by intros [= <-]. Qed.
Lemma get_range_Some {X} (l : list X) a b x :
  get_range l a b = Some x → 0 ≤ a ≤ b ∧ b ≤ len l ∧ x = slice l a b.
Proof. unfold get_range. destruct (_ && _ && _) eqn:E; [|done]. bsplit. intros [= <-]. split; [lia|done]. Qed.

Lemma qname_loop_returns fuel msg off name :
  0 ≤ off → len msg - off < Z.of_nat fuel → (0 < fuel)%nat → returns (qname_loop fuel msg off name).
Proof.
  revert off name. induction fuel as [|fuel IH]; intros off name Ho Hf Hp; [lia|]. cbn [qname_loop].
  destruct (get_idx msg off) as [l|]; [|by eexists].
  destruct (l =? 0) eqn:E0; [by eexists|]. destruct (63 <? l); [by eexists|].
  destruct (get_range _ _ _) as [label|] eqn:Er; [|by eexists].
  apply get_range_Some in Er as (Hr & Hl & _). bsplit.
  destruct (255 <? _); [by eexists|]. apply IH; lia.
Qed.
Lemma parse_qname_returns msg off : 0 ≤ off → returns (parse_qname msg off).
Proof. intros. unfold parse_qname. apply qname_loop_returns; unfold len; lia. Qed.

Lemma len_push l : len l ≤ len (concat ((λ b, push_char (to_ascii_lowercase b)) <$> l)).
Proof.
  induction l as [|b l IH]; [done|]. cbn [fmap list_fmap concat]. rewrite len_cons, len_app.
  assert (1 ≤ len (push_char (to_ascii_lowercase b))) by (unfold push_char; by destruct (_ <? _)). lia.
Qed.

(** A parsed name takes hardly more room than its text, which is capped. *)
Lemma qname_loop_bound fuel msg off name name' off' :
  0 ≤ off → len name ≤ 255 → qname_loop fuel msg off name = Ret (Some (name', off')) →
  off < off' ≤ len msg ∧ len name' ≤ 255 ∧
  off' - off ≤ len name' - len name + (match name with [] => 2 | _ => 1 end).
Proof.
  revert off name. induction fuel as [|fuel IH]; intros off name Ho Hn; cbn [qname_loop]; [done|].
  destruct (get_idx msg off) as [l|] eqn:Ei; [|done]. apply get_idx_Some in Ei as [Hi _].
  destruct (l =? 0) eqn:E0; bsplit.
  { intros [= <- <-]. destruct name; lia. }
  destruct (63 <? l); [done|].
  destruct (get_range _ _ _) as [label|] eqn:Er; [|done].
  apply get_range_Some in Er as (Hr & Hl & ->).
  pose proof (len_push (slice msg (off + 1) (off + 1 + l))) as Hp. rewrite len_slice in Hp by lia.
  set (txt := concat _) in *. destruct (255 <? _) eqn:E255; [done|]. bsplit. intros Hq.
  apply IH in Hq as (H1 & H2 & H3); [|lia|lia].
  assert (Hne : (match name with [] => [] | _ => name ++ [DOT] end) ++ txt ≠ []).
  { intros Hx. apply (f_equal len) in Hx. rewrite len_app, len_nil in Hx.
    pose proof (len_nonneg (match name with [] => [] | _ => name ++ [DOT] end)). lia. }
  rewrite len_app in H3. destruct (_ ++ txt) as [|]; [done|].
  split; [lia|]. split; [done|]. destruct name as [|a name]; [rewrite len_nil in *; lia|].
  rewrite len_app in H3. change (len [DOT]) with 1 in H3. lia.
Qed.

(** The wire form of a name and the text it is read as. *)
Definition encode_labels (ls : list bytes) : bytes := concat ((λ l, len l :: l) <$> ls) ++ [0].
Definition label_text (l : bytes) : bytes := concat ((λ b, push_char (to_ascii_lowercase b)) <$> l).
Definition dotted (ls : list bytes) : bytes :=
  match ls with [] => [] | l :: ls => label_text l ++ concat ((λ l, DOT :: label_text l) <$> ls) end.
(** A label as the wire carries it. *)
Definition label_ok (l : bytes) : Prop := 1 ≤ len l ≤ 63.

Lemma label_text_ne l : label_ok l → label_text l ≠ [].
Proof.
  intros Hl Hx. pose proof (len_push l) as Hp. unfold label_text in Hx. rewrite Hx, len_nil in Hp.
  unfold label_ok in Hl. lia.
Qed.

Lemma qname_loop_reads ls fuel pre post name :
  Forall label_ok ls → (length ls < fuel)%nat →
  let text := name ++ (match name with [] => dotted ls | _ => concat ((λ l, DOT :: label_text l) <$> ls) end) in
  len text ≤ 255 →
  qname_loop fuel (pre ++ encode_labels ls ++ post) (len pre) name =
  Ret (Some (text, len pre + len (encode_labels ls))).
Proof.
  intros Hls. revert fuel pre name. induction Hls as [|l ls Hl Hls IH]; intros fuel pre name Hf text Ht;
    (destruct fuel as [|fuel]; [cbn in Hf; lia|]); cbn [qname_loop].
  - change (encode_labels []) with [0]. unfold get_idx.
    pose proof (len_nonneg pre). pose proof (len_nonneg post).
    rewrite (proj2 (Z.leb_le _ _)), (proj2 (Z.ltb_lt _ _)) by (autorewrite with len; lia).
    rewrite idx_app_r by lia. rewrite Z.sub_diag. cbn [andb]. change (idx ([0] ++ post) 0) with 0.
    change (len [0]) with 1. cbn. unfold text. by destruct name; cbn; rewrite ?app_nil_r.
  - pose proof (len_nonneg pre). assert (Henc : encode_labels (l :: ls) = (len l :: l) ++ encode_labels ls)
      by (unfold encode_labels; cbn; by rewrite <-app_assoc). rewrite Henc.
    assert (Hmsg : pre ++ ((len l :: l) ++ encode_labels ls) ++ post
      = (pre ++ len l :: l) ++ encode_labels ls ++ post) by (by rewrite <-!app_assoc).
    assert (Hidx : get_idx (pre ++ ((len l :: l) ++ encode_labels ls) ++ post) (len pre) = Some (len l)).
    { unfold get_idx. pose proof (len_nonneg l). pose proof (len_nonneg (encode_labels ls)). pose proof (len_nonneg post).
      rewrite (proj2 (Z.leb_le _ _)), (proj2 (Z.ltb_lt _ _)) by (autorewrite with len; lia).
      rewrite idx_app_r by lia. by rewrite Z.sub_diag. }
    assert (Hrng : get_range (pre ++ ((len l :: l) ++ encode_labels ls) ++ post) (len pre + 1) (len pre + 1 + len l) = Some l).
    { unfold get_range. pose proof (len_nonneg l). pose proof (len_nonneg (encode_labels ls)). pose proof (len_nonneg post).
      rewrite !(proj2 (Z.leb_le _ _)) by (autorewrite with len; lia). cbn [andb]. f_equal.
      replace (pre ++ ((len l :: l) ++ encode_labels ls) ++ post)
        with ((pre ++ [len l]) ++ l ++ encode_labels ls ++ post) by (by rewrite <-!app_assoc).
      rewrite slice_app_r by (autorewrite with len; lia).
      rewrite slice_app_l by (autorewrite with len; lia).
      replace (len pre + 1 - len (pre ++ [len l])) with 0 by (autorewrite with len; lia).
      apply slice_full. autorewrite with len. lia. }
    rewrite Hidx, Hrng. unfold label_ok in Hl. rewrite (proj2 (Z.eqb_neq _ _)), (proj2 (Z.ltb_ge _ _)) by lia.
    rewrite Hmsg. replace (len pre + 1 + len l) with (len (pre ++ len l :: l)) by (autorewrite with len; lia).
    fold (label_text l). set (name' := (match name with [] => [] | _ => name ++ [DOT] end) ++ label_text l).
    assert (Hne : name' ≠ []).
    { intros Hx. apply app_eq_nil in Hx as [_ Hx]. by apply (label_text_ne l). }
    assert (Htext : text = name' ++ concat ((λ l, DOT :: label_text l) <$> ls)).
    { unfold text, name'. destruct name; [done|]. cbn. rewrite <-!app_assoc. done. }
    rewrite (proj2 (Z.ltb_ge _ _)).
    2: { rewrite Htext, len_app in Ht. pose proof (len_nonneg (concat ((λ l, DOT :: label_text l) <$> ls))). lia. }
    rewrite (IH fuel (pre ++ len l :: l) name').
    + do 3 f_equal; [|autorewrite with len; lia]. rewrite Htext. destruct name'; done.
    + cbn in Hf. lia.
    + rewrite Htext in Ht. destruct name'; done.
Qed.

(** ** Responses *)

(** What a client reads in the response [b] to the question [q] of [msg]:
    its id and opcode and question back, a response bit, the result code and
    the one address record, if any. *)
Record response_says (msg : bytes) (q : Question) (rcode : Z) (answer : option Ipv4Addr) (b : bytes) : Prop := {
  rs_id : u16_at b 0 = u16_at msg 0;
  rs_response : Z.testbit (idx b 2) 7 = true ∧ Z.testbit (idx b 2) 2 = true ∧ Z.testbit (idx b 2) 1 = false;
  rs_opcode : Z.land (Z.shiftr (idx b 2) 3) 15 = Z.land (Z.shiftr (idx msg 2) 3) 15;
  rs_rd : Z.testbit (idx b 2) 0 = Z.testbit (idx msg 2) 0;
  rs_rcode : Z.land (idx b 3) 15 = rcode;
  rs_counts : u16_at b 4 = 1 ∧ u16_at b 8 = 0 ∧ u16_at b 10 = 0;
  rs_question : slice b 12 (question_end q) = slice msg 12 (question_end q);
  rs_answer : match answer with
    | None => u16_at b 6 = 0 ∧ len b = question_end q
    | Some ip => u16_at b 6 = 1 ∧ len b = question_end q + 16 ∧
        u16_at b (question_end q) = 0xC00C ∧ u16_at b (question_end q + 2) = QTYPE_A ∧
        u16_at b (question_end q + 4) = QCLASS_IN ∧ u32_at b (question_end q + 6) = ANSWER_TTL ∧
        u16_at b (question_end q + 10) = 4 ∧ ipv4_at b (question_end q + 12) = ip
    end;
}.

Definition header_flags (x : Z) : Z := Z.lor (Z.lor (Z.lor 0x80 (Z.land x 0x78)) 0x04) (Z.land x 0x01).

(** Facts about the flag octet, by trying every octet. *)
Lemma header_flags_ok x : is_u8 x →
  is_u8 (header_flags x) ∧
  (Z.testbit (header_flags x) 7 = true ∧ Z.testbit (header_flags x) 2 = true ∧
   Z.testbit (header_flags x) 1 = false) ∧
  Z.land (Z.shiftr (header_flags x) 3) 15 = Z.land (Z.shiftr x 3) 15 ∧
  Z.testbit (header_flags x) 0 = Z.testbit x 0.
Proof.
  intros Hx.
  assert (Hall : Forall (λ x, is_u8 (header_flags x) ∧
    (Z.testbit (header_flags x) 7 = true ∧ Z.testbit (header_flags x) 2 = true ∧
     Z.testbit (header_flags x) 1 = false) ∧
    Z.land (Z.shiftr (header_flags x) 3) 15 = Z.land (Z.shiftr x 3) 15 ∧
    Z.testbit (header_flags x) 0 = Z.testbit x 0) (seqZ 0 256)) by concrete.
  rewrite Forall_forall in Hall. apply Hall, elem_of_seqZ. unfold is_u8 in Hx. lia.
Qed.

Lemma u16_at_app l1 l2 i : len l1 ≤ i → u16_at (l1 ++ l2) i = u16_at l2 (i - len l1).
Proof. intros. unfold u16_at. rewrite !idx_app_r by lia. do 2 f_equal. lia. Qed.
Lemma u32_at_app l1 l2 i : len l1 ≤ i → u32_at (l1 ++ l2) i = u32_at l2 (i - len l1).
Proof. intros. unfold u32_at. rewrite !idx_app_r by lia. f_equal; f_equal; lia. Qed.
Lemma ipv4_at_app l1 l2 i : len l1 ≤ i → ipv4_at (l1 ++ l2) i = ipv4_at l2 (i - len l1).
Proof. intros. unfold ipv4_at. rewrite !idx_app_r by lia. f_equal; f_equal; lia. Qed.

Lemma build_response_says msg q rcode answer :
  bytes_ok msg → 12 ≤ question_end q ≤ len msg → 0 ≤ rcode < 16 →
  response_says msg q rcode answer (build_response msg (question_end q) rcode answer).
Proof.
  intros Hm Hq Hr. unfold build_response. fold (header_flags (idx msg 2)).
  set (qe := question_end q) in *. pose proof (header_flags_ok (idx msg 2) (idx_u8 _ _ Hm)) as (_ & H1 & H2 & H3).
  assert (Hid : slice msg 0 2 = [idx msg 0; idx msg 1]).
  { destruct msg as [|a [|b msg]]; [rewrite len_nil in Hq; lia|rewrite len_cons, len_nil in Hq; lia|done]. }
  assert (Hrc : Z.land (Z.lor 0x80 (Z.land rcode 0x0F)) 15 = rcode).
  { assert (Hall : Forall (λ r, Z.land (Z.lor 0x80 (Z.land r 0x0F)) 15 = r) (seqZ 0 16)) by concrete.
    rewrite Forall_forall in Hall. apply Hall, elem_of_seqZ. lia. }
  set (qs := slice msg 12 qe). assert (Hqs : len qs = qe - 12) by (apply len_slice; lia).
  set (cnt := be16 (match answer with Some _ => 1 | None => 0 end)).
  set (hd := [idx msg 0; idx msg 1; header_flags (idx msg 2); Z.lor 0x80 (Z.land rcode 0x0F); 0; 1] ++ cnt ++ [0; 0; 0; 0]).
  set (an := match answer with Some ip => _ | None => [] end).
  assert (Hb : slice msg 0 2 ++ [header_flags (idx msg 2)] ++ [Z.lor 128 (Z.land rcode 15)] ++ be16 1 ++
    cnt ++ be16 0 ++ be16 0 ++ qs ++ an = (hd ++ qs) ++ an) by (rewrite Hid; unfold hd, cnt; by destruct answer).
  rewrite Hb. assert (Hhd : len hd = 12) by (unfold hd, cnt; by destruct answer).
  assert (Hhq : len (hd ++ qs) = qe) by (rewrite len_app; lia).
  split; try (unfold hd, cnt; by destruct answer).
  - fold qe qs. rewrite <-app_assoc, slice_app_r by lia. rewrite Hhd, slice_app_l by lia.
    replace (12 - 12) with 0 by lia. apply slice_full. lia.
  - fold qe. unfold an. destruct answer as [ip|]; [|split; [done|by rewrite app_nil_r]].
    split; [done|]. split; [rewrite len_app, Hhq; done|].
    rewrite !(u16_at_app (hd ++ qs)), (u32_at_app (hd ++ qs)), (ipv4_at_app (hd ++ qs)) by lia. rewrite Hhq, Z.sub_diag.
    replace (qe + 2 - qe) with 2 by lia. replace (qe + 4 - qe) with 4 by lia.
    replace (qe + 6 - qe) with 6 by lia. replace (qe + 10 - qe) with 10 by lia.
    replace (qe + 12 - qe) with 12 by lia. do 5 (split; [done|]). exact (of_be32_be32 ip).
Qed.

Lemma build_response_ok msg q rcode answer :
  bytes_ok msg → 12 ≤ question_end q ≤ len msg → 0 ≤ rcode < 16 →
  (∀ ip, answer = Some ip → is_u32 ip) → bytes_ok (build_response msg (question_end q) rcode answer).
Proof.
  intros Hm Hq Hr Ha. unfold build_response. fold (header_flags (idx msg 2)).
  pose proof (header_flags_ok (idx msg 2) (idx_u8 _ _ Hm)) as (H1 & _).
  assert (Hrc : is_u8 (Z.lor 128 (Z.land rcode 15))).
  { assert (Hall : Forall (λ r, is_u8 (Z.lor 128 (Z.land r 15))) (seqZ 0 16)) by concrete.
    rewrite Forall_forall in Hall. apply Hall, elem_of_seqZ. lia. }
  assert (Han : bytes_ok (match answer with Some ip => [0xC0; 0x0C] ++ be16 QTYPE_A ++ be16 QCLASS_IN ++
    be32 ANSWER_TTL ++ be16 4 ++ octets ip | None => [] end)).
  { destruct answer as [ip|]; [|constructor].
    repeat first [apply bytes_ok_app; [concrete|]|by apply bytes_ok_octets, Ha]. }
  apply bytes_ok_app; [by apply bytes_ok_slice|]. do 2 (apply bytes_ok_app; [by apply bytes_ok_cons; [|constructor]|]).
  apply bytes_ok_app; [concrete|]. apply bytes_ok_app; [destruct answer; concrete|].
  do 2 (apply bytes_ok_app; [concrete|]). apply bytes_ok_app; [by apply bytes_ok_slice|exact Han].
Qed.

(** ** Verdicts *)

Section facts.
Context {SocketAddr : Type}.
Implicit Types (z : DnsZone SocketAddr).

Definition standard (msg : bytes) (q : Question) : Prop :=
  Z.land (Z.shiftr (idx msg 2) 3) 15 = 0 ∧ q_class q = QCLASS_IN.
Definition address_type (q : Question) : Prop := q_type q ∈ [QTYPE_A; QTYPE_ANY].
Definition served (msg : bytes) (q : Question) : Prop :=
  standard msg q ∧ (address_type q ∨ q_type q = QTYPE_AAAA).

(** The frame that answers [q] to the client with [rcode] and [answer]. *)
Definition frame_says (msg : bytes) (c : DnsRespondCtx) (q : Question) (rcode : Z)
    (answer : option Ipv4Addr) (frame : bytes) : Prop :=
  ∃ b, udp_frame_carries frame (client_mac c) (server_mac c) (server_ip c) (client_ip c) 53 (client_port c) b ∧
    response_says msg q rcode answer b.

(** What the server may do with a question. *)
Inductive dns_verdict z (msg : bytes) (c : DnsRespondCtx) (q : Question) : DnsAction SocketAddr → Prop :=
| v_address a frame :
    standard msg q → address_type q →
    zone_lookup z (q_name q) = A a ∨ (zone_lookup z (q_name q) = Zero ∧ a = 0) →
    frame_says msg c q RCODE_NOERROR (Some a) frame → dns_verdict z msg c q (DnsReply frame)
| v_no_ipv6 frame :
    standard msg q → q_type q = QTYPE_AAAA →
    (∃ a, zone_lookup z (q_name q) = A a) ∨ zone_lookup z (q_name q) = Zero →
    frame_says msg c q RCODE_NOERROR None frame → dns_verdict z msg c q (DnsReply frame)
| v_nxdomain frame :
    served msg q → zone_lookup z (q_name q) = Nxdomain →
    frame_says msg c q RCODE_NXDOMAIN None frame → dns_verdict z msg c q (DnsReply frame)
| v_not_implemented frame :
    ¬ served msg q → upstream z = None →
    frame_says msg c q RCODE_NOTIMP None frame → dns_verdict z msg c q (DnsReply frame)
| v_forward u :
    upstream z = Some u → ¬ served msg q ∨ zone_lookup z (q_name q) = Forward →
    dns_verdict z msg c q (ForwardUpstream u (u16_at msg 0) msg c).

Definition zone_ok z : Prop :=
  map_Forall (λ _ r, is_u32 (r_ip r)) (records z) ∧ Forall (λ w, is_u32 (w_ip w)) (wildcards z).

Lemma zone_lookup_A z name a : zone_ok z → zone_lookup z name = A a → is_u32 a.
Proof.
  intros [Hr Hw]. unfold zone_lookup. destruct (best_sinkhole z _) as [s|]; [by destruct (s_mode s)|].
  destruct (records z !! _) as [e|] eqn:He; [intros [= <-]; by eapply Hr|].
  pose proof (best_decides w_pattern (wildcards z) (normalize name)) as Hb.
  unfold best_wildcard. destruct (fst <$> _) as [w|].
  - intros [= <-]. destruct Hb as (l1 & l2 & Hl & _). rewrite Hl in Hw.
    apply Forall_app in Hw as [_ Hw]. by apply Forall_cons in Hw as [? _].
  - by destruct (upstream z).
Qed.
Lemma zone_lookup_Forward z name : zone_lookup z name = Forward → is_Some (upstream z).
Proof.
  unfold zone_lookup. destruct (best_sinkhole z _) as [s|]; [by destruct (s_mode s)|].
  destruct (records z !! _); [done|]. destruct (best_wildcard z _); [done|].
  destruct (upstream z); [by eexists|done].
Qed.

Lemma mac_at_ok buf off : bytes_ok buf → 0 ≤ off → off + 6 ≤ len buf → mac_ok (mac_at buf off).
Proof.
  intros Hb Ho Hl. unfold mac_at. split; [|auto with vmlab].
  assert (Hs : len (slice buf off (off + 6)) = 6) by (rewrite len_slice; lia).
  unfold len in Hs. lia.
Qed.

Record ctx_ok (c : DnsRespondCtx) : Prop := {
  co_client : mac_ok (client_mac c); co_server : mac_ok (server_mac c);
  co_cip : is_u32 (client_ip c); co_sip : is_u32 (server_ip c); co_port : is_u16 (client_port c) }.

Lemma dns_message_ok f msg c :
  bytes_ok f → dns_message f = Some (msg, c) → bytes_ok msg ∧ ctx_ok c.
Proof.
  intros Hf. unfold dns_message.
  destruct (EthView_parse f) as [eth|] eqn:E1; cbn; [|done]. destruct (negb _); cbn; [done|].
  destruct (Ipv4View_parse _) as [ip|] eqn:E2; cbn; [|done]. destruct (negb _); cbn; [done|].
  destruct (UdpView_parse _) as [udp|] eqn:E3; cbn; [|done]. destruct (negb _); cbn; [done|].
  apply EthView_parse_Some in E1 as [-> Hl]. apply Ipv4View_parse_Some in E2 as (-> & _).
  apply UdpView_parse_Some in E3 as (-> & _). intros [= <- <-].
  assert (Hip : bytes_ok (eth_payload {| eth_buf := f |})) by (unfold eth_payload; cbn; auto with vmlab).
  assert (Hudp : bytes_ok (ip_payload {| ip_buf := eth_payload {| eth_buf := f |} |}))
    by (unfold ip_payload; cbn; auto with vmlab).
  split; [unfold udp_payload; cbn; auto with vmlab|].
  split; cbn [client_mac server_mac client_ip server_ip client_port];
    unfold src_mac, dst_mac, ip_src, ip_dst, udp_src_port; cbn [eth_buf ip_buf udp_buf];
    auto using mac_at_ok, ipv4_at_u32, u16_at_u16 with lia; apply mac_at_ok; done || lia.
Qed.

Lemma dns_question_returns msg : returns (dns_question msg).
Proof.
  unfold dns_question. destruct (_ || _); [by eexists|]. destruct (negb _); [by eexists|].
  destruct (parse_qname_returns msg 12 ltac:(lia)) as [[[name off]|] ->]; cbn; [|by eexists].
  destruct (get_range _ _ _); by eexists.
Qed.
Lemma dns_question_bound msg q :
  dns_question msg = Ret (Some q) → 12 ≤ question_end q ≤ len msg ∧ question_end q ≤ 273.
Proof.
  unfold dns_question. destruct (_ || _) eqn:El; [done|]. destruct (negb (u16_at msg 4 =? 1)); [done|]. bsplit.
  destruct (parse_qname msg 12) as [[[name off]|]|] eqn:Ep; cbn; [|done|done].
  destruct (get_range _ _ _) as [rest|] eqn:Er; [|done].
  apply get_range_Some in Er as (Hr & Hl & _). intros [= <-]. cbn.
  apply qname_loop_bound in Ep as (H1 & H2 & H3); [|lia|done]. rewrite len_nil in H3. lia.
Qed.

Lemma reply_says_frame msg c q rcode answer :
  bytes_ok msg → ctx_ok c → 12 ≤ question_end q ≤ len msg → question_end q ≤ 273 → 0 ≤ rcode < 16 →
  (∀ ip, answer = Some ip → is_u32 ip) →
  ∃ frame, reply (SocketAddr := SocketAddr) c (build_response msg (question_end q) rcode answer) = DnsReply frame ∧
    frame_says msg c q rcode answer frame.
Proof.
  intros Hm [Hc1 Hc2 Hc3 Hc4 Hc5] Hq Hq' Hr Ha. set (b := build_response msg (question_end q) rcode answer).
  pose proof (build_response_says msg q rcode answer Hm Hq Hr) as Hs.
  assert (Hl : len b ≤ 65507) by (destruct Hs as [_ _ _ _ _ _ _ Hs]; fold b in Hs; destruct answer; lia).
  destruct (udp_frame_ok (client_mac c) (server_mac c) (server_ip c) (client_ip c) DNS_PORT (client_port c) 64 0 b)
    as (frame & Hf & Hcar); try done; [by apply build_response_ok|].
  exists frame. split; [|by exists b]. unfold reply.
  change (build_frame c b) with (udp_frame (client_mac c) (server_mac c) (server_ip c) (client_ip c) DNS_PORT (client_port c) 64 0 b).
  by rewrite Hf.
Qed.

Lemma answer_question_verdict z msg c q :
  zone_ok z → bytes_ok msg → ctx_ok c → 12 ≤ question_end q ≤ len msg → question_end q ≤ 273 →
  dns_verdict z msg c q (answer_question z msg c q).
Proof.
  intros Hz Hm Hc Hq Hq'. unfold answer_question.
  assert (Hsay : ∀ rcode answer, 0 ≤ rcode < 16 → (∀ ip, answer = Some ip → is_u32 ip) →
    ∃ frame, reply (SocketAddr := SocketAddr) c (build_response msg (question_end q) rcode answer) = DnsReply frame ∧
      frame_says msg c q rcode answer frame) by (intros; by apply reply_says_frame).
  assert (Hother : ¬ served msg q → dns_verdict z msg c q (match upstream z with
    | Some u => forward_action u msg c | None => reply c (build_response msg (question_end q) RCODE_NOTIMP None) end)).
  { intros Hn. destruct (upstream z) as [u|] eqn:Hu; [apply v_forward; [done|by left]|].
    destruct (Hsay RCODE_NOTIMP None) as (frame & -> & Hs); [done|done|]. by apply v_not_implemented. }
  destruct (negb _ || negb _) eqn:Estd.
  { apply Hother. intros [[H1 H2] _]. rewrite H1, H2 in Estd. done. }
  apply orb_false_iff in Estd as [E1 E2]. bsplit. assert (Hstd : standard msg q) by done.
  assert (Hnx : address_type q ∨ q_type q = QTYPE_AAAA → zone_lookup z (q_name q) = Nxdomain →
    dns_verdict z msg c q (reply c (build_response msg (question_end q) RCODE_NXDOMAIN None))).
  { intros Ht Hl. destruct (Hsay RCODE_NXDOMAIN None) as (frame & -> & Hs); [done|done|]. by apply v_nxdomain. }
  assert (Hfw : zone_lookup z (q_name q) = Forward → dns_verdict z msg c q (match upstream z with
    | Some u => forward_action u msg c | None => reply c (build_response msg (question_end q) RCODE_NXDOMAIN None) end)).
  { intros Hl. destruct (zone_lookup_Forward z (q_name q) Hl) as [u Hu]. rewrite Hu. apply v_forward; [done|by right]. }
  destruct (_ || _) eqn:Ea.
  { assert (Ht : address_type q) by (apply orb_true_iff in Ea as [Ea|Ea]; bsplit; unfold address_type; set_solver).
    destruct (zone_lookup z (q_name q)) as [a| | |] eqn:Hl; [| |..].
    - destruct (Hsay RCODE_NOERROR (Some a)) as (frame & -> & Hs); [done|intros ip [= <-]; by eapply zone_lookup_A|].
      apply (v_address z msg c q a); [done|done|by left|done].
    - apply Hnx; [by left|done].
    - destruct (Hsay RCODE_NOERROR (Some 0)) as (frame & -> & Hs); [done|intros ip [= <-]; ints; lia|].
      apply (v_address z msg c q 0); [done|done|by right|done].
    - by apply Hfw. }
  destruct (_ =? QTYPE_AAAA) eqn:E6; bsplit.
  { destruct (zone_lookup z (q_name q)) as [a| | |] eqn:Hl.
    - destruct (Hsay RCODE_NOERROR None) as (frame & -> & Hs); [done|done|].
      apply v_no_ipv6; [done|done|by left; exists a|done].
    - apply Hnx; [by right|done].
    - destruct (Hsay RCODE_NOERROR None) as (frame & -> & Hs); [done|done|].
      apply v_no_ipv6; [done|done|by right|done].
    - by apply Hfw. }
  apply Hother. intros [_ [Ht|Ht]]; [|done]. unfold address_type in Ht. set_solver.
Qed.

(** ** The life of a zone *)

Inductive zone_step : DnsZone SocketAddr → DnsZone SocketAddr → Prop :=
| zs_register z name ip : is_u32 ip → zone_step z (register z name ip)
| zs_unregister z name : zone_step z (unregister z name).1
| zs_static z p ip : is_u32 ip → zone_step z (set_static z p ip).1
| zs_sinkhole z p m : zone_step z (add_sinkhole z p m).1
| zs_remove z id : zone_step z (remove_rule z id).1
| zs_upstream z u : zone_step z
    (mkZone (suffix z) u (records z) (wildcards z) (sinkholes z) (rule_names z) (next_id z)).

Record zone_inv z : Prop := {
  zi_ok : zone_ok z;
  zi_wild : Forall (λ w, w_id w ≤ next_id z) (wildcards z);
  zi_sink : Forall (λ s, s_id s ≤ next_id z) (sinkholes z);
  zi_names : map_Forall (λ id _, id ≤ next_id z) (rule_names z);
}.

Lemma Forall_filter_sub {X} (P Q : X → Prop) `{∀ x, Decision (Q x)} l : Forall P l → Forall P (filter Q l).
Proof. rewrite !Forall_forall. intros Hl x [_ Hx]%list_elem_of_filter. by apply Hl. Qed.
Lemma Forall_mono_id {X} (f : X → Z) (n : Z) l :
  Forall (λ x, f x ≤ n) l → Forall (λ x, f x ≤ n + 1) l.
Proof. intros. eapply Forall_impl; [done|]. cbn. lia. Qed.
Lemma names_mono (m : gmap Z bytes) n :
  map_Forall (λ id _, id ≤ n) m → map_Forall (λ id _, id ≤ n + 1) m.
Proof. intros Hm i x Hi. specialize (Hm i x Hi). cbn in Hm. lia. Qed.

Lemma zone_inv_step z z' : zone_inv z → zone_step z z' → zone_inv z'.
Proof.
  intros [[Hr Hw] Hwi Hsi Hni] Hs. inversion Hs; subst.
  - split; [|done..]. split; [|done]. by apply map_Forall_insert_2.
  - split; [|done..]. split; [|done]. by apply map_Forall_delete.
  - unfold set_static, alloc_id. destruct (strip_wild _); cbn; split; cbn.
    + split; [done|]. by apply Forall_app, (conj Hw), Forall_singleton.
    + apply Forall_app. split; [by apply Forall_mono_id|]. apply Forall_singleton. cbn. lia.
    + by apply Forall_mono_id.
    + by apply names_mono.
    + split; [|done]. by apply map_Forall_insert_2.
    + by apply Forall_mono_id.
    + by apply Forall_mono_id.
    + apply map_Forall_insert_2; [lia|by apply names_mono].
  - unfold add_sinkhole, alloc_id. cbn. split; cbn; [done| | |].
    + by apply Forall_mono_id.
    + apply Forall_app. split; [by apply Forall_mono_id|]. apply Forall_singleton. cbn. lia.
    + by apply names_mono.
  - unfold remove_rule. destruct (rule_names z !! id) as [n|]; cbn; split; cbn; try done.
    + split; [|done]. by apply map_Forall_delete.
    + by apply map_Forall_delete.
    + split; [done|]. by apply Forall_filter_sub.
    + by apply Forall_filter_sub.
    + by apply Forall_filter_sub.
  - by split.
Qed.

(** Two zones with the same contents (rule ids are never reused, so the
    counter differs). *)
Definition same_zone z1 z2 : Prop :=
  suffix z1 = suffix z2 ∧ upstream z1 = upstream z2 ∧ records z1 = records z2 ∧
  wildcards z1 = wildcards z2 ∧ sinkholes z1 = sinkholes z2 ∧ rule_names z1 = rule_names z2.

Lemma same_zone_lookup z1 z2 name : same_zone z1 z2 → zone_lookup z1 name = zone_lookup z2 name.
Proof.
  intros (_ & Hu & Hr & Hw & Hs & _). unfold zone_lookup, best_sinkhole, best_wildcard.
  by rewrite Hu, Hr, Hw, Hs.
Qed.

Lemma filter_new_id {X} (f : X → Z) n l x :
  Forall (λ y, f y ≤ n) l → f x = n + 1 → filter (λ y, f y ≠ n + 1) (l ++ [x]) = l.
Proof.
  intros Hl Hx. rewrite filter_app, filter_cons, decide_False by naive_solver.
  rewrite filter_nil, app_nil_r. apply filter_keep. intros y Hy. rewrite Forall_forall in Hl.
  specialize (Hl y Hy). cbn in Hl. lia.
Qed.
Lemma filter_old_id {X} (f : X → Z) n l :
  Forall (λ y, f y ≤ n) l → filter (λ y, f y ≠ n + 1) l = l.
Proof.
  intros Hl. apply filter_keep. intros y Hy. rewrite Forall_forall in Hl.
  specialize (Hl y Hy). cbn in Hl. lia.
Qed.
Lemma new_id_unnamed z : zone_inv z → rule_names z !! (next_id z + 1) = None.
Proof.
  intros Hi. destruct (rule_names z !! _) as [n|] eqn:E; [|done]. apply (zi_names z Hi) in E. cbn in E. lia.
Qed.

Lemma remove_sinkhole z p m :
  zone_inv z → let r := add_sinkhole z p m in
  (remove_rule r.1 r.2).2 = true ∧ same_zone (remove_rule r.1 r.2).1 z.
Proof.
  intros Hi r. unfold r, remove_rule, add_sinkhole, alloc_id. cbn.
  rewrite new_id_unnamed by done. cbn. rewrite filter_old_id, filter_new_id by (apply Hi || done).
  split; [|done]. rewrite len_app. change (len [_]) with 1.
  apply negb_true_iff, Z.eqb_neq. lia.
Qed.
Lemma remove_wildcard z p ip :
  zone_inv z → strip_wild (normalize p) ≠ None → let r := set_static z p ip in
  (remove_rule r.1 r.2).2 = true ∧ same_zone (remove_rule r.1 r.2).1 z.
Proof.
  intros Hi Hp r. unfold r, remove_rule, set_static, alloc_id. cbn.
  destruct (strip_wild (normalize p)); [|done]. cbn.
  rewrite new_id_unnamed by done. cbn. rewrite filter_new_id, filter_old_id by (apply Hi || done).
  split; [|done]. rewrite len_app. change (len [_]) with 1.
  apply negb_true_iff, Z.eqb_neq. lia.
Qed.
Lemma remove_static z p ip :
  zone_inv z → strip_wild (normalize p) = None → records z !! normalize p = None →
  let r := set_static z p ip in
  (remove_rule r.1 r.2).2 = true ∧ same_zone (remove_rule r.1 r.2).1 z.
Proof.
  intros Hi Hp Hn r. unfold r, remove_rule, set_static, alloc_id. cbn. rewrite Hp. cbn.
  rewrite lookup_insert_eq. cbn. rewrite lookup_insert_eq. split; [done|].
  unfold same_zone. cbn. rewrite !delete_insert_id by (done || by apply new_id_unnamed). done.
Qed.

Lemma zone_new_inv sfx : zone_inv (DnsZone_new sfx).
Proof. split; [split|..]; cbn; (apply map_Forall_empty || constructor). Qed.
End facts.

(** ** Theorems *)

(** The precedence of [lookup]. The name is lowercased and its trailing
    dots dropped. If a sinkhole covers it, the most specific one, the
    earliest among equals, decides: NXDOMAIN or 0.0.0.0. Otherwise an exact
    record answers; otherwise the most specific wildcard; otherwise the query
    is forwarded exactly when there is an upstream. A pattern covers its own
    name or, after a leading [*.], every name with at least one more label. *)
Theorem dns_lookup_precedence {S} (z : DnsZone S) (qname : bytes) :
  let name := normalize qname in
  (∃ s, decides s_pattern (sinkholes z) name s ∧
     zone_lookup z qname = match s_mode s with SinkNxdomain => Nxdomain | SinkZero => Zero end) ∨
  ((∀ s, s ∈ sinkholes z → ¬ covers (s_pattern s) name) ∧
   ((∃ r, records z !! name = Some r ∧ zone_lookup z qname = A (r_ip r)) ∨
    (records z !! name = None ∧
     ((∃ w, decides w_pattern (wildcards z) name w ∧ zone_lookup z qname = A (w_ip w)) ∨
      ((∀ w, w ∈ wildcards z → ¬ covers (w_pattern w) name) ∧
       zone_lookup z qname = match upstream z with Some _ => Forward | None => Nxdomain end))))).
Proof.
  intros name. unfold zone_lookup. fold name.
  pose proof (best_decides s_pattern (sinkholes z) name) as Hs.
  pose proof (best_decides w_pattern (wildcards z) name) as Hw.
  unfold best_sinkhole. destruct (fst <$> _) as [s|]; [left; by exists s|]. right. split; [done|].
  destruct (records z !! name) as [r|]; [left; by exists r|]. right. split; [done|].
  unfold best_wildcard. destruct (fst <$> _) as [w|]; [left; by exists w|]. by right.
Qed.


(** Reading a question name. Labels of 1 to 63 bytes, encoded on the wire
    anywhere in a message, read back as the lowercase dotted name and the
    offset just after the terminating zero, provided the text is at most 255
    bytes. *)
Theorem parse_qname_reads (ls : list bytes) (pre post : bytes) :
  Forall label_ok ls → len (dotted ls) ≤ 255 →
  parse_qname (pre ++ encode_labels ls ++ post) (len pre) =
  Ret (Some (dotted ls, len pre + len (encode_labels ls))).
Proof.
  intros Hls Ht. unfold parse_qname. apply (qname_loop_reads ls _ pre post []); [done| |done].
  rewrite !length_app. assert (length ls ≤ length (encode_labels ls))%nat; [|lia].
  unfold encode_labels. clear. rewrite length_app. induction ls as [|l ls IH]; [cbn; lia|].
  cbn [fmap list_fmap concat]. rewrite length_app. cbn [length] in *. lia.
Qed.

(** Runtime rules can be taken back. In every zone reachable by
    registrations, static entries, sinkholes and removals, adding a sinkhole
    or a wildcard and removing it by the id it returned leaves the zone as it
    was and reports a removal, and so does a static exact entry for a name
    that had no record. *)
Theorem dns_rule_removal {S} (z : DnsZone S) (sfx p : bytes) (m : SinkholeMode) (ip : Z) :
  rtc zone_step (DnsZone_new sfx) z →
  (let r := add_sinkhole z p m in
   (remove_rule r.1 r.2).2 = true ∧ same_zone (remove_rule r.1 r.2).1 z) ∧
  (strip_wild (normalize p) ≠ None ∨ records z !! normalize p = None →
   let r := set_static z p ip in
   (remove_rule r.1 r.2).2 = true ∧ same_zone (remove_rule r.1 r.2).1 z).
Proof.
  intros Hr. assert (Hi : zone_inv z)
    by (refine (rtc_preserves zone_step zone_inv _ _ zone_inv_step Hr _); apply zone_new_inv).
  split; [by apply remove_sinkhole|]. intros Hp.
  destruct (strip_wild (normalize p)) eqn:E.
  - apply remove_wildcard; congruence.
  - destruct Hp as [|Hn]; [done|]. by apply remove_static.
Qed.

(** ** Witnesses *)

Definition str (s : string) : bytes := (λ a, Z.of_nat (Ascii.nat_of_ascii a)) <$> String.list_ascii_of_string s.
Definition sample_zone : DnsZone () :=
  let z := register (DnsZone_new (str "vmlab.internal")) (str "Web") 0x0A000002 in
  let z := (set_static z (str "*.apps.test") 0x0A000003).1 in
  (add_sinkhole z (str "*.ads.test") SinkZero).1.
Definition sample_query (ls : list bytes) : bytes :=
  default [] (udp_frame [2; 0; 0; 0; 0; 1] [2; 0; 0; 0; 0; 2] 0x0A000005 0x0A000001 4000 53 64 0
    ([0x12; 0x34; 1; 0] ++ be16 1 ++ be16 0 ++ be16 0 ++ be16 0 ++ encode_labels ls ++ be16 1 ++ be16 1)).
Definition web_query : bytes := sample_query [str "WEB"; str "vmlab"; str "internal"].

Lemma sample_zone_reachable : rtc zone_step (DnsZone_new (str "vmlab.internal")) sample_zone.
Proof.
  eapply rtc_l; [apply (zs_register _ (str "Web") 0x0A000002); concrete|].
  eapply rtc_l; [apply (zs_static _ (str "*.apps.test") 0x0A000003); concrete|].
  apply rtc_once. exact (zs_sinkhole _ (str "*.ads.test") SinkZero).
Qed.


Lemma parse_qname_reads_witness :
  parse_qname ([7; 7] ++ encode_labels [str "Web"; str "lab"] ++ [9]) 2 = Ret (Some (str "web.lab", 11)).
Proof.
  change 2 with (len [7; 7]). rewrite (parse_qname_reads [str "Web"; str "lab"] [7; 7] [9]).
  - reflexivity.
  - repeat constructor; concrete.
  - concrete.
Defined.

Lemma dns_rule_removal_witness :
  let r := add_sinkhole sample_zone (str "web.vmlab.internal") SinkNxdomain in
  zone_lookup r.1 (str "web.vmlab.internal") = Nxdomain ∧
  (remove_rule r.1 r.2).2 = true ∧ same_zone (remove_rule r.1 r.2).1 sample_zone.
Proof.
  split; [vm_compute; reflexivity|].
  exact (proj1 (dns_rule_removal sample_zone (str "vmlab.internal") (str "web.vmlab.internal") SinkNxdomain 0
    sample_zone_reachable)).
Defined.

(** ** Finding *)

(** A static exact entry and a registration of the same name share one record:
    removing the static rule by its id after the guest registered deletes the
    guest's record. *)
Definition static_then_registered : DnsZone () * Z :=
  let r := set_static (DnsZone_new (str "lab")) (str "web.lab") 1 in
  (register r.1 (str "web") 2, r.2).
Lemma remove_rule_deletes_registration :
  zone_lookup static_then_registered.1 (str "web.lab") = A 2 ∧
  zone_lookup (remove_rule static_then_registered.1 static_then_registered.2).1 (str "web.lab") = Nxdomain.
Proof. split; vm_compute; reflexivity. Qed.
