(* ===== verification/Gateway.v ===== *)
(** * The segment gateway ([src/net/gateway.rs])

    The gateway's neighbour table with the packets that wait for ARP, the
    [L3Port] through which packets are routed onto the segment, and the
    gateway task that dispatches every frame of its switch port to ARP, DHCP,
    DNS, ICMP echo and the uplink. What the task does to the outside is a
    list of [Action]s: a frame handed to the port's queue, a frame handed to
    the uplink handler, a query for the upstream resolver. *)

From S2P Require Import Prelude Checksum Frame Ipnet.
From S2P Require Import Dhcp Dns.

(** ** Constants (durations in nanoseconds) *)

Definition ARP_PENDING : Z := 3 * 1000000000.
Definition ARP_RETRY : Z := 1 * 1000000000.
Definition ARP_PENDING_PACKETS : Z := 16.
Definition ARP_PENDING_HOSTS : Z := 256.

(** ** The gateway's MAC address *)

Definition fnv64 (h : Z) (l : bytes) : Z :=
  foldl (λ h b, wrap64 (Z.lxor h b * 0x00000100000001b3)) h l.
(** [h.to_be_bytes()] on [u64]. *)
Definition be64 (n : Z) : bytes := be32 (n / 4294967296) ++ be32 (n mod 4294967296).

Definition gateway_mac (lab segment : bytes) : MacAddr :=
  let h := fnv64 0xcbf29ce484222325 (lab ++ [47] ++ segment) in
  let x := be64 h in
  [0x52; 0x56; Z.lxor (idx x 0) (idx x 4); Z.lxor (idx x 1) (idx x 5);
   Z.lxor (idx x 2) (idx x 6); Z.lxor (idx x 3) (idx x 7)].

(** ** Neighbours *)

Record Pending := mkPending { since : Z; asked : Z; packets : list bytes }.
Record Neighbours := mkNeighbours {
  table : gmap Ipv4Addr MacAddr;
  pending : gmap Ipv4Addr Pending }.
Definition Neighbours_default : Neighbours := mkNeighbours ∅ ∅.

(** [now.duration_since(t)], which saturates at zero. *)
Definition duration_since (now t : Z) : Z := Z.max 0 (now - t).

Definition learn (n : Neighbours) (ip : Ipv4Addr) (mac : MacAddr) : Neighbours * list bytes :=
  (mkNeighbours (<[ip := mac]> (table n)) (delete ip (pending n)),
   match pending n !! ip with Some p => packets p | None => [] end).

Definition hold (n : Neighbours) (ip : Ipv4Addr) (packet : bytes) (now : Z) : Neighbours * bool :=
  let pend := filter (λ kv, duration_since now (since kv.2) < ARP_PENDING) (pending n) in
  if bool_decide (pend !! ip = None) && (ARP_PENDING_HOSTS <=? Z.of_nat (size pend))
  then (mkNeighbours (table n) pend, false)
  else
    let p := default (mkPending now now []) (pend !! ip) in
    let p := if len (packets p) <? ARP_PENDING_PACKETS
             then mkPending (since p) (asked p) (packets p ++ [packet]) else p in
    if len (packets p) =? 1 then (mkNeighbours (table n) (<[ip := p]> pend), true)
    else if ARP_RETRY <=? duration_since now (asked p)
    then (mkNeighbours (table n) (<[ip := mkPending (since p) now (packets p)]> pend), true)
    else (mkNeighbours (table n) (<[ip := p]> pend), false).

(** ** The L3 port *)

(** [send_ip]: the neighbour table after it and the frames it sends. *)
Definition send_ip (gw_ip : Ipv4Addr) (gw_mac : MacAddr) (n : Neighbours) (next_hop : Ipv4Addr)
    (packet : bytes) (now : Z) : Neighbours * list bytes :=
  match table n !! next_hop with
  | Some mac => (n, [eth_build mac gw_mac ETHERTYPE_IPV4 packet])
  | None =>
      let '(n, ask) := hold n next_hop packet now in
      (n, if ask then [arp_request_build gw_mac gw_ip next_hop] else [])
  end.

Definition send_to (gw_mac mac : MacAddr) (packet : bytes) : bytes :=
  eth_build mac gw_mac ETHERTYPE_IPV4 packet.

(** ** The gateway task *)

Section gateway.
Context {Net SocketAddr : Type} `{Ipv4NetOps Net}.

Record GatewayConfig := mkGatewayConfig {
  cfg_ip : Ipv4Addr;
  cfg_mac : MacAddr;
  cfg_dhcp : option (Dhcp.DhcpConfig Net);
  cfg_dns : option (Dns.DnsZone SocketAddr);
  upstream_dns : option SocketAddr }.

Record GatewayTask := mkTask {
  gw_ip : Ipv4Addr;
  gw_mac : MacAddr;
  dhcp : option (Dhcp.DhcpServer Net);
  dns : option (Dns.DnsZone SocketAddr);
  uplink : bool;
  neighbours : Neighbours }.

Inductive Action :=
| Send (frame : bytes)
| Uplink (frame : bytes)
| Upstream (u : SocketAddr) (raw_query : bytes) (respond : Dns.DnsRespondCtx).

Definition set_dhcp t d := mkTask (gw_ip t) (gw_mac t) d (dns t) (uplink t) (neighbours t).
Definition set_neighbours t n := mkTask (gw_ip t) (gw_mac t) (dhcp t) (dns t) (uplink t) n.
Definition set_uplink t := mkTask (gw_ip t) (gw_mac t) (dhcp t) (dns t) true (neighbours t).

(** [Gateway::spawn]: the services take the gateway's identity. *)
Definition spawn (c : GatewayConfig) : GatewayTask :=
  let d := (λ d, Dhcp.DhcpServer_new
              (Dhcp.mkDhcpConfig (Dhcp.subnet d) (cfg_ip c) (Dhcp.router d) (cfg_mac c) (Dhcp.dns_server d)
                 (Dhcp.domain d) (Dhcp.routes d) (Dhcp.reservations d) (Dhcp.lease_secs d) (Dhcp.mtu d)))
           <$> cfg_dhcp c in
  let z := (λ z, match Dns.upstream z with
                 | None => Dns.mkZone (Dns.suffix z) (upstream_dns c) (Dns.records z) (Dns.wildcards z)
                             (Dns.sinkholes z) (Dns.rule_names z) (Dns.next_id z)
                 | Some _ => z
                 end) <$> cfg_dns c in
  mkTask (cfg_ip c) (cfg_mac c) d z false Neighbours_default.

Definition handle_arp (t : GatewayTask) (payload : bytes) : GatewayTask * list Action :=
  match ArpView_parse payload with
  | None => (t, [])
  | Some arp =>
      let '(t, released) :=
        if negb (spa arp =? 0) then
          let '(n, released) := learn (neighbours t) (spa arp) (sha arp) in (set_neighbours t n, released)
        else (t, []) in
      let out := (λ p, Send (eth_build (sha arp) (gw_mac t) ETHERTYPE_IPV4 p)) <$> released in
      let answer := if bool_decide (arp_op arp = Request) && (tpa arp =? gw_ip t)
                    then [Send (arp_reply_build (gw_mac t) (gw_ip t) (sha arp) (spa arp))] else [] in
      (t, out ++ answer)
  end.

(** What the DNS engine decided; the forwarding task answers later. *)
Definition handle_dns (act : Dns.DnsAction SocketAddr) : list Action :=
  match act with
  | Dns.DnsReply f => [Send f]
  | Dns.ForwardUpstream u _ raw_query respond => [Upstream u raw_query respond]
  | Dns.Ignore => []
  end.
(** The spawned forwarding task: [exchange] is the exchange with the upstream. *)
Definition upstream_answer (exchange : bytes → option bytes) (raw_query : bytes)
    (respond : Dns.DnsRespondCtx) : list Action :=
  match Dns.forward_upstream exchange raw_query with
  | Some resp => match Dns.build_frame respond resp with Some f => [Send f] | None => [] end
  | None => []
  end.

(** ICMP echo to the gateway, then the uplink. *)
Definition handle_routed (t : GatewayTask) (eth : EthView) (frame : bytes) (ip : Ipv4View) : list Action :=
  if (ip_dst ip =? gw_ip t) && (proto ip =? IPPROTO_ICMP) then
    match icmp_echo_reply_for (eth_payload eth) with
    | Some reply => [Send (eth_build (src_mac eth) (gw_mac t) ETHERTYPE_IPV4 reply)]
    | None => []
    end
  else if bool_decide (dst_mac eth = gw_mac t) then (if uplink t then [Uplink frame] else [])
  else [].

Definition handle_ipv4 (t : GatewayTask) (now : Z) (eth : EthView) (frame : bytes)
    : outcome (GatewayTask * list Action) :=
  match Ipv4View_parse (eth_payload eth) with
  | None => Ret (t, [])
  | Some ip =>
      let udp := if proto ip =? IPPROTO_UDP then UdpView_parse (ip_payload ip) else None in
      match udp with
      | Some udp =>
          if udp_dst_port udp =? Dhcp.DHCP_SERVER_PORT then
            match dhcp t with
            | None => Ret (t, [])
            | Some d =>
                r ← Dhcp.handle d now frame;
                Ret (set_dhcp t (Some r.1), match r.2 with Some reply => [Send reply] | None => [] end)
            end
          else if (udp_dst_port udp =? Dns.DNS_PORT) && (ip_dst ip =? gw_ip t) then
            match dns t with
            | None => Ret (t, [])
            | Some z => act ← Dns.DnsServer_handle z frame; Ret (t, handle_dns act)
            end
          else Ret (t, handle_routed t eth frame ip)
      | None => Ret (t, handle_routed t eth frame ip)
      end
  end.

Definition handle_frame (t : GatewayTask) (now : Z) (frame : bytes) : outcome (GatewayTask * list Action) :=
  match EthView_parse frame with
  | None => Ret (t, [])
  | Some eth =>
      if ethertype eth =? ETHERTYPE_ARP then Ret (handle_arp t (eth_payload eth))
      else if ethertype eth =? ETHERTYPE_IPV4 then handle_ipv4 t now eth frame
      else Ret (t, [])
  end.

End gateway.
Arguments GatewayTask Net SocketAddr : clear implicits.
Arguments GatewayConfig Net SocketAddr : clear implicits.
Arguments Action SocketAddr : clear implicits.

(** ** What waits for ARP *)

Record neigh_inv (n : Neighbours) : Prop := {
  ni_hosts : Z.of_nat (size (pending n)) ≤ ARP_PENDING_HOSTS;
  ni_packets : map_Forall (λ _ p, 1 ≤ len (packets p) ≤ ARP_PENDING_PACKETS) (pending n);
  ni_unknown : ∀ ip, is_Some (pending n !! ip) → table n !! ip = None;
}.

(** The pending table of [hold] after it dropped what waited too long. *)
Definition recent (n : Neighbours) (now : Z) : gmap Ipv4Addr Pending :=
  filter (λ kv, duration_since now (since kv.2) < ARP_PENDING) (pending n).

(** Every way [hold] ends: the table is full, or the host's entry is
    replaced by one that kept its age and its packets, the new one added
    unless there are already sixteen. *)
Lemma hold_cases n ip packet now :
  table (hold n ip packet now).1 = table n ∧
  ((recent n now !! ip = None ∧ ARP_PENDING_HOSTS ≤ Z.of_nat (size (recent n now)) ∧
    pending (hold n ip packet now).1 = recent n now ∧ (hold n ip packet now).2 = false) ∨
   ((is_Some (recent n now !! ip) ∨ Z.of_nat (size (recent n now)) < ARP_PENDING_HOSTS) ∧
    let p := default (mkPending now now []) (recent n now !! ip) in
    ∃ a, pending (hold n ip packet now).1 =
      <[ip := mkPending (since p) a (if len (packets p) <? ARP_PENDING_PACKETS
                                     then packets p ++ [packet] else packets p)]> (recent n now))).
Proof.
  unfold hold. fold (recent n now). destruct (bool_decide _ && _) eqn:E.
  - bsplit. apply bool_decide_eq_true in H. cbn. split; [done|]. by left.
  - split; [by repeat case_goal|]. right. split.
    + apply andb_false_iff in E as [E|E].
      * left. apply bool_decide_eq_false in E. by apply not_eq_None_Some.
      * right. by apply Z.leb_gt in E.
    + set (p := default _ _). cbn zeta.
      assert (Heta : p = mkPending (since p) (asked p) (packets p)) by (by destruct p).
      destruct (len (packets p) <? ARP_PENDING_PACKETS); destruct (_ =? 1);
        cbn [fst pending since asked packets]; try (destruct (ARP_RETRY <=? _)); cbn [fst pending];
        first [exists now; reflexivity|exists (asked p); rewrite <-Heta; reflexivity|exists (asked p); reflexivity].
Qed.

Lemma recent_sub n now : recent n now ⊆ pending n.
Proof. apply map_filter_subseteq. Qed.
Lemma recent_inv n now : neigh_inv n → neigh_inv (mkNeighbours (table n) (recent n now)).
Proof.
  intros [H1 H2 H3]. pose proof (recent_sub n now) as Hs. split; cbn.
  - pose proof (map_subseteq_size _ _ Hs). lia.
  - intros ip p Hp. by apply (H2 ip p), (lookup_weaken _ _ _ _ Hp).
  - intros ip [p Hp]. apply H3. exists p. by eapply lookup_weaken.
Qed.

Lemma neigh_inv_insert t m ip p :
  neigh_inv (mkNeighbours t m) → (is_Some (m !! ip) ∨ Z.of_nat (size m) < ARP_PENDING_HOSTS) →
  t !! ip = None → 1 ≤ len (packets p) ≤ ARP_PENDING_PACKETS → neigh_inv (mkNeighbours t (<[ip := p]> m)).
Proof.
  intros [H1 H2 H3] Hr Ht Hp. cbn in *. split; cbn.
  - destruct (m !! ip) eqn:E.
    + rewrite map_size_insert_Some by (by rewrite E). done.
    + destruct Hr as [[? ?]|Hr]; [done|]. rewrite map_size_insert_None by done. lia.
  - by apply map_Forall_insert_2.
  - intros i Hi. destruct (decide (i = ip)) as [->|Hne]; [done|].
    rewrite lookup_insert_ne in Hi by done. by apply H3.
Qed.

Lemma hold_inv n ip packet now :
  neigh_inv n → table n !! ip = None → neigh_inv (hold n ip packet now).1.
Proof.
  intros Hi Ht. pose proof (recent_inv n now Hi) as Hr.
  destruct (hold_cases n ip packet now) as (HT & [(_ & _ & HP & _)|(Hroom & a & HP)]);
    destruct (hold n ip packet now) as [[t m] ask]; cbn in HT, HP; subst; cbn; [exact Hr|].
  apply neigh_inv_insert; [done|done|done|]. cbn [packets].
  assert (Hl : 0 ≤ len (packets (default (mkPending now now []) (recent n now !! ip))) ≤ ARP_PENDING_PACKETS).
  { destruct (recent n now !! ip) as [p|] eqn:E; cbn; [|done].
    pose proof (ni_packets _ Hr ip p E) as Hp. cbn in Hp. lia. }
  destruct (_ <? _) eqn:E; bsplit; unfold ARP_PENDING_PACKETS in *; [rewrite len_app; change (len [_]) with 1; lia|lia].
Qed.

Lemma learn_inv n ip mac : neigh_inv n → neigh_inv (learn n ip mac).1.
Proof.
  intros [H1 H2 H3]. split; cbn.
  - assert (Hs : delete ip (pending n) ⊆ pending n) by apply delete_subseteq.
    pose proof (map_subseteq_size _ _ Hs). lia.
  - by apply map_Forall_delete.
  - intros i [p Hp]. apply lookup_delete_Some in Hp as [Hne Hp].
    rewrite lookup_insert_ne by done. apply H3. eauto.
Qed.

Lemma send_ip_inv gi gm n nh packet now : neigh_inv n → neigh_inv (send_ip gi gm n nh packet now).1.
Proof.
  intros Hi. unfold send_ip. destruct (table n !! nh) eqn:E; [done|].
  pose proof (hold_inv n nh packet now Hi E). by destruct (hold n nh packet now).
Qed.

(** ** Packets sent to a host before it answered *)

(** Sends: next hop, packet and time. *)
Fixpoint send_all (gi : Ipv4Addr) (gm : MacAddr) (n : Neighbours) (evs : list (Ipv4Addr * bytes * Z)) : Neighbours :=
  match evs with
  | [] => n
  | (nh, packet, now) :: evs => send_all gi gm (send_ip gi gm n nh packet now).1 evs
  end.
Definition packets_for (ip : Ipv4Addr) (evs : list (Ipv4Addr * bytes * Z)) : list bytes :=
  (λ e, e.1.2) <$> filter (λ e, e.1.1 = ip) evs.
Definition waiting (n : Neighbours) (ip : Ipv4Addr) : list bytes :=
  match pending n !! ip with Some p => packets p | None => [] end.

(** All of a table's entries are younger than the window at [t0 + ARP_PENDING]. *)
Definition young (n : Neighbours) (t0 : Z) : Prop := map_Forall (λ _ p, t0 ≤ since p) (pending n).

Lemma recent_young n t0 now : young n t0 → now < t0 + ARP_PENDING → recent n now = pending n.
Proof.
  intros Hy Hn. apply map_filter_id. intros i p Hp. cbn. specialize (Hy i p Hp). cbn in Hy.
  unfold duration_since, ARP_PENDING in *. lia.
Qed.

Lemma waiting_step gi gm n t0 nh packet now ip :
  neigh_inv n → young n t0 → table n = ∅ → t0 ≤ now < t0 + ARP_PENDING →
  Z.of_nat (size (pending n)) < ARP_PENDING_HOSTS →
  let n' := (send_ip gi gm n nh packet now).1 in
  young n' t0 ∧ table n' = ∅ ∧ (size (pending n') ≤ S (size (pending n)))%nat ∧
  waiting n' ip = take 16 (waiting n ip ++ (if decide (nh = ip) then [packet] else [])).
Proof.
  intros Hi Hy Ht Hn Hs. unfold send_ip. rewrite Ht, lookup_empty.
  pose proof (recent_young n t0 now Hy ltac:(lia)) as Hr.
  assert (Hcap : ∀ i, len (waiting n i) ≤ 16).
  { intros i. unfold waiting. destruct (pending n !! i) as [p|] eqn:E; [|rewrite len_nil; lia].
    pose proof (ni_packets n Hi i p E) as Hp. cbn in Hp. unfold ARP_PENDING_PACKETS in Hp. lia. }
  destruct (hold_cases n nh packet now) as (HT & [(_ & Hfull & _)|(_ & a & HP)]);
    [rewrite Hr in Hfull; lia|]. rewrite Hr in HP.
  destruct (hold n nh packet now) as [n' ask]. cbn [fst] in *. split_and!.
  - unfold young. rewrite HP. apply map_Forall_insert_2; [|done]. cbn.
    destruct (pending n !! nh) as [p|] eqn:E; cbn; [apply (Hy nh p E)|lia].
  - congruence.
  - rewrite HP. destruct (pending n !! nh) eqn:E.
    + rewrite map_size_insert_Some by (by rewrite E). lia.
    + by rewrite map_size_insert_None.
  - unfold waiting at 1. rewrite HP. destruct (decide (nh = ip)) as [->|Hne].
    + rewrite lookup_insert_eq. cbn [packets]. specialize (Hcap ip).
      assert (Hw : packets (default (mkPending now now []) (pending n !! ip)) = waiting n ip)
        by (unfold waiting; by destruct (pending n !! ip)).
      rewrite Hw. unfold len, ARP_PENDING_PACKETS in *. destruct (Z.of_nat (length (waiting n ip)) <? 16) eqn:E; bsplit.
      * rewrite take_ge; [done|]. rewrite length_app. cbn. lia.
      * rewrite take_app_le by lia. rewrite take_ge; [done|lia].
    + rewrite lookup_insert_ne by done. rewrite app_nil_r.
      fold (waiting n ip). rewrite take_ge; [done|]. specialize (Hcap ip). unfold len in Hcap. lia.
Qed.

Lemma take_take_app {A} (k : nat) (a b : list A) : take k (take k a ++ b) = take k (a ++ b).
Proof.
  destruct (decide (length a ≤ k)%nat); [by rewrite (take_ge a) by lia|].
  rewrite !take_app_le by (rewrite ?length_take; lia). by rewrite take_take, Nat.min_id.
Qed.

Lemma waiting_all gi gm evs n t0 ip :
  neigh_inv n → young n t0 → table n = ∅ →
  Forall (λ e, t0 ≤ e.2 < t0 + ARP_PENDING) evs →
  Z.of_nat (size (pending n)) + len evs ≤ ARP_PENDING_HOSTS →
  waiting (send_all gi gm n evs) ip = take 16 (waiting n ip ++ packets_for ip evs).
Proof.
  intros Hi Hy Ht Hev. revert n Hi Hy Ht. induction Hev as [|[[nh packet] now] evs Hn Hev IH]; intros n Hi Hy Ht Hs.
  - cbn. rewrite app_nil_r, take_ge; [done|]. unfold waiting. destruct (pending n !! ip) as [p|] eqn:E; [|cbn; lia].
    pose proof (ni_packets n Hi ip p E) as Hp. cbn in Hp. unfold len, ARP_PENDING_PACKETS in Hp. lia.
  - rewrite len_cons in Hs. pose proof (len_nonneg evs). cbn [send_all].
    destruct (waiting_step gi gm n t0 nh packet now ip Hi Hy Ht ltac:(exact Hn) ltac:(lia)) as (H1 & H2 & H3 & H4).
    rewrite IH; [|by apply send_ip_inv|done|done|lia].
    rewrite H4, take_take_app. f_equal. rewrite <-app_assoc. f_equal.
    unfold packets_for. rewrite filter_cons. cbn [fst]. by destruct (decide (nh = ip)).
Qed.

(** ** Dispatch *)

Section dispatch.
Context {Net SocketAddr : Type} `{Ipv4NetOps Net}.
Implicit Types (t : GatewayTask Net SocketAddr).

(** The datagram's destination port, of an unbroken UDP packet. *)
Definition udp_port (ip : Ipv4View) : option Z :=
  if proto ip =? IPPROTO_UDP then udp_dst_port <$> UdpView_parse (ip_payload ip) else None.
(** The packets a service of the gateway takes: anything to the DHCP port,
    and DNS queries and ICMP for the gateway's own address. *)
Definition service_takes t (ip : Ipv4View) : Prop :=
  udp_port ip = Some 67 ∨ (ip_dst ip = gw_ip t ∧ (udp_port ip = Some 53 ∨ proto ip = IPPROTO_ICMP)).
(** A frame a guest routes off the segment through the gateway. *)
Definition off_segment t (frame : bytes) : Prop :=
  ∃ eth ip, EthView_parse frame = Some eth ∧ ethertype eth = ETHERTYPE_IPV4 ∧ dst_mac eth = gw_mac t ∧
    Ipv4View_parse (eth_payload eth) = Some ip ∧ ¬ service_takes t ip.

Lemma handle_dns_no_uplink act f : Uplink f ∉ handle_dns (SocketAddr := SocketAddr) act.
Proof. destruct act; cbn; set_solver. Qed.

Lemma dns_handle_returns (z : Dns.DnsZone SocketAddr) f : returns (Dns.DnsServer_handle z f).
Proof.
  unfold Dns.DnsServer_handle. destruct (Dns.dns_message f) as [[msg c]|]; [|by eexists].
  destruct (Dns.dns_question_returns msg) as [q ->]. by eexists.
Qed.
Lemma dhcp_handle_returns (d : Dhcp.DhcpServer Net) now f : returns (Dhcp.handle d now f).
Proof. unfold Dhcp.handle. destruct (Dhcp.dhcp_request_returns f) as [[q|] ->]; by eexists. Qed.

Lemma handle_routed_uplink t eth frame ip f :
  Uplink f ∈ handle_routed t eth frame ip ↔
  f = frame ∧ uplink t = true ∧ dst_mac eth = gw_mac t ∧ ¬ (ip_dst ip = gw_ip t ∧ proto ip = IPPROTO_ICMP).
Proof.
  unfold handle_routed. destruct (_ && _) eqn:E; bsplit.
  - destruct (icmp_echo_reply_for _); set_solver.
  - assert (Hn : ¬ (ip_dst ip = gw_ip t ∧ proto ip = IPPROTO_ICMP)).
    { intros [H1 H2]. rewrite H1, H2, !Z.eqb_refl in E. done. }
    case_bool_decide; [|set_solver]. destruct (uplink t); set_solver.
Qed.

Lemma handle_ipv4_dispatch t now eth frame ip :
  Ipv4View_parse (eth_payload eth) = Some ip →
  ∃ t' acts, handle_ipv4 t now eth frame = Ret (t', acts) ∧
    gw_ip t' = gw_ip t ∧ gw_mac t' = gw_mac t ∧ neighbours t' = neighbours t ∧
    ∀ f, Uplink f ∈ acts ↔ f = frame ∧ uplink t = true ∧ dst_mac eth = gw_mac t ∧ ¬ service_takes t ip.
Proof.
  intros Hip. unfold handle_ipv4. rewrite Hip. unfold service_takes, udp_port.
  assert (Hroute : (match (if proto ip =? IPPROTO_UDP then UdpView_parse (ip_payload ip) else None) with
      | Some u => udp_dst_port u ≠ 67 ∧ ¬ (udp_dst_port u = 53 ∧ ip_dst ip = gw_ip t) | None => True end) →
    ∀ f, Uplink f ∈ handle_routed t eth frame ip ↔ f = frame ∧ uplink t = true ∧ dst_mac eth = gw_mac t ∧
      ¬ ((if proto ip =? IPPROTO_UDP then udp_dst_port <$> UdpView_parse (ip_payload ip) else None) = Some 67 ∨
         ip_dst ip = gw_ip t ∧ ((if proto ip =? IPPROTO_UDP then udp_dst_port <$> UdpView_parse (ip_payload ip)
           else None) = Some 53 ∨ proto ip = IPPROTO_ICMP))).
  { intros Hu f. rewrite handle_routed_uplink. destruct (proto ip =? IPPROTO_UDP).
    - destruct (UdpView_parse (ip_payload ip)) as [u|]; cbn; naive_solver.
    - naive_solver. }
  destruct (if proto ip =? IPPROTO_UDP then UdpView_parse (ip_payload ip) else None) as [u|] eqn:Eu.
  2: { do 2 eexists. split; [reflexivity|]. do 3 (split; [done|]). by apply Hroute. }
  assert (Hport : (if proto ip =? IPPROTO_UDP then udp_dst_port <$> UdpView_parse (ip_payload ip) else None)
    = Some (udp_dst_port u)).
  { destruct (proto ip =? IPPROTO_UDP); [|done]. by rewrite Eu. }
  unfold Dhcp.DHCP_SERVER_PORT, Dns.DNS_PORT.
  destruct (udp_dst_port u =? 67) eqn:E67; bsplit.
  { rewrite Hport, E67. destruct (dhcp t) as [d|].
    - destruct (dhcp_handle_returns d now frame) as [[d' r] ->]. cbn. do 2 eexists. split; [reflexivity|].
      do 3 (split; [done|]). intros f. split; [destruct r; set_solver|]. intros (_ & _ & _ & Hn). exfalso. apply Hn. by left.
    - do 2 eexists. split; [reflexivity|]. do 3 (split; [done|]). intros f. split; [set_solver|].
      intros (_ & _ & _ & Hn). exfalso. apply Hn. by left. }
  destruct (_ && _) eqn:E53; bsplit.
  { rewrite Hport. assert (Hno : ∀ f, f = frame ∧ uplink t = true ∧ dst_mac eth = gw_mac t ∧
      ¬ (Some (udp_dst_port u) = Some 67 ∨ ip_dst ip = gw_ip t ∧ (Some (udp_dst_port u) = Some 53 ∨ proto ip = IPPROTO_ICMP)) → False).
    { intros f (_ & _ & _ & Hn). apply Hn. right. split; [done|]. left. congruence. }
    destruct (dns t) as [z|].
    - destruct (dns_handle_returns z frame) as [act ->]. cbn. do 2 eexists. split; [reflexivity|].
      do 3 (split; [done|]). intros f. split; [by intros ?%handle_dns_no_uplink|by intros ?%Hno].
    - do 2 eexists. split; [reflexivity|]. do 3 (split; [done|]). intros f. split; [set_solver|by intros ?%Hno]. }
  do 2 eexists. split; [reflexivity|]. do 3 (split; [done|]). apply Hroute. split; [done|].
  intros [H1 H2]. rewrite H1, H2, !Z.eqb_refl in E53. done.
Qed.

Lemma handle_arp_no_uplink t payload f : Uplink f ∉ (handle_arp t payload).2.
Proof.
  unfold handle_arp. destruct (ArpView_parse payload) as [arp|]; [|set_solver].
  destruct (negb _); cbn; intros Hx.
  - apply elem_of_app in Hx as [Hx|Hx]; [apply list_elem_of_fmap in Hx as (p & [=] & _)|].
    destruct (_ && _); set_solver.
  - destruct (_ && _); set_solver.
Qed.
Lemma handle_arp_identity t payload :
  gw_ip (handle_arp t payload).1 = gw_ip t ∧ gw_mac (handle_arp t payload).1 = gw_mac t.
Proof. unfold handle_arp. destruct (ArpView_parse payload); [|done]. by destruct (negb _). Qed.
End dispatch.

(** ** Theorems *)

(** Every way the neighbour table changes: an overheard ARP, and a packet
    routed onto the segment. *)
Inductive neigh_step : Neighbours → Neighbours → Prop :=
| ns_learn n ip mac : neigh_step n (learn n ip mac).1
| ns_send gi gm n nh packet now : neigh_step n (send_ip gi gm n nh packet now).1.

(** What waits for ARP is bounded. Over any sequence of overheard ARP
    packets and routed sends, at any times, at most 256 hosts are waited for,
    each with at least one and at most 16 packets, and no packet waits for a
    host whose address is already known. *)
Theorem neighbours_bounded (n : Neighbours) :
  rtc neigh_step Neighbours_default n →
  (size (pending n) ≤ 256)%nat ∧
  ∀ ip p, pending n !! ip = Some p → (1 ≤ length (packets p) ≤ 16)%nat ∧ table n !! ip = None.
Proof.
  intros Hr. assert (Hi : neigh_inv n).
  { refine (rtc_preserves neigh_step neigh_inv _ _ _ Hr _).
    - intros a b Ha Hs. inversion Hs; subst; [by apply learn_inv|by apply send_ip_inv].
    - split; cbn; [done|apply map_Forall_empty|]. intros ip [p Hp]. by rewrite lookup_empty in Hp. }
  destruct Hi as [H1 H2 H3]. unfold ARP_PENDING_HOSTS in H1. split; [lia|]. intros ip p Hp.
  pose proof (H2 ip p Hp) as Hl. unfold len, ARP_PENDING_PACKETS in Hl. split; [lia|]. apply H3. eauto.
Qed.

(** Packets that waited are released in order. When packets have been
    routed to hosts of a fresh segment, up to 256 of them within three
    seconds, and an ARP packet from one of the hosts arrives, the gateway
    sends that host, from its own MAC, exactly the first sixteen packets
    routed to it, in the order they came; nothing waits for it any more, and
    later packets go straight to the MAC it announced. *)
Theorem held_packets_released {Net S} `{Ipv4NetOps Net} (t : GatewayTask Net S)
    (evs : list (Ipv4Addr * bytes * Z)) (t0 now : Z) (frame : bytes) (eth : EthView) (arp : ArpView) :
  neighbours t = send_all (gw_ip t) (gw_mac t) Neighbours_default evs →
  Forall (λ e, t0 ≤ e.2 < t0 + ARP_PENDING) evs → len evs ≤ 256 →
  EthView_parse frame = Some eth → ethertype eth = ETHERTYPE_ARP →
  ArpView_parse (eth_payload eth) = Some arp → spa arp ≠ 0 →
  ∃ t' rest,
    handle_frame t now frame = Ret (t',
      ((λ p, Send (eth_build (sha arp) (gw_mac t) ETHERTYPE_IPV4 p)) <$> take 16 (packets_for (spa arp) evs)) ++ rest) ∧
    rest = (if bool_decide (arp_op arp = Request ∧ tpa arp = gw_ip t)
            then [Send (arp_reply_build (gw_mac t) (gw_ip t) (sha arp) (spa arp))] else []) ∧
    waiting (neighbours t') (spa arp) = [] ∧
    ∀ packet later, send_ip (gw_ip t) (gw_mac t) (neighbours t') (spa arp) packet later =
      (neighbours t', [eth_build (sha arp) (gw_mac t) ETHERTYPE_IPV4 packet]).
Proof.
  intros Hn Hev Hl He Het Ha Hs.
  assert (Hw : waiting (neighbours t) (spa arp) = take 16 (packets_for (spa arp) evs)).
  { rewrite Hn. rewrite (waiting_all _ _ evs Neighbours_default t0); try done. }
  unfold handle_frame. rewrite He, Het. change (ETHERTYPE_ARP =? ETHERTYPE_ARP) with true. cbn match.
  unfold handle_arp. rewrite Ha, (proj2 (Z.eqb_neq _ _)) by done. cbn [negb]. unfold learn. cbn [set_neighbours gw_mac gw_ip].
  fold (waiting (neighbours t) (spa arp)). rewrite Hw. do 2 eexists. split; [reflexivity|]. split.
  { assert (Hb : bool_decide (arp_op arp = Request) && (tpa arp =? gw_ip t)
      = bool_decide (arp_op arp = Request ∧ tpa arp = gw_ip t)); [|by rewrite Hb].
    destruct (tpa arp =? gw_ip t) eqn:E; bsplit; repeat case_bool_decide; naive_solver. }
  cbn [neighbours]. split; [unfold waiting; cbn; by rewrite lookup_delete_eq|].
  intros packet later. unfold send_ip. cbn. by rewrite lookup_insert_eq.
Qed.

(** The gateway task is total and hands the uplink exactly what it
    should. Handling a frame returns without a panic and keeps the gateway's
    identity. A frame goes to the uplink, unchanged, exactly when an uplink is
    attached, the frame is IPv4 and addressed to the gateway's MAC, and no
    service of the gateway takes it: nothing to the DHCP port, and no DNS
    query or ICMP message for the gateway's own address. *)
Theorem gateway_dispatch {Net S} `{Ipv4NetOps Net} (t : GatewayTask Net S) (now : Z) (frame : bytes) :
  ∃ t' acts, handle_frame t now frame = Ret (t', acts) ∧ gw_ip t' = gw_ip t ∧ gw_mac t' = gw_mac t ∧
    ∀ f, Uplink f ∈ acts ↔ f = frame ∧ uplink t = true ∧ off_segment t frame.
Proof.
  unfold handle_frame, off_segment. destruct (EthView_parse frame) as [eth|] eqn:He.
  2: { do 2 eexists. split; [reflexivity|]. do 2 (split; [done|]). set_solver. }
  destruct (ethertype eth =? ETHERTYPE_ARP) eqn:E1; bsplit.
  { do 2 eexists. split; [apply f_equal, surjective_pairing|]. pose proof (handle_arp_identity t (eth_payload eth)) as [H1 H2].
    do 2 (split; [done|]). intros f. split; [by intros ?%handle_arp_no_uplink|].
    intros (_ & _ & eth' & ip & [= <-] & Ht & _). rewrite E1 in Ht. done. }
  destruct (ethertype eth =? ETHERTYPE_IPV4) eqn:E2; bsplit.
  2: { do 2 eexists. split; [reflexivity|]. do 2 (split; [done|]). intros f. split; [set_solver|].
       intros (_ & _ & eth' & ip & [= <-] & Ht & _). done. }
  destruct (Ipv4View_parse (eth_payload eth)) as [ip|] eqn:Hip.
  2: { unfold handle_ipv4. rewrite Hip. do 2 eexists. split; [reflexivity|]. do 2 (split; [done|]).
       intros f. split; [set_solver|]. intros (_ & _ & eth' & ip & [= <-] & _ & _ & Hi & _). congruence. }
  destruct (handle_ipv4_dispatch t now eth frame ip Hip) as (t' & acts & Hh & H1 & H2 & _ & Hu).
  exists t', acts. do 3 (split; [done|]). intros f. rewrite Hu. split.
  - intros (-> & Hup & Hm & Hs). do 2 (split; [done|]). by exists eth, ip.
  - intros (-> & Hup & eth' & ip' & [= <-] & _ & Hm & Hi & Hs). simplify_eq. done.
Qed.

(** ** Witnesses *)

Definition gw_sample_mac : MacAddr := gateway_mac [108; 97; 98] [108; 97; 110].
Definition sample_evs : list (Ipv4Addr * bytes * Z) :=
  [(0x0A000005, [1], 10); (0x0A000006, [9], 11); (0x0A000005, [2], 12)].
Definition gw_sample : GatewayTask cidr () :=
  mkTask 0x0A000001 gw_sample_mac None None false
    (send_all 0x0A000001 gw_sample_mac Neighbours_default sample_evs).
Definition sample_arp : bytes := arp_request_build [2; 0; 0; 0; 0; 5] 0x0A000005 0x0A000001.

Definition sample_neigh : Neighbours := (send_ip 1 gw_sample_mac Neighbours_default 5 [1] 0).1.
Lemma neighbours_bounded_witness : (1 ≤ size (pending sample_neigh) ≤ 256)%nat.
Proof.
  split; [vm_compute; lia|]. apply (neighbours_bounded sample_neigh). apply rtc_once, ns_send.
Defined.

Lemma held_packets_released_witness :
  ∃ t' rest, handle_frame gw_sample 20 sample_arp = Ret (t',
    [Send (eth_build [2; 0; 0; 0; 0; 5] gw_sample_mac ETHERTYPE_IPV4 [1]);
     Send (eth_build [2; 0; 0; 0; 0; 5] gw_sample_mac ETHERTYPE_IPV4 [2])] ++ rest) ∧ length rest = 1%nat.
Proof.
  destruct (held_packets_released gw_sample sample_evs 10 20 sample_arp {| eth_buf := sample_arp |}
    {| arp_buf := eth_payload {| eth_buf := sample_arp |} |}) as (t' & rest & Hh & Hr & _).
  - reflexivity.
  - repeat (apply Forall_cons; split; [concrete|]). constructor.
  - concrete.
  - vm_compute; reflexivity.
  - vm_compute; reflexivity.
  - vm_compute; reflexivity.
  - vm_compute; discriminate.
  - exists t', rest. split; [rewrite Hh; reflexivity|]. rewrite Hr. vm_compute. reflexivity.
Defined.
