(* ===== verification/Router.v ===== *)
(** * Inter-segment routing ([src/net/router.rs])

    The lab's routing table: its segments ([Leg]s, each with the L3 port, the
    rules and the DHCP server it shares with the segment's gateway) and the
    connected pairs, an ordered set kept as a sorted list. [decide] is the
    verdict on a frame, [route] the verdict carried out. Segment names are
    their UTF-8 bytes. *)

From stdpp Require Import sorting.
From S2P Require Import Prelude Checksum Frame Ipnet Rules VnetHeader Dhcp Gateway.

Definition ICMP_TIME_EXCEEDED : Z := 11.
Definition ICMP_FRAG_NEEDED : Z := 4.

(** [a < b] on strings and on pairs of strings. *)
Definition bytes_ltb (a b : bytes) : bool := negb (bytes_leb b a).
Definition pair_ltb (a b : bytes * bytes) : bool := negb (pair_leb b a).

(** The gateway as a segment's L3 interface. *)
Record L3Port := mkL3Port { port_ip : Ipv4Addr; port_mac : MacAddr; port_neighbours : Neighbours }.

(** [BTreeSet::insert] of a new key and [remove]. *)
Fixpoint pair_insert (k : bytes * bytes) (s : list (bytes * bytes)) : list (bytes * bytes) :=
  match s with
  | [] => [k]
  | x :: s' => if pair_ltb k x then k :: s else x :: pair_insert k s'
  end.
Definition pair_remove (k : bytes * bytes) (s : list (bytes * bytes)) : list (bytes * bytes) :=
  filter (λ x, x ≠ k) s.

Section router.
Context {Net : Type} `{Ipv4NetOps Net}.

Record Leg := mkLeg {
  leg_name : bytes;
  leg_subnet : Net;
  leg_gw_ip : Ipv4Addr;
  leg_mtu : Z;
  leg_port : L3Port;
  leg_rules : RuleSet Net;
  leg_dhcp : option (DhcpServer Net);
  declared_routes : list (Net * Ipv4Addr) }.

Record Inner := mkInner { legs : gmap bytes Leg; pairs : list (bytes * bytes) }.
Definition Router_new : Inner := mkInner ∅ [].

Definition set_leg_dhcp (l : Leg) d :=
  mkLeg (leg_name l) (leg_subnet l) (leg_gw_ip l) (leg_mtu l) (leg_port l) (leg_rules l) d (declared_routes l).
Definition set_leg_rules (l : Leg) r :=
  mkLeg (leg_name l) (leg_subnet l) (leg_gw_ip l) (leg_mtu l) (leg_port l) r (leg_dhcp l) (declared_routes l).
Definition set_leg_neighbours (l : Leg) n :=
  mkLeg (leg_name l) (leg_subnet l) (leg_gw_ip l) (leg_mtu l)
    (mkL3Port (port_ip (leg_port l)) (port_mac (leg_port l)) n) (leg_rules l) (leg_dhcp l) (declared_routes l).
Definition put_leg (r : Inner) (l : Leg) : Inner := mkInner (<[leg_name l := l]> (legs r)) (pairs r).

Definition other_end (name : bytes) (p : bytes * bytes) : option bytes :=
  if bool_decide (p.1 = name) then Some p.2 else if bool_decide (p.2 = name) then Some p.1 else None.
Definition peers_of (r : Inner) (name : bytes) : list Leg :=
  omap (λ p, other ← other_end name p; legs r !! other) (pairs r).

(** ** DHCP routes *)

Fixpoint add_routes (routes : list (Net * Ipv4Addr)) (gw : Ipv4Addr) (peers : list Net) : list (Net * Ipv4Addr) :=
  match peers with
  | [] => routes
  | subnet :: peers =>
      if bool_decide (Exists (λ r, r.1 = subnet) routes) then add_routes routes gw peers
      else add_routes (routes ++ [(subnet, gw)]) gw peers
  end.
(** The order of [Ipv4Net], for [peers.sort()]. *)
Definition net_le (a b : Net) : Prop := net_leb a b = true.
#[local] Instance net_le_dec (a b : Net) : Decision (net_le a b).
Proof. unfold net_le. apply _. Defined.
Definition dhcp_routes_of (r : Inner) (segment : bytes) : list (Net * Ipv4Addr) :=
  match legs r !! segment with
  | None => []
  | Some leg =>
      let peers := merge_sort net_le (leg_subnet <$> peers_of r segment) in
      add_routes (declared_routes leg) (leg_gw_ip leg) peers
  end.

Definition refresh_dhcp (r : Inner) (segment : bytes) : Inner :=
  match legs r !! segment with
  | Some leg =>
      match leg_dhcp leg with
      | Some d => mkInner (<[segment := set_leg_dhcp leg (Some (set_routes d (dhcp_routes_of r segment)))]> (legs r)) (pairs r)
      | None => r
      end
  | None => r
  end.

(** ** The table *)

Definition register_leg (r : Inner) (leg : Leg) : Inner :=
  refresh_dhcp (put_leg r leg) (leg_name leg).

Inductive RouterError := CannotRouteToItself (a : bytes) | NoSegment (name : bytes).

Definition set_pair (r : Inner) (a b : bytes) (connected : bool) : RouterError + Inner :=
  if bool_decide (a = b) then inl (CannotRouteToItself a)
  else if bool_decide (legs r !! a = None) then inl (NoSegment a)
  else if bool_decide (legs r !! b = None) then inl (NoSegment b)
  else
    let key := if bytes_ltb a b then (a, b) else (b, a) in
    let present := bool_decide (key ∈ pairs r) in
    if Bool.eqb present connected then inr r
    else
      let r := mkInner (legs r) (if connected then pair_insert key (pairs r) else pair_remove key (pairs r)) in
      inr (refresh_dhcp (refresh_dhcp r a) b).
Definition connect (r : Inner) (a b : bytes) : RouterError + Inner := set_pair r a b true.
Definition disconnect (r : Inner) (a b : bytes) : RouterError + Inner := set_pair r a b false.

Definition connected (r : Inner) (a b : bytes) : bool :=
  bool_decide (Exists (λ p, leg_name p = b) (peers_of r a)).

(** ** Routing *)

Inductive Decision :=
| NotRouted
| RForward (to : Leg) (packet : bytes)
| Answer (on : Leg) (packet : bytes)
| RDrop.

(** [decrement_ttl]: the header was parsed, so the offsets are in range. *)
Definition decrement_ttl (packet : bytes) : bytes :=
  match Ipv4View_parse packet with
  | None => packet
  | Some ip =>
      let p := splice packet 8 [sat_sub (idx packet 8) 1] in
      let p := splice p 10 [0; 0] in
      splice p 10 (be16 (internet_checksum (slice p 0 (header_len ip))))
  end.

Definition icmp_error (origin : Leg) (packet : bytes) (icmp_ty code : Z) (rest : bytes) : Decision :=
  match Ipv4View_parse packet with
  | None => RDrop
  | Some ip =>
      let quiet := (proto ip =? IPPROTO_ICMP)
        && match IcmpView_parse (ip_payload ip) with
           | None => true
           | Some i => negb (icmp_type i =? ICMP_ECHO_REQUEST)
           end in
      if quiet then RDrop
      else
        let quote := slice packet 0 (Z.min (header_len ip + 8) (len packet)) in
        let icmp := icmp_build icmp_ty code rest quote in
        match ipv4_build (leg_gw_ip origin) (ip_src ip) IPPROTO_ICMP 64 icmp (ip_id ip) with
        | Some packet => Answer origin packet
        | None => RDrop
        end
  end.

(** The IPv4 packet of a frame, Ethernet padding dropped. *)
Definition routed_packet (frame : bytes) : option (Ipv4View * bytes) :=
  eth ← EthView_parse frame;
  if negb (ethertype eth =? ETHERTYPE_IPV4) then None
  else
    ip ← Ipv4View_parse (eth_payload eth);
    Some (ip, slice (eth_payload eth) 0 (Z.min (total_len ip) (len (eth_payload eth)))).

(** The verdict on a packet for [peer]'s subnet; the rules of the peer may
    refresh a translation entry. *)
Definition to_peer (r : Inner) (now : Z) (origin peer : Leg) (ip : Ipv4View) (packet : bytes)
    : outcome (Decision * Inner) :=
  let dst := ip_dst ip in
  if dst =? leg_gw_ip peer then
    Ret (match icmp_echo_reply_for packet with Some reply => Answer origin reply | None => RDrop end, r)
  else if (dst =? net_network (leg_subnet peer)) || (dst =? net_broadcast (leg_subnet peer)) then Ret (RDrop, r)
  else if ttl ip <=? 1 then Ret (icmp_error origin packet ICMP_TIME_EXCEEDED 0 [0; 0; 0; 0], r)
  else if leg_mtu peer <? len packet then
    Ret (if dont_fragment ip
         then icmp_error origin packet ICMP_DEST_UNREACHABLE ICMP_FRAG_NEEDED ([0; 0] ++ be16 (leg_mtu peer))
         else RDrop, r)
  else
    let packet := decrement_ttl packet in
    v ← eval_return (leg_rules peer) now packet;
    Ret (RForward peer (match v.1 with Rewrite rewritten => rewritten | _ => packet end),
         put_leg r (set_leg_rules peer v.2)).

Definition decide_route (r : Inner) (now : Z) (from frame : bytes) : outcome (Decision * Inner) :=
  match routed_packet frame, legs r !! from with
  | Some (ip, packet), Some origin =>
      match list_find (λ p, net_contains (leg_subnet p) (ip_dst ip) = true) (peers_of r from) with
      | Some (_, peer) => to_peer r now origin peer ip packet
      | None => Ret (NotRouted, r)
      end
  | _, _ => Ret (NotRouted, r)
  end.

(** [route]: whether the frame is handed back, the table after it, and the
    frames it sends, each with its segment. *)
Definition route (r : Inner) (now : Z) (from frame : bytes) : outcome (bool * Inner * list (bytes * bytes)) :=
  d ← decide_route r now from frame;
  match d with
  | (NotRouted, r) => Ret (true, r, [])
  | (RForward to packet, r) =>
      match ip_dst <$> Ipv4View_parse packet, legs r !! leg_name to with
      | Some dst, Some to =>
          let port := leg_port to in
          let '(n, frames) := send_ip (port_ip port) (port_mac port) (port_neighbours port) dst packet now in
          Ret (false, put_leg r (set_leg_neighbours to n), (leg_name to,.) <$> frames)
      | _, _ => Ret (false, r, [])
      end
  | (Answer on packet, r) =>
      match EthView_parse frame with
      | Some eth => Ret (false, r, [(leg_name on, send_to (port_mac (leg_port on)) (src_mac eth) packet)])
      | None => Ret (false, r, [])
      end
  | (RDrop, r) => Ret (false, r, [])
  end.

End router.
Arguments Leg Net : clear implicits.
Arguments Inner Net : clear implicits.
Arguments Decision Net : clear implicits.

(** ** Packets in transit *)

(** Two views that agree on the fields a hop must keep. *)
Definition same_route (v w : Ipv4View) : Prop :=
  header_len v = header_len w ∧ total_len v = total_len w ∧ proto v = proto w ∧ ip_dst v = ip_dst w.

Lemma ipv4_head_parse buf ip :
  bytes_ok buf → Ipv4View_parse buf = Some ip →
  let p := slice buf 0 (Z.min (total_len ip) (len buf)) in
  bytes_ok p ∧ len p = total_len ip ∧ 20 ≤ header_len ip ≤ total_len ip ∧ total_len ip ≤ 65535 ∧
  Ipv4View_parse p = Some {| ip_buf := p |} ∧ (∀ i, 0 ≤ i < total_len ip → idx p i = idx (ip_buf ip) i) ∧
  total_len ip ≤ len (ip_buf ip).
Proof.
  intros Hok Hip p. pose proof (Ipv4View_parse_Some _ _ Hip) as (E & Hl & Hv & Hh & Ht).
  assert (Hb : bytes_ok (ip_buf ip)) by (by rewrite E).
  pose proof (total_len_u16 ip Hb) as Hu. unfold is_u16 in Hu.
  assert (Hp : p = slice buf 0 (total_len ip)) by (unfold p; by rewrite Z.min_l by lia).
  assert (Hi : ∀ i, 0 ≤ i < total_len ip → idx p i = idx (ip_buf ip) i).
  { intros i Hi. rewrite Hp, idx_slice by lia. rewrite E. f_equal. }
  assert (Hlen : len p = total_len ip) by (rewrite Hp, len_slice; lia).
  split; [unfold p; auto with vmlab|]. split; [done|]. split; [done|]. split; [lia|].
  split; [|split; [done|rewrite E; cbn [ip_buf]; rewrite <-E; lia]].
  apply Ipv4View_parse_intro.
  - lia.
  - rewrite Hi by lia. rewrite E. exact Hv.
  - unfold u16_at. rewrite !Hi by lia. unfold header_len, total_len, ihl, u16_at in Hh. exact Hh.
  - unfold u16_at. rewrite !Hi by lia. rewrite Hlen. unfold total_len, u16_at. lia.
Qed.

Lemma routed_packet_spec frame ip p :
  bytes_ok frame → routed_packet frame = Some (ip, p) →
  bytes_ok p ∧ len p = total_len ip ∧ 20 ≤ header_len ip ≤ total_len ip ∧ total_len ip ≤ 65535 ∧
  Ipv4View_parse p = Some {| ip_buf := p |} ∧ (∀ i, 0 ≤ i < total_len ip → idx p i = idx (ip_buf ip) i) ∧
  total_len ip ≤ len (ip_buf ip).
Proof.
  intros Hf. unfold routed_packet. destruct (EthView_parse frame) as [eth|] eqn:He; cbn; [|done].
  destruct (negb _); [done|]. destruct (Ipv4View_parse _) as [ip'|] eqn:Hip; cbn; [|done].
  intros [= <- <-]. apply ipv4_head_parse; [|done].
  apply EthView_parse_Some in He as [-> _]. unfold eth_payload. cbn. auto with vmlab.
Qed.

(** Views of the same leading bytes read the same. *)
Lemma views_agree (v w : Ipv4View) :
  (∀ i, 0 ≤ i < 20 → idx (ip_buf v) i = idx (ip_buf w) i) → same_route v w ∧ ip_src v = ip_src w ∧ ttl v = ttl w.
Proof.
  intros Hi. unfold same_route, header_len, ihl, total_len, proto, ip_dst, ip_src, ttl, u16_at, ipv4_at.
  rewrite !Hi by lia. done.
Qed.

Lemma decrement_ttl_spec p :
  bytes_ok p → Ipv4View_parse p = Some {| ip_buf := p |} → len p ≤ 65535 →
  bytes_ok (decrement_ttl p) ∧ edited [(8, 1); (10, 2)] p (decrement_ttl p) ∧
  Ipv4View_parse (decrement_ttl p) = Some {| ip_buf := decrement_ttl p |} ∧
  idx (decrement_ttl p) 8 = Z.max 0 (idx p 8 - 1) ∧
  ip_checksum_valid {| ip_buf := decrement_ttl p |} = true.
Proof.
  intros Hok Hip Hl. pose proof (Ipv4View_parse_Some _ _ Hip) as (_ & Hl20 & Hv & Hh & Ht).
  unfold decrement_ttl. rewrite Hip. set (ip := {| ip_buf := p |}) in *. set (hl := header_len ip) in *.
  set (o := splice p 8 [sat_sub (idx p 8) 1]).
  assert (Hlo : len o = len p) by (apply len_splice; change (len [_]) with 1; lia).
  assert (Hoo : bytes_ok o).
  { unfold o. apply bytes_ok_splice; [done|]. apply bytes_ok_cons; [|constructor].
    pose proof (idx_u8 p 8 Hok). ints. lia. }
  destruct (header_refresh o hl) as (out & Hout & Hb & He & Hc & _); [done|lia|lia|].
  assert (Hz : len (splice o 10 [0; 0]) = len o) by (apply len_splice; change (len [0; 0]) with 2; lia).
  rewrite copy_at_ret in Hout by (change (len [0; 0]) with 2; lia). cbn [mbind outcome_bind] in Hout.
  rewrite slice_chk_ret in Hout by lia. cbn [mbind outcome_bind] in Hout.
  rewrite copy_at_ret in Hout by (rewrite ?len_be16; lia). cbn [fmap outcome_fmap] in Hout. injection Hout as Hout. rewrite Hout.
  assert (He8 : edited [(8, 1)] p o) by (apply (edited_splice p 8 [_]); change (len [_]) with 1; lia).
  assert (E : edited [(8, 1); (10, 2)] p out) by exact (edited_trans _ _ _ _ _ He8 He).
  assert (Hkeep : ∀ i, 0 ≤ i → i < 8 → idx out i = idx p i)
    by (intros i H0 H8; apply (edited_idx _ _ _ _ E); [done|]; intros Hr; ranges).
  split; [done|]. split; [done|]. split; [|split].
  - apply Ipv4View_parse_intro; rewrite ?(edited_len _ _ _ E); [done|by rewrite Hkeep by lia|..];
      unfold u16_at; rewrite ?Hkeep by lia; done.
  - rewrite (edited_idx _ _ _ 8 He); [|lia|intros Hr; ranges]. unfold o.
    rewrite idx_splice_in by (change (len [_]) with 1; lia). done.
  - unfold ip_checksum_valid. apply Z.eqb_eq.
    replace (header_len {| ip_buf := out |}) with hl.
    + cbn [ip_buf]. unfold slice. rewrite drop_0. replace (hl - 0) with hl by lia. done.
    + unfold hl, header_len, ihl, ip. cbn [ip_buf]. by rewrite Hkeep by lia.
Qed.

(** A rewrite by the return half of a redirect. *)
Lemma eval_return_rewrite {Net} `{Ipv4NetOps Net} (rs rs' : RuleSet Net) now pkt ip out :
  ruleset_ok rs → bytes_ok pkt → Ipv4View_parse pkt = Some ip →
  eval_return rs now pkt = Ret (Rewrite out, rs') →
  Ipv4View_parse out = Some {| ip_buf := out |} ∧ idx out 8 = idx pkt 8 ∧
  (∃ ns, Rules.rewritten ip {| ip_buf := out |} ns None).
Proof.
  intros Hrs Hok Hip Hev. pose proof Hev as Hev'. unfold eval_return in Hev. rewrite Hip in Hev.
  destruct (m_conn_ports (Meta_of ip)) as [[sp dp]|] eqn:Hm; [|done].
  destruct (conns rs !! _) as [v|] eqn:Hk; [|done]. destruct (_ <? CONN_IDLE) eqn:Hl; [|done]. bsplit.
  destruct (eval_return_hit rs now pkt ip sp dp v Hrs Hok Hip Hm Hk Hl)
    as (out' & rs'' & Ho & _ & _ & He & Hp & Hr).
  rewrite Hev' in Ho. injection Ho as <- <-. split; [done|]. split; [|by eexists].
  pose proof (Ipv4View_parse_Some _ _ Hip) as (_ & _ & _ & Hh & _).
  rewrite (edited_idx _ _ _ 8 He); [apply idx_take; lia|lia|].
  unfold rewrite_ranges, addr_ranges. rewrite !in_ranges_app.
  assert (Hlf : 0 ≤ l4_field (proto ip)) by (unfold l4_field; repeat case_goal; lia).
  intros [[Hx%in_opt_range|[Hx%in_opt_range|Hx]]|[Hx|Hx]]; try lia; [|destruct (has_ports _)|]; try ranges.
  destruct (has_ports _); [|ranges]. apply in_ranges_app in Hx as [Hx%in_opt_range|Hx%in_opt_range]; lia.
Qed.

Section facts.
Context {Net : Type} `{Ipv4NetOps Net}.
Implicit Types (r : Inner Net) (l : Leg Net).

(** ** Peers *)

(** The connected pairs, as the symmetric relation they stand for. *)
Definition linked r (a b : bytes) : Prop := (a, b) ∈ pairs r ∨ (b, a) ∈ pairs r.

Lemma other_end_spec name p other :
  other_end name p = Some other → p = (name, other) ∨ p = (other, name).
Proof. unfold other_end. destruct p as [a b]. repeat case_bool_decide; cbn in *; intros; simplify_eq; auto. Qed.
Lemma elem_of_peers r name l :
  l ∈ peers_of r name ↔ ∃ other, linked r name other ∧ legs r !! other = Some l.
Proof.
  unfold peers_of, linked. rewrite list_elem_of_omap. split.
  - intros (p & Hp & Hl). destruct (other_end name p) as [other|] eqn:E; [|done]. exists other.
    apply other_end_spec in E as [-> | ->]; cbn in Hl; auto.
  - intros (other & [Hp|Hp] & Hl).
    + exists (name, other). split; [done|]. unfold other_end. cbn. by rewrite bool_decide_eq_true_2.
    + exists (other, name). split; [done|]. unfold other_end. cbn.
      case_bool_decide as E; [by rewrite E in Hl |]. by rewrite bool_decide_eq_true_2.
Qed.

(** ** ICMP errors *)

Definition quiet (ip : Ipv4View) : Prop :=
  proto ip = IPPROTO_ICMP ∧ ∀ i, IcmpView_parse (ip_payload ip) = Some i → icmp_type i ≠ ICMP_ECHO_REQUEST.
(** An ICMP error about the packet [p], sent by the gateway of [on]. *)
Definition error_says (on : Leg Net) (p : bytes) (ty code : Z) (packet : bytes) : Prop :=
  ∃ v m, Ipv4View_parse packet = Some v ∧ ip_src v = leg_gw_ip on ∧ ip_dst v = ip_src {| ip_buf := p |} ∧
    proto v = IPPROTO_ICMP ∧ ip_checksum_valid v = true ∧ IcmpView_parse (ip_payload v) = Some m ∧
    icmp_type m = ty ∧ icmp_code m = code ∧ icmp_checksum_valid m = true ∧
    icmp_payload m = take (Z.to_nat (header_len {| ip_buf := p |} + 8)) p.

Lemma icmp_error_spec (on : Leg Net) p ty code (r0 r1 r2 r3 : Z) :
  bytes_ok p → Ipv4View_parse p = Some {| ip_buf := p |} → len p ≤ 65535 → is_u32 (leg_gw_ip on) →
  is_u8 ty → is_u8 code → bytes_ok [r0; r1; r2; r3] →
  (quiet {| ip_buf := p |} ∧ icmp_error on p ty code [r0; r1; r2; r3] = RDrop) ∨
  (¬ quiet {| ip_buf := p |} ∧ ∃ packet, icmp_error on p ty code [r0; r1; r2; r3] = Answer on packet ∧
    error_says on p ty code packet).
Proof.
  intros Hok Hip Hl Hg Ht Hc Hr. unfold icmp_error. rewrite Hip. set (ip := {| ip_buf := p |}) in *.
  destruct ((proto ip =? IPPROTO_ICMP) && _) eqn:Eq.
  { left. split; [|done]. bsplit. split; [done|]. intros i Hi. rewrite Hi in *. by bsplit. }
  right. split.
  { intros [Hp Hi]. rewrite Hp, Z.eqb_refl in Eq. cbn in Eq.
    destruct (IcmpView_parse (ip_payload ip)) as [i|]; [|done]. bsplit. by apply (Hi i). }
  pose proof (Ipv4View_parse_Some _ _ Hip) as (_ & _ & _ & Hh & _). fold ip in Hh.
  assert (Hq : slice p 0 (Z.min (header_len ip + 8) (len p)) = take (Z.to_nat (header_len ip + 8)) p).
  { unfold slice. rewrite drop_0, Z.sub_0_r. destruct (decide (header_len ip + 8 ≤ len p)).
    - by rewrite Z.min_l by lia.
    - rewrite Z.min_r by lia. rewrite !take_ge; [done|unfold len in *; lia|unfold len; lia]. }
  rewrite Hq. set (q := take _ p).
  assert (Hlq : len q ≤ 68).
  { unfold q. rewrite len_take. unfold header_len, ihl.
    assert (Z.land (idx (ip_buf ip) 0) 15 ≤ 15); [|lia].
    pose proof (Z.land_ones (idx (ip_buf ip) 0) 4 ltac:(lia)) as HL. change (Z.ones 4) with 15 in HL.
    rewrite HL. change (2 ^ 4) with 16. pose proof (Z.mod_pos_bound (idx (ip_buf ip) 0) 16). lia. }
  destruct (icmp_build_ok ty code r0 r1 r2 r3 q) as (Hmo & Hml & Hmp & Hmc); [done|done|done|unfold q; auto with vmlab|lia|].
  set (m := icmp_build ty code [r0; r1; r2; r3] q) in *.
  assert (His : is_u32 (ip_src ip)) by (by apply ipv4_at_u32).
  assert (Hid : is_u16 (ip_id ip)) by (by apply u16_at_u16).
  destruct (ipv4_build _ _ _ _ m _) as [packet|] eqn:Hb; [|apply ipv4_build_None in Hb; lia].
  apply ipv4_build_Some in Hb as (_ & _ & _ & Hbp); try done.
  specialize (Hbp []) as (Hpp & Hsrc & Hdst & Hpr & _ & _ & _ & _ & Hpay & Hck). rewrite app_nil_r in *.
  exists packet. split; [done|]. destruct Hmc as (M1 & M2 & _ & M4 & M5).
  exists {| ip_buf := packet |}, {| icmp_buf := m |}. rewrite Hpay. split_and!; done.
Qed.

(** ** Verdicts *)

Definition leg_ok (name : bytes) l : Prop :=
  leg_name l = name ∧ ruleset_ok (leg_rules l) ∧ is_u32 (leg_gw_ip l) ∧ is_u16 (leg_mtu l).
Definition router_ok r : Prop := map_Forall leg_ok (legs r).

(** [peer] is the leg a packet for [dst] from the segment [from] goes to. *)
Definition peer_for r (from : bytes) (dst : Ipv4Addr) (peer : Leg Net) : Prop :=
  linked r from (leg_name peer) ∧ legs r !! leg_name peer = Some peer ∧
  net_contains (leg_subnet peer) dst = true.

(** The packet that leaves toward [to] for the packet [ip] that came in. *)
Definition forwarded_ok (now : Z) (to : Leg Net) (ip : Ipv4View) (packet : bytes) : Prop :=
  ip_dst ip ≠ leg_gw_ip to ∧ ip_dst ip ≠ net_network (leg_subnet to) ∧
  ip_dst ip ≠ net_broadcast (leg_subnet to) ∧ 1 < ttl ip ∧ total_len ip ≤ leg_mtu to ∧
  ∃ v, Ipv4View_parse packet = Some v ∧ same_route v ip ∧ ttl v = ttl ip - 1 ∧ ip_checksum_valid v = true ∧
    ((ip_src v = ip_src ip ∧ ip_payload v = ip_payload ip) ∨
     ∃ hop rs, eval_return (leg_rules to) now hop = Ret (Rewrite packet, rs)).

(** The packet sent back to the sender of [ip] on its own segment. *)
Definition answer_ok (on peer : Leg Net) (ip : Ipv4View) (p packet : bytes) : Prop :=
  (ip_dst ip = leg_gw_ip peer ∧ icmp_echo_reply_for p = Some packet) ∨
  (ttl ip ≤ 1 ∧ error_says on p ICMP_TIME_EXCEEDED 0 packet) ∨
  (leg_mtu peer < total_len ip ∧ dont_fragment ip = true ∧
   error_says on p ICMP_DEST_UNREACHABLE ICMP_FRAG_NEEDED packet).

Definition verdict_ok r (now : Z) (from frame : bytes) (d : Decision Net) r' : Prop :=
  match d with
  | NotRouted => r' = r ∧
      (routed_packet frame = None ∨ legs r !! from = None ∨
       ∃ ip p, routed_packet frame = Some (ip, p) ∧ ∀ peer, ¬ peer_for r from (ip_dst ip) peer)
  | RForward to packet => ∃ ip p rs, routed_packet frame = Some (ip, p) ∧ is_Some (legs r !! from) ∧
      peer_for r from (ip_dst ip) to ∧ forwarded_ok now to ip packet ∧
      r' = put_leg r (set_leg_rules to rs)
  | Answer on packet => r' = r ∧ legs r !! from = Some on ∧
      ∃ ip p peer, routed_packet frame = Some (ip, p) ∧ peer_for r from (ip_dst ip) peer ∧
        answer_ok on peer ip p packet
  | RDrop => r' = r ∧ ∃ ip p peer, routed_packet frame = Some (ip, p) ∧ peer_for r from (ip_dst ip) peer
  end.

(** One hop of the packet [p] read as [ip], with the peer's return
    translation applied. *)
Lemma hop_forwarded now (to : Leg Net) ip p rs' v :
  ruleset_ok (leg_rules to) → bytes_ok p → len p = total_len ip → 20 ≤ header_len ip ≤ total_len ip →
  total_len ip ≤ 65535 → Ipv4View_parse p = Some {| ip_buf := p |} →
  (∀ i, 0 ≤ i < total_len ip → idx p i = idx (ip_buf ip) i) → total_len ip ≤ len (ip_buf ip) → 1 < ttl ip →
  eval_return (leg_rules to) now (decrement_ttl p) = Ret (v, rs') →
  let packet := match v with Rewrite q => q | _ => decrement_ttl p end in
  ∃ w, Ipv4View_parse packet = Some w ∧ same_route w ip ∧ ttl w = ttl ip - 1 ∧ ip_checksum_valid w = true ∧
    ((ip_src w = ip_src ip ∧ ip_payload w = ip_payload ip) ∨
     ∃ hop rs, eval_return (leg_rules to) now hop = Ret (Rewrite packet, rs)).
Proof.
  intros Hrs Hok Hl Hh Ht Hp Hi Hlb Httl Hev packet.
  destruct (decrement_ttl_spec p Hok Hp ltac:(lia)) as (Ho & He & Hpo & H8 & Hc).
  set (out := decrement_ttl p) in *.
  assert (Hkeep : ∀ i, 0 ≤ i → i ≠ 8 → i ≠ 10 → i ≠ 11 → i < total_len ip → idx out i = idx (ip_buf ip) i).
  { intros i H0 N8 N10 N11 Hlt. rewrite (edited_idx _ _ _ i He); [by apply Hi|done|]. intros Hr. ranges. }
  assert (Hroute : same_route {| ip_buf := out |} ip ∧ ip_src {| ip_buf := out |} = ip_src ip).
  { unfold same_route, header_len, ihl, proto, ip_dst, ip_src, u16_at, ipv4_at. unfold total_len at 1, u16_at. cbn [ip_buf].
    rewrite !Hkeep by lia. done. }
  destruct Hroute as [Hroute Hsrc].
  assert (Httl' : ttl {| ip_buf := out |} = ttl ip - 1).
  { unfold ttl in *. cbn [ip_buf]. rewrite H8, Hi by lia. lia. }
  assert (Hpass : ∃ w, Ipv4View_parse out = Some w ∧ same_route w ip ∧ ttl w = ttl ip - 1 ∧
    ip_checksum_valid w = true ∧ ip_src w = ip_src ip ∧ ip_payload w = ip_payload ip).
  { exists {| ip_buf := out |}. split_and!; try done. destruct Hroute as (R1 & R2 & _).
    pose proof (edited_len _ _ _ He) as Hlo. unfold ip_payload. rewrite R1, R2. cbn [ip_buf].
    apply idx_ext; [rewrite !len_slice; lia|]. intros i Hii.
    rewrite len_slice in Hii by lia. rewrite !idx_slice by lia. apply Hkeep; lia. }
  destruct v as [|q|q]; cbn in packet; subst packet.
  - destruct Hpass as (w & ? & ? & ? & ? & ? & ?). exists w. auto 10.
  - destruct Hpass as (w & ? & ? & ? & ? & ? & ?). exists w. auto 10.
  - destruct (eval_return_rewrite _ _ _ _ _ _ Hrs Ho Hpo Hev) as (Hq & Hq8 & ns & Hrw).
    exists {| ip_buf := q |}. destruct Hrw as (W1 & W2 & W3 & _ & W5 & W6 & _). destruct Hroute as (R1 & R2 & R3 & R4).
    split; [done|]. split; [unfold same_route; cbn in W5; split_and!; congruence|].
    split; [unfold ttl in *; cbn [ip_buf] in *; congruence|]. split; [done|]. right. eauto.
Qed.

Lemma find_peer r from dst :
  router_ok r →
  match list_find (λ p, net_contains (leg_subnet p) dst = true) (peers_of r from) with
  | Some (_, peer) => peer_for r from dst peer
  | None => ∀ peer, ¬ peer_for r from dst peer
  end.
Proof.
  intros Hr. destruct (list_find _ _) as [[i peer]|] eqn:E.
  - apply list_find_Some in E as (Hi & Hc & _). apply list_elem_of_lookup_2 in Hi.
    apply elem_of_peers in Hi as (other & Hlk & Hl). destruct (Hr other peer Hl) as (Hn & _).
    unfold peer_for. rewrite Hn. done.
  - apply list_find_None in E. rewrite Forall_forall in E. intros peer (Hlk & Hl & Hc).
    apply (E peer); [|done]. apply elem_of_peers. eauto.
Qed.

Lemma decide_route_ok r now from frame :
  bytes_ok frame → router_ok r →
  ∃ d r', decide_route r now from frame = Ret (d, r') ∧ verdict_ok r now from frame d r'.
Proof.
  intros Hf Hr. unfold decide_route.
  destruct (routed_packet frame) as [[ip p]|] eqn:Hp; [|do 2 eexists; split; [reflexivity|cbn; auto]].
  destruct (legs r !! from) as [origin|] eqn:Ho; [|do 2 eexists; split; [reflexivity|cbn; auto]].
  pose proof (find_peer r from (ip_dst ip) Hr) as Hpeer.
  destruct (list_find _ _) as [[i peer]|]; [|do 2 eexists; split; [reflexivity|cbn; eauto 10]].
  destruct (routed_packet_spec frame ip p Hf Hp) as (Hpok & Hpl & Hh & Ht & Hpp & Hi & Hlb).
  destruct (Hr from origin Ho) as (_ & _ & Hog & _).
  pose proof Hpeer as (_ & Hpl' & _). destruct (Hr _ _ Hpl') as (_ & Hprs & _ & Hmtu).
  destruct (views_agree {| ip_buf := p |} ip) as (Hsame & _ & _); [intros j Hj; cbn; apply Hi; lia|].
  assert (Hdrop : verdict_ok r now from frame RDrop r) by (cbn; eauto 10).
  assert (Herr : ∀ ty code a b, is_u8 ty → is_u8 code → is_u8 a → is_u8 b →
    (∀ packet, error_says origin p ty code packet → answer_ok origin peer ip p packet) →
    verdict_ok r now from frame (icmp_error origin p ty code [0; 0; a; b]) r).
  { intros ty code a b Hty Hco Ha Hb Hans.
    destruct (icmp_error_spec origin p ty code 0 0 a b) as [[_ ->]|(_ & packet & -> & Hs)];
      try done; [lia|auto with vmlab|]. cbn. eauto 12. }
  unfold to_peer. destruct (ip_dst ip =? leg_gw_ip peer) eqn:E1; bsplit.
  { destruct (icmp_echo_reply_for p) as [reply|] eqn:Er; do 2 eexists; (split; [reflexivity|]); [|done].
    cbn. split; [done|]. split; [done|]. exists ip, p, peer. split_and!; try done. by left. }
  destruct (_ || _) eqn:E2; [do 2 eexists; split; [reflexivity|done]|]. apply orb_false_iff in E2 as [E2 E3]. bsplit.
  destruct (ttl ip <=? 1) eqn:E4; bsplit.
  { do 2 eexists. split; [reflexivity|].
    apply Herr; try (unfold ICMP_TIME_EXCEEDED; ints; lia). intros packet Hs. right. by left. }
  destruct (leg_mtu peer <? len p) eqn:E5; bsplit.
  { do 2 eexists. split; [reflexivity|]. destruct (dont_fragment ip) eqn:Edf; [|done].
    apply Herr; try (unfold ICMP_DEST_UNREACHABLE, ICMP_FRAG_NEEDED; ints; lia);
      [by apply is_u8_div16|apply is_u8_mod|]. intros packet Hs. right. right. split; [lia|done]. }
  destruct (eval_return_total (leg_rules peer) now (decrement_ttl p)) as (v & rs' & Hev & _).
  { done. } { by apply decrement_ttl_spec; [| |lia]. }
  rewrite Hev. cbn [mbind outcome_bind fst snd]. do 2 eexists. split; [reflexivity|]. cbn.
  exists ip, p, rs'. split; [done|]. split; [by eexists|]. split; [done|]. split; [|done].
  split_and!; [done|done|done|lia|lia|]. by eapply hop_forwarded.
Qed.

(** ** The table *)

(** What the routes a segment offers depend on. *)
Definition leg_shape l : Net * Ipv4Addr * list (Net * Ipv4Addr) := (leg_subnet l, leg_gw_ip l, declared_routes l).
Definition same_shapes r r' : Prop :=
  pairs r = pairs r' ∧ ∀ n, leg_shape <$> legs r !! n = leg_shape <$> legs r' !! n.

Lemma shape_subnets r r' (ps : list (bytes * bytes)) name :
  (∀ n, leg_subnet <$> legs r !! n = leg_subnet <$> legs r' !! n) →
  leg_subnet <$> omap (λ p, other ← other_end name p; legs r !! other) ps =
  leg_subnet <$> omap (λ p, other ← other_end name p; legs r' !! other) ps.
Proof.
  intros Hs. induction ps as [|p ps IH]; [done|]. cbn. destruct (other_end name p) as [other|]; cbn; [|done].
  specialize (Hs other). destruct (legs r !! other), (legs r' !! other); cbn in *; simplify_eq; [|done].
  f_equal; [done|exact IH].
Qed.
Lemma same_shapes_subnets r r' :
  same_shapes r r' → ∀ n, leg_subnet <$> legs r !! n = leg_subnet <$> legs r' !! n.
Proof.
  intros [_ Hs] n. specialize (Hs n).
  destruct (legs r !! n), (legs r' !! n); cbn in *; simplify_eq; [|done]. unfold leg_shape in *. congruence.
Qed.

Lemma dhcp_routes_shape r r' seg : same_shapes r r' → dhcp_routes_of r seg = dhcp_routes_of r' seg.
Proof.
  intros Hs. pose proof (shape_subnets r r' (pairs r) seg (same_shapes_subnets _ _ Hs)) as Hsub.
  destruct Hs as [Hp Hs]. unfold dhcp_routes_of, peers_of. specialize (Hs seg).
  destruct (legs r !! seg) as [l|], (legs r' !! seg) as [l'|]; cbn in Hs; simplify_eq; [|done].
  rewrite <-Hp, Hsub. unfold leg_shape in *. simplify_eq. congruence.
Qed.

(** Every DHCP server offers the routes of the table. *)
Definition coherent_at r (name : bytes) : Prop :=
  ∀ l d, legs r !! name = Some l → leg_dhcp l = Some d → routes (config d) = dhcp_routes_of r name.
Record table_inv r : Prop := {
  ti_names : ∀ n l, legs r !! n = Some l → leg_name l = n;
  ti_ends : ∀ a b, (a, b) ∈ pairs r → bytes_ltb a b = true ∧ is_Some (legs r !! a) ∧ is_Some (legs r !! b);
  ti_dhcp : ∀ n, coherent_at r n;
}.

Lemma refresh_shapes r seg : same_shapes (refresh_dhcp r seg) r.
Proof.
  unfold refresh_dhcp. destruct (legs r !! seg) as [l|] eqn:E; [|done]. destruct (leg_dhcp l); [|done].
  split; [done|]. intros n. cbn. destruct (decide (n = seg)) as [->|]; [by rewrite lookup_insert_eq, E|].
  by rewrite lookup_insert_ne.
Qed.
Lemma refresh_lookup r seg n l :
  legs (refresh_dhcp r seg) !! n = Some l →
  ∃ l0, legs r !! n = Some l0 ∧ leg_name l = leg_name l0 ∧
    (n = seg ∧ (∀ d, leg_dhcp l = Some d → routes (config d) = dhcp_routes_of r seg) ∨ l = l0).
Proof.
  unfold refresh_dhcp. destruct (legs r !! seg) as [l1|] eqn:E; [|eauto 10].
  destruct (leg_dhcp l1) as [d1|] eqn:Ed; [|eauto 10]. cbn. intros Hl.
  apply lookup_insert_Some in Hl as [[<- <-]|[Hne Hl]]; [|eauto 10].
  exists l1. split; [done|]. split; [done|]. left. split; [done|]. cbn. by intros d [= <-].
Qed.
Lemma refresh_is_Some r seg n : is_Some (legs (refresh_dhcp r seg) !! n) ↔ is_Some (legs r !! n).
Proof.
  destruct (refresh_shapes r seg) as [_ Hs]. specialize (Hs n). rewrite <-(fmap_is_Some leg_shape), Hs, fmap_is_Some.
  done.
Qed.

(** Refreshing makes a segment coherent and keeps the others so. *)
Lemma refresh_coherent r seg n : n = seg ∨ coherent_at r n → coherent_at (refresh_dhcp r seg) n.
Proof.
  intros Hn l d Hl Hd. rewrite (dhcp_routes_shape _ _ n (refresh_shapes r seg)).
  destruct (refresh_lookup _ _ _ _ Hl) as (l0 & Hl0 & _ & [[-> Hr]|E]); [by apply Hr|].
  destruct (decide (n = seg)) as [E'|E']; [|destruct Hn as [?|Hn]; [done|]; subst l0; by eapply Hn].
  subst n. unfold refresh_dhcp in Hl. rewrite Hl0 in Hl. subst l0. rewrite Hd in Hl. cbn in Hl.
  rewrite lookup_insert_eq in Hl. injection Hl as Hl. rewrite <-Hl in Hd. cbn in Hd. by injection Hd as <-.
Qed.

Lemma omap_pair_insert {B} (f : bytes * bytes → option B) k s :
  f k = None → omap f (pair_insert k s) = omap f s.
Proof.
  intros Hk. induction s as [|x s IH]; cbn; [by rewrite Hk|].
  destruct (pair_ltb k x); cbn; [by rewrite Hk|]. destruct (f x); [f_equal|]; exact IH.
Qed.
Lemma omap_pair_remove {B} (f : bytes * bytes → option B) k s :
  f k = None → omap f (pair_remove k s) = omap f s.
Proof.
  intros Hk. unfold pair_remove. induction s as [|x s IH]; [done|]. rewrite filter_cons.
  destruct (decide (x ≠ k)) as [|Hx]; cbn; [destruct (f x); [f_equal|]; exact IH|].
  apply dec_stable in Hx as ->. rewrite Hk. exact IH.
Qed.
Lemma elem_of_pair_insert k s x : x ∈ pair_insert k s ↔ x = k ∨ x ∈ s.
Proof.
  induction s as [|y s IH]; cbn; [set_solver|]. destruct (pair_ltb k y); set_solver.
Qed.

(** Changing the pair [a], [b] leaves the routes of every other segment. *)
Lemma set_pair_others r ps a b key n :
  key = (a, b) ∨ key = (b, a) → n ≠ a → n ≠ b →
  ps = pair_insert key (pairs r) ∨ ps = pair_remove key (pairs r) →
  dhcp_routes_of (mkInner (legs r) ps) n = dhcp_routes_of r n.
Proof.
  intros Hk Ha Hb Hps. unfold dhcp_routes_of. cbn [legs]. destruct (legs r !! n); [|done]. do 2 f_equal.
  assert (Hn : (other ← other_end n key; legs r !! other) = None).
  { unfold other_end. destruct Hk as [-> | ->]; cbn; by rewrite !bool_decide_eq_false_2 by done. }
  f_equal. unfold peers_of. cbn [legs pairs].
  destruct Hps as [-> | ->]; [by apply omap_pair_insert|by apply omap_pair_remove].
Qed.

Definition pair_key (a b : bytes) : bytes * bytes := if bytes_ltb a b then (a, b) else (b, a).
Lemma pair_key_ltb a b : a ≠ b → bytes_ltb (pair_key a b).1 (pair_key a b).2 = true.
Proof.
  intros Hne. unfold pair_key. destruct (bytes_ltb a b) eqn:E; cbn; [done|].
  unfold bytes_ltb in *. apply negb_false_iff in E. apply negb_true_iff.
  destruct (bytes_leb a b) eqn:E2; [|done]. exfalso. apply Hne. by apply bytes_leb_antisym.
Qed.

Lemma set_pair_inv r a b c r' : table_inv r → set_pair r a b c = inr r' → table_inv r'.
Proof.
  intros [Hn He Hd]. unfold set_pair. do 3 (case_bool_decide; [done|]).
  fold (pair_key a b). set (key := pair_key a b).
  assert (Hkey : key = (a, b) ∨ key = (b, a)) by (unfold key, pair_key; destruct (bytes_ltb a b); auto).
  destruct (Bool.eqb _ c); [intros [= <-]; by split|]. intros [= <-].
  set (ps := if c then pair_insert key (pairs r) else pair_remove key (pairs r)).
  assert (Hps : ps = pair_insert key (pairs r) ∨ ps = pair_remove key (pairs r)) by (unfold ps; destruct c; auto).
  assert (Hmem : ∀ x, x ∈ ps → x = key ∨ x ∈ pairs r).
  { intros x. unfold ps. destruct c; [by rewrite elem_of_pair_insert|].
    unfold pair_remove. rewrite list_elem_of_filter. tauto. }
  set (r1 := mkInner (legs r) ps).
  assert (Hc1 : ∀ n, n ≠ a → n ≠ b → coherent_at r1 n).
  { intros n Na Nb l d Hl Hdh. unfold r1. rewrite (set_pair_others r ps a b key n) by done. by eapply Hd. }
  split.
  - intros n l Hl. destruct (refresh_lookup _ _ _ _ Hl) as (l1 & Hl1 & -> & _).
    destruct (refresh_lookup _ _ _ _ Hl1) as (l0 & Hl0 & -> & _). by apply Hn.
  - intros x y Hxy. rewrite !refresh_is_Some.
    destruct (refresh_shapes (refresh_dhcp r1 a) b) as [E1 _]. destruct (refresh_shapes r1 a) as [E2 _].
    rewrite E1, E2 in Hxy. cbn in Hxy. apply Hmem in Hxy as [E|Hxy]; [|by apply He].
    split; [pose proof (pair_key_ltb a b ltac:(done)) as Hlt; fold key in Hlt; by rewrite <-E in Hlt|].
    cbn. rewrite <-!not_eq_None_Some. destruct Hkey as [Hk|Hk]; rewrite Hk in E; by injection E as -> ->.
  - intros n. apply refresh_coherent. destruct (decide (n = b)); [by left|]. right.
    apply refresh_coherent. destruct (decide (n = a)); [by left|]. right. by apply Hc1.
Qed.

(** Replacing legs by legs of the same shape, name and DHCP server. *)
Lemma put_leg_inv r l l0 :
  table_inv r → legs r !! leg_name l = Some l0 → leg_shape l = leg_shape l0 → leg_dhcp l = leg_dhcp l0 →
  table_inv (put_leg r l).
Proof.
  intros [Hn He Hd] Hl Hs Hdh.
  assert (Hsh : same_shapes (put_leg r l) r).
  { split; [done|]. intros n. cbn. destruct (decide (n = leg_name l)) as [->|].
    - rewrite lookup_insert_eq, Hl. cbn. by f_equal.
    - by rewrite lookup_insert_ne. }
  split.
  - intros n x Hx. cbn in Hx. apply lookup_insert_Some in Hx as [[<- <-]|[_ Hx]]; [done|by apply Hn].
  - intros a b Hab. destruct (He a b Hab) as (Hlt & Ha & Hb). split; [done|].
    destruct Hsh as [_ Hsh]. rewrite <-!(fmap_is_Some leg_shape), !Hsh, !fmap_is_Some. done.
  - intros n x d Hx Hxd. rewrite (dhcp_routes_shape _ _ n Hsh). cbn in Hx.
    apply lookup_insert_Some in Hx as [[<- <-]|[_ Hx]]; [|by eapply Hd].
    eapply Hd; [exact Hl|congruence].
Qed.

Lemma register_inv r l :
  table_inv r → (∀ old, legs r !! leg_name l = Some old → leg_subnet old = leg_subnet l) →
  table_inv (register_leg r l).
Proof.
  intros [Hn He Hd] Hold. unfold register_leg. set (r1 := put_leg r l).
  assert (Hsome : ∀ n, is_Some (legs r !! n) → is_Some (legs r1 !! n)).
  { intros n Hx. cbn. destruct (decide (n = leg_name l)) as [->|]; [by rewrite lookup_insert_eq|by rewrite lookup_insert_ne]. }
  assert (Hsub : ∀ n, n ≠ leg_name l → dhcp_routes_of r1 n = dhcp_routes_of r n).
  { intros n Hne. unfold dhcp_routes_of, peers_of, r1. cbn [legs pairs put_leg].
    rewrite lookup_insert_ne by done. destruct (legs r !! n); [|done]. do 2 f_equal.
    assert (Hx : ∀ ps : list (bytes * bytes), (∀ p, p ∈ ps → p ∈ pairs r) →
      leg_subnet <$> omap (λ p, other ← other_end n p; <[leg_name l:=l]> (legs r) !! other) ps =
      leg_subnet <$> omap (λ p, other ← other_end n p; legs r !! other) ps); [|by apply Hx].
    induction ps as [|p ps IH]; intros Hps; [done|]. cbn. destruct (other_end n p) as [o|] eqn:Eo; cbn; [|apply IH; set_solver].
    assert (Ho : is_Some (legs r !! o)).
    { destruct p as [x y]. destruct (He x y) as (_ & Hx & Hy); [apply Hps; left|].
      apply other_end_spec in Eo as [[= -> ->]|[= -> ->]]; done. }
    destruct (decide (o = leg_name l)) as [->|].
    - rewrite lookup_insert_eq. destruct Ho as [old Ho]. rewrite Ho. cbn. f_equal; [by rewrite (Hold old)|]. apply IH. set_solver.
    - rewrite lookup_insert_ne by done. destruct (legs r !! o); cbn; [f_equal|]; apply IH; set_solver. }
  split.
  - intros n x Hx. destruct (refresh_lookup _ _ _ _ Hx) as (l0 & Hl0 & -> & _). cbn in Hl0.
    apply lookup_insert_Some in Hl0 as [[<- <-]|[_ Hl0]]; [done|by apply Hn].
  - intros a b Hab. rewrite !refresh_is_Some. destruct (refresh_shapes r1 (leg_name l)) as [E _]. rewrite E in Hab.
    destruct (He a b Hab) as (Hlt & Ha & Hb). auto.
  - intros n. apply refresh_coherent. destruct (decide (n = leg_name l)) as [->|Hne]; [by left|]. right.
    intros x d Hx Hxd. rewrite Hsub by done. cbn in Hx. rewrite lookup_insert_ne in Hx by done. by eapply Hd.
Qed.

Lemma to_peer_inv r now origin peer ip p d r' :
  table_inv r → legs r !! leg_name peer = Some peer → to_peer r now origin peer ip p = Ret (d, r') → table_inv r'.
Proof.
  intros Hi Hp. unfold to_peer. repeat (case_goal; [by intros [= _ <-]|]).
  destruct (eval_return _ _ _) as [[v rs]|]; cbn; [|done]. intros [= _ <-]. by eapply put_leg_inv.
Qed.
Lemma decide_route_inv r now from frame d r' :
  table_inv r → decide_route r now from frame = Ret (d, r') → table_inv r'.
Proof.
  intros Hi. unfold decide_route. destruct (routed_packet frame) as [[ip p]|]; [|by intros [= _ <-]].
  destruct (legs r !! from) as [origin|]; [|by intros [= _ <-]].
  destruct (list_find _ _) as [[i peer]|] eqn:E; [|by intros [= _ <-]].
  apply to_peer_inv; [done|]. apply list_find_Some in E as (E & _). apply list_elem_of_lookup_2 in E.
  apply elem_of_peers in E as (other & _ & Hl). by rewrite (ti_names r Hi other peer Hl).
Qed.
Lemma route_inv r now from frame b r' out :
  table_inv r → route r now from frame = Ret (b, r', out) → table_inv r'.
Proof.
  intros Hi. unfold route. destruct (decide_route r now from frame) as [[d r1]|] eqn:Ed; cbn; [|done].
  pose proof (decide_route_inv _ _ _ _ _ _ Hi Ed) as Hi1. destruct d as [|to packet|on packet|].
  - by intros [= _ <- _].
  - destruct (ip_dst <$> _); [|by intros [= _ <- _]]. destruct (legs r1 !! leg_name to) as [l|] eqn:El; [|by intros [= _ <- _]].
    destruct (send_ip _ _ _ _ _ _) as [n frames]. intros [= _ <- _].
    apply (put_leg_inv r1 _ l); [done| |done|done]. cbn. rewrite (ti_names r1 Hi1 _ l El). done.
  - destruct (EthView_parse frame); by intros [= _ <- _].
  - by intros [= _ <- _].
Qed.

(** ** Connections *)

Lemma connected_linked r a b : table_inv r → connected r a b = true ↔ linked r a b.
Proof.
  intros Hi. unfold connected. rewrite bool_decide_eq_true, Exists_exists. split.
  - intros (l & Hl & Hn). apply elem_of_peers in Hl as (other & Hlk & Hl).
    apply (ti_names r Hi) in Hl. congruence.
  - intros Hlk. assert (Hb : is_Some (legs r !! b)).
    { destruct Hlk as [Hp|Hp]; apply (ti_ends r Hi) in Hp; tauto. }
    destruct Hb as [l Hl]. exists l. split; [apply elem_of_peers; eauto|by apply (ti_names r Hi)].
Qed.

(** Changing the table keeps its legs well-formed. *)
Lemma refresh_router_ok r seg : router_ok r → router_ok (refresh_dhcp r seg).
Proof.
  intros Hr. unfold refresh_dhcp. destruct (legs r !! seg) as [l|] eqn:E; [|done]. destruct (leg_dhcp l); [|done].
  apply map_Forall_insert_2; [exact (Hr seg l E)|exact Hr].
Qed.
Lemma register_router_ok r l : router_ok r → leg_ok (leg_name l) l → router_ok (register_leg r l).
Proof. intros Hr Hl. apply refresh_router_ok, map_Forall_insert_2; done. Qed.
Lemma set_pair_router_ok r a b c r' : router_ok r → set_pair r a b c = inr r' → router_ok r'.
Proof.
  intros Hr. unfold set_pair. do 3 (case_bool_decide; [done|]).
  destruct (Bool.eqb _ c); intros [= <-]; [done|]. by do 2 apply refresh_router_ok.
Qed.

Lemma add_routes_keeps rs gw (peers : list Net) x :
  Exists (λ e, e.1 = x) rs → Exists (λ e, e.1 = x) (add_routes rs gw peers).
Proof.
  revert rs. induction peers as [|y peers IH]; intros rs Hx; [done|]. cbn.
  case_bool_decide; apply IH; [done|]. apply Exists_app. by left.
Qed.
Lemma add_routes_covers rs gw (peers : list Net) x : x ∈ peers → Exists (λ e, e.1 = x) (add_routes rs gw peers).
Proof.
  revert rs. induction peers as [|y peers IH]; intros rs Hx; [set_solver|]. cbn.
  apply elem_of_cons in Hx as [<-|Hx]; [|case_bool_decide; by apply IH].
  case_bool_decide; apply add_routes_keeps; [done|]. apply Exists_app. right. by constructor.
Qed.
Lemma dhcp_routes_cover r a b la lb :
  table_inv r → legs r !! a = Some la → legs r !! b = Some lb → linked r a b →
  Exists (λ x, x.1 = leg_subnet lb) (dhcp_routes_of r a).
Proof.
  intros Hi Ha Hb Hlk. unfold dhcp_routes_of. rewrite Ha. apply add_routes_covers.
  rewrite (merge_sort_Permutation net_le). apply list_elem_of_fmap. exists lb. split; [done|].
  apply elem_of_peers. eauto.
Qed.

Lemma refresh_pairs r seg : pairs (refresh_dhcp r seg) = pairs r.
Proof. by destruct (refresh_shapes r seg). Qed.
Lemma connect_linked r a b r' : connect r a b = inr r' → linked r' a b.
Proof.
  unfold connect, set_pair. do 3 (case_bool_decide; [done|]). fold (pair_key a b).
  assert (Hk : ∀ ps : list (bytes * bytes), pair_key a b ∈ ps → (a, b) ∈ ps ∨ (b, a) ∈ ps)
    by (intros ps; unfold pair_key; destruct (bytes_ltb a b); auto).
  case_bool_decide as Hin; cbn; intros [= <-]; unfold linked; [by apply Hk|].
  rewrite !refresh_pairs. cbn [pairs]. apply Hk. apply elem_of_pair_insert. by left.
Qed.
Lemma disconnect_unlinked r a b r' : table_inv r → disconnect r a b = inr r' → ¬ linked r' a b.
Proof.
  intros Hi. unfold disconnect, set_pair. case_bool_decide as Hab; [done|]. do 2 (case_bool_decide; [done|]).
  fold (pair_key a b).
  assert (Hk : ∀ x, x ∈ pairs r → x = (a, b) ∨ x = (b, a) → x = pair_key a b).
  { intros [x y] Hx Hxy. destruct (ti_ends r Hi x y Hx) as (Hlt & _). unfold pair_key.
    destruct Hxy as [[= -> ->]|[= -> ->]]; [by rewrite Hlt|].
    unfold bytes_ltb in *. apply negb_true_iff in Hlt.
    by rewrite (bytes_leb_total a b Hlt). }
  case_bool_decide as Hin; cbn; intros [= <-]; unfold linked.
  - rewrite !refresh_pairs. cbn [pairs]. unfold pair_remove. rewrite !list_elem_of_filter. intros [[Hne Hx]|[Hne Hx]]; apply Hne, Hk; auto.
  - intros [Hx|Hx]; apply Hin; [rewrite <-(Hk (a, b))|rewrite <-(Hk (b, a))]; auto.
Qed.
End facts.

(** ** Theorems *)

(** C12: routing is confined to connected pairs, and every verdict is right.
    [decide] returns on every frame without a panic. A packet is forwarded
    only to a segment connected with the one it came from and whose subnet
    contains its destination, never to that segment's gateway, network or
    broadcast address, only with more than one hop left and within the MTU;
    it leaves with one hop less, a valid header checksum, the same
    destination, length and protocol, and the source and payload it had
    unless the peer's return translation rewrote it. Answers go to the
    sender's own segment: an echo reply for the peer's gateway, time exceeded,
    or fragmentation needed. A frame is handed back only when no connected
    segment has its destination. *)
Theorem router_verdicts {Net} `{Ipv4NetOps Net} (r : Inner Net) (now : Z) (from frame : bytes) :
  bytes_ok frame → router_ok r →
  ∃ d r', decide_route r now from frame = Ret (d, r') ∧ verdict_ok r now from frame d r'.
Proof. apply decide_route_ok. Qed.

(** The life of a routing table. A segment registered again keeps its
    subnet. *)
Inductive router_step {Net} `{Ipv4NetOps Net} : Inner Net → Inner Net → Prop :=
| rt_register r l :
    (∀ old, legs r !! leg_name l = Some old → leg_subnet old = leg_subnet l) → router_step r (register_leg r l)
| rt_set r a b c r' : set_pair r a b c = inr r' → router_step r r'
| rt_route r now from frame b r' out : route r now from frame = Ret (b, r', out) → router_step r r'.

(** C27: the routing table stays coherent. Over any sequence of
    registrations, connections, disconnections and routed frames: being
    connected is symmetric; every segment's DHCP server offers exactly the
    routes of the table, among them the subnet of every connected segment;
    connecting two segments connects them and disconnecting takes them
    apart. *)
Theorem router_table_coherent {Net} `{Ipv4NetOps Net} (r : Inner Net) (a b : bytes) :
  rtc router_step Router_new r →
  connected r a b = connected r b a ∧
  (∀ l d, legs r !! a = Some l → leg_dhcp l = Some d → routes (config d) = dhcp_routes_of r a) ∧
  (∀ la lb, legs r !! a = Some la → legs r !! b = Some lb → connected r a b = true →
     ∃ via, (leg_subnet lb, via) ∈ dhcp_routes_of r a) ∧
  (∀ r', connect r a b = inr r' → connected r' a b = true ∧ connected r' b a = true) ∧
  (∀ r', disconnect r a b = inr r' → connected r' a b = false ∧ connected r' b a = false).
Proof.
  intros Hr. assert (Hi : table_inv r).
  { refine (rtc_preserves router_step table_inv _ _ _ Hr _).
    - intros x y Hx Hs. inversion Hs; subst; [by apply register_inv|by eapply set_pair_inv|by eapply route_inv].
    - split; [intros n l Hl|intros x y Hx|intros n l d Hl]; cbn in *; [by rewrite lookup_empty in Hl|set_solver|by rewrite lookup_empty in Hl]. }
  assert (Hsym : ∀ x : Inner Net, linked x a b ↔ linked x b a) by (intros x; unfold linked; tauto).
  split_and!.
  - apply Bool.eq_true_iff_eq. rewrite !connected_linked by done. apply Hsym.
  - intros l d Hl Hd. by eapply (ti_dhcp r Hi).
  - intros la lb Ha Hb Hc. apply connected_linked in Hc; [|done].
    pose proof (dhcp_routes_cover r a b la lb Hi Ha Hb Hc) as Hx. apply Exists_exists in Hx as ([n via] & Hx & E).
    cbn in E. subst. eauto.
  - intros r' Hc. pose proof (set_pair_inv _ _ _ _ _ Hi Hc) as Hi'. pose proof (connect_linked _ _ _ _ Hc) as Hl.
    rewrite !connected_linked by done. split; [done|by apply Hsym].
  - intros r' Hc. pose proof (set_pair_inv _ _ _ _ _ Hi Hc) as Hi'. pose proof (disconnect_unlinked _ _ _ _ Hi Hc) as Hl.
    rewrite <-!not_true_iff_false, !connected_linked by done. split; [done|by rewrite <-Hsym].
Qed.

(** ** Witnesses *)

Definition seg_a : bytes := [97].
Definition seg_b : bytes := [98].
Definition sample_leg (name : bytes) (net : cidr) (gw : Ipv4Addr) : Leg cidr :=
  mkLeg name net gw 1500 (mkL3Port gw (gateway_mac [108] name) Neighbours_default) RuleSet_new
    (Some (DhcpServer_new (DhcpConfig_new net gw (gateway_mac [108] name)))) [].
Definition leg_a : Leg cidr := sample_leg seg_a (Cidr 0x0A000000 24) 0x0A000001.
Definition leg_b : Leg cidr := sample_leg seg_b (Cidr 0x0A010000 24) 0x0A010001.
Definition sample_registered : Inner cidr := register_leg (register_leg Router_new leg_a) leg_b.
Definition sample_router : Inner cidr :=
  match connect sample_registered seg_b seg_a with inr r => r | inl _ => sample_registered end.
Definition sample_frame : bytes :=
  default [] (udp_frame (gateway_mac [108] seg_a) [2; 0; 0; 0; 0; 5] 0x0A000005 0x0A010007 1000 2000 64 1 [1; 2; 3]).

Lemma sample_leg_ok name net gw : is_u32 gw → leg_ok name (sample_leg name net gw).
Proof. intros Hg. split; [done|]. split; [apply ruleset_new_ok|]. split; [done|concrete]. Qed.
Lemma sample_registered_ok : router_ok sample_registered.
Proof. repeat apply register_router_ok; [apply map_Forall_empty|apply sample_leg_ok; concrete..]. Qed.
Lemma sample_connects : connect sample_registered seg_b seg_a = inr sample_router.
Proof.
  unfold sample_router. destruct (connect sample_registered seg_b seg_a) as [e|r] eqn:E; [|done]. exfalso.
  apply (f_equal (λ x, match x with inl _ => true | inr _ => false end)) in E. vm_compute in E. discriminate E.
Qed.
Lemma sample_router_ok : router_ok sample_router.
Proof. exact (set_pair_router_ok _ _ _ _ _ sample_registered_ok sample_connects). Qed.

Lemma router_verdicts_witness :
  ∃ to packet r', decide_route sample_router 0 seg_a sample_frame = Ret (RForward to packet, r') ∧
    linked sample_router seg_a (leg_name to) ∧
    ∃ v, Ipv4View_parse packet = Some v ∧ ttl v = 63 ∧ ip_checksum_valid v = true.
Proof.
  destruct (router_verdicts sample_router 0 seg_a sample_frame) as (d & r' & Hd & Hv);
    [concrete|exact sample_router_ok|].
  assert (Hf : match decide_route sample_router 0 seg_a sample_frame with
               | Ret (RForward _ _, _) => true | _ => false end = true) by (vm_compute; reflexivity).
  rewrite Hd in Hf. destruct d as [|to packet| |]; try discriminate Hf.
  exists to, packet, r'. split; [exact Hd|].
  destruct Hv as (ip & p & rs & Hp & _ & (Hl & _) & (_ & _ & _ & _ & _ & v & Hv & _ & Ht & Hc & _) & _).
  split; [exact Hl|]. exists v. split; [exact Hv|]. split; [|exact Hc]. rewrite Ht.
  assert (Hi : ttl <$> (fst <$> routed_packet sample_frame) = Some 64) by (vm_compute; reflexivity).
  rewrite Hp in Hi. injection Hi as ->. reflexivity.
Defined.

Lemma sample_router_reachable : rtc router_step Router_new sample_router.
Proof.
  eapply rtc_l; [apply (rt_register Router_new leg_a)|].
  { intros old Ho. cbn in Ho. by rewrite lookup_empty in Ho. }
  eapply rtc_l; [apply (rt_register _ leg_b)|].
  { intros old Ho. vm_compute in Ho. discriminate Ho. }
  apply rtc_once. exact (rt_set _ seg_b seg_a true _ sample_connects).
Qed.
Lemma router_table_coherent_witness :
  connected sample_router seg_a seg_b = true ∧
  connected sample_router seg_a seg_b = connected sample_router seg_b seg_a ∧
  ∀ l d, legs sample_router !! seg_a = Some l → leg_dhcp l = Some d →
    routes (config d) = dhcp_routes_of sample_router seg_a.
Proof.
  split; [vm_compute; reflexivity|].
  pose proof (router_table_coherent sample_router seg_a seg_b sample_router_reachable) as (H1 & H2 & _).
  split; [exact H1|exact H2].
Defined.
