(* ===== verification/NatEngine.v ===== *)
(** * The NAT engine's state and shared helpers ([src/net/nat/mod.rs], [src/net/nat/guard.rs])

    The tables the engine's tasks share, the helpers every protocol module
    calls (frame emission, identification counter, ephemeral ports, learned
    MACs, flow-table slots) and the host guard of worktree isolation. An
    [mpsc] channel is a handle [Chan]; the engine counts the handles it has
    made. The frames given to the [output] channel are the list [output]. *)

From S2P Require Import Prelude Checksum Frame.

(** ** The host guard *)

Module Guard.

Definition REFRESH : Z := 1 * 1000000000.
Definition LOCALHOST : Ipv4Addr := 0x7F000001.

Inductive FlowKind := Tcp (port : Z) | Udp (port : Z) | Icmp.

(** [Ipv4Addr::is_loopback]: 127.0.0.0/8. *)
Definition is_loopback (ip : Ipv4Addr) : bool := idx (octets ip) 0 =? 127.
Definition is_host_address (dst : Ipv4Addr) (host_addrs : gset Ipv4Addr) : bool :=
  is_loopback dst || (idx (octets dst) 0 =? 0) || bool_decide (dst ∈ host_addrs).

Definition refuses_flow (dst : Ipv4Addr) (kind : FlowKind) (host_addrs : gset Ipv4Addr)
    (exposed : list Z) : bool :=
  match kind with
  | Tcp port =>
      if (dst =? LOCALHOST) && bool_decide (port ∈ exposed) then false
      else is_host_address dst host_addrs
  | _ => is_host_address dst host_addrs
  end.

(** The cached interface addresses and the lab's own host services. The source
    shares the list of services with the code that starts them; here it is what
    it is when the engine runs. *)
Record HostGuard := mkGuard {
  cache : option (Z * gset Ipv4Addr);
  exposed : list Z }.
Definition HostGuard_new (exposed : list Z) : HostGuard := mkGuard None exposed.

(** [addresses] at [now], where reading the interfaces gives [read]. *)
Definition addresses (g : HostGuard) (now : Z) (read : gset Ipv4Addr) : HostGuard * gset Ipv4Addr :=
  match cache g with
  | Some (at_, addrs) =>
      if Z.max 0 (now - at_) <? REFRESH then (g, addrs)
      else (mkGuard (Some (now, read)) (exposed g), read)
  | None => (mkGuard (Some (now, read)) (exposed g), read)
  end.
Definition refuses (g : HostGuard) (now : Z) (read : gset Ipv4Addr) (dst : Ipv4Addr) (kind : FlowKind)
    : HostGuard * bool :=
  let '(g, addrs) := addresses g now read in
  (g, refuses_flow dst kind addrs (exposed g)).

End Guard.

(** ** Flow identities and the engine *)

Record FlowKey := mkKey { guest_ip : Ipv4Addr; guest_port : Z; dst_ip : Ipv4Addr; dst_port : Z }.
#[global] Instance FlowKey_eq_dec : EqDecision FlowKey.
Proof. solve_decision. Defined.
#[global] Program Instance FlowKey_countable : Countable FlowKey :=
  inj_countable' (λ k, (guest_ip k, guest_port k, dst_ip k, dst_port k))
                 (λ t, mkKey t.1.1.1 t.1.1.2 t.1.2 t.2) _.
Next Obligation. by intros []. Qed.

Record NatConfig := mkNatConfig { nat_gw_ip : Ipv4Addr; nat_gw_mac : MacAddr; nat_mtu : Z }.
Definition NatConfig_new (gw_ip : Ipv4Addr) (gw_mac : MacAddr) : NatConfig := mkNatConfig gw_ip gw_mac 1500.

Definition Chan : Type := nat.
Definition GuestUdpKey : Type := Ipv4Addr * Z * Z.

(** A live outbound UDP flow: the handle of its shared socket; when it was
    last used is the [last_used] cell of that handle. *)
Definition UdpFlow : Type := Chan.

(** Reachability cache and probes in flight ([icmp.rs]). *)
Record IcmpState := mkIcmp {
  icmp_cache : gmap Ipv4Addr (bool * Z);
  icmp_pending : gset Ipv4Addr }.

Record NatEngine := mkEngine {
  cfg : NatConfig;
  output : list bytes;
  tcp_flows : gmap FlowKey Chan;
  udp_flows : gmap FlowKey UdpFlow;
  last_used : gmap UdpFlow Z;
  guest_udp : gmap GuestUdpKey Chan;
  macs : gmap Ipv4Addr MacAddr;
  icmp : IcmpState;
  guard : option Guard.HostGuard;
  ip_id_ctr : Z;
  eph_counter : Z;
  eph_span : Z;
  chans : nat }.

Definition set_output e o := mkEngine (cfg e) o (tcp_flows e) (udp_flows e) (last_used e) (guest_udp e) (macs e)
  (icmp e) (guard e) (ip_id_ctr e) (eph_counter e) (eph_span e) (chans e).
Definition set_tcp_flows e t := mkEngine (cfg e) (output e) t (udp_flows e) (last_used e) (guest_udp e) (macs e)
  (icmp e) (guard e) (ip_id_ctr e) (eph_counter e) (eph_span e) (chans e).
Definition set_udp_flows e t u := mkEngine (cfg e) (output e) (tcp_flows e) t u (guest_udp e) (macs e)
  (icmp e) (guard e) (ip_id_ctr e) (eph_counter e) (eph_span e) (chans e).
Definition set_guest_udp e t := mkEngine (cfg e) (output e) (tcp_flows e) (udp_flows e) (last_used e) t (macs e)
  (icmp e) (guard e) (ip_id_ctr e) (eph_counter e) (eph_span e) (chans e).
Definition set_macs e t := mkEngine (cfg e) (output e) (tcp_flows e) (udp_flows e) (last_used e) (guest_udp e) t
  (icmp e) (guard e) (ip_id_ctr e) (eph_counter e) (eph_span e) (chans e).
Definition set_icmp e t := mkEngine (cfg e) (output e) (tcp_flows e) (udp_flows e) (last_used e) (guest_udp e) (macs e)
  t (guard e) (ip_id_ctr e) (eph_counter e) (eph_span e) (chans e).
Definition put_guard e g := mkEngine (cfg e) (output e) (tcp_flows e) (udp_flows e) (last_used e) (guest_udp e) (macs e)
  (icmp e) g (ip_id_ctr e) (eph_counter e) (eph_span e) (chans e).
Definition set_ip_id e n := mkEngine (cfg e) (output e) (tcp_flows e) (udp_flows e) (last_used e) (guest_udp e) (macs e)
  (icmp e) (guard e) n (eph_counter e) (eph_span e) (chans e).
Definition set_eph_counter e n := mkEngine (cfg e) (output e) (tcp_flows e) (udp_flows e) (last_used e) (guest_udp e)
  (macs e) (icmp e) (guard e) (ip_id_ctr e) n (eph_span e) (chans e).
Definition set_chans e n := mkEngine (cfg e) (output e) (tcp_flows e) (udp_flows e) (last_used e) (guest_udp e)
  (macs e) (icmp e) (guard e) (ip_id_ctr e) (eph_counter e) (eph_span e) n.

Definition EPHEMERAL_BASE : Z := 49152.
Definition EPHEMERAL_PORTS : Z := 16384.

Definition NatEngine_new (c : NatConfig) : NatEngine :=
  mkEngine c [] ∅ ∅ ∅ ∅ ∅ (mkIcmp ∅ ∅) None 1 0 EPHEMERAL_PORTS 0.

(** A fresh channel: [mpsc::channel]. *)
Definition channel (e : NatEngine) : NatEngine * Chan := (set_chans e (S (chans e)), chans e).

(** [set_guard]: set once, a second call is ignored. *)
Definition set_guard (e : NatEngine) (g : Guard.HostGuard) : NatEngine :=
  match guard e with Some _ => e | None => put_guard e (Some g) end.
(** [refused], at [now] with [read] on the host's interfaces. *)
Definition refused (e : NatEngine) (now : Z) (read : gset Ipv4Addr) (dst : Ipv4Addr)
    (kind : Guard.FlowKind) : NatEngine * bool :=
  match guard e with
  | None => (e, false)
  | Some g => let '(g, r) := Guard.refuses g now read dst kind in (put_guard e (Some g), r)
  end.

Definition learn_mac (e : NatEngine) (ip : Ipv4Addr) (mac : MacAddr) : NatEngine :=
  set_macs e (<[ip := mac]> (macs e)).
Definition guest_mac (e : NatEngine) (ip : Ipv4Addr) : MacAddr := default MAC_BROADCAST (macs e !! ip).

(** [fetch_add] on an [AtomicU16] and an [AtomicU32] wraps. *)
Definition next_ip_id (e : NatEngine) : NatEngine * Z :=
  (set_ip_id e (wrap16 (ip_id_ctr e + 1)), ip_id_ctr e).
Definition next_ephemeral (e : NatEngine) : NatEngine * Z :=
  (set_eph_counter e (wadd32 (eph_counter e) 1),
   EPHEMERAL_BASE + wrap16 (eph_counter e mod eph_span e)).

Definition send_frame (e : NatEngine) (dst : MacAddr) (ipv4_packet : bytes) : NatEngine :=
  set_output e (output e ++ [eth_build dst (nat_gw_mac (cfg e)) ETHERTYPE_IPV4 ipv4_packet]).

(** [send_udp_to_guest]: the identification is taken only when the UDP segment was built. *)
Definition send_udp_to_guest (e : NatEngine) (dst : MacAddr) (src_ip src_port dst_ip dst_port : Z)
    (payload : bytes) : NatEngine :=
  match udp_build src_ip dst_ip src_port dst_port payload with
  | None => e
  | Some seg =>
      let '(e, id) := next_ip_id e in
      match ipv4_build src_ip dst_ip IPPROTO_UDP 64 seg id with
      | None => e
      | Some pkt => send_frame e dst pkt
      end
  end.

(** One pass over the ephemeral range: the first port for which the table has no entry. *)
Fixpoint ephemeral_pass (taken : Z → bool) (n : nat) (e : NatEngine) : NatEngine * option Z :=
  match n with
  | O => (e, None)
  | S n =>
      let '(e, p) := next_ephemeral e in
      if taken p then ephemeral_pass taken n e else (e, Some p)
  end.

Definition alloc_active_tcp_flow (e : NatEngine) (gip : Ipv4Addr) (gport : Z) (tx : Chan)
    : NatEngine * option FlowKey :=
  let key p := mkKey gip gport (nat_gw_ip (cfg e)) p in
  let '(e, free) := ephemeral_pass (λ p, bool_decide (is_Some (tcp_flows e !! key p)))
                      (Z.to_nat (eph_span e)) e in
  match free with
  | Some p => (set_tcp_flows e (<[key p := tx]> (tcp_flows e)), Some (key p))
  | None => (e, None)
  end.
Definition remove_tcp_flow (e : NatEngine) (key : FlowKey) : NatEngine :=
  set_tcp_flows e (delete key (tcp_flows e)).
