(* ===== verification/Vtcp.v ===== *)
(** * vTCP, the in-process TCP peer of guest flows ([src/net/nat/vtcp.rs])

    Segments, the flow record with its sequence arithmetic at 32 bits, the
    reassembly queue, retransmission, the handshakes and the proxy loop. The
    loop's [select!] is a step function on events; the engine the flow shares
    with every other task is threaded explicitly and is arbitrary at each
    step. The proxied stream's write half is the class [AsyncWrite]. *)

From Stdlib Require Import Sorting.Sorted.
From S2P Require Import Prelude Checksum Frame NatEngine.

(** ** Constants (durations in nanoseconds) *)

Definition RTO : Z := 1 * 1000000000.
Definition MAX_RETRIES : Z := 5.
Definition IDLE_TIMEOUT : Z := 300 * 1000000000.
Definition ACTIVE_OPEN_TIMEOUT : Z := 10 * 1000000000.
Definition WINDOW : Z := 0xFFFF.
Definition OOO_MAX_BYTES : Z := WINDOW.

(** ** [BTreeMap] keyed by [u32]: an association list in key order *)

Section btree.
Context {V : Type}.

Fixpoint bt_get (k : Z) (m : list (Z * V)) : option V :=
  match m with
  | [] => None
  | (k', v) :: r => if k =? k' then Some v else bt_get k r
  end.
Fixpoint bt_insert (k : Z) (v : V) (m : list (Z * V)) : list (Z * V) :=
  match m with
  | [] => [(k, v)]
  | (k', v') :: r =>
      if k <? k' then (k, v) :: m
      else if k =? k' then (k, v) :: r
      else (k', v') :: bt_insert k v r
  end.
Fixpoint bt_remove (k : Z) (m : list (Z * V)) : list (Z * V) :=
  match m with
  | [] => []
  | (k', v) :: r => if k =? k' then r else (k', v) :: bt_remove k r
  end.
End btree.

(** ** Segments *)

Record Segment := mkSeg {
  sg_seq : Z; sg_ack : Z; sg_flags : Z; sg_window : Z; sg_payload : bytes; sg_mss : option Z }.

Definition seg_syn (s : Segment) : bool := negb (Z.land (sg_flags s) TCP_SYN =? 0).
Definition seg_ack (s : Segment) : bool := negb (Z.land (sg_flags s) TCP_ACK =? 0).
Definition seg_rst (s : Segment) : bool := negb (Z.land (sg_flags s) TCP_RST =? 0).
Definition seg_fin (s : Segment) : bool := negb (Z.land (sg_flags s) TCP_FIN =? 0).

(** The option scan consumes at least one byte per turn: [fuel] is the
    length of the options. *)
Fixpoint parse_mss_loop (fuel : nat) (opts : bytes) : option Z :=
  match fuel with
  | O => None
  | S fuel =>
      match opts with
      | [] => None
      | kind :: rest =>
          if kind =? 0 then None
          else if kind =? 1 then parse_mss_loop fuel rest
          else if kind =? 2 then
            match rest with
            | l :: hi :: lo :: _ => if l =? 4 then Some (of_be16 hi lo) else None
            | _ => None
            end
          else
            match rest with
            | [] => None
            | l :: _ =>
                if (l <? 2) || (len opts <? l) then None
                else parse_mss_loop fuel (drop (Z.to_nat l) opts)
            end
      end
  end.
Definition parse_mss (opts : bytes) : option Z := parse_mss_loop (length opts) opts.

Definition Segment_from_view (tcp : TcpView) : Segment :=
  mkSeg (tcp_seq tcp) (tcp_ack tcp) (tcp_flags tcp) (tcp_window tcp) (tcp_payload tcp)
        (parse_mss (tcp_options tcp)).

Definition seq_le (a b : Z) : bool := wsub32 b a <? 0x80000000.

Definition rst_for (ip : Ipv4View) (tcp : TcpView) (ip_id : Z) : option bytes :=
  let '(seq, ack, flags) :=
    if is_ack tcp then (tcp_ack tcp, 0, TCP_RST)
    else
      let advance := len (tcp_payload tcp) + Z.b2z (is_syn tcp) + Z.b2z (is_fin tcp) in
      (0, wadd32 (tcp_seq tcp) advance, Z.lor TCP_RST TCP_ACK) in
  seg ← tcp_build (ip_dst ip) (ip_src ip)
          {| f_src_port := tcp_dst_port tcp; f_dst_port := tcp_src_port tcp; f_seq := seq; f_ack := ack;
             f_flags := flags; f_window := 0; f_options := [] |} [];
  ipv4_build (ip_dst ip) (ip_src ip) IPPROTO_TCP 64 seg ip_id.

(** ** The flow *)

Record TxSeg := mkTx { tx_seq : Z; tx_data : bytes; tx_fin : bool }.
Definition tx_end (s : TxSeg) : Z := wadd32 (wadd32 (tx_seq s) (len (tx_data s))) (Z.b2z (tx_fin s)).

Record Flow := mkFlow {
  key : FlowKey;
  fl_mac : MacAddr;
  snd_nxt : Z;
  snd_una : Z;
  rcv_nxt : Z;
  peer_wnd : Z;
  mss : Z;
  unacked : list TxSeg;
  ooo : list (Z * bytes);
  ooo_bytes : Z;
  retries : Z;
  rto_at : option Z;
  last_activity : Z;
  our_fin_sent : bool;
  guest_fin_rcvd : bool }.

Definition set_snd f nxt una q := mkFlow (key f) (fl_mac f) nxt una (rcv_nxt f) (peer_wnd f) (mss f) q
  (ooo f) (ooo_bytes f) (retries f) (rto_at f) (last_activity f) (our_fin_sent f) (guest_fin_rcvd f).
Definition set_rcv f nxt o n := mkFlow (key f) (fl_mac f) (snd_nxt f) (snd_una f) nxt (peer_wnd f) (mss f)
  (unacked f) o n (retries f) (rto_at f) (last_activity f) (our_fin_sent f) (guest_fin_rcvd f).
Definition set_peer f wnd m := mkFlow (key f) (fl_mac f) (snd_nxt f) (snd_una f) (rcv_nxt f) wnd m (unacked f)
  (ooo f) (ooo_bytes f) (retries f) (rto_at f) (last_activity f) (our_fin_sent f) (guest_fin_rcvd f).
Definition set_timer f r t := mkFlow (key f) (fl_mac f) (snd_nxt f) (snd_una f) (rcv_nxt f) (peer_wnd f)
  (mss f) (unacked f) (ooo f) (ooo_bytes f) r t (last_activity f) (our_fin_sent f) (guest_fin_rcvd f).
Definition set_active f now := mkFlow (key f) (fl_mac f) (snd_nxt f) (snd_una f) (rcv_nxt f) (peer_wnd f)
  (mss f) (unacked f) (ooo f) (ooo_bytes f) (retries f) (rto_at f) now (our_fin_sent f) (guest_fin_rcvd f).
Definition set_our_fin f := mkFlow (key f) (fl_mac f) (snd_nxt f) (snd_una f) (rcv_nxt f) (peer_wnd f) (mss f)
  (unacked f) (ooo f) (ooo_bytes f) (retries f) (rto_at f) (last_activity f) true (guest_fin_rcvd f).
Definition set_guest_fin f := mkFlow (key f) (fl_mac f) (snd_nxt f) (snd_una f) (rcv_nxt f) (peer_wnd f) (mss f)
  (unacked f) (ooo f) (ooo_bytes f) (retries f) (rto_at f) (last_activity f) (our_fin_sent f) true.

(** [usize::from(mtu.saturating_sub(40)).max(536)]. *)
Definition mss_clamp (e : NatEngine) : Z := Z.max (sat_sub (nat_mtu (cfg e)) 40) 536.

(** [isn] is the random initial sequence number. *)
Definition Flow_new (e : NatEngine) (k : FlowKey) (mac : MacAddr) (syn : Segment) (isn now : Z) : Flow :=
  let clamp := mss_clamp e in
  mkFlow k mac isn isn (wadd32 (sg_seq syn) 1) (sg_window syn)
    (match sg_mss syn with Some m => Z.min clamp m | None => clamp end)
    [] [] 0 0 None now false false.
Definition Flow_new_active (e : NatEngine) (k : FlowKey) (mac : MacAddr) (isn now : Z) : Flow :=
  mkFlow k mac isn isn 0 0 (mss_clamp e) [] [] 0 0 None now false false.

Definition emit (e : NatEngine) (f : Flow) (seq ack flags : Z) (payload options : bytes) : NatEngine :=
  match tcp_build (dst_ip (key f)) (guest_ip (key f))
          {| f_src_port := dst_port (key f); f_dst_port := guest_port (key f); f_seq := seq; f_ack := ack;
             f_flags := flags; f_window := WINDOW; f_options := options |} payload with
  | None => e
  | Some seg =>
      let '(e, id) := next_ip_id e in
      match ipv4_build (dst_ip (key f)) (guest_ip (key f)) IPPROTO_TCP 64 seg id with
      | None => e
      | Some pkt => send_frame e (fl_mac f) pkt
      end
  end.
Definition send_ack (e : NatEngine) (f : Flow) : NatEngine := emit e f (snd_nxt f) (rcv_nxt f) TCP_ACK [] [].
Definition send_rst (e : NatEngine) (f : Flow) : NatEngine :=
  emit e f (snd_nxt f) (rcv_nxt f) (Z.lor TCP_RST TCP_ACK) [] [].

(** The flags of a data or FIN segment. *)
Definition data_flags (data : bytes) (fin : bool) : Z :=
  let flags := TCP_ACK in
  let flags := match data with [] => flags | _ => Z.lor flags TCP_PSH end in
  if fin then Z.lor flags TCP_FIN else flags.

Definition send_data (e : NatEngine) (f : Flow) (now : Z) (data : bytes) (fin : bool) : NatEngine * Flow :=
  let e := emit e f (snd_nxt f) (rcv_nxt f) (data_flags data fin) data [] in
  let seg := mkTx (snd_nxt f) data fin in
  let f := set_snd f (tx_end seg) (snd_una f) (unacked f ++ [seg]) in
  (e, match rto_at f with None => set_timer f (retries f) (Some (now + RTO)) | Some _ => f end).

Definition in_flight (f : Flow) : Z := wsub32 (snd_nxt f) (snd_una f).

Definition send_allowance (f : Flow) : Z :=
  let usable := sat_sub (peer_wnd f) (in_flight f) in
  let segment := Z.min (mss f) (peer_wnd f) in
  if (usable =? 0) || (usable <? segment) then 0 else Z.min usable (mss f).

Definition send_window_probe (e : NatEngine) (f : Flow) : NatEngine :=
  emit e f (wsub32 (snd_nxt f) 1) (rcv_nxt f) TCP_ACK [] [].

(** The loop that drops fully acknowledged segments. *)
Fixpoint pop_acked (una : Z) (q : list TxSeg) : list TxSeg :=
  match q with
  | [] => []
  | front :: r => if seq_le (tx_end front) una then pop_acked una r else q
  end.

Definition on_ack (f : Flow) (now : Z) (seg : Segment) : Flow :=
  if negb (seg_ack seg) then f
  else
    let f := set_peer f (sg_window seg) (mss f) in
    let ack := sg_ack seg in
    if (wsub32 ack (snd_una f) =? 0) || (wsub32 (snd_nxt f) (snd_una f) <? wsub32 ack (snd_una f)) then f
    else
      let q := pop_acked ack (unacked f) in
      let f := set_snd f (snd_nxt f) ack q in
      set_timer f 0 (match q with [] => None | _ => Some (now + RTO) end).

(** [on_rto]: [None] when the flow must die. *)
Definition on_rto (e : NatEngine) (f : Flow) (now : Z) : NatEngine * option Flow :=
  let f := set_timer f (retries f + 1) (rto_at f) in
  if MAX_RETRIES <? retries f then (send_rst e f, None)
  else
    let e := match unacked f with
             | [] => e
             | seg :: _ => emit e f (tx_seq seg) (rcv_nxt f) (data_flags (tx_data seg) (tx_fin seg)) (tx_data seg) []
             end in
    (e, Some (set_timer f (retries f) (Some (now + RTO)))).

(** The eviction loop: the first entry in key order goes until the rest fits. *)
Fixpoint evict (m : list (Z * bytes)) (n : Z) : list (Z * bytes) * Z :=
  if OOO_MAX_BYTES <? n then
    match m with
    | [] => ([], n)
    | (_, dropped) :: r => evict r (n - len dropped)
    end
  else (m, n).

Definition queue_ooo (f : Flow) (seq : Z) (payload : bytes) : Flow :=
  if OOO_MAX_BYTES <? len payload then f
  else
    let insert n :=
      let '(m, n) := evict (bt_insert seq payload (ooo f)) (n + len payload) in
      set_rcv f (rcv_nxt f) m n in
    match bt_get seq (ooo f) with
    | Some existing => if len payload <=? len existing then f else insert (ooo_bytes f - len existing)
    | None => insert (ooo_bytes f)
    end.

(** ** The proxied stream *)

(** The write half: [write_all] and [shutdown], [false] on an error. *)
Class AsyncWrite (W : Type) := {
  write_all : W → bytes → W * bool;
  shutdown : W → W }.

(** Entries that end at or before [rcv_nxt]. *)
Definition stale (nxt : Z) (kv : Z * bytes) : bool := seq_le (wadd32 kv.1 (len kv.2)) nxt.
(** The body of the [for] loop over the stale keys. *)
Definition ooo_forget (f : Flow) (seq : Z) : Flow :=
  match bt_get seq (ooo f) with
  | Some payload => set_rcv f (rcv_nxt f) (bt_remove seq (ooo f)) (ooo_bytes f - len payload)
  | None => f
  end.
Definition drop_stale (f : Flow) : Flow :=
  foldl ooo_forget f ((filter (λ kv, stale (rcv_nxt f) kv = true) (ooo f)).*1).

Section stream.
Context {W : Type} `{AsyncWrite W}.

(** [if *wr_open && wr.write_all(fresh).await.is_err()]: the writer and whether the write failed. *)
Definition write_open (w : W) (wr_open : bool) (fresh : bytes) : W * bool :=
  if wr_open then let '(w, ok) := write_all w fresh in (w, negb ok) else (w, false).

(** One turn of [drain_ooo] per unit of fuel; each turn that does not return
    removes an entry, so [S (length (ooo f))] turns are enough. *)
Fixpoint drain_loop (fuel : nat) (e : NatEngine) (f : Flow) (w : W) (wr_open : bool)
    : outcome (NatEngine * Flow * W * bool) :=
  match fuel with
  | O => Panic
  | S fuel =>
      let f := drop_stale f in
      match list_find (λ kv, seq_le kv.1 (rcv_nxt f) = true) (ooo f) with
      | None => Ret (e, f, w, true)
      | Some (_, (seq, _)) =>
          payload ← match bt_get seq (ooo f) with Some p => Ret p | None => Panic end;
          let f := set_rcv f (rcv_nxt f) (bt_remove seq (ooo f)) (ooo_bytes f - len payload) in
          fresh ← slice_chk payload (wsub32 (rcv_nxt f) seq) (len payload);
          let '(w, failed) := write_open w wr_open fresh in
          if failed : bool then Ret (send_rst e f, f, w, false)
          else
            drain_loop fuel e (set_rcv f (wadd32 (rcv_nxt f) (len fresh)) (ooo f) (ooo_bytes f)) w wr_open
      end
  end.
Definition drain_ooo (e : NatEngine) (f : Flow) (w : W) (wr_open : bool) :=
  drain_loop (S (length (ooo f))) e f w wr_open.

(** The payload branch of [on_segment]: its last component is [false] when the flow must die. *)
Definition on_payload (e : NatEngine) (f : Flow) (seg : Segment) (w : W) (wr_open : bool)
    : outcome (NatEngine * Flow * W * bool) :=
  if seq_le (sg_seq seg) (rcv_nxt f) then
    let off := wsub32 (rcv_nxt f) (sg_seq seg) in
    if off <? len (sg_payload seg) then
      fresh ← slice_chk (sg_payload seg) off (len (sg_payload seg));
      let '(w, failed) := write_open w wr_open fresh in
      if failed : bool then Ret (send_rst e f, f, w, false)
      else
        let f := set_rcv f (wadd32 (rcv_nxt f) (len fresh)) (ooo f) (ooo_bytes f) in
        drain_ooo e f w wr_open
    else Ret (e, f, w, true)
  else Ret (e, queue_ooo f (sg_seq seg) (sg_payload seg), w, true).

(** The FIN branch. *)
Definition on_fin (f : Flow) (seg : Segment) (w : W) (wr_open : bool) : Flow * W * bool :=
  let fin_seq := wadd32 (sg_seq seg) (len (sg_payload seg)) in
  if (fin_seq =? rcv_nxt f) && negb (guest_fin_rcvd f) then
    let f := set_guest_fin (set_rcv f (wadd32 (rcv_nxt f) 1) (ooo f) (ooo_bytes f)) in
    if wr_open then (f, shutdown w, false) else (f, w, wr_open)
  else (f, w, wr_open).

(** [on_segment]: engine, flow, writer, [wr_open], and whether the flow lives. *)
Definition on_segment (e : NatEngine) (f : Flow) (now : Z) (seg : Segment) (w : W) (wr_open : bool)
    : outcome (NatEngine * Flow * W * bool * bool) :=
  if seg_rst seg then Ret (e, f, w, wr_open, false)
  else
    let f := on_ack (set_active f now) now seg in
    '(e, f, w, alive) ←
      match sg_payload seg with
      | [] => Ret (e, f, w, true)
      | _ => on_payload e f seg w wr_open
      end;
    if negb alive then Ret (e, f, w, wr_open, false)
    else
      let '(f, w, wr_open) := if seg_fin seg then on_fin f seg w wr_open else (f, w, wr_open) in
      let need_ack := negb (bool_decide (sg_payload seg = [])) || seg_fin seg in
      Ret (if need_ack then send_ack e f else e, f, w, wr_open, true).

Definition closed_both_ways (f : Flow) : bool :=
  guest_fin_rcvd f && our_fin_sent f && (snd_una f =? snd_nxt f).

End stream.

(** ** The handshakes *)

(** What a handshake loop waits for: a segment (or the closed channel), the timer. *)
Inductive HsEvent := HsRecv (seg : option Segment) | HsTimer.

(** Where a turn of a handshake leaves the flow; [Failed] carries what the
    opener is told, if anything. *)
Inductive HsResult :=
| Waiting (f : Flow)
| Established (f : Flow) (pending : option Segment)
| Failed (told : option bytes).

Definition mss_option (e : NatEngine) : bytes := [2; 4] ++ be16 (mss_clamp e).

Definition run_passive_start (e : NatEngine) (f : Flow) (now : Z) : NatEngine * Flow :=
  let isn := snd_nxt f in
  let e := emit e f isn (rcv_nxt f) (Z.lor TCP_SYN TCP_ACK) [] (mss_option e) in
  (e, set_timer (set_snd f (wadd32 isn 1) (snd_una f) (unacked f)) (retries f) (Some (now + RTO))).

(** One turn of the SYN_RECEIVED loop. *)
Definition run_passive_turn (e : NatEngine) (f : Flow) (isn now : Z) (ev : HsEvent) : NatEngine * HsResult :=
  match ev with
  | HsRecv None => (e, Failed None)
  | HsRecv (Some seg) =>
      if seg_rst seg then (e, Failed None)
      else if seg_syn seg && negb (seg_ack seg) then
        (emit e f isn (rcv_nxt f) (Z.lor TCP_SYN TCP_ACK) [] (mss_option e), Waiting f)
      else if seg_ack seg && (sg_ack seg =? snd_nxt f) then
        let f := set_snd f (snd_nxt f) (snd_nxt f) (unacked f) in
        let f := set_peer f (sg_window seg) (mss f) in
        (e, Established (set_timer f 0 None) (Some seg))
      else (send_rst e f, Failed None)
  | HsTimer =>
      let f := set_timer f (retries f + 1) (rto_at f) in
      if MAX_RETRIES <? retries f then (send_rst e f, Failed None)
      else
        (emit e f isn (rcv_nxt f) (Z.lor TCP_SYN TCP_ACK) [] (mss_option e),
         Waiting (set_timer f (retries f) (Some (now + RTO))))
  end.

Definition run_active_start (e : NatEngine) (f : Flow) (now : Z) : NatEngine * Flow :=
  let isn := snd_nxt f in
  let e := emit e f isn 0 TCP_SYN [] (mss_option e) in
  (e, set_timer (set_snd f (wadd32 isn 1) (snd_una f) (unacked f)) (retries f) (Some (now + RTO))).

(** "connection refused by guest" and "unexpected segment during handshake". *)
Definition refused_by_guest : bytes :=
  [99;111;110;110;101;99;116;105;111;110;32;114;101;102;117;115;101;100;32;98;121;32;103;117;101;115;116].
Definition unexpected_segment : bytes :=
  [117;110;101;120;112;101;99;116;101;100;32;115;101;103;109;101;110;116;32;100;117;114;105;110;103;32;
   104;97;110;100;115;104;97;107;101].

(** One turn of the SYN_SENT loop. *)
Definition run_active_turn (e : NatEngine) (f : Flow) (isn now : Z) (ev : HsEvent) : NatEngine * HsResult :=
  match ev with
  | HsRecv None => (e, Failed None)
  | HsRecv (Some seg) =>
      if seg_rst seg then (e, Failed (Some refused_by_guest))
      else if seg_syn seg && seg_ack seg && (sg_ack seg =? snd_nxt f) then
        let f := set_snd f (snd_nxt f) (snd_nxt f) (unacked f) in
        let f := set_rcv f (wadd32 (sg_seq seg) 1) (ooo f) (ooo_bytes f) in
        let f := set_peer f (sg_window seg)
                   (match sg_mss seg with Some m => Z.min (mss f) m | None => mss f end) in
        let f := set_timer f 0 None in
        (send_ack e f, Established f None)
      else (send_rst e f, Failed (Some unexpected_segment))
  | HsTimer =>
      let f := set_timer f (retries f + 1) (rto_at f) in
      if MAX_RETRIES <? retries f then (e, Failed None)
      else (emit e f isn 0 TCP_SYN [] (mss_option e), Waiting (set_timer f (retries f) (Some (now + RTO))))
  end.

(** The [deadline] of a handshake turn. *)
Definition hs_deadline (f : Flow) (now : Z) : Z := default (now + RTO) (rto_at f).

(** ** The proxy loop *)

Section proxy.
Context {W : Type} `{AsyncWrite W}.

(** The flow with the locals of [run_established]. *)
Record Proxy := mkProxy { px_flow : Flow; px_wr : W; wr_open : bool; rd_done : bool; buf_len : Z }.

(** The branches of the [select!]; [Read []] is the end of the stream or a read error. *)
Inductive Event := Recv (seg : option Segment) | Read (data : bytes) | ProbeTimer | RtoTimer | IdleTimer.

Definition sending (p : Proxy) : bool := negb (rd_done p) && negb (our_fin_sent (px_flow p)).
Definition can_read (p : Proxy) : bool :=
  sending p && (0 <? send_allowance (px_flow p)) && (len (unacked (px_flow p)) <? 64).
Definition window_closed (p : Proxy) : bool :=
  sending p && (send_allowance (px_flow p) =? 0) && bool_decide (unacked (px_flow p) = []).

(** Which branches can complete at [now]. *)
Definition enabled (p : Proxy) (now : Z) (ev : Event) : bool :=
  match ev with
  | Recv _ => true
  | Read data => can_read p && (len data <=? send_allowance (px_flow p))
  | ProbeTimer => window_closed p
  | RtoTimer => match rto_at (px_flow p) with Some t => t <=? now | None => false end
  | IdleTimer => last_activity (px_flow p) + IDLE_TIMEOUT <=? now
  end.

Definition run_established_start (e : NatEngine) (f : Flow) (now : Z) (w : W) (pending : option Segment)
    : outcome (NatEngine * option Proxy) :=
  let n := Z.max (mss f) 536 in
  match pending with
  | None => Ret (e, Some (mkProxy f w true false n))
  | Some seg =>
      '(e, f, w, open, alive) ← on_segment e f now seg w true;
      Ret (e, if alive : bool then Some (mkProxy f w open false n) else None)
  end.

(** One turn of the loop, taking the branch [ev]; [None] when the task returns. *)
Definition run_established_turn (e : NatEngine) (p : Proxy) (now : Z) (ev : Event)
    : outcome (NatEngine * option Proxy) :=
  let f := px_flow p in
  if closed_both_ways f then Ret (e, None)
  else if buf_len p <? send_allowance f then Panic
  else
    match ev with
    | Recv None => Ret (e, None)
    | Recv (Some seg) =>
        '(e, f, w, open, alive) ← on_segment e f now seg (px_wr p) (wr_open p);
        Ret (e, if alive : bool then Some (mkProxy f w open (rd_done p) (buf_len p)) else None)
    | Read [] =>
        let '(e, f) := send_data e (set_our_fin f) now [] true in
        Ret (e, Some (mkProxy f (px_wr p) (wr_open p) true (buf_len p)))
    | Read data =>
        let '(e, f) := send_data e f now data false in
        Ret (e, Some (mkProxy f (px_wr p) (wr_open p) (rd_done p) (buf_len p)))
    | ProbeTimer => Ret (send_window_probe e f, Some p)
    | RtoTimer =>
        let '(e, f) := on_rto e f now in
        Ret (e, (λ f, mkProxy f (px_wr p) (wr_open p) (rd_done p) (buf_len p)) <$> f)
    | IdleTimer => Ret (send_rst e f, None)
    end.

(** ** The flow task *)

(** Every task owns its end of the stream from the start. *)
Inductive Task :=
| SynReceived (f : Flow) (isn : Z) (w : W)
| SynSent (f : Flow) (isn : Z) (w : W)
| Proxying (p : Proxy)
| Gone.

(** [run_active] once the guest answered: [opener] is whether the caller still waits. *)
Definition established (e : NatEngine) (f : Flow) (now : Z) (w : W) (pending : option Segment)
    (opener : bool) : outcome (NatEngine * Task) :=
  if opener then
    '(e, p) ← run_established_start e f now w pending;
    Ret (e, match p with Some p => Proxying p | None => Gone end)
  else Ret (send_rst e f, Gone).

Inductive TaskEvent := Hs (ev : HsEvent) (opener : bool) | Px (ev : Event).

Definition task_turn (e : NatEngine) (now : Z) (t : Task) (ev : TaskEvent) : outcome (NatEngine * Task) :=
  match t, ev with
  | SynReceived f isn w, Hs ev _ =>
      match run_passive_turn e f isn now ev with
      | (e, Waiting f) => Ret (e, SynReceived f isn w)
      | (e, Established f pending) => established e f now w pending true
      | (e, Failed _) => Ret (e, Gone)
      end
  | SynSent f isn w, Hs ev opener =>
      match run_active_turn e f isn now ev with
      | (e, Waiting f) => Ret (e, SynSent f isn w)
      | (e, Established f pending) => established e f now w pending opener
      | (e, Failed _) => Ret (e, Gone)
      end
  | Proxying p, Px ev =>
      '(e, p) ← run_established_turn e p now ev;
      Ret (e, match p with Some p => Proxying p | None => Gone end)
  | _, _ => Ret (e, t)
  end.

(** Whether the branch [ev] can be taken in [t] at [now]. *)
Definition task_enabled (now : Z) (t : Task) (ev : TaskEvent) : bool :=
  match t, ev with
  | SynReceived f _ _, Hs ev _ | SynSent f _ _, Hs ev _ =>
      match ev with HsRecv _ => true | HsTimer => hs_deadline f now <=? now end
  | Proxying p, Px ev => enabled p now ev
  | _, _ => false
  end.

(** [spawn_passive] once the host connected, and the task of [open_active]. *)
Definition spawn_passive (e : NatEngine) (k : FlowKey) (mac : MacAddr) (syn : Segment) (isn now : Z) (w : W)
    : NatEngine * Task :=
  let '(e, f) := run_passive_start e (Flow_new e k mac syn isn now) now in (e, SynReceived f isn w).
(** [spawn_passive] when the connect failed: the SYN is reset. *)
Definition spawn_passive_failed (e : NatEngine) (k : FlowKey) (mac : MacAddr) (syn : Segment) (isn now : Z)
    : NatEngine :=
  emit e (Flow_new e k mac syn isn now) 0 (wadd32 (sg_seq syn) 1) (Z.lor TCP_RST TCP_ACK) [] [].
Definition spawn_active (e : NatEngine) (k : FlowKey) (mac : MacAddr) (isn now : Z) (w : W)
    : NatEngine * Task :=
  let '(e, f) := run_active_start e (Flow_new_active e k mac isn now) now in (e, SynSent f isn w).

End proxy.
Arguments Proxy W : clear implicits.
Arguments Task W : clear implicits.

(** ** Sequence arithmetic *)

Lemma wsub32_wrap x y : wsub32 (wrap32 y) (wrap32 x) = (y - x) mod 2 ^ 32.
Proof. unfold wsub32, wrap32. by rewrite <-Zminus_mod. Qed.

Lemma wadd32_wrap x n : wadd32 (wrap32 x) n = wrap32 (x + n).
Proof. unfold wadd32, wrap32. by rewrite Zplus_mod_idemp_l. Qed.

Lemma wrap32_u32 x : is_u32 (wrap32 x).
Proof. unfold is_u32, wrap32. apply Z.mod_pos_bound. lia. Qed.

Lemma wrap32_id x : is_u32 x → wrap32 x = x.
Proof. unfold is_u32, wrap32. intros. apply Z.mod_small. lia. Qed.

Lemma seq_dist x y : 0 ≤ y - x < 2 ^ 32 → wsub32 (wrap32 y) (wrap32 x) = y - x.
Proof. intros. rewrite wsub32_wrap. by apply Z.mod_small. Qed.

(** Sequence comparison agrees with the order of the positions that are
    within half the sequence space. *)
Lemma seq_le_pos x y : - 2 ^ 31 ≤ y - x < 2 ^ 31 → seq_le (wrap32 x) (wrap32 y) = (x <=? y).
Proof.
  intros H. unfold seq_le. rewrite wsub32_wrap.
  destruct (Z.leb_spec x y).
  - rewrite Z.mod_small by lia. apply Z.ltb_lt. lia.
  - assert ((y - x) mod 2 ^ 32 = y - x + 2 ^ 32) as ->; [|apply Z.ltb_ge; lia].
    rewrite <-(Z.mod_add _ 1) by lia. apply Z.mod_small. lia.
Qed.

Lemma wrap32_sub_add x y : is_u32 y → wrap32 (x + wsub32 y (wrap32 x)) = y.
Proof.
  unfold wrap32, wsub32, is_u32, wrap32. intros. rewrite Zplus_mod_idemp_r, Z.add_sub_assoc, Zminus_mod_idemp_r.
  replace (x + y - x) with y by lia. apply Z.mod_small. lia.
Qed.

Lemma wrap32_inj x y : wrap32 x = wrap32 y → Z.abs (x - y) < 2 ^ 32 → x = y.
Proof.
  unfold wrap32. intros He Hd.
  assert ((x - y) mod 2 ^ 32 = 0) as Hm by (rewrite Zminus_mod, He, Z.sub_diag; reflexivity).
  apply Z.mod_divide in Hm as [c Hc]; lia.
Qed.

(** ** The reassembly queue as a map *)

(** Keys in order, distinct. *)
Definition bt_ok {V} (m : list (Z * V)) : Prop := StronglySorted Z.lt m.*1.
Definition total (m : list (Z * bytes)) : Z := foldr (λ kv n, len kv.2 + n) 0 m.

Lemma total_nonneg m : 0 ≤ total m.
Proof. induction m as [|[k v] m IH]; simpl; [lia|]. pose proof (len_nonneg v). lia. Qed.

Lemma bt_get_elem {V} k (v : V) m : bt_get k m = Some v → (k, v) ∈ m.
Proof.
  induction m as [|[k' v'] m IH]; simpl; [done|].
  destruct (Z.eqb_spec k k'); intros; simplify_eq; [left|right; auto].
Qed.

Lemma bt_get_ok {V} k (v : V) m : bt_ok m → (k, v) ∈ m → bt_get k m = Some v.
Proof.
  unfold bt_ok. induction m as [|[k' v'] m IH]; simpl; [by rewrite elem_of_nil|].
  intros Hs [?|?]%elem_of_cons; apply StronglySorted_inv in Hs as [Hs Ha]; simplify_eq.
  - by rewrite Z.eqb_refl.
  - destruct (Z.eqb_spec k k') as [->|]; [|by apply IH].
    rewrite Forall_forall in Ha. ospecialize (Ha k' _); [|lia]. apply list_elem_of_fmap. by exists (k', v).
Qed.

Lemma bt_remove_elem {V} k m (x : Z * V) : bt_ok m → x ∈ bt_remove k m ↔ x ∈ m ∧ x.1 ≠ k.
Proof.
  unfold bt_ok. induction m as [|[k' v'] m IH]; simpl; [set_solver|].
  intros [Hs Ha]%StronglySorted_inv. rewrite Forall_forall in Ha.
  destruct (Z.eqb_spec k k') as [->|].
  - rewrite elem_of_cons. split; [intros Hx|intros [[->|] ?]; done].
    split; [auto|]. ospecialize (Ha x.1 _); [by apply list_elem_of_fmap_2|lia].
  - rewrite !elem_of_cons, IH by done. split; [|tauto]. intros [->|[]]; [simpl; auto|auto].
Qed.

Lemma bt_remove_ok {V} k (m : list (Z * V)) : bt_ok m → bt_ok (bt_remove k m).
Proof.
  intros Hok. revert Hok. unfold bt_ok. induction m as [|[k' v'] m IH]; simpl; [done|].
  intros [Hs Ha]%StronglySorted_inv. destruct (k =? k'); [done|].
  simpl. constructor; [auto|]. rewrite Forall_forall in Ha |- *.
  intros y (x & -> & Hx)%list_elem_of_fmap. apply bt_remove_elem in Hx as [Hx _]; [|done].
  apply Ha. by apply list_elem_of_fmap_2.
Qed.

Lemma bt_remove_total k v m : bt_get k m = Some v → total (bt_remove k m) = total m - len v.
Proof.
  induction m as [|[k' v'] m IH]; simpl; [done|].
  destruct (k =? k'); intros; simplify_eq/=; [lia|]. rewrite IH by done. lia.
Qed.

Lemma bt_remove_length {V} k (v : V) m : bt_get k m = Some v → S (length (bt_remove k m)) = length m.
Proof.
  induction m as [|[k' v'] m IH]; simpl; [done|].
  destruct (k =? k'); intros; simplify_eq/=; [done|]. by rewrite IH.
Qed.

Lemma bt_insert_elem {V} k (v : V) m x : x ∈ bt_insert k v m → x = (k, v) ∨ x ∈ m.
Proof.
  induction m as [|[k' v'] m IH]; simpl; [rewrite list_elem_of_singleton; auto|].
  destruct (k <? k'); [rewrite elem_of_cons; auto|].
  destruct (k =? k'); rewrite !elem_of_cons; [tauto|]. intros [?|?%IH]; tauto.
Qed.

Lemma bt_insert_ok {V} k (v : V) m : bt_ok m → bt_ok (bt_insert k v m).
Proof.
  unfold bt_ok. induction m as [|[k' v'] m IH]; simpl; [repeat constructor|].
  intros [Hs Ha]%StronglySorted_inv. destruct (Z.ltb_spec k k'); [|destruct (Z.eqb_spec k k') as [->|]]; simpl.
  - repeat constructor; [done..|]. eapply Forall_impl; [exact Ha|]. simpl. lia.
  - by constructor.
  - constructor; [auto|]. rewrite Forall_forall in Ha |- *.
    intros y (x & -> & [->|Hx]%bt_insert_elem)%list_elem_of_fmap; [simpl; lia|].
    apply Ha. by apply list_elem_of_fmap_2.
Qed.

Lemma bt_insert_total k v m :
  bt_ok m → total (bt_insert k v m) = total m + len v - from_option len 0 (bt_get k m).
Proof.
  unfold bt_ok. induction m as [|[k' v'] m IH]; simpl; [lia|].
  intros [Hs Ha]%StronglySorted_inv.
  destruct (Z.ltb_spec k k'); [|destruct (Z.eqb_spec k k') as [->|]]; simpl.
  - destruct (Z.eqb_spec k k'); [lia|].
    destruct (bt_get k m) eqn:Hg; simpl; [|lia].
    apply bt_get_elem in Hg. rewrite Forall_forall in Ha.
    ospecialize (Ha k _); [|lia]. apply list_elem_of_fmap. by eexists (k, _).
  - lia.
  - rewrite IH by done. lia.
Qed.

Lemma evict_spec m n :
  n = total m → bt_ok m →
  let '(m', n') := evict m n in
  n' = total m' ∧ n' ≤ OOO_MAX_BYTES ∧ bt_ok m' ∧ ∀ x, x ∈ m' → x ∈ m.
Proof.
  revert n. induction m as [|[k v] m IH]; intros n -> Hok; simpl.
  - destruct (Z.ltb_spec OOO_MAX_BYTES 0); [done|]. repeat split; [done|constructor|done].
  - destruct (Z.ltb_spec OOO_MAX_BYTES (len v + total m)).
    + apply StronglySorted_inv in Hok as [Hok _]. specialize (IH (total m) eq_refl Hok).
      replace (len v + total m - len v) with (total m) by lia.
      destruct (evict m (total m)) as [m' n']. destruct IH as (? & ? & ? & IH). repeat split; try done.
      intros. right. auto.
    + by repeat split.
Qed.

Lemma list_filter_fst {V} (P : Z * V → Prop) `{∀ x, Decision (P x)} (m : list (Z * V)) k :
  k ∈ (filter P m).*1 → ∃ v, (k, v) ∈ m ∧ P (k, v).
Proof. intros ([k' v] & -> & [HP Hin]%list_elem_of_filter)%list_elem_of_fmap. eauto. Qed.
