(* ===== verification/VtcpFlow.v ===== *)
(** * Correctness of the vTCP flow

    The reassembly queue and the receive side against the guest's byte
    stream, the send side against the bytes read from the host, the timers
    and the handshakes of [Vtcp]. Sequence numbers are related to unbounded
    stream positions. *)

From Stdlib Require Import Sorting.Sorted.
From S2P Require Import Prelude Checksum Frame NatEngine.
From S2P Require Import Vtcp.

(** ** What the receive side keeps *)

Record rcv_ok (f : Flow) : Prop := {
  ro_nxt : is_u32 (rcv_nxt f);
  ro_bt : bt_ok (ooo f);
  ro_total : ooo_bytes f = total (ooo f);
  ro_max : total (ooo f) ≤ OOO_MAX_BYTES;
  ro_ent : ∀ x, x ∈ ooo f → is_u32 x.1 ∧ 1 ≤ len x.2 ≤ 65535 }.

(** [f'] differs from [f] at most in what the receive side owns. *)
Definition rcv_only (f f' : Flow) : Prop := f' = set_rcv f (rcv_nxt f') (ooo f') (ooo_bytes f').

Lemma rcv_only_refl f : rcv_only f f.
Proof. by destruct f. Qed.
Lemma rcv_only_set f n o b : rcv_only f (set_rcv f n o b).
Proof. by destruct f. Qed.
Lemma rcv_only_trans f g h : rcv_only f g → rcv_only g h → rcv_only f h.
Proof. unfold rcv_only. intros -> ->. done. Qed.

Lemma forget_spec f k :
  rcv_ok f →
  rcv_ok (ooo_forget f k) ∧ rcv_only f (ooo_forget f k) ∧ rcv_nxt (ooo_forget f k) = rcv_nxt f ∧
  total (ooo (ooo_forget f k)) ≤ total (ooo f) ∧ (length (ooo (ooo_forget f k)) ≤ length (ooo f))%nat ∧
  ∀ x, x ∈ ooo (ooo_forget f k) ↔ x ∈ ooo f ∧ x.1 ≠ k.
Proof.
  intros [? Hbt Ht Hm He]. unfold ooo_forget. destruct (bt_get k (ooo f)) as [p|] eqn:Hg; simpl.
  - pose proof (bt_remove_total _ _ _ Hg). pose proof (bt_remove_length _ _ _ Hg). pose proof (len_nonneg p).
    assert (∀ x, x ∈ bt_remove k (ooo f) ↔ x ∈ ooo f ∧ x.1 ≠ k) as Hx by (intros; by apply bt_remove_elem).
    split_and!; try done; try lia; try apply rcv_only_set.
    split; simpl; [done|by apply bt_remove_ok|lia..|]. intros x [? _]%Hx. auto.
  - split_and!; try done; [apply rcv_only_refl|]. intros x. split; [|tauto].
    intros Hx. split; [done|]. intros <-. destruct x as [q v]. by rewrite (bt_get_ok q v) in Hg.
Qed.

Lemma forget_all_spec ks f :
  rcv_ok f →
  let f' := foldl ooo_forget f ks in
  rcv_ok f' ∧ rcv_only f f' ∧ rcv_nxt f' = rcv_nxt f ∧ total (ooo f') ≤ total (ooo f) ∧
  (length (ooo f') ≤ length (ooo f))%nat ∧ ∀ x, x ∈ ooo f' ↔ x ∈ ooo f ∧ x.1 ∉ ks.
Proof.
  revert f. induction ks as [|k ks IH]; intros f Hok; simpl.
  - split_and!; try done; [apply rcv_only_refl|]. intros. split; [|tauto]. intros; split; [done|apply not_elem_of_nil].
  - destruct (forget_spec f k Hok) as (Hok' & Ho & Hn & Ht & Hl & Hx).
    destruct (IH _ Hok') as (? & Ho' & Hn' & Ht' & Hl' & Hx').
    split_and!; try done; try lia; [by eapply rcv_only_trans|].
    intros x. rewrite Hx', Hx, not_elem_of_cons. tauto.
Qed.

Lemma drop_stale_spec f :
  rcv_ok f →
  rcv_ok (drop_stale f) ∧ rcv_only f (drop_stale f) ∧ rcv_nxt (drop_stale f) = rcv_nxt f ∧
  total (ooo (drop_stale f)) ≤ total (ooo f) ∧ (length (ooo (drop_stale f)) ≤ length (ooo f))%nat ∧
  ∀ x, x ∈ ooo (drop_stale f) ↔ x ∈ ooo f ∧ stale (rcv_nxt f) x = false.
Proof.
  intros Hok. destruct (forget_all_spec ((filter (λ kv, stale (rcv_nxt f) kv = true) (ooo f)).*1) f Hok)
    as (? & ? & ? & ? & ? & Hx). split_and!; try done.
  intros x. unfold drop_stale. rewrite Hx. split; intros [Hin Hs]; (split; [done|]).
  - destruct (stale (rcv_nxt f) x) eqn:E; [|done]. destruct Hs. apply list_elem_of_fmap_2.
    by apply list_elem_of_filter.
  - intros (v & Hv & Hst)%list_filter_fst. destruct x as [q p]. simpl in *.
    pose proof (bt_get_ok _ _ _ (ro_bt _ Hok) Hin). pose proof (bt_get_ok _ _ _ (ro_bt _ Hok) Hv).
    simplify_eq. congruence.
Qed.

(** What is left and starts at or before [rcv_nxt] extends past it. *)
Lemma continues f x :
  rcv_ok f → x ∈ ooo f → stale (rcv_nxt f) x = false → seq_le x.1 (rcv_nxt f) = true →
  0 ≤ wsub32 (rcv_nxt f) x.1 < len x.2.
Proof.
  intros Hok Hin Hst Hle. destruct (ro_ent _ Hok _ Hin) as [Hq Hl]. pose proof (ro_nxt _ Hok) as Hn.
  unfold seq_le in Hle. apply Z.ltb_lt in Hle. set (d := wsub32 (rcv_nxt f) x.1) in *.
  assert (0 ≤ d) by (apply Z.mod_pos_bound; lia).
  assert (rcv_nxt f = wrap32 (x.1 + d)) as Hr.
  { unfold d, wsub32, wrap32, is_u32 in *. rewrite Zplus_mod_idemp_r.
    replace (x.1 + (rcv_nxt f - x.1)) with (rcv_nxt f) by lia. rewrite Z.mod_small; lia. }
  split; [done|]. destruct (Z.ltb_spec d (len x.2)); [done|].
  unfold stale, wadd32 in Hst. rewrite Hr, seq_le_pos in Hst by lia.
  apply Z.leb_gt in Hst. lia.
Qed.


(** ** Draining, as a relation *)

Section drain.
Context {W : Type} `{AsyncWrite W}.
Implicit Types (f : Flow) (w : W).

(** The entry [x] continues the stream of [f] at byte [d] of its payload. *)
Definition next_entry f (x : Z * bytes) (d : Z) : Prop :=
  x ∈ ooo f ∧ seq_le x.1 (rcv_nxt f) = true ∧ d = wsub32 (rcv_nxt f) x.1 ∧ 0 ≤ d < len x.2.

(** What a run of [drain_ooo] does to the flow and the writer, and whether the flow lives. *)
Inductive drains (open : bool) : Flow → W → Flow → W → bool → Prop :=
| drained f w :
    (∀ x, x ∈ ooo (drop_stale f) → seq_le x.1 (rcv_nxt f) = false) →
    drains open f w (drop_stale f) w true
| drain_dies f w w' x d :
    next_entry (drop_stale f) x d → write_open w open (drop (Z.to_nat d) x.2) = (w', true) →
    drains open f w (ooo_forget (drop_stale f) x.1) w' false
| drain_more f w w1 x d f' w' a :
    next_entry (drop_stale f) x d → write_open w open (drop (Z.to_nat d) x.2) = (w1, false) →
    drains open (let g := ooo_forget (drop_stale f) x.1 in
                 set_rcv g (wadd32 (rcv_nxt g) (len x.2 - d)) (ooo g) (ooo_bytes g)) w1 f' w' a →
    drains open f w f' w' a.

Lemma advance_ok f n : rcv_ok f → rcv_ok (set_rcv f (wadd32 (rcv_nxt f) n) (ooo f) (ooo_bytes f)).
Proof. intros []. split; simpl; try done. apply wrap32_u32. Qed.

(** The loop's fuel is enough, none of its slices and lookups panics. *)
Lemma drain_loop_drains fuel e f w open :
  rcv_ok f → (length (ooo f) < fuel)%nat →
  ∃ e' f' w' a, drain_loop fuel e f w open = Ret (e', f', w', a) ∧ drains open f w f' w' a.
Proof.
  revert e f w. induction fuel as [|fuel IH]; intros e f w Hok Hf; [lia|]. cbn [drain_loop].
  destruct (drop_stale_spec f Hok) as (Hok1 & Ho & Hn & Ht & Hl & Hx).
  destruct (list_find _ _) as [[i [q p]]|] eqn:Hfind.
  - apply list_find_Some in Hfind as (Hi & Hle & _). simpl in Hle.
    assert ((q, p) ∈ ooo (drop_stale f)) as Hin by (by eapply list_elem_of_lookup_2).
    rewrite (bt_get_ok q p) by (done || apply Hok1). cbn [mbind outcome_bind].
    assert (next_entry (drop_stale f) (q, p) (wsub32 (rcv_nxt f) q)) as Hnext.
    { unfold next_entry. rewrite Hn in *. split_and!; try done;
      apply (continues f (q, p)); try done; by apply Hx in Hin as []. }
    pose proof (proj2 (proj2 (proj2 Hnext))) as Hd. simpl in Hd.
    assert (bt_get q (ooo (drop_stale f)) = Some p) as Hg by (apply bt_get_ok; [apply Hok1|done]).
    pose proof (bt_remove_length _ _ _ Hg) as Hrl.
    destruct (forget_spec _ q Hok1) as (Hok2 & _).
    assert (ooo_forget (drop_stale f) q =
            set_rcv (drop_stale f) (rcv_nxt f) (bt_remove q (ooo (drop_stale f))) (ooo_bytes (drop_stale f) - len p))
      as Hfg by (unfold ooo_forget; by rewrite Hg, Hn).
    cbn [rcv_nxt set_rcv]. rewrite Hn, slice_tail by lia. cbn [mbind outcome_bind].
    destruct (write_open w open (drop (Z.to_nat (wsub32 (rcv_nxt f) q)) p)) as [w1 [|]] eqn:Hw.
    + eexists _, _, _, _. split; [done|]. rewrite <-Hfg. by eapply (drain_dies open f w w1 (q, p)).
    + edestruct (IH e (set_rcv (ooo_forget (drop_stale f) q)
                   (wadd32 (rcv_nxt (ooo_forget (drop_stale f) q)) (len p - wsub32 (rcv_nxt f) q))
                   (ooo (ooo_forget (drop_stale f) q)) (ooo_bytes (ooo_forget (drop_stale f) q))) w1)
        as (e' & f' & w' & a & He & Hd').
      { by apply advance_ok. }
      { rewrite Hfg. simpl. lia. }
      exists e', f', w', a. split; [|by eapply (drain_more open f w w1 (q, p))].
      rewrite <-He, Hfg. cbn [rcv_nxt set_rcv ooo ooo_bytes]. by rewrite len_drop, Z.max_r, Z2Nat.id by lia.
  - eexists _, _, _, _. split; [done|]. constructor. intros x Hin. rewrite list_find_None in Hfind.
    rewrite Forall_forall in Hfind. rewrite <-Hn. by apply not_true_is_false, Hfind.
Qed.

Lemma drains_ok open f w f' w' a : drains open f w f' w' a → rcv_ok f → rcv_ok f' ∧ rcv_only f f'.
Proof.
  induction 1 as [f w|f w w' x d|f w w1 x d f' w' a Hnext Hw Hd IH]; intros Hok;
    destruct (drop_stale_spec f Hok) as (Hok1 & Ho & _).
  - done.
  - destruct (forget_spec _ x.1 Hok1) as (? & ? & _). split; [done|by eapply rcv_only_trans].
  - destruct (forget_spec _ x.1 Hok1) as (Hok2 & Ho2 & _). destruct (IH (advance_ok _ _ Hok2)) as [? Ho3].
    split; [done|]. eapply rcv_only_trans; [exact Ho|]. eapply rcv_only_trans; [exact Ho2|].
    eapply rcv_only_trans; [apply rcv_only_set|exact Ho3].
Qed.

End drain.

Lemma queue_ooo_ok f q p :
  rcv_ok f → is_u32 q → 1 ≤ len p →
  rcv_ok (queue_ooo f q p) ∧ rcv_only f (queue_ooo f q p) ∧ rcv_nxt (queue_ooo f q p) = rcv_nxt f ∧
  ∀ x, x ∈ ooo (queue_ooo f q p) → x = (q, p) ∨ x ∈ ooo f.
Proof.
  intros Hok Hq Hp. pose proof Hok as [? Hbt Ht Hm He]. unfold queue_ooo.
  assert (rcv_ok f ∧ rcv_only f f ∧ rcv_nxt f = rcv_nxt f ∧ ∀ x, x ∈ ooo f → x = (q, p) ∨ x ∈ ooo f) as Hsame
    by (split_and!; auto using rcv_only_refl).
  destruct (Z.ltb_spec OOO_MAX_BYTES (len p)) as [|Hle]; [done|].
  assert (∀ n, n = total (ooo f) - from_option len 0 (bt_get q (ooo f)) →
    let '(m, n') := evict (bt_insert q p (ooo f)) (n + len p) in
    let f' := set_rcv f (rcv_nxt f) m n' in
    rcv_ok f' ∧ rcv_only f f' ∧ rcv_nxt f' = rcv_nxt f ∧ ∀ x, x ∈ ooo f' → x = (q, p) ∨ x ∈ ooo f) as Hins.
  { intros n Hn. pose proof (bt_insert_total q p _ Hbt) as Htot.
    pose proof (evict_spec (bt_insert q p (ooo f)) (n + len p) ltac:(lia) (bt_insert_ok _ _ _ Hbt)) as Hev.
    destruct (evict _ _) as [m n']. destruct Hev as (? & ? & ? & Hsub).
    split_and!; [|apply rcv_only_set|done|intros x Hx; by apply bt_insert_elem, Hsub].
    split; simpl; try done; [lia|]. intros x [->|]%Hsub%bt_insert_elem; [|auto].
    change OOO_MAX_BYTES with 65535 in Hle. split; [done|simpl; lia]. }
  destruct (bt_get q (ooo f)) as [old|] eqn:Hg; simpl in *; [case_match; [done|]|];
    [specialize (Hins (ooo_bytes f - len old) ltac:(lia))|specialize (Hins (ooo_bytes f) ltac:(lia))];
    by destruct (evict _ _).
Qed.

(** ** The payload of a segment *)

(** A segment as the parser delivers it. *)
Record seg_ok (seg : Segment) : Prop := {
  so_seq : is_u32 (sg_seq seg);
  so_ack : is_u32 (sg_ack seg);
  so_window : is_u16 (sg_window seg);
  so_payload : len (sg_payload seg) ≤ 65535;
  so_mss : ∀ m, sg_mss seg = Some m → is_u16 m }.

(** The four ways [on_payload] goes: a duplicate, a failed write, new bytes, a hole before it. *)
Inductive payload_case {W} `{AsyncWrite W} (f : Flow) (seg : Segment) (w : W) (open : bool)
    : Flow → W → bool → Prop :=
| pc_duplicate :
    seq_le (sg_seq seg) (rcv_nxt f) = true → len (sg_payload seg) ≤ wsub32 (rcv_nxt f) (sg_seq seg) →
    payload_case f seg w open f w true
| pc_failed d w' :
    seq_le (sg_seq seg) (rcv_nxt f) = true → d = wsub32 (rcv_nxt f) (sg_seq seg) →
    0 ≤ d < len (sg_payload seg) → write_open w open (drop (Z.to_nat d) (sg_payload seg)) = (w', true) →
    payload_case f seg w open f w' false
| pc_fresh d w1 f' w' a :
    seq_le (sg_seq seg) (rcv_nxt f) = true → d = wsub32 (rcv_nxt f) (sg_seq seg) →
    0 ≤ d < len (sg_payload seg) → write_open w open (drop (Z.to_nat d) (sg_payload seg)) = (w1, false) →
    drains open (set_rcv f (wadd32 (rcv_nxt f) (len (sg_payload seg) - d)) (ooo f) (ooo_bytes f)) w1 f' w' a →
    payload_case f seg w open f' w' a
| pc_ahead :
    seq_le (sg_seq seg) (rcv_nxt f) = false →
    payload_case f seg w open (queue_ooo f (sg_seq seg) (sg_payload seg)) w true.

Lemma on_payload_case {W} `{AsyncWrite W} e f seg (w : W) open :
  rcv_ok f → ∃ e' f' w' a, on_payload e f seg w open = Ret (e', f', w', a) ∧ payload_case f seg w open f' w' a.
Proof.
  intros Hok. unfold on_payload. destruct (seq_le _ _) eqn:Hle; [|by eexists _, _, _, _; split; [done|constructor]].
  assert (0 ≤ wsub32 (rcv_nxt f) (sg_seq seg)) by (apply Z.mod_pos_bound; lia).
  destruct (Z.ltb_spec (wsub32 (rcv_nxt f) (sg_seq seg)) (len (sg_payload seg))) as [Hlt|];
    [|by eexists _, _, _, _; split; [done|constructor]].
  rewrite slice_tail by lia. cbn [mbind outcome_bind].
  destruct (write_open _ _ _) as [w1 [|]] eqn:Hw; [by eexists _, _, _, _; split; [done|eapply pc_failed]|].
  rewrite len_drop, Z.max_r, Z2Nat.id by lia.
  destruct (drain_loop_drains (S (length (ooo f))) e
     (set_rcv f (wadd32 (rcv_nxt f) (len (sg_payload seg) - wsub32 (rcv_nxt f) (sg_seq seg))) (ooo f) (ooo_bytes f))
     w1 open) as (e' & f' & w' & a & He & Hd); [by apply advance_ok|simpl; lia|].
  exists e', f', w', a. split; [exact He|]. by eapply pc_fresh.
Qed.

Lemma payload_case_ok {W} `{AsyncWrite W} f seg (w : W) open f' w' a :
  payload_case f seg w open f' w' a → rcv_ok f → seg_ok seg → sg_payload seg ≠ [] →
  rcv_ok f' ∧ rcv_only f f'.
Proof.
  intros Hc Hok [Hq _ _ Hl _] Hne. destruct Hc as [| |d w1 f' w' a ? ? ? ? Hd|]; auto using rcv_only_refl.
  - apply drains_ok in Hd as [? ?]; [|by apply advance_ok]. split; [done|].
    eapply rcv_only_trans; [apply rcv_only_set|done].
  - destruct (queue_ooo_ok f (sg_seq seg) (sg_payload seg)) as (? & ? & _); try done.
    destruct (sg_payload seg); [done|]. len_lia.
Qed.

(** ** The stream the host receives *)

(** What [write_all] documents: all of it on success, some prefix of it before an error. *)
Class AsyncWriteLaws (W : Type) `{AsyncWrite W} := {
  written : W → bytes;
  write_all_ok w d w' : write_all w d = (w', true) → written w' = written w ++ d;
  write_all_err w d w' : write_all w d = (w', false) → ∃ n, written w' = written w ++ take n d;
  shutdown_written w : written (shutdown w) = written w }.

Section receive.
Context {W : Type} `{AsyncWriteLaws W}.
(** The guest's byte stream, whose first byte has sequence number [wrap32 b]. *)
Context (st : bytes) (b : Z).
Implicit Types (f : Flow) (w : W).

(** The payload [p] at sequence number [q] is the stream's at position [o]. *)
Definition carried (o q : Z) (p : bytes) : Prop :=
  q = wrap32 (b + o) ∧ 0 ≤ o ∧ o + len p ≤ len st ∧ p = slice st o (o + len p).

Lemma carried_tail o q p d : carried o q p → 0 ≤ d ≤ len p → drop (Z.to_nat d) p = slice st (o + d) (o + len p).
Proof. intros (_ & ? & ? & Hp) ?. rewrite Hp at 1. by rewrite drop_slice by lia. Qed.

(** While a drain runs: it began at [P0] and is at [pos]. *)
Record draining (P0 pos : Z) f : Prop := {
  dg_nxt : rcv_nxt f = wrap32 (b + pos);
  dg_pos : 0 ≤ P0 ≤ pos ∧ pos ≤ len st;
  dg_bound : pos + total (ooo f) ≤ P0 + 131070;
  dg_ent : ∀ x, x ∈ ooo f → ∃ o, P0 < o < P0 + 2 ^ 31 ∧ carried o x.1 x.2 }.

Lemma draining_sub P0 pos f f' :
  draining P0 pos f → rcv_nxt f' = rcv_nxt f → total (ooo f') ≤ total (ooo f) →
  (∀ x, x ∈ ooo f' → x ∈ ooo f) → draining P0 pos f'.
Proof. intros [] Hn Ht Hx. split; try done; [congruence|lia|auto]. Qed.

Lemma write_open_true w d w' failed :
  write_open w true d = (w', failed) → ∃ n, written w' = written w ++ take n d ∧ (failed = false → take n d = d).
Proof.
  unfold write_open. destruct (write_all w d) as [w1 [|]] eqn:E; intros; simplify_eq/=.
  - exists (length d). rewrite firstn_all. split; [by apply write_all_ok|done].
  - destruct (write_all_err _ _ _ E) as [n ?]. by exists n.
Qed.

(** A write of the stream's next bytes leaves a prefix of it, all of it on success. *)
Lemma write_next w w' failed pos o :
  written w = take (Z.to_nat pos) st → 0 ≤ pos ≤ o →
  write_open w true (slice st pos o) = (w', failed) →
  written w' `prefix_of` st ∧ (failed = false → written w' = take (Z.to_nat o) st).
Proof.
  intros Hw Hpos (n & Hn & Hall)%write_open_true. split.
  - rewrite Hn, Hw. exists (drop (n `min` Z.to_nat (o - pos)) (drop (Z.to_nat pos) st)).
    unfold slice. rewrite take_take, <-app_assoc, take_drop. by rewrite take_drop.
  - intros ->. rewrite Hn, Hall, Hw by done. symmetry. by apply take_slice.
Qed.

(** An entry found by [drain_ooo] starts at or before the position and ends after it. *)
Lemma next_entry_pos P0 pos f x d :
  draining P0 pos f → next_entry f x d →
  ∃ o, d = pos - o ∧ P0 < o ∧ carried o x.1 x.2 ∧ o ≤ pos < o + len x.2.
Proof.
  intros [Hn Hp Hb He] (Hin & Hle & -> & Hd). destruct (He _ Hin) as (o & Ho & Hc).
  pose proof Hc as (Hq & _). pose proof (total_nonneg (ooo f)).
  rewrite Hn, Hq in *. rewrite seq_le_pos in Hle by lia. apply Z.leb_le in Hle.
  rewrite seq_dist in Hd |- * by lia. exists o. split_and!; try done; lia.
Qed.

Lemma drains_stream f w f' w' a P0 pos :
  drains true f w f' w' a → rcv_ok f → draining P0 pos f → written w = take (Z.to_nat pos) st →
  written w' `prefix_of` st ∧
  (a = true → ∃ pos', pos ≤ pos' ∧ draining P0 pos' f' ∧ written w' = take (Z.to_nat pos') st ∧
                      ∀ x, x ∈ ooo f' → seq_le x.1 (rcv_nxt f') = false).
Proof.
  intros Hd. revert pos. induction Hd as [f w Hnone|f w w' x d Hx Hw|f w w1 x d f' w' a Hx Hw Hd IH];
    intros pos Hok Hdr Hwr;
    destruct (drop_stale_spec f Hok) as (Hok1 & _ & Hn & Ht & _ & Hsub);
    pose proof (draining_sub _ _ _ _ Hdr Hn Ht (λ x Hx, proj1 (proj1 (Hsub x) Hx))) as Hdr1.
  - split; [rewrite Hwr; by eexists; rewrite take_drop|]. intros _. exists pos. rewrite Hn. split_and!; try done; lia.
  - destruct (next_entry_pos _ _ _ _ _ Hdr1 Hx) as (o & -> & ? & Hc & ?).
    rewrite (carried_tail o x.1) in Hw by (done || lia). replace (o + (pos - o)) with pos in Hw by lia.
    apply write_next with (pos := pos) in Hw as [? _]; [|done|destruct Hdr1; lia]. by split.
  - destruct (next_entry_pos _ _ _ _ _ Hdr1 Hx) as (o & -> & ? & Hc & ?). pose proof Hc as (_ & _ & ? & _).
    rewrite (carried_tail o x.1) in Hw by (done || lia). replace (o + (pos - o)) with pos in Hw by lia.
    apply write_next with (pos := pos) in Hw as [_ Hw]; [|done|destruct Hdr1; lia].
    destruct Hx as (Hin & _). destruct (forget_spec _ x.1 Hok1) as (Hok2 & _ & Hn2 & _ & _ & Hsub2).
    assert (bt_get x.1 (ooo (drop_stale f)) = Some x.2) as Hg.
    { apply bt_get_ok; [apply Hok1|by destruct x]. }
    assert (total (ooo (ooo_forget (drop_stale f) x.1)) = total (ooo (drop_stale f)) - len x.2) as Ht2.
    { unfold ooo_forget. rewrite Hg. simpl. by apply bt_remove_total. }
    edestruct (IH (o + len x.2)) as [? IHa]; [by apply advance_ok| |by apply Hw|].
    { destruct Hdr1 as [Hdn ? ? Hde]. split; simpl; [|lia..|].
      - rewrite Hn2, Hdn, wadd32_wrap. f_equal. lia.
      - intros y [Hy _]%Hsub2. auto. }
    split; [done|]. intros Ha. destruct (IHa Ha) as (pos' & ? & ?). exists pos'. split; [lia|done].
Qed.

(** Between segments the receive side is at stream position [pos]. *)
Record rcv_at (pos : Z) f : Prop := {
  ra_nxt : rcv_nxt f = wrap32 (b + pos + Z.b2z (guest_fin_rcvd f));
  ra_pos : 0 ≤ pos ≤ len st;
  ra_fin : guest_fin_rcvd f = true → pos = len st;
  ra_ent : ∀ x, x ∈ ooo f → ∃ o, pos < o < pos + 2 ^ 31 ∧ carried o x.1 x.2 }.

(** The segment carries bytes of the stream within half the sequence space
    of [pos], its FIN the stream's end. *)
Definition fits (pos : Z) (seg : Segment) : Prop :=
  sg_payload seg ≠ [] ∨ seg_fin seg = true →
  ∃ o, Z.abs (o - pos) < 2 ^ 31 - 1 ∧ carried o (sg_seq seg) (sg_payload seg) ∧
       (seg_fin seg = true → o + len (sg_payload seg) = len st).

(** The host has received exactly the first bytes of the stream, and its
    write half is open until the guest's FIN was taken. *)
Definition delivered f w (open : bool) : Prop :=
  rcv_ok f ∧ ∃ pos, rcv_at pos f ∧ written w = take (Z.to_nat pos) st ∧ open = negb (guest_fin_rcvd f).

Lemma rcv_at_only pos f f' :
  rcv_at pos f → rcv_nxt f' = rcv_nxt f → ooo f' = ooo f → guest_fin_rcvd f' = guest_fin_rcvd f → rcv_at pos f'.
Proof. intros [] Hn Ho Hf. split; rewrite ?Hn, ?Ho, ?Hf; done. Qed.

Lemma rcv_only_fin f f' : rcv_only f f' → guest_fin_rcvd f' = guest_fin_rcvd f.
Proof. intros ->. done. Qed.

(** Once the guest's FIN was taken every payload is a duplicate. *)
Lemma after_fin_duplicate pos f seg o :
  rcv_at pos f → guest_fin_rcvd f = true → Z.abs (o - pos) < 2 ^ 31 - 1 →
  carried o (sg_seq seg) (sg_payload seg) →
  seq_le (sg_seq seg) (rcv_nxt f) = true ∧ len (sg_payload seg) ≤ wsub32 (rcv_nxt f) (sg_seq seg).
Proof.
  intros [Hn Hp Hf _] Hfin Ho (Hq & ? & ? & _). specialize (Hf Hfin). rewrite Hfin in Hn. simpl in Hn.
  pose proof (len_nonneg (sg_payload seg)). rewrite Hn, Hq, seq_le_pos, seq_dist by lia. split; [apply Z.leb_le|]; lia.
Qed.

Lemma payload_case_stream f seg w open f' w' a o pos :
  payload_case f seg w open f' w' a → rcv_ok f → seg_ok seg → sg_payload seg ≠ [] →
  rcv_at pos f → written w = take (Z.to_nat pos) st → open = negb (guest_fin_rcvd f) →
  Z.abs (o - pos) < 2 ^ 31 - 1 → carried o (sg_seq seg) (sg_payload seg) →
  written w' `prefix_of` st ∧
  (a = true → ∃ pos', pos ≤ pos' ∧ (o ≤ pos → o + len (sg_payload seg) ≤ pos') ∧ rcv_at pos' f' ∧
                      written w' = take (Z.to_nat pos') st).
Proof.
  intros Hc Hok Hseg Hne Hat Hw Hop Ho Hcar.
  assert (written w `prefix_of` st) by (rewrite Hw; by eexists; rewrite take_drop).
  destruct (guest_fin_rcvd f) eqn:Hfin.
  { destruct (after_fin_duplicate _ _ _ _ Hat Hfin Ho Hcar) as [? ?]. destruct Hc; try lia; [|congruence].
    split; [done|]. intros _. exists pos. pose proof (ra_fin _ _ Hat Hfin). destruct Hcar as (_ & _ & ? & _).
    split_and!; try done; lia. }
  subst open. pose proof Hat as [Hn Hp _ He]. pose proof Hcar as (Hq & ? & Hend & _).
  rewrite Hfin in Hn. simpl in Hn. rewrite Z.add_0_r in Hn. pose proof (so_payload _ Hseg).
  pose proof (ro_max _ Hok) as Hmax. change OOO_MAX_BYTES with 65535 in Hmax.
  assert (∀ d, seq_le (sg_seq seg) (rcv_nxt f) = true → d = wsub32 (rcv_nxt f) (sg_seq seg) → d = pos - o ∧ o ≤ pos)
    as Hoff.
  { intros d Hle ->. rewrite Hn, Hq in Hle |- *. rewrite seq_le_pos in Hle by lia. apply Z.leb_le in Hle.
    rewrite seq_dist by lia. lia. }
  destruct Hc as [Hle Hdup|d w' Hle Hd Hlt Hwr|d w1 f' w' a Hle Hd Hlt Hwr Hdr|Hgt].
  - split; [done|]. intros _. destruct (Hoff _ Hle eq_refl) as [Hd ?]. exists pos. split_and!; try done; lia.
  - destruct (Hoff d Hle Hd) as [-> ?]. rewrite (carried_tail o (sg_seq seg)) in Hwr by (done || lia).
    replace (o + (pos - o)) with pos in Hwr by lia. apply write_next with (pos := pos) in Hwr as [? _]; [|done|lia]. done.
  - destruct (Hoff d Hle Hd) as [-> ?]. rewrite (carried_tail o (sg_seq seg)) in Hwr by (done || lia).
    replace (o + (pos - o)) with pos in Hwr by lia. apply write_next with (pos := pos) in Hwr as [_ Hwr]; [|done|lia].
    pose proof (drains_ok _ _ _ _ _ _ Hdr (advance_ok _ _ Hok)) as [_ Hro%rcv_only_fin].
    apply drains_stream with (P0 := pos) (pos := o + len (sg_payload seg)) in Hdr;
      [|by apply advance_ok| |by apply Hwr].
    + destruct Hdr as [Hpre Ha]. split; [done|]. intros Hat'. destruct (Ha Hat') as (pos' & ? & Hd' & Hw' & Hnone).
      exists pos'. split; [lia|]. split; [lia|]. split; [|done]. destruct Hd' as [Hn' Hp' Hb' He']. simpl in Hro. split.
      * rewrite Hn', Hro, Hfin. simpl. f_equal. lia.
      * lia.
      * rewrite Hro, Hfin. done.
      * intros x Hx. destruct (He' x Hx) as (o' & ? & Hc'). exists o'. split; [|done]. split; [|lia].
        specialize (Hnone x Hx). pose proof Hc' as (Hq' & _). pose proof (total_nonneg (ooo f')).
        rewrite Hn', Hq', seq_le_pos in Hnone by lia. apply Z.leb_gt in Hnone. lia.
    + split; simpl; [|lia..|].
      * rewrite Hn, wadd32_wrap. f_equal. lia.
      * intros x Hx. destruct (He x Hx) as (o' & ? & ?). exists o'. split; [lia|done].
  - split; [done|]. intros _. destruct (queue_ooo_ok f (sg_seq seg) (sg_payload seg) Hok) as (_ & Hro & Hn' & Hx).
    { apply Hseg. } { destruct (sg_payload seg); [done|len_lia]. }
    apply rcv_only_fin in Hro. rewrite Hn, Hq, seq_le_pos in Hgt by lia. apply Z.leb_gt in Hgt.
    exists pos. split; [lia|]. split; [lia|]. split; [|done]. split; [by rewrite Hn', Hro, Hn, Hfin; simpl; rewrite Z.add_0_r|lia|by rewrite Hro, Hfin|].
    intros x [->|Hin]%Hx; [|auto]. exists o. split; [lia|done].
Qed.

End receive.

(** ** What the send side keeps *)

Definition tx_size (s : TxSeg) : Z := len (tx_data s) + Z.b2z (tx_fin s).

Lemma tx_end_size s x : tx_seq s = wrap32 x → tx_end s = wrap32 (x + tx_size s).
Proof. intros Hs. unfold tx_end, tx_size. rewrite Hs, !wadd32_wrap. f_equal. lia. Qed.

(** The queue holds the bytes of [sent] from position [A] on, each segment at
    its sequence number ([bs] is that of position 0), up to position [N]; a
    FIN stands after the last byte. *)
Fixpoint holds (bs : Z) (sent : bytes) (A : Z) (q : list TxSeg) (N : Z) : Prop :=
  match q with
  | [] => A = N
  | s :: r =>
      tx_seq s = wrap32 (bs + A) ∧ A + len (tx_data s) ≤ len sent ∧
      tx_data s = slice sent A (A + len (tx_data s)) ∧
      (tx_fin s = true → A + len (tx_data s) = len sent) ∧ 1 ≤ tx_size s ≤ 65535 ∧
      holds bs sent (A + tx_size s) r N
  end.

Lemma holds_le bs sent A q N : holds bs sent A q N → A ≤ N.
Proof.
  revert A. induction q as [|s q IH]; intros A; simpl; [lia|].
  intros (_ & _ & _ & _ & ? & ?%IH). lia.
Qed.

(** Sending appends at the end, as long as no FIN was sent. *)
Lemma holds_snoc bs sent A q s d :
  0 ≤ A → holds bs sent A q (len sent) → tx_seq s = wrap32 (bs + len sent) → tx_data s = d →
  1 ≤ tx_size s ≤ 65535 → holds bs (sent ++ d) A (q ++ [s]) (len sent + tx_size s).
Proof.
  intros HA Hq Hs <- Hsz. revert A HA Hq. induction q as [|t q IH]; intros A HA; simpl.
  - intros ->. rewrite len_app. split_and!; try done; try lia.
    rewrite slice_app_r by lia. rewrite Z.sub_diag. by rewrite slice_full by lia.
  - intros (? & Hle & Hd & Hfin & ? & Hr). pose proof (holds_le _ _ _ _ _ Hr). rewrite len_app.
    pose proof (len_nonneg (tx_data s)). pose proof (len_nonneg (tx_data t)).
    split_and!; [done|lia|by rewrite slice_app_l by lia| |lia|lia|apply IH; [lia|done]].
    intros Hf. specialize (Hfin Hf). unfold tx_size in *. rewrite Hf in *. simpl in *. lia.
Qed.

(** Popping what [U] acknowledges leaves the queue from the segment that contains [U] on. *)
Lemma pop_acked_holds bs sent A q N U :
  holds bs sent A q N → A ≤ U ≤ N → N - A < 2 ^ 31 →
  ∃ A', A ≤ A' ≤ U ∧ holds bs sent A' (pop_acked (wrap32 (bs + U)) q) N ∧
        match pop_acked (wrap32 (bs + U)) q with [] => U = N | s :: _ => U < A' + tx_size s end.
Proof.
  revert A. induction q as [|s q IH]; intros A; simpl.
  - intros -> ? ?. exists N. split_and!; try done; lia.
  - intros (Hs & ? & ? & ? & Hsz & Hr) HU HN. rewrite (tx_end_size s (bs + A)), seq_le_pos by (done || lia).
    destruct (Z.leb_spec (bs + A + tx_size s) (bs + U)).
    + destruct (IH _ Hr) as (A' & ? & ?); [lia..|]. exists A'. split; [lia|done].
    + exists A. simpl. split_and!; try done; lia.
Qed.

(** The send side, when [sent] was read from the host and [U] of it is acknowledged. *)
Record snd_at (bs : Z) (sent : bytes) (f : Flow) (A U N : Z) : Prop := {
  sa_nxt : snd_nxt f = wrap32 (bs + N);
  sa_una : snd_una f = wrap32 (bs + U);
  sa_end : N = len sent + Z.b2z (our_fin_sent f);
  sa_holds : holds bs sent A (unacked f) N;
  sa_range : 0 ≤ A ≤ U ∧ U ≤ N ≤ U + 65535;
  sa_front : match unacked f with [] => U = N | s :: _ => U < A + tx_size s end;
  sa_timer : is_Some (rto_at f) ↔ unacked f ≠ [];
  sa_retries : 0 ≤ retries f ≤ MAX_RETRIES;
  sa_wnd : is_u16 (peer_wnd f);
  sa_mss : is_u16 (mss f) }.
Definition snd_ok (bs : Z) (sent : bytes) (f : Flow) : Prop := ∃ A U N, snd_at bs sent f A U N.

Lemma snd_at_span bs sent f A U N : snd_at bs sent f A U N → N - A ≤ 131070.
Proof.
  intros [_ _ _ Hh Hr Hf _ _ _ _]. destruct (unacked f) as [|s q]; simpl in *; [lia|].
  destruct Hh as (_ & _ & _ & _ & ? & _). lia.
Qed.

Lemma snd_at_flight bs sent f A U N : snd_at bs sent f A U N → in_flight f = N - U.
Proof. intros [Hn Hu _ _ Hr _ _ _ _ _]. unfold in_flight. rewrite Hn, Hu, seq_dist; lia. Qed.

(** [g] and [f] agree on what the send side owns. *)
Definition same_snd (f g : Flow) : Prop :=
  snd_nxt g = snd_nxt f ∧ snd_una g = snd_una f ∧ peer_wnd g = peer_wnd f ∧ mss g = mss f ∧
  unacked g = unacked f ∧ retries g = retries f ∧ rto_at g = rto_at f ∧ our_fin_sent g = our_fin_sent f.

Lemma same_snd_ok bs sent f g : same_snd f g → snd_ok bs sent f → snd_ok bs sent g.
Proof.
  intros (H1 & H2 & H3 & H4 & H5 & H6 & H7 & H8) (A & U & N & []). exists A, U, N.
  split; rewrite ?H1, ?H2, ?H3, ?H4, ?H5, ?H6, ?H7, ?H8; done.
Qed.

Lemma rcv_only_snd f g : rcv_only f g → same_snd f g.
Proof. intros ->. by repeat split. Qed.

(** Acknowledgements: only the window moves, or [U] moves within what was sent. *)
Lemma on_ack_ok bs sent f now seg : snd_ok bs sent f → seg_ok seg → snd_ok bs sent (on_ack f now seg).
Proof.
  intros (A & U & N & Hs) [_ Hack Hwnd _ _]. pose proof (snd_at_span _ _ _ _ _ _ Hs) as Hspan.
  destruct Hs as [Hn Hu He Hh Hr Hf Ht Hre Hw Hm]. unfold on_ack. destruct (seg_ack seg); simpl; [|exists A, U, N; by split].
  destruct (_ || _) eqn:Hc; [exists A, U, N; by split|]. apply orb_false_iff in Hc as [Hc1%Z.eqb_neq Hc2%Z.ltb_ge].
  rewrite Hn, Hu, seq_dist in Hc2 by lia. set (δ := wsub32 (sg_ack seg) (wrap32 (bs + U))) in *.
  rewrite Hu in Hc1. fold δ in Hc1. assert (0 ≤ δ) by (apply Z.mod_pos_bound; lia).
  assert (sg_ack seg = wrap32 (bs + (U + δ))) as ->.
  { rewrite Z.add_assoc. symmetry. by apply wrap32_sub_add. }
  destruct (pop_acked_holds _ _ _ _ _ (U + δ) Hh) as (A' & ? & Hh' & Hf'); [lia..|].
  exists A', (U + δ), N. split; simpl; try done; [lia|].
  destruct (pop_acked _ _); split; intros Hi; try done.
Qed.

(** New data within the allowance keeps everything sent inside the guest's window. *)
Lemma allowance_spec bs sent f :
  snd_ok bs sent f → 0 < send_allowance f →
  send_allowance f ≤ mss f ∧ in_flight f + send_allowance f ≤ peer_wnd f.
Proof.
  intros (A & U & N & Hs). pose proof (snd_at_flight _ _ _ _ _ _ Hs) as Hfl. destruct Hs as [_ _ _ _ Hr _ _ _ Hw Hm].
  unfold is_u16 in *. unfold send_allowance, sat_sub. rewrite Hfl. case_match; [lia|].
  apply orb_false_iff in H as [?%Z.eqb_neq _]. lia.
Qed.

Lemma send_data_eq e f now d fin :
  (send_data e f now d fin).2 =
  set_timer (set_snd f (tx_end (mkTx (snd_nxt f) d fin)) (snd_una f) (unacked f ++ [mkTx (snd_nxt f) d fin]))
            (retries f) (Some (default (now + RTO) (rto_at f))).
Proof. unfold send_data. simpl. destruct f as [??????????? [t|] ???]; reflexivity. Qed.

Lemma send_data_ok bs sent e f now d (fin : bool) :
  snd_ok bs sent f → our_fin_sent f = false →
  1 ≤ len d + Z.b2z fin → in_flight f + len d + Z.b2z fin ≤ peer_wnd f →
  let g := (send_data e (if fin then set_our_fin f else f) now d fin).2 in
  snd_ok bs (sent ++ d) g ∧ our_fin_sent g = fin ∧ in_flight g ≤ peer_wnd g ∧
  mss g = mss f ∧ rcv_nxt g = rcv_nxt f ∧ ooo g = ooo f ∧ ooo_bytes g = ooo_bytes f ∧
  guest_fin_rcvd g = guest_fin_rcvd f.
Proof.
  intros (A & U & N & Hs) Hof Hne Hw. pose proof (snd_at_flight _ _ _ _ _ _ Hs) as Hfl.
  destruct Hs as [Hn Hu He Hh Hr Hf Ht Hre Hwd Hm]. rewrite Hof in He. simpl in He. rewrite Z.add_0_r in He. subst N.
  set (f0 := if fin then set_our_fin f else f).
  set (s := mkTx (snd_nxt f) d fin). assert (tx_size s = len d + Z.b2z fin) as Hsz by done.
  rewrite send_data_eq. fold f0.
  set (g := set_timer _ _ _). unfold is_u16 in Hwd.
  assert (unacked g = unacked f ++ [s]) as Hq by (subst g s f0; by destruct fin).
  assert (snd_at bs (sent ++ d) g A U (len sent + tx_size s)) as Hg.
  { split.
    - rewrite Z.add_assoc, <-(tx_end_size s) by done. subst g s f0. by destruct fin.
    - subst g f0. rewrite <-Hu. by destruct fin.
    - subst g s f0. rewrite len_app. unfold tx_size. destruct fin; simpl; rewrite ?Hof; simpl; lia.
    - pose proof (holds_snoc bs sent A (unacked f) s d ltac:(lia) Hh Hn eq_refl ltac:(lia)).
      by rewrite Hq.
    - lia.
    - rewrite Hq. destruct (unacked f); simpl in *; lia.
    - rewrite Hq. split; [by destruct (unacked f)|]. intros _. subst g. simpl. eauto.
    - subst g s f0. by destruct fin.
    - subst g s f0. by destruct fin.
    - subst g s f0. by destruct fin. }
  split; [by exists A, U, (len sent + tx_size s)|].
  assert (peer_wnd g = peer_wnd f) as -> by (subst g s f0; by destruct fin).
  rewrite (snd_at_flight _ _ _ _ _ _ Hg). split_and!; [|lia|..];
    subst g s f0; by destruct fin.
Qed.

(** ** One segment from the guest *)

(** The flow after the acknowledgement of [seg] was processed. *)
Definition acked (f : Flow) (now : Z) (seg : Segment) : Flow := on_ack (set_active f now) now seg.

Lemma acked_rcv f now seg :
  rcv_nxt (acked f now seg) = rcv_nxt f ∧ ooo (acked f now seg) = ooo f ∧
  ooo_bytes (acked f now seg) = ooo_bytes f ∧ guest_fin_rcvd (acked f now seg) = guest_fin_rcvd f ∧
  mss (acked f now seg) = mss f ∧ our_fin_sent (acked f now seg) = our_fin_sent f.
Proof. unfold acked, on_ack. destruct (negb _); [done|]. by destruct (_ || _). Qed.

Lemma rcv_ok_ext f g :
  rcv_nxt g = rcv_nxt f → ooo g = ooo f → ooo_bytes g = ooo_bytes f → rcv_ok f → rcv_ok g.
Proof. intros Hn Ho Hb []. split; rewrite ?Hn, ?Ho, ?Hb; done. Qed.

Lemma acked_rcv_ok f now seg : rcv_ok f → rcv_ok (acked f now seg).
Proof. destruct (acked_rcv f now seg) as (? & ? & ? & _). by apply rcv_ok_ext. Qed.

Lemma acked_snd_ok bs sent f now seg : snd_ok bs sent f → seg_ok seg → snd_ok bs sent (acked f now seg).
Proof. intros Hs. apply on_ack_ok. eapply same_snd_ok; [|done]. by repeat split. Qed.

Section segment.
Context {W : Type} `{AsyncWrite W}.

Lemma on_fin_ok f seg (w : W) open :
  rcv_ok f → rcv_ok (on_fin f seg w open).1.1 ∧ same_snd f (on_fin f seg w open).1.1.
Proof.
  intros Hok. unfold on_fin. destruct (_ && _); [|by destruct f].
  assert (rcv_ok (set_guest_fin (set_rcv f (wadd32 (rcv_nxt f) 1) (ooo f) (ooo_bytes f)))).
  { eapply rcv_ok_ext; [..|by apply (advance_ok f 1)]; done. }
  by destruct open.
Qed.

(** The parts of [on_segment]: payload, then FIN, then the acknowledgement. *)
Lemma on_segment_parts e f now seg (w : W) open :
  rcv_ok f → seg_rst seg = false →
  ∃ e1 f1 w1 a,
    (if bool_decide (sg_payload seg = []) then f1 = acked f now seg ∧ w1 = w ∧ a = true
     else payload_case (acked f now seg) seg w open f1 w1 a) ∧
    on_segment e f now seg w open =
      if a then
        let r := if seg_fin seg then on_fin f1 seg w1 open else (f1, w1, open) in
        Ret (if negb (bool_decide (sg_payload seg = [])) || seg_fin seg then send_ack e1 r.1.1 else e1,
             r.1.1, r.1.2, r.2, true)
      else Ret (e1, f1, w1, open, false).
Proof.
  intros Hok Hrst. unfold on_segment. rewrite Hrst. fold (acked f now seg).
  case_bool_decide as Hp.
  - exists e, (acked f now seg), w, true. split; [done|]. rewrite Hp. cbn [mbind outcome_bind negb].
    destruct (if seg_fin seg then _ else _) as [[??]?]. done.
  - destruct (on_payload_case e (acked f now seg) seg w open) as (e1 & f1 & w1 & a & He & Hc);
      [by apply acked_rcv_ok|].
    exists e1, f1, w1, a. split; [done|]. destruct (sg_payload seg); [done|].
    rewrite He. cbn [mbind outcome_bind]. destruct a; [|done]. cbn [negb].
    destruct (if seg_fin seg then _ else _) as [[??]?]. done.
Qed.

(** A segment never panics the flow, and a flow that survives it is still in order. *)
Lemma on_segment_ok bs sent e f now seg (w : W) open :
  rcv_ok f → snd_ok bs sent f → seg_ok seg →
  ∃ e' f' w' open' a, on_segment e f now seg w open = Ret (e', f', w', open', a) ∧
    (a = true → rcv_ok f' ∧ snd_ok bs sent f' ∧ mss f' = mss f ∧ our_fin_sent f' = our_fin_sent f).
Proof.
  intros Hr Hs Hseg. destruct (seg_rst seg) eqn:Hrst.
  { unfold on_segment. rewrite Hrst. eexists _, _, _, _, _. split; [done|done]. }
  destruct (on_segment_parts e f now seg w open Hr Hrst) as (e1 & f1 & w1 & a & Hc & ->).
  assert (rcv_ok f1 ∧ same_snd (acked f now seg) f1) as [Hr1 Hs1].
  { pose proof (acked_rcv_ok f now seg Hr). case_bool_decide; [destruct Hc as (-> & _); split; [done|by repeat split]|].
    apply payload_case_ok in Hc as [? ?]; auto using rcv_only_snd. }
  destruct a; [|by eexists _, _, _, _, _; split].
  eexists _, _, _, _, _. split; [done|]. intros _.
  assert (let r := if seg_fin seg then on_fin f1 seg w1 open else (f1, w1, open) in
          rcv_ok r.1.1 ∧ same_snd f1 r.1.1) as [Hr2 Hs2].
  { simpl. destruct (seg_fin seg); [by apply on_fin_ok|]. split; [done|by repeat split]. }
  destruct (acked_rcv f now seg) as (_ & _ & _ & _ & <- & <-). split; [done|]. split; [|split].
  - eapply same_snd_ok; [exact Hs2|]. eapply same_snd_ok; [exact Hs1|]. by apply acked_snd_ok.
  - destruct Hs1 as (_ & _ & _ & <- & _). by destruct Hs2 as (_ & _ & _ & <- & _).
  - destruct Hs1 as (_ & _ & _ & _ & _ & _ & _ & <-). by destruct Hs2 as (_ & _ & _ & _ & _ & _ & _ & <-).
Qed.

End segment.

Section receive_segment.
Context {W : Type} `{AsyncWriteLaws W} (st : bytes) (b : Z).

Lemma on_fin_stream f seg (w : W) open pos o :
  rcv_at st b pos f → written w = take (Z.to_nat pos) st → open = negb (guest_fin_rcvd f) →
  carried st b o (sg_seq seg) (sg_payload seg) → o + len (sg_payload seg) = len st → len st - pos < 2 ^ 32 →
  let r := on_fin f seg w open in
  rcv_at st b pos r.1.1 ∧ written r.1.2 = take (Z.to_nat pos) st ∧ r.2 = negb (guest_fin_rcvd r.1.1).
Proof.
  intros Hat Hw Hop (Hq & ? & ? & _) Hend Hd. unfold on_fin. destruct (_ && _) eqn:Hc; [|by subst open].
  apply andb_prop in Hc as [Hc%Z.eqb_eq Hnf%negb_true_iff]. destruct Hat as [Hn Hp _ He].
  rewrite Hnf in *. simpl in *. subst open. rewrite Hn, Hq, wadd32_wrap in Hc.
  apply wrap32_inj in Hc; [|lia]. assert (pos = len st) as Hpos by lia. simpl.
  split_and!; [|by rewrite shutdown_written|done]. split; simpl; [|lia|done|].
  - rewrite Hn, wadd32_wrap. f_equal. lia.
  - intros x Hx. destruct (He x Hx) as (o' & ? & (_ & _ & ? & _)). pose proof (len_nonneg x.2). lia.
Qed.

(** From [pos] on, the host has at least the payload that starts at or before [pos] after [pos']. *)
Definition reaches (pos : Z) (seg : Segment) (pos' : Z) : Prop :=
  ∀ o, Z.abs (o - pos) < 2 ^ 31 - 1 → carried st b o (sg_seq seg) (sg_payload seg) → o ≤ pos →
       sg_payload seg ≠ [] → o + len (sg_payload seg) ≤ pos'.

Lemma len_take_pos pos : 0 ≤ pos ≤ len st → len (take (Z.to_nat pos) st) = pos.
Proof. intros. rewrite len_take, Z2Nat.id; lia. Qed.

(** A segment of the guest's stream extends what the host received, or leaves it. *)
Lemma on_segment_stream e f now seg (w : W) open e' f' w' open' a :
  delivered st b f w open → seg_ok seg → fits st b (len (written w)) seg →
  on_segment e f now seg w open = Ret (e', f', w', open', a) →
  written w' `prefix_of` st ∧
  (a = true → delivered st b f' w' open' ∧ reaches (len (written w)) seg (len (written w'))).
Proof.
  intros (Hr & pos & Hat & Hw & Hop) Hseg Hfit Heq.
  assert (written w `prefix_of` st) by (rewrite Hw; by eexists; rewrite take_drop).
  assert (len (written w) = pos) as Hpos.
  { rewrite Hw. apply len_take_pos, (ra_pos _ _ _ _ Hat). }
  rewrite Hpos in Hfit |- *. destruct (seg_rst seg) eqn:Hrst.
  { unfold on_segment in Heq. rewrite Hrst in Heq. by simplify_eq. }
  destruct (on_segment_parts e f now seg w open Hr Hrst) as (e1 & f1 & w1 & a1 & Hc & Heq').
  rewrite Heq in Heq'. clear Heq. destruct (acked_rcv f now seg) as (Hn & Ho & _ & Hf & _).
  pose proof (acked_rcv_ok f now seg Hr) as Hgr.
  assert (rcv_at st b pos (acked f now seg)) as Hga by (by eapply rcv_at_only).
  set (g := acked f now seg) in *. rewrite <-Hf in Hop.
  assert (rcv_ok f1 ∧ guest_fin_rcvd f1 = guest_fin_rcvd g ∧ written w1 `prefix_of` st ∧
          (a1 = true → ∃ pos', pos ≤ pos' ∧ reaches pos seg pos' ∧ rcv_at st b pos' f1 ∧
                               written w1 = take (Z.to_nat pos') st))
    as (Hr1 & Hf1 & Hpre & Hstep).
  { case_bool_decide as Hp.
    - destruct Hc as (-> & -> & ->). split_and!; try done. intros _. exists pos. split; [lia|]. split; [by intros ? _ _ _ ?|done].
    - destruct (Hfit (or_introl Hp)) as (o & Hd & Hcar & _).
      destruct (payload_case_ok _ _ _ _ _ _ _ Hc Hgr Hseg Hp) as [? Hro%rcv_only_fin].
      destruct (payload_case_stream st b _ _ _ _ _ _ _ o pos Hc Hgr Hseg Hp Hga Hw Hop Hd Hcar) as [? Hs].
      split_and!; try done. intros Ha. destruct (Hs Ha) as (pos' & ? & Hre & ?). exists pos'. split; [done|]. split; [|done].
      intros o' ? Hcar' ? _. assert (o' = o) as ->; [|auto]. destruct Hcar as (Hq & _), Hcar' as (Hq' & _).
      rewrite Hq in Hq'. apply wrap32_inj in Hq'; lia. }
  destruct a1; cbv zeta in Heq'; simplify_eq; [|by split]. destruct (Hstep eq_refl) as (pos' & Hle & Hre & Hat1 & Hw1).
  pose proof (len_take_pos pos' (ra_pos _ _ _ _ Hat1)) as Hlen.
  destruct (seg_fin seg) eqn:Hfin.
  - destruct (Hfit (or_intror Hfin)) as (o & Hd & Hcar & Hend).
    destruct (on_fin_stream f1 seg w1 (negb (guest_fin_rcvd g)) pos' o) as (Hat2 & Hw2 & Hop2); try done.
    { by rewrite Hf1. } { auto. } { rewrite <-Hend by done. pose proof (so_payload _ Hseg). lia. }
    split; [rewrite Hw2; by eexists; rewrite take_drop|]. intros _.
    split; [split; [by apply on_fin_ok|]; by exists pos'|]. by rewrite Hw2, Hlen.
  - split; [done|]. intros _. split; [|simpl; by rewrite Hw1, Hlen].
    split; [done|]. exists pos'. split_and!; try done. simpl. by rewrite Hf1.
Qed.

End receive_segment.
