(* ===== verification/VtcpTask.v ===== *)
(** * The life of a vTCP flow task

    The handshakes and the proxy loop of [Vtcp] as runs of turns, each with
    an arbitrary engine state and clock: what every reachable state
    satisfies, what the host and the guest receive, and how a flow ends. *)

From S2P Require Import Prelude Checksum Frame NatEngine.
From S2P Require Import Vtcp VtcpFlow.

Section task.
Context {W : Type} `{AsyncWrite W}.
Implicit Types (f : Flow) (w : W) (p : Proxy W) (t : Task W).

(** ** Runs *)

(** The segment of an event, and the host bytes it reads. *)
Definition event_seg (ev : TaskEvent) : option Segment :=
  match ev with Hs (HsRecv (Some seg)) _ | Px (Recv (Some seg)) => Some seg | _ => None end.
Definition event_read (ev : TaskEvent) : bytes := match ev with Px (Read d) => d | _ => [] end.
Definition event_ok (ev : TaskEvent) : Prop := ∀ seg, event_seg ev = Some seg → seg_ok seg.

(** A run of turns from [t0]; [ok] restricts the segments of the guest. The
    engine and the clock of each turn are arbitrary: other tasks ran in between. *)
Inductive task_run (ok : Task W → TaskEvent → Prop) (t0 : Task W) : list TaskEvent → Task W → Prop :=
| run_start : task_run ok t0 [] t0
| run_turn tr t e now ev e' t' :
    task_run ok t0 tr t → task_enabled now t ev = true → event_ok ev → ok t ev →
    task_turn e now t ev = Ret (e', t') → task_run ok t0 (tr ++ [ev]) t'.

Definition any_guest (t : Task W) (ev : TaskEvent) : Prop := True.

Definition reads (tr : list TaskEvent) : bytes := concat (event_read <$> tr).

Lemma reads_snoc tr ev : reads (tr ++ [ev]) = reads tr ++ event_read ev.
Proof. unfold reads. rewrite fmap_app, concat_app. simpl. by rewrite app_nil_r. Qed.

(** The task of a new flow with initial sequence number [isn] over the stream [w]. *)
Definition spawned (isn : Z) (w : W) (t : Task W) : Prop :=
  ∃ e now k mac, is_u16 (nat_mtu (cfg e)) ∧ is_u32 isn ∧
    ((∃ syn, seg_ok syn ∧ t = (spawn_passive e k mac syn isn now w).2) ∨
     t = (spawn_active e k mac isn now w).2).

(** ** The invariant *)

(** A handshake: nothing sent but the SYN at [bs - 1], nothing received. *)
Record hs_inv (bs : Z) f : Prop := {
  hi_nxt : snd_nxt f = wrap32 bs;
  hi_unacked : unacked f = [];
  hi_ooo : ooo f = [] ∧ ooo_bytes f = 0;
  hi_rcv : is_u32 (rcv_nxt f);
  hi_fin : our_fin_sent f = false ∧ guest_fin_rcvd f = false;
  hi_retries : 0 ≤ retries f ≤ MAX_RETRIES;
  hi_timer : is_Some (rto_at f);
  hi_mss : is_u16 (mss f) }.

Record px_inv (bs : Z) (sent : bytes) p : Prop := {
  pi_rcv : rcv_ok (px_flow p);
  pi_snd : snd_ok bs sent (px_flow p);
  pi_buf : mss (px_flow p) ≤ buf_len p;
  pi_done : rd_done p = our_fin_sent (px_flow p) }.

Definition task_inv (bs : Z) (sent : bytes) t : Prop :=
  match t with
  | SynReceived f _ _ | SynSent f _ _ => hs_inv bs f ∧ sent = []
  | Proxying p => px_inv bs sent p
  | Gone => True
  end.

Lemma mss_clamp_u16 e : is_u16 (nat_mtu (cfg e)) → 536 ≤ mss_clamp e < 65536.
Proof. unfold is_u16, mss_clamp, sat_sub. lia. Qed.

Lemma spawned_inv isn w t : spawned isn w t → task_inv (isn + 1) [] t.
Proof.
  intros (e & now & k & mac & Hmtu & Hisn & Hc). pose proof (mss_clamp_u16 e Hmtu).
  destruct Hc as [(syn & Hseg & ->)| ->]; simpl; (split; [|done]); split; simpl; try done; eauto.
  - apply wrap32_u32.
  - destruct (sg_mss syn) as [m|] eqn:Hm; [|unfold is_u16; lia].
    apply (so_mss _ Hseg) in Hm. unfold is_u16 in *. lia.
  - unfold is_u16. lia.
Qed.

(** The established flow of a handshake starts with both sides in order. *)
Lemma established_inv bs f nxt wnd m :
  hs_inv bs f → is_u32 nxt → is_u16 wnd → is_u16 m →
  let g := set_timer (set_peer (set_rcv (set_snd f (snd_nxt f) (snd_nxt f) (unacked f)) nxt (ooo f) (ooo_bytes f)) wnd m) 0 None in
  rcv_ok g ∧ snd_ok bs [] g ∧ our_fin_sent g = false.
Proof.
  intros [Hn Hq [Ho Hb] Hr [Hof Hgf] _ _ Hm] Hnxt Hw Hm'. split_and!; [| |done].
  - split; simpl; rewrite ?Ho, ?Hb; try done; [constructor|by intros x ?%elem_of_nil].
  - exists 0, 0, 0. split; simpl; rewrite ?Hn, ?Hq, ?Hof, ?Z.add_0_r; try done.
Qed.

(** ** One turn *)

Lemma allowance_buf bs sent f n : snd_ok bs sent f → mss f ≤ n → n <? send_allowance f = false.
Proof.
  intros Hs Hn. apply Z.ltb_ge. destruct (Z.ltb_spec 0 (send_allowance f)).
  - destruct (allowance_spec _ _ _ Hs); [done|lia].
  - destruct Hs as (A & U & N & Hs). pose proof (sa_mss _ _ _ _ _ _ Hs) as Hm. unfold is_u16 in Hm. lia.
Qed.

Lemma can_read_room bs sent p :
  px_inv bs sent p → can_read p = true →
  our_fin_sent (px_flow p) = false ∧ 0 < send_allowance (px_flow p) ∧
  in_flight (px_flow p) + send_allowance (px_flow p) ≤ peer_wnd (px_flow p).
Proof.
  intros [_ Hs _ _]. unfold can_read, sending. intros [[[_ Hf%negb_true_iff]%andb_prop Ha%Z.ltb_lt]%andb_prop _]%andb_prop.
  split_and!; [done|done|]. by apply (allowance_spec bs sent).
Qed.

Lemma read_inv bs sent e p now d (fin : bool) :
  px_inv bs sent p → can_read p = true → len d ≤ send_allowance (px_flow p) →
  (if fin then d = [] else d ≠ []) →
  let f := (send_data e (if fin then set_our_fin (px_flow p) else px_flow p) now d fin).2 in
  px_inv bs (sent ++ d) (mkProxy f (px_wr p) (wr_open p) (if fin then true else rd_done p) (buf_len p)) ∧
  in_flight f ≤ peer_wnd f.
Proof.
  intros Hi Hc Hl Hd. destruct (can_read_room _ _ _ Hi Hc) as (Hf & Ha & Hroom). destruct Hi as [Hr Hs Hb Hdone].
  destruct (send_data_ok bs sent e (px_flow p) now d fin Hs Hf) as (Hs' & Hof & Hfl & Hm & Hn & Ho & Hob & _).
  { destruct fin; [subst d; done|]. destruct d; [done|]. simpl. len_lia. }
  { destruct fin; [subst d; rewrite len_nil; simpl; lia|simpl; lia]. }
  split; [|done]. split; cbn [px_flow rd_done buf_len]; [by eapply rcv_ok_ext|done|by rewrite Hm|].
  rewrite Hof. destruct fin; [done|]. by rewrite Hdone.
Qed.

Lemma on_rto_inv bs sent e f now :
  snd_ok bs sent f → unacked f ≠ [] →
  match (on_rto e f now).2 with
  | Some g => g = set_timer f (retries f + 1) (Some (now + RTO)) ∧ retries f + 1 ≤ MAX_RETRIES ∧ snd_ok bs sent g
  | None => retries f = MAX_RETRIES
  end.
Proof.
  intros (A & U & N & Hs) Hne. unfold on_rto. simpl. pose proof (sa_retries _ _ _ _ _ _ Hs).
  destruct (Z.ltb_spec MAX_RETRIES (retries f + 1)); simpl; [lia|].
  split; [done|]. split; [done|]. exists A, U, N. destruct Hs. split; simpl; try done. lia.
Qed.

(** A turn of the proxy loop returns, and leaves the flow in order. *)
Lemma proxy_turn_ok bs sent e p now ev :
  px_inv bs sent p → enabled p now ev = true → event_ok (Px ev) →
  ∃ e' r, run_established_turn e p now ev = Ret (e', r) ∧
          ∀ p', r = Some p' → px_inv bs (sent ++ event_read (Px ev)) p'.
Proof.
  intros Hi Hen Hok. pose proof Hi as [Hr Hs Hb Hd]. unfold run_established_turn.
  destruct (closed_both_ways _); [by eexists _, _|]. rewrite (allowance_buf bs sent) by done.
  destruct ev as [[seg|]|d| | |]; simpl in *.
  - specialize (Hok seg eq_refl).
    destruct (on_segment_ok bs sent e (px_flow p) now seg (px_wr p) (wr_open p) Hr Hs Hok)
      as (e' & f' & w' & o' & a & -> & Ha). cbn [mbind outcome_bind].
    eexists _, _. split; [done|]. intros p' Hp. destruct a; simplify_eq. destruct (Ha eq_refl) as (? & ? & Hm & Hf).
    rewrite app_nil_r. split; simpl; [done|done|by rewrite Hm|by rewrite Hf].
  - by eexists _, _.
  - apply andb_prop in Hen as [Hc Hl%Z.leb_le].
    assert (∀ fin : bool, (if fin then d = [] else d ≠ []) → px_inv bs (sent ++ d)
      (mkProxy (send_data e (if fin then set_our_fin (px_flow p) else px_flow p) now d fin).2
               (px_wr p) (wr_open p) (if fin then true else rd_done p) (buf_len p))) as Hinv
      by (intros fin Hf; by apply (read_inv bs sent e p now d fin)).
    destruct d as [|x d]; [specialize (Hinv true eq_refl)|specialize (Hinv false ltac:(done))];
      (eexists _, _; split; [done|]; intros p' [= <-]; exact Hinv).
  - eexists _, _. split; [done|]. intros p' Hp. simplify_eq. by rewrite app_nil_r.
  - destruct (rto_at (px_flow p)) eqn:Ht; [|done].
    pose proof Hs as (A & U & N & Hsat). pose proof (proj1 (sa_timer _ _ _ _ _ _ Hsat) ltac:(eauto)) as Hne.
    pose proof (on_rto_inv bs sent e (px_flow p) now Hs Hne) as Ho.
    destruct (on_rto e (px_flow p) now) as [e' [g|]]; simpl in *; (eexists _, _; split; [done|]); intros p' Hp; simplify_eq/=.
    destruct Ho as (-> & _ & Hs'). rewrite app_nil_r. split; simpl; [eapply rcv_ok_ext; [..|exact Hr]; done|done..].
  - by eexists _, _.
Qed.

Lemma established_ok bs e f now w pending opener :
  rcv_ok f → snd_ok bs [] f → our_fin_sent f = false → (∀ seg, pending = Some seg → seg_ok seg) →
  ∃ e' t, established e f now w pending opener = Ret (e', t) ∧ task_inv bs [] t.
Proof.
  intros Hr Hs Hf Hseg. unfold established. destruct opener; [|by eexists _, _].
  unfold run_established_start. destruct pending as [seg|].
  - destruct (on_segment_ok bs [] e f now seg w true Hr Hs (Hseg seg eq_refl)) as (e' & f' & w' & o' & a & -> & Ha).
    cbn [mbind outcome_bind]. eexists _, _. split; [done|]. destruct a; simpl; [|done].
    destruct (Ha eq_refl) as (? & ? & Hm & Hof). split; simpl; [done|done|rewrite Hm; lia|congruence].
  - eexists _, _. split; [done|]. simpl. split; simpl; [done|done|lia|done].
Qed.

Lemma waiting_inv bs f at_ : hs_inv bs f → retries f + 1 ≤ MAX_RETRIES → hs_inv bs (set_timer f (retries f + 1) (Some at_)).
Proof. intros [] ?. split; simpl; try done; lia. Qed.

(** A turn of a task returns and keeps its invariant. *)
Lemma task_turn_ok bs sent e now t ev :
  task_inv bs sent t → task_enabled now t ev = true → event_ok ev →
  ∃ e' t', task_turn e now t ev = Ret (e', t') ∧ task_inv bs (sent ++ event_read ev) t'.
Proof.
  intros Hi Hen Hok. destruct t as [f isn w|f isn w|p|]; destruct ev as [h opener|pe]; try done;
    cbn [task_inv task_enabled task_turn event_read] in *.
  - destruct Hi as [Hi ->]. destruct h as [[seg|]|]; cbn [run_passive_turn run_active_turn app].
    + specialize (Hok seg eq_refl).
      destruct (seg_rst seg); [by eexists _, _|]. destruct (_ && negb _); [by eexists _, _|].
      destruct (_ && _); [|by eexists _, _].
      destruct (established_inv bs f (rcv_nxt f) (sg_window seg) (mss f) Hi (hi_rcv _ _ Hi) (so_window _ Hok) (hi_mss _ _ Hi))
        as (Hr & Hs & Hf).
      apply (established_ok bs); [exact Hr|exact Hs|exact Hf|by intros ? [= <-]].
    + by eexists _, _.
    + destruct (MAX_RETRIES <? _) eqn:Hlt; [by eexists _, _|]. apply Z.ltb_ge in Hlt. eexists _, _. split; [done|]. simpl.
      split; [exact (waiting_inv bs f (now + RTO) Hi Hlt)|done].
  - destruct Hi as [Hi ->]. destruct h as [[seg|]|]; cbn [run_passive_turn run_active_turn app].
    + specialize (Hok seg eq_refl). destruct (seg_rst seg); [by eexists _, _|]. destruct (_ && _); [|by eexists _, _].
      destruct (established_inv bs f (wadd32 (sg_seq seg) 1) (sg_window seg)
                  (match sg_mss seg with Some m => Z.min (mss f) m | None => mss f end) Hi) as (Hr & Hs & Hf).
      { apply wrap32_u32. } { apply Hok. }
      { pose proof (hi_mss _ _ Hi). destruct (sg_mss seg) eqn:Hm; [|done]. apply (so_mss _ Hok) in Hm.
        unfold is_u16 in *. lia. }
      by apply (established_ok bs).
    + by eexists _, _.
    + destruct (MAX_RETRIES <? _) eqn:Hlt; [by eexists _, _|]. apply Z.ltb_ge in Hlt. eexists _, _. split; [done|]. simpl.
      split; [exact (waiting_inv bs f (now + RTO) Hi Hlt)|done].
  - destruct (proxy_turn_ok bs sent e p now pe Hi Hen Hok) as (e' & r & -> & Hp). cbn [mbind outcome_bind].
    eexists _, _. split; [done|]. destruct r; simpl; auto.
Qed.

Lemma task_run_inv ok bs t0 tr t : task_inv bs [] t0 → task_run ok t0 tr t → task_inv bs (reads tr) t.
Proof.
  intros H0. induction 1 as [|tr t e now ev e' t' Hrun IH Hen Hev _ Heq]; [done|].
  destruct (task_turn_ok bs (reads tr) e now t ev IH Hen Hev) as (? & ? & Heq' & ?).
  rewrite Heq in Heq'. simplify_eq. by rewrite reads_snoc.
Qed.

End task.

(** ** Retry budgets *)

Section budget.
Context {W : Type} `{AsyncWrite W}.

Definition is_timer (ev : TaskEvent) : bool :=
  match ev with Hs HsTimer _ | Px RtoTimer => true | _ => false end.

(** Timer expiries a task survives, the last one included. *)
Definition budget (t : Task W) : Z :=
  match t with
  | SynReceived f _ _ | SynSent f _ _ => MAX_RETRIES + 1 - retries f
  | Proxying p => MAX_RETRIES + 1 - retries (px_flow p)
  | Gone => 0
  end.

Lemma budget_range bs sent (t : Task W) : task_inv bs sent t → 0 ≤ budget t ≤ 6 ∧ (budget t = 0 → t = Gone).
Proof.
  destruct t as [f ? ?|f ? ?|p|]; simpl; intros Hi; [| | |done].
  1, 2: destruct Hi as [Hi _]; pose proof (hi_retries _ _ Hi); unfold MAX_RETRIES in *; lia.
  destruct Hi as [_ (A & U & N & Hs) _ _]. pose proof (sa_retries _ _ _ _ _ _ Hs). unfold MAX_RETRIES in *. lia.
Qed.

Lemma send_data_retries e f now d fin : retries (send_data e f now d fin).2 = retries f.
Proof. by rewrite send_data_eq. Qed.

(** A turn without a segment uses up the budget exactly when it is a timer. *)
Lemma silent_turn_budget bs sent e now (t : Task W) ev e' t' :
  task_inv bs sent t → task_enabled now t ev = true → event_seg ev = None →
  task_turn e now t ev = Ret (e', t') → budget t' + Z.b2z (is_timer ev) ≤ budget t.
Proof.
  intros Hi Hen Hseg Heq. pose proof (budget_range _ _ _ Hi) as [Hb Hb0].
  assert (t ≠ Gone → 1 ≤ budget t) as Hb1.
  { intros Hg. destruct (Z.eqb_spec (budget t) 0); [by destruct Hg; auto|lia]. }
  destruct t as [f isn w|f isn w|p|]; destruct ev as [h opener|pe]; try done;
    cbn [task_enabled task_turn is_timer] in *; specialize (Hb1 ltac:(done)).
  1, 2: destruct h as [[seg|]|]; [done| |];
    cbn [run_passive_turn run_active_turn] in Heq; [simplify_eq; simpl in *; lia|];
    destruct (MAX_RETRIES <? _) eqn:Hlt; simplify_eq; simpl in *; [|lia];
    apply Z.ltb_lt in Hlt; unfold MAX_RETRIES in *; lia.
  unfold run_established_turn in Heq.
  destruct (closed_both_ways _).
  { cbn [mbind outcome_bind] in Heq. simplify_eq. destruct pe; simpl in *; lia. }
  destruct (buf_len p <? _); [done|].
  destruct pe as [[seg|]|d| | |]; try done; cbn [mbind outcome_bind] in Heq.
  - simplify_eq; simpl in *; lia.
  - destruct d as [|x d].
    + pose proof (send_data_retries e (set_our_fin (px_flow p)) now [] true) as Hsr.
      destruct (send_data _ _ _ _ _) as [e1 f1]. cbn [mbind outcome_bind] in Heq. simplify_eq. simpl in *. lia.
    + pose proof (send_data_retries e (px_flow p) now (x :: d) false) as Hsr.
      destruct (send_data _ _ _ _ _) as [e1 f1]. cbn [mbind outcome_bind] in Heq. simplify_eq. simpl in *. lia.
  - simplify_eq/=. lia.
  - cbn [is_timer enabled] in *. destruct (rto_at (px_flow p)) eqn:Ht; [|done].
    destruct Hi as [_ Hs _ _]. pose proof Hs as (A & U & N & Hsat).
    pose proof (on_rto_inv bs sent e (px_flow p) now Hs (proj1 (sa_timer _ _ _ _ _ _ Hsat) ltac:(eauto))) as Ho.
    destruct (on_rto e (px_flow p) now) as [e1 [g|]]; cbn [mbind outcome_bind fmap option_fmap option_map] in Heq; simplify_eq/=; [|lia].
    destruct Ho as (-> & ? & _). simpl. lia.
  - simplify_eq/=. lia.
Qed.

Lemma silent_run_budget ok bs sent (t : Task W) tr t' :
  task_inv bs sent t → task_run ok t tr t' → Forall (λ ev, event_seg ev = None) tr →
  budget t' + len (filter (λ ev, is_timer ev = true) tr) ≤ budget t.
Proof.
  intros Hi. induction 1 as [|tr t1 e now ev e' t' Hrun IH Hen Hev _ Heq]; intros Hsil; [simpl; len_lia|].
  apply Forall_app in Hsil as [Hsil Hs1]. inversion Hs1; subst.
  assert (∃ sent', task_inv bs sent' t1) as [sent' Hi1].
  { clear -Hi Hrun. induction Hrun as [|tr t1 e now ev e' t' _ [s IH] Hen Hev _ Heq]; [by exists sent|].
    destruct (task_turn_ok bs s e now t1 ev IH Hen Hev) as (? & ? & Heq' & ?). rewrite Heq in Heq'. simplify_eq. eauto. }
  pose proof (silent_turn_budget bs sent' e now t1 ev e' t' Hi1 Hen ltac:(done) Heq) as Hstep.
  specialize (IH Hsil). rewrite filter_app, len_app. destruct (is_timer ev) eqn:Htm.
  - rewrite filter_cons_True by done. simpl in *. len_lia.
  - rewrite filter_cons_False by (rewrite Htm; done). simpl in *. len_lia.
Qed.

End budget.

(** ** The streams of a flow *)

Section streams.
Context {W : Type} `{AsyncWriteLaws W} (st : bytes) (b : Z).

(** What the guest sends: the segments of one stream [st] whose first byte has
    sequence number [b]. *)
Definition guest_stream (t : Task W) (ev : TaskEvent) : Prop :=
  ∀ seg, event_seg ev = Some seg →
  match t with
  | SynReceived _ _ _ => fits st b 0 seg
  | SynSent _ _ _ => seg_syn seg = true → wadd32 (sg_seq seg) 1 = wrap32 b
  | Proxying p => fits st b (len (written (px_wr p))) seg
  | Gone => True
  end.

Definition starts_at (t : Task W) : Prop :=
  match t with SynReceived f _ _ => rcv_nxt f = wrap32 b | _ => True end.

Definition task_delivered (t : Task W) : Prop :=
  match t with
  | SynReceived _ _ w => written w = [] ∧ starts_at t
  | SynSent _ _ w => written w = []
  | Proxying p => delivered st b (px_flow p) (px_wr p) (wr_open p)
  | Gone => True
  end.

Lemma established_delivered bs e f now (w : W) pending opener e' t :
  rcv_ok f → snd_ok bs [] f → ooo f = [] → guest_fin_rcvd f = false → rcv_nxt f = wrap32 b → written w = [] →
  (∀ seg, pending = Some seg → seg_ok seg ∧ fits st b 0 seg) →
  established e f now w pending opener = Ret (e', t) → task_delivered t.
Proof.
  intros Hr Hs Ho Hf Hn Hw Hp. unfold established. destruct opener; [|by intros; simplify_eq].
  assert (delivered st b f w true) as Hd.
  { split; [done|]. exists 0. pose proof (len_nonneg st). split_and!; [|by rewrite Hw|by rewrite Hf].
    split; rewrite ?Hf, ?Ho, ?Z.add_0_r; try done. by intros x ?%elem_of_nil. }
  unfold run_established_start. destruct pending as [seg|]; [|intros; by simplify_eq/=].
  destruct (Hp seg eq_refl) as [Hok Hfit]. destruct (on_segment_ok bs [] e f now seg w true Hr Hs Hok)
    as (e1 & f1 & w1 & o1 & a & Heq & _). rewrite Heq. cbn [mbind outcome_bind]. intros [= <- <-].
  apply on_segment_stream with (st := st) (b := b) in Heq as [_ Hd']; [|done|done|by rewrite Hw].
  destruct a; [|done]. by destruct (Hd' eq_refl).
Qed.

Lemma task_turn_delivered bs sent e now (t : Task W) ev e' t' :
  task_inv bs sent t → task_delivered t → task_enabled now t ev = true → event_ok ev → guest_stream t ev →
  task_turn e now t ev = Ret (e', t') → task_delivered t'.
Proof.
  intros Hi Hd Hen Hok Hg Heq. destruct t as [f isn w|f isn w|p|]; destruct ev as [h opener|pe]; try done;
    cbn [task_turn task_inv] in *.
  - destruct Hi as [Hi ->], Hd as [Hw Hst]. destruct h as [[seg|]|]; cbn [run_passive_turn] in Heq.
    + specialize (Hok seg eq_refl). specialize (Hg seg eq_refl).
      destruct (seg_rst seg); [by simplify_eq|]. destruct (_ && negb _); [by simplify_eq|].
      destruct (_ && _); [|by simplify_eq].
      destruct (established_inv bs f (rcv_nxt f) (sg_window seg) (mss f) Hi (hi_rcv _ _ Hi) (so_window _ Hok) (hi_mss _ _ Hi))
        as (Hr & Hs & _).
      eapply (established_delivered bs); [exact Hr|exact Hs|apply Hi|apply Hi|exact Hst|exact Hw| |exact Heq].
      by intros ? [= <-].
    + by simplify_eq.
    + destruct (MAX_RETRIES <? _); by simplify_eq.
  - destruct Hi as [Hi ->]. destruct h as [[seg|]|]; cbn [run_active_turn] in Heq.
    + specialize (Hok seg eq_refl). specialize (Hg seg eq_refl).
      destruct (seg_rst seg); [by simplify_eq|]. destruct (_ && _) eqn:Hc; [|by simplify_eq].
      apply andb_prop in Hc as [[Hsyn _]%andb_prop _].
      destruct (established_inv bs f (wadd32 (sg_seq seg) 1) (sg_window seg)
                  (match sg_mss seg with Some m => Z.min (mss f) m | None => mss f end) Hi) as (Hr & Hs & _).
      { apply wrap32_u32. } { apply Hok. }
      { pose proof (hi_mss _ _ Hi). destruct (sg_mss seg) eqn:Hm; [|done]. apply (so_mss _ Hok) in Hm.
        unfold is_u16 in *. lia. }
      eapply (established_delivered bs _ _ _ _ None); [exact Hr|exact Hs|apply Hi|apply Hi|exact (Hg Hsyn)|exact Hd|by intros ? [=]|exact Heq].
    + by simplify_eq.
    + destruct (MAX_RETRIES <? _); by simplify_eq.
  - unfold run_established_turn in Heq. destruct (closed_both_ways _); [by simplify_eq/=|].
    destruct (buf_len p <? _); [done|]. pose proof Hi as [Hr Hs _ _].
    destruct pe as [[seg|]|d| | |]; cbn [mbind outcome_bind] in Heq; try by simplify_eq/=.
    + specialize (Hok seg eq_refl). specialize (Hg seg eq_refl). cbn in Hg.
      destruct (on_segment_ok bs sent e (px_flow p) now seg (px_wr p) (wr_open p) Hr Hs Hok)
        as (e1 & f1 & w1 & o1 & a & Hon & _). rewrite Hon in Heq. cbn [mbind outcome_bind] in Heq.
      apply on_segment_stream with (st := st) (b := b) in Hon as [_ Hd']; [|done..].
      destruct a; simplify_eq; [|done]. by destruct (Hd' eq_refl).
    + destruct Hd as (_ & pos & Hat & ? & ?). cbn in Hen. apply andb_prop in Hen as [Hc _].
      destruct (can_read_room _ _ _ Hi Hc) as (Hf & Ha & Hroom).
      assert (∀ fin : bool, let g := (send_data e (if fin then set_our_fin (px_flow p) else px_flow p) now d fin).2 in
                delivered st b g (px_wr p) (wr_open p)) as Hdel.
      { intros fin. rewrite send_data_eq. split.
        - eapply rcv_ok_ext; [..|exact Hr]; by destruct fin.
        - exists pos. split_and!; [|done|by destruct fin]. eapply rcv_at_only; [exact Hat|by destruct fin..]. }
      destruct d as [|x d]; [specialize (Hdel true)|specialize (Hdel false)]; cbv iota in Hdel;
        destruct (send_data _ _ _ _ _) as [e1 f1]; cbn [mbind outcome_bind] in Heq; by simplify_eq.
    + destruct Hd as (_ & pos & Hat & ? & ?). unfold on_rto in Heq.
      destruct (MAX_RETRIES <? _); cbn [mbind outcome_bind fmap option_fmap option_map] in Heq; simplify_eq; [done|].
      split; [by eapply rcv_ok_ext; [..|exact Hr]|]. exists pos. split_and!; try done.
      by eapply rcv_at_only; [exact Hat|..].
Qed.

Lemma task_run_delivered bs t0 tr (t : Task W) :
  task_inv bs [] t0 → task_delivered t0 → task_run guest_stream t0 tr t → task_delivered t.
Proof.
  intros Hi Hd. induction 1 as [|tr t e now ev e' t' Hrun IH Hen Hev Hg Heq]; [done|].
  eapply task_turn_delivered; [by eapply task_run_inv|..]; done.
Qed.

End streams.

(** ** A stream that records what was written, up to a capacity *)

Record Sink := mkSink { sunk : bytes; room : Z; shut : bool }.
#[global] Instance Sink_write : AsyncWrite Sink := {
  write_all w d :=
    if len d <=? room w then (mkSink (sunk w ++ d) (room w - len d) (shut w), true)
    else (mkSink (sunk w ++ take (Z.to_nat (room w)) d) 0 (shut w), false);
  shutdown w := mkSink (sunk w) (room w) true }.

Lemma Sink_write_ok w d w' : write_all w d = (w', true) → sunk w' = sunk w ++ d.
Proof. simpl. case_match; intros; by simplify_eq. Qed.
Lemma Sink_write_err w d w' : write_all w d = (w', false) → ∃ n, sunk w' = sunk w ++ take n d.
Proof. simpl. case_match; intros; simplify_eq. by eexists. Qed.
#[global] Instance Sink_laws : AsyncWriteLaws Sink := {
  written := sunk;
  write_all_ok := Sink_write_ok;
  write_all_err := Sink_write_err;
  shutdown_written w := eq_refl }.

(** ** Properties *)

Section properties.
Context {W : Type} `{AsyncWriteLaws W}.

(** C28: no guest can panic a flow task. In every state a task reaches from its
    creation, whatever the guest sends and however the turns interleave with
    other tasks, each turn the loop can take returns; a proxying flow holds at
    most one window of out-of-order data, exactly counted by [ooo_bytes], with
    at most one window in flight. *)
Theorem vtcp_never_panics (isn : Z) (w : W) t0 tr t :
  spawned isn w t0 → task_run any_guest t0 tr t →
  (∀ e now ev, task_enabled now t ev = true → event_ok ev → returns (task_turn e now t ev)) ∧
  (∀ p, t = Proxying p →
     ooo_bytes (px_flow p) = total (ooo (px_flow p)) ∧ 0 ≤ ooo_bytes (px_flow p) ≤ OOO_MAX_BYTES ∧
     0 ≤ in_flight (px_flow p) ≤ 65535).
Proof.
  intros Hs Hr. pose proof (task_run_inv _ _ _ _ _ (spawned_inv _ _ _ Hs) Hr) as Hi. split.
  - intros e now ev Hen Hev. destruct (task_turn_ok _ _ e now t ev Hi Hen Hev) as (e' & t' & -> & _). by eexists.
  - intros p ->. destruct Hi as [[_ _ Ht Hm _] (A & U & N & Hsat) _ _]. pose proof (total_nonneg (ooo (px_flow p))).
    rewrite (snd_at_flight _ _ _ _ _ _ Hsat). destruct Hsat. split_and!; try done; lia.
Qed.

(** C2: what the host receives is the guest's stream. However the guest's
    segments of the stream [st] are lost, repeated, reordered or overlapped,
    the bytes written to the host are always exactly the first bytes of [st]
    up to the acknowledged position, the write half is closed exactly when
    the guest's FIN was taken at the end of the stream, nothing that could be
    delivered stays queued, and a segment that continues the stream is
    delivered whole before the next turn. *)
Theorem vtcp_stream_to_host (st : bytes) (b isn : Z) (w : W) t0 tr p :
  spawned isn w t0 → written w = [] → starts_at b t0 → task_run (guest_stream st b) t0 tr (Proxying p) →
  ∃ pos, written (px_wr p) = take (Z.to_nat pos) st ∧ rcv_at st b pos (px_flow p) ∧
         wr_open p = negb (guest_fin_rcvd (px_flow p)) ∧
         ∀ e now seg, seg_ok seg → fits st b pos seg →
           ∃ e' f' w' o' a, on_segment e (px_flow p) now seg (px_wr p) (wr_open p) = Ret (e', f', w', o', a) ∧
             written w' `prefix_of` st ∧ (a = true → reaches st b pos seg (len (written w'))).
Proof.
  intros Hs Hw Hst Hr. pose proof (spawned_inv _ _ _ Hs) as Hi0.
  assert (task_delivered st b t0) as Hd0.
  { destruct Hs as (e & now & k & mac & _ & _ & [(syn & _ & ->)| ->]); simpl in *; auto. }
  pose proof (task_run_delivered st b _ _ _ _ Hi0 Hd0 Hr) as Hd. pose proof Hd as (Hrc & pos & Hat & Hwr & Hop).
  pose proof (task_run_inv _ _ _ _ _ Hi0 Hr) as [_ Hsnd _ _].
  exists pos. split_and!; try done. intros e now seg Hok Hfit.
  destruct (on_segment_ok _ _ e (px_flow p) now seg (px_wr p) (wr_open p) Hrc Hsnd Hok) as (e' & f' & w' & o' & a & Heq & _).
  exists e', f', w', o', a. split; [done|].
  assert (len (written (px_wr p)) = pos) as Hp by (rewrite Hwr; apply len_take_pos, (ra_pos _ _ _ _ Hat)).
  rewrite <-Hp in Hfit |- *. apply on_segment_stream with (st := st) (b := b) in Heq as [? Ha]; [|done..].
  split; [done|]. intros Ht. by destruct (Ha Ht).
Qed.

(** C14: what the guest receives is the host's stream. In every reachable
    proxying state the bytes read from the host so far are either
    acknowledged by the guest or held for retransmission, each queued segment
    at the sequence number of its position, the FIN after the last byte; and
    a read of host data keeps everything in flight inside the guest's
    advertised window. *)
Theorem vtcp_stream_to_guest (isn : Z) (w : W) t0 tr p :
  spawned isn w t0 → task_run any_guest t0 tr (Proxying p) →
  ∃ A U N, 0 ≤ A ≤ U ∧ U ≤ N ≤ U + 65535 ∧
    N = len (reads tr) + Z.b2z (our_fin_sent (px_flow p)) ∧
    snd_una (px_flow p) = wrap32 (isn + 1 + U) ∧ snd_nxt (px_flow p) = wrap32 (isn + 1 + N) ∧
    holds (isn + 1) (reads tr) A (unacked (px_flow p)) N ∧
    (∀ e now d, enabled p now (Read d) = true →
       ∃ e' p', run_established_turn e p now (Read d) = Ret (e', Some p') ∧
         snd_nxt (px_flow p') = wadd32 (snd_nxt (px_flow p)) (if bool_decide (d = []) then 1 else len d) ∧
         in_flight (px_flow p') ≤ peer_wnd (px_flow p')).
Proof.
  intros Hs Hr. pose proof (task_run_inv _ _ _ _ _ (spawned_inv _ _ _ Hs) Hr) as Hi.
  pose proof Hi as [_ Hsnd Hb _]. pose proof Hsnd as (A & U & N & []). exists A, U, N. split_and!; try done; try lia.
  intros e now d [Hc Hl%Z.leb_le]%andb_prop. destruct (can_read_room _ _ _ Hi Hc) as (Hof & _).
  unfold run_established_turn. rewrite (allowance_buf _ _ _ _ Hsnd Hb).
  replace (closed_both_ways (px_flow p)) with false
    by (unfold closed_both_ways; rewrite Hof, andb_false_r; reflexivity).
  pose proof (λ fin Hf, proj2 (read_inv _ _ e p now d fin Hi Hc Hl Hf)) as Hfl.
  case_bool_decide as Hd.
  - subst d. specialize (Hfl true eq_refl). cbv iota in Hfl.
    pose proof (send_data_eq e (set_our_fin (px_flow p)) now [] true) as Heq.
    destruct (send_data _ _ _ _ _) as [e' g]. simpl in Heq, Hfl. eexists _, _. split; [done|]. simpl.
    rewrite Heq in Hfl |- *. split; [|done]. simpl. unfold tx_end, wadd32. simpl.
    rewrite len_nil, Z.add_0_r. unfold wrap32. by rewrite Zplus_mod_idemp_l.
  - destruct d as [|x d]; [done|]. specialize (Hfl false ltac:(done)). cbv iota in Hfl.
    pose proof (send_data_eq e (px_flow p) now (x :: d) false) as Heq.
    destruct (send_data _ _ _ _ _) as [e' g]. cbn [snd] in Heq, Hfl. eexists _, _. split; [done|]. cbn [px_flow].
    rewrite Heq in Hfl |- *. split; [|done]. cbn [snd_nxt set_timer set_snd]. unfold tx_end. cbn [tx_seq tx_data tx_fin].
    unfold wadd32. simpl Z.b2z. rewrite Z.add_0_r. unfold wrap32. by rewrite Zmod_mod.
Qed.

(** C29: a flow whose guest has fallen silent ends. From any reachable state,
    a run in which no segment arrives has at most six timer expiries
    (handshake or retransmission); the sixth leaves no task behind. *)
Theorem vtcp_silent_flow_ends (isn : Z) (w : W) t0 tr t tr' t' :
  spawned isn w t0 → task_run any_guest t0 tr t → task_run any_guest t tr' t' →
  Forall (λ ev, event_seg ev = None) tr' →
  len (filter (λ ev, is_timer ev = true) tr') ≤ MAX_RETRIES + 1 ∧
  (len (filter (λ ev, is_timer ev = true) tr') = MAX_RETRIES + 1 → t' = Gone).
Proof.
  intros Hs Hr Hr' Hsil. pose proof (task_run_inv _ _ _ _ _ (spawned_inv _ _ _ Hs) Hr) as Hi.
  pose proof (silent_run_budget _ _ _ _ _ _ Hi Hr' Hsil) as Hb. destruct (budget_range _ _ _ Hi) as [? _].
  assert (∃ bs sent, task_inv bs sent t') as (bs & sent & Hi').
  { exists (isn + 1). clear -Hi Hr'. induction Hr' as [|tr' t1 e now ev e' t' _ [s IH] Hen Hev _ Heq]; [by eexists|].
    destruct (task_turn_ok _ _ e now t1 ev IH Hen Hev) as (? & ? & Heq' & ?). rewrite Heq in Heq'. simplify_eq. eauto. }
  destruct (budget_range _ _ _ Hi') as [? Hz]. unfold MAX_RETRIES in *. split; [lia|]. intros. apply Hz. lia.
Qed.

(** C30: a flow never waits for nothing. In every reachable proxying state that
    has not closed, unacknowledged data has a retransmission timer; while host
    data may be waiting the loop reads it, or probes a closed window, or has
    such a timer; an open window with nothing in flight is read into (for a
    positive MSS); and otherwise only the guest's FIN is missing. *)
Theorem vtcp_never_stalls (isn : Z) (w : W) t0 tr p :
  spawned isn w t0 → task_run any_guest t0 tr (Proxying p) → closed_both_ways (px_flow p) = false →
  (unacked (px_flow p) ≠ [] → is_Some (rto_at (px_flow p))) ∧
  (sending p = true → can_read p = true ∨ window_closed p = true ∨ is_Some (rto_at (px_flow p))) ∧
  (sending p = true → unacked (px_flow p) = [] → 0 < mss (px_flow p) → 0 < peer_wnd (px_flow p) → can_read p = true) ∧
  (sending p = false → unacked (px_flow p) = [] →
     our_fin_sent (px_flow p) = true ∧ snd_una (px_flow p) = snd_nxt (px_flow p) ∧ guest_fin_rcvd (px_flow p) = false).
Proof.
  intros Hs Hr Hcl. pose proof (task_run_inv _ _ _ _ _ (spawned_inv _ _ _ Hs) Hr) as [_ (A & U & N & Hsat) _ Hd].
  pose proof (snd_at_flight _ _ _ _ _ _ Hsat) as Hfl. destruct Hsat as [Hn Hu _ _ Hr' Hf Ht _ Hw Hm].
  unfold is_u16 in *. split_and!.
  - by apply Ht.
  - intros Hsend. unfold can_read, window_closed. rewrite Hsend. simpl.
    destruct (decide (unacked (px_flow p) = [])) as [Hq|Hq]; [|right; right; by apply Ht].
    rewrite (bool_decide_true _ Hq). replace (len (unacked (px_flow p))) with 0 by (by rewrite Hq).
    rewrite !andb_true_r.
    destruct (Z.ltb_spec 0 (send_allowance (px_flow p))); [by left|]. right; left.
    apply Z.eqb_eq. unfold send_allowance, sat_sub in *. destruct (_ || _); lia.
  - intros Hsend Hq Hmss Hwnd. unfold can_read. rewrite Hsend. replace (len (unacked (px_flow p))) with 0 by (by rewrite Hq).
    simpl. rewrite andb_true_r.
    rewrite Hq in Hf. apply Z.ltb_lt. unfold send_allowance, sat_sub. rewrite Hfl.
    destruct (_ || _) eqn:Hc; [|lia]. apply orb_prop in Hc as [?%Z.eqb_eq|?%Z.ltb_lt]; lia.
  - intros Hsend Hq. unfold sending in Hsend. rewrite Hd in Hsend.
    rewrite Hq in Hf. assert (our_fin_sent (px_flow p) = true) as Hof by (by destruct (our_fin_sent (px_flow p))).
    split; [done|]. assert (snd_una (px_flow p) = snd_nxt (px_flow p)) as He by congruence. split; [done|].
    unfold closed_both_ways in Hcl. rewrite Hof, He, Z.eqb_refl in Hcl. by destruct (guest_fin_rcvd (px_flow p)).
Qed.

End properties.

(** ** Two corners of the handshake *)

Section corners.
Context {W : Type} `{AsyncWrite W}.

(** The task of an active open whose guest never answers, after [n] expiries
    of its timer, the first at [now + RTO] and each at its deadline. *)
Fixpoint unanswered (n : nat) (e : NatEngine) (t : Task W) (now : Z) : Task W :=
  match n with
  | O => t
  | S n =>
      match task_turn e (now + RTO) t (Hs HsTimer true) with
      | Ret (e, t) => unanswered n e t (now + RTO)
      | Panic => t
      end
  end.

Lemma unanswered_retries n e f isn (w : W) now :
  0 ≤ retries f → retries f + Z.of_nat n ≤ MAX_RETRIES →
  ∃ f', unanswered n e (SynSent f isn w) now = SynSent f' isn w ∧ retries f' = retries f + Z.of_nat n.
Proof.
  revert e f now. induction n as [|n IH]; intros e f now Hr Hn; [exists f; split; [done|lia]|].
  cbn [unanswered task_turn run_active_turn]. destruct (Z.ltb_spec MAX_RETRIES (retries f + 1)); [lia|].
  cbn [retries set_timer]. rewrite (proj2 (Z.ltb_ge _ _)) by lia.
  match goal with |- context [SynSent ?g isn w] => edestruct (IH (emit e (set_timer f (retries f + 1) (rto_at f)) isn 0 TCP_SYN [] (mss_option e)) g (now + RTO)) as (f' & Hu & Hf) end; [simpl; lia..|].
  exists f'. split; [exact Hu|]. simpl in Hf. lia.
Qed.

(** Five expiries leave the task waiting; the sixth, six seconds after the SYN
    and four before the opener's own timeout, ends it without telling the
    opener anything. *)
Lemma unanswered_open_ends e k mac isn now (w : W) :
  (∃ f, unanswered 5 e (spawn_active e k mac isn now w).2 now = SynSent f isn w) ∧
  unanswered 6 e (spawn_active e k mac isn now w).2 now = Gone ∧ 6 * RTO < ACTIVE_OPEN_TIMEOUT.
Proof.
  split; [|split; [|done]].
  - destruct (unanswered_retries 5 e (run_active_start e (Flow_new_active e k mac isn now) now).2 isn w now)
      as (f & Hu & _); [done..|]. by exists f.
  - by vm_compute.
Qed.

(** A guest that announces an MSS of zero is never sent anything: the
    allowance is zero whatever its window. *)
Lemma mss_zero_never_sends f : mss f = 0 → 0 ≤ peer_wnd f → send_allowance f = 0.
Proof.
  intros Hm Hw. unfold send_allowance, sat_sub. rewrite Hm. destruct (_ || _) eqn:Hc; [done|].
  apply orb_false_iff in Hc as [?%Z.eqb_neq _]. lia.
Qed.

End corners.

(** ** A flow that crosses the sequence-number wrap, with a hole filled late *)

Definition sample_engine : NatEngine := NatEngine_new (NatConfig_new 0x0A000001 [0x52; 0x56; 0; 0; 0; 1]).
Definition sample_key : FlowKey := mkKey 0x0A000005 40000 0x5DB8D822 80.
Definition sample_mac : MacAddr := [0x52; 0x54; 0; 0; 0; 5].
Definition sample_stream : bytes := [10; 11; 12; 13; 14; 15; 16; 17].
Definition sample_base : Z := 4294967294.
Definition sample_syn : Segment := mkSeg 4294967293 0 TCP_SYN 1000 [] (Some 1460).
Definition sample_ahead : Segment := mkSeg 1 78 TCP_ACK 1000 [13; 14; 15] None.
Definition sample_hole : Segment := mkSeg 4294967294 78 TCP_ACK 900 [10; 11; 12; 13] None.
Definition sample_events : list TaskEvent :=
  [Hs (HsRecv (Some sample_ahead)) true; Px (Recv (Some sample_hole)); Px (Read [1; 2; 3])].

Definition turn_of (t : Task Sink) (ev : TaskEvent) : Task Sink :=
  match task_turn sample_engine 5 t ev with Ret (_, t') => t' | Panic => Gone end.
Definition sample_start : Task Sink :=
  Eval vm_compute in (spawn_passive sample_engine sample_key sample_mac sample_syn 77 0 (mkSink [] 1000 false)).2.
Definition sample_queued : Task Sink := Eval vm_compute in turn_of sample_start (Hs (HsRecv (Some sample_ahead)) true).
Definition sample_filled : Task Sink := Eval vm_compute in turn_of sample_queued (Px (Recv (Some sample_hole))).
Definition sample_sent : Task Sink := Eval vm_compute in turn_of sample_filled (Px (Read [1; 2; 3])).
Definition sample_proxy (t : Task Sink) : Proxy Sink :=
  match t with Proxying p => p | _ => mkProxy (Flow_new_active sample_engine sample_key [] 0 0) (mkSink [] 0 true) true true 0 end.

Lemma sample_seg_ok seg : seg = sample_syn ∨ seg = sample_ahead ∨ seg = sample_hole → seg_ok seg.
Proof.
  intros [->|[->| ->]]; split; simpl; try (unfold is_u32, is_u16; lia); try done.
  intros m [= <-]. unfold is_u16. lia.
Qed.

Lemma sample_spawned : spawned 77 (mkSink [] 1000 false) sample_start.
Proof.
  exists sample_engine, 0, sample_key, sample_mac. split; [concrete|]. split; [concrete|]. left. exists sample_syn.
  split; [apply sample_seg_ok; auto|by vm_compute].
Qed.

Lemma sample_fits seg pos :
  seg = sample_ahead ∧ pos = 0 ∨ seg = sample_hole ∧ pos = 0 → fits sample_stream sample_base pos seg.
Proof.
  intros [[-> ->]|[-> ->]] _; [exists 3|exists 0]; (split; [lia|]; split; [|done]); repeat split; done.
Qed.

Lemma turn_of_spec t ev t' :
  task_turn sample_engine 5 t ev ≠ Panic → turn_of t ev = t' → ∃ e', task_turn sample_engine 5 t ev = Ret (e', t').
Proof. unfold turn_of. intros Hn. destruct (task_turn _ _ _ _) as [[e u]|]; [|done]. intros ->. by eexists. Qed.

(** A turn at time 5 with the sample engine. *)
Lemma sample_turn ok tr t ev t' :
  task_run ok sample_start tr t → task_enabled 5 t ev = true → event_ok ev → ok t ev →
  task_turn sample_engine 5 t ev ≠ Panic → turn_of t ev = t' → task_run ok sample_start (tr ++ [ev]) t'.
Proof. intros ???? Hn Ht. destruct (turn_of_spec _ _ _ Hn Ht) as [e' He]. by eapply run_turn. Qed.

Lemma sample_run_queued :
  task_run (guest_stream sample_stream sample_base) sample_start [Hs (HsRecv (Some sample_ahead)) true] sample_queued.
Proof.
  apply (sample_turn _ [] sample_start); [apply run_start|done| | |by vm_compute|by vm_compute].
  - intros seg [= <-]. apply sample_seg_ok. auto.
  - intros seg [= <-]. apply sample_fits. auto.
Qed.

Lemma sample_run_filled :
  task_run (guest_stream sample_stream sample_base) sample_start
    [Hs (HsRecv (Some sample_ahead)) true; Px (Recv (Some sample_hole))] sample_filled.
Proof.
  apply (sample_turn _ [_] sample_queued); [apply sample_run_queued|done| | |by vm_compute|by vm_compute].
  - intros seg [= <-]. apply sample_seg_ok. auto.
  - intros seg [= <-]. apply sample_fits. auto.
Qed.

Lemma task_run_weaken {W} `{AsyncWrite W} (ok ok' : Task W → TaskEvent → Prop) t0 tr t :
  (∀ t ev, ok t ev → ok' t ev) → task_run ok t0 tr t → task_run ok' t0 tr t.
Proof. intros Himp. induction 1; [apply run_start|]. eapply run_turn; eauto. Qed.

Lemma sample_run_sent : task_run any_guest sample_start sample_events sample_sent.
Proof.
  apply (sample_turn _ [_; _] sample_filled); [|done|by intros seg|done|by vm_compute|by vm_compute].
  eapply task_run_weaken; [|apply sample_run_filled]. done.
Qed.

Lemma vtcp_never_panics_witness :
  ooo_bytes (px_flow (sample_proxy sample_sent)) = 0 ∧
  0 ≤ in_flight (px_flow (sample_proxy sample_sent)) ≤ 65535.
Proof.
  split; [by vm_compute|].
  exact (proj2 (proj2 (proj2 (vtcp_never_panics 77 (mkSink [] 1000 false) sample_start sample_events sample_sent
    sample_spawned sample_run_sent) (sample_proxy sample_sent) eq_refl))).
Defined.

Lemma vtcp_stream_to_host_witness :
  sunk (px_wr (sample_proxy sample_filled)) = [10; 11; 12; 13; 14; 15] ∧
  ∃ pos, written (px_wr (sample_proxy sample_filled)) = take (Z.to_nat pos) sample_stream.
Proof.
  split; [by vm_compute|].
  destruct (@vtcp_stream_to_host Sink _ Sink_laws sample_stream sample_base 77 (mkSink [] 1000 false) sample_start _
    (sample_proxy sample_filled) sample_spawned eq_refl eq_refl sample_run_filled) as (pos & Hw & _).
  exists pos. exact Hw.
Defined.

Lemma vtcp_stream_to_guest_witness :
  reads sample_events = [1; 2; 3] ∧ tx_data <$> unacked (px_flow (sample_proxy sample_sent)) = [[1; 2; 3]] ∧
  ∃ A U N, 0 ≤ A ≤ U ∧ U ≤ N ≤ U + 65535 ∧ N = 3 + Z.b2z false.
Proof.
  split; [by vm_compute|]. split; [by vm_compute|].
  destruct (vtcp_stream_to_guest 77 (mkSink [] 1000 false) sample_start sample_events (sample_proxy sample_sent)
    sample_spawned sample_run_sent) as (A & U & N & H1 & H2 & H3 & _).
  exists A, U, N. split; [exact H1|]. split; [exact H2|]. exact H3.
Defined.

Lemma vtcp_silent_flow_ends_witness :
  len (filter (λ ev, is_timer ev = true) [Hs HsTimer true]) ≤ MAX_RETRIES + 1.
Proof.
  refine (proj1 (vtcp_silent_flow_ends 77 (mkSink [] 1000 false) sample_start [] sample_start [Hs HsTimer true]
    (match task_turn sample_engine 2000000000 sample_start (Hs HsTimer true) with Ret (_, t) => t | Panic => Gone end)
    sample_spawned (run_start _ _) _ _)).
  - refine (run_turn _ _ [] sample_start sample_engine 2000000000 (Hs HsTimer true)
      (match task_turn sample_engine 2000000000 sample_start (Hs HsTimer true) with Ret (e, _) => e | Panic => sample_engine end)
      _ (run_start _ _) _ _ I _); [by vm_compute|by intros seg|by vm_compute].
  - by repeat constructor.
Defined.

Lemma vtcp_never_stalls_witness :
  unacked (px_flow (sample_proxy sample_sent)) ≠ [] ∧ is_Some (rto_at (px_flow (sample_proxy sample_sent))).
Proof.
  split; [by vm_compute|].
  refine (proj1 (vtcp_never_stalls 77 (mkSink [] 1000 false) sample_start sample_events (sample_proxy sample_sent)
    sample_spawned sample_run_sent _) _); by vm_compute.
Defined.
