(* ===== verification/Nat.v ===== *)
(** * The NAT engine's dispatch ([src/net/nat/mod.rs], [udp.rs], [icmp.rs])

    What the engine does with every frame of a guest: TCP segments to their
    flow task or a new one, UDP datagrams to their host socket, echo requests
    to a reachability probe, everything else dropped; and what it originates
    toward guests. What a handler hands to other tasks and sockets is a list
    of [NatAction]s. *)

From S2P Require Import Prelude Checksum Frame NatEngine.
From S2P Require Import Vtcp VtcpFlow.

Definition UDP_IDLE : Z := 60 * 1000000000.
Definition CACHE_TTL : Z := 10 * 1000000000.

Inductive NatAction :=
| ToFlow (tx : Chan) (seg : Segment)
| SpawnPassive (key : FlowKey) (mac : MacAddr) (syn : Segment) (rx : Chan)
| ToBound (tx : Chan) (payload : bytes)
| SpawnReader (key : FlowKey) (mac : MacAddr) (flow : UdpFlow)
| SockSend (flow : UdpFlow) (key : FlowKey) (payload : bytes)
| SpawnEcho (mac : MacAddr) (pkt : bytes).

(** ** TCP *)

Definition handle_tcp (e : NatEngine) (now : Z) (host : gset Ipv4Addr) (ip : Ipv4View) (mac : MacAddr)
    : NatEngine * list NatAction :=
  match TcpView_parse (ip_payload ip) with
  | None => (e, [])
  | Some tcp =>
      let k := mkKey (ip_src ip) (tcp_src_port tcp) (ip_dst ip) (tcp_dst_port tcp) in
      let seg := Segment_from_view tcp in
      match tcp_flows e !! k with
      | Some tx => (e, [ToFlow tx seg])
      | None =>
          let opens := seg_syn seg && negb (seg_ack seg) in
          let '(e, refuse) := if opens then refused e now host (dst_ip k) (Guard.Tcp (dst_port k)) else (e, false) in
          if opens && negb refuse then
            let '(e, tx) := channel e in
            (set_tcp_flows e (<[k := tx]> (tcp_flows e)), [SpawnPassive k mac seg tx])
          else if negb (seg_rst seg) then
            let '(e, id) := next_ip_id e in
            match rst_for ip tcp id with
            | Some rst => (send_frame e mac rst, [])
            | None => (e, [])
            end
          else (e, [])
      end
  end.

(** ** UDP *)

(** [handle_outbound]; [connected] is whether the new socket binds and connects. *)
Definition handle_outbound (e : NatEngine) (now : Z) (k : FlowKey) (mac : MacAddr) (payload : bytes)
    (connected : bool) : NatEngine * list NatAction :=
  match udp_flows e !! k with
  | Some flow => (set_udp_flows e (udp_flows e) (<[flow := now]> (last_used e)), [SockSend flow k payload])
  | None =>
      if connected then
        let '(e, flow) := channel e in
        (set_udp_flows e (<[k := flow]> (udp_flows e)) (<[flow := now]> (last_used e)),
         [SpawnReader k mac flow; SockSend flow k payload])
      else (e, [])
  end.

(** What the reader task of a flow waits for. *)
Inductive ReaderEvent := Received (datagram : bytes) | RecvError | Elapsed.

(** One turn of the reader task; [false] when it ends and removes the flow. *)
Definition reader_turn (e : NatEngine) (now : Z) (k : FlowKey) (mac : MacAddr) (flow : UdpFlow)
    (ev : ReaderEvent) : NatEngine * bool :=
  let gone e := (set_udp_flows e (delete k (udp_flows e)) (last_used e), false) in
  match ev with
  | Received d =>
      let e := set_udp_flows e (udp_flows e) (<[flow := now]> (last_used e)) in
      (send_udp_to_guest e mac (dst_ip k) (dst_port k) (guest_ip k) (guest_port k) d, true)
  | RecvError => gone e
  | Elapsed =>
      let idle := Z.max 0 (now - default now (last_used e !! flow)) in
      if UDP_IDLE <=? idle then gone e else (e, true)
  end.

Definition handle_udp (e : NatEngine) (now : Z) (host : gset Ipv4Addr) (ip : Ipv4View) (mac : MacAddr)
    (connected : bool) : NatEngine * list NatAction :=
  match UdpView_parse (ip_payload ip) with
  | None => (e, [])
  | Some udp =>
      if ip_dst ip =? nat_gw_ip (cfg e) then
        match guest_udp e !! (ip_src ip, udp_src_port udp, udp_dst_port udp) with
        | Some tx => (e, [ToBound tx (udp_payload udp)])
        | None => (e, [])
        end
      else
        let '(e, refuse) := refused e now host (ip_dst ip) (Guard.Udp (udp_dst_port udp)) in
        if refuse : bool then (e, [])
        else
          handle_outbound e now (mkKey (ip_src ip) (udp_src_port udp) (ip_dst ip) (udp_dst_port udp)) mac
            (udp_payload udp) connected
  end.

(** ** ICMP echo *)

Definition handle_icmp (e : NatEngine) (now : Z) (host : gset Ipv4Addr) (raw : bytes) (ip : Ipv4View)
    (mac : MacAddr) : outcome (NatEngine * list NatAction) :=
  match IcmpView_parse (ip_payload ip) with
  | None => Ret (e, [])
  | Some msg =>
      if negb (icmp_type msg =? ICMP_ECHO_REQUEST) || (ip_dst ip =? nat_gw_ip (cfg e)) then Ret (e, [])
      else
        let '(e, refuse) := refused e now host (ip_dst ip) Guard.Icmp in
        if refuse : bool then Ret (e, [])
        else
          pkt ← slice_chk raw 0 (total_len ip);
          Ret (e, [SpawnEcho mac pkt])
  end.

Definition cached (s : IcmpState) (now : Z) (dst : Ipv4Addr) : option bool :=
  match icmp_cache s !! dst with
  | Some (ok, at_) => if Z.max 0 (now - at_) <? CACHE_TTL then Some ok else None
  | None => None
  end.
(** [claim]: [false] when a probe of [dst] is in flight. *)
Definition claim (s : IcmpState) (dst : Ipv4Addr) : IcmpState * bool :=
  (mkIcmp (icmp_cache s) ({[dst]} ∪ icmp_pending s), bool_decide (dst ∉ icmp_pending s)).
Definition complete (s : IcmpState) (now : Z) (dst : Ipv4Addr) (ok : bool) : IcmpState :=
  mkIcmp (<[dst := (ok, now)]> (icmp_cache s)) (icmp_pending s ∖ {[dst]}).

Definition respond (e : NatEngine) (mac : MacAddr) (pkt : bytes) (reachable : bool) : NatEngine :=
  if reachable then
    match icmp_echo_reply_for pkt with Some reply => send_frame e mac reply | None => e end
  else
    match Ipv4View_parse pkt with
    | None => e
    | Some ip =>
        let '(e, id) := next_ip_id e in
        match ipv4_build (nat_gw_ip (cfg e)) (ip_src ip) IPPROTO_ICMP 64 (icmp_unreachable_for pkt 1) id with
        | None => e
        | Some out => send_frame e mac out
        end
    end.

(** [handle_echo] up to the probe: answered from the cache, dropped, or the
    destination to probe. *)
Definition handle_echo (e : NatEngine) (now : Z) (mac : MacAddr) (pkt : bytes) : NatEngine * option Ipv4Addr :=
  match Ipv4View_parse pkt with
  | None => (e, None)
  | Some ip =>
      match cached (icmp e) now (ip_dst ip) with
      | Some ok => (respond e mac pkt ok, None)
      | None =>
          let '(s, claimed) := claim (icmp e) (ip_dst ip) in
          (set_icmp e s, if claimed then Some (ip_dst ip) else None)
      end
  end.
(** [handle_echo] once the probe of [dst] answered [ok]. *)
Definition echo_probed (e : NatEngine) (now : Z) (mac : MacAddr) (pkt : bytes) (dst : Ipv4Addr) (ok : bool)
    : NatEngine :=
  respond (set_icmp e (complete (icmp e) now dst ok)) mac pkt ok.

(** ** The entry point *)

Definition handle_frame (e : NatEngine) (now : Z) (host : gset Ipv4Addr) (connected : bool) (eth_frame : bytes)
    : outcome (NatEngine * list NatAction) :=
  match EthView_parse eth_frame with
  | None => Ret (e, [])
  | Some eth =>
      if negb (ethertype eth =? ETHERTYPE_IPV4) then Ret (e, [])
      else
        match Ipv4View_parse (eth_payload eth) with
        | None => Ret (e, [])
        | Some ip =>
            let e := learn_mac e (ip_src ip) (src_mac eth) in
            if proto ip =? IPPROTO_TCP then Ret (handle_tcp e now host ip (src_mac eth))
            else if proto ip =? IPPROTO_UDP then Ret (handle_udp e now host ip (src_mac eth) connected)
            else if proto ip =? IPPROTO_ICMP then handle_icmp e now host (eth_payload eth) ip (src_mac eth)
            else Ret (e, [])
        end
  end.

(** ** Engine-originated traffic *)

Definition udp_to_guest (e : NatEngine) (gip : Ipv4Addr) (gport : Z) (payload : bytes) : NatEngine :=
  let '(e, src_port) := next_ephemeral e in
  send_udp_to_guest e (guest_mac e gip) (nat_gw_ip (cfg e)) src_port gip gport payload.

(** [udp_bind_guest_flow]: the gateway port and the channel of the guest's replies. *)
Definition udp_bind_guest_flow (e : NatEngine) (gip : Ipv4Addr) (gport : Z) : NatEngine * option (Z * Chan) :=
  let '(e, to_guest) := channel e in
  let '(e, from_guest) := channel e in
  let '(e, free) := ephemeral_pass (λ p, bool_decide (is_Some (guest_udp e !! (gip, gport, p))))
                      (Z.to_nat (eph_span e)) e in
  match free with
  | Some p => (set_guest_udp e (<[(gip, gport, p) := from_guest]> (guest_udp e)), Some (p, from_guest))
  | None => (e, None)
  end.
(** The task of a bound flow: a payload toward the guest, then its end. *)
Definition bound_flow_send (e : NatEngine) (gip : Ipv4Addr) (gport p : Z) (payload : bytes) : NatEngine :=
  send_udp_to_guest e (guest_mac e gip) (nat_gw_ip (cfg e)) p gip gport payload.
Definition bound_flow_end (e : NatEngine) (gip : Ipv4Addr) (gport p : Z) : NatEngine :=
  set_guest_udp e (delete (gip, gport, p) (guest_udp e)).

(** [open_active]: the flow-table slot and the task, or no free port. *)
Definition open_active {W} `{AsyncWrite W} (e : NatEngine) (gip : Ipv4Addr) (gport isn now : Z) (theirs : W)
    : NatEngine * option (FlowKey * Task W) :=
  let '(e, tx) := channel e in
  let '(e, k) := alloc_active_tcp_flow e gip gport tx in
  match k with
  | None => (e, None)
  | Some k => let '(e, t) := spawn_active e k (guest_mac e gip) isn now theirs in (e, Some (k, t))
  end.

(** ** Segments as the dispatcher builds them *)

Lemma parse_mss_loop_u16 fuel opts m : bytes_ok opts → parse_mss_loop fuel opts = Some m → is_u16 m.
Proof.
  revert opts. induction fuel as [|fuel IH]; intros opts Hok; [done|]. cbn [parse_mss_loop].
  destruct opts as [|kind rest]; [done|]. inversion Hok; subst.
  destruct (kind =? 0); [done|]. destruct (kind =? 1); [by apply IH|]. destruct (kind =? 2).
  - destruct rest as [|l [|hi [|lo r]]]; [done..|]. case_match; [|done]. intros [= <-].
    rewrite !Forall_cons in *. destruct_and!. auto with vmlab.
  - destruct rest as [|l r]; [done|]. case_match; [done|]. apply IH. auto with vmlab.
Qed.

(** Any fuel that covers the options gives the same answer. *)
Lemma parse_mss_fuel n m opts :
  (length opts ≤ n)%nat → (length opts ≤ m)%nat → parse_mss_loop n opts = parse_mss_loop m opts.
Proof.
  revert m opts. induction n as [|n IH]; intros m opts Hn Hm.
  { destruct opts; [|simpl in Hn; lia]. by destruct m. }
  destruct m as [|m]; [by destruct opts; [|simpl in Hm; lia]|].
  destruct opts as [|kind rest]; [done|]. cbn [parse_mss_loop]. simpl in Hn, Hm.
  destruct (kind =? 0); [done|]. destruct (kind =? 1); [apply IH; lia|]. destruct (kind =? 2); [done|].
  destruct rest as [|l r]; [done|]. case_match eqn:Hc; [done|]. apply orb_false_iff in Hc as [?%Z.ltb_ge _].
  apply IH; rewrite length_drop; simpl in *; lia.
Qed.

Lemma tcp_views_ok ip tcp :
  bytes_ok (ip_buf ip) → TcpView_parse (ip_payload ip) = Some tcp → tcp_buf tcp = ip_payload ip ∧ bytes_ok (tcp_buf tcp).
Proof. intros Hok Hp. apply TcpView_parse_Some in Hp as (-> & _). simpl. split; [done|]. by apply ip_payload_ok. Qed.

(** A segment built from a parsed packet is one a flow task can take. *)
Lemma segment_from_view_ok buf ip tcp :
  bytes_ok buf → Ipv4View_parse buf = Some ip → TcpView_parse (ip_payload ip) = Some tcp →
  seg_ok (Segment_from_view tcp).
Proof.
  intros Hok Hip Htcp. pose proof (len_ip_payload _ _ Hip) as Hlen.
  pose proof (Ipv4View_parse_Some _ _ Hip) as (-> & _ & _ & Hhl & _). set (ip := {| ip_buf := buf |}) in *.
  destruct (tcp_views_ok ip _ Hok Htcp) as [Hb Hbok]. pose proof (total_len_u16 ip Hok) as Htl.
  pose proof (TcpView_parse_Some _ _ Htcp) as (_ & _ & Hdo).
  unfold is_u16 in Htl. pose proof (len_nonneg (ip_payload ip)). split; simpl.
  - by apply u32_at_u32.
  - by apply u32_at_u32.
  - by apply u16_at_u16.
  - unfold tcp_payload. rewrite Hb. etrans; [apply len_slice_le; lia|lia].
  - intros m Hm. eapply parse_mss_loop_u16; [|exact Hm]. unfold tcp_options. by apply bytes_ok_slice.
Qed.

(** ** The guard's view of the host *)

(** The host's addresses over time, and the services the lab exposes. *)
Section guard.
Context (host : Z → gset Ipv4Addr) (exposed : list Z).

(** The engine is guarded and its cached list is what the host had when it was read. *)
Definition guarded (e : NatEngine) : Prop :=
  ∃ g, guard e = Some g ∧ Guard.exposed g = exposed ∧
       ∀ at_ addrs, Guard.cache g = Some (at_, addrs) → addrs = host at_.

(** A flow of [kind] to [dst] was admitted against a list at most [REFRESH] old. *)
Definition admitted (now : Z) (dst : Ipv4Addr) (kind : Guard.FlowKind) : Prop :=
  ∃ at_, Z.max 0 (now - at_) < Guard.REFRESH ∧ Guard.refuses_flow dst kind (host at_) exposed = false.

(** [e'] is [e] but for what the guard caches. *)
Definition guard_only (e e' : NatEngine) : Prop := ∃ g, e' = put_guard e g.

Lemma refused_spec e now dst kind :
  guarded e →
  let '(e', r) := refused e now (host now) dst kind in
  guarded e' ∧ guard_only e e' ∧ (r = false → admitted now dst kind) ∧
  (r = true → ∃ at_, Z.max 0 (now - at_) < Guard.REFRESH ∧ Guard.refuses_flow dst kind (host at_) exposed = true).
Proof.
  intros (g & Hg & Hx & Hc). unfold refused, Guard.refuses, Guard.addresses. rewrite Hg.
  assert (Z.max 0 (now - now) < Guard.REFRESH) by (unfold Guard.REFRESH; lia).
  destruct (Guard.cache g) as [[at_ addrs]|] eqn:Hca; [destruct (Z.ltb_spec (Z.max 0 (now - at_)) Guard.REFRESH)|].
  1: rewrite (Hc _ _ eq_refl), Hx.
  all: cbn [Guard.exposed]; rewrite ?Hx.
  all: split; [|split; [by eexists|split; intros ?; eexists; split; done]].
  - exists g. split_and!; [done|done|]. rewrite Hca. exact Hc.
  - eexists. split; [done|]. split; [done|]. by intros ?? [= <- <-].
  - eexists. split; [done|]. split; [done|]. by intros ?? [= <- <-].
Qed.

(** What an action starts towards the world. *)
Definition opens (a : NatAction) : option (Ipv4Addr * Guard.FlowKind) :=
  match a with
  | SpawnPassive k _ _ _ => Some (dst_ip k, Guard.Tcp (dst_port k))
  | SockSend _ k _ => Some (dst_ip k, Guard.Udp (dst_port k))
  | SpawnEcho _ pkt => Some (ipv4_at pkt 16, Guard.Icmp)
  | ToFlow _ _ | ToBound _ _ | SpawnReader _ _ _ => None
  end.

Definition all_admitted (now : Z) (acts : list NatAction) : Prop :=
  ∀ a dst kind, a ∈ acts → opens a = Some (dst, kind) → admitted now dst kind.

Lemma all_admitted_nil now : all_admitted now [].
Proof. by intros ??? ?%elem_of_nil. Qed.

Lemma all_admitted_cons now a acts :
  (∀ dst kind, opens a = Some (dst, kind) → admitted now dst kind) → all_admitted now acts → all_admitted now (a :: acts).
Proof. intros Ha Hacts b dst kind [->|]%elem_of_cons; eauto. Qed.
#[local] Hint Resolve all_admitted_nil all_admitted_cons : core.

Lemma guarded_same e e' : guard e' = guard e → guarded e → guarded e'.
Proof. unfold guarded. by intros ->. Qed.

Lemma handle_tcp_guarded e now ip mac :
  guarded e → guarded (handle_tcp e now (host now) ip mac).1 ∧ all_admitted now (handle_tcp e now (host now) ip mac).2.
Proof.
  intros Hg. unfold handle_tcp. destruct (TcpView_parse _) as [tcp|]; [|by auto].
  set (k := mkKey _ _ _ _). set (seg := Segment_from_view tcp).
  destruct (tcp_flows e !! k); [split; [done|]; apply all_admitted_cons; [done|auto]|].
  destruct (seg_syn seg && negb (seg_ack seg)).
  - pose proof (refused_spec e now (dst_ip k) (Guard.Tcp (dst_port k)) Hg) as Hr.
    destruct (refused _ _ _ _ _) as [e' r]. destruct Hr as (Hg' & _ & Ha & _). destruct r; simpl.
    + destruct (negb (seg_rst seg)); [|by auto]. destruct (rst_for _ _ _); simpl; split; auto.
    + split; [done|]. apply all_admitted_cons; [|auto]. intros ?? [= <- <-]. by apply Ha.
  - simpl. destruct (negb (seg_rst seg)); [|by auto]. destruct (rst_for _ _ _); simpl; split; auto.
Qed.

Lemma handle_udp_guarded e now ip mac c :
  guarded e → guarded (handle_udp e now (host now) ip mac c).1 ∧ all_admitted now (handle_udp e now (host now) ip mac c).2.
Proof.
  intros Hg. unfold handle_udp. destruct (UdpView_parse _) as [udp|]; [|by auto].
  destruct (_ =? _); [destruct (guest_udp e !! _); (split; [done|]); [apply all_admitted_cons; [done|auto]|auto]|].
  pose proof (refused_spec e now (ip_dst ip) (Guard.Udp (udp_dst_port udp)) Hg) as Hr.
  destruct (refused _ _ _ _ _) as [e' r]. destruct Hr as (Hg' & _ & Ha & _). destruct r; [by auto|].
  unfold handle_outbound. destruct (udp_flows e' !! _); [|destruct c; [|by auto]]; (split; [done|]); simpl;
    repeat (apply all_admitted_cons; [intros ?? [= <- <-]; auto|]); auto.
Qed.

Lemma handle_icmp_guarded e now raw mac ip :
  guarded e → Ipv4View_parse raw = Some ip →
  ∃ r, handle_icmp e now (host now) raw ip mac = Ret r ∧ guarded r.1 ∧ all_admitted now r.2.
Proof.
  intros Hg Hip. pose proof (Ipv4View_parse_Some _ _ Hip) as (-> & ? & _ & ? & ?). unfold handle_icmp.
  destruct (IcmpView_parse _) as [msg|]; [|eauto]. destruct (_ || _); [eauto|].
  pose proof (refused_spec e now (ip_dst {| ip_buf := raw |}) Guard.Icmp Hg) as Hr.
  destruct (refused _ _ _ _ _) as [e' r]. destruct Hr as (Hg' & _ & Ha & _). destruct r; [eauto|].
  rewrite slice_chk_ret by lia. eexists. split; [done|]. split; [done|]. simpl.
  apply all_admitted_cons; [|auto]. intros ?? [= <- <-].
  assert (ipv4_at (slice raw 0 (total_len {| ip_buf := raw |})) 16 = ip_dst {| ip_buf := raw |}) as ->; [|auto].
  unfold ip_dst, ipv4_at. cbn [ip_buf]. rewrite !idx_slice by lia. by rewrite !Z.add_0_l.
Qed.

Lemma handle_frame_guarded e now c f :
  guarded e → ∃ r, handle_frame e now (host now) c f = Ret r ∧ guarded r.1 ∧ all_admitted now r.2.
Proof.
  intros Hg. unfold handle_frame. destruct (EthView_parse f) as [eth|]; [|eauto].
  destruct (negb _); [eauto|]. destruct (Ipv4View_parse _) as [ip|] eqn:Hip; [|eauto].
  assert (guarded (learn_mac e (ip_src ip) (src_mac eth))) as Hg' by (by eapply guarded_same).
  destruct (proto ip =? IPPROTO_TCP); [eauto using handle_tcp_guarded|].
  destruct (proto ip =? IPPROTO_UDP); [eauto using handle_udp_guarded|].
  destruct (proto ip =? IPPROTO_ICMP); [|eauto]. by apply handle_icmp_guarded.
Qed.

End guard.

(** ** Resets *)

(** A TCP segment without payload, in IPv4, between the two ends. *)
Lemma tcp_reply_built src dst f id :
  is_u32 src → is_u32 dst → tcp_fields_ok f → is_u16 id →
  ∃ seg p, tcp_build src dst f [] = Some seg ∧ ipv4_build src dst IPPROTO_TCP 64 seg id = Some p ∧
    Ipv4View_parse p = Some {| ip_buf := p |} ∧ ip_carries {| ip_buf := p |} src dst IPPROTO_TCP 64 id seg ∧
    TcpView_parse seg = Some {| tcp_buf := seg |} ∧ tcp_carries {| tcp_buf := seg |} src dst f [].
Proof.
  intros Hs Hd Hf Hid. pose proof (tcp_hlen_eq f) as (_ & _ & Hh).
  destruct (tcp_build src dst f []) as [seg|] eqn:Hb; [|apply tcp_build_None in Hb; len_lia].
  destruct (tcp_build_Some _ _ _ _ _ Hs Hd Hf (Forall_nil_2 _) Hb) as (Hok & Hl & _ & Hp & Hc).
  destruct (ipv4_build src dst IPPROTO_TCP 64 seg id) as [p|] eqn:Hi; [|apply ipv4_build_None in Hi; len_lia].
  pose proof Hi as Hi2. apply ipv4_build_Some in Hi2 as (_ & _ & _ & Hv); try done. destruct (Hv []) as [? ?]. rewrite app_nil_r in *.
  exists seg, p. by split_and!.
Qed.

(** RFC 793's reset: from the segment's destination to its source, acceptable to it. *)
Definition resets (ip : Ipv4View) (tcp : TcpView) (p : bytes) : Prop :=
  ∃ v t, Ipv4View_parse p = Some v ∧ ip_src v = ip_dst ip ∧ ip_dst v = ip_src ip ∧ proto v = IPPROTO_TCP ∧
    TcpView_parse (ip_payload v) = Some t ∧ tcp_src_port t = tcp_dst_port tcp ∧ tcp_dst_port t = tcp_src_port tcp ∧
    is_rst t = true ∧ is_syn t = false ∧ tcp_payload t = [] ∧ tcp_checksum_valid t (ip_src v) (ip_dst v) = true ∧
    if is_ack tcp then tcp_seq t = tcp_ack tcp ∧ is_ack t = false
    else tcp_seq t = 0 ∧ is_ack t = true ∧
         tcp_ack t = wadd32 (tcp_seq tcp) (len (tcp_payload tcp) + Z.b2z (is_syn tcp) + Z.b2z (is_fin tcp)).

Lemma rst_for_resets buf ip tcp id :
  bytes_ok buf → Ipv4View_parse buf = Some ip → TcpView_parse (ip_payload ip) = Some tcp → is_u16 id →
  ∃ p, rst_for ip tcp id = Some p ∧ resets ip tcp p.
Proof.
  intros Hok Hip Htcp Hid. pose proof (Ipv4View_parse_Some _ _ Hip) as (-> & _).
  set (ip := {| ip_buf := buf |}) in *. destruct (tcp_views_ok ip _ Hok Htcp) as [_ Hb].
  assert (is_u32 (ip_src ip) ∧ is_u32 (ip_dst ip)) as [? ?] by (split; by apply ipv4_at_u32).
  unfold rst_for, resets. destruct (is_ack tcp) eqn:Hack.
  all: edestruct (tcp_reply_built (ip_dst ip) (ip_src ip)) as (seg & p & -> & Hi & Hp & (Hcs & Hcd & Hcp & _ & _ & _ & _ & Hpay & _) & Hpt
    & (Htsp & Htdp & Hts & Hta & Htf & _ & _ & Htp & Htc)); [done|done| |exact Hid|].
  1, 3: repeat split; simpl; auto using u16_at_u16, u32_at_u32, wrap32_u32; try (by apply u16_at_u16); try (by apply u32_at_u32);
    try apply wrap32_u32; try (unfold is_u16, is_u32, is_u8; lia); try apply Forall_nil_2; done.
  all: cbn [mbind option_bind]; exists p; (split; [exact Hi|]); exists {| ip_buf := p |}, {| tcp_buf := seg |};
    rewrite Hpay, Hcs, Hcd; unfold is_rst, is_syn, is_ack; rewrite Htf; split_and!; try done.
Qed.

(** ** The ephemeral ports *)

(** The [i]-th port a pass looks at, from counter [c]. *)
Definition port_at (c : Z) (i : nat) : Z := EPHEMERAL_BASE + (c + Z.of_nat i) mod EPHEMERAL_PORTS.

Definition ports_ok (e : NatEngine) : Prop := eph_span e = EPHEMERAL_PORTS ∧ is_u32 (eph_counter e).

Lemma next_ephemeral_spec e :
  ports_ok e → ports_ok (next_ephemeral e).1 ∧ (next_ephemeral e).2 = port_at (eph_counter e) 0 ∧
               eph_counter (next_ephemeral e).1 = wrap32 (eph_counter e + 1).
Proof.
  intros [Hs Hc]. unfold ports_ok. simpl. split_and!; [done|apply wrap32_u32| |done].
  unfold port_at. rewrite Hs, Z.add_0_r. f_equal. unfold wrap16, EPHEMERAL_PORTS.
  apply Z.mod_small. pose proof (Z.mod_pos_bound (eph_counter e) 16384 ltac:(lia)). lia.
Qed.

Lemma port_at_wrap c i : port_at (wrap32 (c + 1)) i = port_at c (S i).
Proof.
  unfold port_at, wrap32, EPHEMERAL_PORTS. f_equal. rewrite <-Zplus_mod_idemp_l.
  replace (2 ^ 32) with (16384 * 262144) by done. rewrite Z.rem_mul_r, Z.mul_comm, Z_mod_plus_full, Zmod_mod by lia.
  rewrite Zplus_mod_idemp_l. f_equal. lia.
Qed.

Lemma ephemeral_pass_spec taken n e :
  ports_ok e →
  let '(e', r) := ephemeral_pass taken n e in
  (∃ c, e' = set_eph_counter e c) ∧ ports_ok e' ∧
  match r with
  | Some p => ∃ i, (i < n)%nat ∧ p = port_at (eph_counter e) i ∧ taken p = false
  | None => ∀ i, (i < n)%nat → taken (port_at (eph_counter e) i) = true
  end.
Proof.
  revert e. induction n as [|n IH]; intros e He; cbn [ephemeral_pass].
  { split; [exists (eph_counter e); by destruct e|]. split; [done|]. lia. }
  destruct (next_ephemeral_spec e He) as (He' & Hp & Hc).
  assert ((next_ephemeral e).1 = set_eph_counter e (wadd32 (eph_counter e) 1)) as Hset by done.
  destruct (next_ephemeral e) as [e1 p]. simpl in *. subst p.
  destruct (taken (port_at (eph_counter e) 0)) eqn:Ht.
  - specialize (IH e1 He'). destruct (ephemeral_pass taken n e1) as [e' r]. destruct IH as ([c ->] & Hok & Hr).
    split; [exists c; by rewrite Hset|]. split; [done|]. rewrite Hc in Hr. destruct r as [p|].
    + destruct Hr as (i & ? & -> & ?). exists (S i). rewrite port_at_wrap in *. split; [lia|done].
    + intros [|i] Hi; [done|]. rewrite <-port_at_wrap. apply Hr. lia.
  - split; [by eexists|]. split; [done|]. exists 0%nat. split; [lia|done].
Qed.

(** A full pass meets every port of the range. *)
Lemma port_at_onto c p :
  EPHEMERAL_BASE ≤ p < EPHEMERAL_BASE + EPHEMERAL_PORTS →
  ∃ i, (i < Z.to_nat EPHEMERAL_PORTS)%nat ∧ port_at c i = p.
Proof.
  unfold EPHEMERAL_BASE, EPHEMERAL_PORTS. intros Hp.
  exists (Z.to_nat ((p - 49152 - c) mod 16384)). pose proof (Z.mod_pos_bound (p - 49152 - c) 16384 ltac:(lia)).
  split; [lia|]. unfold port_at, EPHEMERAL_PORTS, EPHEMERAL_BASE. rewrite Z2Nat.id by lia.
  rewrite Zplus_mod_idemp_r. replace (c + (p - 49152 - c)) with (p - 49152) by lia. rewrite Z.mod_small; lia.
Qed.

Lemma port_at_range c i : EPHEMERAL_BASE ≤ port_at c i < EPHEMERAL_BASE + EPHEMERAL_PORTS.
Proof. unfold port_at, EPHEMERAL_PORTS. pose proof (Z.mod_pos_bound (c + Z.of_nat i) 16384 ltac:(lia)). lia. Qed.

(** ** The engine under all its tasks *)

(** [e'] is [e] after frames were emitted. *)
Definition quiet (e e' : NatEngine) : Prop :=
  ∃ o id, e' = set_output (set_ip_id e id) o ∧ (is_u16 (ip_id_ctr e) → is_u16 id).

Lemma quiet_refl e : quiet e e.
Proof. exists (output e), (ip_id_ctr e). split; [by destruct e|done]. Qed.
Lemma quiet_trans e1 e2 e3 : quiet e1 e2 → quiet e2 e3 → quiet e1 e3.
Proof. intros (o & id & -> & Hi) (o' & id' & -> & Hi'). exists o', id'. split; [done|]. simpl in Hi'. auto. Qed.
Lemma quiet_send e mac p : quiet e (send_frame e mac p).
Proof. eexists _, (ip_id_ctr e). split; [by destruct e|done]. Qed.
Lemma quiet_id e : quiet e (next_ip_id e).1.
Proof.
  exists (output e), (wrap16 (ip_id_ctr e + 1)). split; [by destruct e|]. intros _. unfold is_u16, wrap16.
  apply Z.mod_pos_bound. lia.
Qed.
#[export] Hint Resolve quiet_refl quiet_send quiet_id : vmlab.

Lemma quiet_send_id e mac p : quiet e (send_frame (next_ip_id e).1 mac p).
Proof. eapply quiet_trans; [apply quiet_id|apply quiet_send]. Qed.
#[export] Hint Resolve quiet_send_id : vmlab.

Lemma quiet_emit e f seq ack flags payload options : quiet e (emit e f seq ack flags payload options).
Proof.
  unfold emit. destruct (tcp_build _ _ _ _); [|auto with vmlab]. simpl.
  destruct (ipv4_build _ _ _ _ _ _); [apply (quiet_send_id e)|apply (quiet_id e)].
Qed.
Lemma quiet_udp e mac a b c d payload : quiet e (send_udp_to_guest e mac a b c d payload).
Proof.
  unfold send_udp_to_guest. destruct (udp_build _ _ _ _ _); [|auto with vmlab]. simpl.
  destruct (ipv4_build _ _ _ _ _ _); [apply (quiet_send_id e)|apply (quiet_id e)].
Qed.
Lemma quiet_respond e mac pkt ok : quiet e (respond e mac pkt ok).
Proof.
  unfold respond. destruct ok; [destruct (icmp_echo_reply_for pkt); auto with vmlab|].
  destruct (Ipv4View_parse pkt); [|auto with vmlab]. simpl.
  destruct (ipv4_build _ _ _ _ _ _); [apply (quiet_send_id e)|apply (quiet_id e)].
Qed.
#[export] Hint Resolve quiet_emit quiet_udp quiet_respond : vmlab.

Record engine_ok (e : NatEngine) : Prop := {
  eo_ports : ports_ok e;
  eo_id : is_u16 (ip_id_ctr e) }.

(** Everything that changes the engine: a frame of a guest, the gateway's
    priming, the flow tasks' emissions and their end, the engine's own opens,
    the UDP readers and bound flows, the echo tasks. *)
Inductive nat_step (host : Z → gset Ipv4Addr) (e : NatEngine) : NatEngine → Prop :=
| ns_frame now c f e' acts : handle_frame e now (host now) c f = Ret (e', acts) → nat_step host e e'
| ns_learn ip mac : nat_step host e (learn_mac e ip mac)
| ns_emit f seq ack flags payload options : nat_step host e (emit e f seq ack flags payload options)
| ns_flow_end k : nat_step host e (remove_tcp_flow e k)
| ns_open gip gport : nat_step host e (alloc_active_tcp_flow (channel e).1 gip gport (channel e).2).1
| ns_to_guest gip gport payload : nat_step host e (udp_to_guest e gip gport payload)
| ns_bind gip gport : nat_step host e (udp_bind_guest_flow e gip gport).1
| ns_bound_send gip gport p payload : nat_step host e (bound_flow_send e gip gport p payload)
| ns_bound_end gip gport p : nat_step host e (bound_flow_end e gip gport p)
| ns_reader now k mac flow ev : nat_step host e (reader_turn e now k mac flow ev).1
| ns_echo now mac pkt : nat_step host e (handle_echo e now mac pkt).1
| ns_probed now mac pkt dst ok : nat_step host e (echo_probed e now mac pkt dst ok).

Lemma engine_ok_quiet e e' : quiet e e' → engine_ok e → engine_ok e'.
Proof. intros (o & id & -> & Hi) [Hp Hid]. split; simpl; auto. Qed.

Lemma engine_ok_guard e g : engine_ok e → engine_ok (put_guard e g).
Proof. by intros []. Qed.

Lemma refused_ok e now h dst kind : engine_ok e → engine_ok (refused e now h dst kind).1.
Proof. intros He. unfold refused. destruct (guard e); [|done]. destruct (Guard.refuses _ _ _ _ _). by apply engine_ok_guard. Qed.

Lemma handle_tcp_ok e now h ip mac : engine_ok e → engine_ok (handle_tcp e now h ip mac).1.
Proof.
  intros He. unfold handle_tcp. destruct (TcpView_parse _) as [tcp|]; [|done]. destruct (tcp_flows e !! _); [done|].
  pose proof (refused_ok e now h (ip_dst ip) (Guard.Tcp (tcp_dst_port tcp)) He) as Hr. cbn [dst_ip dst_port].
  destruct (seg_syn _ && _).
  - destruct (refused _ _ _ _ _) as [e1 r]. simpl in Hr. destruct r; simpl.
    + destruct (negb (seg_rst _)); [|done]. destruct (rst_for _ _ _); simpl;
        (eapply engine_ok_quiet; [|exact Hr]); [apply (quiet_send_id e1)|apply (quiet_id e1)].
    + by destruct Hr.
  - simpl. destruct (negb (seg_rst _)); [|done]. destruct (rst_for _ _ _); simpl;
      (eapply engine_ok_quiet; [|exact He]); [apply (quiet_send_id e)|apply (quiet_id e)].
Qed.

Lemma handle_udp_ok e now h ip mac c : engine_ok e → engine_ok (handle_udp e now h ip mac c).1.
Proof.
  intros He. unfold handle_udp. destruct (UdpView_parse _) as [udp|]; [|done].
  destruct (_ =? _); [by destruct (guest_udp e !! _)|].
  pose proof (refused_ok e now h (ip_dst ip) (Guard.Udp (udp_dst_port udp)) He) as Hr.
  destruct (refused _ _ _ _ _) as [e1 r]. simpl in Hr. destruct r; [done|].
  unfold handle_outbound. destruct (udp_flows e1 !! _); [by destruct Hr|destruct c; [|done]].
  by destruct Hr.
Qed.

Lemma handle_icmp_ok e now h raw ip mac e' acts :
  engine_ok e → handle_icmp e now h raw ip mac = Ret (e', acts) → engine_ok e'.
Proof.
  intros He. unfold handle_icmp. destruct (IcmpView_parse _); [|by intros; simplify_eq].
  destruct (_ || _); [by intros; simplify_eq|].
  pose proof (refused_ok e now h (ip_dst ip) Guard.Icmp He) as Hr.
  destruct (refused _ _ _ _ _) as [e1 r]. simpl in Hr. destruct r; [by intros; simplify_eq|].
  destruct (slice_chk _ _ _); intros; by simplify_eq/=.
Qed.

Lemma handle_frame_ok e now h c f e' acts :
  engine_ok e → handle_frame e now h c f = Ret (e', acts) → engine_ok e'.
Proof.
  intros He. unfold handle_frame. destruct (EthView_parse f) as [eth|]; [|by intros; simplify_eq].
  destruct (negb _); [by intros; simplify_eq|]. destruct (Ipv4View_parse _) as [ip|]; [|by intros; simplify_eq].
  assert (engine_ok (learn_mac e (ip_src ip) (src_mac eth))) as He' by (by destruct He).
  destruct (proto ip =? IPPROTO_TCP).
  { intros [= Heq]. pose proof (handle_tcp_ok _ now h ip (src_mac eth) He') as Hr. by rewrite Heq in Hr. }
  destruct (proto ip =? IPPROTO_UDP).
  { intros [= Heq]. pose proof (handle_udp_ok _ now h ip (src_mac eth) c He') as Hr. by rewrite Heq in Hr. }
  destruct (proto ip =? IPPROTO_ICMP); [by apply handle_icmp_ok|by intros; simplify_eq].
Qed.

Lemma nat_step_ok host e e' : nat_step host e e' → engine_ok e → engine_ok e'.
Proof.
  intros Hs He. inversion Hs; subst.
  - by eapply handle_frame_ok.
  - by destruct He.
  - eapply engine_ok_quiet; [apply quiet_emit|done].
  - by destruct He.
  - unfold alloc_active_tcp_flow. simpl.
    pose proof (ephemeral_pass_spec (λ p, bool_decide (is_Some (tcp_flows e !! mkKey gip gport (nat_gw_ip (cfg e)) p)))
                  (Z.to_nat (eph_span e)) (set_chans e (S (chans e))) (eo_ports _ He)) as Hp.
    destruct (ephemeral_pass _ _ _) as [e1 r]. destruct Hp as ([c ->] & Hpo & _), He.
    by destruct r.
  - destruct (next_ephemeral_spec e (eo_ports _ He)) as [Hp _]. unfold udp_to_guest, next_ephemeral.
    eapply engine_ok_quiet; [apply quiet_udp|]. destruct He. by split.
  - unfold udp_bind_guest_flow. simpl.
    pose proof (ephemeral_pass_spec (λ p, bool_decide (is_Some (guest_udp e !! (gip, gport, p))))
                  (Z.to_nat (eph_span e)) (set_chans (set_chans e (S (chans e))) (S (S (chans e)))) (eo_ports _ He)) as Hp.
    destruct (ephemeral_pass _ _ _) as [e1 r]. destruct Hp as ([c ->] & Hpo & _), He.
    by destruct r.
  - eapply engine_ok_quiet; [apply quiet_udp|done].
  - by destruct He.
  - destruct ev; simpl.
    + eapply engine_ok_quiet; [apply quiet_udp|]. by destruct He.
    + by destruct He.
    + destruct (_ <=? _); simpl; [|done]. by destruct He.
  - unfold handle_echo. destruct (Ipv4View_parse pkt); [|done]. destruct (cached _ _ _); simpl.
    + eapply engine_ok_quiet; [apply quiet_respond|done].
    + by destruct He.
  - eapply engine_ok_quiet; [apply quiet_respond|]. by destruct He.
Qed.

Lemma engine_new_ok c : engine_ok (NatEngine_new c).
Proof. split; simpl; [split; [done|by unfold is_u32]|by unfold is_u16]. Qed.

(** The counters of every engine a run reaches. *)
Lemma nat_reachable_ok host c e : rtc (nat_step host) (NatEngine_new c) e → engine_ok e.
Proof.
  intros Hrun. eapply (rtc_preserves _ _ _ _ (λ x y Hx Hs, nat_step_ok host x y Hs Hx)); [exact Hrun|apply engine_new_ok].
Qed.

Lemma ephemeral_pass_guard taken n e : guard (ephemeral_pass taken n e).1 = guard e.
Proof. revert e. induction n as [|n IH]; intros e; [done|]. simpl. destruct (taken _); [by rewrite IH|done]. Qed.

Lemma nat_step_guarded host exposed e e' : nat_step host e e' → guarded host exposed e → guarded host exposed e'.
Proof.
  intros Hs Hg. assert (∀ e1, quiet e e1 → guarded host exposed e1) as Hq
    by (intros e1 (o & id & -> & _); by eapply guarded_same).
  inversion Hs; subst; try (by eapply guarded_same); auto with vmlab.
  - destruct (handle_frame_guarded host exposed e now c f Hg) as (r & Heq & Hr & _). rewrite H in Heq. by simplify_eq.
  - unfold alloc_active_tcp_flow. simpl.
    match goal with |- context [ephemeral_pass ?t ?n ?e1] =>
      pose proof (ephemeral_pass_guard t n e1); destruct (ephemeral_pass t n e1) as [e2 [p|]] end;
      by eapply guarded_same.
  - unfold udp_to_guest, next_ephemeral. destruct (quiet_udp (set_eph_counter e (wadd32 (eph_counter e) 1))
      (guest_mac (set_eph_counter e (wadd32 (eph_counter e) 1)) gip) (nat_gw_ip (cfg e)) (EPHEMERAL_BASE + wrap16 (eph_counter e mod eph_span e)) gip gport payload)
      as (o & id & Heq & _). cbn [cfg set_eph_counter] in *. rewrite Heq. by eapply guarded_same.
  - unfold udp_bind_guest_flow. simpl.
    match goal with |- context [ephemeral_pass ?t ?n ?e1] =>
      pose proof (ephemeral_pass_guard t n e1); destruct (ephemeral_pass t n e1) as [e2 [p|]] end;
      by eapply guarded_same.
  - unfold bound_flow_send. auto with vmlab.
  - destruct ev; simpl; [|by eapply guarded_same|by destruct (_ <=? _); eapply guarded_same].
    match goal with |- guarded _ _ (send_udp_to_guest ?e1 ?a ?b ?c ?d ?f ?g) =>
      destruct (quiet_udp e1 a b c d f g) as (o & id & -> & _) end. by eapply guarded_same.
  - unfold handle_echo. destruct (Ipv4View_parse pkt); [|done]. destruct (cached _ _ _); simpl; [auto with vmlab|by eapply guarded_same].
  - unfold echo_probed. match goal with |- guarded _ _ (respond ?e1 ?a ?b ?c) =>
      destruct (quiet_respond e1 a b c) as (o & id & -> & _) end. by eapply guarded_same.
Qed.

(** ** Whose a channel is *)

(** The flows a guest's frame can belong to. *)
Inductive GuestFlow := FTcp (k : FlowKey) | FUdp (k : FlowKey) | FBound (gip : Ipv4Addr) (gport p : Z).

(** The channel or socket that serves a flow. *)
Definition served (e : NatEngine) (o : GuestFlow) : option Chan :=
  match o with
  | FTcp k => tcp_flows e !! k
  | FUdp k => udp_flows e !! k
  | FBound gip gport p => guest_udp e !! (gip, gport, p)
  end.

(** From [e] to [e'] channels are only made, and at most one flow got one of the new ones. *)
Definition grows (e e' : NatEngine) : Prop :=
  (chans e ≤ chans e')%nat ∧ cfg e' = cfg e ∧
  ∃ o0, ∀ o ch, served e' o = Some ch → served e o = Some ch ∨ (o = o0 ∧ (chans e ≤ ch < chans e')%nat).

Lemma grows_sub e e' :
  chans e' = chans e → cfg e' = cfg e → (∀ o ch, served e' o = Some ch → served e o = Some ch) → grows e e'.
Proof. intros Hn Hc Hs. split; [lia|]. split; [done|]. exists (FBound 0 0 0). intros o ch Ho. left. by apply Hs. Qed.

Lemma grows_same e e' :
  chans e' = chans e → cfg e' = cfg e → tcp_flows e' = tcp_flows e → udp_flows e' = udp_flows e →
  guest_udp e' = guest_udp e → grows e e'.
Proof. intros ? ? H1 H2 H3. apply grows_sub; [done..|]. intros [] ch; simpl; by rewrite ?H1, ?H2, ?H3. Qed.

Lemma grows_refl e : grows e e.
Proof. by apply grows_same. Qed.
Lemma quiet_grows e e' : quiet e e' → grows e e'.
Proof. intros (o & id & -> & _). by apply grows_same. Qed.
Lemma refused_grows e now h dst kind : ∃ g, (refused e now h dst kind).1 = put_guard e g.
Proof.
  unfold refused. destruct (guard e) eqn:Hg; [destruct (Guard.refuses _ _ _ _ _); by eexists|].
  exists (guard e). by destruct e.
Qed.

Ltac grows_insert o0 :=
  split; [simpl; lia|]; split; [done|]; exists o0; intros [] ch;
  simpl; rewrite ?lookup_insert_Some; try tauto;
  intros [[? ?]|[_ ?]]; [right; split; [congruence|lia]|by left].

(** The flow a frame belongs to, by the positions of its bytes: the protocol at
    23, the addresses at 26 and 30, the ports where the IPv4 header ends. *)
Definition l4_at (f : bytes) : Z := 14 + 4 * (idx f 14 mod 16).
Definition frame_key (f : bytes) : FlowKey :=
  mkKey (ipv4_at f 26) (u16_at f (l4_at f)) (ipv4_at f 30) (u16_at f (l4_at f + 2)).
Definition frame_flow (gw : Ipv4Addr) (f : bytes) : option GuestFlow :=
  let k := frame_key f in
  if idx f 23 =? 6 then Some (FTcp k)
  else if idx f 23 =? 17 then
    Some (if dst_ip k =? gw then FBound (guest_ip k) (guest_port k) (dst_port k) else FUdp k)
  else None.

(** The channel or socket an action feeds. *)
Definition feeds (a : NatAction) : option Chan :=
  match a with
  | ToFlow ch _ | SpawnPassive _ _ _ ch | ToBound ch _ | SpawnReader _ _ ch | SockSend ch _ _ => Some ch
  | SpawnEcho _ _ => None
  end.

(** A segment with the fields of the frame's TCP header and the bytes after it. *)
Definition segment_of (f : bytes) (seg : Segment) : Prop :=
  let t := l4_at f in
  sg_seq seg = u32_at f (t + 4) ∧ sg_ack seg = u32_at f (t + 8) ∧ sg_flags seg = idx f (t + 13) ∧
  sg_window seg = u16_at f (t + 14) ∧
  sg_payload seg = slice f (t + 4 * (idx f (t + 12) / 16)) (14 + u16_at f 16).

(** What an action takes from the frame [f]: its flow, its data, its sender. *)
Definition taken_from (f : bytes) (a : NatAction) : Prop :=
  let udp := slice f (l4_at f + 8) (l4_at f + u16_at f (l4_at f + 4)) in
  match a with
  | ToFlow _ seg => segment_of f seg
  | SpawnPassive k mac seg _ => k = frame_key f ∧ mac = slice f 6 12 ∧ segment_of f seg
  | ToBound _ b => b = udp
  | SpawnReader k mac _ => k = frame_key f ∧ mac = slice f 6 12
  | SockSend _ k b => k = frame_key f ∧ b = udp
  | SpawnEcho _ _ => True
  end.

(** ** A frame read by positions *)

Lemma slice_inner {A} (l : list A) a b c d : 0 ≤ a → 0 ≤ c → d ≤ b - a → slice (slice l a b) c d = slice l (a + c) (a + d).
Proof.
  intros. unfold slice. rewrite skipn_firstn_comm, skipn_skipn, take_take. f_equal; [lia|f_equal; lia].
Qed.

Section frame_positions.
Context (f : bytes) (eth : EthView) (ip : Ipv4View).
Context (Heth : EthView_parse f = Some eth) (Hip : Ipv4View_parse (eth_payload eth) = Some ip).

Lemma frame_ip_idx i : 0 ≤ i < len f - 14 → idx (ip_buf ip) i = idx f (14 + i).
Proof.
  intros Hi. destruct (EthView_parse_Some _ _ Heth) as [-> ?], (Ipv4View_parse_Some _ _ Hip) as [-> _].
  apply idx_slice; unfold ETH_HEADER_LEN; simpl; lia.
Qed.

Lemma frame_ip_bounds :
  header_len ip + 14 = l4_at f ∧ total_len ip = u16_at f 16 ∧ 34 ≤ l4_at f ≤ 14 + u16_at f 16 ∧ 14 + u16_at f 16 ≤ len f.
Proof.
  pose proof frame_ip_idx as Hx. destruct (EthView_parse_Some _ _ Heth) as [-> ?].
  destruct (Ipv4View_parse_Some _ _ Hip) as (Ei & ? & _ & [? ?] & ?).
  assert (len (eth_payload {| eth_buf := f |}) = len f - 14) as Hl.
  { unfold eth_payload, ETH_HEADER_LEN. simpl. rewrite len_slice; lia. }
  assert (header_len ip + 14 = l4_at f) as Hh.
  { unfold header_len, ihl, l4_at. rewrite Hx by lia. change 15 with (Z.ones 4). rewrite Z.land_ones by lia.
    change (14 + 0) with 14. change (2 ^ 4) with 16. lia. }
  assert (total_len ip = u16_at f 16) as Ht by (unfold total_len, u16_at; by rewrite !Hx by lia).
  split_and!; lia || done.
Qed.

Lemma frame_ip_fields : proto ip = idx f 23 ∧ ip_src ip = ipv4_at f 26 ∧ ip_dst ip = ipv4_at f 30.
Proof.
  pose proof frame_ip_idx as Hx. destruct frame_ip_bounds as (? & ? & [? ?] & ?).
  unfold proto, ip_src, ip_dst, ipv4_at. rewrite !Hx by lia. done.
Qed.

Lemma frame_l4 : ip_payload ip = slice f (l4_at f) (14 + u16_at f 16).
Proof.
  pose proof frame_ip_idx as Hx. destruct frame_ip_bounds as (Hh & Ht & [? ?] & ?).
  destruct (EthView_parse_Some _ _ Heth) as [E ?], (Ipv4View_parse_Some _ _ Hip) as (E' & _).
  assert (len (ip_buf ip) = len f - 14) as Hl.
  { rewrite E', E. unfold eth_payload, ETH_HEADER_LEN. simpl. rewrite len_slice; lia. }
  apply idx_ext; unfold ip_payload; rewrite !len_slice by lia; [lia|].
  intros i Hi. rewrite !idx_slice by lia. rewrite Hx by lia. f_equal. lia.
Qed.

Lemma frame_l4_idx i : 0 ≤ i < len (ip_payload ip) → idx (ip_payload ip) i = idx f (l4_at f + i).
Proof.
  destruct frame_ip_bounds as (_ & _ & [? ?] & ?). rewrite frame_l4, len_slice by lia. intros. apply idx_slice; lia.
Qed.
Lemma frame_l4_u16 i : 0 ≤ i → i + 1 < len (ip_payload ip) → u16_at (ip_payload ip) i = u16_at f (l4_at f + i).
Proof. intros. unfold u16_at. rewrite !frame_l4_idx by lia. by rewrite Z.add_assoc. Qed.

Lemma frame_tcp tcp : TcpView_parse (ip_payload ip) = Some tcp →
  mkKey (ip_src ip) (tcp_src_port tcp) (ip_dst ip) (tcp_dst_port tcp) = frame_key f ∧ segment_of f (Segment_from_view tcp).
Proof.
  intros (-> & ? & [? ?])%TcpView_parse_Some. destruct frame_ip_fields as (_ & -> & ->), frame_ip_bounds as (_ & _ & [? ?] & ?).
  unfold tcp_src_port, tcp_dst_port, data_offset in *. simpl in *. rewrite !frame_l4_u16 by lia.
  split; [unfold frame_key; by rewrite Z.add_0_r|]. unfold segment_of. simpl.
  assert (idx (ip_payload ip) 12 = idx f (l4_at f + 12)) as H12 by (apply frame_l4_idx; lia).
  unfold tcp_seq, tcp_ack, tcp_flags, tcp_window, tcp_payload, data_offset, u32_at. simpl.
  rewrite !frame_l4_u16, !frame_l4_idx by lia. rewrite !Z.add_assoc. split_and!; try done.
  rewrite H12 in *. rewrite Z.shiftr_div_pow2 in * by lia. change (2 ^ 4) with 16 in *.
  rewrite frame_l4 in *. rewrite len_slice in * by lia.
  rewrite slice_inner by lia. f_equal; lia.
Qed.

Lemma frame_udp udp : UdpView_parse (ip_payload ip) = Some udp →
  mkKey (ip_src ip) (udp_src_port udp) (ip_dst ip) (udp_dst_port udp) = frame_key f ∧
  udp_payload udp = slice f (l4_at f + 8) (l4_at f + u16_at f (l4_at f + 4)).
Proof.
  intros (-> & ? & [? ?])%UdpView_parse_Some. destruct frame_ip_fields as (_ & -> & ->), frame_ip_bounds as (_ & _ & [? ?] & ?).
  unfold udp_src_port, udp_dst_port, udp_payload, udp_len, UDP_HEADER_LEN in *. simpl in *. rewrite !frame_l4_u16 in * by lia.
  split; [unfold frame_key; by rewrite Z.add_0_r|]. rewrite frame_l4 in *. rewrite len_slice in * by lia.
  rewrite slice_inner by lia. f_equal; lia.
Qed.
End frame_positions.

(** ** What a frame does to the flows *)

(** The flows of [e'] are those of [e] and at most one new one, and each action
    takes its data from [f] and feeds what serves the flow of [f]. *)
Definition dispatched (f : bytes) (e e' : NatEngine) (acts : list NatAction) : Prop :=
  grows e e' ∧ (∀ o ch, served e o = Some ch → served e' o = Some ch) ∧
  ∀ a ch, a ∈ acts → feeds a = Some ch →
    taken_from f a ∧ ∃ o, frame_flow (nat_gw_ip (cfg e)) f = Some o ∧ served e' o = Some ch.

Lemma dispatched_same f e e' acts :
  chans e' = chans e → cfg e' = cfg e → tcp_flows e' = tcp_flows e → udp_flows e' = udp_flows e →
  guest_udp e' = guest_udp e →
  (∀ a ch, a ∈ acts → feeds a = Some ch →
     taken_from f a ∧ ∃ o, frame_flow (nat_gw_ip (cfg e)) f = Some o ∧ served e o = Some ch) →
  dispatched f e e' acts.
Proof.
  intros Hn Hc Ht Hu Hb Ha. assert (∀ o, served e' o = served e o) as Hs
    by (intros []; simpl; by rewrite ?Ht, ?Hu, ?Hb).
  split; [by apply grows_same|]. split; [intros o ch; by rewrite Hs|].
  intros a ch Hin Hf. destruct (Ha a ch Hin Hf) as (? & o & ? & ?). split; [done|]. exists o. by rewrite Hs.
Qed.

Lemma dispatched_quiet f e e' : quiet e e' → dispatched f e e' [].
Proof. intros (o & id & -> & _). apply dispatched_same; [done..|]. by intros a ch ?%elem_of_nil. Qed.
Lemma dispatched_put_guard f e g e' acts : dispatched f (put_guard e g) e' acts → dispatched f e e' acts.
Proof. intros (Hg & Hk & Ha). split_and!; [exact Hg| |exact Ha]. intros o ch Ho. apply Hk. by destruct o. Qed.
Lemma dispatched_learn f e a m e' acts : dispatched f (learn_mac e a m) e' acts → dispatched f e e' acts.
Proof. intros (Hg & Hk & Ha). split_and!; [exact Hg| |exact Ha]. intros o ch Ho. apply Hk. by destruct o. Qed.

Section dispatch.
Context (f : bytes) (eth : EthView) (ip : Ipv4View) (e : NatEngine) (now : Z) (h : gset Ipv4Addr).
Context (Heth : EthView_parse f = Some eth) (Hip : Ipv4View_parse (eth_payload eth) = Some ip).

Lemma frame_sender : src_mac eth = slice f 6 12.
Proof. by destruct (EthView_parse_Some _ _ Heth) as [-> _]. Qed.

Lemma handle_tcp_dispatched : proto ip = IPPROTO_TCP →
  dispatched f e (handle_tcp e now h ip (src_mac eth)).1 (handle_tcp e now h ip (src_mac eth)).2.
Proof.
  intros Hp. destruct (frame_ip_fields f eth ip Heth Hip) as (Hpf & _). rewrite Hp in Hpf.
  unfold handle_tcp. destruct (TcpView_parse (ip_payload ip)) as [tcp|] eqn:Htcp; [|by apply dispatched_quiet, quiet_refl].
  destruct (frame_tcp f eth ip Heth Hip tcp Htcp) as [-> Hseg].
  assert (∀ gw, frame_flow gw f = Some (FTcp (frame_key f))) as Hflow by (intros gw; unfold frame_flow; by rewrite <-Hpf).
  destruct (tcp_flows e !! frame_key f) as [tx|] eqn:Hk.
  { apply dispatched_same; [done..|]. intros a ch ->%list_elem_of_singleton [= <-]. split; [done|]. by eexists. }
  destruct (seg_syn _ && _); simpl.
  - destruct (refused_grows e now h (dst_ip (frame_key f)) (Guard.Tcp (dst_port (frame_key f)))) as [g Hg].
    destruct (refused _ _ _ _ _) as [e1 [|]]; simpl in Hg; subst e1; simpl; apply (dispatched_put_guard f e g).
    + destruct (negb _); [|by apply dispatched_quiet, quiet_refl]. destruct (rst_for _ _ _); apply dispatched_quiet;
        [apply quiet_send_id|apply quiet_id].
    + split_and!; [grows_insert (FTcp (frame_key f))| |].
      * intros [] ch; simpl; [|done..]. rewrite lookup_insert_Some. intros Ho. right. split; [intros <-; simpl in *; congruence|done].
      * intros a ch ->%list_elem_of_singleton [= <-]. rewrite frame_sender. split; [done|].
        eexists. split; [apply Hflow|]. apply lookup_insert_eq.
  - destruct (negb _); [|by apply dispatched_quiet, quiet_refl]. destruct (rst_for _ _ _); apply dispatched_quiet;
      [apply (quiet_send_id e)|apply (quiet_id e)].
Qed.

Lemma handle_udp_dispatched c : proto ip = IPPROTO_UDP →
  dispatched f e (handle_udp e now h ip (src_mac eth) c).1 (handle_udp e now h ip (src_mac eth) c).2.
Proof.
  intros Hp. destruct (frame_ip_fields f eth ip Heth Hip) as (Hpf & _). rewrite Hp in Hpf.
  unfold handle_udp. destruct (UdpView_parse (ip_payload ip)) as [udp|] eqn:Hudp; [|by apply dispatched_quiet, quiet_refl].
  destruct (frame_udp f eth ip Heth Hip udp Hudp) as [Hkey ->].
  assert (∀ gw, frame_flow gw f = Some (if ip_dst ip =? gw then FBound (ip_src ip) (udp_src_port udp) (udp_dst_port udp)
                                        else FUdp (frame_key f))) as Hflow
    by (intros gw; unfold frame_flow; rewrite <-Hpf, <-Hkey; done).
  destruct (ip_dst ip =? nat_gw_ip (cfg e)) eqn:Hgw.
  { destruct (guest_udp e !! _) as [tx|] eqn:Hb; [|by apply dispatched_quiet, quiet_refl].
    apply dispatched_same; [done..|]. intros a ch ->%list_elem_of_singleton [= <-]. split; [done|].
    eexists. split; [rewrite Hflow, Hgw; done|done]. }
  destruct (refused_grows e now h (ip_dst ip) (Guard.Udp (udp_dst_port udp))) as [g Hg].
  destruct (refused _ _ _ _ _) as [e1 r]. simpl in Hg. subst e1. apply (dispatched_put_guard f e g).
  destruct r; [by apply dispatched_quiet, quiet_refl|]. rewrite Hkey. unfold handle_outbound.
  destruct (udp_flows (put_guard e g) !! frame_key f) as [fl|] eqn:Hk.
  { apply dispatched_same; [done..|]. intros a ch ->%list_elem_of_singleton [= <-]. split; [done|].
    eexists. split; [simpl; rewrite Hflow, Hgw; done|done]. }
  destruct c; [|by apply dispatched_quiet, quiet_refl]. simpl.
  split_and!; [grows_insert (FUdp (frame_key f))| |].
  - intros [] ch; simpl; [done| |done]. rewrite lookup_insert_Some. intros Ho. right. split; [intros <-; discriminate (eq_trans (eq_sym Ho) Hk)|done].
  - intros a ch Hin Hf. assert (ch = chans e ∧ taken_from f a) as [-> Ht].
    { apply elem_of_cons in Hin as [->|Hin]; [|apply list_elem_of_singleton in Hin as ->];
        simplify_eq/=; [by rewrite frame_sender|done]. }
    split; [done|]. eexists. split; [simpl; rewrite Hflow, Hgw; done|]. apply lookup_insert_eq.
Qed.

Lemma handle_icmp_dispatched raw e' acts :
  handle_icmp e now h raw ip (src_mac eth) = Ret (e', acts) → dispatched f e e' acts.
Proof.
  unfold handle_icmp. destruct (IcmpView_parse _); [|intros [= <- <-]; by apply dispatched_quiet, quiet_refl].
  destruct (_ || _); [intros [= <- <-]; by apply dispatched_quiet, quiet_refl|].
  destruct (refused_grows e now h (ip_dst ip) Guard.Icmp) as [g Hg].
  destruct (refused _ _ _ _ _) as [e1 r]. simpl in Hg. subst e1. destruct r.
  { intros [= <- <-]. apply (dispatched_put_guard f e g). by apply dispatched_quiet, quiet_refl. }
  destruct (slice_chk _ _ _) as [pkt|]; intros; simplify_eq/=. apply (dispatched_put_guard f e g).
  apply dispatched_same; [done..|]. by intros a ch ->%list_elem_of_singleton.
Qed.
End dispatch.

Lemma handle_frame_dispatched e now h c f e' acts :
  handle_frame e now h c f = Ret (e', acts) → dispatched f e e' acts.
Proof.
  unfold handle_frame. destruct (EthView_parse f) as [eth|] eqn:Heth; [|intros [= <- <-]; by apply dispatched_quiet, quiet_refl].
  destruct (negb _); [intros [= <- <-]; by apply dispatched_quiet, quiet_refl|].
  destruct (Ipv4View_parse (eth_payload eth)) as [ip|] eqn:Hip; [|intros [= <- <-]; by apply dispatched_quiet, quiet_refl].
  intros Heq. apply (dispatched_learn f e (ip_src ip) (src_mac eth)). revert Heq.
  set (e1 := learn_mac _ _ _). destruct (proto ip =? IPPROTO_TCP) eqn:Hp.
  { apply Z.eqb_eq in Hp. intros [= Heq]. pose proof (handle_tcp_dispatched f eth ip e1 now h Heth Hip Hp) as Hd.
    by rewrite Heq in Hd. }
  clear Hp. destruct (proto ip =? IPPROTO_UDP) eqn:Hp.
  { apply Z.eqb_eq in Hp. intros [= Heq]. pose proof (handle_udp_dispatched f eth ip e1 now h Heth Hip c Hp) as Hd.
    by rewrite Heq in Hd. }
  destruct (proto ip =? IPPROTO_ICMP); [by apply handle_icmp_dispatched|].
  intros [= <- <-]. by apply dispatched_quiet, quiet_refl.
Qed.

Lemma served_delete e e' o0 :
  chans e' = chans e → cfg e' = cfg e → (∀ o, o ≠ o0 → served e' o = served e o) → served e' o0 = None → grows e e'.
Proof.
  intros Hn Hc Hs H0. apply grows_sub; [done..|]. intros o ch Ho. rewrite <-Hs; [done|]. intros ->. congruence.
Qed.

Lemma ephemeral_pass_counter taken n e : ∃ c, (ephemeral_pass taken n e).1 = set_eph_counter e c.
Proof.
  revert e. induction n as [|n IH]; intros e; [exists (eph_counter e); by destruct e|]. simpl.
  destruct (taken _); [destruct (IH (set_eph_counter e (wadd32 (eph_counter e) 1))) as [c ->]|]; by eexists.
Qed.

Lemma nat_step_grows host e e' : nat_step host e e' → grows e e'.
Proof.
  intros Hs. inversion Hs; subst.
  - by eapply handle_frame_dispatched.
  - by apply grows_same.
  - apply quiet_grows, quiet_emit.
  - apply (served_delete _ _ (FTcp k)); [done..| |apply lookup_delete_eq].
    intros [] Hne; [|done..]. apply lookup_delete_ne. congruence.
  - unfold alloc_active_tcp_flow. simpl.
    match goal with |- context [ephemeral_pass ?t ?n ?e1] =>
      destruct (ephemeral_pass_counter t n e1) as [c Hc]; destruct (ephemeral_pass t n e1) as [e2 r] end.
    simpl in Hc. subst e2. destruct r as [p|]; simpl.
    + grows_insert (FTcp (mkKey gip gport (nat_gw_ip (cfg e)) p)).
    + split; [simpl; lia|]. split; [done|]. exists (FBound 0 0 0). intros [] ch; by left.
  - unfold udp_to_guest, next_ephemeral. apply (quiet_grows (set_eph_counter e (wadd32 (eph_counter e) 1))), quiet_udp.
  - unfold udp_bind_guest_flow. simpl.
    match goal with |- context [ephemeral_pass ?t ?n ?e1] =>
      destruct (ephemeral_pass_counter t n e1) as [c Hc]; destruct (ephemeral_pass t n e1) as [e2 r] end.
    simpl in Hc. subst e2. destruct r as [p|]; simpl.
    + grows_insert (FBound gip gport p).
    + split; [simpl; lia|]. split; [done|]. exists (FBound 0 0 0). intros [] ch; by left.
  - apply quiet_grows, quiet_udp.
  - apply (served_delete _ _ (FBound gip gport p)); [done..| |apply lookup_delete_eq].
    intros [] Hne; [done..|]. apply lookup_delete_ne. congruence.
  - assert (grows e (set_udp_flows e (delete k (udp_flows e)) (last_used e))) as Hgone.
    { apply (served_delete _ _ (FUdp k)); [done..| |apply lookup_delete_eq].
      intros [] Hne; [done| |done]. apply lookup_delete_ne. congruence. }
    destruct ev; simpl; [|exact Hgone|destruct (_ <=? _); [exact Hgone|apply grows_refl]].
    apply (quiet_grows (set_udp_flows e (udp_flows e) (<[flow := now]> (last_used e)))), quiet_udp.
  - unfold handle_echo. destruct (Ipv4View_parse pkt); [|apply grows_refl]. destruct (cached _ _ _); simpl.
    + apply quiet_grows, quiet_respond.
    + by apply grows_same.
  - apply (quiet_grows (set_icmp e (complete (icmp e) now dst ok))), quiet_respond.
Qed.

(** Every channel in use was made, and serves one flow. *)
Definition one_owner (e : NatEngine) : Prop :=
  (∀ o ch, served e o = Some ch → (ch < chans e)%nat) ∧
  ∀ o1 o2 ch, served e o1 = Some ch → served e o2 = Some ch → o1 = o2.
(** [ch] was made and serves [o] or no flow. *)
Definition owned (ch : Chan) (o : GuestFlow) (e : NatEngine) : Prop :=
  (ch < chans e)%nat ∧ ∀ o', served e o' = Some ch → o' = o.

Lemma one_owner_grows e e' : grows e e' → one_owner e → one_owner e'.
Proof.
  intros (Hn & _ & o0 & Hs) [Hl Hi]. split.
  - intros o ch [?%Hl|[_ ?]]%Hs; lia.
  - intros o1 o2 ch [H1|[-> ?]]%Hs [H2|[-> ?]]%Hs; [eauto|apply Hl in H1; lia|apply Hl in H2; lia|done].
Qed.
Lemma owned_grows ch o e e' : grows e e' → owned ch o e → owned ch o e'.
Proof. intros (Hn & _ & o0 & Hs) [Hl Ho]. split; [lia|]. intros o' [?|[_ ?]]%Hs; [auto|lia]. Qed.
Lemma one_owner_new c g : one_owner (put_guard (NatEngine_new c) g).
Proof. split; intros []; simpl; intros; by rewrite lookup_empty in *. Qed.

(** ** Probes *)

(** The engine with the destinations whose probe has not answered. *)
Inductive echo_step : NatEngine * list Ipv4Addr → NatEngine * list Ipv4Addr → Prop :=
| es_echo e ps now mac pkt e' r : handle_echo e now mac pkt = (e', r) → echo_step (e, ps) (e', ps ++ option_list r)
| es_probed e ps1 dst ps2 now mac pkt ok :
    echo_step (e, ps1 ++ dst :: ps2) (echo_probed e now mac pkt dst ok, ps1 ++ ps2)
| es_other e e' ps : icmp e' = icmp e → echo_step (e, ps) (e', ps).

Definition probes_ok (s : NatEngine * list Ipv4Addr) : Prop :=
  NoDup s.2 ∧ ∀ d, d ∈ icmp_pending (icmp s.1) ↔ d ∈ s.2.

Lemma respond_icmp e mac pkt ok : icmp (respond e mac pkt ok) = icmp e.
Proof. by destruct (quiet_respond e mac pkt ok) as (o & id & -> & _). Qed.

Lemma echo_step_ok s s' : echo_step s s' → probes_ok s → probes_ok s'.
Proof.
  intros Hs [Hnd Hp]. inversion Hs as [e ps now mac pkt e' r Heq|e ps1 dst ps2 now mac pkt ok|e e' ps Heq]; subst; simpl in *.
  - unfold handle_echo in Heq. destruct (Ipv4View_parse pkt) as [ip|]; [|simplify_eq/=; by rewrite app_nil_r].
    destruct (cached _ _ _); [simplify_eq/=; rewrite app_nil_r; split; simpl; [done|by rewrite respond_icmp]|].
    unfold claim in Heq. case_bool_decide as Hin; simplify_eq/=; split; simpl.
    + apply NoDup_app. split_and!; [done| |apply NoDup_singleton]. intros x Hx ->%list_elem_of_singleton. by apply Hin, Hp.
    + intros d. rewrite elem_of_app, list_elem_of_singleton, <-Hp. set_solver.
    + by rewrite app_nil_r.
    + intros d. rewrite app_nil_r, <-Hp. set_solver.
  - apply NoDup_app in Hnd as (H1 & H2 & [Hd H3]%NoDup_cons). unfold echo_probed. split; simpl.
    + apply NoDup_app. split_and!; [done| |done]. intros x ? ?. apply (H2 x); [done|by right].
    + intros d. rewrite respond_icmp. simpl. rewrite elem_of_difference, Hp, !elem_of_app, elem_of_cons, elem_of_singleton.
      split; [intuition done|]. intros Hx. split; [tauto|]. intros ->.
      destruct Hx as [Hx|Hx]; [apply (H2 dst Hx); by left|done].
  - split; simpl; [done|by rewrite Heq].
Qed.

(** ** Which actions carry segments *)

Definition action_seg (a : NatAction) : option Segment :=
  match a with ToFlow _ seg | SpawnPassive _ _ seg _ => Some seg | _ => None end.
Definition segs_ok (acts : list NatAction) : Prop := Forall (λ a, ∀ seg, action_seg a = Some seg → seg_ok seg) acts.

Lemma handle_tcp_segs e now host buf ip mac :
  bytes_ok buf → Ipv4View_parse buf = Some ip → segs_ok (handle_tcp e now host ip mac).2.
Proof.
  intros Hok Hip. unfold handle_tcp. destruct (TcpView_parse (ip_payload ip)) as [tcp|] eqn:Htcp; [|constructor].
  pose proof (segment_from_view_ok _ _ _ Hok Hip Htcp) as Hseg.
  destruct (tcp_flows e !! _); [constructor; [by intros ? [= <-]|constructor]|].
  destruct (seg_syn _ && _); [destruct (refused _ _ _ _ _) as [e1 [|]]|]; simpl.
  2: constructor; [by intros ? [= <-]|constructor].
  all: destruct (negb _); [destruct (rst_for _ _ _)|]; constructor.
Qed.

Lemma handle_udp_segs e now host ip mac c : segs_ok (handle_udp e now host ip mac c).2.
Proof.
  unfold handle_udp. destruct (UdpView_parse _); [|constructor].
  destruct (_ =? _); [destruct (guest_udp e !! _); repeat constructor; done|].
  destruct (refused _ _ _ _ _) as [e1 [|]]; [constructor|]. unfold handle_outbound.
  destruct (udp_flows e1 !! _); [|destruct c]; repeat constructor; done.
Qed.

Lemma handle_frame_segs e now host c f :
  bytes_ok f → match handle_frame e now host c f with Ret (_, acts) => segs_ok acts | Panic => True end.
Proof.
  intros Hok. unfold handle_frame. destruct (EthView_parse f) as [eth|] eqn:Heth; [|constructor].
  destruct (negb _); [constructor|].
  assert (bytes_ok (eth_payload eth)) as Hpok.
  { apply EthView_parse_Some in Heth as (-> & _). by apply bytes_ok_slice. }
  destruct (Ipv4View_parse (eth_payload eth)) as [ip|] eqn:Hip; [|constructor].
  set (e1 := learn_mac _ _ _). destruct (proto ip =? IPPROTO_TCP).
  { pose proof (handle_tcp_segs e1 now host _ ip (src_mac eth) Hpok Hip). by destruct (handle_tcp _ _ _ _ _). }
  destruct (proto ip =? IPPROTO_UDP).
  { pose proof (handle_udp_segs e1 now host ip (src_mac eth) c). by destruct (handle_udp _ _ _ _ _ _). }
  destruct (proto ip =? IPPROTO_ICMP); [|constructor]. unfold handle_icmp.
  destruct (IcmpView_parse _); [|constructor]. destruct (_ || _); [constructor|].
  destruct (refused _ _ _ _ _) as [e2 [|]]; [constructor|].
  destruct (slice_chk _ _ _); simpl; [|done]. constructor; [done|constructor].
Qed.

(** ** Properties *)

(** C9: worktree isolation. Starting from a new engine put under a guard, after
    any steps of the engine and its tasks, every frame of a guest is handled
    without a panic, and every TCP connection, UDP datagram and echo probe it
    starts towards the world was admitted: its destination is not the host's
    own, by a list of the host's addresses read less than [REFRESH] earlier,
    except a TCP port the lab exposes on 127.0.0.1. *)
Theorem nat_worktree_isolation (c : NatConfig) (host : Z → gset Ipv4Addr) (exposed : list Z) e :
  rtc (nat_step host) (set_guard (NatEngine_new c) (Guard.HostGuard_new exposed)) e →
  ∀ now connected f, ∃ e' acts, handle_frame e now (host now) connected f = Ret (e', acts) ∧
    ∀ a dst kind, a ∈ acts → opens a = Some (dst, kind) →
      (∃ port, kind = Guard.Tcp port ∧ dst = Guard.LOCALHOST ∧ port ∈ exposed) ∨
      ∃ at_, Z.max 0 (now - at_) < Guard.REFRESH ∧ Guard.is_host_address dst (host at_) = false.
Proof.
  intros Hrun now connected f. assert (guarded host exposed e) as Hg.
  { eapply (rtc_preserves _ _ _ _ (λ x y Hx Hs, nat_step_guarded host exposed x y Hs Hx)); [exact Hrun|].
    by eexists. }
  destruct (handle_frame_guarded host exposed e now connected f Hg) as ([e' acts] & Heq & _ & Hadm).
  exists e', acts. split; [done|]. intros a dst kind Hin Hop. destruct (Hadm a dst kind Hin Hop) as (at_ & Hat & Hr).
  unfold Guard.refuses_flow in Hr. destruct kind as [port|port|]; [|right; by exists at_..].
  destruct (_ && _) eqn:Hc; [|right; by exists at_]. apply andb_prop in Hc as [?%Z.eqb_eq ?%bool_decide_eq_true].
  left. by exists port.
Qed.

(** C31: ephemeral ports. Allocating a port for an active open to a guest
    endpoint, from any engine state whose range is the full one, fails
    exactly when all 16384 ports already carry a flow to that endpoint;
    otherwise it takes a free port of the range and changes no other entry. *)
Theorem nat_ephemeral_ports (e : NatEngine) (gip gport : Z) (tx : Chan) :
  ports_ok e →
  let '(e', r) := alloc_active_tcp_flow e gip gport tx in
  ports_ok e' ∧
  match r with
  | Some k => k = mkKey gip gport (nat_gw_ip (cfg e)) (dst_port k) ∧
              EPHEMERAL_BASE ≤ dst_port k < EPHEMERAL_BASE + EPHEMERAL_PORTS ∧
              tcp_flows e !! k = None ∧ tcp_flows e' = <[k := tx]> (tcp_flows e)
  | None => tcp_flows e' = tcp_flows e ∧
            ∀ p, EPHEMERAL_BASE ≤ p < EPHEMERAL_BASE + EPHEMERAL_PORTS →
                 is_Some (tcp_flows e !! mkKey gip gport (nat_gw_ip (cfg e)) p)
  end.
Proof.
  intros Hok. unfold alloc_active_tcp_flow.
  pose proof (ephemeral_pass_spec (λ p, bool_decide (is_Some (tcp_flows e !! mkKey gip gport (nat_gw_ip (cfg e)) p)))
                (Z.to_nat (eph_span e)) e Hok) as Hp. cbv beta in Hp.
  destruct (ephemeral_pass _ _ _) as [e1 [p|]]; destruct Hp as ([c ->] & Hok' & Hp); simpl; (split; [exact Hok'|]).
  - destruct Hp as (i & _ & -> & Ht%bool_decide_eq_false). split_and!; [done|apply port_at_range..| |done].
    by apply eq_None_not_Some.
  - split; [done|]. intros p Hr. destruct Hok as [Hspan _]. destruct (port_at_onto (eph_counter e) p Hr) as (i & Hi & <-).
    rewrite Hspan in Hp. specialize (Hp i Hi). by apply bool_decide_eq_true in Hp.
Qed.

(** What the engine does with a TCP segment. One of a known flow goes to
    that flow's task and changes nothing else; one that opens a flow no guard
    refuses gets a fresh channel and a new entry; anything else is answered
    with exactly one reset the guest accepts (RFC 793), a reset never. *)
Theorem nat_tcp_dispatch (e : NatEngine) (now : Z) (host : gset Ipv4Addr) (buf : bytes) ip tcp mac :
  bytes_ok buf → Ipv4View_parse buf = Some ip → TcpView_parse (ip_payload ip) = Some tcp → is_u16 (ip_id_ctr e) →
  let k := mkKey (ip_src ip) (tcp_src_port tcp) (ip_dst ip) (tcp_dst_port tcp) in
  let r := refused e now host (ip_dst ip) (Guard.Tcp (tcp_dst_port tcp)) in
  let '(e', acts) := handle_tcp e now host ip mac in
  match tcp_flows e !! k with
  | Some tx => e' = e ∧ acts = [ToFlow tx (Segment_from_view tcp)]
  | None =>
      if is_syn tcp && negb (is_ack tcp) && negb r.2 then
        tcp_flows e' = <[k := chans e]> (tcp_flows e) ∧ chans e' = S (chans e) ∧ output e' = output e ∧
        acts = [SpawnPassive k mac (Segment_from_view tcp) (chans e)]
      else
        tcp_flows e' = tcp_flows e ∧ acts = [] ∧
        if is_rst tcp then output e' = output e
        else ∃ p, output e' = output e ++ [eth_build mac (nat_gw_mac (cfg e)) ETHERTYPE_IPV4 p] ∧ resets ip tcp p
  end.
Proof.
  intros Hok Hip Htcp Hid k r.
  assert (∀ g, ∃ p, rst_for ip tcp (ip_id_ctr (put_guard e g)) = Some p ∧ resets ip tcp p) as Hrst
    by (intros g; by eapply rst_for_resets).
  assert (r = (e, false) ∨ ∃ g, r.1 = put_guard e g) as Hr.
  { subst r. unfold refused. destruct (guard e); [|by left]. right. destruct (Guard.refuses _ _ _ _ _). by eexists. }
  assert (∃ g, e = put_guard e g) as He by (exists (guard e); by destruct e).
  unfold handle_tcp. rewrite Htcp. fold k. destruct (tcp_flows e !! k) as [tx|]; [done|].
  change (seg_syn (Segment_from_view tcp)) with (is_syn tcp). change (seg_ack (Segment_from_view tcp)) with (is_ack tcp).
  change (seg_rst (Segment_from_view tcp)) with (is_rst tcp).
  change (refused e now host (dst_ip k) (Guard.Tcp (dst_port k))) with r.
  destruct (is_syn tcp && negb (is_ack tcp)); simpl.
  - assert (∃ g, r.1 = put_guard e g) as [g Hg] by (destruct Hr as [->|Hr]; [exact He|exact Hr]).
    clearbody r. destruct r as [e1 [|]]; simpl in *; subst e1.
    + destruct (is_rst tcp); simpl; [done|]. destruct (Hrst g) as (p & Hp & Hres). simpl in Hp. rewrite Hp. simpl.
      split_and!; try done. by exists p.
    + done.
  - destruct (is_rst tcp); simpl; [done|]. destruct He as [g He]. destruct (Hrst g) as (p & Hp & Hres).
    rewrite <-He in Hp. rewrite Hp. simpl. split_and!; try done. by exists p.
Qed.

(** One probe per destination. In every interleaving of echo requests,
    probe answers and other engine activity from a new engine, each
    destination has at most one probe in flight; and an echo request is
    answered at once from a result less than ten seconds old, dropped exactly
    when its destination is being probed, and starts a probe otherwise. *)
Theorem nat_one_probe (c : NatConfig) e ps :
  rtc echo_step (NatEngine_new c, []) (e, ps) →
  NoDup ps ∧
  ∀ now mac pkt ip, Ipv4View_parse pkt = Some ip →
    let '(e', r) := handle_echo e now mac pkt in
    match cached (icmp e) now (ip_dst ip) with
    | Some ok => e' = respond e mac pkt ok ∧ r = None
    | None => r = (if bool_decide (ip_dst ip ∈ ps) then None else Some (ip_dst ip)) ∧ output e' = output e
    end.
Proof.
  intros Hrun. assert (probes_ok (e, ps)) as [Hnd Hp].
  { eapply (rtc_preserves _ _ _ _ (λ x y Hx Hs, echo_step_ok x y Hs Hx)); [exact Hrun|].
    split; simpl; [constructor|]. intros d. rewrite elem_of_empty, elem_of_nil. done. }
  split; [done|]. intros now mac pkt ip Hip. unfold handle_echo. rewrite Hip.
  destruct (cached _ _ _); [done|]. unfold claim. split; [|done]. simpl in Hp.
  repeat case_bool_decide; try done; exfalso; naive_solver.
Qed.

(** C32: flows never mix, over a whole run. From a new engine, with or without
    a host guard, through guests' frames, the engine's own opens and the end of
    tasks in any order: when a frame [f1] makes the engine feed a channel or
    socket [ch], what it feeds is the data of [f1], read at its byte positions,
    and any later frame that makes it feed [ch] is of the same flow (protocol,
    both addresses, both ports); and as long as that flow is open, a frame of
    it feeds nothing else. *)
Theorem nat_flows_isolated (c : NatConfig) (g : option Guard.HostGuard) (host : Z → gset Ipv4Addr)
    e1 now1 h1 c1 f1 e1' acts1 a1 ch e2 now2 h2 c2 f2 e2' acts2 a2 :
  rtc (nat_step host) (put_guard (NatEngine_new c) g) e1 →
  handle_frame e1 now1 h1 c1 f1 = Ret (e1', acts1) → a1 ∈ acts1 → feeds a1 = Some ch →
  rtc (nat_step host) e1' e2 →
  handle_frame e2 now2 h2 c2 f2 = Ret (e2', acts2) → a2 ∈ acts2 →
  let gw := nat_gw_ip c in
  taken_from f1 a1 ∧
  (feeds a2 = Some ch → frame_flow gw f2 = frame_flow gw f1) ∧
  (∀ o ch', frame_flow gw f1 = Some o → served e2 o = Some ch →
     frame_flow gw f2 = Some o → feeds a2 = Some ch' → ch' = ch).
Proof.
  intros Hr1 Hf1 Ha1 Hch Hr2 Hf2 Ha2 gw.
  assert (one_owner e1 ∧ cfg e1 = c) as [Ho1 Hc1].
  { eapply (rtc_preserves _ (λ x, one_owner x ∧ cfg x = c)); [|exact Hr1|split; [apply one_owner_new|done]].
    intros x y [Hx Hc] Hs%nat_step_grows. split; [by eapply one_owner_grows|]. destruct Hs as (_ & -> & _). done. }
  destruct (handle_frame_dispatched _ _ _ _ _ _ _ Hf1) as (Hg1 & _ & Hd1).
  destruct (Hd1 a1 ch Ha1 Hch) as (Ht & o & Hflow & Hs). rewrite Hc1 in Hflow. fold gw in Hflow.
  pose proof (one_owner_grows _ _ Hg1 Ho1) as [Hl Hi].
  assert (owned ch o e2 ∧ cfg e2 = c) as [Ho2 Hc2].
  { eapply (rtc_preserves _ (λ x, owned ch o x ∧ cfg x = c)); [|exact Hr2|].
    - intros x y [Hx Hc] Hst%nat_step_grows. split; [by eapply owned_grows|]. destruct Hst as (_ & -> & _). done.
    - split; [split; eauto|]. destruct Hg1 as (_ & -> & _). done. }
  destruct (handle_frame_dispatched _ _ _ _ _ _ _ Hf2) as (Hg2 & Hkeep & Hd2). rewrite Hc2 in Hd2. fold gw in Hd2.
  split; [done|]. split.
  - intros Hch2. destruct (Hd2 a2 ch Ha2 Hch2) as (_ & o2 & -> & Hs2). rewrite Hflow.
    by rewrite (proj2 (owned_grows _ _ _ _ Hg2 Ho2) o2 Hs2).
  - intros o' ch' Hfo Hopen Hfo2 Hch2. destruct (Hd2 a2 ch' Ha2 Hch2) as (_ & o2 & Ho2' & Hs2).
    apply Hkeep in Hopen. congruence.
Qed.

(** ** Witnesses *)

(** A guest's SYN to 93.184.216.34:80, and the same to the host's 192.168.1.20. *)
Definition guest_syn (dst : Ipv4Addr) : bytes :=
  match tcp_build 0x0A000005 dst {| f_src_port := 40000; f_dst_port := 80; f_seq := 7; f_ack := 0;
          f_flags := TCP_SYN; f_window := 1000; f_options := [2; 4; 5; 180] |} [] with
  | Some seg => match ipv4_build 0x0A000005 dst IPPROTO_TCP 64 seg 9 with
                | Some p => eth_build [0x52; 0x56; 0; 0; 0; 1] [0x52; 0x54; 0; 0; 0; 5] ETHERTYPE_IPV4 p
                | None => [] end
  | None => []
  end.
Definition sample_cfg : NatConfig := NatConfig_new 0x0A000001 [0x52; 0x56; 0; 0; 0; 1].
Definition sample_host (t : Z) : gset Ipv4Addr := {[0xC0A80114]}.
Definition guarded_engine : NatEngine := set_guard (NatEngine_new sample_cfg) (Guard.HostGuard_new [44445]).

Definition acts_of (r : outcome (NatEngine * list NatAction)) : list NatAction :=
  match r with Ret (_, acts) => acts | Panic => [] end.

Lemma nat_worktree_isolation_witness :
  length (acts_of (handle_frame guarded_engine 5 (sample_host 5) true (guest_syn 0x5DB8D822))) = 1%nat ∧
  acts_of (handle_frame guarded_engine 5 (sample_host 5) true (guest_syn 0xC0A80114)) = [] ∧
  ∃ e' acts, handle_frame guarded_engine 5 (sample_host 5) true (guest_syn 0x5DB8D822) = Ret (e', acts).
Proof.
  split; [by vm_compute|]. split; [by vm_compute|].
  destruct (nat_worktree_isolation sample_cfg sample_host [44445] guarded_engine (rtc_refl _ _) 5 true
    (guest_syn 0x5DB8D822)) as (e' & acts & Heq & _).
  exists e', acts. exact Heq.
Defined.

Lemma nat_ephemeral_ports_witness :
  ports_ok (NatEngine_new sample_cfg) ∧
  ports_ok (alloc_active_tcp_flow (NatEngine_new sample_cfg) 0x0A000005 22 0%nat).1.
Proof.
  split; [split; concrete|].
  pose proof (nat_ephemeral_ports (NatEngine_new sample_cfg) 0x0A000005 22 0%nat ltac:(split; concrete)) as Hw.
  destruct (alloc_active_tcp_flow _ _ _ _) as [e' r]. exact (proj1 Hw).
Defined.

Definition syn_packet : bytes := drop 14 (guest_syn 0x5DB8D822).

Definition guest_hw : MacAddr := [0x52; 0x54; 0; 0; 0; 5].

Lemma nat_tcp_dispatch_witness :
  ∃ e', handle_tcp (NatEngine_new sample_cfg) 5 ∅ {| ip_buf := syn_packet |} guest_hw =
    (e', [SpawnPassive (mkKey 0x0A000005 40000 0x5DB8D822 80) guest_hw
            (mkSeg 7 0 TCP_SYN 1000 [] (Some 1460)) 0%nat]) ∧ chans e' = 1%nat.
Proof.
  pose proof (nat_tcp_dispatch (NatEngine_new sample_cfg) 5 ∅ syn_packet {| ip_buf := syn_packet |}
    {| tcp_buf := ip_payload {| ip_buf := syn_packet |} |} guest_hw
    ltac:(concrete) ltac:(by vm_compute) ltac:(by vm_compute) ltac:(concrete)) as Hw.
  destruct (handle_tcp _ _ _ _ _) as [e' acts]. cbv zeta in Hw.
  match type of Hw with context [tcp_flows ?e !! ?k] => assert (tcp_flows e !! k = None) as Hn by (vm_compute; reflexivity) end.
  rewrite Hn in Hw.
  match type of Hw with context [if ?c then _ else _] => assert (c = true) as Hc by (vm_compute; reflexivity) end.
  rewrite Hc in Hw. destruct Hw as (_ & Hch & _ & Hacts). exists e'. split; [|exact Hch].
  rewrite Hacts. vm_compute. reflexivity.
Defined.

(** An echo request to 8.8.8.8, whose probe is in flight. *)
Definition ping_packet : bytes :=
  default [] (ipv4_build 0x0A000005 0x08080808 IPPROTO_ICMP 64 (icmp_build 8 0 [0; 1; 0; 1] [1; 2; 3]) 3).
Definition probing_engine : NatEngine := (handle_echo (NatEngine_new sample_cfg) 5 guest_hw ping_packet).1.

Lemma nat_one_probe_witness :
  NoDup [0x08080808] ∧ (handle_echo probing_engine 6 guest_hw ping_packet).2 = None.
Proof.
  assert (rtc echo_step (NatEngine_new sample_cfg, []) (probing_engine, [0x08080808])) as Hrun.
  { apply rtc_once. apply (es_echo _ [] 5 guest_hw ping_packet _ (Some 0x08080808)). by vm_compute. }
  destruct (nat_one_probe sample_cfg probing_engine [0x08080808] Hrun) as [Hnd Hecho]. split; [exact Hnd|].
  specialize (Hecho 6 guest_hw ping_packet {| ip_buf := ping_packet |} ltac:(by vm_compute)).
  destruct (handle_echo _ _ _ _) as [e' r].
  assert (cached (icmp probing_engine) 6 (ip_dst {| ip_buf := ping_packet |}) = None) as Hc by (by vm_compute).
  rewrite Hc in Hecho. destruct Hecho as [Hr _]. rewrite Hr. by vm_compute.
Defined.

(** A guest's datagram from [sport] to 8.8.8.8:53, and the engine after one. *)
Definition guest_query (sport : Z) (b : bytes) : bytes :=
  default [] (udp_frame [0x52; 0x56; 0; 0; 0; 1] guest_hw 0x0A000005 0x08080808 sport 53 64 9 b).
Definition sent (e : NatEngine) (f : bytes) : NatEngine :=
  match handle_frame e 5 (sample_host 5) true f with Ret (e', _) => e' | Panic => e end.

(** Two guests' datagrams that differ in the guest's port alone; then one of the first flow. *)
Lemma nat_flows_isolated_witness :
  let e0 := NatEngine_new sample_cfg in
  let e1 := sent e0 (guest_query 40000 [1]) in
  let e2 := sent e1 (guest_query 40001 [2]) in
  acts_of (handle_frame e1 5 (sample_host 5) true (guest_query 40001 [2])) =
    [SpawnReader (mkKey 0x0A000005 40001 0x08080808 53) guest_hw 1%nat;
     SockSend 1%nat (mkKey 0x0A000005 40001 0x08080808 53) [2]] ∧
  acts_of (handle_frame e2 5 (sample_host 5) true (guest_query 40000 [3])) =
    [SockSend 0%nat (mkKey 0x0A000005 40000 0x08080808 53) [3]] ∧
  frame_flow 0x0A000001 (guest_query 40000 [3]) = frame_flow 0x0A000001 (guest_query 40000 [1]).
Proof.
  split; [by vm_compute|]. split; [by vm_compute|].
  set (e0 := NatEngine_new sample_cfg). set (e1 := sent e0 (guest_query 40000 [1])). set (e2 := sent e1 (guest_query 40001 [2])).
  set (k := mkKey 0x0A000005 40000 0x08080808 53).
  assert (handle_frame e0 5 (sample_host 5) true (guest_query 40000 [1]) =
    Ret (e1, [SpawnReader k guest_hw 0%nat; SockSend 0%nat k [1]])) as H1 by (vm_compute; reflexivity).
  assert (handle_frame e1 5 (sample_host 5) true (guest_query 40001 [2]) =
    Ret (e2, acts_of (handle_frame e1 5 (sample_host 5) true (guest_query 40001 [2])))) as H2 by (vm_compute; reflexivity).
  assert (handle_frame e2 5 (sample_host 5) true (guest_query 40000 [3]) =
    Ret (sent e2 (guest_query 40000 [3]), [SockSend 0%nat k [3]])) as H3 by (vm_compute; reflexivity).
  exact (proj1 (proj2 (nat_flows_isolated sample_cfg None sample_host e0 5 (sample_host 5) true (guest_query 40000 [1])
    e1 _ (SockSend 0%nat k [1]) 0%nat e2 5 (sample_host 5) true (guest_query 40000 [3]) _ _ (SockSend 0%nat k [3])
    (rtc_refl _ _) H1 ltac:(right; left) eq_refl (rtc_once _ _ (ns_frame _ _ 5 true (guest_query 40001 [2]) _ _ H2))
    H3 ltac:(left))) eq_refl).
Defined.
