(* ===== verification/Ledger.v ===== *)
(** * The sync ledger ([src/labd/workspace/ledger.rs])

    What the two copies of a workspace last agreed on: per path a content
    digest and each side's own change detector. Paths are strings relative to
    the workspace root; reading and writing the JSON file is a parameter. *)

From S2P Require Import Prelude.

Definition VERSION : Z := 1.

(** The wire's kinds of entry, and the ledger's. *)
Inductive EntryKind := EntryFile | EntryDir | EntrySymlink | EntryOther.
Inductive Kind := File | Dir | Symlink.
#[global] Instance Kind_eq_dec : EqDecision Kind.
Proof. solve_decision. Defined.
Definition Kind_of (k : EntryKind) : option Kind :=
  match k with
  | EntryFile => Some File
  | EntryDir => Some Dir
  | EntrySymlink => Some Symlink
  | EntryOther => None
  end.

(** One side's own change detector. *)
Record Side := mkSide { s_size : Z; s_mtime_ns : Z }.
#[global] Instance Side_eq_dec : EqDecision Side.
Proof. solve_decision. Defined.
Definition unchanged (s : Side) (size mtime_ns : Z) : bool := (s_size s =? size) && (s_mtime_ns s =? mtime_ns).

Record Agreed := mkAgreed { a_kind : Kind; a_digest : bytes; a_host : Side; a_guest : Side }.
#[global] Instance Agreed_eq_dec : EqDecision Agreed.
Proof. solve_decision. Defined.

Record Ledger := mkLedger {
  version : Z;
  host_root : bytes;
  guest_root : bytes;
  ignore_digest : bytes;
  prune : list bytes;
  reseed_owed : bool;
  halted : list bytes;
  entries : gmap bytes Agreed }.

Definition Ledger_new (host_root guest_root : bytes) : Ledger :=
  mkLedger VERSION host_root guest_root [] [] false [] ∅.
Definition about_nothing : Ledger := Ledger_new [] [].

Definition set_entries (l : Ledger) (e : gmap bytes Agreed) : Ledger :=
  mkLedger (version l) (host_root l) (guest_root l) (ignore_digest l) (prune l) (reseed_owed l) (halted l) e.
Definition set_reseed_owed (l : Ledger) : Ledger :=
  mkLedger (version l) (host_root l) (guest_root l) (ignore_digest l) (prune l) true (halted l) (entries l).

(** ** The file *)

(** [serde_json]'s reading and writing of a ledger. *)
Class LedgerJson := {
  from_slice : bytes → option Ledger;
  to_vec : Ledger → bytes }.
(** Documented: what was written reads back. *)
Class LedgerJsonLaws `{LedgerJson} := { from_slice_to_vec l : from_slice (to_vec l) = Some l }.

Section file.
Context `{LedgerJson}.

(** [load], where [file] is what reading the file gives. *)
Definition load (file : option bytes) (hr gr : bytes) : Ledger :=
  let fresh := Ledger_new hr gr in
  match file with
  | None => fresh
  | Some b =>
      match from_slice b with
      | Some l =>
          if (version l =? VERSION) && bool_decide (host_root l = hr) && bool_decide (guest_root l = gr)
          then l else fresh
      | None => fresh
      end
  end.
(** The file after [save]: the temp is renamed over it. *)
Definition save (l : Ledger) : option bytes := Some (to_vec l).
Definition mark_rewound (file : option bytes) (hr gr : bytes) : option bytes :=
  save (set_reseed_owed (load file hr gr)).
End file.
