(* ===== verification/Plan.v ===== *)
(** * Reconciliation ([src/labd/workspace/plan.rs])

    Host state, guest state and the ledger go in; what to do about each path
    comes out. [reconcile] is the loop of the source: [reconcile_path] is what
    its body pushes for one path, in the order of the paths. Counts are
    compared with the source's [f64] factors as integer ratios, which is exact
    below 2^50 entries. [str::to_lowercase] is a parameter. *)

From S2P Require Import Prelude.
From S2P Require Import Ledger.

Record State := mkState {
  st_kind : Kind;
  st_size : Z;
  st_mtime_ns : Z;
  st_digest : option bytes;
  st_target : option bytes;
  st_oversize : bool }.
Definition st_side (s : State) : Side := mkSide (st_size s) (st_mtime_ns s).

Inductive Direction := ToGuest | ToHost.
#[global] Instance Direction_eq_dec : EqDecision Direction.
Proof. solve_decision. Defined.
Definition source_is_host (d : Direction) : bool := match d with ToGuest => true | ToHost => false end.

Inductive Action :=
| MakeDir (d : Direction) (path : bytes) (side : Side)
| PutFile (d : Direction) (path : bytes) (side : Side) (digest : bytes)
| PutSymlink (d : Direction) (path target : bytes) (side : Side) (digest : bytes) (dir_link : bool)
| Remove (d : Direction) (path : bytes) (kind : Kind).
#[global] Instance Action_eq_dec : EqDecision Action.
Proof. solve_decision. Defined.
Definition path_of (a : Action) : bytes :=
  match a with MakeDir _ p _ | PutFile _ p _ _ | PutSymlink _ p _ _ _ _ | Remove _ p _ => p end.
Definition direction (a : Action) : Direction :=
  match a with MakeDir d _ _ | PutFile d _ _ _ | PutSymlink d _ _ _ _ _ | Remove d _ _ => d end.
Definition action_bytes (a : Action) : Z :=
  match a with
  | PutFile _ _ side _ | PutSymlink _ _ _ side _ _ => s_size side
  | MakeDir _ _ _ | Remove _ _ _ => 0
  end.

Inductive ConflictKind := BothCreated | BothModified | ModifiedAndDeleted | KindReplaced.
Record Conflict := mkConflict { c_path : bytes; c_kind : ConflictKind }.
Inductive Winner := Host | Guest.
#[global] Instance Winner_eq_dec : EqDecision Winner.
Proof. solve_decision. Defined.

Record BulkDelete := mkBulk { b_paths : list bytes; b_agreed : Z }.
Definition BULK_DELETE_FLOOR : Z := 20.
(** [removals as f64 > agreed as f64 * 0.5]. *)
Definition triggered (removals agreed : Z) : bool := (BULK_DELETE_FLOOR <? removals) && (agreed <? 2 * removals).

Record Volume := mkVolume { v_prefix : bytes; v_paths : Z; v_bytes : Z }.
Definition VOLUME_PATHS : Z := 1000.
Definition VOLUME_BYTES : Z := Z.shiftl 256 20.

Record Oversize := mkOversize { o_path : bytes; o_direction : Direction; o_size : Z; o_cap : Z }.
Record Collision := mkCollision { folded : bytes; l_paths : list bytes }.

Record Plan := mkPlan {
  actions : list Action;
  expected : gmap bytes (option State);
  adopt : list (bytes * Agreed);
  forget : list bytes;
  conflicts : list Conflict;
  bulk_delete : option BulkDelete;
  oversize : list Oversize;
  collisions_of : list Collision;
  volume_of : option Volume }.

Record Inputs := mkInputs {
  host : gmap bytes State;
  guest : gmap bytes State;
  ledger : Ledger;
  undecided : gset bytes;
  guest_owned : gset bytes;
  resolved : gmap bytes Winner;
  max_file_bytes : Z;
  case_folding : bool }.

(** ** One side against the ledger *)

Inductive Moved := Absent | Created | Unchanged | Modified | Deleted | ReplacedByOtherKind.
Definition changed (m : Moved) : bool := match m with Unchanged | Absent => false | _ => true end.

Definition digest_of (now : State) (was : Agreed) : bytes := default (a_digest was) (st_digest now).
Definition standalone_digest (now : State) : bytes := default [] (st_digest now).

Definition moved (now : option State) (was : option Agreed) : Moved :=
  match now, was with
  | None, None => Absent
  | Some _, None => Created
  | None, Some _ => Deleted
  | Some now, Some was =>
      if negb (bool_decide (st_kind now = a_kind was)) then ReplacedByOtherKind
      else if st_oversize now then Modified
      else if bool_decide (digest_of now was = a_digest was) then Unchanged
      else Modified
  end.

Inductive Settled := Adopt (a : Agreed) | Conflicted (k : ConflictKind).

Definition settle_both (h g : option State) (was : option Agreed) : Settled :=
  match h, g with
  | Some h, Some g =>
      if negb (bool_decide (st_kind h = st_kind g)) then Conflicted KindReplaced
      else
        let '(hd, gd) := match was with
                         | Some was => (digest_of h was, digest_of g was)
                         | None => (standalone_digest h, standalone_digest g)
                         end in
        if bool_decide (hd = gd) then Adopt (mkAgreed (st_kind h) hd (st_side h) (st_side g))
        else Conflicted (match was with Some _ => BothModified | None => BothCreated end)
  | _, _ => Conflicted ModifiedAndDeleted
  end.

Arguments settle_both : simpl never.

Definition needs_digest (agreed : option Agreed) (kind : Kind) (side : Side) (host_side : bool) : bool :=
  if bool_decide (kind = Dir) then false
  else
    match agreed with
    | None => true
    | Some a =>
        let recorded := if host_side then a_host a else a_guest a in
        negb (bool_decide (a_kind a = kind)) || negb (unchanged recorded (s_size side) (s_mtime_ns side))
    end.

(** ** Placing what one side holds on the other *)

(** [str::split] on the bytes [seps] hold. *)
Fixpoint split_on (is_sep : Z → bool) (s : bytes) : list bytes :=
  match s with
  | [] => [[]]
  | c :: r =>
      if is_sep c then [] :: split_on is_sep r
      else match split_on is_sep r with
           | w :: ws => (c :: w) :: ws
           | [] => [[c]]
           end
  end.
(** [parts.join("/")]. *)
Fixpoint join_slash (parts : list bytes) : bytes :=
  match parts with
  | [] => []
  | [p] => p
  | p :: r => p ++ [47] ++ join_slash r
  end.
(** [link[..cut]] for the last [/], or nothing. *)
Definition parent_parts (link : bytes) : list bytes :=
  match rev (split_on (λ c, c =? 47) link) with
  | _ :: rest => rev rest
  | [] => []
  end.
Definition is_ascii_alphabetic (c : Z) : bool := ((65 <=? c) && (c <=? 90)) || ((97 <=? c) && (c <=? 122)).

(** The target's segments applied to the link's directory; [None] outside the workspace. *)
Fixpoint walk_target (parts : list bytes) (segments : list bytes) : option (list bytes) :=
  match segments with
  | [] => Some parts
  | s :: r =>
      if bool_decide (s = []) || bool_decide (s = [46]) then walk_target parts r
      else if bool_decide (s = [46; 46]) then
        match rev parts with
        | [] => None
        | _ :: up => walk_target (rev up) r
        end
      else walk_target (parts ++ [s]) r
  end.

Definition dir_link_of (link target : bytes) (h : gmap bytes State) : bool :=
  let drive_qualified :=
    match target with c :: d :: _ => (d =? 58) && is_ascii_alphabetic c | _ => false end in
  let rooted := match target with c :: _ => (c =? 47) || (c =? 92) | [] => false end in
  if rooted || drive_qualified then false
  else
    match walk_target (parent_parts link) (split_on (λ c, (c =? 47) || (c =? 92)) target) with
    | None => false
    | Some parts =>
        match h !! join_slash parts with
        | Some s => bool_decide (st_kind s = Dir)
        | None => false
        end
    end.

Definition digest_or_agreed (s : State) (was : option Agreed) : bytes :=
  match was with Some was => digest_of s was | None => standalone_digest s end.

Definition place (d : Direction) (path : bytes) (s : State) (i : Inputs) (was : option Agreed) : Action + Oversize :=
  let cap := max_file_bytes i in
  let side := st_side s in
  match st_kind s with
  | Dir => inl (MakeDir d path side)
  | File =>
      if cap <? st_size s then inr (mkOversize path d (st_size s) cap)
      else inl (PutFile d path side (digest_or_agreed s was))
  | Symlink =>
      let target := default [] (st_target s) in
      inl (PutSymlink d path target side (digest_or_agreed s was)
             (source_is_host d && dir_link_of path target (host i)))
  end.

(** ** The reconciliation *)

Section reconcile.
Context (to_lowercase : bytes → bytes).

(** Every set of host paths that fold together, in the order of the folded names. *)
Definition collisions (i : Inputs) : list Collision :=
  if negb (case_folding i) then []
  else
    let names := in_order (dom (host i)) in
    let keys := in_order (list_to_set (to_lowercase <$> names)) in
    filter (λ c, 1 < len (l_paths c))
      ((λ k, mkCollision k (filter (λ p, to_lowercase p = k) names)) <$> keys).

(** What the body of the loop pushes for one path. *)
Record Pushed := mkPushed {
  p_forget : list bytes;
  p_adopt : list (bytes * Agreed);
  p_conflicts : list Conflict;
  p_removals : list Action;
  p_creations : list Action;
  p_oversize : list Oversize }.
Definition nothing : Pushed := mkPushed [] [] [] [] [] [].

(** The side that moves, the side that stands, for one path. *)
Definition carry (i : Inputs) (path : bytes) (d : Direction) (moving standing : option State) (was : option Agreed)
    : Pushed :=
  match moving with
  | None =>
      match was with
      | Some was => mkPushed [] [] [] [Remove d path (a_kind was)] [] []
      | None => nothing
      end
  | Some s =>
      let cleared :=
        match standing with
        | Some other => if negb (bool_decide (st_kind other = st_kind s)) then [Remove d path (st_kind other)] else []
        | None => []
        end in
      match place d path s i was with
      | inl a => mkPushed [] [] [] cleared [a] []
      | inr refusal => mkPushed [] [] [] cleared [] [refusal]
      end
  end.

#[global] Arguments carry : simpl never.

Definition reconcile_path (i : Inputs) (colliding : gset bytes) (path : bytes) : Pushed :=
  if bool_decide (path ∈ undecided i) || bool_decide (path ∈ colliding) then nothing
  else if bool_decide (path ∈ guest_owned i) then mkPushed [path] [] [] [] [] []
  else
    let h := host i !! path in
    let g := guest i !! path in
    let was := entries (ledger i) !! path in
    let hm := moved h was in
    let gm := moved g was in
    match h, g with
    | None, None => match was with Some _ => mkPushed [path] [] [] [] [] [] | None => nothing end
    | _, _ =>
        let resolution := if changed hm || changed gm then resolved i !! path else None in
        if changed hm && changed gm && bool_decide (resolution = None) then
          match settle_both h g was with
          | Adopt a => mkPushed [] [(path, a)] [] [] [] []
          | Conflicted k => mkPushed [] [] [mkConflict path k] [] [] []
          end
        else
          match resolution with
          | Some Host => carry i path ToGuest h g was
          | Some Guest => carry i path ToHost g h was
          | None =>
              if changed hm then carry i path ToGuest h g was
              else if changed gm then carry i path ToHost g h was
              else nothing
          end
    end.

Definition onto_host_removal (a : Action) : bool := match a with Remove ToHost _ _ => true | _ => false end.
(** A removal the mass guard keeps back: guest to host, not answered for by the developer. *)
Definition withheld (i : Inputs) (a : Action) : bool :=
  onto_host_removal a && negb (bool_decide (resolved i !! path_of a = Some Guest)).

Definition withhold_bulk_delete (removals : list Action) (i : Inputs) : list Action * option BulkDelete :=
  let agreed := Z.of_nat (size (entries (ledger i))) in
  let mass := len (filter (λ a, onto_host_removal a = true) removals) in
  if negb (triggered mass agreed) then (removals, None)
  else
    let paths := merge_sort bytes_le (path_of <$> filter (λ a, withheld i a = true) removals) in
    (filter (λ a, withheld i a = false) removals,
     match paths with [] => None | _ => Some (mkBulk paths agreed) end).

(** ** The volume warning *)

Definition at_or_below (path prefix : bytes) : bool :=
  bool_decide (path = prefix) ||
  ((len prefix <? len path) && bool_decide (take (length prefix) path = prefix) && (idx path (len prefix) =? 47)).

(** The first component of [path] below [prefix], unless it is empty. *)
Definition head_below (prefix path : bytes) : option bytes :=
  let rest := drop (Nat.min (length prefix) (length path)) path in
  let rest := match rest with c :: r => if c =? 47 then r else rest | [] => rest end in
  match split_on (λ c, c =? 47) rest with
  | w :: _ => match w with [] => None | _ => Some w end
  | [] => None
  end.
(** The child with the most paths, the last of them in order where several have it. *)
Definition dominant_child (prefix : bytes) (here : list bytes) : option (bytes * Z) :=
  let heads := omap (head_below prefix) here in
  let counts := (λ h, (h, len (filter (λ x, x = h) heads))) <$> in_order (list_to_set heads) in
  foldl (λ best c, match best with
                   | Some b => if c.2 <? b.2 then Some b else Some c
                   | None => Some c
                   end) None counts.
(** The descent; each turn that goes on makes the prefix longer. *)
Fixpoint volume_prefix (fuel : nat) (prefix : bytes) (here : list bytes) : bytes :=
  match fuel with
  | O => prefix
  | S fuel =>
      match dominant_child prefix here with
      | None => prefix
      | Some (head, count) =>
          if 9 * len here <=? 10 * count then
            let deeper := match prefix with [] => head | _ => prefix ++ [47] ++ head end in
            let here := filter (λ p, at_or_below p deeper = true) here in
            if forallb (λ p, bool_decide (p = deeper)) here then prefix
            else volume_prefix fuel deeper here
          else prefix
      end
  end.
Definition volume (acts : list Action) : option Volume :=
  let total := foldr Z.add 0 (action_bytes <$> acts) in
  if (len acts <? VOLUME_PATHS) && (total <? VOLUME_BYTES) then None
  else
    let paths := path_of <$> acts in
    Some (mkVolume (volume_prefix (S (foldr Nat.max 0%nat (length <$> paths))) [] paths) (len acts) total).

(** ** The plan *)

(** The destination of each action as it was seen. *)
Definition expected_state (i : Inputs) (a : Action) : option State :=
  let tree := if source_is_host (direction a) then guest i else host i in
  match tree !! path_of a with
  | Some s =>
      match st_digest s, st_oversize s, entries (ledger i) !! path_of a with
      | None, false, Some agreed =>
          Some (mkState (st_kind s) (st_size s) (st_mtime_ns s) (Some (a_digest agreed)) (st_target s) (st_oversize s))
      | _, _, _ => Some s
      end
  | None => None
  end.
Definition capture_expected (acts : list Action) (i : Inputs) (m : gmap bytes (option State))
    : gmap bytes (option State) :=
  foldl (λ m a, <[path_of a := expected_state i a]> m) m acts.

Definition colliding_paths (cs : list Collision) : gset bytes := list_to_set (concat (l_paths <$> cs)).

Definition known_paths (i : Inputs) : list bytes :=
  in_order (dom (host i) ∪ dom (guest i) ∪ dom (entries (ledger i))).

Definition reconcile (i : Inputs) : Plan :=
  let cs := collisions i in
  let pushed := reconcile_path i (colliding_paths cs) <$> known_paths i in
  let removals := merge_sort (λ a b, bytes_le (path_of b) (path_of a)) (pushed ≫= p_removals) in
  let creations := merge_sort (λ a b, bytes_le (path_of a) (path_of b)) (pushed ≫= p_creations) in
  let '(removals, bulk) := withhold_bulk_delete removals i in
  let acts := removals ++ creations in
  mkPlan acts (capture_expected acts i ∅) (pushed ≫= p_adopt) (pushed ≫= p_forget) (pushed ≫= p_conflicts)
    bulk (pushed ≫= p_oversize) cs (volume acts).

End reconcile.

(** ** What a plan means for the workspace *)

Definition is_empty {A} (l : list A) : bool := match l with [] => true | _ => false end.

Definition nothing_to_record (p : Plan) : bool :=
  is_empty (actions p) && is_empty (adopt p) && is_empty (forget p) && is_empty (conflicts p) &&
  bool_decide (bulk_delete p = None) && is_empty (oversize p) && is_empty (collisions_of p).

Definition halts (p : Plan) : bool := negb (is_empty (conflicts p)) || negb (bool_decide (bulk_delete p = None)).

Definition while_halted (p : Plan) (resolved : gmap bytes Winner) : Plan :=
  mkPlan (filter (λ a, is_Some (resolved !! path_of a)) (actions p)) (expected p) (adopt p) (forget p) (conflicts p)
    (bulk_delete p) (oversize p) (collisions_of p) (volume_of p).

(** ** What the loop body pushes *)

Section facts.
Context (to_lowercase : bytes → bytes).
Implicit Types (i : Inputs) (path : bytes) (a : Action).

Definition pushed i path : Pushed := reconcile_path i (colliding_paths (collisions to_lowercase i)) path.

(** The side an action moves and the side it lands on. *)
Definition moving_of i (d : Direction) path : option State := if source_is_host d then host i !! path else guest i !! path.
Definition standing_of i (d : Direction) path : option State := if source_is_host d then guest i !! path else host i !! path.
Definition was_of i path : option Agreed := entries (ledger i) !! path.
Definition winner_of (d : Direction) : Winner := match d with ToGuest => Host | ToHost => Guest end.

(** Paths the pass decides about. *)
Definition decided i path : Prop :=
  path ∉ undecided i ∧ path ∉ colliding_paths (collisions to_lowercase i) ∧ path ∉ guest_owned i.
#[global] Instance decided_dec i path : Decision (decided i path).
Proof. unfold decided. apply _. Defined.

(** Why an action may go in direction [d] at [path]: the other side did not
    change, or the developer said so; and something moved. *)
Definition licensed i (d : Direction) path : Prop :=
  changed (moved (moving_of i d path) (was_of i path)) = true ∧
    changed (moved (standing_of i d path) (was_of i path)) = false ∨
  resolved i !! path = Some (winner_of d) ∧
    (changed (moved (host i !! path) (was_of i path)) = true ∨ changed (moved (guest i !! path) (was_of i path)) = true).

(** Something is there, both sides moved, and nobody decided. *)
Definition diverged i path : Prop :=
  decided i path ∧ (is_Some (host i !! path) ∨ is_Some (guest i !! path)) ∧
  changed (moved (host i !! path) (was_of i path)) = true ∧
  changed (moved (guest i !! path) (was_of i path)) = true ∧ resolved i !! path = None.

Lemma pushed_undecided i path : ¬ decided i path → pushed i path = nothing ∨ pushed i path = mkPushed [path] [] [] [] [] [].
Proof.
  intros Hn. unfold pushed, reconcile_path. destruct (_ || _) eqn:Hskip; [by left|].
  apply orb_false_iff in Hskip as [Hu%bool_decide_eq_false Hc%bool_decide_eq_false].
  case_bool_decide as Ho; [by right|]. by destruct Hn.
Qed.

(** The four things the body of the loop can do at a path it decides. *)
Lemma pushed_cases i path :
  decided i path →
  host i !! path = None ∧ guest i !! path = None ∧
    pushed i path = match was_of i path with Some _ => mkPushed [path] [] [] [] [] [] | None => nothing end ∨
  diverged i path ∧
    pushed i path = match settle_both (host i !! path) (guest i !! path) (was_of i path) with
                    | Adopt a => mkPushed [] [(path, a)] [] [] [] []
                    | Conflicted k => mkPushed [] [] [mkConflict path k] [] [] []
                    end ∨
  (∃ d, licensed i d path ∧
    pushed i path = carry i path d (moving_of i d path) (standing_of i d path) (was_of i path)) ∨
  changed (moved (host i !! path) (was_of i path)) = false ∧
  changed (moved (guest i !! path) (was_of i path)) = false ∧ pushed i path = nothing.
Proof.
  intros Hdec. pose proof Hdec as (Hu & Hc & Ho). unfold pushed, reconcile_path, diverged, licensed.
  rewrite !(bool_decide_false _) by done. simpl orb. cbv iota. fold (was_of i path).
  destruct (host i !! path) as [h|] eqn:Hh, (guest i !! path) as [g|] eqn:Hg; [| | |by left]; right; rewrite <-Hh, <-Hg.
  all: set (hm := changed (moved (host i !! path) (was_of i path)));
    set (gm := changed (moved (guest i !! path) (was_of i path))).
  all: destruct (resolved i !! path) as [[|]|] eqn:Hr, hm eqn:Ehm, gm eqn:Egm; simpl.
  all: try (right; right; by split_and!).
  all: try (left; split; [split_and!; [done..| |done|done|done]; rewrite ?Hh, ?Hg; by auto|done]).
  all: right; left; first
    [exists ToGuest; split; [unfold moving_of, standing_of; simpl; subst hm gm; by eauto|done]
    |exists ToHost; split; [unfold moving_of, standing_of; simpl; subst hm gm; by eauto|done]].
Qed.

(** The body of the loop either carries one side over, or only touches the ledger. *)
Lemma reconcile_path_cases i path :
  (∃ d, decided i path ∧ licensed i d path ∧
        pushed i path = carry i path d (moving_of i d path) (standing_of i d path) (was_of i path)) ∨
  (p_removals (pushed i path) = [] ∧ p_creations (pushed i path) = [] ∧ p_oversize (pushed i path) = []).
Proof.
  destruct (decide (decided i path)) as [Hd|Hd].
  - destruct (pushed_cases i path Hd) as [(_&_& ->)|[(_& ->)|[(d & Hl & Heq)|(_&_& ->)]]].
    + right. by destruct (was_of i path).
    + right. by destruct (settle_both _ _ _).
    + left. by exists d.
    + by right.
  - right. by destruct (pushed_undecided i path Hd) as [-> | ->].
Qed.

Definition is_removal (a : Action) : bool := match a with Remove _ _ _ => true | _ => false end.

Lemma place_inl d path s i was a :
  place d path s i was = inl a → path_of a = path ∧ direction a = d ∧ is_removal a = false.
Proof. unfold place. destruct (st_kind s); [destruct (_ <? _)|..]; intros [= <-]; done. Qed.
Lemma place_inr d path s i was o :
  place d path s i was = inr o → o = mkOversize path d (st_size s) (max_file_bytes i) ∧ max_file_bytes i < st_size s.
Proof. unfold place. destruct (st_kind s); [destruct (_ <? _) eqn:Hc|..]; intros [= <-]. split; [done|by apply Z.ltb_lt]. Qed.

Lemma elem_of_carry i path d m st was a :
  a ∈ p_removals (carry i path d m st was) ++ p_creations (carry i path d m st was) →
  path_of a = path ∧ direction a = d.
Proof.
  unfold carry. destruct m as [s|].
  - intros Hin. destruct (place d path s i was) as [x|r] eqn:Hp; simpl in Hin.
    + apply elem_of_app in Hin as [Hin|Hin%list_elem_of_singleton]; [|subst; by apply place_inl in Hp as (? & ? & _)].
      destruct st as [o|]; [|by apply elem_of_nil in Hin]. destruct (negb _); [|by apply elem_of_nil in Hin].
      by apply list_elem_of_singleton in Hin as ->.
    + rewrite app_nil_r in Hin. destruct st as [o|]; [|by apply elem_of_nil in Hin].
      destruct (negb _); [|by apply elem_of_nil in Hin]. by apply list_elem_of_singleton in Hin as ->.
  - destruct was; simpl; [|by intros ?%elem_of_nil]. by intros ->%list_elem_of_singleton.
Qed.

(** ** The parts of a plan *)

Lemma elem_of_pushed {A} i (f : Pushed → list A) (x : A) :
  x ∈ (pushed i <$> known_paths i) ≫= f ↔ ∃ path, path ∈ known_paths i ∧ x ∈ f (pushed i path).
Proof.
  rewrite list_elem_of_bind. split.
  - intros (y & Hx & (path & -> & Hp)%list_elem_of_fmap). by exists path.
  - intros (path & Hp & Hx). exists (pushed i path). split; [done|]. by apply list_elem_of_fmap_2.
Qed.

(** All removals the loop pushed, in the order they are executed. *)
Definition all_removals i : list Action :=
  merge_sort (λ a b, bytes_le (path_of b) (path_of a)) ((pushed i <$> known_paths i) ≫= p_removals).
Definition all_creations i : list Action :=
  merge_sort (λ a b, bytes_le (path_of a) (path_of b)) ((pushed i <$> known_paths i) ≫= p_creations).

Lemma reconcile_eq i :
  let r := withhold_bulk_delete (all_removals i) i in
  let p := reconcile to_lowercase i in
  actions p = r.1 ++ all_creations i ∧ bulk_delete p = r.2 ∧
  adopt p = (pushed i <$> known_paths i) ≫= p_adopt ∧ forget p = (pushed i <$> known_paths i) ≫= p_forget ∧
  conflicts p = (pushed i <$> known_paths i) ≫= p_conflicts ∧ oversize p = (pushed i <$> known_paths i) ≫= p_oversize ∧
  collisions_of p = collisions to_lowercase i.
Proof.
  unfold reconcile. cbv zeta.
  match goal with |- context [let '(_, _) := ?r in _] => change r with (withhold_bulk_delete (all_removals i) i) end.
  destruct (withhold_bulk_delete (all_removals i) i). by repeat split.
Qed.

Lemma elem_of_kept i rs a : a ∈ (withhold_bulk_delete rs i).1 → a ∈ rs.
Proof. unfold withhold_bulk_delete. destruct (negb _); simpl; [done|]. by intros [_ ?]%list_elem_of_filter. Qed.

Lemma elem_of_all_removals i a : a ∈ all_removals i ↔ ∃ path, path ∈ known_paths i ∧ a ∈ p_removals (pushed i path).
Proof. unfold all_removals. by rewrite merge_sort_Permutation, elem_of_pushed. Qed.
Lemma elem_of_all_creations i a : a ∈ all_creations i ↔ ∃ path, path ∈ known_paths i ∧ a ∈ p_creations (pushed i path).
Proof. unfold all_creations. by rewrite merge_sort_Permutation, elem_of_pushed. Qed.

(** Every action comes from carrying one side over at its own path. *)
Lemma action_carried i a :
  a ∈ actions (reconcile to_lowercase i) →
  let d := direction a in let path := path_of a in
  decided i path ∧ licensed i d path ∧
  pushed i path = carry i path d (moving_of i d path) (standing_of i d path) (was_of i path) ∧
  a ∈ p_removals (pushed i path) ++ p_creations (pushed i path).
Proof.
  intros Ha. destruct (reconcile_eq i) as (Hacts & _). rewrite Hacts in Ha.
  assert (∃ path, a ∈ p_removals (pushed i path) ++ p_creations (pushed i path)) as (path & Hin).
  { apply elem_of_app in Ha as [(path & _ & ?)%elem_of_kept%elem_of_all_removals|(path & _ & ?)%elem_of_all_creations];
      exists path; apply elem_of_app; auto. }
  destruct (reconcile_path_cases i path) as [(d & Hdec & Hl & Heq)|(Hr & Hc & _)].
  - pose proof Hin as Hin'. rewrite Heq in Hin'. apply elem_of_carry in Hin' as [<- <-]. by split_and!.
  - rewrite Hr, Hc in Hin. by apply elem_of_nil in Hin.
Qed.

(** ** Unchanged means agreed *)

Lemma unchanged_agreed s w :
  changed (moved (Some s) w) = false →
  ∃ was, w = Some was ∧ st_kind s = a_kind was ∧ st_oversize s = false ∧ digest_of s was = a_digest was.
Proof.
  destruct w as [was|]; [|done]. simpl. case_bool_decide as Hk; [|done]. simpl.
  destruct (st_oversize s) eqn:Ho; [done|]. case_bool_decide as Hd; [|done]. intros _. by exists was.
Qed.

Lemma settle_both_None_l g was : settle_both None g was = Conflicted ModifiedAndDeleted.
Proof. done. Qed.
Lemma settle_both_None_r h was : settle_both h None was = Conflicted ModifiedAndDeleted.
Proof. by destruct h. Qed.

(** Where the ledger-only parts come from. *)
Lemma pushed_settled i path :
  p_conflicts (pushed i path) ≠ [] ∨ p_adopt (pushed i path) ≠ [] → diverged i path.
Proof.
  destruct (decide (decided i path)) as [Hd|Hd].
  - destruct (pushed_cases i path Hd) as [(_&_& ->)|[(?& _)|[(d & _ & ->)|(_&_& ->)]]]; [| done| |by intros []].
    + destruct (was_of i path); by intros [].
    + unfold carry. destruct (moving_of _ _ _); [destruct (place _ _ _ _ _)|destruct (was_of i path)]; by intros [].
  - destruct (pushed_undecided i path Hd) as [-> | ->]; by intros [].
Qed.
Lemma pushed_both i path :
  diverged i path →
  pushed i path = match settle_both (host i !! path) (guest i !! path) (was_of i path) with
                  | Adopt a => mkPushed [] [(path, a)] [] [] [] []
                  | Conflicted k => mkPushed [] [] [mkConflict path k] [] [] []
                  end.
Proof.
  intros (Hd & Hex & Hh & Hg & Hr).
  destruct (pushed_cases i path Hd) as [(H1 & H2 & _)|[(_& ->)|[(d & Hl & _)|(?&_& _)]]]; [|done| |congruence].
  - rewrite H1, H2 in Hex. by destruct Hex as [[]|[]].
  - exfalso. destruct Hl as [[_ Hs]|[? _]]; [|congruence].
    unfold standing_of in Hs. destruct (source_is_host d); congruence.
Qed.

(** ** What an action says *)

(** [a] states what the moving side [m] holds, or takes away what stands. *)
Definition carries i path (m st : option State) (was : option Agreed) a : Prop :=
  match a with
  | Remove _ _ k =>
      m = None ∧ a_kind <$> was = Some k ∨ ∃ s o, m = Some s ∧ st = Some o ∧ k = st_kind o ∧ st_kind o ≠ st_kind s
  | MakeDir _ _ side => ∃ s, m = Some s ∧ st_kind s = Dir ∧ side = st_side s
  | PutFile _ _ side dg =>
      ∃ s, m = Some s ∧ st_kind s = File ∧ side = st_side s ∧ dg = digest_or_agreed s was ∧ st_size s ≤ max_file_bytes i
  | PutSymlink _ _ tgt side dg _ =>
      ∃ s, m = Some s ∧ st_kind s = Symlink ∧ side = st_side s ∧ dg = digest_or_agreed s was ∧ tgt = default [] (st_target s)
  end.

Lemma place_carries d path s i was st a : place d path s i was = inl a → carries i path (Some s) st was a.
Proof.
  unfold place. destruct (st_kind s) eqn:Hk; [destruct (_ <? _) eqn:Hc; [done|]|..]; intros; simplify_eq/=; exists s.
  - bsplit. split_and!; try done.
  - by split_and!.
  - by split_and!.
Qed.

Lemma carry_carries i path d m st was a :
  a ∈ p_removals (carry i path d m st was) ++ p_creations (carry i path d m st was) → carries i path m st was a.
Proof.
  unfold carry. destruct m as [s|].
  - intros Hin.
    assert (a ∈ match st with
                | Some o => if negb (bool_decide (st_kind o = st_kind s)) then [Remove d path (st_kind o)] else []
                | None => [] end ∨ place d path s i was = inl a) as [Hr|Hp].
    { destruct (place d path s i was) as [x|r]; simpl in Hin.
      - apply elem_of_app in Hin as [?| ->%list_elem_of_singleton]; auto.
      - rewrite app_nil_r in Hin. auto. }
    + destruct st as [o|]; [|by apply elem_of_nil in Hr]. case_bool_decide as Hk; [by apply elem_of_nil in Hr|].
      apply list_elem_of_singleton in Hr as ->. right. exists s, o. by split_and!.
    + by eapply place_carries.
  - destruct was as [w|]; simpl; [|by intros ?%elem_of_nil]. intros ->%list_elem_of_singleton. by left.
Qed.

(** C6: reconciling never plans to overwrite or remove work nobody vouched
    for. Whatever action a plan holds, the copy it lands on is either exactly
    what the two sides last agreed on (its kind and digest are the ledger's),
    or absent, or the developer ruled for the other side at that path; and the
    action carries the moving side's own state, never one larger than the cap. *)
Theorem reconcile_protects_changes i a :
  a ∈ actions (reconcile to_lowercase i) →
  let path := path_of a in let d := direction a in
  (∀ s, standing_of i d path = Some s →
     resolved i !! path = Some (winner_of d) ∨
     ∃ was, was_of i path = Some was ∧ st_kind s = a_kind was ∧ digest_of s was = a_digest was ∧ st_oversize s = false) ∧
  carries i path (moving_of i d path) (standing_of i d path) (was_of i path) a ∧
  path ∉ undecided i ∧ path ∉ guest_owned i ∧ path ∉ colliding_paths (collisions_of (reconcile to_lowercase i)).
Proof.
  intros Ha. apply action_carried in Ha as (Hdec & Hl & Heq & Hin). cbv zeta in *.
  destruct (reconcile_eq i) as (_ & _ & _ & _ & _ & _ & ->). destruct Hdec as (Hu & Hc & Ho). split_and!; try done.
  - intros s Hs. destruct Hl as [[_ Hst]|[Hr _]]; [|by left]. right.
    rewrite Hs in Hst. apply unchanged_agreed in Hst as (w & ? & ? & ? & ?). exists w. by split_and!.
  - rewrite Heq in Hin. by apply carry_carries in Hin.
Qed.

(** ** Both sides moved *)

Lemma known_paths_spec i path :
  path ∈ known_paths i ↔ is_Some (host i !! path) ∨ is_Some (guest i !! path) ∨ is_Some (was_of i path).
Proof. unfold known_paths, was_of. rewrite elem_of_in_order, !elem_of_union, !elem_of_dom. clear to_lowercase. tauto. Qed.

Lemma settled_exactly i path :
  let p := reconcile to_lowercase i in
  let settled := settle_both (host i !! path) (guest i !! path) (was_of i path) in
  (∀ k, mkConflict path k ∈ conflicts p ↔ diverged i path ∧ settled = Conflicted k) ∧
  (∀ ag, (path, ag) ∈ adopt p ↔ diverged i path ∧ settled = Adopt ag).
Proof.
  cbv zeta. destruct (reconcile_eq i) as (_ & _ & Ha & _ & Hc & _). cbv zeta in Ha, Hc. rewrite Ha, Hc. clear Ha Hc.
  assert (diverged i path → path ∈ known_paths i) as Hknown.
  { intros (_ & Hex & _). apply known_paths_spec. tauto. }
  split; intros x; split.
  - intros (q & Hq & Hin)%elem_of_pushed.
    pose proof (pushed_settled i q (or_introl (elem_of_not_nil _ _ Hin))) as Hd. rewrite (pushed_both i q Hd) in Hin.
    destruct (settle_both (host i !! q) _ _) eqn:Hs; simpl in Hin; [by apply elem_of_nil in Hin|]. by apply list_elem_of_singleton in Hin as [= -> ->].
  - intros (Hd & Hs). apply elem_of_pushed. exists path. rewrite (pushed_both i path), Hs by done. split; [by apply Hknown|by left].
  - intros (q & Hq & Hin)%elem_of_pushed.
    pose proof (pushed_settled i q (or_intror (elem_of_not_nil _ _ Hin))) as Hd. rewrite (pushed_both i q Hd) in Hin.
    destruct (settle_both (host i !! q) _ _) eqn:Hs; simpl in Hin; [|by apply elem_of_nil in Hin]. by apply list_elem_of_singleton in Hin as [= -> ->].
  - intros (Hd & Hs). apply elem_of_pushed. exists path. rewrite (pushed_both i path), Hs by done. split; [by apply Hknown|by left].
Qed.

(** What the trees hold, rather than what a walk says of them: a kind and a
    content, or nothing. A walk hashed the copy, or the pre-filter vouched
    that it is what was agreed; a directory has no content. A file over the
    size cap is not hashed and has no place here. *)
Section contents.
Context (sha : bytes → bytes).

Definition walked (was : option Agreed) (now : option State) (x : option (Kind * bytes)) : Prop :=
  match now, x with
  | None, None => True
  | Some s, Some (k, c) =>
      st_kind s = k ∧ st_oversize s = false ∧
      match k with
      | Dir => st_digest s = None ∧ c = []
      | _ => st_digest s = Some (sha c) ∨ st_digest s = None ∧ ∃ w, was = Some w ∧ a_kind w = k ∧ a_digest w = sha c
      end
  | _, _ => False
  end.
Definition as_agreed (x : option (Kind * bytes)) (was : option Agreed) : Prop :=
  match x, was with
  | None, None => True
  | Some (k, c), Some w => k = a_kind w ∧ (k ≠ Dir → sha c = a_digest w)
  | _, _ => False
  end.
Definition conflict_kind (x y : option (Kind * bytes)) (was : option Agreed) : ConflictKind :=
  match x, y with
  | Some (k, _), Some (k', _) =>
      if decide (k = k') then match was with Some _ => BothModified | None => BothCreated end else KindReplaced
  | _, _ => ModifiedAndDeleted
  end.

(** A digest stands for the content. *)
Lemma walked_digest was s k c : walked was (Some s) (Some (k, c)) → k ≠ Dir → digest_or_agreed s was = sha c.
Proof.
  intros (_ & _ & Hd) Hk. unfold digest_or_agreed, digest_of, standalone_digest.
  destruct k; [|done|]; destruct Hd as [-> | (-> & w & -> & _ & <-)]; by destruct was || done.
Qed.
Lemma walked_moved was now x : walked was now x → changed (moved now was) = true ↔ ¬ as_agreed x was.
Proof.
  unfold moved, as_agreed. destruct now as [s|], x as [[k c]|], was as [w|]; try done; simpl; try tauto; try (intros; split; [tauto|done]).
  intros Hw. pose proof Hw as (Hk & Hov & Hd). rewrite Hk, Hov. case_bool_decide as Hkw; simpl; [|split; [tauto|done]].
  destruct (decide (k = Dir)) as [->|Hn].
  - destruct Hd as [Hdg _]. unfold digest_of. rewrite Hdg. simpl. rewrite bool_decide_true by done. simpl. split; [done|]. intros Hx. exfalso. by apply Hx.
  - pose proof (walked_digest (Some w) s k c Hw Hn) as E. simpl in E. rewrite E. case_bool_decide as Heq; simpl; [split; [done|]; intros Hx; exfalso; by apply Hx|].
    split; [|done]. intros _ [_ Hx]. by apply Heq, Hx.
Qed.
Lemma walked_settled was h g x y :
  walked was h x → walked was g y → (∀ k c k' c', x = Some (k, c) → y = Some (k', c') → sha c = sha c' → c = c') → x ≠ None ∨ y ≠ None →
  (∀ k, settle_both h g was = Conflicted k ↔ x ≠ y ∧ k = conflict_kind x y was) ∧
  (∀ ag, settle_both h g was = Adopt ag → x = y) ∧ (x = y → ∃ ag, settle_both h g was = Adopt ag) ∧
  (∀ ag k c, settle_both h g was = Adopt ag → x = Some (k, c) →
     a_kind ag = k ∧ (k ≠ Dir → a_digest ag = sha c) ∧ Some (a_host ag) = st_side <$> h ∧ Some (a_guest ag) = st_side <$> g).
Proof.
  intros Hx Hy Hinj Hne. unfold settle_both, conflict_kind.
  destruct h as [s|], x as [[k c]|], g as [t|], y as [[k' c']|]; try done;
    try (split_and!; [intros kk; split; [intros [= <-]; done|by intros [_ ->]]|done|done|done]); [|by destruct Hne].
  pose proof (walked_digest was s k c Hx) as Ex. pose proof (walked_digest was t k' c' Hy) as Ey. destruct Hx as (Hk & _ & Hdx), Hy as (Hk' & _ & Hdy).
  rewrite Hk, Hk'. case_bool_decide as Hkk; simpl.
  2: { rewrite decide_False by done. split_and!; try done; [intros kk; split; [intros [= <-]; split; [congruence|done]|by intros [_ ->]]|congruence]. }
  destruct Hkk. rewrite decide_True by done.
  replace (match was with Some w => (digest_of s w, digest_of t w) | None => (standalone_digest s, standalone_digest t) end)
    with (digest_or_agreed s was, digest_or_agreed t was) by (by destruct was).
  assert (digest_or_agreed s was = digest_or_agreed t was ↔ c = c') as Hiff.
  { destruct (decide (k = Dir)) as [->|Hn].
    - destruct Hdx as [Hs ->], Hdy as [Ht ->]. unfold digest_or_agreed, digest_of, standalone_digest. rewrite Hs, Ht. done.
    - rewrite Ex, Ey by done. split; [by apply (Hinj k c k c')|by intros ->]. }
  case_bool_decide as Heq.
  - apply Hiff in Heq as Hcc. subst c'. split; [intros kk; split; [done|by intros [? _]]|]. split; [done|]. split; [intros _; by eexists|]. intros ag k0 c0 [= <-] [= <- <-]. simpl. by split_and!.
  - assert (c ≠ c') as Hcc by (by rewrite <-Hiff). split; [intros kk; split; [intros [= <-]; split; [congruence|done]|by intros [_ ->]]|].
    split; [done|]. split; [congruence|done].
Qed.

(** C33: a conflict is raised at exactly the paths where both copies strayed
    from what was agreed, something is left of at least one of them, they
    differ, and the developer has not ruled; it says what happened to them.
    Where they strayed to the same kind and content, it is adopted without a
    transfer, with the digest of that content and each side's own size and
    time. This is of what the trees hold, where every file was hashed or
    vouched for and its digest tells it from the other copy. *)
Theorem reconcile_conflicts_exactly i path x y :
  let p := reconcile to_lowercase i in
  let h := host i !! path in let g := guest i !! path in let was := was_of i path in
  walked was h x → walked was g y → (∀ k c k' c', x = Some (k, c) → y = Some (k', c') → sha c = sha c' → c = c') →
  let both_strayed := decided i path ∧ resolved i !! path = None ∧ (x ≠ None ∨ y ≠ None) ∧ ¬ as_agreed x was ∧ ¬ as_agreed y was in
  (∀ k, mkConflict path k ∈ conflicts p ↔ both_strayed ∧ x ≠ y ∧ k = conflict_kind x y was) ∧
  ((∃ ag, (path, ag) ∈ adopt p) ↔ both_strayed ∧ x = y) ∧
  (∀ ag k c, (path, ag) ∈ adopt p → x = Some (k, c) →
     a_kind ag = k ∧ (k ≠ Dir → a_digest ag = sha c) ∧ Some (a_host ag) = st_side <$> h ∧ Some (a_guest ag) = st_side <$> g).
Proof.
  cbv zeta. intros Hx Hy Hinj. destruct (settled_exactly i path) as [Hc Ha]. cbv zeta in Hc, Ha.
  pose proof (walked_moved _ _ _ Hx) as Mx. pose proof (walked_moved _ _ _ Hy) as My.
  assert (is_Some (host i !! path) ∨ is_Some (guest i !! path) ↔ x ≠ None ∨ y ≠ None) as Hsome.
  { rewrite <-!not_eq_None_Some. clear -Hx Hy. destruct (host i !! path), x as [[??]|], (guest i !! path), y as [[??]|]; naive_solver. }
  assert (diverged i path ↔ decided i path ∧ resolved i !! path = None ∧ (x ≠ None ∨ y ≠ None) ∧ ¬ as_agreed x (was_of i path) ∧ ¬ as_agreed y (was_of i path)) as Hdiv.
  { unfold diverged. rewrite Mx, My, Hsome. tauto. }
  split_and!.
  - intros k. rewrite Hc, Hdiv. split; intros [Hs Hr]; (split; [done|]); destruct (walked_settled _ _ _ _ _ Hx Hy Hinj) as (W & _); try apply Hs; by apply W.
  - split.
    + intros [ag [Hd Hs]%Ha]. apply Hdiv in Hd. split; [done|]. destruct (walked_settled _ _ _ _ _ Hx Hy Hinj) as (_ & W & _); [apply Hd|]. by eapply W.
    + intros [Hd Heq]. destruct (walked_settled _ _ _ _ _ Hx Hy Hinj) as (_ & _ & W & _); [apply Hd|]. destruct (W Heq) as [ag Hs]. exists ag. apply Ha. by rewrite Hdiv.
  - intros ag k c [Hd Hs]%Ha Heq. apply Hdiv in Hd. destruct (walked_settled _ _ _ _ _ Hx Hy Hinj) as (_ & _ & _ & W); [apply Hd|]. by eapply W.
Qed.
End contents.

(** ** The mass-deletion guard *)


Lemma carry_kinds i path d m st was :
  Forall (λ a, is_removal a = true) (p_removals (carry i path d m st was)) ∧
  Forall (λ a, is_removal a = false) (p_creations (carry i path d m st was)).
Proof.
  unfold carry. destruct m as [s|]; [|destruct was; split; repeat constructor].
  assert (Forall (λ a, is_removal a = true) match st with
           | Some o => if negb (bool_decide (st_kind o = st_kind s)) then [Remove d path (st_kind o)] else []
           | None => [] end) by (destruct st; [destruct (negb _)|]; repeat constructor).
  destruct (place d path s i was) as [x|] eqn:Hp; (split; [done|]); repeat constructor.
  by apply place_inl in Hp as (_ & _ & ?).
Qed.

Lemma all_removals_kind i a : a ∈ all_removals i → is_removal a = true.
Proof.
  intros (path & _ & Hin)%elem_of_all_removals.
  destruct (reconcile_path_cases i path) as [(d & _ & _ & Heq)|(Hr & _ & _)].
  - rewrite Heq in Hin. destruct (carry_kinds i path d (moving_of i d path) (standing_of i d path) (was_of i path)) as [Hr _].
    rewrite Forall_forall in Hr. auto.
  - rewrite Hr in Hin. by apply elem_of_nil in Hin.
Qed.
Lemma all_creations_kind i a : a ∈ all_creations i → is_removal a = false.
Proof.
  intros (path & _ & Hin)%elem_of_all_creations.
  destruct (reconcile_path_cases i path) as [(d & _ & _ & Heq)|(_ & Hc & _)].
  - rewrite Heq in Hin. destruct (carry_kinds i path d (moving_of i d path) (standing_of i d path) (was_of i path)) as [_ Hc].
    rewrite Forall_forall in Hc. auto.
  - rewrite Hc in Hin. by apply elem_of_nil in Hin.
Qed.

Lemma creations_not_removals i a : a ∈ all_creations i → onto_host_removal a = false.
Proof. intros Ha%all_creations_kind. by destruct a. Qed.

Lemma elem_of_kept_iff i rs a :
  a ∈ rs → a ∈ (withhold_bulk_delete rs i).1 ∨
  withheld i a = true ∧ ∃ b, (withhold_bulk_delete rs i).2 = Some b ∧ path_of a ∈ b_paths b.
Proof.
  intros Ha. unfold withhold_bulk_delete. destruct (negb _); [by left|]. simpl.
  destruct (withheld i a) eqn:Hw; [right|left; by apply list_elem_of_filter]. split; [done|].
  assert (path_of a ∈ merge_sort bytes_le (path_of <$> filter (λ a, withheld i a = true) rs)) as Hin.
  { rewrite merge_sort_Permutation. apply list_elem_of_fmap_2, list_elem_of_filter. done. }
  destruct (merge_sort _ _) eqn:E; [by apply elem_of_nil in Hin|]. eexists. split; [done|]. done.
Qed.

(** A deletion of the canonical copy. *)
Definition deletes_host (a : Action) : Prop := direction a = ToHost ∧ is_removal a = true.
#[global] Instance deletes_host_dec a : Decision (deletes_host a).
Proof. unfold deletes_host. apply _. Defined.
Lemma onto_host_removal_spec a : onto_host_removal a = true ↔ deletes_host a.
Proof. unfold deletes_host. destruct a as [| | |[] ? ?]; simpl; naive_solver. Qed.
Lemma withheld_spec i a : withheld i a = true ↔ deletes_host a ∧ resolved i !! path_of a ≠ Some Guest.
Proof. unfold withheld. rewrite andb_true_iff, onto_host_removal_spec, negb_true_iff, bool_decide_eq_false. done. Qed.
Lemma mass_spec (rs : list Action) : filter (λ a, onto_host_removal a = true) rs = filter deletes_host rs.
Proof. apply list_filter_iff. intros a. apply onto_host_removal_spec. Qed.


(** ** The order of execution *)

Definition below (p q : bytes) : Prop := ∃ r, p = q ++ [47] ++ r.
Lemma below_not_le p q : below p q → ¬ bytes_le p q.
Proof.
  intros [r ->] Hle. pose proof (bytes_leb_antisym _ _ Hle (bytes_leb_prefix _ _)) as E.
  apply (f_equal length) in E. rewrite !length_app in E. simpl in E. lia.
Qed.

Lemma all_removals_sorted i : StronglySorted (λ a b, bytes_le (path_of b) (path_of a)) (all_removals i).
Proof.
  apply Sorted_StronglySorted; [intros a b c ? ?; by etrans|].
  apply Sorted_merge_sort. intros a b. apply bytes_le_total.
Qed.
Lemma all_creations_sorted i : StronglySorted (λ a b, bytes_le (path_of a) (path_of b)) (all_creations i).
Proof.
  apply Sorted_StronglySorted; [intros a b c ? ?; by etrans|].
  apply Sorted_merge_sort. intros a b. apply bytes_le_total.
Qed.

Lemma kept_sorted i rs :
  StronglySorted (λ a b, bytes_le (path_of b) (path_of a)) rs →
  StronglySorted (λ a b, bytes_le (path_of b) (path_of a)) (withhold_bulk_delete rs i).1.
Proof. intros. unfold withhold_bulk_delete. destruct (negb _); [done|]. by apply StronglySorted_filtered. Qed.

(** C34: the order a plan is carried out in is safe for trees: of any two
    actions, a removal never follows a creation, nothing is removed before
    what lies below it, and nothing is created before the directory it lies in. *)
Theorem actions_ordered i j k a b :
  let acts := actions (reconcile to_lowercase i) in
  acts !! j = Some a → acts !! k = Some b → (j < k)%nat →
  (is_removal b = true → is_removal a = true ∧ ¬ below (path_of b) (path_of a)) ∧
  (is_removal a = false → is_removal b = false ∧ ¬ below (path_of a) (path_of b)).
Proof.
  cbv zeta. destruct (reconcile_eq i) as (-> & _). set (rs := (withhold_bulk_delete _ i).1).
  assert (∀ n x, (rs ++ all_creations i) !! n = Some x →
    is_removal x = true ∧ rs !! n = Some x ∨
    is_removal x = false ∧ (length rs ≤ n)%nat ∧ all_creations i !! (n - length rs)%nat = Some x) as Hpart.
  { intros n x [Hx|[? Hx]]%lookup_app_Some; [left|right]; (split; [|done]).
    - eapply all_removals_kind, elem_of_kept, list_elem_of_lookup_2, Hx.
    - eapply all_creations_kind, list_elem_of_lookup_2, Hx. }
  intros [[Ka Ha]|(Ka & La & Ha)]%Hpart [[Kb Hb]|(Kb & Lb & Hb)]%Hpart Hjk; rewrite Ka, Kb.
  - split; [intros _|done]. split; [done|]. intros Hbel%below_not_le. apply Hbel.
    refine (StronglySorted_lookup (λ a b, bytes_le (path_of b) (path_of a)) rs j k a b _ Ha Hb Hjk).
    apply kept_sorted, all_removals_sorted.
  - done.
  - apply lookup_lt_Some in Hb. lia.
  - split; [done|intros _]. split; [done|]. intros Hbel%below_not_le. apply Hbel.
    eapply (StronglySorted_lookup (λ a b, bytes_le (path_of a) (path_of b)) _ _ _ a b (all_creations_sorted i) Ha Hb). lia.
Qed.

(** ** Nothing is lost sight of *)

(** Every path the host, the guest or the ledger knows, and that is not
    held back by name, is settled by the plan in exactly one of four ways: both
    copies are gone and the agreement is forgotten; both moved and the path is a
    conflict or an adoption; neither moved and nothing happens to it; or one
    side is carried over, so that what it holds is placed or refused as too
    large, and what it deleted is removed or listed for the developer. *)
Theorem every_path_settled i path :
  path ∈ known_paths i → decided i path →
  let p := reconcile to_lowercase i in
  host i !! path = None ∧ guest i !! path = None ∧ path ∈ forget p ∨
  diverged i path ∧ ((∃ k, mkConflict path k ∈ conflicts p) ∨ ∃ ag, (path, ag) ∈ adopt p) ∨
  changed (moved (host i !! path) (was_of i path)) = false ∧
    changed (moved (guest i !! path) (was_of i path)) = false ∧ (∀ a, a ∈ actions p → path_of a ≠ path) ∨
  ∃ d, licensed i d path ∧
    match moving_of i d path with
    | Some s =>
        (∃ a, a ∈ actions p ∧ path_of a = path ∧ direction a = d ∧ is_removal a = false) ∨
        mkOversize path d (st_size s) (max_file_bytes i) ∈ oversize p ∧ max_file_bytes i < st_size s
    | None =>
        match was_of i path with
        | Some w => Remove d path (a_kind w) ∈ actions p ∨ ∃ b, bulk_delete p = Some b ∧ path ∈ b_paths b
        | None => resolved i !! path = Some (winner_of d)
        end
    end.
Proof.
  intros Hk Hd. cbv zeta. pose proof (reconcile_eq i) as Heq. cbv zeta in Heq. destruct Heq as (Ea & Eb & Ead & Ef & Ec & Eo & _).
  rewrite Eb, Ead, Ef, Ec, Eo.
  destruct (pushed_cases i path Hd) as [(H1 & H2 & Hp)|[(Hdiv & Hp)|[(d & Hl & Hp)|(H1 & H2 & Hp)]]].
  - left. split_and!; try done. apply elem_of_pushed. exists path. split; [done|]. rewrite Hp.
    apply known_paths_spec in Hk. rewrite H1, H2 in Hk. destruct (was_of i path) as [w|]; [by left|].
    by destruct Hk as [[]|[[]|[]]].
  - right; left. split; [done|]. destruct (settle_both _ _ _) as [ag|k].
    + right. exists ag. apply elem_of_pushed. exists path. rewrite Hp. split; [done|by left].
    + left. exists k. apply elem_of_pushed. exists path. rewrite Hp. split; [done|by left].
  - do 3 right. exists d. split; [done|]. unfold carry in Hp. destruct (moving_of i d path) as [s|] eqn:Hm.
    + destruct (place d path s i (was_of i path)) as [a|o] eqn:Hpl.
      * left. exists a. assert (a ∈ p_creations (pushed i path)) as Ha by (rewrite Hp; by left).
        assert (a ∈ all_creations i) as Hall by (apply elem_of_all_creations; by exists path).
        apply place_inl in Hpl as (? & ? & ?). split_and!; try done. rewrite Ea. apply elem_of_app. by right.
      * right. apply place_inr in Hpl as [-> ?]. split; [|done].
        apply elem_of_pushed. exists path. rewrite Hp. split; [done|by left].
    + destruct (was_of i path) as [w|] eqn:Hw.
      * assert (Remove d path (a_kind w) ∈ all_removals i) as Hin.
        { apply elem_of_all_removals. exists path. rewrite Hp. split; [done|by left]. }
        rewrite Ea. destruct (elem_of_kept_iff i _ _ Hin) as [?|(_ & b & ? & ?)]; [left; apply elem_of_app; by left|right; by exists b].
      * destruct Hl as [[Hl _]|[? _]]; [|done]. by rewrite Hm, Hw in Hl.
  - do 2 right; left. split_and!; try done. intros a Ha <-. apply action_carried in Ha as (_ & _ & _ & Hin). rewrite Hp in Hin.
    by apply elem_of_nil in Hin.
Qed.

(** ** The two directions are one rule *)

Definition flip_side (ag : Agreed) : Agreed := mkAgreed (a_kind ag) (a_digest ag) (a_guest ag) (a_host ag).
Definition flip_winner (w : Winner) : Winner := match w with Host => Guest | Guest => Host end.
Definition flip (d : Direction) : Direction := match d with ToGuest => ToHost | ToHost => ToGuest end.
(** The workspace seen from the other side. *)
Definition mirror i : Inputs :=
  mkInputs (guest i) (host i) (set_entries (ledger i) (flip_side <$> entries (ledger i))) (undecided i) (guest_owned i)
    (flip_winner <$> resolved i) (max_file_bytes i) (case_folding i).
(** An action the other way round, and without the link kind only Windows guests have. *)
Definition plain (a : Action) : Action :=
  match a with PutSymlink d p t side dg _ => PutSymlink d p t side dg false | _ => a end.
Definition flip_action (a : Action) : Action :=
  match a with
  | MakeDir d p side => MakeDir (flip d) p side
  | PutFile d p side dg => PutFile (flip d) p side dg
  | PutSymlink d p t side dg _ => PutSymlink (flip d) p t side dg false
  | Remove d p k => Remove (flip d) p k
  end.
Definition flip_oversize (o : Oversize) : Oversize := mkOversize (o_path o) (flip (o_direction o)) (o_size o) (o_cap o).
Definition mirrors (a b : Pushed) : Prop :=
  p_forget b = p_forget a ∧ p_adopt b = (prod_map id flip_side <$> p_adopt a) ∧ p_conflicts b = p_conflicts a ∧
  plain <$> p_removals b = flip_action <$> p_removals a ∧ plain <$> p_creations b = flip_action <$> p_creations a ∧
  p_oversize b = flip_oversize <$> p_oversize a.

Lemma moved_flip s (was : option Agreed) : moved s (flip_side <$> was) = moved s was.
Proof. by destruct s, was. Qed.
Lemma digest_or_agreed_flip s (was : option Agreed) : digest_or_agreed s (flip_side <$> was) = digest_or_agreed s was.
Proof. by destruct was. Qed.

Lemma settle_both_flip h g was :
  settle_both g h (flip_side <$> was) =
  match settle_both h g was with Adopt ag => Adopt (flip_side ag) | Conflicted k => Conflicted k end.
Proof.
  unfold settle_both. destruct h as [h|], g as [g|]; try done.
  rewrite (bool_decide_ext (st_kind g = st_kind h) (st_kind h = st_kind g)) by done.
  case_bool_decide as Hk; [|done]. simpl.
  destruct was as [w|]; simpl.
  - change (digest_of g (flip_side w)) with (digest_of g w). change (digest_of h (flip_side w)) with (digest_of h w).
    rewrite (bool_decide_ext (digest_of g w = digest_of h w) (digest_of h w = digest_of g w)) by done.
    case_bool_decide as Hd; [|done]. unfold flip_side. simpl. by rewrite Hd, Hk.
  - rewrite (bool_decide_ext (standalone_digest g = standalone_digest h) (standalone_digest h = standalone_digest g)) by done.
    case_bool_decide as Hd; [|done]. unfold flip_side. simpl. by rewrite Hd, Hk.
Qed.

Lemma carry_flip i path d m st was :
  mirrors (carry i path d m st was) (carry (mirror i) path (flip d) m st (flip_side <$> was)).
Proof.
  unfold carry. destruct m as [s|]; [|by destruct was].
  assert (match place d path s i was, place (flip d) path s (mirror i) (flip_side <$> was) with
          | inl a, inl b => plain b = flip_action a
          | inr o, inr o' => o' = flip_oversize o
          | _, _ => False
          end) as Hp.
  { unfold place. rewrite digest_or_agreed_flip. simpl max_file_bytes. destruct (st_kind s); [destruct (_ <? _)|..]; done. }
  destruct (place d path s i was), (place (flip d) path s (mirror i) _); try done; unfold mirrors; simpl;
    destruct st; simpl; try destruct (negb _); simpl; rewrite ?Hp; by split_and!.
Qed.

Lemma pushed_mirror i path : case_folding i = false → mirrors (pushed i path) (pushed (mirror i) path).
Proof.
  intros Hcf. unfold pushed, reconcile_path. replace (collisions to_lowercase (mirror i)) with (collisions to_lowercase i)
    by (unfold collisions; simpl; by rewrite Hcf).
  simpl. destruct (_ || _); [done|]. case_bool_decide; [done|].
  rewrite !lookup_fmap, !moved_flip. fold (was_of i path).
  assert (mirrors match settle_both (host i !! path) (guest i !! path) (was_of i path) with
                     | Adopt a => mkPushed [] [(path, a)] [] [] [] [] | Conflicted k => mkPushed [] [] [mkConflict path k] [] [] [] end
                   match settle_both (guest i !! path) (host i !! path) (flip_side <$> was_of i path) with
                     | Adopt a => mkPushed [] [(path, a)] [] [] [] [] | Conflicted k => mkPushed [] [] [mkConflict path k] [] [] [] end)
    as Hset by (rewrite settle_both_flip; by destruct (settle_both _ _ _)).
  destruct (host i !! path) as [h|], (guest i !! path) as [g|]; [| | |by destruct (was_of i path)].
  all: set (hm := changed (moved _ (was_of i path))); set (gm := changed (moved _ (was_of i path))).
  all: destruct hm, gm, (resolved i !! path) as [[|]|]; simpl.
  all: try done.
  all: first [apply (carry_flip i path ToGuest)|apply (carry_flip i path ToHost)|exact Hset].
Qed.

Lemma fmap_pushed_mirror {A B} i (f : Pushed → list A) (g : A → B) (h : A → B) :
  (∀ path, g <$> f (pushed (mirror i) path) = h <$> f (pushed i path)) →
  g <$> ((pushed (mirror i) <$> known_paths i) ≫= f) = h <$> ((pushed i <$> known_paths i) ≫= f).
Proof.
  intros Hf. induction (known_paths i) as [|p ps IH]; [done|].
  rewrite !fmap_cons, !bind_cons, !fmap_app. by rewrite Hf, IH.
Qed.

Lemma no_bulk_all i :
  bulk_delete (reconcile to_lowercase i) = None → actions (reconcile to_lowercase i) = all_removals i ++ all_creations i.
Proof.
  destruct (reconcile_eq i) as (-> & -> & _). cbv zeta. unfold withhold_bulk_delete. destruct (negb _); [done|]. simpl.
  destruct (merge_sort _ _) eqn:E; [|done]. intros _. f_equal.
  assert (path_of <$> filter (λ a, withheld i a = true) (all_removals i) = []) as Hn.
  { apply Permutation_nil_r. rewrite <-E. symmetry. apply merge_sort_Permutation. }
  apply fmap_nil_inv in Hn. induction (all_removals i) as [|a l IH]; [done|]. rewrite filter_cons in *.
  destruct (withheld i a); simpl in *; [done|]. by rewrite IH.
Qed.

(** Which side moved is all that differs between the two directions.
    Exchange the two trees, the ledger's two columns and the developer's
    rulings, on a guest that does not fold case, and the plan is the same plan
    the other way round: the same conflicts and forgotten paths, the same
    adoptions with their sides exchanged, the same refusals and, where the
    one-way guard on mass deletion holds nothing back, the same actions. *)
Theorem reconcile_symmetric i :
  case_folding i = false →
  let p := reconcile to_lowercase i in let q := reconcile to_lowercase (mirror i) in
  conflicts q = conflicts p ∧ forget q = forget p ∧ adopt q = (prod_map id flip_side <$> adopt p) ∧
  oversize q = (flip_oversize <$> oversize p) ∧
  (bulk_delete p = None → bulk_delete q = None → plain <$> actions q ≡ₚ flip_action <$> actions p).
Proof.
  intros Hc. assert (known_paths (mirror i) = known_paths i) as Hk.
  { unfold known_paths. simpl. rewrite dom_fmap_L. f_equal. set_solver. }
  cbv zeta. pose proof (reconcile_eq i) as Ei. pose proof (reconcile_eq (mirror i)) as Em. cbv zeta in Ei, Em.
  destruct Ei as (_ & _ & -> & -> & -> & -> & _), Em as (_ & _ & -> & -> & -> & -> & _). rewrite Hk.
  rewrite <-(list_fmap_id (_ ≫= p_conflicts)) at 1. rewrite <-(list_fmap_id (_ ≫= p_forget)) at 1.
  rewrite <-(list_fmap_id (_ ≫= p_adopt)) at 1. rewrite <-(list_fmap_id (_ ≫= p_oversize)) at 1.
  pose proof (λ path, pushed_mirror i path Hc) as Hm. unfold mirrors in Hm. split_and!.
  - erewrite fmap_pushed_mirror; [apply list_fmap_id|]. intros path. by rewrite !list_fmap_id; apply Hm.
  - erewrite fmap_pushed_mirror; [apply list_fmap_id|]. intros path. by rewrite !list_fmap_id; apply Hm.
  - apply fmap_pushed_mirror. intros path. by rewrite list_fmap_id; apply Hm.
  - apply fmap_pushed_mirror. intros path. by rewrite list_fmap_id; apply Hm.
  - intros Hp Hq. rewrite (no_bulk_all i Hp), (no_bulk_all (mirror i) Hq), !fmap_app.
    unfold all_removals, all_creations. rewrite Hk. apply Permutation_app.
    + rewrite !merge_sort_Permutation. rewrite (fmap_pushed_mirror i p_removals plain flip_action); [done|]. apply Hm.
    + rewrite !merge_sort_Permutation. rewrite (fmap_pushed_mirror i p_creations plain flip_action); [done|]. apply Hm.
Qed.
End facts.

(** ** The descent of the volume warning ends *)

(** Once every path is shorter than the prefix and the fuel together, more fuel changes nothing. *)
Lemma volume_prefix_enough fuel fuel' prefix here :
  (∀ p, p ∈ here → (length p < length prefix + fuel)%nat) → (fuel ≤ fuel')%nat →
  volume_prefix fuel' prefix here = volume_prefix fuel prefix here.
Proof.
  revert fuel' prefix here. induction fuel as [|fuel IH]; intros [|fuel'] prefix here Hlen Hle; try done; try lia.
  - assert (omap (head_below prefix) here = []) as Hn.
    { clear Hle. induction here as [|p here IHh]; [done|]. simpl.
      assert (length p < length prefix + 0)%nat by (apply Hlen; by left).
      unfold head_below at 1. rewrite Nat.min_r, drop_ge by lia. simpl. apply IHh. intros q Hq. apply Hlen. by right. }
    simpl. unfold dominant_child. rewrite Hn. done.
  - simpl. destruct (dominant_child prefix here) as [[head count]|] eqn:Hd; [|done].
    destruct (_ <=? _); [|done]. set (deeper := match prefix with [] => _ | _ => _ end).
    destruct (forallb _ _); [done|]. apply IH; [|lia]. intros p [_ Hp%Hlen]%list_elem_of_filter.
    assert (length prefix < length deeper)%nat; [|lia].
    assert (head ≠ []) as Hne; [|subst deeper; destruct head; [done|]; destruct prefix; rewrite ?length_app; simpl; rewrite ?length_app; simpl; lia].
    unfold dominant_child in Hd.
    assert (∀ l b, (∀ x, x ∈ l → x.1 ≠ ([] : bytes)) → (∀ x, b = Some x → x.1 ≠ []) → ∀ r,
      foldl (λ best c, match best with Some b => if c.2 <? b.2 then Some b else Some c | None => Some c end) b l = Some r →
      (r : bytes * Z).1 ≠ []) as Hfold.
    { induction l as [|c l IHl]; intros b Hl Hb r Hr; simpl in Hr; [by apply Hb|].
      eapply IHl, Hr; [intros; apply Hl; by right|]. intros x. pose proof (Hl c ltac:(by left)).
      destruct b as [b|]; [destruct (_ <? _)|]; intros [= <-]; auto. }
    eapply (Hfold _ None _ ltac:(done) _ Hd). Unshelve.
    intros x (h & -> & Hh%elem_of_in_order)%list_elem_of_fmap. simpl.
    apply elem_of_list_to_set, list_elem_of_omap in Hh as (q & _ & Hq). unfold head_below in Hq.
    destruct (split_on _ _) as [|[|] ?]; by simplify_eq.
Qed.
(** The fuel [volume] gives is enough. *)
Lemma volume_prefix_fuel (paths : list bytes) fuel' :
  (S (foldr Nat.max 0 (length <$> paths)) ≤ fuel')%nat →
  volume_prefix fuel' [] paths = volume_prefix (S (foldr Nat.max 0 (length <$> paths))%nat) [] paths.
Proof.
  apply volume_prefix_enough. intros p Hp. simpl. induction paths as [|q ps IH]; [by apply elem_of_nil in Hp|].
  rewrite fmap_cons. simpl foldr. apply elem_of_cons in Hp as [->|Hp]; [lia|]. apply IH in Hp. lia.
Qed.

(** ** A workspace *)

(** Agreed: the directory [d] and the files [d/x] and [k]. The host edited
    [k] and made [n]; the guest deleted [d] with its content. *)
Definition sample_file (digest : bytes) : State := mkState File 3 7 (Some digest) None false.
Definition sample_dir : State := mkState Dir 0 7 None None false.
Definition sample_agreed (k : Kind) (digest : bytes) : Agreed := mkAgreed k digest (mkSide 3 7) (mkSide 3 7).
Definition sample_inputs : Inputs :=
  mkInputs
    (<[[107] := sample_file [2]]> (<[[110] := sample_file [5]]> (<[[100] := sample_dir]> {[ [100; 47; 120] := sample_file [3] ]})))
    {[ [107] := sample_file [1] ]}
    (set_entries about_nothing
       (<[[107] := sample_agreed File [1]]> (<[[100] := sample_agreed Dir []]> {[ [100; 47; 120] := sample_agreed File [3] ]})))
    ∅ ∅ ∅ 1000 false.

Example sample_plan :
  let p := reconcile id sample_inputs in
  actions p = [Remove ToHost [100; 47; 120] File; Remove ToHost [100] Dir;
               PutFile ToGuest [107] (mkSide 3 7) [2]; PutFile ToGuest [110] (mkSide 3 7) [5]] ∧
  halts p = false ∧ bulk_delete p = None.
Proof. by vm_compute. Qed.

(** 22 files are agreed and the guest lost them all; the developer answered for
    two of them. The other twenty are not deleted. *)
Definition lost_names : list bytes := (λ k, [k]) <$> seqZ 1 22.
Definition lost_inputs : Inputs :=
  mkInputs (list_to_map ((λ n, (n, sample_file [1])) <$> lost_names)) ∅
    (set_entries about_nothing (list_to_map ((λ n, (n, sample_agreed File [1])) <$> lost_names))) ∅ ∅ (<[[1] := Guest]> {[ [2] := Guest ]}) 1000 false.

Lemma reconcile_protects_changes_witness :
  let a := Remove ToHost [100; 47; 120] File in
  a ∈ actions (reconcile id sample_inputs) ∧
  (∀ s, standing_of sample_inputs ToHost [100; 47; 120] = Some s →
     resolved sample_inputs !! [100; 47; 120] = Some Guest ∨
     ∃ was, was_of sample_inputs [100; 47; 120] = Some was ∧ st_kind s = a_kind was ∧ digest_of s was = a_digest was ∧
            st_oversize s = false).
Proof.
  assert (Remove ToHost [100; 47; 120] File ∈ actions (reconcile id sample_inputs)) as Ha by (vm_compute; constructor).
  split; [done|]. exact (proj1 (reconcile_protects_changes id sample_inputs _ Ha)).
Defined.

Lemma actions_ordered_witness :
  let acts := actions (reconcile id sample_inputs) in
  acts !! 0%nat = Some (Remove ToHost [100; 47; 120] File) ∧ acts !! 1%nat = Some (Remove ToHost [100] Dir) ∧
  ¬ below [100] [100; 47; 120].
Proof.
  split_and!; [by vm_compute..|].
  exact (proj2 (proj1 (actions_ordered id sample_inputs 0 1 (Remove ToHost [100; 47; 120] File) (Remove ToHost [100] Dir)
    ltac:(by vm_compute) ltac:(by vm_compute) ltac:(lia)) eq_refl)).
Defined.

Lemma every_path_settled_witness :
  [110] ∈ known_paths sample_inputs ∧ decided id sample_inputs [110] ∧
  ∃ a, a ∈ actions (reconcile id sample_inputs) ∧ path_of a = [110] ∧ is_removal a = false.
Proof.
  assert ([110] ∈ known_paths sample_inputs) as Hk by (apply known_paths_spec; left; by eexists).
  assert (decided id sample_inputs [110]) as Hd by concrete.
  split_and!; [done..|].
  destruct (every_path_settled id sample_inputs [110] Hk Hd) as [(H & _)|[((_ & _ & _ & H & _) & _)|[(H & _)|([|] & _ & Hm)]]];
    [by vm_compute in H..| |by vm_compute in Hm].
  destruct (moving_of sample_inputs ToGuest [110]) as [s|] eqn:Hs; [|by vm_compute in Hs].
  destruct Hm as [(a & ? & ? & _ & ?)|[_ Hc]]; [by exists a|]. vm_compute in Hs. injection Hs as <-. by vm_compute in Hc.
Defined.

Lemma reconcile_symmetric_witness :
  case_folding sample_inputs = false ∧
  plain <$> actions (reconcile id (mirror sample_inputs)) ≡ₚ flip_action <$> actions (reconcile id sample_inputs).
Proof.
  split; [done|]. destruct (reconcile_symmetric id sample_inputs eq_refl) as (_ & _ & _ & _ & H). apply H; by vm_compute.
Defined.

(** ** Where the plan falls short *)

(** A path [k] agreed on with kind [ka], now [h] on the host and [g] in the guest. *)
Definition one_path (ka : Kind) (h g : option State) (r : option Winner) (cap : Z) : Inputs :=
  mkInputs (from_option (λ s, {[ [107] := s ]}) ∅ h) (from_option (λ s, {[ [107] := s ]}) ∅ g)
    (set_entries about_nothing {[ [107] := sample_agreed ka [1] ]}) ∅ ∅
    (from_option (λ w, {[ [107] := w ]}) ∅ r) cap false.

(** A ruling for the side that deleted a directory, where the other side has
    since put a file in its place, asks for a directory to be removed. *)
Example ruled_removal_has_the_agreed_kind :
  let i := one_path Dir (Some (sample_file [2])) None (Some Guest) 1000 in
  actions (reconcile id i) = [Remove ToHost [107] Dir] ∧ st_kind <$> host i !! [107] = Some File.
Proof. by vm_compute. Qed.

(** Both sides wrote the agreed file: the same bytes, and different ones. *)
Lemma reconcile_conflicts_exactly_witness :
  let wrote dg := one_path File (Some (mkState File 3 8 (Some [2]) None false)) (Some (mkState File 3 9 (Some dg) None false)) None 1000 in
  mkConflict [107] BothModified ∈ conflicts (reconcile id (wrote [3])) ∧ (∃ ag, ([107], ag) ∈ adopt (reconcile id (wrote [2]))).
Proof.
  intros wrote.
  destruct (reconcile_conflicts_exactly id id (wrote [3]) [107] (Some (File, [2])) (Some (File, [3]))) as (Hc & _ & _); [vm_compute; auto|vm_compute; auto|done|].
  destruct (reconcile_conflicts_exactly id id (wrote [2]) [107] (Some (File, [2])) (Some (File, [2]))) as (_ & Ha & _); [vm_compute; auto|vm_compute; auto|by intros ? ? ? ? [= _ <-] [= _ <-]|].
  split.
  - apply Hc. split_and!; [concrete|by vm_compute|by left|intros [_ E]; by specialize (E ltac:(done))|intros [_ E]; by specialize (E ltac:(done))|done|done].
  - apply Ha. split_and!; [concrete|by vm_compute|by left|intros [_ E]; by specialize (E ltac:(done))|intros [_ E]; by specialize (E ltac:(done))|done].
Defined.

(** A link the guest replaced by a file too large to carry is removed from the
    canonical copy, and nothing takes its place. *)
Example refused_replacement_removes :
  let i := one_path Symlink (Some (mkState Symlink 1 7 (Some [1]) (Some [97]) false))
             (Some (mkState File 2000 8 None None true)) None 1000 in
  actions (reconcile id i) = [Remove ToHost [107] Symlink] ∧
  oversize (reconcile id i) = [mkOversize [107] ToHost 2000 1000].
Proof. by vm_compute. Qed.

(** Two copies neither of which was hashed are adopted as the same content. *)
Example unhashed_copies_adopted :
  let i := one_path File (Some (mkState File 2000 8 None None true)) (Some (mkState File 3000 9 None None true)) None 1000 in
  adopt (reconcile id i) = [([107], mkAgreed File [1] (mkSide 2000 8) (mkSide 3000 9))].
Proof. by vm_compute. Qed.
