(* ===== verification/Converge.v ===== *)
(** * What a plan makes of a workspace

    The abstract effect of a plan: each action leaves its content at its path
    on the side it lands on, and the ledger records it. A pass that lands in
    full is the last one: what it leaves behind reconciles to nothing. *)

From S2P Require Import Prelude.
From S2P Require Import Ledger.
From S2P Require Import Plan.

(** ** Carrying actions out *)

(** Every action sets [f] of itself at its own path. *)
Definition alter_all {B} (f : Action → option B) (acts : list Action) (m : gmap bytes B) : gmap bytes B :=
  foldl (λ m a, partial_alter (λ _, f a) (path_of a) m) m acts.

(** What an action leaves at its path. *)
Definition landed_state (a : Action) : option State :=
  match a with
  | MakeDir _ _ side => Some (mkState Dir (s_size side) (s_mtime_ns side) None None false)
  | PutFile _ _ side dg => Some (mkState File (s_size side) (s_mtime_ns side) (Some dg) None false)
  | PutSymlink _ _ tgt side dg _ => Some (mkState Symlink (s_size side) (s_mtime_ns side) (Some dg) (Some tgt) false)
  | Remove _ _ _ => None
  end.
Definition carried_out (acts : list Action) (tree : gmap bytes State) : gmap bytes State := alter_all landed_state acts tree.

Section alter.
Context {B : Type} (f : Action → option B).
Implicit Types (m : gmap bytes B) (acts rs cs pr pc : list Action).

Lemma alter_all_app acts acts' m : alter_all f (acts ++ acts') m = alter_all f acts' (alter_all f acts m).
Proof. apply foldl_app. Qed.
Lemma alter_all_cons a acts m : alter_all f (a :: acts) m = alter_all f acts (partial_alter (λ _, f a) (path_of a) m).
Proof. done. Qed.
Lemma alter_all_none acts m path :
  (∀ a, a ∈ acts → path_of a ≠ path) → alter_all f acts m !! path = m !! path.
Proof.
  revert m. induction acts as [|a acts IH]; intros m Hn; [done|]. rewrite alter_all_cons.
  rewrite IH by (intros; apply Hn; by right). apply lookup_partial_alter_ne, Hn. by left.
Qed.
(** All actions at a path leave the same thing there. *)
Lemma alter_all_same acts m path s :
  (∀ a, a ∈ acts → path_of a = path → f a = s) → (∃ a, a ∈ acts ∧ path_of a = path) → alter_all f acts m !! path = s.
Proof.
  intros Hs (a & (l1 & l2 & ->)%list_elem_of_split & Ha). rewrite alter_all_app, alter_all_cons.
  assert (∀ m, m !! path = s → alter_all f l2 m !! path = s) as Hl2.
  { assert (∀ b, b ∈ l2 → path_of b = path → f b = s) as Hl.
    { intros b Hb. apply Hs. rewrite elem_of_app, elem_of_cons. auto. }
    clear Hs. induction l2 as [|b l2 IH]; intros m' Hm; [done|]. rewrite alter_all_cons. apply IH.
    - intros; apply Hl; [by right|done].
    - destruct (decide (path_of b = path)) as [Hb|Hb].
      + rewrite Hb, lookup_partial_alter_eq. apply Hl; [by left|done].
      + by rewrite lookup_partial_alter_ne. }
  apply Hl2. rewrite Ha, lookup_partial_alter_eq. apply Hs; [|done]. rewrite elem_of_app, elem_of_cons. auto.
Qed.

(** Removals before creations, of which [pr] and [pc] are those at [path]. *)
Lemma alter_all_at rs cs pr pc m path :
  (∀ a, a ∈ rs ∧ path_of a = path ↔ a ∈ pr) → (∀ a, a ∈ cs ∧ path_of a = path ↔ a ∈ pc) →
  (length pr ≤ 1)%nat → (length pc ≤ 1)%nat →
  alter_all f (rs ++ cs) m !! path =
  match pc with a :: _ => f a | [] => match pr with r :: _ => f r | [] => m !! path end end.
Proof.
  assert (∀ acts p m, (∀ a, a ∈ acts ∧ path_of a = path ↔ a ∈ p) → (length p ≤ 1)%nat →
    alter_all f acts m !! path = match p with a :: _ => f a | [] => m !! path end) as Hpart.
  { intros acts [|a [|]] m' Hp Hlen; [| |simpl in Hlen; lia].
    - apply alter_all_none. intros a Ha Hpa. eapply not_elem_of_nil, Hp. done.
    - destruct (proj2 (Hp a) ltac:(by left)) as [Ha Hpa]. apply alter_all_same; [|by exists a].
      intros b Hb Hpb. assert (b ∈ [a]) as ->%list_elem_of_singleton by by apply Hp. done. }
  intros Hr Hc Lr Lc. rewrite alter_all_app, (Hpart cs pc _ Hc Lc), (Hpart rs pr _ Hr Lr). done.
Qed.
End alter.

(** ** A pass that lands in full *)

(** The agreement an action that landed leaves in the ledger. *)
Definition agree_of (a : Action) : option Agreed :=
  (λ s, mkAgreed (st_kind s) (default [] (st_digest s)) (st_side s) (st_side s)) <$> landed_state a.

Definition toward (d : Direction) (acts : list Action) : list Action := filter (λ a, direction a = d) acts.

(** The ledger's entries after the plan: adoptions, then what is forgotten, then the actions. *)
Definition recorded (p : Plan) (m : gmap bytes Agreed) : gmap bytes Agreed :=
  alter_all agree_of (actions p)
    (foldl (λ m path, delete path m) (foldl (λ m pa, <[pa.1 := pa.2]> m) m (adopt p)) (forget p)).

Definition after (p : Plan) (i : Inputs) : Inputs :=
  mkInputs (carried_out (toward ToHost (actions p)) (host i)) (carried_out (toward ToGuest (actions p)) (guest i))
    (set_entries (ledger i) (recorded p (entries (ledger i)))) (undecided i) (guest_owned i) (resolved i) (max_file_bytes i)
    (case_folding i).

#[local] Arguments Plan.reconcile : simpl never.

Section converge.
Context (to_lowercase : bytes → bytes).
Implicit Types (i : Inputs) (path : bytes) (a : Action).
Notation pushed := (pushed to_lowercase).
Notation reconcile := (reconcile to_lowercase).
Notation decided := (decided to_lowercase).

(** Everything pushed for a path is about it, there is at most one of each, and only known paths have any. *)
Lemma pushed_shape i path :
  let p := pushed i path in
  (∀ a, a ∈ p_removals p ++ p_creations p → path_of a = path) ∧
  (∀ pa, pa ∈ p_adopt p → pa.1 = path) ∧ (∀ q, q ∈ p_forget p → q = path) ∧
  (length (p_removals p) ≤ 1)%nat ∧ (length (p_creations p) ≤ 1)%nat ∧ (length (p_adopt p) ≤ 1)%nat.
Proof.
  cbv zeta. destruct (decide (decided i path)) as [Hd|Hd].
  - destruct (pushed_cases to_lowercase i path Hd) as [(_&_& ->)|[(_& ->)|[(d & _ & ->)|(_&_& ->)]]].
    + destruct (was_of i path); split_and!; simpl; try lia; try (by intros ? ?%elem_of_nil); by intros ? ->%list_elem_of_singleton.
    + destruct (settle_both _ _ _); split_and!; simpl; try lia; try (by intros ? ?%elem_of_nil); by intros ? ->%list_elem_of_singleton.
    + split; [intros a Ha; by apply elem_of_carry in Ha as [? _]|]. unfold carry.
      destruct (moving_of _ _ _) as [s|]; [destruct (standing_of _ _ _) as [o|]; [destruct (negb _)|]; destruct (place _ _ _ _ _)|destruct (was_of i path)];
        split_and!; simpl; try lia; by intros ? ?%elem_of_nil.
    + split_and!; simpl; try lia; by intros ? ?%elem_of_nil.
  - destruct (pushed_undecided to_lowercase i path Hd) as [-> | ->]; split_and!; simpl; try lia; try (by intros ? ?%elem_of_nil).
    by intros ? ->%list_elem_of_singleton.
Qed.

Lemma pushed_unknown i path :
  path ∉ known_paths i → p_removals (pushed i path) = [] ∧ p_creations (pushed i path) = [] ∧ p_adopt (pushed i path) = [].
Proof.
  rewrite known_paths_spec, <-!not_eq_None_Some. intros Hn.
  destruct (decide (decided i path)) as [Hd|Hd]; [|by destruct (pushed_undecided to_lowercase i path Hd) as [-> | ->]].
  assert (host i !! path = None ∧ guest i !! path = None ∧ was_of i path = None) as (H1 & H2 & H3).
  { destruct (host i !! path), (guest i !! path), (was_of i path); try done; exfalso; apply Hn; auto. }
  destruct (pushed_cases to_lowercase i path Hd) as [(_&_& ->)|[((_ & [[]|[]] & _)& _)|[(d & Hl & ->)|(_&_& ->)]]];
    [by rewrite H3|congruence|congruence| |done].
  unfold moving_of. rewrite H1, H2, H3. by destruct (source_is_host d).
Qed.

Lemma pushed_elem {A} i (f : Pushed → list A) (x : A) path :
  (∀ q, x ∈ f (pushed i q) → q = path) → (path ∉ known_paths i → f (pushed i path) = []) →
  x ∈ (pushed i <$> known_paths i) ≫= f ↔ x ∈ f (pushed i path).
Proof.
  intros Hq Hk. rewrite elem_of_pushed. split; [by intros (q & _ & Hx); rewrite <-(Hq q Hx)|].
  intros Hx. exists path. split; [|done]. destruct (decide (path ∈ known_paths i)) as [|Hn]; [done|].
  rewrite (Hk Hn) in Hx. by apply elem_of_nil in Hx.
Qed.

Lemma removals_at i path a : a ∈ all_removals to_lowercase i ∧ path_of a = path ↔ a ∈ p_removals (pushed i path).
Proof.
  assert (∀ q, a ∈ p_removals (pushed i q) → path_of a = q) as Hq.
  { intros q Ha. apply (proj1 (pushed_shape i q)), elem_of_app. by left. }
  rewrite elem_of_all_removals. split.
  - intros [(q & _ & Ha) <-]. by rewrite (Hq q Ha).
  - intros Ha. split; [|by apply Hq]. exists path. split; [|done].
    destruct (decide (path ∈ known_paths i)) as [|(Hr & _)%pushed_unknown]; [done|]. rewrite Hr in Ha. by apply elem_of_nil in Ha.
Qed.
Lemma creations_at i path a : a ∈ all_creations to_lowercase i ∧ path_of a = path ↔ a ∈ p_creations (pushed i path).
Proof.
  assert (∀ q, a ∈ p_creations (pushed i q) → path_of a = q) as Hq.
  { intros q Ha. apply (proj1 (pushed_shape i q)), elem_of_app. by right. }
  rewrite elem_of_all_creations. split.
  - intros [(q & _ & Ha) <-]. by rewrite (Hq q Ha).
  - intros Ha. split; [|by apply Hq]. exists path. split; [|done].
    destruct (decide (path ∈ known_paths i)) as [|(_ & Hr & _)%pushed_unknown]; [done|]. rewrite Hr in Ha. by apply elem_of_nil in Ha.
Qed.

(** What the actions of a plan that holds nothing back leave at a path. *)
Definition left_by {B} (f : Action → option B) (P : Pushed) (was : option B) : option B :=
  match p_creations P with a :: _ => f a | [] => match p_removals P with r :: _ => f r | [] => was end end.

Lemma alter_all_actions {B} (f : Action → option B) i m path :
  bulk_delete (reconcile i) = None →
  alter_all f (actions (reconcile i)) m !! path = left_by f (pushed i path) (m !! path).
Proof.
  intros Hb. rewrite (no_bulk_all _ _ Hb). destruct (pushed_shape i path) as (_ & _ & _ & Lr & Lc & _).
  apply alter_all_at; [intros a; apply removals_at|intros a; apply creations_at|done..].
Qed.

(** The same for the actions in one direction: all of those at a path go the same way. *)
Lemma carried_toward i path d m :
  bulk_delete (reconcile i) = None →
  carried_out (toward d (actions (reconcile i))) m !! path =
  if bool_decide (Exists (λ a, direction a = d) (p_removals (pushed i path) ++ p_creations (pushed i path)))
  then left_by landed_state (pushed i path) (m !! path) else m !! path.
Proof.
  intros Hb. rewrite (no_bulk_all _ _ Hb). destruct (pushed_shape i path) as (Hp & _ & _ & Lr & Lc & _).
  unfold carried_out, toward. rewrite filter_app. case_bool_decide as Hex; rewrite Exists_exists in Hex.
  - assert (∀ a, a ∈ p_removals (pushed i path) ++ p_creations (pushed i path) → direction a = d) as Hall.
    { destruct Hex as (b & Hb' & <-). intros a Ha. revert Ha Hb'.
      destruct (reconcile_path_cases to_lowercase i path) as [(d' & _ & _ & ->)|(-> & -> & _)]; [|by intros ?%elem_of_nil].
      intros [_ ->]%elem_of_carry [_ ->]%elem_of_carry. done. }
    apply alter_all_at; [intros a|intros a|done..].
    + rewrite list_elem_of_filter, <-removals_at. split; [by intros [[_ ?] ?]|]. intros Ha. destruct (Ha) as [? ?]. split_and!; try done.
      apply Hall, elem_of_app. left. by apply removals_at.
    + rewrite list_elem_of_filter, <-creations_at. split; [by intros [[_ ?] ?]|]. intros Ha. destruct (Ha) as [? ?]. split_and!; try done.
      apply Hall, elem_of_app. right. by apply creations_at.
  - rewrite <-filter_app. apply alter_all_none. intros a [Hd Ha]%list_elem_of_filter Hpa. apply Hex. exists a. split; [|done].
    apply elem_of_app. apply elem_of_app in Ha as [Ha|Ha]; [left; by apply removals_at|right; by apply creations_at].
Qed.

(** The ledger before the actions. *)
Lemma foldl_delete_lookup (qs : list bytes) (m : gmap bytes Agreed) path :
  foldl (λ m q, delete q m) m qs !! path = if bool_decide (path ∈ qs) then None else m !! path.
Proof.
  revert m. induction qs as [|q qs IH]; intros m; simpl; [done|]. rewrite IH.
  destruct (decide (path ∈ qs)) as [Hin|Hin].
  - rewrite !bool_decide_true; [done|by right|done].
  - rewrite (bool_decide_false (path ∈ qs)) by done. destruct (decide (path = q)) as [->|Hne].
    + rewrite bool_decide_true by by left. apply lookup_delete_eq.
    + rewrite bool_decide_false by (rewrite elem_of_cons; tauto). by rewrite lookup_delete_ne.
Qed.
Lemma foldl_insert_other (l : list (bytes * Agreed)) (m : gmap bytes Agreed) path :
  (∀ ag, (path, ag) ∉ l) → foldl (λ m pa, <[pa.1 := pa.2]> m) m l !! path = m !! path.
Proof.
  revert m. induction l as [|[q ag] l IH]; intros m Hn; simpl; [done|].
  rewrite IH by (intros ag' Ha; apply (Hn ag'); by right). apply lookup_insert_ne. intros ->. apply (Hn ag). by left.
Qed.
Lemma foldl_insert_same (l : list (bytes * Agreed)) (m : gmap bytes Agreed) path ag :
  (path, ag) ∈ l → (∀ ag', (path, ag') ∈ l → ag' = ag) → foldl (λ m pa, <[pa.1 := pa.2]> m) m l !! path = Some ag.
Proof.
  intros (l1 & l2 & ->)%list_elem_of_split Hu. rewrite foldl_app. simpl.
  assert (∀ m : gmap bytes Agreed, m !! path = Some ag → foldl (λ m pa, <[pa.1 := pa.2]> m) m l2 !! path = Some ag) as H.
  { assert (∀ ag', (path, ag') ∈ l2 → ag' = ag) as Hl2 by (intros; apply Hu; rewrite elem_of_app, elem_of_cons; auto).
    clear Hu. induction l2 as [|[q ag'] l2 IH]; intros m' Hm; simpl; [done|]. apply IH; [intros; apply Hl2; by right|].
    destruct (decide (q = path)) as [->|]; [|by rewrite lookup_insert_ne]. rewrite lookup_insert_eq. f_equal. apply Hl2. by left. }
  apply H, lookup_insert_eq.
Qed.

Lemma elem_of_adopt i path ag : (path, ag) ∈ adopt (reconcile i) ↔ (path, ag) ∈ p_adopt (pushed i path).
Proof.
  destruct (reconcile_eq to_lowercase i) as (_ & _ & -> & _). apply pushed_elem.
  - intros q Hq. by apply (pushed_shape i q) in Hq.
  - by intros (_ & _ & ?)%pushed_unknown.
Qed.

(** The entry a path has once the plan is carried out. *)
Lemma recorded_lookup i path :
  bulk_delete (reconcile i) = None →
  recorded (reconcile i) (entries (ledger i)) !! path =
  left_by agree_of (pushed i path)
    (match p_forget (pushed i path), p_adopt (pushed i path) with
     | [], [] => was_of i path
     | [], pa :: _ => Some pa.2
     | _ :: _, _ => None
     end).
Proof.
  intros Hb. unfold recorded. rewrite alter_all_actions by done. f_equal. rewrite foldl_delete_lookup.
  destruct (pushed_shape i path) as (_ & Hpa & Hpf & _ & _ & La).
  assert (path ∈ forget (reconcile i) → path ∈ p_forget (pushed i path)) as Hf1.
  { destruct (reconcile_eq to_lowercase i) as (_ & _ & _ & -> & _). intros (q & _ & Hq)%elem_of_pushed.
    by rewrite <-(proj1 (proj2 (proj2 (pushed_shape i q))) path Hq) in Hq. }
  destruct (p_forget (pushed i path)) as [|q qs] eqn:Hf.
  - rewrite bool_decide_false by (intros ?%Hf1; by eapply not_elem_of_nil).
    destruct (p_adopt (pushed i path)) as [|[q ag] [|]] eqn:Ha; [| |simpl in La; lia].
    + rewrite foldl_insert_other; [done|]. intros ag. rewrite elem_of_adopt, Ha. apply not_elem_of_nil.
    + assert (q = path) as -> by (apply (Hpa (q, ag)); by left). simpl. apply foldl_insert_same.
      * apply elem_of_adopt. rewrite Ha. by left.
      * intros ag' Hin%elem_of_adopt. rewrite Ha in Hin. by apply list_elem_of_singleton in Hin as [= ->].
  - assert (q = path) as -> by (apply Hpf; by left). destruct (decide (path ∈ known_paths i)) as [Hk|Hk].
    + rewrite bool_decide_true; [done|]. destruct (reconcile_eq to_lowercase i) as (_ & _ & _ & -> & _).
      apply elem_of_pushed. exists path. rewrite Hf. split; [done|by left].
    + rewrite known_paths_spec, <-!not_eq_None_Some in Hk. case_bool_decide; [done|].
      rewrite foldl_insert_other.
      * fold (was_of i path). destruct (was_of i path); [|done]. exfalso. apply Hk. auto.
      * intros ag. rewrite elem_of_adopt. intros Hin. destruct (decide (decided i path)) as [Hd|Hd].
        -- assert (diverged to_lowercase i path) as (_ & Hex & _) by (apply pushed_settled; right; by eapply elem_of_not_nil).
           rewrite <-!not_eq_None_Some in Hex. tauto.
        -- destruct (pushed_undecided to_lowercase i path Hd) as [E|E]; rewrite E in Hin; by apply elem_of_nil in Hin.
Qed.

(** Neither side moved: nothing happens. *)
Lemma pushed_quiet i path :
  decided i path → changed (moved (host i !! path) (was_of i path)) = false →
  changed (moved (guest i !! path) (was_of i path)) = false → pushed i path = nothing.
Proof.
  intros Hd Hh Hg. destruct (pushed_cases to_lowercase i path Hd) as [(H1 & H2 & ->)|[((_ & _ & ? & _) & _)|[(d & Hl & _)|(_&_& ->)]]].
  - rewrite H1 in Hh. by destruct (was_of i path).
  - congruence.
  - destruct Hl as [[Hl _]|[_ [?|?]]]; [|congruence..]. unfold moving_of in Hl. destruct (source_is_host d); congruence.
  - done.
Qed.
(** A ruling is carried out whatever the other side did. *)
Lemma pushed_ruled i path d :
  decided i path → (is_Some (host i !! path) ∨ is_Some (guest i !! path)) → resolved i !! path = Some (winner_of d) →
  (changed (moved (host i !! path) (was_of i path)) || changed (moved (guest i !! path) (was_of i path))) = true →
  pushed i path = carry i path d (moving_of i d path) (standing_of i d path) (was_of i path).
Proof.
  intros (Hu & Hc & Ho) Hex Hr Hch. unfold Plan.pushed, reconcile_path. rewrite !(bool_decide_false _) by done.
  simpl orb. cbv iota. fold (was_of i path). rewrite Hch, Hr. rewrite (bool_decide_false (_ = None)), andb_false_r by done.
  unfold moving_of, standing_of. destruct (host i !! path), (guest i !! path), d; try done; by destruct Hex as [[]|[]].
Qed.

Lemma all_quiet i : (∀ path, pushed i path = nothing) → case_folding i = false → nothing_to_record (reconcile i) = true.
Proof.
  intros Hn Hc.
  assert (∀ A (f : Pushed → list A), f nothing = [] → (pushed i <$> known_paths i) ≫= f = []) as Hnil.
  { intros A f Hf. induction (known_paths i) as [|q qs IH]; [done|]. by rewrite fmap_cons, bind_cons, Hn, Hf, IH. }
  destruct (reconcile_eq to_lowercase i) as (E1 & E2 & E3 & E4 & E5 & E6 & E7). cbv zeta in *.
  assert (all_removals to_lowercase i = []) as Hr by (unfold all_removals; by rewrite Hnil).
  assert (all_creations to_lowercase i = []) as Hcr by (unfold all_creations; by rewrite Hnil).
  unfold nothing_to_record. rewrite E1, E2, E3, E4, E5, E6, E7, Hr, Hcr, !Hnil by done. unfold collisions. by rewrite Hc.
Qed.

Lemma left_by_nothing {B} (f : Action → option B) P was : p_removals P = [] → p_creations P = [] → left_by f P was = was.
Proof. intros Hr Hc. unfold left_by. by rewrite Hr, Hc. Qed.

(** What the scans guarantee of a state: no file over the cap, no digest for a directory. *)
Definition scanned (s : State) : Prop := st_oversize s = false ∧ (st_kind s = Dir → st_digest s = None).

Lemma agreed_unchanged s ag :
  scanned s → st_kind s = a_kind ag → (∀ dg, st_digest s = Some dg → a_digest ag = dg) →
  changed (moved (Some s) (Some ag)) = false.
Proof.
  intros [Ho _] Hk Hd. simpl. rewrite bool_decide_true, Ho by done. simpl. unfold digest_of.
  destruct (st_digest s) as [dg|]; simpl; rewrite bool_decide_true; try done. symmetry. by apply Hd.
Qed.
Lemma digest_or_agreed_own s was dg : st_digest s = Some dg → digest_or_agreed s was = dg.
Proof. intros Hd. unfold digest_or_agreed, digest_of, standalone_digest. rewrite Hd. by destruct was. Qed.

(** Both sides agree with what was placed. *)
Lemma placed_unchanged d path s i was a :
  place d path s i was = inl a → scanned s →
  ∃ ag l, agree_of a = Some ag ∧ landed_state a = Some l ∧
    changed (moved (Some s) (Some ag)) = false ∧ changed (moved (Some l) (Some ag)) = false.
Proof.
  intros Hp Hs. unfold place in Hp.
  assert (∃ ag l, agree_of a = Some ag ∧ landed_state a = Some l ∧ scanned l ∧ st_kind l = a_kind ag ∧ st_kind s = a_kind ag ∧
    (∀ dg, st_digest l = Some dg → a_digest ag = dg) ∧ (∀ dg, st_digest s = Some dg → a_digest ag = dg))
    as (ag & l & ? & ? & ? & ? & ? & ? & ?); [|exists ag, l; split_and!; [done..|by apply agreed_unchanged|by apply agreed_unchanged]].
  destruct Hs as [Ho Hdir]. destruct (st_kind s) eqn:Hk; [destruct (_ <? _); [done|]|..]; injection Hp as <-.
  - do 2 eexists. split_and!; [done..| |]; simpl; [by intros ? [= ->]|by intros dg ->%(digest_or_agreed_own s was)].
  - do 2 eexists. split_and!; [done..| |]; simpl; [done|]. rewrite Hdir; done.
  - do 2 eexists. split_and!; [done..| |]; simpl; [by intros ? [= ->]|by intros dg ->%(digest_or_agreed_own s was)].
Qed.

(** ** Convergence *)

Lemma after_decided i path : case_folding i = false → decided (after (reconcile i) i) path ↔ decided i path.
Proof.
  intros Hc. unfold Plan.decided, collisions. change (case_folding (after (reconcile i) i)) with (case_folding i). by rewrite Hc.
Qed.

(** What the next pass sees at a path. *)
Lemma after_lookups i path :
  bulk_delete (reconcile i) = None →
  let P := pushed i path in
  let acts := p_removals P ++ p_creations P in
  host (after (reconcile i) i) !! path =
    (if bool_decide (Exists (λ a, direction a = ToHost) acts) then left_by landed_state P (host i !! path) else host i !! path) ∧
  guest (after (reconcile i) i) !! path =
    (if bool_decide (Exists (λ a, direction a = ToGuest) acts) then left_by landed_state P (guest i !! path) else guest i !! path) ∧
  was_of (after (reconcile i) i) path =
    left_by agree_of P (match p_forget P, p_adopt P with
                        | [], [] => was_of i path | [], pa :: _ => Some pa.2 | _ :: _, _ => None end).
Proof.
  intros Hb. exact (conj (carried_toward i path ToHost (host i) Hb)
    (conj (carried_toward i path ToGuest (guest i) Hb) (recorded_lookup i path Hb))).
Qed.

(** A path that was carried over is at rest. *)
Lemma after_carried i path d s a :
  bulk_delete (reconcile i) = None → pushed i path = carry i path d (moving_of i d path) (standing_of i d path) (was_of i path) →
  moving_of i d path = Some s → place d path s i (was_of i path) = inl a → scanned s →
  let i' := after (reconcile i) i in
  changed (moved (host i' !! path) (was_of i' path)) = false ∧ changed (moved (guest i' !! path) (was_of i' path)) = false.
Proof.
  intros Hb Hp Hm Hpl Hs. cbv zeta. destruct (after_lookups i path Hb) as (Eh & Eg & Ew). rewrite Eh, Eg, Ew. clear Eh Eg Ew.
  destruct (placed_unchanged d path s i (was_of i path) a Hpl Hs) as (ag & l & Hag & Hl & Hu1 & Hu2).
  pose proof (λ b, elem_of_carry i path d (moving_of i d path) (standing_of i d path) (was_of i path) b) as Hdir. rewrite <-Hp in Hdir.
  assert (p_creations (pushed i path) = [a]) as Hc by (rewrite Hp, Hm; unfold carry; by rewrite Hpl).
  rewrite Hc in Hdir. unfold left_by. rewrite Hc, Hag, Hl. set (acts := p_removals _ ++ _) in *.
  assert (∀ d', d' ≠ d → bool_decide (Exists (λ a, direction a = d') acts) = false) as Hother.
  { intros d' Hne. apply bool_decide_false. rewrite Exists_exists. intros (b & Hin & <-). apply Hne. by apply Hdir. }
  assert (bool_decide (Exists (λ a, direction a = d) acts) = true) as Hown.
  { apply bool_decide_true. rewrite Exists_exists. exists a. assert (a ∈ acts) by (apply elem_of_app; right; by left).
    split; [done|]. by apply Hdir. }
  unfold moving_of in Hm. destruct d; simpl in Hm;
    [rewrite Hown, (Hother ToHost ltac:(done)), Hm|rewrite Hown, (Hother ToGuest ltac:(done)), Hm]; done.
Qed.

(** What an adopted agreement records. *)
Lemma settle_both_adopts h g was ag :
  settle_both h g was = Adopt ag →
  ∃ s t, h = Some s ∧ g = Some t ∧ st_kind s = st_kind t ∧ digest_or_agreed s was = digest_or_agreed t was ∧
    ag = mkAgreed (st_kind s) (digest_or_agreed s was) (st_side s) (st_side t).
Proof.
  unfold settle_both, digest_or_agreed. destruct h as [s|], g as [t|]; try done.
  case_bool_decide; simpl; [|done]. destruct was as [w|]; case_bool_decide; try done; intros [= <-]; by exists s, t.
Qed.

Lemma after_quiet i path :
  bulk_delete (reconcile i) = None → conflicts (reconcile i) = [] → oversize (reconcile i) = [] → case_folding i = false →
  (∀ s, host i !! path = Some s ∨ guest i !! path = Some s → scanned s) → decided i path →
  pushed (after (reconcile i) i) path = nothing.
Proof.
  intros Hb Hconf Hov Hcf Hsc Hd. pose proof (proj2 (after_decided i path Hcf) Hd) as Hd'.
  destruct (after_lookups i path Hb) as (Eh & Eg & Ew).
  destruct (pushed_cases to_lowercase i path Hd) as [(H1 & H2 & Hp)|[(Hdiv & Hp)|[(d & Hl & Hp)|(Hh & Hg & Hp)]]].
  - apply pushed_quiet; [done|rewrite Eh, Ew, Hp, H1|rewrite Eg, Ew, Hp, H2]; destruct (was_of i path) eqn:Ewas; simpl;
      rewrite ?Ewas; done.
  - destruct (settle_both (host i !! path) (guest i !! path) (was_of i path)) as [ag|k] eqn:Hset.
    + apply settle_both_adopts in Hset as (s & t & Es & Et & Hk & Hdg & ->).
      apply pushed_quiet; [done|rewrite Eh, Ew, Hp, Es|rewrite Eg, Ew, Hp, Et]; apply agreed_unchanged; simpl; try done; eauto.
      * by intros dg ->%(digest_or_agreed_own s (was_of i path)).
      * rewrite Hdg. by intros dg ->%(digest_or_agreed_own t (was_of i path)).
    + exfalso. apply (not_elem_of_nil (mkConflict path k)). rewrite <-Hconf.
      destruct (reconcile_eq to_lowercase i) as (_ & _ & _ & _ & -> & _). apply elem_of_pushed. exists path. rewrite Hp. split; [|by left].
      apply known_paths_spec. destruct Hdiv as (_ & Hex & _). tauto.
  - destruct (moving_of i d path) as [s|] eqn:Hm.
    + destruct (place d path s i (was_of i path)) as [a|o] eqn:Hpl.
      * destruct (after_carried i path d s a Hb) as [? ?]; [by rewrite Hm|done..| |by apply pushed_quiet].
        apply Hsc. unfold moving_of in Hm. destruct d; auto.
      * exfalso. apply (not_elem_of_nil o). rewrite <-Hov. destruct (reconcile_eq to_lowercase i) as (_ & _ & _ & _ & _ & -> & _).
        apply elem_of_pushed. exists path. rewrite Hp. unfold carry. rewrite Hpl. split; [|by left].
        apply known_paths_spec. unfold moving_of in Hm. destruct d; simpl in Hm; rewrite Hm; eauto.
    + unfold carry in Hp. destruct (was_of i path) as [w|] eqn:Hw.
      * apply pushed_quiet; [done|rewrite Eh, Ew, Hp|rewrite Eg, Ew, Hp]; unfold moving_of in Hm; destruct d; simpl in *;
          rewrite ?Hm; done.
      * destruct Hl as [[Hl _]|[Hr Hch]]; [by rewrite Hm, Hw in Hl|].
        assert (host (after (reconcile i) i) !! path = host i !! path) as Eh' by by rewrite Eh, Hp.
        assert (guest (after (reconcile i) i) !! path = guest i !! path) as Eg' by by rewrite Eg, Hp.
        assert (was_of (after (reconcile i) i) path = None) as Ew' by by rewrite Ew, Hp.
        clear Eh Eg Ew.
        assert (is_Some (host i !! path) ∨ is_Some (guest i !! path)) as Hex.
        { rewrite Hw in Hch. destruct (host i !! path), (guest i !! path); [by eauto..|]. by destruct Hch. }
        rewrite (pushed_ruled (after (reconcile i) i) path d); [|done|by rewrite Eh', Eg'|done|].
        -- unfold moving_of. rewrite Eh', Eg', Ew'. unfold moving_of in Hm. by rewrite Hm.
        -- rewrite Eh', Eg', Ew', <-Hw. by apply orb_true_iff.
  - apply pushed_quiet; [done|rewrite Eh, Ew, Hp|rewrite Eg, Ew, Hp]; done.
Qed.

(** C16: a pass that lands in full is the last one. Where a plan does not halt
    and refuses nothing, and everything it asks for is carried out and
    recorded, reconciling what it leaves behind finds nothing to do: no
    action, no conflict, no agreement to take or to drop. *)
Theorem pass_converges i :
  let p := reconcile i in
  halts p = false → oversize p = [] → guest_owned i = ∅ → case_folding i = false →
  (∀ path s, host i !! path = Some s ∨ guest i !! path = Some s → scanned s) →
  nothing_to_record (reconcile (after p i)) = true.
Proof.
  cbv zeta. intros Hh Hov Hgo Hcf Hsc. apply all_quiet; [|done]. unfold halts in Hh. apply orb_false_iff in Hh as [Hc Hb].
  assert (bulk_delete (reconcile i) = None) as Hb' by (apply negb_false_iff in Hb; by apply bool_decide_eq_true in Hb).
  assert (conflicts (reconcile i) = []) as Hc' by (by destruct (conflicts (reconcile i))).
  intros path. destruct (decide (decided i path)) as [Hd|Hd]; [by apply after_quiet; [..|intros s; apply Hsc|]|].
  destruct (pushed_undecided to_lowercase (after (reconcile i) i) path) as [?|E]; [by rewrite after_decided|done|].
  exfalso. apply Hd. split_and!.
  - intros Hu. unfold Plan.pushed, reconcile_path in E. change (undecided (after (reconcile i) i)) with (undecided i) in E.
    rewrite (bool_decide_true _ Hu), orb_true_l in E. discriminate E.
  - unfold collisions. rewrite Hcf. by apply not_elem_of_empty.
  - rewrite Hgo. apply not_elem_of_empty.
Qed.
End converge.

(** [sample_inputs] reconciles to four actions, and then to nothing. *)
Lemma sample_scanned path s :
  host sample_inputs !! path = Some s ∨ guest sample_inputs !! path = Some s → scanned s.
Proof.
  assert (map_Forall (λ _ s, scanned s) (host sample_inputs) ∧ map_Forall (λ _ s, scanned s) (guest sample_inputs)) as [Hh Hg].
  { unfold sample_inputs. simpl. split; repeat (apply map_Forall_insert_2; [by split|]); apply map_Forall_empty. }
  intros [H|H]; [exact (Hh path s H)|exact (Hg path s H)].
Qed.
Lemma pass_converges_witness :
  actions (reconcile id sample_inputs) ≠ [] ∧
  nothing_to_record (reconcile id (after (reconcile id sample_inputs) sample_inputs)) = true.
Proof.
  split; [by vm_compute|].
  exact (pass_converges id sample_inputs ltac:(by vm_compute) ltac:(by vm_compute) eq_refl eq_refl sample_scanned).
Defined.
