(* ===== verification/Effects.v ===== *)
(** * Effects: programs over an interface nobody controls

    Code that talks to file systems other processes write to and that can
    fail at every call is a program over the calls it makes. [runs m tr r]: [m]
    returns [r] if the calls in [tr] got the answers in [tr]; a statement about
    every trace is a statement about every interleaving and every failure. *)

From S2P Require Import Prelude.

Inductive prog (E : Type → Type) (A : Type) : Type :=
| Done (a : A)
| Do {X : Type} (e : E X) (k : X → prog E A).
Arguments Done {E A}.
Arguments Do {E A X}.

Inductive event (E : Type → Type) : Type :=
| Ev {X : Type} (e : E X) (x : X).
Arguments Ev {E X}.

Section prog.
Context {E : Type → Type}.

Fixpoint pbind {A B} (m : prog E A) (f : A → prog E B) : prog E B :=
  match m with
  | Done a => f a
  | Do e k => Do e (λ x, pbind (k x) f)
  end.
Definition call {X} (e : E X) : prog E X := Do e Done.

Fixpoint runs {A} (m : prog E A) (tr : list (event E)) (r : A) : Prop :=
  match m with
  | Done a => tr = [] ∧ r = a
  | Do e k => ∃ x tr', tr = Ev e x :: tr' ∧ runs (k x) tr' r
  end.

(** Against a machine that answers from a state: the calls with their answers, and the result. *)
Fixpoint exec_trace {A W} (h : ∀ X, E X → W → X * W) (m : prog E A) (w : W) : list (event E) * A * W :=
  match m with
  | Done a => ([], a, w)
  | Do e k => let '(x, w) := h _ e w in let '(tr, a, w) := exec_trace h (k x) w in (Ev e x :: tr, a, w)
  end.

(** [for x in l { s = body(x, s) }]. *)
Fixpoint pfor {S B} (body : B → S → prog E S) (l : list B) (s : S) : prog E S :=
  match l with
  | [] => Done s
  | x :: l => pbind (body x s) (pfor body l)
  end.

Lemma runs_bind {A B} (m : prog E A) (f : A → prog E B) tr r :
  runs (pbind m f) tr r ↔ ∃ tr1 tr2 a, tr = tr1 ++ tr2 ∧ runs m tr1 a ∧ runs (f a) tr2 r.
Proof.
  revert tr. induction m as [a|X e k IH]; intros tr; simpl.
  - split; [intros H; by exists [], tr, a|]. by intros (?&?&?&->&[-> ->]&?).
  - split.
    + intros (x & tr' & -> & (tr1 & tr2 & a & -> & H1 & H2)%IH). exists (Ev e x :: tr1), tr2, a. split; [done|]. eauto.
    + intros (tr1 & tr2 & a & -> & (x & tr' & -> & H1) & H2). exists x, (tr' ++ tr2). split; [done|]. apply IH. by exists tr', tr2, a.
Qed.
Lemma runs_call {X} (e : E X) tr x : runs (call e) tr x ↔ tr = [Ev e x].
Proof. simpl. split; [by intros (?&?&->&->& ->)|]. intros ->. by exists x, []. Qed.

Lemma exec_trace_runs {A W} h (m : prog E A) (w : W) : runs m (exec_trace h m w).1.1 (exec_trace h m w).1.2.
Proof.
  revert w. induction m as [a|X e k IH]; intros w; simpl; [done|].
  destruct (h X e w) as [x w']. specialize (IH x w'). destruct (exec_trace h (k x) w') as [[tr a] w''].
  by exists x, tr.
Qed.

(** What every round of a loop keeps true of the state and the trace so far holds at its end. *)
Lemma runs_for {S B} (body : B → S → prog E S) (P : list (event E) → S → Prop) l s tr r :
  (∀ x s t0 t s', x ∈ l → P t0 s → runs (body x s) t s' → P (t0 ++ t) s') →
  ∀ t0, P t0 s → runs (pfor body l s) tr r → P (t0 ++ tr) r.
Proof.
  revert s tr. induction l as [|x l IH]; intros s tr Hstep t0 H0; simpl.
  - intros [-> ->]. by rewrite app_nil_r.
  - intros (t1 & t2 & s1 & -> & H1 & H2)%runs_bind. rewrite app_assoc.
    eapply IH; [intros; eapply Hstep; [by right|done..]| |exact H2]. eapply Hstep; [by left|done..].
Qed.

(** ** Every call of every run *)

(** Whatever the answers, each call [m] makes after the calls [pre] satisfies [P]. *)
Fixpoint safe {A} (P : list (event E) → event E → Prop) (pre : list (event E)) (m : prog E A) : Prop :=
  match m with
  | Done _ => True
  | Do e k => ∀ x, P pre (Ev e x) ∧ safe P (pre ++ [Ev e x]) (k x)
  end.

Lemma safe_runs {A} P pre (m : prog E A) tr r p1 ev p2 :
  safe P pre m → runs m tr r → tr = p1 ++ ev :: p2 → P (pre ++ p1) ev.
Proof.
  revert pre tr p1. induction m as [a|X e k IH]; intros pre tr p1 Hs Hr ->; simpl in *.
  - destruct Hr as [Hr _]. by destruct p1.
  - destruct Hr as (x & tr' & Heq & Hr). destruct (Hs x) as [HP Hk]. destruct p1 as [|e1 p1]; simpl in Heq; injection Heq as ? ?; subst.
    + by rewrite app_nil_r.
    + rewrite cons_middle, app_assoc. by eapply IH.
Qed.
Lemma safe_weaken {A} (P Q : list (event E) → event E → Prop) pre (m : prog E A) :
  (∀ pre ev, P pre ev → Q pre ev) → safe P pre m → safe Q pre m.
Proof.
  intros HPQ. revert pre. induction m as [a|X e k IH]; intros pre Hs; simpl in *; [done|].
  intros x. destruct (Hs x). split; [by apply HPQ|by apply IH].
Qed.
Lemma safe_bind {A B} P pre (m : prog E A) (f : A → prog E B) :
  safe P pre m → (∀ tr a, runs m tr a → safe P (pre ++ tr) (f a)) → safe P pre (pbind m f).
Proof.
  revert pre. induction m as [a|X e k IH]; intros pre Hs Hf; simpl in *.
  - rewrite <-(app_nil_r pre). by apply Hf.
  - intros x. destruct (Hs x) as [HP Hk]. split; [done|]. apply IH; [done|]. intros tr a Hr.
    rewrite <-app_assoc. apply Hf. by exists x, tr.
Qed.
Lemma safe_for {S B} P (I : S → Prop) (body : B → S → prog E S) l pre s :
  (∀ x s pre, x ∈ l → I s → safe P pre (body x s)) →
  (∀ x s tr s', x ∈ l → I s → runs (body x s) tr s' → I s') →
  I s → safe P pre (pfor body l s).
Proof.
  revert pre s. induction l as [|x l IH]; intros pre s Hb Hi Hs; [done|]. simpl.
  apply safe_bind; [apply Hb; [by left|done]|]. intros tr s' Hr.
  apply IH; [intros; apply Hb; [by right|done]|intros; eapply Hi; [by right|done..]|eapply Hi; [by left|done..]].
Qed.
End prog.

Notation "x ⇐ m ; f" := (pbind m (λ x, f)) (at level 20, m at level 100, f at level 200, right associativity).
Notation "x ⇐? m ; f" := (pbind m (λ r, match r with inl e => Done (inl e) | inr x => f end))
  (at level 20, m at level 100, f at level 200, right associativity).
