(* ===== verification/Apply.v ===== *)
(** * Executing a reconciliation ([src/labd/workspace/apply.rs])

    A plan carried out against the two copies. Every call to the guest's file
    session ([GuestFs]) and to the host's file system is a call of the program;
    whatever happens between two calls shows in their answers. The text of an
    error is left out: [Why] says which [bail!], [ensure!] or call it came from.
    SHA-256 in hex is a parameter. *)

From S2P Require Import Prelude.
From S2P Require Import Ledger.
From S2P Require Import Plan.
From S2P Require Import Effects.

(** ** The calls *)

Inductive ErrorCode := NotFound | NotEmpty | OtherError.
Inductive LinkKind := FileLink | DirLink.

(** Attributes as [lstat] gives them; metadata as [symlink_metadata] does,
    with the kind [is_symlink], [is_dir] and [is_file] tell. *)
Record Attrs := mkAttrs { at_kind : EntryKind; at_size : Z; at_mtime : Z }.
Record Metadata := mkMetadata { md_kind : option Kind; md_len : Z; md_mtime : Z }.

Inductive FsCall : Type → Type :=
| GLstat (path : bytes) : FsCall (ErrorCode + option Attrs)
| GReadlink (path : bytes) : FsCall (ErrorCode + bytes)
| GDigest (path : bytes) : FsCall (ErrorCode + bytes)
| GPull (remote local : bytes) : FsCall (ErrorCode + unit)
| GMkdir (path : bytes) (case_sensitive : bool) : FsCall (ErrorCode + unit)
| GPush (local remote : bytes) : FsCall (ErrorCode + unit)
| GSymlink (target link : bytes) (kind : LinkKind) : FsCall (ErrorCode + unit)
| GRename (from to : bytes) : FsCall (ErrorCode + unit)
| GRemove (path : bytes) : FsCall (ErrorCode + unit)
| GRmdir (path : bytes) : FsCall (ErrorCode + unit)
| HMetadata (path : bytes) : FsCall (ErrorCode + Metadata)
| HReadLink (path : bytes) : FsCall (ErrorCode + bytes)
| HHash (path : bytes) : FsCall (ErrorCode + bytes)
| HRemoveFile (path : bytes) : FsCall (ErrorCode + unit)
| HRemoveDir (path : bytes) : FsCall (ErrorCode + unit)
| HCreateDir (path : bytes) : FsCall (ErrorCode + unit)
| HIsDir (path : bytes) : FsCall bool
| HCreateParents (path : bytes) : FsCall (ErrorCode + unit)
| HTempBeside (path : bytes) : FsCall (ErrorCode + bytes)
| HSymlink (target link : bytes) : FsCall (ErrorCode + unit)
| HRename (from to : bytes) : FsCall (ErrorCode + unit).

Definition io := prog FsCall.
Notation trace := (list (event FsCall)).

Inductive Why :=
| Io (e : ErrorCode)
| NoPrecondition
| Appeared
| Disappeared
| KindChanged
| Changed
| NoDigest
| ContentsChanged
| ChangedWhileVerifying
| SourceChanged
| NothingThere
| NotCaseSensitive.

(** [call(..)?]. *)
Definition io_call {X} (c : FsCall (ErrorCode + X)) : io (Why + X) :=
  r ⇐ call c; Done match r with inl e => inl (Io e) | inr x => inr x end.
(** [let _ = call(..)]. *)
Definition io_ignore {X} (c : FsCall X) : io unit := _ ⇐ call c; Done tt.
Definition ensure (b : bool) (w : Why) : io (Why + unit) := Done (if b then inr tt else inl w).

(** ** Where things are *)

Record Target := mkTarget { t_host_root : bytes; t_guest_root : bytes; t_case_sensitive_dirs : bool }.

Definition is_slash (c : Z) : bool := (c =? 47) || (c =? 92).
Fixpoint trim_slashes_rev (s : bytes) : bytes :=
  match s with c :: r => if is_slash c then trim_slashes_rev r else s | [] => [] end.
Definition join_guest (root rel : bytes) : bytes :=
  match rel with [] => root | _ => rev (trim_slashes_rev (rev root)) ++ [47] ++ rel end.
(** [Path::join] of a relative path. *)
Definition join_host (root rel : bytes) : bytes :=
  match rev root with
  | c :: _ => if c =? 47 then root ++ rel else root ++ [47] ++ rel
  | [] => rel
  end.
(** [".vmlab-sync."]. *)
Definition TEMP_PREFIX : bytes := [46; 118; 109; 108; 97; 98; 45; 115; 121; 110; 99; 46].

Section apply.
Context (sha256_hex : bytes → bytes).

Definition digest_of_target (target : bytes) : bytes := sha256_hex target.

(** The bytes up to and with the last slash of either kind. *)
Fixpoint up_to_slash (rev_path : bytes) : bytes :=
  match rev_path with c :: r => if is_slash c then rev rev_path else up_to_slash r | [] => [] end.
Definition temp_beside (guest_path : bytes) : bytes :=
  up_to_slash (rev guest_path) ++ TEMP_PREFIX ++ take 16 (sha256_hex guest_path).

Section at_target.
Context (t : Target).
Definition guest_at (path : bytes) : bytes := join_guest (t_guest_root t) path.
Definition host_at (path : bytes) : bytes := join_host (t_host_root t) path.

(** ** Looking *)

Definition host_size (m : Metadata) (path : bytes) (k : Kind) : io Z :=
  match k with
  | Symlink => r ⇐ call (HReadLink path); Done match r with inr target => len target | inl _ => 0 end
  | _ => Done (md_len m)
  end.

Definition receiving_side (path : bytes) (d : Direction) (k : Kind) : io (Why + Side) :=
  match d with
  | ToGuest =>
      a ⇐? io_call (GLstat (guest_at path));
      Done match a with Some a => inr (mkSide (at_size a) (at_mtime a)) | None => inl NothingThere end
  | ToHost =>
      m ⇐? io_call (HMetadata (host_at path));
      size ⇐ host_size m (host_at path) k;
      Done (inr (mkSide size (md_mtime m)))
  end.

(** The first match of [verify_copy]. *)
Definition current_of (path : bytes) (d : Direction) : io (Why + option (option Kind * Side)) :=
  match d with
  | ToGuest =>
      a ⇐? io_call (GLstat (guest_at path));
      Done (inr ((λ a, (Kind_of (at_kind a), mkSide (at_size a) (at_mtime a))) <$> a))
  | ToHost =>
      r ⇐ call (HMetadata (host_at path));
      match r with
      | inl NotFound => Done (inr None)
      | inl e => Done (inl (Io e))
      | inr m =>
          size ⇐ match md_kind m with Some k => host_size m (host_at path) k | None => Done (md_len m) end;
          Done (inr (Some (md_kind m, mkSide size (md_mtime m))))
      end
  end.

Definition verify_host_contents (path : bytes) (k : Kind) (digest : bytes) : io (Why + unit) :=
  actual ⇐? match k with
            | Symlink => target ⇐? io_call (HReadLink path); Done (inr (digest_of_target target))
            | _ => io_call (HHash path)
            end;
  ensure (bool_decide (actual = digest)) ContentsChanged.

(** The second match of [verify_copy]: the content against a digest. *)
Definition verify_contents (path : bytes) (d : Direction) (k : Kind) (digest : bytes) : io (Why + unit) :=
  match d with
  | ToHost => verify_host_contents (host_at path) k digest
  | ToGuest =>
      actual ⇐? match k with
                | Symlink => target ⇐? io_call (GReadlink (guest_at path)); Done (inr (digest_of_target target))
                | _ => io_call (GDigest (guest_at path))
                end;
      ensure (bool_decide (actual = digest)) ContentsChanged
  end.

Definition verify_copy (path : bytes) (d : Direction) (expected : option State) : io (Why + unit) :=
  current ⇐? current_of path d;
  match expected with
  | None => ensure (bool_decide (current = None)) Appeared
  | Some s =>
      match current with
      | None => Done (inl Disappeared)
      | Some (kind, side) =>
          if negb (bool_decide (kind = Some (st_kind s))) then Done (inl KindChanged)
          else if bool_decide (st_kind s = Dir) then Done (inr tt)
          else if negb (bool_decide (side = st_side s)) then Done (inl Changed)
          else
            match st_digest s with
            | None => Done (inl NoDigest)
            | Some digest =>
                _ ⇐? verify_contents path d (st_kind s) digest;
                again ⇐? receiving_side path d (st_kind s);
                ensure (bool_decide (again = side)) ChangedWhileVerifying
            end
      end
  end.

Definition vouched (k : Kind) (digest : bytes) (side : Side) : State :=
  mkState k (s_size side) (s_mtime_ns side) (Some digest) None false.

Definition verified_receiving_side (path : bytes) (d : Direction) (k : Kind) (digest : bytes) : io (Why + Side) :=
  side ⇐? receiving_side path d k;
  _ ⇐? verify_copy path d (Some (vouched k digest side));
  Done (inr side).

(** ** Placing *)

Inductive Landed := Removed | LeftStanding | Placed (k : Kind) (digest : bytes) (side : Side).
Record Failure := mkFailure { f_path : bytes; f_why : Why }.
Inductive Placing := PFile | PSymlink (target : bytes) (dir : bool).

Definition make_dir (guest_path : bytes) (degraded : list Failure) : io ((Why + unit) * list Failure) :=
  r ⇐ io_call (GMkdir guest_path (t_case_sensitive_dirs t));
  match r with
  | inr _ => Done (inr tt, degraded)
  | inl refused =>
      if negb (t_case_sensitive_dirs t) then Done (inl refused, degraded)
      else
        r ⇐ io_call (GMkdir guest_path false);
        match r with
        | inl _ => Done (inl refused, degraded)
        | inr _ => Done (inr tt, degraded ++ [mkFailure guest_path NotCaseSensitive])
        end
  end.

Definition place_in_guest (a : Action) (guest_path : bytes) (what : Placing) (expected : option State) : io (Why + unit) :=
  let rel := path_of a in
  let temp := temp_beside guest_path in
  let clean_up (e : Why) : io (Why + unit) := _ ⇐ io_ignore (GRemove temp); Done (inl e) in
  _ ⇐ io_ignore (GRemove temp);
  written ⇐ match what with
            | PFile => io_call (GPush (host_at rel) temp)
            | PSymlink link dir => io_call (GSymlink link temp (if dir then DirLink else FileLink))
            end;
  match written with
  | inl e => clean_up e
  | inr _ =>
      checked ⇐ (_ ⇐? match a with
                      | PutFile _ _ _ digest =>
                          got ⇐? io_call (GDigest temp);
                          ensure (bool_decide (got = digest)) SourceChanged
                      | _ => Done (inr tt)
                      end;
                 verify_copy rel ToGuest expected);
      match checked with
      | inl e => clean_up e
      | inr _ =>
          renamed ⇐ io_call (GRename temp guest_path);
          match renamed with
          | inl e => clean_up e
          | inr _ => Done (inr tt)
          end
      end
  end.

(** [TempPath] removes its file when it is dropped. *)
Definition place_on_host (host_path : bytes) (write : bytes → io (Why + unit)) : io (Why + unit) :=
  _ ⇐? io_call (HCreateParents host_path);
  temp ⇐? io_call (HTempBeside host_path);
  let drop_with (r : Why + unit) : io (Why + unit) := _ ⇐ io_ignore (HRemoveFile temp); Done r in
  cleared ⇐ io_call (HRemoveFile temp);
  match cleared with
  | inl e => drop_with (inl e)
  | inr _ =>
      written ⇐ write temp;
      match written with
      | inl e => _ ⇐ io_ignore (HRemoveFile temp); drop_with (inl e)
      | inr _ =>
          renamed ⇐ io_call (HRename temp host_path);
          match renamed with
          | inl e => _ ⇐ io_ignore (HRemoveFile temp); drop_with (inl e)
          | inr _ => drop_with (inr tt)
          end
      end
  end.

Definition is_not_empty (e : Why) : bool := match e with Io NotEmpty => true | _ => false end.

Definition into_guest (a : Action) (expected : option State) (degraded : list Failure)
    : io ((Why + Landed) * list Failure) :=
  let guest_path := guest_at (path_of a) in
  match a with
  | Remove _ _ kind =>
      removed ⇐ match kind with Dir => io_call (GRmdir guest_path) | _ => io_call (GRemove guest_path) end;
      Done (match removed with
            | inr _ => inr Removed
            | inl e => if is_not_empty e then inr LeftStanding else inl e
            end, degraded)
  | MakeDir _ _ side =>
      r ⇐ make_dir guest_path degraded;
      Done (match r.1 with inr _ => inr (Placed Dir [] side) | inl e => inl e end, r.2)
  | PutFile _ _ side digest =>
      r ⇐ place_in_guest a guest_path PFile expected;
      Done (match r with inr _ => inr (Placed File digest side) | inl e => inl e end, degraded)
  | PutSymlink _ _ link side digest dir =>
      r ⇐ place_in_guest a guest_path (PSymlink link dir) expected;
      Done (match r with inr _ => inr (Placed Symlink digest side) | inl e => inl e end, degraded)
  end.

Definition onto_host (a : Action) (expected : option State) : io (Why + Landed) :=
  let path := path_of a in
  let host_path := host_at path in
  match a with
  | Remove _ _ kind =>
      removed ⇐ match kind with Dir => call (HRemoveDir host_path) | _ => call (HRemoveFile host_path) end;
      Done match removed with
           | inr _ | inl NotFound => inr Removed
           | inl NotEmpty => inr LeftStanding
           | inl e => inl (Io e)
           end
  | MakeDir _ _ side =>
      made ⇐ call (HCreateDir host_path);
      match made with
      | inr _ => Done (inr (Placed Dir [] side))
      | inl e =>
          is_dir ⇐ call (HIsDir host_path);
          Done (if (is_dir : bool) then inr (Placed Dir [] side) else inl (Io e))
      end
  | PutFile _ _ side digest =>
      r ⇐ place_on_host host_path (λ temp,
            _ ⇐? io_call (GPull (guest_at path) temp);
            _ ⇐? verify_host_contents temp File digest;
            verify_copy path ToHost expected);
      Done match r with inr _ => inr (Placed File digest side) | inl e => inl e end
  | PutSymlink _ _ link side digest _ =>
      r ⇐ place_on_host host_path (λ temp,
            _ ⇐? io_call (HSymlink link temp);
            verify_copy path ToHost expected);
      Done match r with inr _ => inr (Placed Symlink digest side) | inl e => inl e end
  end.

(** ** The pass *)

Record Counts := mkCounts { n_placed : Z; n_removed : Z }.
Record Applied := mkApplied {
  to_guest : Counts;
  to_host : Counts;
  adopted : Z;
  left_standing : list bytes;
  symlinks_refused : list Failure;
  case_insensitive_dirs : list Failure;
  failures : list Failure }.
Definition Applied_default : Applied := mkApplied (mkCounts 0 0) (mkCounts 0 0) 0 [] [] [] [].

Definition fail (path : bytes) (w : Why) (x : Applied) : Applied :=
  mkApplied (to_guest x) (to_host x) (adopted x) (left_standing x) (symlinks_refused x) (case_insensitive_dirs x)
    (failures x ++ [mkFailure path w]).
Definition refuse_link (path : bytes) (w : Why) (x : Applied) : Applied :=
  mkApplied (to_guest x) (to_host x) (adopted x) (left_standing x) (symlinks_refused x ++ [mkFailure path w])
    (case_insensitive_dirs x) (failures x).
Definition count_adopted (x : Applied) : Applied :=
  mkApplied (to_guest x) (to_host x) (adopted x + 1) (left_standing x) (symlinks_refused x) (case_insensitive_dirs x) (failures x).
Definition leave (path : bytes) (x : Applied) : Applied :=
  mkApplied (to_guest x) (to_host x) (adopted x) (left_standing x ++ [path]) (symlinks_refused x) (case_insensitive_dirs x) (failures x).
Definition set_degraded (l : list Failure) (x : Applied) : Applied :=
  mkApplied (to_guest x) (to_host x) (adopted x) (left_standing x) (symlinks_refused x) l (failures x).
Definition count (d : Direction) (placed removed : Z) (x : Applied) : Applied :=
  let bump c := mkCounts (n_placed c + placed) (n_removed c + removed) in
  match d with
  | ToGuest => mkApplied (bump (to_guest x)) (to_host x) (adopted x) (left_standing x) (symlinks_refused x) (case_insensitive_dirs x) (failures x)
  | ToHost => mkApplied (to_guest x) (bump (to_host x)) (adopted x) (left_standing x) (symlinks_refused x) (case_insensitive_dirs x) (failures x)
  end.

(** What the pass changes: the preconditions left, the ledger's entries, the report. *)
Record Pass := mkPass { ps_expected : gmap bytes (option State); ps_entries : gmap bytes Agreed; ps_done : Applied }.

Definition adopt_one (pa : bytes * Agreed) (p : Pass) : io Pass :=
  let '(path, agreed) := pa in
  checked ⇐ (_ ⇐? verify_copy path ToHost (Some (vouched (a_kind agreed) (a_digest agreed) (a_host agreed)));
             verify_copy path ToGuest (Some (vouched (a_kind agreed) (a_digest agreed) (a_guest agreed))));
  Done match checked with
       | inl e => mkPass (ps_expected p) (ps_entries p) (fail path e (ps_done p))
       | inr _ => mkPass (ps_expected p) (<[path := agreed]> (ps_entries p)) (count_adopted (ps_done p))
       end.

Definition refused_symlink (a : Action) : bool :=
  match a with PutSymlink d _ _ _ _ _ => source_is_host d | _ => false end.

Definition land (a : Action) (before : option State) (p : Pass) : io ((Why + Landed) * Pass) :=
  match direction a with
  | ToGuest =>
      r ⇐ into_guest a before (case_insensitive_dirs (ps_done p));
      Done (r.1, mkPass (ps_expected p) (ps_entries p) (set_degraded r.2 (ps_done p)))
  | ToHost => r ⇐ onto_host a before; Done (r, p)
  end.

Definition record_landed (a : Action) (landed : Why + Landed) (p : Pass) : io Pass :=
  let path := path_of a in
  let d := direction a in
  match landed with
  | inr Removed =>
      Done (mkPass (<[path := None]> (ps_expected p)) (delete path (ps_entries p)) (count d 0 1 (ps_done p)))
  | inr LeftStanding => Done (mkPass (ps_expected p) (delete path (ps_entries p)) (leave path (ps_done p)))
  | inr (Placed kind digest side) =>
      other ⇐ verified_receiving_side path d kind digest;
      Done match other with
           | inr other =>
               let '(h, g) := if source_is_host d then (side, other) else (other, side) in
               mkPass (ps_expected p) (<[path := mkAgreed kind digest h g]> (ps_entries p)) (count d 1 0 (ps_done p))
           | inl e => mkPass (ps_expected p) (delete path (ps_entries p)) (fail path e (ps_done p))
           end
  | inl e =>
      Done (mkPass (ps_expected p) (ps_entries p)
              (if refused_symlink a then refuse_link path e (ps_done p) else fail path e (ps_done p)))
  end.

Definition act_one (a : Action) (p : Pass) : io Pass :=
  let path := path_of a in
  match ps_expected p !! path with
  | None => Done (mkPass (ps_expected p) (ps_entries p) (fail path NoPrecondition (ps_done p)))
  | Some before =>
      checked ⇐ verify_copy path (direction a) before;
      match checked with
      | inl e => Done (mkPass (ps_expected p) (ps_entries p) (fail path e (ps_done p)))
      | inr _ =>
          landed ⇐ land a before p;
          record_landed a landed.1 landed.2
      end
  end.

Definition apply (plan : Plan) (l : Ledger) : io (Ledger * Applied) :=
  p ⇐ pfor adopt_one (adopt plan) (mkPass (expected plan) (entries l) Applied_default);
  let p := mkPass (ps_expected p) (foldl (λ m path, delete path m) (ps_entries p) (forget plan)) (ps_done p) in
  p ⇐ pfor act_one (actions plan) p;
  Done (set_entries l (ps_entries p), ps_done p).
End at_target.
End apply.

(** ** What a verification saw *)

Section facts.
Context (sha256_hex : bytes → bytes) (t : Target).
Implicit Types (path : bytes) (tr pre seg post : trace).
Notation gp path := (guest_at t path).
Notation hp path := (host_at t path).

Definition side_of (a : Attrs) : Side := mkSide (at_size a) (at_mtime a).
Definition link_len (r : ErrorCode + bytes) : Z := match r with inr target => len target | inl _ => 0 end.

(** The copy at [path] on the side [d] lands on was seen with this kind, this
    digest and, before and after its content was read, this size and time. *)
Inductive observed path : Direction → Kind → bytes → Side → trace → Prop :=
| obs_guest_dir digest side a :
    Kind_of (at_kind a) = Some Dir →
    observed path ToGuest Dir digest side [Ev (GLstat (gp path)) (inr (Some a))]
| obs_guest_file digest side a b :
    Kind_of (at_kind a) = Some File → side_of a = side → side_of b = side →
    observed path ToGuest File digest side
      [Ev (GLstat (gp path)) (inr (Some a)); Ev (GDigest (gp path)) (inr digest); Ev (GLstat (gp path)) (inr (Some b))]
| obs_guest_link target side a b :
    Kind_of (at_kind a) = Some Symlink → side_of a = side → side_of b = side →
    observed path ToGuest Symlink (sha256_hex target) side
      [Ev (GLstat (gp path)) (inr (Some a)); Ev (GReadlink (gp path)) (inr target); Ev (GLstat (gp path)) (inr (Some b))]
| obs_host_dir digest side m :
    md_kind m = Some Dir →
    observed path ToHost Dir digest side [Ev (HMetadata (hp path)) (inr m)]
| obs_host_file digest side m n :
    md_kind m = Some File → mkSide (md_len m) (md_mtime m) = side → mkSide (md_len n) (md_mtime n) = side →
    observed path ToHost File digest side
      [Ev (HMetadata (hp path)) (inr m); Ev (HHash (hp path)) (inr digest); Ev (HMetadata (hp path)) (inr n)]
| obs_host_link target side m n r s :
    md_kind m = Some Symlink → mkSide (link_len r) (md_mtime m) = side → mkSide (link_len s) (md_mtime n) = side →
    observed path ToHost Symlink (sha256_hex target) side
      [Ev (HMetadata (hp path)) (inr m); Ev (HReadLink (hp path)) r; Ev (HReadLink (hp path)) (inr target);
       Ev (HMetadata (hp path)) (inr n); Ev (HReadLink (hp path)) s].

(** Nothing was seen there. *)
Inductive absent path : Direction → trace → Prop :=
| absent_guest : absent path ToGuest [Ev (GLstat (gp path)) (inr None)]
| absent_host : absent path ToHost [Ev (HMetadata (hp path)) (inl NotFound)].

(** A precondition was checked and holds. *)
Definition checked path (d : Direction) (expected : option State) seg : Prop :=
  match expected with
  | None => absent path d seg
  | Some s => ∃ digest, (st_kind s = Dir ∨ st_digest s = Some digest) ∧ observed path d (st_kind s) digest (st_side s) seg
  end.

(** Take the next call off a trace. *)
Ltac next H :=
  let x := fresh "x" in let tr' := fresh "tr" in
  simpl in H; destruct H as (x & tr' & -> & H); simpl in H.
Ltac finish H := simpl in H; destruct H as [-> H].

Lemma runs_receiving_side path d k seg side :
  runs (receiving_side t path d k) seg (inr side) →
  match d, k with
  | ToGuest, _ => ∃ a, seg = [Ev (GLstat (gp path)) (inr (Some a))] ∧ side = side_of a
  | ToHost, Symlink => ∃ m r, seg = [Ev (HMetadata (hp path)) (inr m); Ev (HReadLink (hp path)) r] ∧
                              side = mkSide (link_len r) (md_mtime m)
  | ToHost, _ => ∃ m, seg = [Ev (HMetadata (hp path)) (inr m)] ∧ side = mkSide (md_len m) (md_mtime m)
  end.
Proof.
  unfold receiving_side. destruct d; intros H; next H.
  - destruct x as [e|[a|]]; finish H; simplify_eq. by exists a.
  - destruct x as [e|m]; [finish H; done|]. unfold host_size in H. destruct k.
    + finish H. simplify_eq. by exists m.
    + finish H. simplify_eq. by exists m.
    + next H. finish H. simplify_eq. by exists m, x.
Qed.

Lemma runs_verify_contents path d k digest seg :
  k ≠ Dir → runs (verify_contents sha256_hex t path d k digest) seg (inr tt) →
  match d, k with
  | ToGuest, Symlink => ∃ target, seg = [Ev (GReadlink (gp path)) (inr target)] ∧ digest = sha256_hex target
  | ToGuest, _ => seg = [Ev (GDigest (gp path)) (inr digest)]
  | ToHost, Symlink => ∃ target, seg = [Ev (HReadLink (hp path)) (inr target)] ∧ digest = sha256_hex target
  | ToHost, _ => seg = [Ev (HHash (hp path)) (inr digest)]
  end.
Proof.
  intros Hk. unfold verify_contents, verify_host_contents, ensure. destruct d, k; try done; intros H; next H;
    (destruct x as [e|x]; finish H; [done|]); case_bool_decide as Hd; simplify_eq; eauto.
Qed.

Lemma runs_current_of path d seg c :
  runs (current_of t path d) seg (inr c) →
  match c with
  | None => absent path d seg
  | Some (k, side) =>
      match d with
      | ToGuest => ∃ a, seg = [Ev (GLstat (gp path)) (inr (Some a))] ∧ k = Kind_of (at_kind a) ∧ side = side_of a
      | ToHost =>
          ∃ m, k = md_kind m ∧
            if bool_decide (k = Some Symlink)
            then ∃ r, seg = [Ev (HMetadata (hp path)) (inr m); Ev (HReadLink (hp path)) r] ∧ side = mkSide (link_len r) (md_mtime m)
            else seg = [Ev (HMetadata (hp path)) (inr m)] ∧ side = mkSide (md_len m) (md_mtime m)
      end
  end.
Proof.
  unfold current_of. destruct d; intros H; next H.
  - destruct x as [e|[a|]]; finish H; simplify_eq/=; [by exists a|constructor].
  - destruct x as [[]|m]; [finish H; simplify_eq; constructor|finish H; done..|].
    destruct (md_kind m) as [[]|] eqn:Hk; [finish H|finish H|next H; finish H|finish H]; simplify_eq; exists m; rewrite Hk;
      (split; [done|]); try done. simpl. by exists x.
Qed.

Lemma verify_copy_checked path d expected seg :
  runs (verify_copy sha256_hex t path d expected) seg (inr tt) → checked path d expected seg.
Proof.
  unfold verify_copy. intros (s1 & s2 & c & -> & Hc & H)%runs_bind.
  destruct c as [e|c]; [finish H; done|]. apply runs_current_of in Hc.
  destruct expected as [s|].
  2: { unfold ensure in H. finish H. rewrite app_nil_r. destruct c as [c|]; [by case_bool_decide|done]. }
  destruct c as [[k side]|]; [|finish H; done].
  case_bool_decide as Hk; [|finish H; done]. simpl in H. subst k.
  case_bool_decide as Hdir.
  { finish H. rewrite app_nil_r. exists []. rewrite Hdir in *. split; [by left|].
    destruct d; [destruct Hc as (a & -> & ? & _); by constructor|].
    destruct Hc as (m & ? & Hc). rewrite bool_decide_false in Hc by done. destruct Hc as [-> _]. by constructor. }
  case_bool_decide as Hside; [|finish H; done]. simpl in H. subst side.
  destruct (st_digest s) as [digest|] eqn:Hdg; [|finish H; done].
  apply runs_bind in H as (s3 & s4 & r & -> & Hv & H). destruct r as [e|[]]; [finish H; done|].
  apply runs_bind in H as (s5 & s6 & r & -> & Hr & H). destruct r as [e|side]; [finish H; done|].
  unfold ensure in H. finish H. destruct (bool_decide_reflect (side = st_side s)) as [->|]; [|done]. rewrite app_nil_r.
  apply runs_verify_contents in Hv; [|done]. apply runs_receiving_side in Hr. exists digest. split; [by right|].
  destruct d, (st_kind s) eqn:Hks; try done.
  - destruct Hc as (a & -> & ? & ?), Hr as (b & -> & ?). subst s3. by constructor.
  - destruct Hc as (a & -> & ? & ?), Hr as (b & -> & ?), Hv as (tgt & -> & ->). by constructor.
  - destruct Hc as (a & ? & Hc), Hr as (b & -> & ?). rewrite bool_decide_false in Hc by done. destruct Hc as [-> ?].
    subst s3. by constructor.
  - destruct Hc as (a & ? & Hc), Hr as (b & r & -> & ?), Hv as (tgt & -> & ->). rewrite bool_decide_true in Hc by done.
    destruct Hc as (r' & -> & ?). by constructor.
Qed.

(** ** Only checked destinations are touched *)

(** Calls that change neither copy. *)
Definition looks (ev : event FsCall) : bool :=
  match ev with
  | Ev e _ =>
      match e with
      | GLstat _ | GReadlink _ | GDigest _ | HMetadata _ | HReadLink _ | HHash _ | HIsDir _ => true
      | _ => false
      end
  end.

(** The name was handed out by [tempfile] before. *)
Definition reserved pre (temp : bytes) : Prop := ∃ p, Ev (HTempBeside p) (inr temp) ∈ pre.

(** What carrying [a] out may do to the side it lands on, [before] being the
    destination's precondition: work under a temporary name, and touch the
    destination itself only right after it was checked. *)
Definition permitted (a : Action) (before : option State) pre (ev : event FsCall) : Prop :=
  let g := gp (path_of a) in
  let h := hp (path_of a) in
  let temp := temp_beside sha256_hex g in
  let guarded := ∃ p0 seg, pre = p0 ++ seg ∧ checked (path_of a) (direction a) before seg in
  match ev with
  | Ev e _ =>
      match e with
      | GRename from to => direction a = ToGuest ∧ is_removal a = false ∧ from = temp ∧ to = g ∧ guarded
      | GRemove p => direction a = ToGuest ∧ (if is_removal a then p = g ∧ guarded else p = temp)
      | GRmdir p => direction a = ToGuest ∧ is_removal a = true ∧ p = g ∧ guarded
      | GPush from to => direction a = ToGuest ∧ from = h ∧ to = temp
      | GSymlink _ link _ => direction a = ToGuest ∧ link = temp
      | GMkdir p _ => direction a = ToGuest ∧ p = g
      | GPull from to => direction a = ToHost ∧ from = g ∧ reserved pre to
      | HSymlink _ link => direction a = ToHost ∧ reserved pre link
      | HRename from to => direction a = ToHost ∧ is_removal a = false ∧ reserved pre from ∧ to = h ∧ guarded
      | HRemoveFile p => direction a = ToHost ∧ (if is_removal a then p = h ∧ guarded else reserved pre p)
      | HRemoveDir p => direction a = ToHost ∧ is_removal a = true ∧ p = h ∧ guarded
      | HCreateDir p | HCreateParents p | HTempBeside p => direction a = ToHost ∧ p = h
      | _ => True
      end
  end.

Definition only_looks {A} (m : io A) : Prop := ∀ pre, safe (λ _ ev, looks ev = true) pre m.

Lemma only_looks_bind {A B} (m : io A) (f : A → io B) : only_looks m → (∀ a, only_looks (f a)) → only_looks (pbind m f).
Proof. intros Hm Hf pre. apply safe_bind; [apply Hm|]. intros tr a _. apply Hf. Qed.
Lemma only_looks_call {X} (c : FsCall (ErrorCode + X)) : (∀ x, looks (Ev c x) = true) → only_looks (io_call c).
Proof. intros Hc pre x. split; [exact (Hc x)|done]. Qed.
Lemma only_looks_call' {X} (c : FsCall X) : (∀ x, looks (Ev c x) = true) → only_looks (call c).
Proof. intros Hc pre x. split; [exact (Hc x)|done]. Qed.
Lemma only_looks_done {A} (a : A) : only_looks (Done a).
Proof. done. Qed.

Lemma only_looks_ensure b w : only_looks (ensure b w).
Proof. done. Qed.

Create HintDb looks.
Hint Resolve only_looks_done only_looks_ensure only_looks_call only_looks_call' : looks.
Ltac looking :=
  repeat (first [by auto with looks|apply only_looks_bind; [|intros ?]|progress case_match]).

Lemma receiving_side_looks path d k : only_looks (receiving_side t path d k).
Proof. unfold receiving_side, host_size. looking. Qed.
Lemma current_of_looks path d : only_looks (current_of t path d).
Proof. unfold current_of, host_size. looking. Qed.
Lemma verify_host_contents_looks p k digest : only_looks (verify_host_contents sha256_hex p k digest).
Proof. unfold verify_host_contents. looking. Qed.
Lemma verify_contents_looks path d k digest : only_looks (verify_contents sha256_hex t path d k digest).
Proof. unfold verify_contents. destruct d; [looking|apply verify_host_contents_looks]. Qed.
Hint Resolve receiving_side_looks current_of_looks verify_contents_looks verify_host_contents_looks : looks.
Lemma verify_copy_looks path d expected : only_looks (verify_copy sha256_hex t path d expected).
Proof. unfold verify_copy. looking. Qed.
Hint Resolve verify_copy_looks : looks.
Lemma verified_receiving_side_looks path d k digest : only_looks (verified_receiving_side sha256_hex t path d k digest).
Proof. unfold verified_receiving_side. looking. Qed.

(** What the calls of one action may be. *)
Definition allowed (a : Action) (before : option State) pre (ev : event FsCall) : Prop :=
  looks ev = true ∨ permitted a before pre ev.
Definition guarded (a : Action) (before : option State) pre : Prop :=
  ∃ p0 seg, pre = p0 ++ seg ∧ checked (path_of a) (direction a) before seg.

Lemma looks_allowed {A} a before pre (m : io A) : only_looks m → safe (allowed a before) pre m.
Proof. intros Hm. eapply safe_weaken; [|apply Hm]. intros p ev ?. by left. Qed.
Lemma call_allowed {X} a before pre (c : FsCall (ErrorCode + X)) :
  (∀ x, permitted a before pre (Ev c x)) → safe (allowed a before) pre (io_call c).
Proof. intros Hc x. split; [right; exact (Hc x)|done]. Qed.
Lemma raw_allowed {X} a before pre (c : FsCall X) :
  (∀ x, permitted a before pre (Ev c x)) → safe (allowed a before) pre (call c).
Proof. intros Hc x. split; [right; exact (Hc x)|done]. Qed.
Lemma ignore_allowed {X} a before pre (c : FsCall X) :
  (∀ x, permitted a before pre (Ev c x)) → safe (allowed a before) pre (io_ignore c).
Proof. intros Hc x. split; [right; exact (Hc x)|done]. Qed.

Lemma place_in_guest_allowed a what before pre :
  direction a = ToGuest → is_removal a = false →
  safe (allowed a before) pre (place_in_guest sha256_hex t a (gp (path_of a)) what before).
Proof.
  intros Hd Hr. unfold place_in_guest. set (temp := temp_beside sha256_hex (gp (path_of a))).
  assert (∀ pre, safe (allowed a before) pre (io_ignore (GRemove temp))) as Hrm.
  { intros pre'. apply ignore_allowed. intros x. simpl. rewrite Hr. done. }
  assert (∀ e pre, safe (allowed a before) pre (_ ⇐ io_ignore (GRemove temp); Done (inl e : Why + unit))) as Hclean.
  { intros e pre'. by apply safe_bind. }
  apply safe_bind; [apply Hrm|]. intros tr0 _ _. apply safe_bind.
  { destruct what; apply call_allowed; intros x; simpl; by rewrite Hd. }
  intros tr1 [e|[]] _; [apply Hclean|]. apply safe_bind.
  { apply looks_allowed. looking. }
  intros tr2 [e|[]] Hck; [apply Hclean|]. apply safe_bind; [|intros tr3 [e|[]] _; [apply Hclean|done]].
  apply call_allowed. intros x. simpl. split_and!; try done.
  apply runs_bind in Hck as (s1 & s2 & r & -> & _ & Hck). destruct r as [e|[]]; [finish Hck; done|].
  apply verify_copy_checked in Hck. rewrite Hd. eexists _, s2. split; [by rewrite !app_assoc|done].
Qed.

Lemma place_on_host_allowed a before pre write :
  direction a = ToHost → is_removal a = false →
  (∀ temp pre, reserved pre temp → safe (allowed a before) pre (write temp)) →
  (∀ temp tr, runs (write temp) tr (inr tt) → ∃ s1 s2, tr = s1 ++ s2 ∧ checked (path_of a) ToHost before s2) →
  safe (allowed a before) pre (place_on_host (hp (path_of a)) write).
Proof.
  intros Hd Hr Hw Hck. unfold place_on_host.
  apply safe_bind; [apply call_allowed; by intros x|]. intros tr0 [e|[]] _; [done|].
  apply safe_bind; [apply call_allowed; by intros x|]. intros tr1 [e|temp] Ht; [done|].
  assert (reserved tr1 temp) as Hres.
  { unfold io_call in Ht. next Ht. finish Ht. destruct x as [e|x]; simplify_eq. exists (hp (path_of a)). by left. }
  assert (∀ p q, reserved (p ++ tr1 ++ q) temp) as Hres'.
  { destruct Hres as [p Hp]. intros q1 q2. exists p. rewrite !elem_of_app. auto. }
  assert (∀ q, safe (allowed a before) ((pre ++ tr0) ++ tr1 ++ q) (io_ignore (HRemoveFile temp))) as Hrm.
  { intros q. apply ignore_allowed. intros x. simpl. rewrite Hr. auto. }
  assert (∀ q (r : Why + unit), safe (allowed a before) ((pre ++ tr0) ++ tr1 ++ q) (_ ⇐ io_ignore (HRemoveFile temp); Done r)) as Hdrop.
  { intros q r. by apply safe_bind. }
  assert (∀ q (r : Why + unit), safe (allowed a before) ((pre ++ tr0) ++ tr1 ++ q)
            (_ ⇐ io_ignore (HRemoveFile temp); _ ⇐ io_ignore (HRemoveFile temp); Done r)) as Hdrop2.
  { intros q r. apply safe_bind; [apply Hrm|]. intros q' _ _. rewrite <-!app_assoc, (app_assoc pre). apply Hdrop. }
  rewrite <-(app_nil_r tr1). apply safe_bind.
  { apply call_allowed. intros x. simpl. rewrite Hr. auto. }
  intros tr2 [e|[]] _; rewrite <-!app_assoc, (app_assoc pre); simpl app; [apply Hdrop|].
  apply safe_bind; [by apply Hw|]. intros tr3 [e|[]] Hwr; rewrite <-!app_assoc, (app_assoc pre); [apply Hdrop2|].
  apply safe_bind.
  - apply call_allowed. intros x. simpl. split_and!; try done. apply Hck in Hwr as (s1 & s2 & -> & Hs). rewrite Hd.
    exists ((pre ++ tr0) ++ tr1 ++ tr2 ++ s1), s2. split; [by rewrite <-!app_assoc|done].
  - intros tr4 [e|[]] _; rewrite <-!app_assoc, (app_assoc pre); [apply Hdrop2|apply Hdrop].
Qed.

Lemma into_guest_allowed a before deg pre :
  direction a = ToGuest → guarded a before pre → safe (allowed a before) pre (into_guest sha256_hex t a before deg).
Proof.
  intros Hd Hg. unfold into_guest.
  destruct a as [d p side|d p side dg|d p tgt side dg dl|d p k]; simpl in Hd; subst d; (apply safe_bind; [|done]).
  - unfold make_dir. apply safe_bind; [by apply call_allowed|]. intros tr [e|[]] _; [|done]. destruct (negb _); [done|].
    apply safe_bind; [by apply call_allowed|]. intros tr' [e'|[]] _; done.
  - by apply place_in_guest_allowed.
  - by apply place_in_guest_allowed.
  - destruct k; apply call_allowed; by intros x.
Qed.

Lemma onto_host_allowed a before pre :
  direction a = ToHost → guarded a before pre → safe (allowed a before) pre (onto_host sha256_hex t a before).
Proof.
  intros Hd Hg. unfold onto_host.
  destruct a as [d p side|d p side dg|d p tgt side dg dl|d p k]; simpl in Hd; subst d; (apply safe_bind; [|]).
  - by apply raw_allowed.
  - intros tr [e|[]] _; [|done]. apply safe_bind; [|done]. apply looks_allowed. looking.
  - apply place_on_host_allowed; [done..| |].
    + intros temp p' Hres. apply safe_bind; [by apply call_allowed|]. intros tr [e|[]] _; [done|].
      apply looks_allowed. looking.
    + intros temp tr (s1 & s2 & r & -> & _ & H)%runs_bind. destruct r as [e|[]]; [finish H; done|].
      apply runs_bind in H as (s3 & s4 & r & -> & _ & H). destruct r as [e|[]]; [finish H; done|].
      exists (s1 ++ s3), s4. split; [by rewrite app_assoc|]. by apply verify_copy_checked.
  - done.
  - apply place_on_host_allowed; [done..| |].
    + intros temp p' Hres. apply safe_bind; [by apply call_allowed|]. intros tr [e|[]] _; [done|].
      apply looks_allowed. looking.
    + intros temp tr (s1 & s2 & r & -> & _ & H)%runs_bind. destruct r as [e|[]]; [finish H; done|].
      exists s1, s2. split; [done|]. by apply verify_copy_checked.
  - done.
  - destruct k; apply raw_allowed; by intros x.
  - done.
Qed.

Lemma act_one_allowed a p pre :
  safe (λ pre ev, ∃ before, ps_expected p !! path_of a = Some before ∧ allowed a before pre ev ∨ looks ev = true) pre
    (act_one sha256_hex t a p).
Proof.
  unfold act_one. destruct (ps_expected p !! path_of a) as [before|] eqn:Hb; [|done].
  apply (safe_weaken (allowed a before)); [intros q ev ?; exists before; by left|].
  apply safe_bind; [apply looks_allowed, verify_copy_looks|]. intros tr [e|[]] Hv; [done|].
  assert (guarded a before (pre ++ tr)) as Hg by (exists pre, tr; split; [done|by apply verify_copy_checked]).
  apply safe_bind.
  - unfold land. destruct (direction a) eqn:Hd; (apply safe_bind; [|done]);
      [by apply into_guest_allowed|by apply onto_host_allowed].
  - intros tr' [[e|[| |k dg side]] p'] _; try done. simpl. apply safe_bind; [|done].
    apply looks_allowed, verified_receiving_side_looks.
Qed.

(** The preconditions a pass still goes by: the plan's, or that nothing is
    there, at a path it has removed something from. *)
Definition expectations (plan : Plan) (p : Pass) : Prop :=
  ∀ path before, ps_expected p !! path = Some before →
    expected plan !! path = Some before ∨ before = None ∧ ∃ d k, Remove d path k ∈ actions plan.

Lemma act_one_expectations plan a p tr p' :
  a ∈ actions plan → expectations plan p → runs (act_one sha256_hex t a p) tr p' → expectations plan p'.
Proof.
  intros Ha Hp. unfold act_one. destruct (ps_expected p !! path_of a) as [before|]; [|by intros [_ ->]].
  intros (s1 & s2 & [e|[]] & -> & _ & H)%runs_bind; [by destruct H as [_ ->]|].
  apply runs_bind in H as (s3 & s4 & [landed p1] & -> & Hl & H). simpl in H.
  assert (ps_expected p1 = ps_expected p ∧ (landed = inr Removed → ∃ d k, a = Remove d (path_of a) k)) as [Hp1 Hrm].
  { unfold land in Hl. destruct (direction a).
    - apply runs_bind in Hl as (? & ? & r & _ & Hr & [_ Heq]). injection Heq as -> ->. split; [done|]. intros E.
      unfold into_guest in Hr. destruct a; [..|by eauto]; apply runs_bind in Hr as (? & ? & y & _ & _ & [_ ->]); simpl in E;
        [destruct y as [[] ?]|destruct y|destruct y]; done.
    - apply runs_bind in Hl as (? & ? & r & _ & Hr & [_ Heq]). injection Heq as -> ->. split; [done|]. intros ->.
      unfold onto_host in Hr. destruct a; [..|by eauto]; apply runs_bind in Hr as (? & ? & y & -> & _ & Hr).
      + destruct y; [|by destruct Hr]. next Hr. finish Hr. by destruct x.
      + destruct Hr as [_ Hr]. by destruct y.
      + destruct Hr as [_ Hr]. by destruct y. }
  intros path b Hb. unfold record_landed in H. destruct landed as [e|[| |k dg side]].
  - destruct H as [_ ->]. simpl in Hb. rewrite Hp1 in Hb. auto.
  - destruct H as [_ ->]. simpl in Hb. rewrite Hp1 in Hb. apply lookup_insert_Some in Hb as [[<- <-]|[_ ?]]; [right|auto].
    split; [done|]. destruct (Hrm eq_refl) as (d & k & Hd). exists d, k. by rewrite <-Hd.
  - destruct H as [_ ->]. simpl in Hb. rewrite Hp1 in Hb. auto.
  - apply runs_bind in H as (? & ? & r & _ & _ & [_ ->]). destruct r as [e|o]; [|destruct (source_is_host _)]; simpl in Hb; rewrite Hp1 in Hb; auto.
Qed.

(** Every call of a pass only looks, or is one an action of the plan is permitted. *)
Lemma apply_permitted plan l tr r pre ev post :
  runs (apply sha256_hex t plan l) tr r → tr = pre ++ ev :: post →
  looks ev = true ∨
  ∃ a before, a ∈ actions plan ∧ permitted a before pre ev ∧
    (expected plan !! path_of a = Some before ∨ before = None ∧ ∃ d k, Remove d (path_of a) k ∈ actions plan).
Proof.
  intros Hr Htr. set (P := λ pre ev, looks ev = true ∨ ∃ a before, a ∈ actions plan ∧ permitted a before pre ev ∧
    (expected plan !! path_of a = Some before ∨ before = None ∧ ∃ d k, Remove d (path_of a) k ∈ actions plan)).
  refine (safe_runs P [] _ tr r pre ev post _ Hr Htr). unfold apply. clear.
  apply safe_bind.
  { eapply (safe_for _ (λ _, True)); [|done|done]. intros [path ag] s q _ _. apply (safe_weaken (λ _ ev, looks ev = true)).
    { intros ? ? ?. by left. }
    unfold adopt_one. revert q. looking. }
  intros tr p Hp.
  assert (expectations plan p) as He.
  { refine (runs_for _ (λ _ p, expectations plan p) _ _ _ _ _ [] _ Hp); [|intros path b Hb; by left].
    intros [path ag] s t0 tr' s' _ Hs H. unfold adopt_one in H. apply runs_bind in H as (?&?&c&_&_&[_ ->]). by destruct c. }
  apply safe_bind; [|done]. apply (safe_for _ (expectations plan)); [|intros; by eapply act_one_expectations|done].
  intros a s q Ha Hs. eapply safe_weaken, act_one_allowed. intros q' e (before & [[Hb [?|?]]|?]); [by left|right|by left].
  exists a, before. split_and!; [done..|]. by apply Hs.
Qed.

(** C8: a pass touches nothing it did not check. Whatever fails and whoever
    else writes meanwhile, every call of [apply] either only looks, or belongs
    to an action of the plan: it creates, fills or removes a temporary name, or
    makes a directory, or it replaces or removes the action's own destination,
    on the side the action lands on, and then the calls just before it saw that
    destination exactly as planned: nothing there, or the expected kind, digest,
    size and time. *)
Theorem apply_touches_only_checked plan l tr r pre ev post :
  runs (apply sha256_hex t plan l) tr r → tr = pre ++ ev :: post →
  looks ev = true ∨
  ∃ a before, a ∈ actions plan ∧ permitted a before pre ev ∧
    (expected plan !! path_of a = Some before ∨ before = None ∧ ∃ d k, Remove d (path_of a) k ∈ actions plan).
Proof. apply apply_permitted. Qed.

(** ** The ledger records only what was seen *)

(** What [a] puts there, and the moving side's own record of it. *)
Definition puts (a : Action) (k : Kind) (digest : bytes) (side : Side) : Prop :=
  match a with
  | MakeDir _ _ s => k = Dir ∧ digest = [] ∧ side = s
  | PutFile _ _ s dg => k = File ∧ digest = dg ∧ side = s
  | PutSymlink _ _ _ s dg _ => k = Symlink ∧ digest = dg ∧ side = s
  | Remove _ _ _ => False
  end.
(** The rename that placed it went through. *)
Definition renamed (a : Action) tr : Prop :=
  match a, direction a with
  | MakeDir _ _ _, _ | Remove _ _ _, _ => True
  | _, ToGuest => Ev (GRename (temp_beside sha256_hex (gp (path_of a))) (gp (path_of a))) (inr tt) ∈ tr
  | _, ToHost => ∃ temp, Ev (HRename temp (hp (path_of a))) (inr tt) ∈ tr
  end.

Lemma runs_io_call {X} (c : FsCall (ErrorCode + X)) tr r :
  runs (io_call c) tr r → ∃ x, tr = [Ev c x] ∧ r = match x with inl e => inl (Io e) | inr x => inr x end.
Proof. unfold io_call. intros H. next H. finish H. by exists x. Qed.

(** A cleaned-up failure is a failure. *)
Lemma runs_fails {X} (m : io X) (e : Why) tr : ¬ runs (pbind m (λ _, Done (inl e : Why + unit))) tr (inr tt).
Proof. by intros (? & ? & ? & _ & _ & [_ ?])%runs_bind. Qed.

Lemma place_in_guest_renamed a path what before tr :
  runs (place_in_guest sha256_hex t a path what before) tr (inr tt) →
  Ev (GRename (temp_beside sha256_hex path) path) (inr tt) ∈ tr.
Proof.
  unfold place_in_guest. cbv zeta. intros (s0 & s1 & _ & -> & _ & H)%runs_bind.
  apply runs_bind in H as (s2 & s3 & [e|[]] & -> & _ & H); [by apply runs_fails in H|].
  apply runs_bind in H as (s4 & s5 & [e|[]] & -> & _ & H); [by apply runs_fails in H|].
  apply runs_bind in H as (s6 & s7 & r & -> & Hr & H). apply runs_io_call in Hr as (x & -> & ->).
  destruct x as [e|[]]; [by apply runs_fails in H|]. rewrite !elem_of_app. do 3 right. left. by left.
Qed.

Lemma place_on_host_renamed path write tr :
  runs (place_on_host path write) tr (inr tt) → ∃ temp, Ev (HRename temp path) (inr tt) ∈ tr.
Proof.
  unfold place_on_host. intros (s0 & s1 & [e|[]] & -> & _ & H)%runs_bind; [by destruct H|].
  apply runs_bind in H as (s2 & s3 & [e|temp] & -> & _ & H); [by destruct H|]. cbv zeta in H.
  apply runs_bind in H as (s4 & s5 & [e|[]] & -> & _ & H); [by apply runs_fails in H|].
  apply runs_bind in H as (s6 & s7 & [e|[]] & -> & _ & H);
    [apply runs_bind in H as (? & ? & ? & _ & _ & H); by apply runs_fails in H|].
  apply runs_bind in H as (s8 & s9 & r & -> & Hr & H). apply runs_io_call in Hr as (x & -> & ->).
  destruct x as [e|[]]; [apply runs_bind in H as (? & ? & ? & _ & _ & H); by apply runs_fails in H|].
  exists temp. rewrite !elem_of_app. do 4 right. left. by left.
Qed.

Lemma land_placed a before p tr k dg side p' :
  runs (land sha256_hex t a before p) tr (inr (Placed k dg side), p') → puts a k dg side ∧ renamed a tr.
Proof.
  unfold land, renamed. destruct (direction a) eqn:Hd;
    intros (s1 & s2 & r & -> & Hr & [-> Heq])%runs_bind; injection Heq as Heq _; rewrite app_nil_r.
  - unfold into_guest in Hr. destruct a; simpl in Hd; subst;
      apply runs_bind in Hr as (s3 & s4 & y & -> & Hy & [-> ->]); simpl in Heq; simpl direction; rewrite ?app_nil_r.
    + destruct y as [[e|[]] ?]; [done|]. by injection Heq as -> -> ->.
    + destruct y as [e|[]]; [done|]. injection Heq as -> -> ->. split; [done|]. by eapply place_in_guest_renamed.
    + destruct y as [e|[]]; [done|]. injection Heq as -> -> ->. split; [done|]. by eapply place_in_guest_renamed.
    + destruct y as [e|[]]; [destruct (is_not_empty e)|]; done.
  - subst r. unfold onto_host in Hr. destruct a; simpl in Hd; subst; apply runs_bind in Hr as (s3 & s4 & y & -> & Hy & Hr).
    + destruct y as [e|[]]; [next Hr; finish Hr; destruct x|finish Hr]; by simplify_eq/=.
    + destruct Hr as [-> Hr]. destruct y as [e|[]]; [done|]. injection Hr as -> -> ->. split; [done|].
      apply place_on_host_renamed in Hy as [temp ?]. exists temp. by rewrite app_nil_r.
    + destruct Hr as [-> Hr]. destruct y as [e|[]]; [done|]. injection Hr as -> -> ->. split; [done|].
      apply place_on_host_renamed in Hy as [temp ?]. exists temp. by rewrite app_nil_r.
    + destruct Hr as [-> Hr]. by destruct y as [[]|[]].
Qed.

Lemma land_entries a before p tr r p' :
  runs (land sha256_hex t a before p) tr (r, p') → ps_entries p' = ps_entries p.
Proof. unfold land. destruct (direction a); intros (s1 & s2 & y & _ & _ & [_ Heq])%runs_bind; by simplify_eq. Qed.

(** Why an entry may be in the ledger: both copies were seen to be what it
    says, or one was placed from an action and then seen to be what it says. *)
Definition justified (plan : Plan) tr path (ag : Agreed) : Prop :=
  (path, ag) ∈ adopt plan ∧
    (∃ pre sh sg post, tr = pre ++ sh ++ sg ++ post ∧
       checked path ToHost (Some (vouched (a_kind ag) (a_digest ag) (a_host ag))) sh ∧
       checked path ToGuest (Some (vouched (a_kind ag) (a_digest ag) (a_guest ag))) sg) ∨
  ∃ a, a ∈ actions plan ∧ path_of a = path ∧
    let '(moving, landing) := if source_is_host (direction a) then (a_host ag, a_guest ag) else (a_guest ag, a_host ag) in
    puts a (a_kind ag) (a_digest ag) moving ∧
    ∃ pre seg post, tr = pre ++ seg ++ post ∧ renamed a pre ∧
      checked path (direction a) (Some (vouched (a_kind ag) (a_digest ag) landing)) seg.

Lemma renamed_app a tr post : renamed a tr → renamed a (tr ++ post).
Proof.
  unfold renamed. destruct a; try done; destruct (direction _); rewrite ?elem_of_app; auto;
    intros [temp ?]; exists temp; rewrite elem_of_app; auto.
Qed.
Lemma renamed_app_l a tr pre : renamed a tr → renamed a (pre ++ tr).
Proof.
  unfold renamed. destruct a; try done; destruct (direction _); rewrite ?elem_of_app; auto;
    intros [temp ?]; exists temp; rewrite elem_of_app; auto.
Qed.
Lemma justified_app plan tr more path ag : justified plan tr path ag → justified plan (tr ++ more) path ag.
Proof.
  intros [(Ha & pre & sh & sg & post & -> & H1 & H2)|(a & Ha & Hp & H)]; [left|right].
  - split; [done|]. exists pre, sh, sg, (post ++ more). split; [by rewrite <-!app_assoc|done].
  - exists a. split_and!; [done..|]. destruct (source_is_host (direction a)); destruct H as (Hput & pre & seg & post & -> & Hr & Hc);
      (split; [done|]); exists pre, seg, (post ++ more); by rewrite <-!app_assoc.
Qed.

Lemma adopt_one_justified (plan : Plan) (pa : bytes * Agreed) (p p' : Pass) tr0 tr (l : gmap bytes Agreed) :
  pa ∈ adopt plan → runs (adopt_one sha256_hex t pa p) tr p' →
  (∀ path ag, ps_entries p !! path = Some ag → l !! path = Some ag ∨ justified plan tr0 path ag) →
  ∀ path ag, ps_entries p' !! path = Some ag → l !! path = Some ag ∨ justified plan (tr0 ++ tr) path ag.
Proof.
  intros Hpa H Hp path ag Hag. destruct pa as [q qa]. unfold adopt_one in H.
  apply runs_bind in H as (s1 & s2 & c & -> & Hc & [-> ->]). rewrite app_nil_r.
  assert (ps_entries p !! path = Some ag → l !! path = Some ag ∨ justified plan (tr0 ++ s1) path ag) as Hold.
  { intros [?|?]%Hp; [by left|right]. by apply justified_app. }
  destruct c as [e|[]]; simpl in Hag; [by apply Hold|].
  apply lookup_insert_Some in Hag as [[-> ->]|[_ ?]]; [|by apply Hold]. right. left. split; [done|].
  apply runs_bind in Hc as (sh & sg & [e|[]] & -> & Hh & Hg); [by destruct Hg|].
  exists tr0, sh, sg, []. rewrite app_nil_r. split_and!; [done|by apply verify_copy_checked..].
Qed.

Lemma act_one_justified (plan : Plan) (a : Action) (p p' : Pass) tr0 tr (l : gmap bytes Agreed) :
  a ∈ actions plan → runs (act_one sha256_hex t a p) tr p' →
  (∀ path ag, ps_entries p !! path = Some ag → l !! path = Some ag ∨ justified plan tr0 path ag) →
  ∀ path ag, ps_entries p' !! path = Some ag → l !! path = Some ag ∨ justified plan (tr0 ++ tr) path ag.
Proof.
  intros Ha H Hp path ag Hag.
  assert (ps_entries p !! path = Some ag → l !! path = Some ag ∨ justified plan (tr0 ++ tr) path ag) as Hold.
  { intros [?|?]%Hp; [by left|right]. by apply justified_app. }
  unfold act_one in H. destruct (ps_expected p !! path_of a) as [before|]; [|destruct H as [_ ->]; by apply Hold].
  apply runs_bind in H as (s1 & s2 & [e|[]] & -> & _ & H); [destruct H as [_ ->]; by apply Hold|].
  apply runs_bind in H as (s3 & s4 & [landed p1] & -> & Hl & H). simpl in H.
  pose proof (land_entries _ _ _ _ _ _ Hl) as He. rewrite <-He in Hold.
  unfold record_landed in H. destruct landed as [e|[| |k dg side]].
  - destruct H as [_ ->]. by apply Hold.
  - destruct H as [_ ->]. simpl in Hag. apply lookup_delete_Some in Hag as [_ ?]. by apply Hold.
  - destruct H as [_ ->]. simpl in Hag. apply lookup_delete_Some in Hag as [_ ?]. by apply Hold.
  - apply runs_bind in H as (s5 & s6 & o & -> & Ho & [-> ->]). destruct o as [e|other].
    { simpl in Hag. apply lookup_delete_Some in Hag as [_ ?]. by apply Hold. }
    apply land_placed in Hl as [Hputs Hren]. unfold verified_receiving_side in Ho.
    apply runs_bind in Ho as (s7 & s8 & [e|side'] & -> & _ & Ho); [by destruct Ho|].
    apply runs_bind in Ho as (s9 & s10 & [e|[]] & -> & Hv & Ho); destruct Ho as [-> Ho]; simplify_eq.
    apply verify_copy_checked in Hv. rewrite app_nil_r in *.
    assert (∀ k', tr0 ++ s1 ++ s3 ++ (s7 ++ s9 ++ k') = (tr0 ++ s1 ++ s3 ++ s7) ++ s9 ++ k') as Htr by (intros; by rewrite <-!app_assoc).
    assert (renamed a (tr0 ++ s1 ++ s3 ++ s7)) by (do 2 apply renamed_app_l; by apply renamed_app).
    destruct (source_is_host (direction a)) eqn:Hd; simpl in Hag;
      (apply lookup_insert_Some in Hag as [[<- <-]|[_ ?]]; [|by apply Hold]);
      right; right; exists a; rewrite Hd; simpl; split_and!; try done;
      exists (tr0 ++ s1 ++ s3 ++ s7), s9, []; by rewrite <-Htr, !app_nil_r.
Qed.

Lemma apply_justified plan l tr l' done :
  runs (apply sha256_hex t plan l) tr (l', done) →
  ∀ path ag, entries l' !! path = Some ag → entries l !! path = Some ag ∨ justified plan tr path ag.
Proof.
  unfold apply. intros (s1 & s2 & p & -> & Hp & H)%runs_bind. cbv zeta in H.
  apply runs_bind in H as (s3 & s4 & p' & -> & Hp' & [-> Heq]). injection Heq as -> ->. rewrite app_nil_r. simpl.
  set (I := λ tr p, ∀ path ag, ps_entries p !! path = Some ag → entries l !! path = Some ag ∨ justified plan tr path ag).
  change (I (s1 ++ s3) p'). refine (runs_for _ I _ _ _ _ _ s1 _ Hp').
  { intros a s t0 tr' s' Ha Hs Hr. exact (act_one_justified plan a s s' t0 tr' (entries l) Ha Hr Hs). }
  assert (I s1 p) as HI.
  { refine (runs_for _ I _ _ _ _ _ [] _ Hp); [|intros path ag Hag; by left].
    intros pa s t0 tr' s' Hpa Hs Hr. exact (adopt_one_justified plan pa s s' t0 tr' (entries l) Hpa Hr Hs). }
  intros path ag Hag. apply HI. clear -Hag. simpl in Hag. revert Hag. generalize (ps_entries p).
  induction (forget plan) as [|q qs IH]; intros m; simpl; [done|]. intros Hm%IH. by apply lookup_delete_Some in Hm as [_ ?].
Qed.

(** C13: the ledger is never ahead of the files. However a pass goes, whatever
    fails and whoever else writes meanwhile, an entry it leaves in the ledger
    was there before, or both copies were seen to hold exactly what it says
    (same kind, same digest, unchanged while they were hashed), or an action of
    the plan carries exactly that content, its rename went through, and after
    the rename the receiving copy was seen to hold it. *)
Theorem ledger_never_ahead plan l tr l' done :
  runs (apply sha256_hex t plan l) tr (l', done) →
  ∀ path ag, entries l' !! path = Some ag → entries l !! path = Some ag ∨ justified plan tr path ag.
Proof. apply apply_justified. Qed.
End facts.

(** ** A pass over two disks *)

(** Two undisturbed file systems with a clock; content is its own digest. *)
Inductive Node := NDir (mtime : Z) | NFile (content : bytes) (mtime : Z) | NLink (target : bytes) (mtime : Z).
Record Disks := mkDisks { d_host : gmap bytes Node; d_guest : gmap bytes Node; d_clock : Z }.

Definition node_attrs (n : Node) : Attrs :=
  match n with
  | NDir m => mkAttrs EntryDir 0 m
  | NFile c m => mkAttrs EntryFile (len c) m
  | NLink c m => mkAttrs EntrySymlink (len c) m
  end.
Definition node_metadata (n : Node) : Metadata :=
  match n with
  | NDir m => mkMetadata (Some Dir) 0 m
  | NFile c m => mkMetadata (Some File) (len c) m
  | NLink c m => mkMetadata (Some Symlink) (len c) m
  end.
Definition node_digest (n : option Node) : ErrorCode + bytes := match n with Some (NFile c _) => inr c | _ => inl OtherError end.
Definition node_target (n : option Node) : ErrorCode + bytes := match n with Some (NLink c _) => inr c | _ => inl OtherError end.

Definition on_guest (w : Disks) (g : gmap bytes Node) : Disks := mkDisks (d_host w) g (d_clock w + 1).
Definition on_host (w : Disks) (h : gmap bytes Node) : Disks := mkDisks h (d_guest w) (d_clock w + 1).

Definition disks (X : Type) (c : FsCall X) (w : Disks) : X * Disks :=
  match c in FsCall X return X * Disks with
  | GLstat p => (inr (node_attrs <$> d_guest w !! p), w)
  | GReadlink p => (node_target (d_guest w !! p), w)
  | GDigest p => (node_digest (d_guest w !! p), w)
  | GPull from to =>
      match d_guest w !! from with
      | Some (NFile c _) => (inr tt, on_host w (<[to := NFile c (d_clock w)]> (d_host w)))
      | _ => (inl NotFound, w)
      end
  | GMkdir p _ => (inr tt, on_guest w (<[p := NDir (d_clock w)]> (d_guest w)))
  | GPush from to =>
      match d_host w !! from with
      | Some (NFile c _) => (inr tt, on_guest w (<[to := NFile c (d_clock w)]> (d_guest w)))
      | _ => (inl NotFound, w)
      end
  | GSymlink target link _ => (inr tt, on_guest w (<[link := NLink target (d_clock w)]> (d_guest w)))
  | GRename from to =>
      match d_guest w !! from with
      | Some n => (inr tt, on_guest w (<[to := n]> (delete from (d_guest w))))
      | None => (inl NotFound, w)
      end
  | GRemove p | GRmdir p => (inr tt, on_guest w (delete p (d_guest w)))
  | HMetadata p => (match d_host w !! p with Some n => inr (node_metadata n) | None => inl NotFound end, w)
  | HReadLink p => (node_target (d_host w !! p), w)
  | HHash p => (node_digest (d_host w !! p), w)
  | HRemoveFile p | HRemoveDir p =>
      match d_host w !! p with
      | Some _ => (inr tt, on_host w (delete p (d_host w)))
      | None => (inl NotFound, w)
      end
  | HCreateDir p => (inr tt, on_host w (<[p := NDir (d_clock w)]> (d_host w)))
  | HIsDir p => (match d_host w !! p with Some (NDir _) => true | _ => false end, w)
  | HCreateParents _ => (inr tt, w)
  | HTempBeside p => (inr (p ++ [126]), on_host w (<[p ++ [126] := NFile [] (d_clock w)]> (d_host w)))
  | HSymlink target link => (inr tt, on_host w (<[link := NLink target (d_clock w)]> (d_host w)))
  | HRename from to =>
      match d_host w !! from with
      | Some n => (inr tt, on_host w (<[to := n]> (delete from (d_host w))))
      | None => (inl NotFound, w)
      end
  end.

(** The host edited [/h/k] and made [/h/n]; the guest removed [x] and made the
    link [l]. *)
Definition sample_target : Target := mkTarget [47; 104] [47; 103] false.
Definition sample_disks : Disks :=
  mkDisks
    (<[[47; 104; 47; 107] := NFile [2; 2] 5]> (<[[47; 104; 47; 110] := NFile [3] 6]> {[ [47; 104; 47; 120] := NFile [4] 1 ]}))
    (<[[47; 103; 47; 107] := NFile [1] 1]> {[ [47; 103; 47; 108] := NLink [107] 7 ]}) 10.
Definition sample_ledger : Ledger :=
  set_entries about_nothing
    (<[[107] := mkAgreed File [1] (mkSide 1 1) (mkSide 1 1)]> {[ [120] := mkAgreed File [4] (mkSide 1 1) (mkSide 1 1) ]}).
Definition sample_pass_inputs : Inputs :=
  mkInputs
    (<[[107] := mkState File 2 5 (Some [2; 2]) None false]>
      (<[[110] := mkState File 1 6 (Some [3]) None false]> {[ [120] := mkState File 1 1 None None false ]}))
    (<[[107] := mkState File 1 1 None None false]> {[ [108] := mkState Symlink 1 7 (Some [107]) (Some [107]) false ]})
    sample_ledger ∅ ∅ ∅ 1000 false.
Definition sample_pass_plan : Plan := reconcile id sample_pass_inputs.
Definition sample_run := exec_trace disks (apply id sample_target sample_pass_plan sample_ledger) sample_disks.

(** The pass lands in full: both disks hold the same names and contents, and
    every agreement is recorded with each side's own times. *)
Example sample_run_converges :
  let '(_, (l', done), w) := sample_run in
  map_to_list (d_host w) =
    [([47; 104; 47; 110], NFile [3] 6); ([47; 104; 47; 108], NLink [107] 16); ([47; 104; 47; 107], NFile [2; 2] 5)] ∧
  map_to_list (d_guest w) =
    [([47; 103; 47; 110], NFile [3] 19); ([47; 103; 47; 108], NLink [107] 7); ([47; 103; 47; 107], NFile [2; 2] 12)] ∧
  failures done = [] ∧ to_guest done = mkCounts 2 0 ∧ to_host done = mkCounts 1 1 ∧
  map_to_list (entries l') =
    [([110], mkAgreed File [3] (mkSide 1 6) (mkSide 1 19)); ([108], mkAgreed Symlink [107] (mkSide 1 16) (mkSide 1 7));
     ([107], mkAgreed File [2; 2] (mkSide 2 5) (mkSide 2 12))].
Proof. by vm_compute. Qed.

Lemma sample_runs :
  runs (apply id sample_target sample_pass_plan sample_ledger) sample_run.1.1 (sample_run.1.2.1, sample_run.1.2.2).
Proof.
  rewrite <-surjective_pairing. exact (exec_trace_runs disks (apply id sample_target sample_pass_plan sample_ledger) sample_disks).
Qed.

Lemma ledger_never_ahead_witness :
  let ag := mkAgreed File [2; 2] (mkSide 2 5) (mkSide 2 12) in
  entries sample_run.1.2.1 !! [107] = Some ag ∧ justified id sample_target sample_pass_plan sample_run.1.1 [107] ag.
Proof.
  assert (entries sample_run.1.2.1 !! [107] = Some (mkAgreed File [2; 2] (mkSide 2 5) (mkSide 2 12))) as Hag by by vm_compute.
  split; [done|]. destruct (ledger_never_ahead id sample_target _ _ _ _ _ sample_runs _ _ Hag) as [H|H]; [by vm_compute in H|done].
Defined.

Definition sample_trace : trace := Eval vm_compute in sample_run.1.1.
Definition sample_result : Ledger * Applied := sample_run.1.2.
Lemma sample_trace_runs : runs (apply id sample_target sample_pass_plan sample_ledger) sample_trace sample_result.
Proof.
  assert (sample_trace = sample_run.1.1) as -> by by vm_compute.
  exact (exec_trace_runs disks (apply id sample_target sample_pass_plan sample_ledger) sample_disks).
Qed.

Lemma apply_touches_only_checked_witness :
  let ev := Ev (HRemoveFile [47; 104; 47; 120]) (inr tt) in
  sample_trace = take 3 sample_trace ++ ev :: drop 4 sample_trace ∧
  ∃ a before, a ∈ actions sample_pass_plan ∧ permitted id sample_target a before (take 3 sample_trace) ev.
Proof.
  split; [reflexivity|].
  destruct (apply_touches_only_checked id sample_target sample_pass_plan sample_ledger sample_trace sample_result
    (take 3 sample_trace) (Ev (HRemoveFile [47; 104; 47; 120]) (inr tt)) (drop 4 sample_trace) sample_trace_runs eq_refl)
    as [H|(a & before & Ha & Hp & _)]; [discriminate H|exists a, before; split; [exact Ha|exact Hp]].
Defined.
