(* ===== verification/Reseed.v ===== *)
(** * The re-seed after a restore ([src/labd/workspace/reseed.rs])

    A snapshot restore rewinds the guest; the workspace is carried back to host
    truth, and nothing flows the other way. The two walks of [reconverge] are
    its arguments: the trees, the unreadable paths and what the ignore rules
    say of themselves. *)

From S2P Require Import Prelude.
From S2P Require Import Ledger.
From S2P Require Import Plan.
From S2P Require Import Converge.
From S2P Require Import Effects.
From S2P Require Import Apply.

Section reseed.
Context (to_lowercase sha256_hex : bytes → bytes).

(** Whether the two copies hold the same thing, by digest. *)
Definition same (h g : State) : bool :=
  if negb (bool_decide (st_kind h = st_kind g)) || st_oversize h || st_oversize g then false
  else
    match st_kind h with
    | Dir => true
    | File | Symlink => bool_decide (is_Some (st_digest h)) && bool_decide (st_digest h = st_digest g)
    end.

(** What the body of the loop pushes for one path. A path neither tree holds
    does not occur: the paths are the keys of the two trees. *)
Definition reseed_path (i : Inputs) (colliding : gset bytes) (path : bytes) : Pushed :=
  if bool_decide (path ∈ undecided i) || bool_decide (path ∈ colliding) then nothing
  else
    match host i !! path, guest i !! path with
    | None, Some g => mkPushed [] [] [] [Remove ToGuest path (st_kind g)] [] []
    | Some h, g =>
        match g with
        | Some g' =>
            if same h g' then
              mkPushed [] [(path, mkAgreed (st_kind h) (default [] (st_digest h)) (st_side h) (st_side g'))] [] [] [] []
            else
              let cleared := if negb (bool_decide (st_kind g' = st_kind h)) then [Remove ToGuest path (st_kind g')] else [] in
              match place ToGuest path h i None with
              | inl a => mkPushed [] [] [] cleared [a] []
              | inr refusal => mkPushed [] [] [] cleared [] [refusal]
              end
        | None =>
            match place ToGuest path h i None with
            | inl a => mkPushed [] [] [] [] [a] []
            | inr refusal => mkPushed [] [] [] [] [] [refusal]
            end
        end
    | None, None => nothing
    end.

Definition tree_paths (i : Inputs) : list bytes := in_order (dom (host i) ∪ dom (guest i)).

Definition reseed (i : Inputs) : Plan :=
  let cs := collisions to_lowercase i in
  let pushed := reseed_path i (colliding_paths cs) <$> tree_paths i in
  let removals := merge_sort (λ a b, bytes_le (path_of b) (path_of a)) (pushed ≫= p_removals) in
  let creations := merge_sort (λ a b, bytes_le (path_of a) (path_of b)) (pushed ≫= p_creations) in
  let acts := removals ++ creations in
  mkPlan acts (capture_expected acts i ∅) (pushed ≫= p_adopt) [] [] None (pushed ≫= p_oversize) cs None.

(** ** Re-convergence *)

Record Reconverged := mkReconverged {
  rc_placed : Z;
  rc_removed : Z;
  rc_adopted : Z;
  rc_oversize : list Oversize;
  rc_collisions : list Collision;
  rc_skipped : list bytes;
  rc_failures : list Failure }.
Definition complete (r : Reconverged) : bool :=
  is_empty (rc_oversize r) && is_empty (rc_collisions r) && is_empty (rc_skipped r) && is_empty (rc_failures r).

(** What the walks of both trees found. *)
Record Walks := mkWalks {
  w_host : gmap bytes State;
  w_guest : gmap bytes State;
  w_skipped : list bytes;
  w_ignore_digest : bytes;
  w_prune : list bytes }.

Definition owing (l : Ledger) (owed : bool) (ignore_digest : bytes) (prune : list bytes) : Ledger :=
  mkLedger (version l) (host_root l) (guest_root l) ignore_digest prune owed (halted l) (entries l).

Definition reconverge_inputs (w : Walks) (fresh : Ledger) (cap : Z) (folding : bool) : Inputs :=
  mkInputs (w_host w) (w_guest w) fresh (list_to_set (w_skipped w)) ∅ ∅ cap folding.

(** [walks] is nothing where a walk failed: the re-seed stays owed. *)
Definition reconverge (t : Target) (l : Ledger) (walks : option Walks) (cap : Z) (folding : bool)
    : io (Ledger * option Reconverged) :=
  match walks with
  | None => Done (set_reseed_owed l, None)
  | Some w =>
      let fresh := set_reseed_owed (Ledger_new (t_host_root t) (t_guest_root t)) in
      let plan := reseed (reconverge_inputs w fresh cap folding) in
      r ⇐ apply sha256_hex t plan fresh;
      let '(l, applied) := r in
      let done := mkReconverged (n_placed (to_guest applied)) (n_removed (to_guest applied)) (adopted applied)
                    (oversize plan) (collisions_of plan) (w_skipped w) (failures applied ++ symlinks_refused applied) in
      Done (owing l (negb (complete done)) (w_ignore_digest w) (w_prune w), Some done)
  end.

(** ** Host truth *)

(** Both copies were hashed and are the same: a digest that is missing is no
    agreement, and neither is one of a file over the cap. *)
Definition known_same (h g : State) : Prop :=
  st_kind h = st_kind g ∧ st_oversize h = false ∧ st_oversize g = false ∧
  (st_kind h ≠ Dir → ∃ dg, st_digest h = Some dg ∧ st_digest g = Some dg).

(** An action that brings the host's copy [h] to the guest. *)
Definition brings (h : State) (a : Action) : Prop :=
  match a with
  | MakeDir d _ side => d = ToGuest ∧ st_kind h = Dir ∧ side = st_side h
  | PutFile d _ side dg => d = ToGuest ∧ st_kind h = File ∧ side = st_side h ∧ dg = default [] (st_digest h)
  | PutSymlink d _ target side dg _ =>
      d = ToGuest ∧ st_kind h = Symlink ∧ side = st_side h ∧ dg = default [] (st_digest h) ∧ target = default [] (st_target h)
  | Remove _ _ _ => False
  end.

Implicit Types (i : Inputs) (path : bytes) (a : Action).

Definition reseeded i path : Pushed := reseed_path i (colliding_paths (collisions to_lowercase i)) path.

Lemma elem_of_reseed {A} i (f : Pushed → list A) (x : A) :
  x ∈ (reseeded i <$> tree_paths i) ≫= f ↔ ∃ path, path ∈ tree_paths i ∧ x ∈ f (reseeded i path).
Proof.
  rewrite list_elem_of_bind. split.
  - intros (y & Hx & (path & -> & Hp)%list_elem_of_fmap). by exists path.
  - intros (path & Hp & Hx). exists (reseeded i path). split; [done|]. by apply list_elem_of_fmap_2.
Qed.

(** Everything pushed at a path goes to the guest, at that path. *)
Lemma reseeded_actions i path a :
  a ∈ p_removals (reseeded i path) ++ p_creations (reseeded i path) → path_of a = path ∧ direction a = ToGuest.
Proof.
  unfold reseeded, reseed_path. destruct (_ || _); [by intros ?%elem_of_nil|].
  destruct (host i !! path) as [h|], (guest i !! path) as [g|]; [|  |by intros ->%list_elem_of_singleton|by intros ?%elem_of_nil].
  - destruct (same h g); [by intros ?%elem_of_nil|]. cbv zeta.
    destruct (place ToGuest path h i None) as [b|o] eqn:Hp; simpl; rewrite elem_of_app; (intros [H|H]).
    + destruct (negb _); [by apply list_elem_of_singleton in H as ->|by apply elem_of_nil in H].
    + apply list_elem_of_singleton in H as ->. apply place_inl in Hp as (? & ? & _). done.
    + destruct (negb _); [by apply list_elem_of_singleton in H as ->|by apply elem_of_nil in H].
    + by apply elem_of_nil in H.
  - destruct (place ToGuest path h i None) as [b|o] eqn:Hp; simpl; [|by intros ?%elem_of_nil].
    intros ->%list_elem_of_singleton. apply place_inl in Hp as (? & ? & _). done.
Qed.

Definition reseed_removals i : list Action :=
  merge_sort (λ a b, bytes_le (path_of b) (path_of a)) ((reseeded i <$> tree_paths i) ≫= p_removals).
Definition reseed_creations i : list Action :=
  merge_sort (λ a b, bytes_le (path_of a) (path_of b)) ((reseeded i <$> tree_paths i) ≫= p_creations).

Lemma elem_of_reseed_removals i a path :
  path_of a = path → a ∈ reseed_removals i ↔ path ∈ tree_paths i ∧ a ∈ p_removals (reseeded i path).
Proof.
  intros <-. unfold reseed_removals. rewrite merge_sort_Permutation, elem_of_reseed. split; [|by eauto].
  intros (q & Hq & Ha). destruct (reseeded_actions i q a) as [<- _]; [apply elem_of_app; by left|done].
Qed.
Lemma elem_of_reseed_creations i a path :
  path_of a = path → a ∈ reseed_creations i ↔ path ∈ tree_paths i ∧ a ∈ p_creations (reseeded i path).
Proof.
  intros <-. unfold reseed_creations. rewrite merge_sort_Permutation, elem_of_reseed. split; [|by eauto].
  intros (q & Hq & Ha). destruct (reseeded_actions i q a) as [<- _]; [apply elem_of_app; by right|done].
Qed.

Lemma reseed_to_guest i a : a ∈ actions (reseed i) → direction a = ToGuest.
Proof.
  change (actions (reseed i)) with (reseed_removals i ++ reseed_creations i).
  intros [[_ Ha]%(elem_of_reseed_removals i a _ eq_refl)|[_ Ha]%(elem_of_reseed_creations i a _ eq_refl)]%elem_of_app;
    eapply (reseeded_actions i), elem_of_app; eauto.
Qed.

Lemma tree_paths_spec i path : path ∈ tree_paths i ↔ is_Some (host i !! path) ∨ is_Some (guest i !! path).
Proof. unfold tree_paths. by rewrite elem_of_in_order, elem_of_union, !elem_of_dom. Qed.

Lemma same_known h g : same h g = true → known_same h g.
Proof.
  unfold same, known_same. case_bool_decide as Hk; [|done]. simpl. destruct (st_oversize h), (st_oversize g); try done. simpl. intros Hs. split_and!; try done. intros Hd.
  destruct (st_kind h); [|done|]; apply andb_prop in Hs as [[dg Hh]%bool_decide_eq_true Heq%bool_decide_eq_true]; exists dg; by rewrite <-Heq.
Qed.
Lemma place_brings path h i a : place ToGuest path h i None = inl a → brings h a ∧ path_of a = path.
Proof. unfold place. destruct (st_kind h) eqn:Hk; [destruct (_ <? _)|..]; intros [= <-]; done. Qed.

(** What a path holds once the plan is carried out. *)
Lemma reseed_at i path :
  carried_out (actions (reseed i)) (guest i) !! path =
  match p_creations (reseeded i path) with
  | a :: _ => landed_state a
  | [] => match p_removals (reseeded i path) with r :: _ => landed_state r | [] => guest i !! path end
  end.
Proof.
  assert (path ∉ tree_paths i → p_creations (reseeded i path) = [] ∧ p_removals (reseeded i path) = []) as Hout.
  { rewrite tree_paths_spec, <-!not_eq_None_Some. intros Hn. unfold reseeded, reseed_path. destruct (_ || _); [done|].
    destruct (host i !! path), (guest i !! path); try done; exfalso; apply Hn; auto. }
  assert (∀ a, a ∈ p_removals (reseeded i path) ++ p_creations (reseeded i path) → path ∈ tree_paths i) as Hin.
  { intros a Ha. destruct (decide (path ∈ tree_paths i)) as [|[Hc Hr]%Hout]; [done|]. rewrite Hc, Hr in Ha. by apply elem_of_nil in Ha. }
  apply (alter_all_at landed_state (reseed_removals i) (reseed_creations i)).
  - intros a. split; [intros [Ha Hp]; by apply (elem_of_reseed_removals i a path Hp) in Ha as [_ ?]|].
    intros Ha. assert (path_of a = path) as Hp by (eapply (reseeded_actions i path), elem_of_app; by left).
    split; [|done]. apply (elem_of_reseed_removals i a path Hp). split; [|done]. eapply Hin, elem_of_app. by left.
  - intros a. split; [intros [Ha Hp]; by apply (elem_of_reseed_creations i a path Hp) in Ha as [_ ?]|].
    intros Ha. assert (path_of a = path) as Hp by (eapply (reseeded_actions i path), elem_of_app; by right).
    split; [|done]. apply (elem_of_reseed_creations i a path Hp). split; [|done]. eapply Hin, elem_of_app. by right.
  - unfold reseeded, reseed_path. repeat (case_match; simpl; try lia).
  - unfold reseeded, reseed_path. repeat (case_match; simpl; try lia).
Qed.


(** ** Nothing flows to the host *)

(** Calls that write to the canonical copy. *)
Definition changes_host (ev : event FsCall) : bool :=
  match ev with
  | Ev e _ =>
      match e with
      | GPull _ _ | HRemoveFile _ | HRemoveDir _ | HCreateDir _ | HCreateParents _ | HTempBeside _ | HSymlink _ _
      | HRename _ _ => true
      | _ => false
      end
  end.

(** C35: re-convergence after a restore never writes to the canonical copy, and
    no agreement older than the restore survives it. Whatever the guest answers
    and whatever fails, no call of it changes the host; every entry of the new
    ledger is one this pass saw for itself; and the re-seed stays owed until a
    pass ends with every path converged, a failed walk included. *)
Theorem reconverge_host_only t l walks cap folding tr l' done :
  runs (reconverge t l walks cap folding) tr (l', done) →
  (∀ ev, ev ∈ tr → changes_host ev = false) ∧
  match walks, done with
  | Some w, Some d =>
      let fresh := set_reseed_owed (Ledger_new (t_host_root t) (t_guest_root t)) in
      reseed_owed l' = negb (complete d) ∧
      ∀ path ag, entries l' !! path = Some ag →
        justified sha256_hex t (reseed (reconverge_inputs w fresh cap folding)) tr path ag
  | None, None => reseed_owed l' = true ∧ entries l' = entries l
  | _, _ => False
  end.
Proof.
  unfold reconverge. destruct walks as [w|].
  2: { intros [-> Heq]. injection Heq as -> ->. split; [by intros ev ?%elem_of_nil|done]. }
  cbv zeta. set (fresh := set_reseed_owed _). set (plan := reseed _).
  intros (s1 & s2 & [l1 applied] & -> & Ha & [-> Heq])%runs_bind. injection Heq as -> ->. rewrite app_nil_r. split.
  - intros ev (pre & post & Hin)%list_elem_of_split.
    destruct (apply_permitted sha256_hex t plan fresh s1 _ pre ev post Ha Hin) as [Hl|(a & before & Hact & Hp & _)].
    + destruct ev as [X [] x]; done.
    + apply reseed_to_guest in Hact. unfold permitted in Hp. rewrite Hact in Hp. destruct ev as [X [] x]; simpl in *; try done;
        by destruct Hp.
  - split; [done|]. intros path ag Hag. simpl in Hag.
    destruct (apply_justified sha256_hex t plan fresh s1 l1 applied Ha path ag Hag) as [H|H]; [|done].
    simpl in H. by rewrite lookup_empty in H.
Qed.
End reseed.

(** ** A restore *)

(** The guest was rewound to an old [k] and holds [z], which the host does not. *)
Definition restored_walks : Walks :=
  mkWalks {[ [107] := mkState File 2 5 (Some [2; 2]) None false ]}
    (<[[107] := mkState File 1 1 (Some [1]) None false]> {[ [122] := mkState File 1 1 (Some [9]) None false ]}) [] [] [].
Definition restored_inputs : Inputs :=
  reconverge_inputs restored_walks (set_reseed_owed (Ledger_new (t_host_root sample_target) (t_guest_root sample_target))) 1000 false.


Definition restored_disks : Disks :=
  mkDisks {[ [47; 104; 47; 107] := NFile [2; 2] 5 ]}
    (<[[47; 103; 47; 107] := NFile [1] 1]> {[ [47; 103; 47; 122] := NFile [9] 1 ]}) 10.
Definition restored_run :=
  exec_trace disks (reconverge id id sample_target sample_ledger (Some restored_walks) 1000 false) restored_disks.

Lemma reconverge_host_only_witness :
  runs (reconverge id id sample_target sample_ledger (Some restored_walks) 1000 false)
    restored_run.1.1 (restored_run.1.2.1, restored_run.1.2.2) ∧
  (∀ ev, ev ∈ restored_run.1.1 → changes_host ev = false).
Proof.
  assert (runs (reconverge id id sample_target sample_ledger (Some restored_walks) 1000 false)
    restored_run.1.1 (restored_run.1.2.1, restored_run.1.2.2)) as Hr.
  { rewrite <-surjective_pairing.
    exact (exec_trace_runs disks (reconverge id id sample_target sample_ledger (Some restored_walks) 1000 false) restored_disks). }
  split; [exact Hr|].
  exact (proj1 (reconverge_host_only id id sample_target sample_ledger (Some restored_walks) 1000 false _ _ _ Hr)).
Defined.

(** The restored guest is back at host truth and nothing is owed. *)
Example restored_run_complete :
  map_to_list (d_guest restored_run.2) = [([47; 103; 47; 107], NFile [2; 2] 12)] ∧
  map_to_list (d_host restored_run.2) = [([47; 104; 47; 107], NFile [2; 2] 5)] ∧
  reseed_owed restored_run.1.2.1 = false ∧
  map_to_list (entries restored_run.1.2.1) = [([107], mkAgreed File [2; 2] (mkSide 2 5) (mkSide 2 12))].
Proof. by vm_compute. Qed.
