(* ===== verification/TableCache.v ===== *)
(** * Write-back table cache and refcount fields ([hv/crates/vmlab-disk/src/qcow2])

    [TableCache] of [mod.rs]: cached tables by key with a least-recently-used
    order. What is evicted dirty is handed back to be written. [bits_get] and
    [bits_set] of [refcount.rs]: refcounts of any width packed in a block. *)

From S2P Require Import Prelude.

Record TableCache := mkCache {
  c_map : gmap Z (bytes * bool);
  c_order : list Z;
  c_cap : Z }.

Definition TableCache_new (cap : Z) : TableCache := mkCache ∅ [] (Z.max cap 1).

Definition touched (order : list Z) (key : Z) : list Z := filter (λ k, k ≠ key) order ++ [key].
Definition touch (c : TableCache) (key : Z) : TableCache := mkCache (c_map c) (touched (c_order c) key) (c_cap c).

Definition get (c : TableCache) (key : Z) : TableCache * option (bytes * bool) :=
  match c_map c !! key with
  | Some e => (touch c key, Some e)
  | None => (c, None)
  end.

(** [while self.map.len() >= self.cap { pop_front .. }]: the order and the
    map left, and the dirty tables evicted. *)
Fixpoint evict_loop (order : list Z) (m : gmap Z (bytes * bool)) (cap : Z) (evicted : list (Z * bytes))
    : list Z * gmap Z (bytes * bool) * list (Z * bytes) :=
  if cap <=? Z.of_nat (size m) then
    match order with
    | [] => ([], m, evicted)
    | k :: order =>
        match m !! k with
        | Some (buf, dirty) => evict_loop order (delete k m) cap (if (dirty : bool) then evicted ++ [(k, buf)] else evicted)
        | None => evict_loop order m cap evicted
        end
    end
  else (order, m, evicted).

Definition put (c : TableCache) (key : Z) (data : bytes) (dirty : bool) : TableCache * list (Z * bytes) :=
  let '(order, m, evicted) :=
    match c_map c !! key with
    | Some _ => (c_order c, c_map c, [])
    | None => evict_loop (c_order c) (c_map c) (c_cap c) []
    end in
  (mkCache (<[key := (data, dirty)]> m) (touched order key) (c_cap c), evicted).

Definition mark_dirty (c : TableCache) (key : Z) : TableCache :=
  mkCache (alter (λ e, (e.1, true)) key (c_map c)) (c_order c) (c_cap c).
(** [map.get_mut(&key)] written through. *)
Definition set_data (c : TableCache) (key : Z) (data : bytes) : TableCache :=
  mkCache (alter (λ e, (data, e.2)) key (c_map c)) (c_order c) (c_cap c).
Definition cache_remove (c : TableCache) (key : Z) : TableCache :=
  mkCache (delete key (c_map c)) (filter (λ k, k ≠ key) (c_order c)) (c_cap c).
(** The dirty tables, in the order the map is iterated, left clean. *)
Definition take_dirty (c : TableCache) : TableCache * list (Z * bytes) :=
  (mkCache ((λ e, (e.1, false)) <$> c_map c) (c_order c) (c_cap c),
   omap (λ ke : Z * (bytes * bool), if ke.2.2 then Some (ke.1, ke.2.1) else None) (map_to_list (c_map c))).

(** ** Packed refcounts *)

Definition of_be64 (b : bytes) : Z := foldl (λ acc x, acc * 256 + x) 0 b.
Definition u64_be (n : Z) : bytes :=
  [n / 2 ^ 56 mod 256; n / 2 ^ 48 mod 256; n / 2 ^ 40 mod 256; n / 2 ^ 32 mod 256;
   n / 2 ^ 24 mod 256; n / 2 ^ 16 mod 256; n / 2 ^ 8 mod 256; n mod 256].
(** The low [n] bytes, big-endian. *)
Definition be_low (n : nat) (v : Z) : bytes := drop (8 - n) (u64_be v).

Definition bits_get (buf : bytes) (index width : Z) : outcome Z :=
  if bool_decide (width ∈ [1; 2; 4; 8]) then
    let bit := index * width in
    byte ← idx_chk buf (bit / 8);
    mret (Z.land (Z.shiftr byte (bit mod 8)) (Z.shiftl 1 width - 1))
  else if bool_decide (width ∈ [16; 32; 64]) then
    let n := width / 8 in
    b ← slice_chk buf (index * n) (index * n + n);
    mret (of_be64 b)
  else Panic.

Definition bits_set (buf : bytes) (index width value : Z) : outcome bytes :=
  if bool_decide (width ∈ [1; 2; 4; 8]) then
    let bit := index * width in
    byte ← idx_chk buf (bit / 8);
    let mask := Z.shiftl 1 width - 1 in
    let cleared := Z.land byte (Z.lxor 255 (wrap8 (Z.shiftl mask (bit mod 8)))) in
    copy_at buf (bit / 8) [Z.lor cleared (wrap8 (Z.shiftl (Z.land (wrap8 value) mask) (bit mod 8)))]
  else if bool_decide (width ∈ [16; 32; 64]) then
    let n := width / 8 in
    copy_at buf (index * n) (be_low (Z.to_nat n) value)
  else Panic.

(** ** The cache over its disk *)

(** What a key holds, given what the disk holds. *)
Definition view (c : TableCache) (disk : Z → bytes) (k : Z) : bytes :=
  match c_map c !! k with Some (buf, _) => buf | None => disk k end.
(** Writing tables out. *)
Definition written (disk : Z → bytes) (out : list (Z * bytes)) : Z → bytes :=
  foldl (λ d kb, λ k, if k =? kb.1 then kb.2 else d k) disk out.

(** The order lists exactly the cached keys, the cache is not over its
    capacity, and a clean table is what the disk holds. *)
Record cache_ok (c : TableCache) (disk : Z → bytes) : Prop := mkCacheOk {
  ok_nodup : NoDup (c_order c);
  ok_order k : k ∈ c_order c ↔ is_Some (c_map c !! k);
  ok_size : Z.of_nat (size (c_map c)) ≤ c_cap c;
  ok_cap : 1 ≤ c_cap c;
  ok_clean k buf : c_map c !! k = Some (buf, false) → buf = disk k }.

Lemma elem_of_touched order key k : k ∈ touched order key ↔ k ∈ order ∨ k = key.
Proof.
  unfold touched. rewrite elem_of_app, list_elem_of_filter, list_elem_of_singleton.
  destruct (decide (k = key)); tauto.
Qed.
Lemma NoDup_touched order key : NoDup order → NoDup (touched order key).
Proof.
  intros Hn. unfold touched. apply NoDup_app. split_and!; [by apply NoDup_filter| |apply NoDup_singleton].
  intros k [? _]%list_elem_of_filter. by rewrite list_elem_of_singleton.
Qed.

Lemma written_other disk out k : (∀ b, (k, b) ∉ out) → written disk out k = disk k.
Proof.
  unfold written. revert disk. induction out as [|[k' b] out IH]; intros disk Hn; [done|]. simpl.
  rewrite IH by (intros b' Hb; apply (Hn b'); by right).
  destruct (k =? k') eqn:E; [|done]. apply Z.eqb_eq in E as ->. destruct (Hn b). by left.
Qed.
Lemma written_ext d d' out k : (∀ j, d j = d' j) → written d out k = written d' out k.
Proof.
  revert d d' k. unfold written. induction out as [|[k' b] out IH]; intros d d' k Hd; [apply Hd|]. simpl.
  apply IH. intros j. by case_match.
Qed.
Lemma view_ext c d d' k : (∀ j, d j = d' j) → view c d k = view c d' k.
Proof. intros Hd. unfold view. by case_match. Qed.
Lemma cache_ok_ext c d d' : (∀ j, d j = d' j) → cache_ok c d → cache_ok c d'.
Proof. intros Hd [H1 H2 H3 H4 H5]. constructor; try done. intros k buf Hb. rewrite <-Hd. by apply H5. Qed.
Lemma written_app disk o1 o2 : written disk (o1 ++ o2) = written (written disk o1) o2.
Proof. apply foldl_app. Qed.
Lemma written_last disk out k b : written disk (out ++ [(k, b)]) k = b.
Proof. rewrite written_app. simpl. by rewrite Z.eqb_refl. Qed.

(** The eviction loop makes room, keeps the order exact, and hands back
    exactly the dirty tables it drops. *)
Lemma evict_loop_spec order m cap ev order' m' ev' :
  evict_loop order m cap ev = (order', m', ev') → NoDup order → (∀ k, k ∈ order ↔ is_Some (m !! k)) → 1 ≤ cap →
  NoDup order' ∧ (∀ k, k ∈ order' ↔ is_Some (m' !! k)) ∧ Z.of_nat (size m') < cap ∧
  (∀ k e, m' !! k = Some e → m !! k = Some e) ∧
  ∃ out, ev' = ev ++ out ∧ NoDup out.*1 ∧ ∀ k b, (k, b) ∈ out ↔ m !! k = Some (b, true) ∧ m' !! k = None.
Proof.
  revert m ev. induction order as [|k order IH]; intros m ev Hev Hn Hk Hcap; simpl in Hev.
  - assert (m = ∅) as ->.
    { apply map_empty. intros k. destruct (m !! k) eqn:E; [|done]. exfalso. eapply not_elem_of_nil, Hk. by rewrite E. }
    rewrite map_size_empty in Hev. destruct (_ <=? _) eqn:Hc; [bsplit; lia|]. simplify_eq.
    rewrite map_size_empty. split_and!; try done; [lia|]. exists []. rewrite app_nil_r. split_and!; [done|constructor|].
    intros k b. rewrite lookup_empty. split; [by intros ?%elem_of_nil|by intros [? _]].
  - apply NoDup_cons in Hn as [Hni Hn]. destruct (_ <=? _) eqn:Hc.
    2: { simplify_eq. bsplit. split_and!; try done; [by constructor|]. exists []. rewrite app_nil_r.
         split_and!; [done|constructor|]. intros q b. split; [by intros ?%elem_of_nil|]. intros [? ?]. congruence. }
    destruct (m !! k) as [[buf dirty]|] eqn:Hmk.
    2: { exfalso. assert (is_Some (m !! k)) as [? ?] by (apply Hk; by left). congruence. }
    apply IH in Hev as (? & ? & ? & Hsub & out & -> & Hno & Hout); try done.
    2: { intros q. destruct (decide (q = k)) as [->|Hne].
         - rewrite lookup_delete_eq. split; [done|by intros []].
         - rewrite lookup_delete_ne by done. rewrite <-Hk, elem_of_cons. tauto. }
    assert (m' !! k = None) as Hm'k.
    { destruct (m' !! k) eqn:E; [|done]. apply Hsub in E. by rewrite lookup_delete_eq in E. }
    split_and!; try done.
    + intros q e He%Hsub. by apply lookup_delete_Some in He as [_ ?].
    + assert (∀ q b, (q, b) ∈ out ↔ q ≠ k ∧ m !! q = Some (b, true) ∧ m' !! q = None) as Hout'.
      { intros q b. rewrite Hout, lookup_delete_Some. naive_solver. }
      destruct dirty; [exists ((k, buf) :: out)|exists out].
      * rewrite <-app_assoc. split_and!; [done| |].
        -- simpl. constructor; [|done]. rewrite list_elem_of_fmap. intros ([q b] & -> & Hq%Hout'). by destruct Hq.
        -- intros q b. rewrite elem_of_cons, Hout'. split; [|destruct (decide (q = k)) as [->|]; naive_solver].
           intros [?|?]; naive_solver.
      * split_and!; [done..|]. intros q b. rewrite Hout'. split; [naive_solver|]. intros [? ?]. split; [|done]. intros ->. congruence.
Qed.

Lemma written_elem disk out k b : NoDup out.*1 → (k, b) ∈ out → written disk out k = b.
Proof.
  intros Hn (o1 & o2 & ->)%list_elem_of_split. rewrite cons_middle, app_assoc, written_app.
  rewrite written_other; [apply written_last|]. intros b' Hb. rewrite fmap_app, fmap_cons in Hn.
  apply NoDup_app in Hn as (_ & _ & Hn). apply NoDup_cons in Hn as [Hn _]. apply Hn. apply list_elem_of_fmap. by exists (k, b').
Qed.

(** Cached or not, what a key holds does not change when room is made. *)
Lemma evicted_view c disk order' m' out :
  cache_ok c disk → evict_loop (c_order c) (c_map c) (c_cap c) [] = (order', m', out) →
  (∀ k, match m' !! k with Some (buf, _) => buf | None => written disk out k end = view c disk k) ∧
  (∀ k, c_map c !! k = None → written disk out k = disk k) ∧
  (∀ k buf, m' !! k = Some (buf, false) → buf = written disk out k).
Proof.
  intros Hok Hev. apply evict_loop_spec in Hev as (_ & _ & _ & Hsub & out' & -> & Hno & Hout); [|apply Hok..].
  assert (∀ k, (c_map c !! k = None ∨ is_Some (m' !! k) ∨ ∃ b, c_map c !! k = Some (b, false)) → written disk out' k = disk k) as Hkeep.
  { intros k Hk. apply written_other. intros b [H1 H2]%Hout. destruct Hk as [?|[[? ?]|[? ?]]]; congruence. }
  split_and!.
  - intros k. unfold view. destruct (m' !! k) as [[buf d]|] eqn:Hm'; [by rewrite (Hsub k _ Hm')|].
    destruct (c_map c !! k) as [[buf d]|] eqn:Hm; [|by apply Hkeep; left]. destruct d.
    + apply written_elem; [done|]. by apply Hout.
    + rewrite Hkeep by (right; right; eauto). symmetry. by apply (ok_clean c disk Hok).
  - intros k Hk. apply Hkeep. by left.
  - intros k buf Hk. rewrite Hkeep by (right; left; eauto). by apply (ok_clean c disk Hok), Hsub.
Qed.

Lemma take_dirty_elem c k b : (k, b) ∈ (take_dirty c).2 ↔ c_map c !! k = Some (b, true).
Proof.
  unfold take_dirty. cbn [snd]. rewrite list_elem_of_omap. split.
  - intros ([q [b' d]] & Hin%elem_of_map_to_list & Heq). simpl in Heq. destruct d; by simplify_eq.
  - intros Hm. exists (k, (b, true)). split; [by apply elem_of_map_to_list|done].
Qed.
(** Flushing makes the disk hold everything. *)
Lemma take_dirty_spec c disk :
  cache_ok c disk →
  let '(c', out) := take_dirty c in
  cache_ok c' (written disk out) ∧ (∀ k, written disk out k = view c disk k) ∧
  (∀ k, view c' (written disk out) k = view c disk k) ∧ ∀ k, c_map c' !! k = (λ e, (e.1, false)) <$> c_map c !! k.
Proof.
  intros Hok. pose proof (take_dirty_elem c) as Hout. unfold take_dirty in *. cbn [snd] in Hout. set (f := λ ke : Z * (bytes * bool), _) in *. set (out := omap f _) in *.
  assert (NoDup out.*1) as Hn.
  { clear Hout. subst out. pose proof (NoDup_fst_map_to_list (c_map c)) as Hn. induction (map_to_list (c_map c)) as [|[k [b d]] l IH]; simpl; [constructor|].
    simpl in Hn. apply NoDup_cons in Hn as [Hk Hn]. destruct d; simpl; [|by apply IH]. simpl. constructor; [|by apply IH].
    rewrite list_elem_of_fmap. intros ([q b'] & -> & ([q' [b'' d]] & Hin & Heq)%list_elem_of_omap). subst f. simpl in Heq.
    destruct d; simplify_eq. apply Hk, list_elem_of_fmap. by exists (q, (b', true)). }
  assert (∀ k, written disk out k = view c disk k) as Hw.
  { intros k. unfold view. destruct (c_map c !! k) as [[buf [|]]|] eqn:E.
    - apply written_elem; [done|]. by apply Hout.
    - rewrite written_other; [symmetry; by apply (ok_clean c disk Hok)|]. intros b Hb%Hout. congruence.
    - apply written_other. intros b Hb%Hout. congruence. }
  split_and!; [|done| |].
  - destruct Hok as [H1 H2 H3 H4 H5]. constructor; simpl; try done.
    + intros k. by rewrite lookup_fmap, fmap_is_Some.
    + by rewrite map_size_fmap.
    + intros k buf. rewrite lookup_fmap, Hw. unfold view. destruct (c_map c !! k) as [[b d]|]; simpl; intros; by simplify_eq.
  - intros k. unfold view at 1. simpl. rewrite lookup_fmap, Hw. unfold view. by destruct (c_map c !! k) as [[b d]|].
  - intros k. simpl. by rewrite lookup_fmap.
Qed.

Lemma put_spec c disk key data dirty :
  cache_ok c disk → (dirty = false → data = disk key) → c_map c !! key = None →
  let '(c', out) := put c key data dirty in
  cache_ok c' (written disk out) ∧ c_map c' !! key = Some (data, dirty) ∧
  (∀ k, view c' (written disk out) k = if k =? key then data else view c disk k) ∧
  (∀ k b, (k, b) ∈ out → c_map c !! k = Some (b, true)) ∧
  (∀ k e, k ≠ key → c_map c' !! k = Some e → c_map c !! k = Some e).
Proof.
  intros Hok Hd Hkey. unfold put. rewrite Hkey. destruct (evict_loop _ _ _ _) as [[order' m'] out] eqn:Hev.
  destruct (evicted_view _ _ _ _ _ Hok Hev) as (Hview & Hsame & Hclean).
  apply evict_loop_spec in Hev as (Hn & Hk & Hsz & Hsub & out' & -> & _ & Hout); [|apply Hok..]. simpl app in *.
  assert (m' !! key = None) as Hm'.
  { destruct (m' !! key) eqn:E; [|done]. apply Hsub in E. congruence. }
  split_and!.
  - constructor; simpl.
    + by apply NoDup_touched.
    + intros k. rewrite elem_of_touched, Hk. destruct (decide (k = key)) as [->|Hne].
      * rewrite lookup_insert_eq. split; eauto.
      * rewrite lookup_insert_ne by done. tauto.
    + rewrite map_size_insert_None by done. lia.
    + apply Hok.
    + intros k buf Hb. destruct (decide (k = key)) as [->|Hne].
      * rewrite lookup_insert_eq in Hb. simplify_eq. rewrite Hsame by done. auto.
      * rewrite lookup_insert_ne in Hb by done. by apply Hclean.
  - by apply lookup_insert_eq.
  - intros k. unfold view at 1. simpl. destruct (Z.eqb_spec k key) as [->|Hne]; [by rewrite lookup_insert_eq|].
    rewrite lookup_insert_ne by done. apply Hview.
  - intros k b Hb. by apply Hout in Hb as [? _].
  - intros k e Hne. simpl. rewrite lookup_insert_ne by done. apply Hsub.
Qed.

(** C37: the write-back cache and its disk are one map. Whatever is evicted to
    make room, once the tables [put] hands back are written every key still
    holds what it held, the new one what was put; the cache stays within its
    capacity and its clean tables stay equal to the disk; and flushing the
    dirty tables makes the disk hold everything. *)
Theorem cache_loses_nothing c disk key data dirty :
  cache_ok c disk → (dirty = false → data = disk key) → c_map c !! key = None →
  let '(c', out) := put c key data dirty in
  let disk' := written disk out in
  cache_ok c' disk' ∧ c_map c' !! key = Some (data, dirty) ∧
  (∀ k, view c' disk' k = if k =? key then data else view c disk k) ∧
  let '(c'', flushed) := take_dirty c' in
  cache_ok c'' (written disk' flushed) ∧ (∀ k, written disk' flushed k = view c' disk' k) ∧
  (∀ k, view c'' (written disk' flushed) k = view c' disk' k).
Proof.
  intros Hok Hd Hkey. pose proof (put_spec c disk key data dirty Hok Hd Hkey) as Hput.
  destruct (put c key data dirty) as [c' out]. destruct Hput as (Hok' & ? & ? & _ & _).
  pose proof (take_dirty_spec c' (written disk out) Hok') as Hfl. destruct (take_dirty c') as [c'' flushed].
  destruct Hfl as (? & ? & ? & _). by split_and!.
Qed.

(** ** Packed fields read back *)

Lemma testbit_mod z n p : 0 ≤ n → 0 ≤ p → Z.testbit (z mod 2 ^ n) p = (p <? n) && Z.testbit z p.
Proof.
  intros Hn Hp. destruct (p <? n) eqn:E; bsplit; [by rewrite Z.mod_pow2_bits_low|]. by rewrite Z.mod_pow2_bits_high.
Qed.
Lemma testbit_small z n p : 0 ≤ z < 2 ^ n → 0 ≤ n ≤ p → Z.testbit z p = false.
Proof. intros Hz Hp. rewrite <-(Z.mod_small z (2 ^ n)) by done. rewrite testbit_mod by lia. by rewrite (proj2 (Z.ltb_ge p n)) by lia. Qed.
Lemma testbit_ones w p : 0 ≤ w → 0 ≤ p → Z.testbit (Z.shiftl 1 w - 1) p = (p <? w).
Proof. intros Hw Hp. rewrite Z.shiftl_1_l, Z.sub_1_r, <-Z.ones_equiv. by rewrite Z.testbit_ones_nonneg. Qed.

(** Storing [v] in the [w] bits from [s] changes exactly those bits. *)
Lemma stored_testbit byte v w s p :
  is_u8 byte → 0 ≤ v < 2 ^ w → 0 < w → 0 ≤ s → s + w ≤ 8 → 0 ≤ p →
  Z.testbit (Z.lor (Z.land byte (Z.lxor 255 (wrap8 (Z.shiftl (Z.shiftl 1 w - 1) s))))
                   (wrap8 (Z.shiftl (Z.land (wrap8 v) (Z.shiftl 1 w - 1)) s))) p =
  if (s <=? p) && (p <? s + w) then Z.testbit v (p - s) else Z.testbit byte p.
Proof.
  intros Hb Hv Hw Hs Hsw Hp. unfold wrap8.
  assert (v mod 2 ^ 8 = v) as ->.
  { apply Z.mod_small. assert (2 ^ w ≤ 2 ^ 8) by (apply Z.pow_le_mono_r; lia). lia. }
  rewrite Z.lor_spec, Z.land_spec, Z.lxor_spec, !testbit_mod, !Z.shiftl_spec by lia.
  change 255 with (Z.shiftl 1 8 - 1). rewrite (testbit_ones 8) by lia.
  destruct (p <? 8) eqn:H8; bsplit; cycle 1.
  - rewrite (proj2 (Z.ltb_ge p (s + w))), andb_false_r by lia. simpl.
    rewrite andb_false_r. symmetry. apply (testbit_small byte 8); [exact Hb|lia].
  - simpl. destruct (s <=? p) eqn:Hsp; bsplit; simpl.
    + rewrite Z.land_spec, !testbit_ones by lia. replace (p - s <? w) with (p <? s + w) by (apply eq_true_iff_eq; rewrite !Z.ltb_lt; lia).
      destruct (p <? s + w); simpl; [by rewrite andb_false_r, andb_true_r|by rewrite andb_true_r, andb_false_r, orb_false_r].
    + rewrite !(Z.testbit_neg_r _ (p - s)) by lia. simpl. by rewrite andb_true_r, orb_false_r.
Qed.

Lemma field_testbit byte w s p : 0 < w → 0 ≤ s → 0 ≤ p →
  Z.testbit (Z.land (Z.shiftr byte s) (Z.shiftl 1 w - 1)) p = Z.testbit byte (p + s) && (p <? w).
Proof. intros. by rewrite Z.land_spec, Z.shiftr_spec, testbit_ones by lia. Qed.

(** The stored field reads back, and fields that do not overlap it are as they were. *)
Lemma stored_field byte v w s :
  is_u8 byte → 0 ≤ v < 2 ^ w → 0 < w → 0 ≤ s → s + w ≤ 8 →
  let new := Z.lor (Z.land byte (Z.lxor 255 (wrap8 (Z.shiftl (Z.shiftl 1 w - 1) s))))
                   (wrap8 (Z.shiftl (Z.land (wrap8 v) (Z.shiftl 1 w - 1)) s)) in
  is_u8 new ∧ Z.land (Z.shiftr new s) (Z.shiftl 1 w - 1) = v ∧
  ∀ s', 0 ≤ s' → (s' + w ≤ s ∨ s + w ≤ s') →
    Z.land (Z.shiftr new s') (Z.shiftl 1 w - 1) = Z.land (Z.shiftr byte s') (Z.shiftl 1 w - 1).
Proof.
  intros Hb Hv Hw Hs Hsw new. assert (∀ p, 0 ≤ p → Z.testbit new p = _) as Hbits by (intros p Hp; by apply stored_testbit).
  split_and!.
  - assert (new = new mod 2 ^ 8) as ->; [|unfold is_u8; pose proof (Z.mod_pos_bound new (2 ^ 8)); lia].
    apply Z.bits_inj'. intros p Hp. rewrite testbit_mod by lia. destruct (p <? 8) eqn:H8; [done|]. bsplit. rewrite Hbits by done.
    rewrite (proj2 (Z.ltb_ge p (s + w))), andb_false_r by lia. apply (testbit_small byte 8); [exact Hb|lia].
  - apply Z.bits_inj'. intros p Hp. rewrite field_testbit, Hbits by lia. rewrite (proj2 (Z.leb_le s (p + s))) by lia.
    replace (p + s - s) with p by lia. replace (p + s <? s + w) with (p <? w) by (apply eq_true_iff_eq; rewrite !Z.ltb_lt; lia).
    destruct (p <? w) eqn:E; simpl; [by rewrite andb_true_r|]. rewrite andb_false_r. bsplit. symmetry. apply (testbit_small v w); lia.
  - intros s' Hs' Hdis. apply Z.bits_inj'. intros p Hp. rewrite !field_testbit by lia. rewrite Hbits by lia.
    destruct (p <? w) eqn:E; [|by rewrite !andb_false_r]. bsplit. rewrite !andb_true_r.
    destruct (_ && _) eqn:E2; [|done]. bsplit. lia.
Qed.

Lemma splice_whole {A} (l src : list A) : len src = len l → splice l 0 src = src.
Proof. unfold len, splice. intros Hl. simpl. rewrite drop_ge by lia. apply app_nil_r. Qed.
Lemma be_step v k : 0 ≤ k → v / 2 ^ (k + 8) * 256 + v / 2 ^ k mod 256 = v / 2 ^ k.
Proof.
  intros Hk. assert (0 < 2 ^ k) by (apply Z.pow_pos_nonneg; lia). rewrite Z.pow_add_r, <-Z.div_div by lia.
  change (2 ^ 8) with 256. pose proof (Z.div_mod (v / 2 ^ k) 256 ltac:(lia)). lia.
Qed.
(** The low [n] bytes of a value that fits in them. *)
Lemma of_be_low n v : n ∈ [2%nat; 4%nat; 8%nat] → 0 ≤ v < 2 ^ (8 * Z.of_nat n) → of_be64 (be_low n v) = v ∧ len (be_low n v) = Z.of_nat n.
Proof.
  intros Hn Hv.
  assert (∀ k, 0 ≤ k → v / 2 ^ (k + 8) * 256 + v / 2 ^ k mod 256 = v / 2 ^ k) as Hs by (intros; by apply be_step).
  pose proof (Hs 0 ltac:(lia)) as H0. pose proof (Hs 8 ltac:(lia)) as H1. pose proof (Hs 16 ltac:(lia)) as H2.
  pose proof (Hs 24 ltac:(lia)) as H3. pose proof (Hs 32 ltac:(lia)) as H4. pose proof (Hs 40 ltac:(lia)) as H5.
  pose proof (Hs 48 ltac:(lia)) as H6. pose proof (Hs 56 ltac:(lia)) as H7. clear Hs.
  change (v / 2 ^ 0) with (v / 1) in H0. rewrite Z.div_1_r in H0.
  change (0 + 8) with 8 in H0. change (8 + 8) with 16 in H1. change (16 + 8) with 24 in H2. change (24 + 8) with 32 in H3.
  change (32 + 8) with 40 in H4. change (40 + 8) with 48 in H5. change (48 + 8) with 56 in H6. change (56 + 8) with 64 in H7.
  assert (∀ m, v < m → 0 ≤ v → v / m = 0) as Hz by (intros; by apply Z.div_small).
  repeat (apply elem_of_cons in Hn as [->|Hn]); [| | |by apply elem_of_nil in Hn]; (split; [|done]);
    unfold be_low, u64_be, of_be64; cbn [drop foldl Nat.sub].
  - rewrite (Hz (2 ^ 16)) in H1 by lia. lia.
  - rewrite (Hz (2 ^ 32)) in H3 by lia. lia.
  - rewrite (Hz (2 ^ 64)) in H7 by lia. lia.
Qed.

Lemma bytes_ok_be_low n v : bytes_ok (be_low n v).
Proof. unfold be_low. apply bytes_ok_drop. unfold u64_be. repeat (constructor; [apply is_u8_mod|]). constructor. Qed.

Lemma pow2_width w : w ∈ [1; 2; 4; 8] → 0 < w ∧ ∃ m, 8 = m * w ∧ 0 < m.
Proof.
  intros Hw. repeat (apply elem_of_cons in Hw as [->|Hw]); [..|by apply elem_of_nil in Hw]; (split; [lia|]).
  - by exists 8.
  - by exists 4.
  - by exists 2.
  - by exists 1.
Qed.
(** Field [i] of width [w] lies in one byte, and the fields of a byte do not overlap. *)
Lemma field_place w i j :
  w ∈ [1; 2; 4; 8] → 0 ≤ i → 0 ≤ j →
  0 ≤ i * w mod 8 ∧ i * w mod 8 + w ≤ 8 ∧ 0 ≤ i * w / 8 ∧
  (i ≠ j → i * w / 8 = j * w / 8 → j * w mod 8 + w ≤ i * w mod 8 ∨ i * w mod 8 + w ≤ j * w mod 8).
Proof.
  intros (Hw & m & Hm & Hm0)%pow2_width Hi Hj.
  assert (∀ x, 0 ≤ x → x * w mod 8 = (x mod m) * w ∧ x * w / 8 = x / m) as Hx.
  { intros x Hx0. rewrite Hm. split; [by rewrite Z.mul_mod_distr_r by lia|by rewrite Z.div_mul_cancel_r by lia]. }
  destruct (Hx i Hi) as [-> ->], (Hx j Hj) as [-> ->].
  pose proof (Z.mod_pos_bound i m ltac:(lia)). pose proof (Z.mod_pos_bound j m ltac:(lia)).
  pose proof (Z.div_mod i m ltac:(lia)). pose proof (Z.div_mod j m ltac:(lia)).
  split_and!; [nia|nia|apply Z.div_pos; lia|]. intros Hne Hq. rewrite Hq in *.
  assert (i mod m ≠ j mod m) by congruence. nia.
Qed.

Lemma of_be64_bound (l : bytes) : bytes_ok l → 0 ≤ of_be64 l < 2 ^ (8 * len l).
Proof.
  intros Hl. unfold of_be64. cut (∀ a n, 0 ≤ n → 0 ≤ a < 2 ^ n → 0 ≤ foldl (λ acc x, acc * 256 + x) a l < 2 ^ (n + 8 * len l)).
  { intros Hg. apply (Hg 0 0); lia. }
  induction Hl as [|x l Hx Hl IH]; intros a n Hn Ha; [rewrite Z.add_0_r; done|]. rewrite len_cons. simpl foldl.
  replace (n + 8 * (1 + len l)) with (n + 8 + 8 * len l) by lia. apply IH; [lia|]. rewrite Z.pow_add_r by lia. change (2 ^ 8) with 256.
  unfold is_u8 in Hx. lia.
Qed.
Lemma bits_get_ret buf w i :
  w ∈ [1; 2; 4; 8; 16; 32; 64] → bytes_ok buf → 0 ≤ i → (i + 1) * w ≤ 8 * len buf → ∃ v, bits_get buf i w = Ret v ∧ 0 ≤ v < 2 ^ w.
Proof.
  intros Hw Hok Hi Hr. unfold bits_get. destruct (decide (w ∈ [1; 2; 4; 8])) as [Hs|Hs].
  - rewrite (bool_decide_true (w ∈ [1; 2; 4; 8])) by done. destruct (field_place w i i Hs Hi Hi) as (_ & _ & Hq0 & _).
    pose proof (pow2_width w Hs) as (Hw0 & _). rewrite idx_chk_ret by (split; [done|apply Z.div_lt_upper_bound; lia]).
    eexists. split; [done|]. rewrite Z.shiftl_1_l, Z.sub_1_r, <-Z.ones_equiv, Z.land_ones by lia. apply Z.mod_pos_bound. apply Z.pow_pos_nonneg; lia.
  - assert (w ∈ [16; 32; 64]) as Hb by (rewrite !elem_of_cons in *; tauto).
    rewrite (bool_decide_false (w ∈ [1; 2; 4; 8])), (bool_decide_true (w ∈ [16; 32; 64])) by done.
    assert (∃ n, w = 8 * n ∧ 0 < n) as (n & -> & Hn0).
    { clear -Hb. repeat (apply elem_of_cons in Hb as [->|Hb]); [by exists 2|by exists 4|by exists 8|by apply elem_of_nil in Hb]. }
    replace (8 * n / 8) with n by (rewrite Z.mul_comm, Z.div_mul; lia). rewrite slice_chk_ret by nia. eexists. split; [done|].
    pose proof (of_be64_bound (slice buf (i * n) (i * n + n)) ltac:(by apply bytes_ok_slice)) as Hbd.
    rewrite len_slice in Hbd by nia. replace (i * n + n - i * n) with n in Hbd by lia. done.
Qed.

(** Packed refcounts are independent. *)
Lemma bits_set_spec buf w i v :
  w ∈ [1; 2; 4; 8; 16; 32; 64] → bytes_ok buf → 0 ≤ i → (i + 1) * w ≤ 8 * len buf → 0 ≤ v < 2 ^ w →
  ∃ buf', bits_set buf i w v = Ret buf' ∧ len buf' = len buf ∧ bytes_ok buf' ∧ bits_get buf' i w = Ret v ∧
    ∀ j, 0 ≤ j → j ≠ i → (j + 1) * w ≤ 8 * len buf → bits_get buf' j w = bits_get buf j w.
Proof.
  intros Hw Hok Hi Hr Hv. unfold bits_set, bits_get. destruct (decide (w ∈ [1; 2; 4; 8])) as [Hs|Hs].
  - rewrite !(bool_decide_true (w ∈ [1; 2; 4; 8])) by done. pose proof (pow2_width w Hs) as (Hw0 & _).
    destruct (field_place w i i Hs Hi Hi) as (Hp0 & Hp1 & Hq0 & _).
    assert (∀ x, 0 ≤ x → (x + 1) * w ≤ 8 * len buf → x * w / 8 < len buf) as Hin.
    { intros x Hx Hxr. apply Z.div_lt_upper_bound; lia. }
    rewrite idx_chk_ret by (split; [done|by apply Hin]). cbn [mbind outcome_bind].
    destruct (stored_field (idx buf (i * w / 8)) v w (i * w mod 8)) as (Hu & Hsame & Hother); try done; [by apply idx_u8|].
    set (new := Z.lor _ _) in *. rewrite copy_at_ret by (change (len [new]) with 1; pose proof (Hin i Hi Hr); lia).
    assert (len (splice buf (i * w / 8) [new]) = len buf) as Hlen.
    { apply len_splice; [done|]. change (len [new]) with 1. pose proof (Hin i Hi Hr). lia. }
    eexists. split; [done|]. split_and!; [done| | |].
    + apply bytes_ok_splice; [done|]. by constructor.
    + rewrite idx_chk_ret by (rewrite Hlen; split; [done|by apply Hin]). cbn [mbind outcome_bind].
      rewrite idx_splice_in; [|done|change (len [new]) with 1; pose proof (Hin i Hi Hr); lia..].
      replace (i * w / 8 - i * w / 8) with 0 by lia. change (idx [new] 0) with new. by rewrite Hsame.
    + intros j Hj Hne Hjr. destruct (field_place w j i Hs Hj Hi) as (Hj0 & _ & Hjq & Hdis).
      rewrite !idx_chk_ret by (rewrite ?Hlen; split; [done|by apply Hin]). cbn [mbind outcome_bind].
      destruct (decide (j * w / 8 = i * w / 8)) as [Hq|Hq].
      * rewrite Hq, idx_splice_in; [|done|change (len [new]) with 1; pose proof (Hin i Hi Hr); lia..].
        replace (i * w / 8 - i * w / 8) with 0 by lia. change (idx [new] 0) with new. f_equal. apply Hother; [done|].
        destruct (Hdis Hne Hq); lia.
      * rewrite idx_splice_out; [done|done|change (len [new]) with 1; pose proof (Hin i Hi Hr); lia|done|].
        change (len [new]) with 1. lia.
  - assert (w ∈ [16; 32; 64]) as Hb.
    { rewrite !elem_of_cons in *. tauto. }
    rewrite !(bool_decide_false (w ∈ [1; 2; 4; 8])), !(bool_decide_true (w ∈ [16; 32; 64])) by done.
    assert (∃ n, w = 8 * Z.of_nat n ∧ n ∈ [2%nat; 4%nat; 8%nat]) as (n & -> & Hn).
    { clear -Hb. repeat (apply elem_of_cons in Hb as [->|Hb]); [exists 2%nat|exists 4%nat|exists 8%nat|by apply elem_of_nil in Hb];
        (split; [done|]); concrete. }
    replace (8 * Z.of_nat n / 8) with (Z.of_nat n) by (rewrite Z.mul_comm, Z.div_mul; lia). rewrite Nat2Z.id.
    destruct (of_be_low n v Hn Hv) as [Hbe Hlb].
    rewrite copy_at_ret by (rewrite ?Hlb; nia).
    assert (len (splice buf (i * Z.of_nat n) (be_low n v)) = len buf) as Hlen by (apply len_splice; rewrite ?Hlb; nia).
    eexists. split; [done|]. split_and!; [done| | |].
    + apply bytes_ok_splice; [done|apply bytes_ok_be_low].
    + rewrite slice_chk_ret by (rewrite ?Hlen; nia). cbn [mbind outcome_bind].
      rewrite slice_splice_in by (rewrite ?Hlb; nia). rewrite Z.sub_diag, splice_whole, Hbe; [done|].
      rewrite Hlb, len_slice by nia. lia.
    + intros j Hj Hne Hjr. rewrite !slice_chk_ret by (rewrite ?Hlen; nia). cbn [mbind outcome_bind].
      rewrite slice_splice_out; [done|nia|nia|rewrite Hlb; nia|]. rewrite Hlb.
      destruct (Z.lt_total j i) as [?|[?|?]]; [left; nia|done|right; nia].
Qed.

(** For every width a header may ask for, storing a value that fits in a
    field of a refcount block keeps the block's size and its bytes bytes,
    reads back as that value, and leaves every other field as it was. *)
Theorem refcount_fields buf w i v :
  w ∈ [1; 2; 4; 8; 16; 32; 64] → bytes_ok buf → 0 ≤ i → (i + 1) * w ≤ 8 * len buf → 0 ≤ v < 2 ^ w →
  ∃ buf', bits_set buf i w v = Ret buf' ∧ len buf' = len buf ∧ bytes_ok buf' ∧ bits_get buf' i w = Ret v ∧
    ∀ j, 0 ≤ j → j ≠ i → (j + 1) * w ≤ 8 * len buf → bits_get buf' j w = bits_get buf j w.
Proof. exact (bits_set_spec buf w i v). Qed.

(** ** Witnesses *)

(** A full cache of two tables, the older one dirty. *)
Definition sample_cache : TableCache := mkCache (<[4 := ([1], true)]> (<[7 := ([2], false)]> ∅)) [4; 7] 2.
Definition sample_tables (k : Z) : bytes := if k =? 7 then [2] else [0].

Lemma sample_cache_ok : cache_ok sample_cache sample_tables.
Proof.
  constructor; [concrete| |concrete|done|].
  - intros k. change (c_order sample_cache) with [4; 7]. change (c_map sample_cache) with (<[4 := ([1], true)]> (<[7 := ([2], false)]> (∅ : gmap Z (bytes * bool)))).
    destruct (decide (k = 4)) as [->|H4]; [rewrite lookup_insert_eq; split; [by eexists|set_solver]|]. rewrite lookup_insert_ne by done.
    destruct (decide (k = 7)) as [->|H7]; [rewrite lookup_insert_eq; split; [by eexists|set_solver]|]. rewrite lookup_insert_ne, lookup_empty by done.
    split; [set_solver|by intros []].
  - intros k buf. change (c_map sample_cache) with (<[4 := ([1], true)]> (<[7 := ([2], false)]> (∅ : gmap Z (bytes * bool)))).
    rewrite lookup_insert_Some, lookup_insert_Some, lookup_empty. naive_solver.
Qed.

(** Loading table 9 evicts the dirty table 4, which is written. *)
Lemma cache_loses_nothing_witness :
  (put sample_cache 9 [0] false).2 = [(4, [1])] ∧
  let '(c', out) := put sample_cache 9 [0] false in
  cache_ok c' (written sample_tables out) ∧ view c' (written sample_tables out) 4 = [1].
Proof.
  split; [concrete|]. pose proof (cache_loses_nothing sample_cache sample_tables 9 [0] false sample_cache_ok (λ _, eq_refl) eq_refl) as H.
  destruct (put sample_cache 9 [0] false) as [c' out]. destruct H as (H1 & _ & H3 & _). split; [exact H1|]. rewrite H3. reflexivity.
Defined.

Lemma refcount_fields_witness :
  bits_set [255; 0] 2 4 5 = Ret [255; 5] ∧ ∃ buf', bits_set [255; 0] 2 4 5 = Ret buf' ∧ bits_get buf' 3 4 = bits_get [255; 0] 3 4.
Proof.
  split; [reflexivity|].
  destruct (refcount_fields [255; 0] 4 2 5 ltac:(concrete) ltac:(repeat constructor; lia) ltac:(lia) ltac:(concrete) ltac:(lia)) as (buf' & H & _ & _ & _ & Hj).
  exists buf'. split; [exact H|]. apply Hj; [lia|lia|concrete].
Defined.
