(* ===== verification/Disk.v ===== *)
(** * Disk images: the format seam and raw images ([hv/crates/vmlab-disk/src/{lib,raw}.rs])

    [DiskImage] and [ReadTarget] are the source's traits, as classes of the
    operations a reader uses. [DiskContents] is what an image promises to the
    image that has it as its backing file: reads in range succeed and return
    the bytes of one fixed content. Raw images implement it. *)

From S2P Require Import Prelude.

(** ** Results and the state monad of an image's methods *)

Inductive DiskError := Io | Format | Unsupported | SnapshotNotFound | ReadOnly.

(** [Result<T>] of the crate; a panic and an exhausted loop bound are values
    of their own. *)
Inductive dres (A : Type) :=
| DOk (a : A)
| DErr (e : DiskError)
| DPanic
| DFuel.
Arguments DOk {A} _.
Arguments DErr {A} _.
Arguments DPanic {A}.
Arguments DFuel {A}.

(** [fn f(&mut self, ..) -> Result<A>]: an error keeps the state changes made
    before it. *)
Definition dstate (S A : Type) : Type := S → S * dres A.

#[global] Instance dstate_ret S : MRet (dstate S) := λ A a s, (s, DOk a).
#[global] Instance dstate_bind S : MBind (dstate S) := λ A B f m s,
  match m s with
  | (s, DOk a) => f a s
  | (s, DErr e) => (s, DErr e)
  | (s, DPanic) => (s, DPanic)
  | (s, DFuel) => (s, DFuel)
  end.

Definition dfail {S A} (e : DiskError) : dstate S A := λ s, (s, DErr e).
Definition dpure {S A} (r : dres A) : dstate S A := λ s, (s, r).
Definition dgets {S A} (f : S → A) : dstate S A := λ s, (s, DOk (f s)).
Definition dmodify {S} (f : S → S) : dstate S unit := λ s, (f s, DOk tt).
Definition of_outcome {A} (x : outcome A) : dres A := match x with Ret a => DOk a | Panic => DPanic end.
(** A method of one of two objects a function works on. *)
Definition on_fst {S T A} (m : dstate S A) : dstate (S * T) A := λ st, let '(s, r) := m st.1 in ((s, st.2), r).
Definition on_snd {S T A} (m : dstate T A) : dstate (S * T) A := λ st, let '(t, r) := m st.2 in ((st.1, t), r).

Lemma dbind_ok {S A B} (m : dstate S A) (f : A → dstate S B) s s' a :
  m s = (s', DOk a) → (m ≫= f) s = f a s'.
Proof. intros H. unfold mbind, dstate_bind. by rewrite H. Qed.

Lemma assoc_bind {S A1 A2 A3} (s : S) (m : dstate S A1) (f : A1 → dstate S A2) (g : A2 → dstate S A3) :
  (x ← m; y ← f x; g y) s = (y ← (x ← m; f x); g y) s.
Proof. unfold mbind, dstate_bind. destruct (m s) as [s' [a| | |]]; done. Qed.

(** ** Files *)

(** [read_exact_at] and [write_all_at] on a file's bytes; a write past the
    end leaves zeros between. *)
Definition read_exact_at (f : bytes) (off n : Z) : dres bytes :=
  if (n =? 0) || (off + n <=? len f) then DOk (slice f off (off + n)) else DErr Io.
Definition write_all_at (f : bytes) (off : Z) (b : bytes) : bytes :=
  if len b =? 0 then f else splice (f ++ replicate (Z.to_nat (off + len b - len f)) 0) off b.

(** ** The traits *)

(** [ReadTarget]: [write_all], and the provided methods built on it, which go
    through a scratch buffer of [SCRATCH] bytes. *)
Class ReadTarget (W : Type) := { write_all : bytes → dstate W unit }.

Definition SCRATCH : Z := 65536.

Fixpoint zero `{ReadTarget W} (fuel : nat) (n : Z) : dstate W unit :=
  if n =? 0 then mret tt else
  match fuel with
  | O => dpure DFuel
  | S fuel =>
      let count := Z.min n SCRATCH in
      _ ← write_all (replicate (Z.to_nat count) 0);
      zero fuel (n - count)
  end.

Fixpoint target_read_file `{ReadTarget W} (fuel : nat) (f : bytes) (offset n : Z) : dstate W unit :=
  if n =? 0 then mret tt else
  match fuel with
  | O => dpure DFuel
  | S fuel =>
      let count := Z.min n SCRATCH in
      b ← dpure (read_exact_at f offset count);
      _ ← write_all b;
      target_read_file fuel f (offset + count) (n - count)
  end.

Definition U64_MAX : Z := 2 ^ 64 - 1.

(** [offset.checked_add(len).is_some_and(|end| end <= size)]. *)
Definition check_read {S} (offset n size : Z) : dstate S unit :=
  if (offset + n <=? U64_MAX) && (offset + n <=? size) then mret tt else dfail Unsupported.

(** The reading half of [DiskImage]; [read_at] takes the length of the
    caller's buffer and returns what it leaves in it. *)
Class DiskImage (T : Type) := {
  size : T → Z;
  read_at : Z → Z → dstate T bytes;
  read_into `{ReadTarget W} : Z → Z → dstate (T * W) unit }.

(** The writing half. *)
Class DiskWrite (T : Type) := {
  write_at : Z → bytes → dstate T unit;
  flush : dstate T unit }.

(** ** What an image promises *)

(** The [n] bytes of a content from [off] on. *)
Definition content_at (content : Z → Z) (off n : Z) : bytes := (λ i, content (off + i)) <$> seqZ 0 n.

(** Targets that take everything: what was collected grows by what is
    written. *)
Class Collects (W : Type) `{ReadTarget W} := {
  collected : W → bytes;
  write_all_collects w b : ∃ w', write_all b w = (w', DOk tt) ∧ collected w' = collected w ++ b }.

(** A valid image has a content that reading does not change, and reads in
    range return it. *)
Class DiskContents (T : Type) `{DiskImage T} := {
  image_ok : T → Prop;
  content : T → Z → Z;
  size_range t : image_ok t → 0 ≤ size t ≤ U64_MAX;
  read_at_content t off n : image_ok t → 0 ≤ off → 0 ≤ n → off + n ≤ size t →
    ∃ t', read_at off n t = (t', DOk (content_at (content t) off n)) ∧
      image_ok t' ∧ size t' = size t ∧ ∀ o, content t' o = content t o;
  read_at_refused t off n : size t < off + n → read_at off n t = (t, DErr Unsupported);
  read_into_content `{Collects W} t w off n : image_ok t → 0 ≤ off → 0 ≤ n → off + n ≤ size t →
    ∃ t' w', read_into off n (t, w) = ((t', w'), DOk tt) ∧ collected w' = collected w ++ content_at (content t) off n ∧
      image_ok t' ∧ size t' = size t ∧ ∀ o, content t' o = content t o }.

(** ** Raw images *)

Record RawImage := mkRaw { raw_file : bytes; raw_size : Z; raw_read_only : bool }.

Definition raw_open (file : bytes) (read_only : bool) : RawImage := mkRaw file (len file) read_only.

Definition raw_read_at (offset n : Z) : dstate RawImage bytes :=
  img ← dgets id;
  if U64_MAX <? offset + n then dfail Unsupported
  else if raw_size img <? offset + n then dfail Unsupported
  else dpure (read_exact_at (raw_file img) offset n).

Definition raw_write_at (offset : Z) (b : bytes) : dstate RawImage unit :=
  img ← dgets id;
  if raw_read_only img then dfail ReadOnly
  else if U64_MAX <? offset + len b then dfail Unsupported
  else if raw_size img <? offset + len b then dfail Unsupported
  else dmodify (λ img, mkRaw (write_all_at (raw_file img) offset b) (raw_size img) (raw_read_only img)).

Definition raw_read_into `{ReadTarget W} (offset n : Z) : dstate (RawImage * W) unit :=
  st ← dgets id;
  _ ← check_read offset n (raw_size st.1);
  on_snd (target_read_file (Z.to_nat n) (raw_file st.1) offset n).

Definition raw_discard (offset n : Z) : dstate RawImage unit :=
  img ← dgets id; if raw_read_only img then dfail ReadOnly else mret tt.

(** [sync_all] is the operating system's. *)
Definition raw_flush : dstate RawImage unit := mret tt.

#[global] Instance RawImage_DiskImage : DiskImage RawImage := {|
  size := raw_size; read_at := raw_read_at; read_into W _ := raw_read_into |}.
#[global] Instance RawImage_DiskWrite : DiskWrite RawImage := {| write_at := raw_write_at; flush := raw_flush |}.

(** ** Contents of files and targets *)

Lemma len_content_at c off n : 0 ≤ n → len (content_at c off n) = n.
Proof. intros. unfold content_at, len. rewrite length_fmap, length_seqZ. lia. Qed.
Lemma content_at_0 c off : content_at c off 0 = [].
Proof. done. Qed.
Lemma content_at_app c off a b : 0 ≤ a → 0 ≤ b → content_at c off (a + b) = content_at c off a ++ content_at c (off + a) b.
Proof.
  intros. unfold content_at. rewrite seqZ_app, fmap_app by lia. f_equal. rewrite <-(Z.add_0_r (0 + a)), <-fmap_add_seqZ, <-list_fmap_compose.
  apply list_fmap_ext. intros i x _. simpl. f_equal. lia.
Qed.
Lemma content_at_ext c c' off n : (∀ i, 0 ≤ i < n → c (off + i) = c' (off + i)) → content_at c off n = content_at c' off n.
Proof. intros Hc. unfold content_at. apply list_fmap_ext. intros i x Hx%list_elem_of_lookup_2%elem_of_seqZ. apply Hc. lia. Qed.
Lemma idx_content_at c off n i : 0 ≤ i < n → idx (content_at c off n) i = c (off + i).
Proof.
  intros Hi. unfold idx, content_at. rewrite nth_lookup, list_lookup_fmap, lookup_seqZ_lt by lia. simpl. f_equal. lia.
Qed.
(** A list is the content of which it has the bytes. *)
Lemma content_at_list (l : bytes) c off n :
  len l = n → (∀ i, 0 ≤ i < n → idx l i = c (off + i)) → l = content_at c off n.
Proof.
  intros Hl Hi. pose proof (len_nonneg l). apply idx_ext; [rewrite len_content_at; lia|].
  intros i Hr. rewrite Hl in Hr. rewrite idx_content_at by done. by apply Hi.
Qed.
Lemma slice_content f off n : 0 ≤ off → 0 ≤ n → off + n ≤ len f → slice f off (off + n) = content_at (idx f) off n.
Proof. intros. apply content_at_list; [rewrite len_slice; lia|]. intros i Hi. rewrite idx_slice by lia. done. Qed.

Lemma read_exact_at_content f off n :
  0 ≤ off → 0 ≤ n → off + n ≤ len f → read_exact_at f off n = DOk (content_at (idx f) off n).
Proof. intros. unfold read_exact_at. rewrite (proj2 (Z.leb_le _ _)), orb_true_r, slice_content by lia. done. Qed.

Section targets.
Context `{Collects W}.

Lemma zero_collects fuel n w : 0 ≤ n ≤ Z.of_nat fuel →
  ∃ w', zero fuel n w = (w', DOk tt) ∧ collected w' = collected w ++ content_at (λ _, 0) 0 n.
Proof.
  revert n w. induction fuel as [|fuel IH]; intros n w Hn; simpl.
  - assert (n = 0) as -> by lia. eexists. split; [done|]. by rewrite app_nil_r.
  - destruct (Z.eqb_spec n 0) as [->|Hne]; [eexists; split; [done|]; by rewrite app_nil_r|].
    set (count := Z.min n SCRATCH). assert (0 < count ≤ n) by (unfold count, SCRATCH; lia).
    destruct (write_all_collects w (replicate (Z.to_nat count) 0)) as (w1 & Hw & Hc). rewrite (dbind_ok _ _ _ _ _ Hw).
    destruct (IH (n - count) w1 ltac:(lia)) as (w2 & Hz & Hc2). exists w2. split; [done|]. rewrite Hc2, Hc, <-app_assoc. f_equal.
    replace n with (count + (n - count)) at 2 by lia. rewrite content_at_app by lia. f_equal.
    apply content_at_list; [rewrite len_replicate; lia|]. intros i Hi. unfold idx. rewrite nth_lookup, lookup_replicate_2 by lia. done.
Qed.

Lemma target_read_file_collects fuel f off n w : 0 ≤ n ≤ Z.of_nat fuel → 0 ≤ off → off + n ≤ len f →
  ∃ w', target_read_file fuel f off n w = (w', DOk tt) ∧ collected w' = collected w ++ content_at (idx f) off n.
Proof.
  revert off n w. induction fuel as [|fuel IH]; intros off n w Hn Hoff Hl; simpl.
  - assert (n = 0) as -> by lia. eexists. split; [done|]. by rewrite app_nil_r.
  - destruct (Z.eqb_spec n 0) as [->|Hne]; [eexists; split; [done|]; by rewrite app_nil_r|].
    set (count := Z.min n SCRATCH). assert (0 < count ≤ n) by (unfold count, SCRATCH; lia).
    rewrite read_exact_at_content by lia. rewrite (dbind_ok _ _ w w (content_at (idx f) off count)) by done.
    destruct (write_all_collects w (content_at (idx f) off count)) as (w1 & Hw & Hc). rewrite (dbind_ok _ _ _ _ _ Hw).
    destruct (IH (off + count) (n - count) w1) as (w2 & Hz & Hc2); [lia..|]. exists w2. split; [done|].
    rewrite Hc2, Hc, <-app_assoc. f_equal. replace n with (count + (n - count)) at 2 by lia. by rewrite content_at_app by lia.
Qed.
End targets.

Lemma check_read_ok {S} (s : S) off n sz : off + n ≤ sz → sz ≤ U64_MAX → check_read off n sz s = (s, DOk tt).
Proof. intros. unfold check_read. rewrite !(proj2 (Z.leb_le _ _)) by lia. done. Qed.

(** ** Raw images keep the promise *)

#[global, program] Instance RawImage_contents : DiskContents RawImage := {|
  image_ok img := raw_size img = len (raw_file img) ∧ raw_size img ≤ U64_MAX;
  content img := idx (raw_file img) |}.
Next Obligation. intros [f sz ro] [? ?]. simpl in *. subst. pose proof (len_nonneg f). lia. Qed.
Next Obligation.
  intros [f sz ro] off n [Hsz Hmax] Hoff Hn Hr. simpl in *. exists (mkRaw f sz ro). split_and!; try done.
  unfold raw_read_at, mbind, dstate_bind, dgets. simpl.
  rewrite !(proj2 (Z.ltb_ge _ _)) by lia. unfold dpure. by rewrite read_exact_at_content by lia.
Qed.
Next Obligation.
  intros [f sz ro] off n Hr. simpl in *. unfold raw_read_at, mbind, dstate_bind, dgets. simpl.
  destruct (_ <? _); [done|]. by rewrite (proj2 (Z.ltb_lt _ _)) by lia.
Qed.
Next Obligation.
  intros W T C [f sz ro] w off n [Hsz Hmax] Hoff Hn Hr. simpl in *.
  destruct (target_read_file_collects (Z.to_nat n) f off n w) as (w' & Hw & Hc); [lia..|].
  exists (mkRaw f sz ro), w'. split_and!; try done. unfold raw_read_into.
  rewrite (dbind_ok _ _ _ (mkRaw f sz ro, w) (mkRaw f sz ro, w)) by done. simpl.
  rewrite (dbind_ok _ _ _ (mkRaw f sz ro, w) tt) by (apply check_read_ok; lia). unfold on_snd. simpl. by rewrite Hw.
Qed.
