(* ===== verification/Qcow2.v ===== *)
(** * qcow2 images: reading ([hv/crates/vmlab-disk/src/qcow2/mod.rs])

    The image's state, its two-level mapping from guest clusters to the file,
    and every operation of the read path: [load_l2] through the write-back
    cache, [read_extent] (which coalesces adjacent clusters), [read_bytes],
    [read_target] and the trait methods. The image is over any backing image
    of the [DiskImage] interface and itself implements that interface, so the
    theorems hold for backing chains of any depth. *)

From S2P Require Import Prelude TableCache Disk.

(** Decompression is a third-party crate: [inflate] takes the compressed
    bytes and the output buffer and gives the buffer it leaves, [None] for an
    error. *)
Class Inflate := { inflate : bytes → bytes → option bytes }.
(** The output is a slice of fixed length. *)
Class InflateLaws `{Inflate} := { inflate_len c out out' : inflate c out = Some out' → len out' = len out }.

Definition OFFSET_MASK : Z := 0x00fffffffffffe00.
Definition COMPRESSED_BIT : Z := Z.shiftl 1 62.
Definition COPIED_BIT : Z := Z.shiftl 1 63.
Definition ZERO_BIT : Z := 1.

Inductive ReadSource := Backing | Zero | File (host : Z) | Compressed (entry : Z).

Definition from_entry (entry in_cluster : Z) : ReadSource :=
  if negb (Z.land entry COMPRESSED_BIT =? 0) then Compressed entry
  else if negb (Z.land entry ZERO_BIT =? 0) then Zero
  else if Z.land entry OFFSET_MASK =? 0 then Backing
  else File (Z.land entry OFFSET_MASK + in_cluster).

Record BackingRef := mkBackingRef { b_name : bytes; b_format : option bytes }.
Record FreeClusters := mkFree { free_set : gset Z; scan_next : Z }.

Section qcow2.
Context {B : Type} `{DiskImage B} `{Inflate}.

Record Qcow2Image := mkQcow2 {
  q_file : bytes;
  q_read_only : bool;
  q_version : Z;
  cluster_bits : Z;
  cluster_size : Z;
  q_size : Z;
  l1_size : Z;
  l1_table_offset : Z;
  refcount_table_offset : Z;
  refcount_table_clusters : Z;
  refcount_bits : Z;
  nb_snapshots : Z;
  snapshots_offset : Z;
  header_cluster : bytes;
  backing : option BackingRef;
  backing_image : option B;
  l1 : list Z;
  refcount_table : list Z;
  l2_cache : TableCache;
  refblock_cache : TableCache;
  q_free : FreeClusters;
  header_dirty : bool;
  l1_dirty : bool;
  refcount_table_dirty : bool }.

(** Assignments to single fields. *)
Definition set_file (x : bytes) (q : Qcow2Image) : Qcow2Image :=
    mkQcow2 x (q_read_only q) (q_version q) (cluster_bits q) (cluster_size q) (q_size q) (l1_size q) (l1_table_offset
    q) (refcount_table_offset q) (refcount_table_clusters q) (refcount_bits q) (nb_snapshots q) (snapshots_offset q)
    (header_cluster q) (backing q) (backing_image q) (l1 q) (refcount_table q) (l2_cache q) (refblock_cache q) (q_free
    q) (header_dirty q) (l1_dirty q) (refcount_table_dirty q).
Definition set_l2_cache (x : TableCache) (q : Qcow2Image) : Qcow2Image :=
    mkQcow2 (q_file q) (q_read_only q) (q_version q) (cluster_bits q) (cluster_size q) (q_size q) (l1_size q)
    (l1_table_offset q) (refcount_table_offset q) (refcount_table_clusters q) (refcount_bits q) (nb_snapshots q)
    (snapshots_offset q) (header_cluster q) (backing q) (backing_image q) (l1 q) (refcount_table q) x (refblock_cache
    q) (q_free q) (header_dirty q) (l1_dirty q) (refcount_table_dirty q).
Definition set_backing_image (x : option B) (q : Qcow2Image) : Qcow2Image :=
    mkQcow2 (q_file q) (q_read_only q) (q_version q) (cluster_bits q) (cluster_size q) (q_size q) (l1_size q)
    (l1_table_offset q) (refcount_table_offset q) (refcount_table_clusters q) (refcount_bits q) (nb_snapshots q)
    (snapshots_offset q) (header_cluster q) (backing q) x (l1 q) (refcount_table q) (l2_cache q) (refblock_cache q)
    (q_free q) (header_dirty q) (l1_dirty q) (refcount_table_dirty q).
Definition set_header_cluster (x : bytes) (q : Qcow2Image) : Qcow2Image :=
    mkQcow2 (q_file q) (q_read_only q) (q_version q) (cluster_bits q) (cluster_size q) (q_size q) (l1_size q)
    (l1_table_offset q) (refcount_table_offset q) (refcount_table_clusters q) (refcount_bits q) (nb_snapshots q)
    (snapshots_offset q) x (backing q) (backing_image q) (l1 q) (refcount_table q) (l2_cache q) (refblock_cache q)
    (q_free q) (header_dirty q) (l1_dirty q) (refcount_table_dirty q).
Definition set_refblock_cache (x : TableCache) (q : Qcow2Image) : Qcow2Image :=
    mkQcow2 (q_file q) (q_read_only q) (q_version q) (cluster_bits q) (cluster_size q) (q_size q) (l1_size q)
    (l1_table_offset q) (refcount_table_offset q) (refcount_table_clusters q) (refcount_bits q) (nb_snapshots q)
    (snapshots_offset q) (header_cluster q) (backing q) (backing_image q) (l1 q) (refcount_table q) (l2_cache q) x
    (q_free q) (header_dirty q) (l1_dirty q) (refcount_table_dirty q).
Definition set_header_dirty (x : bool) (q : Qcow2Image) : Qcow2Image :=
    mkQcow2 (q_file q) (q_read_only q) (q_version q) (cluster_bits q) (cluster_size q) (q_size q) (l1_size q)
    (l1_table_offset q) (refcount_table_offset q) (refcount_table_clusters q) (refcount_bits q) (nb_snapshots q)
    (snapshots_offset q) (header_cluster q) (backing q) (backing_image q) (l1 q) (refcount_table q) (l2_cache q)
    (refblock_cache q) (q_free q) x (l1_dirty q) (refcount_table_dirty q).
Definition set_l1_dirty (x : bool) (q : Qcow2Image) : Qcow2Image :=
    mkQcow2 (q_file q) (q_read_only q) (q_version q) (cluster_bits q) (cluster_size q) (q_size q) (l1_size q)
    (l1_table_offset q) (refcount_table_offset q) (refcount_table_clusters q) (refcount_bits q) (nb_snapshots q)
    (snapshots_offset q) (header_cluster q) (backing q) (backing_image q) (l1 q) (refcount_table q) (l2_cache q)
    (refblock_cache q) (q_free q) (header_dirty q) x (refcount_table_dirty q).
Definition set_refcount_table_dirty (x : bool) (q : Qcow2Image) : Qcow2Image :=
    mkQcow2 (q_file q) (q_read_only q) (q_version q) (cluster_bits q) (cluster_size q) (q_size q) (l1_size q)
    (l1_table_offset q) (refcount_table_offset q) (refcount_table_clusters q) (refcount_bits q) (nb_snapshots q)
    (snapshots_offset q) (header_cluster q) (backing q) (backing_image q) (l1 q) (refcount_table q) (l2_cache q)
    (refblock_cache q) (q_free q) (header_dirty q) (l1_dirty q) x.
Definition set_refcount_table (x : list Z) (q : Qcow2Image) : Qcow2Image :=
  mkQcow2 (q_file q) (q_read_only q) (q_version q) (cluster_bits q) (cluster_size q) (q_size q) (l1_size q)
    (l1_table_offset q) (refcount_table_offset q) (refcount_table_clusters q) (refcount_bits q) (nb_snapshots q)
    (snapshots_offset q) (header_cluster q) (backing q) (backing_image q) (l1 q) x (l2_cache q) (refblock_cache q)
    (q_free q) (header_dirty q) (l1_dirty q) (refcount_table_dirty q).
Definition set_free (x : FreeClusters) (q : Qcow2Image) : Qcow2Image :=
  mkQcow2 (q_file q) (q_read_only q) (q_version q) (cluster_bits q) (cluster_size q) (q_size q) (l1_size q)
    (l1_table_offset q) (refcount_table_offset q) (refcount_table_clusters q) (refcount_bits q) (nb_snapshots q)
    (snapshots_offset q) (header_cluster q) (backing q) (backing_image q) (l1 q) (refcount_table q) (l2_cache q)
    (refblock_cache q) x (header_dirty q) (l1_dirty q) (refcount_table_dirty q).
Definition set_l1 (x : list Z) (q : Qcow2Image) : Qcow2Image :=
  mkQcow2 (q_file q) (q_read_only q) (q_version q) (cluster_bits q) (cluster_size q) (q_size q) (l1_size q)
    (l1_table_offset q) (refcount_table_offset q) (refcount_table_clusters q) (refcount_bits q) (nb_snapshots q)
    (snapshots_offset q) (header_cluster q) (backing q) (backing_image q) x (refcount_table q) (l2_cache q)
    (refblock_cache q) (q_free q) (header_dirty q) (l1_dirty q) (refcount_table_dirty q).
Definition set_refcount_table_clusters (x : Z) (q : Qcow2Image) : Qcow2Image :=
  mkQcow2 (q_file q) (q_read_only q) (q_version q) (cluster_bits q) (cluster_size q) (q_size q) (l1_size q)
    (l1_table_offset q) (refcount_table_offset q) x (refcount_bits q) (nb_snapshots q) (snapshots_offset q)
    (header_cluster q) (backing q) (backing_image q) (l1 q) (refcount_table q) (l2_cache q) (refblock_cache q) (q_free
    q) (header_dirty q) (l1_dirty q) (refcount_table_dirty q).
Definition set_refcount_table_offset (x : Z) (q : Qcow2Image) : Qcow2Image :=
  mkQcow2 (q_file q) (q_read_only q) (q_version q) (cluster_bits q) (cluster_size q) (q_size q) (l1_size q)
    (l1_table_offset q) x (refcount_table_clusters q) (refcount_bits q) (nb_snapshots q) (snapshots_offset q)
    (header_cluster q) (backing q) (backing_image q) (l1 q) (refcount_table q) (l2_cache q) (refblock_cache q) (q_free
    q) (header_dirty q) (l1_dirty q) (refcount_table_dirty q).
Definition set_l1_size (x : Z) (q : Qcow2Image) : Qcow2Image :=
  mkQcow2 (q_file q) (q_read_only q) (q_version q) (cluster_bits q) (cluster_size q) (q_size q) x (l1_table_offset q)
    (refcount_table_offset q) (refcount_table_clusters q) (refcount_bits q) (nb_snapshots q) (snapshots_offset q)
    (header_cluster q) (backing q) (backing_image q) (l1 q) (refcount_table q) (l2_cache q) (refblock_cache q) (q_free
    q) (header_dirty q) (l1_dirty q) (refcount_table_dirty q).
Definition set_l1_table_offset (x : Z) (q : Qcow2Image) : Qcow2Image :=
  mkQcow2 (q_file q) (q_read_only q) (q_version q) (cluster_bits q) (cluster_size q) (q_size q) (l1_size q) x
    (refcount_table_offset q) (refcount_table_clusters q) (refcount_bits q) (nb_snapshots q) (snapshots_offset q)
    (header_cluster q) (backing q) (backing_image q) (l1 q) (refcount_table q) (l2_cache q) (refblock_cache q) (q_free
    q) (header_dirty q) (l1_dirty q) (refcount_table_dirty q).
Definition set_size (x : Z) (q : Qcow2Image) : Qcow2Image :=
  mkQcow2 (q_file q) (q_read_only q) (q_version q) (cluster_bits q) (cluster_size q) x (l1_size q) (l1_table_offset q)
    (refcount_table_offset q) (refcount_table_clusters q) (refcount_bits q) (nb_snapshots q) (snapshots_offset q)
    (header_cluster q) (backing q) (backing_image q) (l1 q) (refcount_table q) (l2_cache q) (refblock_cache q) (q_free
    q) (header_dirty q) (l1_dirty q) (refcount_table_dirty q).
Definition set_nb_snapshots (x : Z) (q : Qcow2Image) : Qcow2Image :=
  mkQcow2 (q_file q) (q_read_only q) (q_version q) (cluster_bits q) (cluster_size q) (q_size q) (l1_size q)
    (l1_table_offset q) (refcount_table_offset q) (refcount_table_clusters q) (refcount_bits q) x (snapshots_offset q)
    (header_cluster q) (backing q) (backing_image q) (l1 q) (refcount_table q) (l2_cache q) (refblock_cache q) (q_free
    q) (header_dirty q) (l1_dirty q) (refcount_table_dirty q).
Definition set_snapshots_offset (x : Z) (q : Qcow2Image) : Qcow2Image :=
  mkQcow2 (q_file q) (q_read_only q) (q_version q) (cluster_bits q) (cluster_size q) (q_size q) (l1_size q)
    (l1_table_offset q) (refcount_table_offset q) (refcount_table_clusters q) (refcount_bits q) (nb_snapshots q) x
    (header_cluster q) (backing q) (backing_image q) (l1 q) (refcount_table q) (l2_cache q) (refblock_cache q) (q_free
    q) (header_dirty q) (l1_dirty q) (refcount_table_dirty q).
Definition set_backing_ref (x : option BackingRef) (q : Qcow2Image) : Qcow2Image :=
  mkQcow2 (q_file q) (q_read_only q) (q_version q) (cluster_bits q) (cluster_size q) (q_size q) (l1_size q)
    (l1_table_offset q) (refcount_table_offset q) (refcount_table_clusters q) (refcount_bits q) (nb_snapshots q)
    (snapshots_offset q) (header_cluster q) x (backing_image q) (l1 q) (refcount_table q) (l2_cache q) (refblock_cache
    q) (q_free q) (header_dirty q) (l1_dirty q) (refcount_table_dirty q).

(** [as_chunks::<8>()] of big-endian words: word [i] of a table. *)
Definition word (t : bytes) (i : Z) : Z := of_be64 (slice t (8 * i) (8 * i + 8)).

(** ** Geometry *)

Definition l2_entries (q : Qcow2Image) : Z := cluster_size q / 8.
Definition l2_span (q : Qcow2Image) : Z := l2_entries q * cluster_size q.
Definition vmstate_base (q : Qcow2Image) : Z := l2_span q * div_ceil (q_size q) (l2_span q).
Definition l2_index_bits (q : Qcow2Image) : Z := cluster_bits q + (cluster_bits q - 3).
Definition l1_index_of (q : Qcow2Image) (guest_offset : Z) : Z := Z.shiftr guest_offset (l2_index_bits q).
Definition l2_index_of (q : Qcow2Image) (guest_offset : Z) : Z :=
  Z.land (Z.shiftr guest_offset (cluster_bits q)) (l2_entries q - 1).

(** ** File and L2 table access *)

Definition read_file (offset n : Z) : dstate Qcow2Image bytes :=
  q ← dgets id; dpure (read_exact_at (q_file q) offset n).
Definition write_file (offset : Z) (b : bytes) : dstate Qcow2Image unit :=
  q ← dgets id;
  if q_read_only q then dfail ReadOnly
  else dmodify (λ q, set_file (write_all_at (q_file q) offset b) q).

Definition cache_get (host : Z) : dstate Qcow2Image (option (bytes * bool)) := λ q,
  let '(c, e) := get (l2_cache q) host in (set_l2_cache c q, DOk e).
Definition cache_put (host : Z) (t : bytes) (dirty : bool) : dstate Qcow2Image (list (Z * bytes)) := λ q,
  let '(c, out) := put (l2_cache q) host t dirty in (set_l2_cache c q, DOk out).
Fixpoint write_tables (out : list (Z * bytes)) : dstate Qcow2Image unit :=
  match out with
  | [] => mret tt
  | (host, t) :: out => _ ← write_file host t; write_tables out
  end.

Definition load_l2 (host_offset : Z) : dstate Qcow2Image unit :=
  e ← cache_get host_offset;
  match e with
  | Some _ => mret tt
  | None =>
      q ← dgets id;
      buf ← read_file host_offset (cluster_size q);
      out ← cache_put host_offset buf false;
      write_tables out
  end.

(** [.get(host).expect("just cached")]. *)
Definition cached_table (host : Z) : dstate Qcow2Image bytes :=
  e ← cache_get host;
  match e with Some (t, _) => mret t | None => dpure DPanic end.

Definition l2_entry (l2_host index : Z) : dstate Qcow2Image Z :=
  _ ← load_l2 l2_host;
  t ← cached_table l2_host;
  b ← dpure (of_outcome (slice_chk t (index * 8) (index * 8 + 8)));
  mret (of_be64 b).

Definition set_l2_entry (l2_host index value : Z) : dstate Qcow2Image unit :=
  _ ← load_l2 l2_host;
  _ ← dmodify (λ q, set_l2_cache (mark_dirty (l2_cache q) l2_host) q);
  q ← dgets id;
  match c_map (l2_cache q) !! l2_host with
  | None => dpure DPanic
  | Some (t, _) =>
      t ← dpure (of_outcome (copy_at t (index * 8) (u64_be value)));
      dmodify (λ q, set_l2_cache (set_data (l2_cache q) l2_host t) q)
  end.

Definition read_cluster_via_cache (host : Z) : dstate Qcow2Image bytes :=
  _ ← load_l2 host; cached_table host.

(** The indexes of the non-zero words of an L2 table. *)
Definition l2_allocated_indexes (l2_host : Z) : dstate Qcow2Image (list Z) :=
  _ ← load_l2 l2_host;
  t ← cached_table l2_host;
  mret (filter (λ i, slice t (8 * i) (8 * i + 8) ≠ replicate 8 0) (seqZ 0 (len t / 8))).

(** ** Guest byte I/O *)

Definition on_backing {A} (b : B) (m : dstate B A) : dstate Qcow2Image A := λ q,
  let '(b, r) := m b in (set_backing_image (Some b) q, r).

Definition read_unallocated (guest_offset n : Z) : dstate Qcow2Image bytes :=
  q ← dgets id;
  match backing_image q with
  | Some b =>
      if size b <=? guest_offset then mret (replicate (Z.to_nat n) 0)
      else
        let take := Z.min n (size b - guest_offset) in
        out ← on_backing b (read_at guest_offset take);
        mret (out ++ replicate (Z.to_nat (n - take)) 0)
  | None => mret (replicate (Z.to_nat n) 0)
  end.

(** The byte range of a compressed cluster's stream. *)
Definition compressed_range (q : Qcow2Image) (entry : Z) : Z * Z :=
  let x := 62 - (cluster_bits q - 8) in
  let host_offset := Z.land entry (Z.shiftl 1 x - 1) in
  let sector_bits := 62 - x in
  let additional_sectors := Z.land (Z.shiftr entry x) (Z.shiftl 1 sector_bits - 1) in
  let first_sector := host_offset / 512 in
  (host_offset, (first_sector + additional_sectors + 1) * 512).

Definition read_compressed_cluster (entry : Z) (out : bytes) : dstate Qcow2Image bytes :=
  q ← dgets id;
  let '(host_offset, end_) := compressed_range q entry in
  compressed ← read_file host_offset (end_ - host_offset);
  match inflate compressed out with
  | Some out => mret out
  | None => dfail Format
  end.

Definition adjacent (source next : ReadSource) (n : Z) : bool :=
  match source, next with
  | File start, File next => next =? start + n
  | Backing, Backing | Zero, Zero => true
  | _, _ => false
  end.

(** [for entry in &entries[index + 1..]]. *)
Fixpoint extend_run (source : ReadSource) (entries : list Z) (n max_len cs : Z) : Z :=
  match entries with
  | [] => n
  | entry :: entries =>
      if n =? max_len then n
      else if adjacent source (from_entry entry 0) n then extend_run source entries (n + Z.min (max_len - n) cs) max_len cs
      else n
  end.

Definition read_extent (offset max_len : Z) : dstate Qcow2Image (ReadSource * Z) :=
  q ← dgets id;
  let l1e := default 0 (l1 q !! Z.to_nat (l1_index_of q offset)) in
  let l2_host := Z.land l1e OFFSET_MASK in
  if l2_host =? 0 then mret (Backing, Z.min max_len (l2_span q - offset mod l2_span q))
  else
    let cs := cluster_size q in
    let in_cluster := offset mod cs in
    let index := l2_index_of q offset in
    _ ← load_l2 l2_host;
    t ← cached_table l2_host;
    let entries := word t <$> seqZ 0 (len t / 8) in
    match entries !! Z.to_nat index with
    | None => dpure DPanic
    | Some entry =>
        let source := from_entry entry in_cluster in
        let n := Z.min max_len (cs - in_cluster) in
        match source with
        | Compressed _ => mret (source, n)
        | _ => mret (source, extend_run source (drop (Z.to_nat index + 1) entries) n max_len cs)
        end
    end.

(** One extent of [read_bytes]. *)
Definition read_source (abs n : Z) (source : ReadSource) : dstate Qcow2Image bytes :=
  match source with
  | Backing => read_unallocated abs n
  | Zero => mret (replicate (Z.to_nat n) 0)
  | File host => read_file host n
  | Compressed entry =>
      q ← dgets id;
      cluster ← read_compressed_cluster entry (replicate (Z.to_nat (cluster_size q)) 0);
      let start := abs mod cluster_size q in
      dpure (of_outcome (slice_chk cluster start (start + n)))
  end.

(** [abs = offset + done] and [rest = buf.len() - done]; the bytes filled. *)
Fixpoint read_bytes (fuel : nat) (abs rest : Z) : dstate Qcow2Image bytes :=
  if rest =? 0 then mret [] else
  match fuel with
  | O => dpure DFuel
  | S fuel =>
      '(source, n) ← read_extent abs rest;
      out ← read_source abs n source;
      more ← read_bytes fuel (abs + n) (rest - n);
      mret (out ++ more)
  end.

Definition qcow2_read_at (offset n : Z) : dstate Qcow2Image bytes :=
  q ← dgets id;
  if U64_MAX <? offset + n then dfail Unsupported
  else if q_size q <? offset + n then dfail Unsupported
  else read_bytes (Z.to_nat n) offset n.

(** [read_vmstate]: the same bytes past the guest's. *)
Definition read_vmstate (offset n : Z) : dstate Qcow2Image bytes :=
  q ← dgets id;
  if U64_MAX <? vmstate_base q + offset then dfail Unsupported
  else read_bytes (Z.to_nat n) (vmstate_base q + offset) n.

(** ** Reading into a target *)

Section target.
Context `{ReadTarget W}.

Definition backing_into (b : B) (abs n : Z) : dstate (Qcow2Image * W) unit := λ st,
  let '((b, w), r) := read_into abs n (b, st.2) in ((set_backing_image (Some b) st.1, w), r).

Definition target_source (abs count : Z) (source : ReadSource) : dstate (Qcow2Image * W) unit :=
  st ← dgets id;
  let q := st.1 in
  match source with
  | File host => on_snd (target_read_file (Z.to_nat count) (q_file q) host count)
  | Zero => on_snd (zero (Z.to_nat count) count)
  | Backing =>
      let backed := match backing_image q with Some b => Z.min (sat_sub (size b) abs) count | None => 0 end in
      _ ← (if backed =? 0 then mret tt
           else match backing_image q with Some b => backing_into b abs backed | None => dpure DPanic end);
      on_snd (zero (Z.to_nat (count - backed)) (count - backed))
  | Compressed entry =>
      cluster ← on_fst (read_compressed_cluster entry (replicate (Z.to_nat (cluster_size q)) 0));
      let start := abs mod cluster_size q in
      part ← dpure (of_outcome (slice_chk cluster start (start + count)));
      on_snd (write_all part)
  end.

Fixpoint read_target (fuel : nat) (abs rest : Z) : dstate (Qcow2Image * W) unit :=
  if rest =? 0 then mret tt else
  match fuel with
  | O => dpure DFuel
  | S fuel =>
      '(source, count) ← on_fst (read_extent abs rest);
      _ ← target_source abs count source;
      read_target fuel (abs + count) (rest - count)
  end.

Definition qcow2_read_into (offset n : Z) : dstate (Qcow2Image * W) unit :=
  st ← dgets id;
  _ ← check_read offset n (q_size st.1);
  read_target (Z.to_nat n) offset n.
End target.
End qcow2.
#[global] Arguments Qcow2Image B : clear implicits.
#[global] Arguments compressed_range : simpl never.

#[global] Instance Qcow2Image_DiskImage {B} `{DiskImage B} `{Inflate} : DiskImage (Qcow2Image B) := {|
  size := q_size; read_at := qcow2_read_at; read_into W _ := qcow2_read_into |}.
