(* ===== verification/Qcow2Read.v ===== *)
(** * qcow2 images: what a read returns

    The content of an image as a function of its tables, its file and its
    backing image, byte by byte and without the cache's state machine or the
    coalescing; and that every read returns it. *)

From S2P Require Import Prelude TableCache Disk Qcow2.

Section contents.
Context {B : Type} `{HB : DiskContents B} `{HI : InflateLaws}.
Implicit Types q : Qcow2Image B.

(** ** The specification *)

(** The tables a file holds, by their (cluster-aligned) offset. *)
Definition tables (f : bytes) (cs k : Z) : bytes := if (0 <=? k) && (k mod cs =? 0) then slice f k (k + cs) else [].
(** An L2 table as the image sees it: the cached one where there is one. *)
Definition l2_table q (k : Z) : bytes := view (l2_cache q) (tables (q_file q) (cluster_size q)) k.

(** Where the byte at a guest offset is. *)
Definition guest_source q (o : Z) : ReadSource :=
  let host := Z.land (default 0 (l1 q !! Z.to_nat (l1_index_of q o))) OFFSET_MASK in
  if host =? 0 then Backing
  else from_entry (word (l2_table q host) (l2_index_of q o)) (o mod cluster_size q).

Definition backing_byte q (o : Z) : Z :=
  match backing_image q with
  | Some b => if o <? size b then content b o else 0
  | None => 0
  end.
Definition inflated q (entry : Z) : option bytes :=
  let '(a, b) := compressed_range q entry in
  inflate (slice (q_file q) a b) (replicate (Z.to_nat (cluster_size q)) 0).
Definition source_byte q (s : ReadSource) (o : Z) : Z :=
  match s with
  | Backing => backing_byte q o
  | Zero => 0
  | File host => idx (q_file q) host
  | Compressed entry => idx (default [] (inflated q entry)) (o mod cluster_size q)
  end.
Definition guest_byte q (o : Z) : Z := source_byte q (guest_source q o) o.

(** ** Valid images *)

Definition table_at q (k : Z) : Prop :=
  0 ≤ k ∧ k mod cluster_size q = 0 ∧ k + cluster_size q ≤ len (q_file q).
(** No cached table waits to be written over byte [i] of the file. *)
Definition not_dirty q (i : Z) : Prop :=
  ∀ k t, c_map (l2_cache q) !! k = Some (t, true) → ¬ k ≤ i < k + cluster_size q.

Definition data_ok q (s : ReadSource) : Prop :=
  match s with
  | File host => host < len (q_file q) ∧ not_dirty q host
  | Compressed entry =>
      let '(a, b) := compressed_range q entry in
      b ≤ len (q_file q) ∧ (∀ i, a ≤ i < b → not_dirty q i) ∧ is_Some (inflated q entry)
  | _ => True
  end.

(** The geometry of the header; the cache coherent with the file and holding
    whole tables of it; an image opened read-only with nothing to write; the
    L1 table pointing at tables; the mapped data in the file, apart from the
    tables; and a valid backing image. *)
Record qcow2_ok q : Prop := mkQcow2Ok {
  qk_bits : 9 ≤ cluster_bits q ≤ 21;
  qk_cluster : cluster_size q = 2 ^ cluster_bits q;
  qk_size : 0 ≤ q_size q ≤ U64_MAX;
  qk_cache : cache_ok (l2_cache q) (tables (q_file q) (cluster_size q));
  qk_cached k t d : c_map (l2_cache q) !! k = Some (t, d) → table_at q k ∧ len t = cluster_size q;
  qk_read_only k t : q_read_only q = true → c_map (l2_cache q) !! k ≠ Some (t, true);
  qk_l1 i e : l1 q !! i = Some e → Z.land e OFFSET_MASK ≠ 0 → table_at q (Z.land e OFFSET_MASK);
  qk_data o : 0 ≤ o → data_ok q (guest_source q o);
  qk_backing b : backing_image q = Some b → image_ok b }.

(** What a step of a read may change: the file under tables that waited to be
    written, the state of the cache and of the backing image. *)
Record same_disk q q' : Prop := mkUnchanged {
  un_bits : cluster_bits q' = cluster_bits q;
  un_cluster : cluster_size q' = cluster_size q;
  un_size : q_size q' = q_size q;
  un_ro : q_read_only q' = q_read_only q;
  un_l1 : l1 q' = l1 q;
  un_len : len (q_file q') = len (q_file q);
  un_tables k : l2_table q' k = l2_table q k;
  un_bytes i : 0 ≤ i → not_dirty q i → idx (q_file q') i = idx (q_file q) i;
  un_dirty k t : c_map (l2_cache q') !! k = Some (t, true) → c_map (l2_cache q) !! k = Some (t, true);
  un_backing o : backing_byte q' o = backing_byte q o }.

Lemma same_disk_refl q : same_disk q q.
Proof. by constructor. Qed.
Lemma not_dirty_unchanged q q' i : same_disk q q' → not_dirty q i → not_dirty q' i.
Proof. intros Hu Hd k t Hk. rewrite (un_cluster _ _ Hu). apply (Hd k t). by apply (un_dirty _ _ Hu). Qed.
Lemma same_disk_trans q1 q2 q3 : same_disk q1 q2 → same_disk q2 q3 → same_disk q1 q3.
Proof.
  intros H1 H2. constructor; try (by etransitivity; [apply H2|apply H1]).
  - intros i Hi Hd. rewrite (un_bytes _ _ H2); [by apply H1|done|]. by eapply not_dirty_unchanged.
  - intros k t Hk. by apply H1, H2.
Qed.

Lemma same_disk_source q q' o : same_disk q q' → guest_source q' o = guest_source q o.
Proof.
  intros Hu. unfold guest_source, l1_index_of, l2_index_of, l2_index_bits, l2_entries.
  rewrite (un_bits _ _ Hu), (un_cluster _ _ Hu), (un_l1 _ _ Hu). by rewrite (un_tables _ _ Hu).
Qed.
Lemma compressed_range_start q e : 0 ≤ cluster_bits q → cluster_bits q ≤ 21 → 0 ≤ (compressed_range q e).1.
Proof. intros. unfold compressed_range. simpl. apply Z.land_nonneg. right. rewrite Z.shiftl_1_l. pose proof (Z.pow_pos_nonneg 2 (62 - (cluster_bits q - 8))). lia. Qed.
Lemma same_disk_inflated q q' e : qcow2_ok q → data_ok q (Compressed e) → same_disk q q' → inflated q' e = inflated q e.
Proof.
  intros Hok Hd Hu. unfold inflated. pose proof (compressed_range_start q e) as Ha. unfold data_ok in Hd.
  assert (compressed_range q' e = compressed_range q e) as -> by (unfold compressed_range; by rewrite (un_bits _ _ Hu)).
  rewrite (un_cluster _ _ Hu). destruct (compressed_range q e) as [a b]. simpl in Ha. destruct Hd as (Hb & Hd & _).
  pose proof (qk_bits q Hok). specialize (Ha ltac:(lia) ltac:(lia)). f_equal.
  destruct (decide (a ≤ b)) as [Hab|Hab].
  - apply idx_ext; [rewrite !len_slice by (rewrite ?(un_len _ _ Hu); lia); lia|]. intros i Hi. rewrite len_slice in Hi by (rewrite ?(un_len _ _ Hu); lia).
    rewrite !idx_slice by lia. apply (un_bytes _ _ Hu); [lia|]. apply Hd. lia.
  - unfold slice. by replace (Z.to_nat (b - a)) with 0%nat by lia.
Qed.
Lemma same_disk_source_byte q q' s o :
  qcow2_ok q → data_ok q s → (∀ h, s = File h → 0 ≤ h) → same_disk q q' → source_byte q' s o = source_byte q s o.
Proof.
  intros Hok Hd Hh Hu. destruct s as [| |h|e]; simpl.
  - apply Hu.
  - done.
  - destruct Hd as [_ Hd]. apply (un_bytes _ _ Hu); auto.
  - by rewrite (un_cluster _ _ Hu), (same_disk_inflated q q' e).
Qed.
Lemma land_mask_nonneg e : 0 ≤ Z.land e OFFSET_MASK.
Proof. apply Z.land_nonneg. by right. Qed.
Lemma from_entry_file e c h : from_entry e c = File h → h = Z.land e OFFSET_MASK + c.
Proof. unfold from_entry. repeat case_match; intros; by simplify_eq. Qed.
Lemma cluster_pos q : qcow2_ok q → 512 ≤ cluster_size q.
Proof. intros [Hb Hc _ _ _ _ _ _ _]. rewrite Hc. change 512 with (2 ^ 9). apply Z.pow_le_mono_r; lia. Qed.
Lemma guest_file_nonneg q o h : qcow2_ok q → guest_source q o = File h → 0 ≤ h.
Proof.
  intros Hok. unfold guest_source. case_match; [done|]. intros ->%from_entry_file.
  pose proof (land_mask_nonneg (word (l2_table q (Z.land (default 0 (l1 q !! Z.to_nat (l1_index_of q o))) OFFSET_MASK)) (l2_index_of q o))).
  pose proof (cluster_pos q Hok). pose proof (Z.mod_pos_bound o (cluster_size q) ltac:(lia)). lia.
Qed.
(** Reading changes no guest byte. *)
Lemma same_disk_guest_byte q q' o : qcow2_ok q → 0 ≤ o → same_disk q q' → guest_byte q' o = guest_byte q o.
Proof.
  intros Hok Ho Hu. unfold guest_byte. rewrite (same_disk_source q q' o Hu). apply same_disk_source_byte; [done|by apply qk_data| |done].
  intros h. by apply guest_file_nonneg.
Qed.
Lemma same_disk_data_ok q q' s : qcow2_ok q → data_ok q s → same_disk q q' → data_ok q' s.
Proof.
  intros Hok Hd Hu. destruct s as [| |h|e]; try done; unfold data_ok in *.
  - rewrite (un_len _ _ Hu). destruct Hd. split; [done|]. by apply (not_dirty_unchanged q).
  - rewrite (same_disk_inflated q q' e Hok Hd Hu), (un_len _ _ Hu).
    assert (compressed_range q' e = compressed_range q e) as -> by (unfold compressed_range; by rewrite (un_bits _ _ Hu)).
    destruct (compressed_range q e) as [a b]. destruct Hd as (? & Hd & ?). split_and!; [done| |done].
    intros i Hi. apply (not_dirty_unchanged q); auto.
Qed.
Lemma same_disk_table_at q q' k : same_disk q q' → table_at q' k ↔ table_at q k.
Proof. intros Hu. unfold table_at. by rewrite (un_cluster _ _ Hu), (un_len _ _ Hu). Qed.

(** A step that changes nothing keeps the image valid, if its cache and its
    backing image are. *)
Lemma same_disk_ok q q' :
  qcow2_ok q → same_disk q q' → cache_ok (l2_cache q') (tables (q_file q') (cluster_size q')) →
  (∀ k t d, c_map (l2_cache q') !! k = Some (t, d) → table_at q' k ∧ len t = cluster_size q') →
  (∀ b, backing_image q' = Some b → image_ok b) → qcow2_ok q'.
Proof.
  intros Hok Hu Hc Hk Hb. constructor; try done.
  - rewrite (un_bits _ _ Hu). apply Hok.
  - rewrite (un_bits _ _ Hu), (un_cluster _ _ Hu). apply Hok.
  - rewrite (un_size _ _ Hu). apply Hok.
  - intros k t. rewrite (un_ro _ _ Hu). intros Hro Hd%(un_dirty _ _ Hu). by apply (qk_read_only q Hok k t).
  - intros i e. rewrite (un_l1 _ _ Hu). intros He Hne. apply (same_disk_table_at q q' _ Hu). by eapply qk_l1.
  - intros o Ho. rewrite (same_disk_source q q' o Hu). apply (same_disk_data_ok q); [done|by apply qk_data|done].
Qed.

(** ** The cache over the file *)

Lemma aligned_apart cs a b : 0 < cs → a mod cs = 0 → b mod cs = 0 → a ≠ b → a + cs ≤ b ∨ b + cs ≤ a.
Proof.
  intros Hcs Ha Hb Hne. apply Z.div_exact in Ha, Hb; [|lia..]. rewrite Ha, Hb in *.
  destruct (Z.lt_total (a / cs) (b / cs)) as [?|[Heq|?]]; [left; nia|congruence|right; nia].
Qed.
Lemma tables_at f cs k : 0 ≤ k → k mod cs = 0 → tables f cs k = slice f k (k + cs).
Proof. intros. unfold tables. by rewrite (proj2 (Z.leb_le _ _)), (proj2 (Z.eqb_eq _ _)) by done. Qed.
Lemma tables_splice f cs k t j :
  0 < cs → 0 ≤ k → k mod cs = 0 → k + cs ≤ len f → len t = cs →
  tables (splice f k t) cs j = if j =? k then t else tables f cs j.
Proof.
  intros Hcs Hk Hm Hl Ht. destruct (Z.eqb_spec j k) as [->|Hne].
  - rewrite tables_at by done. rewrite slice_splice_in by lia. rewrite Z.sub_diag, splice_whole; [done|].
    rewrite len_slice; lia.
  - unfold tables. destruct ((0 <=? j) && (j mod cs =? 0)) eqn:E; [|done]. bsplit.
    apply slice_splice_out; [lia..|]. destruct (aligned_apart cs j k); lia.
Qed.

Lemma set_file_id q : set_file (q_file q) q = q.
Proof. by destruct q. Qed.
Lemma write_file_at q k t :
  q_read_only q = false → 0 ≤ k → 0 < len t → k + len t ≤ len (q_file q) →
  write_file k t q = (set_file (splice (q_file q) k t) q, DOk tt).
Proof.
  intros Hro Hk Ht Hl. unfold write_file. rewrite (dbind_ok _ _ q q q) by done. rewrite Hro. unfold dmodify, write_all_at.
  rewrite (proj2 (Z.eqb_neq _ _)) by lia. replace (Z.to_nat (k + len t - len (q_file q))) with 0%nat by lia.
  simpl. by rewrite app_nil_r.
Qed.

(** Writing tables out touches their clusters only. *)
Lemma write_tables_spec out q :
  0 < cluster_size q → (q_read_only q = true → out = []) →
  (∀ k t, (k, t) ∈ out → table_at q k ∧ len t = cluster_size q) →
  ∃ f', write_tables out q = (set_file f' q, DOk tt) ∧ len f' = len (q_file q) ∧
    (∀ k, tables f' (cluster_size q) k = written (tables (q_file q) (cluster_size q)) out k) ∧
    (∀ i, 0 ≤ i → (∀ k t, (k, t) ∈ out → ¬ k ≤ i < k + cluster_size q) → idx f' i = idx (q_file q) i) ∧
    (bytes_ok (q_file q) → (∀ k t, (k, t) ∈ out → bytes_ok t) → bytes_ok f').
Proof.
  intros Hcs. revert q Hcs. induction out as [|[k t] out IH]; intros q Hcs Hro Hout.
  - exists (q_file q). by rewrite set_file_id.
  - destruct (Hout k t) as ((Hk & Hm & Hl) & Ht); [by left|].
    assert (q_read_only q = false) as Hrw by (destruct (q_read_only q); [by specialize (Hro eq_refl)|done]).
    pose proof (write_file_at q k t Hrw Hk ltac:(lia) ltac:(lia)) as Hw.
    set (q1 := set_file (splice (q_file q) k t) q) in *.
    assert (len (q_file q1) = len (q_file q)) as Hl1 by (apply len_splice; lia).
    destruct (IH q1 Hcs) as (f' & Hf & Hlen & Htab & Hidx & Hby).
    { intros Hr. change (q_read_only q = true) in Hr. congruence. }
    { intros k' t' Hin. unfold table_at. rewrite Hl1. apply Hout. by right. }
    exists f'. split_and!.
    + cbn [write_tables]. by rewrite (dbind_ok _ _ _ _ _ Hw).
    + congruence.
    + intros j. rewrite Htab. simpl. apply written_ext. intros j'. by apply tables_splice.
    + intros i Hi Hn. rewrite Hidx; [|done|intros; eapply Hn; by right]. simpl. apply idx_splice_out; [done|lia..|].
      pose proof (Hn k t ltac:(by left)). rewrite Ht. lia.
    + intros Hfok Hall. apply Hby; [apply bytes_ok_splice; [done|]; apply (Hall k); by left|]. intros k' t' Hin. apply (Hall k'). by right.
Qed.

(** Looking a table up only moves it in the order. *)
Lemma touch_ok c disk k : cache_ok c disk → is_Some (c_map c !! k) → cache_ok (touch c k) disk.
Proof.
  intros Hc Hk. constructor; try apply Hc; simpl.
  - apply NoDup_touched, Hc.
  - intros j. rewrite elem_of_touched, (ok_order _ _ Hc). split; [by intros [?| ->]|by left].
Qed.
Lemma get_spec q k e :
  qcow2_ok q → c_map (l2_cache q) !! k = Some e →
  ∃ q', cache_get k q = (q', DOk (Some e)) ∧ qcow2_ok q' ∧ same_disk q q' ∧ c_map (l2_cache q') = c_map (l2_cache q).
Proof.
  intros Hok He. exists (set_l2_cache (touch (l2_cache q) k) q). unfold cache_get, get. rewrite He.
  assert (same_disk q (set_l2_cache (touch (l2_cache q) k) q)) as Hu by (constructor; done).
  split_and!; try done. apply (same_disk_ok q); try done; simpl.
  - apply touch_ok; [apply Hok|by eexists].
  - apply Hok.
  - apply Hok.
Qed.

(** [load_l2] leaves the table cached with what the image sees there. It
    changes the file under tables that waited to be written and nothing else. *)
Lemma load_l2_core q k :
  0 < cluster_size q → cache_ok (l2_cache q) (tables (q_file q) (cluster_size q)) →
  (∀ k t d, c_map (l2_cache q) !! k = Some (t, d) → table_at q k ∧ len t = cluster_size q) →
  (∀ k t, q_read_only q = true → c_map (l2_cache q) !! k ≠ Some (t, true)) → table_at q k →
  ∃ c f d, load_l2 k q = (set_file f (set_l2_cache c q), DOk tt) ∧ len f = len (q_file q) ∧
    cache_ok c (tables f (cluster_size q)) ∧ (∀ j, view c (tables f (cluster_size q)) j = l2_table q j) ∧
    c_map c !! k = Some (l2_table q k, d) ∧ len (l2_table q k) = cluster_size q ∧
    (∀ j e, c_map c !! j = Some e → j ≠ k → c_map (l2_cache q) !! j = Some e) ∧
    (d = true → c_map (l2_cache q) !! k = Some (l2_table q k, true)) ∧
    (∀ i, 0 ≤ i → not_dirty q i → idx f i = idx (q_file q) i) ∧
    (∀ t, 0 ≤ t → t mod cluster_size q = 0 → (∀ j b, c_map (l2_cache q) !! j = Some (b, true) → j ≠ t) →
       tables f (cluster_size q) t = tables (q_file q) (cluster_size q) t) ∧
    (bytes_ok (q_file q) → (∀ j b d, c_map (l2_cache q) !! j = Some (b, d) → bytes_ok b) → bytes_ok f).
Proof.
  intros Hcs Hok Hcached Hro (Hk & Hm & Hl). unfold load_l2.
  destruct (c_map (l2_cache q) !! k) as [[t d]|] eqn:He.
  - assert (l2_table q k = t) as Ht by (unfold l2_table, view; by rewrite He).
    exists (touch (l2_cache q) k), (q_file q), d. rewrite Ht. split_and!; try done.
    + unfold mbind, dstate_bind, cache_get, get. rewrite He. by destruct q.
    + apply touch_ok; [done|]. by eexists.
    + by destruct (Hcached k t d He).
    + by intros ->.
  - assert (l2_table q k = slice (q_file q) k (k + cluster_size q)) as Ht.
    { unfold l2_table, view. rewrite He. by apply tables_at. }
    assert (cache_get k q = (q, DOk None)) as Hg.
    { unfold cache_get, get. rewrite He. by destruct q. }
    rewrite (dbind_ok _ _ _ _ _ Hg). rewrite (dbind_ok _ _ q q q) by done.
    assert (read_file k (cluster_size q) q = (q, DOk (l2_table q k))) as Hr.
    { unfold read_file. rewrite (dbind_ok _ _ q q q) by done. unfold dpure, read_exact_at.
      by rewrite (proj2 (Z.leb_le _ _)), orb_true_r, Ht by lia. }
    rewrite (dbind_ok _ _ _ _ _ Hr). unfold cache_put.
    pose proof (put_spec (l2_cache q) (tables (q_file q) (cluster_size q)) k (l2_table q k) false Hok) as Hput.
    rewrite (tables_at _ _ k) in Hput by done. specialize (Hput (λ _, Ht) He).
    destruct (put (l2_cache q) k (l2_table q k) false) as [c out] eqn:Hp.
    destruct Hput as (Hcok & Hck & Hview & Hout & Hsub).
    set (q1 := set_l2_cache c q). rewrite (dbind_ok _ _ q q1 out) by (by rewrite Hp).
    destruct (write_tables_spec out q1) as (f' & Hw & Hlen & Htab & Hidx & Hby).
    { done. }
    { intros Hr'. destruct out as [|[k' t'] out]; [done|]. exfalso. apply (Hro k' t' Hr'), Hout. by left. }
    { intros k' t' Hin%Hout. by apply Hcached in Hin. }
    change (q_file q1) with (q_file q) in *. change (cluster_size q1) with (cluster_size q) in *.
    exists c, f', false. split_and!; try done.
    + eapply cache_ok_ext; [|exact Hcok]. intros j. by rewrite Htab.
    + intros j. rewrite (view_ext c _ (written (tables (q_file q) (cluster_size q)) out)) by (intros; apply Htab).
      rewrite Hview. destruct (Z.eqb_spec j k) as [->|]; [|done]. by rewrite Ht.
    + rewrite Ht, len_slice; lia.
    + intros j e Hj Hne. by apply Hsub.
    + intros i Hi Hd. apply Hidx; [done|]. intros k' t' Hin%Hout. by apply (Hd k' t').
    + intros t Ht0 Htm Hn. rewrite Htab. apply written_other. intros b Hb%Hout. by apply (Hn t b).
    + intros Hf Hall. apply Hby; [done|]. intros k' t' Hin%Hout. by apply (Hall k' t' true).
Qed.
Lemma load_l2_spec q k :
  qcow2_ok q → table_at q k →
  ∃ q' d, load_l2 k q = (q', DOk tt) ∧ qcow2_ok q' ∧ same_disk q q' ∧
    c_map (l2_cache q') !! k = Some (l2_table q k, d) ∧ len (l2_table q k) = cluster_size q.
Proof.
  intros Hok Hat. pose proof (cluster_pos q Hok) as Hcs.
  destruct (load_l2_core q k ltac:(lia) (qk_cache q Hok) (qk_cached q Hok) (qk_read_only q Hok) Hat)
    as (c & f & d & Hld & Hlen & Hcok & Hview & Hck & Hlt & Hsub & Hd & Hidx & _ & _).
  assert (same_disk q (set_file f (set_l2_cache c q))) as Hu.
  { constructor; try done; simpl. intros k' t' Hd'. destruct (decide (k' = k)) as [->|Hne]; [|by apply Hsub].
    rewrite Hck in Hd'. simplify_eq. by apply Hd. }
  exists (set_file f (set_l2_cache c q)), d. split_and!; try done.
  apply (same_disk_ok q); try done; [|apply Hok]. intros k' t' d' Hd'. rewrite (same_disk_table_at _ _ _ Hu). simpl in Hd'.
  destruct (decide (k' = k)) as [->|Hne]; [|by apply (qk_cached q Hok k' t' d'), Hsub].
  rewrite Hck in Hd'. by simplify_eq.
Qed.
Lemma cached_spec q k t d :
  qcow2_ok q → c_map (l2_cache q) !! k = Some (t, d) →
  ∃ q', cached_table k q = (q', DOk t) ∧ qcow2_ok q' ∧ same_disk q q'.
Proof.
  intros Hok He. destruct (get_spec q k (t, d) Hok He) as (q' & Hg & ? & ? & _). exists q'. split_and!; try done.
  unfold cached_table. by rewrite (dbind_ok _ _ _ _ _ Hg).
Qed.

(** ** Geometry *)

Lemma span_pow q : qcow2_ok q → l2_entries q = 2 ^ (cluster_bits q - 3) ∧ l2_span q = 2 ^ l2_index_bits q ∧ 0 < l2_entries q.
Proof.
  intros Hok. pose proof (qk_bits q Hok). unfold l2_span, l2_index_bits.
  assert (l2_entries q = 2 ^ (cluster_bits q - 3)) as ->.
  { unfold l2_entries. rewrite (qk_cluster q Hok). change 8 with (2 ^ 3). by rewrite Z.pow_sub_r by lia. }
  rewrite (qk_cluster q Hok), <-Z.pow_add_r by lia. split_and!; [done|f_equal; lia|]. apply Z.pow_pos_nonneg; lia.
Qed.
Lemma l1_index_div q o : qcow2_ok q → l1_index_of q o = o / l2_span q.
Proof.
  intros Hok. pose proof (qk_bits q Hok). destruct (span_pow q Hok) as (_ & -> & _). unfold l1_index_of.
  apply Z.shiftr_div_pow2. unfold l2_index_bits. lia.
Qed.
Lemma l2_index_div q o : qcow2_ok q → l2_index_of q o = (o / cluster_size q) mod l2_entries q.
Proof.
  intros Hok. pose proof (qk_bits q Hok). destruct (span_pow q Hok) as (He & _ & _). unfold l2_index_of. rewrite He.
  rewrite Z.shiftr_div_pow2, Z.sub_1_r, <-Z.ones_equiv, Z.land_ones, (qk_cluster q Hok) by lia. done.
Qed.
(** Offsets of one L1 entry. *)
Lemma same_span q a o : qcow2_ok q → 0 ≤ a →
  o / cluster_size q / l2_entries q = a / cluster_size q / l2_entries q → l1_index_of q o = l1_index_of q a.
Proof.
  intros Hok Ha Heq. destruct (span_pow q Hok) as (_ & _ & Hn). pose proof (cluster_pos q Hok).
  rewrite !l1_index_div by done. unfold l2_span. rewrite (Z.mul_comm (l2_entries q)), <-!Z.div_div by lia. done.
Qed.

(** ** Extents *)

(** The [n] bytes from [abs] on have the source [s]; a file source advances
    with the offset. *)
Definition covers q (abs n : Z) (s : ReadSource) : Prop :=
  ∀ i, 0 ≤ i < n → guest_source q (abs + i) =
    match s with File h => File (h + i) | s => s end.

Lemma from_entry_shift e i : from_entry e i = match from_entry e 0 with File h => File (h + i) | s => s end.
Proof. unfold from_entry. repeat case_match; try done. simplify_eq. f_equal. lia. Qed.

Lemma guest_source_in_table q abs o host :
  qcow2_ok q → 0 ≤ abs → o / cluster_size q / l2_entries q = abs / cluster_size q / l2_entries q →
  host = Z.land (default 0 (l1 q !! Z.to_nat (l1_index_of q abs))) OFFSET_MASK → host ≠ 0 →
  guest_source q o = from_entry (word (l2_table q host) ((o / cluster_size q) mod l2_entries q)) (o mod cluster_size q).
Proof.
  intros Hok Ha Ho -> Hne. unfold guest_source. rewrite (same_span q abs o Hok Ha Ho), (proj2 (Z.eqb_neq _ _)), l2_index_div by done. done.
Qed.

Lemma covers_more q abs n m s :
  0 ≤ n → covers q abs n s →
  (∀ i, 0 ≤ i < m → guest_source q (abs + n + i) = match s with File h => File (h + n + i) | s => s end) →
  covers q abs (n + m) s.
Proof.
  intros Hn Hc Hm i Hi. destruct (decide (i < n)) as [Hlt|Hge]; [apply Hc; lia|].
  replace (abs + i) with (abs + n + (i - n)) by lia. rewrite Hm by lia. destruct s; try done. f_equal. lia.
Qed.

Section run.
Context (q : Qcow2Image B) (abs max : Z) (host : Z) (s : ReadSource).
Context (Hok : qcow2_ok q) (Habs : 0 ≤ abs) (Hmax : 0 < max).
Context (Hhost : host = Z.land (default 0 (l1 q !! Z.to_nat (l1_index_of q abs))) OFFSET_MASK) (Hne : host ≠ 0).
Let cs := cluster_size q.
Let N := l2_entries q.
Let index := (abs / cs) mod N.
Let entries := word (l2_table q host) <$> seqZ 0 N.

(** Byte [i] of the [j]-th cluster after the first. *)
Lemma run_source j i : 0 ≤ j → index + j < N → 0 ≤ i < cs →
  guest_source q (abs - abs mod cs + j * cs + i) = from_entry (word (l2_table q host) (index + j)) i.
Proof using Hok Habs Hhost Hne.
  intros Hj Hin Hi. destruct (span_pow q Hok) as (_ & _ & HN). fold N in HN. pose proof (cluster_pos q Hok) as Hcs. fold cs in Hcs.
  pose proof (Z.div_mod abs cs ltac:(lia)) as Hd.
  assert (abs - abs mod cs + j * cs + i = (abs / cs + j) * cs + i) as -> by lia.
  assert (((abs / cs + j) * cs + i) / cs = abs / cs + j) as Hq by (rewrite Z.div_add_l, (Z.div_small i) by lia; lia).
  assert (((abs / cs + j) * cs + i) mod cs = i) as Hr by (rewrite Z.add_comm, Z.mod_add, Z.mod_small by lia; lia).
  pose proof (Z.div_mod (abs / cs) N ltac:(lia)) as Hd2. fold index in Hd2.
  assert (0 ≤ index < N) by (apply Z.mod_pos_bound; lia).
  assert ((abs / cs + j) / N = abs / cs / N) as Hqq.
  { rewrite Hd2 at 1. rewrite <-Z.add_assoc, Z.mul_comm, Z.div_add_l, (Z.div_small (index + j)) by lia. lia. }
  rewrite (guest_source_in_table q abs _ host); try done; fold cs N; rewrite Hq; [|done]. rewrite Hr. f_equal. f_equal.
  rewrite Hd2 at 1. rewrite <-Z.add_assoc, Z.add_comm, Z.mul_comm, Z.mod_add, Z.mod_small by lia. done.
Qed.

Lemma extend_run_spec l j n :
  l = drop (Z.to_nat (index + j)) entries → 1 ≤ j → 0 < n ≤ max → (n = max ∨ abs mod cs + n = j * cs) →
  (∀ e, s ≠ Compressed e) → covers q abs n s →
  n ≤ extend_run s l n max cs ≤ max ∧ covers q abs (extend_run s l n max cs) s.
Proof using Hok Habs Hhost Hne.
  intros Hl Hj Hn Hend Hs Hc. pose proof (cluster_pos q Hok) as Hcs. fold cs in Hcs. destruct (span_pow q Hok) as (_ & _ & HN). fold N in HN.
  assert (0 ≤ index < N) as Hidx by (apply Z.mod_pos_bound; lia).
  revert j n Hl Hj Hn Hend Hc. induction l as [|e l IH]; intros j n Hl Hj Hn Hend Hc; simpl; [split; [lia|done]|].
  destruct (Z.eqb_spec n max) as [->|Hnm]; [split; [lia|done]|]. destruct Hend as [?|Hend]; [done|].
  assert (entries !! Z.to_nat (index + j) = Some e) as He.
  { rewrite <-(Nat.add_0_r (Z.to_nat _)), <-lookup_drop, <-Hl. done. }
  unfold entries in He. rewrite list_lookup_fmap in He. apply fmap_Some in He as (x & Hx%lookup_seqZ & ->).
  assert (x = index + j) as -> by lia.
  destruct (adjacent s _ n) eqn:Hadj; [|split; [lia|done]].
  destruct (IH (j + 1) (n + Z.min (max - n) cs)) as [? ?].
  { rewrite Z.add_assoc. replace (Z.to_nat (index + j + 1)) with (1 + Z.to_nat (index + j))%nat by lia. rewrite Nat.add_comm, <-drop_drop, <-Hl. done. }
  { lia. }
  { lia. }
  { destruct (Z.min_spec (max - n) cs) as [[_ ->]|[_ ->]]; lia. }
  { apply covers_more; [lia|done|]. intros i Hi.
    replace (abs + n + i) with (abs - abs mod cs + j * cs + i) by lia. rewrite run_source by lia. rewrite from_entry_shift.
    unfold adjacent in Hadj. destruct s as [| |h|e], (from_entry _ 0) as [| |h'|e']; try done. bsplit. subst. done. }
  split; [lia|done].
Qed.

(** The bytes of the first cluster. *)
Lemma first_covers : covers q abs (Z.min max (cs - abs mod cs)) (from_entry (word (l2_table q host) index) (abs mod cs)).
Proof using Hok Habs Hhost Hne.
  pose proof (cluster_pos q Hok) as Hcs. fold cs in Hcs. destruct (span_pow q Hok) as (_ & _ & HN). fold N in HN.
  assert (0 ≤ index < N) as Hidx by (apply Z.mod_pos_bound; lia). pose proof (Z.mod_pos_bound abs cs ltac:(lia)).
  intros i Hi. replace (abs + i) with (abs - abs mod cs + 0 * cs + (abs mod cs + i)) by lia. rewrite run_source by lia.
  rewrite Z.add_0_r, from_entry_shift, (from_entry_shift _ (abs mod cs)). destruct (from_entry _ 0); try done. f_equal. lia.
Qed.
End run.

(** What [read_extent] reports is where those bytes are. *)
Lemma read_extent_spec q abs max :
  qcow2_ok q → 0 ≤ abs → 0 < max →
  ∃ q' s n, read_extent abs max q = (q', DOk (s, n)) ∧ qcow2_ok q' ∧ same_disk q q' ∧ 0 < n ≤ max ∧ covers q abs n s ∧
    (∀ e, s = Compressed e → abs mod cluster_size q + n ≤ cluster_size q).
Proof.
  intros Hok Habs Hmax. pose proof (cluster_pos q Hok) as Hcs. destruct (span_pow q Hok) as (_ & _ & HN).
  unfold read_extent. rewrite (dbind_ok _ _ q q q) by done.
  set (host := Z.land (default 0 (l1 q !! Z.to_nat (l1_index_of q abs))) OFFSET_MASK).
  destruct (Z.eqb_spec host 0) as [H0'|Hne].
  - assert (0 < l2_span q) as Hsp by (unfold l2_span; nia). pose proof (Z.mod_pos_bound abs (l2_span q) Hsp).
    eexists q, Backing, _. split_and!; [done|done|apply same_disk_refl|lia|lia| |done].
    intros i Hi. unfold guest_source. replace (l1_index_of q (abs + i)) with (l1_index_of q abs); [fold host; by rewrite H0'|].
    rewrite !l1_index_div by done. pose proof (Z.div_mod abs (l2_span q) ltac:(lia)) as Hd. rewrite Hd at 2.
    rewrite <-Z.add_assoc, Z.mul_comm, Z.div_add_l, (Z.div_small (_ + i)) by lia. lia.
  - assert (table_at q host) as Hat.
    { destruct (l1 q !! Z.to_nat (l1_index_of q abs)) as [e|] eqn:He; [|by subst host]. by apply (qk_l1 q Hok _ e He). }
    destruct (load_l2_spec q host Hok Hat) as (q1 & d & Hld & Hok1 & Hu1 & Hmap & Hlen). rewrite (dbind_ok _ _ _ _ _ Hld).
    destruct (cached_spec q1 host _ _ Hok1 Hmap) as (q2 & Hcd & Hok2 & Hu2). rewrite (dbind_ok _ _ _ _ _ Hcd).
    rewrite Hlen, l2_index_div by done. fold (l2_entries q).
    set (index := (abs / cluster_size q) mod l2_entries q). assert (0 ≤ index < l2_entries q) as Hidx by (apply Z.mod_pos_bound; lia).
    rewrite list_lookup_fmap, lookup_seqZ_lt by lia. cbn [fmap option_fmap option_map]. rewrite Z2Nat.id, Z.add_0_l by lia.
    pose proof (first_covers q abs max host Hok Habs eq_refl Hne) as Hfc. fold index in Hfc.
    pose proof (Z.mod_pos_bound abs (cluster_size q) ltac:(lia)).
    set (n := Z.min max (cluster_size q - abs mod cluster_size q)) in *. set (s := from_entry _ _) in *.
    assert (same_disk q q2) as Hu by (by eapply same_disk_trans).
    assert ((∀ e, s ≠ Compressed e) →
      n ≤ extend_run s (drop (Z.to_nat index + 1) (word (l2_table q host) <$> seqZ 0 (l2_entries q))) n max (cluster_size q) ≤ max ∧
      covers q abs (extend_run s (drop (Z.to_nat index + 1) (word (l2_table q host) <$> seqZ 0 (l2_entries q))) n max (cluster_size q)) s) as Hrun.
    { intros Hs. apply (extend_run_spec q abs max host s Hok Habs eq_refl Hne _ 1); try done; try lia.
      f_equal. fold index. lia. }
    destruct s as [| |h|e] eqn:Es; try (destruct (Hrun ltac:(done)); eexists q2, _, _; split_and!; [done|done|done|lia|lia|done|done]).
    eexists q2, _, _. split_and!; [done|done|done|lia|lia|done|]. intros. lia.
Qed.

(** ** Reading the extents *)

Lemma covers_unchanged q q' abs n s : same_disk q q' → covers q abs n s → covers q' abs n s.
Proof. intros Hu Hc i Hi. rewrite (same_disk_source q q' _ Hu). by apply Hc. Qed.
Lemma guest_content_unchanged q q' abs n :
  qcow2_ok q → same_disk q q' → 0 ≤ abs → content_at (guest_byte q') abs n = content_at (guest_byte q) abs n.
Proof. intros Hok Hu Ha. apply content_at_ext. intros i Hi. apply same_disk_guest_byte; [done|lia|done]. Qed.

Lemma zeros_content n c off : 0 ≤ n → (∀ i, 0 ≤ i < n → c (off + i) = 0) → replicate (Z.to_nat n) 0 = content_at c off n.
Proof.
  intros Hn Hc. apply content_at_list; [rewrite len_replicate; lia|]. intros i Hi. rewrite Hc by done.
  unfold idx. rewrite nth_lookup, lookup_replicate_2 by lia. done.
Qed.

(** Another state of the backing image with the same content. *)
Lemma backing_unchanged q b b' :
  qcow2_ok q → backing_image q = Some b → image_ok b' → size b' = size b → (∀ o, content b' o = content b o) →
  qcow2_ok (set_backing_image (Some b') q) ∧ same_disk q (set_backing_image (Some b') q).
Proof.
  intros Hok Hb Hok' Hs Hc. assert (same_disk q (set_backing_image (Some b') q)) as Hu.
  { constructor; try done. intros o. unfold backing_byte. simpl. by rewrite Hb, Hs, Hc. }
  split; [|done]. apply (same_disk_ok q); try done; [apply Hok|apply Hok|]. simpl. intros. by simplify_eq.
Qed.

Lemma read_unallocated_spec q abs n :
  qcow2_ok q → 0 ≤ abs → 0 ≤ n →
  ∃ q', read_unallocated abs n q = (q', DOk (content_at (backing_byte q) abs n)) ∧ qcow2_ok q' ∧ same_disk q q'.
Proof.
  intros Hok Ha Hn. unfold read_unallocated. rewrite (dbind_ok _ _ q q q) by done.
  destruct (backing_image q) as [b|] eqn:Hb.
  2: { exists q. split_and!; [|done|apply same_disk_refl]. unfold mret, dstate_ret. do 2 f_equal.
       apply zeros_content; [done|]. intros. unfold backing_byte. by rewrite Hb. }
  destruct (Z.leb_spec (size b) abs) as [Hle|Hlt].
  - exists q. split_and!; [|done|apply same_disk_refl]. unfold mret, dstate_ret. do 2 f_equal.
    apply zeros_content; [done|]. intros i Hi. unfold backing_byte. rewrite Hb, (proj2 (Z.ltb_ge _ _)) by lia. done.
  - set (m := Z.min n (size b - abs)).
    destruct (read_at_content b abs m) as (b' & Hr & Hok' & Hs & Hc); [by apply (qk_backing q Hok)|lia..|].
    assert (on_backing b (read_at abs m) q = (set_backing_image (Some b') q, DOk (content_at (content b) abs m))) as Hob.
    { unfold on_backing. by rewrite Hr. }
    rewrite (dbind_ok _ _ _ _ _ Hob). destruct (backing_unchanged q b b' Hok Hb Hok' Hs Hc) as [Hok2 Hu2].
    eexists. split_and!; [|exact Hok2|exact Hu2]. unfold mret, dstate_ret. do 2 f_equal.
    replace n with (m + (n - m)) at 2 by lia. rewrite content_at_app by lia. f_equal.
    + apply content_at_ext. intros i Hi. unfold backing_byte. rewrite Hb, (proj2 (Z.ltb_lt _ _)) by lia. done.
    + apply zeros_content; [lia|]. intros i Hi. unfold backing_byte. rewrite Hb, (proj2 (Z.ltb_ge _ _)) by lia. done.
Qed.

Lemma compressed_range_order q e : 9 ≤ cluster_bits q ≤ 21 → let '(a, b) := compressed_range q e in 0 ≤ a < b.
Proof.
  intros Hb. pose proof (compressed_range_start q e ltac:(lia) ltac:(lia)) as Ha. unfold compressed_range in *. simpl in Ha.
  set (host := Z.land e _) in *. set (add := Z.land (Z.shiftr e _) _).
  assert (0 ≤ add).
  { apply Z.land_nonneg. right. rewrite Z.shiftl_1_l. pose proof (Z.pow_pos_nonneg 2 (62 - (62 - (cluster_bits q - 8)))). lia. }
  pose proof (Z.div_mod host 512 ltac:(lia)). pose proof (Z.mod_pos_bound host 512 ltac:(lia)). lia.
Qed.
Lemma read_compressed_spec q e :
  qcow2_ok q → data_ok q (Compressed e) →
  ∃ out, read_compressed_cluster e (replicate (Z.to_nat (cluster_size q)) 0) q = (q, DOk out) ∧
    inflated q e = Some out ∧ len out = cluster_size q.
Proof.
  intros Hok Hd. unfold read_compressed_cluster. rewrite (dbind_ok _ _ q q q) by done. unfold data_ok, inflated in *.
  pose proof (compressed_range_order q e (qk_bits q Hok)) as Hab. destruct (compressed_range q e) as [a b].
  destruct Hd as (Hb & _ & [out Hout]). rewrite Hout.
  assert (read_file a (b - a) q = (q, DOk (slice (q_file q) a b))) as Hr.
  { unfold read_file. rewrite (dbind_ok _ _ q q q) by done. unfold dpure, read_exact_at.
    rewrite (proj2 (Z.leb_le (a + (b - a)) _)), orb_true_r by lia. by replace (a + (b - a)) with b by lia. }
  rewrite (dbind_ok _ _ _ _ _ Hr), Hout. exists out. split_and!; [done..|].
  rewrite (inflate_len _ _ _ Hout), len_replicate. pose proof (cluster_pos q Hok). lia.
Qed.
(** A part of a decompressed cluster. *)
Lemma compressed_part q e out abs n :
  qcow2_ok q → 0 ≤ abs → 0 < n → covers q abs n (Compressed e) → abs mod cluster_size q + n ≤ cluster_size q →
  inflated q e = Some out → len out = cluster_size q →
  slice_chk out (abs mod cluster_size q) (abs mod cluster_size q + n) = Ret (content_at (guest_byte q) abs n).
Proof.
  intros Hok Ha Hn Hc Hle Hout Hl. pose proof (cluster_pos q Hok) as Hcs. pose proof (Z.mod_pos_bound abs (cluster_size q) ltac:(lia)).
  rewrite slice_chk_ret by lia. f_equal. apply content_at_list; [rewrite len_slice; lia|]. intros i Hi.
  rewrite idx_slice by lia. unfold guest_byte. rewrite Hc by done. simpl. rewrite Hout. simpl. f_equal.
  pose proof (Z.div_mod abs (cluster_size q) ltac:(lia)) as Hd.
  apply (Z.mod_unique_pos _ _ (abs / cluster_size q)); lia.
Qed.
(** A run of file bytes is in the file. *)
Lemma covers_file q abs n h :
  qcow2_ok q → 0 ≤ abs → 0 < n → covers q abs n (File h) →
  0 ≤ h ∧ h + n ≤ len (q_file q) ∧ content_at (idx (q_file q)) h n = content_at (guest_byte q) abs n.
Proof.
  intros Hok Ha Hn Hc. pose proof (Hc 0 ltac:(lia)) as H0'. pose proof (guest_file_nonneg q _ _ Hok H0').
  pose proof (qk_data q Hok (abs + (n - 1)) ltac:(lia)) as Hd. rewrite Hc in Hd by lia. destruct Hd as [Hd _].
  split_and!; [lia|lia|]. apply content_at_list; [rewrite len_content_at; lia|]. intros i Hi. rewrite idx_content_at by lia.
  unfold guest_byte. by rewrite Hc by lia.
Qed.
Lemma covers_content q abs n s :
  s = Backing ∨ s = Zero → covers q abs n s → content_at (source_byte q s) abs n = content_at (guest_byte q) abs n.
Proof.
  intros Hs Hc. apply content_at_ext. intros i Hi. unfold guest_byte. rewrite Hc by done. by destruct Hs as [-> | ->].
Qed.

Lemma read_source_spec q abs n s :
  qcow2_ok q → 0 ≤ abs → 0 < n → covers q abs n s → (∀ e, s = Compressed e → abs mod cluster_size q + n ≤ cluster_size q) →
  ∃ q', read_source abs n s q = (q', DOk (content_at (guest_byte q) abs n)) ∧ qcow2_ok q' ∧ same_disk q q'.
Proof.
  intros Hok Ha Hn Hc Hcomp. pose proof (cluster_pos q Hok) as Hcs. destruct s as [| |h|e]; simpl.
  - destruct (read_unallocated_spec q abs n Hok Ha ltac:(lia)) as (q' & Hr & ? & ?). exists q'. rewrite Hr.
    by rewrite <-(covers_content q abs n Backing) by (by left || done).
  - exists q. split_and!; [|done|apply same_disk_refl]. unfold mret, dstate_ret. do 2 f_equal.
    rewrite <-(covers_content q abs n Zero) by (by right || done). by apply zeros_content; [lia|].
  - destruct (covers_file q abs n h Hok Ha Hn Hc) as (Hh & Hl & Heq). exists q. split_and!; [|done|apply same_disk_refl].
    unfold read_file. rewrite (dbind_ok _ _ q q q) by done. unfold dpure. by rewrite read_exact_at_content, Heq by lia.
  - pose proof (qk_data q Hok abs Ha) as Hd. replace abs with (abs + 0) in Hd by lia. rewrite Hc in Hd by lia.
    destruct (read_compressed_spec q e Hok Hd) as (out & Hr & Hout & Hl). exists q. split_and!; [|done|apply same_disk_refl].
    rewrite (dbind_ok _ _ q q q) by done. rewrite (dbind_ok _ _ _ _ _ Hr). unfold dpure.
    rewrite (compressed_part q e out abs n); try done. by apply (Hcomp e).
Qed.

Lemma read_bytes_spec fuel q abs rest :
  qcow2_ok q → 0 ≤ abs → 0 ≤ rest ≤ Z.of_nat fuel →
  ∃ q', read_bytes fuel abs rest q = (q', DOk (content_at (guest_byte q) abs rest)) ∧ qcow2_ok q' ∧ same_disk q q'.
Proof.
  revert q abs rest. induction fuel as [|fuel IH]; intros q abs rest Hok Ha Hr; cbn [read_bytes].
  - assert (rest = 0) as -> by lia. exists q. split_and!; [done|done|apply same_disk_refl].
  - destruct (Z.eqb_spec rest 0) as [->|Hne]; [exists q; split_and!; [done|done|apply same_disk_refl]|].
    destruct (read_extent_spec q abs rest Hok Ha ltac:(lia)) as (q1 & s & n & He & Hok1 & Hu1 & Hn & Hc & Hcomp).
    rewrite (dbind_ok _ _ _ _ _ He).
    destruct (read_source_spec q1 abs n s Hok1 Ha ltac:(lia)) as (q2 & Hs & Hok2 & Hu2);
      [by eapply covers_unchanged|by rewrite (un_cluster _ _ Hu1)|].
    rewrite (dbind_ok _ _ _ _ _ Hs). destruct (IH q2 (abs + n) (rest - n) Hok2 ltac:(lia) ltac:(lia)) as (q3 & Hb & Hok3 & Hu3).
    rewrite (dbind_ok _ _ _ _ _ Hb). exists q3. split_and!; [|done|by repeat (eapply same_disk_trans; [eassumption|])].
    unfold mret, dstate_ret. do 2 f_equal.
    rewrite (guest_content_unchanged q1 q2), !(guest_content_unchanged q q1) by (done || lia).
    rewrite <-content_at_app by lia. f_equal. lia.
Qed.

(** ** Reading into a target *)

Section into.
Context `{HW : Collects W}.
Implicit Types w : W.

Lemma on_fst_ok {S T A} (m : dstate S A) s s' (t : T) a : m s = (s', DOk a) → on_fst m (s, t) = ((s', t), DOk a).
Proof. intros Hm. unfold on_fst. simpl. by rewrite Hm. Qed.
Lemma on_snd_ok {S T A} (m : dstate T A) (s : S) t t' a : m t = (t', DOk a) → on_snd m (s, t) = ((s, t'), DOk a).
Proof. intros Hm. unfold on_snd. simpl. by rewrite Hm. Qed.

(** The unallocated bytes: what the backing image has of them, then zeros. *)
Lemma target_backing_spec q w abs n :
  qcow2_ok q → 0 ≤ abs → 0 < n →
  ∃ q' w', target_source abs n Backing (q, w) = ((q', w'), DOk tt) ∧
    collected w' = collected w ++ content_at (backing_byte q) abs n ∧ qcow2_ok q' ∧ same_disk q q'.
Proof.
  intros Hok Ha Hn. unfold target_source. rewrite (dbind_ok _ _ _ (q, w) (q, w)) by done. cbn [fst].
  destruct (backing_image q) as [b|] eqn:Hb.
  - set (m := Z.min (sat_sub (size b) abs) n). pose proof (size_range b ltac:(by apply (qk_backing q Hok))) as Hsz.
    assert (0 ≤ m ≤ n) by (unfold m, sat_sub; lia).
    assert (content_at (backing_byte q) abs n = content_at (backing_byte q) abs m ++ content_at (λ _, 0) 0 (n - m)) as Hsplit.
    { replace n with (m + (n - m)) at 1 by lia. rewrite content_at_app by lia. f_equal.
      transitivity (replicate (Z.to_nat (n - m)) 0); [symmetry|by apply zeros_content; [lia|]]. apply zeros_content; [lia|].
      intros i Hi. unfold backing_byte. rewrite Hb, (proj2 (Z.ltb_ge _ _)); [done|]. unfold m, sat_sub in Hi |- *. lia. }
    destruct (Z.eqb_spec m 0) as [Hm0|Hm0].
    + rewrite (dbind_ok _ _ _ (q, w) tt) by done. destruct (zero_collects (Z.to_nat (n - m)) (n - m) w) as (w' & Hz & Hc); [lia|].
      exists q, w'. rewrite (on_snd_ok _ _ _ _ _ Hz). split_and!; [done| |done|apply same_disk_refl]. rewrite Hc, Hsplit, Hm0. done.
    + assert (0 < m) by lia. assert (abs + m ≤ size b) as Hfit by (unfold m, sat_sub in *; lia).
      destruct (read_into_content b w abs m) as (b' & w1 & Hr & Hc1 & Hok' & Hs & Hcc); [by apply (qk_backing q Hok)|lia..|].
      assert (backing_into b abs m (q, w) = ((set_backing_image (Some b') q, w1), DOk tt)) as Hbi.
      { unfold backing_into. simpl. by rewrite Hr. }
      rewrite (dbind_ok _ _ _ _ _ Hbi). destruct (zero_collects (Z.to_nat (n - m)) (n - m) w1) as (w' & Hz & Hc); [lia|].
      destruct (backing_unchanged q b b' Hok Hb Hok' Hs Hcc) as [Hok2 Hu2].
      exists (set_backing_image (Some b') q), w'. rewrite (on_snd_ok _ _ _ _ _ Hz). split_and!; [done| |done|done].
      rewrite Hc, Hc1, Hsplit, <-app_assoc. f_equal. f_equal. apply content_at_ext. intros i Hi. unfold backing_byte.
      rewrite Hb, (proj2 (Z.ltb_lt _ _)) by lia. done.
  - cbn [Z.eqb]. rewrite (dbind_ok _ _ _ (q, w) tt) by done. rewrite Z.sub_0_r.
    destruct (zero_collects (Z.to_nat n) n w) as (w' & Hz & Hc); [lia|].
    exists q, w'. rewrite (on_snd_ok _ _ _ _ _ Hz). split_and!; [done| |done|apply same_disk_refl].
    rewrite Hc. f_equal. transitivity (replicate (Z.to_nat n) 0); [symmetry; by apply zeros_content; [lia|]|]. apply zeros_content; [lia|].
    intros. unfold backing_byte. by rewrite Hb.
Qed.

Lemma target_source_spec q w abs n s :
  qcow2_ok q → 0 ≤ abs → 0 < n → covers q abs n s → (∀ e, s = Compressed e → abs mod cluster_size q + n ≤ cluster_size q) →
  ∃ q' w', target_source abs n s (q, w) = ((q', w'), DOk tt) ∧ collected w' = collected w ++ content_at (guest_byte q) abs n ∧
    qcow2_ok q' ∧ same_disk q q'.
Proof.
  intros Hok Ha Hn Hc Hcomp. pose proof (cluster_pos q Hok) as Hcs. destruct s as [| |h|e].
  - destruct (target_backing_spec q w abs n Hok Ha Hn) as (q' & w' & Ht & Hw & ? & ?). exists q', w'. split_and!; try done.
    by rewrite Hw, <-(covers_content q abs n Backing) by (by left || done).
  - destruct (zero_collects (Z.to_nat n) n w) as (w' & Hz & Hw); [lia|].
    exists q, w'. split_and!; [by apply on_snd_ok| |done|apply same_disk_refl].
    rewrite Hw, <-(covers_content q abs n Zero) by (by right || done). reflexivity.
  - destruct (covers_file q abs n h Hok Ha Hn Hc) as (Hh & Hl & Heq).
    destruct (target_read_file_collects (Z.to_nat n) (q_file q) h n w) as (w' & Hz & Hw); [lia..|].
    exists q, w'. rewrite <-Heq. split_and!; [by apply on_snd_ok|done|done|apply same_disk_refl].
  - pose proof (qk_data q Hok abs Ha) as Hd. replace abs with (abs + 0) in Hd by lia. rewrite Hc in Hd by lia.
    destruct (read_compressed_spec q e Hok Hd) as (out & Hr & Hout & Hl).
    destruct (write_all_collects w (content_at (guest_byte q) abs n)) as (w' & Hz & Hw).
    exists q, w'. split_and!; [|done|done|apply same_disk_refl]. unfold target_source.
    rewrite (dbind_ok _ _ _ (q, w) (q, w)) by done. cbn [fst]. rewrite (dbind_ok _ _ _ _ _ (on_fst_ok _ _ _ w _ Hr)).
    rewrite (compressed_part q e out abs n); try done; [|by apply (Hcomp e)].
    rewrite (dbind_ok _ _ _ (q, w) (content_at (guest_byte q) abs n)) by done. by apply on_snd_ok.
Qed.

Lemma read_target_spec fuel q w abs rest :
  qcow2_ok q → 0 ≤ abs → 0 ≤ rest ≤ Z.of_nat fuel →
  ∃ q' w', read_target fuel abs rest (q, w) = ((q', w'), DOk tt) ∧ collected w' = collected w ++ content_at (guest_byte q) abs rest ∧
    qcow2_ok q' ∧ same_disk q q'.
Proof.
  revert q w abs rest. induction fuel as [|fuel IH]; intros q w abs rest Hok Ha Hr; cbn [read_target].
  - assert (rest = 0) as -> by lia. exists q, w. rewrite app_nil_r. split_and!; [done..|apply same_disk_refl].
  - destruct (Z.eqb_spec rest 0) as [->|Hne]; [exists q, w; rewrite app_nil_r; split_and!; [done..|apply same_disk_refl]|].
    destruct (read_extent_spec q abs rest Hok Ha ltac:(lia)) as (q1 & s & n & He & Hok1 & Hu1 & Hn & Hc & Hcomp).
    rewrite (dbind_ok _ _ _ _ _ (on_fst_ok _ _ _ w _ He)).
    destruct (target_source_spec q1 w abs n s Hok1 Ha ltac:(lia)) as (q2 & w2 & Hs & Hw2 & Hok2 & Hu2);
      [by eapply covers_unchanged|by rewrite (un_cluster _ _ Hu1)|].
    rewrite (dbind_ok _ _ _ _ _ Hs). destruct (IH q2 w2 (abs + n) (rest - n) Hok2 ltac:(lia) ltac:(lia)) as (q3 & w3 & Hb & Hw3 & Hok3 & Hu3).
    exists q3, w3. split_and!; [done| |done|by repeat (eapply same_disk_trans; [eassumption|])].
    rewrite Hw3, Hw2, (guest_content_unchanged q1 q2), !(guest_content_unchanged q q1) by (done || lia).
    rewrite <-app_assoc, <-content_at_app by lia. do 2 f_equal. lia.
Qed.
End into.

(** ** The image keeps the promise of the interface *)

Definition guest_content q (o : Z) : Z := if 0 <=? o then guest_byte q o else 0.
Lemma guest_content_at q abs n : 0 ≤ abs → content_at (guest_content q) abs n = content_at (guest_byte q) abs n.
Proof. intros Ha. apply content_at_ext. intros i Hi. unfold guest_content. by rewrite (proj2 (Z.leb_le _ _)) by lia. Qed.
Lemma guest_content_same q q' o : qcow2_ok q → same_disk q q' → guest_content q' o = guest_content q o.
Proof. intros Hok Hu. unfold guest_content. destruct (0 <=? o) eqn:E; [|done]. bsplit. by apply same_disk_guest_byte. Qed.

#[global, program] Instance Qcow2Image_contents : DiskContents (Qcow2Image B) := {|
  image_ok := qcow2_ok; content := guest_content |}.
Next Obligation. intros q Hok. apply Hok. Qed.
Next Obligation.
  intros q off n Hok Ho Hn Hr. simpl in *. pose proof (qk_size q Hok).
  destruct (read_bytes_spec (Z.to_nat n) q off n Hok Ho ltac:(lia)) as (q' & Hb & Hok' & Hu). exists q'.
  rewrite guest_content_at by done. split_and!; [|done|apply Hu|intros; by apply guest_content_same].
  unfold qcow2_read_at. rewrite (dbind_ok _ _ q q q) by done. rewrite !(proj2 (Z.ltb_ge _ _)) by lia. done.
Qed.
Next Obligation.
  intros q off n Hr. simpl in *. unfold qcow2_read_at. rewrite (dbind_ok _ _ q q q) by done.
  destruct (_ <? _); [done|]. by rewrite (proj2 (Z.ltb_lt _ _)) by lia.
Qed.
Next Obligation.
  intros W T C q w off n Hok Ho Hn Hr. simpl in *. pose proof (qk_size q Hok).
  destruct (read_target_spec (Z.to_nat n) q w off n Hok Ho ltac:(lia)) as (q' & w' & Hb & Hw & Hok' & Hu). exists q', w'.
  rewrite guest_content_at by done. split_and!; [|done|done|apply Hu|intros; by apply guest_content_same].
  unfold qcow2_read_into. rewrite (dbind_ok _ _ _ (q, w) (q, w)) by done. cbn [fst].
  rewrite (dbind_ok _ _ _ (q, w) tt) by (apply check_read_ok; lia). done.
Qed.

(** C36: reads return the guest's bytes. On a valid image over any backing
    image that keeps the interface's promise, a read in range, however its
    clusters are scattered, shared between extents, cached, compressed, zero
    or left to the backing chain, returns byte for byte what the tables map,
    and the copy into a target delivers the same bytes; neither changes a
    guest byte nor breaks the image; and a read past the end is refused. *)
Theorem qcow2_read_correct `{HW : Collects W} q (w : W) off n :
  qcow2_ok q → 0 ≤ off → 0 ≤ n →
  if off + n <=? q_size q then
    (∃ q', qcow2_read_at off n q = (q', DOk (content_at (guest_byte q) off n)) ∧ qcow2_ok q' ∧
       ∀ o, 0 ≤ o → guest_byte q' o = guest_byte q o) ∧
    (∃ q' w', qcow2_read_into off n (q, w) = ((q', w'), DOk tt) ∧
       collected w' = collected w ++ content_at (guest_byte q) off n ∧ qcow2_ok q' ∧
       ∀ o, 0 ≤ o → guest_byte q' o = guest_byte q o)
  else qcow2_read_at off n q = (q, DErr Unsupported) ∧ qcow2_read_into off n (q, w) = ((q, w), DErr Unsupported).
Proof.
  intros Hok Ho Hn. pose proof (qk_size q Hok). destruct (Z.leb_spec (off + n) (q_size q)) as [Hr|Hr].
  - destruct (read_bytes_spec (Z.to_nat n) q off n Hok Ho ltac:(lia)) as (q1 & Hb1 & Hok1 & Hu1).
    destruct (read_target_spec (Z.to_nat n) q w off n Hok Ho ltac:(lia)) as (q2 & w2 & Hb2 & Hw2 & Hok2 & Hu2). split.
    + exists q1. split_and!; [|done|intros; by apply same_disk_guest_byte].
      unfold qcow2_read_at. rewrite (dbind_ok _ _ q q q) by done. by rewrite !(proj2 (Z.ltb_ge _ _)) by lia.
    + exists q2, w2. split_and!; [|done|done|intros; by apply same_disk_guest_byte].
      unfold qcow2_read_into. rewrite (dbind_ok _ _ _ (q, w) (q, w)) by done. cbn [fst].
      by rewrite (dbind_ok _ _ _ (q, w) tt) by (apply check_read_ok; lia).
  - split.
    + exact (read_at_refused q off n Hr).
    + unfold qcow2_read_into, check_read. rewrite (dbind_ok _ _ _ (q, w) (q, w)) by done. cbn [fst].
      unfold mbind, dstate_bind. by rewrite (proj2 (Z.leb_gt (off + n) (q_size q))), andb_false_r by lia.
Qed.
End contents.

(** ** Witness: an overlay on a raw image, with clusters of 512 bytes *)

#[global] Instance Vec_target : ReadTarget bytes := {| write_all b w := (w ++ b, DOk tt) |}.
#[global, program] Instance Vec_collects : Collects bytes := {| collected w := w |}.
Next Obligation. intros w b. by exists (w ++ b). Qed.

(** A decompressor that copies. *)
Definition copy_inflate (c out : bytes) : option bytes := Some (take (length out) c ++ drop (length c) out).

Section sample.
#[local] Instance sample_inflate : Inflate := {| inflate := copy_inflate |}.
#[local, program] Instance sample_inflate_laws : InflateLaws.
Next Obligation.
  intros c out out' Heq. simpl in Heq. unfold copy_inflate in Heq. simplify_eq. unfold len. rewrite length_app, length_take, length_drop. lia.
Qed.

(** Guest clusters 0 and 1 adjacent in the file, 2 zero, 3 left to the
    backing image, 4 compressed. *)
Definition sample_l2 : bytes :=
  u64_be (1024 + COPIED_BIT) ++ u64_be (1536 + COPIED_BIT) ++ u64_be ZERO_BIT ++ u64_be 0 ++ u64_be (COMPRESSED_BIT + 2048) ++ replicate 472 0.
Definition sample_image : Qcow2Image RawImage :=
  mkQcow2 (replicate 512 0 ++ sample_l2 ++ replicate 512 11 ++ replicate 512 22 ++ replicate 512 33)
    false 3 9 512 2560 1 0 0 0 16 0 0 [] None (Some (raw_open (replicate 1800 44) true)) [512 + COPIED_BIT] []
    (TableCache_new 64) (TableCache_new 64) (mkFree ∅ 0) false false false.

Definition sample_entry_ok (i : Z) : bool :=
  match from_entry (word sample_l2 i) 0 with
  | File h => (h =? 1024) || (h =? 1536)
  | Compressed e => e =? COMPRESSED_BIT + 2048
  | _ => true
  end.
Lemma sample_entries i : 0 ≤ i < 64 →
  match from_entry (word sample_l2 i) 0 with
  | File h => h = 1024 ∨ h = 1536
  | Compressed e => e = COMPRESSED_BIT + 2048
  | _ => True
  end.
Proof.
  intros Hi. assert (forallb sample_entry_ok (seqZ 0 64) = true) as Hall by (vm_compute; reflexivity).
  rewrite forallb_forall in Hall. specialize (Hall i). rewrite <-list_elem_of_In in Hall.
  specialize (Hall ltac:(apply elem_of_seqZ; lia)). unfold sample_entry_ok in Hall. destruct (from_entry _ 0); try done.
  - apply orb_true_iff in Hall as [?|?]; bsplit; lia.
  - by bsplit.
Qed.
Lemma sample_not_dirty i : not_dirty sample_image i.
Proof. intros k t Hk. unfold sample_image, l2_cache, TableCache_new, c_map in Hk. by rewrite lookup_empty in Hk. Qed.

Lemma sample_cache_empty : c_map (l2_cache sample_image) = ∅ ∧ c_order (l2_cache sample_image) = [] ∧ c_cap (l2_cache sample_image) = 64.
Proof. done. Qed.
Lemma sample_geometry : cluster_bits sample_image = 9 ∧ cluster_size sample_image = 512 ∧ l1 sample_image = [512 + COPIED_BIT] ∧ len (q_file sample_image) = 2560.
Proof. split_and!; [done..|]. vm_compute. reflexivity. Qed.
Lemma sample_table : l2_table sample_image 512 = sample_l2.
Proof. vm_compute. reflexivity. Qed.
Lemma sample_compressed : compressed_range sample_image (COMPRESSED_BIT + 2048) = (2048, 2560) ∧ is_Some (inflated sample_image (COMPRESSED_BIT + 2048)).
Proof. split; [vm_compute; reflexivity|]. by eexists. Qed.
Lemma sample_size : q_size sample_image = 2560.
Proof. done. Qed.
Lemma sample_backing : backing_image sample_image = Some (raw_open (replicate 1800 44) true).
Proof. done. Qed.
Lemma sample_bytes : content_at (guest_byte sample_image) 1000 1200 =
  replicate 24 22 ++ replicate 512 0 ++ replicate 264 44 ++ replicate 248 0 ++ replicate 152 33.
Proof. vm_compute. reflexivity. Qed.
#[local] Opaque sample_image sample_l2.
Lemma sample_image_ok : qcow2_ok sample_image.
Proof.
  destruct sample_cache_empty as (Hmap & Hord & Hcap), sample_geometry as (Hbits & Hcs & Hl1 & Hlen).
  assert (∀ k e, c_map (l2_cache sample_image) !! k ≠ Some e) as Hno by (intros k e; by rewrite Hmap, lookup_empty).
  constructor.
  - rewrite Hbits. lia.
  - by rewrite Hbits, Hcs.
  - rewrite sample_size. unfold U64_MAX. lia.
  - constructor.
    + rewrite Hord. constructor.
    + intros k. rewrite Hord, Hmap, lookup_empty. split; [by intros ?%elem_of_nil|by intros []].
    + rewrite Hmap, Hcap, map_size_empty. lia.
    + lia.
    + intros k buf Hk. by apply Hno in Hk.
  - intros k t d Hk. by apply Hno in Hk.
  - intros k t _. apply Hno.
  - intros i e. rewrite Hl1. intros He _. apply list_lookup_singleton_Some in He as [-> <-].
    change (Z.land (512 + COPIED_BIT) OFFSET_MASK) with 512. unfold table_at. rewrite Hcs, Hlen. split_and!; [lia|done|lia].
  - intros o Ho. unfold guest_source. rewrite Hl1, Hcs.
    assert (0 ≤ l1_index_of sample_image o) as Hnn by (apply Z.shiftr_nonneg; done).
    destruct (decide (l1_index_of sample_image o = 0)) as [->|Hne].
    + change (Z.land (default 0 ([512 + COPIED_BIT] !! Z.to_nat 0)) OFFSET_MASK) with 512. change (512 =? 0) with false. cbv iota.
      rewrite sample_table. assert (0 ≤ l2_index_of sample_image o < 64) as Hi.
      { unfold l2_index_of, l2_entries. rewrite Hcs. change (512 / 8 - 1) with (Z.ones 6). rewrite Z.land_ones by lia. apply Z.mod_pos_bound. lia. }
      pose proof (sample_entries _ Hi) as He. rewrite from_entry_shift.
      pose proof (Z.mod_pos_bound o 512 ltac:(lia)). destruct (from_entry _ 0) as [| |h|e]; [exact I|exact I| |].
      * split; [|apply sample_not_dirty]. rewrite Hlen. lia.
      * subst e. destruct sample_compressed as [Hr Hinf]. unfold data_ok. rewrite Hr, Hlen.
        split_and!; [lia|intros; apply sample_not_dirty|exact Hinf].
    + rewrite lookup_ge_None_2 by (simpl; lia). exact I.
  - intros b. rewrite sample_backing. intros [= <-]. split; vm_compute; [reflexivity|discriminate].
Qed.

(** One read across the file, zero, backing and compressed clusters. *)
Lemma qcow2_read_correct_witness :
  (∃ q', qcow2_read_at 1000 1200 sample_image = (q', DOk (replicate 24 22 ++ replicate 512 0 ++ replicate 264 44 ++ replicate 248 0 ++ replicate 152 33))
     ∧ qcow2_ok q') ∧
  qcow2_read_at 2000 561 sample_image = (sample_image, DErr Unsupported).
Proof.
  pose proof (qcow2_read_correct sample_image ([] : bytes) 1000 1200 sample_image_ok ltac:(lia) ltac:(lia)) as Hin.
  pose proof (qcow2_read_correct sample_image ([] : bytes) 2000 561 sample_image_ok ltac:(lia) ltac:(lia)) as Hout.
  rewrite sample_size in Hin, Hout. change (1000 + 1200 <=? 2560) with true in Hin. change (2000 + 561 <=? 2560) with false in Hout.
  destruct Hin as [(q' & Hr & Hok & _) _], Hout as [Hf _].
  split; [|exact Hf]. exists q'. split; [|exact Hok]. rewrite Hr, sample_bytes. reflexivity.
Defined.
End sample.
