(* ===== verification/Qcow2Alloc.v ===== *)
(** * qcow2 images: refcounts and the cluster allocator ([hv/crates/vmlab-disk/src/qcow2/refcount.rs])

    Refcounts through the cache of refcount blocks, the lazily filled set of
    free clusters, and the allocator that grows the coverage of the refcount
    table when no free run is left. Setting a refcount may allocate a block
    for it, which sets a refcount: the functions are mutually recursive, on
    fuel that every call spends. *)

From S2P Require Import Prelude TableCache Disk Qcow2.

(** [for x in l { f(x)?; }]. *)
Fixpoint dfor {S A} (l : list A) (f : A → dstate S unit) : dstate S unit :=
  match l with
  | [] => mret tt
  | x :: l => _ ← f x; dfor l f
  end.

(** [BTreeSet] iteration order. *)
Definition ascending (s : gset Z) : list Z := merge_sort (≤) (elements s).

Definition FREE_SCAN_TARGET : Z := 4096.

(** The first of [count] adjacent numbers in an ascending list: [start] and
    [n] are the run read so far. *)
Fixpoint find_run (l : list Z) (start n count : Z) : option Z :=
  match l with
  | [] => None
  | c :: l =>
      let '(start, n) := if (0 <? n) && (c =? start + n) then (start, n + 1) else (c, 1) in
      if n =? count then Some start else find_run l start n count
  end.

(** One block of the scan: the indexes [todo] left in block [ti]; whether the
    pass stops early. *)
Fixpoint scan_block (buf : bytes) (width ti rbe : Z) (to_end : bool) (todo : list Z) (fc : FreeClusters)
    : outcome (FreeClusters * bool) :=
  match todo with
  | [] => Ret (fc, false)
  | i :: todo =>
      v ← bits_get buf i width;
      let fc := mkFree (if v =? 0 then {[ti * rbe + i]} ∪ free_set fc else free_set fc) (ti * rbe + i + 1) in
      if negb to_end && (FREE_SCAN_TARGET <=? Z.of_nat (base.size (free_set fc))) then Ret (fc, true)
      else scan_block buf width ti rbe to_end todo fc
  end.

Section alloc.
Context {B : Type} `{DiskImage B} `{Inflate}.
Abbreviation img := (Qcow2Image B).

Definition refblock_entries (q : img) : Z := cluster_size q * 8 / refcount_bits q.

(** [(1u64 << self.refcount_bits) - 1]: the shift is out of range for 64-bit
    refcounts. *)
Definition refcount_max (q : img) : outcome Z :=
  if refcount_bits q <? 64 then Ret (Z.shiftl 1 (refcount_bits q) - 1) else Panic.

Definition refblock_host (table_index : Z) : dstate img Z :=
  q ← dgets id;
  match refcount_table q !! Z.to_nat table_index with
  | None => dfail Format
  | Some entry =>
      let host := Z.land entry OFFSET_MASK in
      if host =? 0 then dfail Format else mret host
  end.

Definition rb_get (ti : Z) : dstate img (option (bytes * bool)) := λ q,
  let '(c, e) := get (refblock_cache q) ti in (set_refblock_cache c q, DOk e).
Definition rb_put (ti : Z) (t : bytes) (dirty : bool) : dstate img (list (Z * bytes)) := λ q,
  let '(c, out) := put (refblock_cache q) ti t dirty in (set_refblock_cache c q, DOk out).
Fixpoint write_blocks (out : list (Z * bytes)) : dstate img unit :=
  match out with
  | [] => mret tt
  | (index, block) :: out => host ← refblock_host index; _ ← write_file host block; write_blocks out
  end.

Definition load_refblock (table_index : Z) : dstate img unit :=
  e ← rb_get table_index;
  match e with
  | Some _ => mret tt
  | None =>
      host ← refblock_host table_index;
      q ← dgets id;
      buf ← read_file host (cluster_size q);
      out ← rb_put table_index buf false;
      write_blocks out
  end.
Definition cached_block (ti : Z) : dstate img bytes :=
  e ← rb_get ti;
  match e with Some (t, _) => mret t | None => dpure DPanic end.

Definition refblock_get (table_index idx_in_block : Z) : dstate img Z :=
  q ← dgets id;
  let entry := default 0 (refcount_table q !! Z.to_nat table_index) in
  if Z.land entry OFFSET_MASK =? 0 then mret 0
  else
    _ ← load_refblock table_index;
    buf ← cached_block table_index;
    dpure (of_outcome (bits_get buf idx_in_block (refcount_bits q))).

Definition refblock_set (table_index idx_in_block value : Z) : dstate img unit :=
  _ ← load_refblock table_index;
  _ ← dmodify (λ q, set_refblock_cache (mark_dirty (refblock_cache q) table_index) q);
  q ← dgets id;
  match c_map (refblock_cache q) !! table_index with
  | None => dpure DPanic
  | Some (buf, _) =>
      buf ← dpure (of_outcome (bits_set buf idx_in_block (refcount_bits q) value));
      dmodify (λ q, set_refblock_cache (set_data (refblock_cache q) table_index buf) q)
  end.

Definition get_refcount (cluster_idx : Z) : dstate img Z :=
  q ← dgets id;
  let rbe := refblock_entries q in
  refblock_get (cluster_idx / rbe) (cluster_idx mod rbe).

(** ** The free set *)

(** The scan from [scan_next] to [covered], a block at a time; [fuel] bounds
    the blocks. *)
Fixpoint refill_loop (fuel : nat) (to_end : bool) (rbe covered : Z) : dstate img unit :=
  q ← dgets id;
  let next := scan_next (q_free q) in
  if next <? covered then
    match fuel with
    | O => dpure DFuel
    | S fuel =>
        let ti := next / rbe in
        if Z.land (default 0 (refcount_table q !! Z.to_nat ti)) OFFSET_MASK =? 0 then
          _ ← dmodify (λ q, set_free (mkFree (free_set (q_free q)) ((ti + 1) * rbe)) q);
          refill_loop fuel to_end rbe covered
        else
          _ ← load_refblock ti;
          buf ← cached_block ti;
          '(fc, stop) ← dpure (of_outcome (scan_block buf (refcount_bits q) ti rbe to_end (seqZ (next mod rbe) (rbe - next mod rbe)) (q_free q)));
          if stop : bool then dmodify (set_free fc)
          else
            _ ← dmodify (set_free (mkFree (free_set fc) ((ti + 1) * rbe)));
            if negb to_end && (FREE_SCAN_TARGET <=? Z.of_nat (base.size (free_set fc))) then mret tt
            else refill_loop fuel to_end rbe covered
    end
  else mret tt.
Definition refill_free_map (to_end : bool) : dstate img unit :=
  q ← dgets id;
  let rbe := refblock_entries q in
  refill_loop (length (refcount_table q) + 1) to_end rbe (Z.of_nat (length (refcount_table q)) * rbe).

Definition take_mapped_run (count : Z) : dstate img (option Z) := λ q,
  let count := Z.max count 1 in
  match find_run (ascending (free_set (q_free q))) 0 0 count with
  | None => (q, DOk None)
  | Some first =>
      (set_free (mkFree (free_set (q_free q) ∖ list_to_set (seqZ first count)) (scan_next (q_free q))) q, DOk (Some first))
  end.

(** [self.l2_cache.remove(host)]. *)
Definition drop_l2 (host : Z) : dstate img unit := dmodify (λ q, set_l2_cache (cache_remove (l2_cache q) host) q).

Definition dec_with (set_rc : Z → Z → dstate img unit) (cluster_idx : Z) : dstate img unit :=
  rc ← get_refcount cluster_idx;
  if rc =? 0 then dfail Format else set_rc cluster_idx (rc - 1).
Definition position (l : list Z) : option Z := Z.of_nat ∘ fst <$> list_find (λ e, Z.land e OFFSET_MASK = 0) l.
Definition table_bytes (t : list Z) : bytes := t ≫= u64_be.

(** ** Refcounts and the allocator *)

Fixpoint set_cluster_refcount (fuel : nat) (cluster_idx value : Z) {struct fuel} : dstate img unit :=
  match fuel with
  | O => dpure DFuel
  | S fuel =>
      q ← dgets id;
      let rbe := refblock_entries q in
      let table_index := cluster_idx / rbe in
      _ ← ensure_refcount_table_len fuel (table_index + 1);
      q ← dgets id;
      _ ← match refcount_table q !! Z.to_nat table_index with
          | None => dpure DPanic
          | Some e => if Z.land e OFFSET_MASK =? 0 then alloc_refblock fuel table_index else mret tt
          end;
      _ ← refblock_set table_index (cluster_idx mod rbe) value;
      dmodify (λ q, set_free (mkFree (if value =? 0 then {[cluster_idx]} ∪ free_set (q_free q)
                                      else free_set (q_free q) ∖ {[cluster_idx]}) (scan_next (q_free q))) q)
  end
with ensure_refcount_table_len (fuel : nat) (n : Z) {struct fuel} : dstate img unit :=
  match fuel with
  | O => dpure DFuel
  | S fuel =>
      q ← dgets id;
      if n <=? Z.of_nat (length (refcount_table q)) then mret tt
      else
        let region_clusters := Z.max (div_ceil (n * 8) (cluster_size q)) 1 in
        _ ← (if refcount_table_clusters q <? region_clusters then grow_refcount_table_region fuel region_clusters else mret tt);
        dmodify (λ q,
          let want := Z.to_nat (refcount_table_clusters q * cluster_size q / 8) in
          if bool_decide (length (refcount_table q) < want)%nat
          then set_refcount_table (refcount_table q ++ replicate (want - length (refcount_table q)) 0) q else q)
  end
with grow_refcount_table_region (fuel : nat) (clusters : Z) {struct fuel} : dstate img unit :=
  match fuel with
  | O => dpure DFuel
  | S fuel =>
      q ← dgets id;
      let old_offset := refcount_table_offset q in
      let old_clusters := refcount_table_clusters q in
      if clusters <=? old_clusters then mret tt
      else
        let entries := Z.to_nat (clusters * cluster_size q / 8) in
        _ ← dmodify (set_refcount_table_clusters (wrap32 clusters));
        _ ← (if bool_decide (length (refcount_table q) ≤ entries)%nat
             then dmodify (set_refcount_table (refcount_table q ++ replicate (entries - length (refcount_table q)) 0))
             else dpure DPanic);
        new_offset ← alloc_clusters_contiguous fuel clusters;
        q ← dgets id;
        region ← dpure (of_outcome (copy_at (replicate (Z.to_nat (clusters * cluster_size q)) 0) 0 (table_bytes (refcount_table q))));
        _ ← write_file new_offset region;
        _ ← dmodify (λ q, set_header_dirty true (set_refcount_table_dirty true (set_refcount_table_offset new_offset q)));
        _ ← dfor (seqZ 0 clusters) (λ idx, set_cluster_refcount fuel (new_offset / cluster_size q + idx) 1);
        dfor (seqZ 0 old_clusters) (λ idx, dec_with (set_cluster_refcount fuel) (old_offset / cluster_size q + idx))
  end
with alloc_refblock (fuel : nat) (table_index : Z) {struct fuel} : dstate img unit :=
  match fuel with
  | O => dpure DFuel
  | S fuel =>
      q ← dgets id;
      let rbe := refblock_entries q in
      _ ← refill_free_map false;
      run ← take_mapped_run 1;
      let host_idx := default (table_index * rbe) run in
      let host := host_idx * cluster_size q in
      _ ← drop_l2 host;
      q' ← dgets id;
      _ ← match refcount_table q' !! Z.to_nat table_index with
          | None => dpure DPanic
          | Some _ => dmodify (λ q, set_refcount_table_dirty true (set_refcount_table (<[Z.to_nat table_index := host]> (refcount_table q)) q))
          end;
      _ ← dmodify (λ q, set_free (mkFree (free_set (q_free q)) (Z.min (scan_next (q_free q)) (table_index * rbe))) q);
      _ ← write_file host (replicate (Z.to_nat (cluster_size q)) 0);
      set_cluster_refcount fuel host_idx 1
  end
with alloc_clusters_contiguous (fuel : nat) (count : Z) {struct fuel} : dstate img Z :=
  match fuel with
  | O => dpure DFuel
  | S fuel =>
      first ← find_free fuel count;
      q ← dgets id;
      _ ← dfor (seqZ first count) (λ idx,
            _ ← drop_l2 (idx * cluster_size q);
            set_cluster_refcount fuel idx 1);
      mret (first * cluster_size q)
  end
with find_free (fuel : nat) (count : Z) {struct fuel} : dstate img Z :=
  match fuel with
  | O => dpure DFuel
  | S fuel =>
      let count := Z.max count 1 in
      _ ← refill_free_map false;
      run ← take_mapped_run count;
      match run with
      | Some first => mret first
      | None =>
          _ ← refill_free_map true;
          run ← take_mapped_run count;
          match run with
          | Some first => mret first
          | None => _ ← grow_coverage fuel; find_free fuel count
          end
      end
  end
with grow_coverage (fuel : nat) {struct fuel} : dstate img unit :=
  match fuel with
  | O => dpure DFuel
  | S fuel =>
      q ← dgets id;
      match position (refcount_table q) with
      | Some missing => alloc_refblock fuel missing
      | None =>
          let index := Z.of_nat (length (refcount_table q)) in
          _ ← ensure_refcount_table_len fuel (index + 1);
          q ← dgets id;
          match refcount_table q !! Z.to_nat index with
          | None => dpure DPanic
          | Some e => if Z.land e OFFSET_MASK =? 0 then alloc_refblock fuel index else mret tt
          end
      end
  end.

(** The operations the rest of the image calls. A chain of calls nests at
    most a few growths; each search for a run that extends the coverage
    spends one unit. *)
Definition ALLOC_FUEL : nat := 64.

Definition set_refcount (cluster_idx value : Z) : dstate img unit := set_cluster_refcount ALLOC_FUEL cluster_idx value.
Definition dec_refcount (cluster_idx : Z) : dstate img unit := dec_with set_refcount cluster_idx.
Definition inc_refcount (cluster_idx : Z) : dstate img unit :=
  rc ← get_refcount cluster_idx;
  q ← dgets id;
  max ← dpure (of_outcome (refcount_max q));
  if max <=? rc then dfail Unsupported else set_refcount cluster_idx (rc + 1).
Definition adjust_one (cluster_idx delta : Z) : dstate img unit :=
  if 0 <=? delta then inc_refcount cluster_idx else dec_refcount cluster_idx.

Definition alloc_cluster : dstate img Z :=
  idx ← find_free ALLOC_FUEL 1;
  q ← dgets id;
  _ ← drop_l2 (idx * cluster_size q);
  _ ← set_refcount idx 1;
  mret (idx * cluster_size q).

(** [first..=last]: the clusters of a compressed descriptor. *)
Definition compressed_clusters (q : img) (entry : Z) : list Z :=
  let x := 62 - (cluster_bits q - 8) in
  let host_offset := Z.land entry (Z.shiftl 1 x - 1) in
  let sector_bits := 62 - x in
  let additional_sectors := Z.land (Z.shiftr entry x) (Z.shiftl 1 sector_bits - 1) in
  let end_ := host_offset + (additional_sectors + 1) * 512 in
  let first := host_offset / cluster_size q in
  let last := div_ceil end_ (cluster_size q) - 1 in
  seqZ first (last - first + 1).
Definition adjust_compressed_refcounts (entry delta : Z) : dstate img unit :=
  q ← dgets id;
  dfor (compressed_clusters q entry) (λ c, if 0 <? delta then inc_refcount c else dec_refcount c).
End alloc.
