(* ===== verification/Qcow2Phys.v ===== *)
(** * qcow2 images: tables and refcount blocks over one file

    The two write-back caches share the file. [phys] says how: what is cached
    and where it lives do not overlap. Under it, loading a table or a block,
    with whatever that evicts, changes no table, no block and no data, and
    storing a refcount changes that refcount only. *)

From S2P Require Import Prelude TableCache Disk Qcow2 Qcow2Alloc Qcow2Read.

Section phys.
Context {B : Type} `{HB : DiskContents B} `{HI : InflateLaws}.
Implicit Types q : Qcow2Image B.

Definition rt_host q (ti : Z) : Z := Z.land (default 0 (refcount_table q !! Z.to_nat ti)) OFFSET_MASK.
Definition is_block q (k : Z) : Prop := ∃ ti, 0 ≤ ti ∧ rt_host q ti = k ∧ k ≠ 0.
Definition rb_disk q (ti : Z) : bytes := tables (q_file q) (cluster_size q) (rt_host q ti).
(** A refcount block as the image sees it. *)
Definition block q (ti : Z) : bytes := view (refblock_cache q) (rb_disk q) ti.
(** The refcount of a cluster. *)
Definition rc q (c : Z) : Z :=
  let rbe := refblock_entries q in
  if rt_host q (c / rbe) =? 0 then 0
  else match bits_get (block q (c / rbe)) (c mod rbe) (refcount_bits q) with Ret v => v | Panic => 0 end.

Record phys q : Prop := mkPhys {
  ph_bits : 9 ≤ cluster_bits q ≤ 21;
  ph_cluster : cluster_size q = 2 ^ cluster_bits q;
  ph_rw : q_read_only q = false;
  ph_width : refcount_bits q ∈ [1; 2; 4; 8; 16; 32; 64];
  ph_file : bytes_ok (q_file q);
  ph_l2 : cache_ok (l2_cache q) (tables (q_file q) (cluster_size q));
  ph_l2k k t d : c_map (l2_cache q) !! k = Some (t, d) → table_at q k ∧ len t = cluster_size q ∧ bytes_ok t ∧ ¬ is_block q k;
  ph_rb : cache_ok (refblock_cache q) (rb_disk q);
  ph_rbk ti t d : c_map (refblock_cache q) !! ti = Some (t, d) → 0 ≤ ti ∧ rt_host q ti ≠ 0 ∧ len t = cluster_size q ∧ bytes_ok t;
  ph_rt ti : 0 ≤ ti → rt_host q ti ≠ 0 → table_at q (rt_host q ti);
  ph_inj ti tj : 0 ≤ ti → 0 ≤ tj → rt_host q ti ≠ 0 → rt_host q ti = rt_host q tj → ti = tj;
  ph_range : Z.of_nat (length (refcount_table q)) * refblock_entries q * cluster_size q ≤ 2 ^ 56;
  ph_scan : 0 ≤ scan_next (q_free q) }.

(** ** Geometry *)

Lemma phys_cs q : phys q → 512 ≤ cluster_size q.
Proof. intros Hp. rewrite (ph_cluster q Hp). change 512 with (2 ^ 9). pose proof (ph_bits q Hp). apply Z.pow_le_mono_r; lia. Qed.
Lemma phys_cs_512 q : phys q → cluster_size q mod 512 = 0.
Proof.
  intros Hp. rewrite (ph_cluster q Hp). pose proof (ph_bits q Hp). change 512 with (2 ^ 9).
  replace (cluster_bits q) with (cluster_bits q - 9 + 9) by lia. rewrite Z.pow_add_r by lia. apply Z.mod_mul. lia.
Qed.
Lemma width_cases w : w ∈ [1; 2; 4; 8; 16; 32; 64] → 0 < w ∧ ∃ m, 64 = m * w ∧ 0 < m.
Proof.
  intros Hw. repeat (apply elem_of_cons in Hw as [->|Hw]); [..|by apply elem_of_nil in Hw]; (split; [lia|]).
  - by exists 64.
  - by exists 32.
  - by exists 16.
  - by exists 8.
  - by exists 4.
  - by exists 2.
  - by exists 1.
Qed.
(** A block holds a whole number of refcounts. *)
Lemma rbe_width q : phys q → refblock_entries q * refcount_bits q = 8 * cluster_size q ∧ 64 ≤ refblock_entries q.
Proof.
  intros Hp. destruct (width_cases _ (ph_width q Hp)) as (Hw & m & Hm & Hm0). pose proof (phys_cs q Hp) as Hcs.
  assert (∃ n, cluster_size q * 8 = 64 * n ∧ 64 ≤ n) as (n & Hn & Hn64).
  { pose proof (phys_cs_512 q Hp) as H512. apply Z.div_exact in H512; [|lia]. exists (64 * (cluster_size q / 512)). nia. }
  unfold refblock_entries. rewrite Hn, Hm. replace (m * refcount_bits q * n) with (m * n * refcount_bits q) by lia.
  rewrite Z.div_mul by lia. nia.
Qed.
Lemma block_index q c : phys q → 0 ≤ c → 0 ≤ c / refblock_entries q ∧ 0 ≤ c mod refblock_entries q < refblock_entries q ∧
  (c mod refblock_entries q + 1) * refcount_bits q ≤ 8 * cluster_size q.
Proof.
  intros Hp Hc. destruct (rbe_width q Hp) as [Hw H64]. destruct (width_cases _ (ph_width q Hp)) as (Hw0 & _).
  pose proof (Z.mod_pos_bound c (refblock_entries q) ltac:(lia)). split_and!; [apply Z.div_pos; lia|lia|lia|nia].
Qed.
Lemma rt_host_in_range q ti : 0 ≤ ti → rt_host q ti ≠ 0 → ti < Z.of_nat (length (refcount_table q)).
Proof.
  intros Hti Hh. unfold rt_host in Hh. destruct (refcount_table q !! Z.to_nat ti) eqn:E; [|done].
  apply lookup_lt_Some in E. lia.
Qed.
Lemma aligned_cluster q k : phys q → k mod cluster_size q = 0 → k / cluster_size q * cluster_size q = k.
Proof. intros Hp Hk. pose proof (phys_cs q Hp). pose proof (Z.div_mod k (cluster_size q) ltac:(lia)). lia. Qed.

Lemma bytes_ok_tables f cs k : bytes_ok f → bytes_ok (tables f cs k).
Proof. intros Hf. unfold tables. case_match; [by apply bytes_ok_slice|constructor]. Qed.
Lemma len_tables q k : table_at q k → 0 < cluster_size q → len (tables (q_file q) (cluster_size q) k) = cluster_size q.
Proof. intros (? & ? & ?) ?. rewrite tables_at by done. rewrite len_slice; lia. Qed.
Lemma block_shape q ti : phys q → 0 ≤ ti → rt_host q ti ≠ 0 → len (block q ti) = cluster_size q ∧ bytes_ok (block q ti).
Proof.
  intros Hp Hti Hh. pose proof (phys_cs q Hp). unfold block, view. destruct (c_map (refblock_cache q) !! ti) as [[t d]|] eqn:E.
  - by destruct (ph_rbk q Hp ti t d E) as (_ & _ & ? & ?).
  - unfold rb_disk. split; [apply len_tables; [by apply (ph_rt q Hp)|lia]|apply bytes_ok_tables, Hp].
Qed.
Lemma l2_shape q k : phys q → table_at q k → len (l2_table q k) = cluster_size q ∧ bytes_ok (l2_table q k).
Proof.
  intros Hp Hat. pose proof (phys_cs q Hp). unfold l2_table, view. destruct (c_map (l2_cache q) !! k) as [[t d]|] eqn:E.
  - by destruct (ph_l2k q Hp k t d E) as (_ & ? & ? & _).
  - split; [apply len_tables; [done|lia]|apply bytes_ok_tables, Hp].
Qed.

(** ** What a step leaves alone *)

Definition is_u64 (x : Z) : Prop := 0 ≤ x < 2 ^ 64.

(** The header and the places of the top tables stay; a table that changed
    is marked to be written. *)
Definition meta_kept q q' : Prop :=
  (q_version q' = q_version q ∧ l1_size q' = l1_size q ∧ l1_table_offset q' = l1_table_offset q ∧
   refcount_table_offset q' = refcount_table_offset q ∧ refcount_table_clusters q' = refcount_table_clusters q ∧
   nb_snapshots q' = nb_snapshots q ∧ snapshots_offset q' = snapshots_offset q ∧ header_cluster q' = header_cluster q ∧ backing q' = backing q ∧
   refcount_bits q' = refcount_bits q) ∧
  (header_dirty q' = false → header_dirty q = false) ∧
  (l1_dirty q' = false → l1_dirty q = false ∧ l1 q' = l1 q) ∧
  (refcount_table_dirty q' = false → refcount_table_dirty q = false ∧ refcount_table q' = refcount_table q) ∧
  (Forall is_u64 (refcount_table q) → Forall is_u64 (refcount_table q')).
Lemma meta_kept_trans q1 q2 q3 : meta_kept q1 q2 → meta_kept q2 q3 → meta_kept q1 q3.
Proof.
  intros ((A1 & A2 & A3 & A4 & A5 & A6 & A7 & A8 & A9 & A10) & Ah & Al & Ar & Au) ((B1 & B2 & B3 & B4 & B5 & B6 & B7 & B8 & B9 & B10) & Bh & Bl & Br & Bu).
  split_and!; try congruence.
  - auto.
  - intros E. destruct (Bl E) as [E' ->]. auto.
  - intros E. destruct (Br E) as [E' ->]. auto.
  - auto.
Qed.

(** [keeps X K q q']: clusters outside [X] that hold no refcount block hold
    what they held; new blocks are in [X]; new cached tables are in [K]. *)
Record keeps (X K : Z → Prop) q q' : Prop := mkKeeps {
  ke_bits : cluster_bits q' = cluster_bits q;
  ke_cs : cluster_size q' = cluster_size q;
  ke_size : q_size q' = q_size q;
  ke_rw : q_read_only q' = q_read_only q;
  ke_width : refcount_bits q' = refcount_bits q;
  ke_rtlen : length (refcount_table q') = length (refcount_table q);
  ke_len : len (q_file q) ≤ len (q_file q');
  ke_blocks ti : 0 ≤ ti → rt_host q ti ≠ 0 → rt_host q' ti = rt_host q ti;
  ke_new ti : 0 ≤ ti → rt_host q ti = 0 → rt_host q' ti ≠ 0 → X (rt_host q' ti / cluster_size q);
  ke_tables c : 0 ≤ c → ¬ X c → ¬ is_block q (c * cluster_size q) → (c + 1) * cluster_size q ≤ len (q_file q) →
    l2_table q' (c * cluster_size q) = l2_table q (c * cluster_size q);
  ke_keys k : is_Some (c_map (l2_cache q') !! k) → is_Some (c_map (l2_cache q) !! k) ∨ K k;
  ke_meta : meta_kept q q' }.

Definition nowhere : Z → Prop := λ _, False.

Lemma keeps_refl X K q : keeps X K q q.
Proof. constructor; try done. by left. Qed.
Lemma keeps_weaken (X Y K L : Z → Prop) q q' : (∀ c, X c → Y c) → (∀ k, K k → L k) → keeps X K q q' → keeps Y L q q'.
Proof.
  intros HX HK [H1 H2 H3 H4 H5 H6 H7 H8 H9 H10 H11 H12]. constructor; try done; eauto.
  intros k Hk. destruct (H11 k Hk); auto.
Qed.
(** A cluster outside [X] does not become a block. *)
Lemma keeps_not_block X K q q' c : phys q → keeps X K q q' → 0 ≤ c → ¬ X c → ¬ is_block q (c * cluster_size q) → ¬ is_block q' (c * cluster_size q).
Proof.
  intros Hp Hk Hc HX Hb (ti & Hti & Hh & Hne). pose proof (phys_cs q Hp). destruct (decide (rt_host q ti = 0)) as [H0'|H0'].
  - apply HX. pose proof (ke_new _ _ _ _ Hk ti Hti H0' ltac:(congruence)) as Hx. by rewrite Hh, Z.div_mul in Hx by lia.
  - apply Hb. exists ti. split_and!; try done. by rewrite <-(ke_blocks _ _ _ _ Hk ti Hti H0').
Qed.
Lemma keeps_trans (X Y K L : Z → Prop) q1 q2 q3 :
  phys q1 → keeps X K q1 q2 → keeps Y L q2 q3 → keeps (λ c, X c ∨ Y c) (λ k, K k ∨ L k) q1 q3.
Proof.
  intros Hp H1 H2. pose proof (ke_cs _ _ _ _ H1) as Hcs. constructor; try (by etransitivity; [apply H2|apply H1]).
  - etransitivity; [apply H1|apply H2].
  - intros ti Hti Hh. pose proof (ke_blocks _ _ _ _ H1 ti Hti Hh) as He. rewrite <-He. apply (ke_blocks _ _ _ _ H2 ti Hti). congruence.
  - intros ti Hti Hh Hh'. destruct (decide (rt_host q2 ti = 0)) as [H0'|H0'].
    + right. rewrite <-Hcs. by apply (ke_new _ _ _ _ H2).
    + left. rewrite (ke_blocks _ _ _ _ H2 ti Hti H0'). by apply (ke_new _ _ _ _ H1).
  - intros c Hc HX Hb Hf. pose proof (keeps_not_block _ _ _ _ c Hp H1 Hc ltac:(tauto) Hb) as Hb'.
    pose proof (ke_len _ _ _ _ H1). rewrite <-(ke_tables _ _ _ _ H1 c Hc ltac:(tauto) Hb Hf). rewrite <-Hcs in Hb', Hf |- *.
    apply (ke_tables _ _ _ _ H2 c Hc); [tauto|done|lia].
  - intros k Hk. destruct (ke_keys _ _ _ _ H2 k Hk) as [Hk'|?]; [|tauto]. destruct (ke_keys _ _ _ _ H1 k Hk'); tauto.
  - exact (meta_kept_trans _ _ _ (ke_meta _ _ _ _ H1) (ke_meta _ _ _ _ H2)).
Qed.

Lemma refblock_host_spec q ti : rt_host q ti ≠ 0 → refblock_host ti q = (q, DOk (rt_host q ti)).
Proof.
  intros Hh. unfold refblock_host. rewrite (dbind_ok _ _ q q q) by done. unfold rt_host in *.
  destruct (refcount_table q !! Z.to_nat ti); [|done]. simpl in *. by rewrite (proj2 (Z.eqb_neq _ _)).
Qed.

Lemma write_blocks_cache c out q :
  write_blocks out (set_refblock_cache c q) = (set_refblock_cache c (write_blocks out q).1, (write_blocks out q).2).
Proof.
  revert q. induction out as [|[ti t] out IH]; intros q; [done|]. cbn [write_blocks].
  unfold refblock_host, write_file, mbind, dstate_bind, dgets, dmodify, id, mret, dstate_ret, dfail.
  change (refcount_table (set_refblock_cache c q)) with (refcount_table q).
  destruct (refcount_table q !! Z.to_nat ti); [|done]. destruct (_ =? 0); [done|].
  change (q_read_only (set_refblock_cache c q)) with (q_read_only q). destruct (q_read_only q); [done|].
  apply (IH (set_file _ q)).
Qed.
(** Writing blocks out touches the clusters of those blocks only. *)
Lemma write_blocks_spec out q :
  phys q → (∀ ti t, (ti, t) ∈ out → 0 ≤ ti ∧ rt_host q ti ≠ 0 ∧ len t = cluster_size q ∧ bytes_ok t) →
  ∃ f, write_blocks out q = (set_file f q, DOk tt) ∧ len f = len (q_file q) ∧ bytes_ok f ∧
    (∀ ti, 0 ≤ ti → rt_host q ti ≠ 0 → tables f (cluster_size q) (rt_host q ti) = written (rb_disk q) out ti) ∧
    (∀ k, ¬ is_block q k → tables f (cluster_size q) k = tables (q_file q) (cluster_size q) k).
Proof.
  intros Hp Hout. pose proof (phys_cs q Hp) as Hcs.
  cut (∀ f0 d, len f0 = len (q_file q) → bytes_ok f0 →
    (∀ ti, 0 ≤ ti → rt_host q ti ≠ 0 → tables f0 (cluster_size q) (rt_host q ti) = d ti) →
    (∀ k, ¬ is_block q k → tables f0 (cluster_size q) k = tables (q_file q) (cluster_size q) k) →
    ∃ f, write_blocks out (set_file f0 q) = (set_file f q, DOk tt) ∧ len f = len (q_file q) ∧ bytes_ok f ∧
      (∀ ti, 0 ≤ ti → rt_host q ti ≠ 0 → tables f (cluster_size q) (rt_host q ti) = written d out ti) ∧
      (∀ k, ¬ is_block q k → tables f (cluster_size q) k = tables (q_file q) (cluster_size q) k)).
  { intros Hgen. specialize (Hgen (q_file q) (rb_disk q)). rewrite set_file_id in Hgen. apply Hgen; try done. apply Hp. }
  induction out as [|[ti t] out IH]; intros f0 d Hlen Hok Hd Hk; [by exists f0|].
  destruct (Hout ti t) as (Hti & Hh & Hlt & Htok); [by left|].
  destruct (ph_rt q Hp ti Hti Hh) as (Hh0 & Hhm & Hhl). cbn [write_blocks].
  rewrite (dbind_ok _ _ _ _ _ (refblock_host_spec (set_file f0 q) ti Hh)). change (rt_host (set_file f0 q) ti) with (rt_host q ti).
  rewrite (dbind_ok _ _ _ _ _ (write_file_at (set_file f0 q) (rt_host q ti) t (ph_rw q Hp) Hh0 ltac:(lia) ltac:(simpl; lia))).
  cbn [q_file set_file]. apply IH.
  - intros tj t' Hin. apply Hout. by right.
  - rewrite len_splice; lia.
  - by apply bytes_ok_splice.
  - intros tj Htj Hhj. rewrite tables_splice by lia. destruct (Z.eqb_spec (rt_host q tj) (rt_host q ti)) as [He|He].
    + rewrite (ph_inj q Hp tj ti Htj Hti Hhj He). simpl. by rewrite Z.eqb_refl.
    + simpl. rewrite (proj2 (Z.eqb_neq tj ti)) by congruence. by apply Hd.
  - intros k Hb. rewrite tables_splice by lia. rewrite (proj2 (Z.eqb_neq _ _)); [by apply Hk|]. intros ->. apply Hb. by exists ti.
Qed.

(** A step that changes the block cache and the file under blocks only. *)
Lemma phys_blocks_step q c f :
  phys q → len f = len (q_file q) → bytes_ok f →
  (∀ k, ¬ is_block q k → tables f (cluster_size q) k = tables (q_file q) (cluster_size q) k) →
  cache_ok c (λ ti, tables f (cluster_size q) (rt_host q ti)) →
  (∀ ti t d, c_map c !! ti = Some (t, d) → 0 ≤ ti ∧ rt_host q ti ≠ 0 ∧ len t = cluster_size q ∧ bytes_ok t) →
  phys (set_file f (set_refblock_cache c q)) ∧ keeps nowhere nowhere q (set_file f (set_refblock_cache c q)).
Proof.
  intros Hp Hlen Hf Hk Hc Hck. assert (∀ k, table_at (set_file f (set_refblock_cache c q)) k ↔ table_at q k) as Hat.
  { intros k. unfold table_at. simpl. by rewrite Hlen. }
  split.
  - destruct Hp as [H1 H2 H3 H4 H5 H6 H7 H8 H9 H10 H11 H12 H13]. constructor; try done.
    + simpl. destruct H6 as [? ? ? ? H6]. constructor; try done. intros k buf Hb. rewrite Hk; [by apply H6|].
      by destruct (H7 k buf false Hb) as (_ & _ & _ & ?).
    + intros k t d Hkt. destruct (H7 k t d Hkt) as (? & ? & ? & ?). by rewrite Hat.
    + intros ti Hti Hh. rewrite Hat. by apply H10.
  - constructor; try done; simpl; [lia| |].
    + intros c' Hc' _ Hb Hfile. unfold l2_table, view. simpl. case_match; [done|]. by apply Hk.
    + by left.
Qed.

(** Loading a block changes no block and no other cluster. *)
Lemma load_refblock_spec q ti :
  phys q → 0 ≤ ti → rt_host q ti ≠ 0 →
  ∃ c f d, let q' := set_file f (set_refblock_cache c q) in
    load_refblock ti q = (q', DOk tt) ∧ phys q' ∧ keeps nowhere nowhere q q' ∧ c_map c !! ti = Some (block q ti, d) ∧
    (∀ tj, 0 ≤ tj → rt_host q tj ≠ 0 → block q' tj = block q tj).
Proof.
  intros Hp Hti Hh. unfold load_refblock. destruct (ph_rt q Hp ti Hti Hh) as (Hh0 & Hhm & Hhl). pose proof (phys_cs q Hp) as Hcs.
  destruct (c_map (refblock_cache q) !! ti) as [[t d]|] eqn:He.
  - assert (block q ti = t) as Hb by (unfold block, view; by rewrite He).
    exists (touch (refblock_cache q) ti), (q_file q), d. rewrite Hb.
    destruct (phys_blocks_step q (touch (refblock_cache q) ti) (q_file q) Hp) as [Hp' Hk']; try done; [apply Hp| |apply Hp|].
    { apply touch_ok; [apply Hp|by eexists]. }
    split_and!; try done. unfold mbind, dstate_bind, rb_get, get. rewrite He. by destruct q.
  - assert (rb_get ti q = (q, DOk None)) as Hg by (unfold rb_get, get; rewrite He; by destruct q).
    rewrite (dbind_ok _ _ _ _ _ Hg), (dbind_ok _ _ _ _ _ (refblock_host_spec q ti Hh)), (dbind_ok _ _ q q q) by done.
    assert (block q ti = rb_disk q ti) as Hb by (unfold block, view; by rewrite He).
    assert (read_file (rt_host q ti) (cluster_size q) q = (q, DOk (block q ti))) as Hr.
    { unfold read_file. rewrite (dbind_ok _ _ q q q) by done. unfold dpure, read_exact_at.
      rewrite (proj2 (Z.leb_le _ _)), orb_true_r by lia. rewrite Hb. unfold rb_disk. by rewrite tables_at. }
    rewrite (dbind_ok _ _ _ _ _ Hr). unfold rb_put.
    pose proof (put_spec (refblock_cache q) (rb_disk q) ti (block q ti) false (ph_rb q Hp) (λ _, Hb) He) as Hput.
    destruct (put (refblock_cache q) ti (block q ti) false) as [c out] eqn:Hpt. destruct Hput as (Hcok & Hck & Hview & Hout & Hsub).
    rewrite (dbind_ok _ _ q (set_refblock_cache c q) out) by (by rewrite Hpt).
    destruct (write_blocks_spec out q Hp) as (f & Hw & Hlen & Hf & Hblk & Hoth).
    { intros tj t' Hin%Hout. by apply (ph_rbk q Hp tj t' true). }
    assert (write_blocks out (set_refblock_cache c q) = (set_file f (set_refblock_cache c q), DOk tt)) as Hw'.
    { rewrite write_blocks_cache, Hw. reflexivity. }
    assert (∀ tj t d, c_map c !! tj = Some (t, d) → 0 ≤ tj ∧ rt_host q tj ≠ 0 ∧ len t = cluster_size q ∧ bytes_ok t) as Hkeys.
    { intros tj t d Hj. destruct (decide (tj = ti)) as [->|Hne]; [|by eapply (ph_rbk q Hp), Hsub].
      rewrite Hck in Hj. simplify_eq. split_and!; try done; by apply block_shape. }
    assert (cache_ok c (λ tj, tables f (cluster_size q) (rt_host q tj))) as Hcok'.
    { destruct Hcok as [? ? ? ? Hcl]. constructor; try done. intros tj buf Hj. rewrite Hblk by (by apply (Hkeys tj buf false)). by apply Hcl. }
    destruct (phys_blocks_step q c f Hp Hlen Hf Hoth Hcok' Hkeys) as [Hp' Hk'].
    exists c, f, false. split_and!; try done.
    intros tj Htj Hhj. unfold block at 1, view, rb_disk. simpl. pose proof (Hview tj) as Hv. unfold view in Hv.
    change (rt_host (set_file f (set_refblock_cache c q)) tj) with (rt_host q tj). rewrite Hblk by done.
    rewrite Hv. destruct (Z.eqb_spec tj ti) as [->|]; done.
Qed.

(** ** Quiet steps: nothing observable changes *)

Record quiet q q' : Prop := mkQuiet {
  qu_phys : phys q';
  qu_keeps : keeps nowhere nowhere q q';
  qu_rc c : 0 ≤ c → rc q' c = rc q c;
  qu_rt : refcount_table q' = refcount_table q;
  qu_l1 : l1 q' = l1 q;
  qu_backing : backing_image q' = backing_image q;
  qu_l2 : c_map (l2_cache q') = c_map (l2_cache q) }.

Lemma quiet_same q : phys q → quiet q q.
Proof. intros Hp. constructor; try done. apply keeps_refl. Qed.
Lemma keeps_nowhere_trans X K q1 q2 q3 : phys q1 → keeps nowhere nowhere q1 q2 → keeps X K q2 q3 → keeps X K q1 q3.
Proof.
  intros Hp H1 H2. eapply keeps_weaken; [| |exact (keeps_trans _ _ _ _ _ _ _ Hp H1 H2)]; unfold nowhere; tauto.
Qed.
Lemma keeps_trans_nowhere X K q1 q2 q3 : phys q1 → keeps X K q1 q2 → keeps nowhere nowhere q2 q3 → keeps X K q1 q3.
Proof.
  intros Hp H1 H2. eapply keeps_weaken; [| |exact (keeps_trans _ _ _ _ _ _ _ Hp H1 H2)]; unfold nowhere; tauto.
Qed.
Lemma quiet_step_trans q1 q2 q3 : phys q1 → quiet q1 q2 → quiet q2 q3 → quiet q1 q3.
Proof.
  intros Hp H1 H2. constructor.
  - exact (qu_phys _ _ H2).
  - exact (keeps_nowhere_trans _ _ _ _ _ Hp (qu_keeps _ _ H1) (qu_keeps _ _ H2)).
  - intros c Hc. by rewrite (qu_rc _ _ H2 c Hc), (qu_rc _ _ H1 c Hc).
  - by rewrite (qu_rt _ _ H2), (qu_rt _ _ H1).
  - by rewrite (qu_l1 _ _ H2), (qu_l1 _ _ H1).
  - by rewrite (qu_backing _ _ H2), (qu_backing _ _ H1).
  - by rewrite (qu_l2 _ _ H2), (qu_l2 _ _ H1).
Qed.

(** Refcounts are the blocks' contents. *)
Lemma rc_same q q' c :
  phys q → 0 ≤ c → cluster_size q' = cluster_size q → refcount_bits q' = refcount_bits q → refcount_table q' = refcount_table q →
  (∀ ti, 0 ≤ ti → rt_host q ti ≠ 0 → block q' ti = block q ti) → rc q' c = rc q c.
Proof.
  intros Hp Hc Hcs Hw Hrt Hb. destruct (block_index q c Hp Hc) as (Hi & _). unfold rc, refblock_entries, rt_host. rewrite Hcs, Hw, Hrt.
  fold (refblock_entries q). fold (rt_host q (c / refblock_entries q)). destruct (Z.eqb_spec (rt_host q (c / refblock_entries q)) 0); [done|].
  by rewrite Hb.
Qed.

(** A block read through the cache. *)
Lemma load_block q ti :
  phys q → 0 ≤ ti → rt_host q ti ≠ 0 →
  ∃ q', (_ ← load_refblock ti; cached_block ti) q = (q', DOk (block q ti)) ∧ quiet q q' ∧ q_free q' = q_free q.
Proof.
  intros Hp Hti Hh. destruct (load_refblock_spec q ti Hp Hti Hh) as (c & f & d & Hld & Hp1 & Hk1 & Hck & Hblk).
  set (q1 := set_file f (set_refblock_cache c q)) in *.
  destruct (phys_blocks_step q1 (touch c ti) f Hp1) as [Hp2 Hk2]; try done; [apply Hp1| |apply Hp1|].
  { apply touch_ok; [apply Hp1|by eexists]. }
  exists (set_refblock_cache (touch c ti) q1). rewrite (dbind_ok _ _ _ _ _ Hld).
  assert (set_file f (set_refblock_cache (touch c ti) q1) = set_refblock_cache (touch c ti) q1) as Heq by done. rewrite Heq in *.
  split_and!; [|constructor; try done|done].
  - unfold cached_block, mbind, dstate_bind, rb_get, get. subst q1. simpl. by rewrite Hck.
  - by eapply keeps_nowhere_trans.
  - intros c' Hc'. by apply rc_same.
Qed.

Lemma bits_get_rc q c : phys q → 0 ≤ c → rt_host q (c / refblock_entries q) ≠ 0 →
  bits_get (block q (c / refblock_entries q)) (c mod refblock_entries q) (refcount_bits q) = Ret (rc q c).
Proof.
  intros Hp Hc Hh. destruct (block_index q c Hp Hc) as (Hi & Hm & Hr). destruct (block_shape q _ Hp Hi Hh) as [Hl Hok].
  unfold rc. rewrite (proj2 (Z.eqb_neq _ _)) by done.
  destruct (bits_get_ret (block q (c / refblock_entries q)) (refcount_bits q) (c mod refblock_entries q)) as (v & -> & _);
    [apply Hp|done|lia|by rewrite Hl|done].
Qed.

Lemma get_refcount_spec q c :
  phys q → 0 ≤ c → ∃ q', get_refcount c q = (q', DOk (rc q c)) ∧ quiet q q' ∧ q_free q' = q_free q.
Proof.
  intros Hp Hc. destruct (block_index q c Hp Hc) as (Hi & _). unfold get_refcount. rewrite (dbind_ok _ _ q q q) by done.
  unfold refblock_get. rewrite (dbind_ok _ _ q q q) by done. fold (rt_host q (c / refblock_entries q)).
  destruct (Z.eqb_spec (rt_host q (c / refblock_entries q)) 0) as [Hz|Hz].
  - exists q. split; [|by split; [apply quiet_same|]]. unfold mret, dstate_ret. do 2 f_equal. unfold rc. by rewrite Hz.
  - destruct (load_block q _ Hp Hi Hz) as (q' & Hld & Hq). exists q'. split; [|done].
    rewrite (assoc_bind q (load_refblock _) (λ _, cached_block _)), (dbind_ok _ _ _ _ _ Hld). unfold dpure. by rewrite bits_get_rc.
Qed.

(** ** Storing a refcount *)

(** The refcount of [c] becomes [v]; nothing else changes. *)
Record recount (c v : Z) q q' : Prop := mkRecount {
  re_phys : phys q';
  re_keeps : keeps nowhere nowhere q q';
  re_rc x : 0 ≤ x → rc q' x = if x =? c then v else rc q x;
  re_rt : refcount_table q' = refcount_table q;
  re_l1 : l1 q' = l1 q;
  re_free : q_free q' = q_free q;
  re_backing : backing_image q' = backing_image q;
  re_l2 : c_map (l2_cache q') = c_map (l2_cache q) }.

(** Storing a block's new content in the cache. *)
Lemma store_block q ti buf d buf' :
  phys q → c_map (refblock_cache q) !! ti = Some (buf, d) → len buf' = cluster_size q → bytes_ok buf' →
  let q' := set_refblock_cache (set_data (mark_dirty (refblock_cache q) ti) ti buf') q in
  phys q' ∧ keeps nowhere nowhere q q' ∧ (∀ tj, block q' tj = if tj =? ti then buf' else block q tj).
Proof.
  intros Hp He Hl Hok q'. set (c := set_data (mark_dirty (refblock_cache q) ti) ti buf').
  assert (∀ tj, c_map c !! tj = if tj =? ti then Some (buf', true) else c_map (refblock_cache q) !! tj) as Hc.
  { intros tj. unfold c, set_data, mark_dirty. cbn [c_map]. destruct (Z.eqb_spec tj ti) as [->|Hne].
    - by rewrite lookup_alter_eq, lookup_alter_eq, He.
    - by rewrite !lookup_alter_ne by done. }
  destruct (phys_blocks_step q c (q_file q) Hp eq_refl (ph_file q Hp)) as [Hp' Hk']; try done.
  - destruct (ph_rb q Hp) as [H1 H2 H3 H4 H5]. constructor; try done.
    + intros tj. rewrite Hc. change (c_order c) with (c_order (refblock_cache q)). rewrite H2.
      destruct (Z.eqb_spec tj ti) as [->|]; [|done]. rewrite He. by split.
    + change (c_cap c) with (c_cap (refblock_cache q)). unfold c, set_data, mark_dirty. cbn [c_map]. by rewrite <-!size_dom, !dom_alter_L, size_dom.
    + intros tj b. rewrite Hc. destruct (Z.eqb_spec tj ti); [done|]. apply H5.
  - intros tj t d'. rewrite Hc. destruct (Z.eqb_spec tj ti) as [->|]; [|apply (ph_rbk q Hp)]. intros [= <- <-].
    by destruct (ph_rbk q Hp ti buf d He) as (? & ? & _).
  - assert (set_file (q_file q) (set_refblock_cache c q) = q') as Heq by (unfold q'; by destruct q). rewrite Heq in *.
    split_and!; try done. intros tj. unfold block, view. change (c_map (refblock_cache q')) with (c_map c). rewrite Hc.
    by destruct (tj =? ti).
Qed.

Lemma refblock_set_spec q c v :
  phys q → 0 ≤ c → rt_host q (c / refblock_entries q) ≠ 0 → 0 ≤ v < 2 ^ refcount_bits q →
  ∃ q', refblock_set (c / refblock_entries q) (c mod refblock_entries q) v q = (q', DOk tt) ∧ recount c v q q'.
Proof.
  intros Hp Hc Hh Hv. destruct (block_index q c Hp Hc) as (Hi & Hm & Hr).
  set (ti := c / refblock_entries q) in *. set (i := c mod refblock_entries q) in *.
  destruct (load_refblock_spec q ti Hp Hi Hh) as (cc & f & d & Hld & Hp1 & Hk1 & Hck & Hblk).
  unfold refblock_set. rewrite (dbind_ok _ _ _ _ _ Hld). set (q1 := set_file f (set_refblock_cache cc q)) in *.
  rewrite (dbind_ok _ _ q1 (set_refblock_cache (mark_dirty cc ti) q1) tt) by done.
  rewrite (dbind_ok _ _ (set_refblock_cache (mark_dirty cc ti) q1) (set_refblock_cache (mark_dirty cc ti) q1) (set_refblock_cache (mark_dirty cc ti) q1)) by done.
  assert (c_map (refblock_cache (set_refblock_cache (mark_dirty cc ti) q1)) !! ti = Some (block q ti, true)) as ->.
  { unfold mark_dirty. simpl. by rewrite lookup_alter_eq, Hck. }
  destruct (block_shape q ti Hp Hi Hh) as [Hbl Hbok].
  destruct (bits_set_spec (block q ti) (refcount_bits q) i v) as (buf' & Hset & Hl' & Hok' & Hget & Hoth);
    [apply Hp|done|lia|by rewrite Hbl|done|].
  change (refcount_bits (set_refblock_cache (mark_dirty cc ti) q1)) with (refcount_bits q). rewrite Hset. simpl of_outcome.
  rewrite (dbind_ok _ _ _ (set_refblock_cache (mark_dirty cc ti) q1) buf') by done.
  destruct (store_block q1 ti (block q ti) d buf' Hp1 Hck) as (Hp2 & Hk2 & Hb2); [by rewrite Hl'|done|].
  eexists. split; [reflexivity|]. constructor; try done; [by eapply keeps_nowhere_trans|].
  intros x Hx. destruct (block_index q x Hp Hx) as (Hix & Hmx & Hrx). destruct (rbe_width q Hp) as [_ H64].
  set (q2 := set_refblock_cache _ _). change (rc q2 x) with (if rt_host q (x / refblock_entries q) =? 0 then 0
    else match bits_get (block q2 (x / refblock_entries q)) (x mod refblock_entries q) (refcount_bits q) with Ret v => v | Panic => 0 end).
  change (block q2) with (block (set_refblock_cache (set_data (mark_dirty (refblock_cache q1) ti) ti buf') q1)). rewrite Hb2.
  pose proof (Z.div_mod x (refblock_entries q) ltac:(lia)) as Hdx. pose proof (Z.div_mod c (refblock_entries q) ltac:(lia)) as Hdc.
  fold ti i in Hdc. unfold rc. destruct (Z.eqb_spec x c) as [->|Hne].
  - fold ti i. rewrite (proj2 (Z.eqb_neq _ _)), Z.eqb_refl, Hget by done. done.
  - destruct (Z.eqb_spec (rt_host q (x / refblock_entries q)) 0) as [|Hhx]; [done|].
    destruct (Z.eqb_spec (x / refblock_entries q) ti) as [Het|Het]; [|by rewrite Hblk].
    rewrite Het in *. rewrite Hoth; [done|lia| |by rewrite Hbl]. intros Heq. apply Hne. rewrite Hdx, Hdc, Heq. done.
Qed.
End phys.
