(* ===== verification/Qcow2Steps.v ===== *)
(** * qcow2 images: the steps of a write

    What each primitive step of the write path does to an image under
    [phys]: storing refcounts, writing a cluster of the file, dropping a
    cached table, loading a table and storing one of its entries. *)

From S2P Require Import Prelude TableCache Disk Qcow2 Qcow2Alloc Qcow2Read Qcow2Phys.

Section steps.
Context {B : Type} `{HB : DiskContents B} `{HI : InflateLaws}.
Implicit Types q : Qcow2Image B.

(** ** Fields the tables do not depend on *)

Lemma phys_set_free q fc : phys q → 0 ≤ scan_next fc → phys (set_free fc q).
Proof. intros [] ?. by constructor. Qed.
Lemma keeps_set_free X K q fc : keeps X K q (set_free fc q).
Proof. constructor; try done. by left. Qed.

(** ** Writing the file *)

Lemma write_all_at_ne (f : bytes) h (b : bytes) : 0 < len b → write_all_at f h b = splice (f ++ replicate (Z.to_nat (h + len b - len f)) 0) h b.
Proof. intros Hb. unfold write_all_at. by rewrite (proj2 (Z.eqb_neq _ _)) by lia. Qed.
Lemma len_extended (f : bytes) h (b : bytes) : 0 < len b → 0 ≤ h → len (f ++ replicate (Z.to_nat (h + len b - len f)) 0) = Z.max (len f) (h + len b).
Proof. intros. rewrite len_app, len_replicate. lia. Qed.
Lemma len_write_all_at f h b : 0 < len b → 0 ≤ h → len (write_all_at f h b) = Z.max (len f) (h + len b).
Proof. intros. rewrite write_all_at_ne by done. rewrite len_splice; rewrite ?len_extended; lia. Qed.
Lemma bytes_ok_write f h b : bytes_ok f → bytes_ok b → bytes_ok (write_all_at f h b).
Proof.
  intros Hf Hb. unfold write_all_at. case_match; [done|]. apply bytes_ok_splice; [|done]. apply bytes_ok_app; [done|].
  apply Forall_replicate. unfold is_u8. lia.
Qed.
Lemma tables_write_other f h b cs k :
  0 < len b → 0 ≤ h → 0 < cs → 0 ≤ k → k + cs ≤ len f → k + cs ≤ h ∨ h + len b ≤ k →
  tables (write_all_at f h b) cs k = tables f cs k.
Proof.
  intros Hb Hh Hcs Hk Hl Hd. rewrite write_all_at_ne by done. unfold tables. case_match; [|done].
  rewrite slice_splice_out; [by apply slice_app_l; lia|lia|lia|rewrite len_extended; lia|done].
Qed.
Lemma tables_write_in f h b cs k :
  0 < len b → 0 < cs → 0 ≤ k → k mod cs = 0 → k ≤ h → h + len b ≤ k + cs → k + cs ≤ Z.max (len f) (h + len b) →
  tables (write_all_at f h b) cs k = splice (slice (f ++ replicate (Z.to_nat (h + len b - len f)) 0) k (k + cs)) (h - k) b.
Proof.
  intros Hb Hcs Hk Hm Hkh Hl Hf. rewrite write_all_at_ne by done. rewrite tables_at by done.
  apply slice_splice_in; [lia..|]. rewrite len_extended; lia.
Qed.

(** A write inside cluster [c], which is no refcount block and has no cached
    table. *)
Lemma write_in_cluster q c h b :
  phys q → 0 ≤ c → c * cluster_size q ≤ h → h + len b ≤ (c + 1) * cluster_size q → 0 < len b → bytes_ok b →
  ¬ is_block q (c * cluster_size q) → c_map (l2_cache q) !! (c * cluster_size q) = None →
  (c + 1) * cluster_size q ≤ Z.max (len (q_file q)) (h + len b) →
  let q' := set_file (write_all_at (q_file q) h b) q in
  write_file h b q = (q', DOk tt) ∧ phys q' ∧ keeps (λ x, x = c) nowhere q q' ∧ (∀ x, 0 ≤ x → rc q' x = rc q x) ∧
  (c + 1) * cluster_size q ≤ len (q_file q') ∧
  l2_table q' (c * cluster_size q) = splice (slice (q_file q ++ replicate (Z.to_nat (h + len b - len (q_file q))) 0)
    (c * cluster_size q) (c * cluster_size q + cluster_size q)) (h - c * cluster_size q) b.
Proof.
  intros Hp Hc Hh Hl Hb Hok Hnb Hnc Hf q'. pose proof (phys_cs q Hp) as Hcs.
  assert (∀ k, 0 ≤ k → k mod cluster_size q = 0 → k + cluster_size q ≤ len (q_file q) → k ≠ c * cluster_size q →
    tables (q_file q') (cluster_size q) k = tables (q_file q) (cluster_size q) k) as Hother.
  { intros k Hk Hm Hkl Hne. apply tables_write_other; try lia.
    destruct (aligned_apart (cluster_size q) k (c * cluster_size q)); [lia|done|apply Z.mod_mul; lia|done|lia|lia]. }
  assert (∀ k, table_at q k → table_at q' k) as Hat.
  { intros k (? & ? & ?). unfold table_at, q'. simpl. rewrite len_write_all_at by lia. split_and!; [done..|lia]. }
  assert (∀ ti, 0 ≤ ti → rt_host q ti ≠ 0 → rb_disk q' ti = rb_disk q ti) as Hrb.
  { intros ti Hti Hhti. destruct (ph_rt q Hp ti Hti Hhti) as (? & ? & ?). apply Hother; try done.
    intros He. apply Hnb. exists ti. split_and!; [done|done|]. by rewrite <-He. }
  assert (phys q') as Hp'.
  { destruct Hp as [H1 H2 H3 H4 H5 H6 H7 H8 H9 H10 H11 H12 H13]. constructor; try done.
    - by apply bytes_ok_write.
    - destruct H6 as [? ? ? ? H6]. constructor; try done. intros k buf Hk. destruct (H7 k buf false Hk) as ((? & ? & ?) & _).
      change (cluster_size q') with (cluster_size q). rewrite Hother; try done; [by apply H6|]. intros ->. change (l2_cache q') with (l2_cache q) in Hk. by rewrite Hnc in Hk.
    - intros k t d Hk. destruct (H7 k t d Hk) as (? & ? & ? & ?). split_and!; try done. by apply Hat.
    - destruct H8 as [? ? ? ? H8]. constructor; try done. intros ti buf Hk. destruct (H9 ti buf false Hk) as (? & ? & _).
      rewrite Hrb by done. by apply H8.
    - intros ti Hti Hhti. by apply Hat, H10. }
  split_and!; try done.
  - unfold write_file. rewrite (dbind_ok _ _ q q q) by done. by rewrite (ph_rw q Hp).
  - constructor; try done; [| |by left].
    + unfold q'. simpl. rewrite len_write_all_at; lia.
    + intros x Hx Hxc _ Hxf. unfold l2_table, view. change (l2_cache q') with (l2_cache q). case_match; [done|].
      apply Hother; [nia|apply Z.mod_mul; lia|lia|nia].
  - intros x Hx. apply rc_same; try done. intros ti Hti Hhti. unfold block, view. change (refblock_cache q') with (refblock_cache q).
    by rewrite Hrb.
  - unfold q'. simpl. rewrite len_write_all_at; lia.
  - unfold l2_table, view. change (l2_cache q') with (l2_cache q). rewrite Hnc. apply tables_write_in; try lia.
    apply Z.mod_mul. lia.
Qed.

(** ** The cache of L2 tables *)

(** A step that changes the cache of tables and the file under cached tables
    only. *)
Lemma phys_tables_step q c f :
  phys q → len f = len (q_file q) → bytes_ok f →
  cache_ok c (tables f (cluster_size q)) →
  (∀ k t d, c_map c !! k = Some (t, d) → table_at q k ∧ len t = cluster_size q ∧ bytes_ok t ∧ ¬ is_block q k) →
  (∀ ti, 0 ≤ ti → rt_host q ti ≠ 0 → tables f (cluster_size q) (rt_host q ti) = rb_disk q ti) →
  let q' := set_file f (set_l2_cache c q) in
  phys q' ∧ ∀ x, 0 ≤ x → rc q' x = rc q x.
Proof.
  intros Hp Hlen Hf Hc Hck Hrb q'. assert (∀ k, table_at q' k ↔ table_at q k) as Hat.
  { intros k. unfold table_at, q'. simpl. by rewrite Hlen. }
  split.
  - destruct Hp as [H1 H2 H3 H4 H5 H6 H7 H8 H9 H10 H11 H12 H13]. constructor; try done.
    + intros k t d Hk. rewrite Hat. by apply (Hck k t d).
    + destruct H8 as [? ? ? ? H8]. constructor; try done. intros ti buf Hb. destruct (H9 ti buf false Hb) as (? & ? & _).
      change (rb_disk q' ti) with (tables f (cluster_size q) (rt_host q ti)). rewrite Hrb by done. by apply H8.
    + intros ti Hti Hh. rewrite Hat. by apply H10.
  - intros x Hx. apply rc_same; try done. intros ti Hti Hh. unfold block, view. change (refblock_cache q') with (refblock_cache q).
    case_match; [done|]. by apply Hrb.
Qed.

Lemma drop_l2_spec q c :
  phys q → 0 ≤ c →
  let q' := set_l2_cache (cache_remove (l2_cache q) (c * cluster_size q)) q in
  drop_l2 (c * cluster_size q) q = (q', DOk tt) ∧ phys q' ∧ keeps (λ x, x = c) nowhere q q' ∧ (∀ x, 0 ≤ x → rc q' x = rc q x) ∧
  c_map (l2_cache q') !! (c * cluster_size q) = None ∧ (∀ k e, c_map (l2_cache q') !! k = Some e → c_map (l2_cache q) !! k = Some e).
Proof.
  intros Hp Hc q'. pose proof (phys_cs q Hp) as Hcs. set (k0 := c * cluster_size q) in *.
  assert (∀ k e, c_map (cache_remove (l2_cache q) k0) !! k = Some e → c_map (l2_cache q) !! k = Some e) as Hsub.
  { intros k e Hk. simpl in Hk. by apply lookup_delete_Some in Hk as [_ ?]. }
  destruct (phys_tables_step q (cache_remove (l2_cache q) k0) (q_file q) Hp eq_refl (ph_file q Hp)) as [Hp' Hrc]; try done.
  - destruct (ph_l2 q Hp) as [H1 H2 H3 H4 H5]. constructor; simpl; try done.
    + by apply NoDup_filter.
    + intros k. rewrite list_elem_of_filter, H2. destruct (decide (k = k0)) as [->|Hne].
      * rewrite lookup_delete_eq. split; [by intros []|by intros []].
      * rewrite lookup_delete_ne by done. tauto.
    + rewrite map_size_delete. case_match; unfold id; lia.
    + intros k buf Hk. apply H5, (Hsub k (buf, false)). done.
  - intros k t d Hk%Hsub. by apply (ph_l2k q Hp k t d).
  - assert (set_file (q_file q) (set_l2_cache (cache_remove (l2_cache q) k0) q) = q') as Heq by (unfold q'; by destruct q). rewrite Heq in *.
    split_and!; try done; [|simpl; by rewrite lookup_delete_eq].
    constructor; try done.
    + intros x Hx Hne _ _. unfold l2_table, view, q'. simpl. rewrite lookup_delete_ne; [done|]. unfold k0. nia.
    + intros k [e Hk]. left. exists e. by apply Hsub.
Qed.

(** A step of the cache of tables that may cache table [k]; [tab] says what
    the tables are after it. *)
Record tstep (k : Z) (tab : Z → bytes) q q' : Prop := mkTstep {
  ts_phys : phys q';
  ts_keys j : is_Some (c_map (l2_cache q') !! j) → is_Some (c_map (l2_cache q) !! j) ∨ j = k;
  ts_tables j : l2_table q' j = tab j;
  ts_rc x : 0 ≤ x → rc q' x = rc q x;
  ts_rt : refcount_table q' = refcount_table q;
  ts_l1 : l1 q' = l1 q;
  ts_free : q_free q' = q_free q;
  ts_backing : backing_image q' = backing_image q;
  ts_len : len (q_file q') = len (q_file q);
  ts_bits : cluster_bits q' = cluster_bits q;
  ts_cs : cluster_size q' = cluster_size q;
  ts_size : q_size q' = q_size q;
  ts_rw : q_read_only q' = q_read_only q;
  ts_width : refcount_bits q' = refcount_bits q;
  ts_meta : meta_kept q q' }.

Lemma tstep_keeps k tab q q' X :
  phys q → tstep k tab q q' → (∀ c, 0 ≤ c → ¬ X c → tab (c * cluster_size q) = l2_table q (c * cluster_size q)) →
  keeps X (λ j, j = k) q q'.
Proof.
  intros Hp [H1 H2 H3 H4 H5 H6 H7 H8 H9 H10 H11 H12 H13 H14 H15] Ht.
  assert (∀ ti, rt_host q' ti = rt_host q ti) as Hrt by (intros; unfold rt_host; by rewrite H5).
  constructor; try done; [by rewrite H5|lia| |].
  - intros ti Hti Hz Hnz. by rewrite Hrt in Hnz.
  - intros c Hc HX _ _. rewrite H3. by apply Ht.
Qed.
Lemma tstep_trans k tab1 tab2 q1 q2 q3 : tstep k tab1 q1 q2 → tstep k tab2 q2 q3 → tstep k tab2 q1 q3.
Proof.
  intros H1 H2. destruct H2 as [P1 P2 P3 P4 P5 P6 P7 P8 P9 P10 P11 P12 P13 P14 P15], H1 as [Q1 Q2 Q3 Q4 Q5 Q6 Q7 Q8 Q9 Q10 Q11 Q12 Q13 Q14 Q15].
  constructor; try done; try congruence.
  - intros j Hj. destruct (P2 j Hj) as [Hj'|?]; [|by right]. by apply Q2.
  - intros x Hx. rewrite P4 by done. by apply Q4.
  - by eapply meta_kept_trans.
Qed.

Lemma load_l2_phys q k :
  phys q → table_at q k → ¬ is_block q k →
  ∃ q' d, load_l2 k q = (q', DOk tt) ∧ tstep k (l2_table q) q q' ∧ c_map (l2_cache q') !! k = Some (l2_table q k, d).
Proof.
  intros Hp Hat Hnb. pose proof (phys_cs q Hp) as Hcs.
  destruct (load_l2_core q k ltac:(lia) (ph_l2 q Hp)) as (c & f & d & Hld & Hlen & Hcok & Hview & Hck & Hlt & Hsub & Hd & Hidx & Htab & Hfok).
  { intros k' t' d' Hk'. by destruct (ph_l2k q Hp k' t' d' Hk') as (? & ? & _). }
  { intros k' t'. by rewrite (ph_rw q Hp). }
  { done. }
  assert (∀ k' e, c_map c !! k' = Some e → table_at q k' ∧ len e.1 = cluster_size q ∧ bytes_ok e.1 ∧ ¬ is_block q k') as Hkeys.
  { intros k' [t' d'] Hk'. destruct (decide (k' = k)) as [->|Hne]; [|by apply (ph_l2k q Hp k' t' d'), Hsub].
    rewrite Hck in Hk'. simplify_eq. simpl. destruct (l2_shape q k Hp Hat). by split_and!. }
  specialize (Hfok (ph_file q Hp)). assert (bytes_ok f) as Hfok'.
  { apply Hfok. intros k' t' d' Hk'. by destruct (ph_l2k q Hp k' t' d' Hk') as (_ & _ & ? & _). }
  destruct (phys_tables_step q c f Hp Hlen Hfok' Hcok) as [Hp' Hrc].
  { intros k' t' d' Hk'. by apply (Hkeys k' (t', d')). }
  { intros ti Hti Hh. destruct (ph_rt q Hp ti Hti Hh) as (? & ? & ?). apply Htab; try done. intros j b Hj ->.
    destruct (ph_l2k q Hp _ _ _ Hj) as (_ & _ & _ & Hj'). apply Hj'. by exists ti. }
  exists (set_file f (set_l2_cache c q)), d. split_and!; try done.
  constructor; try done; simpl.
  intros j [e Hj]. destruct (decide (j = k)) as [->|Hne]; [by right|]. left. exists e. by apply Hsub.
Qed.

(** Another state of the cache with the same tables but [k]'s. *)
Lemma cache_step q k c t t' d :
  phys q → c_map (l2_cache q) !! k = Some (t, d) → len t' = cluster_size q → bytes_ok t' →
  (∀ j, c_map c !! j = if j =? k then Some (t', true) else c_map (l2_cache q) !! j) ∨ (c_map c = c_map (l2_cache q) ∧ t' = t) →
  NoDup (c_order c) → (∀ j, j ∈ c_order c ↔ j ∈ c_order (l2_cache q)) → c_cap c = c_cap (l2_cache q) →
  tstep k (λ j, if j =? k then t' else l2_table q j) q (set_l2_cache c q).
Proof.
  intros Hp Hk Hl Hok Hc Hno Hord Hcap. destruct (ph_l2k q Hp k t d Hk) as (Hat & Hlt & Htok & Hnb).
  assert (∀ j, is_Some (c_map c !! j) ↔ is_Some (c_map (l2_cache q) !! j)) as Hdom.
  { intros j. destruct Hc as [Hc|[-> _]]; [|done]. rewrite Hc. destruct (Z.eqb_spec j k) as [->|]; [|done]. rewrite Hk. by split. }
  assert (∀ j b e, c_map c !! j = Some (b, e) → (j = k ∧ b = t' ∧ (e = false → d = false ∧ b = t)) ∨ c_map (l2_cache q) !! j = Some (b, e)) as Hent.
  { intros j b e Hj. destruct Hc as [Hc|[Hc ->]]; [|right; by rewrite <-Hc]. rewrite Hc in Hj.
    destruct (Z.eqb_spec j k) as [->|]; [|by right]. left. by simplify_eq. }
  destruct (phys_tables_step q c (q_file q) Hp eq_refl (ph_file q Hp)) as [Hp' Hrc].
  - destruct (ph_l2 q Hp) as [H1 H2 H3 H4 H5]. constructor; try done.
    + intros j. by rewrite Hord, H2, Hdom.
    + rewrite Hcap, <-size_dom. replace (dom (c_map c)) with (dom (c_map (l2_cache q))); [by rewrite size_dom|].
      apply set_eq. intros j. by rewrite !elem_of_dom, Hdom.
    + by rewrite Hcap.
    + intros j buf Hj. destruct (Hent j buf false Hj) as [(-> & -> & Hd)|Hj']; [|by apply H5]. destruct (Hd eq_refl) as [-> ->]. by apply H5.
  - intros j b e Hj. destruct (Hent j b e Hj) as [(-> & -> & _)|Hj']; [done|by apply (ph_l2k q Hp j b e)].
  - done.
  - assert (set_file (q_file q) (set_l2_cache c q) = set_l2_cache c q) as Heq by (by destruct q). rewrite Heq in *.
    constructor; try done.
    + intros j Hj. left. by apply Hdom.
    + intros j. unfold l2_table, view. change (l2_cache (set_l2_cache c q)) with c. destruct Hc as [Hc|[-> ->]].
      * rewrite Hc. by destruct (j =? k).
      * destruct (Z.eqb_spec j k) as [->|]; [by rewrite Hk|done].
Qed.

Lemma cached_table_phys q k t d :
  phys q → c_map (l2_cache q) !! k = Some (t, d) →
  ∃ q', cached_table k q = (q', DOk t) ∧ tstep k (l2_table q) q q'.
Proof.
  intros Hp Hk. exists (set_l2_cache (touch (l2_cache q) k) q). split.
  - unfold cached_table, mbind, dstate_bind, cache_get, get. by rewrite Hk.
  - destruct (ph_l2k q Hp k t d Hk) as (_ & ? & ? & _). pose proof (ph_l2 q Hp) as Hc.
    assert (l2_table q k = t) as Ht by (unfold l2_table, view; by rewrite Hk).
    destruct (cache_step q k (touch (l2_cache q) k) t t d Hp Hk) as [P1 P2 P3 P4 P5 P6 P7 P8 P9 P10 P11 P12 P13 P14 P15]; try done.
    + by right.
    + apply NoDup_touched, Hc.
    + intros j. simpl. rewrite elem_of_touched. split; [|by left]. intros [?| ->]; [done|]. apply (ok_order _ _ Hc). by rewrite Hk.
Qed.

Lemma word_slice t i : word t i = of_be64 (slice t (i * 8) (i * 8 + 8)).
Proof. unfold word. by rewrite Z.mul_comm. Qed.

Lemma l2_entry_spec q k i :
  phys q → table_at q k → ¬ is_block q k → 0 ≤ i < l2_entries q →
  ∃ q', l2_entry k i q = (q', DOk (word (l2_table q k) i)) ∧ tstep k (l2_table q) q q'.
Proof.
  intros Hp Hat Hnb Hi. destruct (load_l2_phys q k Hp Hat Hnb) as (q1 & d & Hld & Ht1 & Hk1).
  destruct (cached_table_phys q1 k _ d (ts_phys _ _ _ _ Ht1) Hk1) as (q2 & Hcd & Ht2).
  exists q2. split.
  - unfold l2_entry. rewrite (dbind_ok _ _ _ _ _ Hld), (dbind_ok _ _ _ _ _ Hcd). destruct (l2_shape q k Hp Hat) as [Hl _].
    pose proof (phys_cs q Hp). pose proof (phys_cs_512 q Hp) as H512. unfold l2_entries in Hi.
    pose proof (Z.div_mod (cluster_size q) 8 ltac:(lia)). pose proof (Z.mod_pos_bound (cluster_size q) 8 ltac:(lia)).
    rewrite slice_chk_ret by lia. rewrite word_slice. done.
  - eapply tstep_trans; [exact Ht1|]. destruct Ht2 as [H1 H2 H3 H4 H5 H6 H7 H8 H9 H10 H11 H12 H13 H14 H15]. constructor; try done.
    intros j. by rewrite H3, (ts_tables _ _ _ _ Ht1).
Qed.

Lemma len_u64_be v : len (u64_be v) = 8.
Proof. done. Qed.
Lemma bytes_ok_u64_be v : bytes_ok (u64_be v).
Proof. apply (bytes_ok_be_low 8). Qed.

Lemma set_l2_entry_spec q k i v :
  phys q → table_at q k → ¬ is_block q k → 0 ≤ i < l2_entries q →
  ∃ q', set_l2_entry k i v q = (q', DOk tt) ∧
    tstep k (λ j, if j =? k then splice (l2_table q k) (i * 8) (u64_be v) else l2_table q j) q q'.
Proof.
  intros Hp Hat Hnb Hi. destruct (load_l2_phys q k Hp Hat Hnb) as (q1 & d & Hld & Ht1 & Hk1).
  destruct (l2_shape q k Hp Hat) as [Hl Hok]. pose proof (phys_cs q Hp). unfold l2_entries in Hi.
  pose proof (Z.div_mod (cluster_size q) 8 ltac:(lia)). pose proof (Z.mod_pos_bound (cluster_size q) 8 ltac:(lia)).
  unfold set_l2_entry. rewrite (dbind_ok _ _ _ _ _ Hld).
  set (q2 := set_l2_cache (mark_dirty (l2_cache q1) k) q1). rewrite (dbind_ok _ _ q1 q2 tt) by done. rewrite (dbind_ok _ _ q2 q2 q2) by done.
  assert (c_map (l2_cache q2) !! k = Some (l2_table q k, true)) as -> by (simpl; by rewrite lookup_alter_eq, Hk1).
  rewrite copy_at_ret by (rewrite ?len_u64_be; lia). simpl of_outcome.
  set (t' := splice (l2_table q k) (i * 8) (u64_be v)). rewrite (dbind_ok _ _ q2 q2 t') by done.
  eexists. split; [reflexivity|]. eapply tstep_trans; [exact Ht1|].
  assert (len t' = cluster_size q1) as Hlt by (unfold t'; rewrite len_splice, Hl, (ts_cs _ _ _ _ Ht1); rewrite ?len_u64_be; lia).
  assert (bytes_ok t') as Htok by (apply bytes_ok_splice; [done|apply bytes_ok_u64_be]).
  destruct (cache_step q1 k (set_data (mark_dirty (l2_cache q1) k) k t') (l2_table q k) t' d (ts_phys _ _ _ _ Ht1) Hk1 Hlt Htok)
    as [P1 P2 P3 P4 P5 P6 P7 P8 P9 P10 P11 P12 P13 P14 P15]; try done.
  - left. intros j. simpl. destruct (Z.eqb_spec j k) as [->|Hne]; [by rewrite !lookup_alter_eq, Hk1|by rewrite !lookup_alter_ne].
  - apply (ok_nodup _ _ (ph_l2 q1 (ts_phys _ _ _ _ Ht1))).
  - constructor; try done. intros j. etransitivity; [apply P3|]. simpl.
    destruct (j =? k); [done|]. apply Ht1.
Qed.

(** ** Refcounts with the free set *)

Lemma set_refcount_spec fuel q c v :
  phys q → 0 ≤ c → rt_host q (c / refblock_entries q) ≠ 0 → 0 ≤ v < 2 ^ refcount_bits q →
  ∃ q1, recount c v q q1 ∧
    set_cluster_refcount (S (S fuel)) c v q =
      (set_free (mkFree (if v =? 0 then {[c]} ∪ free_set (q_free q) else free_set (q_free q) ∖ {[c]}) (scan_next (q_free q))) q1, DOk tt).
Proof.
  intros Hp Hc Hh Hv. destruct (block_index q c Hp Hc) as (Hi & _). destruct (refblock_set_spec q c v Hp Hc Hh Hv) as (q1 & Hset & Hre).
  exists q1. split; [done|]. cbn [set_cluster_refcount]. rewrite (dbind_ok _ _ q q q) by done.
  pose proof (rt_host_in_range q _ Hi Hh) as Hlt.
  rewrite (dbind_ok _ _ q q tt).
  2: { cbn [ensure_refcount_table_len]. rewrite (dbind_ok _ _ q q q) by done. by rewrite (proj2 (Z.leb_le _ _)) by lia. }
  rewrite (dbind_ok _ _ q q q) by done. unfold rt_host in Hh.
  destruct (refcount_table q !! Z.to_nat (c / refblock_entries q)) as [e|] eqn:He; [|done]. simpl in Hh.
  rewrite (proj2 (Z.eqb_neq (Z.land e OFFSET_MASK) 0)) by done. rewrite (dbind_ok _ _ q q tt) by done. rewrite (dbind_ok _ _ _ _ _ Hset).
  unfold dmodify. by rewrite (re_free _ _ _ _ Hre).
Qed.
End steps.
