(* ===== verification/Qcow2Free.v ===== *)
(** * qcow2 images: the allocator

    Free clusters are those of refcount zero. The set the allocator takes
    from holds only such clusters; when it is empty and the scan of the
    refcount blocks finds none, a new block is installed, and its clusters
    are free. An allocated cluster was free, and no other refcount but a new
    block's changes. *)

From S2P Require Import Prelude TableCache Disk Qcow2 Qcow2Alloc Qcow2Read Qcow2Phys Qcow2Steps.

Lemma of_be64_zeros n : of_be64 (replicate n 0) = 0.
Proof. unfold of_be64. induction n; [done|]. simpl. done. Qed.
Lemma bits_get_zero n w i :
  w ∈ [1; 2; 4; 8; 16; 32; 64] → 0 ≤ i → (i + 1) * w ≤ 8 * Z.of_nat n → bits_get (replicate n 0) i w = Ret 0.
Proof.
  intros Hw Hi Hr. unfold bits_get. destruct (decide (w ∈ [1; 2; 4; 8])) as [Hs|Hs].
  - rewrite (bool_decide_true (w ∈ [1; 2; 4; 8])) by done. destruct (field_place w i i Hs Hi Hi) as (_ & _ & Hq0 & _).
    pose proof (pow2_width w Hs) as (Hw0 & _). assert (i * w / 8 < Z.of_nat n) by (apply Z.div_lt_upper_bound; lia).
    rewrite idx_chk_ret by (rewrite len_replicate; lia). cbn [mbind outcome_bind]. unfold idx. rewrite nth_lookup, lookup_replicate_2 by lia.
    simpl. by rewrite Z.shiftr_0_l, Z.land_0_l.
  - assert (w ∈ [16; 32; 64]) as Hb by (rewrite !elem_of_cons in *; tauto).
    rewrite (bool_decide_false (w ∈ [1; 2; 4; 8])), (bool_decide_true (w ∈ [16; 32; 64])) by done.
    assert (∃ m, w = 8 * m ∧ 0 < m) as (m & -> & Hm0).
    { clear -Hb. repeat (apply elem_of_cons in Hb as [->|Hb]); [by exists 2|by exists 4|by exists 8|by apply elem_of_nil in Hb]. }
    replace (8 * m / 8) with m by (rewrite Z.mul_comm, Z.div_mul; lia). rewrite slice_chk_ret by (rewrite ?len_replicate; nia).
    cbn [mbind outcome_bind]. unfold slice. by rewrite drop_replicate, take_replicate, of_be64_zeros.
Qed.

(** ** The scan of one block *)

Lemma size_nonempty (s : gset Z) : FREE_SCAN_TARGET ≤ Z.of_nat (base.size s) → s ≠ ∅.
Proof. intros Hs ->. rewrite size_empty in Hs. unfold FREE_SCAN_TARGET in Hs. lia. Qed.

Lemma scan_block_spec buf w ti rbe to_end n s fc :
  (∀ i, s ≤ i < s + Z.of_nat n → ∃ v, bits_get buf i w = Ret v) → 0 ≤ scan_next fc → 0 ≤ ti * rbe + s →
  ∃ fc' stop, scan_block buf w ti rbe to_end (seqZ s (Z.of_nat n)) fc = Ret (fc', stop) ∧ free_set fc ⊆ free_set fc' ∧ 0 ≤ scan_next fc' ∧
    (∀ c, c ∈ free_set fc' → c ∈ free_set fc ∨ ∃ i, s ≤ i < s + Z.of_nat n ∧ c = ti * rbe + i ∧ bits_get buf i w = Ret 0) ∧
    (∀ i, s ≤ i < s + Z.of_nat n → bits_get buf i w = Ret 0 → ti * rbe + i ∈ free_set fc' ∨ stop = true ∧ scan_next fc' ≤ ti * rbe + i) ∧
    (stop = true → to_end = false ∧ free_set fc' ≠ ∅ ∧ scan_next fc' ≤ ti * rbe + s + Z.of_nat n).
Proof.
  revert s fc. induction n as [|n IH]; intros s fc Hret Hsc Hpos.
  { exists fc, false. split_and!; try done; [by left|intros i; lia]. }
  rewrite seqZ_cons by lia. replace (Z.pred (Z.of_nat (S n))) with (Z.of_nat n) by lia. cbn [scan_block].
  destruct (Hret s ltac:(lia)) as [v Hv]. rewrite Hv. cbn [mbind outcome_bind free_set]. set (fs := if v =? 0 then {[ti * rbe + s]} ∪ free_set fc else free_set fc).
  assert (free_set fc ⊆ fs) as Hsub by (unfold fs; destruct (v =? 0); set_solver).
  assert (∀ c, c ∈ fs → c ∈ free_set fc ∨ c = ti * rbe + s ∧ v = 0) as Hin by (intros c; unfold fs; destruct (Z.eqb_spec v 0); set_solver).
  assert (v = 0 → ti * rbe + s ∈ fs) as Hadd by (intros ->; unfold fs; set_solver). destruct (negb to_end && _) eqn:Hstop.
  - exists (mkFree fs (ti * rbe + s + 1)), true. apply andb_true_iff in Hstop as [Hte Hfull]. bsplit. split_and!; cbn [free_set scan_next]; try done; [lia| | |].
    + intros c [?|[-> ->]]%Hin; [by left|]. right. exists s. split_and!; [lia|lia|done|done].
    + intros i Hi Hz. destruct (decide (i = s)) as [->|]; [left; apply Hadd; congruence|right; split; [done|lia]].
    + intros _. split_and!; [by destruct to_end|by apply size_nonempty|lia].
  - destruct (IH (Z.succ s) (mkFree fs (ti * rbe + s + 1))) as (fc' & stop & Hs & Hsub' & Hsc' & Hin' & Hall & Hend); cbn [free_set scan_next] in *.
    { intros i Hi. apply Hret. lia. } { lia. } { lia. }
    exists fc', stop. split_and!; [done|set_solver|done| | |intros E; destruct (Hend E) as (? & ? & ?); split_and!; try done; lia].
    + intros c [Hc|(j & Hj & -> & Hz)]%Hin'; [|right; exists j; split_and!; [lia|lia|done|done]].
      apply Hin in Hc as [?|[-> ->]]; [by left|]. right. exists s. split_and!; [lia|lia|done|done].
    + intros i Hi Hz. destruct (decide (i = s)) as [->|]; [left; apply Hsub', Hadd; congruence|apply Hall; [lia|done]].
Qed.

Section free.
Context {B : Type} `{HB : DiskContents B} `{HI : InflateLaws}.
Implicit Types q : Qcow2Image B.

Definition covered q (c : Z) : Prop := rt_host q (c / refblock_entries q) ≠ 0.
Definition free_ok q : Prop := ∀ c, c ∈ free_set (q_free q) → 0 ≤ c ∧ covered q c ∧ rc q c = 0.
(** The free clusters that the allocator will find: in its set, or ahead of
    its scan. *)
Definition available q (c : Z) : Prop := covered q c ∧ rc q c = 0 ∧ (c ∈ free_set (q_free q) ∨ scan_next (q_free q) ≤ c).
#[export] Instance available_dec q c : Decision (available q c).
Proof. unfold available, covered. apply _. Defined.
(** The clusters the refcount table can describe. *)
Definition table_span q : Z := Z.of_nat (length (refcount_table q)) * refblock_entries q.
Lemma covered_span q c : phys q → 0 ≤ c → covered q c → c < table_span q.
Proof.
  intros Hp Hc Hcov. destruct (rbe_width q Hp) as [_ H64]. pose proof (rt_host_in_range q (c / refblock_entries q) ltac:(apply Z.div_pos; lia) Hcov).
  unfold table_span. pose proof (Z.div_mod c (refblock_entries q) ltac:(lia)). pose proof (Z.mod_pos_bound c (refblock_entries q) ltac:(lia)). nia.
Qed.

Lemma quiet_set_free q fc : phys q → 0 ≤ scan_next fc → quiet q (set_free fc q).
Proof. intros Hp Hs. constructor; try done; [by apply phys_set_free|apply keeps_set_free]. Qed.
Lemma quiet_rbe q q' : quiet q q' → refblock_entries q' = refblock_entries q.
Proof. intros Hq. unfold refblock_entries. by rewrite (ke_cs _ _ _ _ (qu_keeps _ _ Hq)), (ke_width _ _ _ _ (qu_keeps _ _ Hq)). Qed.
Lemma quiet_host q q' ti : quiet q q' → rt_host q' ti = rt_host q ti.
Proof. intros Hq. unfold rt_host. by rewrite (qu_rt _ _ Hq). Qed.
Lemma quiet_covered q q' c : quiet q q' → covered q' c ↔ covered q c.
Proof. intros Hq. unfold covered. by rewrite (quiet_rbe _ _ Hq), (quiet_host _ _ _ Hq). Qed.
Lemma quiet_free_ok q q' : quiet q q' → (∀ c, c ∈ free_set (q_free q') → 0 ≤ c ∧ covered q c ∧ rc q c = 0) → free_ok q'.
Proof.
  intros Hq Hf c Hc. destruct (Hf c Hc) as (? & ? & ?). rewrite (quiet_covered _ _ _ Hq), (qu_rc _ _ Hq) by done. done.
Qed.

Lemma quiet_available q q' c : quiet q q' → 0 ≤ c → covered q c → rc q c = 0 → c ∈ free_set (q_free q') ∨ scan_next (q_free q') ≤ c → available q' c.
Proof. intros Hq Hc Hcov Hrc Hin. split_and!; [by rewrite (quiet_covered _ _ _ Hq)|by rewrite (qu_rc _ _ Hq)|done]. Qed.

(** ** Filling the free set *)

Definition refilled (to_end : bool) q q' : Prop :=
  quiet q q' ∧ free_ok q' ∧ (∀ c, 0 ≤ c → available q c → available q' c) ∧
  ((∃ c, 0 ≤ c ∧ available q c) → free_set (q_free q') ≠ ∅) ∧ (to_end = true → table_span q ≤ scan_next (q_free q')).

Lemma refilled_trans to_end q1 q2 q3 : phys q1 → quiet q1 q2 → (∀ c, 0 ≤ c → available q1 c → available q2 c) → refilled to_end q2 q3 → refilled to_end q1 q3.
Proof.
  intros Hp Hq Ha (Q1 & Q2 & Q3 & Q4 & Q5). split_and!; [by eapply quiet_step_trans|done|auto| |].
  - intros (c & Hc & Hav). apply Q4. exists c. auto.
  - unfold table_span in *. by rewrite (qu_rt _ _ Hq), (quiet_rbe _ _ Hq) in Q5.
Qed.
(** The scan goes on behind block [ti], whose free clusters are in the set. *)
Lemma advance q q' ti :
  phys q → quiet q q' → free_set (q_free q) ⊆ free_set (q_free q') → scan_next (q_free q') = (ti + 1) * refblock_entries q →
  (∀ c, 0 ≤ c → scan_next (q_free q) ≤ c → c / refblock_entries q ≤ ti → covered q c → rc q c = 0 → c ∈ free_set (q_free q')) →
  ∀ c, 0 ≤ c → available q c → available q' c.
Proof.
  intros Hp Hq Hsub Hsn Hblk c Hc (Hcov & Hrc & Hin). destruct (rbe_width q Hp) as [_ H64]. apply (quiet_available q); try done. destruct Hin as [?|Hge]; [left; set_solver|].
  destruct (decide (c / refblock_entries q ≤ ti)) as [Hle|Hgt]; [left; by apply Hblk|]. right. rewrite Hsn.
  pose proof (Z.div_mod c (refblock_entries q) ltac:(lia)). pose proof (Z.mod_pos_bound c (refblock_entries q) ltac:(lia)). nia.
Qed.
Lemma refill_loop_spec fuel to_end q :
  phys q → free_ok q →
  (scan_next (q_free q) < table_span q → Z.of_nat (length (refcount_table q)) - scan_next (q_free q) / refblock_entries q ≤ Z.of_nat fuel) →
  ∃ q', refill_loop fuel to_end (refblock_entries q) (table_span q) q = (q', DOk tt) ∧ refilled to_end q q'.
Proof.
  revert q. induction fuel as [|fuel IH]; intros q Hp Hf Hfuel; destruct (rbe_width q Hp) as [Hrw H64];
    set (rbe := refblock_entries q) in *; set (next := scan_next (q_free q)) in *;
    cbn [refill_loop]; rewrite (dbind_ok _ _ q q q) by done; fold next; (destruct (Z.ltb_spec next (table_span q)) as [Hlt|Hge];
      [|exists q; split_and!; [done|split_and!; try done; [by apply quiet_same|intros (c & Hc & Hcov & _ & [Hin|Hin]); [set_solver|]; pose proof (covered_span q c Hp Hc Hcov); fold next in Hin; lia]]]).
  { exfalso. specialize (Hfuel Hlt). unfold table_span in Hlt. fold rbe in Hlt. pose proof (Z.div_lt_upper_bound next rbe (Z.of_nat (length (refcount_table q))) ltac:(lia) ltac:(lia)). lia. }
  specialize (Hfuel Hlt). pose proof (ph_scan q Hp) as Hn0. fold next in Hn0. set (ti := next / rbe) in *.
  assert (0 ≤ ti) as Hti by (apply Z.div_pos; lia). pose proof (Z.div_mod next rbe ltac:(lia)) as Hdm. fold ti in Hdm.
  pose proof (Z.mod_pos_bound next rbe ltac:(lia)) as Hmb. fold (rt_host q ti).
  assert (∀ c, next ≤ c → c / rbe ≤ ti → c / rbe = ti ∧ c = ti * rbe + c mod rbe ∧ next mod rbe ≤ c mod rbe < rbe) as Hsame.
  { intros c Hc Hle. pose proof (Z.div_le_mono next c rbe ltac:(lia) Hc) as Hd. fold ti in Hd. pose proof (Z.div_mod c rbe ltac:(lia)). pose proof (Z.mod_pos_bound c rbe ltac:(lia)).
    assert (c / rbe = ti) as E by lia. rewrite E in *. split_and!; nia. }
  assert (∀ q1, quiet q q1 → free_ok q1 → scan_next (q_free q1) = (ti + 1) * rbe →
    ∃ q', refill_loop fuel to_end rbe (table_span q) q1 = (q', DOk tt) ∧ refilled to_end q1 q') as Hnext.
  { intros q1 Hq1 Hf1 Hs1. destruct (IH q1 (qu_phys _ _ Hq1) Hf1) as (q' & Hr & Hrf).
    - intros _. rewrite (qu_rt _ _ Hq1), (quiet_rbe _ _ Hq1), Hs1. fold rbe. rewrite Z.div_mul by lia. lia.
    - exists q'. split; [|done]. unfold table_span in *. by rewrite (qu_rt _ _ Hq1), (quiet_rbe _ _ Hq1) in Hr. }
  destruct (Z.eqb_spec (rt_host q ti) 0) as [Hz|Hz].
  - set (q1 := set_free (mkFree (free_set (q_free q)) ((ti + 1) * rbe)) q). rewrite (dbind_ok _ _ q q1 tt) by done.
    assert (quiet q q1) as Hq1 by (apply quiet_set_free; [done|simpl; nia]).
    destruct (Hnext q1 Hq1) as (q' & Hr & Hrf); [by apply (quiet_free_ok q)|done|]. exists q'. split; [done|]. apply (refilled_trans to_end q q1); try done.
    apply (advance q q1 ti); try done. intros c Hc Hge Hle Hcov _. destruct (Hsame c Hge Hle) as (E & _). destruct Hcov. fold rbe. by rewrite E.
  - destruct (load_block q ti Hp Hti Hz) as (q1 & Hld & Hq1 & Hf1).
    rewrite (assoc_bind q (load_refblock ti) (λ _, cached_block ti)), (dbind_ok _ _ _ _ _ Hld). destruct (block_shape q ti Hp Hti Hz) as [Hbl Hbok].
    destruct (scan_block_spec (block q ti) (refcount_bits q) ti rbe to_end (Z.to_nat (rbe - next mod rbe)) (next mod rbe) (q_free q))
      as (fc' & stop & Hs & Hsub & Hsc & Hin & Hall & Hend).
    { intros i Hi. destruct (width_cases _ (ph_width q Hp)) as (Hw0 & _).
      destruct (bits_get_ret (block q ti) (refcount_bits q) i) as (v & Hv & _); [apply Hp|done|lia|rewrite Hbl; nia|by exists v]. }
    { done. } { nia. }
    rewrite Z2Nat.id in Hs, Hin, Hall, Hend by lia. rewrite Hs. cbn [of_outcome]. rewrite (dbind_ok _ _ q1 q1 (fc', stop)) by done.
    assert (∀ c, c ∈ free_set fc' → 0 ≤ c ∧ covered q c ∧ rc q c = 0) as Hfok.
    { intros c [Hc|(i & Hi & -> & Hv)]%Hin; [by apply Hf|].
      assert ((ti * rbe + i) / rbe = ti) as Hd by (symmetry; apply (Z.div_unique_pos _ _ _ i); lia).
      assert ((ti * rbe + i) mod rbe = i) as Hm by (symmetry; apply (Z.mod_unique_pos _ _ ti); lia).
      split_and!; [nia|by unfold covered; fold rbe; rewrite Hd|]. unfold rc. fold rbe. rewrite Hd, Hm, (proj2 (Z.eqb_neq _ _)), Hv by done. done. }
    assert (∀ c, 0 ≤ c → next ≤ c → c / rbe ≤ ti → covered q c → rc q c = 0 → c ∈ free_set fc' ∨ stop = true ∧ scan_next fc' ≤ c) as Hblk.
    { intros c Hc Hge Hle Hcov Hrc. destruct (Hsame c Hge Hle) as (E & Ec & Hr). rewrite Ec. apply Hall; [lia|]. pose proof (bits_get_rc q c Hp Hc) as Hb. fold rbe in Hb.
      rewrite E, Hrc in Hb. by apply Hb. }
    assert (∀ sn, 0 ≤ sn → quiet q (set_free (mkFree (free_set fc') sn) q1)) as Hqf.
    { intros sn Hsn. eapply quiet_step_trans; [done|exact Hq1|]. apply quiet_set_free; [apply Hq1|done]. }
    destruct stop.
    + destruct (Hend eq_refl) as (-> & Hne & Hsn). destruct fc' as [fs sn]. cbn [free_set scan_next] in *. set (q2 := set_free (mkFree fs sn) q1).
      pose proof (Hqf sn Hsc) as Hq2. fold q2 in Hq2. exists q2. split; [done|]. split_and!; try done; [by apply (quiet_free_ok q)|].
      intros c Hc (Hcov & Hrc & Hor). apply (quiet_available q); try done. change (c ∈ fs ∨ sn ≤ c). destruct Hor as [?|Hge]; [left; set_solver|].
      destruct (decide (c / rbe ≤ ti)) as [Hle|Hgt]; [destruct (Hblk c Hc Hge Hle Hcov Hrc) as [?|[_ ?]]; auto|]. right.
      pose proof (Z.div_mod c rbe ltac:(lia)). pose proof (Z.mod_pos_bound c rbe ltac:(lia)). nia.
    + set (q2 := set_free (mkFree (free_set fc') ((ti + 1) * rbe)) q1). assert (quiet q q2) as Hq2 by (apply Hqf; nia). assert (free_ok q2) as Hf2 by (by apply (quiet_free_ok q)).
      assert (∀ c, 0 ≤ c → available q c → available q2 c) as Hadv.
      { apply (advance q q2 ti); try done. intros c Hc Hge Hle Hcov Hrc. by destruct (Hblk c Hc Hge Hle Hcov Hrc) as [?|[? _]]. }
      rewrite (dbind_ok _ _ q1 q2 tt) by done. destruct (negb to_end && _) eqn:Hfull.
      * apply andb_true_iff in Hfull as [Hte Hfull]. bsplit. exists q2. split_and!; try done. split_and!; try done; [intros _; by apply size_nonempty|by destruct to_end].
      * destruct (Hnext q2 Hq2 Hf2 eq_refl) as (q' & Hr & Hrf). exists q'. split; [exact Hr|]. by apply (refilled_trans to_end q q2).
Qed.

Lemma refill_spec to_end q : phys q → free_ok q → ∃ q', refill_free_map to_end q = (q', DOk tt) ∧ refilled to_end q q'.
Proof.
  intros Hp Hf. destruct (rbe_width q Hp) as [_ H64]. unfold refill_free_map. rewrite (dbind_ok _ _ q q q) by done.
  apply refill_loop_spec; try done. intros _. pose proof (Z.div_pos (scan_next (q_free q)) (refblock_entries q) (ph_scan q Hp) ltac:(lia)). lia.
Qed.

(** ** Taking one cluster *)

Lemma take_one_spec q :
  (free_set (q_free q) = ∅ ∧ take_mapped_run 1 q = (q, DOk None)) ∨
  ∃ idx s, idx ∈ free_set (q_free q) ∧ s ⊆ free_set (q_free q) ∧ (∀ c, c ∈ free_set (q_free q) → c = idx ∨ c ∈ s) ∧
    take_mapped_run 1 q = (set_free (mkFree s (scan_next (q_free q))) q, DOk (Some idx)).
Proof.
  unfold take_mapped_run. change (Z.max 1 1) with 1. unfold ascending.
  destruct (merge_sort (≤) (elements (free_set (q_free q)))) as [|c l] eqn:E.
  - left. split; [|done]. apply leibniz_equiv, elements_empty_inv, Permutation_nil. rewrite <-E. rewrite (merge_sort_Permutation (≤) (elements (free_set (q_free q)))). done.
  - right. assert (c ∈ free_set (q_free q)) as Hc.
    { apply elem_of_elements. rewrite <-(merge_sort_Permutation (≤) (elements _)), E. by left. }
    exists c. eexists. split_and!; [done| | |reflexivity]; [set_solver|]. intros x Hx. destruct (decide (x = c)) as [->|Hne]; [by left|right].
    apply elem_of_difference. split; [done|]. change (seqZ c 1) with [c]. set_solver.
Qed.

(** ** Installing a refcount block *)

Lemma land_offset x : 0 ≤ x < 2 ^ 56 → x mod 512 = 0 → Z.land x OFFSET_MASK = x.
Proof.
  intros Hx Hm. apply Z.div_exact in Hm; [|lia]. rewrite Hm. set (y := x / 512) in *. change OFFSET_MASK with (Z.shiftl (Z.ones 47) 9).
  replace (512 * y) with (Z.shiftl y 9) by (rewrite Z.shiftl_mul_pow2 by lia; change (2 ^ 9) with 512; lia).
  rewrite <-Z.shiftl_land, Z.land_ones, Z.mod_small by lia. done.
Qed.
Lemma cluster_offset q h : phys q → 0 ≤ h → (h + 1) * cluster_size q ≤ 2 ^ 56 → Z.land (h * cluster_size q) OFFSET_MASK = h * cluster_size q.
Proof.
  intros Hp Hh Hl. pose proof (phys_cs q Hp). apply land_offset; [nia|]. rewrite Z.mul_mod, (phys_cs_512 q Hp), Z.mul_0_r by lia. done.
Qed.

Lemma install_block q ti h :
  phys q → 0 ≤ ti < Z.of_nat (length (refcount_table q)) → rt_host q ti = 0 → 0 < h → (h + 1) * cluster_size q ≤ 2 ^ 56 →
  table_at q (h * cluster_size q) → ¬ is_block q (h * cluster_size q) → c_map (l2_cache q) !! (h * cluster_size q) = None →
  tables (q_file q) (cluster_size q) (h * cluster_size q) = replicate (Z.to_nat (cluster_size q)) 0 →
  let q' := set_refcount_table (<[Z.to_nat ti := h * cluster_size q]> (refcount_table q)) q in
  phys q' ∧ rt_host q' ti = h * cluster_size q ∧ (∀ tj, 0 ≤ tj → tj ≠ ti → rt_host q' tj = rt_host q tj) ∧ (∀ x, 0 ≤ x → rc q' x = rc q x).
Proof.
  intros Hp Hti Hz Hh Hl Hat Hnb Hnc Hzero q'. pose proof (phys_cs q Hp) as Hcs.
  assert (rt_host q' ti = h * cluster_size q) as Hhost.
  { unfold rt_host, q'. simpl. rewrite list_lookup_insert_eq by lia. simpl. apply cluster_offset; [done|lia|done]. }
  assert (∀ tj, 0 ≤ tj → tj ≠ ti → rt_host q' tj = rt_host q tj) as Hother.
  { intros tj Htj Hne. unfold rt_host, q'. simpl. by rewrite list_lookup_insert_ne by lia. }
  assert (c_map (refblock_cache q) !! ti = None) as Hnci.
  { destruct (c_map (refblock_cache q) !! ti) as [[t d]|] eqn:E; [|done]. by destruct (ph_rbk q Hp ti t d E) as (_ & ? & _). }
  assert (phys q') as Hp'.
  { destruct Hp as [H1 H2 H3 H4 H5 H6 H7 H8 H9 H10 H11 H12 H13]. constructor; try done.
    - intros k t d Hk. destruct (H7 k t d Hk) as (? & ? & ? & Hb). split_and!; try done. intros (tj & Htj & Hhj & Hne).
      destruct (decide (tj = ti)) as [->|Hnt]; [|apply Hb; exists tj; by rewrite <-Hother].
      rewrite Hhost in Hhj. subst k. change (l2_cache q') with (l2_cache q) in Hk. by rewrite Hnc in Hk.
    - destruct H8 as [? ? ? ? H8]. constructor; try done. intros tj buf Hk.
      assert (tj ≠ ti) by (intros ->; change (refblock_cache q') with (refblock_cache q) in Hk; by rewrite Hnci in Hk).
      destruct (H9 tj buf false Hk) as (? & _). unfold rb_disk. rewrite Hother by done. by apply H8.
    - intros tj t d Hk. assert (tj ≠ ti) by (intros ->; change (refblock_cache q') with (refblock_cache q) in Hk; by rewrite Hnci in Hk).
      destruct (H9 tj t d Hk) as (? & ? & ? & ?). by rewrite Hother.
    - intros tj Htj Hhj. destruct (decide (tj = ti)) as [->|Hnt]; [by rewrite Hhost|]. rewrite Hother in * by done. by apply H10.
    - intros ti1 ti2 Ht1 Ht2. destruct (decide (ti1 = ti)) as [->|Hn1], (decide (ti2 = ti)) as [->|Hn2]; try done.
      + rewrite Hhost, Hother by done. intros Hne Heq. exfalso. apply Hnb. exists ti2. split_and!; [done|done|]. by rewrite Heq in *.
      + rewrite Hhost, Hother by done. intros Hne Heq. exfalso. apply Hnb. exists ti1. split_and!; [done|done|]. by rewrite <-Heq.
      + rewrite !Hother by done. by apply H11.
    - unfold q'. simpl. by rewrite length_insert. }
  split_and!; try done. intros x Hx. destruct (block_index q x Hp Hx) as (Hix & Hmx & Hrx). unfold rc.
  change (refblock_entries q') with (refblock_entries q). change (refcount_bits q') with (refcount_bits q).
  destruct (decide (x / refblock_entries q = ti)) as [Heq|Hne].
  - rewrite Heq, Hhost, Hz, (proj2 (Z.eqb_neq _ _)) by nia. simpl.
    assert (block q' ti = replicate (Z.to_nat (cluster_size q)) 0) as ->.
    { unfold block, view. change (refblock_cache q') with (refblock_cache q). rewrite Hnci. unfold rb_disk. by rewrite Hhost. }
    rewrite bits_get_zero; [done|apply Hp|lia|lia].
  - rewrite Hother by done. destruct (Z.eqb_spec (rt_host q (x / refblock_entries q)) 0) as [|Hnz]; [done|].
    assert (block q' (x / refblock_entries q) = block q (x / refblock_entries q)) as ->; [|done].
    unfold block, view. change (refblock_cache q') with (refblock_cache q). case_match; [done|]. unfold rb_disk. by rewrite Hother.
Qed.

(** ** Allocation *)

(** Entries of the refcount table that have no block yet. *)
Definition blockless q : Z := len (filter (λ e, Z.land e OFFSET_MASK = 0) (refcount_table q)).
(** Clusters that can be allocated before the refcount table must grow: each
    new block takes one of those it describes. *)
Definition room q : Z := len (filter (available q) (seqZ 0 (table_span q))) + blockless q * (refblock_entries q - 1).

Lemma available_in q c : phys q → 0 ≤ c → available q c → c ∈ filter (available q) (seqZ 0 (table_span q)).
Proof. intros Hp Hc Ha. apply list_elem_of_filter. split; [done|]. apply elem_of_seqZ. pose proof (covered_span q c Hp Hc (proj1 Ha)). lia. Qed.
Lemma in_available q c : c ∈ filter (available q) (seqZ 0 (table_span q)) → 0 ≤ c ∧ available q c.
Proof. intros [Ha Hc%elem_of_seqZ]%list_elem_of_filter. split; [lia|done]. Qed.
Lemma available_nodup q : NoDup (filter (available q) (seqZ 0 (table_span q))).
Proof. apply NoDup_filter, NoDup_seqZ. Qed.
Lemma room_mono q q' :
  phys q' → refcount_table q' = refcount_table q → refblock_entries q' = refblock_entries q → (∀ c, 0 ≤ c → available q c → available q' c) → room q ≤ room q'.
Proof.
  intros Hp Hrt Hrbe Ha. unfold room, blockless. rewrite Hrt, Hrbe. assert (len (filter (available q) (seqZ 0 (table_span q))) ≤ len (filter (available q') (seqZ 0 (table_span q')))); [|lia].
  apply len_incl; [apply available_nodup|]. intros c [Hc Hav]%in_available. apply available_in; auto.
Qed.
Lemma room_but a q q' :
  phys q' → refcount_table q' = refcount_table q → refblock_entries q' = refblock_entries q → (∀ c, 0 ≤ c → available q c → c = a ∨ available q' c) → room q - 1 ≤ room q'.
Proof.
  intros Hp Hrt Hrbe Ha. unfold room, blockless. rewrite Hrt, Hrbe. set (l := filter (available q') _).
  assert (len (filter (available q) (seqZ 0 (table_span q))) ≤ len (a :: l)) as Hl; [|rewrite len_cons in Hl; lia].
  apply len_incl; [apply available_nodup|]. intros c [Hc Hav]%in_available. destruct (Ha c Hc Hav) as [->|?]; [left|right; by apply available_in].
Qed.
Lemma room_cases q : phys q → 1 ≤ room q → (∃ c, 0 ≤ c ∧ available q c) ∨ 1 ≤ blockless q.
Proof.
  intros Hp Hr. destruct (rbe_width q Hp) as [_ H64]. unfold room in Hr. destruct (filter (available q) (seqZ 0 (table_span q))) as [|c l] eqn:E.
  - right. change (len (@nil Z)) with 0 in Hr. unfold blockless in *. pose proof (len_nonneg (filter (λ e, Z.land e OFFSET_MASK = 0) (refcount_table q))). nia.
  - left. exists c. apply in_available. rewrite E. left.
Qed.

Record alloc_ok q : Prop := mkAllocOk {
  ao_phys : phys q;
  ao_free : free_ok q;
  ao_self ti : 0 ≤ ti → rt_host q ti ≠ 0 → rc q (rt_host q ti / cluster_size q) ≠ 0;
  ao_zero : rc q 0 ≠ 0 }.

(** No cluster gained more than a first reference. *)
Definition low q q' : Prop := ∀ x, 0 ≤ x → rc q' x ≤ Z.max 1 (rc q x).
Lemma low_same q q' : (∀ x, 0 ≤ x → rc q' x = rc q x) → low q q'.
Proof. intros Hrc x Hx. rewrite Hrc by done. lia. Qed.
Lemma low_trans q1 q2 q3 : low q1 q2 → low q2 q3 → low q1 q3.
Proof. intros H1 H2 x Hx. specialize (H1 x Hx). specialize (H2 x Hx). lia. Qed.

(** What allocating changes: clusters that were free. *)
Record allocs q q' : Prop := mkAllocs {
  al_ok : alloc_ok q';
  al_keeps : keeps (λ c, rc q c = 0) nowhere q q';
  al_rc x : 0 ≤ x → rc q x ≠ 0 → rc q' x = rc q x;
  al_l1 : l1 q' = l1 q;
  al_backing : backing_image q' = backing_image q;
  al_low : low q q' }.

Lemma quiet_alloc_ok q q' : alloc_ok q → quiet q q' → free_ok q' → alloc_ok q'.
Proof.
  intros [Hp Hf Hs Hz] Hq Hf'. pose proof (phys_cs q Hp). constructor; [apply Hq|done| |by rewrite (qu_rc _ _ Hq) by lia].
  intros ti Hti. rewrite (quiet_host _ _ _ Hq), (ke_cs _ _ _ _ (qu_keeps _ _ Hq)). intros Hh. rewrite (qu_rc _ _ Hq); [by apply Hs|].
  destruct (ph_rt q Hp ti Hti Hh) as (? & _). apply Z.div_pos; lia.
Qed.
Lemma quiet_allocs q q' : alloc_ok q → quiet q q' → free_ok q' → allocs q q'.
Proof.
  intros Ha Hq Hf. constructor; [by eapply quiet_alloc_ok| |intros; by apply (qu_rc _ _ Hq)|exact (qu_l1 _ _ Hq)|exact (qu_backing _ _ Hq)|apply low_same; intros; by apply (qu_rc _ _ Hq)].
  eapply keeps_weaken; [| |apply (qu_keeps _ _ Hq)]; by intros ? [].
Qed.
Lemma allocs_trans q1 q2 q3 : alloc_ok q1 → allocs q1 q2 → allocs q2 q3 → allocs q1 q3.
Proof.
  intros Ha H1 H2. constructor; [apply H2| | |by rewrite (al_l1 _ _ H2), (al_l1 _ _ H1)|by rewrite (al_backing _ _ H2), (al_backing _ _ H1)|by eapply low_trans; apply al_low].
  - destruct (al_keeps _ _ H1) as [P1 P2 P3 P4 P5 P6 P7 P8 P9 P10 P11 P12]. pose proof (keeps_trans _ _ _ _ _ _ _ (ao_phys _ Ha) (al_keeps _ _ H1) (al_keeps _ _ H2)) as Hk.
    pose proof (phys_cs q1 (ao_phys _ Ha)) as Hcs.
    assert (∀ c, 0 ≤ c → rc q1 c = 0 ∨ rc q2 c = 0 → rc q1 c = 0) as Hx.
    { intros c Hc [?|Hz]; [done|]. destruct (decide (rc q1 c = 0)) as [?|Hne]; [done|]. rewrite (al_rc _ _ H1 c Hc Hne) in Hz. done. }
    destruct Hk as [Q1 Q2 Q3 Q4 Q5 Q6 Q7 Q8 Q9 Q10 Q11 Q12]. constructor; try done.
    + intros ti Hti Hz Hnz. apply Hx; [|by apply Q9].
      destruct (ph_rt q3 (ao_phys _ (al_ok _ _ H2)) ti Hti Hnz) as (? & _). apply Z.div_pos; lia.
    + intros c Hc Hnx Hnb Hf. apply Q10; try done. intros Hor. apply Hnx. by apply Hx.
    + intros k Hk. destruct (Q11 k Hk) as [?|[[]|[]]]. by left.
  - intros x Hx Hne. pose proof (al_rc _ _ H1 x Hx Hne) as He. rewrite (al_rc _ _ H2 x Hx) by (by rewrite He). exact He.
Qed.

Lemma rc_uncovered q c : rt_host q (c / refblock_entries q) = 0 → rc q c = 0.
Proof. intros Hz. unfold rc. by rewrite Hz. Qed.
Lemma is_block_rc q c : alloc_ok q → 0 ≤ c → rc q c = 0 → ¬ is_block q (c * cluster_size q).
Proof.
  intros Ha Hc Hz (ti & Hti & Hh & Hne). pose proof (phys_cs q (ao_phys _ Ha)).
  apply (ao_self q Ha ti Hti); [congruence|]. by rewrite Hh, Z.div_mul by lia.
Qed.
(** A cluster the refcount table can describe has an offset an entry can
    hold. *)
Lemma covered_range q c : phys q → 0 ≤ c → c / refblock_entries q < Z.of_nat (length (refcount_table q)) → (c + 1) * cluster_size q ≤ 2 ^ 56.
Proof.
  intros Hp Hc Hlt. destruct (rbe_width q Hp) as [_ H64]. pose proof (phys_cs q Hp). pose proof (ph_range q Hp).
  pose proof (Z.div_mod c (refblock_entries q) ltac:(lia)). pose proof (Z.mod_pos_bound c (refblock_entries q) ltac:(lia)).
  assert (c + 1 ≤ Z.of_nat (length (refcount_table q)) * refblock_entries q) by nia. nia.
Qed.

Lemma filter_insert_drop {A} (P : A → Prop) `{∀ x, Decision (P x)} (l : list A) i x y :
  l !! i = Some x → P x → ¬ P y → len (filter P (<[i := y]> l)) = len (filter P l) - 1.
Proof.
  intros Hi Hx Hy. rewrite insert_take_drop by (by eapply lookup_lt_Some).
  rewrite <-(take_drop_middle l i x Hi) at 3. rewrite !filter_app, !filter_cons, decide_False, decide_True by done.
  rewrite !len_app, len_cons. lia.
Qed.

(** The block's cluster [h], zeroed and installed. *)
Lemma place_block q ti h fc :
  alloc_ok q → 0 ≤ ti < Z.of_nat (length (refcount_table q)) → rt_host q ti = 0 → 0 ≤ h → rc q h = 0 →
  (h + 1) * cluster_size q ≤ 2 ^ 56 → 0 ≤ scan_next fc →
  ∃ q', (_ ← drop_l2 (h * cluster_size q);
         q' ← dgets id;
         _ ← match refcount_table q' !! Z.to_nat ti with
             | None => dpure DPanic
             | Some _ => dmodify (λ q0, set_refcount_table_dirty true (set_refcount_table (<[Z.to_nat ti := h * cluster_size q]> (refcount_table q0)) q0))
             end;
         _ ← dmodify (set_free fc);
         write_file (h * cluster_size q) (replicate (Z.to_nat (cluster_size q)) 0)) q = (q', DOk tt) ∧
    phys q' ∧ keeps (λ c, c = h) nowhere q q' ∧ (∀ x, 0 ≤ x → rc q' x = rc q x) ∧
    refcount_table q' = <[Z.to_nat ti := h * cluster_size q]> (refcount_table q) ∧ rt_host q' ti = h * cluster_size q ∧
    (∀ tj, 0 ≤ tj → tj ≠ ti → rt_host q' tj = rt_host q tj) ∧ l1 q' = l1 q ∧ backing_image q' = backing_image q ∧ q_free q' = fc.
Proof.
  intros Ha Hti Hz Hh Hrc Hl Hsn. pose proof (ao_phys q Ha) as Hp. pose proof (phys_cs q Hp) as Hcs.
  assert (h ≠ 0) as Hh0 by (intros ->; by apply (ao_zero q Ha)).
  destruct (drop_l2_spec q h Hp Hh) as (Hdr & Hp1 & Hk1 & Hrc1 & Hnc1 & _).
  set (q1 := set_l2_cache (cache_remove (l2_cache q) (h * cluster_size q)) q) in *.
  pose proof (is_block_rc q h Ha Hh Hrc) as Hnb.
  set (zeros := replicate (Z.to_nat (cluster_size q)) 0).
  assert (len zeros = cluster_size q) as Hlz by (unfold zeros; rewrite len_replicate; lia).
  destruct (write_in_cluster q1 h (h * cluster_size q) zeros Hp1 Hh) as (Hw & Hp2 & Hk2 & Hrc2 & Hin2 & Ht2);
    try done; change (cluster_size q1) with (cluster_size q) in *; try lia.
  { apply Forall_replicate. unfold is_u8. lia. }
  set (q2 := set_file (write_all_at (q_file q1) (h * cluster_size q) zeros) q1) in *.
  rewrite Z.sub_diag, splice_whole in Ht2 by (rewrite len_slice; [lia|nia|rewrite len_extended by nia; lia]).
  assert (tables (q_file q2) (cluster_size q2) (h * cluster_size q2) = zeros) as Hzero.
  { change (cluster_size q2) with (cluster_size q). rewrite <-Ht2. unfold l2_table, view. change (l2_cache q2) with (l2_cache q1). by rewrite Hnc1. }
  destruct (install_block q2 ti h Hp2) as (Hp3 & Hh3 & Ho3 & Hrc3); try done; change (cluster_size q2) with (cluster_size q) in *; [lia| |].
  { unfold table_at. change (cluster_size q2) with (cluster_size q). split_and!; [nia|apply Z.mod_mul; lia|lia]. }
  set (q3 := set_refcount_table _ q2) in *.
  exists (set_free fc (set_refcount_table_dirty true q3)).
  assert (length (refcount_table q3) = length (refcount_table q)) as Hlen3 by (apply length_insert).
  split_and!; try done.
  - rewrite (dbind_ok _ _ _ _ _ Hdr). rewrite (dbind_ok _ _ q1 q1 q1) by done.
    change (refcount_table q1) with (refcount_table q). destruct (lookup_lt_is_Some_2 (refcount_table q) (Z.to_nat ti)) as [e He]; [lia|].
    rewrite He. unfold mbind, dstate_bind, dmodify, write_file, mbind, dstate_bind, dgets, id.
    change (q_read_only _) with (q_read_only q). rewrite (ph_rw q Hp). done.
  - apply phys_set_free; [|done]. destruct Hp3. by constructor.
  - assert (keeps (λ c, c = h) nowhere q2 (set_free fc (set_refcount_table_dirty true q3))) as Hk3.
    { constructor; try done.
      - intros tj Htj Hhj. destruct (decide (tj = ti)) as [->|Hne]; [done|]. by apply Ho3.
      - intros tj Htj Hzj Hnzj. destruct (decide (tj = ti)) as [->|Hne].
        + change (rt_host q3 ti / cluster_size q = h). rewrite Hh3. apply Z.div_mul. lia.
        + exfalso. apply Hnzj. change (rt_host q3 tj = 0). by rewrite Ho3.
      - by left.
      - split_and!; try done. intros Hu. apply Forall_insert; [done|]. change (is_u64 (h * cluster_size q)). unfold is_u64. nia. }
    eapply keeps_weaken; [| |exact (keeps_trans _ _ _ _ _ _ _ Hp (keeps_trans _ _ _ _ _ _ _ Hp Hk1 Hk2) Hk3)]; cbv beta; tauto.
  - intros x Hx. change (rc q3 x = rc q x). by rewrite Hrc3, Hrc2, Hrc1.
Qed.

(** A new block: its clusters but one are available. *)
Lemma room_block q q' ti h :
  phys q → phys q' → 0 ≤ ti < Z.of_nat (length (refcount_table q)) → rt_host q ti = 0 → blockless q' = blockless q - 1 → refblock_entries q' = refblock_entries q →
  (∀ c, 0 ≤ c → available q c → c = h ∨ available q' c) → (∀ c, c / refblock_entries q = ti → c = h ∨ available q' c) → room q ≤ room q'.
Proof.
  intros Hp Hp' Hti Hz Hb Hrbe Hold Hnew. destruct (rbe_width q Hp) as [_ H64]. unfold room. rewrite Hb, Hrbe. set (rbe := refblock_entries q) in *.
  set (l := filter (available q) _). set (l' := filter (available q') _).
  assert (∀ c, c ∈ seqZ (ti * rbe) rbe → 0 ≤ c ∧ c / rbe = ti) as Hr by (intros c Hc%elem_of_seqZ; split; [nia|]; symmetry; apply (Z.div_unique_pos _ _ _ (c - ti * rbe)); lia).
  assert (len (l ++ seqZ (ti * rbe) rbe) ≤ len (h :: l')) as Hle.
  { apply len_incl.
    - apply NoDup_app. split_and!; [apply available_nodup| |apply NoDup_seqZ]. intros c [_ [Hcov _]]%in_available [_ Hc]%Hr. apply Hcov. fold rbe. by rewrite Hc.
    - intros c [[Hc Hav]%in_available|[Hc Hd]%Hr]%elem_of_app; [destruct (Hold c Hc Hav) as [->|?]|destruct (Hnew c Hd) as [->|?]]; [left| |left|]; right; by apply available_in. }
  rewrite len_app, len_cons in Hle. unfold len at 2 in Hle. rewrite length_seqZ in Hle. lia.
Qed.

Lemma alloc_refblock_spec fuel q ti :
  alloc_ok q → 0 ≤ ti < Z.of_nat (length (refcount_table q)) → rt_host q ti = 0 →
  ∃ q', alloc_refblock (S (S (S fuel))) ti q = (q', DOk tt) ∧ allocs q q' ∧ room q ≤ room q' ∧ ∃ c, 0 ≤ c ∧ available q' c.
Proof.
  intros Ha Hti Hz. pose proof (ao_phys q Ha) as Hp. destruct (rbe_width q Hp) as [_ H64]. pose proof (phys_cs q Hp) as Hcs.
  set (rbe := refblock_entries q) in *.
  assert (∃ q1 run, (_ ← refill_free_map false; take_mapped_run 1) q = (q1, DOk run) ∧ quiet q q1 ∧ free_ok q1 ∧
    let h := default (ti * rbe) run in 0 ≤ h ∧ rc q h = 0 ∧ (covered q h ∨ h = ti * rbe) ∧ ∀ c, 0 ≤ c → available q c → c = h ∨ available q1 c)
    as (q1 & run & Hrun & Hq1 & Hf1 & Hh & Hrc & Hcov & Hav1).
  { destruct (refill_spec false q Hp (ao_free q Ha)) as (q1 & Hr & Hq1 & Hf1 & Hav & _). rewrite (dbind_ok _ _ _ _ _ Hr).
    destruct (take_one_spec q1) as [[_ ->]|(idx & s' & Hin & Hsub & Hbut & ->)].
    - exists q1, None. split_and!; try done. cbn. split_and!; [nia| |by right|auto]. apply rc_uncovered. fold rbe. by rewrite Z.div_mul by lia.
    - destruct (Hf1 idx Hin) as (Hi0 & Hic & Hirc). eexists _, (Some idx). split; [reflexivity|].
      assert (quiet q (set_free (mkFree s' (scan_next (q_free q1))) q1)) as Hq2.
      { eapply quiet_step_trans; [done|exact Hq1|]. apply quiet_set_free; [apply Hq1|apply (ph_scan _ (qu_phys _ _ Hq1))]. }
      rewrite (quiet_covered _ _ _ Hq1) in Hic. rewrite (qu_rc _ _ Hq1) in Hirc by done.
      split_and!; try done; [|cbn; split_and!; [done|done|by left|]].
      2: { intros c Hc (? & ? & Hor)%Hav; [|done]. destruct Hor as [[?|?]%Hbut|?]; [by left|right; split_and!; try done; by left|right; split_and!; try done; by right]. }
      apply (quiet_free_ok q); [done|]. intros c Hc%Hsub. destruct (Hf1 c Hc) as (? & Hcc & Hcr).
      rewrite (quiet_covered _ _ _ Hq1) in Hcc. by rewrite (qu_rc _ _ Hq1) in Hcr by done. }
  set (h := default (ti * rbe) run) in *. pose proof (quiet_alloc_ok q q1 Ha Hq1 Hf1) as Ha1.
  assert (h / rbe < Z.of_nat (length (refcount_table q))) as Hhr.
  { destruct Hcov as [Hc|Hc]; [apply (rt_host_in_range q); [apply Z.div_pos; lia|done]|]. rewrite Hc, Z.div_mul by lia. lia. }
  pose proof (covered_range q h Hp Hh Hhr) as Hrange.
  pose proof (ke_cs _ _ _ _ (qu_keeps _ _ Hq1)) as Hcs1.
  destruct (place_block q1 ti h (mkFree (free_set (q_free q1)) (Z.min (scan_next (q_free q1)) (ti * rbe))) Ha1)
    as (q2 & Hpl & Hp2 & Hk2 & Hrc2 & Hrt2 & Hht2 & Hho2 & Hl2 & Hb2 & Hfr2); rewrite ?Hcs1 in *.
  { by rewrite (qu_rt _ _ Hq1). }
  { by rewrite (quiet_host _ _ _ Hq1). }
  { done. }
  { by rewrite (qu_rc _ _ Hq1). }
  { done. }
  { simpl. pose proof (ph_scan _ (qu_phys _ _ Hq1)). nia. }
  assert (refblock_entries q2 = rbe) as Hrbe2.
  { unfold rbe, refblock_entries. rewrite (ke_cs _ _ _ _ Hk2), (ke_width _ _ _ _ Hk2). fold (refblock_entries q1). by apply quiet_rbe. }
  assert (h ≠ 0) as Hh0 by (intros He; rewrite He in Hrc; by apply (ao_zero q Ha)).
  assert (∀ tj, 0 ≤ tj → rt_host q tj ≠ 0 → rt_host q2 tj = rt_host q tj) as Hold.
  { intros tj Htj Hhj. rewrite <-(quiet_host _ _ tj Hq1). apply Hho2; [done|]. intros ->. done. }
  assert (rt_host q2 (h / refblock_entries q2) ≠ 0) as Hcov2.
  { rewrite Hrbe2. destruct Hcov as [Hc|Hc]; [rewrite Hold; [done|apply Z.div_pos; lia|done]|]. rewrite Hc, Z.div_mul by lia.
    rewrite Hht2. nia. }
  pose proof (ke_width _ _ _ _ Hk2) as Hw2. destruct (width_cases _ (ph_width q2 Hp2)) as (Hw0 & _).
  destruct (set_refcount_spec fuel q2 h 1 Hp2 Hh Hcov2) as (q3 & Hre & Hset).
  { assert (2 ^ 1 ≤ 2 ^ refcount_bits q2) by (apply Z.pow_le_mono_r; lia). lia. }
  simpl (1 =? 0) in Hset. cbv iota in Hset. rewrite Hfr2 in Hset. cbn [free_set scan_next] in Hset.
  set (q' := set_free _ q3) in Hset. exists q'.
  assert (∀ x, 0 ≤ x → rc q' x = if x =? h then 1 else rc q x) as Hrc'.
  { intros x Hx. change (rc q3 x = if x =? h then 1 else rc q x). rewrite (re_rc _ _ _ _ Hre x Hx), Hrc2, (qu_rc _ _ Hq1) by done. done. }
  assert (∀ tj, rt_host q' tj = rt_host q2 tj) as Hhost' by (intros; unfold rt_host; by rewrite <-(re_rt _ _ _ _ Hre)).
  assert (refblock_entries q' = rbe) as Hrbe'.
  { rewrite <-Hrbe2. change (refblock_entries q3 = refblock_entries q2). unfold refblock_entries.
    by rewrite (ke_cs _ _ _ _ (re_keeps _ _ _ _ Hre)), (ke_width _ _ _ _ (re_keeps _ _ _ _ Hre)). }
  assert (phys q') as Hp' by (apply phys_set_free; [apply Hre|simpl; pose proof (ph_scan _ (qu_phys _ _ Hq1)); nia]).
  assert (cluster_size q' = cluster_size q) as Hcs'.
  { change (cluster_size q3 = cluster_size q). by rewrite (ke_cs _ _ _ _ (re_keeps _ _ _ _ Hre)), (ke_cs _ _ _ _ Hk2). }
  assert (alloc_ok q') as Ha'.
  { constructor; [done| | |].
    - intros c Hc. simpl in Hc. apply elem_of_difference in Hc as [Hc Hch]. rewrite elem_of_singleton in Hch.
      destruct (Hf1 c Hc) as (Hc0 & Hcc & Hcr). rewrite (quiet_covered _ _ _ Hq1) in Hcc. rewrite (qu_rc _ _ Hq1) in Hcr by done.
      split_and!; [done| |rewrite Hrc' by done; by rewrite (proj2 (Z.eqb_neq _ _))].
      unfold covered. rewrite Hrbe', Hhost', Hold; [done|apply Z.div_pos; lia|done].
    - intros tj Htj. rewrite Hhost', Hcs'. intros Hhj. destruct (decide (tj = ti)) as [->|Hne].
      + rewrite Hht2, Z.div_mul, Hrc', Z.eqb_refl by lia. lia.
      + rewrite Hho2, (quiet_host _ _ _ Hq1) in Hhj |- * by done. pose proof (ao_self q Ha tj Htj Hhj) as Hs.
        rewrite Hrc'; [|destruct (ph_rt q Hp tj Htj Hhj) as (? & _); apply Z.div_pos; lia].
        destruct (Z.eqb_spec (rt_host q tj / cluster_size q) h); [lia|done].
    - rewrite Hrc' by lia. rewrite (proj2 (Z.eqb_neq _ _)) by done. apply Ha. }
  assert (∀ c, 0 ≤ c → c ≠ h → covered q' c → rc q c = 0 → c ∈ free_set (q_free q1) ∨ scan_next (q_free q1) ≤ c ∨ ti * rbe ≤ c → available q' c) as Hav'.
  { intros c Hc Hne Hcc Hcr Hor. split; [done|]. split; [rewrite Hrc' by done; by rewrite (proj2 (Z.eqb_neq _ _))|]. cbn [q_free q' set_free free_set scan_next].
    rewrite elem_of_difference, not_elem_of_singleton. destruct Hor as [?|[?|?]]; [by left|right; lia|right; lia]. }
  assert (∀ c, c / rbe = ti → c = h ∨ available q' c) as Hnew.
  { intros c Hd. destruct (decide (c = h)) as [?|Hne]; [by left|right]. pose proof (Z.div_mod c rbe ltac:(lia)). pose proof (Z.mod_pos_bound c rbe ltac:(lia)).
    apply Hav'; [nia|done|unfold covered; rewrite Hrbe', Hd, Hhost', Hht2; nia|apply rc_uncovered; fold rbe; by rewrite Hd|right; right; nia]. }
  split_and!; [| | |].
  - cbn [alloc_refblock]. rewrite (dbind_ok _ _ q q q) by done. fold rbe.
    rewrite (assoc_bind q (refill_free_map false) (λ _, take_mapped_run 1)), (dbind_ok _ _ _ _ _ Hrun). fold h.
    unfold mbind, dstate_bind in Hpl |- *. unfold drop_l2, dgets, dmodify in Hpl |- *. simpl in Hpl |- *.
    destruct (refcount_table q1 !! Z.to_nat ti); [|done]. simpl in Hpl |- *.
    match goal with |- context [write_file ?a ?b ?s] => assert (write_file a b s = (q2, DOk tt)) as Hw by exact Hpl; rewrite Hw end.
    exact Hset.
  - constructor; [done| |intros x Hx Hne; rewrite Hrc' by done; by rewrite (proj2 (Z.eqb_neq _ _)) by congruence| | |intros x Hx; rewrite Hrc' by done; case_match; lia].
    + assert (keeps (λ c, c = h) nowhere q q') as Hk'.
      { eapply keeps_trans_nowhere; [done| |exact (keeps_trans_nowhere _ _ _ _ _ Hp2 (re_keeps _ _ _ _ Hre) (keeps_set_free nowhere nowhere q3 _))].
        by eapply keeps_nowhere_trans; [|apply (qu_keeps _ _ Hq1)|]. }
      eapply keeps_weaken; [| |exact Hk']; [|done]. by intros c ->.
    + change (l1 q3 = l1 q). by rewrite (re_l1 _ _ _ _ Hre), Hl2, (qu_l1 _ _ Hq1).
    + change (backing_image q3 = backing_image q). by rewrite (re_backing _ _ _ _ Hre), Hb2, (qu_backing _ _ Hq1).
  - apply (room_block q q' ti h); try done.
    + unfold blockless. change (refcount_table q') with (refcount_table q3). rewrite (re_rt _ _ _ _ Hre), Hrt2, (qu_rt _ _ Hq1).
      unfold rt_host in Hz. destruct (refcount_table q !! Z.to_nat ti) as [e|] eqn:He; [|apply lookup_ge_None in He; lia].
      apply (filter_insert_drop _ _ _ e); [done|done|]. rewrite cluster_offset; [nia|done|done|done].
    + intros c Hc Hav. destruct (decide (c = h)) as [?|Hne]; [by left|]. destruct (Hav1 c Hc Hav) as [?|(Hcc & Hcr & Hor)]; [by left|right].
      rewrite (quiet_covered _ _ _ Hq1) in Hcc. rewrite (qu_rc _ _ Hq1) in Hcr by done. apply Hav'; try done; [|destruct Hor; auto].
      unfold covered. rewrite Hrbe', Hhost', Hold; [done|apply Z.div_pos; lia|done].
  - destruct (Hnew (ti * rbe + 1)) as [He|?]; [symmetry; apply (Z.div_unique_pos _ _ _ 1); lia| |exists (ti * rbe + 1); split; [nia|done]]. exfalso.
    assert (h / rbe = ti) as Hd by (rewrite <-He; symmetry; apply (Z.div_unique_pos _ _ _ 1); lia). destruct Hcov as [Hc|Hc]; [|lia]. apply Hc. fold rbe. by rewrite Hd.
Qed.

(** One cluster taken from the set. *)
Lemma take_hit to_end q q1 idx s' :
  phys q → refilled to_end q q1 → idx ∈ free_set (q_free q1) → s' ⊆ free_set (q_free q1) → (∀ c, c ∈ free_set (q_free q1) → c = idx ∨ c ∈ s') →
  let q' := set_free (mkFree s' (scan_next (q_free q1))) q1 in
  quiet q q' ∧ free_ok q' ∧ 0 ≤ idx ∧ covered q' idx ∧ rc q' idx = 0 ∧ rc q idx = 0 ∧ ∀ c, 0 ≤ c → available q c → c = idx ∨ available q' c.
Proof.
  intros Hp (Hq1 & Hf1 & Hav & _) Hin Hsub Hbut q'. destruct (Hf1 idx Hin) as (Hi0 & Hic & Hirc).
  assert (quiet q q') as Hq' by (eapply quiet_step_trans; [done|exact Hq1|]; apply quiet_set_free; [apply Hq1|apply (ph_scan _ (qu_phys _ _ Hq1))]).
  split_and!; try done; [intros c Hc%Hsub; by apply Hf1|by rewrite (qu_rc _ _ Hq1) in Hirc|].
  intros c Hc (? & ? & Hor)%Hav; [|done]. destruct Hor as [[?|?]%Hbut|?]; [by left|right; split_and!; try done; by left|right; split_and!; try done; by right].
Qed.
Lemma find_free_hit fuel q :
  alloc_ok q → (∃ c, 0 ≤ c ∧ available q c) →
  ∃ q' idx, find_free (S fuel) 1 q = (q', DOk idx) ∧ quiet q q' ∧ free_ok q' ∧ 0 ≤ idx ∧ covered q' idx ∧ rc q' idx = 0 ∧ rc q idx = 0 ∧
    ∀ c, 0 ≤ c → available q c → c = idx ∨ available q' c.
Proof.
  intros Ha Hc. pose proof (ao_phys q Ha) as Hp. destruct (refill_spec false q Hp (ao_free q Ha)) as (q1 & Hr & Hrf). pose proof Hrf as (_ & _ & _ & Hne & _).
  specialize (Hne Hc). destruct (take_one_spec q1) as [[He _]|(idx & s' & Hin & Hsub & Hbut & Ht)]; [done|].
  eexists _, idx. split; [cbn [find_free]; rewrite (dbind_ok _ _ _ _ _ Hr), (dbind_ok _ _ _ _ _ Ht); reflexivity|]. by apply (take_hit false q q1).
Qed.

Lemma position_spec q : 1 ≤ blockless q → ∃ ti, position (refcount_table q) = Some ti ∧ 0 ≤ ti < Z.of_nat (length (refcount_table q)) ∧ rt_host q ti = 0.
Proof.
  intros Hr. unfold position, blockless in *. destruct (list_find _ (refcount_table q)) as [[i e]|] eqn:E.
  - apply list_find_Some in E as (He & Hz & _). exists (Z.of_nat i). simpl. split_and!; [done|lia| |].
    + apply lookup_lt_Some in He. lia.
    + unfold rt_host. by rewrite Nat2Z.id, He.
  - apply list_find_None in E. exfalso. destruct (filter _ (refcount_table q)) as [|e l] eqn:F; [by compute in Hr|].
    assert (e ∈ filter (λ e, Z.land e OFFSET_MASK = 0) (refcount_table q)) as He by (rewrite F; left).
    apply list_elem_of_filter in He as [Hz He]. rewrite Forall_forall in E. by apply (E e He).
Qed.
Lemma quiet_room q q' : quiet q q' → q_free q' = q_free q → room q ≤ room q'.
Proof.
  intros Hq Hf. apply room_mono; [apply Hq|exact (qu_rt _ _ Hq)|by apply quiet_rbe|]. intros c Hc (? & ? & Hor). apply (quiet_available q); try done. by rewrite Hf.
Qed.
Lemma room_same q q' :
  phys q' → refcount_table q' = refcount_table q → cluster_size q' = cluster_size q → refcount_bits q' = refcount_bits q → q_free q' = q_free q →
  (∀ x, 0 ≤ x → rc q' x = rc q x) → room q ≤ room q'.
Proof.
  intros Hp Hrt Hcs Hw Hf Hrc. assert (refblock_entries q' = refblock_entries q) as Hrbe by (unfold refblock_entries; by rewrite Hcs, Hw). apply room_mono; try done.
  intros c Hc (? & ? & ?). unfold available, covered, rt_host. by rewrite Hrbe, Hrt, Hf, Hrc.
Qed.
Lemma tstep_room k tab q q' : tstep k tab q q' → room q ≤ room q'.
Proof. intros []. by apply room_same. Qed.
Lemma refilled_room to_end q q' : refilled to_end q q' → room q ≤ room q'.
Proof. intros (Hq & _ & Hav & _). apply room_mono; [apply Hq|exact (qu_rt _ _ Hq)|by apply quiet_rbe|done]. Qed.

(** The cluster found is all that a state [qm] with as much room loses. *)
Definition found_free q q' (idx : Z) : Prop :=
  allocs q q' ∧ 0 ≤ idx ∧ covered q' idx ∧ rc q' idx = 0 ∧ rc q idx = 0 ∧
  ∃ qm, room q ≤ room qm ∧ refcount_table q' = refcount_table qm ∧ refblock_entries q' = refblock_entries qm ∧
    ∀ c, 0 ≤ c → available qm c → c = idx ∨ available q' c.
Lemma found_free_hit q q' idx :
  alloc_ok q → quiet q q' → free_ok q' → 0 ≤ idx → covered q' idx → rc q' idx = 0 → rc q idx = 0 → (∀ c, 0 ≤ c → available q c → c = idx ∨ available q' c) → found_free q q' idx.
Proof. intros Ha Hq Hf Hi Hc Hr Hr0 Hav. split_and!; try done; [by apply quiet_allocs|]. exists q. split_and!; [done|exact (qu_rt _ _ Hq)|by apply quiet_rbe|done]. Qed.

Lemma find_free_spec fuel q :
  alloc_ok q → 1 ≤ room q → ∃ q' idx, find_free (S (S (S (S (S fuel))))) 1 q = (q', DOk idx) ∧ found_free q q' idx.
Proof.
  intros Ha Hroom. pose proof (ao_phys q Ha) as Hp. destruct (refill_spec false q Hp (ao_free q Ha)) as (q1 & Hr1 & Hrf1). pose proof Hrf1 as (Hq1 & Hf1 & _).
  pose proof (quiet_alloc_ok q q1 Ha Hq1 Hf1) as Ha1. cbn [find_free]. change (Z.max 1 1) with 1. rewrite (dbind_ok _ _ _ _ _ Hr1).
  destruct (take_one_spec q1) as [[He1 Ht1]|(idx & s' & Hin & Hsub & Hbut & Ht1)]; rewrite (dbind_ok _ _ _ _ _ Ht1).
  2: { eexists _, idx. split; [reflexivity|]. apply found_free_hit; try done; by apply (take_hit false q q1 idx s'). }
  destruct (refill_spec true q1 (ao_phys _ Ha1) Hf1) as (q2 & Hr2 & Hrf2). rewrite (dbind_ok _ _ _ _ _ Hr2).
  pose proof Hrf2 as (Hq2 & Hf2 & _ & Hne2 & _).
  assert (refilled true q q2) as Hrf12 by (apply (refilled_trans true q q1); try done; apply Hrf1).
  assert (quiet q q2) as Hq12 by apply Hrf12. pose proof (quiet_alloc_ok q q2 Ha Hq12 Hf2) as Ha2.
  destruct (take_one_spec q2) as [[He2 Ht2]|(idx & s' & Hin & Hsub & Hbut & Ht2)]; rewrite (dbind_ok _ _ _ _ _ Ht2).
  2: { eexists _, idx. split; [reflexivity|]. apply found_free_hit; try done; by apply (take_hit true q q2 idx s'). }
  pose proof (refilled_room _ _ _ Hrf12) as Hroom2.
  assert (1 ≤ blockless q2) as Hbl.
  { destruct (room_cases q2 (ao_phys _ Ha2) ltac:(lia)) as [(c & Hc & Hcov & Hrc & Hor)|?]; [|done]. exfalso. rewrite He2 in Hor. destruct Hor as [?|Hge]; [set_solver|].
    pose proof (covered_span q2 c (ao_phys _ Ha2) Hc Hcov) as Hlt. destruct Hrf12 as (_ & _ & _ & _ & Hsn). specialize (Hsn eq_refl).
    unfold table_span in *. rewrite (qu_rt _ _ Hq12), (quiet_rbe _ _ Hq12) in Hlt. lia. }
  destruct (position_spec q2 Hbl) as (ti & Hpos & Hti & Hz).
  destruct (alloc_refblock_spec fuel q2 ti Ha2 Hti Hz) as (q3 & Hal & Hals & Hroom3 & Hav3).
  rewrite (dbind_ok _ _ q2 q3 tt).
  2: { cbn [grow_coverage]. rewrite (dbind_ok _ _ q2 q2 q2) by done. rewrite Hpos. exact Hal. }
  destruct (find_free_hit (S (S (S fuel))) q3 (al_ok _ _ Hals) Hav3) as (q4 & idx & Hff & Hq4 & Hf4 & Hi0 & Hicov & Hirc4 & Hirc3 & Hav4).
  exists q4, idx. split; [exact Hff|]. pose proof (quiet_allocs q3 q4 (al_ok _ _ Hals) Hq4 Hf4) as Hals4.
  assert (allocs q q4) as Hall by (eapply allocs_trans; [done|by apply quiet_allocs|]; by eapply allocs_trans).
  split_and!; try done.
  - destruct (decide (rc q idx = 0)) as [?|Hne]; [done|]. pose proof (al_rc _ _ Hall idx Hi0 Hne) as Hc. congruence.
  - exists q3. split_and!; [lia|exact (qu_rt _ _ Hq4)|by apply quiet_rbe|done].
Qed.

(** A new cluster: it was free, it is referenced once now, and it has no
    stale cached table. *)
(** The cluster [h] was free and is now allocated. *)
Definition took q q' (h : Z) : Prop :=
  allocs q q' ∧ 0 < h ∧ rc q h = 0 ∧ rc q' h = 1 ∧ room q - 1 ≤ room q' ∧
  (h + 1) * cluster_size q ≤ 2 ^ 56 ∧ ¬ is_block q' (h * cluster_size q) ∧ c_map (l2_cache q') !! (h * cluster_size q) = None.
Lemma take_cluster f1 f2 q :
  alloc_ok q → 1 ≤ room q →
  ∃ q1 q2 q' h, find_free (S (S (S (S (S f1))))) 1 q = (q1, DOk h) ∧ cluster_size q1 = cluster_size q ∧ drop_l2 (h * cluster_size q) q1 = (q2, DOk tt) ∧
    set_cluster_refcount (S (S f2)) h 1 q2 = (q', DOk tt) ∧ took q q' h.
Proof.
  intros Ha Hroom. destruct (find_free_spec f1 q Ha Hroom) as (q1 & h & Hff & Hals & Hh & Hcov & Hrc1 & Hrc & qm & Hroom1 & Hrtm & Hrbm & Havm).
  pose proof (al_ok _ _ Hals) as Ha1. pose proof (ao_phys _ Ha1) as Hp1. pose proof (phys_cs q1 Hp1) as Hcs1.
  pose proof (ke_cs _ _ _ _ (al_keeps _ _ Hals)) as Hcs. destruct (rbe_width q1 Hp1) as [_ H64].
  assert (h ≠ 0) as Hh0 by (intros ->; by apply (ao_zero _ Ha1)).
  assert (h / refblock_entries q1 < Z.of_nat (length (refcount_table q1))) as Hlt by (apply rt_host_in_range; [apply Z.div_pos; lia|done]).
  pose proof (covered_range q1 h Hp1 Hh Hlt) as Hrange. pose proof (is_block_rc q1 h Ha1 Hh Hrc1) as Hnb.
  destruct (drop_l2_spec q1 h Hp1 Hh) as (Hdr & Hp2 & Hk2 & Hrc2 & Hnc2 & Hsub2).
  set (q2 := set_l2_cache (cache_remove (l2_cache q1) (h * cluster_size q1)) q1) in *.
  destruct (width_cases _ (ph_width q2 Hp2)) as (Hw0 & _).
  destruct (set_refcount_spec f2 q2 h 1 Hp2 Hh Hcov) as (q3 & Hre & Hset).
  { assert (2 ^ 1 ≤ 2 ^ refcount_bits q2) by (apply Z.pow_le_mono_r; lia). lia. }
  simpl (1 =? 0) in Hset. cbv iota in Hset. set (q' := set_free _ q3) in Hset.
  assert (∀ x, 0 ≤ x → rc q' x = if x =? h then 1 else rc q1 x) as Hrc'.
  { intros x Hx. change (rc q3 x = if x =? h then 1 else rc q1 x). by rewrite (re_rc _ _ _ _ Hre x Hx), Hrc2. }
  assert (∀ tj, rt_host q' tj = rt_host q1 tj) as Hhost'.
  { intros tj. unfold rt_host. change (refcount_table q') with (refcount_table q3). by rewrite (re_rt _ _ _ _ Hre). }
  pose proof (re_keeps _ _ _ _ Hre) as Hk3.
  assert (cluster_size q' = cluster_size q1) as Hcs' by (change (cluster_size q3 = cluster_size q2); apply Hk3).
  assert (refblock_entries q' = refblock_entries q1) as Hrbe'.
  { change (refblock_entries q3 = refblock_entries q2). unfold refblock_entries. by rewrite (ke_cs _ _ _ _ Hk3), (ke_width _ _ _ _ Hk3). }
  assert (alloc_ok q') as Ha'.
  { constructor.
    - apply phys_set_free; [apply Hre|apply (ph_scan _ Hp2)].
    - intros c Hc. simpl in Hc. apply elem_of_difference in Hc as [Hc Hch]. rewrite elem_of_singleton in Hch.
      destruct (ao_free _ Ha1 c Hc) as (Hc0 & Hcc & Hcr). unfold covered. rewrite Hrbe', Hhost', Hrc' by done.
      by rewrite (proj2 (Z.eqb_neq _ _)).
    - intros tj Htj. rewrite Hhost', Hcs'. intros Hhj. pose proof (ao_self _ Ha1 tj Htj Hhj) as Hs.
      rewrite Hrc'; [|destruct (ph_rt q1 Hp1 tj Htj Hhj) as (? & _); apply Z.div_pos; lia]. by destruct (_ =? h).
    - rewrite Hrc' by lia. rewrite (proj2 (Z.eqb_neq _ _)) by done. apply Ha1. }
  exists q1, q2, q', h. unfold took. rewrite <-Hcs. split_and!; try done; [|lia|by rewrite Hrc', Z.eqb_refl| | |].
  - eapply allocs_trans; [done|exact Hals|]. constructor; [done| | |exact (re_l1 _ _ _ _ Hre)|exact (re_backing _ _ _ _ Hre)|intros x Hx; rewrite Hrc' by done; case_match; lia].
    + eapply keeps_weaken; [| |exact (keeps_trans_nowhere _ _ _ _ _ Hp1 Hk2 (keeps_trans_nowhere _ _ _ _ _ Hp2 Hk3 (keeps_set_free nowhere nowhere q3 _)))]; [|done].
      by intros c ->.
    + intros x Hx Hne. rewrite Hrc' by done. by rewrite (proj2 (Z.eqb_neq _ _)) by congruence.
  - assert (room qm - 1 ≤ room q'); [|lia]. apply (room_but h); [apply Ha'|by rewrite <-Hrtm; exact (re_rt _ _ _ _ Hre)|by rewrite Hrbe'|].
    intros c Hc Hav. destruct (decide (c = h)) as [?|Hne]; [by left|right]. destruct (Havm c Hc Hav) as [?|(? & ? & Hor)]; [done|]. split_and!.
    + unfold covered. by rewrite Hrbe', Hhost'.
    + rewrite Hrc' by done. by rewrite (proj2 (Z.eqb_neq _ _)).
    + cbn [q_free q' set_free free_set scan_next]. rewrite elem_of_difference, not_elem_of_singleton. destruct Hor; auto.
  - intros (tj & Htj & Hhj & Hne). apply Hnb. exists tj. by rewrite <-Hhost'.
  - change (l2_cache q') with (l2_cache q3). rewrite (re_l2 _ _ _ _ Hre). exact Hnc2.
Qed.

Lemma alloc_cluster_spec q : alloc_ok q → 1 ≤ room q → ∃ q' h, alloc_cluster q = (q', DOk (h * cluster_size q)) ∧ took q q' h.
Proof.
  intros Ha Hroom. destruct (take_cluster 59 62 q Ha Hroom) as (q1 & q2 & q' & h & Hff & Hcs & Hdr & Hset & Htk). exists q', h. split; [|done].
  unfold alloc_cluster. change ALLOC_FUEL with (S (S (S (S (S 59))))) at 1. rewrite (dbind_ok _ _ _ _ _ Hff), (dbind_ok _ _ q1 q1 q1) by done. unfold id.
  rewrite Hcs, (dbind_ok _ _ _ _ _ Hdr). unfold set_refcount. change ALLOC_FUEL with (S (S 62)). by rewrite (dbind_ok _ _ _ _ _ Hset).
Qed.
(** A run of one. *)
Lemma alloc_one_fuel f q :
  alloc_ok q → 1 ≤ room q → ∃ q' h, alloc_clusters_contiguous (S (S (S (S (S (S f)))))) 1 q = (q', DOk (h * cluster_size q)) ∧ took q q' h.
Proof.
  intros Ha Hroom. destruct (take_cluster f (S (S (S f))) q Ha Hroom) as (q1 & q2 & q' & h & Hff & Hcs & Hdr & Hset & Htk). exists q', h. split; [|done].
  remember (S (S (S (S (S f))))) as g. cbn [alloc_clusters_contiguous]. rewrite (dbind_ok _ _ _ _ _ Hff), (dbind_ok _ _ q1 q1 q1) by done. unfold id.
  rewrite Hcs. rewrite (dbind_ok _ _ _ q' tt); [done|]. rewrite seqZ_cons by lia. change (seqZ (Z.succ h) (Z.pred 1)) with (@nil Z). cbn [dfor].
  rewrite (dbind_ok _ _ q1 q' tt); [done|]. rewrite (dbind_ok _ _ _ _ _ Hdr). exact Hset.
Qed.
Lemma alloc_one_spec q : alloc_ok q → 1 ≤ room q → ∃ q' h, alloc_clusters_contiguous ALLOC_FUEL 1 q = (q', DOk (h * cluster_size q)) ∧ took q q' h.
Proof. exact (alloc_one_fuel 58 q). Qed.
End free.
