(* ===== verification/Qcow2Write.v ===== *)
(** * qcow2 images: writing ([hv/crates/vmlab-disk/src/qcow2/mod.rs])

    Copy-on-write of shared tables and clusters, guest writes, discards,
    growing the image, and the flush of everything that waits in memory. *)

From S2P Require Import Prelude TableCache Disk Qcow2 Qcow2Alloc.

Section write.
Context {B : Type} `{DiskImage B} `{Inflate}.
Abbreviation img := (Qcow2Image B).

Definition check_writable : dstate img unit :=
  q ← dgets id; if q_read_only q then dfail ReadOnly else mret tt.

(** [self.l1[l1_index] = e; self.l1_dirty = true]. *)
Definition store_l1 (l1_index : nat) (e : Z) : dstate img unit :=
  dmodify (λ q, set_l1_dirty true (set_l1 (<[l1_index := e]> (l1 q)) q)).

Definition cow_l2_if_shared (l1_index : nat) : dstate img Z :=
  q ← dgets id;
  match l1 q !! l1_index with
  | None => dpure DPanic
  | Some l1e =>
      let l2_host := Z.land l1e OFFSET_MASK in
      if l2_host =? 0 then mret 0
      else
        rc ← get_refcount (l2_host / cluster_size q);
        if rc <=? 1 then mret l2_host
        else
          content ← read_cluster_via_cache l2_host;
          new_l2 ← alloc_cluster;
          _ ← write_file new_l2 content;
          _ ← set_refcount (new_l2 / cluster_size q) 1;
          _ ← dec_refcount (l2_host / cluster_size q);
          _ ← store_l1 l1_index (Z.lor new_l2 COPIED_BIT);
          mret new_l2
  end.

(** The L2 table a write goes through: a fresh one where there is none, the
    active layer's own where it was shared. *)
Definition l2_for_write (l1_index : nat) (l1e : Z) : dstate img Z :=
  if Z.land l1e OFFSET_MASK =? 0 then
    l2 ← alloc_cluster;
    q ← dgets id;
    _ ← write_file l2 (replicate (Z.to_nat (cluster_size q)) 0);
    _ ← set_refcount (l2 / cluster_size q) 1;
    _ ← store_l1 l1_index (Z.lor l2 COPIED_BIT);
    _ ← dmodify (set_header_dirty true);
    mret l2
  else cow_l2_if_shared l1_index.

(** Whether a data cluster may be written in place. *)
Definition cluster_owned (entry : Z) : dstate img bool :=
  if negb (Z.land entry COPIED_BIT =? 0) then mret true
  else
    q ← dgets id;
    rc ← get_refcount (Z.land entry OFFSET_MASK / cluster_size q);
    mret (rc =? 1).

(** What a fresh cluster starts from when it is not written whole. *)
Definition cluster_base (entry cluster_off : Z) : dstate img bytes :=
  q ← dgets id;
  let zeros := replicate (Z.to_nat (cluster_size q)) 0 in
  if negb (Z.land entry COMPRESSED_BIT =? 0) then read_compressed_cluster entry zeros
  else if negb (Z.land entry ZERO_BIT =? 0) then mret zeros
  else if negb (Z.land entry OFFSET_MASK =? 0) then read_file (Z.land entry OFFSET_MASK) (cluster_size q)
  else read_unallocated cluster_off (cluster_size q).

(** One cluster of a guest write: [part] goes to [in_off] of the guest
    cluster at [cluster_off]. *)
Definition write_cluster (cluster_off in_off : Z) (part : bytes) : dstate img unit :=
  q ← dgets id;
  let cs := cluster_size q in
  let l1_index := Z.to_nat (l1_index_of q cluster_off) in
  let l2_index := l2_index_of q cluster_off in
  match l1 q !! l1_index with
  | None => dfail Unsupported
  | Some l1e =>
      l2_host ← l2_for_write l1_index l1e;
      entry ← l2_entry l2_host l2_index;
      let host := Z.land entry OFFSET_MASK in
      let compressed := negb (Z.land entry COMPRESSED_BIT =? 0) in
      owned ← (if negb compressed && negb (host =? 0) then cluster_owned entry else mret false);
      if (owned : bool) then
        _ ← (if Z.land entry COPIED_BIT =? 0 then set_l2_entry l2_host l2_index (Z.lor entry COPIED_BIT) else mret tt);
        write_file (host + in_off) part
      else
        let full := (in_off =? 0) && (len part =? cs) in
        cluster ← (if full then mret (replicate (Z.to_nat cs) 0) else cluster_base entry cluster_off);
        cluster ← dpure (of_outcome (copy_at cluster in_off part));
        new_host ← alloc_cluster;
        _ ← write_file new_host cluster;
        _ ← set_refcount (new_host / cs) 1;
        _ ← (if compressed then adjust_compressed_refcounts entry (-1)
             else if negb (host =? 0) then dec_refcount (host / cs) else mret tt);
        set_l2_entry l2_host l2_index (Z.lor new_host COPIED_BIT)
  end.

(** [abs = offset + done]; [rest] is what is left of the buffer. *)
Fixpoint write_bytes (fuel : nat) (abs : Z) (rest : bytes) : dstate img unit :=
  if len rest =? 0 then mret tt else
  match fuel with
  | O => dpure DFuel
  | S fuel =>
      q ← dgets id;
      let cluster_off := Z.land abs (Z.lxor U64_MAX (cluster_size q - 1)) in
      let in_off := abs mod cluster_size q in
      let n := Z.min (cluster_size q - in_off) (len rest) in
      _ ← write_cluster cluster_off in_off (slice rest 0 n);
      write_bytes fuel (abs + n) (drop (Z.to_nat n) rest)
  end.

Definition qcow2_write_at (offset : Z) (b : bytes) : dstate img unit :=
  _ ← check_writable;
  q ← dgets id;
  if U64_MAX <? offset + len b then dfail Unsupported
  else if q_size q <? offset + len b then dfail Unsupported
  else write_bytes (length b) offset b.

(** ** Discarding *)

Definition discard_cluster (cluster : Z) : dstate img unit :=
  q ← dgets id;
  let cluster_off := cluster * cluster_size q in
  let l1_index := Z.to_nat (l1_index_of q cluster_off) in
  let l2_index := l2_index_of q cluster_off in
  if bool_decide (l1_index < length (l1 q))%nat then
    l2_host ← cow_l2_if_shared l1_index;
    if l2_host =? 0 then mret tt
    else
      entry ← l2_entry l2_host l2_index;
      _ ← (if negb (Z.land entry COMPRESSED_BIT =? 0) then adjust_compressed_refcounts entry (-1)
           else
             let host := Z.land entry OFFSET_MASK in
             if host =? 0 then mret tt else dec_refcount (host / cluster_size q));
      set_l2_entry l2_host l2_index 0
  else mret tt.
Definition qcow2_discard (offset n : Z) : dstate img unit :=
  _ ← check_writable;
  q ← dgets id;
  if U64_MAX <? offset + n then dfail Unsupported
  else if q_size q <? offset + n then dfail Unsupported
  else
    let first := div_ceil offset (cluster_size q) in
    let last := (offset + n) / cluster_size q in
    dfor (seqZ first (last - first)) discard_cluster.

(** ** Growing *)

Definition ensure_l1_size (needed : Z) : dstate img unit :=
  q ← dgets id;
  if needed <=? l1_size q then
    if needed <? Z.of_nat (length (l1 q)) then
      let start := needed * 8 in
      let end_ := Z.of_nat (length (l1 q)) * 8 in
      _ ← write_file (l1_table_offset q + start) (replicate (Z.to_nat (end_ - start)) 0);
      dmodify (λ q, set_header_dirty true (set_l1_dirty true (set_l1_size needed (set_l1 (take (Z.to_nat needed) (l1 q)) q))))
    else mret tt
  else
    let cs := cluster_size q in
    let old_clusters := Z.max (div_ceil (l1_size q * 8) cs) 1 in
    let new_clusters := Z.max (div_ceil (needed * 8) cs) 1 in
    let n := Z.to_nat needed in
    _ ← dmodify (λ q, set_l1 (take n (l1 q) ++ replicate (n - length (l1 q)) 0) q);
    _ ← (if old_clusters <? new_clusters then
           new_offset ← alloc_clusters_contiguous ALLOC_FUEL new_clusters;
           q ← dgets id;
           region ← dpure (of_outcome (copy_at (replicate (Z.to_nat (new_clusters * cs)) 0) 0 (table_bytes (l1 q))));
           _ ← write_file new_offset region;
           _ ← dfor (seqZ 0 new_clusters) (λ idx, set_refcount (new_offset / cs + idx) 1);
           _ ← dfor (seqZ 0 old_clusters) (λ idx, dec_refcount (l1_table_offset q / cs + idx));
           dmodify (set_l1_table_offset new_offset)
         else
           write_file (l1_table_offset q + l1_size q * 8) (replicate (Z.to_nat (needed * 8 - l1_size q * 8)) 0));
    dmodify (λ q, set_header_dirty true (set_l1_dirty true (set_l1_size needed q))).

(** [end_offset - 1] underflows at zero; the callers' offsets are larger. *)
Definition ensure_l1_covers (end_offset : Z) : dstate img unit :=
  q ← dgets id;
  if end_offset =? 0 then dpure DPanic
  else
    let needed := wrap32 (Z.max (l1_index_of q (end_offset - 1) + 1) 1) in
    if needed <=? l1_size q then mret tt else ensure_l1_size needed.

Definition resize_grow (new_size : Z) : dstate img unit :=
  _ ← check_writable;
  q ← dgets id;
  if new_size <? q_size q then dfail Unsupported
  else if new_size =? q_size q then mret tt
  else
    _ ← ensure_l1_covers new_size;
    dmodify (λ q, set_header_dirty true (set_size new_size q)).

Definition write_vmstate (offset : Z) (b : bytes) : dstate img unit :=
  _ ← check_writable;
  q ← dgets id;
  if U64_MAX <? vmstate_base q + offset then dfail Unsupported
  else
    _ ← ensure_l1_covers (vmstate_base q + offset + len b);
    write_bytes (length b) (vmstate_base q + offset) b.

(** ** Flushing *)

Definition patch_header_fields : dstate img unit :=
  q ← dgets id;
  hc ← dpure (of_outcome (
    hc ← copy_at (header_cluster q) 24 (u64_be (q_size q));
    hc ← copy_at hc 36 (be32 (l1_size q));
    hc ← copy_at hc 40 (u64_be (l1_table_offset q));
    hc ← copy_at hc 48 (u64_be (refcount_table_offset q));
    hc ← copy_at hc 56 (be32 (refcount_table_clusters q));
    hc ← copy_at hc 60 (be32 (nb_snapshots q));
    copy_at hc 64 (u64_be (snapshots_offset q))));
  dmodify (set_header_cluster hc).

Definition take_dirty_blocks : dstate img (list (Z * bytes)) := λ q,
  let '(c, out) := take_dirty (refblock_cache q) in (set_refblock_cache c q, DOk out).
Definition take_dirty_tables : dstate img (list (Z * bytes)) := λ q,
  let '(c, out) := take_dirty (l2_cache q) in (set_l2_cache c q, DOk out).

Definition flush_metadata : dstate img unit :=
  _ ← check_writable;
  blocks ← take_dirty_blocks;
  _ ← write_blocks blocks;
  q ← dgets id;
  _ ← (if refcount_table_dirty q then
         _ ← write_file (refcount_table_offset q) (table_bytes (refcount_table q));
         dmodify (set_refcount_table_dirty false)
       else mret tt);
  q ← dgets id;
  _ ← (if l1_dirty q then
         _ ← write_file (l1_table_offset q) (table_bytes (l1 q));
         dmodify (set_l1_dirty false)
       else mret tt);
  tables ← take_dirty_tables;
  _ ← write_tables tables;
  q ← dgets id;
  if header_dirty q then
    _ ← patch_header_fields;
    q ← dgets id;
    _ ← write_file 0 (header_cluster q);
    dmodify (set_header_dirty false)
  else mret tt.

(** [flush]: [sync_all] on the file is the operating system's. *)
Definition qcow2_flush : dstate img unit :=
  q ← dgets id; if q_read_only q then mret tt else flush_metadata.

(** ** Creating *)

Definition QCOW_MAGIC : Z := 0x514649fb.
Definition EXT_BACKING_FORMAT : Z := 0xe2792aca.
Definition EXT_END : Z := 0.
Definition HEADER_LEN : Z := 112.

Definition l1_size_as_clusters (l1_size cluster_size : Z) : Z := Z.max (div_ceil (l1_size * 8) cluster_size) 1.

(** Write one field of a header under construction. *)
Definition field (hc : outcome bytes) (off : Z) (b : bytes) : outcome bytes := hc ← hc; copy_at hc off b.
(** [add_ext]: the header and the offset of the next extension. *)
Definition add_ext (hc : outcome bytes) (off ext_type : Z) (data : bytes) : outcome bytes * Z :=
  (field (field (field hc off (be32 ext_type)) (off + 4) (be32 (len data))) (off + 8) data, off + (8 + div_ceil (len data) 8 * 8)).

(** The fixed fields of the header of a new image. *)
Definition create_fields (cluster_bits size l1_size l1_offset : Z) : outcome bytes :=
  let cs := Z.shiftl 1 cluster_bits in
  let hc := Ret (replicate (Z.to_nat cs) 0) in
  let hc := field hc 0 (be32 QCOW_MAGIC) in
  let hc := field hc 4 (be32 3) in
  let hc := field hc 20 (be32 cluster_bits) in
  let hc := field hc 24 (u64_be size) in
  let hc := field hc 32 (be32 0) in
  let hc := field hc 36 (be32 l1_size) in
  let hc := field hc 40 (u64_be l1_offset) in
  let hc := field hc 48 (u64_be cs) in
  let hc := field hc 56 (be32 1) in
  let hc := field hc 72 (u64_be 0) in
  let hc := field hc 80 (u64_be 0) in
  let hc := field hc 88 (u64_be 0) in
  let hc := field hc 96 (be32 4) in
  let hc := field hc 100 (be32 HEADER_LEN) in
  field hc 104 [0].

(** The extensions and the backing name; [None] when the name does not fit. *)
Definition create_header (cluster_bits size l1_size l1_offset : Z) (backing : option BackingRef) : outcome (option bytes) :=
  let hc := create_fields cluster_bits size l1_size l1_offset in
  let '(hc, ext_off) :=
    match backing with
    | Some (mkBackingRef _ (Some fmt)) => add_ext hc HEADER_LEN EXT_BACKING_FORMAT fmt
    | _ => (hc, HEADER_LEN)
    end in
  let '(hc, ext_off) := add_ext hc ext_off EXT_END [] in
  match backing with
  | Some (mkBackingRef name _) =>
      if Z.shiftl 1 cluster_bits <? ext_off + len name then hc ← hc; Ret None
      else Some <$> field (field (field hc 8 (u64_be ext_off)) 16 (be32 (len name))) ext_off name
  | None => Some <$> hc
  end.

(** [create]: the new image and the backing image [open_backing] attaches. *)
Definition qcow2_create (size cb : Z) (bref : option BackingRef) (bimg : option B) : img * dres unit :=
  let cs := Z.shiftl 1 cb in
  let span := (cs / 8) * cs in
  let l1n := wrap32 (Z.max (div_ceil size span) 1) in
  let l1_clusters := l1_size_as_clusters l1n cs in
  let l1_offset := 3 * cs in
  let file := replicate (Z.to_nat (l1_offset + l1_clusters * cs)) 0 in
  let rt := splice (replicate (Z.to_nat cs) 0) 0 (u64_be (2 * cs)) in
  let q hc := mkQcow2 file false 3 cb cs size l1n l1_offset cs 1 16 0 0 hc bref None (replicate (Z.to_nat l1n) 0)
    (word rt <$> seqZ 0 (len rt / 8)) (TableCache_new 64) (TableCache_new 64) (mkFree ∅ 0) false false false in
  match create_header cb size l1n l1_offset bref with
  | Panic => (q [], DPanic)
  | Ret None => (q [], DErr Unsupported)
  | Ret (Some hc) =>
      (_ ← dfor (seqZ 0 (3 + l1_clusters)) (λ idx, set_refcount idx 1);
       _ ← write_file 0 hc;
       _ ← write_file cs rt;
       dmodify (set_backing_image bimg)) (q hc)
  end.
End write.
