(* ===== verification/Qcow2Guest.v ===== *)
(** * qcow2 images: guest writes

    The invariant of a writable image, and that a guest write changes the
    bytes it names and no others: not the guest's, and not the clusters that
    belong to something else, such as a snapshot. *)

From S2P Require Import Prelude TableCache Disk Qcow2 Qcow2Alloc Qcow2Read Qcow2Phys Qcow2Steps Qcow2Free Qcow2Write.

Section guest.
Context {B : Type} `{HB : DiskContents B} `{HI : InflateLaws}.
Implicit Types q : Qcow2Image B.

(** ** Refcounts of allocated clusters *)

Record counted (c v : Z) q q' : Prop := mkCounted {
  co_ok : alloc_ok q';
  co_keeps : keeps nowhere nowhere q q';
  co_rc x : 0 ≤ x → rc q' x = if x =? c then v else rc q x;
  co_rt : refcount_table q' = refcount_table q;
  co_l1 : l1 q' = l1 q;
  co_backing : backing_image q' = backing_image q;
  co_l2 : c_map (l2_cache q') = c_map (l2_cache q);
  co_room : room q ≤ room q' }.

Lemma rc_covered q c : rc q c ≠ 0 → covered q c.
Proof. intros Hne Hz. by apply Hne, rc_uncovered. Qed.
Lemma rc_bound q c : phys q → 0 ≤ c → 0 ≤ rc q c < 2 ^ refcount_bits q.
Proof.
  intros Hp Hc. destruct (width_cases _ (ph_width q Hp)) as (Hw0 & _).
  assert (0 < 2 ^ refcount_bits q) by (apply Z.pow_pos_nonneg; lia).
  destruct (decide (rt_host q (c / refblock_entries q) = 0)) as [Hz|Hz]; [rewrite rc_uncovered by done; lia|].
  destruct (block_index q c Hp Hc) as (Hi & Hm & Hr). destruct (block_shape q _ Hp Hi Hz) as [Hl Hok].
  destruct (bits_get_ret (block q (c / refblock_entries q)) (refcount_bits q) (c mod refblock_entries q)) as (v & Hv & Hb);
    [apply Hp|done|lia|by rewrite Hl|]. rewrite (bits_get_rc q c Hp Hc Hz) in Hv. by simplify_eq.
Qed.

(** A cluster in use may lose its last reference when it is neither the header
    nor a refcount block. *)
Lemma set_refcount_counted q c v :
  alloc_ok q → 0 ≤ c → rc q c ≠ 0 → 0 ≤ v < 2 ^ refcount_bits q → (v = 0 → c ≠ 0 ∧ ¬ is_block q (c * cluster_size q)) →
  ∃ q', set_refcount c v q = (q', DOk tt) ∧ counted c v q q'.
Proof.
  intros Ha Hc Huse Hv Hfree. pose proof (ao_phys q Ha) as Hp. pose proof (phys_cs q Hp). pose proof (rc_covered q c Huse) as Hcov.
  destruct (set_refcount_spec 62 q c v Hp Hc Hcov ltac:(lia)) as (q1 & Hre & Hset).
  set (q' := set_free _ q1) in Hset. exists q'. split; [exact Hset|].
  pose proof (re_keeps _ _ _ _ Hre) as Hk.
  assert (∀ x, 0 ≤ x → rc q' x = if x =? c then v else rc q x) as Hrc by (intros x Hx; exact (re_rc _ _ _ _ Hre x Hx)).
  assert (∀ ti, rt_host q' ti = rt_host q ti) as Hh.
  { intros ti. unfold rt_host. change (refcount_table q') with (refcount_table q1). by rewrite (re_rt _ _ _ _ Hre). }
  assert (refblock_entries q' = refblock_entries q) as Hrbe.
  { change (refblock_entries q1 = refblock_entries q). unfold refblock_entries. by rewrite (ke_cs _ _ _ _ Hk), (ke_width _ _ _ _ Hk). }
  assert (cluster_size q' = cluster_size q) as Hcs by (change (cluster_size q1 = cluster_size q); apply Hk).
  constructor; [|exact (keeps_trans_nowhere _ _ _ _ _ Hp Hk (keeps_set_free nowhere nowhere q1 _))|done|exact (re_rt _ _ _ _ Hre)|exact (re_l1 _ _ _ _ Hre)|exact (re_backing _ _ _ _ Hre)|exact (re_l2 _ _ _ _ Hre)|].
  2: { apply room_mono; [apply phys_set_free; [apply Hre|apply (ph_scan _ Hp)]|exact (re_rt _ _ _ _ Hre)|done|]. intros x Hx (Hxc & Hxr & Hor).
       assert (x ≠ c) by (by intros ->). split_and!; [unfold covered; by rewrite Hrbe, Hh|rewrite Hrc by done; by rewrite (proj2 (Z.eqb_neq _ _))|].
       cbn [q_free q' set_free free_set scan_next]. destruct Hor; [left|by right]. destruct (v =? 0); [apply elem_of_union; by right|]. apply elem_of_difference. by rewrite elem_of_singleton. }
  assert (∀ x, x ∈ free_set (q_free q') → (v = 0 ∧ x = c) ∨ (x ∈ free_set (q_free q) ∧ (v = 0 ∨ x ≠ c))) as Hset'.
  { intros x Hx. change (free_set (q_free q')) with (if v =? 0 then {[c]} ∪ free_set (q_free q) else free_set (q_free q) ∖ {[c]}) in Hx.
    destruct (Z.eqb_spec v 0) as [Hz|Hz].
    - apply elem_of_union in Hx as [Hx|Hx]; [left; by apply elem_of_singleton in Hx|right; auto].
    - apply elem_of_difference in Hx as [Hx Hxc]. rewrite elem_of_singleton in Hxc. auto. }
  constructor.
  - apply phys_set_free; [apply Hre|apply (ph_scan _ Hp)].
  - intros x Hx. unfold covered. destruct (Hset' x Hx) as [[Hz ->]|[Hx' Hor]]; rewrite Hrbe, Hh, Hrc by (done || by apply (ao_free _ Ha x Hx')).
    + by rewrite Z.eqb_refl.
    + destruct (ao_free _ Ha x Hx') as (? & ? & ?). split_and!; try done. destruct (Z.eqb_spec x c); [|done]. by destruct Hor.
  - intros ti Hti. rewrite Hh, Hcs. intros Hhi. pose proof (ao_self _ Ha ti Hti Hhi) as Hs. destruct (ph_rt q Hp ti Hti Hhi) as (? & Hal & _).
    rewrite Hrc by (apply Z.div_pos; lia). destruct (Z.eqb_spec (rt_host q ti / cluster_size q) c) as [Heq|]; [|done].
    intros Hz. destruct (Hfree Hz) as [_ Hnb]. apply Hnb. exists ti. split_and!; [done| |rewrite <-Heq, aligned_cluster; done].
    by rewrite <-Heq, aligned_cluster.
  - rewrite Hrc by lia. destruct (Z.eqb_spec 0 c) as [<-|]; [|apply Ha]. intros Hz. by destruct (Hfree Hz).
Qed.
Lemma set_refcount_ok q c v :
  alloc_ok q → 0 ≤ c → rc q c ≠ 0 → 0 < v < 2 ^ refcount_bits q →
  ∃ q', set_refcount c v q = (q', DOk tt) ∧ counted c v q q'.
Proof. intros Ha Hc Huse Hv. apply set_refcount_counted; try done; lia. Qed.

(** One reference more or less. *)
Lemma counted_quiet c v q q1 q2 : phys q → quiet q q1 → q_free q1 = q_free q → counted c v q1 q2 → counted c v q q2.
Proof.
  intros Hp Hq Hf [P1 P2 P3 P4 P5 P6 P7 P8]. constructor; try done.
  - exact (keeps_nowhere_trans _ _ _ _ _ Hp (qu_keeps _ _ Hq) P2).
  - intros x Hx. rewrite P3, (qu_rc _ _ Hq) by done. done.
  - by rewrite P4, (qu_rt _ _ Hq).
  - by rewrite P5, (qu_l1 _ _ Hq).
  - by rewrite P6, (qu_backing _ _ Hq).
  - by rewrite P7, (qu_l2 _ _ Hq).
  - pose proof (quiet_room _ _ Hq Hf). lia.
Qed.
Lemma get_refcount_alloc q c :
  alloc_ok q → 0 ≤ c → ∃ q1, get_refcount c q = (q1, DOk (rc q c)) ∧ quiet q q1 ∧ q_free q1 = q_free q ∧ alloc_ok q1.
Proof.
  intros Ha Hc. pose proof (ao_phys q Ha) as Hp. destruct (get_refcount_spec q c Hp Hc) as (q1 & Hg & Hq1 & Hf1). exists q1. split_and!; try done.
  apply (quiet_alloc_ok q q1 Ha Hq1), (quiet_free_ok q); [done|]. rewrite Hf1. apply Ha.
Qed.
Lemma dec_refcount_counted q c :
  alloc_ok q → 0 ≤ c → 1 ≤ rc q c → (rc q c = 1 → c ≠ 0 ∧ ¬ is_block q (c * cluster_size q)) →
  ∃ q', dec_refcount c q = (q', DOk tt) ∧ counted c (rc q c - 1) q q'.
Proof.
  intros Ha Hc Hrc Hfree. pose proof (ao_phys q Ha) as Hp. destruct (get_refcount_alloc q c Ha Hc) as (q1 & Hg & Hq1 & Hf1 & Ha1).
  unfold dec_refcount, dec_with. rewrite (dbind_ok _ _ _ _ _ Hg), (proj2 (Z.eqb_neq _ _)) by lia.
  pose proof (rc_bound q c Hp Hc). pose proof (qu_keeps _ _ Hq1) as Hk1.
  destruct (set_refcount_counted q1 c (rc q c - 1) Ha1 Hc) as (q2 & Hset & Hco).
  { rewrite (qu_rc _ _ Hq1) by done. lia. }
  { rewrite (ke_width _ _ _ _ Hk1). lia. }
  { intros Hz. destruct (Hfree ltac:(lia)) as [? Hnb]. split; [done|]. rewrite (ke_cs _ _ _ _ Hk1). intros (ti & ? & Hh & ?). apply Hnb. exists ti.
    by rewrite <-(quiet_host _ _ _ Hq1). }
  exists q2. split; [exact Hset|]. by eapply counted_quiet.
Qed.
Lemma dec_refcount_ok q c :
  alloc_ok q → 0 ≤ c → 2 ≤ rc q c →
  ∃ q', dec_refcount c q = (q', DOk tt) ∧ counted c (rc q c - 1) q q'.
Proof. intros Ha Hc Hrc. apply dec_refcount_counted; try done; lia. Qed.
Lemma inc_refcount_counted q c :
  alloc_ok q → 0 ≤ c → 1 ≤ rc q c → refcount_bits q < 64 → rc q c + 1 < 2 ^ refcount_bits q →
  ∃ q', inc_refcount c q = (q', DOk tt) ∧ counted c (rc q c + 1) q q'.
Proof.
  intros Ha Hc Hrc Hw Hm. pose proof (ao_phys q Ha) as Hp. destruct (get_refcount_alloc q c Ha Hc) as (q1 & Hg & Hq1 & Hf1 & Ha1).
  pose proof (qu_keeps _ _ Hq1) as Hk1. destruct (width_cases _ (ph_width q Hp)) as (Hw0 & _).
  unfold inc_refcount. rewrite (dbind_ok _ _ _ _ _ Hg), (dbind_ok _ _ q1 q1 q1) by done. unfold id.
  rewrite (dbind_ok _ _ q1 q1 (2 ^ refcount_bits q - 1)).
  2: { unfold refcount_max. rewrite (ke_width _ _ _ _ Hk1), (proj2 (Z.ltb_lt _ _)), Z.shiftl_1_l by done. done. }
  rewrite (proj2 (Z.leb_gt _ _)) by lia.
  destruct (set_refcount_counted q1 c (rc q c + 1) Ha1 Hc) as (q2 & Hset & Hco).
  { rewrite (qu_rc _ _ Hq1) by done. lia. }
  { rewrite (ke_width _ _ _ _ Hk1). lia. }
  { lia. }
  exists q2. split; [exact Hset|]. by eapply counted_quiet.
Qed.

(** ** The mapping *)

(** The L2 table of an L1 index, the entry of a guest cluster, and its host
    cluster: zero where there is none. *)
Definition l2h q (i : nat) : Z := Z.land (default 0 (l1 q !! i)) OFFSET_MASK.
Definition ge q (i : nat) (j : Z) : Z := if l2h q i =? 0 then 0 else word (l2_table q (l2h q i)) j.
Definition dh q (i : nat) (j : Z) : Z := Z.land (ge q i j) OFFSET_MASK.

Definition good q (k : Z) : Prop := table_at q k ∧ rc q (k / cluster_size q) ≠ 0 ∧ ¬ is_block q k.

(** The invariant of a writable image, relative to the clusters [P] that
    belong to something else. No compressed clusters, and no cluster with
    both the zero flag and a host. *)
Record write_ok (P : Z → Prop) q : Prop := mkWriteOk {
  wo_alloc : alloc_ok q;
  wo_size : 0 ≤ q_size q ≤ U64_MAX;
  wo_l1 : Forall is_u64 (l1 q);
  wo_backing b : backing_image q = Some b → image_ok b;
  wo_bytes o : is_u8 (backing_byte q o);
  wo_tables i : l2h q i ≠ 0 → good q (l2h q i);
  wo_tables_inj i i' : l2h q i ≠ 0 → l2h q i = l2h q i' → i = i';
  wo_entries i j : 0 ≤ j < l2_entries q → Z.land (ge q i j) COMPRESSED_BIT = 0 ∧ (Z.land (ge q i j) ZERO_BIT ≠ 0 → dh q i j = 0);
  wo_data i j : 0 ≤ j < l2_entries q → dh q i j ≠ 0 →
    good q (dh q i j) ∧ c_map (l2_cache q) !! dh q i j = None ∧ ∀ i', l2h q i' ≠ dh q i j;
  wo_data_inj i j i' j' : 0 ≤ j < l2_entries q → 0 ≤ j' < l2_entries q → dh q i j ≠ 0 → dh q i j = dh q i' j' → i = i' ∧ j = j';
  wo_P c : P c → 0 ≤ c ∧ rc q c ≠ 0 ∧ ¬ is_block q (c * cluster_size q) ∧ (c + 1) * cluster_size q ≤ len (q_file q);
  wo_P_tables i : l2h q i ≠ 0 → P (l2h q i / cluster_size q) → 2 ≤ rc q (l2h q i / cluster_size q);
  wo_P_data i j : 0 ≤ j < l2_entries q → dh q i j ≠ 0 → P (dh q i j / cluster_size q) →
    2 ≤ rc q (dh q i j / cluster_size q) ∧ Z.land (ge q i j) COPIED_BIT = 0 }.

(** A cluster no table, no data and nothing of [P] uses. *)
Definition unused (P : Z → Prop) q (c : Z) : Prop :=
  (∀ i, l2h q i ≠ 0 → l2h q i / cluster_size q ≠ c) ∧
  (∀ i j, 0 ≤ j < l2_entries q → dh q i j ≠ 0 → dh q i j / cluster_size q ≠ c) ∧ ¬ P c.

Lemma free_unused P q c : write_ok P q → rc q c = 0 → unused P q c.
Proof.
  intros Hw Hz. split_and!.
  - intros i Hi <-. by destruct (wo_tables P q Hw i Hi) as (_ & ? & _).
  - intros i j Hj Hd <-. by destruct (wo_data P q Hw i j Hj Hd) as ((_ & ? & _) & _).
  - intros Hp. by destruct (wo_P P q Hw c Hp) as (_ & ? & _).
Qed.

(** A cluster that is no table of the guest, nor cached as one, and one that
    is no data of the guest. *)
Definition off_table q (c : Z) : Prop :=
  (∀ i, l2h q i ≠ 0 → l2h q i ≠ c * cluster_size q) ∧ c_map (l2_cache q) !! (c * cluster_size q) = None.
Definition off_data q (c : Z) : Prop := ∀ i j, 0 ≤ j < l2_entries q → dh q i j ≠ 0 → dh q i j ≠ c * cluster_size q.

(** What the guest's mapping reaches, and a cluster that keeps its references
    or loses the guest's. *)
Definition guest_table q (c : Z) : Prop := ∃ i, l2h q i ≠ 0 ∧ l2h q i / cluster_size q = c.
Definition guest_data q (c : Z) : Prop := ∃ i j, 0 ≤ j < l2_entries q ∧ dh q i j ≠ 0 ∧ dh q i j / cluster_size q = c.
Definition guest_has q (c : Z) : Prop := guest_table q c ∨ guest_data q c.
Definition settled q q' (c : Z) : Prop :=
  (rc q' c = rc q c ∧ (guest_has q' c → guest_has q c)) ∨ (rc q' c = rc q c - 1 ∧ guest_has q c ∧ ¬ guest_has q' c).
Lemma settled_trans q1 q2 q3 c : settled q1 q2 c → settled q2 q3 c → settled q1 q3 c.
Proof. intros [[A1 A2]|(A1 & A2 & A3)] [[B1 B2]|(B1 & B2 & B3)]; [left|right|right|done]; split_and!; auto; lia. Qed.
Lemma settled_same q q' c :
  cluster_size q' = cluster_size q → rc q' c = rc q c → (∀ i, l2h q' i = l2h q i) → (∀ i j, 0 ≤ j < l2_entries q → dh q' i j = dh q i j) → settled q q' c.
Proof.
  intros Hcs Hrc Hl Hd. left. split; [done|]. unfold guest_has, guest_table, guest_data, l2_entries. rewrite Hcs. intros [(i & Hi & He)|(i & j & Hj & Hij & He)].
  - left. exists i. by rewrite <-Hl.
  - right. exists i, j. by rewrite <-Hd.
Qed.

(** The top of the image is kept; clusters of [P] with one reference keep it
    and none loses one but the guest's, the guest's mapping reaches none of [P]
    that it did not, and a table in [P] is where it was. *)
Definition meta_step (P : Z → Prop) q q' : Prop :=
  meta_kept q q' ∧ length (refcount_table q') = length (refcount_table q) ∧
  (∀ c, P c → ((rc q c = 1 → rc q' c = 1) ∧ settled q q' c) ∧ (off_table q c → off_table q' c) ∧ (off_data q c → off_data q' c)) ∧
  (∀ i, l2h q' i ≠ 0 → P (l2h q' i / cluster_size q) → l2h q i = l2h q' i) ∧ low q q'.
Lemma meta_step_trans P q1 q2 q3 : cluster_size q2 = cluster_size q1 → meta_step P q1 q2 → meta_step P q2 q3 → meta_step P q1 q3.
Proof.
  intros Hcs (A1 & A0 & A2 & A3 & A4) (B1 & B0 & B2 & B3 & B4). split_and!; [by eapply meta_kept_trans|congruence| | |by eapply low_trans].
  - intros c Hc. destruct (A2 c Hc) as ([? ?] & ? & ?), (B2 c Hc) as ([? ?] & ? & ?). split_and!; auto. by eapply settled_trans.
  - intros i Hi HP. rewrite Hcs in B3. pose proof (B3 i Hi HP) as E. rewrite <-E in HP |- *. apply A3; congruence.
Qed.

(** What a step that serves the guest leaves as it was. *)
Record same_guest (P : Z → Prop) q q' : Prop := mkSameGuest {
  sg_bits : cluster_bits q' = cluster_bits q;
  sg_cs : cluster_size q' = cluster_size q;
  sg_size : q_size q' = q_size q;
  sg_l1len : length (l1 q') = length (l1 q);
  sg_ge i j : 0 ≤ j < l2_entries q → ge q' i j = ge q i j;
  sg_data i j : 0 ≤ j < l2_entries q → dh q i j ≠ 0 → l2_table q' (dh q i j) = l2_table q (dh q i j);
  sg_P c : P c → l2_table q' (c * cluster_size q) = l2_table q (c * cluster_size q);
  sg_backing o : backing_byte q' o = backing_byte q o;
  sg_meta : meta_step P q q' }.

Lemma meta_step_same P q q' :
  meta_kept q q' → refcount_table q' = refcount_table q → (∀ c, P c → off_table q c → off_table q' c) → cluster_size q' = cluster_size q →
  (∀ i, l2h q' i = l2h q i) → (∀ i j, 0 ≤ j < l2_entries q → dh q' i j = dh q i j) → (∀ c, P c → rc q' c = rc q c) → low q q' → meta_step P q q'.
Proof.
  intros Hk Hrt Hot Hcs Hl Hd Hrc Hlow. split_and!; [done|by rewrite Hrt| |intros i; by rewrite Hl|done]. intros c Hc.
  split; [split; [by rewrite Hrc|apply settled_same; auto]|]. split; [by apply Hot|]. intros Hnd i j. unfold l2_entries. rewrite Hcs. intros Hj. rewrite Hd by done. by apply Hnd.
Qed.
Lemma same_guest_refl P q : same_guest P q q.
Proof. constructor; try done. apply meta_step_same; try done. by apply low_same. Qed.
Lemma meta_step_refl P q : meta_step P q q.
Proof. apply meta_step_same; try done. by apply low_same. Qed.
Lemma same_guest_trans P q1 q2 q3 : same_guest P q1 q2 → same_guest P q2 q3 → same_guest P q1 q3.
Proof.
  intros H1 H2. pose proof (sg_cs _ _ _ H1) as Hcs.
  assert (l2_entries q2 = l2_entries q1) as He by (unfold l2_entries; by rewrite Hcs).
  constructor.
  - by rewrite (sg_bits _ _ _ H2), (sg_bits _ _ _ H1).
  - by rewrite (sg_cs _ _ _ H2), (sg_cs _ _ _ H1).
  - by rewrite (sg_size _ _ _ H2), (sg_size _ _ _ H1).
  - by rewrite (sg_l1len _ _ _ H2), (sg_l1len _ _ _ H1).
  - intros i j Hj. rewrite (sg_ge _ _ _ H2) by (by rewrite He). by apply H1.
  - intros i j Hj Hd. assert (dh q2 i j = dh q1 i j) as Hdh by (unfold dh; by rewrite (sg_ge _ _ _ H1)).
    rewrite <-Hdh at 1. rewrite (sg_data _ _ _ H2) by (rewrite ?He, ?Hdh; done). rewrite Hdh. by apply H1.
  - intros c Hc. rewrite <-Hcs at 1. rewrite (sg_P _ _ _ H2) by done. rewrite Hcs. by apply H1.
  - intros o. rewrite (sg_backing _ _ _ H2). apply H1.
  - exact (meta_step_trans _ _ _ _ Hcs (sg_meta _ _ _ H1) (sg_meta _ _ _ H2)).
Qed.

Lemma good_keeps X K q q' k :
  phys q → keeps X K q q' → good q k → ¬ X (k / cluster_size q) → rc q' (k / cluster_size q) ≠ 0 →
  good q' k ∧ l2_table q' k = l2_table q k.
Proof.
  intros Hp Hk ((Hk0 & Hkm & Hkl) & _ & Hnb) HX Hrc. pose proof (phys_cs q Hp) as Hcs. pose proof (aligned_cluster q k Hp Hkm) as Hal.
  pose proof (ke_len _ _ _ _ Hk). assert (0 ≤ k / cluster_size q) by (apply Z.div_pos; lia).
  unfold good, table_at. rewrite (ke_cs _ _ _ _ Hk). split_and!; [done|done|lia|done| |].
  - pose proof (keeps_not_block X K q q' (k / cluster_size q) Hp Hk ltac:(done) HX) as Hb. rewrite Hal in Hb. auto.
  - pose proof (ke_tables _ _ _ _ Hk (k / cluster_size q) ltac:(done) HX) as Ht. rewrite Hal in Ht. apply Ht; [done|].
    rewrite Z.mul_add_distr_r, Hal. lia.
Qed.

(** A step that touches unused clusters only, and leaves what is used with
    references enough, keeps the invariant, and where the references stay the
    guest. *)
Lemma frame_count P X K q q' :
  write_ok P q → alloc_ok q' → keeps X K q q' → (∀ c, 0 ≤ c → X c → unused P q c) → (∀ k, K k → ∀ i j, 0 ≤ j < l2_entries q → dh q i j ≠ 0 → dh q i j ≠ k) →
  l1 q' = l1 q → (∀ b, backing_image q' = Some b → image_ok b) → (∀ o, backing_byte q' o = backing_byte q o) →
  (∀ x, 0 ≤ x → ¬ unused P q x → rc q' x ≠ 0) → (∀ x, P x → guest_has q x → 2 ≤ rc q' x) →
  write_ok P q' ∧ ((∀ c, P c → rc q' c = rc q c ∧ (off_table q c → ¬ K (c * cluster_size q))) → low q q' → same_guest P q q').
Proof.
  intros Hw Ha Hk HX HK Hl1 Hbok Hb Hrc Htwo. pose proof (ao_phys q (wo_alloc _ _ Hw)) as Hp. pose proof (phys_cs q Hp) as Hcs0.
  pose proof (ke_cs _ _ _ _ Hk) as Hcs. assert (l2_entries q' = l2_entries q) as He by (unfold l2_entries; by rewrite Hcs).
  assert (∀ i, l2h q' i = l2h q i) as Hl2h by (intros i; unfold l2h; by rewrite Hl1).
  assert (∀ k, good q k → ¬ unused P q (k / cluster_size q) → good q' k ∧ l2_table q' k = l2_table q k) as Hgood.
  { intros k Hg Hu. destruct Hg as ((Hk0 & ?) & Hrk & ?) eqn:?. assert (0 ≤ k / cluster_size q) by (apply Z.div_pos; lia).
    apply (good_keeps X K); try done; [intros Hx; by apply Hu, HX|]. by apply Hrc. }
  assert (∀ i, l2h q i ≠ 0 → ¬ unused P q (l2h q i / cluster_size q)) as Hut by (intros i Hi [Hu _]; by apply (Hu i)).
  assert (∀ i j, ge q' i j = ge q i j) as Hge.
  { intros i j. unfold ge. rewrite Hl2h. destruct (Z.eqb_spec (l2h q i) 0) as [|Hi]; [done|].
    destruct (Hgood _ (wo_tables _ _ Hw i Hi) (Hut i Hi)) as [_ ->]. done. }
  assert (∀ i j, dh q' i j = dh q i j) as Hdh by (intros; unfold dh; by rewrite Hge).
  assert (∀ i j, 0 ≤ j < l2_entries q → dh q i j ≠ 0 → ¬ unused P q (dh q i j / cluster_size q)) as Hud.
  { intros i j Hj Hd (_ & Hu & _). by apply (Hu i j). }
  assert (∀ k, good q k → 0 ≤ k / cluster_size q) as Hpos by (intros k ((? & _) & _); apply Z.div_pos; lia).
  assert (∀ c, P c → 0 ≤ c ∧ rc q' c ≠ 0 ∧ ¬ is_block q' (c * cluster_size q) ∧
    l2_table q' (c * cluster_size q) = l2_table q (c * cluster_size q)) as HP.
  { intros c Hc. destruct (wo_P _ _ Hw c Hc) as (Hc0 & Hcr & Hcb & Hcl). assert (¬ unused P q c) as Hu by (by intros (_ & _ & ?)).
    assert (¬ X c) as Hx by (intros Hx; by apply Hu, HX).
    split; [done|]. split; [by apply Hrc|]. split; [by apply (keeps_not_block X K q)|by apply (ke_tables _ _ _ _ Hk)]. }
  split.
  - constructor; try done.
    + rewrite (ke_size _ _ _ _ Hk). apply Hw.
    + rewrite Hl1. apply Hw.
    + intros o. rewrite Hb. apply Hw.
    + intros i. rewrite Hl2h. intros Hi. apply Hgood; [by apply Hw|by apply Hut].
    + intros i i'. rewrite !Hl2h. apply Hw.
    + intros i j. rewrite He, Hge, Hdh. apply Hw.
    + intros i j. rewrite He, Hdh. intros Hj Hd. destruct (wo_data _ _ Hw i j Hj Hd) as (Hg & Hn & Ht). split_and!.
      * apply Hgood; [done|by apply Hud].
      * destruct (c_map (l2_cache q') !! dh q i j) eqn:E; [|done]. exfalso. destruct (ke_keys _ _ _ _ Hk (dh q i j)) as [[? Hs]|HKd]; [by rewrite E| |].
        -- congruence.
        -- by apply (HK _ HKd i j Hj Hd).
      * intros i'. rewrite Hl2h. apply Ht.
    + intros i j i' j'. rewrite He, !Hdh. apply Hw.
    + intros c Hc. destruct (HP c Hc) as (Hc0 & Hr & Hb' & _). rewrite Hcs. destruct (wo_P _ _ Hw c Hc) as (_ & ? & _ & ?).
      pose proof (ke_len _ _ _ _ Hk). split_and!; [done|done|done|lia].
    + intros i. rewrite Hl2h, Hcs. intros Hi HPi. apply Htwo; [done|]. left. by exists i.
    + intros i j. rewrite He, Hdh, Hge, Hcs. intros Hj Hd HPd. split; [apply Htwo; [done|]; right; by exists i, j|].
      by apply (wo_P_data _ _ Hw i j Hj Hd HPd).
  - intros Hlow Hlw. constructor; try done.
    + apply Hk.
    + apply Hk.
    + by rewrite Hl1.
    + intros i j Hj Hd. apply Hgood; [apply (wo_data _ _ Hw i j Hj Hd)|by apply Hud].
    + intros c Hc. by apply HP.
    + split_and!; [exact (ke_meta _ _ _ _ Hk)|exact (ke_rtlen _ _ _ _ Hk)| |intros i; by rewrite Hl2h|done]. intros c Hc. destruct (Hlow c Hc) as [Hlc HnK]. split; [split; [by rewrite Hlc|]; apply settled_same; auto|]. split.
      * intros [Hnt Hnc]. split; [intros i; rewrite Hl2h, Hcs; apply Hnt|]. rewrite Hcs.
        destruct (c_map (l2_cache q') !! (c * cluster_size q)) eqn:E; [|done]. exfalso.
        destruct (ke_keys _ _ _ _ Hk (c * cluster_size q)) as [[? Hs]|HKc]; [by rewrite E|congruence|].
        by apply HnK.
      * intros Hnd i j. rewrite He, Hdh, Hcs. apply Hnd.
Qed.
(** It may add references. *)
Lemma frame_up P X K q q' :
  write_ok P q → alloc_ok q' → keeps X K q q' → (∀ c, 0 ≤ c → X c → unused P q c) → (∀ k, K k → ∃ i, l2h q i = k ∧ k ≠ 0) →
  l1 q' = l1 q → (∀ b, backing_image q' = Some b → image_ok b) → (∀ o, backing_byte q' o = backing_byte q o) →
  (∀ x, 0 ≤ x → ¬ unused P q x → rc q x ≤ rc q' x) →
  write_ok P q' ∧ ((∀ c, P c → rc q' c = rc q c) → low q q' → same_guest P q q').
Proof.
  intros Hw Ha Hk HX HK Hl1 Hbok Hb Hrc. pose proof (ao_phys q (wo_alloc _ _ Hw)) as Hp. pose proof (phys_cs q Hp) as Hcs.
  assert (∀ c, P c → 0 ≤ c ∧ ¬ unused P q c) as HP by (intros c Hc; split; [by apply (wo_P _ _ Hw c Hc)|by intros (_ & _ & ?)]).
  destruct (frame_count P X K q q') as [Hw' Hs']; try done.
  - intros k Hkk i j Hj Hd Heq. destruct (HK k Hkk) as (i' & Hi' & _). destruct (wo_data _ _ Hw i j Hj Hd) as (_ & _ & Ht). by apply (Ht i'); rewrite Hi', Heq.
  - intros x Hx Hu. specialize (Hrc x Hx Hu). pose proof (rc_bound q x Hp Hx). assert (rc q x ≠ 0); [|lia]. intros Hz. by apply Hu, free_unused.
  - intros x HPx Hg. destruct (HP x HPx) as [Hx Hu]. specialize (Hrc x Hx Hu). assert (2 ≤ rc q x); [|lia].
    destruct Hg as [(i & Hi & <-)|(i & j & Hj & Hd & <-)]; [by apply (wo_P_tables _ _ Hw)|by apply (wo_P_data _ _ Hw i j Hj Hd)].
  - split; [done|]. intros Hlow Hlw. apply Hs'; [|done]. intros c Hc. split; [by apply Hlow|]. intros [Hnt _] HKc. destruct (HK _ HKc) as (i & Hi & Hne). apply (Hnt i); congruence.
Qed.
Lemma frame_step P X K q q' :
  write_ok P q → alloc_ok q' → keeps X K q q' → (∀ c, 0 ≤ c → X c → unused P q c) → (∀ k, K k → ∃ i, l2h q i = k ∧ k ≠ 0) →
  l1 q' = l1 q → (∀ b, backing_image q' = Some b → image_ok b) → (∀ o, backing_byte q' o = backing_byte q o) →
  (∀ x, 0 ≤ x → ¬ unused P q x → rc q' x = rc q x) → low q q' →
  write_ok P q' ∧ same_guest P q q'.
Proof.
  intros Hw Ha Hk HX HK Hl1 Hbok Hb Hrc Hlw. destruct (frame_up P X K q q') as [Hw' Hs']; try done; [intros x Hx Hu; by rewrite Hrc|].
  split; [done|]. apply Hs'; [|done]. intros c Hc. apply Hrc; [by apply (wo_P _ _ Hw c Hc)|]. by intros (_ & _ & ?).
Qed.

(** ** Clusters and entries *)

Lemma aligned_same q k k' :
  phys q → k mod cluster_size q = 0 → k' mod cluster_size q = 0 → k / cluster_size q = k' / cluster_size q → k = k'.
Proof. intros Hp Hk Hk' He. by rewrite <-(aligned_cluster q k Hp Hk), <-(aligned_cluster q k' Hp Hk'), He. Qed.
Lemma good_aligned q k : good q k → k mod cluster_size q = 0.
Proof. by intros ((_ & ? & _) & _). Qed.

Lemma land_flag a b m f : Z.land f m = 0 → Z.land (Z.lor a f) m = b ↔ Z.land a m = b.
Proof. intros Hf. by rewrite Z.land_lor_distr_l, Hf, Z.lor_0_r. Qed.
Lemma copied_host x : Z.land (Z.lor x COPIED_BIT) OFFSET_MASK = Z.land x OFFSET_MASK.
Proof. by apply land_flag. Qed.
Lemma copied_compressed x : Z.land (Z.lor x COPIED_BIT) COMPRESSED_BIT = Z.land x COMPRESSED_BIT.
Proof. by apply land_flag. Qed.
Lemma copied_zero x : Z.land (Z.lor x COPIED_BIT) ZERO_BIT = Z.land x ZERO_BIT.
Proof. by apply land_flag. Qed.
Lemma copied_range x : 0 ≤ x < 2 ^ 64 → 0 ≤ Z.lor x COPIED_BIT < 2 ^ 64.
Proof.
  intros Hx. split; [apply Z.lor_nonneg; split; [lia|done]|].
  destruct (decide (Z.lor x COPIED_BIT = 0)) as [->|Hne]; [lia|]. apply Z.log2_lt_pow2.
  - assert (0 ≤ Z.lor x COPIED_BIT) by (apply Z.lor_nonneg; split; [lia|done]). lia.
  - rewrite Z.log2_lor by (lia || done). change (Z.log2 COPIED_BIT) with 63.
    destruct (decide (x = 0)) as [->|Hx0]; [done|]. apply Z.max_lub_lt; [|lia]. apply Z.log2_lt_pow2; lia.
Qed.
(** The entry of a fresh cluster. *)
Lemma fresh_entry q h : phys q → 0 < h → (h + 1) * cluster_size q ≤ 2 ^ 56 →
  let v := Z.lor (h * cluster_size q) COPIED_BIT in
  Z.land v OFFSET_MASK = h * cluster_size q ∧ Z.land v COMPRESSED_BIT = 0 ∧ Z.land v ZERO_BIT = 0 ∧ 0 ≤ v < 2 ^ 64.
Proof.
  intros Hp Hh Hl v. pose proof (phys_cs q Hp). unfold v. rewrite copied_host, copied_compressed, copied_zero, cluster_offset by (done || lia).
  assert (0 ≤ h * cluster_size q < 2 ^ 56) by nia.
  split_and!; [done| | |apply copied_range; lia|apply copied_range; lia].
  - apply Z.bits_inj'. intros p Hpp. rewrite Z.land_spec, Z.bits_0. unfold COMPRESSED_BIT. rewrite Z.shiftl_1_l, Z.pow2_bits_eqb by lia.
    destruct (Z.eqb_spec 62 p) as [<-|]; [|by rewrite andb_false_r]. rewrite (testbit_small _ 56) by lia. done.
  - unfold ZERO_BIT. change 1 with (Z.ones 1). rewrite Z.land_ones by lia. change (2 ^ 1) with 2.
    pose proof (phys_cs_512 q Hp) as H512. apply Z.div_exact in H512; [|lia]. rewrite H512.
    replace (h * (512 * (cluster_size q / 512))) with (h * 256 * (cluster_size q / 512) * 2) by lia. apply Z.mod_mul. lia.
Qed.

Lemma word_splice (t : bytes) j v j' :
  0 ≤ v < 2 ^ 64 → 0 ≤ j → 0 ≤ j' → j * 8 + 8 ≤ len t → j' * 8 + 8 ≤ len t →
  word (splice t (j * 8) (u64_be v)) j' = if j' =? j then v else word t j'.
Proof.
  intros Hv Hj Hj' Hl Hl'. rewrite !word_slice. destruct (Z.eqb_spec j' j) as [->|Hne].
  - rewrite slice_splice_in by (rewrite ?len_u64_be; lia). rewrite Z.sub_diag, splice_whole by (rewrite len_u64_be, len_slice; lia).
    apply (of_be_low 8 v); [concrete|exact Hv].
  - rewrite slice_splice_out; [done|lia|lia|rewrite len_u64_be; lia|rewrite len_u64_be; lia].
Qed.
Lemma word_zeros n j : word (replicate n 0) j = 0.
Proof. unfold word, slice. by rewrite drop_replicate, take_replicate, of_be64_zeros. Qed.
Lemma word_range (t : bytes) j : bytes_ok t → 0 ≤ j → j * 8 + 8 ≤ len t → 0 ≤ word t j < 2 ^ 64.
Proof.
  intros Ht Hj Hl. rewrite word_slice. pose proof (of_be64_bound (slice t (j * 8) (j * 8 + 8)) ltac:(by apply bytes_ok_slice)) as Hb.
  rewrite len_slice in Hb by lia. by replace (8 * (j * 8 + 8 - j * 8)) with 64 in Hb by lia.
Qed.
Lemma entry_fits q (t : bytes) j : phys q → len t = cluster_size q → 0 ≤ j < l2_entries q → j * 8 + 8 ≤ len t.
Proof.
  intros Hp Hl Hj. unfold l2_entries in Hj. pose proof (phys_cs q Hp).
  pose proof (Z.div_mod (cluster_size q) 8 ltac:(lia)). pose proof (Z.mod_pos_bound (cluster_size q) 8 ltac:(lia)). lia.
Qed.

(** ** Linking a new L2 table *)

Lemma alloc_ok_set_l1 q x d : alloc_ok q → alloc_ok (set_l1_dirty d (set_l1 x q)).
Proof. intros [[] Hf Hs Hz]. by constructor. Qed.
Lemma alloc_ok_set_header q d : alloc_ok q → alloc_ok (set_header_dirty d q).
Proof. intros [[] Hf Hs Hz]. by constructor. Qed.

(** The old table, if there was one, lost a reference. *)
Lemma relink P q q2 i h :
  write_ok P q → (i < length (l1 q))%nat → 0 < h → (h + 1) * cluster_size q ≤ 2 ^ 56 → unused P q h → good q (h * cluster_size q) →
  (∀ j, 0 ≤ j < l2_entries q → word (l2_table q (h * cluster_size q)) j = ge q i j) →
  (if l2h q i =? 0 then q2 = q else 2 ≤ rc q (l2h q i / cluster_size q) ∧
     counted (l2h q i / cluster_size q) (rc q (l2h q i / cluster_size q) - 1) q q2) →
  let q' := set_l1_dirty true (set_l1 (<[i := Z.lor (h * cluster_size q) COPIED_BIT]> (l1 q2)) q2) in
  write_ok P q' ∧ same_guest P q q' ∧ l2h q' i = h * cluster_size q.
Proof.
  intros Hw Hi Hh Hhr (Hut & Hud & HuP) Hgh Hwords H2 q'. pose proof (wo_alloc _ _ Hw) as Ha. pose proof (ao_phys q Ha) as Hp. pose proof (phys_cs q Hp) as Hcs.
  set (old := l2h q i) in *. set (oc := old / cluster_size q) in *.
  assert (alloc_ok q2 ∧ keeps nowhere nowhere q q2 ∧ l1 q2 = l1 q ∧ backing_image q2 = backing_image q ∧ c_map (l2_cache q2) = c_map (l2_cache q) ∧
    ∀ x, 0 ≤ x → rc q2 x ≠ 0 ↔ rc q x ≠ 0) as (Ha2 & Hk2 & Hl12 & Hb2 & Hc2 & Hrc0).
  { destruct (Z.eqb_spec old 0) as [Ho|Ho]; [subst q2; split_and!; try done; apply keeps_refl|]. destruct H2 as [Hr2 [P1 P2 P3 P4 P5 P6 P7 P8]].
    split_and!; try done. intros x Hx. rewrite P3 by done. destruct (Z.eqb_spec x oc) as [->|]; [lia|done]. }
  assert (∀ x, 0 ≤ x → (old = 0 ∨ x ≠ oc) → rc q2 x = rc q x) as Hrc2.
  { intros x Hx Hne. destruct (Z.eqb_spec old 0) as [Ho|Ho]; [by subst q2|]. destruct H2 as [_ [_ _ P3 _ _ _ _ _]]. rewrite P3 by done.
    rewrite (proj2 (Z.eqb_neq _ _)); [done|]. by destruct Hne. }
  assert (∀ k, good q k → good q' k ∧ l2_table q' k = l2_table q k) as Hgood.
  { intros k Hg. assert (0 ≤ k / cluster_size q) by (destruct Hg as ((? & _) & _); apply Z.div_pos; lia).
    apply (good_keeps nowhere nowhere q q2 k Hp Hk2 Hg); [by intros []|]. apply Hrc0; [done|apply Hg]. }
  assert (∀ i', l2h q' i' = if decide (i' = i) then h * cluster_size q else l2h q i') as Hl2h.
  { intros i'. unfold l2h, q'. cbn [l1 set_l1 set_l1_dirty]. rewrite Hl12. destruct (decide (i' = i)) as [->|Hne].
    - rewrite list_lookup_insert_eq by done. cbn [default from_option id]. rewrite copied_host. apply cluster_offset; [done|lia|done].
    - by rewrite list_lookup_insert_ne by done. }
  assert (l2_entries q' = l2_entries q) as He by (unfold l2_entries; change (cluster_size q') with (cluster_size q2); by rewrite (ke_cs _ _ _ _ Hk2)).
  assert (cluster_size q' = cluster_size q) as Hcs' by (change (cluster_size q') with (cluster_size q2); apply Hk2).
  assert (∀ i' j, 0 ≤ j < l2_entries q → ge q' i' j = ge q i' j) as Hge.
  { intros i' j Hj. unfold ge at 1. rewrite Hl2h. destruct (decide (i' = i)) as [->|Hne].
    - rewrite (proj2 (Z.eqb_neq _ _)) by nia. rewrite <-Hwords by done. by destruct (Hgood _ Hgh) as [_ ->].
    - unfold ge. destruct (Z.eqb_spec (l2h q i') 0) as [|Hi']; [done|]. by destruct (Hgood _ (wo_tables _ _ Hw i' Hi')) as [_ ->]. }
  assert (∀ i' j, 0 ≤ j < l2_entries q → dh q' i' j = dh q i' j) as Hdh by (intros; unfold dh; by rewrite Hge).
  assert (∀ k, good q k → (old = 0 ∨ k ≠ old) → rc q2 (k / cluster_size q) = rc q (k / cluster_size q)) as Hrck.
  { intros k Hg Hne. apply Hrc2; [destruct Hg as ((? & _) & _); apply Z.div_pos; lia|]. destruct (decide (old = 0)) as [?|Ho]; [by left|].
    right. intros He'. destruct Hne as [?|Hne]; [done|]. apply Hne. apply (aligned_same q); [done|by apply good_aligned| |done].
    apply (good_aligned q old). by apply (wo_tables _ _ Hw i). }
  assert (∀ c, P c → settled q q' c) as Hset.
  { intros c HPc. destruct (wo_P _ _ Hw c HPc) as (Hc0 & _). change (settled q q' c) with (settled q q' c). unfold settled, guest_has, guest_table, guest_data. rewrite He, Hcs'.
    change (rc q' c) with (rc q2 c).
    assert ((∃ i', l2h q' i' ≠ 0 ∧ l2h q' i' / cluster_size q = c) → ∃ i', i' ≠ i ∧ l2h q i' ≠ 0 ∧ l2h q i' / cluster_size q = c) as Htab.
    { intros (i' & Hi' & Hce). rewrite Hl2h in Hi', Hce. case_decide as Hd; [|by exists i']. rewrite Z.div_mul in Hce by lia. by subst c. }
    assert ((∃ i' j, 0 ≤ j < l2_entries q ∧ dh q' i' j ≠ 0 ∧ dh q' i' j / cluster_size q = c) → ∃ i' j, 0 ≤ j < l2_entries q ∧ dh q i' j ≠ 0 ∧ dh q i' j / cluster_size q = c) as Hdat.
    { intros (i' & j & Hj & Hd & Hce). exists i', j. by rewrite Hdh in Hd, Hce. }
    destruct (decide (old ≠ 0 ∧ c = oc)) as [[Ho ->]|Hno].
    - right. rewrite (proj2 (Z.eqb_neq old 0)) in H2 by done. destruct H2 as [_ Hco]. rewrite (co_rc _ _ _ _ Hco), Z.eqb_refl by done. split; [done|].
      pose proof (wo_tables _ _ Hw i Ho) as Hgo. split; [left; by exists i|]. intros [(i' & Hne & Hi' & Hce)%Htab|(i' & j & Hj & Hd & Hce)%Hdat].
      + apply Hne, (wo_tables_inj _ _ Hw); [done|]. apply (aligned_same q); [done|apply good_aligned; by apply (wo_tables _ _ Hw)|by apply good_aligned|done].
      + destruct (wo_data _ _ Hw i' j Hj Hd) as (Hgd & _ & Ht). apply (Ht i). symmetry. apply (aligned_same q); [done|by apply good_aligned|by apply good_aligned|done].
    - left. split; [apply Hrc2; [done|]; destruct (decide (old = 0)); [by left|right; intros ->; by apply Hno]|]. intros [(i' & _ & ? & ?)%Htab|?%Hdat]; [left; by exists i'|by right]. }
  split_and!.
  - constructor.
    + by apply alloc_ok_set_l1.
    + change (q_size q') with (q_size q2). rewrite (ke_size _ _ _ _ Hk2). apply Hw.
    + unfold q'. cbn [l1 set_l1 set_l1_dirty]. rewrite Hl12. apply Forall_insert; [apply Hw|]. apply (fresh_entry q h); done.
    + intros b. change (backing_image q') with (backing_image q2). rewrite Hb2. apply Hw.
    + intros o. unfold backing_byte. change (backing_image q') with (backing_image q2). rewrite Hb2. apply (wo_bytes _ _ Hw o).
    + intros i'. rewrite Hl2h. destruct (decide (i' = i)) as [->|Hne]; intros Hi'; apply Hgood; [done|by apply Hw].
    + intros i1 i2. rewrite !Hl2h. destruct (decide (i1 = i)) as [->|H1], (decide (i2 = i)) as [->|H2']; try done; [| |apply Hw].
      * intros _ Heq. exfalso. apply (Hut i2); [nia|]. by rewrite <-Heq, Z.div_mul by lia.
      * intros Hne Heq. exfalso. apply (Hut i1); [done|]. by rewrite Heq, Z.div_mul by lia.
    + intros i' j Hj. rewrite He in Hj. rewrite Hge, Hdh by done. by apply Hw.
    + intros i' j Hj. rewrite He in Hj. rewrite Hdh by done. intros Hd. destruct (wo_data _ _ Hw i' j Hj Hd) as (Hg & Hn & Ht). split_and!.
      * by apply Hgood.
      * change (l2_cache q') with (l2_cache q2). by rewrite Hc2.
      * intros i2. rewrite Hl2h. destruct (decide (i2 = i)) as [->|]; [|apply Ht]. intros Heq. apply (Hud i' j Hj Hd). by rewrite <-Heq, Z.div_mul by lia.
    + intros i1 j1 i2 j2 Hj1 Hj2. rewrite He in Hj1, Hj2. rewrite !Hdh by done. by apply Hw.
    + intros c Hc. destruct (wo_P _ _ Hw c Hc) as (Hc0 & Hcr & Hcb & Hcl). rewrite Hcs'. pose proof (ke_len _ _ _ _ Hk2).
      split_and!; [done|by apply Hrc0| |change (q_file q') with (q_file q2); lia]. apply (keeps_not_block nowhere nowhere q q2); try done. by intros [].
    + intros i'. rewrite Hl2h, Hcs'. destruct (decide (i' = i)) as [->|Hne].
      * rewrite Z.div_mul by lia. done.
      * intros Hi' HPi. change (2 ≤ rc q2 (l2h q i' / cluster_size q)). rewrite Hrck; [by apply Hw|by apply Hw|].
        right. intros Heq. apply Hne. by apply (wo_tables_inj _ _ Hw).
    + intros i' j Hj. rewrite He in Hj. rewrite Hdh, Hge, Hcs' by done. intros Hd HPd.
      destruct (wo_data _ _ Hw i' j Hj Hd) as (Hg & _ & Ht). change (rc q') with (rc q2). rewrite Hrck; [by apply Hw|done|]. right. intros Heq. by apply (Ht i).
  - constructor; try done.
    + by rewrite <-(ke_bits _ _ _ _ Hk2).
    + by rewrite <-(ke_size _ _ _ _ Hk2).
    + unfold q'. cbn [l1 set_l1 set_l1_dirty]. by rewrite length_insert, Hl12.
    + intros i' j Hj Hd. apply Hgood. by apply (wo_data _ _ Hw i' j).
    + intros c Hc. destruct (wo_P _ _ Hw c Hc) as (Hc0 & Hcr & Hcb & Hcl). apply (ke_tables _ _ _ _ Hk2); try done. by intros [].
    + intros o. unfold backing_byte. change (backing_image q') with (backing_image q2). by rewrite Hb2.
    + destruct (ke_meta _ _ _ _ Hk2) as (Hst & Hhd & _ & Hrd & Hru). split_and!; [split_and!; try apply Hst; done|exact (ke_rtlen _ _ _ _ Hk2)| | |].
      * intros c Hc. destruct (wo_P _ _ Hw c Hc) as (Hc0 & _). split; [|split].
        -- split.
           ++ intros Hrc1. change (rc q') with (rc q2). rewrite Hrc2; [done|done|]. destruct (decide (old = 0)) as [?|Ho]; [by left|]. right. intros ->.
              rewrite (proj2 (Z.eqb_neq old 0)) in H2 by done. lia.
           ++ by apply Hset.
        -- intros [Hnt Hnc]. unfold off_table. rewrite Hcs'. change (l2_cache q') with (l2_cache q2). rewrite Hc2. split; [|done].
           intros i'. rewrite Hl2h. case_decide as Hd; [|apply Hnt]. intros _ Heq. apply Z.mul_reg_r in Heq; [congruence|lia].
        -- intros Hnd i' j. rewrite He, Hcs'. intros Hj. rewrite Hdh by done. by apply Hnd.
      * intros i'. rewrite Hl2h. case_decide as Hd; [|done]. intros _ HPh. rewrite Z.div_mul in HPh by lia. done.
      * intros x Hx. change (rc q' x) with (rc q2 x). destruct (Z.eqb_spec old 0) as [Ho|Ho]; [subst q2; lia|]. destruct H2 as [_ Hco]. rewrite (co_rc _ _ _ _ Hco) by done.
        destruct (Z.eqb_spec x oc) as [->|]; lia.
  - rewrite Hl2h. by rewrite decide_True.
Qed.

(** ** Storing an entry *)

(** Steps that keep the refcounts and their table keep the allocator's
    invariant. *)
Lemma alloc_ok_same q q' :
  alloc_ok q → phys q' → refcount_table q' = refcount_table q → cluster_size q' = cluster_size q → refcount_bits q' = refcount_bits q →
  q_free q' = q_free q → (∀ x, 0 ≤ x → rc q' x = rc q x) → alloc_ok q'.
Proof.
  intros [Hp Hf Hs Hz] Hp' Hrt Hcs Hw Hfr Hrc. pose proof (phys_cs q Hp).
  assert (∀ ti, rt_host q' ti = rt_host q ti) as Hh by (intros; unfold rt_host; by rewrite Hrt).
  constructor; [done| | |by rewrite Hrc by lia].
  - intros c. rewrite Hfr. intros Hc. destruct (Hf c Hc) as (? & ? & ?). unfold covered, refblock_entries. rewrite Hcs, Hw, Hh, Hrc by done. done.
  - intros ti Hti. rewrite Hh, Hcs. intros Hhi. rewrite Hrc; [by apply Hs|]. destruct (ph_rt q Hp ti Hti Hhi) as (? & _). apply Z.div_pos; lia.
Qed.

Lemma tstep_alloc_ok k tab q q' : alloc_ok q → tstep k tab q q' → alloc_ok q'.
Proof. intros Ha [P1 P2 P3 P4 P5 P6 P7 P8 P9 P10 P11 P12 P13 P14 P15]. by apply (alloc_ok_same q). Qed.

(** The mapping after the entry of one guest cluster became [v]; [tab] says
    what the clusters hold. *)
Record remapped (P : Z → Prop) (i : nat) (j v : Z) (tab : Z → bytes) q q' : Prop := mkRemapped {
  rm_bits : cluster_bits q' = cluster_bits q;
  rm_cs : cluster_size q' = cluster_size q;
  rm_size : q_size q' = q_size q;
  rm_l1 : l1 q' = l1 q;
  rm_rt : refcount_table q' = refcount_table q;
  rm_room : room q ≤ room q';
  rm_ge i' j' : 0 ≤ j' < l2_entries q → ge q' i' j' = if decide (i' = i ∧ j' = j) then v else ge q i' j';
  rm_tables k : good q k → k ≠ l2h q i → l2_table q' k = tab k;
  rm_P c : P c → l2_table q' (c * cluster_size q) = l2_table q (c * cluster_size q);
  rm_backing o : backing_byte q' o = backing_byte q o;
  rm_meta : meta_step P q q' }.

(** The entry of a guest cluster becomes [v], which names the host it had, a
    fresh one or none; unless it keeps its host it lost a reference to the old
    one, if there was one. *)
Section store.
Context (P : Z → Prop) (q q2 q' : Qcow2Image B) (i : nat) (j v : Z).
#[local] Abbreviation T := (l2h q i).
#[local] Abbreviation D := (dh q i j).
#[local] Abbreviation D' := (Z.land v OFFSET_MASK).
#[local] Abbreviation cs := (cluster_size q).
Context (Hw : write_ok P q) (Hj : 0 ≤ j < l2_entries q) (HT : T ≠ 0) (HPT : ¬ P (T / cs))
  (Hvc : Z.land v COMPRESSED_BIT = 0) (Hvz : Z.land v ZERO_BIT = 0) (Hv : 0 ≤ v < 2 ^ 64)
  (Hcase : (D' = D ∧ D ≠ 0 ∧ ¬ P (D / cs) ∧ q2 = q) ∨
     ((D' = 0 ∨ unused P q (D' / cs) ∧ good q D' ∧ c_map (l2_cache q) !! D' = None) ∧
      if D =? 0 then q2 = q else counted (D / cs) (rc q (D / cs) - 1) q q2))
  (Ht : tstep T (λ k, if k =? T then splice (l2_table q2 T) (j * 8) (u64_be v) else l2_table q2 k) q2 q').

Lemma store_alloc : alloc_ok q.
Proof. apply Hw. Qed.
Lemma store_phys : phys q.
Proof. exact (ao_phys q store_alloc). Qed.
Lemma store_old : D ≠ 0 → good q D ∧ ∀ i', l2h q i' ≠ D.
Proof. intros HD. by destruct (wo_data _ _ Hw i j Hj HD) as (? & _ & ?). Qed.
Lemma good_cluster k : good q k → 0 ≤ k / cs.
Proof. intros ((? & _) & _). pose proof (phys_cs q store_phys). apply Z.div_pos; lia. Qed.
Lemma good_same k k' : good q k → good q k' → k / cs = k' / cs → k = k'.
Proof. intros Hk Hk'. apply aligned_same; [apply store_phys|by apply good_aligned|by apply good_aligned]. Qed.

(** The new host is nothing else's. *)
Lemma store_new : D' ≠ 0 → good q D' ∧ c_map (l2_cache q) !! D' = None ∧ (∀ i', l2h q i' ≠ D') ∧ ¬ P (D' / cs) ∧
  ∀ i' j', 0 ≤ j' < l2_entries q → ¬ (i' = i ∧ j' = j) → dh q i' j' ≠ 0 → dh q i' j' ≠ D'.
Proof.
  intros Hz0. destruct Hcase as [(HDD & HD0 & HPd & _)|[[?|((Hu1 & Hu2 & Hu3) & Hg & Hn)] _]]; [|done|].
  - rewrite HDD in *. destruct (wo_data _ _ Hw i j Hj HD0) as (? & ? & ?). split_and!; try done.
    intros i' j' Hj' Hne Hd' Heq. apply Hne. by apply (wo_data_inj _ _ Hw).
  - split_and!; try done.
    + intros i' Heq. apply (Hu1 i'); [congruence|]. by rewrite Heq.
    + intros i' j' Hj' Hne Hd' Heq. apply (Hu2 i' j' Hj' Hd'). by rewrite Heq.
Qed.

(** ** The old host lost a reference *)

Lemma store_dropped : alloc_ok q2 ∧ keeps nowhere nowhere q q2 ∧ l1 q2 = l1 q ∧ refcount_table q2 = refcount_table q ∧ backing_image q2 = backing_image q ∧
  c_map (l2_cache q2) = c_map (l2_cache q).
Proof.
  destruct Hcase as [(_ & _ & _ & ->)|[_ Hq2]]; [split_and!; try done; [exact store_alloc|apply keeps_refl]|].
  destruct (Z.eqb_spec D 0) as [HD|HD]; [subst q2; split_and!; try done; [exact store_alloc|apply keeps_refl]|]. by destruct Hq2.
Qed.
Lemma store_rc x : 0 ≤ x → rc q' x = rc q x ∨ (D ≠ 0 ∧ D' ≠ D ∧ x = D / cs ∧ rc q' x = rc q x - 1).
Proof.
  intros Hx. rewrite (ts_rc _ _ _ _ Ht) by done. destruct Hcase as [(_ & _ & _ & ->)|[HD' Hq2]]; [by left|].
  destruct (Z.eqb_spec D 0) as [HD|HD]; [subst q2; by left|]. rewrite (co_rc _ _ _ _ Hq2) by done. destruct (Z.eqb_spec x (D / cs)) as [->|]; [|by left].
  right. split_and!; try done. destruct HD' as [->|((_ & Hu & _) & _)]; [done|]. intros E. apply (Hu i j Hj HD). by rewrite E.
Qed.
Lemma store_cs : cluster_size q' = cs ∧ l2_entries q' = l2_entries q.
Proof.
  destruct store_dropped as (_ & Hk & _). assert (cluster_size q' = cs) as E by (rewrite (ts_cs _ _ _ _ Ht); apply Hk). split; [done|]. unfold l2_entries. by rewrite E.
Qed.
Lemma store_keeps : alloc_ok q' ∧ len (q_file q) ≤ len (q_file q') ∧ (∀ k, is_block q' k ↔ is_block q2 k) ∧ l1 q' = l1 q ∧
  (∀ k, c_map (l2_cache q) !! k = None → k ≠ T → c_map (l2_cache q') !! k = None).
Proof.
  destruct store_dropped as (Ha2 & Hk & Hl & _ & _ & Hc). split_and!.
  - exact (tstep_alloc_ok _ _ _ _ Ha2 Ht).
  - rewrite (ts_len _ _ _ _ Ht). apply Hk.
  - intros k. unfold is_block, rt_host. by rewrite (ts_rt _ _ _ _ Ht).
  - by rewrite (ts_l1 _ _ _ _ Ht).
  - intros k Hk' HkT. destruct (c_map (l2_cache q') !! k) eqn:E; [|done]. exfalso. destruct (ts_keys _ _ _ _ Ht k) as [[? Hs]|?]; [by rewrite E| |done]. rewrite Hc in Hs. congruence.
Qed.
Lemma store_l2h i' : l2h q' i' = l2h q i'.
Proof. destruct store_keeps as (_ & _ & _ & Hl & _). unfold l2h. by rewrite Hl. Qed.

(** Everything in use but the old host stays in use. *)
Lemma store_rc_good k : good q k → k ≠ D ∨ D' = D → rc q' (k / cs) = rc q (k / cs).
Proof.
  intros Hg Hne. destruct (store_rc (k / cs) (good_cluster k Hg)) as [?|(HD & HDD & Hk & _)]; [done|]. exfalso.
  destruct Hne as [Hne|?]; [|done]. apply Hne, good_same; [done|by apply store_old|done].
Qed.
Lemma store_not_block c : 0 ≤ c → ¬ is_block q (c * cs) → ¬ is_block q' (c * cs).
Proof.
  intros Hc Hb. destruct store_dropped as (_ & Hk & _), store_keeps as (_ & _ & Hblk & _). rewrite Hblk.
  apply (keeps_not_block nowhere nowhere q q2); try done; [exact store_phys|by intros []].
Qed.
Lemma store_table k : good q k → l2_table q2 k = l2_table q k.
Proof.
  intros ((? & Hm & Hl) & Hr & Hb). destruct store_dropped as (_ & Hk & _). pose proof (aligned_cluster q k store_phys Hm) as Ha. pose proof (phys_cs q store_phys).
  pose proof (ke_tables _ _ _ _ Hk (k / cs)) as Hkt. rewrite Ha in Hkt. apply Hkt; try done; [apply Z.div_pos; lia|by intros []|rewrite Z.mul_add_distr_r, Ha; lia].
Qed.
Lemma store_other k : good q k → k ≠ T → l2_table q' k = l2_table q k.
Proof. intros Hg HkT. rewrite (ts_tables _ _ _ _ Ht), (proj2 (Z.eqb_neq _ _)) by done. by apply store_table. Qed.
Lemma store_good k : good q k → k ≠ D ∨ D' = D → good q' k.
Proof.
  intros Hg Hne. pose proof Hg as ((? & Hm & ?) & ? & Hb). destruct store_cs as [Hcs _], store_keeps as (_ & ? & _).
  pose proof (store_not_block (k / cs) (good_cluster k Hg)) as Hnb. rewrite (aligned_cluster q k store_phys Hm) in Hnb.
  unfold good, table_at. rewrite Hcs, store_rc_good by done. split_and!; try done; [lia|by apply Hnb].
Qed.
Lemma store_good_table i' : l2h q i' ≠ 0 → good q' (l2h q i') ∧ rc q' (l2h q i' / cs) = rc q (l2h q i' / cs).
Proof.
  intros Hi. pose proof (wo_tables _ _ Hw i' Hi) as Hg. assert (l2h q i' ≠ D) as Hne by (intros E; apply (proj2 (store_old ltac:(congruence)) i' E)).
  split; [apply store_good|apply store_rc_good]; auto.
Qed.
Lemma store_good_data i' j' : 0 ≤ j' < l2_entries q → ¬ (i' = i ∧ j' = j) → dh q i' j' ≠ 0 → good q' (dh q i' j') ∧ rc q' (dh q i' j' / cs) = rc q (dh q i' j' / cs).
Proof.
  intros Hj' Hne Hd. destruct (wo_data _ _ Hw i' j' Hj' Hd) as (Hg & _). assert (dh q i' j' ≠ D) by (intros E; apply Hne; by apply (wo_data_inj _ _ Hw)).
  split; [apply store_good|apply store_rc_good]; auto.
Qed.
Lemma store_P c : P c → 0 ≤ c ∧ rc q' c ≠ 0 ∧ ¬ is_block q' (c * cs) ∧ l2_table q' (c * cs) = l2_table q (c * cs) ∧ (rc q c = 1 → rc q' c = 1).
Proof.
  intros HPc. destruct (wo_P _ _ Hw c HPc) as (Hc & Hr & Hb & Hl). pose proof (phys_cs q store_phys). split; [done|]. split; [|split_and!].
  - destruct (store_rc c Hc) as [->|(HD & _ & -> & ->)]; [done|]. destruct (wo_P_data _ _ Hw i j Hj HD HPc). lia.
  - by apply store_not_block.
  - apply store_other; [|intros E; apply HPT; by rewrite <-E, Z.div_mul by lia]. unfold good, table_at. rewrite Z.div_mul by lia. split_and!; try done; [lia|apply Z.mod_mul; lia|lia].
  - intros Ho1. destruct (store_rc c Hc) as [->|(HD & _ & -> & _)]; [done|]. destruct (wo_P_data _ _ Hw i j Hj HD HPc). lia.
Qed.

(** ** The mapping *)

Lemma store_ge i' j' : 0 ≤ j' < l2_entries q → ge q' i' j' = if decide (i' = i ∧ j' = j) then v else ge q i' j'.
Proof.
  intros Hj'. unfold ge. rewrite store_l2h. destruct (Z.eqb_spec (l2h q i') 0) as [Hz0|Hz0]; [rewrite decide_False; [done|]; by intros [-> _]|].
  rewrite (ts_tables _ _ _ _ Ht). pose proof (wo_tables _ _ Hw i HT) as HgT. destruct (l2_shape q T store_phys (proj1 HgT)) as [HlT _].
  destruct (Z.eqb_spec (l2h q i') T) as [HeT|HneT].
  - pose proof (wo_tables_inj _ _ Hw i' i Hz0 HeT) as ->. rewrite store_table by done.
    rewrite word_splice; [|done|lia|lia|by eapply entry_fits; [exact store_phys|..]..]. destruct (Z.eqb_spec j' j) as [->|Hne]; [by rewrite decide_True|]. rewrite decide_False by tauto. done.
  - rewrite decide_False by (intros [-> _]; done). by rewrite store_table by (by apply (wo_tables _ _ Hw)).
Qed.
Lemma store_dh i' j' : 0 ≤ j' < l2_entries q → dh q' i' j' = if decide (i' = i ∧ j' = j) then D' else dh q i' j'.
Proof. intros Hj'. unfold dh. rewrite store_ge by done. by case_decide. Qed.

Lemma store_settled c : P c → settled q q' c.
Proof.
  intros HPc. destruct (store_P c HPc) as (Hc & _), store_cs as [Hcs He].
  assert (guest_table q' c → guest_table q c) as Htab by (unfold guest_table; rewrite Hcs; intros (i' & Hi'); exists i'; by rewrite store_l2h in Hi').
  assert (guest_data q' c → ∃ i' j', ¬ (i' = i ∧ j' = j) ∧ 0 ≤ j' < l2_entries q ∧ dh q i' j' ≠ 0 ∧ dh q i' j' / cs = c) as Hdat.
  { unfold guest_data. rewrite Hcs, He. intros (i' & j' & Hj' & Hd & Hce). rewrite store_dh in Hd, Hce by done. case_decide as Hij; [|by exists i', j'].
    subst c. by destruct (store_new Hd) as (_ & _ & _ & ? & _). }
  destruct (store_rc c Hc) as [Hrc|(HD & _ & Hce & Hrc)].
  - left. split; [done|]. intros [?%Htab|(i' & j' & _ & ? & ? & ?)%Hdat]; [by left|right; by exists i', j'].
  - right. destruct (store_old HD) as [HgD HtD]. split; [done|]. split; [right; by exists i, j|]. intros [(i' & Hi' & Hci)%Htab|(i' & j' & Hne & Hj' & Hd & Hci)%Hdat].
    + apply (HtD i'). apply good_same; [by apply (wo_tables _ _ Hw)|done|congruence].
    + apply Hne. apply (wo_data_inj _ _ Hw); try done. apply good_same; [by apply (wo_data _ _ Hw i' j' Hj' Hd)|done|congruence].
Qed.

Lemma store_write_ok : write_ok P q'.
Proof.
  destruct store_cs as [Hcs He], store_dropped as (_ & Hk & _ & _ & Hb & _), store_keeps as (Ha & Hlen & _ & Hl & Hkeys). constructor.
  - done.
  - rewrite (ts_size _ _ _ _ Ht), (ke_size _ _ _ _ Hk). apply Hw.
  - rewrite Hl. apply Hw.
  - intros b. rewrite (ts_backing _ _ _ _ Ht), Hb. apply Hw.
  - intros o. unfold backing_byte. rewrite (ts_backing _ _ _ _ Ht), Hb. apply (wo_bytes _ _ Hw o).
  - intros i'. rewrite store_l2h. intros Hi'. by apply store_good_table.
  - intros i1 i2. rewrite !store_l2h. apply Hw.
  - intros i' j' Hj'. rewrite He in Hj'. rewrite store_ge, store_dh by done. case_decide; [done|by apply Hw].
  - intros i' j' Hj'. rewrite He in Hj'. rewrite store_dh by done. setoid_rewrite store_l2h. case_decide as Hd; intros Hd0.
    + destruct (store_new Hd0) as (Hg & Hn & HtD & _). split_and!; [|apply Hkeys; [done|by apply not_eq_sym]|done]. apply store_good; [done|].
      destruct (decide (D' = D)); auto.
    + destruct (wo_data _ _ Hw i' j' Hj' Hd0) as (_ & ? & Ht'). split_and!; [by apply store_good_data|apply Hkeys; [done|by apply not_eq_sym]|done].
  - intros i1 j1 i2 j2 Hj1 Hj2. rewrite He in Hj1, Hj2. rewrite !store_dh by done.
    destruct (decide (i1 = i ∧ j1 = j)) as [[-> ->]|Ho1], (decide (i2 = i ∧ j2 = j)) as [[-> ->]|Ho2]; try done; [| |by apply Hw]; intros Hd0 Heq; exfalso.
    + destruct (store_new Hd0) as (_ & _ & _ & _ & Hne). by apply (Hne i2 j2 Hj2 Ho2); congruence.
    + destruct (store_new ltac:(congruence)) as (_ & _ & _ & _ & Hne). by apply (Hne i1 j1 Hj1 Ho1).
  - intros c HPc. destruct (wo_P _ _ Hw c HPc) as (_ & _ & _ & ?), (store_P c HPc) as (? & ? & ? & _). rewrite Hcs. split_and!; try done. lia.
  - intros i'. rewrite store_l2h, Hcs. intros Hi' HPi. rewrite (proj2 (store_good_table i' Hi')). by apply Hw.
  - intros i' j' Hj'. rewrite He in Hj'. rewrite store_dh, store_ge, Hcs by done. case_decide as Hd; intros Hd0 HPd; [by destruct (store_new Hd0) as (_ & _ & _ & ? & _)|].
    rewrite (proj2 (store_good_data i' j' Hj' Hd Hd0)). by apply Hw.
Qed.

Lemma store_meta : meta_step P q q'.
Proof.
  destruct store_cs as [Hcs He], store_dropped as (_ & Hk & _ & Hrt & _), store_keeps as (_ & _ & _ & _ & Hkeys). pose proof (phys_cs q store_phys).
  split_and!; [exact (meta_kept_trans _ _ _ (ke_meta _ _ _ _ Hk) (ts_meta _ _ _ _ Ht))|by rewrite (ts_rt _ _ _ _ Ht), Hrt| |intros i'; by rewrite store_l2h|].
  - intros c HPc. split; [split; [by apply store_P|by apply store_settled]|]. unfold off_table, off_data. rewrite Hcs, He. split.
    + intros [Hnt Hnc]. split; [intros i'; rewrite store_l2h; apply Hnt|]. apply Hkeys; [done|]. intros HcT. apply HPT. by rewrite <-HcT, Z.div_mul by lia.
    + intros Hnd i' j' Hj'. rewrite store_dh by done. case_decide as Hd; [|by apply Hnd]. intros Hd0 Heq. destruct (store_new Hd0) as (_ & _ & _ & HP & _).
      apply HP. by rewrite Heq, Z.div_mul by lia.
  - intros x Hx. destruct (store_rc x Hx) as [->|(_ & _ & _ & ->)]; lia.
Qed.

Lemma store_entry : write_ok P q' ∧ remapped P i j v (l2_table q) q q'.
Proof.
  split; [exact store_write_ok|]. destruct store_cs as [Hcs He], store_dropped as (_ & Hk & Hl & Hrt & Hb & _). constructor.
  - by rewrite (ts_bits _ _ _ _ Ht), (ke_bits _ _ _ _ Hk).
  - done.
  - by rewrite (ts_size _ _ _ _ Ht), (ke_size _ _ _ _ Hk).
  - by rewrite (ts_l1 _ _ _ _ Ht), Hl.
  - by rewrite (ts_rt _ _ _ _ Ht).
  - pose proof (tstep_room _ _ _ _ Ht). assert (room q ≤ room q2); [|lia]. destruct Hcase as [(_ & _ & _ & ->)|[_ Hq2]]; [done|].
    destruct (D =? 0); [by subst q2|exact (co_room _ _ _ _ Hq2)].
  - exact store_ge.
  - exact store_other.
  - intros c HPc. by apply store_P.
  - intros o. unfold backing_byte. by rewrite (ts_backing _ _ _ _ Ht), Hb.
  - exact store_meta.
Qed.
End store.

(** ** Writing data in place *)

Lemma data_write P q i j in_off part :
  write_ok P q → 0 ≤ j < l2_entries q → dh q i j ≠ 0 → ¬ P (dh q i j / cluster_size q) →
  0 ≤ in_off → 0 < len part → in_off + len part ≤ cluster_size q → bytes_ok part →
  ∃ q', write_file (dh q i j + in_off) part q = (q', DOk tt) ∧ write_ok P q' ∧
    remapped P i j (ge q i j) (λ k, if k =? dh q i j then splice (l2_table q k) in_off part else l2_table q k) q q'.
Proof.
  intros Hw Hj HD HPD Hin Hpl Hpe Hpok. pose proof (wo_alloc _ _ Hw) as Ha. pose proof (ao_phys q Ha) as Hp. pose proof (phys_cs q Hp) as Hcs.
  destruct (wo_data _ _ Hw i j Hj HD) as (HgD & HnD & HtD). set (D := dh q i j) in *. pose proof HgD as ((HD0 & HDm & HDl) & HDr & HDb).
  set (c := D / cluster_size q) in *. assert (0 ≤ c) as Hc0 by (apply Z.div_pos; lia).
  pose proof (aligned_cluster q D Hp HDm) as HcD. fold c in HcD.
  destruct (write_in_cluster q c (D + in_off) part) as (Hwf & Hp' & Hk & Hrc & _ & Htab); try (done || lia).
  { by rewrite HcD. } { by rewrite HcD. }
  set (q' := set_file (write_all_at (q_file q) (D + in_off) part) q) in *. exists q'. split; [exact Hwf|].
  rewrite HcD in Htab. replace (D + in_off - D) with in_off in Htab by lia.
  assert (l2_table q' D = splice (l2_table q D) in_off part) as HtabD.
  { rewrite Htab. f_equal. unfold l2_table, view. rewrite HnD, tables_at by done. apply slice_app_l; lia. }
  assert (∀ k, good q k → k ≠ D → l2_table q' k = l2_table q k) as Hother.
  { intros k ((? & Hkm & ?) & ? & Hkb) Hne. pose proof (aligned_cluster q k Hp Hkm) as Hck.
    pose proof (ke_tables _ _ _ _ Hk (k / cluster_size q)) as Hkt. rewrite Hck in Hkt. apply Hkt; try done; [apply Z.div_pos; lia| |rewrite Z.mul_add_distr_r, Hck; lia].
    intros Hx. apply Hne. by rewrite <-Hck, Hx. }
  assert (∀ k, good q k → good q' k) as Hgood.
  { intros k ((? & ? & ?) & Hkr & ?). pose proof (ke_len _ _ _ _ Hk). unfold good, table_at. change (cluster_size q') with (cluster_size q).
    rewrite Hrc by (apply Z.div_pos; lia). split_and!; try done. lia. }
  assert (∀ i' j', ge q' i' j' = ge q i' j') as Hge.
  { intros i' j'. unfold ge. change (l2h q' i') with (l2h q i'). destruct (Z.eqb_spec (l2h q i') 0) as [|Hi']; [done|]. rewrite Hother; [done|by apply Hw|apply HtD]. }
  assert (∀ i' j', dh q' i' j' = dh q i' j') as Hdh by (intros; unfold dh; by rewrite Hge).
  assert (∀ c', P c' → l2_table q' (c' * cluster_size q) = l2_table q (c' * cluster_size q)) as HP.
  { intros c' Hc'. destruct (wo_P _ _ Hw c' Hc') as (? & ? & ? & ?). apply (ke_tables _ _ _ _ Hk); try done. by intros ->. }
  split.
  - constructor; try done.
    + apply (alloc_ok_same q); done.
    + apply Hw.
    + apply (wo_l1 _ _ Hw).
    + apply (wo_backing _ _ Hw).
    + apply (wo_bytes _ _ Hw).
    + intros i' Hi'. by apply Hgood, (wo_tables _ _ Hw).
    + apply (wo_tables_inj _ _ Hw).
    + intros i' j' Hj'. rewrite Hge, Hdh. by apply Hw.
    + intros i' j' Hj'. rewrite Hdh. intros Hd. destruct (wo_data _ _ Hw i' j' Hj' Hd) as (? & ? & ?). split_and!; try done. by apply Hgood.
    + intros i1 j1 i2 j2. rewrite !Hdh. apply Hw.
    + intros c' Hc'. destruct (wo_P _ _ Hw c' Hc') as (? & ? & ? & ?). pose proof (ke_len _ _ _ _ Hk). rewrite Hrc by done.
      split_and!; try done. change (cluster_size q') with (cluster_size q). lia.
    + intros i' Hi' HPi. change (l2h q' i') with (l2h q i') in *. change (cluster_size q') with (cluster_size q) in *.
      rewrite Hrc; [by apply Hw|]. destruct (wo_tables _ _ Hw i' Hi') as ((? & _) & _). apply Z.div_pos; lia.
    + intros i' j' Hj'. rewrite Hdh, Hge. intros Hd HPd. change (cluster_size q') with (cluster_size q) in *.
      rewrite Hrc; [by apply Hw|]. destruct (wo_data _ _ Hw i' j' Hj' Hd) as (((? & _) & _) & _). apply Z.div_pos; lia.
  - constructor; try done.
    + by apply room_same.
    + intros i' j' Hj'. rewrite Hge. case_decide as Hd; [by destruct Hd as [-> ->]|done].
    + intros k Hg HkT. destruct (Z.eqb_spec k D) as [->|Hne]; [done|by apply Hother].
    + split_and!; [done|done| |done|by apply low_same]. intros c' Hc'. destruct (wo_P _ _ Hw c' Hc') as (? & _). split_and!; try done; [by rewrite Hrc| |].
      * apply settled_same; try done. by apply Hrc.
      * intros Hnd i' j' Hj'. rewrite Hdh. by apply Hnd.
Qed.
End guest.
#[export] Hint Resolve same_guest_refl meta_step_refl : core.
