(* ===== verification/Qcow2Correct.v ===== *)
(** * qcow2 images: guest writes are correct

    The write path over the steps of the earlier files: a fresh cluster, the
    table a write goes through, one cluster of a write, and the whole. *)

From S2P Require Import Prelude TableCache Disk Qcow2 Qcow2Alloc Qcow2Read Qcow2Phys Qcow2Steps Qcow2Free Qcow2Write Qcow2Guest.

Section correct.
Context {B : Type} `{HB : DiskContents B} `{HI : InflateLaws}.
Implicit Types q : Qcow2Image B.

(** ** Steps that change nothing the guest sees *)

Lemma write_phys P q : write_ok P q → phys q.
Proof. intros Hw. exact (ao_phys _ (wo_alloc _ _ Hw)). Qed.
Lemma unused_same P q q' c : l1 q' = l1 q → same_guest P q q' → unused P q c → unused P q' c.
Proof.
  intros Hl Hs (Hu1 & Hu2 & Hu3). pose proof (sg_cs _ _ _ Hs) as Hcs.
  assert (l2_entries q' = l2_entries q) as He by (unfold l2_entries; by rewrite Hcs). split_and!; [| |done].
  - intros i. unfold l2h. rewrite Hl, Hcs. apply Hu1.
  - intros i j. rewrite He, Hcs. intros Hj. unfold dh. rewrite (sg_ge _ _ _ Hs) by done. by apply Hu2.
Qed.

Lemma quiet_step P q q' : write_ok P q → quiet q q' → q_free q' = q_free q → write_ok P q' ∧ same_guest P q q'.
Proof.
  intros Hw Hq Hf. pose proof (wo_alloc _ _ Hw) as Ha.
  apply (frame_step P nowhere nowhere); try done.
  - apply (quiet_alloc_ok q q' Ha Hq), (quiet_free_ok q q' Hq). rewrite Hf. apply Ha.
  - exact (qu_keeps _ _ Hq).
  - exact (qu_l1 _ _ Hq).
  - intros b. rewrite (qu_backing _ _ Hq). apply Hw.
  - intros o. unfold backing_byte. by rewrite (qu_backing _ _ Hq).
  - intros x Hx _. by apply (qu_rc _ _ Hq).
  - apply low_same, Hq.
Qed.
(** Loading a table caches it. *)
Lemma load_step P q q' i : write_ok P q → l2h q i ≠ 0 → tstep (l2h q i) (l2_table q) q q' → write_ok P q' ∧ same_guest P q q'.
Proof.
  intros Hw Hi Ht. pose proof (wo_alloc _ _ Hw) as Ha.
  apply (frame_step P nowhere (λ k, k = l2h q i)); try done.
  - by eapply tstep_alloc_ok.
  - apply (tstep_keeps _ (l2_table q)); [by eapply write_phys|done|done].
  - intros k ->. by exists i.
  - exact (ts_l1 _ _ _ _ Ht).
  - intros b. rewrite (ts_backing _ _ _ _ Ht). apply Hw.
  - intros o. unfold backing_byte. by rewrite (ts_backing _ _ _ _ Ht).
  - intros x Hx _. by apply (ts_rc _ _ _ _ Ht).
  - apply low_same, Ht.
Qed.

(** ** A fresh cluster with a content *)

Lemma fill_cluster P q q1 h content :
  write_ok P q → took q q1 h → len content = cluster_size q → bytes_ok content →
  ∃ q2 q', cluster_size q1 = cluster_size q ∧
    write_file (h * cluster_size q) content q1 = (q2, DOk tt) ∧ set_refcount h 1 q2 = (q', DOk tt) ∧
    write_ok P q' ∧ same_guest P q q' ∧ l1 q' = l1 q ∧ room q - 1 ≤ room q' ∧ 0 < h ∧ (h + 1) * cluster_size q ≤ 2 ^ 56 ∧
    unused P q' h ∧ good q' (h * cluster_size q) ∧ c_map (l2_cache q') !! (h * cluster_size q) = None ∧
    l2_table q' (h * cluster_size q) = content ∧ (∀ x, 0 ≤ x → rc q x ≠ 0 → rc q' x = rc q x) ∧ rc q' h = 1.
Proof.
  intros Hw (Hals & Hh & Hh0 & Hh1 & Hr1 & Hhr & Hnb & Hnc) Hlen Hok. pose proof (wo_alloc _ _ Hw) as Ha. pose proof (phys_cs q (ao_phys q Ha)) as Hcs.
  pose proof (ke_cs _ _ _ _ (al_keeps _ _ Hals)) as Hcs1. pose proof (free_unused P q h Hw Hh0) as Hun.
  destruct (frame_step P (λ c, rc q c = 0) nowhere q q1 Hw (al_ok _ _ Hals) (al_keeps _ _ Hals)) as [Hw1 Hs1]; try done.
  { intros c _ Hc. by apply free_unused. } { exact (al_l1 _ _ Hals). } { intros b. rewrite (al_backing _ _ Hals). apply Hw. }
  { intros o. unfold backing_byte. by rewrite (al_backing _ _ Hals). }
  { intros x Hx Hu. apply (al_rc _ _ Hals x Hx). intros Hz. by apply Hu, free_unused. } { apply Hals. }
  pose proof (unused_same P q q1 h (al_l1 _ _ Hals) Hs1 Hun) as Hun1.
  destruct (write_in_cluster q1 h (h * cluster_size q) content (write_phys P q1 Hw1)) as (Hwf & Hp2 & Hk2 & Hrc2 & Hl2 & Ht2); try (rewrite ?Hcs1; done || lia).
  set (q2 := set_file (write_all_at (q_file q1) (h * cluster_size q) content) q1) in *.
  assert (alloc_ok q2) as Ha2 by (apply (alloc_ok_same q1); try done; apply Hw1).
  destruct (frame_step P (λ c, c = h) nowhere q1 q2 Hw1 Ha2 Hk2) as [Hw2 Hs2]; try done.
  { by intros c _ ->. } { apply Hw1. } { intros x Hx _. by apply Hrc2. } { by apply low_same. }
  destruct (width_cases _ (ph_width q2 Hp2)) as (Hw0 & _).
  assert (rc q2 h = 1) as Hh2 by (rewrite Hrc2; [done|lia]).
  destruct (set_refcount_ok q2 h 1 Ha2 ltac:(lia)) as (q3 & Hset & [P1 P2 P3 P4 P5 P6 P7 P8]).
  { lia. } { assert (2 ^ 1 ≤ 2 ^ refcount_bits q2) by (apply Z.pow_le_mono_r; lia). lia. }
  assert (∀ x, 0 ≤ x → rc q3 x = rc q2 x) as Hrc3.
  { intros x Hx. rewrite P3 by done. destruct (Z.eqb_spec x h) as [->|]; [by rewrite Hh2|done]. }
  destruct (frame_step P nowhere nowhere q2 q3 Hw2 P1 P2) as [Hw3 Hs3]; try done.
  { intros b. rewrite P6. apply Hw2. } { intros o. unfold backing_byte. by rewrite P6. } { intros x Hx _. by apply Hrc3. } { by apply low_same. }
  pose proof (unused_same P q1 q2 h eq_refl Hs2 Hun1) as Hun2. pose proof (unused_same P q2 q3 h P5 Hs3 Hun2) as Hun3.
  assert (good q2 (h * cluster_size q)) as Hg2.
  { unfold good, table_at. change (cluster_size q2) with (cluster_size q1). rewrite Hcs1 in *. rewrite Z.div_mul by lia.
    split_and!; [nia|apply Z.mod_mul; lia|lia|lia|done]. }
  destruct (good_keeps nowhere nowhere q2 q3 (h * cluster_size q) Hp2 P2 Hg2) as [Hg3 Ht3]; [by intros []| |].
  { change (cluster_size q2) with (cluster_size q1). rewrite Hcs1, Z.div_mul, Hrc3 by lia. lia. }
  exists q2, q3. split_and!; try done.
  - eapply same_guest_trans; [exact Hs1|]. by eapply same_guest_trans.
  - rewrite P5. exact (al_l1 _ _ Hals).
  - assert (room q1 ≤ room q2) by (apply room_same; done). lia.
  - rewrite P7. exact Hnc.
  - rewrite Ht3. rewrite Hcs1 in Ht2. rewrite Ht2. rewrite Z.sub_diag. apply splice_whole.
    rewrite len_slice; [lia|lia|]. rewrite len_extended by lia. lia.
  - intros x Hx Hne. rewrite Hrc3, Hrc2 by done. by apply (al_rc _ _ Hals).
  - rewrite Hrc3 by lia. done.
Qed.
Lemma new_cluster P q content :
  write_ok P q → 1 ≤ room q → len content = cluster_size q → bytes_ok content →
  ∃ q1 q2 q' h, alloc_cluster q = (q1, DOk (h * cluster_size q)) ∧ cluster_size q1 = cluster_size q ∧
    write_file (h * cluster_size q) content q1 = (q2, DOk tt) ∧ set_refcount h 1 q2 = (q', DOk tt) ∧
    write_ok P q' ∧ same_guest P q q' ∧ l1 q' = l1 q ∧ room q - 1 ≤ room q' ∧ 0 < h ∧ (h + 1) * cluster_size q ≤ 2 ^ 56 ∧
    unused P q' h ∧ good q' (h * cluster_size q) ∧ c_map (l2_cache q') !! (h * cluster_size q) = None ∧
    l2_table q' (h * cluster_size q) = content ∧ (∀ x, 0 ≤ x → rc q x ≠ 0 → rc q' x = rc q x).
Proof.
  intros Hw Hroom Hlen Hok. destruct (alloc_cluster_spec q (wo_alloc _ _ Hw) Hroom) as (q1 & h & Hal & Htk).
  destruct (fill_cluster P q q1 h content Hw Htk Hlen Hok) as (q2 & q' & H1 & H2 & H3 & H4 & H5 & H6 & H7 & H8 & H9 & H10 & H11 & H12 & H13 & H14 & _).
  exists q1, q2, q', h. split; [exact Hal|done].
Qed.

(** ** The table of a write *)

Lemma write_ok_header P q : write_ok P q → write_ok P (set_header_dirty true q) ∧ same_guest P q (set_header_dirty true q).
Proof. intros [P1 P2 P3 P4 P5 P6 P7 P8 P9 P10 P11 P12 P13]. split; constructor; try done; [by apply alloc_ok_set_header|apply meta_step_same; try done; by apply low_same]. Qed.

Lemma fresh_table P q i l1e :
  write_ok P q → l1 q !! i = Some l1e → Z.land l1e OFFSET_MASK = 0 → 1 ≤ room q →
  ∃ q', l2_for_write i l1e q = (q', DOk (l2h q' i)) ∧ write_ok P q' ∧ same_guest P q q' ∧ room q - 1 ≤ room q' ∧
    l2h q' i ≠ 0 ∧ ¬ P (l2h q' i / cluster_size q').
Proof.
  intros Hw Hi Hz Hroom. pose proof (phys_cs q (write_phys P q Hw)) as Hcs. unfold l2_for_write. rewrite Hz. cbn [Z.eqb].
  assert (l2h q i = 0) as Hl by (unfold l2h; by rewrite Hi).
  destruct (new_cluster P q (replicate (Z.to_nat (cluster_size q)) 0)) as
    (q1 & q2 & q3 & h & Hal & Hcs1 & Hwf & Hset & Hw3 & Hs3 & Hl3 & Hr3 & Hh & Hhr & Hun & Hg & Hnc & Htab & _); try done.
  { rewrite len_replicate. lia. } { apply Forall_replicate. unfold is_u8. lia. }
  rewrite (dbind_ok _ _ _ _ _ Hal), (dbind_ok _ _ q1 q1 q1) by done. rewrite Hcs1, (dbind_ok _ _ _ _ _ Hwf), Z.div_mul by lia.
  rewrite (dbind_ok _ _ _ _ _ Hset). pose proof (sg_cs _ _ _ Hs3) as Hcs3.
  assert (l2h q3 i = 0) as Hl0 by (unfold l2h; rewrite Hl3; done).
  destruct (relink P q3 q3 i h Hw3) as (Hw4 & Hs4 & Hl4); try (rewrite ?Hcs3; done).
  { rewrite Hl3. by eapply lookup_lt_Some. }
  { intros j Hj. rewrite Hcs3, Htab, word_zeros. unfold ge. by rewrite Hl0. }
  { by rewrite Hl0. }
  rewrite Hcs3 in *. set (q4 := set_l1_dirty true (set_l1 (<[i := Z.lor (h * cluster_size q) COPIED_BIT]> (l1 q3)) q3)) in *.
  rewrite (dbind_ok _ _ q3 q4 tt) by done. destruct (write_ok_header P q4 Hw4) as [Hw5 Hs5].
  exists (set_header_dirty true q4). change (l2h (set_header_dirty true q4) i) with (l2h q4 i). rewrite Hl4. split_and!; try done.
  - eapply same_guest_trans; [exact Hs3|]. by eapply same_guest_trans.
  - nia.
  - change (cluster_size (set_header_dirty true q4)) with (cluster_size q3). rewrite Hcs3, Z.div_mul by lia. apply Hun.
Qed.

Lemma cow_table P q i :
  write_ok P q → (i < length (l1 q))%nat → l2h q i ≠ 0 → 1 ≤ room q →
  ∃ q', cow_l2_if_shared i q = (q', DOk (l2h q' i)) ∧ write_ok P q' ∧ same_guest P q q' ∧ room q - 1 ≤ room q' ∧
    l2h q' i ≠ 0 ∧ ¬ P (l2h q' i / cluster_size q').
Proof.
  intros Hw Hi Hl Hroom. pose proof (write_phys P q Hw) as Hp. pose proof (phys_cs q Hp) as Hcs. unfold cow_l2_if_shared.
  rewrite (dbind_ok _ _ q q q) by done. destruct (lookup_lt_is_Some_2 (l1 q) i Hi) as [l1e He]. unfold id. rewrite He.
  assert (Z.land l1e OFFSET_MASK = l2h q i) as -> by (unfold l2h; by rewrite He). rewrite (proj2 (Z.eqb_neq _ _)) by done.
  destruct (wo_tables _ _ Hw i Hl) as ((Ho0 & Hom & Hol) & Horc & Honb). set (old := l2h q i) in *. set (oc := old / cluster_size q) in *.
  assert (0 ≤ oc) as Hoc by (apply Z.div_pos; lia).
  destruct (get_refcount_spec q oc Hp Hoc) as (q1 & Hg & Hq1 & Hf1). rewrite (dbind_ok _ _ _ _ _ Hg).
  destruct (quiet_step P q q1 Hw Hq1 Hf1) as [Hw1 Hs1]. pose proof (quiet_room _ _ Hq1 Hf1) as Hr1. pose proof (sg_cs _ _ _ Hs1) as Hcs1.
  assert (∀ q', l1 q' = l1 q → l2h q' i = old) as Hold by (intros q' Hl1; unfold l2h, old, l2h; by rewrite Hl1).
  pose proof (Hold q1 (qu_l1 _ _ Hq1)) as Ho1.
  destruct (Z.leb_spec (rc q oc) 1) as [Hrc|Hrc].
  { exists q1. rewrite Ho1, Hcs1. split_and!; try done; [lia|]. intros HP. pose proof (wo_P_tables _ _ Hw i Hl HP) as H2. fold old oc in H2. lia. }
  destruct (wo_tables _ _ Hw1 i ltac:(by rewrite Ho1)) as (Hat1 & Hrc1 & Hnb1). rewrite Ho1 in *.
  pose proof (write_phys P q1 Hw1) as Hp1. destruct (l2_shape q1 old Hp1 Hat1) as [Hlc Hokc].
  destruct (load_l2_phys q1 old Hp1 Hat1 Hnb1) as (q2 & d & Hld & Ht2 & Hk2).
  destruct (load_step P q1 q2 i Hw1) as [Hw2 Hs2]; [by rewrite Ho1|by rewrite Ho1|].
  destruct (cached_table_phys q2 old _ d (ts_phys _ _ _ _ Ht2) Hk2) as (q3 & Hcd & Ht3).
  pose proof (Hold q2 (eq_trans (ts_l1 _ _ _ _ Ht2) (qu_l1 _ _ Hq1))) as Ho2.
  destruct (load_step P q2 q3 i Hw2) as [Hw3 Hs3]; [by rewrite Ho2|by rewrite Ho2|].
  assert (read_cluster_via_cache old q1 = (q3, DOk (l2_table q1 old))) as Hrd.
  { unfold read_cluster_via_cache. by rewrite (dbind_ok _ _ _ _ _ Hld). }
  rewrite (dbind_ok _ _ _ _ _ Hrd).
  assert (cluster_size q3 = cluster_size q) as Hcs3 by (rewrite (ts_cs _ _ _ _ Ht3), (ts_cs _ _ _ _ Ht2); done).
  assert (l1 q3 = l1 q) as Hl3 by (rewrite (ts_l1 _ _ _ _ Ht3), (ts_l1 _ _ _ _ Ht2); exact (qu_l1 _ _ Hq1)).
  assert (room q ≤ room q3) as Hr3 by (pose proof (tstep_room _ _ _ _ Ht3); pose proof (tstep_room _ _ _ _ Ht2); lia).
  assert (rc q3 oc = rc q oc) as Hrc3 by (rewrite (ts_rc _ _ _ _ Ht3), (ts_rc _ _ _ _ Ht2), (qu_rc _ _ Hq1); done).
  destruct (new_cluster P q3 (l2_table q1 old)) as
    (q4 & q5 & q6 & h & Hal & Hcs4 & Hwf & Hset & Hw6 & Hs6 & Hl6 & Hr6 & Hh & Hhr & Hun & Hg6 & Hnc & Htab & Hrc6); try (lia || done).
  rewrite (dbind_ok _ _ _ _ _ Hal), (dbind_ok _ _ _ _ _ Hwf), Hcs3, Z.div_mul by lia. rewrite (dbind_ok _ _ _ _ _ Hset).
  pose proof (sg_cs _ _ _ Hs6) as Hcs6. rewrite Hcs3 in *.
  assert (rc q6 oc = rc q oc) as Hrc6' by (rewrite Hrc6, Hrc3; [done|done|lia]).
  destruct (dec_refcount_ok q6 oc (wo_alloc _ _ Hw6) Hoc ltac:(lia)) as (q7 & Hdec & Hco). fold oc. rewrite (dbind_ok _ _ _ _ _ Hdec).
  assert (l2h q6 i = old) as Ho6 by (apply Hold; by rewrite Hl6).
  assert (same_guest P q1 q6) as Hs16 by (eapply same_guest_trans; [exact Hs2|]; by eapply same_guest_trans).
  destruct (relink P q6 q7 i h Hw6) as (Hw8 & Hs8 & Hl8); try (rewrite ?Hcs6; done).
  { by rewrite Hl6, Hl3. }
  { intros j Hj. rewrite Hcs6, Htab. rewrite (sg_ge _ _ _ Hs16); [|unfold l2_entries in *; rewrite Hcs1; by rewrite Hcs6 in Hj].
    unfold ge. rewrite Ho1. by rewrite (proj2 (Z.eqb_neq _ _)). }
  { rewrite Ho6, (proj2 (Z.eqb_neq _ _)) by done. rewrite Hcs6. fold oc. split; [lia|done]. }
  rewrite Hcs6 in *. set (q8 := set_l1_dirty true (set_l1 (<[i := Z.lor (h * cluster_size q) COPIED_BIT]> (l1 q7)) q7)) in *.
  exists q8. rewrite Hl8. split_and!; try done.
  - eapply same_guest_trans; [exact Hs1|]. by eapply same_guest_trans.
  - pose proof (co_room _ _ _ _ Hco). assert (room q7 ≤ room q8) by (apply room_same; try done; apply Hw8). lia.
  - nia.
  - change (cluster_size q8) with (cluster_size q7). rewrite (ke_cs _ _ _ _ (co_keeps _ _ _ _ Hco)), Hcs6, Z.div_mul by lia. apply Hun.
Qed.
Lemma l2_for_write_spec P q i l1e :
  write_ok P q → l1 q !! i = Some l1e → 1 ≤ room q →
  ∃ q', l2_for_write i l1e q = (q', DOk (l2h q' i)) ∧ write_ok P q' ∧ same_guest P q q' ∧ room q - 1 ≤ room q' ∧
    l2h q' i ≠ 0 ∧ ¬ P (l2h q' i / cluster_size q').
Proof.
  intros Hw Hi Hroom. destruct (decide (Z.land l1e OFFSET_MASK = 0)) as [Hz|Hz]; [by apply fresh_table|].
  unfold l2_for_write. rewrite (proj2 (Z.eqb_neq _ _)) by done. apply cow_table; try done; [by eapply lookup_lt_Some|].
  unfold l2h. by rewrite Hi.
Qed.

(** ** Guest bytes *)

Definition l1_at q (o : Z) : nat := Z.to_nat (l1_index_of q o).
Definition entry_at q (o : Z) : Z := ge q (l1_at q o) (l2_index_of q o).
Definition entry_byte q (e o : Z) : Z :=
  if negb (Z.land e ZERO_BIT =? 0) then 0
  else if Z.land e OFFSET_MASK =? 0 then backing_byte q o
  else idx (l2_table q (Z.land e OFFSET_MASK)) (o mod cluster_size q).

Lemma index_range q o : phys q → 0 ≤ l2_index_of q o < l2_entries q.
Proof.
  intros Hp. pose proof (ph_bits q Hp). unfold l2_index_of. assert (l2_entries q = 2 ^ (cluster_bits q - 3)) as ->.
  { unfold l2_entries. rewrite (ph_cluster q Hp). change 8 with (2 ^ 3). by rewrite Z.pow_sub_r by lia. }
  rewrite Z.sub_1_r, <-Z.ones_equiv, Z.land_ones by lia. apply Z.mod_pos_bound, Z.pow_pos_nonneg; lia.
Qed.
Lemma source_entry q o : guest_source q o = from_entry (entry_at q o) (o mod cluster_size q).
Proof. unfold guest_source, entry_at, ge, l2h, l1_at. by case_match. Qed.

Lemma write_ok_qcow2 P q : write_ok P q → qcow2_ok q.
Proof.
  intros Hw. pose proof (write_phys P q Hw) as Hp. pose proof (phys_cs q Hp) as Hcs. constructor; try apply Hp; try apply Hw.
  - intros k t d Hk. by destruct (ph_l2k q Hp k t d Hk) as (? & ? & _).
  - intros k t. by rewrite (ph_rw q Hp).
  - intros i e Hi. assert (Z.land e OFFSET_MASK = l2h q i) as -> by (unfold l2h; by rewrite Hi). intros He. apply (wo_tables _ _ Hw i He).
  - intros o Ho. rewrite source_entry. pose proof (index_range q o Hp) as Hj. destruct (wo_entries _ _ Hw (l1_at q o) _ Hj) as [Hc _].
    unfold from_entry, entry_at. rewrite Hc. cbn [Z.eqb negb]. case_match; [done|]. case_match eqn:E; [done|]. bsplit.
    destruct (wo_data _ _ Hw (l1_at q o) _ Hj E) as (((? & Hm & ?) & _) & Hn & _). fold (dh q (l1_at q o) (l2_index_of q o)) in *.
    pose proof (Z.mod_pos_bound o (cluster_size q) ltac:(lia)). split; [lia|]. intros k t Hk.
    destruct (ph_l2k q Hp k t true Hk) as ((_ & Hkm & _) & _). destruct (aligned_apart (cluster_size q) k (dh q (l1_at q o) (l2_index_of q o))); [lia|done|done| |lia|lia].
    intros ->. congruence.
Qed.

Lemma guest_byte_entry P q o : write_ok P q → guest_byte q o = entry_byte q (entry_at q o) o.
Proof.
  intros Hw. pose proof (write_phys P q Hw) as Hp. pose proof (phys_cs q Hp) as Hcs. pose proof (index_range q o Hp) as Hj.
  destruct (wo_entries _ _ Hw (l1_at q o) _ Hj) as [Hc _]. unfold guest_byte. rewrite source_entry. unfold from_entry, entry_byte, entry_at in *.
  rewrite Hc. cbn [Z.eqb negb]. case_match; [done|]. case_match eqn:E; [done|]. bsplit.
  destruct (wo_data _ _ Hw (l1_at q o) _ Hj E) as (((? & Hm & ?) & _) & Hn & _). fold (dh q (l1_at q o) (l2_index_of q o)) in *.
  pose proof (Z.mod_pos_bound o (cluster_size q) ltac:(lia)). cbn [source_byte]. unfold l2_table, view. rewrite Hn, tables_at by done.
  rewrite idx_slice by lia. done.
Qed.

(** Where two offsets have the same entry. *)
Lemma entry_inj q o o' : qcow2_ok q → 0 ≤ o → 0 ≤ o' →
  l1_at q o = l1_at q o' ∧ l2_index_of q o = l2_index_of q o' ↔ o / cluster_size q = o' / cluster_size q.
Proof.
  intros Hok Ho Ho'. destruct (span_pow q Hok) as (_ & _ & Hn). pose proof (cluster_pos q Hok) as Hcs. unfold l1_at.
  rewrite !l1_index_div, !l2_index_div by done. unfold l2_span. rewrite (Z.mul_comm (l2_entries q)), <-!Z.div_div by lia.
  assert (∀ x, 0 ≤ x → 0 ≤ x / cluster_size q) as Hpos by (intros; apply Z.div_pos; lia). pose proof (Hpos o Ho). pose proof (Hpos o' Ho').
  split; [|by intros ->]. intros [E1 E2]. rewrite (Z.div_mod (o / cluster_size q) (l2_entries q)), (Z.div_mod (o' / cluster_size q) (l2_entries q)) by lia.
  rewrite E2. f_equal. f_equal. apply Z2Nat.inj; [apply Z.div_pos; lia|apply Z.div_pos; lia|done].
Qed.

(** [part] was written at guest offset [lo], and nothing else changed. *)
Record wrote (P : Z → Prop) (lo : Z) (part : bytes) q q' : Prop := mkWrote {
  wr_bits : cluster_bits q' = cluster_bits q;
  wr_cs : cluster_size q' = cluster_size q;
  wr_size : q_size q' = q_size q;
  wr_l1 : length (l1 q') = length (l1 q);
  wr_guest o : 0 ≤ o → guest_byte q' o = if (lo <=? o) && (o <? lo + len part) then idx part (o - lo) else guest_byte q o;
  wr_P c : P c → l2_table q' (c * cluster_size q) = l2_table q (c * cluster_size q);
  wr_meta : meta_step P q q';
  wr_backing o : backing_byte q' o = backing_byte q o }.

Lemma wrote_nothing lo o (x y : Z) : (if (lo <=? o) && (o <? lo + len (@nil Z)) then x else y) = y.
Proof. destruct ((lo <=? o) && (o <? lo + len (@nil Z))) eqn:E; [|done]. bsplit. change (len (@nil Z)) with 0 in *. lia. Qed.
Lemma wrote_trans_nil P lo lo' part q1 q2 q3 : wrote P lo [] q1 q2 → wrote P lo' part q2 q3 → wrote P lo' part q1 q3.
Proof.
  intros [P1 P2 P3 P4 P5 P6 P7 P8] [Q1 Q2 Q3 Q4 Q5 Q6 Q7 Q8]. constructor; try congruence.
  - intros o Ho. rewrite Q5 by done. rewrite P5 by done. by rewrite wrote_nothing.
  - intros c Hc. rewrite <-P2 at 1. rewrite Q6 by done. rewrite P2. by apply P6.
  - exact (meta_step_trans _ _ _ _ P2 P7 Q7).
Qed.
Lemma wrote_app P lo a b q1 q2 q3 : wrote P lo a q1 q2 → wrote P (lo + len a) b q2 q3 → wrote P lo (a ++ b) q1 q3.
Proof.
  intros [P1 P2 P3 P4 P5 P6 P7 P8] [Q1 Q2 Q3 Q4 Q5 Q6 Q7 Q8]. constructor; try congruence.
  - intros o Ho. rewrite Q5, P5 by done. rewrite len_app. pose proof (len_nonneg a). pose proof (len_nonneg b).
    destruct (Z.leb_spec (lo + len a) o), (Z.ltb_spec o (lo + len a + len b)); cbn [andb].
    + rewrite !(proj2 (Z.leb_le _ _)), !(proj2 (Z.ltb_lt _ _)) by lia. cbn [andb]. rewrite idx_app_r by lia. f_equal. lia.
    + rewrite !(proj2 (Z.ltb_ge o _)) by lia. by rewrite !andb_false_r.
    + destruct (Z.leb_spec lo o); cbn [andb]; [|done]. rewrite !(proj2 (Z.ltb_lt _ _)) by lia. by rewrite idx_app_l by lia.
    + destruct (Z.leb_spec lo o); cbn [andb]; lia.
  - intros c Hc. rewrite <-P2 at 1. rewrite Q6 by done. rewrite P2. by apply P6.
  - exact (meta_step_trans _ _ _ _ P2 P7 Q7).
Qed.
Lemma index_same q q' o : cluster_bits q' = cluster_bits q → cluster_size q' = cluster_size q → l1_at q' o = l1_at q o ∧ l2_index_of q' o = l2_index_of q o.
Proof. intros Hb Hc. unfold l1_at, l1_index_of, l2_index_of, l2_index_bits, l2_entries. by rewrite Hb, Hc. Qed.
Lemma same_guest_wrote P q q' lo : write_ok P q → write_ok P q' → same_guest P q q' → wrote P lo [] q q'.
Proof.
  intros Hw Hw' Hs. pose proof (sg_cs _ _ _ Hs) as Hcs. constructor; try apply Hs. intros o Ho. rewrite wrote_nothing.
  rewrite (guest_byte_entry P q'), (guest_byte_entry P q) by done. unfold entry_at.
  destruct (index_same q q' o) as [-> ->]; [apply Hs|done|]. pose proof (index_range q o (write_phys P q Hw)) as Hj.
  rewrite (sg_ge _ _ _ Hs) by done. unfold entry_byte. rewrite Hcs, (sg_backing _ _ _ Hs). case_match; [done|]. case_match eqn:E; [done|]. bsplit.
  f_equal. exact (sg_data _ _ _ Hs (l1_at q o) (l2_index_of q o) Hj E).
Qed.

(** The mapping of one guest cluster changed to an entry that stands for its
    new bytes. *)
Lemma remapped_bytes P q q' off in_off part v tab :
  write_ok P q → write_ok P q' → 0 ≤ off → off mod cluster_size q = 0 → 0 ≤ in_off → in_off + len part ≤ cluster_size q →
  remapped P (l1_at q off) (l2_index_of q off) v tab q q' →
  (∀ i j, 0 ≤ j < l2_entries q → ¬ (i = l1_at q off ∧ j = l2_index_of q off) → dh q i j ≠ 0 → tab (dh q i j) = l2_table q (dh q i j)) →
  (∀ x, 0 ≤ x < cluster_size q → (off + x) mod cluster_size q = x → entry_byte q' v (off + x) =
     if (in_off <=? x) && (x <? in_off + len part) then idx part (x - in_off) else guest_byte q (off + x)) →
  wrote P (off + in_off) part q q'.
Proof.
  intros Hw Hw' Ho Hm Hin Hl Hr Hothers Hbytes. pose proof (phys_cs q (write_phys P q Hw)) as Hcs. pose proof (write_ok_qcow2 P q Hw) as Hok.
  constructor; try apply Hr; [by rewrite (rm_l1 _ _ _ _ _ _ _ Hr)|]. intros o Ho0.
  rewrite (guest_byte_entry P q') by done. unfold entry_at. destruct (index_same q q' o) as [-> ->]; [apply Hr|apply Hr|].
  pose proof (index_range q o (write_phys P q Hw)) as Hj. rewrite (rm_ge _ _ _ _ _ _ _ Hr) by done.
  pose proof (Z.div_mod o (cluster_size q) ltac:(lia)) as Hdo. pose proof (Z.div_mod off (cluster_size q) ltac:(lia)) as Hdoff.
  pose proof (Z.mod_pos_bound o (cluster_size q) ltac:(lia)) as Hmo.
  pose proof (entry_inj q o off Hok Ho0 Ho) as Hinj. case_decide as Hd.
  - apply Hinj in Hd. set (x := o mod cluster_size q) in *. assert (off + x = o) as Hx by (rewrite Hd in Hdo; lia). specialize (Hbytes x Hmo ltac:(by rewrite Hx)).
    rewrite Hx in Hbytes. rewrite Hbytes.
    replace (off + in_off <=? o) with (in_off <=? x) by (destruct (Z.leb_spec in_off x), (Z.leb_spec (off + in_off) o); lia).
    replace (o <? off + in_off + len part) with (x <? in_off + len part)
      by (destruct (Z.ltb_spec x (in_off + len part)), (Z.ltb_spec o (off + in_off + len part)); lia).
    case_match; [f_equal; lia|done].
  - assert ((off + in_off <=? o) && (o <? off + in_off + len part) = false) as ->.
    { apply not_true_is_false. intros E. bsplit. apply Hd, Hinj.
      symmetry. apply (Z.div_unique o (cluster_size q) (off / cluster_size q) (o - off)); lia. }
    rewrite (guest_byte_entry P q) by done. unfold entry_byte. rewrite (rm_cs _ _ _ _ _ _ _ Hr), (rm_backing _ _ _ _ _ _ _ Hr). fold (entry_at q o).
    case_match; [done|]. case_match eqn:E; [done|]. bsplit.
    change (Z.land (entry_at q o) OFFSET_MASK) with (dh q (l1_at q o) (l2_index_of q o)) in *.
    destruct (wo_data _ _ Hw _ _ Hj E) as (Hgo & _ & Hto). rewrite (rm_tables _ _ _ _ _ _ _ Hr); [|done|by apply not_eq_sym, Hto].
    by rewrite Hothers.
Qed.
(** A host that holds them. *)
Lemma remapped_wrote P q q' off in_off part v tab :
  write_ok P q → write_ok P q' → 0 ≤ off → off mod cluster_size q = 0 → 0 ≤ in_off → in_off + len part ≤ cluster_size q →
  remapped P (l1_at q off) (l2_index_of q off) v tab q q' →
  Z.land v ZERO_BIT = 0 → Z.land v OFFSET_MASK ≠ 0 → good q (Z.land v OFFSET_MASK) → Z.land v OFFSET_MASK ≠ l2h q (l1_at q off) →
  (∀ i j, 0 ≤ j < l2_entries q → ¬ (i = l1_at q off ∧ j = l2_index_of q off) → dh q i j ≠ 0 → tab (dh q i j) = l2_table q (dh q i j)) →
  (∀ x, 0 ≤ x < cluster_size q → idx (tab (Z.land v OFFSET_MASK)) x =
     if (in_off <=? x) && (x <? in_off + len part) then idx part (x - in_off) else guest_byte q (off + x)) →
  wrote P (off + in_off) part q q'.
Proof.
  intros Hw Hw' Ho Hm Hin Hl Hr Hz Hh Hg HT Hothers Hbytes. apply (remapped_bytes P q q' off in_off part v tab); try done. intros x Hx Hmod.
  unfold entry_byte. rewrite Hz, (proj2 (Z.eqb_neq (Z.land v OFFSET_MASK) 0)) by done. cbn [Z.eqb negb].
  by rewrite (rm_cs _ _ _ _ _ _ _ Hr), Hmod, (rm_tables _ _ _ _ _ _ _ Hr), Hbytes.
Qed.
(** None: the backing image's. *)
Lemma remapped_cleared P q q' off tab :
  write_ok P q → write_ok P q' → 0 ≤ off → off mod cluster_size q = 0 → remapped P (l1_at q off) (l2_index_of q off) 0 tab q q' →
  (∀ k, tab k = l2_table q k) → wrote P off (content_at (backing_byte q) off (cluster_size q)) q q'.
Proof.
  intros Hw Hw' Ho Hm Hr Htab. pose proof (phys_cs q (write_phys P q Hw)) as Hcs. rewrite <-(Z.add_0_r off) at 1.
  apply (remapped_bytes P q q' off 0 _ 0 tab); rewrite ?len_content_at by lia; try done; try lia. intros x Hx _.
  rewrite (proj2 (Z.leb_le _ _)), (proj2 (Z.ltb_lt _ _)) by lia. cbn [andb]. rewrite Z.sub_0_r, idx_content_at by lia. apply (rm_backing _ _ _ _ _ _ _ Hr).
Qed.

(** ** What the image has itself *)

(** The byte does not come from the backing image. *)
Definition own q (o : Z) : Prop := Z.land (entry_at q o) ZERO_BIT ≠ 0 ∨ Z.land (entry_at q o) OFFSET_MASK ≠ 0.
#[export] Instance own_dec q o : Decision (own q o).
Proof. unfold own. apply _. Defined.
(** What the image had, it has, and the range. *)
Definition filled (lo n : Z) q q' : Prop := ∀ o, 0 ≤ o → own q o ∨ lo ≤ o < lo + n → own q' o.

Lemma filled_trans lo n m q1 q2 q3 : 0 ≤ m → filled lo n q1 q2 → filled (lo + n) m q2 q3 → filled lo (n + m) q1 q3.
Proof. intros Hm H1 H2 o Ho Hor. apply H2; [done|]. destruct (decide (lo + n ≤ o)); [destruct Hor; [left; apply H1; auto|right; lia]|left; apply H1; [done|]; destruct Hor; [by left|right; lia]]. Qed.
Lemma filled_after lo n q1 q2 q3 : filled lo 0 q1 q2 → filled lo n q2 q3 → filled lo n q1 q3.
Proof. intros H1 H2 o Ho [Hown|Hr]; apply H2; try done; [left; apply H1; auto|by right]. Qed.
Lemma own_outside P q q' o : write_ok P q → same_guest P q q' → own q' o ↔ own q o.
Proof.
  intros Hw Hs. unfold own, entry_at. destruct (index_same q q' o (sg_bits _ _ _ Hs) (sg_cs _ _ _ Hs)) as [-> ->].
  rewrite (sg_ge _ _ _ Hs) by (by apply index_range, (write_phys P)). done.
Qed.
Lemma same_guest_filled P q q' lo : write_ok P q → same_guest P q q' → filled lo 0 q q'.
Proof. intros Hw Hs o Ho [Hown|]; [by apply (own_outside P q q')|lia]. Qed.
Lemma remapped_filled P q q' off in_off n v tab :
  write_ok P q → 0 ≤ off → off mod cluster_size q = 0 → 0 ≤ in_off → in_off + n ≤ cluster_size q →
  remapped P (l1_at q off) (l2_index_of q off) v tab q q' → Z.land v OFFSET_MASK ≠ 0 → filled (off + in_off) n q q'.
Proof.
  intros Hw Ho Hm Hin Hl Hr Hv o Hoo Hor. pose proof (write_phys P q Hw) as Hp. pose proof (phys_cs q Hp) as Hcs. pose proof (write_ok_qcow2 P q Hw) as Hok.
  unfold own, entry_at. destruct (index_same q q' o (rm_bits _ _ _ _ _ _ _ Hr) (rm_cs _ _ _ _ _ _ _ Hr)) as [-> ->].
  rewrite (rm_ge _ _ _ _ _ _ _ Hr) by (by apply index_range). case_decide as Hd; [by right|]. destruct Hor as [Hown|Hrange]; [exact Hown|]. destruct Hd.
  apply (entry_inj q o off Hok Hoo Ho). pose proof (Z.div_mod off (cluster_size q) ltac:(lia)). symmetry. apply (Z.div_unique o (cluster_size q) _ (o - off)); lia.
Qed.

(** ** One cluster *)

Lemma owned_spec P q i j :
  write_ok P q → 0 ≤ j < l2_entries q →
  ∃ q' b, (if negb (dh q i j =? 0) then cluster_owned (ge q i j) else mret false) q = (q', DOk b) ∧
    write_ok P q' ∧ same_guest P q q' ∧ l1 q' = l1 q ∧ room q ≤ room q' ∧
    if (b : bool) then dh q i j ≠ 0 ∧ ¬ P (dh q i j / cluster_size q) else dh q i j = 0 ∨ 2 ≤ rc q' (dh q i j / cluster_size q).
Proof.
  intros Hw Hj. pose proof (write_phys P q Hw) as Hp. pose proof (phys_cs q Hp).
  destruct (Z.eqb_spec (dh q i j) 0) as [Hd|Hd]; cbn [negb].
  { exists q, false. split_and!; try done; by left. }
  destruct (wo_data _ _ Hw i j Hj Hd) as (((Hd0 & _) & Hdr & _) & _). set (c := dh q i j / cluster_size q) in *.
  assert (0 ≤ c) as Hc by (apply Z.div_pos; lia). unfold cluster_owned.
  destruct (Z.eqb_spec (Z.land (ge q i j) COPIED_BIT) 0) as [Hco|Hco]; cbn [negb].
  - rewrite (dbind_ok _ _ q q q) by done. unfold id. fold (dh q i j). fold c.
    destruct (get_refcount_spec q c Hp Hc) as (q' & Hg & Hq & Hf). rewrite (dbind_ok _ _ _ _ _ Hg).
    destruct (quiet_step P q q' Hw Hq Hf) as [Hw' Hs']. exists q', (rc q c =? 1).
    split_and!; try done; [exact (qu_l1 _ _ Hq)|by apply quiet_room|]. rewrite (qu_rc _ _ Hq) by done. pose proof (rc_bound q c Hp Hc).
    destruct (Z.eqb_spec (rc q c) 1) as [H1'|H1']; [|right; lia]. split; [done|]. intros HP. destruct (wo_P_data _ _ Hw i j Hj Hd HP) as [H2' _].
    fold c in H2'. lia.
  - exists q, true. split_and!; try done. intros HP. by destruct (wo_P_data _ _ Hw i j Hj Hd HP).
Qed.

Lemma read_unallocated_state q abs n : (read_unallocated abs n q).1 = set_backing_image (backing_image (read_unallocated abs n q).1) q.
Proof.
  unfold read_unallocated, mbind, dstate_bind, dgets, mret, dstate_ret, id, on_backing.
  destruct (backing_image q) as [b|] eqn:Hb; [|by destruct q].
  destruct (size b <=? abs); [simpl; destruct q; simpl in *; by rewrite Hb|].
  destruct (read_at abs (Z.min n (size b - abs)) b) as [b' [o|e| |]]; by destruct q.
Qed.
Lemma backing_step P q abs n :
  write_ok P q → 0 ≤ abs → 0 ≤ n →
  ∃ q', read_unallocated abs n q = (q', DOk (content_at (backing_byte q) abs n)) ∧ write_ok P q' ∧ same_guest P q q' ∧ l1 q' = l1 q ∧
    room q ≤ room q' ∧ ∀ x, rc q' x = rc q x.
Proof.
  intros Hw Ha Hn. destruct (read_unallocated_spec q abs n (write_ok_qcow2 P q Hw) Ha Hn) as (q' & Hr & Hok & Hu).
  pose proof (read_unallocated_state q abs n) as Hst. rewrite Hr in Hst. cbn [fst] in Hst. exists q'. split; [done|].
  assert (∀ x, rc q' x = rc q x) as Hrc by (intros x; by rewrite Hst).
  assert (l1 q' = l1 q ∧ room q ≤ room q') as [Hl Hro] by (by rewrite Hst).
  assert (alloc_ok q') as Ha'.
  { rewrite Hst. destruct (wo_alloc _ _ Hw) as [[] ? ? ?]. by constructor. }
  assert (keeps nowhere nowhere q q') as Hk.
  { rewrite Hst. constructor; try done. by left. }
  destruct (frame_step P nowhere nowhere q q' Hw Ha' Hk) as [? ?]; try done.
  - intros b. apply Hok.
  - apply Hu.
  - by apply low_same.
Qed.

Lemma cluster_base_spec P q off :
  write_ok P q → 0 ≤ off → off mod cluster_size q = 0 →
  ∃ q', cluster_base (entry_at q off) off q = (q', DOk (content_at (guest_byte q) off (cluster_size q))) ∧
    write_ok P q' ∧ same_guest P q q' ∧ l1 q' = l1 q ∧ room q ≤ room q' ∧ ∀ x, rc q' x = rc q x.
Proof.
  intros Hw Ho Hm. pose proof (write_phys P q Hw) as Hp. pose proof (phys_cs q Hp) as Hcs. pose proof (index_range q off Hp) as Hj.
  pose proof (write_ok_qcow2 P q Hw) as Hok. destruct (wo_entries _ _ Hw (l1_at q off) _ Hj) as [Hc _].
  assert (∀ x, 0 ≤ x < cluster_size q → guest_byte q (off + x) = entry_byte q (entry_at q off) (off + x) ∧ (off + x) mod cluster_size q = x) as Hg.
  { intros x Hx. pose proof (Z.div_mod off (cluster_size q) ltac:(lia)).
    assert ((off + x) / cluster_size q = off / cluster_size q) as Hd by (symmetry; apply (Z.div_unique (off + x) (cluster_size q) _ x); lia).
    destruct (proj2 (entry_inj q (off + x) off Hok ltac:(lia) Ho) Hd) as [E1 E2]. split.
    - rewrite (guest_byte_entry P q) by done. unfold entry_at. by rewrite E1, E2.
    - symmetry. apply (Z.mod_unique (off + x) (cluster_size q) (off / cluster_size q) x); lia. }
  unfold cluster_base. rewrite (dbind_ok _ _ q q q) by done. unfold id. unfold entry_at at 1. rewrite Hc. cbn [Z.eqb negb]. unfold entry_byte in Hg.
  destruct (negb (Z.land (entry_at q off) ZERO_BIT =? 0)).
  { exists q. split_and!; try done. unfold mret, dstate_ret. do 2 f_equal. apply zeros_content; [lia|]. intros x Hx. by destruct (Hg x Hx). }
  destruct (Z.eqb_spec (Z.land (entry_at q off) OFFSET_MASK) 0) as [Hh|Hh]; cbn [negb].
  - destruct (backing_step P q off (cluster_size q) Hw Ho ltac:(lia)) as (q' & Hr & ?). exists q'. split; [|done]. rewrite Hr. do 2 f_equal.
    apply content_at_ext. intros x Hx. by destruct (Hg x Hx).
  - change (Z.land (entry_at q off) OFFSET_MASK) with (dh q (l1_at q off) (l2_index_of q off)) in *.
    destruct (wo_data _ _ Hw _ _ Hj Hh) as (((? & Hdm & ?) & _) & Hn & _). exists q. split_and!; try done.
    unfold read_file. rewrite (dbind_ok _ _ q q q) by done. unfold dpure, id. rewrite read_exact_at_content by lia. do 2 f_equal.
    apply content_at_list; [rewrite len_content_at; lia|]. intros x Hx. rewrite idx_content_at by lia. destruct (Hg x Hx) as [-> ->].
    unfold l2_table, view. rewrite Hn, tables_at by done. by rewrite idx_slice by lia.
Qed.
Lemma guest_bytes_ok P q abs n : write_ok P q → bytes_ok (content_at (guest_byte q) abs n).
Proof.
  intros Hw. apply Forall_fmap, Forall_true. intros i. unfold compose. rewrite (guest_byte_entry P q) by done. unfold entry_byte.
  case_match; [unfold is_u8; lia|]. case_match; [apply (wo_bytes _ _ Hw)|]. apply idx_u8. unfold l2_table, view. case_match eqn:E.
  - destruct p as [t d]. by destruct (ph_l2k q (write_phys P q Hw) _ t d E) as (_ & _ & ? & _).
  - apply bytes_ok_tables. apply (ph_file q (write_phys P q Hw)).
Qed.

Lemma spliced_bytes (base part : bytes) (g : Z → Z) off in_off x :
  0 ≤ in_off → in_off + len part ≤ len base → 0 ≤ x < len base →
  (in_off ≤ x < in_off + len part ∨ idx base x = g (off + x)) →
  idx (splice base in_off part) x = if (in_off <=? x) && (x <? in_off + len part) then idx part (x - in_off) else g (off + x).
Proof.
  intros Hin Hl Hx Hb. destruct ((in_off <=? x) && (x <? in_off + len part)) eqn:E.
  - bsplit. rewrite idx_splice_in by lia. done.
  - rewrite idx_splice_out; [|lia|lia|lia|].
    + destruct Hb as [?|?]; [|done]. exfalso. apply andb_false_iff in E as [E|E]; bsplit; lia.
    + apply andb_false_iff in E as [E|E]; bsplit; lia.
Qed.

Lemma cluster_bytes P q off :
  write_ok P q → 0 ≤ off → off mod cluster_size q = 0 → dh q (l1_at q off) (l2_index_of q off) ≠ 0 →
  ∀ x, 0 ≤ x < cluster_size q → idx (l2_table q (dh q (l1_at q off) (l2_index_of q off))) x = guest_byte q (off + x).
Proof.
  intros Hw Ho Hm Hd x Hx. pose proof (write_phys P q Hw) as Hp. pose proof (phys_cs q Hp) as Hcs. pose proof (index_range q off Hp) as Hj.
  pose proof (write_ok_qcow2 P q Hw) as Hok. pose proof (Z.div_mod off (cluster_size q) ltac:(lia)).
  assert ((off + x) / cluster_size q = off / cluster_size q) as Hdv by (symmetry; apply (Z.div_unique (off + x) (cluster_size q) _ x); lia).
  destruct (proj2 (entry_inj q (off + x) off Hok ltac:(lia) Ho) Hdv) as [E1 E2].
  rewrite (guest_byte_entry P q) by done. unfold entry_byte, entry_at. rewrite E1, E2.
  destruct (wo_entries _ _ Hw (l1_at q off) _ Hj) as [_ Hz]. fold (dh q (l1_at q off) (l2_index_of q off)).
  destruct (Z.eqb_spec (Z.land (ge q (l1_at q off) (l2_index_of q off)) ZERO_BIT) 0) as [E|E]; [|by apply Hz in E]. cbn [negb].
  rewrite (proj2 (Z.eqb_neq (dh _ _ _) 0)) by done.
  rewrite <-(Z.mod_unique (off + x) (cluster_size q) (off / cluster_size q) x) by lia. done.
Qed.

(** The active layer's own cluster is written in place. *)
Lemma in_place P q off in_off part :
  let i := l1_at q off in let j := l2_index_of q off in let e := entry_at q off in
  write_ok P q → 0 ≤ off → off mod cluster_size q = 0 → l2h q i ≠ 0 → ¬ P (l2h q i / cluster_size q) → dh q i j ≠ 0 → ¬ P (dh q i j / cluster_size q) →
  0 ≤ in_off → 0 < len part → in_off + len part ≤ cluster_size q → bytes_ok part →
  ∃ q', (_ ← (if Z.land e COPIED_BIT =? 0 then set_l2_entry (l2h q i) j (Z.lor e COPIED_BIT) else mret tt); write_file (dh q i j + in_off) part) q = (q', DOk tt) ∧
    write_ok P q' ∧ wrote P (off + in_off) part q q' ∧ filled (off + in_off) (len part) q q' ∧ room q ≤ room q'.
Proof.
  intros i j e Hw Ho Hm HT HPT Hd HPd Hin Hpl Hpe Hpok. pose proof (write_phys P q Hw) as Hp. pose proof (phys_cs q Hp) as Hcs.
  pose proof (index_range q off Hp) as Hj. fold j in Hj.
  assert (∃ q1, (if Z.land e COPIED_BIT =? 0 then set_l2_entry (l2h q i) j (Z.lor e COPIED_BIT) else mret tt) q = (q1, DOk tt) ∧
    write_ok P q1 ∧ wrote P (off + in_off) [] q q1 ∧ filled (off + in_off) 0 q q1 ∧ l1 q1 = l1 q ∧ room q ≤ room q1 ∧ dh q1 i j = dh q i j) as (q1 & Hst & Hw1 & Hwr1 & Hf1 & Hl1 & Hr1 & Hd1).
  { destruct (Z.eqb_spec (Z.land e COPIED_BIT) 0) as [Hc|Hc].
    2: { exists q. split_and!; try done; [constructor; try done; intros; by rewrite wrote_nothing|]. intros o Hoo [?|?]; [done|lia]. }
    destruct (wo_tables _ _ Hw i HT) as (Hat & _ & Hnb). destruct (set_l2_entry_spec q (l2h q i) j (Z.lor e COPIED_BIT) Hp Hat Hnb Hj) as (q1 & Hst & Ht).
    destruct (wo_entries _ _ Hw i j Hj) as [Hec Hez]. destruct (l2_shape q _ Hp Hat) as [HlT HokT].
    destruct (wo_data _ _ Hw i j Hj Hd) as (Hgd & _ & Htd).
    assert (Z.land e ZERO_BIT = 0) as Hz.
    { destruct (decide (Z.land e ZERO_BIT = 0)) as [?|Hne]; [done|]. by apply Hez in Hne. }
    assert (0 ≤ e < 2 ^ 64) as Hrange.
    { unfold e, entry_at, ge. fold i j. rewrite (proj2 (Z.eqb_neq (l2h q i) 0)) by done. apply word_range; [done|lia|]. eapply entry_fits; done. }
    destruct (store_entry P q q q1 i j (Z.lor e COPIED_BIT) Hw Hj HT HPT) as [Hw1 Hrm]; rewrite ?copied_compressed, ?copied_zero, ?copied_host; try done.
    { by apply copied_range. } { by left. }
    exists q1. split_and!; try done; [|eapply remapped_filled; try exact Hrm; rewrite ?copied_host; done || lia|apply Hrm|apply Hrm|].
    - apply (remapped_wrote P q q1 off in_off [] _ _ Hw Hw1 Ho Hm Hin) in Hrm; rewrite ?copied_host, ?copied_zero; try done.
      + change (len (@nil Z)) with 0. lia.
      + intros x Hx. rewrite wrote_nothing. by apply (cluster_bytes P q off).
    - unfold dh. rewrite (rm_ge _ _ _ _ _ _ _ Hrm) by done. rewrite decide_True by done. apply copied_host. }
  rewrite (dbind_ok _ _ _ _ _ Hst). pose proof (wr_cs _ _ _ _ _ Hwr1) as Hcs1.
  assert (l2_entries q1 = l2_entries q) as He by (unfold l2_entries; by rewrite Hcs1).
  destruct (index_same q q1 off (wr_bits _ _ _ _ _ Hwr1) Hcs1) as [Ei Ej].
  destruct (data_write P q1 i j in_off part Hw1) as (q2 & Hwf & Hw2 & Hrm); rewrite ?He, ?Hd1, ?Hcs1; try done.
  rewrite Hd1 in Hwf. exists q2. split_and!; try done; [| |pose proof (rm_room _ _ _ _ _ _ _ Hrm); lia].
  2: { eapply filled_after; [exact Hf1|]. subst i j. rewrite <-Ei, <-Ej in *. eapply (remapped_filled P q1 q2 off); try exact Hrm; rewrite ?Hcs1; try done. fold (dh q1 (l1_at q1 off) (l2_index_of q1 off)). by rewrite Hd1. }
  eapply wrote_trans_nil; [exact Hwr1|]. destruct (wo_entries _ _ Hw1 i j ltac:(by rewrite He)) as [_ Hz].
  destruct (wo_data _ _ Hw1 i j ltac:(by rewrite He) ltac:(by rewrite Hd1)) as (Hgd & _ & Htd). pose proof Hgd as (Hat1 & _).
  destruct (l2_shape q1 _ (write_phys P q1 Hw1) Hat1) as [Hlen1 _].
  subst i j. rewrite <-Ei, <-Ej in *.
  eapply (remapped_wrote P q1 q2 off in_off part _ _ Hw1 Hw2 Ho); try exact Hrm; rewrite ?Hcs1; try done.
  - destruct (decide (Z.land (ge q1 (l1_at q1 off) (l2_index_of q1 off)) ZERO_BIT = 0)) as [?|Hne]; [done|]. apply Hz in Hne. congruence.
  - fold (dh q1 (l1_at q1 off) (l2_index_of q1 off)). congruence.
  - intros i' j' Hj' Hne Hd'. cbn beta. rewrite (proj2 (Z.eqb_neq _ _)); [done|]. intros Heq. apply Hne. apply (wo_data_inj _ _ Hw1); try done. by rewrite He.
  - intros x Hx. fold (dh q1 (l1_at q1 off) (l2_index_of q1 off)). rewrite Z.eqb_refl. apply spliced_bytes; try lia.
    right. apply (cluster_bytes P q1 off); rewrite ?Hcs1; try done. congruence.
Qed.

(** What a fresh cluster is made of. *)
Lemma fresh_content P q off in_off part :
  write_ok P q → 0 ≤ off → off mod cluster_size q = 0 → 0 ≤ in_off → in_off + len part ≤ cluster_size q → bytes_ok part →
  let full := (in_off =? 0) && (len part =? cluster_size q) in
  ∃ q' base, (if full then mret (replicate (Z.to_nat (cluster_size q)) 0) else cluster_base (entry_at q off) off) q = (q', DOk base) ∧
    len base = cluster_size q ∧ bytes_ok base ∧
    write_ok P q' ∧ same_guest P q q' ∧ l1 q' = l1 q ∧ room q ≤ room q' ∧ (∀ x, rc q' x = rc q x) ∧
    ∀ x, 0 ≤ x < cluster_size q → idx (splice base in_off part) x =
      if (in_off <=? x) && (x <? in_off + len part) then idx part (x - in_off) else guest_byte q (off + x).
Proof.
  intros Hw Ho Hm Hin Hl Hok full. pose proof (phys_cs q (write_phys P q Hw)) as Hcs. unfold full.
  destruct ((in_off =? 0) && (len part =? cluster_size q)) eqn:E.
  - bsplit. exists q, (replicate (Z.to_nat (cluster_size q)) 0). assert (len (replicate (Z.to_nat (cluster_size q)) 0) = cluster_size q) as Hz by (rewrite len_replicate; lia).
    split_and!; try done; [apply Forall_replicate; unfold is_u8; lia|]. intros x Hx. apply spliced_bytes; lia.
  - destruct (cluster_base_spec P q off Hw Ho Hm) as (q' & Hb & Hw' & Hs & Hl1 & Hr & Hrc).
    eexists q', _. split; [exact Hb|]. split_and!; try done; [apply len_content_at; lia|by apply (guest_bytes_ok P)|].
    intros x Hx. apply spliced_bytes; rewrite ?len_content_at by lia; try lia. right. by rewrite idx_content_at by lia.
Qed.

Lemma keeps_good q q' c v k : alloc_ok q → counted c v q q' → v ≠ 0 → good q k → good q' k ∧ l2_table q' k = l2_table q k.
Proof.
  intros Ha Hc Hv Hg. pose proof (ao_phys q Ha) as Hp. pose proof (phys_cs q Hp).
  apply (good_keeps nowhere nowhere q q' k Hp (co_keeps _ _ _ _ Hc) Hg); [by intros []|]. pose proof Hg as ((? & _) & ? & _).
  rewrite (co_rc _ _ _ _ Hc) by (apply Z.div_pos; lia). by case_match.
Qed.

(** A cluster that is shared, or not there, is replaced by a fresh one. *)
Lemma replaced P q off in_off part :
  let i := l1_at q off in let j := l2_index_of q off in let e := entry_at q off in let D := dh q i j in let cs := cluster_size q in
  write_ok P q → 0 ≤ off → off mod cs = 0 → l2h q i ≠ 0 → ¬ P (l2h q i / cs) → D = 0 ∨ 2 ≤ rc q (D / cs) →
  0 ≤ in_off → in_off + len part ≤ cs → bytes_ok part → 1 ≤ room q →
  ∃ q', (cluster ← (if (in_off =? 0) && (len part =? cs) then mret (replicate (Z.to_nat cs) 0) else cluster_base e off);
         cluster ← dpure (of_outcome (copy_at cluster in_off part));
         new_host ← alloc_cluster;
         _ ← write_file new_host cluster;
         _ ← set_refcount (new_host / cs) 1;
         _ ← (if negb (D =? 0) then dec_refcount (D / cs) else mret tt);
         set_l2_entry (l2h q i) j (Z.lor new_host COPIED_BIT)) q = (q', DOk tt) ∧
    write_ok P q' ∧ wrote P (off + in_off) part q q' ∧ filled (off + in_off) (len part) q q' ∧ room q - 1 ≤ room q'.
Proof.
  intros i j e D cs Hw Ho Hm HT HPT HD Hin Hpe Hpok Hroom. pose proof (write_phys P q Hw) as Hp. pose proof (phys_cs q Hp) as Hcs.
  pose proof (index_range q off Hp) as Hj. fold j in Hj. fold cs in Hcs.
  destruct (fresh_content P q off in_off part Hw Ho Hm Hin Hpe Hpok) as (q1 & base & Hb & Hbl & Hbok & Hw1 & Hs1 & Hl1 & Hr1 & Hrc1 & Hbytes).
  fold cs in Hb, Hbl, Hbytes. fold e in Hb. rewrite (dbind_ok _ _ _ _ _ Hb), copy_at_ret by lia. set (cl := splice base in_off part) in *.
  rewrite (dbind_ok _ _ q1 q1 cl) by done.
  pose proof (sg_cs _ _ _ Hs1) as Hcs1. fold cs in Hcs1.
  destruct (new_cluster P q1 cl) as
    (q2 & q3 & q4 & h & Hal & Hcs2 & Hwf & Hset & Hw4 & Hs4 & Hl4 & Hr4 & Hh & Hhr & Hun & Hg & Hnc & Htab & Hrc4); [done|lia| |by apply bytes_ok_splice|].
  { rewrite Hcs1. unfold cl. by rewrite len_splice by lia. }
  rewrite Hcs1 in *. rewrite (dbind_ok _ _ _ _ _ Hal), (dbind_ok _ _ _ _ _ Hwf), Z.div_mul by lia. rewrite (dbind_ok _ _ _ _ _ Hset).
  assert (same_guest P q q4) as Hs by (by eapply same_guest_trans). pose proof (sg_cs _ _ _ Hs) as Hcs4. fold cs in Hcs4.
  assert (l1 q4 = l1 q) as Hl by congruence. assert (l2h q4 i = l2h q i) as HTi by (unfold l2h; by rewrite Hl).
  assert (l2_entries q4 = l2_entries q) as He by (unfold l2_entries; rewrite Hcs4; done).
  assert (dh q4 i j = D) as Hd4 by (unfold dh, D, dh; by rewrite (sg_ge _ _ _ Hs)).
  pose proof (wo_alloc _ _ Hw4) as Ha4. pose proof (ao_phys _ Ha4) as Hp4. set (v := Z.lor (h * cs) COPIED_BIT).
  destruct (fresh_entry q4 h Hp4 Hh) as (Hv1 & Hv2 & Hv3 & Hv4); [by rewrite Hcs4|]. rewrite Hcs4 in Hv1, Hv2, Hv3, Hv4. fold v in Hv1, Hv2, Hv3, Hv4.
  assert (∃ q5, (if negb (D =? 0) then dec_refcount (D / cs) else mret tt) q4 = (q5, DOk tt) ∧
    (if D =? 0 then q5 = q4 else counted (D / cs) (rc q4 (D / cs) - 1) q4 q5) ∧
    phys q5 ∧ (∀ k, good q4 k → good q5 k) ∧ l2_entries q5 = l2_entries q4) as (q5 & Hdec & Hq5 & Hp5 & Hg5 & He5).
  { destruct (Z.eqb_spec D 0) as [HD0|HD0]; cbn [negb]; [by exists q4|]. destruct HD as [?|HD]; [done|].
    assert (0 ≤ D / cs) as HDc by (destruct (wo_data _ _ Hw i j Hj HD0) as (((? & _) & _) & _); apply Z.div_pos; lia).
    assert (rc q4 (D / cs) = rc q (D / cs)) as HDr by (rewrite Hrc4, Hrc1; [done|done|rewrite Hrc1; lia]).
    destruct (dec_refcount_ok q4 (D / cs) Ha4 HDc ltac:(lia)) as (q5 & Hdec & Hco). exists q5. split_and!; try done; [apply (ao_phys _ (co_ok _ _ _ _ Hco))| |].
    - intros k Hk. eapply (keeps_good q4); [done|exact Hco|lia|done].
    - unfold l2_entries. by rewrite (ke_cs _ _ _ _ (co_keeps _ _ _ _ Hco)). }
  rewrite (dbind_ok _ _ _ _ _ Hdec). destruct (Hg5 _ (wo_tables _ _ Hw4 i ltac:(by rewrite HTi))) as (Hat5 & _ & Hnb5). rewrite HTi in Hat5, Hnb5.
  destruct (set_l2_entry_spec q5 (l2h q i) j v Hp5 Hat5 Hnb5) as (q6 & Hst & Ht); [by rewrite He5, He|].
  destruct (store_entry P q4 q5 q6 i j v Hw4) as [Hw6 Hrm]; rewrite ?HTi, ?Hcs4, ?He, ?Hd4; try done.
  { right. rewrite Hv1, Z.div_mul by lia. split; [by right|done]. }
  exists q6. split_and!; try done.
  3: { pose proof (rm_room _ _ _ _ _ _ _ Hrm). lia. }
  all: destruct (index_same q q4 off (sg_bits _ _ _ Hs) Hcs4) as [Ei Ej]; subst i j; rewrite <-Ei, <-Ej in *.
  2: { eapply filled_after; [by apply (same_guest_filled P q q4)|]. eapply (remapped_filled P q4 q6 off); try exact Hrm; rewrite ?Hcs4, ?Hv1; try done. nia. }
  eapply wrote_trans_nil; [exact (same_guest_wrote P q q4 (off + in_off) Hw Hw4 Hs)|].
  eapply (remapped_wrote P q4 q6 off in_off part v _ Hw4 Hw6 Ho); try exact Hrm; rewrite ?Hcs4, ?Hv1; try done.
  - nia.
  - intros Heq. destruct Hun as [Hu _]. apply (Hu (l1_at q4 off)); rewrite <-?Heq; [nia|]. by rewrite Hcs4, Z.div_mul by lia.
  - intros x Hx. rewrite Htab, Hbytes by done. destruct ((in_off <=? x) && (x <? in_off + len part)); [done|]. symmetry.
    rewrite (wr_guest _ _ _ _ _ (same_guest_wrote P q q4 0 Hw Hw4 Hs)) by lia. by rewrite wrote_nothing.
Qed.

Lemma write_cluster_spec P q off in_off part :
  write_ok P q → 0 ≤ off → off mod cluster_size q = 0 → (l1_at q off < length (l1 q))%nat →
  0 ≤ in_off → 0 < len part → in_off + len part ≤ cluster_size q → bytes_ok part → 2 ≤ room q →
  ∃ q', write_cluster off in_off part q = (q', DOk tt) ∧ write_ok P q' ∧ wrote P (off + in_off) part q q' ∧ filled (off + in_off) (len part) q q' ∧ room q - 2 ≤ room q'.
Proof.
  intros Hw Ho Hm Hl1 Hin Hpl Hpe Hpok Hroom. unfold write_cluster. rewrite (dbind_ok _ _ q q q) by done. unfold id. fold (l1_at q off).
  destruct (lookup_lt_is_Some_2 (l1 q) _ Hl1) as [l1e Hi]. rewrite Hi.
  destruct (l2_for_write_spec P q _ l1e Hw Hi ltac:(lia)) as (q1 & Hl2 & Hw1 & Hs1 & Hr1 & HT1 & HPT1). rewrite (dbind_ok _ _ _ _ _ Hl2).
  destruct (index_same q q1 off (sg_bits _ _ _ Hs1) (sg_cs _ _ _ Hs1)) as [Ei1 Ej1]. pose proof (sg_cs _ _ _ Hs1) as Hcs1.
  pose proof (write_phys P q1 Hw1) as Hp1. pose proof (index_range q1 off Hp1) as Hj1. rewrite <-Ei1, <-Ej1 in *.
  destruct (wo_tables _ _ Hw1 _ HT1) as (Hat & _ & Hnb).
  destruct (l2_entry_spec q1 _ _ Hp1 Hat Hnb Hj1) as (q2 & Hen & Ht2). rewrite (dbind_ok _ _ _ _ _ Hen).
  destruct (load_step P q1 q2 _ Hw1 HT1 Ht2) as [Hw2 Hs2]. pose proof (sg_cs _ _ _ Hs2) as Hcs2.
  pose proof (tstep_room _ _ _ _ Ht2) as Hr2.
  destruct (index_same q1 q2 off (sg_bits _ _ _ Hs2) Hcs2) as [Ei2 Ej2]. pose proof (index_range q2 off (write_phys P q2 Hw2)) as Hj2.
  assert (word (l2_table q1 (l2h q1 (l1_at q1 off))) (l2_index_of q1 off) = entry_at q2 off) as ->.
  { unfold entry_at. rewrite Ei2, Ej2, (sg_ge _ _ _ Hs2) by done. unfold ge. by rewrite (proj2 (Z.eqb_neq (l2h q1 (l1_at q1 off)) 0)). }
  assert (l2h q1 (l1_at q1 off) = l2h q2 (l1_at q2 off)) as HT by (unfold l2h; by rewrite (ts_l1 _ _ _ _ Ht2), Ei2). rewrite HT in *. rewrite <-Ej2.
  destruct (wo_entries _ _ Hw2 (l1_at q2 off) _ Hj2) as [Hc2 _]. fold (entry_at q2 off) in Hc2. rewrite Hc2. cbn [Z.eqb negb andb].
  destruct (owned_spec P q2 (l1_at q2 off) _ Hw2 Hj2) as (q3 & owned & How & Hw3 & Hs3 & Hl3 & Hr3 & Hown).
  change (Z.land (entry_at q2 off) OFFSET_MASK) with (dh q2 (l1_at q2 off) (l2_index_of q2 off)).
  change (entry_at q2 off) with (ge q2 (l1_at q2 off) (l2_index_of q2 off)). rewrite (dbind_ok _ _ _ _ _ How).
  pose proof (sg_cs _ _ _ Hs3) as Hcs3. destruct (index_same q2 q3 off (sg_bits _ _ _ Hs3) Hcs3) as [Ei3 Ej3].
  assert (ge q2 (l1_at q2 off) (l2_index_of q2 off) = entry_at q3 off) as He3 by (unfold entry_at; rewrite Ei3, Ej3, (sg_ge _ _ _ Hs3); done).
  assert (dh q2 (l1_at q2 off) (l2_index_of q2 off) = dh q3 (l1_at q3 off) (l2_index_of q3 off)) as Hd3 by (unfold dh at 1; by rewrite He3).
  assert (l2h q2 (l1_at q2 off) = l2h q3 (l1_at q3 off)) as HT3 by (unfold l2h; by rewrite Hl3, Ei3).
  rewrite Hd3, HT3, He3, <-Ej3 in *. assert (cluster_size q = cluster_size q3) as Hcs by congruence. rewrite Hcs in *. rewrite Hcs1, ?Hcs2, <-?Hcs3 in *.
  assert (same_guest P q q3) as Hs by (eapply same_guest_trans; [exact Hs1|]; by eapply same_guest_trans).
  pose proof (same_guest_wrote P q q3 (off + in_off) Hw Hw3 Hs) as Hnil. pose proof (same_guest_filled P q q3 (off + in_off) Hw Hs) as Hfnil.
  destruct owned.
  - destruct Hown as [Hd HPd]. destruct (in_place P q3 off in_off part) as (q4 & Hip & Hw4 & Hwr & Hf4 & Hr4); try done.
    exists q4. split_and!; try done; [by eapply wrote_trans_nil|by eapply filled_after|lia].
  - destruct (replaced P q3 off in_off part) as (q4 & Hip & Hw4 & Hwr & Hf4 & Hr4); try done; [lia|].
    exists q4. split_and!; try done; [by eapply wrote_trans_nil|by eapply filled_after|lia].
Qed.

(** ** Whole writes *)

Lemma cluster_start q abs : phys q → 0 ≤ abs ≤ U64_MAX → Z.land abs (Z.lxor U64_MAX (cluster_size q - 1)) = abs - abs mod cluster_size q.
Proof.
  intros Hp Ha. pose proof (ph_bits q Hp). rewrite (ph_cluster q Hp). set (k := cluster_bits q) in *.
  replace (abs - abs mod 2 ^ k) with (Z.shiftl (Z.shiftr abs k) k).
  2: { rewrite Z.shiftl_mul_pow2, Z.shiftr_div_pow2 by lia. pose proof (Z.div_mod abs (2 ^ k) ltac:(lia)). lia. }
  rewrite <-Z.ldiff_ones_r by lia. rewrite Z.sub_1_r, <-Z.ones_equiv. change U64_MAX with (Z.ones 64). apply Z.bits_inj'. intros n Hn.
  rewrite Z.land_spec, Z.ldiff_spec, Z.lxor_spec, !Z.testbit_ones_nonneg by lia. destruct (Z.ltb_spec n 64); [by rewrite xorb_true_l|].
  rewrite (testbit_small abs 64); [done|change U64_MAX with (2 ^ 64 - 1) in Ha; lia|lia].
Qed.

(** The guest clusters a range touches. *)
Definition touched q (off n : Z) : Z := if n =? 0 then 0 else (off + n - 1) / cluster_size q - off / cluster_size q + 1.
Definition l1_covers q : Prop := q_size q ≤ Z.of_nat (length (l1 q)) * l2_span q.

Lemma l1_covers_at q o : qcow2_ok q → l1_covers q → 0 ≤ o < q_size q → (l1_at q o < length (l1 q))%nat.
Proof.
  intros Hok Hc Ho. unfold l1_covers, l1_at in *. rewrite l1_index_div by done. destruct (span_pow q Hok) as (_ & _ & Hn). pose proof (cluster_pos q Hok).
  assert (0 < l2_span q) by (unfold l2_span; nia). pose proof (Z.div_lt_upper_bound o (l2_span q) (Z.of_nat (length (l1 q)))).
  pose proof (Z.div_pos o (l2_span q)). lia.
Qed.
Lemma wrote_covers P lo part q q' : wrote P lo part q q' → l1_covers q → l1_covers q'.
Proof. intros Hw. unfold l1_covers, l2_span, l2_entries. by rewrite (wr_size _ _ _ _ _ Hw), (wr_l1 _ _ _ _ _ Hw), (wr_cs _ _ _ _ _ Hw). Qed.
(** The next step is on the next cluster. *)
Lemma touched_step q abs n : 512 ≤ cluster_size q → 0 ≤ abs → 0 < n →
  let m := Z.min (cluster_size q - abs mod cluster_size q) n in touched q abs n = 1 + touched q (abs + m) (n - m).
Proof.
  intros Hcs Ha Hn m. unfold touched. set (cs := cluster_size q) in *.
  pose proof (Z.div_mod abs cs ltac:(lia)) as Hd. pose proof (Z.mod_pos_bound abs cs ltac:(lia)) as Hb. set (a := abs / cs) in *. set (r := abs mod cs) in *.
  rewrite (proj2 (Z.eqb_neq n 0)) by lia. replace (abs + m + (n - m) - 1) with (abs + n - 1) by lia. destruct (Z.lt_ge_cases (cs - r) n) as [Hlt|Hge].
  - rewrite (proj2 (Z.eqb_neq _ 0)) by lia. assert (m = cs - r) as -> by lia.
    assert ((abs + (cs - r)) / cs = a + 1) as -> by (symmetry; apply (Z.div_unique _ cs (a + 1) 0); lia). lia.
  - assert (m = n) as -> by lia. rewrite Z.sub_diag. cbn [Z.eqb]. assert ((abs + n - 1) / cs = a) as -> by (symmetry; apply (Z.div_unique _ cs a (r + n - 1)); lia). lia.
Qed.

Lemma write_bytes_spec P fuel q abs rest :
  write_ok P q → l1_covers q → 0 ≤ abs → abs + len rest ≤ q_size q → bytes_ok rest → (length rest ≤ fuel)%nat → 2 * touched q abs (len rest) ≤ room q →
  ∃ q', write_bytes fuel abs rest q = (q', DOk tt) ∧ write_ok P q' ∧ wrote P abs rest q q' ∧ filled abs (len rest) q q' ∧ room q - 2 * touched q abs (len rest) ≤ room q'.
Proof.
  revert q abs rest. induction fuel as [|fuel IH]; intros q abs rest Hw Hc Ha Hs Hok Hf Hr; cbn [write_bytes].
  all: destruct (Z.eqb_spec (len rest) 0) as [Hz|Hz].
  1, 3: destruct rest; [|unfold len in Hz; simpl in Hz; lia]; exists q; split_and!; try done; [constructor; try done; intros; by rewrite wrote_nothing|intros o Hoo [?|Hx]; [done|unfold len in Hx; simpl in Hx; lia]|unfold touched; simpl; lia].
  { unfold len in Hz. lia. }
  pose proof (len_nonneg rest). pose proof (write_phys P q Hw) as Hp. pose proof (phys_cs q Hp) as Hcs. rewrite (dbind_ok _ _ q q q) by done. unfold id.
  pose proof (wo_size _ _ Hw). rewrite cluster_start by (done || lia).
  pose proof (Z.div_mod abs (cluster_size q) ltac:(lia)) as Hd. pose proof (Z.mod_pos_bound abs (cluster_size q) ltac:(lia)) as Hb.
  set (in_off := abs mod cluster_size q) in *. set (n := Z.min (cluster_size q - in_off) (len rest)).
  pose proof (touched_step q abs (len rest) Hcs Ha ltac:(lia)) as Hts. fold in_off in Hts. fold n in Hts. cbv zeta in Hts.
  assert (0 ≤ touched q (abs + n) (len rest - n)) as Ht0.
  { unfold touched. case_match; [done|]. bsplit. pose proof (Z.div_le_mono (abs + n) (abs + n + (len rest - n) - 1) (cluster_size q) ltac:(lia) ltac:(lia)). lia. }
  assert (len (slice rest 0 n) = n) as Hsl by (rewrite len_slice; lia).
  assert (0 ≤ abs - in_off) as Hoff by (rewrite Hd; assert (0 ≤ abs / cluster_size q) by (apply Z.div_pos; lia); nia).
  destruct (write_cluster_spec P q (abs - in_off) in_off (slice rest 0 n) Hw) as (q1 & Hwc & Hw1 & Hwr & Hf1 & Hr1); try (rewrite ?Hsl; lia).
  { replace (abs - in_off) with (abs / cluster_size q * cluster_size q) by lia. apply Z.mod_mul. lia. }
  { apply l1_covers_at; [by eapply write_ok_qcow2|done|lia]. }
  { by apply bytes_ok_slice. }
  rewrite (dbind_ok _ _ _ _ _ Hwc). replace (abs - in_off + in_off) with abs in Hwr, Hf1 by lia.
  assert (len (drop (Z.to_nat n) rest) = len rest - n) as Hdl by (unfold len in *; rewrite length_drop; lia).
  destruct (IH q1 (abs + n) (drop (Z.to_nat n) rest) Hw1) as (q2 & Hwb & Hw2 & Hwr2 & Hf2 & Hr2).
  - by eapply wrote_covers.
  - lia.
  - rewrite Hdl, (wr_size _ _ _ _ _ Hwr). lia.
  - by apply Forall_drop.
  - rewrite length_drop. lia.
  - rewrite Hdl. unfold touched in *. rewrite (wr_cs _ _ _ _ _ Hwr). lia.
  - exists q2. split_and!; try done.
    3: { rewrite Hdl in Hr2. unfold touched in *. rewrite (wr_cs _ _ _ _ _ Hwr) in Hr2. lia. }
    2: { rewrite Hsl in Hf1. rewrite Hdl in Hf2. replace (len rest) with (n + (len rest - n)) by lia. eapply filled_trans; [lia|exact Hf1|exact Hf2]. }
    rewrite <-(take_drop (Z.to_nat n) rest). replace (take (Z.to_nat n) rest) with (slice rest 0 n) by (unfold slice; by rewrite Z.sub_0_r).
    eapply wrote_app; [exact Hwr|]. by rewrite Hsl.
Qed.

Lemma write_at_spec P q off b :
  write_ok P q → l1_covers q → 0 ≤ off → off + len b ≤ q_size q → bytes_ok b → 2 * touched q off (len b) ≤ room q →
  ∃ q', qcow2_write_at off b q = (q', DOk tt) ∧ write_ok P q' ∧ wrote P off b q q' ∧ filled off (len b) q q' ∧ room q - 2 * touched q off (len b) ≤ room q'.
Proof.
  intros Hw Hc Ho Hle Hb Hr. pose proof (wo_size _ _ Hw). pose proof (write_phys P q Hw) as Hp. pose proof (len_nonneg b).
  unfold qcow2_write_at. rewrite (dbind_ok _ _ q q tt); [|unfold check_writable; rewrite (dbind_ok _ _ q q q) by done; unfold id; by rewrite (ph_rw q Hp)].
  rewrite (dbind_ok _ _ q q q) by done. unfold id. rewrite !(proj2 (Z.ltb_ge _ _)) by lia. by apply write_bytes_spec.
Qed.
Lemma read_back P q off (b : bytes) :
  write_ok P q → 0 ≤ off → off + len b ≤ q_size q → (∀ i, 0 ≤ i < len b → guest_byte q (off + i) = idx b i) →
  ∃ q', qcow2_read_at off (len b) q = (q', DOk b).
Proof.
  intros Hw Ho Hle Hg. pose proof (wo_size _ _ Hw). pose proof (len_nonneg b).
  destruct (read_bytes_spec (Z.to_nat (len b)) q off (len b) (write_ok_qcow2 P q Hw) Ho ltac:(lia)) as (q' & Hrd & _).
  exists q'. unfold qcow2_read_at. rewrite (dbind_ok _ _ q q q) by done. unfold id.
  rewrite !(proj2 (Z.ltb_ge _ _)) by lia. rewrite Hrd. do 2 f_equal. symmetry. apply content_at_list; [done|]. intros i Hi. by rewrite Hg.
Qed.

(** C38: the allocator hands out a free cluster and disturbs nothing that is in
    use. While the refcount table can describe one more cluster, an allocation
    succeeds, uses up one of those it can still give, and gives a cluster that
    had no reference and has exactly one afterwards, is no refcount block and
    has no stale cached table; no cluster in use changes its refcount or,
    unless it is a refcount block, its content. *)
Theorem alloc_cluster_fresh q :
  alloc_ok q → 1 ≤ room q →
  ∃ q' h, alloc_cluster q = (q', DOk (h * cluster_size q)) ∧ alloc_ok q' ∧ room q - 1 ≤ room q' ∧ 0 < h ∧ rc q h = 0 ∧ rc q' h = 1 ∧
    ¬ is_block q' (h * cluster_size q) ∧ c_map (l2_cache q') !! (h * cluster_size q) = None ∧
    (∀ c, 0 ≤ c → rc q c ≠ 0 → rc q' c = rc q c) ∧
    (∀ c, 0 ≤ c → rc q c ≠ 0 → ¬ is_block q (c * cluster_size q) → (c + 1) * cluster_size q ≤ len (q_file q) →
       l2_table q' (c * cluster_size q) = l2_table q (c * cluster_size q)).
Proof.
  intros Ha Hr. destruct (alloc_cluster_spec q Ha Hr) as (q' & h & Hal & Hals & Hh & Hh0 & Hh1 & Hro & _ & Hnb & Hnc).
  exists q', h. split_and!; try done; [apply Hals|apply Hals|]. intros c Hc Hne Hb Hf. by apply (ke_tables _ _ _ _ (al_keeps _ _ Hals)).
Qed.

(** C4: a guest write changes the bytes it names and nothing else. On a valid
    image with room in its refcount table, a write in range succeeds; read
    back, it returns the bytes written, every other guest byte is what it was,
    the clusters that belong to something else, such as a snapshot that
    shares tables and data with the guest, hold what they held, and the image
    stays valid. A write past the end is refused and changes nothing. *)
Theorem qcow2_write_correct P q off b :
  write_ok P q → l1_covers q → 0 ≤ off → bytes_ok b → 2 * touched q off (len b) ≤ room q →
  if off + len b <=? q_size q then
    ∃ q', qcow2_write_at off b q = (q', DOk tt) ∧ write_ok P q' ∧ l1_covers q' ∧
      (∃ q'', qcow2_read_at off (len b) q' = (q'', DOk b)) ∧
      (∀ o, 0 ≤ o → guest_byte q' o = if (off <=? o) && (o <? off + len b) then idx b (o - off) else guest_byte q o) ∧
      (∀ c, P c → l2_table q' (c * cluster_size q) = l2_table q (c * cluster_size q))
  else qcow2_write_at off b q = (q, DErr Unsupported).
Proof.
  intros Hw Hc Ho Hb Hr. pose proof (wo_size _ _ Hw). pose proof (write_phys P q Hw) as Hp. pose proof (len_nonneg b).
  destruct (Z.leb_spec (off + len b) (q_size q)) as [Hle|Hgt].
  - destruct (write_at_spec P q off b) as (q' & Hwb & Hw' & Hwr & _); try done.
    exists q'. split_and!; try done; [by eapply wrote_covers| |apply Hwr|apply Hwr]. apply (read_back P); [done|done|by rewrite (wr_size _ _ _ _ _ Hwr)|].
    intros x Hx. rewrite (wr_guest _ _ _ _ _ Hwr) by lia. rewrite (proj2 (Z.leb_le _ _)), (proj2 (Z.ltb_lt _ _)) by lia. cbn [andb]. f_equal. lia.
  - unfold qcow2_write_at. rewrite (dbind_ok _ _ q q tt); [|unfold check_writable; rewrite (dbind_ok _ _ q q q) by done; unfold id; by rewrite (ph_rw q Hp)].
    rewrite (dbind_ok _ _ q q q) by done. unfold id. destruct (Z.ltb_spec U64_MAX (off + len b)); [done|]. by rewrite (proj2 (Z.ltb_lt _ _)) by lia.
Qed.
End correct.

(** ** Witness: an image that shares a table and a cluster with a snapshot

    Clusters of 512 bytes: the header, the L1 table, the refcount table, a
    refcount block, then the L2 table and the data of guest cluster 0, each
    with two references. Guest cluster 1 is zero, the rest is the backing
    image's. *)
Section shared.
#[local] Existing Instance sample_inflate.
#[local] Existing Instance sample_inflate_laws.

Definition shared_block : bytes := [0; 1; 0; 1; 0; 1; 0; 1; 0; 2; 0; 2] ++ replicate 500 0.
Definition shared_l2 : bytes := u64_be (5 * 512) ++ u64_be ZERO_BIT ++ replicate 496 0.
Definition shared_image : Qcow2Image RawImage :=
  mkQcow2 (replicate 1536 0 ++ shared_block ++ shared_l2 ++ replicate 512 11)
    false 3 9 512 4000 1 512 1024 1 16 0 0 [] None (Some (raw_open (replicate 1800 44) true)) [4 * 512] (3 * 512 :: replicate 7 0)
    (TableCache_new 64) (TableCache_new 64) (mkFree ∅ 0) false false false.
(** What the snapshot owns. *)
Definition snapshot_clusters (c : Z) : Prop := c = 4 ∨ c = 5.

Lemma shared_cache_empty : c_map (l2_cache shared_image) = ∅ ∧ c_order (l2_cache shared_image) = [] ∧ c_cap (l2_cache shared_image) = 64.
Proof. done. Qed.
Lemma shared_blocks_empty : c_map (refblock_cache shared_image) = ∅ ∧ c_order (refblock_cache shared_image) = [] ∧ c_cap (refblock_cache shared_image) = 64.
Proof. done. Qed.
Lemma shared_geometry : cluster_bits shared_image = 9 ∧ cluster_size shared_image = 512 ∧ refcount_bits shared_image = 16 ∧ q_size shared_image = 4000 ∧
  q_read_only shared_image = false ∧ l1 shared_image = [2048] ∧ refcount_table shared_image = 1536 :: replicate 7 0 ∧ q_free shared_image = mkFree ∅ 0 ∧
  backing_image shared_image = Some (raw_open (replicate 1800 44) true).
Proof. done. Qed.
Lemma shared_file : len (q_file shared_image) = 3072 ∧ forallb (λ x, (0 <=? x) && (x <? 256)) (q_file shared_image) = true.
Proof. vm_compute. done. Qed.
Lemma shared_rc : rc shared_image 0 = 1 ∧ rc shared_image 3 = 1 ∧ rc shared_image 4 = 2 ∧ rc shared_image 5 = 2.
Proof. vm_compute. done. Qed.
Lemma shared_room : room shared_image = 2035.
Proof. vm_compute. done. Qed.
Lemma shared_table : l2_table shared_image 2048 = shared_l2.
Proof. vm_compute. reflexivity. Qed.
Lemma shared_words : (word shared_l2 <$> seqZ 0 64) = 2560 :: 1 :: replicate 62 0.
Proof. vm_compute. reflexivity. Qed.
#[local] Opaque shared_image shared_l2.

Lemma shared_hosts ti : 0 ≤ ti → rt_host shared_image ti = if ti =? 0 then 1536 else 0.
Proof.
  intros Hti. destruct shared_geometry as (_ & _ & _ & _ & _ & _ & Hrt & _). unfold rt_host. rewrite Hrt.
  destruct (Z.eqb_spec ti 0) as [->|Hne]; [done|]. replace (Z.to_nat ti) with (S (Z.to_nat (ti - 1))) by lia. cbn [lookup list_lookup].
  destruct (replicate 7 0 !! Z.to_nat (ti - 1)) eqn:E; [|done]. by apply lookup_replicate in E as [-> _].
Qed.
Lemma shared_l2h i : l2h shared_image i = if decide (i = 0%nat) then 2048 else 0.
Proof. destruct shared_geometry as (_ & _ & _ & _ & _ & Hl & _). unfold l2h. rewrite Hl. by destruct i. Qed.
Lemma shared_ge i j : 0 ≤ j < 64 → ge shared_image i j = if decide (i = 0%nat ∧ j = 0) then 2560 else if decide (i = 0%nat ∧ j = 1) then 1 else 0.
Proof.
  intros Hj. unfold ge. rewrite shared_l2h. destruct (decide (i = 0%nat)) as [->|Hi]; cbn [Z.eqb].
  2: { rewrite !decide_False by tauto. done. }
  rewrite shared_table. assert ((word shared_l2 <$> seqZ 0 64) !! Z.to_nat j = Some (word shared_l2 j)) as Hw.
  { rewrite list_lookup_fmap, lookup_seqZ_lt by lia. simpl. do 2 f_equal. lia. }
  rewrite shared_words in Hw. destruct (decide (j = 0)) as [->|H0'].
  { rewrite decide_True by done. vm_compute. reflexivity. }
  destruct (decide (j = 1)) as [->|H1'].
  { rewrite decide_False by (intros [_ ?]; done). rewrite decide_True by done. vm_compute. reflexivity. }
  rewrite !decide_False by tauto. replace (Z.to_nat j) with (S (S (Z.to_nat (j - 2)))) in Hw by lia. cbn [lookup list_lookup] in Hw.
  by apply lookup_replicate in Hw as [-> _].
Qed.
Lemma shared_dh i j : 0 ≤ j < 64 → dh shared_image i j = if decide (i = 0%nat ∧ j = 0) then 2560 else 0.
Proof. intros Hj. unfold dh. rewrite shared_ge by done. case_decide; [done|]. by case_decide. Qed.
Lemma shared_not_block k : is_block shared_image k → k = 1536.
Proof. intros (ti & Hti & Hh & Hne). rewrite shared_hosts in Hh by done. destruct (ti =? 0); congruence. Qed.

Lemma empty_cache_ok c disk : c_map c = ∅ → c_order c = [] → 0 < c_cap c → cache_ok c disk.
Proof.
  intros Hm Ho Hc. constructor.
  - rewrite Ho. constructor.
  - intros k. rewrite Ho, Hm, lookup_empty. split; [by intros ?%elem_of_nil|by intros []].
  - rewrite Hm, map_size_empty. lia.
  - lia.
  - intros k buf Hk. by rewrite Hm, lookup_empty in Hk.
Qed.
Lemma shared_alloc_ok : alloc_ok shared_image.
Proof.
  destruct shared_cache_empty as (Hm & Hod & Hcap), shared_blocks_empty as (Hm' & Hod' & Hcap').
  destruct shared_geometry as (Hbits & Hcs & Hw & Hsz & Hro & Hl1 & Hrt & Hfr & Hb), shared_file as [Hlen Hbytes], shared_rc as (H0' & H3' & _). pose proof shared_hosts as Hhost.
  set (q := shared_image) in *. clearbody q. constructor.
  - constructor; rewrite ?Hbits, ?Hcs, ?Hw, ?Hro, ?Hfr, ?Hrt; try done.
    + rewrite !elem_of_cons. tauto.
    + apply Forall_forall. intros x Hx. rewrite forallb_forall in Hbytes. specialize (Hbytes x). rewrite <-list_elem_of_In in Hbytes.
      specialize (Hbytes Hx). bsplit. unfold is_u8. lia.
    + apply empty_cache_ok; [done|done|lia].
    + intros k t d Hk. by rewrite Hm, lookup_empty in Hk.
    + apply empty_cache_ok; [done|done|lia].
    + intros k t d Hk. by rewrite Hm', lookup_empty in Hk.
    + intros ti Hti. rewrite Hhost by done. destruct (ti =? 0); [|done]. intros _. unfold table_at. rewrite Hcs, Hlen. split_and!; [lia|done|lia].
    + intros ti tj Hti Htj. rewrite !Hhost by done. destruct (Z.eqb_spec ti 0), (Z.eqb_spec tj 0); done || lia.
    + unfold refblock_entries. rewrite Hcs, Hw. done.
  - intros c. rewrite Hfr. simpl. by intros ?%not_elem_of_empty.
  - intros ti Hti. rewrite Hhost, Hcs by done. destruct (ti =? 0); [|done]. intros _. change (1536 / 512) with 3. lia.
  - lia.
Qed.
Lemma shared_good c : c = 4 ∨ c = 5 → good shared_image (c * 512).
Proof.
  destruct shared_geometry as (_ & Hcs & _), shared_file as [Hlen _], shared_rc as (_ & _ & H4' & H5'). pose proof shared_not_block as Hnb.
  set (q := shared_image) in *. clearbody q. intros Hc. unfold good, table_at. rewrite Hcs, Hlen. split_and!; try lia.
  - apply Z.mod_mul. lia.
  - rewrite Z.div_mul by lia. destruct Hc as [-> | ->]; lia.
  - intros ?%Hnb. lia.
Qed.
Lemma shared_image_ok : write_ok snapshot_clusters shared_image ∧ l1_covers shared_image.
Proof.
  destruct shared_cache_empty as (Hm & _). destruct shared_geometry as (Hbits & Hcs & Hw & Hsz & Hro & Hl1 & Hrt & Hfr & Hb).
  destruct shared_file as [Hlen _], shared_rc as (_ & _ & H4' & H5').
  pose proof shared_l2h as Hl2h. pose proof shared_ge as Hge. pose proof shared_dh as Hdh. pose proof shared_good as Hgood. pose proof shared_alloc_ok as Ha.
  set (q := shared_image) in *. clearbody q.
  assert (l2_entries q = 64) as He by (unfold l2_entries; by rewrite Hcs).
  assert (∀ i, l2h q i ≠ 0 → i = 0%nat ∧ l2h q i = 2048) as Ht by (intros i; rewrite Hl2h; by case_decide).
  assert (∀ i j, 0 ≤ j < 64 → dh q i j ≠ 0 → i = 0%nat ∧ j = 0 ∧ dh q i j = 2560) as Hd.
  { intros i j Hj. rewrite Hdh by done. case_decide as Hij; [|done]. by destruct Hij as [-> ->]. }
  split; [|unfold l1_covers, l2_span; rewrite Hsz, Hl1, He, Hcs; simpl; lia].
  constructor; rewrite ?He, ?Hcs.
  - done.
  - rewrite Hsz. unfold U64_MAX. lia.
  - rewrite Hl1. constructor; [unfold is_u64; lia|constructor].
  - intros b. rewrite Hb. intros [= <-]. split; vm_compute; [reflexivity|discriminate].
  - intros o. unfold backing_byte. rewrite Hb. unfold is_u8. destruct (o <? size _); [|lia]. apply (idx_u8 (replicate 1800 44)).
    apply Forall_replicate. unfold is_u8. lia.
  - intros i Hi. destruct (Ht i Hi) as [_ ->]. apply (Hgood 4). by left.
  - intros i i' Hi Hii. destruct (Ht i Hi) as [-> _], (Ht i') as [-> _]; [congruence|done].
  - intros i j Hj. rewrite Hge, Hdh by done. repeat case_decide; try done.
  - intros i j Hj Hn. destruct (Hd i j Hj Hn) as (_ & _ & ->). split_and!; [apply (Hgood 5); by right|by rewrite Hm|].
    intros i'. rewrite Hl2h. by case_decide.
  - intros i j i' j' Hj Hj' Hn Heq. destruct (Hd i j Hj Hn) as (-> & -> & _), (Hd i' j' Hj') as (-> & -> & _); [congruence|done].
  - intros c Hc. destruct (Hgood c Hc) as (_ & Hr & Hnb). rewrite Hcs, Z.div_mul in Hr by lia. split_and!; try done; destruct Hc as [-> | ->]; lia.
  - intros i Hi _. destruct (Ht i Hi) as [_ ->]. change (2048 / 512) with 4. lia.
  - intros i j Hj Hn _. destruct (Hd i j Hj Hn) as (-> & -> & ->). change (2560 / 512) with 5. split; [lia|]. by rewrite Hge.
Qed.

Lemma alloc_cluster_fresh_witness :
  ∃ q' h, alloc_cluster shared_image = (q', DOk (h * 512)) ∧ alloc_ok q' ∧ rc q' h = 1 ∧ rc q' 4 = 2.
Proof.
  destruct (alloc_cluster_fresh shared_image shared_alloc_ok) as (q' & h & Hal & Ha' & _ & _ & _ & Hh & _ & _ & Hrc & _).
  { rewrite shared_room. lia. }
  destruct shared_geometry as (_ & Hcs & _), shared_rc as (_ & _ & H4' & _). rewrite Hcs in Hal.
  exists q', h. split_and!; [exact Hal|exact Ha'|exact Hh|]. rewrite Hrc by lia. exact H4'.
Defined.

(** A write over guest clusters 0, 1 and 2: copied, zero and backed. *)
Lemma qcow2_write_correct_witness :
  (∃ q', qcow2_write_at 500 (replicate 600 7) shared_image = (q', DOk tt) ∧ write_ok snapshot_clusters q' ∧
     guest_byte q' 499 = 11 ∧ guest_byte q' 500 = 7 ∧ guest_byte q' 1099 = 7 ∧ guest_byte q' 1100 = 44 ∧ l2_table q' 2560 = replicate 512 11) ∧
  qcow2_write_at 3990 (replicate 11 7) shared_image = (shared_image, DErr Unsupported).
Proof.
  destruct shared_image_ok as [Hw Hc]. destruct shared_geometry as (_ & Hcs & _ & Hsz & _).
  assert (∀ n : nat, bytes_ok (replicate n 7)) as Hb by (intros n; apply Forall_replicate; unfold is_u8; lia).
  pose proof (qcow2_write_correct snapshot_clusters shared_image 500 (replicate 600 7) Hw Hc ltac:(lia) (Hb _)) as Hin.
  pose proof (qcow2_write_correct snapshot_clusters shared_image 3990 (replicate 11 7) Hw Hc ltac:(lia) (Hb _)) as Hout.
  unfold touched in Hin, Hout. rewrite Hsz, Hcs, shared_room in Hin, Hout. specialize (Hin ltac:(vm_compute; discriminate)). specialize (Hout ltac:(vm_compute; discriminate)).
  change (500 + len (replicate 600 7) <=? 4000) with true in Hin. change (3990 + len (replicate 11 7) <=? 4000) with false in Hout.
  destruct Hin as (q' & Hq' & Hw' & _ & _ & Hg & HP). split; [|exact Hout]. exists q'. split_and!; [exact Hq'|exact Hw'|..].
  - rewrite Hg by lia. vm_compute. reflexivity.
  - rewrite Hg by lia. vm_compute. reflexivity.
  - rewrite Hg by lia. vm_compute. reflexivity.
  - rewrite Hg by lia. vm_compute. reflexivity.
  - change 2560 with (5 * 512). rewrite (HP 5 ltac:(by right)). vm_compute. reflexivity.
Defined.

(** ** What the invariant leaves out

    [write_ok] excludes entries that carry the zero flag and a host, which
    the format allows. A write to such a cluster goes to the host and leaves
    the flag, so the guest does not read it back. *)
Definition zero_flag_image : Qcow2Image RawImage :=
  set_file (replicate 1536 0 ++ shared_block ++ (u64_be (5 * 512 + COPIED_BIT + ZERO_BIT) ++ replicate 504 0) ++ replicate 512 11) shared_image.
Lemma zero_flag_write_lost :
  (qcow2_write_at 0 [7] zero_flag_image).2 = DOk tt ∧ guest_byte (qcow2_write_at 0 [7] zero_flag_image).1 0 = 0.
Proof. vm_compute. done. Qed.

(** 64-bit refcounts, which the format allows, cannot be raised: their
    maximum is a shift out of range. *)
Lemma inc_refcount_64 (q : Qcow2Image RawImage) c : phys q → 0 ≤ c → refcount_bits q = 64 → (inc_refcount c q).2 = DPanic.
Proof.
  intros Hp Hc Hw. destruct (get_refcount_spec q c Hp Hc) as (q' & Hg & Hq & _). unfold inc_refcount. rewrite (dbind_ok _ _ _ _ _ Hg).
  rewrite (dbind_ok _ _ q' q' q') by done. unfold refcount_max, id. by rewrite (ke_width _ _ _ _ (qu_keeps _ _ Hq)), Hw.
Qed.

(** The clusters whose refcounts a compressed entry adjusts and the last byte
    that a read of it takes: for a stream that starts inside a sector the
    adjustment goes one cluster further. *)
Lemma compressed_one_more :
  compressed_clusters shared_image (COMPRESSED_BIT + 2049) = [4; 5] ∧ compressed_range shared_image (COMPRESSED_BIT + 2049) = (2049, 2560).
Proof. vm_compute. done. Qed.
End shared.
