(* ===== verification/Qcow2Reads.v ===== *)
(** * qcow2 images: reading a writable image

    A read fills caches and moves nothing: the image stays a writable one, the
    guest sees the same bytes, and the allocator has what it had. *)

From S2P Require Import Prelude TableCache Disk Qcow2 Qcow2Alloc Qcow2Read Qcow2Phys Qcow2Steps Qcow2Free Qcow2Write Qcow2Guest Qcow2Correct.

Section reads.
Context {B : Type} `{HB : DiskContents B} `{HI : InflateLaws}.
Implicit Types q : Qcow2Image B.

Definition read_kept (P : Z → Prop) q q' : Prop := write_ok P q' ∧ same_guest P q q' ∧ room q ≤ room q'.
Lemma read_kept_refl P q : write_ok P q → read_kept P q q.
Proof. intros Hw. by split_and!. Qed.
Lemma read_kept_trans P q1 q2 q3 : read_kept P q1 q2 → read_kept P q2 q3 → read_kept P q1 q3.
Proof. intros (A1 & A2 & A3) (B1 & B2 & B3). split_and!; [done|by eapply same_guest_trans|lia]. Qed.

Lemma read_extent_kept P q abs max q' r : write_ok P q → read_extent abs max q = (q', r) → read_kept P q q'.
Proof.
  intros Hw. pose proof (write_phys P q Hw) as Hp. unfold read_extent. rewrite (dbind_ok _ _ q q q) by done.
  change (Z.land (default 0 (l1 q !! Z.to_nat (l1_index_of q abs))) OFFSET_MASK) with (l2h q (l1_at q abs)).
  destruct (Z.eqb_spec (l2h q (l1_at q abs)) 0) as [|Hi]; [(intros Hx; unfold mret, dstate_ret, dpure in Hx; simplify_eq); by apply read_kept_refl|]. set (i := l1_at q abs) in *.
  destruct (wo_tables _ _ Hw i Hi) as (Hat & _ & Hnb). destruct (load_l2_phys q (l2h q i) Hp Hat Hnb) as (q1 & d & Hld & Ht1 & Hk1). rewrite (dbind_ok _ _ _ _ _ Hld).
  destruct (load_step P q q1 i Hw Hi Ht1) as [Hw1 Hs1]. assert (l2h q1 i = l2h q i) as Hl1 by (unfold l2h; by rewrite (ts_l1 _ _ _ _ Ht1)).
  destruct (cached_table_phys q1 (l2h q i) _ d (ts_phys _ _ _ _ Ht1) Hk1) as (q2 & Hcd & Ht2). rewrite (dbind_ok _ _ _ _ _ Hcd).
  destruct (load_step P q1 q2 i Hw1) as [Hw2 Hs2]; [by rewrite Hl1|by rewrite Hl1|].
  assert (read_kept P q q2) as Hrk by (split_and!; [done|by eapply same_guest_trans|pose proof (tstep_room _ _ _ _ Ht1); pose proof (tstep_room _ _ _ _ Ht2); lia]).
  unfold mret, dstate_ret, dpure. repeat case_match; intros; by simplify_eq.
Qed.
Lemma read_source_kept P q abs n s q' r : write_ok P q → 0 ≤ abs → 0 ≤ n → read_source abs n s q = (q', r) → read_kept P q q'.
Proof.
  intros Hw Ha Hn. destruct s as [| |h|e]; cbn [read_source].
  - destruct (backing_step P q abs n Hw Ha Hn) as (q1 & -> & Hw1 & Hs1 & _ & Hr & _). (intros Hx; unfold mret, dstate_ret, dpure in Hx; simplify_eq). by split_and!.
  - (intros Hx; unfold mret, dstate_ret, dpure in Hx; simplify_eq). by apply read_kept_refl.
  - unfold read_file. rewrite (dbind_ok _ _ q q q) by done. (intros Hx; unfold mret, dstate_ret, dpure in Hx; simplify_eq). by apply read_kept_refl.
  - rewrite (dbind_ok _ _ q q q) by done. intros Hrun. assert (q' = q) as ->; [|by apply read_kept_refl]. revert Hrun.
    unfold read_compressed_cluster, read_file, mbind, dstate_bind, dgets, dpure, mret, dstate_ret, dfail, id.
    destruct (compressed_range q e). repeat (case_match; simplify_eq/=); intros; by simplify_eq.
Qed.
Lemma read_bytes_kept P fuel q abs rest q' b :
  write_ok P q → 0 ≤ abs → 0 ≤ rest ≤ Z.of_nat fuel → read_bytes fuel abs rest q = (q', DOk b) → read_kept P q q'.
Proof.
  revert q abs rest b. induction fuel as [|fuel IH]; intros q abs rest b Hw Ha Hr; cbn [read_bytes];
    (destruct (Z.eqb_spec rest 0) as [|Hne]; [intros Hx; unfold mret, dstate_ret in Hx; simplify_eq; by apply read_kept_refl|]); [lia|].
  pose proof (write_ok_qcow2 P q Hw) as Hok. destruct (read_extent_spec q abs rest Hok Ha ltac:(lia)) as (q1 & s & n & He & Hok1 & Hu1 & Hn & Hc & Hcomp).
  rewrite (dbind_ok _ _ _ _ _ He). pose proof (read_extent_kept P q abs rest q1 _ Hw He) as Hk1.
  destruct (read_source_spec q1 abs n s Hok1 Ha ltac:(lia)) as (q2 & Hs & _); [by eapply covers_unchanged|by rewrite (un_cluster _ _ Hu1)|].
  rewrite (dbind_ok _ _ _ _ _ Hs). pose proof (read_source_kept P q1 abs n s q2 _ (proj1 Hk1) Ha ltac:(lia) Hs) as Hk2. unfold mbind at 1, dstate_bind at 1.
  destruct (read_bytes fuel (abs + n) (rest - n) q2) as [q3 [more| | |]] eqn:Hrun; (intros Hx; unfold mret, dstate_ret, dpure in Hx; simplify_eq). eapply read_kept_trans; [exact Hk1|]. eapply read_kept_trans; [exact Hk2|].
  eapply IH; [apply Hk2| | |exact Hrun]; lia.
Qed.
Lemma read_at_spec P q off n :
  write_ok P q → 0 ≤ off → 0 ≤ n → off + n ≤ q_size q → ∃ q', qcow2_read_at off n q = (q', DOk (content_at (guest_byte q) off n)) ∧ read_kept P q q'.
Proof.
  intros Hw Ho Hn Hle. destruct (read_bytes_spec (Z.to_nat n) q off n (write_ok_qcow2 P q Hw) Ho ltac:(lia)) as (q' & Hrun & _). pose proof (wo_size _ _ Hw).
  exists q'. split; [|eapply (read_bytes_kept P _ q off n); [done|done| |exact Hrun]; lia].
  unfold qcow2_read_at. rewrite (dbind_ok _ _ q q q) by done. unfold id. by rewrite !(proj2 (Z.ltb_ge _ _)) by lia.
Qed.
End reads.
