(* ===== verification/Qcow2Discard.v ===== *)
(** * qcow2 images: discarding

    A discard unmaps the clusters that lie wholly in its range: they read as
    the backing image again, their hosts lose the guest's reference, and
    nothing else changes, not the bytes next to them in clusters the range
    covers in part, and not what a snapshot shares. *)

From S2P Require Import Prelude TableCache Disk Qcow2 Qcow2Alloc Qcow2Read Qcow2Phys Qcow2Steps Qcow2Free Qcow2Write Qcow2Guest Qcow2Correct.

Section discard.
Context {B : Type} `{HB : DiskContents B} `{HI : InflateLaws}.
Implicit Types q : Qcow2Image B.

(** Nothing to do: the bytes are there. *)
Lemma wrote_already P lo part q : (∀ o, 0 ≤ o → lo ≤ o < lo + len part → guest_byte q o = idx part (o - lo)) → wrote P lo part q q.
Proof. intros Hb. constructor; try done. intros o Ho. destruct ((lo <=? o) && (o <? lo + len part)) eqn:E; [bsplit; apply Hb; lia|done]. Qed.
Lemma unmapped_bytes P q off :
  write_ok P q → 0 ≤ off → off mod cluster_size q = 0 → entry_at q off = 0 → wrote P off (content_at (backing_byte q) off (cluster_size q)) q q.
Proof.
  intros Hw Ho Hm He. pose proof (write_phys P q Hw) as Hp. pose proof (phys_cs q Hp) as Hcs. pose proof (write_ok_qcow2 P q Hw) as Hok. apply wrote_already. intros o Hoo.
  rewrite len_content_at by lia. intros Hr. rewrite idx_content_at by lia. replace (off + (o - off)) with o by lia. rewrite (guest_byte_entry P q) by done.
  assert (o / cluster_size q = off / cluster_size q) as Hd.
  { pose proof (Z.div_mod off (cluster_size q) ltac:(lia)). symmetry. apply (Z.div_unique o (cluster_size q) _ (o - off)); lia. }
  destruct (proj2 (entry_inj q o off Hok Hoo Ho) Hd) as [E1 E2]. unfold entry_at in *. by rewrite E1, E2, He.
Qed.

(** The host of a cluster loses the guest's reference, and with it possibly
    its last one. *)
Lemma drop_host P q i j :
  write_ok P q → 0 ≤ j < l2_entries q → l2h q i ≠ 0 →
  ∃ q', (if dh q i j =? 0 then mret tt else dec_refcount (dh q i j / cluster_size q)) q = (q', DOk tt) ∧
    (if dh q i j =? 0 then q' = q else counted (dh q i j / cluster_size q) (rc q (dh q i j / cluster_size q) - 1) q q') ∧
    phys q' ∧ table_at q' (l2h q i) ∧ ¬ is_block q' (l2h q i) ∧ l2_entries q' = l2_entries q.
Proof.
  intros Hw Hj Hi. pose proof (write_phys P q Hw) as Hp. pose proof (phys_cs q Hp) as Hcs. pose proof (wo_tables _ _ Hw i Hi) as HgT.
  destruct (Z.eqb_spec (dh q i j) 0) as [HD|HD]; [exists q; destruct HgT as (? & _ & ?); by split_and!|].
  destruct (wo_data _ _ Hw i j Hj HD) as (HgD & _ & HT). set (D := dh q i j) in *. pose proof HgD as ((HD0 & HDm & _) & HDr & HDb).
  pose proof (aligned_cluster q D Hp HDm) as HcD. assert (0 ≤ D / cluster_size q) as Hc0 by (apply Z.div_pos; lia). pose proof (rc_bound q _ Hp Hc0).
  destruct (dec_refcount_counted q (D / cluster_size q) (wo_alloc _ _ Hw) Hc0) as (q' & Hrun & Hco); [lia|intros _; rewrite HcD; split; [|done]; intros E; rewrite E in HcD; lia|].
  exists q'. split; [done|]. split; [done|]. pose proof (co_keeps _ _ _ _ Hco) as Hk.
  destruct (good_keeps nowhere nowhere q q' (l2h q i) Hp Hk HgT) as [(? & _ & ?) _]; [by intros []| |].
  - rewrite (co_rc _ _ _ _ Hco) by (destruct HgT as ((? & _) & _); apply Z.div_pos; lia). destruct (Z.eqb_spec (l2h q i / cluster_size q) (D / cluster_size q)) as [E|]; [|by apply HgT].
    exfalso. apply (HT i), (aligned_same q); [done|by apply good_aligned|done|done].
  - split_and!; try done; [apply (ao_phys _ (co_ok _ _ _ _ Hco))|]. unfold l2_entries. by rewrite (ke_cs _ _ _ _ Hk).
Qed.

Lemma discard_cluster_spec P q c :
  write_ok P q → 0 ≤ c → 1 ≤ room q →
  ∃ q', discard_cluster c q = (q', DOk tt) ∧ write_ok P q' ∧
    wrote P (c * cluster_size q) (content_at (backing_byte q) (c * cluster_size q) (cluster_size q)) q q' ∧ room q - 1 ≤ room q'.
Proof.
  intros Hw Hc Hroom. pose proof (write_phys P q Hw) as Hp. pose proof (phys_cs q Hp) as Hcs. unfold discard_cluster. rewrite (dbind_ok _ _ q q q) by done. unfold id.
  set (off := c * cluster_size q). assert (0 ≤ off) as Ho by (unfold off; nia). assert (off mod cluster_size q = 0) as Hm by (apply Z.mod_mul; lia). fold (l1_at q off).
  destruct (decide (l2h q (l1_at q off) = 0)) as [Hz|Hz].
  { exists q. split_and!; [|done|apply unmapped_bytes; try done; unfold entry_at, ge; by rewrite Hz|lia]. case_bool_decide as Hl; [|done].
    destruct (lookup_lt_is_Some_2 (l1 q) _ Hl) as [e He]. unfold cow_l2_if_shared. rewrite (dbind_ok _ _ q q 0); [done|]. rewrite (dbind_ok _ _ q q q) by done. unfold id. rewrite He.
    unfold l2h in Hz. rewrite He in Hz. cbn [default from_option id] in Hz. by rewrite Hz. }
  assert (l1_at q off < length (l1 q))%nat as Hl.
  { destruct (decide (l1_at q off < length (l1 q))%nat) as [?|Hge]; [done|]. destruct Hz. unfold l2h. by rewrite lookup_ge_None_2 by lia. }
  rewrite bool_decide_true by done. destruct (cow_table P q _ Hw Hl Hz Hroom) as (q1 & Hcow & Hw1 & Hs1 & Hr1 & HT1 & HP1). rewrite (dbind_ok _ _ _ _ _ Hcow).
  rewrite (proj2 (Z.eqb_neq _ _)) by done. pose proof (write_phys P q1 Hw1) as Hp1. destruct (wo_tables _ _ Hw1 _ HT1) as (Hat1 & _ & Hnb1).
  destruct (index_same q q1 off (sg_bits _ _ _ Hs1) (sg_cs _ _ _ Hs1)) as [Ei1 Ej1]. pose proof (index_range q1 off Hp1) as Hj1. rewrite <-Ei1, <-Ej1 in *.
  destruct (l2_entry_spec q1 _ _ Hp1 Hat1 Hnb1 Hj1) as (q2 & Hen & Ht2). rewrite (dbind_ok _ _ _ _ _ Hen). destruct (load_step P q1 q2 _ Hw1 HT1 Ht2) as [Hw2 Hs2].
  destruct (index_same q1 q2 off (sg_bits _ _ _ Hs2) (sg_cs _ _ _ Hs2)) as [Ei2 Ej2]. pose proof (index_range q2 off (write_phys P q2 Hw2)) as Hj2.
  assert (l2h q1 (l1_at q1 off) = l2h q2 (l1_at q2 off)) as HT by (unfold l2h; by rewrite (ts_l1 _ _ _ _ Ht2), Ei2).
  assert (word (l2_table q1 (l2h q1 (l1_at q1 off))) (l2_index_of q1 off) = ge q2 (l1_at q2 off) (l2_index_of q2 off)) as ->.
  { rewrite Ei2, Ej2, (sg_ge _ _ _ Hs2) by done. unfold ge. by rewrite (proj2 (Z.eqb_neq (l2h q1 (l1_at q1 off)) 0)). }
  rewrite HT in *. rewrite <-Ej2. assert (same_guest P q q2) as Hs by (by eapply same_guest_trans). pose proof (sg_cs _ _ _ Hs) as Hcs2. rewrite <-(sg_cs _ _ _ Hs2) in HP1.
  destruct (wo_entries _ _ Hw2 (l1_at q2 off) _ Hj2) as [-> _]. cbn [Z.eqb negb]. fold (dh q2 (l1_at q2 off) (l2_index_of q2 off)).
  destruct (drop_host P q2 _ _ Hw2 Hj2 HT1) as (q3 & Hdec & Hq3 & Hp3 & Hat3 & Hnb3 & He3). rewrite Hcs2 in Hdec. rewrite (dbind_ok _ _ _ _ _ Hdec).
  destruct (set_l2_entry_spec q3 _ (l2_index_of q2 off) 0 Hp3 Hat3 Hnb3) as (q4 & Hst & Ht4); [by rewrite He3|].
  destruct (store_entry P q2 q3 q4 (l1_at q2 off) (l2_index_of q2 off) 0 Hw2 Hj2 HT1 HP1) as [Hw4 Hrm]; try done; [right; split; [by left|done]|].
  exists q4. split_and!; [done|done| |].
  - eapply wrote_trans_nil; [exact (same_guest_wrote P q q2 0 Hw Hw2 Hs)|]. rewrite <-Hcs2, <-(content_at_ext (backing_byte q2)) by (intros; apply Hs).
    apply (remapped_cleared P q2 q4 off (l2_table q2)); try done. by rewrite Hcs2.
  - pose proof (rm_room _ _ _ _ _ _ _ Hrm). pose proof (tstep_room _ _ _ _ Ht2). lia.
Qed.

Lemma discard_loop P c n q :
  write_ok P q → 0 ≤ c → 0 ≤ n ≤ room q →
  ∃ q', dfor (seqZ c n) discard_cluster q = (q', DOk tt) ∧ write_ok P q' ∧
    wrote P (c * cluster_size q) (content_at (backing_byte q) (c * cluster_size q) (n * cluster_size q)) q q' ∧ room q - n ≤ room q'.
Proof.
  intros Hw Hc [Hn Hroom]. revert c q Hw Hc Hroom. pattern n. apply natlike_ind; [| |done]; clear n Hn.
  { intros c q Hw Hc Hroom. exists q. split_and!; [done|done| |lia]. rewrite Z.mul_0_l, content_at_0. constructor; try done. intros o _. by rewrite wrote_nothing. }
  intros n Hn IH c q Hw Hc Hroom. rewrite seqZ_cons by lia. replace (Z.pred (Z.succ n)) with n by lia. cbn [dfor].
  destruct (discard_cluster_spec P q c Hw Hc ltac:(lia)) as (q1 & Hrun1 & Hw1 & Hwr1 & Hr1). rewrite (dbind_ok _ _ _ _ _ Hrun1). pose proof (phys_cs q (write_phys P q Hw)).
  destruct (IH (Z.succ c) q1 Hw1 ltac:(lia) ltac:(lia)) as (q2 & Hrun2 & Hw2 & Hwr2 & Hr2). exists q2. split_and!; [done|done| |lia].
  replace (Z.succ n * cluster_size q) with (cluster_size q + n * cluster_size q) by lia. rewrite content_at_app by nia. eapply wrote_app; [exact Hwr1|].
  rewrite len_content_at by lia. rewrite (wr_cs _ _ _ _ _ Hwr1) in Hwr2. rewrite <-(content_at_ext (backing_byte q1)) by (intros; apply Hwr1).
  by replace (c * cluster_size q + cluster_size q) with (Z.succ c * cluster_size q) by lia.
Qed.

(** The clusters that lie wholly in a range. *)
Definition whole_first (cs off : Z) : Z := div_ceil off cs.
Definition whole_count (cs off n : Z) : Z := Z.max 0 ((off + n) / cs - div_ceil off cs).

Lemma discard_spec P q off n :
  write_ok P q → 0 ≤ off → 0 ≤ n → off + n ≤ q_size q → whole_count (cluster_size q) off n ≤ room q →
  let first := whole_first (cluster_size q) off * cluster_size q in
  let count := whole_count (cluster_size q) off n * cluster_size q in
  ∃ q', qcow2_discard off n q = (q', DOk tt) ∧ write_ok P q' ∧ wrote P first (content_at (backing_byte q) first count) q q' ∧
    room q - whole_count (cluster_size q) off n ≤ room q'.
Proof.
  intros Hw Ho Hn Hle Hroom first count. pose proof (wo_size _ _ Hw). pose proof (write_phys P q Hw) as Hp. pose proof (phys_cs q Hp).
  unfold qcow2_discard. rewrite (dbind_ok _ _ q q tt); [|unfold check_writable; rewrite (dbind_ok _ _ q q q) by done; unfold id; by rewrite (ph_rw q Hp)].
  rewrite (dbind_ok _ _ q q q) by done. unfold id. rewrite !(proj2 (Z.ltb_ge _ _)) by lia.
  assert (0 ≤ whole_first (cluster_size q) off) as Hf by (apply Z.div_pos; lia).
  destruct (discard_loop P (whole_first (cluster_size q) off) (whole_count (cluster_size q) off n) q Hw Hf) as (q' & Hrun & Hrest); [unfold whole_count in *; lia|].
  exists q'. split; [|done]. rewrite <-Hrun. f_equal. unfold whole_count, whole_first in *. destruct (Z.le_ge_cases 0 ((off + n) / cluster_size q - div_ceil off (cluster_size q))) as [Hc|Hc].
  - by rewrite Z.max_r.
  - rewrite (Z.max_l _ _ Hc). unfold seqZ. by rewrite (Z2Nat.nonpos _ Hc).
Qed.
End discard.
