(* ===== verification/Qcow2Open.v ===== *)
(** * qcow2 images: opening ([hv/crates/vmlab-disk/src/qcow2/mod.rs])

    [parse]: from the bytes of a file to the state of an image, with every
    check the code makes on the way. *)

From S2P Require Import Prelude TableCache Disk Qcow2 Qcow2Alloc Qcow2Write.

#[global] Instance dres_bind : MBind dres := λ A B f m,
  match m with
  | DOk a => f a
  | DErr e => DErr e
  | DPanic => DPanic
  | DFuel => DFuel
  end.

(** ** [String::from_utf8_lossy] *)

Definition byte_in (lo hi : Z) (x : option Z) : bool := match x with Some x => (lo <=? x) && (x <=? hi) | None => false end.
(** What the front of a byte string is: a character or not, of how many
    bytes. *)
Definition utf8_step (b : bytes) : bool * nat :=
  match b with
  | [] => (true, 0%nat)
  | x :: r =>
      let cont := byte_in 0x80 0xBF in
      if x <? 0x80 then (true, 1%nat)
      else if (0xC2 <=? x) && (x <=? 0xDF) then
        if cont (r !! 0%nat) then (true, 2%nat) else (false, 1%nat)
      else if (0xE0 <=? x) && (x <=? 0xEF) then
        if byte_in (if x =? 0xE0 then 0xA0 else 0x80) (if x =? 0xED then 0x9F else 0xBF) (r !! 0%nat) then
          if cont (r !! 1%nat) then (true, 3%nat) else (false, 2%nat)
        else (false, 1%nat)
      else if (0xF0 <=? x) && (x <=? 0xF4) then
        if byte_in (if x =? 0xF0 then 0x90 else 0x80) (if x =? 0xF4 then 0x8F else 0xBF) (r !! 0%nat) then
          if cont (r !! 1%nat) then
            if cont (r !! 2%nat) then (true, 4%nat) else (false, 3%nat)
          else (false, 2%nat)
        else (false, 1%nat)
      else (false, 1%nat)
  end.
Fixpoint utf8_lossy (fuel : nat) (b : bytes) : bytes :=
  match fuel, b with
  | O, _ | _, [] => []
  | S fuel, _ =>
      let '(valid, n) := utf8_step b in
      (if valid then take n b else [0xEF; 0xBF; 0xBD]) ++ utf8_lossy fuel (drop n b)
  end.
(** Every step takes a byte or more. *)
Definition from_utf8_lossy (b : bytes) : bytes := utf8_lossy (length b) b.

(** ** The header *)

(** [be32], [be64] and [be64h]: fields of the header. *)
Definition be32_at (hc : bytes) (o : Z) : Z := of_be64 (slice hc o (o + 4)).
Definition be64_at (hc : bytes) (o : Z) : Z := of_be64 (slice hc o (o + 8)).

Fixpoint backing_format_loop (fuel : nat) (hc : bytes) (off : Z) : option bytes :=
  if off + 8 <=? len hc then
    match fuel with
    | O => None
    | S fuel =>
        let et := be32_at hc off in
        let el := be32_at hc (off + 4) in
        if et =? EXT_END then None
        else if et =? EXT_BACKING_FORMAT then Some (from_utf8_lossy (slice hc (off + 8) (Z.min (off + 8 + el) (len hc))))
        else backing_format_loop fuel hc (off + (8 + div_ceil el 8 * 8))
    end
  else None.
(** The loop advances by eight bytes or more. *)
Definition parse_backing_format (hc : bytes) (header_length : Z) : option bytes := backing_format_loop (length hc) hc header_length.

(** The backing file reference. *)
Definition parse_backing (hc : bytes) (header_length : Z) : dres (option BackingRef) :=
  let backing_file_offset := be64_at hc 8 in
  let backing_file_size := be32_at hc 16 in
  if negb (backing_file_offset =? 0) && (0 <? backing_file_size) then
    if 1023 <? backing_file_size then DErr Format
    else if U64_MAX <? backing_file_offset + backing_file_size then DPanic
    else if len hc <? backing_file_offset + backing_file_size then DErr Format
    else DOk (Some (mkBackingRef (from_utf8_lossy (slice hc backing_file_offset (backing_file_offset + backing_file_size)))
                      (parse_backing_format hc header_length)))
  else DOk None.

Definition INCOMPAT_DIRTY : Z := 1.
Definition INCOMPAT_CORRUPT : Z := Z.shiftl 1 1.
Definition INCOMPAT_EXTERNAL_DATA : Z := Z.shiftl 1 2.
Definition INCOMPAT_COMPRESSION_TYPE : Z := Z.shiftl 1 3.
Definition INCOMPAT_EXTENDED_L2 : Z := Z.shiftl 1 4.
Definition INCOMPAT_KNOWN : Z :=
  Z.lor (Z.lor (Z.lor (Z.lor INCOMPAT_DIRTY INCOMPAT_CORRUPT) INCOMPAT_EXTERNAL_DATA) INCOMPAT_COMPRESSION_TYPE) INCOMPAT_EXTENDED_L2.

(** The incompatible features an image may have. *)
Definition check_features (hc : bytes) (incompatible : Z) : dres unit :=
  let has bit := negb (Z.land incompatible bit =? 0) in
  if negb (Z.land incompatible (Z.lxor U64_MAX INCOMPAT_KNOWN) =? 0) then DErr Unsupported
  else if has INCOMPAT_DIRTY then DErr Unsupported
  else if has INCOMPAT_CORRUPT then DErr Unsupported
  else if has INCOMPAT_EXTERNAL_DATA then DErr Unsupported
  else if has INCOMPAT_EXTENDED_L2 then DErr Unsupported
  else if has INCOMPAT_COMPRESSION_TYPE && negb (default 0 (hc !! 104%nat) =? 0) then DErr Unsupported
  else DOk tt.

(** A table of big-endian words of [n] bytes at [off], not read when empty. *)
Definition read_words (f : bytes) (off n : Z) : dres (list Z) :=
  b ← (if n =? 0 then DOk [] else read_exact_at f off n); DOk (word b <$> seqZ 0 (len b / 8)).

(** [parse]: the first sector, the header cluster, the checks, the tables. *)
Definition parse {B} (f : bytes) (read_only : bool) : dres (Qcow2Image B) :=
  first ← read_exact_at f 0 512;
  if negb (be32_at first 0 =? QCOW_MAGIC) then DErr Format else
  let version := be32_at first 4 in
  if negb (version =? 2) && negb (version =? 3) then DErr Format else
  let cluster_bits := be32_at first 20 in
  if (cluster_bits <? 9) || (21 <? cluster_bits) then DErr Format else
  let cluster_size := Z.shiftl 1 cluster_bits in
  rest ← (if 512 <? cluster_size then read_exact_at f 512 (cluster_size - 512) else DOk []);
  let hc := first ++ rest in
  if negb (be32_at first 32 =? 0) then DErr Unsupported else
  let l1_size := be32_at first 36 in
  let l1_table_offset := be64_at hc 40 in
  let refcount_table_offset := be64_at hc 48 in
  let refcount_table_clusters := be32_at first 56 in
  let nb_snapshots := be32_at first 60 in
  let snapshots_offset := be64_at hc 64 in
  let '(incompatible, autoclear, refcount_order, header_length) :=
    if 3 <=? version then (be64_at hc 72, be64_at hc 88, be32_at first 96, be32_at first 100) else (0, 0, 4, 72) in
  if (3 <=? version) && ((header_length <? 104) || negb (header_length mod 8 =? 0)) then DErr Format else
  if (3 <=? version) && (6 <? refcount_order) then DErr Format else
  _ ← check_features hc incompatible;
  if negb read_only && negb (autoclear =? 0) then DErr Unsupported else
  if (0 <? l1_size) && negb (l1_table_offset mod cluster_size =? 0) then DErr Format else
  if (0 <? refcount_table_clusters) && negb (refcount_table_offset mod cluster_size =? 0) then DErr Format else
  if (0 <? nb_snapshots) && negb (snapshots_offset mod cluster_size =? 0) then DErr Format else
  l1 ← read_words f l1_table_offset (l1_size * 8);
  refcount_table ← read_words f refcount_table_offset (refcount_table_clusters * cluster_size);
  backing ← parse_backing hc header_length;
  DOk (mkQcow2 f read_only version cluster_bits cluster_size (be64_at hc 24) l1_size l1_table_offset refcount_table_offset
         refcount_table_clusters (Z.shiftl 1 refcount_order) nb_snapshots snapshots_offset hc backing None l1 refcount_table
         (TableCache_new 64) (TableCache_new 64) (mkFree ∅ 0) false false false).
