(* ===== verification/Qcow2Durable.v ===== *)
(** * qcow2 images: what a flush makes durable

    After a flush the file alone describes the image: opening it gives the
    guest the same disk. *)

From S2P Require Import Prelude TableCache Disk Qcow2 Qcow2Alloc Qcow2Read Qcow2Phys Qcow2Steps Qcow2Free Qcow2Write Qcow2Guest Qcow2Correct Qcow2Open.

(** ** Words and fields *)

Lemma len_table_bytes t : len (table_bytes t) = 8 * Z.of_nat (length t).
Proof.
  unfold table_bytes. induction t as [|x t IH]; [done|]. cbn [mbind list_bind]. rewrite len_app. unfold len in *. cbn [length]. rewrite IH.
  change (length (u64_be x)) with 8%nat. lia.
Qed.
Lemma bytes_ok_table_bytes t : bytes_ok (table_bytes t).
Proof. unfold table_bytes. induction t as [|x t IH]; [constructor|]. cbn [mbind list_bind]. apply bytes_ok_app; [apply bytes_ok_u64_be|done]. Qed.
Lemma of_u64_be x : is_u64 x → of_be64 (u64_be x) = x.
Proof. intros Hx. apply (of_be_low 8 x); [concrete|exact Hx]. Qed.
Lemma of_be32_bytes x : is_u32 x → of_be64 (be32 x) = x.
Proof.
  intros Hx. unfold is_u32 in Hx. unfold of_be64, be32. cbn [foldl]. 
  pose proof (Z.div_mod x 256 ltac:(lia)). pose proof (Z.div_mod (x / 256) 256 ltac:(lia)). pose proof (Z.div_mod (x / 256 / 256) 256 ltac:(lia)).
  replace (x / 65536) with (x / 256 / 256) by (by rewrite Z.div_div by lia). replace (x / 16777216) with (x / 256 / 256 / 256) by (by rewrite !Z.div_div by lia).
  lia.
Qed.
(** A table written and read back. *)
Lemma words_table_bytes t : Forall is_u64 t → (word (table_bytes t) <$> seqZ 0 (len (table_bytes t) / 8)) = t.
Proof.
  intros Ht. rewrite len_table_bytes, Z.mul_comm, Z.div_mul by lia. induction Ht as [|x t Hx Ht IH]; [done|].
  rewrite seqZ_cons by (cbn [length]; lia). cbn [fmap list_fmap]. f_equal.
  - unfold word, table_bytes. cbn [mbind list_bind]. rewrite slice_app_l by (rewrite ?len_u64_be; lia). rewrite slice_full by (rewrite len_u64_be; lia).
    by apply of_u64_be.
  - etransitivity; [|exact IH]. replace (Z.pred (Z.of_nat (length (x :: t)))) with (Z.of_nat (length t)) by (cbn [length]; lia).
    rewrite <-(Z.add_0_r (Z.succ 0)), <-fmap_add_seqZ, <-list_fmap_compose. apply list_fmap_ext. intros i j Hj%list_elem_of_lookup_2%elem_of_seqZ. unfold compose.
    unfold word, table_bytes. cbn [mbind list_bind]. rewrite slice_app_r by (rewrite len_u64_be; lia). rewrite len_u64_be. do 2 f_equal; lia.
Qed.

(** ** Patches *)

Lemma slice_splice_same {A} (l src : list A) o : 0 ≤ o → o + len src ≤ len l → slice (splice l o src) o (o + len src) = src.
Proof.
  intros. pose proof (len_nonneg src). rewrite slice_splice_in by lia. rewrite Z.sub_diag. apply splice_whole. rewrite len_slice; lia.
Qed.

Definition patch (hc : bytes) (l : list (Z * bytes)) : bytes := foldl (λ hc e, splice hc e.1 e.2) hc l.
Definition patch_fits (n : Z) (l : list (Z * bytes)) : Prop := Forall (λ e, 0 ≤ e.1 ∧ e.1 + len e.2 ≤ n) l.
Definition patch_apart (a b : Z) (l : list (Z * bytes)) : Prop := Forall (λ e, b ≤ e.1 ∨ e.1 + len e.2 ≤ a) l.

Lemma len_patch hc l : patch_fits (len hc) l → len (patch hc l) = len hc.
Proof.
  revert hc. induction l as [|[o b] l IH]; intros hc Hf; [done|]. apply Forall_cons in Hf as [[? ?] Hf]. simpl in *.
  assert (len (splice hc o b) = len hc) as Hl by (by apply len_splice). unfold patch in *. simpl. rewrite IH; rewrite Hl; done.
Qed.
Lemma slice_patch_out hc l a b : patch_fits (len hc) l → 0 ≤ a ≤ b → patch_apart a b l → slice (patch hc l) a b = slice hc a b.
Proof.
  revert hc. induction l as [|[o v] l IH]; intros hc Hf Hab Ha; [done|]. apply Forall_cons in Hf as [[? ?] Hf], Ha as [? Ha]. simpl in *.
  assert (len (splice hc o v) = len hc) as Hl by (by apply len_splice). unfold patch in *. simpl. rewrite IH by (rewrite ?Hl; done).
  by apply slice_splice_out.
Qed.
Lemma slice_patch_in hc l1 o v l2 :
  patch_fits (len hc) (l1 ++ (o, v) :: l2) → patch_apart o (o + len v) l2 → slice (patch hc (l1 ++ (o, v) :: l2)) o (o + len v) = v.
Proof.
  intros Hf Ha. apply Forall_app in Hf as [H1 H2]. apply Forall_cons in H2 as [[? ?] H2]. simpl in *. pose proof (len_patch hc l1 H1) as Hl.
  pose proof (len_nonneg v). assert (patch hc (l1 ++ (o, v) :: l2) = patch (splice (patch hc l1) o v) l2) as -> by (unfold patch; by rewrite foldl_app).
  assert (len (splice (patch hc l1) o v) = len hc) as Hl' by (rewrite len_splice; rewrite ?Hl; done).
  rewrite slice_patch_out; [|by rewrite Hl'|lia|done]. apply slice_splice_same; [lia|]. by rewrite Hl.
Qed.
Lemma bytes_ok_patch hc l : bytes_ok hc → Forall (λ e, bytes_ok e.2) l → bytes_ok (patch hc l).
Proof. intros Hh Hl. revert hc Hh. induction Hl as [|e l He Hl IH]; intros hc Hh; [done|]. unfold patch in *. simpl. apply IH. by apply bytes_ok_splice. Qed.

Section durable.
Context {B : Type} `{HB : DiskContents B} `{HI : InflateLaws}.
Implicit Types q : Qcow2Image B.

(** ** The header *)

(** The fields that change, and the header cluster with them up to date. *)
Definition patches q : list (Z * bytes) :=
  [(24, u64_be (q_size q)); (36, be32 (l1_size q)); (40, u64_be (l1_table_offset q)); (48, u64_be (refcount_table_offset q));
   (56, be32 (refcount_table_clusters q)); (60, be32 (nb_snapshots q)); (64, u64_be (snapshots_offset q))].
Definition patched q : bytes := patch (header_cluster q) (patches q).

Definition header_length q : Z := if 3 <=? q_version q then be32_at (header_cluster q) 100 else 72.

(** The header says of the image what never changes. *)
Record header_ok q : Prop := mkHeaderOk {
  ho_len : len (header_cluster q) = cluster_size q;
  ho_bytes : bytes_ok (header_cluster q);
  ho_magic : be32_at (header_cluster q) 0 = QCOW_MAGIC;
  ho_version : be32_at (header_cluster q) 4 = q_version q ∧ (q_version q = 2 ∨ q_version q = 3);
  ho_bits : be32_at (header_cluster q) 20 = cluster_bits q;
  ho_crypt : be32_at (header_cluster q) 32 = 0;
  ho_v3 : q_version q = 3 → be64_at (header_cluster q) 72 = 0 ∧ be64_at (header_cluster q) 88 = 0 ∧ be32_at (header_cluster q) 96 ≤ 6 ∧
    refcount_bits q = Z.shiftl 1 (be32_at (header_cluster q) 96) ∧ 104 ≤ be32_at (header_cluster q) 100 ∧ be32_at (header_cluster q) 100 mod 8 = 0;
  ho_v2 : q_version q = 2 → refcount_bits q = 16;
  ho_backing : parse_backing (header_cluster q) (header_length q) = DOk (backing q);
  ho_name : 72 ≤ be64_at (header_cluster q) 8 ∨ be64_at (header_cluster q) 8 = 0 ∨ be32_at (header_cluster q) 16 = 0 }.

Lemma patches_fit q n : 512 ≤ n → patch_fits n (patches q).
Proof. intros Hn. unfold patches. repeat (constructor; [simpl; rewrite ?len_u64_be, ?len_be32; lia|]). constructor. Qed.
Lemma len_patched q : 512 ≤ len (header_cluster q) → len (patched q) = len (header_cluster q).
Proof. intros Hl. by apply len_patch, patches_fit. Qed.
(** Outside those fields nothing changes. *)
Lemma patched_out q a b : 512 ≤ len (header_cluster q) → 0 ≤ a ≤ b → b ≤ 24 ∨ 32 ≤ a ∧ b ≤ 36 ∨ 72 ≤ a → slice (patched q) a b = slice (header_cluster q) a b.
Proof.
  intros Hl Hab Ho. apply slice_patch_out; [by apply patches_fit|done|]. unfold patches.
  repeat (constructor; [simpl; rewrite ?len_u64_be, ?len_be32; lia|]). constructor.
Qed.
Lemma patched_in q l1 o v l2 : 512 ≤ len (header_cluster q) → patches q = l1 ++ (o, v) :: l2 → patch_apart o (o + len v) l2 → slice (patched q) o (o + len v) = v.
Proof. intros Hl Hp Ha. unfold patched. rewrite Hp. apply slice_patch_in; [rewrite <-Hp; by apply patches_fit|done]. Qed.

Lemma patch_header_fields_spec q : 512 ≤ len (header_cluster q) → patch_header_fields q = (set_header_cluster (patched q) q, DOk tt).
Proof.
  intros Hl. unfold patch_header_fields. rewrite (dbind_ok _ _ q q q) by done. unfold id.
  pose proof (patches_fit q (len (header_cluster q)) Hl) as Hf. unfold patches in Hf.
  repeat (apply Forall_cons in Hf as [[? ?] Hf]; cbn [fst snd] in * ).
  do 7 (rewrite copy_at_ret by lia; cbn [mbind outcome_bind];
    match goal with |- context [splice ?h ?o ?b] => let x := fresh "h" in
      assert (len (splice h o b) = len (header_cluster q)) by (rewrite len_splice; lia); set (x := splice h o b) in * end).
  reflexivity.
Qed.

(** ** Opening what was flushed *)

Lemma slice_prefix {A} (l : list A) n a b : 0 ≤ a ≤ b → b ≤ n → slice (slice l 0 n) a b = slice l a b.
Proof. intros. unfold slice. change (Z.to_nat 0) with 0%nat. rewrite drop_0, Z.sub_0_r, !firstn_skipn_comm, take_take. do 2 f_equal. lia. Qed.
Lemma be32_prefix (hc : bytes) o : 0 ≤ o → o + 4 ≤ 512 → be32_at (slice hc 0 512) o = be32_at hc o.
Proof. intros. unfold be32_at. by rewrite slice_prefix by lia. Qed.
Lemma be32_bound (hc : bytes) o : bytes_ok hc → 0 ≤ o → o + 4 ≤ len hc → is_u32 (be32_at hc o).
Proof.
  intros Hb Ho Hl. unfold be32_at. pose proof (of_be64_bound (slice hc o (o + 4)) ltac:(by apply bytes_ok_slice)) as Hbd. rewrite len_slice in Hbd by lia.
  replace (8 * (o + 4 - o)) with 32 in Hbd by lia. exact Hbd.
Qed.

Lemma format_loop_ext fuel (hc hc' : bytes) off :
  len hc' = len hc → bytes_ok hc → 72 ≤ off → (∀ a b, 72 ≤ a ≤ b → slice hc' a b = slice hc a b) →
  backing_format_loop fuel hc' off = backing_format_loop fuel hc off.
Proof.
  intros Hl Hok Hoff Hs. revert off Hoff. induction fuel as [|fuel IH]; intros off Hoff; cbn [backing_format_loop]; rewrite Hl; [done|].
  destruct (Z.leb_spec (off + 8) (len hc)) as [Hle|]; [|done].
  assert (be32_at hc' off = be32_at hc off ∧ be32_at hc' (off + 4) = be32_at hc (off + 4)) as [-> ->] by (unfold be32_at; rewrite !Hs by lia; done).
  pose proof (be32_bound hc (off + 4) Hok ltac:(lia) ltac:(lia)) as Hel. unfold is_u32 in Hel. set (el := be32_at hc (off + 4)) in *.
  case_match; [done|]. case_match.
  - by rewrite Hs by lia.
  - apply IH. assert (0 ≤ div_ceil el 8) by (unfold div_ceil; apply Z.div_pos; lia). lia.
Qed.
Lemma patched_backing q : header_ok q → 512 ≤ cluster_size q → parse_backing (patched q) (header_length q) = DOk (backing q).
Proof.
  intros Hh Hcs. rewrite <-(ho_backing q Hh). pose proof (ho_len q Hh) as Hl. assert (512 ≤ len (header_cluster q)) as H512 by lia.
  pose proof (len_patched q H512) as Hlp. unfold parse_backing. rewrite Hlp.
  assert (be64_at (patched q) 8 = be64_at (header_cluster q) 8 ∧ be32_at (patched q) 16 = be32_at (header_cluster q) 16) as [-> ->].
  { unfold be64_at, be32_at. by rewrite !patched_out by lia. }
  destruct (negb (be64_at (header_cluster q) 8 =? 0) && (0 <? be32_at (header_cluster q) 16)) eqn:E; [|done].
  apply andb_true_iff in E as [E1 E2]. bsplit. case_match; [done|]. case_match; [done|]. case_match; [done|]. bsplit.
  destruct (ho_name q Hh) as [Hn|[Hn|Hn]]; [|lia|lia].
  rewrite patched_out by lia. do 3 f_equal. unfold parse_backing_format. replace (length (patched q)) with (length (header_cluster q)) by (unfold len in Hlp; lia).
  apply format_loop_ext; [done|apply Hh| |intros a b Hab; apply patched_out; lia].
  unfold header_length. destruct (Z.leb_spec 3 (q_version q)); [|lia]. destruct (ho_version q Hh) as [_ [?|Hv]]; [lia|]. destruct (ho_v3 q Hh Hv) as (_ & _ & _ & _ & ? & _). lia.
Qed.

(** The image a file describes. *)
Definition reopened q (f : bytes) : Qcow2Image B :=
  mkQcow2 f false (q_version q) (cluster_bits q) (cluster_size q) (q_size q) (l1_size q) (l1_table_offset q) (refcount_table_offset q)
    (refcount_table_clusters q) (refcount_bits q) (nb_snapshots q) (snapshots_offset q) (header_cluster q) (backing q) None (l1 q) (refcount_table q)
    (TableCache_new 64) (TableCache_new 64) (mkFree ∅ 0) false false false.

(** The ranges of the header's fields. *)
Record fields_ok q : Prop := mkFieldsOk {
  fo_size : is_u64 (q_size q);
  fo_l1_size : is_u32 (l1_size q) ∧ Z.of_nat (length (l1 q)) = l1_size q;
  fo_l1_offset : is_u64 (l1_table_offset q) ∧ l1_table_offset q mod cluster_size q = 0;
  fo_rt_offset : is_u64 (refcount_table_offset q) ∧ refcount_table_offset q mod cluster_size q = 0;
  fo_rt_clusters : is_u32 (refcount_table_clusters q) ∧ 8 * Z.of_nat (length (refcount_table q)) = refcount_table_clusters q * cluster_size q;
  fo_snapshots : is_u32 (nb_snapshots q) ∧ is_u64 (snapshots_offset q) ∧ snapshots_offset q mod cluster_size q = 0;
  fo_words : Forall is_u64 (l1 q) ∧ Forall is_u64 (refcount_table q) }.

(** A header cluster with the image's values in the fields that change. *)
Definition fields_in (hc : bytes) q : Prop :=
  be64_at hc 24 = q_size q ∧ be32_at hc 36 = l1_size q ∧ be64_at hc 40 = l1_table_offset q ∧ be64_at hc 48 = refcount_table_offset q ∧
  be32_at hc 56 = refcount_table_clusters q ∧ be32_at hc 60 = nb_snapshots q ∧ be64_at hc 64 = snapshots_offset q.

Lemma patched_fields q : 512 ≤ len (header_cluster q) → fields_ok q → fields_in (patched q) q.
Proof.
  intros Hl [F1 [F2 _] [F3 _] [F4 _] [F5 _] (F6 & F7 & _) _]. unfold fields_in, be64_at, be32_at.
  assert (∀ k o v, patches q !! k = Some (o, v) → patch_apart o (o + len v) (drop (S k) (patches q)) → slice (patched q) o (o + len v) = v) as Hin.
  { intros k o v Hk. by apply (patched_in q (take k (patches q))), eq_sym, take_drop_middle. }
  split_and!.
  1: specialize (Hin 0%nat _ _ eq_refl). 2: specialize (Hin 1%nat _ _ eq_refl). 3: specialize (Hin 2%nat _ _ eq_refl). 4: specialize (Hin 3%nat _ _ eq_refl).
  5: specialize (Hin 4%nat _ _ eq_refl). 6: specialize (Hin 5%nat _ _ eq_refl). 7: specialize (Hin 6%nat _ _ eq_refl).
  all: rewrite ?len_u64_be, ?len_be32 in Hin; rewrite Hin by (repeat (constructor; [simpl; rewrite ?len_u64_be, ?len_be32; lia|]); constructor).
  all: (by apply of_u64_be) || (by apply of_be32_bytes).
Qed.

Lemma read_words_spec f off (t : list Z) n :
  8 * Z.of_nat (length t) = 8 * n → Forall is_u64 t → (0 < 8 * n → off + 8 * n ≤ len f ∧ slice f off (off + 8 * n) = table_bytes t) →
  read_words f off (8 * n) = DOk t.
Proof.
  intros Hn Ht Hs. unfold read_words. destruct (Z.eqb_spec (8 * n) 0) as [Hz|Hz].
  - destruct t; [done|]. simpl in Hn. lia.
  - destruct Hs as [Hl Hs]; [lia|]. unfold read_exact_at. rewrite (proj2 (Z.leb_le _ (len f))) by lia. rewrite orb_true_r. cbn [mbind dres_bind].
    by rewrite Hs, words_table_bytes.
Qed.
Lemma header_ok_patched q : header_ok q → fields_ok q → 512 ≤ cluster_size q → header_ok (set_header_cluster (patched q) q).
Proof.
  intros Hh Hf Hcs. pose proof (ho_len q Hh) as Hlen. assert (512 ≤ len (header_cluster q)) as H512 by lia. pose proof (len_patched q H512) as Hlp.
  assert (∀ o, 0 ≤ o → o + 4 ≤ 24 ∨ 32 ≤ o ∧ o + 4 ≤ 36 ∨ 72 ≤ o → be32_at (patched q) o = be32_at (header_cluster q) o) as H32 by (intros; unfold be32_at; by rewrite patched_out by lia).
  assert (∀ o, o = 8 ∨ 72 ≤ o → be64_at (patched q) o = be64_at (header_cluster q) o) as H64 by (intros; unfold be64_at; by rewrite patched_out by lia).
  assert (header_length (set_header_cluster (patched q) q) = header_length q) as Hhl by (unfold header_length; simpl; by rewrite H32 by lia).
  pose proof (patched_backing q Hh Hcs) as Hb. destruct Hh as [O1 O2 O3 O4 O5 O6 O7 O8 O9 O10].
  constructor; rewrite ?Hhl; cbn [header_cluster set_header_cluster]; change (cluster_size (set_header_cluster (patched q) q)) with (cluster_size q);
    rewrite ?H32, ?H64 by lia; try done; [lia|].
  apply bytes_ok_patch; [done|]. destruct Hf as [? [? _] ? ? [? _] (? & _) _]. unfold patches.
  repeat (constructor; [simpl; first [apply bytes_ok_u64_be|by apply bytes_ok_be32]|]). constructor.
Qed.

Lemma parse_reopened q f :
  header_ok q → fields_ok q → fields_in (header_cluster q) q → 9 ≤ cluster_bits q ≤ 21 → cluster_size q = 2 ^ cluster_bits q → cluster_size q ≤ len f →
  slice f 0 (cluster_size q) = header_cluster q →
  (0 < l1_size q → l1_table_offset q + 8 * l1_size q ≤ len f ∧ slice f (l1_table_offset q) (l1_table_offset q + 8 * l1_size q) = table_bytes (l1 q)) →
  (0 < refcount_table_clusters q → refcount_table_offset q + refcount_table_clusters q * cluster_size q ≤ len f ∧
     slice f (refcount_table_offset q) (refcount_table_offset q + refcount_table_clusters q * cluster_size q) = table_bytes (refcount_table q)) →
  parse f false = DOk (reopened q f).
Proof.
  intros Hh Hf (P1 & P2 & P3 & P4 & P5 & P6 & P7) Hb Hcs Hlf Hhc Hl1 Hrt.
  assert (512 ≤ cluster_size q) as H512 by (rewrite Hcs; change 512 with (2 ^ 9); apply Z.pow_le_mono_r; lia).
  pose proof (ho_len q Hh) as Hlen. set (hc := header_cluster q) in *.
  assert (slice f 0 512 = slice hc 0 512) as Hfirst by (rewrite <-Hhc, slice_prefix by lia; done).
  assert (∀ o, 0 ≤ o → o + 4 ≤ 512 → be32_at (slice hc 0 512) o = be32_at hc o) as Hp32 by (intros; by apply be32_prefix).
  assert (read_exact_at f 0 512 = DOk (slice hc 0 512)) as Hread.
  { unfold read_exact_at. rewrite (proj2 (Z.leb_le _ (len f))) by lia. by rewrite orb_true_r, <-Hfirst. }
  unfold parse. rewrite Hread. cbn [mbind dres_bind].
  rewrite !Hp32 by lia. pose proof (ho_magic q Hh) as M1. pose proof (ho_bits q Hh) as M2. pose proof (ho_crypt q Hh) as M3. pose proof (proj1 (ho_version q Hh)) as M4.
  fold hc in M1, M2, M3, M4. rewrite M1, M2, M3, M4, P2, P5, P6.
  assert (Z.shiftl 1 (cluster_bits q) = cluster_size q) as -> by (rewrite Hcs; apply Z.shiftl_1_l).
  assert ((if 512 <? cluster_size q then read_exact_at f 512 (cluster_size q - 512) else DOk []) = DOk (slice hc 512 (cluster_size q))) as ->.
  { rewrite <-Hhc. destruct (Z.ltb_spec 512 (cluster_size q)) as [Hlt|Hge].
    - unfold read_exact_at. rewrite (proj2 (Z.leb_le _ (len f))) by lia. rewrite orb_true_r, slice_prefix by lia. do 2 f_equal. lia.
    - assert (cluster_size q = 512) as -> by lia. unfold slice. by rewrite Z.sub_diag. }
  cbn [mbind dres_bind].
  assert (slice hc 0 512 ++ slice hc 512 (cluster_size q) = hc) as ->.
  { unfold slice. change (Z.to_nat 0) with 0%nat. rewrite drop_0, (take_ge (drop _ _)); [apply take_drop|]. rewrite length_drop. unfold len in *. lia. }
  rewrite P1, P3, P4, P7.
  assert (read_words f (l1_table_offset q) (l1_size q * 8) = DOk (l1 q)) as ->.
  { rewrite (Z.mul_comm _ 8). destruct (fo_l1_size q Hf) as [_ Hll]. apply read_words_spec; [lia|apply Hf|]. intros. apply Hl1. lia. }
  assert (read_words f (refcount_table_offset q) (refcount_table_clusters q * cluster_size q) = DOk (refcount_table q)) as ->.
  { rewrite <-(proj2 (fo_rt_clusters q Hf)). apply read_words_spec; [done|apply Hf|]. rewrite (proj2 (fo_rt_clusters q Hf)). intros. apply Hrt. nia. }
  assert (∃ order, refcount_bits q = Z.shiftl 1 order ∧ order ≤ 6 ∧
    (if 3 <=? q_version q then (be64_at hc 72, be64_at hc 88, be32_at hc 96, be32_at hc 100) else (0, 0, 4, 72))
    = (0, 0, order, header_length q) ∧ (3 <= q_version q → 104 ≤ header_length q ∧ header_length q mod 8 = 0)) as (order & Hrb & Hord & -> & Hhl).
  { unfold header_length. fold hc. destruct (ho_version q Hh) as [_ [Hv|Hv]]; rewrite Hv; cbn [Z.leb Z.compare Pos.compare Pos.compare_cont].
    - exists 4. split_and!; [by rewrite (ho_v2 q Hh Hv)|lia|done|lia].
    - pose proof (ho_v3 q Hh Hv) as H3. fold hc in H3. destruct H3 as (-> & -> & ? & ? & ? & ?). eexists. split_and!; [done|done|done|done]. }
  assert ((3 <=? q_version q) && ((header_length q <? 104) || negb (header_length q mod 8 =? 0)) = false) as ->.
  { destruct (Z.leb_spec 3 (q_version q)) as [H3|]; [|done]. destruct (Hhl H3) as [? ->]. by rewrite (proj2 (Z.ltb_ge _ _)) by lia. }
  assert ((3 <=? q_version q) && (6 <? order) = false) as -> by (rewrite (proj2 (Z.ltb_ge 6 order)) by lia; apply andb_false_r).
  change (check_features hc 0) with (DOk tt). cbn [mbind dres_bind].
  destruct (fo_l1_offset q Hf) as [_ ->], (fo_rt_offset q Hf) as [_ ->], (fo_snapshots q Hf) as (_ & _ & ->).
  pose proof (ho_backing q Hh) as Hbk. fold hc in Hbk. rewrite Hbk. cbn [mbind dres_bind]. rewrite !Z.eqb_refl. cbn [negb]. rewrite !andb_false_r.
  assert (negb (q_version q =? 2) && negb (q_version q =? 3) = false) as -> by (destruct (ho_version q Hh) as [_ [-> | ->]]; done).
  rewrite !(proj2 (Z.ltb_ge _ _)) by lia. cbn [orb]. unfold reopened. by rewrite Hrb.
Qed.

(** ** The top of the image *)

Definition in_region (a n cs c : Z) : Prop := a ≤ c * cs < a + n.
Definition l1_region q : Z → Prop := in_region (l1_table_offset q) (8 * l1_size q) (cluster_size q).
Definition rt_region q : Z → Prop := in_region (refcount_table_offset q) (refcount_table_clusters q * cluster_size q) (cluster_size q).
Definition is_meta q (c : Z) : Prop := c = 0 ∨ l1_region q c ∨ rt_region q c.

(** The header, the L1 table and the refcount table each have clusters of
    their own, with one reference, that nothing else caches; what is not
    marked to be written is in the file. *)
Record meta_ok (P : Z → Prop) q : Prop := mkMetaOk {
  mo_header : header_ok q;
  mo_fields : fields_ok q;
  mo_clean_header : header_dirty q = false → slice (q_file q) 0 (cluster_size q) = header_cluster q ∧ fields_in (header_cluster q) q;
  mo_clean_l1 : l1_dirty q = false → slice (q_file q) (l1_table_offset q) (l1_table_offset q + 8 * l1_size q) = table_bytes (l1 q);
  mo_clean_rt : refcount_table_dirty q = false →
    slice (q_file q) (refcount_table_offset q) (refcount_table_offset q + refcount_table_clusters q * cluster_size q) = table_bytes (refcount_table q);
  mo_region c : 0 ≤ c → is_meta q c → P c ∧ rc q c = 1 ∧ c_map (l2_cache q) !! (c * cluster_size q) = None;
  mo_apart c : 0 ≤ c → ¬ (l1_region q c ∧ rt_region q c) ∧ (l1_region q c ∨ rt_region q c → c ≠ 0) }.

(** A region of whole clusters has the bytes its clusters have. *)
Lemma region_same (f f' : bytes) cs a n :
  0 < cs → 0 ≤ a → a mod cs = 0 → 0 ≤ n → a + n ≤ len f → a + n ≤ len f' →
  (∀ c, 0 ≤ c → in_region a n cs c → tables f' cs (c * cs) = tables f cs (c * cs)) → slice f' a (a + n) = slice f a (a + n).
Proof.
  intros Hcs Ha Hm Hn Hl Hl' Ht. apply idx_ext; [rewrite !len_slice by lia; done|]. intros i Hi. rewrite len_slice in Hi by lia.
  rewrite !idx_slice by lia. set (o := a + i) in *. pose proof (Z.div_mod o cs ltac:(lia)) as Hd. pose proof (Z.mod_pos_bound o cs ltac:(lia)).
  pose proof (Z.div_mod a cs ltac:(lia)) as Hda. assert (0 ≤ o / cs) by (apply Z.div_pos; lia).
  pose proof (Z.div_le_mono a o cs ltac:(lia) ltac:(lia)).
  specialize (Ht (o / cs) ltac:(done) ltac:(split; nia)). rewrite !tables_at in Ht by (nia || (apply Z.mod_mul; lia)).
  assert (idx (slice f' (o / cs * cs) (o / cs * cs + cs)) (o mod cs) = idx (slice f (o / cs * cs) (o / cs * cs + cs)) (o mod cs)) as Hx by (by rewrite Ht).
  rewrite !idx_slice in Hx by nia. replace (o / cs * cs + o mod cs) with o in Hx by lia. exact Hx.
Qed.

Lemma region_in_file cs a n (m : Z) :
  0 < cs → 0 ≤ a → a mod cs = 0 → 0 < n → (∀ c, 0 ≤ c → in_region a n cs c → (c + 1) * cs ≤ m) → a + n ≤ m.
Proof.
  intros Hcs Ha Hm Hn Hr. set (c := (a + n - 1) / cs). pose proof (Z.div_mod (a + n - 1) cs ltac:(lia)) as Hd.
  pose proof (Z.mod_pos_bound (a + n - 1) cs ltac:(lia)). fold c in Hd. pose proof (Z.div_mod a cs ltac:(lia)).
  pose proof (Z.div_le_mono a (a + n - 1) cs ltac:(lia) ltac:(lia)) as Hle. fold c in Hle. assert (0 ≤ c) as Hc0 by (apply Z.div_pos; lia).
  specialize (Hr c Hc0 ltac:(split; nia)). nia.
Qed.
Lemma meta_in_file P q a n :
  write_ok P q → 0 ≤ a → a mod cluster_size q = 0 → 0 < n → (∀ c, 0 ≤ c → in_region a n (cluster_size q) c → P c) → a + n ≤ len (q_file q).
Proof.
  intros Hw Ha Hm Hn Hr. pose proof (phys_cs q (write_phys P q Hw)) as Hcs. apply (region_in_file (cluster_size q)); try (done || lia).
  intros c Hc Hi. by apply (wo_P _ _ Hw c), Hr.
Qed.

Lemma meta_uncached P q c : meta_ok P q → 0 ≤ c → is_meta q c → l2_table q (c * cluster_size q) = tables (q_file q) (cluster_size q) (c * cluster_size q).
Proof. intros Hm Hc Hi. destruct (mo_region _ _ Hm c Hc Hi) as (_ & _ & Hn). unfold l2_table, view. by rewrite Hn. Qed.

(** Clusters of [P] with one reference are no tables and no data. *)
Lemma private_unused (P : Z → Prop) q c : write_ok P q → P c → rc q c = 1 →
  (∀ i, l2h q i ≠ 0 → l2h q i / cluster_size q ≠ c) ∧ (∀ i j, 0 ≤ j < l2_entries q → dh q i j ≠ 0 → dh q i j / cluster_size q ≠ c).
Proof.
  intros Hw Hc Hr. split.
  - intros i Hi <-. pose proof (wo_P_tables _ _ Hw i Hi Hc). lia.
  - intros i j Hj Hd <-. destruct (wo_P_data _ _ Hw i j Hj Hd Hc). lia.
Qed.

Lemma private_off (P : Z → Prop) q c : write_ok P q → P c → rc q c = 1 → c_map (l2_cache q) !! (c * cluster_size q) = None → off_table q c.
Proof.
  intros Hw Hc Hr Hn. destruct (private_unused P q c Hw Hc Hr) as [Hu _]. split; [|done]. intros i Hi Heq. apply (Hu i Hi).
  rewrite Heq. apply Z.div_mul. pose proof (phys_cs q (write_phys P q Hw)). lia.
Qed.

(** It is kept where its clusters are. *)
Lemma meta_ok_kept P q q' :
  write_ok P q → meta_ok P q → meta_kept q q' → length (refcount_table q') = length (refcount_table q) →
  cluster_size q' = cluster_size q → cluster_bits q' = cluster_bits q → q_size q' = q_size q → length (l1 q') = length (l1 q) → Forall is_u64 (l1 q') →
  (∀ c, 0 ≤ c → is_meta q c → rc q' c = 1 ∧ c_map (l2_cache q') !! (c * cluster_size q) = None ∧ (c + 1) * cluster_size q ≤ len (q_file q') ∧
     l2_table q' (c * cluster_size q) = l2_table q (c * cluster_size q)) →
  meta_ok P q'.
Proof.
  intros Hw Hm ((E1 & E2 & E3 & E4 & E5 & E6 & E7 & E8 & E9 & E10) & Hhd & Hld & Hrd & Hu) Hrl Hcs Hbits Hsz Hl1 Hl64 Hreg.
  pose proof (phys_cs q (write_phys P q Hw)) as Hcs0.
  assert (∀ c, is_meta q' c ↔ is_meta q c) as Hmeta by (intros c; unfold is_meta, l1_region, rt_region; by rewrite E2, E3, E4, E5, Hcs).
  assert (∀ c, 0 ≤ c → is_meta q c → tables (q_file q') (cluster_size q) (c * cluster_size q) = tables (q_file q) (cluster_size q) (c * cluster_size q)) as Htab.
  { intros c Hc Hi. destruct (Hreg c Hc Hi) as (_ & Hn & _ & Ht). rewrite <-(meta_uncached P q c Hm Hc Hi), <-Ht. unfold l2_table, view. by rewrite Hn, Hcs. }
  assert (∀ a n, 0 ≤ a → a mod cluster_size q = 0 → 0 ≤ n → (∀ c, 0 ≤ c → in_region a n (cluster_size q) c → is_meta q c) →
    slice (q_file q') a (a + n) = slice (q_file q) a (a + n)) as Hslice.
  { intros a n Ha Hma Hn Hr. destruct (decide (n = 0)) as [->|Hn0]; [unfold slice; by rewrite !Z.add_0_r, !Z.sub_diag|].
    apply (region_same _ _ (cluster_size q)); [lia|done|done|done| | |intros c Hc Hi; apply Htab; auto].
    - apply (meta_in_file P q); try done; [lia|]. intros c Hc Hi. by apply (mo_region _ _ Hm), Hr.
    - apply (region_in_file (cluster_size q)); try lia. intros c Hc Hi. by apply Hreg, Hr. }
  assert (header_length q' = header_length q) as Hhl by (unfold header_length; by rewrite E1, E8).
  destruct (mo_header _ _ Hm) as [O1 O2 O3 O4 O5 O6 O7 O8 O9 O10]. destruct (mo_fields _ _ Hm) as [F1 F2 F3 F4 F5 F6 F7].
  constructor.
  - constructor; rewrite ?E8, ?Hcs, ?Hbits, ?E1, ?E10, ?Hhl, ?E9; done.
  - constructor; rewrite ?Hsz, ?E2, ?E3, ?E4, ?E5, ?E6, ?E7, ?Hcs, ?Hrl, ?Hl1; try done. split; [exact Hl64|exact (Hu (proj2 F7))].
  - intros Hd. unfold fields_in. rewrite Hcs, E8, Hsz, E2, E3, E4, E5, E6, E7. destruct (mo_clean_header _ _ Hm (Hhd Hd)) as [Hh Hfi]. split; [|exact Hfi].
    rewrite <-Hh. apply (Hslice 0 (cluster_size q)); [lia|apply Z.mod_0_l; lia|lia|]. intros c Hc [_ Hr]. left. nia.
  - intros Hd. destruct (Hld Hd) as [Hd' ->]. rewrite E2, E3. rewrite <-(mo_clean_l1 _ _ Hm Hd'). destruct F3 as [[? _] ?], F2 as [[? _] _].
    apply Hslice; try done; [lia|]. intros c Hc Hi. right. by left.
  - intros Hd. destruct (Hrd Hd) as [Hd' ->]. rewrite E4, E5, Hcs. rewrite <-(mo_clean_rt _ _ Hm Hd'). destruct F4 as [[? _] ?], F5 as [[? _] _].
    apply Hslice; try done; [nia|]. intros c Hc Hi. right. by right.
  - intros c Hc Hi. apply Hmeta in Hi. rewrite Hcs. destruct (Hreg c Hc Hi) as (? & ? & _). split; [by apply (mo_region _ _ Hm)|done].
  - intros c Hc. unfold l1_region, rt_region. rewrite E2, E3, E4, E5, Hcs. by apply (mo_apart _ _ Hm).
Qed.
(** Guest writes keep it. *)
Lemma wrote_meta_ok P lo part q q' : write_ok P q → write_ok P q' → meta_ok P q → wrote P lo part q q' → meta_ok P q'.
Proof.
  intros Hw Hw' Hm Hwr. destruct (wr_meta _ _ _ _ _ Hwr) as (Hk & Hrl & Hreg & _). pose proof (wr_cs _ _ _ _ _ Hwr) as Hcs.
  apply (meta_ok_kept P q); try done; [apply Hwr|apply Hwr|apply Hwr|apply Hw'|]. intros c Hc Hi. destruct (mo_region _ _ Hm c Hc Hi) as (HPc & Hr & Hn).
  destruct (Hreg c HPc) as ([Hr' _] & Hn' & _). destruct (Hn' (private_off P q c Hw HPc Hr Hn)) as [_ Hn2]. rewrite Hcs in Hn2.
  destruct (wo_P _ _ Hw' c HPc) as (_ & _ & _ & Hf). rewrite Hcs in Hf. split_and!; auto. by apply (wr_P _ _ _ _ _ Hwr).
Qed.

(** ** Writing the top of the image *)

(** A write over whole clusters that hold no refcount block and no cached
    table. *)
Lemma region_write q a b :
  phys q → 0 ≤ a → a mod cluster_size q = 0 → 0 < len b → bytes_ok b → a + len b ≤ len (q_file q) →
  (∀ c, 0 ≤ c → in_region a (len b) (cluster_size q) c → ¬ is_block q (c * cluster_size q) ∧ c_map (l2_cache q) !! (c * cluster_size q) = None) →
  let q' := set_file (write_all_at (q_file q) a b) q in
  write_file a b q = (q', DOk tt) ∧ phys q' ∧ keeps (in_region a (len b) (cluster_size q)) nowhere q q' ∧ (∀ x, 0 ≤ x → rc q' x = rc q x) ∧
  len (q_file q') = len (q_file q) ∧ q_file q' = splice (q_file q) a b.
Proof.
  intros Hp Ha Hm Hb Hok Hl Hreg q'. pose proof (phys_cs q Hp) as Hcs. set (cs := cluster_size q) in *.
  assert (q_file q' = splice (q_file q) a b) as Hf.
  { unfold q'. cbn [q_file set_file]. rewrite write_all_at_ne by done. replace (Z.to_nat (a + len b - len (q_file q))) with 0%nat by lia. by rewrite app_nil_r. }
  assert (len (q_file q') = len (q_file q)) as Hlen by (rewrite Hf; apply len_splice; lia).
  assert (∀ k, 0 ≤ k → k mod cs = 0 → k + cs ≤ len (q_file q) → ¬ in_region a (len b) cs (k / cs) →
    tables (q_file q') cs k = tables (q_file q) cs k) as Hother.
  { intros k Hk Hkm Hkl Hn. rewrite Hf, !tables_at by done. apply slice_splice_out; [lia|done|lia|].
    pose proof (aligned_cluster q k Hp Hkm) as Hck. fold cs in Hck. unfold in_region in Hn. rewrite Hck in Hn.
    destruct (Z.le_gt_cases a k) as [?|Hlt]; [right; lia|]. left. destruct (aligned_apart cs k a); [lia|done|done|lia|lia|lia]. }
  assert (∀ k, table_at q' k ↔ table_at q k) as Hat by (intros k; unfold table_at; change (cluster_size q') with cs; fold cs; by rewrite Hlen).
  assert (∀ k, table_at q k → is_block q k ∨ is_Some (c_map (l2_cache q) !! k) → ¬ in_region a (len b) cs (k / cs)) as Hsafe.
  { intros k (Hk & Hkm & _) Hor Hin. pose proof (aligned_cluster q k Hp Hkm) as Hck. fold cs in Hck.
    destruct (Hreg (k / cs)) as [Hnb Hnc]; [apply Z.div_pos; lia|done|]. rewrite Hck in Hnb, Hnc. destruct Hor as [?|[? ?]]; congruence. }
  assert (∀ ti, 0 ≤ ti → rt_host q ti ≠ 0 → rb_disk q' ti = rb_disk q ti) as Hrb.
  { intros ti Hti Hhti. pose proof (ph_rt q Hp ti Hti Hhti) as Hati. apply Hother; try apply Hati. apply Hsafe; [done|]. left. by exists ti. }
  assert (phys q') as Hp'.
  { destruct Hp as [H1 H2 H3 H4 H5 H6 H7 H8 H9 H10 H11 H12 H13]. constructor; try done.
    - by apply bytes_ok_write.
    - destruct H6 as [? ? ? ? H6]. constructor; try done. intros k buf Hk. destruct (H7 k buf false Hk) as (Hatk & _).
      change (cluster_size q') with cs. rewrite Hother; [by apply H6|apply Hatk..|]. apply Hsafe; [done|]. right. by eexists.
    - intros k t d Hk. destruct (H7 k t d Hk) as (? & ? & ? & ?). by rewrite Hat.
    - destruct H8 as [? ? ? ? H8]. constructor; try done. intros ti buf Hk. destruct (H9 ti buf false Hk) as (? & ? & _).
      rewrite Hrb by done. by apply H8.
    - intros ti Hti Hhti. rewrite Hat. by apply H10. }
  split_and!; try done.
  - unfold write_file. rewrite (dbind_ok _ _ q q q) by done. by rewrite (ph_rw q Hp).
  - constructor; try done; [by rewrite Hlen| |by left]. intros x Hx Hxc _ Hxf. unfold l2_table, view. change (l2_cache q') with (l2_cache q). case_match; [done|].
    change (cluster_size q') with cs. fold cs in Hxf |- *. apply Hother; [nia|apply Z.mod_mul; lia|lia|by rewrite Z.div_mul by lia].
  - intros x Hx. apply rc_same; try done. intros ti Hti Hhti. unfold block, view. change (refblock_cache q') with (refblock_cache q). by rewrite Hrb.
Qed.

Lemma write_ok_mono (P P0 : Z → Prop) q : (∀ c, P0 c → P c) → write_ok P q → write_ok P0 q.
Proof. intros HP [P1 P2 P3 P4 P5 P6 P7 P8 P9 P10 P11 P12 P13]. constructor; auto. Qed.
Lemma write_ok_extend (P P0 : Z → Prop) q :
  write_ok P0 q →
  (∀ c, P c → P0 c ∨ 0 ≤ c ∧ rc q c ≠ 0 ∧ ¬ is_block q (c * cluster_size q) ∧ (c + 1) * cluster_size q ≤ len (q_file q) ∧
    (∀ i, l2h q i ≠ 0 → l2h q i / cluster_size q ≠ c) ∧ (∀ i j, 0 ≤ j < l2_entries q → dh q i j ≠ 0 → dh q i j / cluster_size q ≠ c)) →
  write_ok P q.
Proof.
  intros [P1 P2 P3 P4 P5 P6 P7 P8 P9 P10 P11 P12 P13] HP. constructor; try done.
  - intros c Hc. destruct (HP c Hc) as [H0'|(? & ? & ? & ? & _)]; [by apply P11|done].
  - intros i Hi Hc. destruct (HP _ Hc) as [H0'|(_ & _ & _ & _ & Ht & _)]; [by apply P12|by destruct (Ht i Hi)].
  - intros i j Hj Hd Hc. destruct (HP _ Hc) as [H0'|(_ & _ & _ & _ & _ & Ht)]; [by apply P13|by destruct (Ht i j Hj Hd)].
Qed.
(** ** Steps of a flush *)

Record served (P : Z → Prop) q q' : Prop := mkServed {
  sv_cs : cluster_size q' = cluster_size q;
  sv_bits : cluster_bits q' = cluster_bits q;
  sv_size : q_size q' = q_size q;
  sv_l1 : l1 q' = l1 q;
  sv_room : room q ≤ room q';
  sv_backing : backing_image q' = backing_image q;
  sv_meta c : is_meta q' c ↔ is_meta q c;
  sv_guest o : 0 ≤ o → guest_byte q' o = guest_byte q o;
  sv_ge i j : 0 ≤ j < l2_entries q → ge q' i j = ge q i j;
  sv_P c : P c → ¬ is_meta q c → l2_table q' (c * cluster_size q) = l2_table q (c * cluster_size q);
  sv_ref : backing q' = backing q;
  sv_rc x : 0 ≤ x → rc q' x = rc q x;
  sv_keys k : is_Some (c_map (l2_cache q') !! k) → is_Some (c_map (l2_cache q) !! k);
  sv_snaps : nb_snapshots q' = nb_snapshots q ∧ snapshots_offset q' = snapshots_offset q ∧ l1_size q' = l1_size q ∧ refcount_bits q' = refcount_bits q }.

Lemma served_trans P q1 q2 q3 : served P q1 q2 → served P q2 q3 → served P q1 q3.
Proof.
  intros [A1 A2 A3 A4 A5 A6 A7 A8 Age A9 A10 A11 A12 (A13 & A14 & A15 & A16)] [B1 B2 B3 B4 B5 B6 B7 B8 Bge B9 B10 B11 B12 (B13 & B14 & B15 & B16)].
  constructor; try congruence; [lia|..].
  - intros c. by rewrite B7, A7.
  - intros o Ho. rewrite B8, A8; done.
  - intros i j Hj. rewrite Bge; [by apply Age|]. unfold l2_entries. by rewrite A1.
  - intros c Hc Hn. rewrite <-A1 at 1. rewrite B9; [rewrite A1; by apply A9|done|by rewrite A7].
  - intros x Hx. by rewrite B11, A11.
  - auto.
  - split_and!; congruence.
Qed.

Lemma top_write P q a b :
  write_ok P q → meta_ok P q → 0 ≤ a → a mod cluster_size q = 0 → 0 < len b → bytes_ok b →
  (∀ c, 0 ≤ c → in_region a (len b) (cluster_size q) c → is_meta q c) →
  let q' := set_file (write_all_at (q_file q) a b) q in
  write_file a b q = (q', DOk tt) ∧ write_ok P q' ∧ served P q q' ∧ (∀ c, 0 ≤ c → rc q' c = rc q c) ∧ len (q_file q') = len (q_file q) ∧
  slice (q_file q') a (a + len b) = b ∧
  (∀ a' n, 0 ≤ a' → a' mod cluster_size q = 0 → 0 ≤ n →
     (∀ c, 0 ≤ c → in_region a' n (cluster_size q) c → is_meta q c ∧ ¬ in_region a (len b) (cluster_size q) c) →
     slice (q_file q') a' (a' + n) = slice (q_file q) a' (a' + n)).
Proof.
  intros Hw Hm Ha Hma Hb Hbok Hreg q'. pose proof (write_phys P q Hw) as Hp. pose proof (phys_cs q Hp) as Hcs.
  assert (∀ c, 0 ≤ c → in_region a (len b) (cluster_size q) c → P c ∧ rc q c = 1 ∧ c_map (l2_cache q) !! (c * cluster_size q) = None) as Hpriv.
  { intros c Hc Hi. by apply (mo_region _ _ Hm), Hreg. }
  assert (a + len b ≤ len (q_file q)) as Hfit by (apply (meta_in_file P q); try done; intros c Hc Hi; by apply Hpriv).
  destruct (region_write q a b Hp Ha Hma Hb Hbok Hfit) as (Hwf & Hp' & Hk & Hrc & Hlen & Hfile).
  { intros c Hc Hi. destruct (Hpriv c Hc Hi) as (HPc & _ & ?). split; [apply (wo_P _ _ Hw c HPc)|done]. }
  fold q' in Hwf, Hp', Hk, Hrc, Hlen, Hfile. set (X := in_region a (len b) (cluster_size q)) in *.
  assert (alloc_ok q') as Ha' by (apply (alloc_ok_same q); try done; apply Hw).
  set (P0 := λ c, P c ∧ ¬ is_meta q c).
  destruct (frame_step P0 X nowhere q q') as [Hw' Hs']; try done.
  { apply (write_ok_mono P); [by intros c []|done]. }
  { intros c Hc Hx. destruct (Hpriv c Hc Hx) as (HPc & Hr & _). destruct (private_unused P q c Hw HPc Hr). split_and!; [done|done|]. intros [_ Hn]. by apply Hn, Hreg. }
  { apply Hw. }
  { intros x Hx _. by apply Hrc. }
  { by apply low_same. }
  assert (∀ i, l2h q' i = l2h q i) as Hl2h by done.
  assert (∀ i j, 0 ≤ j < l2_entries q → dh q' i j = dh q i j) as Hdh by (intros; unfold dh; by rewrite (sg_ge _ _ _ Hs')).
  split_and!; try done.
  - apply (write_ok_extend P P0); [done|]. intros c Hc. destruct (decide (rc q c = 1)) as [Hr|Hr].
    + right. destruct (wo_P _ _ Hw c Hc) as (? & ? & ? & ?). destruct (private_unused P q c Hw Hc Hr) as [Hu1 Hu2].
      rewrite Hrc, Hlen by done. split_and!; try done. intros i j Hj. change (l2_entries q') with (l2_entries q) in Hj. rewrite Hdh by done. by apply Hu2.
    + left. split; [done|]. intros Hi. destruct (wo_P _ _ Hw c Hc) as (Hc0 & _). by destruct (mo_region _ _ Hm c Hc0 Hi) as (_ & ? & _).
  - constructor; try done.
    + by apply room_same.
    + intros o Ho. rewrite (wr_guest _ _ _ _ _ (same_guest_wrote P0 q q' 0 (write_ok_mono P P0 q ltac:(by intros c []) Hw) Hw' Hs')) by done. by rewrite wrote_nothing.
    + apply Hs'.
    + intros c Hc Hn. by apply (sg_P _ _ _ Hs').
  - rewrite Hfile. apply slice_splice_same; [done|lia].
  - intros a' n Ha2 Hma' Hn Hdis. rewrite Hfile. destruct (decide (n = 0)) as [->|Hn0]; [unfold slice; by rewrite !Z.add_0_r, !Z.sub_diag|].
    assert (a' + n ≤ len (q_file q)) as Hl' by (apply (meta_in_file P q); try done; [lia|]; intros c Hc Hi; by apply (mo_region _ _ Hm), Hdis).
    apply slice_splice_out; [lia|done|lia|]. destruct (Z.le_gt_cases (a' + n) a) as [?|Hgt]; [by left|right]. destruct (Z.le_gt_cases (a + len b) a') as [?|Hgt']; [done|exfalso].
    assert (∃ c, 0 ≤ c ∧ c * cluster_size q = Z.max a a') as (c & Hc & Hce).
    { exists (Z.max a a' / cluster_size q). split; [apply Z.div_pos; lia|]. apply (aligned_cluster q _ Hp). by destruct (Z.max_spec a a') as [[_ ->]|[_ ->]]. }
    destruct (Hdis c Hc) as [_ Hd]; [unfold in_region; lia|]. apply Hd. unfold X, in_region. lia.
Qed.

Definition clean (c : TableCache) : Prop := ∀ k t d, c_map c !! k = Some (t, d) → d = false.
Lemma clean_view c disk k : cache_ok c disk → clean c → view c disk k = disk k.
Proof. intros Hc Hcl. unfold view. destruct (c_map c !! k) as [[t d]|] eqn:E; [|done]. rewrite (Hcl k t d E) in E. by apply (ok_clean c disk Hc). Qed.
Lemma clean_taken c : clean (take_dirty c).1.
Proof. intros k t d. simpl. rewrite lookup_fmap. destruct (c_map c !! k) as [[t' d']|]; simpl; intros; by simplify_eq. Qed.

Lemma flush_blocks q :
  phys q →
  ∃ q', (blocks ← take_dirty_blocks; write_blocks blocks) q = (q', DOk tt) ∧ quiet q q' ∧ q_free q' = q_free q ∧ clean (refblock_cache q') ∧
    l2_cache q' = l2_cache q ∧ header_dirty q' = header_dirty q ∧ l1_dirty q' = l1_dirty q ∧ refcount_table_dirty q' = refcount_table_dirty q.
Proof.
  intros Hp. pose proof (take_dirty_spec (refblock_cache q) (rb_disk q) (ph_rb q Hp)) as Htd. pose proof (take_dirty_elem (refblock_cache q)) as Hel.
  pose proof (clean_taken (refblock_cache q)) as Hcl. destruct (take_dirty (refblock_cache q)) as [c out] eqn:E. cbn [fst snd] in *. destruct Htd as (Hcok & Hwr & Hview & Hmap).
  destruct (write_blocks_spec out q Hp) as (f & Hwb & Hlen & Hfok & Hrb & Hother).
  { intros ti t Hin%Hel. apply (ph_rbk q Hp ti t true Hin). }
  assert ((blocks ← take_dirty_blocks; write_blocks blocks) q = (set_refblock_cache c (set_file f q), DOk tt)) as Hrun.
  { rewrite (dbind_ok _ _ q (set_refblock_cache c q) out); [|unfold take_dirty_blocks; by rewrite E]. rewrite write_blocks_cache, Hwb. done. }
  assert (∀ ti t d, c_map c !! ti = Some (t, d) → 0 ≤ ti ∧ rt_host q ti ≠ 0 ∧ len t = cluster_size q ∧ bytes_ok t) as Hck.
  { intros ti t d. rewrite Hmap. destruct (c_map (refblock_cache q) !! ti) as [[t' d']|] eqn:Et; simpl; intros; simplify_eq. apply (ph_rbk q Hp ti t d' Et). }
  assert (cache_ok c (λ ti, tables f (cluster_size q) (rt_host q ti))) as Hcok'.
  { destruct Hcok as [C1 C2 C3 C4 C5]. constructor; try done. intros ti buf Hb. destruct (Hck ti buf false Hb) as (? & ? & _). rewrite Hrb by done. by apply C5. }
  destruct (phys_blocks_step q c f Hp Hlen Hfok Hother Hcok' Hck) as [Hp' Hk'].
  exists (set_refblock_cache c (set_file f q)). split_and!; try done.
  assert (set_file f (set_refblock_cache c q) = set_refblock_cache c (set_file f q)) as Heq by done. rewrite Heq in *.
  constructor; try done. intros x Hx. apply rc_same; try done. intros ti Hti Hh. unfold block. rewrite <-Hview. unfold view.
  change (refblock_cache (set_refblock_cache c (set_file f q))) with c. case_match; [done|].
  change (rb_disk (set_refblock_cache c (set_file f q)) ti) with (tables f (cluster_size q) (rt_host q ti)). by rewrite Hrb.
Qed.

Lemma flush_tables q :
  phys q →
  ∃ q', (out ← take_dirty_tables; write_tables out) q = (q', DOk tt) ∧ phys q' ∧ keeps nowhere nowhere q q' ∧ (∀ x, 0 ≤ x → rc q' x = rc q x) ∧
    clean (l2_cache q') ∧ l1 q' = l1 q ∧ backing_image q' = backing_image q ∧ refcount_table q' = refcount_table q ∧ q_free q' = q_free q ∧
    refblock_cache q' = refblock_cache q ∧ header_dirty q' = header_dirty q ∧ l1_dirty q' = l1_dirty q ∧ refcount_table_dirty q' = refcount_table_dirty q.
Proof.
  intros Hp. pose proof (phys_cs q Hp) as Hcs.
  pose proof (take_dirty_spec (l2_cache q) (tables (q_file q) (cluster_size q)) (ph_l2 q Hp)) as Htd. pose proof (take_dirty_elem (l2_cache q)) as Hel.
  pose proof (clean_taken (l2_cache q)) as Hcl. destruct (take_dirty (l2_cache q)) as [c out] eqn:E. cbn [fst snd] in *. destruct Htd as (Hcok & Hwr & Hview & Hmap).
  set (q1 := set_l2_cache c q).
  destruct (write_tables_spec out q1) as (f & Hwt & Hlen & Htab & _ & Hfok); [simpl; lia|simpl; by rewrite (ph_rw q Hp)| |].
  { intros k t Hin%Hel. destruct (ph_l2k q Hp k t true Hin) as (? & ? & _). done. }
  change (cluster_size q1) with (cluster_size q) in *. change (q_file q1) with (q_file q) in *.
  assert (bytes_ok f) as Hfok' by (apply Hfok; [apply Hp|]; intros k t Hin%Hel; by destruct (ph_l2k q Hp k t true Hin) as (_ & _ & ? & _)).
  assert ((out ← take_dirty_tables; write_tables out) q = (set_file f q1, DOk tt)) as Hrun.
  { rewrite (dbind_ok _ _ q q1 out); [exact Hwt|]. unfold take_dirty_tables. by rewrite E. }
  destruct (phys_tables_step q c f Hp Hlen Hfok') as [Hp' Hrc].
  { eapply cache_ok_ext; [|exact Hcok]. intros k. by rewrite Htab. }
  { intros k t d. rewrite Hmap. destruct (c_map (l2_cache q) !! k) as [[t' d']|] eqn:Et; simpl; intros; simplify_eq. apply (ph_l2k q Hp k t d' Et). }
  { intros ti Hti Hh. rewrite Htab, written_other; [done|]. intros b Hin%Hel. destruct (ph_l2k q Hp _ _ _ Hin) as (_ & _ & _ & Hn). apply Hn. by exists ti. }
  exists (set_file f q1). split_and!; try done. constructor; try done; [simpl; lia| |].
  - intros x Hx _ _ _. unfold l2_table at 2. rewrite <-Hview. unfold l2_table, view. change (l2_cache (set_file f q1)) with c. case_match; [done|]. apply Htab.
  - intros k [e Hk]. left. change (c_map c !! k = Some e) in Hk. rewrite Hmap in Hk. destruct (c_map (l2_cache q) !! k); [by eexists|done].
Qed.

(** Flags and the header in memory are no part of the guest's disk. *)
Lemma write_ok_flags P q h l r : write_ok P q → write_ok P (set_header_dirty h (set_l1_dirty l (set_refcount_table_dirty r q))).
Proof.
  intros [P1 P2 P3 P4 P5 P6 P7 P8 P9 P10 P11 P12 P13]. constructor; try done. destruct P1 as [[] ? ? ?]. by constructor.
Qed.
Lemma write_ok_header_cluster P q hc : write_ok P q → write_ok P (set_header_cluster hc q).
Proof.
  intros [P1 P2 P3 P4 P5 P6 P7 P8 P9 P10 P11 P12 P13]. constructor; try done. destruct P1 as [[] ? ? ?]. by constructor.
Qed.

(** What [flush] does with one of the top tables. *)
Definition top_flushed (P : Z → Prop) q q' : Prop :=
  write_ok P q' ∧ meta_ok P q' ∧ served P q q' ∧ l2_cache q' = l2_cache q ∧ refblock_cache q' = refblock_cache q.

Lemma rt_nonempty q : alloc_ok q → (0 < length (refcount_table q))%nat.
Proof.
  intros Ha. pose proof (rc_covered q 0 (ao_zero _ Ha)) as Hc. destruct (rbe_width q (ao_phys _ Ha)) as [_ H64]. unfold covered in Hc.
  rewrite Z.div_0_l in Hc by lia. pose proof (rt_host_in_range q 0 ltac:(lia) Hc). lia.
Qed.

Lemma flush_rt P q :
  write_ok P q → meta_ok P q →
  ∃ q', (if refcount_table_dirty q then _ ← write_file (refcount_table_offset q) (table_bytes (refcount_table q)); dmodify (set_refcount_table_dirty false)
         else mret tt) q = (q', DOk tt) ∧ top_flushed P q q' ∧ refcount_table_dirty q' = false.
Proof.
  intros Hw Hm. destruct (refcount_table_dirty q) eqn:Hd.
  2: { by exists q. }
  destruct (mo_fields _ _ Hm) as [F1 F2 F3 F4 F5 F6 F7]. pose proof (rt_nonempty q (wo_alloc _ _ Hw)) as Hne. pose proof (phys_cs q (write_phys P q Hw)) as Hcs.
  pose proof (len_table_bytes (refcount_table q)) as Hlt. rewrite (proj2 F5) in Hlt. destruct F4 as [[Ho _] Hom], F2 as [[Hs0 _] Hs], F3 as [[Hl0 _] Hlm].
  destruct (top_write P q (refcount_table_offset q) (table_bytes (refcount_table q))) as (Hwf & Hw' & Hsv & Hrc & Hlen & Hsl & Hsame); try done.
  { rewrite Hlt, <-(proj2 F5). lia. } { apply bytes_ok_table_bytes. } { intros c Hc Hi. rewrite Hlt in Hi. right. by right. }
  rewrite Hlt in *. rewrite (dbind_ok _ _ _ _ _ Hwf). set (q1 := set_file _ q) in *. exists (set_refcount_table_dirty false q1). split; [done|]. split; [|done].
  split_and!; try done.
  - exact (write_ok_flags P q1 (header_dirty q1) (l1_dirty q1) false Hw').
  - constructor; try done.
    + destruct (mo_header _ _ Hm). by constructor.
    + destruct (mo_fields _ _ Hm). by constructor.
    + intros Hhd. destruct (mo_clean_header _ _ Hm Hhd) as [Hh ?]. split; [|done]. change (slice (q_file q1) 0 (0 + cluster_size q) = header_cluster q).
      rewrite Hsame; [done|lia|apply Z.mod_0_l; lia|lia|]. intros c Hc [_ Hr]. assert (c = 0) as -> by nia. split; [by left|]. intros Hrt.
      by apply (proj2 (mo_apart _ _ Hm 0 ltac:(lia))); [right|].
    + intros Hld. change (slice (q_file q1) (l1_table_offset q) (l1_table_offset q + 8 * l1_size q) = table_bytes (l1 q)).
      rewrite Hsame; [by apply (mo_clean_l1 _ _ Hm)|done|done|lia|]. intros c Hc Hi. split; [right; by left|]. intros Hrt. by apply (proj1 (mo_apart _ _ Hm c Hc)).
    + intros c Hc Hi. destruct (mo_region _ _ Hm c Hc Hi) as (? & ? & ?). split_and!; try done. change (rc q1 c = 1). by rewrite Hrc.
    + apply (mo_apart _ _ Hm).
  - destruct Hsv. by constructor.
Qed.

Lemma flush_l1 P q :
  write_ok P q → meta_ok P q →
  ∃ q', (if l1_dirty q then _ ← write_file (l1_table_offset q) (table_bytes (l1 q)); dmodify (set_l1_dirty false) else mret tt) q = (q', DOk tt) ∧
    top_flushed P q q' ∧ l1_dirty q' = false ∧ refcount_table_dirty q' = refcount_table_dirty q.
Proof.
  intros Hw Hm. destruct (l1_dirty q) eqn:Hd.
  2: { by exists q. }
  destruct (mo_fields _ _ Hm) as [F1 F2 F3 F4 F5 F6 F7]. pose proof (phys_cs q (write_phys P q Hw)) as Hcs.
  pose proof (len_table_bytes (l1 q)) as Hlt. rewrite (proj2 F2) in Hlt. destruct F4 as [[Ho _] Hom], F2 as [[Hs0 _] Hs], F3 as [[Hl0 _] Hlm], F5 as [[Hc0 _] _].
  destruct (decide (l1_size q = 0)) as [Hz|Hnz].
  { assert (write_file (l1_table_offset q) (table_bytes (l1 q)) q = (q, DOk tt)) as Hwf.
    { unfold write_file. rewrite (dbind_ok _ _ q q q) by done. unfold id. rewrite (ph_rw q (write_phys P q Hw)). unfold dmodify, write_all_at.
      rewrite (proj2 (Z.eqb_eq _ _)) by lia. by rewrite set_file_id. }
    rewrite (dbind_ok _ _ _ _ _ Hwf). exists (set_l1_dirty false q). split; [done|]. split; [|done].
    split_and!; try done; [exact (write_ok_flags P q (header_dirty q) false (refcount_table_dirty q) Hw)|]. constructor; try done; try apply Hm.
    { destruct (mo_header _ _ Hm). by constructor. }
    { destruct (mo_fields _ _ Hm). by constructor. }
    intros _. cbn [l1_table_offset l1_size l1 q_file set_l1_dirty]. rewrite Hz, Z.mul_0_r, Z.add_0_r. unfold slice. rewrite Z.sub_diag.
    destruct (l1 q); [done|]. simpl in Hs. lia. }
  destruct (top_write P q (l1_table_offset q) (table_bytes (l1 q))) as (Hwf & Hw' & Hsv & Hrc & Hlen & Hsl & Hsame); try done.
  { lia. } { apply bytes_ok_table_bytes. } { intros c Hc Hi. rewrite Hlt in Hi. right. by left. }
  rewrite Hlt in *. rewrite (dbind_ok _ _ _ _ _ Hwf). set (q1 := set_file _ q) in *. exists (set_l1_dirty false q1). split; [done|]. split; [|done].
  split_and!; try done.
  - exact (write_ok_flags P q1 (header_dirty q1) false (refcount_table_dirty q1) Hw').
  - constructor; try done.
    + destruct (mo_header _ _ Hm). by constructor.
    + destruct (mo_fields _ _ Hm). by constructor.
    + intros Hhd. destruct (mo_clean_header _ _ Hm Hhd) as [Hh ?]. split; [|done]. change (slice (q_file q1) 0 (0 + cluster_size q) = header_cluster q).
      rewrite Hsame; [done|lia|apply Z.mod_0_l; lia|lia|]. intros c Hc [_ Hr]. assert (c = 0) as -> by nia. split; [by left|]. intros Hrt.
      by apply (proj2 (mo_apart _ _ Hm 0 ltac:(lia))); [left|].
    + intros Hrd. change (slice (q_file q1) (refcount_table_offset q) (refcount_table_offset q + refcount_table_clusters q * cluster_size q) = table_bytes (refcount_table q)).
      rewrite Hsame; [by apply (mo_clean_rt _ _ Hm)|done|done|nia|]. intros c Hc Hi. split; [right; by right|]. intros Hrt. by apply (proj1 (mo_apart _ _ Hm c Hc)).
    + intros c Hc Hi. destruct (mo_region _ _ Hm c Hc Hi) as (? & ? & ?). split_and!; try done. change (rc q1 c = 1). by rewrite Hrc.
    + apply (mo_apart _ _ Hm).
  - destruct Hsv. by constructor.
Qed.

Lemma meta_header_cluster P q hc : header_ok (set_header_cluster hc q) → meta_ok P q → header_dirty q = true → meta_ok P (set_header_cluster hc q).
Proof.
  intros Hh Hm Hd. pose proof (mo_fields _ _ Hm) as []. constructor; try done; try apply Hm. intros Hf. change (header_dirty q = false) in Hf. congruence.
Qed.

Lemma flush_header P q :
  write_ok P q → meta_ok P q →
  ∃ q', (if header_dirty q then _ ← patch_header_fields; q ← dgets id; _ ← write_file 0 (header_cluster q); dmodify (set_header_dirty false)
         else mret tt) q = (q', DOk tt) ∧ top_flushed P q q' ∧ header_dirty q' = false ∧ l1_dirty q' = l1_dirty q ∧ refcount_table_dirty q' = refcount_table_dirty q.
Proof.
  intros Hw Hm. destruct (header_dirty q) eqn:Hd; [|by exists q].
  pose proof (phys_cs q (write_phys P q Hw)) as Hcs. pose proof (mo_header _ _ Hm) as Hh. pose proof (mo_fields _ _ Hm) as Hf. pose proof (ho_len q Hh) as Hlen.
  assert (512 ≤ len (header_cluster q)) as H512 by lia. rewrite (dbind_ok _ _ _ _ _ (patch_header_fields_spec q H512)). set (q1 := set_header_cluster (patched q) q).
  pose proof (header_ok_patched q Hh Hf Hcs) as Hh1. fold q1 in Hh1. pose proof (write_ok_header_cluster P q (patched q) Hw) as Hw1. fold q1 in Hw1.
  pose proof (meta_header_cluster P q (patched q) Hh1 Hm Hd) as Hm1. fold q1 in Hm1. pose proof (patched_fields q H512 Hf) as Hfi.
  rewrite (dbind_ok _ _ q1 q1 q1) by done. unfold id. pose proof (ho_len q1 Hh1) as Hl1. change (cluster_size q1) with (cluster_size q) in Hl1.
  destruct (top_write P q1 0 (header_cluster q1)) as (Hwf & Hw' & Hsv & Hrc & Hlf & Hsl & Hsame); try done.
  { lia. } { apply Hh1. } { change (cluster_size q1) with (cluster_size q). rewrite Hl1. intros c Hc [_ Hi]. left. nia. }
  rewrite (dbind_ok _ _ _ _ _ Hwf). set (q2 := set_file _ q1) in *. exists (set_header_dirty false q2). split; [done|]. split; [|done].
  change (cluster_size q1) with (cluster_size q) in Hsame. rewrite Hl1 in *.
  assert (∀ c, in_region 0 (cluster_size q) (cluster_size q) c → c = 0) as Hzero by (intros c [? ?]; nia).
  destruct Hf as [F1 [[? _] ?] [[? _] ?] [[? _] ?] [[? _] ?] F6 F7].
  split_and!; try done.
  - exact (write_ok_flags P q2 false (l1_dirty q2) (refcount_table_dirty q2) Hw').
  - constructor; try done.
    + destruct Hh1. by constructor.
    + destruct (mo_fields _ _ Hm). by constructor.
    + intros Hld. change (slice (q_file q2) (l1_table_offset q) (l1_table_offset q + 8 * l1_size q) = table_bytes (l1 q)).
      rewrite Hsame; [by apply (mo_clean_l1 _ _ Hm)|done|done|lia|]. intros c Hc Hi. split; [right; by left|]. intros ->%Hzero. by apply (proj2 (mo_apart _ _ Hm 0 ltac:(lia))); [left|].
    + intros Hrd. change (slice (q_file q2) (refcount_table_offset q) (refcount_table_offset q + refcount_table_clusters q * cluster_size q) = table_bytes (refcount_table q)).
      rewrite Hsame; [by apply (mo_clean_rt _ _ Hm)|done|done|nia|]. intros c Hc Hi. split; [right; by right|]. intros ->%Hzero. by apply (proj2 (mo_apart _ _ Hm 0 ltac:(lia))); [right|].
    + intros c Hc Hi. destruct (mo_region _ _ Hm c Hc Hi) as (? & ? & ?). split_and!; try done. change (rc q2 c = 1). rewrite Hrc by done. done.
    + apply (mo_apart _ _ Hm).
  - destruct Hsv. by constructor.
Qed.

(** ** Flushing *)

(** Nothing waits in memory. *)
Record flushed q : Prop := mkFlushed {
  fd_header : header_dirty q = false;
  fd_l1 : l1_dirty q = false;
  fd_rt : refcount_table_dirty q = false;
  fd_tables : clean (l2_cache q);
  fd_blocks : clean (refblock_cache q) }.

Lemma same_guest_served P q q' :
  write_ok P q → write_ok P q' → same_guest P q q' → l1 q' = l1 q → refcount_table q' = refcount_table q → backing_image q' = backing_image q →
  (∀ x, 0 ≤ x → rc q' x = rc q x) → keeps nowhere nowhere q q' → room q ≤ room q' → served P q q'.
Proof.
  intros Hw Hw' Hs Hl Hrt Hb Hrc Hk Hro. destruct (sg_meta _ _ _ Hs) as (((_ & E2 & E3 & E4 & E5 & E6 & E7 & _ & E9 & E10) & _) & _). pose proof (sg_cs _ _ _ Hs) as Hcs.
  constructor; try done.
  - apply Hs.
  - apply Hs.
  - intros c. unfold is_meta, l1_region, rt_region. by rewrite E2, E3, E4, E5, Hcs.
  - intros o Ho. rewrite (wr_guest _ _ _ _ _ (same_guest_wrote P q q' 0 Hw Hw' Hs)) by done. by rewrite wrote_nothing.
  - apply Hs.
  - intros c Hc _. by apply Hs.
  - intros k Hkk. by destruct (ke_keys _ _ _ _ Hk k Hkk).
Qed.

Lemma flush_spec P q :
  write_ok P q → meta_ok P q →
  ∃ q', qcow2_flush q = (q', DOk tt) ∧ write_ok P q' ∧ meta_ok P q' ∧ served P q q' ∧ flushed q'.
Proof.
  intros Hw Hm. pose proof (write_phys P q Hw) as Hp. unfold qcow2_flush. rewrite (dbind_ok _ _ q q q) by done. unfold id. rewrite (ph_rw q Hp).
  unfold flush_metadata. rewrite (dbind_ok _ _ q q tt); [|unfold check_writable; rewrite (dbind_ok _ _ q q q) by done; unfold id; by rewrite (ph_rw q Hp)].
  destruct (flush_blocks q Hp) as (q1 & Hb & Hq1 & Hfr & Hcl1 & Hc1 & _). destruct (quiet_step P q q1 Hw Hq1 Hfr) as [Hw1 Hs1].
  rewrite (assoc_bind q take_dirty_blocks write_blocks), (dbind_ok _ _ _ _ _ Hb), (dbind_ok _ _ q1 q1 q1) by done. unfold id.
  pose proof (same_guest_served P q q1 Hw Hw1 Hs1 (qu_l1 _ _ Hq1) (qu_rt _ _ Hq1) (qu_backing _ _ Hq1) (qu_rc _ _ Hq1) (qu_keeps _ _ Hq1) (quiet_room _ _ Hq1 Hfr)) as Hsv1.
  pose proof (wrote_meta_ok P 0 [] q q1 Hw Hw1 Hm (same_guest_wrote P q q1 0 Hw Hw1 Hs1)) as Hm1.
  destruct (flush_rt P q1 Hw1 Hm1) as (q2 & Hrun2 & (Hw2 & Hm2 & Hsv2 & Hc2 & Hb2) & Hrd2). rewrite (dbind_ok _ _ _ _ _ Hrun2), (dbind_ok _ _ q2 q2 q2) by done. unfold id.
  destruct (flush_l1 P q2 Hw2 Hm2) as (q3 & Hrun3 & (Hw3 & Hm3 & Hsv3 & Hc3 & Hb3) & Hld3 & Hrd3). rewrite (dbind_ok _ _ _ _ _ Hrun3).
  destruct (flush_tables q3 (write_phys P q3 Hw3)) as (q4 & Hrun4 & Hp4 & Hk4 & Hrc4 & Hcl4 & Hl4 & Hbk4 & Hrt4 & Hfr4 & Hb4 & _ & Hld4 & Hrd4).
  rewrite (assoc_bind q3 take_dirty_tables write_tables), (dbind_ok _ _ _ _ _ Hrun4), (dbind_ok _ _ q4 q4 q4) by done. unfold id.
  assert (alloc_ok q4) as Ha4.
  { apply (alloc_ok_same q3); try done; [apply Hw3|apply Hk4|apply Hk4]. }
  destruct (frame_step P nowhere nowhere q3 q4 Hw3 Ha4 Hk4) as [Hw4 Hs4]; try done.
  { intros b. rewrite Hbk4. apply Hw3. } { intros o. unfold backing_byte. by rewrite Hbk4. } { intros x Hx _. by apply Hrc4. } { by apply low_same. }
  pose proof (same_guest_served P q3 q4 Hw3 Hw4 Hs4 Hl4 Hrt4 Hbk4 Hrc4 Hk4 (room_same _ _ Hp4 Hrt4 (ke_cs _ _ _ _ Hk4) (ke_width _ _ _ _ Hk4) Hfr4 Hrc4)) as Hsv4.
  pose proof (wrote_meta_ok P 0 [] q3 q4 Hw3 Hw4 Hm3 (same_guest_wrote P q3 q4 0 Hw3 Hw4 Hs4)) as Hm4.
  destruct (flush_header P q4 Hw4 Hm4) as (q5 & Hrun5 & (Hw5 & Hm5 & Hsv5 & Hc5 & Hb5) & Hhd5 & Hld5 & Hrd5). exists q5. split_and!; try done.
  - repeat (eapply served_trans; [eassumption|]). done.
  - constructor; [done|congruence|congruence|by rewrite Hc5|]. by rewrite Hb5, Hb4, Hb3, Hb2.
Qed.

(** ** Opening again *)

Lemma reopen_spec P q :
  write_ok P q → meta_ok P q → flushed q →
  parse (q_file q) false = DOk (reopened q (q_file q)) ∧
  let q' := set_backing_image (backing_image q) (reopened q (q_file q)) in
  write_ok P q' ∧ meta_ok P q' ∧ same_guest P q q' ∧ room q ≤ room q'.
Proof.
  intros Hw Hm [Fh Fl Fr Ft Fb]. pose proof (wo_alloc _ _ Hw) as Ha. pose proof (ao_phys _ Ha) as Hp. pose proof (phys_cs q Hp) as Hcs.
  destruct (mo_clean_header _ _ Hm Fh) as [Hh Hfi]. pose proof (mo_fields _ _ Hm) as [F1 [[? _] F2] [[? _] ?] [[? _] ?] [[? _] F5] F6 F7].
  assert (∀ c, 0 ≤ c → is_meta q c → P c) as HPm by (intros c Hc Hi; by apply (mo_region _ _ Hm)).
  split.
  { apply parse_reopened; try done; try apply Hm; try apply Hp.
    - destruct (wo_P _ _ Hw 0) as (_ & _ & _ & ?); [apply HPm; [lia|by left]|lia].
    - intros Hpos. split; [|by apply (mo_clean_l1 _ _ Hm)]. apply (meta_in_file P q); try done; [lia|]. intros c Hc Hi. apply HPm; [done|]. right. by left.
    - intros Hpos. split; [|by apply (mo_clean_rt _ _ Hm)]. apply (meta_in_file P q); try done; [nia|]. intros c Hc Hi. apply HPm; [done|]. right. by right. }
  intros q'. assert (∀ k, l2_table q' k = l2_table q k) as Htab.
  { intros k. unfold l2_table at 2. rewrite clean_view by (done || apply Hp). done. }
  assert (∀ ti, block q' ti = block q ti) as Hblk.
  { intros ti. unfold block at 2. rewrite clean_view by (done || apply Hp). done. }
  assert (∀ x, 0 ≤ x → rc q' x = rc q x) as Hrc by (intros x Hx; by apply rc_same).
  assert (phys q') as Hp'.
  { destruct Hp as []. constructor; try done.
    - by apply empty_cache_ok.
    - by apply empty_cache_ok. }
  assert (alloc_ok q') as Ha'.
  { destruct Ha as [_ _ Hself Hz]. constructor; [done| | |].
    - intros c Hc. by apply not_elem_of_empty in Hc.
    - intros ti Hti Hhi. change (rt_host q' ti) with (rt_host q ti). change (cluster_size q') with (cluster_size q). rewrite Hrc; [by apply Hself|].
      destruct (ph_rt q' Hp' ti Hti Hhi) as (? & _). apply Z.div_pos; [done|lia].
    - rewrite Hrc by lia. done. }
  assert (keeps nowhere nowhere q q') as Hk.
  { constructor; try done; [by rewrite (ph_rw q Hp)|intros k [e Hk]; change ((∅ : gmap Z (bytes * bool)) !! k = Some e) in Hk; by rewrite lookup_empty in Hk]. }
  destruct (frame_step P nowhere nowhere q q' Hw Ha' Hk) as [Hw' Hs']; try done; [apply Hw|intros x Hx _; by apply Hrc|by apply low_same|].
  split_and!; try done; [exact (wrote_meta_ok P 0 [] q q' Hw Hw' Hm (same_guest_wrote P q q' 0 Hw Hw' Hs'))|].
  apply room_mono; try done. intros c Hc (? & ? & _). split_and!; [done|by rewrite Hrc|by right].
Qed.

(** C5: what was written and flushed is there after a restart. A guest write
    in range, a flush, and opening the resulting file all succeed, and the
    image opened from the file alone reads back the bytes written and, at
    every other offset, what the guest had; what a snapshot shares is kept;
    and the opened image is valid, so that it can be written, flushed and
    opened again. *)
Theorem qcow2_write_durable P q off b :
  write_ok P q → meta_ok P q → l1_covers q → 0 ≤ off → off + len b ≤ q_size q → bytes_ok b → 2 * touched q off (len b) ≤ room q →
  ∃ q1 q2 q3, qcow2_write_at off b q = (q1, DOk tt) ∧ qcow2_flush q1 = (q2, DOk tt) ∧ parse (q_file q2) false = DOk q3 ∧
    let q4 := set_backing_image (backing_image q2) q3 in
    write_ok P q4 ∧ meta_ok P q4 ∧ l1_covers q4 ∧
    (∃ q5, qcow2_read_at off (len b) q4 = (q5, DOk b)) ∧
    (∀ o, 0 ≤ o → guest_byte q4 o = if (off <=? o) && (o <? off + len b) then idx b (o - off) else guest_byte q o) ∧
    (∀ c, P c → ¬ is_meta q c → l2_table q4 (c * cluster_size q) = l2_table q (c * cluster_size q)).
Proof.
  intros Hw Hm Hc Ho Hle Hb Hr. destruct (write_at_spec P q off b Hw Hc Ho Hle Hb Hr) as (q1 & Hwa & Hw1 & Hwr & _).
  pose proof (wrote_meta_ok P off b q q1 Hw Hw1 Hm Hwr) as Hm1. pose proof (wrote_covers _ _ _ _ _ Hwr Hc) as Hc1.
  destruct (flush_spec P q1 Hw1 Hm1) as (q2 & Hfl & Hw2 & Hm2 & Hsv & Hfd). destruct (reopen_spec P q2 Hw2 Hm2 Hfd) as (Hpa & Hw4 & Hm4 & Hs4 & _).
  exists q1, q2, (reopened q2 (q_file q2)). split_and!; try done. set (q4 := set_backing_image (backing_image q2) (reopened q2 (q_file q2))) in *.
  pose proof (same_guest_wrote P q2 q4 0 Hw2 Hw4 Hs4) as Hn4.
  assert (l1_covers q2) as Hc2 by (unfold l1_covers, l2_span, l2_entries in *; by rewrite (sv_size _ _ _ Hsv), (sv_l1 _ _ _ Hsv), (sv_cs _ _ _ Hsv)).
  assert (∀ o, 0 ≤ o → guest_byte q4 o = if (off <=? o) && (o <? off + len b) then idx b (o - off) else guest_byte q o) as Hg.
  { intros o Hoo. rewrite (wr_guest _ _ _ _ _ Hn4), wrote_nothing, (sv_guest _ _ _ Hsv), (wr_guest _ _ _ _ _ Hwr) by done. done. }
  split; [done|]. split; [done|]. split; [exact (wrote_covers _ _ _ _ _ Hn4 Hc2)|]. split; [|split; [exact Hg|]].
  - apply (read_back P); try done; [|intros x Hx; rewrite Hg by lia; rewrite (proj2 (Z.leb_le _ _)), (proj2 (Z.ltb_lt _ _)) by lia; cbn [andb]; f_equal; lia].
    rewrite (wr_size _ _ _ _ _ Hn4), (sv_size _ _ _ Hsv), (wr_size _ _ _ _ _ Hwr). done.
  - intros c HPc Hnm. pose proof (wr_cs _ _ _ _ _ Hwr) as E1. pose proof (sv_cs _ _ _ Hsv) as E2.
    rewrite <-(wr_P _ _ _ _ _ Hwr c HPc), <-E1, <-(sv_P _ _ _ Hsv c HPc), <-E2; [by apply Hs4|].
    destruct (wr_meta _ _ _ _ _ Hwr) as (((_ & A2 & A3 & A4 & A5 & _) & _) & _). unfold is_meta, l1_region, rt_region. by rewrite A2, A3, A4, A5, E1.
Qed.
End durable.
