(* ===== verification/Qcow2Header.v ===== *)
(** * qcow2 images: the backing reference in the header

    A header records the backing image's name, and its format in an extension
    after the fixed fields. [create] and [set_backing] write both, with the
    fixed fields ending at [h]; [parse] finds what they wrote. *)

From S2P Require Import Prelude TableCache Disk Qcow2 Qcow2Alloc Qcow2Read Qcow2Phys Qcow2Steps Qcow2Free Qcow2Write Qcow2Guest Qcow2Correct Qcow2Open Qcow2Durable.

(** ** Fields one after the other *)

Lemma fields_run (hc : bytes) l : patch_fits (len hc) l → foldl (λ hc e, field hc e.1 e.2) (Ret hc) l = Ret (patch hc l).
Proof.
  revert hc. induction l as [|[o b] l IH]; intros hc Hf; [done|]. apply Forall_cons in Hf as [[? ?] Hf]. simpl in *.
  rewrite copy_at_ret by done. rewrite IH; [done|]. by rewrite len_splice.
Qed.
Ltac each_patch := repeat (constructor; [cbn [fst snd]; rewrite ?len_u64_be, ?len_be32; try (change (len (@nil Z)) with 0); try (change (len [0]) with 1); lia|]); try constructor.

(** ** The extensions *)

Definition format_ext (h : Z) (fmt : option bytes) : list (Z * bytes) :=
  match fmt with
  | Some fmt => [(h, be32 EXT_BACKING_FORMAT); (h + 4, be32 (len fmt)); (h + 8, fmt)]
  | None => []
  end.
Definition end_offset (h : Z) (fmt : option bytes) : Z := match fmt with Some fmt => h + (8 + div_ceil (len fmt) 8 * 8) | None => h end.
Definition end_ext (o : Z) : list (Z * bytes) := [(o, be32 EXT_END); (o + 4, be32 (len (@nil Z))); (o + 8, [])].
Definition name_offset (h : Z) (fmt : option bytes) : Z := end_offset h fmt + (8 + div_ceil (len (@nil Z)) 8 * 8).

(** A backing reference that fits and that the parser reads back: a name of
    at most 1023 bytes, name and format of whole UTF-8 characters. *)
Definition text_ok (b : bytes) : Prop := bytes_ok b ∧ from_utf8_lossy b = b.
Definition backing_fits (h cs : Z) (bref : option BackingRef) : Prop :=
  match bref with
  | Some (mkBackingRef name fmt) =>
      text_ok name ∧ 0 < len name ≤ 1023 ∧ name_offset h fmt + len name ≤ cs ∧ match fmt with Some fmt => text_ok fmt | None => True end
  | None => True
  end.

Lemma end_offset_ge h fmt : h ≤ end_offset h fmt ∧ name_offset h fmt = end_offset h fmt + 8 ∧ match fmt with Some f => h + 8 + len f ≤ end_offset h fmt | None => True end.
Proof.
  unfold name_offset. change (div_ceil (len (@nil Z)) 8 * 8) with 0. destruct fmt as [f|]; simpl; [|lia]. pose proof (len_nonneg f). unfold div_ceil.
  pose proof (Z.div_mod (len f + 7) 8 ltac:(lia)). pose proof (Z.mod_pos_bound (len f + 7) 8 ltac:(lia)).
  replace (len f + 8 - 1) with (len f + 7) by lia. lia.
Qed.

(** ** What is recorded *)

Record backing_in (h : Z) (hc name : bytes) (fmt : option bytes) : Prop := mkBackingIn {
  bi_offset : slice hc 8 16 = u64_be (name_offset h fmt);
  bi_size : slice hc 16 20 = be32 (len name);
  bi_name : slice hc (name_offset h fmt) (name_offset h fmt + len name) = name;
  bi_format : match fmt with
    | Some f => slice hc h (h + 4) = be32 EXT_BACKING_FORMAT ∧ slice hc (h + 4) (h + 8) = be32 (len f) ∧ slice hc (h + 8) (h + 8 + len f) = f
    | None => slice hc h (h + 4) = be32 EXT_END
    end }.

Section parse.
Context (h : Z) (hc name : bytes) (fmt : option bytes).
Context (Hh : 0 < h) (Hlen : is_u32 (len hc)) (Hfit : backing_fits h (len hc) (Some (mkBackingRef name fmt))) (Hin : backing_in h hc name fmt).

Lemma backing_in_offset : be64_at hc 8 = name_offset h fmt.
Proof.
  destruct Hfit as (_ & Hl & Hno & _). destruct (end_offset_ge h fmt) as (? & ? & _). unfold is_u32 in Hlen.
  unfold be64_at. change (8 + 8) with 16. rewrite (bi_offset _ _ _ _ Hin). apply of_u64_be. unfold is_u64. lia.
Qed.
Lemma backing_in_format : parse_backing_format hc h = fmt.
Proof.
  destruct Hfit as (_ & Hl & Hno & Hfmt). destruct (end_offset_ge h fmt) as (He1 & He2 & He3). unfold is_u32 in Hlen.
  unfold parse_backing_format. destruct (length hc) as [|fuel] eqn:Hfuel; [unfold len in *; lia|].
  cbn [backing_format_loop]. rewrite (proj2 (Z.leb_le _ (len hc))) by lia. pose proof (bi_format _ _ _ _ Hin) as Hf. destruct fmt as [f|].
  - destruct Hfmt as [_ Hfu], Hf as (F1 & F2 & F3). pose proof (len_nonneg f). unfold be32_at. rewrite F1. replace (h + 4 + 4) with (h + 8) by lia. rewrite F2.
    rewrite (of_be32_bytes (len f)) by (unfold is_u32; lia). change (of_be64 (be32 EXT_BACKING_FORMAT)) with EXT_BACKING_FORMAT.
    change (EXT_BACKING_FORMAT =? EXT_END) with false. rewrite Z.eqb_refl. cbv iota. rewrite Z.min_l by lia. by rewrite F3, Hfu.
  - unfold be32_at. by rewrite Hf.
Qed.
Lemma backing_in_parse : parse_backing hc h = DOk (Some (mkBackingRef name fmt)).
Proof.
  destruct Hfit as ([_ Hu] & Hl & Hno & _). destruct (end_offset_ge h fmt) as (He1 & He2 & _). pose proof Hlen as Hlen'. unfold is_u32 in Hlen'.
  unfold parse_backing. rewrite backing_in_offset, backing_in_format. unfold be32_at. change (16 + 4) with 20. rewrite (bi_size _ _ _ _ Hin), of_be32_bytes by (unfold is_u32; lia).
  rewrite (proj2 (Z.eqb_neq (name_offset h fmt) 0)), (proj2 (Z.ltb_lt 0 (len name))), (proj2 (Z.ltb_ge 1023 _)), (proj2 (Z.ltb_ge U64_MAX _)), (proj2 (Z.ltb_ge (len hc) _))
    by (unfold U64_MAX; lia). cbn [negb andb]. by rewrite (bi_name _ _ _ _ Hin), Hu.
Qed.
End parse.
