(* ===== verification/Qcow2Create.v ===== *)
(** * qcow2 images: creating

    A new image is a valid one: it opens, the guest sees its backing image,
    and everything [Qcow2Correct] and [Qcow2Durable] show of writes and
    flushes holds of it. *)

From S2P Require Import Prelude TableCache Disk Qcow2 Qcow2Alloc Qcow2Read Qcow2Phys Qcow2Steps Qcow2Free Qcow2Write Qcow2Guest Qcow2Correct Qcow2Open Qcow2Durable Qcow2Header.

(** ** The header of a new image *)

Definition fixed_fields (cb size l1n l1_offset : Z) : list (Z * bytes) :=
  [(0, be32 QCOW_MAGIC); (4, be32 3); (20, be32 cb); (24, u64_be size); (32, be32 0); (36, be32 l1n); (40, u64_be l1_offset);
   (48, u64_be (Z.shiftl 1 cb)); (56, be32 1); (72, u64_be 0); (80, u64_be 0); (88, u64_be 0); (96, be32 4); (100, be32 HEADER_LEN); (104, [0])].
Definition ext_fields (bref : option BackingRef) : list (Z * bytes) :=
  match bref with
  | Some (mkBackingRef name fmt) =>
      format_ext 112 fmt ++ end_ext (end_offset 112 fmt) ++ [(8, u64_be (name_offset 112 fmt)); (16, be32 (len name)); (name_offset 112 fmt, name)]
  | None => end_ext 112
  end.

Lemma fixed_fits cb size l1n l1o n : 512 ≤ n → patch_fits n (fixed_fields cb size l1n l1o).
Proof. intros Hn. unfold fixed_fields, patch_fits. each_patch. Qed.
Lemma ext_fits bref n : 512 ≤ n → backing_fits 112 n bref → patch_fits n (ext_fields bref).
Proof.
  intros Hn Hb. unfold patch_fits. destruct bref as [[name fmt]|]; [|unfold ext_fields, end_ext; each_patch].
  destruct Hb as (_ & Hl & Hno & _). destruct (end_offset_ge 112 fmt) as (? & ? & Hf). unfold ext_fields, end_ext.
  apply Forall_app. split; [destruct fmt as [f|]; [|constructor]; unfold format_ext; each_patch|]. simpl. each_patch.
Qed.
(** The extensions leave the fixed fields alone. *)
Lemma ext_apart bref cs a b : backing_fits 112 cs bref → 0 ≤ a ≤ b → b ≤ 8 ∨ 20 ≤ a ∧ b ≤ 112 → patch_apart a b (ext_fields bref).
Proof.
  intros Hb Hab Ho. unfold patch_apart. destruct bref as [[name fmt]|]; [|unfold ext_fields, end_ext; each_patch].
  destruct Hb as (_ & Hl & Hno & _). destruct (end_offset_ge 112 fmt) as (? & ? & Hf). unfold ext_fields, end_ext.
  apply Forall_app. split; [destruct fmt as [f|]; [|constructor]; unfold format_ext; each_patch|]. simpl. each_patch.
Qed.

Definition new_header (cb size l1n l1o : Z) (bref : option BackingRef) : bytes :=
  patch (replicate (Z.to_nat (Z.shiftl 1 cb)) 0) (fixed_fields cb size l1n l1o ++ ext_fields bref).

Lemma create_header_spec cb size l1n l1o bref :
  512 ≤ Z.shiftl 1 cb → backing_fits 112 (Z.shiftl 1 cb) bref →
  create_header cb size l1n l1o bref = Ret (Some (new_header cb size l1n l1o bref)).
Proof.
  intros Hcs Hb. set (cs := Z.shiftl 1 cb) in *. set (z := replicate (Z.to_nat cs) 0). assert (len z = cs) as Hz by (unfold z; rewrite len_replicate; lia).
  pose proof (fields_run z (fixed_fields cb size l1n l1o ++ ext_fields bref)) as Hrun. rewrite Hz in Hrun.
  specialize (Hrun (proj2 (Forall_app _ _ _) (conj (fixed_fits cb size l1n l1o cs Hcs) (ext_fits bref cs Hcs Hb)))). unfold new_header. fold cs. fold z.
  unfold create_header. destruct bref as [[name fmt]|].
  - assert (Z.shiftl 1 cb <? name_offset 112 fmt + len name = false) as Hfit by (apply Z.ltb_ge; apply Hb).
    destruct fmt as [fmt|]; unfold add_ext; cbn [fst snd]; unfold name_offset in Hfit; cbn [end_offset] in Hfit; unfold HEADER_LEN; rewrite Hfit;
      rewrite foldl_app in Hrun; cbn [ext_fields format_ext end_ext app foldl fst snd] in Hrun; exact (f_equal (fmap Some) Hrun).
  - unfold add_ext; rewrite foldl_app in Hrun; cbn [ext_fields end_ext foldl fst snd] in Hrun. exact (f_equal (fmap Some) Hrun).
Qed.

Section header.
Context (cb size l1n l1o : Z) (bref : option BackingRef).
Context (Hcs : 512 ≤ Z.shiftl 1 cb) (Hb : backing_fits 112 (Z.shiftl 1 cb) bref).
Let cs := Z.shiftl 1 cb.
Let z : bytes := replicate (Z.to_nat cs) 0.
Let hc := new_header cb size l1n l1o bref.

Lemma zeros_len : len z = cs.
Proof. unfold z. rewrite len_replicate. lia. Qed.
Lemma header_fits : patch_fits (len z) (fixed_fields cb size l1n l1o ++ ext_fields bref).
Proof. rewrite zeros_len. apply Forall_app. split; [by apply fixed_fits|by apply ext_fits]. Qed.
Lemma len_new_header : len hc = cs.
Proof. unfold hc, new_header. fold cs. fold z. rewrite len_patch by apply header_fits. apply zeros_len. Qed.

Lemma new_header_fixed k o v :
  fixed_fields cb size l1n l1o !! k = Some (o, v) → patch_apart o (o + len v) (drop (S k) (fixed_fields cb size l1n l1o)) →
  0 ≤ o → o + len v ≤ 8 ∨ 20 ≤ o ∧ o + len v ≤ 112 → slice hc o (o + len v) = v.
Proof.
  intros Hk Ha Ho Hr. pose proof (take_drop_middle _ _ _ Hk) as Hsplit. unfold hc, new_header. fold cs. fold z. pose proof header_fits as Hf.
  rewrite <-Hsplit in Hf |- *. rewrite <-app_assoc in Hf |- *. cbn [app] in Hf |- *. pose proof (len_nonneg v).
  apply slice_patch_in; [exact Hf|]. apply Forall_app. split; [exact Ha|]. apply (ext_apart bref cs); [done|lia|lia].
Qed.
Lemma slice_zeros a b : 0 ≤ a ≤ b → b ≤ cs → slice z a b = replicate (Z.to_nat (b - a)) 0.
Proof. intros. unfold z, slice. rewrite drop_replicate, take_replicate. f_equal. lia. Qed.
Lemma new_header_zero a b : 20 ≤ a ≤ b → b ≤ 112 → patch_apart a b (fixed_fields cb size l1n l1o) → slice hc a b = replicate (Z.to_nat (b - a)) 0.
Proof.
  intros Hab Hl Ha. unfold hc, new_header. fold cs. fold z. rewrite slice_patch_out; [apply slice_zeros; lia|apply header_fits|lia|].
  apply Forall_app. split; [done|]. apply (ext_apart bref cs); [done|lia|lia].
Qed.

Lemma new_header_words :
  is_u32 cb → is_u32 l1n → is_u64 size → is_u64 l1o → is_u64 cs →
  (be32_at hc 0 = QCOW_MAGIC ∧ be32_at hc 4 = 3 ∧ be32_at hc 20 = cb ∧ be32_at hc 32 = 0 ∧
   be64_at hc 72 = 0 ∧ be64_at hc 88 = 0 ∧ be32_at hc 96 = 4 ∧ be32_at hc 100 = 112) ∧
  be64_at hc 24 = size ∧ be32_at hc 36 = l1n ∧ be64_at hc 40 = l1o ∧ be64_at hc 48 = cs ∧ be32_at hc 56 = 1 ∧ be32_at hc 60 = 0 ∧ be64_at hc 64 = 0.
Proof.
  intros H1 H2 H3 H4 H5. unfold be32_at, be64_at.
  assert (∀ k o v, fixed_fields cb size l1n l1o !! k = Some (o, v) → 0 ≤ o ∧ (o + len v ≤ 8 ∨ 20 ≤ o ∧ o + len v ≤ 112) ∧
    patch_apart o (o + len v) (drop (S k) (fixed_fields cb size l1n l1o)) → slice hc o (o + len v) = v) as Hin.
  { intros k o v Hk (? & ? & ?). by apply (new_header_fixed k). }
  split_and!.
  1: specialize (Hin 0%nat _ _ eq_refl). 2: specialize (Hin 1%nat _ _ eq_refl). 3: specialize (Hin 2%nat _ _ eq_refl). 4: specialize (Hin 4%nat _ _ eq_refl).
  5: specialize (Hin 9%nat _ _ eq_refl). 6: specialize (Hin 11%nat _ _ eq_refl). 7: specialize (Hin 12%nat _ _ eq_refl). 8: specialize (Hin 13%nat _ _ eq_refl).
  9: specialize (Hin 3%nat _ _ eq_refl). 10: specialize (Hin 5%nat _ _ eq_refl). 11: specialize (Hin 6%nat _ _ eq_refl). 12: specialize (Hin 7%nat _ _ eq_refl).
  13: specialize (Hin 8%nat _ _ eq_refl).
  14, 15: clear Hin; rewrite new_header_zero by (lia || (unfold fixed_fields, patch_apart; each_patch)); done.
  all: rewrite ?len_u64_be, ?len_be32 in Hin; rewrite Hin by (split_and!; [lia|lia|unfold fixed_fields, patch_apart; cbn [drop]; each_patch]).
  all: (apply of_u64_be; done) || (apply of_be32_bytes; unfold is_u32 in *; done).
Qed.
Lemma bytes_ok_new_header : is_u32 cb → is_u32 l1n → is_u32 cs → bytes_ok hc.
Proof.
  intros H1 H2 H3. fold cs in Hb. unfold is_u32 in H3. apply bytes_ok_patch; [apply Forall_replicate; unfold is_u8; lia|]. apply Forall_app. split.
  - unfold fixed_fields. repeat (constructor; [simpl; first [apply bytes_ok_u64_be|apply bytes_ok_be32; unfold is_u32 in *; done|by repeat constructor]|]). constructor.
  - destruct bref as [[name fmt]|]; [|unfold ext_fields, end_ext; repeat (constructor; [simpl; first [by apply bytes_ok_be32|constructor]|]); constructor].
    destruct Hb as ([Hok _] & Hl & Hno & Hfmt). pose proof (end_offset_ge 112 fmt) as (? & ? & Hf). simpl in Hno. unfold ext_fields. apply Forall_app. split.
    + destruct fmt as [f|]; [|constructor]. destruct Hfmt as [Hfok _]. unfold format_ext.
      pose proof (len_nonneg f). repeat (constructor; [simpl; first [done|apply bytes_ok_be32; unfold is_u32, EXT_BACKING_FORMAT; lia]|]). constructor.
    + unfold end_ext. simpl. repeat (constructor; [simpl; first [done|by constructor|apply bytes_ok_u64_be|apply bytes_ok_be32; unfold is_u32, EXT_END; try (change (len (@nil Z)) with 0); lia]|]). constructor.
Qed.
(** A field of the extensions. *)
Lemma new_header_ext l1 o v l2 : ext_fields bref = l1 ++ (o, v) :: l2 → patch_apart o (o + len v) l2 → slice hc o (o + len v) = v.
Proof.
  intros He Ha. unfold hc, new_header. fold cs. fold z. pose proof header_fits as Hf. rewrite He in Hf |- *. rewrite app_assoc in Hf |- *. by apply slice_patch_in.
Qed.
End header.

Lemma new_header_name cb size l1n l1o bref :
  512 ≤ Z.shiftl 1 cb → is_u32 (Z.shiftl 1 cb) → backing_fits 112 (Z.shiftl 1 cb) bref →
  be64_at (new_header cb size l1n l1o bref) 8 = match bref with Some (mkBackingRef _ fmt) => name_offset 112 fmt | None => 0 end.
Proof.
  intros Hcs H32 Hb. unfold is_u32 in H32. pose proof (new_header_ext cb size l1n l1o bref Hcs Hb) as Hext. pose proof (header_fits cb size l1n l1o bref Hcs Hb) as Hfits.
  set (cs := Z.shiftl 1 cb) in *. set (hc := new_header cb size l1n l1o bref) in *. destruct bref as [[name fmt]|].
  - destruct Hb as (_ & Hl & Hno & _). destruct (end_offset_ge 112 fmt) as (He1 & He2 & _). set (no := name_offset 112 fmt) in *.
    unfold be64_at. change (8 + 8) with (8 + len (u64_be no)). rewrite (Hext (format_ext 112 fmt ++ end_ext (end_offset 112 fmt)) 8 (u64_be no) [(16, be32 (len name)); (no, name)]).
    + apply of_u64_be. unfold is_u64. lia.
    + by rewrite <-app_assoc.
    + unfold patch_apart. rewrite len_u64_be. each_patch.
  - unfold be64_at, hc, new_header. rewrite slice_patch_out; [|exact Hfits|lia|].
    + rewrite slice_zeros by lia. done.
    + unfold fixed_fields, ext_fields, end_ext, patch_apart. simpl. each_patch.
Qed.
(** What [parse] finds of the backing reference is what was recorded. *)
Lemma new_header_backing_in cb size l1n l1o name fmt :
  512 ≤ Z.shiftl 1 cb → backing_fits 112 (Z.shiftl 1 cb) (Some (mkBackingRef name fmt)) →
  backing_in 112 (new_header cb size l1n l1o (Some (mkBackingRef name fmt))) name fmt.
Proof.
  intros Hcs Hb. pose proof (new_header_ext cb size l1n l1o _ Hcs Hb) as Hext. destruct Hb as (_ & Hl & _). destruct (end_offset_ge 112 fmt) as (He1 & He2 & He3).
  set (no := name_offset 112 fmt) in *. constructor; fold no.
  - change 16 with (8 + len (u64_be no)) at 1. apply (Hext (format_ext 112 fmt ++ end_ext (end_offset 112 fmt)) 8 (u64_be no) [(16, be32 (len name)); (no, name)]); [by rewrite <-app_assoc|].
    unfold patch_apart. rewrite len_u64_be. each_patch.
  - change 20 with (16 + len (be32 (len name))). apply (Hext (format_ext 112 fmt ++ end_ext (end_offset 112 fmt) ++ [(8, u64_be no)]) 16 (be32 (len name)) [(no, name)]).
    + cbn [ext_fields]. by rewrite <-!app_assoc.
    + unfold patch_apart. rewrite len_be32. each_patch.
  - apply (Hext (format_ext 112 fmt ++ end_ext (end_offset 112 fmt) ++ [(8, u64_be no); (16, be32 (len name))]) no name []); [cbn [ext_fields]; by rewrite <-!app_assoc|constructor].
  - cbn [ext_fields] in Hext. fold no in Hext. destruct fmt as [f|].
    + pose proof (len_nonneg f). cbn [format_ext] in Hext. set (rest := end_ext (end_offset 112 (Some f)) ++ [(8, u64_be no); (16, be32 (len name)); (no, name)]) in *.
      assert (∀ a b, 112 ≤ a ≤ b → b ≤ 120 + len f → patch_apart a b rest) as Hrest by (intros a b Hab Hbl; unfold rest, end_ext, patch_apart; cbn [app]; each_patch).
      split_and!.
      * apply (Hext [] 112 (be32 EXT_BACKING_FORMAT) _ eq_refl). do 2 (constructor; [simpl; rewrite len_be32; lia|]). apply Hrest; rewrite ?len_be32; lia.
      * apply (Hext [(112, be32 EXT_BACKING_FORMAT)] (112 + 4) (be32 (len f)) _ eq_refl). constructor; [simpl; rewrite len_be32; lia|]. apply Hrest; rewrite ?len_be32; lia.
      * apply (Hext [(112, be32 EXT_BACKING_FORMAT); (112 + 4, be32 (len f))] (112 + 8) f _ eq_refl). apply Hrest; lia.
    + apply (Hext [] 112 (be32 EXT_END) _ eq_refl). unfold patch_apart. rewrite len_be32. cbn [end_offset] in *. each_patch.
Qed.
Lemma new_header_backing cb size l1n l1o bref :
  512 ≤ Z.shiftl 1 cb → is_u32 (Z.shiftl 1 cb) → backing_fits 112 (Z.shiftl 1 cb) bref → parse_backing (new_header cb size l1n l1o bref) 112 = DOk bref.
Proof.
  intros Hcs H32 Hb. pose proof (len_new_header cb size l1n l1o bref Hcs Hb) as Hlen. destruct bref as [[name fmt]|].
  - apply backing_in_parse; [lia|by rewrite Hlen|by rewrite Hlen|by apply new_header_backing_in].
  - unfold parse_backing. by rewrite (new_header_name cb size l1n l1o None Hcs H32 Hb).
Qed.

(** ** The refcount table of a new image *)

Lemma table_bytes_zeros n : table_bytes (replicate n 0) = replicate (8 * n) 0.
Proof.
  induction n as [|n IH]; [done|]. cbn [replicate]. unfold table_bytes in *. cbn [mbind list_bind]. rewrite IH.
  replace (8 * S n)%nat with (8 + 8 * n)%nat by lia. by rewrite replicate_add.
Qed.
Definition new_table (cs : Z) : list Z := 2 * cs :: replicate (Z.to_nat (cs / 8 - 1)) 0.
Lemma new_table_bytes cs : 512 ≤ cs → cs mod 8 = 0 → splice (replicate (Z.to_nat cs) 0) 0 (u64_be (2 * cs)) = table_bytes (new_table cs).
Proof.
  intros Hcs Hm. unfold new_table, table_bytes. cbn [mbind list_bind]. fold (table_bytes (replicate (Z.to_nat (cs / 8 - 1)) 0)). rewrite table_bytes_zeros.
  unfold splice. change (Z.to_nat 0) with 0%nat. rewrite take_0. cbn [app Nat.add]. rewrite drop_replicate. f_equal. f_equal.
  change (length (u64_be (2 * cs))) with 8%nat. pose proof (Z.div_mod cs 8 ltac:(lia)). lia.
Qed.
Lemma new_table_host cs ti : 512 ≤ cs → 2 * cs < 2 ^ 56 → cs mod 512 = 0 → 0 ≤ ti →
  Z.land (default 0 (new_table cs !! Z.to_nat ti)) OFFSET_MASK = if ti =? 0 then 2 * cs else 0.
Proof.
  intros Hcs Hl Hm Hti. unfold new_table. destruct (Z.eqb_spec ti 0) as [->|Hne].
  - change (Z.to_nat 0) with 0%nat. cbn [lookup list_lookup default]. apply land_offset; [lia|]. rewrite Z.mul_mod, Hm, Z.mul_0_r by lia. done.
  - replace (Z.to_nat ti) with (S (Z.to_nat (ti - 1))) by lia. cbn [lookup list_lookup].
    destruct (replicate _ 0 !! Z.to_nat (ti - 1)) eqn:E; [|done]. by apply lookup_replicate in E as [-> _].
Qed.

Section create.
Context {B : Type} `{HB : DiskContents B} `{HI : InflateLaws}.
Implicit Types q : Qcow2Image B.

(** The image before its refcounts are set. *)
Definition blank (size cb l1n : Z) (bref : option BackingRef) (hc : bytes) : Qcow2Image B :=
  let cs := Z.shiftl 1 cb in
  mkQcow2 (replicate (Z.to_nat (3 * cs + l1_size_as_clusters l1n cs * cs)) 0) false 3 cb cs size l1n (3 * cs) cs 1 16 0 0 hc bref None
    (replicate (Z.to_nat l1n) 0) (new_table cs) (TableCache_new 64) (TableCache_new 64) (mkFree ∅ 0) false false false.

Lemma zero_table (f : bytes) n cs k : f = replicate n 0 → 0 ≤ k → k mod cs = 0 → 0 ≤ cs → k + cs ≤ Z.of_nat n → tables f cs k = replicate (Z.to_nat cs) 0.
Proof. intros -> Hk Hm Hcs Hl. rewrite tables_at by done. unfold slice. rewrite drop_replicate, take_replicate. f_equal. lia. Qed.

Section blank.
Context (size cb l1n : Z) (bref : option BackingRef) (hc : bytes).
Context (Hcb : 9 ≤ cb ≤ 20) (Hl1 : 1 ≤ l1n).
Let q := blank size cb l1n bref hc.
Let cs := Z.shiftl 1 cb.

Lemma blank_cs : cs = 2 ^ cb ∧ 512 ≤ cs ≤ 1048576 ∧ cs mod 512 = 0.
Proof.
  unfold cs. rewrite Z.shiftl_1_l. split; [done|]. change 512 with (2 ^ 9). change 1048576 with (2 ^ 20).
  split; [split; apply Z.pow_le_mono_r; lia|]. replace cb with (cb - 9 + 9) by lia. rewrite Z.pow_add_r by lia. apply Z.mod_mul. lia.
Qed.
Lemma blank_host ti : 0 ≤ ti → rt_host q ti = if ti =? 0 then 2 * cs else 0.
Proof. destruct blank_cs as (_ & ? & ?). intros Hti. apply new_table_host; try done; [lia|]. change (2 ^ 56) with 72057594037927936. lia. Qed.
Lemma blank_rbe : refblock_entries q = cs / 2.
Proof. unfold refblock_entries. change (cluster_size q) with cs. change (refcount_bits q) with (8 * 2). rewrite (Z.mul_comm cs), Z.div_mul_cancel_l by lia. done. Qed.
Lemma blank_clusters : 1 ≤ l1_size_as_clusters l1n cs ∧ 8 * l1n ≤ l1_size_as_clusters l1n cs * cs.
Proof.
  destruct blank_cs as (_ & ? & _). unfold l1_size_as_clusters, div_ceil. pose proof (Z.div_mod (l1n * 8 + cs - 1) cs ltac:(lia)).
  pose proof (Z.mod_pos_bound (l1n * 8 + cs - 1) cs ltac:(lia)). nia.
Qed.
Lemma blank_len : len (q_file q) = (3 + l1_size_as_clusters l1n cs) * cs.
Proof. destruct blank_cs as (_ & ? & _), blank_clusters. simpl. fold cs. rewrite len_replicate. lia. Qed.

Lemma blank_phys : phys q.
Proof.
  destruct blank_cs as (Hpow & Hcs & Hm), blank_clusters as [Hlc _]. constructor; try done.
  - simpl. lia.
  - rewrite !elem_of_cons. simpl. tauto.
  - apply Forall_replicate. unfold is_u8. lia.
  - by apply empty_cache_ok.
  - by apply empty_cache_ok.
  - intros ti Hti Hh. rewrite blank_host in * by done. destruct (ti =? 0); [|done]. unfold table_at. rewrite blank_len. change (cluster_size q) with cs.
    split_and!; [lia|apply Z.mod_mul; lia|nia].
  - intros ti tj Hti Htj. rewrite !blank_host by done. destruct (Z.eqb_spec ti 0), (Z.eqb_spec tj 0); done || lia.
  - rewrite blank_rbe. change (cluster_size q) with cs. change (refcount_table q) with (new_table cs). unfold new_table. cbn [length]. rewrite length_replicate.
    pose proof (Z.div_mod cs 8 ltac:(lia)). pose proof (Z.mod_pos_bound cs 8 ltac:(lia)). pose proof (Z.div_mod cs 2 ltac:(lia)). pose proof (Z.mod_pos_bound cs 2 ltac:(lia)).
    replace (Z.of_nat (S (Z.to_nat (cs / 8 - 1)))) with (cs / 8) by lia. assert (cs / 8 ≤ 131072) by lia. assert (cs / 2 ≤ 524288) by lia.
    transitivity (131072 * 524288 * 1048576); [|done]. repeat apply Z.mul_le_mono_nonneg; try lia.
Qed.
Lemma blank_rc c : 0 ≤ c → rc q c = 0.
Proof.
  intros Hc. destruct blank_cs as (_ & Hcs & Hm), blank_clusters as [Hlc _]. pose proof blank_phys as Hp. destruct (block_index q c Hp Hc) as (Hi & Hj & _).
  unfold rc. rewrite blank_host by done. destruct (Z.eqb_spec (c / refblock_entries q) 0) as [->|]; [|done].
  rewrite (proj2 (Z.eqb_neq _ _)) by lia. assert (block q 0 = replicate (Z.to_nat cs) 0) as ->.
  { unfold block, view. change (c_map (refblock_cache q)) with (∅ : gmap Z (bytes * bool)). rewrite lookup_empty. unfold rb_disk. rewrite blank_host by done. simpl.
    eapply zero_table; [done|lia|apply Z.mod_mul; lia|lia|]. fold cs. nia. }
  change (refcount_bits q) with 16. rewrite bits_get_zero; [done|rewrite !elem_of_cons; tauto|lia|].
  rewrite blank_rbe in *. pose proof (Z.div_mod cs 2 ltac:(lia)). pose proof (Z.mod_pos_bound cs 2 ltac:(lia)). lia.
Qed.
End blank.

(** ** The refcounts of the metadata *)

Record tallied (k : Z) q0 q : Prop := mkTallied {
  cn_phys : phys q;
  cn_keeps : keeps nowhere nowhere q0 q;
  cn_rc x : 0 ≤ x → rc q x = if x <? k then 1 else rc q0 x;
  cn_rt : refcount_table q = refcount_table q0;
  cn_l1 : l1 q = l1 q0;
  cn_l2 : c_map (l2_cache q) = c_map (l2_cache q0);
  cn_free : q_free q = mkFree ∅ 0 }.

Lemma count_step k q0 q :
  phys q0 → tallied k q0 q → 0 ≤ k → rt_host q0 (k / refblock_entries q0) ≠ 0 → refcount_bits q0 = 16 →
  ∃ q', set_refcount k 1 q = (q', DOk tt) ∧ tallied (k + 1) q0 q'.
Proof.
  intros Hp0 [Hp Hk Hrc Hrt Hl1 Hl2 Hfr] H0' Hh Hw. unfold set_refcount.
  assert (refblock_entries q = refblock_entries q0) as Hrbe by (unfold refblock_entries; by rewrite (ke_cs _ _ _ _ Hk), (ke_width _ _ _ _ Hk)).
  assert (∀ ti, rt_host q ti = rt_host q0 ti) as Hhost by (intros; unfold rt_host; by rewrite Hrt).
  destruct (set_refcount_spec (ALLOC_FUEL - 2) q k 1 Hp H0') as (q1 & Hre & Hrun).
  { by rewrite Hrbe, Hhost. } { rewrite (ke_width _ _ _ _ Hk), Hw. done. }
  change (S (S (ALLOC_FUEL - 2))) with ALLOC_FUEL in Hrun. rewrite Hfr in Hrun.
  eexists. split; [exact Hrun|]. destruct Hre as [R1 R2 R3 R4 R5 R6 R7 R8]. constructor; try congruence.
  - apply phys_set_free; [done|simpl; lia].
  - eapply keeps_nowhere_trans; [done|exact Hk|]. eapply keeps_nowhere_trans; [done|exact R2|apply keeps_set_free].
  - intros x Hx. change (rc q1 x = if x <? k + 1 then 1 else rc q0 x). rewrite R3, Hrc by done. destruct (Z.eqb_spec x k), (Z.ltb_spec x k), (Z.ltb_spec x (k + 1)); done || lia.
  - simpl. congruence.
  - simpl. congruence.
  - simpl. congruence.
  - simpl. f_equal. clear. set_solver.
Qed.
Lemma count_loop q0 q k n :
  phys q0 → tallied k q0 q → 0 ≤ k ≤ n → (∀ x, 0 ≤ x < n → rt_host q0 (x / refblock_entries q0) ≠ 0) → refcount_bits q0 = 16 →
  ∃ q', dfor (seqZ k (n - k)) (λ idx, set_refcount idx 1) q = (q', DOk tt) ∧ tallied n q0 q'.
Proof.
  intros Hp0 Hc Hk Hh Hw. remember (Z.to_nat (n - k)) as m eqn:Hm. revert k q Hc Hk Hm. induction m as [|m IH]; intros k q Hc Hk Hm.
  - assert (k = n) as -> by lia. rewrite Z.sub_diag. by exists q.
  - rewrite seqZ_cons by lia. cbn [dfor]. destruct (count_step k q0 q Hp0 Hc) as (q1 & Hrun & Hc1); [lia|apply Hh; lia|done|].
    rewrite (dbind_ok _ _ _ _ _ Hrun). replace (Z.succ k) with (k + 1) by lia. replace (Z.pred (n - k)) with (n - (k + 1)) by lia. apply (IH (k + 1) q1 Hc1); lia.
Qed.

(** ** The new image *)

Lemma uncached q k : c_map (l2_cache q) = ∅ → l2_table q k = tables (q_file q) (cluster_size q) k.
Proof. intros Hc. unfold l2_table, view. by rewrite Hc, lookup_empty. Qed.

(** The metadata of a new image: all that it holds. *)
Record fresh (size cb l1n : Z) (bref : option BackingRef) (bimg : option B) q : Prop := mkFresh {
  fr_phys : phys q;
  fr_geometry : cluster_size q = Z.shiftl 1 cb ∧ cluster_bits q = cb ∧ q_size q = size ∧ refcount_bits q = 16 ∧ q_version q = 3;
  fr_top : l1_size q = l1n ∧ l1_table_offset q = 3 * Z.shiftl 1 cb ∧ refcount_table_offset q = Z.shiftl 1 cb ∧ refcount_table_clusters q = 1 ∧
    nb_snapshots q = 0 ∧ snapshots_offset q = 0;
  fr_backing : backing q = bref ∧ backing_image q = bimg;
  fr_l1 : l1 q = replicate (Z.to_nat l1n) 0;
  fr_rt : refcount_table q = new_table (Z.shiftl 1 cb);
  fr_free : q_free q = mkFree ∅ 0;
  fr_l2 : c_map (l2_cache q) = ∅;
  fr_len : (3 + l1_size_as_clusters l1n (Z.shiftl 1 cb)) * Z.shiftl 1 cb ≤ len (q_file q);
  fr_rc x : 0 ≤ x → rc q x = if x <? 3 + l1_size_as_clusters l1n (Z.shiftl 1 cb) then 1 else 0;
  fr_header : header_cluster q = new_header cb size l1n (3 * Z.shiftl 1 cb) bref ∧ slice (q_file q) 0 (Z.shiftl 1 cb) = header_cluster q;
  fr_rt_file : slice (q_file q) (Z.shiftl 1 cb) (2 * Z.shiftl 1 cb) = table_bytes (refcount_table q);
  fr_l1_file : slice (q_file q) (3 * Z.shiftl 1 cb) (3 * Z.shiftl 1 cb + 8 * l1n) = table_bytes (l1 q) }.

Definition l1_entries_for (size cb : Z) : Z := Z.max (div_ceil size (Z.shiftl 1 cb / 8 * Z.shiftl 1 cb)) 1.

(** [create] runs to the end and leaves that image. *)
Lemma create_run size cb bref bimg :
  9 ≤ cb ≤ 20 → let cs := Z.shiftl 1 cb in let l1n := l1_entries_for size cb in
  is_u32 l1n → 3 + l1_size_as_clusters l1n cs ≤ cs / 2 → backing_fits 112 cs bref →
  ∃ q, qcow2_create size cb bref bimg = (q, DOk tt) ∧ fresh size cb l1n bref bimg q.
Proof.
  intros Hcb cs l1n Hu Hn Hb. set (n := 3 + l1_size_as_clusters l1n cs) in *. assert (1 ≤ l1n) as Hl1 by (unfold l1n, l1_entries_for; lia).
  destruct (blank_cs cb Hcb) as (Hpow & Hcs & Hm). fold cs in Hpow, Hcs, Hm. set (hc := new_header cb size l1n (3 * cs) bref).
  set (q0 := blank size cb l1n bref hc). pose proof (blank_phys size cb l1n bref hc Hcb Hl1) as Hp0. fold q0 in Hp0.
  pose proof (blank_len size cb l1n bref hc Hcb Hl1) as Hlen0. fold q0 cs n in Hlen0. destruct (blank_clusters cb l1n Hcb Hl1) as [Hlc Hlb]. fold cs in Hlc, Hlb.
  assert (∀ ti, 0 ≤ ti → rt_host q0 ti = if ti =? 0 then 2 * cs else 0) as Hhost by (by apply blank_host).
  assert (cs mod 8 = 0) as Hm8.
  { rewrite (Z.div_mod cs 512), Hm, Z.add_0_r by lia. change 512 with (64 * 8). rewrite <-Z.mul_assoc, (Z.mul_comm 8), Z.mul_assoc. apply Z.mod_mul. lia. }
  assert (bytes_ok hc ∧ len hc = cs) as [Hhok Hhl].
  { split; [apply bytes_ok_new_header; fold cs; unfold is_u32 in *; (done || lia)|apply len_new_header; fold cs; done || lia]. }
  pose proof (len_table_bytes (new_table cs)) as Hlrt. unfold new_table in Hlrt at 2. cbn [length] in Hlrt. rewrite length_replicate in Hlrt.
  assert (len (table_bytes (new_table cs)) = cs) as Hrtl by (pose proof (Z.div_mod cs 8 ltac:(lia)); lia). clear Hlrt.
  assert (tallied 0 q0 q0) as Hc0.
  { constructor; try done; [apply keeps_refl|]. intros x Hx. by rewrite (proj2 (Z.ltb_ge _ _)). }
  destruct (count_loop q0 q0 0 n Hp0 Hc0) as (q1 & Hrun1 & [P1 K1 R1 T1 L1 C1 F1]); [lia| |done|].
  { intros x Hx. replace (refblock_entries q0) with (cs / 2) by (symmetry; exact (blank_rbe size cb l1n bref hc)). rewrite Z.div_small by lia. rewrite Hhost by lia. simpl. lia. }
  rewrite Z.sub_0_r in Hrun1. pose proof (ke_cs _ _ _ _ K1) as Ecs. change (cluster_size q0) with cs in Ecs.
  assert (∀ k, is_block q1 k → k = 2 * cs) as Hblk.
  { intros k (ti & Hti & Hh & Hne). unfold rt_host in Hh. rewrite T1 in Hh. fold (rt_host q0 ti) in Hh. rewrite Hhost in Hh by done. destruct (ti =? 0); congruence. }
  assert (∀ k, c_map (l2_cache q1) !! k = None) as Hnone by (intros k; rewrite C1; apply lookup_empty).
  pose proof (ke_len _ _ _ _ K1) as Hlen1. rewrite Hlen0 in Hlen1.
  destruct (region_write q1 0 hc P1) as (W2 & P2 & K2 & R2 & E2 & Hf2); [lia|apply Z.mod_0_l; lia|lia|done|nia| |].
  { rewrite Ecs, Hhl. intros c Hc [_ Hi]. split; [|done]. intros Hk%Hblk. nia. }
  set (q2 := set_file _ q1) in *.
  destruct (region_write q2 cs (table_bytes (new_table cs)) P2) as (W3 & P3 & K3 & R3 & E3 & Hf3);
    [lia|change (cluster_size q2) with (cluster_size q1); rewrite Ecs; apply Z.mod_same; lia|lia|apply bytes_ok_table_bytes|rewrite E2; nia| |].
  { change (cluster_size q2) with (cluster_size q1). rewrite Ecs, Hrtl. intros c Hc [_ Hi]. split; [|done]. intros Hk%Hblk. nia. }
  set (q3 := set_file _ q2) in *. exists (set_backing_image bimg q3). split.
  { unfold qcow2_create. fold cs. change (wrap32 (Z.max (div_ceil size (cs / 8 * cs)) 1)) with (wrap32 l1n).
    replace (wrap32 l1n) with l1n by (unfold wrap32, is_u32 in *; by rewrite Z.mod_small). rewrite create_header_spec by (done || lia). fold hc.
    rewrite new_table_bytes by (lia || done). rewrite words_table_bytes; [|constructor; [unfold is_u64; lia|apply Forall_replicate; unfold is_u64; lia]].
    fold n. change (mkQcow2 _ _ _ _ _ _ _ _ _ _ _ _ _ _ _ _ _ _ _ _ _ _ _ _) with q0.
    rewrite (dbind_ok _ _ _ _ _ Hrun1), (dbind_ok _ _ _ _ _ W2), (dbind_ok _ _ _ _ _ W3). done. }
  assert (∀ x, 0 ≤ x → rc (set_backing_image bimg q3) x = if x <? n then 1 else 0) as Hrc.
  { intros x Hx. change (rc q3 x = if x <? n then 1 else 0). rewrite R3, R2, R1 by done. case_match; [done|]. by apply blank_rc. }
  destruct (ke_meta _ _ _ _ K1) as ((A1 & A2 & A3 & A4 & A5 & A6 & A7 & A8 & A9 & A10) & _).
  assert (∀ a b, slice (q_file q3) a b = slice (splice (splice (q_file q1) 0 hc) cs (table_bytes (new_table cs))) a b) as Hfile by (intros; by rewrite Hf3, Hf2).
  constructor; fold cs n; try done.
  - destruct P3 as []. constructor; done.
  - split_and!; [exact Ecs|exact (ke_bits _ _ _ _ K1)|exact (ke_size _ _ _ _ K1)|exact A10|exact A1].
  - change (n * cs ≤ len (q_file q3)). lia.
  - change (header_cluster (set_backing_image bimg q3)) with (header_cluster q1). rewrite A8. split; [done|]. change (slice (q_file q3) 0 cs = hc). rewrite Hfile.
    assert (len (splice (q_file q1) 0 hc) = len (q_file q1)) by (apply len_splice; nia).
    rewrite slice_splice_out by (rewrite ?Hrtl; nia). rewrite <-Hhl. apply (slice_splice_same (q_file q1) hc 0); nia.
  - change (slice (q_file q3) cs (2 * cs) = table_bytes (refcount_table q1)). rewrite T1. change (refcount_table q0) with (new_table cs). rewrite Hfile.
    assert (len (splice (q_file q1) 0 hc) = len (q_file q1)) by (apply len_splice; nia).
    replace (2 * cs) with (cs + len (table_bytes (new_table cs))) by lia. apply slice_splice_same; nia.
  - change (slice (q_file q3) (3 * cs) (3 * cs + 8 * l1n) = table_bytes (l1 q1)). rewrite L1. change (l1 q0) with (replicate (Z.to_nat l1n) 0).
    rewrite table_bytes_zeros, Hfile. assert (len (splice (q_file q1) 0 hc) = len (q_file q1)) by (apply len_splice; nia).
    rewrite slice_splice_out by (rewrite ?Hrtl; nia). rewrite slice_splice_out by (rewrite ?Hhl; nia).
    rewrite (region_same (q_file q0) (q_file q1) cs (3 * cs) (8 * l1n)); try lia; try nia; [|apply Z.mod_mul; lia|].
    + change (q_file q0) with (replicate (Z.to_nat (3 * cs + l1_size_as_clusters l1n cs * cs)) 0). unfold slice. rewrite drop_replicate, take_replicate. f_equal. nia.
    + intros c Hc [Hlo Hhi]. pose proof (ke_tables _ _ _ _ K1 c Hc) as Ht. change (cluster_size q0) with cs in Ht.
      rewrite (uncached q1), (uncached q0), Ecs in Ht by done. change (cluster_size q0) with cs in Ht.
      assert (3 ≤ c) by (apply (Zmult_le_reg_r 3 c cs); lia). assert (c < n) by (apply (Zmult_lt_reg_r c n cs); unfold n; lia).
      apply Ht; [by intros []| |rewrite Hlen0; apply Z.mul_le_mono_nonneg_r; lia].
      intros (ti & Hti & Hh & Hne). rewrite Hhost in Hh by done. destruct (ti =? 0); [|congruence]. apply Z.mul_reg_r in Hh; lia.
Qed.
Section fresh.
Context (size cb : Z) (bref : option BackingRef) (bimg : option B) (q : Qcow2Image B).
Context (Hcb : 9 ≤ cb ≤ 20) (Hsize : 0 ≤ size ≤ U64_MAX).
Let cs := Z.shiftl 1 cb.
Let l1n := l1_entries_for size cb.
Context (Hu : is_u32 l1n) (Hn : 3 + l1_size_as_clusters l1n cs ≤ cs / 2) (Hb : backing_fits 112 cs bref).
Context (Hi : ∀ b, bimg = Some b → image_ok b) (Hio : ∀ b o, bimg = Some b → is_u8 (content b o)).
Context (Hf : fresh size cb l1n bref bimg q).

Lemma fresh_facts : (cs = 2 ^ cb ∧ 512 ≤ cs ≤ 1048576 ∧ cs mod 512 = 0) ∧ 1 ≤ l1n ∧ 1 ≤ l1_size_as_clusters l1n cs ∧ 8 * l1n ≤ l1_size_as_clusters l1n cs * cs.
Proof. pose proof (blank_cs cb Hcb). assert (1 ≤ l1n) by (unfold l1n, l1_entries_for; lia). pose proof (blank_clusters cb l1n Hcb ltac:(done)). done. Qed.
Lemma fresh_cs : cluster_size q = cs.
Proof. apply (fr_geometry _ _ _ _ _ _ Hf). Qed.
Lemma fresh_host ti : 0 ≤ ti → rt_host q ti = if ti =? 0 then 2 * cs else 0.
Proof.
  destruct fresh_facts as ((_ & ? & ?) & _). intros Hti. unfold rt_host. rewrite (fr_rt _ _ _ _ _ _ Hf). apply new_table_host; try done; [lia|].
  change (2 ^ 56) with 72057594037927936. fold cs. lia.
Qed.
Lemma fresh_block k : is_block q k → k = 2 * cs.
Proof. intros (ti & Hti & Hh & Hne). rewrite fresh_host in Hh by done. destruct (ti =? 0); congruence. Qed.
Lemma fresh_l2h i : l2h q i = 0.
Proof.
  unfold l2h. rewrite (fr_l1 _ _ _ _ _ _ Hf). destruct (replicate (Z.to_nat l1n) 0 !! i) eqn:E; [|done]. by apply lookup_replicate in E as [-> _].
Qed.
(** Its clusters: the header, the refcount table, the L1 table. *)
Lemma fresh_meta c : 0 ≤ c → is_meta q c → (c = 0 ∨ c = 1 ∨ 3 ≤ c < 3 + l1_size_as_clusters l1n cs) ∧
  (l1_region q c → 3 ≤ c) ∧ (rt_region q c → c = 1).
Proof.
  intros Hc. destruct fresh_facts as ((_ & ? & _) & ? & ? & ?). destruct (fr_top _ _ _ _ _ _ Hf) as (E1 & E2 & E3 & E4 & _). fold cs in E2, E3.
  assert (l1_region q c → 3 ≤ c < 3 + l1_size_as_clusters l1n cs) as Hl.
  { unfold l1_region, in_region. rewrite fresh_cs, E1, E2. intros [? ?]. split; [apply (Zmult_le_reg_r 3 c cs); lia|apply (Zmult_lt_reg_r c _ cs); lia]. }
  assert (rt_region q c → c = 1) as Hr.
  { unfold rt_region, in_region. rewrite fresh_cs, E3, E4. intros [? ?]. assert (1 ≤ c) by (apply (Zmult_le_reg_r 1 c cs); lia).
    assert (c < 2) by (apply (Zmult_lt_reg_r c 2 cs); lia). lia. }
  intros Hmc. split; [destruct Hmc as [->|[?|?]]; auto|]. split; [intros ?%Hl; lia|done].
Qed.
Lemma fresh_rc c : 0 ≤ c < 3 + l1_size_as_clusters l1n cs → rc q c = 1.
Proof. intros Hc. rewrite (fr_rc _ _ _ _ _ _ Hf) by lia. fold cs. by rewrite (proj2 (Z.ltb_lt _ _)) by lia. Qed.

Lemma fresh_alloc_ok : alloc_ok q.
Proof.
  destruct fresh_facts as ((_ & ? & _) & ? & ? & ?). constructor.
  - apply Hf.
  - intros c. rewrite (fr_free _ _ _ _ _ _ Hf). by intros ?%not_elem_of_empty.
  - intros ti Hti. rewrite fresh_host, fresh_cs by done. destruct (ti =? 0); [|done]. intros _. rewrite Z.div_mul by lia. rewrite fresh_rc by lia. done.
  - rewrite fresh_rc by lia. done.
Qed.
Lemma fresh_write_ok : write_ok (is_meta q) q.
Proof.
  destruct fresh_facts as ((_ & ? & _) & ? & ? & ?). destruct (fr_geometry _ _ _ _ _ _ Hf) as (_ & _ & E3 & _). pose proof fresh_l2h as Hl.
  assert (∀ i j, ge q i j = 0) as Hge by (intros; unfold ge; by rewrite Hl). assert (∀ i j, dh q i j = 0) as Hdh by (intros; unfold dh; by rewrite Hge).
  destruct (fr_backing _ _ _ _ _ _ Hf) as [_ Hbi].
  constructor; try (intros; rewrite ?Hge, ?Hdh, ?Hl in *; done).
  - exact fresh_alloc_ok.
  - by rewrite E3.
  - rewrite (fr_l1 _ _ _ _ _ _ Hf). apply Forall_replicate. unfold is_u64. lia.
  - intros b. rewrite Hbi. apply Hi.
  - intros o. unfold backing_byte. rewrite Hbi. destruct bimg as [b|]; [|unfold is_u8; lia]. case_match; [by apply Hio|unfold is_u8; lia].
  - intros c Hc. assert (0 ≤ c) as Hc0.
    { destruct (fr_top _ _ _ _ _ _ Hf) as (_ & E2 & E4 & _). fold cs in E2, E4. destruct Hc as [->|[[? _]|[? _]]]; [lia| |]; rewrite fresh_cs in *; nia. }
    destruct (fresh_meta c Hc0 Hc) as (Hr & _). pose proof (fr_len _ _ _ _ _ _ Hf) as Hlen. fold cs in Hlen. rewrite fresh_cs. split_and!; [done|rewrite fresh_rc by lia; done| |].
    + intros Hk%fresh_block. apply Z.mul_reg_r in Hk; lia.
    + etransitivity; [|exact Hlen]. apply Z.mul_le_mono_nonneg_r; lia.
Qed.
Lemma fresh_covers : l1_covers q.
Proof.
  destruct fresh_facts as ((_ & ? & _) & ? & _). destruct (fr_geometry _ _ _ _ _ _ Hf) as (_ & _ & E3 & _).
  unfold l1_covers, l2_span, l2_entries. rewrite fresh_cs, E3, (fr_l1 _ _ _ _ _ _ Hf), length_replicate, Z2Nat.id by lia.
  assert (0 < cs / 8 * cs) by (pose proof (Z.div_le_mono 512 cs 8 ltac:(lia) ltac:(lia)) as Hd; change (512 / 8) with 64 in Hd; nia).
  set (span := cs / 8 * cs) in *. assert (div_ceil size span ≤ l1n) by (unfold l1n, l1_entries_for; fold cs; fold span; lia). unfold div_ceil in *.
  pose proof (Z.div_mod (size + span - 1) span ltac:(lia)). pose proof (Z.mod_pos_bound (size + span - 1) span ltac:(lia)). nia.
Qed.
(** The guest sees the backing image. *)
Lemma fresh_guest o : guest_byte q o = backing_byte q o.
Proof.
  assert (guest_source q o = Backing) as Hs; [|unfold guest_byte; by rewrite Hs].
  unfold guest_source. pose proof (fresh_l2h (Z.to_nat (l1_index_of q o))) as Hl. unfold l2h in Hl. by rewrite Hl.
Qed.
Lemma fresh_blockless : blockless q = cs / 8 - 1.
Proof.
  destruct fresh_facts as ((_ & Hcs & Hm) & _). unfold blockless. rewrite (fr_rt _ _ _ _ _ _ Hf). fold cs. unfold new_table. rewrite filter_cons_False.
  - assert (∀ n, filter (λ e, Z.land e OFFSET_MASK = 0) (replicate n 0) = replicate n 0) as ->.
    { intros n. induction n as [|n IH]; [done|]. cbn [replicate]. rewrite filter_cons_True by done. by rewrite IH. }
    rewrite len_replicate. pose proof (Z.div_le_mono 512 cs 8 ltac:(lia) ltac:(lia)) as Hd. change (512 / 8) with 64 in Hd. lia.
  - rewrite land_offset; [lia| |rewrite Z.mul_mod, Hm, Z.mul_0_r by lia; done]. change (2 ^ 56) with 72057594037927936. lia.
Qed.
Lemma fresh_room : (cs / 8 - 1) * (cs / 2 - 1) ≤ room q.
Proof.
  unfold room. rewrite fresh_blockless. assert (refblock_entries q = cs / 2) as ->.
  { destruct (fr_geometry _ _ _ _ _ _ Hf) as (_ & _ & _ & E4 & _). unfold refblock_entries. rewrite E4, fresh_cs. replace (cs * 8) with (8 * cs) by lia. change 16 with (8 * 2). by rewrite Z.div_mul_cancel_l by lia. }
  pose proof (len_nonneg (filter (available q) (seqZ 0 (table_span q)))). lia.
Qed.

Lemma fresh_header_ok : header_ok q.
Proof.
  destruct fresh_facts as ((_ & Hcs & Hm) & Hl1 & _). destruct (fr_geometry _ _ _ _ _ _ Hf) as (_ & G2 & G3 & G4 & G5).
  destruct (fr_header _ _ _ _ _ _ Hf) as [Hh _]. fold cs in Hh. destruct (fr_backing _ _ _ _ _ _ Hf) as [Hbr _].
  destruct (new_header_words cb size l1n (3 * cs) bref ltac:(fold cs; lia) Hb) as ((W1 & W2 & W3 & W4 & W5 & W6 & W7 & W8) & _);
    [unfold is_u32; lia|done|unfold is_u64, U64_MAX in *; lia|unfold is_u64; lia|unfold is_u64; fold cs; lia|].
  constructor; rewrite ?Hh, ?G5, ?G2, ?G4, ?Hbr, ?W1, ?W2, ?W3, ?W4, ?W5, ?W6, ?W7, ?W8; try done.
  - rewrite fresh_cs. apply len_new_header; fold cs; [lia|done].
  - apply bytes_ok_new_header; fold cs; unfold is_u32 in *; done || lia.
  - split; [done|by right].
  - unfold header_length. rewrite G5, Hh. cbn [Z.leb Z.compare Pos.compare Pos.compare_cont]. rewrite W8. apply new_header_backing; fold cs; unfold is_u32; done || lia.
  - rewrite new_header_name by (fold cs; unfold is_u32; done || lia). destruct bref as [[name fmt]|]; [|tauto]. destruct (end_offset_ge 112 fmt). lia.
Qed.
Lemma fresh_meta_ok : meta_ok (is_meta q) q.
Proof.
  destruct fresh_facts as ((Hpow & Hcs & Hm) & Hl1 & Hlc & Hlb). destruct (fr_geometry _ _ _ _ _ _ Hf) as (_ & _ & G3 & _ & _).
  destruct (fr_top _ _ _ _ _ _ Hf) as (T1 & T2 & T3 & T4 & T5 & T6). destruct (fr_header _ _ _ _ _ _ Hf) as [Hh Hhf]. fold cs in T2, T3, Hh, Hhf.
  pose proof (fr_rt_file _ _ _ _ _ _ Hf) as Hrf. pose proof (fr_l1_file _ _ _ _ _ _ Hf) as Hlf. fold cs in Hrf, Hlf. fold l1n in Hlf.
  assert (is_u64 cs ∧ is_u64 (3 * cs)) as [? ?] by (unfold is_u64; lia).
  constructor; rewrite ?T1, ?T2, ?T3, ?T4, ?fresh_cs.
  - exact fresh_header_ok.
  - constructor; rewrite ?G3, ?T1, ?T2, ?T3, ?T4, ?T5, ?T6, ?fresh_cs, ?(fr_l1 _ _ _ _ _ _ Hf), ?(fr_rt _ _ _ _ _ _ Hf).
    + unfold is_u64, U64_MAX in *. lia.
    + split; [done|]. rewrite length_replicate. lia.
    + split; [done|]. apply Z.mod_mul. lia.
    + split; [done|]. apply Z.mod_same. lia.
    + split; [done|]. unfold new_table. cbn [length]. rewrite length_replicate. fold cs. pose proof (Z.div_mod cs 8 ltac:(lia)).
      assert (cs mod 8 = 0); [|lia]. pose proof (Z.div_mod cs 512 ltac:(lia)) as Hd. rewrite Hm in Hd. rewrite Hd, (Z.mul_comm 512), Z.add_0_r.
      change 512 with (64 * 8). rewrite Z.mul_assoc. apply Z.mod_mul. lia.
    + done.
    + split; [apply Forall_replicate; unfold is_u64; lia|]. fold cs. constructor; [unfold is_u64; lia|apply Forall_replicate; unfold is_u64; lia].
  - intros _. split; [done|]. unfold fields_in. rewrite Hh, G3, T1, T2, T3, T4, T5, T6.
    apply (new_header_words cb size l1n (3 * cs) bref); fold cs; unfold is_u32, is_u64, U64_MAX in *; done || lia.
  - intros _. exact Hlf.
  - intros _. replace (cs + 1 * cs) with (2 * cs) by lia. exact Hrf.
  - intros c Hc Hic. destruct (fresh_meta c Hc Hic) as (Hr & _). rewrite fresh_rc by lia. split_and!; try done. rewrite (fr_l2 _ _ _ _ _ _ Hf). apply lookup_empty.
  - intros c Hc. split.
    + intros [Hl Hr]. destruct (fresh_meta c Hc ltac:(by right; left)) as (_ & ? & ?). pose proof (fresh_meta c Hc). naive_solver lia.
    + intros Hor. destruct (fresh_meta c Hc ltac:(by right)) as (_ & ? & ?). destruct Hor; naive_solver lia.
Qed.
End fresh.

(** A new image is a valid one. *)
Lemma create_spec size cb bref bimg :
  9 ≤ cb ≤ 20 → 0 ≤ size ≤ U64_MAX → let cs := 2 ^ cb in let l1n := l1_entries_for size cb in
  is_u32 l1n → 3 + l1_size_as_clusters l1n cs ≤ cs / 2 → backing_fits 112 cs bref →
  (∀ b, bimg = Some b → image_ok b) → (∀ b o, bimg = Some b → is_u8 (content b o)) →
  ∃ q, qcow2_create size cb bref bimg = (q, DOk tt) ∧ write_ok (is_meta q) q ∧ meta_ok (is_meta q) q ∧ l1_covers q ∧
    q_size q = size ∧ cluster_size q = cs ∧ backing q = bref ∧ backing_image q = bimg ∧ (cs / 8 - 1) * (cs / 2 - 1) ≤ room q ∧ (∀ o, guest_byte q o = backing_byte q o).
Proof.
  intros Hcb Hs cs l1n. assert (cs = Z.shiftl 1 cb) as -> by (unfold cs; by rewrite Z.shiftl_1_l). intros Hu Hn Hb Hi Hio.
  destruct (create_run size cb bref bimg Hcb Hu Hn Hb) as (q & Hrun & Hf). exists q. fold l1n in Hf.
  pose proof (fresh_write_ok size cb bref bimg q Hcb Hs Hi Hio Hf). pose proof (fresh_meta_ok size cb bref bimg q Hcb Hs Hu Hn Hb Hf).
  pose proof (fresh_covers size cb bref bimg q Hcb Hf). pose proof (fresh_room size cb bref bimg q Hcb Hf). pose proof (fresh_guest size cb bref bimg q Hf).
  destruct (fr_geometry _ _ _ _ _ _ Hf) as (? & _ & ? & _), (fr_backing _ _ _ _ _ _ Hf). done.
Qed.

(** C39: a new image works. For the cluster sizes and sizes whose L1 table
    one refcount block covers, and a backing reference the header has room
    for, creating, flushing and opening the file all succeed; the image
    opened has the size and the backing reference asked for, is valid, and
    shows the guest the backing image, zeros past its end. *)
Theorem qcow2_create_opens size cb bref bimg :
  9 ≤ cb ≤ 20 → 0 ≤ size ≤ U64_MAX → let cs := 2 ^ cb in let l1n := l1_entries_for size cb in
  is_u32 l1n → 3 + l1_size_as_clusters l1n cs ≤ cs / 2 → backing_fits 112 cs bref →
  (∀ b, bimg = Some b → image_ok b) → (∀ b o, bimg = Some b → is_u8 (content b o)) →
  ∃ q q1 q2, qcow2_create size cb bref bimg = (q, DOk tt) ∧ qcow2_flush q = (q1, DOk tt) ∧ parse (q_file q1) false = DOk q2 ∧
    q_size q2 = size ∧ backing q2 = bref ∧
    let q3 := set_backing_image bimg q2 in
    write_ok (is_meta q) q3 ∧ meta_ok (is_meta q) q3 ∧ l1_covers q3 ∧
    ∀ o, 0 ≤ o → guest_byte q3 o = match bimg with Some b => if o <? Disk.size b then content b o else 0 | None => 0 end.
Proof.
  intros Hcb Hs cs l1n Hu Hn Hb Hi Hio. destruct (create_spec size cb bref bimg Hcb Hs Hu Hn Hb Hi Hio) as (q & Hrun & Hw & Hm & Hc & E1 & E2 & E3 & E4 & _ & Hg).
  destruct (flush_spec _ q Hw Hm) as (q1 & Hfl & Hw1 & Hm1 & Hsv & Hfd). destruct (reopen_spec _ q1 Hw1 Hm1 Hfd) as (Hpa & Hw3 & Hm3 & Hs3 & _).
  exists q, q1, (reopened q1 (q_file q1)). rewrite (sv_backing _ _ _ Hsv), E4 in Hw3, Hm3, Hs3. set (q3 := set_backing_image bimg _) in *.
  split; [done|]. split; [done|]. split; [done|]. split; [change (q_size q1 = size); by rewrite (sv_size _ _ _ Hsv)|].
  split; [change (backing q1 = bref); by rewrite (sv_ref _ _ _ Hsv)|]. split; [done|]. split; [done|].
  assert (l1_covers q1) as Hc1 by (unfold l1_covers, l2_span, l2_entries in *; by rewrite (sv_size _ _ _ Hsv), (sv_l1 _ _ _ Hsv), (sv_cs _ _ _ Hsv)).
  pose proof (same_guest_wrote _ q1 q3 0 Hw1 Hw3 Hs3) as Hn3. split; [exact (wrote_covers _ _ _ _ _ Hn3 Hc1)|].
  intros o Ho. rewrite (wr_guest _ _ _ _ _ Hn3), wrote_nothing, (sv_guest _ _ _ Hsv), Hg by done. unfold backing_byte. by rewrite E4.
Qed.
End create.

(** ** Witnesses: an overlay *)
Section overlay.
#[local] Existing Instance sample_inflate.
#[local] Existing Instance sample_inflate_laws.

(** [b.img], [raw]. *)
Definition overlay_ref : BackingRef := mkBackingRef [98; 46; 105; 109; 103] (Some [114; 97; 119]).
Definition overlay_base : RawImage := raw_open (replicate 1800 44) true.
Definition overlay : Qcow2Image RawImage := (qcow2_create 4000 9 (Some overlay_ref) (Some overlay_base)).1.

Lemma overlay_fits : backing_fits 112 (2 ^ 9) (Some overlay_ref).
Proof. by repeat (split || constructor). Qed.
Lemma overlay_base_ok b : Some overlay_base = Some b → image_ok b.
Proof. intros [= <-]. split; vm_compute; [reflexivity|discriminate]. Qed.
Lemma overlay_base_u8 b o : Some overlay_base = Some b → is_u8 (content b o).
Proof. intros [= <-]. apply (idx_u8 (replicate 1800 44)). apply Forall_replicate. unfold is_u8. lia. Qed.
Lemma overlay_ok : write_ok (is_meta overlay) overlay ∧ meta_ok (is_meta overlay) overlay ∧ l1_covers overlay ∧ q_size overlay = 4000 ∧
  cluster_size overlay = 512 ∧ 16065 ≤ room overlay ∧ ∀ o, guest_byte overlay o = backing_byte overlay o.
Proof.
  destruct (create_spec 4000 9 (Some overlay_ref) (Some overlay_base)) as (q & Hrun & Hw & Hm & Hc & Hs & Hcs & _ & _ & Hr & Hg);
    [lia|unfold U64_MAX; lia|by vm_compute|by vm_compute|apply overlay_fits|apply overlay_base_ok|apply overlay_base_u8|].
  unfold overlay. rewrite Hrun. cbn [fst]. split_and!; try done.
Qed.
#[local] Opaque overlay.

Lemma qcow2_create_opens_witness :
  ∃ q q1 q2, qcow2_create 4000 9 (Some overlay_ref) (Some overlay_base) = (q, DOk tt) ∧ qcow2_flush q = (q1, DOk tt) ∧
    parse (q_file q1) false = DOk q2 ∧ backing q2 = Some overlay_ref ∧
    guest_byte (set_backing_image (Some overlay_base) q2) 1799 = 44 ∧ guest_byte (set_backing_image (Some overlay_base) q2) 1800 = 0.
Proof.
  destruct (qcow2_create_opens 4000 9 (Some overlay_ref) (Some overlay_base)) as (q & q1 & q2 & Hrun & Hfl & Hpa & _ & Hbk & _ & _ & _ & Hg);
    [lia|unfold U64_MAX; lia|by vm_compute|by vm_compute|apply overlay_fits|apply overlay_base_ok|apply overlay_base_u8|].
  exists q, q1, q2. split_and!; [exact Hrun|exact Hfl|exact Hpa|exact Hbk| |]; rewrite Hg by lia; vm_compute; reflexivity.
Defined.

(** A write over three clusters of the overlay, flushed and opened again. *)
Lemma qcow2_write_durable_witness :
  ∃ q1 q2 q3, qcow2_write_at 500 (replicate 600 7) overlay = (q1, DOk tt) ∧ qcow2_flush q1 = (q2, DOk tt) ∧ parse (q_file q2) false = DOk q3 ∧
    let q4 := set_backing_image (backing_image q2) q3 in
    (∃ q5, qcow2_read_at 500 600 q4 = (q5, DOk (replicate 600 7))) ∧ guest_byte q4 499 = 44 ∧ guest_byte q4 1100 = 44.
Proof.
  destruct overlay_ok as (Hw & Hm & Hc & Hs & Hcs & Hr & Hg).
  destruct (qcow2_write_durable (is_meta overlay) overlay 500 (replicate 600 7) Hw Hm Hc ltac:(lia)) as (q1 & q2 & q3 & Hwr & Hfl & Hpa & _ & _ & _ & Hrd & Hgu & _).
  { rewrite Hs. vm_compute. discriminate. }
  { apply Forall_replicate. unfold is_u8. lia. }
  { etransitivity; [|exact Hr]. unfold touched. rewrite Hcs. vm_compute. discriminate. }
  exists q1, q2, q3. cbv zeta. change (len (replicate 600 7)) with 600 in Hrd, Hgu.
  split_and!; [exact Hwr|exact Hfl|exact Hpa|exact Hrd|rewrite (Hgu 499) by lia|rewrite (Hgu 1100) by lia].
  - change ((500 <=? 499) && _) with false. cbv iota. rewrite Hg. vm_compute. reflexivity.
  - change ((500 <=? 1100) && (1100 <? 500 + 600)) with false. cbv iota. rewrite Hg. vm_compute. reflexivity.
Defined.

(** ** Where [create] goes wrong

    One refcount block is placed; when the L1 table reaches past what it
    covers, the next block is placed at the first cluster of its own range,
    which is the L1 table's. *)
Lemma create_block_in_l1 :
  let r : Qcow2Image RawImage * dres unit := qcow2_create 536870912 9 None None in
  r.2 = DOk tt ∧ rt_host r.1 1 = 256 * 512 ∧ l1_region r.1 256.
Proof. vm_compute. split_and!; try done; intros [=]. Qed.

(** A backing name of 1024 bytes is recorded, and then refused. *)
Lemma create_name_refused :
  let r : Qcow2Image RawImage * dres unit := qcow2_create 65536 12 (Some (mkBackingRef (replicate 1024 97) None)) None in
  r.2 = DOk tt ∧ @parse RawImage (q_file (qcow2_flush r.1).1) false = DErr Format.
Proof. vm_compute. done. Qed.
End overlay.
