(* ===== verification/Qcow2Snapshot.v ===== *)
(** * qcow2 images: snapshots ([hv/crates/vmlab-disk/src/qcow2/snapshot.rs])

    The snapshot table and its entries on disk, the walk that counts what an
    L1 table references, and the operations on snapshots. The clock is an
    argument. *)

From S2P Require Import Prelude TableCache Disk Qcow2 Qcow2Alloc Qcow2Write Qcow2Open.

(** ** Entries of the snapshot table *)

Record SnapshotEntry := mkSnapshotEntry {
  s_l1_table_offset : Z;
  s_l1_size : Z;
  s_id : bytes;
  s_name : bytes;
  s_date_sec : Z;
  s_date_nsec : Z;
  s_vm_clock_nsec : Z;
  s_vm_state_size : Z;
  s_vm_state_size_large : option Z;
  s_disk_size : option Z }.

Record SnapshotInfo := mkSnapshotInfo {
  i_id : bytes;
  i_name : bytes;
  i_vm_state_size : Z;
  i_date_sec : Z;
  i_date_nsec : Z;
  i_vm_clock_nsec : Z }.

Definition effective_vm_state_size (e : SnapshotEntry) : Z := default (s_vm_state_size e) (s_vm_state_size_large e).
Definition snapshot_info (e : SnapshotEntry) : SnapshotInfo :=
  mkSnapshotInfo (s_id e) (s_name e) (effective_vm_state_size e) (s_date_sec e) (s_date_nsec e) (s_vm_clock_nsec e).

Definition padded_size (e : SnapshotEntry) : Z := div_ceil (40 + 24 + len (s_id e) + len (s_name e)) 8 * 8.

(** The fields of an entry, then zeros up to a multiple of eight. *)
Definition entry_fields (e : SnapshotEntry) : bytes :=
  u64_be (s_l1_table_offset e) ++ be32 (s_l1_size e) ++ be16 (wrap16 (len (s_id e))) ++ be16 (wrap16 (len (s_name e))) ++
  be32 (s_date_sec e) ++ be32 (s_date_nsec e) ++ u64_be (s_vm_clock_nsec e) ++ be32 (s_vm_state_size e) ++ be32 24 ++
  u64_be (effective_vm_state_size e) ++ u64_be (default 0 (s_disk_size e)) ++ u64_be 0 ++ s_id e ++ s_name e.
Definition serialize (e : SnapshotEntry) : bytes :=
  entry_fields e ++ replicate (Z.to_nat ((8 - len (entry_fields e) mod 8) mod 8)) 0.

(** ** Reading the table *)

(** [n] entries from [off] on. *)
Fixpoint parse_entries (n : nat) (f : bytes) (off : Z) : dres (list SnapshotEntry) :=
  match n with
  | O => DOk []
  | S n =>
      fixed ← read_exact_at f off 40;
      let id_len := of_be64 (slice fixed 12 14) in
      let name_len := of_be64 (slice fixed 14 16) in
      let extra := of_be64 (slice fixed 36 40) in
      extra_buf ← read_exact_at f (off + 40) extra;
      ids ← read_exact_at f (off + 40 + extra) (id_len + name_len);
      let e := mkSnapshotEntry (of_be64 (slice fixed 0 8)) (of_be64 (slice fixed 8 12))
        (from_utf8_lossy (slice ids 0 id_len)) (from_utf8_lossy (slice ids id_len (id_len + name_len)))
        (of_be64 (slice fixed 16 20)) (of_be64 (slice fixed 20 24)) (of_be64 (slice fixed 24 32)) (of_be64 (slice fixed 32 36))
        (if 8 <=? extra then Some (of_be64 (slice extra_buf 0 8)) else None)
        (if 16 <=? extra then Some (of_be64 (slice extra_buf 8 16)) else None) in
      es ← parse_entries n f (off + div_ceil (40 + extra + id_len + name_len) 8 * 8);
      DOk (e :: es)
  end.

(** ** Identifiers *)

(** [str::parse::<u64>]: an optional plus sign and decimal digits, in range. *)
Fixpoint parse_digits (acc : Z) (b : bytes) : option Z :=
  match b with
  | [] => Some acc
  | d :: b =>
      if (48 <=? d) && (d <=? 57) then
        let acc := acc * 10 + (d - 48) in
        if U64_MAX <? acc then None else parse_digits acc b
      else None
  end.
Definition parse_u64 (b : bytes) : option Z :=
  match b with
  | [] => None
  | 43 :: [] => None
  | 43 :: b => parse_digits 0 b
  | _ => parse_digits 0 b
  end.
(** [to_string]: twenty digits hold every u64. *)
Fixpoint digits (fuel : nat) (n : Z) (acc : bytes) : bytes :=
  match fuel with
  | O => acc
  | S fuel => let acc := (48 + n mod 10) :: acc in if n / 10 =? 0 then acc else digits fuel (n / 10) acc
  end.
Definition u64_to_string (n : Z) : bytes := digits 20 n [].

(** One more than the largest numeric id. *)
Definition next_snapshot_id (entries : list SnapshotEntry) : outcome bytes :=
  let max := foldr Z.max 0 (omap (parse_u64 ∘ s_id) entries) in
  if U64_MAX <? max + 1 then Panic else Ret (u64_to_string (max + 1)).

Section snapshot.
Context {B : Type} `{DiskImage B} `{Inflate}.
Abbreviation img := (Qcow2Image B).

(** [parse_table]: the file is read through a handle of its own. *)
Definition parse_table : dstate img (list SnapshotEntry) :=
  q ← dgets id;
  if nb_snapshots q =? 0 then mret []
  else dpure (parse_entries (Z.to_nat (nb_snapshots q)) (q_file q) (snapshots_offset q)).
Definition list_snapshots : dstate img (list SnapshotInfo) := es ← parse_table; mret (snapshot_info <$> es).

Definition entry_named (name : bytes) (e : SnapshotEntry) : bool := bool_decide (s_name e = name) || bool_decide (s_id e = name).
(** The raw words of a snapshot's L1 table. *)
Definition read_snapshot_l1 (e : SnapshotEntry) : dstate img (list Z) :=
  b ← read_file (s_l1_table_offset e) (s_l1_size e * 8);
  mret (word b <$> seqZ 0 (len b / 8)).
Definition find_snapshot (name : bytes) : dstate img SnapshotEntry :=
  es ← parse_table;
  match list_find (λ e, entry_named name e = true) es with
  | None => dfail SnapshotNotFound
  | Some (_, e) => mret e
  end.
Definition load_snapshot_l1 (name : bytes) : dstate img (SnapshotInfo * list Z * option Z) :=
  e ← find_snapshot name;
  l1 ← read_snapshot_l1 e;
  mret (snapshot_info e, l1, s_disk_size e).
(** [install_snapshot_view]. *)
Definition install_snapshot_view (name : bytes) : dstate img SnapshotInfo :=
  '(info, l1, disk_size) ← load_snapshot_l1 name;
  _ ← dmodify (λ q, set_l1_size (wrap32 (Z.of_nat (length l1))) (set_l1 l1 q));
  _ ← match disk_size with Some n => dmodify (set_size n) | None => mret tt end;
  mret info.

(** ** Refcounts of what an L1 table references *)

(** The words of an L2 table, through the cache. *)
Definition table_words (l2_host : Z) : dstate img (list Z) :=
  _ ← load_l2 l2_host;
  t ← cached_table l2_host;
  mret (word t <$> seqZ 0 (len t / 8)).
Definition walk_entry (delta entry : Z) : dstate img unit :=
  if negb (Z.land entry COMPRESSED_BIT =? 0) then adjust_compressed_refcounts entry delta
  else
    let host := Z.land entry OFFSET_MASK in
    q ← dgets id;
    if negb (host =? 0) then adjust_one (host / cluster_size q) delta else mret tt.
Definition walk_table (delta l1e : Z) : dstate img unit :=
  let l2_host := Z.land l1e OFFSET_MASK in
  if l2_host =? 0 then mret tt
  else
    q ← dgets id;
    _ ← adjust_one (l2_host / cluster_size q) delta;
    entries ← table_words l2_host;
    dfor entries (walk_entry delta).
Definition walk_refcounts (l1 : list Z) (delta : Z) : dstate img unit := dfor l1 (walk_table delta).

(** ** Copied bits *)

(** The copied bit an entry should have: its cluster has one reference. *)
Definition wanted_bit (host : Z) : dstate img Z :=
  q ← dgets id;
  rc ← get_refcount (host / cluster_size q);
  mret (if rc =? 1 then COPIED_BIT else 0).
(** [(entry & !COPIED_BIT) | want]. *)
Definition with_copied (entry want : Z) : Z := Z.lor (Z.land entry (Z.lxor U64_MAX COPIED_BIT)) want.

Definition rewrite_entry (l2_host : Z) (ie : Z * Z) : dstate img unit :=
  let '(l2_index, entry) := ie in
  if negb (Z.land entry COMPRESSED_BIT =? 0) then mret tt
  else
    let host := Z.land entry OFFSET_MASK in
    if host =? 0 then mret tt
    else
      want ← wanted_bit host;
      if negb (Z.land entry COPIED_BIT =? want) then set_l2_entry l2_host l2_index (with_copied entry want) else mret tt.
Definition rewrite_table (l1_index : nat) : dstate img unit :=
  q ← dgets id;
  match l1 q !! l1_index with
  | None => dpure DPanic
  | Some e =>
      let l2_host := Z.land e OFFSET_MASK in
      if l2_host =? 0 then mret tt
      else
        want ← wanted_bit l2_host;
        _ ← (if negb (Z.land e COPIED_BIT =? want)
             then dmodify (λ q, set_l1_dirty true (set_l1 (<[l1_index := with_copied e want]> (l1 q)) q)) else mret tt);
        entries ← table_words l2_host;
        dfor (zip (seqZ 0 (Z.of_nat (length entries))) entries) (rewrite_entry l2_host)
  end.
Definition rewrite_active_copied_bits : dstate img unit :=
  q ← dgets id; dfor (seq 0 (length (l1 q))) rewrite_table.

(** ** Taking the vmstate out of the active layer *)

Definition punch_entry (active_l2 l2_index : Z) : dstate img unit :=
  entry ← Qcow2.l2_entry active_l2 l2_index;
  if entry =? 0 then mret tt
  else
    _ ← (if negb (Z.land entry COMPRESSED_BIT =? 0) then adjust_compressed_refcounts entry (-1)
         else
           let host := Z.land entry OFFSET_MASK in
           q ← dgets id;
           if negb (host =? 0) then dec_refcount (host / cluster_size q) else mret tt);
    set_l2_entry active_l2 l2_index ZERO_BIT.
Definition punch_table (base end_ : Z) (l1_index : Z) : dstate img unit :=
  q ← dgets id;
  match l1 q !! Z.to_nat l1_index with
  | None => dpure DPanic
  | Some e =>
      let cs := cluster_size q in
      let l2_host := Z.land e OFFSET_MASK in
      if l2_host =? 0 then mret tt
      else
        rc ← get_refcount (l2_host / cs);
        active_l2 ← (if 1 <? rc then
             content ← read_cluster_via_cache l2_host;
             new_l2 ← alloc_cluster;
             _ ← write_file new_l2 content;
             _ ← set_refcount (new_l2 / cs) 1;
             _ ← dec_refcount (l2_host / cs);
             _ ← dmodify (λ q, set_l1_dirty true (set_l1 (<[Z.to_nat l1_index := Z.lor new_l2 COPIED_BIT]> (l1 q)) q));
             mret new_l2
           else mret l2_host);
        let l2e := l2_entries q in
        let entry_start := l1_index * l2e * cs in
        let idx_start := if entry_start <? base then (base - entry_start) / cs else 0 in
        let idx_end := Z.min ((end_ - entry_start) / cs) l2e in
        dfor (seqZ idx_start (idx_end - idx_start)) (punch_entry active_l2)
  end.
(** [first_l1..=last_l1.min(len - 1)]. *)
Definition punch_vmstate (vm_state_size : Z) : dstate img unit :=
  q ← dgets id;
  let base := vmstate_base q in
  let end_ := base + vm_state_size in
  let first_l1 := l1_index_of q base in
  let last_l1 := Z.min (l1_index_of q (end_ - 1)) (Z.max (Z.of_nat (length (l1 q)) - 1) 0) in
  dfor (seqZ first_l1 (last_l1 - first_l1 + 1)) (punch_table base end_).

(** ** The table on disk *)

Definition l1_bytes_clusters (q : img) (entries : Z) : Z := Z.max (div_ceil (entries * 8) (cluster_size q)) 1.
Definition old_snapshot_table_clusters : dstate img Z :=
  es ← parse_table;
  q ← dgets id;
  mret (Z.max (div_ceil (foldr Z.add 0 (padded_size <$> es)) (cluster_size q)) 1).
(** A region of fresh clusters with [b] and zeros in it. *)
Definition resize_zero (b : bytes) (n : Z) : bytes := take (Z.to_nat n) (b ++ replicate (Z.to_nat (n - len b)) 0).
Definition write_region (clusters : Z) (b : bytes) : dstate img Z :=
  q ← dgets id;
  let cs := cluster_size q in
  off ← alloc_clusters_contiguous ALLOC_FUEL clusters;
  _ ← write_file off (resize_zero b (clusters * cs));
  _ ← dfor (seqZ 0 clusters) (λ idx, set_refcount (off / cs + idx) 1);
  mret off.
Definition free_region (off clusters : Z) : dstate img unit :=
  q ← dgets id;
  let cs := cluster_size q in
  dfor (seqZ 0 clusters) (λ idx, dec_refcount (off / cs + idx)).

Definition rewrite_snapshot_table (entries : list SnapshotEntry) : dstate img unit :=
  q ← dgets id;
  let cs := cluster_size q in
  let old_offset := snapshots_offset q in
  old_clusters ← (if negb (old_offset =? 0) then n ← old_snapshot_table_clusters; mret (Some n) else mret None);
  let free_old := match old_clusters with Some n => free_region old_offset n | None => mret tt end in
  let b := entries ≫= serialize in
  if len b =? 0 then
    _ ← dmodify (λ q, set_header_dirty true (set_snapshots_offset 0 (set_nb_snapshots 0 q)));
    free_old
  else
    let clusters := div_ceil (len b) cs in
    new_offset ← write_region clusters b;
    _ ← free_old;
    dmodify (λ q, set_header_dirty true (set_snapshots_offset new_offset (set_nb_snapshots (wrap32 (Z.of_nat (length entries))) q))).

(** ** Operations *)

(** The words of the snapshot's L1 table, their copied bits from the
    refcounts. *)
Fixpoint snapshot_l1 (l1 : list Z) : dstate img (list Z) :=
  match l1 with
  | [] => mret []
  | e :: l1 =>
      let l2_host := Z.land e OFFSET_MASK in
      e ← (if l2_host =? 0 then mret e else want ← wanted_bit l2_host; mret (with_copied e want));
      l1 ← snapshot_l1 l1;
      mret (e :: l1)
  end.

(** [snapshot_create_impl]; [now] is the time as seconds and nanoseconds. *)
Definition snapshot_create (now : Z * Z) (name : bytes) (vm_state_size vm_clock_nsec : Z) : dstate img unit :=
  _ ← check_writable;
  if (len name =? 0) || (1023 <? len name) then dfail Unsupported
  else
    entries ← parse_table;
    if existsb (λ e, bool_decide (s_name e = name)) entries then dfail Unsupported
    else
      sid ← dpure (of_outcome (next_snapshot_id entries));
      q ← dgets id;
      _ ← (if 0 <? vm_state_size then
             if U64_MAX <? vmstate_base q + vm_state_size then dpure DPanic
             else ensure_l1_covers (vmstate_base q + vm_state_size)
           else mret tt);
      snap_l1_pre ← dgets l1;
      _ ← walk_refcounts snap_l1_pre 1;
      _ ← (if 0 <? vm_state_size then punch_vmstate vm_state_size else mret tt);
      _ ← rewrite_active_copied_bits;
      snap_l1 ← snapshot_l1 snap_l1_pre;
      q ← dgets id;
      let n := wrap32 (Z.of_nat (length snap_l1)) in
      snap_offset ← write_region (l1_bytes_clusters q n) (table_bytes snap_l1);
      q ← dgets id;
      _ ← rewrite_snapshot_table (entries ++ [mkSnapshotEntry snap_offset n sid name (wrap32 now.1) now.2 vm_clock_nsec
            (Z.min vm_state_size (2 ^ 32 - 1)) (Some vm_state_size) (Some (q_size q))]);
      flush_metadata.

(** [snapshot_apply_impl]. *)
Definition snapshot_apply (name : bytes) : dstate img SnapshotInfo :=
  _ ← check_writable;
  e ← find_snapshot name;
  snap_l1 ← read_snapshot_l1 e;
  _ ← walk_refcounts snap_l1 1;
  old_active ← dgets l1;
  _ ← walk_refcounts old_active (-1);
  _ ← ensure_l1_size (s_l1_size e);
  _ ← dmodify (λ q, set_l1_size (s_l1_size e) (set_l1 snap_l1 q));
  _ ← match s_disk_size e with Some n => dmodify (set_size n) | None => mret tt end;
  _ ← dmodify (λ q, set_l1_dirty true (set_header_dirty true q));
  _ ← rewrite_active_copied_bits;
  _ ← flush_metadata;
  mret (snapshot_info e).

(** [snapshot_delete_impl]. *)
Definition snapshot_delete (name : bytes) : dstate img unit :=
  _ ← check_writable;
  entries ← parse_table;
  match list_find (λ e, entry_named name e = true) entries with
  | None => dfail SnapshotNotFound
  | Some (pos, e) =>
      snap_l1 ← read_snapshot_l1 e;
      _ ← walk_refcounts snap_l1 (-1);
      q ← dgets id;
      _ ← free_region (s_l1_table_offset e) (l1_bytes_clusters q (s_l1_size e));
      _ ← rewrite_snapshot_table (delete pos entries);
      _ ← rewrite_active_copied_bits;
      flush_metadata
  end.
End snapshot.
