(* ===== verification/Qcow2Walk.v ===== *)
(** * qcow2 images: counting what an L1 table references

    [walk_refcounts] moves the refcount of every table and every cluster an
    L1 table reaches, and nothing else. *)

From S2P Require Import Prelude TableCache Disk Qcow2 Qcow2Alloc Qcow2Read Qcow2Phys Qcow2Steps Qcow2Free Qcow2Write Qcow2Guest Qcow2Correct Qcow2Open Qcow2Snapshot.

Definition cnt (xs : list Z) (x : Z) : Z := Z.of_nat (count_occ Z.eq_dec xs x).
Lemma cnt_app xs ys x : cnt (xs ++ ys) x = cnt xs x + cnt ys x.
Proof. unfold cnt. rewrite count_occ_app. lia. Qed.
Lemma cnt_nonneg xs x : 0 ≤ cnt xs x.
Proof. unfold cnt. lia. Qed.
Lemma cnt_single y x : cnt [y] x = if x =? y then 1 else 0.
Proof. unfold cnt. cbn [count_occ]. destruct (Z.eq_dec y x) as [->|]; [by rewrite Z.eqb_refl|]. by rewrite (proj2 (Z.eqb_neq _ _)). Qed.
Lemma cnt_elem xs x : x ∈ xs ↔ 0 < cnt xs x.
Proof. unfold cnt. rewrite list_elem_of_In, (count_occ_In Z.eq_dec). lia. Qed.
Lemma cnt_nodup xs x : NoDup xs → cnt xs x ≤ 1.
Proof. rewrite NoDup_ListNoDup, (NoDup_count_occ Z.eq_dec). intros H. specialize (H x). unfold cnt. lia. Qed.

Section walk.
Context {B : Type} `{HB : DiskContents B} `{HI : InflateLaws}.
Implicit Types q : Qcow2Image B.

(** ** References recounted *)

Record recounted (δ : Z) (xs : list Z) (K : Z → Prop) q q' : Prop := mkMoved {
  mv_ok : alloc_ok q';
  mv_keeps : keeps nowhere K q q';
  mv_rc x : 0 ≤ x → rc q' x = rc q x + δ * cnt xs x;
  mv_rt : refcount_table q' = refcount_table q;
  mv_l1 : l1 q' = l1 q;
  mv_backing : backing_image q' = backing_image q;
  mv_room : room q ≤ room q' }.

Lemma moved_nil δ K q : alloc_ok q → recounted δ [] K q q.
Proof. intros Ha. constructor; try done; [apply keeps_refl|]. intros x _. unfold cnt. simpl. lia. Qed.
Lemma moved_trans δ xs ys K L q1 q2 q3 : phys q1 → recounted δ xs K q1 q2 → recounted δ ys L q2 q3 → recounted δ (xs ++ ys) (λ k, K k ∨ L k) q1 q3.
Proof.
  intros Hp [A1 A2 A3 A4 A5 A6 A7] [B1 B2 B3 B4 B5 B6 B7]. constructor; try done; try congruence; try lia.
  - eapply keeps_weaken; [| |exact (keeps_trans _ _ _ _ _ _ _ Hp A2 B2)]; [by intros c [[]|[]]|done].
  - intros x Hx. rewrite B3, A3, cnt_app by done. lia.
Qed.
Lemma moved_weaken δ xs (K L : Z → Prop) q q' : (∀ k, K k → L k) → recounted δ xs K q q' → recounted δ xs L q q'.
Proof. intros HKL [A1 A2 A3 A4 A5 A6 A7]. constructor; try done. by eapply keeps_weaken. Qed.
Lemma counted_moved δ c q q' : counted c (rc q c + δ) q q' → recounted δ [c] nowhere q q'.
Proof.
  intros [P1 P2 P3 P4 P5 P6 P7 P8]. constructor; try done. intros x Hx. rewrite P3, cnt_single by done. destruct (Z.eqb_spec x c) as [->|]; lia.
Qed.

Definition can_move (δ : Z) (xs : list Z) q : Prop := ∀ x, x ∈ xs → 0 ≤ x ∧
  (δ = 1 ∧ 1 ≤ rc q x ∧ refcount_bits q < 64 ∧ rc q x + cnt xs x < 2 ^ refcount_bits q ∨
   δ = -1 ∧ cnt xs x ≤ rc q x ∧ (rc q x = cnt xs x → x ≠ 0 ∧ ¬ is_block q (x * cluster_size q))).

Lemma moved_block δ xs K q q' k : recounted δ xs K q q' → is_block q' k ↔ is_block q k.
Proof. intros Hm. unfold is_block, rt_host. by rewrite (mv_rt _ _ _ _ _ Hm). Qed.
Lemma can_move_l δ xs ys q : can_move δ (xs ++ ys) q → can_move δ xs q.
Proof.
  intros Hc x Hx. destruct (Hc x ltac:(apply elem_of_app; by left)) as [Hx0 Hor]. split; [done|]. rewrite cnt_app in Hor. pose proof (cnt_nonneg ys x).
  destruct Hor as [(? & ? & ? & ?)|(? & ? & Hf)]; [left; split_and!; try done; lia|right; split_and!; try done; [lia|]]. intros Heq. apply Hf. lia.
Qed.
Lemma can_move_r δ xs ys K q q' : can_move δ (xs ++ ys) q → recounted δ xs K q q' → can_move δ ys q'.
Proof.
  intros Hc Hm x Hx. destruct (Hc x ltac:(apply elem_of_app; by right)) as [Hx0 Hor]. split; [done|]. rewrite cnt_app in Hor. pose proof (cnt_nonneg xs x).
  rewrite (mv_rc _ _ _ _ _ Hm), (ke_width _ _ _ _ (mv_keeps _ _ _ _ _ Hm)), (ke_cs _ _ _ _ (mv_keeps _ _ _ _ _ Hm)), (moved_block _ _ _ _ _ _ Hm) by done.
  destruct Hor as [(-> & ? & ? & ?)|(-> & ? & Hf)]; [left; split_and!; try done; lia|right; split_and!; try done; [lia|]]. intros Heq. apply Hf. lia.
Qed.

Lemma adjust_moved δ c q : alloc_ok q → can_move δ [c] q → ∃ q', adjust_one c δ q = (q', DOk tt) ∧ recounted δ [c] nowhere q q'.
Proof.
  intros Ha Hc. destruct (Hc c ltac:(by apply list_elem_of_singleton)) as [Hc0 Hor]. rewrite cnt_single, Z.eqb_refl in Hor. unfold adjust_one.
  destruct Hor as [(-> & ? & ? & ?)|(-> & ? & Hf)]; cbn [Z.leb Z.compare].
  - destruct (inc_refcount_counted q c Ha Hc0) as (q' & Hrun & Hco); try done. exists q'. split; [done|by apply counted_moved].
  - destruct (dec_refcount_counted q c Ha Hc0) as (q' & Hrun & Hco); try done. exists q'. split; [done|]. by apply counted_moved.
Qed.

(** ** Tables *)

Definition words q (k : Z) : list Z := word (l2_table q k) <$> seqZ 0 (l2_entries q).
Lemma table_words_spec q k : phys q → table_at q k → ¬ is_block q k → ∃ q', table_words k q = (q', DOk (words q k)) ∧ tstep k (l2_table q) q q'.
Proof.
  intros Hp Hat Hnb. destruct (load_l2_phys q k Hp Hat Hnb) as (q1 & d & Hld & Ht1 & Hk1).
  destruct (cached_table_phys q1 k _ d (ts_phys _ _ _ _ Ht1) Hk1) as (q2 & Hcd & Ht2). destruct (l2_shape q k Hp Hat) as [Hl _].
  exists q2. split.
  - unfold table_words. rewrite (dbind_ok _ _ _ _ _ Hld), (dbind_ok _ _ _ _ _ Hcd), Hl. done.
  - eapply tstep_trans; [exact Ht1|]. destruct Ht2 as [H1 H2 H3 H4 H5 H6 H7 H8 H9 H10 H11 H12 H13 H14 H15]. constructor; try done.
    intros j. by rewrite H3, (ts_tables _ _ _ _ Ht1).
Qed.

(** The clusters that words name, and those an L1 word does. *)
Definition data_refs (cs : Z) (ws : list Z) : list Z :=
  ws ≫= λ e, let d := Z.land e OFFSET_MASK in if d =? 0 then [] else [d / cs].
Definition refs q (e : Z) : list Z :=
  let h := Z.land e OFFSET_MASK in if h =? 0 then [] else h / cluster_size q :: data_refs (cluster_size q) (words q h).
Definition plain (ws : list Z) : Prop := Forall (λ e, Z.land e COMPRESSED_BIT = 0) ws.

Lemma walk_words δ ws q :
  alloc_ok q → plain ws → can_move δ (data_refs (cluster_size q) ws) q →
  ∃ q', dfor ws (walk_entry δ) q = (q', DOk tt) ∧ recounted δ (data_refs (cluster_size q) ws) nowhere q q'.
Proof.
  revert q. induction ws as [|e ws IH]; intros q Ha Hpl Hc.
  { exists q. split; [done|]. by apply moved_nil. }
  apply Forall_cons in Hpl as [He Hpl]. unfold data_refs in Hc. cbn [mbind list_bind] in Hc. fold (data_refs (cluster_size q) ws) in Hc.
  set (d := Z.land e OFFSET_MASK) in *. set (xs := if d =? 0 then [] else [d / cluster_size q]) in *.
  assert (∃ q1, walk_entry δ e q = (q1, DOk tt) ∧ recounted δ xs nowhere q q1) as (q1 & Hrun1 & Hm1).
  { unfold walk_entry. rewrite He. cbn [Z.eqb negb]. rewrite (dbind_ok _ _ q q q) by done. fold d. unfold id, xs. destruct (Z.eqb_spec d 0) as [Hd|Hd]; cbn [negb].
    - exists q. split; [done|]. by apply moved_nil.
    - apply adjust_moved; [done|]. exact (can_move_l _ _ _ _ Hc). }
  pose proof (can_move_r _ _ _ _ _ _ Hc Hm1) as Hc1. pose proof (ke_cs _ _ _ _ (mv_keeps _ _ _ _ _ Hm1)) as Hcs.
  destruct (IH q1 (mv_ok _ _ _ _ _ Hm1) Hpl) as (q' & Hrun & Hm); [by rewrite Hcs|]. exists q'. cbn [dfor]. rewrite (dbind_ok _ _ _ _ _ Hrun1). split; [done|].
  rewrite Hcs in Hm. eapply moved_weaken; [|exact (moved_trans _ _ _ _ _ _ _ _ (ao_phys _ Ha) Hm1 Hm)]. by intros k [[]|[]].
Qed.

(** A table that can be walked. *)
Definition walkable q (k : Z) : Prop := table_at q k ∧ ¬ is_block q k ∧ plain (words q k).

Lemma moved_table δ xs K q q' k : phys q → recounted δ xs K q q' → table_at q k → ¬ is_block q k → l2_table q' k = l2_table q k ∧ table_at q' k.
Proof.
  intros Hp Hm (Hk0 & Hkm & Hkl) Hnb. pose proof (mv_keeps _ _ _ _ _ Hm) as Hk. pose proof (phys_cs q Hp). pose proof (aligned_cluster q k Hp Hkm) as Hal.
  pose proof (ke_tables _ _ _ _ Hk (k / cluster_size q)) as Ht. rewrite Hal in Ht. split.
  - apply Ht; [apply Z.div_pos; lia|by intros []|done|]. rewrite Z.mul_add_distr_r, Hal. lia.
  - unfold table_at. rewrite (ke_cs _ _ _ _ Hk). pose proof (ke_len _ _ _ _ Hk). split_and!; [done|done|lia].
Qed.
Lemma moved_words δ xs K q q' k : phys q → recounted δ xs K q q' → table_at q k → ¬ is_block q k → words q' k = words q k.
Proof. intros Hp Hm Ht Hb. unfold words, l2_entries. by rewrite (proj1 (moved_table _ _ _ _ _ _ Hp Hm Ht Hb)), (ke_cs _ _ _ _ (mv_keeps _ _ _ _ _ Hm)). Qed.

Lemma tstep_moved δ k q q' : alloc_ok q → tstep k (l2_table q) q q' → recounted δ [] (λ j, j = k) q q'.
Proof.
  intros Ha Ht. constructor; try apply Ht.
  - by eapply tstep_alloc_ok.
  - by apply (tstep_keeps _ (l2_table q)); [apply Ha| |].
  - intros x Hx. rewrite (ts_rc _ _ _ _ Ht) by done. unfold cnt. simpl. lia.
  - by eapply tstep_room.
Qed.
Lemma walk_table_spec δ e q :
  alloc_ok q → (Z.land e OFFSET_MASK ≠ 0 → walkable q (Z.land e OFFSET_MASK)) → can_move δ (refs q e) q →
  ∃ q', walk_table δ e q = (q', DOk tt) ∧ recounted δ (refs q e) (λ k, k = Z.land e OFFSET_MASK ∧ k ≠ 0) q q'.
Proof.
  intros Ha Hwk Hc. unfold walk_table, refs in *. set (h := Z.land e OFFSET_MASK) in *. destruct (Z.eqb_spec h 0) as [Hz|Hz].
  { exists q. split; [done|]. by apply moved_nil. }
  destruct (Hwk Hz) as (Hat & Hnb & Hpl). pose proof (ao_phys _ Ha) as Hp. rewrite (dbind_ok _ _ q q q) by done. unfold id.
  change (h / cluster_size q :: data_refs (cluster_size q) (words q h)) with ([h / cluster_size q] ++ data_refs (cluster_size q) (words q h)) in *.
  destruct (adjust_moved δ (h / cluster_size q) q Ha (can_move_l _ _ _ _ Hc)) as (q1 & Hrun1 & Hm1). rewrite (dbind_ok _ _ _ _ _ Hrun1).
  pose proof (can_move_r _ _ _ _ _ _ Hc Hm1) as Hc1. pose proof (ke_cs _ _ _ _ (mv_keeps _ _ _ _ _ Hm1)) as Hcs1.
  destruct (moved_table _ _ _ _ _ h Hp Hm1 Hat Hnb) as [_ Hat1]. pose proof (moved_words _ _ _ _ _ h Hp Hm1 Hat Hnb) as Hw1.
  destruct (table_words_spec q1 h (ao_phys _ (mv_ok _ _ _ _ _ Hm1)) Hat1) as (q2 & Hrun2 & Ht2); [by rewrite (moved_block _ _ _ _ _ _ Hm1)|].
  rewrite (dbind_ok _ _ _ _ _ Hrun2). pose proof (tstep_moved δ h q1 q2 (mv_ok _ _ _ _ _ Hm1) Ht2) as Hm2. rewrite Hw1 in *.
  pose proof (can_move_r δ [] _ _ _ _ Hc1 Hm2) as Hc2. assert (cluster_size q2 = cluster_size q) as Hcs2 by (by rewrite (ts_cs _ _ _ _ Ht2)).
  destruct (walk_words δ (words q h) q2 (mv_ok _ _ _ _ _ Hm2) Hpl) as (q3 & Hrun3 & Hm3); [by rewrite Hcs2|]. exists q3. split; [done|]. rewrite Hcs2 in Hm3.
  pose proof (moved_trans _ _ _ _ _ _ _ _ (ao_phys _ (mv_ok _ _ _ _ _ Hm1)) Hm2 Hm3) as Hm4. cbn [app] in Hm4.
  eapply moved_weaken; [|exact (moved_trans _ _ _ _ _ _ _ _ Hp Hm1 Hm4)]. intros k [[]|[->|[]]]. done.
Qed.

Lemma walk_spec δ l q :
  alloc_ok q → (∀ e, e ∈ l → Z.land e OFFSET_MASK ≠ 0 → walkable q (Z.land e OFFSET_MASK)) → can_move δ (l ≫= refs q) q →
  ∃ q', walk_refcounts l δ q = (q', DOk tt) ∧ recounted δ (l ≫= refs q) (λ k, ∃ e, e ∈ l ∧ k = Z.land e OFFSET_MASK ∧ k ≠ 0) q q'.
Proof.
  unfold walk_refcounts. revert q. induction l as [|e l IH]; intros q Ha Hwk Hc.
  { exists q. split; [done|]. by apply moved_nil. }
  cbn [mbind list_bind] in Hc |- *. pose proof (ao_phys _ Ha) as Hp.
  destruct (walk_table_spec δ e q Ha) as (q1 & Hrun1 & Hm1); [apply Hwk; by left|by eapply can_move_l|]. pose proof (can_move_r _ _ _ _ _ _ Hc Hm1) as Hc1.
  assert (∀ e', e' ∈ l → Z.land e' OFFSET_MASK ≠ 0 → walkable q1 (Z.land e' OFFSET_MASK) ∧ words q1 (Z.land e' OFFSET_MASK) = words q (Z.land e' OFFSET_MASK)) as Hw1.
  { intros e' He' Hne. destruct (Hwk e' ltac:(by right) Hne) as (Hat & Hnb & Hpl). pose proof (moved_words _ _ _ _ _ _ Hp Hm1 Hat Hnb) as Hww.
    split; [|done]. unfold walkable. rewrite Hww, (moved_block _ _ _ _ _ _ Hm1). split_and!; try done. by eapply moved_table. }
  assert (l ≫= refs q1 = l ≫= refs q) as Hrefs.
  { clear -Hw1 Hm1. induction l as [|e' l IH]; [done|]. cbn [mbind list_bind]. rewrite IH by (intros; apply Hw1; [by right|done]). f_equal.
    unfold refs. rewrite (ke_cs _ _ _ _ (mv_keeps _ _ _ _ _ Hm1)). destruct (Z.eqb_spec (Z.land e' OFFSET_MASK) 0) as [|Hne]; [done|].
    by rewrite (proj2 (Hw1 e' ltac:(by left) Hne)). }
  rewrite <-Hrefs in Hc1. destruct (IH q1 (mv_ok _ _ _ _ _ Hm1) ltac:(intros; by apply Hw1) Hc1) as (q2 & Hrun2 & Hm2). exists q2.
  cbn [dfor]. rewrite (dbind_ok _ _ _ _ _ Hrun1). split; [done|]. rewrite Hrefs in Hm2.
  eapply moved_weaken; [|exact (moved_trans _ _ _ _ _ _ _ _ Hp Hm1 Hm2)]. intros k [[-> ?]|(e' & ? & -> & ?)]; [exists e|exists e']; (split; [|done]); [by left|by right].
Qed.
End walk.
