(* ===== verification/Qcow2Copied.v ===== *)
(** * qcow2 images: copied bits

    [rewrite_active_copied_bits] sets the copied bit of every entry from the
    refcounts and changes nothing else: not the mapping, and no table that a
    snapshot shares. *)

From S2P Require Import Prelude TableCache Disk Qcow2 Qcow2Alloc Qcow2Read Qcow2Phys Qcow2Steps Qcow2Free Qcow2Write Qcow2Guest Qcow2Correct Qcow2Open Qcow2Snapshot Qcow2Walk.

(** ** The bit *)

Lemma with_copied_low e w : with_copied e w = Z.lor (Z.land e (Z.ones 63)) w.
Proof. done. Qed.
Lemma with_copied_mask e w m : w = 0 ∨ w = COPIED_BIT → Z.land (Z.ones 63) m = m → Z.land COPIED_BIT m = 0 → Z.land (with_copied e w) m = Z.land e m.
Proof.
  intros Hw Hm Hc. rewrite with_copied_low, Z.land_lor_distr_l, <-Z.land_assoc, Hm. assert (Z.land w m = 0) as -> by (by destruct Hw as [->| ->]; [apply Z.land_0_l|]).
  apply Z.lor_0_r.
Qed.
Lemma with_copied_host e w : w = 0 ∨ w = COPIED_BIT → Z.land (with_copied e w) OFFSET_MASK = Z.land e OFFSET_MASK.
Proof. intros Hw. by apply with_copied_mask. Qed.
Lemma with_copied_flags e w : w = 0 ∨ w = COPIED_BIT →
  Z.land (with_copied e w) ZERO_BIT = Z.land e ZERO_BIT ∧ Z.land (with_copied e w) COMPRESSED_BIT = Z.land e COMPRESSED_BIT.
Proof. intros Hw. split; by apply with_copied_mask. Qed.
Lemma with_copied_bit e w : w = 0 ∨ w = COPIED_BIT → Z.land (with_copied e w) COPIED_BIT = w.
Proof.
  intros Hw. rewrite with_copied_low, Z.land_lor_distr_l, <-Z.land_assoc. change (Z.land (Z.ones 63) COPIED_BIT) with 0. rewrite Z.land_0_r, Z.lor_0_l.
  by destruct Hw as [->| ->].
Qed.
Lemma with_copied_range e w : w = 0 ∨ w = COPIED_BIT → is_u64 (with_copied e w).
Proof.
  intros Hw. rewrite with_copied_low, Z.land_ones by lia. pose proof (Z.mod_pos_bound e (2 ^ 63) ltac:(lia)).
  destruct Hw as [->| ->]; [rewrite Z.lor_0_r; unfold is_u64; lia|apply copied_range; lia].
Qed.
Lemma with_copied_same e w : is_u64 e → Z.land e COPIED_BIT = w → with_copied e w = e.
Proof.
  intros He <-. rewrite with_copied_low, <-Z.land_lor_distr_r. change (Z.lor (Z.ones 63) COPIED_BIT) with (Z.ones 64). rewrite Z.land_ones by lia.
  by apply Z.mod_small.
Qed.

Section copied.
Context {B : Type} `{HB : DiskContents B} `{HI : InflateLaws}.
Implicit Types q : Qcow2Image B.

(** The copied bit of a cluster, and an entry with its bit right. *)
Definition want q (host : Z) : Z := if rc q (host / cluster_size q) =? 1 then COPIED_BIT else 0.
Definition fix_entry q (e : Z) : Z := if Z.land e OFFSET_MASK =? 0 then e else with_copied e (want q (Z.land e OFFSET_MASK)).

Lemma want_bit q host : want q host = 0 ∨ want q host = COPIED_BIT.
Proof. unfold want. case_match; tauto. Qed.
#[local] Hint Resolve want_bit : core.
Lemma fix_entry_host q e : Z.land (fix_entry q e) OFFSET_MASK = Z.land e OFFSET_MASK.
Proof. unfold fix_entry. case_match; [done|]. by apply with_copied_host. Qed.
Lemma fix_entry_flags q e : Z.land (fix_entry q e) ZERO_BIT = Z.land e ZERO_BIT ∧ Z.land (fix_entry q e) COMPRESSED_BIT = Z.land e COMPRESSED_BIT.
Proof. unfold fix_entry. case_match; [done|]. by apply with_copied_flags. Qed.
Lemma fix_entry_idem q e : fix_entry q (fix_entry q e) = fix_entry q e.
Proof.
  unfold fix_entry at 1. rewrite fix_entry_host. destruct (Z.eqb_spec (Z.land e OFFSET_MASK) 0) as [Hz|Hz]; [done|]. unfold fix_entry.
  rewrite (proj2 (Z.eqb_neq _ _)) by done. apply with_copied_same; [by apply with_copied_range|by apply with_copied_bit].
Qed.
Lemma fix_entry_same q q' e : cluster_size q' = cluster_size q → (∀ x, 0 ≤ x → rc q' x = rc q x) → 512 ≤ cluster_size q → 0 ≤ e → fix_entry q' e = fix_entry q e.
Proof.
  intros Hcs Hrc H512 He. unfold fix_entry, want. rewrite Hcs. case_match; [done|]. rewrite Hrc; [done|].
  apply Z.div_pos; [|lia]. apply Z.land_nonneg. by left.
Qed.

(** ** What a repair leaves alone *)

Record repaired (P : Z → Prop) (R : nat → Z → bool) q q' : Prop := mkRepaired {
  rp_ok : write_ok P q';
  rp_bits : cluster_bits q' = cluster_bits q;
  rp_cs : cluster_size q' = cluster_size q;
  rp_size : q_size q' = q_size q;
  rp_l1len : length (l1 q') = length (l1 q);
  rp_l2h i : l2h q' i = l2h q i;
  rp_ge i j : 0 ≤ j < l2_entries q → ge q' i j = if R i j then fix_entry q (ge q i j) else ge q i j;
  rp_data i j : 0 ≤ j < l2_entries q → dh q i j ≠ 0 → l2_table q' (dh q i j) = l2_table q (dh q i j);
  rp_P c : P c → l2_table q' (c * cluster_size q) = l2_table q (c * cluster_size q);
  rp_rc x : 0 ≤ x → rc q' x = rc q x;
  rp_rt : refcount_table q' = refcount_table q;
  rp_backing : backing_image q' = backing_image q;
  rp_meta : meta_step P q q';
  rp_room : room q ≤ room q' }.

Lemma repaired_dh P R q q' i j : repaired P R q q' → 0 ≤ j < l2_entries q → dh q' i j = dh q i j.
Proof. intros Hr Hj. unfold dh. rewrite (rp_ge _ _ _ _ Hr) by done. case_match; [apply fix_entry_host|done]. Qed.
Lemma ge_nonneg P q i j : write_ok P q → 0 ≤ j < l2_entries q → is_u64 (ge q i j).
Proof.
  intros Hw Hj. pose proof (write_phys P q Hw) as Hp. unfold ge. destruct (Z.eqb_spec (l2h q i) 0) as [|Hi]; [unfold is_u64; lia|].
  destruct (l2_shape q _ Hp (proj1 (wo_tables _ _ Hw i Hi))) as [Hl Hok]. apply word_range; [done|lia|]. by eapply entry_fits.
Qed.
Lemma repaired_trans P R S q1 q2 q3 : write_ok P q1 → repaired P R q1 q2 → repaired P S q2 q3 → repaired P (λ i j, R i j || S i j) q1 q3.
Proof.
  intros Hw H1 H2. pose proof (rp_cs _ _ _ _ H1) as Hcs. assert (l2_entries q2 = l2_entries q1) as He by (unfold l2_entries; by rewrite Hcs).
  pose proof (phys_cs q1 (write_phys P q1 Hw)) as H512. constructor.
  - exact (rp_ok _ _ _ _ H2).
  - by rewrite (rp_bits _ _ _ _ H2), (rp_bits _ _ _ _ H1).
  - by rewrite (rp_cs _ _ _ _ H2).
  - by rewrite (rp_size _ _ _ _ H2), (rp_size _ _ _ _ H1).
  - by rewrite (rp_l1len _ _ _ _ H2), (rp_l1len _ _ _ _ H1).
  - intros i. by rewrite (rp_l2h _ _ _ _ H2), (rp_l2h _ _ _ _ H1).
  - intros i j Hj. rewrite (rp_ge _ _ _ _ H2) by (by rewrite He). pose proof (ge_nonneg P q2 i j (rp_ok _ _ _ _ H1) ltac:(by rewrite He)) as [Hn _].
    rewrite (fix_entry_same q1 q2) by (done || apply (rp_rc _ _ _ _ H1)). rewrite (rp_ge _ _ _ _ H1) by done.
    destruct (R i j), (S i j); cbn [orb]; rewrite ?fix_entry_idem; done.
  - intros i j Hj Hd. pose proof (repaired_dh _ _ _ _ i j H1 Hj) as Hdh. rewrite <-Hdh at 1. rewrite (rp_data _ _ _ _ H2) by (rewrite ?He, ?Hdh; done).
    rewrite Hdh. by apply (rp_data _ _ _ _ H1).
  - intros c Hc. rewrite <-Hcs at 1. rewrite (rp_P _ _ _ _ H2) by done. rewrite Hcs. by apply (rp_P _ _ _ _ H1).
  - intros x Hx. rewrite (rp_rc _ _ _ _ H2), (rp_rc _ _ _ _ H1) by done. done.
  - by rewrite (rp_rt _ _ _ _ H2), (rp_rt _ _ _ _ H1).
  - by rewrite (rp_backing _ _ _ _ H2), (rp_backing _ _ _ _ H1).
  - exact (meta_step_trans _ _ _ _ Hcs (rp_meta _ _ _ _ H1) (rp_meta _ _ _ _ H2)).
  - pose proof (rp_room _ _ _ _ H1). pose proof (rp_room _ _ _ _ H2). lia.
Qed.
Lemma repaired_ext P R S q q' : (∀ i j, 0 ≤ j < l2_entries q → R i j = S i j) → repaired P R q q' → repaired P S q q'.
Proof. intros HRS [A1 A2 A3 A4 A5 A6 A7 A8 A9 A10 A11 A12 A13 A14]. constructor; try done. intros i j Hj. rewrite <-HRS by done. by apply A7. Qed.
(** Steps that change nothing the guest has. *)
Lemma same_guest_repaired P q q' :
  write_ok P q' → same_guest P q q' → l1 q' = l1 q → (∀ x, 0 ≤ x → rc q' x = rc q x) → refcount_table q' = refcount_table q → backing_image q' = backing_image q →
  room q ≤ room q' → repaired P (λ _ _, false) q q'.
Proof.
  intros Hw' [A1 A2 A3 A4 A5 A6 A7 A8 A9] Hl Hrc Hrt Hb Hroom. constructor; try done. intros i. unfold l2h. by rewrite Hl.
Qed.
(** The guest sees no difference. *)
Lemma repaired_wrote P R q q' lo : write_ok P q → repaired P R q q' → wrote P lo [] q q'.
Proof.
  intros Hw Hr. pose proof Hr as [A1 A2 Hcs A4 A5 A6 A7 A8 A9 A10 A11 A12 A13 A14]. constructor; try done.
  - intros o Ho. rewrite wrote_nothing. rewrite (guest_byte_entry P q') by done. rewrite (guest_byte_entry P q) by done. unfold entry_at.
    destruct (index_same q q' o) as [-> ->]; [done|done|]. pose proof (index_range q o (write_phys P q Hw)) as Hj. unfold entry_byte.
    fold (dh q' (l1_at q o) (l2_index_of q o)). fold (dh q (l1_at q o) (l2_index_of q o)). rewrite (repaired_dh P R q q') by done.
    assert (Z.land (ge q' (l1_at q o) (l2_index_of q o)) ZERO_BIT = Z.land (ge q (l1_at q o) (l2_index_of q o)) ZERO_BIT) as ->.
    { rewrite (rp_ge _ _ _ _ Hr) by done. case_match; [apply fix_entry_flags|done]. }
    rewrite Hcs. unfold backing_byte. rewrite (rp_backing _ _ _ _ Hr). case_match; [done|]. case_match eqn:E; [done|]. bsplit. by rewrite (rp_data _ _ _ _ Hr).
  - intros o. unfold backing_byte. by rewrite (rp_backing _ _ _ _ Hr).
Qed.
Lemma repaired_refl P R q : write_ok P q → (∀ i j, 0 ≤ j < l2_entries q → R i j = true → fix_entry q (ge q i j) = ge q i j) → repaired P R q q.
Proof.
  intros Hw Hf. constructor; try done.
  - intros i j Hj. specialize (Hf i j Hj). case_match; [by rewrite Hf|done].
Qed.

(** A table of [P] maps clusters of [P]. *)
Definition closed (P : Z → Prop) q : Prop :=
  ∀ i j, 0 ≤ j < l2_entries q → l2h q i ≠ 0 → P (l2h q i / cluster_size q) → dh q i j ≠ 0 → P (dh q i j / cluster_size q).
Lemma repaired_closed P R q q' : repaired P R q q' → closed P q → closed P q'.
Proof.
  intros Hr Hc i j. unfold l2_entries. rewrite (rp_cs _ _ _ _ Hr), (rp_l2h _ _ _ _ Hr). fold (l2_entries q). intros Hj. rewrite (repaired_dh _ _ _ _ i j Hr) by done. by apply Hc.
Qed.

(** ** One entry *)

Lemma quiet_repaired P q q' : write_ok P q → quiet q q' → q_free q' = q_free q → repaired P (λ _ _, false) q q'.
Proof.
  intros Hw Hq Hf. destruct (quiet_step P q q' Hw Hq Hf) as [Hw' Hs]. apply same_guest_repaired; try done;
    [exact (qu_l1 _ _ Hq)|exact (qu_rc _ _ Hq)|exact (qu_rt _ _ Hq)|exact (qu_backing _ _ Hq)|by apply quiet_room].
Qed.
Lemma wanted_bit_spec P q host :
  write_ok P q → 0 ≤ host → ∃ q', wanted_bit host q = (q', DOk (want q host)) ∧ repaired P (λ _ _, false) q q' ∧ l1 q' = l1 q.
Proof.
  intros Hw Hh. pose proof (write_phys P q Hw) as Hp. pose proof (phys_cs q Hp). unfold wanted_bit. rewrite (dbind_ok _ _ q q q) by done. unfold id.
  destruct (get_refcount_spec q (host / cluster_size q) Hp) as (q' & Hg & Hq & Hf); [apply Z.div_pos; lia|]. rewrite (dbind_ok _ _ _ _ _ Hg).
  exists q'. split_and!; [done|by apply quiet_repaired|exact (qu_l1 _ _ Hq)].
Qed.

Definition here (i : nat) (j : Z) : nat → Z → bool := λ i' j', bool_decide (i' = i) && (j' =? j).

(** A bit that has to change is on an entry and in a table of the guest's
    own. *)
Lemma fix_own P q i j : write_ok P q → closed P q → l2h q i ≠ 0 → 0 ≤ j < l2_entries q → dh q i j ≠ 0 → Z.land (ge q i j) COPIED_BIT ≠ want q (dh q i j) →
  ¬ P (l2h q i / cluster_size q) ∧ ¬ P (dh q i j / cluster_size q).
Proof.
  intros Hw Hc Hi Hj Hd Hne. assert (¬ P (dh q i j / cluster_size q)) as HPd; [|split; [intros HPt; by apply HPd, (Hc i j)|done]].
  intros HP. destruct (wo_P_data _ _ Hw i j Hj Hd HP) as [Hr Hz]. apply Hne. rewrite Hz. unfold want. by rewrite (proj2 (Z.eqb_neq _ _)) by lia.
Qed.
Lemma store_bit P q q' i j :
  write_ok P q → closed P q → l2h q i ≠ 0 → 0 ≤ j < l2_entries q → dh q i j ≠ 0 → Z.land (ge q i j) COPIED_BIT ≠ want q (dh q i j) →
  tstep (l2h q i) (λ k, if k =? l2h q i then splice (l2_table q (l2h q i)) (j * 8) (u64_be (fix_entry q (ge q i j))) else l2_table q k) q q' →
  repaired P (here i j) q q'.
Proof.
  intros Hw Hc Hi Hj Hd Hne Ht. destruct (fix_own P q i j Hw Hc Hi Hj Hd Hne) as [HPt HPd]. set (v := fix_entry q (ge q i j)) in *.
  assert (Z.land v OFFSET_MASK = dh q i j) as Hv by apply fix_entry_host. destruct (fix_entry_flags q (ge q i j)) as [Hvz Hvc]. fold v in Hvz, Hvc.
  destruct (wo_entries _ _ Hw i j Hj) as [Hco Hze]. assert (Z.land (ge q i j) ZERO_BIT = 0) as Hz0 by (destruct (decide (Z.land (ge q i j) ZERO_BIT = 0)); [done|by destruct Hd, Hze]).
  assert (is_u64 v) as Hu by (unfold v, fix_entry; fold (dh q i j); rewrite (proj2 (Z.eqb_neq _ _)) by done; by apply with_copied_range).
  destruct (store_entry P q q q' i j v) as [Hw' Hrm]; try done; [congruence|congruence|left; by rewrite Hv|].
  destruct Hrm as [A1 A2 A3 A4 A5 Arm A6 A7 A8 A9 A10]. constructor; try done.
  - by rewrite A4.
  - intros i'. unfold l2h. by rewrite A4.
  - intros i' j' Hj'. rewrite A6 by done. unfold here. case_decide as E; [destruct E as [-> ->]; by rewrite bool_decide_true, Z.eqb_refl|].
    destruct (bool_decide_reflect (i' = i)) as [->|]; [|done]. destruct (Z.eqb_spec j' j) as [->|]; [by destruct E|done].
  - intros i' j' Hj' Hd'. destruct (wo_data _ _ Hw i' j' Hj' Hd') as (Hg & _ & Hnt). apply A7; [done|]. by apply not_eq_sym, Hnt.
  - exact (ts_rc _ _ _ _ Ht).
  - exact (ts_backing _ _ _ _ Ht).
Qed.
Lemma rewrite_entry_spec P q i j :
  write_ok P q → closed P q → l2h q i ≠ 0 → 0 ≤ j < l2_entries q →
  ∃ q', rewrite_entry (l2h q i) (j, ge q i j) q = (q', DOk tt) ∧ repaired P (here i j) q q' ∧ l1 q' = l1 q.
Proof.
  intros Hw Hc Hi Hj. unfold rewrite_entry. destruct (wo_entries _ _ Hw i j Hj) as [-> _]. cbn [Z.eqb negb]. fold (dh q i j).
  assert (∀ i' j', here i j i' j' = true → i' = i ∧ j' = j) as Hhere.
  { intros i' j' E. unfold here in E. apply andb_true_iff in E as [E1 E2]. apply bool_decide_eq_true in E1. bsplit. done. }
  destruct (Z.eqb_spec (dh q i j) 0) as [Hd|Hd].
  { exists q. split_and!; try done. apply repaired_refl; [done|]. intros i' j' _ [-> ->]%Hhere. unfold fix_entry. fold (dh q i j). by rewrite Hd. }
  destruct (wo_data _ _ Hw i j Hj Hd) as (((Hd0 & _) & _) & _). destruct (wanted_bit_spec P q (dh q i j) Hw Hd0) as (q1 & Hrun1 & Hr1 & Hl1). rewrite (dbind_ok _ _ _ _ _ Hrun1).
  pose proof (rp_ok _ _ _ _ Hr1) as Hw1. pose proof (rp_cs _ _ _ _ Hr1) as Hcs1. assert (l2_entries q1 = l2_entries q) as He1 by (unfold l2_entries; by rewrite Hcs1).
  assert (ge q1 i j = ge q i j) as Hge1 by (by rewrite (rp_ge _ _ _ _ Hr1)). assert (dh q1 i j = dh q i j) as Hdh1 by (by apply (repaired_dh _ _ _ _ i j Hr1)).
  assert (want q1 (dh q i j) = want q (dh q i j)) as Hwant.
  { unfold want. rewrite Hcs1, (rp_rc _ _ _ _ Hr1); [done|]. pose proof (phys_cs q (write_phys P q Hw)). apply Z.div_pos; lia. }
  destruct (Z.eqb_spec (Z.land (ge q i j) COPIED_BIT) (want q (dh q i j))) as [Heq|Hne]; cbn [negb].
  - exists q1. split_and!; try done. eapply repaired_ext; [|apply (repaired_trans P (λ _ _, false) (here i j) q q1 q1 Hw Hr1)]; [done|].
    apply repaired_refl; [done|]. intros i' j' Hj' [-> ->]%Hhere. unfold fix_entry. fold (dh q1 i j). rewrite Hge1, Hdh1, (proj2 (Z.eqb_neq _ _)) by done.
    apply with_copied_same; [by eapply ge_nonneg|by rewrite Hwant].
  - pose proof (rp_l2h _ _ _ _ Hr1 i) as Hl2h1. rewrite <-Hl2h1 in Hi |- *. destruct (wo_tables _ _ Hw1 i Hi) as (Hat & _ & Hnb).
    destruct (set_l2_entry_spec q1 (l2h q1 i) j (with_copied (ge q i j) (want q (dh q i j))) (write_phys P q1 Hw1) Hat Hnb) as (q2 & Hrun2 & Ht2); [by rewrite He1|].
    exists q2. split; [exact Hrun2|]. split; [|by rewrite (ts_l1 _ _ _ _ Ht2)].
    eapply repaired_ext; [|apply (repaired_trans P (λ _ _, false) (here i j) q q1 q2 Hw Hr1)]; [done|].
    apply store_bit; try done; [by eapply repaired_closed|by rewrite He1|by rewrite Hdh1|by rewrite Hge1, Hdh1, Hwant|].
    assert (fix_entry q1 (ge q1 i j) = with_copied (ge q i j) (want q (dh q i j))) as ->; [|exact Ht2].
    unfold fix_entry. fold (dh q1 i j). by rewrite Hdh1, Hge1, Hwant, (proj2 (Z.eqb_neq _ _)).
Qed.

(** ** One table *)

Lemma rewrite_entries_spec P q i k ws :
  write_ok P q → closed P q → l2h q i ≠ 0 → 0 ≤ k → k + Z.of_nat (length ws) = l2_entries q →
  (∀ n : nat, (n < length ws)%nat → ws !! n = Some (ge q i (k + Z.of_nat n))) →
  ∃ q', dfor (zip (seqZ k (Z.of_nat (length ws))) ws) (rewrite_entry (l2h q i)) q = (q', DOk tt) ∧
    repaired P (λ i' j', bool_decide (i' = i) && (k <=? j')) q q' ∧ l1 q' = l1 q.
Proof.
  revert q k. induction ws as [|e ws IH]; intros q k Hw Hc Hi Hk Hlen Hws.
  - exists q. split_and!; try done. cbn [length] in Hlen. apply repaired_refl; [done|]. intros i' j' Hj' E. apply andb_true_iff in E as [_ E]. bsplit. lia.
  - cbn [length] in Hlen, Hws |- *. rewrite seqZ_cons by lia. replace (Z.succ k) with (k + 1) by lia. replace (Z.pred (Z.of_nat (S (length ws)))) with (Z.of_nat (length ws)) by lia.
    cbn [zip zip_with dfor]. pose proof (Hws 0%nat ltac:(lia)) as He. cbn [lookup list_lookup] in He. rewrite Z.add_0_r in He. injection He as ->.
    destruct (rewrite_entry_spec P q i k Hw Hc Hi) as (q1 & Hrun1 & Hr1 & Hl1); [lia|]. rewrite (dbind_ok _ _ _ _ _ Hrun1).
    pose proof (rp_l2h _ _ _ _ Hr1 i) as Hh1. rewrite <-Hh1 in Hi |- *. assert (l2_entries q1 = l2_entries q) as He1 by (unfold l2_entries; by rewrite (rp_cs _ _ _ _ Hr1)).
    destruct (IH q1 (k + 1) (rp_ok _ _ _ _ Hr1) (repaired_closed _ _ _ _ Hr1 Hc) Hi) as (q' & Hrun & Hr & Hl); [lia|lia| |].
    { intros n Hn. specialize (Hws (S n) ltac:(lia)). change (ws !! n = Some (ge q i (k + Z.of_nat (S n)))) in Hws. rewrite Hws. f_equal. rewrite (rp_ge _ _ _ _ Hr1) by lia.
      unfold here. rewrite (proj2 (Z.eqb_neq (k + 1 + Z.of_nat n) k)), andb_false_r by lia. f_equal. lia. }
    exists q'. split_and!; [exact Hrun| |congruence]. eapply repaired_ext; [|exact (repaired_trans _ _ _ _ _ _ Hw Hr1 Hr)].
    intros i' j' Hj'. unfold here. destruct (bool_decide (i' = i)); [|done]. cbn [andb orb]. destruct (Z.eqb_spec j' k), (Z.leb_spec (k + 1) j'), (Z.leb_spec k j'); done || lia.
Qed.

(** The flag of an L1 entry. *)
Lemma set_l1_repaired P q x :
  write_ok P q → length x = length (l1 q) → Forall is_u64 x → (∀ i, Z.land (default 0 (x !! i)) OFFSET_MASK = l2h q i) →
  repaired P (λ _ _, false) q (set_l1_dirty true (set_l1 x q)).
Proof.
  intros Hw Hl Hu Hh. set (q' := set_l1_dirty true (set_l1 x q)). assert (∀ i, l2h q' i = l2h q i) as Hl2h by done.
  assert (∀ i j, ge q' i j = ge q i j) as Hge by (intros; unfold ge; by rewrite Hl2h). assert (∀ i j, dh q' i j = dh q i j) as Hdh by (intros; unfold dh; by rewrite Hge).
  constructor; try done.
  - destruct Hw as [W1 W2 W3 W4 W5 W6 W7 W8 W9 W10 W11 W12 W13]. constructor; try done.
    + by apply alloc_ok_set_l1.
    + intros i. rewrite Hl2h. apply W6.
    + intros i i'. rewrite !Hl2h. apply W7.
    + intros i j. rewrite Hge, Hdh. apply W8.
    + intros i j Hj. rewrite Hdh. intros Hd. destruct (W9 i j Hj Hd) as (? & ? & ?). split_and!; try done. intros i'. rewrite Hl2h. done.
    + intros i j i' j'. rewrite !Hdh. apply W10.
    + intros i. rewrite Hl2h. apply W12.
    + intros i j. rewrite Hdh, Hge. apply W13.
  - apply meta_step_same; try done; [|by apply low_same]. intros c _ [Hnt Hnc]. split; [|done]. intros i. rewrite Hl2h. apply Hnt.
Qed.

Definition row (n : nat) : nat → Z → bool := λ i _, bool_decide (i = n).
Lemma rewrite_table_spec P q n :
  write_ok P q → closed P q → (n < length (l1 q))%nat → ∃ q', rewrite_table n q = (q', DOk tt) ∧ repaired P (row n) q q'.
Proof.
  intros Hw Hc Hn. unfold rewrite_table. rewrite (dbind_ok _ _ q q q) by done. unfold id. destruct (lookup_lt_is_Some_2 (l1 q) n Hn) as [e He]. rewrite He.
  assert (Z.land e OFFSET_MASK = l2h q n) as Hh by (unfold l2h; by rewrite He). rewrite Hh. destruct (Z.eqb_spec (l2h q n) 0) as [Hz|Hz].
  { exists q. split; [done|]. apply repaired_refl; [done|]. intros i j _ Hi%bool_decide_eq_true. subst i. unfold ge. rewrite Hz. done. }
  destruct (wo_tables _ _ Hw n Hz) as ((Hh0 & _) & _). destruct (wanted_bit_spec P q (l2h q n) Hw Hh0) as (q1 & Hrun1 & Hr1 & Hl1). rewrite (dbind_ok _ _ _ _ _ Hrun1).
  pose proof (rp_ok _ _ _ _ Hr1) as Hw1. set (w := want q (l2h q n)) in *.
  assert (∃ q2, (if negb (Z.land e COPIED_BIT =? w) then dmodify (λ q, set_l1_dirty true (set_l1 (<[n:=with_copied e w]> (l1 q)) q)) else mret tt) q1 = (q2, DOk tt) ∧
    repaired P (λ _ _, false) q1 q2) as (q2 & Hrun2 & Hr2).
  { destruct (negb _); [|exists q1; split; [done|by apply repaired_refl]]. eexists. split; [done|]. apply set_l1_repaired; [done|by rewrite length_insert| |].
    - apply Forall_insert; [apply Hw1|]. apply with_copied_range, want_bit.
    - intros i. rewrite Hl1. destruct (decide (i = n)) as [->|Hne].
      + rewrite list_lookup_insert_eq by done. cbn [default from_option id]. rewrite with_copied_host by apply want_bit. by rewrite (rp_l2h _ _ _ _ Hr1).
      + rewrite list_lookup_insert_ne by done. rewrite (rp_l2h _ _ _ _ Hr1). done. }
  rewrite (dbind_ok _ _ _ _ _ Hrun2). pose proof (rp_ok _ _ _ _ Hr2) as Hw2. pose proof (repaired_trans _ _ _ _ _ _ Hw Hr1 Hr2) as Hr12.
  pose proof (rp_l2h _ _ _ _ Hr12 n) as Hh2. rewrite <-Hh2 in Hz |- *. destruct (wo_tables _ _ Hw2 n Hz) as (Hat2 & _ & Hnb2).
  destruct (table_words_spec q2 (l2h q2 n) (write_phys P q2 Hw2) Hat2 Hnb2) as (q3 & Hrun3 & Ht3). rewrite (dbind_ok _ _ _ _ _ Hrun3).
  destruct (load_step P q2 q3 n Hw2 Hz Ht3) as [Hw3 Hs3].
  assert (repaired P (λ _ _, false) q2 q3) as Hr3.
  { apply same_guest_repaired; try done; [exact (ts_l1 _ _ _ _ Ht3)|exact (ts_rc _ _ _ _ Ht3)|exact (ts_rt _ _ _ _ Ht3)|exact (ts_backing _ _ _ _ Ht3)|exact (tstep_room _ _ _ _ Ht3)]. }
  pose proof (repaired_trans _ _ _ _ _ _ Hw Hr12 Hr3) as Hr13. pose proof (rp_l2h _ _ _ _ Hr3 n) as Hh3. rewrite <-Hh3 in Hz.
  assert (l2_entries q3 = l2_entries q2) as He3 by (unfold l2_entries; by rewrite (rp_cs _ _ _ _ Hr3)).
  pose proof (phys_cs q2 (write_phys P q2 Hw2)) as Hcs2. assert (0 ≤ l2_entries q2) as Hpos by (unfold l2_entries; apply Z.div_pos; lia).
  assert (length (words q2 (l2h q2 n)) = Z.to_nat (l2_entries q2)) as Hlw by (unfold words; by rewrite length_fmap, length_seqZ).
  destruct (rewrite_entries_spec P q3 n 0 (words q2 (l2h q2 n)) Hw3 (repaired_closed _ _ _ _ Hr13 Hc) Hz) as (q4 & Hrun4 & Hr4 & _); [lia|rewrite Hlw, He3; lia| |].
  { intros m Hm. rewrite Hlw in Hm. unfold words. rewrite list_lookup_fmap, lookup_seqZ_lt by lia. cbn [fmap option_fmap option_map]. rewrite !Z.add_0_l. f_equal.
    rewrite (rp_ge _ _ _ _ Hr3) by lia. unfold ge. by rewrite <-Hh3, (proj2 (Z.eqb_neq _ 0)). }
  rewrite Hh3 in Hrun4. exists q4. split; [exact Hrun4|]. eapply repaired_ext; [|exact (repaired_trans _ _ _ _ _ _ Hw Hr13 Hr4)].
  intros i j Hj. unfold row. cbn [orb]. destruct (bool_decide (i = n)); [|done]. cbn [andb]. apply Z.leb_le. lia.
Qed.

(** ** The whole *)

Lemma rewrite_tables_spec P l q :
  write_ok P q → closed P q → (∀ n, n ∈ l → (n < length (l1 q))%nat) →
  ∃ q', dfor l rewrite_table q = (q', DOk tt) ∧ repaired P (λ i _, bool_decide (i ∈ l)) q q'.
Proof.
  revert q. induction l as [|n l IH]; intros q Hw Hc Hl.
  - exists q. split; [done|]. apply repaired_refl; [done|]. intros i j _ Hi%bool_decide_eq_true. by apply elem_of_nil in Hi.
  - destruct (rewrite_table_spec P q n Hw Hc) as (q1 & Hrun1 & Hr1); [apply Hl; by left|].
    destruct (IH q1 (rp_ok _ _ _ _ Hr1) (repaired_closed _ _ _ _ Hr1 Hc)) as (q' & Hrun & Hr).
    { intros m Hm. rewrite (rp_l1len _ _ _ _ Hr1). apply Hl. by right. }
    exists q'. cbn [dfor]. rewrite (dbind_ok _ _ _ _ _ Hrun1). split; [done|]. eapply repaired_ext; [|exact (repaired_trans _ _ _ _ _ _ Hw Hr1 Hr)].
    intros i j _. unfold row. apply eq_iff_eq_true. rewrite orb_true_iff, !bool_decide_eq_true, elem_of_cons. done.
Qed.
(** Every copied bit is right afterwards. *)
Lemma rewrite_copied_spec P q :
  write_ok P q → closed P q → ∃ q', rewrite_active_copied_bits q = (q', DOk tt) ∧ repaired P (λ _ _, true) q q'.
Proof.
  intros Hw Hc. unfold rewrite_active_copied_bits. rewrite (dbind_ok _ _ q q q) by done. unfold id.
  destruct (rewrite_tables_spec P (seq 0 (length (l1 q))) q Hw Hc) as (q' & Hrun & Hr); [intros n Hn%elem_of_seq; lia|]. exists q'. split; [done|].
  pose proof Hr as [A1 A2 A3 A4 A5 A6 A7 A8 A9 A10 A11 A12 A13 A14]. constructor; try done. intros i j Hj. rewrite A7 by done. case_bool_decide as E; [done|].
  unfold ge. assert (l2h q i = 0) as ->; [|done]. unfold l2h. rewrite lookup_ge_None_2; [done|]. rewrite elem_of_seq in E. lia.
Qed.
End copied.
