(* ===== verification/Qcow2Owned.v ===== *)
(** * qcow2 images: what snapshots own

    Snapshots own tables [T], data clusters [D] and single clusters [S] (the
    top of the image, the snapshots' L1 tables, the snapshot table). [owned]
    is what an image with snapshots keeps of them; a snapshot is then an L1
    table into [T], and the disk it describes does not change while the guest
    writes. *)

From S2P Require Import Prelude TableCache Disk Qcow2 Qcow2Alloc Qcow2Read Qcow2Phys Qcow2Steps Qcow2Free Qcow2Write Qcow2Guest Qcow2Correct Qcow2Open Qcow2Durable Qcow2Snapshot Qcow2Walk Qcow2Copied.

Section owned.
Context {B : Type} `{HB : DiskContents B} `{HI : InflateLaws}.
Implicit Types q : Qcow2Image B.

(** ** New regions of one cluster *)

Lemma snapshot_l1_spec P l q :
  write_ok P q → Forall (λ e, 0 ≤ e) l →
  ∃ q', snapshot_l1 l q = (q', DOk (fix_entry q <$> l)) ∧ repaired P (λ _ _, false) q q' ∧ l1 q' = l1 q.
Proof.
  intros Hw Hl. revert q Hw. induction Hl as [|e l He Hl IH]; intros q Hw.
  { exists q. split; [done|]. split; [by apply repaired_refl|done]. }
  cbn [snapshot_l1]. set (h := Z.land e OFFSET_MASK).
  assert (∃ q1, (if h =? 0 then mret e else w ← wanted_bit h; mret (with_copied e w)) q = (q1, DOk (fix_entry q e)) ∧ repaired P (λ _ _, false) q q1 ∧ l1 q1 = l1 q)
    as (q1 & Hrun1 & Hr1 & Hl1).
  { unfold fix_entry. fold h. destruct (Z.eqb_spec h 0) as [|Hne]; [exists q; split; [done|]; split; [by apply repaired_refl|done]|].
    destruct (wanted_bit_spec P q h Hw) as (q1 & Hrun1 & Hr1 & Hl1); [apply Z.land_nonneg; by left|]. exists q1. by rewrite (dbind_ok _ _ _ _ _ Hrun1). }
  rewrite (dbind_ok _ _ _ _ _ Hrun1). destruct (IH q1 (rp_ok _ _ _ _ Hr1)) as (q2 & Hrun2 & Hr2 & Hl2). rewrite (dbind_ok _ _ _ _ _ Hrun2).
  exists q2. split_and!; [|exact (repaired_ext _ _ _ _ _ ltac:(done) (repaired_trans _ _ _ _ _ _ Hw Hr1 Hr2))|congruence].
  unfold mret, dstate_ret. do 2 f_equal. cbn [fmap list_fmap]. f_equal. apply list_fmap_ext. intros i x Hx.
  apply fix_entry_same; [by apply (rp_cs _ _ _ _ Hr1)|apply (rp_rc _ _ _ _ Hr1)|exact (phys_cs q (write_phys P q Hw))|].
  by eapply Forall_lookup_1 in Hl.
Qed.

Lemma len_resize_zero (b : bytes) n : 0 ≤ n → len (resize_zero b n) = n.
Proof. intros Hn. unfold resize_zero, len. rewrite length_take, length_app, length_replicate. unfold len. lia. Qed.
Lemma bytes_ok_resize b n : bytes_ok b → bytes_ok (resize_zero b n).
Proof. intros Hb. apply Forall_take, Forall_app. split; [done|]. apply Forall_replicate. unfold is_u8. lia. Qed.
Lemma resize_prefix (b : bytes) n : len b ≤ n → slice (resize_zero b n) 0 (len b) = b.
Proof.
  intros Hb. unfold slice, resize_zero. change (Z.to_nat 0) with 0%nat. rewrite drop_0, Z.sub_0_r, take_take, take_app_le by (unfold len in *; lia).
  apply take_ge. unfold len in *. lia.
Qed.

(** A free cluster [h] became a region with one reference that nothing else
    uses. *)
Record placed (P : Z → Prop) q q' (h : Z) (content : bytes) : Prop := mkPlaced {
  pl_ok : write_ok P q';
  pl_guest : same_guest P q q';
  pl_l1 : l1 q' = l1 q;
  pl_room : room q - 1 ≤ room q';
  pl_pos : 0 < h;
  pl_fits : (h + 1) * cluster_size q ≤ 2 ^ 56;
  pl_unused : unused P q' h;
  pl_good : good q' (h * cluster_size q);
  pl_off : c_map (l2_cache q') !! (h * cluster_size q) = None;
  pl_content : l2_table q' (h * cluster_size q) = content;
  pl_rc x : 0 ≤ x → rc q x ≠ 0 → rc q' x = rc q x;
  pl_one : rc q' h = 1;
  pl_free : rc q h = 0 }.

Lemma write_region_spec P q b :
  write_ok P q → 1 ≤ room q → bytes_ok b →
  ∃ q' h, write_region 1 b q = (q', DOk (h * cluster_size q)) ∧ placed P q q' h (resize_zero b (cluster_size q)).
Proof.
  intros Hw Hr Hb. pose proof (phys_cs q (write_phys P q Hw)) as Hcs. destruct (alloc_one_spec q (wo_alloc _ _ Hw) Hr) as (q1 & h & Hal & Htk).
  pose proof Htk as (_ & _ & Hfree & _).
  destruct (fill_cluster P q q1 h (resize_zero b (cluster_size q)) Hw Htk) as (q2 & q' & _ & Hwf & Hset & H5 & H6 & H7 & H8 & H9 & H10 & H11 & H12 & H13 & H14 & H15 & H16);
    [apply len_resize_zero; lia|by apply bytes_ok_resize|].
  exists q', h. split; [|by constructor]. unfold write_region. rewrite (dbind_ok _ _ q q q) by done. unfold id. rewrite (dbind_ok _ _ _ _ _ Hal), Z.mul_1_l.
  rewrite (dbind_ok _ _ _ _ _ Hwf). rewrite (dbind_ok _ _ q2 q' tt); [done|]. change (seqZ 0 1) with [0]. cbn [dfor]. rewrite Z.div_mul, Z.add_0_r by lia.
  by rewrite (dbind_ok _ _ _ _ _ Hset).
Qed.

(** Steps settle references and add no more than first ones. *)
Lemma wrote_settled P lo part q q' x : wrote P lo part q q' → P x → settled q q' x.
Proof. intros Hwr Hx. destruct (wr_meta _ _ _ _ _ Hwr) as (_ & _ & Hreg & _). by destruct (Hreg x Hx) as ([_ ?] & _). Qed.
Lemma wrote_low P lo part q q' : wrote P lo part q q' → low q q'.
Proof. intros Hwr. by destruct (wr_meta _ _ _ _ _ Hwr) as (_ & _ & _ & _ & ?). Qed.
Lemma placed_settled P q q' h b x : placed P q q' h b → P x → settled q q' x.
Proof. intros Hpl Hx. destruct (sg_meta _ _ _ (pl_guest _ _ _ _ _ Hpl)) as (_ & _ & Hreg & _). by destruct (Hreg x Hx) as ([_ ?] & _). Qed.
Lemma placed_low P q q' h b : placed P q q' h b → low q q'.
Proof. intros Hpl. by destruct (sg_meta _ _ _ (pl_guest _ _ _ _ _ Hpl)) as (_ & _ & _ & _ & ?). Qed.
Lemma served_settled P q q' x : served P q q' → 0 ≤ x → settled q q' x.
Proof.
  intros Hsv Hx. apply settled_same; [exact (sv_cs _ _ _ Hsv)|by apply (sv_rc _ _ _ Hsv)|intros i; unfold l2h; by rewrite (sv_l1 _ _ _ Hsv)|].
  intros i j Hj. unfold dh. by rewrite (sv_ge _ _ _ Hsv).
Qed.

(** ** Ownership *)

Definition any (T D S : Z → Prop) (c : Z) : Prop := T c ∨ D c ∨ S c.

Record owned (T D S : Z → Prop) q : Prop := mkOwned {
  ow_TD c : T c → ¬ D c;
  ow_TS c : T c → ¬ S c;
  ow_DS c : D c → ¬ S c;
  ow_S c : S c → rc q c = 1 ∧ off_table q c;
  ow_T c : T c → off_data q c;
  ow_D c : D c → off_table q c;
  ow_entries c j : T c → 0 ≤ j < l2_entries q →
    let e := word (l2_table q (c * cluster_size q)) j in
    Z.land e COMPRESSED_BIT = 0 ∧ (Z.land e ZERO_BIT ≠ 0 → Z.land e OFFSET_MASK = 0) ∧
    (Z.land e OFFSET_MASK ≠ 0 → Z.land e OFFSET_MASK mod cluster_size q = 0 ∧ D (Z.land e OFFSET_MASK / cluster_size q) ∧ Z.land e COPIED_BIT = 0) }.

Lemma table_aligned P q i : write_ok P q → l2h q i ≠ 0 → l2h q i / cluster_size q * cluster_size q = l2h q i ∧ 0 ≤ l2h q i / cluster_size q.
Proof.
  intros Hw Hi. pose proof (write_phys P q Hw) as Hp. pose proof (phys_cs q Hp). destruct (wo_tables _ _ Hw i Hi) as ((? & Hm & _) & _).
  split; [by apply aligned_cluster|apply Z.div_pos; lia].
Qed.
Lemma data_aligned P q i j : write_ok P q → 0 ≤ j < l2_entries q → dh q i j ≠ 0 → dh q i j / cluster_size q * cluster_size q = dh q i j ∧ 0 ≤ dh q i j / cluster_size q.
Proof.
  intros Hw Hj Hd. pose proof (write_phys P q Hw) as Hp. pose proof (phys_cs q Hp). destruct (wo_data _ _ Hw i j Hj Hd) as (((? & Hm & _) & _) & _).
  split; [by apply aligned_cluster|apply Z.div_pos; lia].
Qed.
(** A table of the guest that is owned is an owned table, and data is data. *)
Lemma owned_table T D S q i : write_ok (any T D S) q → owned T D S q → l2h q i ≠ 0 → any T D S (l2h q i / cluster_size q) → T (l2h q i / cluster_size q).
Proof.
  intros Hw Ho Hi [?|Hor]; [done|exfalso]. destruct (table_aligned _ _ i Hw Hi) as [Ha _].
  assert (off_table q (l2h q i / cluster_size q)) as [Hn _] by (destruct Hor as [Hd|Hs]; [exact (ow_D _ _ _ _ Ho _ Hd)|apply (ow_S _ _ _ _ Ho _ Hs)]).
  by apply (Hn i Hi).
Qed.
Lemma owned_closed T D S q : write_ok (any T D S) q → owned T D S q → closed (any T D S) q.
Proof.
  intros Hw Ho i j Hj Hi HP Hd. pose proof (owned_table _ _ _ _ i Hw Ho Hi HP) as HT. destruct (ow_entries _ _ _ _ Ho _ j HT Hj) as (_ & _ & He).
  destruct (table_aligned _ _ i Hw Hi) as [Ha _]. rewrite Ha in He. right. left. unfold dh, ge in Hd |- *. rewrite (proj2 (Z.eqb_neq _ _)) in Hd |- * by done. by apply He.
Qed.

(** What a step leaves of what snapshots own. *)
Record stays (T D S : Z → Prop) q q' : Prop := mkStays {
  st_cs : cluster_size q' = cluster_size q;
  st_bits : cluster_bits q' = cluster_bits q;
  st_size : q_size q' = q_size q;
  st_l1 : length (l1 q') = length (l1 q);
  st_P c : any T D S c → ¬ is_meta q c → l2_table q' (c * cluster_size q) = l2_table q (c * cluster_size q);
  st_rc c : S c → rc q c = 1 → rc q' c = 1;
  st_off c : D c ∨ S c → off_table q c → off_table q' c;
  st_data c : T c → off_data q c → off_data q' c;
  st_meta c : is_meta q' c ↔ is_meta q c;
  st_backing o : backing_byte q' o = backing_byte q o;
  st_snaps : nb_snapshots q' = nb_snapshots q ∧ snapshots_offset q' = snapshots_offset q ∧ refcount_bits q' = refcount_bits q }.

Lemma stays_trans T D S q1 q2 q3 : stays T D S q1 q2 → stays T D S q2 q3 → stays T D S q1 q3.
Proof.
  intros [A1 A2 A3 A4 A5 A6 A7 A8 A9 A10 (A11 & A12 & A13)] [B1 B2 B3 B4 B5 B6 B7 B8 B9 B10 (B11 & B12 & B13)]. constructor; try congruence; auto.
  - intros c Hc Hn. rewrite <-A1 at 1. rewrite B5; [rewrite A1; by apply A5|done|by rewrite A9].
  - intros c. by rewrite B9, A9.
  - split_and!; congruence.
Qed.
Lemma wrote_stays T D S lo part q q' : wrote (any T D S) lo part q q' → stays T D S q q'.
Proof.
  intros [A1 A2 A3 A4 A5 A6 (((_ & B2 & B3 & B4 & B5 & B6 & B7 & _ & _ & B10) & _) & _ & Hreg & _) A8]. constructor; try done; try auto.
  - intros c Hc. apply Hreg. by right; right.
  - intros c Hc. apply Hreg. by right.
  - intros c Hc. apply Hreg. by left.
  - intros c. unfold is_meta, l1_region, rt_region. by rewrite B2, B3, B4, B5, A2.
Qed.
Lemma served_stays T D S q q' : (∀ c, S c → 0 ≤ c) → served (any T D S) q q' → stays T D S q q'.
Proof.
  intros H0' [A1 A2 A3 A4 A5 A6 A7 A8 Age A9 A10 A11 A12 (A13 & A14 & _ & A16)]. constructor; try done.
  - by rewrite A4.
  - intros c Hc. rewrite A11; [done|by apply H0'].
  - intros c Hc [Ht Hn]. unfold off_table, l2h. rewrite A4, A1. split; [exact Ht|]. destruct (c_map (l2_cache q') !! (c * cluster_size q)) eqn:E; [|done].
    destruct (A12 (c * cluster_size q)) as [x Hx]; [by rewrite E|congruence].
  - intros c Hc Hd i j. assert (l2_entries q' = l2_entries q) as -> by (unfold l2_entries; by rewrite A1). rewrite A1. intros Hj. unfold dh. rewrite Age by done. by apply Hd.
  - intros o. unfold backing_byte. by rewrite A6.
Qed.

(** What owns nothing of the top is kept. *)
Lemma owned_stays T D S q q' : (∀ c, T c → ¬ is_meta q c) → stays T D S q q' → owned T D S q → owned T D S q'.
Proof.
  intros Htop Hst [A1 A2 A3 A4 A5 A6 A7]. pose proof (st_cs _ _ _ _ _ Hst) as Hcs. constructor; try done.
  - intros c Hc. destruct (A4 c Hc). split; [apply (st_rc _ _ _ _ _ Hst)|apply (st_off _ _ _ _ _ Hst)]; try done; by right.
  - intros c Hc. apply (st_data _ _ _ _ _ Hst); [done|by apply A5].
  - intros c Hc. apply (st_off _ _ _ _ _ Hst); [by left|by apply A6].
  - intros c j Hc. unfold l2_entries. rewrite Hcs. intros Hj. rewrite (st_P _ _ _ _ _ Hst); [by apply A7|by left|by apply Htop].
Qed.

(** ** Snapshots as L1 tables *)

Record snap_ok (T : Z → Prop) q (l : list Z) : Prop := mkSnapOk {
  so_u64 : Forall is_u64 l;
  so_T i : l2h (set_l1 l q) i ≠ 0 → l2h (set_l1 l q) i mod cluster_size q = 0 ∧ T (l2h (set_l1 l q) i / cluster_size q);
  so_inj i i' : l2h (set_l1 l q) i ≠ 0 → l2h (set_l1 l q) i = l2h (set_l1 l q) i' → i = i';
  so_data_inj i j i' j' : 0 ≤ j < l2_entries q → 0 ≤ j' < l2_entries q → dh (set_l1 l q) i j ≠ 0 →
    dh (set_l1 l q) i j = dh (set_l1 l q) i' j' → i = i' ∧ j = j' }.
(** The disk it describes. *)
Definition snap_byte q (l : list Z) (o : Z) : Z := entry_byte (set_l1 l q) (entry_at (set_l1 l q) o) o.

Lemma snap_data T D S q l i j : phys q → owned T D S q → snap_ok T q l → 0 ≤ j < l2_entries q → dh (set_l1 l q) i j ≠ 0 →
  dh (set_l1 l q) i j mod cluster_size q = 0 ∧ D (dh (set_l1 l q) i j / cluster_size q).
Proof.
  intros Hp Ho Hs Hj Hd. unfold dh, ge in Hd |- *. destruct (Z.eqb_spec (l2h (set_l1 l q) i) 0) as [|Hi]; [by rewrite Z.land_0_l in Hd|].
  destruct (so_T _ _ _ Hs i Hi) as [Hm Ht]. destruct (ow_entries _ _ _ _ Ho _ j Ht Hj) as (_ & _ & He). rewrite (aligned_cluster q _ Hp Hm) in He. by destruct (He Hd) as (? & ? & _).
Qed.

Section stable.
Context (T D S : Z → Prop) (q q' : Qcow2Image B) (l : list Z).
Context (Hp : phys q) (Ho : owned T D S q) (Htop : ∀ c, T c ∨ D c → ¬ is_meta q c) (Hst : stays T D S q q') (Hs : snap_ok T q l).

Lemma snap_l2h i : l2h (set_l1 l q') i = l2h (set_l1 l q) i.
Proof. done. Qed.
Lemma snap_ge i j : ge (set_l1 l q') i j = ge (set_l1 l q) i j.
Proof.
  unfold ge. rewrite snap_l2h. destruct (Z.eqb_spec (l2h (set_l1 l q) i) 0) as [|Hi]; [done|]. destruct (so_T _ _ _ Hs i Hi) as [Hm Ht].
  pose proof (st_P _ _ _ _ _ Hst _ (or_introl Ht) (Htop _ (or_introl Ht))) as HP. rewrite (aligned_cluster q _ Hp Hm) in HP.
  change (word (l2_table q' (l2h (set_l1 l q) i)) j = word (l2_table q (l2h (set_l1 l q) i)) j). by rewrite HP.
Qed.
Lemma snap_dh i j : dh (set_l1 l q') i j = dh (set_l1 l q) i j.
Proof. unfold dh. by rewrite snap_ge. Qed.
Lemma snap_ok_stays : snap_ok T q' l.
Proof.
  pose proof (st_cs _ _ _ _ _ Hst) as Hcs. assert (l2_entries q' = l2_entries q) as He by (unfold l2_entries; by rewrite Hcs).
  destruct Hs as [A1 A2 A3 A4]. constructor; try done.
  - intros i. rewrite Hcs. apply A2.
  - intros i j i' j'. rewrite He, !snap_dh. apply A4.
Qed.
(** A snapshot's disk does not change. *)
Lemma snap_byte_stays o : snap_byte q' l o = snap_byte q l o.
Proof.
  pose proof (st_cs _ _ _ _ _ Hst) as Hcs. pose proof (st_bits _ _ _ _ _ Hst) as Hb. unfold snap_byte, entry_at.
  destruct (index_same (set_l1 l q) (set_l1 l q') o) as [-> ->]; [done|done|]. rewrite snap_ge. unfold entry_byte. fold (dh (set_l1 l q) (l1_at (set_l1 l q) o) (l2_index_of (set_l1 l q) o)).
  change (backing_byte (set_l1 l q') o) with (backing_byte q' o). change (backing_byte (set_l1 l q) o) with (backing_byte q o). rewrite (st_backing _ _ _ _ _ Hst).
  change (cluster_size (set_l1 l q')) with (cluster_size q'). change (cluster_size (set_l1 l q)) with (cluster_size q). rewrite Hcs.
  case_match; [done|]. case_match eqn:E; [done|]. bsplit. pose proof (index_range q o Hp) as Hj.
  destruct (snap_data T D S q l _ _ Hp Ho Hs Hj E) as [Hm Hd]. pose proof (st_P _ _ _ _ _ Hst _ (or_intror (or_introl Hd)) (Htop _ (or_intror Hd))) as HP. rewrite (aligned_cluster q _ Hp Hm) in HP.
  f_equal. exact HP.
Qed.
End stable.

(** ** Sharing the guest's disk *)

Definition also (P Q : Z → Prop) (c : Z) : Prop := P c ∨ Q c.

Lemma share_guest T D S q :
  write_ok (any T D S) q → owned T D S q →
  (∀ i, l2h q i ≠ 0 → 2 ≤ rc q (l2h q i / cluster_size q)) →
  (∀ i j, 0 ≤ j < l2_entries q → dh q i j ≠ 0 → 2 ≤ rc q (dh q i j / cluster_size q)) →
  (∀ i j, 0 ≤ j < l2_entries q → dh q i j ≠ 0 → Z.land (ge q i j) COPIED_BIT = 0) →
  let T' := also T (guest_table q) in let D' := also D (guest_data q) in write_ok (any T' D' S) q ∧ owned T' D' S q.
Proof.
  intros Hw Ho HT2 HD2 HC T' D'. pose proof (write_phys _ q Hw) as Hp. pose proof (phys_cs q Hp) as Hcs. set (cs := cluster_size q) in *.
  assert (∀ i, l2h q i ≠ 0 → l2h q i / cs * cs = l2h q i ∧ 0 ≤ l2h q i / cs) as HTa by (intros; by apply (table_aligned (any T D S))).
  assert (∀ i j, 0 ≤ j < l2_entries q → dh q i j ≠ 0 → dh q i j / cs * cs = dh q i j ∧ 0 ≤ dh q i j / cs) as HDa by (intros; by apply (data_aligned (any T D S))).
  assert (∀ k, good q k → 0 ≤ k / cs → k / cs * cs = k → 0 ≤ k / cs ∧ rc q (k / cs) ≠ 0 ∧ ¬ is_block q (k / cs * cs) ∧ (k / cs + 1) * cs ≤ len (q_file q)) as Hgood.
  { intros k ((? & _ & Hl) & ? & ?) Hk0 Hk. rewrite Hk. split_and!; try done. fold cs in Hl. lia. }
  assert (∀ c, guest_table q c → off_data q c) as HTd.
  { intros c (i & Hi & <-) i' j' Hj' Hd'. fold cs. rewrite (proj1 (HTa i Hi)). apply not_eq_sym. by apply (wo_data _ _ Hw i' j' Hj' Hd'). }
  assert (∀ c, guest_data q c → off_table q c) as HDt.
  { intros c (i & j & Hj & Hd & <-). destruct (wo_data _ _ Hw i j Hj Hd) as (_ & Hn & Ht). unfold off_table. fold cs. rewrite (proj1 (HDa i j Hj Hd)).
    split; [intros i' _; apply Ht|done]. }
  split.
  - destruct Hw as [W1 W2 W3 W4 W5 W6 W7 W8 W9 W10 W11 W12 W13]. constructor; try done.
    + intros c Hc. assert (any T D S c ∨ guest_table q c ∨ guest_data q c) as [Hc'|[(i & Hi & <-)|(i & j & Hj & Hd & <-)]] by (unfold any, T', D', also in *; tauto).
      * by apply W11.
      * apply Hgood; [by apply W6|apply HTa; done|apply HTa; done].
      * apply Hgood; [by apply (W9 i j)|apply HDa; done|apply HDa; done].
    + intros i Hi _. by apply HT2.
    + intros i j Hj Hd _. split; [by apply HD2|by apply HC].
  - destruct Ho as [A1 A2 A3 A4 A5 A6 A7]. constructor; try done.
    + intros c [Ht|Ht] [Hd|Hd]; [by apply (A1 c)| | |].
      * destruct Hd as (i & j & Hj & Hd & <-). apply (A5 _ Ht i j Hj Hd). symmetry. by apply HDa.
      * destruct Ht as (i & Hi & <-). apply (proj1 (A6 _ Hd) i Hi). symmetry. by apply HTa.
      * destruct Hd as (i & j & Hj & Hd & <-). apply (HTd _ Ht i j Hj Hd). symmetry. by apply HDa.
    + intros c [Ht|Ht] Hs; [by apply (A2 c)|]. destruct Ht as (i & Hi & <-). apply (proj1 (proj2 (A4 _ Hs)) i Hi). symmetry. by apply HTa.
    + intros c [Hd|Hd] Hs; [by apply (A3 c)|]. destruct Hd as (i & j & Hj & Hd & <-). destruct (A4 _ Hs) as [H1 _]. assert (2 ≤ 1); [|lia]. rewrite <-H1. by apply HD2.
    + intros c [Ht|Ht]; auto.
    + intros c [Hd|Hd]; auto.
    + intros c j [Ht|Ht] Hj; fold cs.
      * destruct (A7 c j Ht Hj) as (? & ? & He). fold cs in He. split_and!; try done. intros Hh. destruct (He Hh) as (? & ? & ?). split_and!; [done|by left|done].
      * destruct Ht as (i & Hi & <-). fold cs. rewrite (proj1 (HTa i Hi)). assert (word (l2_table q (l2h q i)) j = ge q i j) as -> by (unfold ge; by rewrite (proj2 (Z.eqb_neq _ _))).
        destruct (wo_entries _ _ Hw i j Hj) as [? ?]. split_and!; try done. intros Hh. split_and!; [|right; by exists i, j|by apply HC].
        destruct (wo_data _ _ Hw i j Hj Hh) as (((_ & Hm & _) & _) & _). exact Hm.
Qed.

(** The guest's L1 table is then a snapshot's, and so is any with its hosts. *)
Lemma guest_snap T D S q l :
  write_ok (any T D S) q → Forall is_u64 l → (∀ i, l2h (set_l1 l q) i = l2h q i) → snap_ok (also T (guest_table q)) q l ∧ ∀ o, snap_byte q l o = guest_byte q o.
Proof.
  intros Hw Hu Hh. assert (∀ i j, ge (set_l1 l q) i j = ge q i j) as Hge by (intros; unfold ge; by rewrite Hh).
  assert (∀ i j, dh (set_l1 l q) i j = dh q i j) as Hdh by (intros; unfold dh; by rewrite Hge). split.
  - constructor; try done.
    + intros i. rewrite Hh. intros Hi. destruct (wo_tables _ _ Hw i Hi) as ((_ & ? & _) & _). split; [done|]. right. by exists i.
    + intros i i'. rewrite !Hh. apply (wo_tables_inj _ _ Hw).
    + intros i j i' j'. rewrite !Hdh. apply (wo_data_inj _ _ Hw).
  - intros o. rewrite (guest_byte_entry _ q o Hw). unfold snap_byte, entry_at. rewrite Hge. done.
Qed.
End owned.
