(* ===== verification/Qcow2SnapTable.v ===== *)
(** * qcow2 images: the snapshot table

    What [serialize] writes [parse_table] reads back. *)

From S2P Require Import Prelude TableCache Disk Qcow2 Qcow2Alloc Qcow2Read Qcow2Phys Qcow2Steps Qcow2Write Qcow2Open Qcow2Durable Qcow2Header Qcow2Create Qcow2Snapshot.

Lemma of_be16_bytes x : is_u16 x → of_be64 (be16 x) = x.
Proof. intros Hx. unfold is_u16 in Hx. unfold of_be64, be16. cbn [foldl]. pose proof (Z.div_mod x 256 ltac:(lia)). lia. Qed.

Lemma slice_window {A} (l : list A) o n a b : 0 ≤ o → 0 ≤ a ≤ b → b ≤ n → slice l (o + a) (o + b) = slice (slice l o (o + n)) a b.
Proof. intros. unfold slice. rewrite skipn_firstn_comm, firstn_firstn, skipn_skipn. f_equal; [lia|]. f_equal. lia. Qed.

Lemma read_in f off n : off + n ≤ len f → read_exact_at f off n = DOk (slice f off (off + n)).
Proof. intros Hl. unfold read_exact_at. by rewrite (proj2 (Z.leb_le _ (len f))), orb_true_r by lia. Qed.

(** An entry the table can hold: its fields in range, its texts whole UTF-8
    characters, and the extra data the code always writes. *)
Record entry_ok (e : SnapshotEntry) : Prop := mkEntryOk {
  eo_offset : is_u64 (s_l1_table_offset e);
  eo_size : is_u32 (s_l1_size e);
  eo_id : text_ok (s_id e) ∧ is_u16 (len (s_id e));
  eo_name : text_ok (s_name e) ∧ is_u16 (len (s_name e));
  eo_date : is_u32 (s_date_sec e) ∧ is_u32 (s_date_nsec e) ∧ is_u64 (s_vm_clock_nsec e);
  eo_vm : is_u32 (s_vm_state_size e) ∧ ∃ v, s_vm_state_size_large e = Some v ∧ is_u64 v;
  eo_disk : ∃ v, s_disk_size e = Some v ∧ is_u64 v }.

Definition fixed_part (e : SnapshotEntry) : bytes :=
  u64_be (s_l1_table_offset e) ++ be32 (s_l1_size e) ++ be16 (wrap16 (len (s_id e))) ++ be16 (wrap16 (len (s_name e))) ++
  be32 (s_date_sec e) ++ be32 (s_date_nsec e) ++ u64_be (s_vm_clock_nsec e) ++ be32 (s_vm_state_size e) ++ be32 24.
Definition extra_part (e : SnapshotEntry) : bytes := u64_be (effective_vm_state_size e) ++ u64_be (default 0 (s_disk_size e)) ++ u64_be 0.

Lemma len_fixed e : len (fixed_part e) = 40.
Proof. done. Qed.
Lemma len_extra e : len (extra_part e) = 24.
Proof. done. Qed.
Lemma entry_parts e : entry_fields e = fixed_part e ++ extra_part e ++ s_id e ++ s_name e.
Proof. unfold entry_fields, fixed_part, extra_part. by rewrite <-!app_assoc. Qed.
Lemma len_serialize e : len (serialize e) = padded_size e.
Proof.
  unfold serialize, padded_size. rewrite len_app, len_replicate, entry_parts, !len_app, len_fixed, len_extra. set (n := len (s_id e) + len (s_name e)).
  pose proof (len_nonneg (s_id e)). pose proof (len_nonneg (s_name e)).
  replace (40 + (24 + (len (s_id e) + len (s_name e)))) with (64 + n) by lia. replace (40 + 24 + len (s_id e) + len (s_name e)) with (64 + n) by lia.
  assert (0 ≤ n) by lia. clearbody n. unfold div_ceil. Z.to_euclidean_division_equations. lia.
Qed.
Lemma serialize_parts e : ∃ pad, serialize e = fixed_part e ++ extra_part e ++ (s_id e ++ s_name e) ++ pad.
Proof. eexists. unfold serialize. by rewrite entry_parts, <-!app_assoc. Qed.

Lemma bytes_ok_serialize e : entry_ok e → bytes_ok (serialize e).
Proof.
  intros [_ E2 [[I1 _] I3] [[N1 _] N3] (D1 & D2 & _) (V1 & _) _]. unfold serialize. apply bytes_ok_app; [|apply Forall_replicate; unfold is_u8; lia].
  rewrite entry_parts. assert (is_u16 (wrap16 (len (s_id e))) ∧ is_u16 (wrap16 (len (s_name e)))) as [? ?] by (unfold wrap16, is_u16; split; apply Z.mod_pos_bound; lia).
  unfold fixed_part, extra_part. repeat apply bytes_ok_app; try apply bytes_ok_u64_be; try done; try (by apply bytes_ok_be32); by apply bytes_ok_be16.
Qed.

(** The entry at the front of a serialized table. *)
Lemma parse_entry f off e n :
  entry_ok e → 0 ≤ off → off + len (serialize e) ≤ len f → slice f off (off + len (serialize e)) = serialize e →
  parse_entries (S n) f off = (es ← parse_entries n f (off + len (serialize e)); DOk (e :: es)).
Proof.
  intros [E1 E2 [[I1 I2] I3] [[N1 N2] N3] (D1 & D2 & D3) (V1 & v & V2 & V3) (d & K1 & K2)] Hoff Hl Hs.
  assert (∀ a b, 0 ≤ a ≤ b → b ≤ len (serialize e) → slice f (off + a) (off + b) = slice (serialize e) a b) as Hsl.
  { intros a b Hab Hb. rewrite <-Hs. by apply slice_window. }
  rewrite len_serialize in *. destruct (serialize_parts e) as [pad Hpad].
  assert (64 + len (s_id e) + len (s_name e) ≤ padded_size e) as Hps.
  { rewrite <-len_serialize, Hpad, !len_app, len_fixed, len_extra. pose proof (len_nonneg pad). lia. }
  pose proof (len_nonneg (s_id e)). pose proof (len_nonneg (s_name e)).
  assert (wrap16 (len (s_id e)) = len (s_id e) ∧ wrap16 (len (s_name e)) = len (s_name e)) as [W1 W2].
  { unfold wrap16, is_u16 in *. by rewrite !Z.mod_small by lia. }
  cbn [parse_entries]. rewrite (read_in f off 40) by lia. cbn [mbind dres_bind].
  replace (slice f off (off + 40)) with (fixed_part e).
  2: { rewrite <-(Z.add_0_r off) at 1. rewrite Hsl by lia. rewrite Hpad, slice_app_l by (rewrite ?len_fixed; lia). rewrite slice_full; [done|by rewrite len_fixed]. }
  change (slice (fixed_part e) 12 14) with (be16 (wrap16 (len (s_id e)))). change (slice (fixed_part e) 14 16) with (be16 (wrap16 (len (s_name e)))).
  change (slice (fixed_part e) 36 40) with (be32 24). change (of_be64 (be32 24)) with 24. rewrite W1, W2, !of_be16_bytes by done.
  rewrite (read_in f (off + 40) 24) by lia. cbn [mbind dres_bind].
  replace (slice f (off + 40) (off + 40 + 24)) with (extra_part e).
  2: { rewrite <-Z.add_assoc, Hsl by lia. rewrite Hpad, slice_app_r by (rewrite len_fixed; lia). rewrite len_fixed, slice_app_l by (rewrite ?len_extra; lia).
       rewrite slice_full; [done|by rewrite len_extra]. }
  rewrite (read_in f (off + 40 + 24) (len (s_id e) + len (s_name e))) by lia. cbn [mbind dres_bind].
  replace (slice f (off + 40 + 24) (off + 40 + 24 + (len (s_id e) + len (s_name e)))) with (s_id e ++ s_name e).
  2: { rewrite <-!Z.add_assoc, Hsl by lia. rewrite Hpad, slice_app_r by (rewrite len_fixed; lia). rewrite len_fixed, slice_app_r by (rewrite ?len_extra; lia).
       rewrite len_extra, slice_app_l by (rewrite ?len_app; lia). rewrite slice_full; [done|rewrite len_app; lia]. }
  replace (slice (s_id e ++ s_name e) 0 (len (s_id e))) with (s_id e) by (rewrite slice_app_l by lia; by rewrite slice_full by lia).
  replace (slice (s_id e ++ s_name e) (len (s_id e)) (len (s_id e) + len (s_name e))) with (s_name e)
    by (rewrite slice_app_r, Z.sub_diag by lia; rewrite slice_full by lia; done).
  rewrite I2, N2. replace (div_ceil (40 + 24 + len (s_id e) + len (s_name e)) 8 * 8) with (padded_size e) by done.
  destruct (parse_entries n f (off + padded_size e)) as [es| | |]; cbn [mbind dres_bind]; [|done..]. do 2 f_equal.
  change (slice (fixed_part e) 0 8) with (u64_be (s_l1_table_offset e)). change (slice (fixed_part e) 8 12) with (be32 (s_l1_size e)).
  change (slice (fixed_part e) 16 20) with (be32 (s_date_sec e)). change (slice (fixed_part e) 20 24) with (be32 (s_date_nsec e)).
  change (slice (fixed_part e) 24 32) with (u64_be (s_vm_clock_nsec e)). change (slice (fixed_part e) 32 36) with (be32 (s_vm_state_size e)).
  change (slice (extra_part e) 0 8) with (u64_be (effective_vm_state_size e)). change (slice (extra_part e) 8 16) with (u64_be (default 0 (s_disk_size e))).
  cbn [Z.leb Z.compare Pos.compare Pos.compare_cont]. unfold effective_vm_state_size. rewrite V2, K1. cbn [default from_option id].
  rewrite !of_u64_be, !of_be32_bytes by done. rewrite <-V2, <-K1. by destruct e.
Qed.

(** Reading a table that was written gives its entries. *)
Lemma parse_serialized f off es :
  Forall entry_ok es → 0 ≤ off → off + len (es ≫= serialize) ≤ len f → slice f off (off + len (es ≫= serialize)) = es ≫= serialize →
  parse_entries (length es) f off = DOk es.
Proof.
  intros He. revert off. induction He as [|e es He Hes IH]; intros off Hoff Hl Hs; [done|]. cbn [mbind list_bind] in *. rewrite len_app in *.
  pose proof (len_nonneg (serialize e)). pose proof (len_nonneg (es ≫= serialize)).
  assert (∀ a b, 0 ≤ a ≤ b → b ≤ len (serialize e) + len (es ≫= serialize) → slice f (off + a) (off + b) = slice (serialize e ++ (es ≫= serialize)) a b) as Hsl.
  { intros a b Hab Hb. rewrite <-Hs. by apply slice_window. }
  cbn [length]. rewrite (parse_entry f off e); [|done|done|lia|].
  - rewrite IH; [done|lia|lia|]. rewrite <-Z.add_assoc, Hsl, slice_app_r, Z.sub_diag by lia. rewrite slice_full; [done|lia].
  - rewrite <-(Z.add_0_r off) at 1. rewrite Hsl, slice_app_l by lia. by rewrite slice_full by lia.
Qed.

(** ** Identifiers *)

Definition digit (x : Z) : Prop := 48 ≤ x ≤ 57.
Lemma utf8_digits b : Forall digit b → utf8_lossy (length b) b = b.
Proof.
  induction 1 as [|x b Hx Hb IH]; [done|]. unfold digit in Hx. cbn [length utf8_lossy utf8_step]. rewrite (proj2 (Z.ltb_lt x 0x80)) by lia.
  cbn [take drop app]. by rewrite drop_0, IH.
Qed.
Lemma digits_text b : Forall digit b → text_ok b.
Proof. intros Hb. split; [|by apply utf8_digits]. eapply Forall_impl; [exact Hb|]. unfold digit, is_u8. lia. Qed.

Lemma digits_forall fuel n acc : 0 ≤ n → Forall digit acc → Forall digit (digits fuel n acc).
Proof.
  revert n acc. induction fuel as [|fuel IH]; intros n acc Hn Ha; [done|]. cbn [digits]. pose proof (Z.mod_pos_bound n 10 ltac:(lia)).
  assert (Forall digit ((48 + n mod 10) :: acc)) by (constructor; [unfold digit; lia|done]). case_match; [done|]. apply IH; [|done]. apply Z.div_pos; lia.
Qed.
Lemma digits_length fuel n acc : (length acc < length (digits (S fuel) n acc) ≤ S fuel + length acc)%nat.
Proof.
  revert n acc. induction fuel as [|fuel IH]; intros n acc.
  - cbn [digits]. case_match; cbn [length]; lia.
  - cbn [digits]. case_match; [cbn [length]; lia|]. specialize (IH (n / 10) ((48 + n mod 10) :: acc)). cbn [length digits] in IH. lia.
Qed.
Lemma parse_digits_digits fuel n acc : 0 ≤ n ≤ U64_MAX → n < 10 ^ Z.of_nat fuel → parse_digits 0 (digits fuel n acc) = parse_digits n acc.
Proof.
  revert n acc. induction fuel as [|fuel IH]; intros n acc Hn Hlt.
  - change (10 ^ Z.of_nat 0) with 1 in Hlt. assert (n = 0) as -> by lia. done.
  - cbn [digits]. pose proof (Z.div_mod n 10 ltac:(lia)) as Hd. pose proof (Z.mod_pos_bound n 10 ltac:(lia)).
    assert (∀ m, m * 10 + n mod 10 = n → parse_digits m ((48 + n mod 10) :: acc) = parse_digits n acc) as Hstep.
    { intros m Hm. cbn [parse_digits]. rewrite (proj2 (Z.leb_le 48 _)), (proj2 (Z.leb_le _ 57)) by lia. cbn [andb].
      replace (m * 10 + (48 + n mod 10 - 48)) with n by lia. by rewrite (proj2 (Z.ltb_ge _ _)) by lia. }
    destruct (Z.eqb_spec (n / 10) 0) as [Hz|Hz]; [apply Hstep; lia|]. rewrite IH; [apply Hstep; lia|assert (0 ≤ n / 10) by (apply Z.div_pos; lia); lia|].
    apply Z.div_lt_upper_bound; [lia|]. replace (Z.of_nat (S fuel)) with (Z.succ (Z.of_nat fuel)) in Hlt by lia. rewrite Z.pow_succ_r in Hlt by lia. lia.
Qed.
Lemma parse_u64_digit x b : x ≠ 43 → parse_u64 (x :: b) = parse_digits 0 (x :: b).
Proof. intros Hx. unfold parse_u64. destruct x as [|p|p]; [done| |done]. do 6 (try (destruct p; try done)). Qed.
(** Printing an id and reading it back. *)
Lemma parse_to_string n : 0 ≤ n ≤ U64_MAX → parse_u64 (u64_to_string n) = Some n.
Proof.
  intros Hn. pose proof (parse_digits_digits 20 n [] Hn ltac:(unfold U64_MAX in *; lia)) as Hp. change (parse_digits n []) with (Some n) in Hp.
  pose proof (digits_forall 20 n [] ltac:(lia) ltac:(constructor)) as Hd. pose proof (digits_length 19 n []) as Hl. unfold u64_to_string.
  destruct (digits 20 n []) as [|x b]; [simpl in Hl; lia|]. apply Forall_cons in Hd as [Hx _]. unfold digit in Hx.
  rewrite parse_u64_digit by lia. exact Hp.
Qed.
(** The id of a new snapshot is no other's, and fits. *)
Lemma next_id_spec es sid : next_snapshot_id es = Ret sid → (∀ e, e ∈ es → s_id e ≠ sid) ∧ text_ok sid ∧ 0 < len sid ≤ 20.
Proof.
  unfold next_snapshot_id. set (m := foldr Z.max 0 (omap (parse_u64 ∘ s_id) es)). destruct (Z.ltb_spec U64_MAX (m + 1)) as [|Hle]; [done|]. intros [= <-].
  assert (0 ≤ m ∧ ∀ e n, e ∈ es → parse_u64 (s_id e) = Some n → n ≤ m) as [Hm Hmax].
  { unfold m. clear. induction es as [|e es [IH1 IH2]]; [split; [done|by intros ? ? ?%elem_of_nil]|]. cbn [omap list_omap compose]. unfold compose in *.
    destruct (parse_u64 (s_id e)) as [n|] eqn:E; cbn [foldr]; split; [lia| |done|]; intros e' n' He' Hn'; apply elem_of_cons in He' as [->|He'].
    - assert (n' = n) by congruence. lia.
    - specialize (IH2 e' n' He' Hn'). lia.
    - congruence.
    - by apply (IH2 e'). }
  split_and!.
  - intros e He Heq. assert (m + 1 ≤ m); [|lia]. apply (Hmax e); [done|]. rewrite Heq. apply parse_to_string. lia.
  - apply digits_text, digits_forall; [lia|constructor].
  - pose proof (digits_length 19 (m + 1) []) as Hl. change (length (@nil Z)) with 0%nat in Hl. unfold u64_to_string, len. lia.
  - pose proof (digits_length 19 (m + 1) []) as Hl. change (length (@nil Z)) with 0%nat in Hl. unfold u64_to_string, len. lia.
Qed.
