(* ===== verification/Qcow2Snaps.v ===== *)
(** * qcow2 images: the invariant of an image with snapshots

    The snapshot table and each snapshot's L1 table lie in clusters of their
    own; each L1 table describes a disk that stays as it is. *)

From S2P Require Import Prelude TableCache Disk Qcow2 Qcow2Alloc Qcow2Read Qcow2Phys Qcow2Steps Qcow2Free Qcow2Write Qcow2Guest Qcow2Correct Qcow2Open Qcow2Durable Qcow2Header Qcow2Create Qcow2Snapshot Qcow2Walk Qcow2Copied Qcow2Owned Qcow2SnapTable.

Section snaps.
Context {B : Type} `{HB : DiskContents B} `{HI : InflateLaws}.
Implicit Types q : Qcow2Image B.

(** ** Ownership and the top of the image *)

Record owns (T D S : Z → Prop) q : Prop := mkOwns {
  on_ok : write_ok (any T D S) q;
  on_owned : owned T D S q;
  on_meta : meta_ok (any T D S) q;
  on_top c : 0 ≤ c → is_meta q c → S c }.

Lemma owns_phys T D S q : owns T D S q → phys q.
Proof. intros Ho. exact (write_phys _ _ (on_ok _ _ _ _ Ho)). Qed.
Lemma any_nonneg T D S q c : owns T D S q → any T D S c → 0 ≤ c.
Proof. intros Ho Hc. by apply (wo_P _ _ (on_ok _ _ _ _ Ho) c Hc). Qed.
Lemma owns_top T D S q c : owns T D S q → T c ∨ D c → ¬ is_meta q c.
Proof.
  intros Ho Hc Hm. assert (0 ≤ c) as Hc0 by (apply (any_nonneg T D S q); [done|unfold any; tauto]). pose proof (on_top _ _ _ _ Ho c Hc0 Hm) as Hs.
  destruct Hc as [Ht|Hd]; [by apply (ow_TS _ _ _ _ (on_owned _ _ _ _ Ho) c)|by apply (ow_DS _ _ _ _ (on_owned _ _ _ _ Ho) c)].
Qed.
Lemma owns_stays T D S q q' : owns T D S q → write_ok (any T D S) q' → meta_ok (any T D S) q' → stays T D S q q' → owns T D S q'.
Proof.
  intros Ho Hw' Hm' Hst. constructor; try done.
  - apply (owned_stays _ _ _ q); [|done|by apply Ho]. intros c Hc. apply (owns_top T D S q); auto.
  - intros c Hc Hi. apply (on_top _ _ _ _ Ho c Hc). by apply (st_meta _ _ _ _ _ Hst).
Qed.
Lemma owns_kept T D S q q' :
  owns T D S q → write_ok (any T D S) q' → stays T D S q q' → meta_kept q q' → length (refcount_table q') = length (refcount_table q) →
  (∀ c, any T D S c → l2_table q' (c * cluster_size q) = l2_table q (c * cluster_size q)) → owns T D S q'.
Proof.
  intros Ho Hw' Hst Hmk Hrl HP. pose proof (st_cs _ _ _ _ _ Hst) as Hcs. apply (owns_stays T D S q); try done.
  apply (meta_ok_kept _ q); try done; try apply Hst; [apply Ho|apply Ho|apply Hw'|]. intros c Hc Hi. pose proof (on_top _ _ _ _ Ho c Hc Hi) as HS.
  destruct (ow_S _ _ _ _ (on_owned _ _ _ _ Ho) c HS) as [Hone Hoff]. destruct (st_off _ _ _ _ _ Hst c (or_intror HS) Hoff) as [_ Hn]. rewrite Hcs in Hn.
  assert (any T D S c) as HPc by (by right; right). destruct (wo_P _ _ Hw' c HPc) as (_ & _ & _ & Hf). rewrite Hcs in Hf.
  split_and!; try done; [by apply (st_rc _ _ _ _ _ Hst)|by apply HP].
Qed.
Lemma owns_wrote T D S lo part q q' : owns T D S q → write_ok (any T D S) q' → wrote (any T D S) lo part q q' → owns T D S q' ∧ stays T D S q q'.
Proof.
  intros Ho Hw' Hwr. pose proof (wrote_stays _ _ _ _ _ _ _ Hwr) as Hst. split; [|done]. apply (owns_stays _ _ _ q); try done.
  exact (wrote_meta_ok _ _ _ _ _ (on_ok _ _ _ _ Ho) Hw' (on_meta _ _ _ _ Ho) Hwr).
Qed.

(** ** Clusters with a known beginning *)

Definition holds (S : Z → Prop) q (off : Z) (b : bytes) : Prop :=
  ∃ c, off = c * cluster_size q ∧ S c ∧ ¬ is_meta q c ∧ len b ≤ cluster_size q ∧ slice (l2_table q off) 0 (len b) = b.

Lemma holds_file T D S q off b : owns T D S q → holds S q off b →
  0 ≤ off ∧ off + len b ≤ len (q_file q) ∧ slice (q_file q) off (off + len b) = b.
Proof.
  intros Ho (c & -> & Hs & _ & Hl & Hb). pose proof (phys_cs q (owns_phys _ _ _ _ Ho)) as Hcs. pose proof (len_nonneg b).
  destruct (wo_P _ _ (on_ok _ _ _ _ Ho) c) as (Hc0 & _ & _ & Hf); [by right; right|]. destruct (ow_S _ _ _ _ (on_owned _ _ _ _ Ho) c Hs) as [_ [_ Hn]].
  split_and!; [nia|nia|]. unfold l2_table, view in Hb. rewrite Hn, tables_at in Hb by (nia || (apply Z.mod_mul; lia)).
  rewrite <-Hb at 2. rewrite <-(Z.add_0_r (c * cluster_size q)) at 1. apply slice_window; nia.
Qed.
Lemma holds_stays T D S q q' off b : stays T D S q q' → holds S q off b → holds S q' off b.
Proof.
  intros Hst (c & -> & Hs & Hm & Hl & Hb). pose proof (st_cs _ _ _ _ _ Hst) as Hcs. exists c. rewrite Hcs, (st_meta _ _ _ _ _ Hst). split_and!; try done.
  rewrite (st_P _ _ _ _ _ Hst c); [done|by right; right|done].
Qed.
Lemma holds_mono (S S' : Z → Prop) q off b : (∀ c, S c → off = c * cluster_size q → S' c) → holds S q off b → holds S' q off b.
Proof. intros HS (c & He & Hs & ?). exists c. split; [done|]. split; [by apply HS|done]. Qed.

(** ** Snapshots *)

Record listed (T S : Z → Prop) q (e : SnapshotEntry) (l : list Z) : Prop := mkListed {
  li_l1 : holds S q (s_l1_table_offset e) (table_bytes l);
  li_len : s_l1_size e = Z.of_nat (length l) ∧ length l = length (l1 q);
  li_disk : s_disk_size e = Some (q_size q);
  li_snap : snap_ok T q l }.

Definition tabled (S : Z → Prop) q (es : list SnapshotEntry) : Prop :=
  nb_snapshots q = Z.of_nat (length es) ∧
  if decide (es = []) then snapshots_offset q = 0
  else snapshots_offset q ≠ 0 ∧ holds S q (snapshots_offset q) (es ≫= serialize) ∧ Forall (λ e, s_l1_table_offset e ≠ snapshots_offset q) es.

Record snaps (T D S : Z → Prop) q (es : list SnapshotEntry) : Prop := mkSnaps {
  sn_owns : owns T D S q;
  sn_fields : Forall entry_ok es;
  sn_table : tabled S q es;
  sn_l1 e : e ∈ es → ∃ l, listed T S q e l }.

Lemma listed_stays T D S q q' e l : owns T D S q → stays T D S q q' → listed T S q e l →
  listed T S q' e l ∧ ∀ o, snap_byte q' l o = snap_byte q l o.
Proof.
  intros Ho Hst [A1 A2 A3 A4]. pose proof (owns_phys _ _ _ _ Ho) as Hp. pose proof (on_owned _ _ _ _ Ho) as Hoo.
  assert (∀ c, T c ∨ D c → ¬ is_meta q c) as Htop by (intros c; by apply (owns_top T D S)). split.
  - constructor; [by apply (holds_stays T D S q)|by rewrite (st_l1 _ _ _ _ _ Hst)|by rewrite (st_size _ _ _ _ _ Hst)|]. by apply (snap_ok_stays T D S q).
  - intros o. by apply (snap_byte_stays T D S).
Qed.
Lemma tabled_stays T D S q q' es : stays T D S q q' → tabled S q es → tabled S q' es.
Proof.
  intros Hst [Hn Hes]. destruct (st_snaps _ _ _ _ _ Hst) as (E1 & E2 & _). unfold tabled. rewrite E1, E2. split; [done|]. case_decide; [done|].
  destruct Hes as (? & ? & ?). split_and!; try done. by apply (holds_stays T D S q).
Qed.
Lemma snaps_stays T D S q q' es : snaps T D S q es → owns T D S q' → stays T D S q q' → snaps T D S q' es.
Proof.
  intros [A1 A2 A3 A4] Ho' Hst. constructor; try done; [by apply (tabled_stays T D S q)|]. intros e He. destruct (A4 e He) as [l Hl]. exists l.
  by apply (listed_stays T D S q).
Qed.

(** ** Reading *)

(** What it takes to read the table. *)
Definition shelved (T D S : Z → Prop) q (es : list SnapshotEntry) : Prop := owns T D S q ∧ Forall entry_ok es ∧ tabled S q es.
Lemma snaps_shelved T D S q es : snaps T D S q es → shelved T D S q es.
Proof. by intros []. Qed.
Lemma parse_shelved T D S q es : shelved T D S q es → parse_table q = (q, DOk es).
Proof.
  intros (Ho & Hf & [Hn Ht]). unfold parse_table. rewrite (dbind_ok _ _ q q q) by done. unfold id. rewrite Hn. case_decide as E; [by subst es|].
  destruct Ht as (_ & Hh & _). rewrite (proj2 (Z.eqb_neq _ _)) by (destruct es; [done|cbn [length]; lia]). rewrite Nat2Z.id.
  destruct (holds_file _ _ _ _ _ _ Ho Hh) as (? & ? & ?). unfold dpure. by rewrite parse_serialized.
Qed.
Lemma parse_table_spec T D S q es : snaps T D S q es → parse_table q = (q, DOk es).
Proof. intros Hs. by apply (parse_shelved T D S), snaps_shelved. Qed.
Lemma read_l1_spec T D S q e l : owns T D S q → listed T S q e l → read_snapshot_l1 e q = (q, DOk l).
Proof.
  intros Ho [Hh [Hl _] _ Hs]. destruct (holds_file _ _ _ _ _ _ Ho Hh) as (? & ? & Hsl). pose proof (len_table_bytes l) as Hlt. unfold read_snapshot_l1.
  rewrite (dbind_ok _ _ q q (table_bytes l)).
  - unfold mret, dstate_ret. do 2 f_equal. apply words_table_bytes. apply Hs.
  - unfold read_file. rewrite (dbind_ok _ _ q q q) by done. unfold id, dpure. replace (s_l1_size e * 8) with (len (table_bytes l)) by lia.
    rewrite read_in by lia. by rewrite Hsl.
Qed.
Lemma find_snapshot_spec T D S q es name pos e :
  snaps T D S q es → list_find (λ e, entry_named name e = true) es = Some (pos, e) → find_snapshot name q = (q, DOk e) ∧ ∃ l, listed T S q e l.
Proof.
  intros Hs Hf. split.
  - unfold find_snapshot. rewrite (dbind_ok _ _ _ _ _ (parse_table_spec _ _ _ _ _ Hs)). by rewrite Hf.
  - apply (sn_l1 _ _ _ _ _ Hs). apply list_find_Some in Hf as (Hl & _). by eapply list_elem_of_lookup_2.
Qed.
End snaps.
