(* ===== verification/Qcow2Reach.v ===== *)
(** * qcow2 images: what an L1 table reaches

    The clusters [walk_refcounts] counts for an L1 table are its tables and
    their data, each once when the table maps no cluster twice. *)

From S2P Require Import Prelude TableCache Disk Qcow2 Qcow2Alloc Qcow2Read Qcow2Phys Qcow2Steps Qcow2Free Qcow2Write Qcow2Guest Qcow2Correct Qcow2Open Qcow2Durable Qcow2Header Qcow2Create Qcow2Snapshot Qcow2Walk Qcow2Copied Qcow2Owned Qcow2SnapTable Qcow2Snaps.

(** A list whose parts do not meet. *)
Lemma NoDup_bind_at {A C} (f : A → list C) (l : list A) :
  (∀ i i' x x' y, l !! i = Some x → l !! i' = Some x' → y ∈ f x → y ∈ f x' → i = i') → (∀ x, x ∈ l → NoDup (f x)) → NoDup (l ≫= f).
Proof.
  induction l as [|x l IH]; intros Hd Hf; [constructor|]. cbn [mbind list_bind]. apply NoDup_app. split_and!.
  - apply Hf. by left.
  - intros y Hy (x' & Hy' & Hx')%list_elem_of_bind. apply list_elem_of_lookup in Hx' as [i Hi]. by specialize (Hd 0%nat (S i) x x' y eq_refl Hi Hy Hy').
  - apply IH; [|intros x' Hx'; apply Hf; by right]. intros i i' y1 y2 z H1 H2 H3 H4. by specialize (Hd (S i) (S i') y1 y2 z H1 H2 H3 H4); simplify_eq.
Qed.

Section reach.
Context {B : Type} `{HB : DiskContents B} `{HI : InflateLaws}.
Implicit Types q : Qcow2Image B.

Definition reach q (l : list Z) (x : Z) : Prop := guest_table (set_l1 l q) x ∨ guest_data (set_l1 l q) x.

(** Tables and data apart, each at one place. *)
Record mapped q (l : list Z) : Prop := mkMapped {
  mp_table i : l2h (set_l1 l q) i ≠ 0 → l2h (set_l1 l q) i mod cluster_size q = 0;
  mp_inj i i' : l2h (set_l1 l q) i ≠ 0 → l2h (set_l1 l q) i = l2h (set_l1 l q) i' → i = i';
  mp_data i j : 0 ≤ j < l2_entries q → dh (set_l1 l q) i j ≠ 0 → dh (set_l1 l q) i j mod cluster_size q = 0;
  mp_data_inj i j i' j' : 0 ≤ j < l2_entries q → 0 ≤ j' < l2_entries q → dh (set_l1 l q) i j ≠ 0 →
    dh (set_l1 l q) i j = dh (set_l1 l q) i' j' → i = i' ∧ j = j';
  mp_apart i i' j : 0 ≤ j < l2_entries q → l2h (set_l1 l q) i ≠ 0 → dh (set_l1 l q) i' j ≠ 0 → l2h (set_l1 l q) i ≠ dh (set_l1 l q) i' j }.

Lemma set_l1_same q : set_l1 (l1 q) q = q.
Proof. by destruct q. Qed.
Lemma guest_mapped P q : write_ok P q → mapped q (l1 q).
Proof.
  intros Hw. constructor; rewrite set_l1_same.
  - intros i Hi. by destruct (wo_tables _ _ Hw i Hi) as ((_ & ? & _) & _).
  - apply (wo_tables_inj _ _ Hw).
  - intros i j Hj Hd. by destruct (wo_data _ _ Hw i j Hj Hd) as (((_ & ? & _) & _) & _).
  - apply (wo_data_inj _ _ Hw).
  - intros i i' j Hj Hi Hd. by apply (wo_data _ _ Hw i' j Hj Hd).
Qed.
Lemma snap_mapped T D S q l : phys q → owned T D S q → snap_ok T q l → mapped q l.
Proof.
  intros Hp Ho Hs. pose proof Hs as [S1 S2 S3 S4]. constructor; try done.
  - intros i Hi. by apply S2.
  - intros i j Hj Hd. by apply (snap_data T D S q l i j).
  - intros i i' j Hj Hi Hd Heq. destruct (S2 i Hi) as [_ Ht]. destruct (snap_data T D S q l i' j Hp Ho Hs Hj Hd) as [_ Hdd]. rewrite Heq in Ht.
    by apply (ow_TD _ _ _ _ Ho _ Ht).
Qed.
(** What a snapshot reaches, snapshots own. *)
Lemma snap_reach T D S q l x : phys q → owned T D S q → snap_ok T q l → reach q l x → T x ∨ D x.
Proof.
  intros Hp Ho Hs [(i & Hi & <-)|(i & j & Hj & Hd & <-)]; [left; by apply (so_T _ _ _ Hs)|right]. by apply (snap_data T D S q l i j).
Qed.

(** ** As lists *)

Lemma words_lookup q k n w : words q k !! n = Some w → Z.of_nat n < l2_entries q ∧ w = word (l2_table q k) (Z.of_nat n).
Proof.
  unfold words. rewrite list_lookup_fmap. destruct (seqZ 0 (l2_entries q) !! n) eqn:E; [|done]. apply lookup_seqZ in E as [-> ?]. cbn. intros [= <-]. done.
Qed.
Lemma l1_lookup q l i e : l !! i = Some e → l2h (set_l1 l q) i = Z.land e OFFSET_MASK.
Proof. intros He. unfold l2h. cbn [l1 set_l1]. by rewrite He. Qed.
Lemma data_refs_elem q l i e x : l !! i = Some e → Z.land e OFFSET_MASK ≠ 0 → x ∈ data_refs (cluster_size q) (words q (Z.land e OFFSET_MASK)) ↔
  ∃ j, 0 ≤ j < l2_entries q ∧ dh (set_l1 l q) i j ≠ 0 ∧ dh (set_l1 l q) i j / cluster_size q = x.
Proof.
  intros He Hne. assert (∀ j, dh (set_l1 l q) i j = Z.land (word (l2_table q (Z.land e OFFSET_MASK)) j) OFFSET_MASK) as Hdh.
  { intros j. unfold dh, ge. rewrite (l1_lookup q l i e He), (proj2 (Z.eqb_neq _ _)) by done. done. }
  unfold data_refs. rewrite list_elem_of_bind. split.
  - intros (w & Hx & Hw). apply list_elem_of_lookup in Hw as [n Hn]. apply words_lookup in Hn as [Hlt ->]. exists (Z.of_nat n). rewrite Hdh.
    case_match; [by apply elem_of_nil in Hx|]. apply list_elem_of_singleton in Hx. bsplit. split_and!; try (done || lia).
  - intros (j & Hj & Hd & <-). rewrite Hdh in Hd |- *. exists (word (l2_table q (Z.land e OFFSET_MASK)) j). rewrite (proj2 (Z.eqb_neq _ _)) by done.
    split; [by apply list_elem_of_singleton|]. unfold words. apply list_elem_of_fmap. exists j. split; [done|]. apply elem_of_seqZ. lia.
Qed.
Lemma refs_elem q l i e x : l !! i = Some e → x ∈ refs q e ↔ l2h (set_l1 l q) i ≠ 0 ∧
  (l2h (set_l1 l q) i / cluster_size q = x ∨ ∃ j, 0 ≤ j < l2_entries q ∧ dh (set_l1 l q) i j ≠ 0 ∧ dh (set_l1 l q) i j / cluster_size q = x).
Proof.
  intros He. unfold refs. rewrite (l1_lookup q l i e He). destruct (Z.eqb_spec (Z.land e OFFSET_MASK) 0) as [Hz|Hz].
  - rewrite elem_of_nil. split; [done|by intros []].
  - rewrite elem_of_cons, (data_refs_elem q l i e x He Hz). split; [intros [->|?]; tauto|intros [_ [<-|?]]; tauto].
Qed.
Lemma reach_elem q l x : x ∈ l ≫= refs q ↔ reach q l x.
Proof.
  assert (∀ i, l2h (set_l1 l q) i ≠ 0 → is_Some (l !! i)) as Hsome.
  { intros i. unfold l2h. cbn [l1 set_l1]. destruct (l !! i); [done|]. cbn. done. }
  rewrite list_elem_of_bind. split.
  - intros (e & Hx & Hin). apply list_elem_of_lookup in Hin as [i Hi]. destruct (proj1 (refs_elem q l i e x Hi) Hx) as [Hne [<-|(j & ? & ? & <-)]]; [left; by exists i|right; by exists i, j].
  - intros [(i & Hi & <-)|(i & j & Hj & Hd & <-)].
    + destruct (Hsome i Hi) as [e He]. exists e. split; [|by eapply list_elem_of_lookup_2]. apply (refs_elem q l i e _ He). auto.
    + assert (l2h (set_l1 l q) i ≠ 0) as Hi by (intros Hz; apply Hd; unfold dh, ge; by rewrite Hz). destruct (Hsome i Hi) as [e He]. exists e.
      split; [|by eapply list_elem_of_lookup_2]. apply (refs_elem q l i e _ He). split; [done|]. right. by exists j.
Qed.
Lemma reach_once q l : phys q → mapped q l → NoDup (l ≫= refs q).
Proof.
  intros Hp [M1 M2 M3 M4 M5]. pose proof (aligned_same q) as Hal. apply NoDup_bind_at.
  - intros i i' e e' x He He'. rewrite (refs_elem q l i e x He), (refs_elem q l i' e' x He').
    intros [Hi [Hx|(j & Hj & Hd & Hx)]] [Hi' [Hx'|(j' & Hj' & Hd' & Hx')]].
    + apply M2; [done|]. apply Hal; auto. congruence.
    + exfalso. apply (M5 i i' j' Hj' Hi Hd'). apply Hal; auto. congruence.
    + exfalso. apply (M5 i' i j Hj Hi' Hd). apply Hal; auto. congruence.
    + apply (M4 i j i' j'); try done. apply Hal; auto. congruence.
  - intros e He. apply list_elem_of_lookup in He as [i He]. unfold refs. destruct (Z.eqb_spec (Z.land e OFFSET_MASK) 0) as [Hz|Hz]; [constructor|].
    pose proof (l1_lookup q l i e He) as Hl2. constructor.
    + rewrite (data_refs_elem q l i e _ He Hz). intros (j & Hj & Hd & Hx). apply (M5 i i j Hj); [by rewrite Hl2|done|]. apply Hal; auto; [apply M1; by rewrite Hl2|].
      by rewrite Hl2.
    + unfold data_refs. assert (∀ n w, words q (Z.land e OFFSET_MASK) !! n = Some w → 0 ≤ Z.of_nat n < l2_entries q ∧ Z.land w OFFSET_MASK = dh (set_l1 l q) i (Z.of_nat n)) as Hw.
      { intros n w Hn. apply words_lookup in Hn as [? ->]. split; [lia|]. unfold dh, ge. rewrite Hl2, (proj2 (Z.eqb_neq _ _)) by done. done. }
      apply NoDup_bind_at; [|intros w _; case_match; [constructor|apply NoDup_singleton]]. intros n n' w w' x Hn Hn'.
      destruct (Hw n w Hn) as [Hj ->], (Hw n' w' Hn') as [Hj' ->].
      destruct (Z.eqb_spec (dh (set_l1 l q) i (Z.of_nat n)) 0) as [|Hd]; [by intros ?%elem_of_nil|]. destruct (Z.eqb_spec (dh (set_l1 l q) i (Z.of_nat n')) 0) as [|Hd']; [by intros _ ?%elem_of_nil|].
      rewrite !list_elem_of_singleton. intros -> Hx. destruct (M4 i (Z.of_nat n) i (Z.of_nat n')) as [_ ?]; try done; [|lia]. apply Hal; auto.
Qed.
(** How often a cluster is counted. *)
Lemma reach_cnt q l x : phys q → mapped q l → cnt (l ≫= refs q) x ≤ 1 ∧ (reach q l x ↔ cnt (l ≫= refs q) x = 1) ∧ (¬ reach q l x ↔ cnt (l ≫= refs q) x = 0).
Proof.
  intros Hp Hm. pose proof (cnt_nodup _ x (reach_once q l Hp Hm)) as Hle. pose proof (cnt_elem (l ≫= refs q) x) as He. rewrite reach_elem in He.
  pose proof (cnt_nonneg (l ≫= refs q) x). split; [done|]. split; (split; [intros Hr|intros Hr]).
  - apply He in Hr. lia.
  - apply He. lia.
  - destruct (decide (cnt (l ≫= refs q) x = 0)); [done|]. exfalso. apply Hr, He. lia.
  - rewrite He. lia.
Qed.

(** ** Walks *)

(** Tables and data clusters of L1 table [l] that can be counted. *)
Definition countable_at q (l : list Z) : Prop :=
  (∀ i, l2h (set_l1 l q) i ≠ 0 → good q (l2h (set_l1 l q) i) ∧ ∀ j, 0 ≤ j < l2_entries q → Z.land (ge (set_l1 l q) i j) COMPRESSED_BIT = 0) ∧
  (∀ i j, 0 ≤ j < l2_entries q → dh (set_l1 l q) i j ≠ 0 → good q (dh (set_l1 l q) i j)).

Lemma countable_walkable q l e : countable_at q l → e ∈ l → Z.land e OFFSET_MASK ≠ 0 → walkable q (Z.land e OFFSET_MASK).
Proof.
  intros [Ht _] He Hne. apply list_elem_of_lookup in He as [i Hi]. pose proof (l1_lookup q l i e Hi) as Hl. destruct (Ht i) as [(? & _ & ?) Hc]; [by rewrite Hl|].
  rewrite Hl in *. split_and!; try done. apply Forall_lookup. intros n w Hn. apply words_lookup in Hn as [? ->]. specialize (Hc (Z.of_nat n) ltac:(lia)).
  unfold ge in Hc. rewrite Hl, (proj2 (Z.eqb_neq _ _)) in Hc by done. exact Hc.
Qed.
Lemma reach_good q l x : phys q → countable_at q l → reach q l x → good q (x * cluster_size q) ∧ 0 < x.
Proof.
  intros Hp [Ht Hd] Hr. pose proof (phys_cs q Hp). assert (∃ k, k ≠ 0 ∧ good q k ∧ k / cluster_size q = x) as (k & Hk & Hg & <-).
  { destruct Hr as [(i & Hi & <-)|(i & j & Hj & Hdd & <-)]; eexists; (split; [exact Hi || exact Hdd|]; split; [|done]); [by apply Ht|by apply Hd]. }
  pose proof Hg as ((Hk0 & Hm & Hl) & _ & _).
  assert (k / cluster_size q * cluster_size q = k) as ->; [|split; [done|]].
  { pose proof (Z.div_mod k (cluster_size q) ltac:(lia)). lia. }
  pose proof (Z.div_mod k (cluster_size q) ltac:(lia)). assert (0 ≤ k / cluster_size q) by (apply Z.div_pos; lia). nia.
Qed.

Definition tables_of q (l : list Z) (k : Z) : Prop := ∃ i, l2h (set_l1 l q) i = k ∧ k ≠ 0.
Lemma tables_of_walk q l k : (∃ e, e ∈ l ∧ k = Z.land e OFFSET_MASK ∧ k ≠ 0) → tables_of q l k.
Proof. intros (e & He & -> & Hk). apply list_elem_of_lookup in He as [i Hi]. exists i. by rewrite (l1_lookup q l i e Hi). Qed.

Lemma walk_reach δ q l :
  alloc_ok q → countable_at q l → can_move δ (l ≫= refs q) q → ∃ q', walk_refcounts l δ q = (q', DOk tt) ∧ recounted δ (l ≫= refs q) (tables_of q l) q q'.
Proof.
  intros Ha Hc Hm. destruct (walk_spec δ l q Ha) as (q' & Hrun & Hmv); [intros e; by apply countable_walkable|done|]. exists q'. split; [done|].
  eapply moved_weaken; [|exact Hmv]. intros k. apply tables_of_walk.
Qed.
Lemma walk_up q l :
  alloc_ok q → mapped q l → countable_at q l → refcount_bits q < 64 → (∀ x, reach q l x → rc q x + 1 < 2 ^ refcount_bits q) →
  ∃ q', walk_refcounts l 1 q = (q', DOk tt) ∧ recounted 1 (l ≫= refs q) (tables_of q l) q q'.
Proof.
  intros Ha Hmp Hc Hw Hmax. pose proof (ao_phys q Ha) as Hp. apply walk_reach; try done. intros x Hx. apply reach_elem in Hx.
  destruct (reach_good q l x Hp Hc Hx) as [(_ & Hrc & _) Hx0]. pose proof (phys_cs q Hp). rewrite Z.div_mul in Hrc by lia.
  destruct (reach_cnt q l x Hp Hmp) as (Hle & _). pose proof (rc_bound q x Hp ltac:(lia)). specialize (Hmax x Hx). split; [lia|]. left. split_and!; [done|lia|done|lia].
Qed.
Lemma walk_down q l :
  alloc_ok q → mapped q l → countable_at q l → ∃ q', walk_refcounts l (-1) q = (q', DOk tt) ∧ recounted (-1) (l ≫= refs q) (tables_of q l) q q'.
Proof.
  intros Ha Hmp Hc. pose proof (ao_phys q Ha) as Hp. apply walk_reach; try done. intros x Hx. apply reach_elem in Hx.
  destruct (reach_good q l x Hp Hc Hx) as [(_ & Hrc & Hnb) Hx0]. pose proof (phys_cs q Hp). rewrite Z.div_mul in Hrc by lia.
  destruct (reach_cnt q l x Hp Hmp) as (Hle & _). pose proof (rc_bound q x Hp ltac:(lia)). split; [lia|]. right. split; [done|]. split; [lia|]. intros _. split; [lia|done].
Qed.

(** Counting does not change what is reached. *)
Lemma moved_good δ xs K q q' k : phys q → recounted δ xs K q q' → good q k → rc q' (k / cluster_size q) ≠ 0 → good q' k.
Proof.
  intros Hp Hm (Hat & _ & Hnb) Hrc. destruct (moved_table _ _ _ _ _ k Hp Hm Hat Hnb) as [_ Hat']. split; [done|].
  rewrite (ke_cs _ _ _ _ (mv_keeps _ _ _ _ _ Hm)), (moved_block _ _ _ _ _ _ Hm). done.
Qed.
Lemma moved_ge δ xs K q q' l i j : phys q → recounted δ xs K q q' → countable_at q l → ge (set_l1 l q') i j = ge (set_l1 l q) i j.
Proof.
  intros Hp Hm [Ht _]. unfold ge. change (l2h (set_l1 l q') i) with (l2h (set_l1 l q) i). destruct (Z.eqb_spec (l2h (set_l1 l q) i) 0) as [|Hi]; [done|].
  destruct (Ht i Hi) as [(Hat & _ & Hnb) _]. destruct (moved_table _ _ _ _ _ _ Hp Hm Hat Hnb) as [Htab _].
  change (word (l2_table q' (l2h (set_l1 l q) i)) j = word (l2_table q (l2h (set_l1 l q) i)) j). by rewrite Htab.
Qed.
Lemma moved_refs δ xs K q q' l : phys q → recounted δ xs K q q' → countable_at q l → l ≫= refs q' = l ≫= refs q.
Proof.
  intros Hp Hm Hc. apply Forall_bind_ext, Forall_forall. intros e He. unfold refs. rewrite (ke_cs _ _ _ _ (mv_keeps _ _ _ _ _ Hm)).
  destruct (Z.eqb_spec (Z.land e OFFSET_MASK) 0) as [|Hne]; [done|]. destruct (countable_walkable q l e Hc He Hne) as (Hat & Hnb & _).
  by rewrite (moved_words _ _ _ _ _ _ Hp Hm Hat Hnb).
Qed.
Lemma moved_mapped δ xs K q q' l : phys q → recounted δ xs K q q' → countable_at q l → mapped q l → mapped q' l.
Proof.
  intros Hp Hm Hc [M1 M2 M3 M4 M5]. pose proof (ke_cs _ _ _ _ (mv_keeps _ _ _ _ _ Hm)) as Hcs.
  assert (l2_entries q' = l2_entries q) as He by (unfold l2_entries; by rewrite Hcs).
  assert (∀ i j, dh (set_l1 l q') i j = dh (set_l1 l q) i j) as Hdh by (intros i j; unfold dh; by rewrite (moved_ge _ _ _ _ _ _ _ _ Hp Hm Hc)).
  constructor; change (l2h (set_l1 l q')) with (l2h (set_l1 l q)); rewrite ?Hcs, ?He.
  - exact M1.
  - exact M2.
  - intros i j Hj. rewrite Hdh. by apply M3.
  - intros i j i' j' Hj Hj'. rewrite !Hdh. by apply M4.
  - intros i i' j Hj. rewrite Hdh. by apply M5.
Qed.
Lemma moved_countable δ xs K q q' l : phys q → recounted δ xs K q q' → countable_at q l → (∀ x, reach q l x → rc q' x ≠ 0) → countable_at q' l.
Proof.
  intros Hp Hm Hc Hr. pose proof (ke_cs _ _ _ _ (mv_keeps _ _ _ _ _ Hm)) as Hcs. assert (l2_entries q' = l2_entries q) as He by (unfold l2_entries; by rewrite Hcs).
  assert (∀ i j, ge (set_l1 l q') i j = ge (set_l1 l q) i j) as Hge by (intros i j; by apply (moved_ge _ _ _ _ _ _ _ _ Hp Hm Hc)).
  pose proof Hc as [Ht Hd]. split.
  - intros i Hi. change (l2h (set_l1 l q') i) with (l2h (set_l1 l q) i) in *. destruct (Ht i Hi) as [Hg Hcm]. split.
    + apply (moved_good δ xs K q); try done. apply Hr. left. by exists i.
    + intros j Hj. rewrite Hge. apply Hcm. by rewrite <-He.
  - intros i j Hj. unfold dh. rewrite He in Hj. rewrite Hge. fold (dh (set_l1 l q) i j). intros Hdd.
    apply (moved_good δ xs K q); [done|done|by apply Hd|]. apply Hr. right. by exists i, j.
Qed.

(** ** Counting and ownership *)

Section recount.
Context (δ : Z) (xs : list Z) (K T D S : Z → Prop) (q q' : Qcow2Image B) (Ho : owns T D S q) (Hm : recounted δ xs K q q').
Context (HS : ∀ c, S c → c ∉ xs) (HK : ∀ k c, K k → D c ∨ S c → off_table q c → k ≠ c * cluster_size q) (Hc : countable_at q (l1 q)).

Lemma recount_ge i j : ge q' i j = ge q i j.
Proof. pose proof (moved_ge _ _ _ _ _ _ i j (owns_phys _ _ _ _ Ho) Hm Hc) as Hge. rewrite set_l1_same, <-(mv_l1 _ _ _ _ _ Hm), set_l1_same in Hge. done. Qed.
Lemma recount_P c : any T D S c → l2_table q' (c * cluster_size q) = l2_table q (c * cluster_size q).
Proof.
  intros HPc. destruct (wo_P _ _ (on_ok _ _ _ _ Ho) c HPc) as (? & ? & ? & ?). apply (ke_tables _ _ _ _ (mv_keeps _ _ _ _ _ Hm)); try done. by intros [].
Qed.
Lemma recount_stays : stays T D S q q'.
Proof.
  pose proof (on_ok _ _ _ _ Ho) as Hw. pose proof Hm as [M1 M2 M3 M4 M5 M6]. pose proof (ke_cs _ _ _ _ M2) as Hcs.
  assert (l2_entries q' = l2_entries q) as He by (unfold l2_entries; by rewrite Hcs).
  destruct (ke_meta _ _ _ _ M2) as ((_ & B2 & B3 & B4 & B5 & B6 & B7 & _ & _ & B10) & _). constructor; try done.
  - exact (ke_bits _ _ _ _ M2).
  - exact (ke_size _ _ _ _ M2).
  - by rewrite M5.
  - intros c HPc _. by apply recount_P.
  - intros c Hsc Hone. destruct (wo_P _ _ Hw c) as (Hc0 & _); [by right; right|]. rewrite M3 by done. pose proof (HS c Hsc) as Hn. rewrite cnt_elem in Hn. pose proof (cnt_nonneg xs c).
    assert (cnt xs c = 0) as -> by lia. lia.
  - intros c Hsc [Hnt Hnc]. unfold off_table, l2h. rewrite Hcs, M5. split; [exact Hnt|]. destruct (c_map (l2_cache q') !! (c * cluster_size q)) eqn:E; [|done].
    exfalso. destruct (ke_keys _ _ _ _ M2 (c * cluster_size q)) as [[? Hx]|Hk]; [by rewrite E|congruence|]. by apply (HK _ c Hk Hsc).
  - intros c _ Hd i j. rewrite He, Hcs. unfold dh. rewrite recount_ge. apply Hd.
  - intros c. unfold is_meta, l1_region, rt_region. by rewrite B2, B3, B4, B5, Hcs.
  - intros o. unfold backing_byte. by rewrite M6.
Qed.
Lemma recount_owns : write_ok (any T D S) q' → owns T D S q'.
Proof.
  intros Hw'. pose proof (mv_keeps _ _ _ _ _ Hm) as Hk.
  apply (owns_kept T D S q); [done|done|exact recount_stays|exact (ke_meta _ _ _ _ Hk)|exact (ke_rtlen _ _ _ _ Hk)|exact recount_P].
Qed.
(** The guest sees no difference, as long as what it has is counted. *)
Lemma recount_guest o : (∀ k, K k → ∀ i j, 0 ≤ j < l2_entries q → dh q i j ≠ 0 → dh q i j ≠ k) → (∀ x, guest_has q x → rc q' x ≠ 0) → 0 ≤ o → guest_byte q' o = guest_byte q o.
Proof.
  intros HKd Hrc Hoff. assert (write_ok nowhere q) as Hw0 by (eapply write_ok_mono; [|exact (on_ok _ _ _ _ Ho)]; by intros c []). pose proof Hm as [M1 M2 M3 M4 M5 M6].
  destruct (frame_count nowhere nowhere K q q' Hw0 M1 M2) as [Hw' _]; try done; [intros b; rewrite M6; apply Hw0|intros x; unfold backing_byte; by rewrite M6| |].
  - intros x Hx Hu Hz. assert (¬ guest_has q x) as Hng by (intros Hg; by apply (Hrc x)). apply Hu. unfold guest_has, guest_table, guest_data in Hng. split_and!; [| |by intros []].
    + intros i Hi <-. apply Hng. left. by exists i.
    + intros i j Hj Hd <-. apply Hng. right. by exists i, j.
  - rewrite (guest_byte_entry _ q' o Hw'), (guest_byte_entry _ q o Hw0). pose proof (ke_cs _ _ _ _ M2) as Hcs. unfold entry_at.
    destruct (index_same q q' o (ke_bits _ _ _ _ M2) Hcs) as [-> ->]. rewrite recount_ge. unfold entry_byte, backing_byte. rewrite M6, Hcs.
    fold (dh q (l1_at q o) (l2_index_of q o)). case_match; [done|]. case_match eqn:E; [done|]. bsplit. destruct (wo_data _ _ Hw0 _ _ (index_range q o (owns_phys _ _ _ _ Ho)) E) as ((Hat & _ & Hnb) & _).
    by rewrite (proj1 (moved_table _ _ _ _ _ _ (owns_phys _ _ _ _ Ho) Hm Hat Hnb)).
Qed.
End recount.
End reach.
