(* ===== verification/Qcow2Counted.v ===== *)
(** * qcow2 images: every reference is counted

    A cluster that snapshots own has a reference for the guest's mapping, when
    that reaches it, and one for each snapshot that does. Steps that serve the
    guest drop a reference only with the mapping it stood for. *)

From S2P Require Import Prelude TableCache Disk Qcow2 Qcow2Alloc Qcow2Read Qcow2Phys Qcow2Steps Qcow2Free Qcow2Write Qcow2Guest Qcow2Correct Qcow2Open Qcow2Durable Qcow2Header Qcow2Create Qcow2Snapshot Qcow2Walk Qcow2Copied Qcow2Owned Qcow2SnapTable Qcow2Snaps Qcow2Reach.

Section counted.
Context {B : Type} `{HB : DiskContents B} `{HI : InflateLaws}.
Implicit Types q : Qcow2Image B.

Lemma snaps_ok_stays T D S q q' l : owns T D S q → stays T D S q q' → snap_ok T q l → snap_ok T q' l.
Proof. intros Ho Hst. apply (snap_ok_stays T D S q); [by eapply owns_phys| |done]. intros c. by apply (owns_top T D S). Qed.
Lemma refs_stays T D S q q' l : owns T D S q → stays T D S q q' → snap_ok T q l → l ≫= refs q' = l ≫= refs q.
Proof.
  intros Ho Hst Hs. pose proof (owns_phys _ _ _ _ Ho) as Hp. pose proof (st_cs _ _ _ _ _ Hst) as Hcs. apply Forall_bind_ext, Forall_forall. intros e He. unfold refs. rewrite Hcs.
  destruct (Z.eqb_spec (Z.land e OFFSET_MASK) 0) as [|Hne]; [done|]. apply list_elem_of_lookup in He as [i Hi]. pose proof (l1_lookup q l i e Hi) as Hl.
  destruct (so_T _ _ _ Hs i) as [Hm Ht]; [by rewrite Hl|]. rewrite Hl in Hm, Ht.
  assert (words q' (Z.land e OFFSET_MASK) = words q (Z.land e OFFSET_MASK)) as ->; [|done]. unfold words, l2_entries. rewrite Hcs.
  pose proof (st_P _ _ _ _ _ Hst _ (or_introl Ht) (owns_top T D S q _ Ho (or_introl Ht))) as HP. rewrite (aligned_cluster q _ Hp Hm) in HP. by rewrite HP.
Qed.

(** L1 tables into [T] keep what they reach. *)
Definition same_refs (T : Z → Prop) q q' : Prop := ∀ l, snap_ok T q l → snap_ok T q' l ∧ l ≫= refs q' = l ≫= refs q.
Lemma stays_refs T D S q q' : owns T D S q → stays T D S q q' → same_refs T q q'.
Proof. intros Ho Hst l Hl. split; [by eapply (snaps_ok_stays T D S q)|by apply (refs_stays T D S q)]. Qed.
Lemma same_refs_trans T q1 q2 q3 : same_refs T q1 q2 → same_refs T q2 q3 → same_refs T q1 q3.
Proof. intros H1 H2 l Hl. destruct (H1 l Hl) as [Hl2 E2]. destruct (H2 l Hl2) as [Hl3 E3]. split; [done|]. by rewrite E3, E2. Qed.

(** References of several L1 tables. *)
Definition total q (ls : list (list Z)) (x : Z) : Z := foldr (λ l, Z.add (cnt (l ≫= refs q) x)) 0 ls.
Lemma total_cons q l ls x : total q (l :: ls) x = cnt (l ≫= refs q) x + total q ls x.
Proof. done. Qed.
Lemma total_pos q ls x : 0 ≤ total q ls x.
Proof. induction ls as [|l ls IH]; [done|]. rewrite total_cons. pose proof (cnt_nonneg (l ≫= refs q) x). lia. Qed.
Lemma total_app q ls ls' x : total q (ls ++ ls') x = total q ls x + total q ls' x.
Proof. induction ls as [|l ls IH]; [done|]. rewrite <-app_comm_cons, !total_cons. lia. Qed.
Lemma total_delete q ls i l x : ls !! i = Some l → total q ls x = cnt (l ≫= refs q) x + total q (delete i ls) x.
Proof.
  revert i. induction ls as [|l' ls IH]; intros [|i] Hi; [done|done|by simplify_eq/=|]. change (ls !! i = Some l) in Hi.
  change (delete (S i) (l' :: ls)) with (l' :: delete i ls). rewrite !total_cons, (IH i Hi). lia.
Qed.
Lemma total_reach q ls l x : l ∈ ls → reach q l x → 1 ≤ total q ls x.
Proof.
  intros (i & Hi)%list_elem_of_lookup Hr. rewrite (total_delete q ls i l x Hi). apply reach_elem, cnt_elem in Hr. pose proof (total_pos q (delete i ls) x). lia.
Qed.
Lemma total_some q ls x : 1 ≤ total q ls x → ∃ l, l ∈ ls ∧ reach q l x.
Proof.
  induction ls as [|l ls IH]; [done|]. rewrite total_cons. intros Ht. destruct (decide (0 < cnt (l ≫= refs q) x)) as [Hc|Hc].
  - exists l. split; [by left|]. by apply reach_elem, cnt_elem.
  - destruct IH as (l' & ? & ?); [lia|]. exists l'. split; [by right|done].
Qed.
Lemma total_same T q q' ls x : same_refs T q q' → Forall (snap_ok T q) ls → total q' ls x = total q ls x.
Proof. intros Hsr Hls. induction Hls as [|l ls Hl Hls IH]; [done|]. by rewrite !total_cons, IH, (proj2 (Hsr l Hl)). Qed.

Definition accounted (T D : Z → Prop) q (ls : list (list Z)) : Prop := ∀ x, T x ∨ D x → cnt (l1 q ≫= refs q) x + total q ls x ≤ rc q x.

Lemma guest_cnt T D S q x : owns T D S q → cnt (l1 q ≫= refs q) x ≤ 1 ∧ (guest_has q x ↔ cnt (l1 q ≫= refs q) x = 1) ∧ (¬ guest_has q x ↔ cnt (l1 q ≫= refs q) x = 0).
Proof.
  intros Ho. pose proof (reach_cnt q (l1 q) x (owns_phys _ _ _ _ Ho) (guest_mapped _ q (on_ok _ _ _ _ Ho))) as Hc. unfold reach in Hc. by rewrite set_l1_same in Hc.
Qed.
Lemma accounted_keep T D S S' q q' ls :
  owns T D S q → owns T D S' q' → same_refs T q q' → Forall (snap_ok T q) ls → (∀ x, T x ∨ D x → settled q q' x) → accounted T D q ls → accounted T D q' ls.
Proof.
  intros Ho Ho' Hsr Hls Hset Hac x Hx. rewrite (total_same T q q' ls x Hsr Hls). specialize (Hac x Hx).
  destruct (guest_cnt T D S q x Ho) as (Hle & Hy & Hn), (guest_cnt T D S' q' x Ho') as (Hle' & Hy' & Hn'). pose proof (cnt_nonneg (l1 q ≫= refs q) x).
  pose proof (cnt_nonneg (l1 q' ≫= refs q') x). destruct (Hset x Hx) as [[Hr Hi]|(Hr & Hg & Hg')].
  - assert (cnt (l1 q' ≫= refs q') x ≤ cnt (l1 q ≫= refs q) x); [|lia]. destruct (decide (cnt (l1 q' ≫= refs q') x = 1)) as [E|E]; [|lia].
    apply Hy', Hi, Hy in E. lia.
  - apply Hy in Hg. apply Hn' in Hg'. lia.
Qed.

(** The invariant of an image with snapshots: [ls] are their L1 tables. *)
Record kept (T D S : Z → Prop) q (es : list SnapshotEntry) (ls : list (list Z)) : Prop := mkKept {
  kp_snaps : snaps T D S q es;
  kp_listed : Forall2 (listed T S q) es ls;
  kp_apart : NoDup (s_l1_table_offset <$> es);
  kp_count : accounted T D q ls }.

Lemma listed_snap_ok T S q es ls : Forall2 (listed T S q) es ls → Forall (snap_ok T q) ls.
Proof. intros Hf. eapply Forall2_Forall_r; [exact Hf|]. apply Forall_forall. by intros e _ l []. Qed.
Lemma listed_all_stays T D S q q' es ls : owns T D S q → stays T D S q q' → Forall2 (listed T S q) es ls → Forall2 (listed T S q') es ls.
Proof. intros Ho Hst Hf. eapply Forall2_impl; [exact Hf|]. intros e l Hl. by apply (listed_stays T D S q q'). Qed.
Lemma kept_stays T D S q q' es ls :
  kept T D S q es ls → owns T D S q' → stays T D S q q' → (∀ x, T x ∨ D x → settled q q' x) → kept T D S q' es ls.
Proof.
  intros [A1 A2 A3 A4] Ho' Hst Hset. pose proof (sn_owns _ _ _ _ _ A1) as Ho. constructor; try done.
  - by apply (snaps_stays T D S q).
  - by apply (listed_all_stays T D S q).
  - apply (accounted_keep T D S S q); try done; [by apply (stays_refs T D S)|by eapply listed_snap_ok].
Qed.
End counted.
