(* ===== verification/Qcow2SnapApply.v ===== *)
(** * qcow2 images: restoring a snapshot

    [snapshot_apply] raises the references of the snapshot, drops those of
    the guest's disk, and installs the snapshot's L1 table: the guest then has
    the disk of the snapshot, and every snapshot keeps its own. *)

From S2P Require Import Prelude TableCache Disk Qcow2 Qcow2Alloc Qcow2Read Qcow2Phys Qcow2Steps Qcow2Free Qcow2Write Qcow2Guest Qcow2Correct Qcow2Open Qcow2Durable Qcow2Header Qcow2Create Qcow2Snapshot Qcow2Walk Qcow2Copied Qcow2Owned Qcow2SnapTable Qcow2Snaps Qcow2Reach Qcow2Counted.

Section apply.
Context {B : Type} `{HB : DiskContents B} `{HI : InflateLaws}.
Implicit Types q : Qcow2Image B.

(** ** What is reached can be counted *)

Lemma good_P (P : Z → Prop) q c : write_ok P q → P c → good q (c * cluster_size q).
Proof.
  intros Hw Hc. pose proof (phys_cs q (write_phys P q Hw)). destruct (wo_P _ _ Hw c Hc) as (? & ? & ? & ?). unfold good, table_at. rewrite Z.div_mul by lia.
  split_and!; [nia|apply Z.mod_mul; lia|lia|done|done].
Qed.
Lemma guest_countable P q : write_ok P q → countable_at q (l1 q).
Proof.
  intros Hw. unfold countable_at. rewrite set_l1_same. split; [intros i Hi; split; [by apply (wo_tables _ _ Hw)|intros j Hj; by apply (wo_entries _ _ Hw i j Hj)]|].
  intros i j Hj Hd. by apply (wo_data _ _ Hw i j Hj Hd).
Qed.
Lemma snap_countable T D S q l : owns T D S q → snap_ok T q l → countable_at q l.
Proof.
  intros Ho Hs. pose proof (owns_phys _ _ _ _ Ho) as Hp. pose proof (on_ok _ _ _ _ Ho) as Hw. split.
  - intros i Hi. destruct (so_T _ _ _ Hs i Hi) as [Hm Ht]. pose proof (good_P _ q _ Hw (or_introl Ht)) as Hg. rewrite (aligned_cluster q _ Hp Hm) in Hg. split; [done|].
    intros j Hj. destruct (ow_entries _ _ _ _ (on_owned _ _ _ _ Ho) _ j Ht Hj) as [Hc _]. rewrite (aligned_cluster q _ Hp Hm) in Hc. unfold ge.
    by rewrite (proj2 (Z.eqb_neq _ _)).
  - intros i j Hj Hd. destruct (snap_data T D S q l i j Hp (on_owned _ _ _ _ Ho) Hs Hj Hd) as [Hm Hdd]. pose proof (good_P _ q _ Hw (or_intror (or_introl Hdd))) as Hg.
    by rewrite (aligned_cluster q _ Hp Hm) in Hg.
Qed.
(** What the guest shares has two references. *)
Lemma guest_reach_P (P : Z → Prop) q x : write_ok P q → P x → reach q (l1 q) x → 2 ≤ rc q x.
Proof.
  intros Hw HP. unfold reach. rewrite set_l1_same. intros [(i & Hi & <-)|(i & j & Hj & Hd & <-)]; [by apply (wo_P_tables _ _ Hw)|].
  by apply (wo_P_data _ _ Hw i j Hj Hd).
Qed.

(** ** Installing the table *)

Definition installed q (l : list Z) : Qcow2Image B := set_l1_dirty true (set_header_dirty true (set_l1 l q)).

Section swap.
Context (T D S : Z → Prop) (q q2 : Qcow2Image B) (l : list Z).
Context (Ho : owns T D S q) (Hs : snap_ok T q l) (Hlen : length l = length (l1 q)) (Ha2 : alloc_ok q2).
Context (Hk : keeps nowhere (λ k, tables_of q l k ∨ tables_of q (l1 q) k) q q2) (Hrt : refcount_table q2 = refcount_table q) (Hb : backing_image q2 = backing_image q).
Context (Hrc : ∀ x, 0 ≤ x → rc q2 x = rc q x + cnt (l ≫= refs q) x - cnt (l1 q ≫= refs q) x).

#[local] Abbreviation q3 := (installed q2 l).
#[local] Abbreviation P := (any T D S).

Lemma swap_cs : cluster_size q3 = cluster_size q.
Proof. exact (ke_cs _ _ _ _ Hk). Qed.
Lemma swap_P c : P c → l2_table q3 (c * cluster_size q) = l2_table q (c * cluster_size q).
Proof. intros Hc. destruct (wo_P _ _ (on_ok _ _ _ _ Ho) c Hc) as (? & ? & ? & ?). by apply (ke_tables _ _ _ _ Hk); [|intros []|..]. Qed.
Lemma swap_rc c : P c → rc q3 c ≠ 0 ∧ (reach q l c → 2 ≤ rc q3 c) ∧ (S c → rc q c = 1 → rc q3 c = 1).
Proof.
  intros Hc. pose proof (on_ok _ _ _ _ Ho) as Hw. pose proof (owns_phys _ _ _ _ Ho) as Hp. pose proof (on_owned _ _ _ _ Ho) as Hoo.
  destruct (wo_P _ _ Hw c Hc) as (Hc0 & Hcr & _). pose proof (rc_bound q c Hp Hc0) as Hrb. change (rc q3 c) with (rc q2 c). rewrite Hrc by done.
  destruct (reach_cnt q l c Hp (snap_mapped T D S q l Hp Hoo Hs)) as (Hl1 & Hl2 & Hl3). destruct (reach_cnt q (l1 q) c Hp (guest_mapped _ q Hw)) as (Ha1 & Har & Ha3).
  pose proof (cnt_nonneg (l ≫= refs q) c). pose proof (cnt_nonneg (l1 q ≫= refs q) c).
  assert (cnt (l1 q ≫= refs q) c = 1 → 2 ≤ rc q c) as Htwo by (intros Hca; apply (guest_reach_P P); [done|done|by apply Har]).
  destruct (decide (cnt (l1 q ≫= refs q) c = 1)) as [E|E]; split_and!.
  - specialize (Htwo E). lia.
  - rewrite Hl2. specialize (Htwo E). lia.
  - intros _ Hone. specialize (Htwo E). lia.
  - lia.
  - rewrite Hl2. lia.
  - intros HS Hone. assert (¬ reach q l c) as Hn; [|apply Hl3 in Hn; lia]. intros Hr.
    destruct (snap_reach T D S q l c Hp Hoo Hs Hr) as [Ht|Hd]; [by apply (ow_TS _ _ _ _ Hoo c)|by apply (ow_DS _ _ _ _ Hoo c)].
Qed.
(** What is cached as a table is none of the data or of the other clusters. *)
Lemma swap_off c : D c ∨ S c → off_table q c → off_table q3 c.
Proof.
  intros Hc [Hnt Hnc]. pose proof (owns_phys _ _ _ _ Ho) as Hp. pose proof (phys_cs q Hp). pose proof (on_owned _ _ _ _ Ho) as Hoo.
  assert (∀ i, l2h (set_l1 l q) i ≠ 0 → l2h (set_l1 l q) i ≠ c * cluster_size q) as Hnl.
  { intros i Hi Heq. destruct (so_T _ _ _ Hs i Hi) as [_ Ht]. rewrite Heq, Z.div_mul in Ht by lia. destruct Hc; [by apply (ow_TD _ _ _ _ Hoo c)|by apply (ow_TS _ _ _ _ Hoo c)]. }
  unfold off_table. rewrite swap_cs. split; [exact Hnl|]. destruct (c_map (l2_cache q3) !! (c * cluster_size q)) eqn:E; [|done]. exfalso.
  destruct (ke_keys _ _ _ _ Hk (c * cluster_size q)) as [[? Hx]|[(i & Hi & Hne)|(i & Hi & Hne)]]; [eexists; exact E|congruence|apply (Hnl i); congruence|].
  rewrite set_l1_same in Hi. apply (Hnt i); congruence.
Qed.
Lemma swap_ge i j : ge q3 i j = ge (set_l1 l q) i j.
Proof.
  unfold ge. change (l2h q3 i) with (l2h (set_l1 l q) i). destruct (Z.eqb_spec (l2h (set_l1 l q) i) 0) as [|Hi]; [done|].
  destruct (so_T _ _ _ Hs i Hi) as [Hm Ht]. pose proof (swap_P _ (or_introl Ht)) as Htab. rewrite (aligned_cluster q _ (owns_phys _ _ _ _ Ho) Hm) in Htab.
  change (word (l2_table q3 (l2h (set_l1 l q) i)) j = word (l2_table q (l2h (set_l1 l q) i)) j). by rewrite Htab.
Qed.
Lemma swap_dh i j : dh q3 i j = dh (set_l1 l q) i j.
Proof. unfold dh. by rewrite swap_ge. Qed.
Lemma swap_data i j : 0 ≤ j < l2_entries q → dh q3 i j ≠ 0 → ∃ c, dh q3 i j = c * cluster_size q ∧ D c ∧ reach q l c.
Proof.
  rewrite swap_dh. intros Hj Hd. pose proof (owns_phys _ _ _ _ Ho) as Hp. destruct (snap_data T D S q l i j Hp (on_owned _ _ _ _ Ho) Hs Hj Hd) as [Hm Hdd].
  exists (dh (set_l1 l q) i j / cluster_size q). split_and!; [by rewrite (aligned_cluster q _ Hp Hm)|done|]. right. by exists i, j.
Qed.
Lemma swap_table i : l2h q3 i ≠ 0 → ∃ c, l2h q3 i = c * cluster_size q ∧ T c ∧ reach q l c.
Proof.
  intros Hi. change (l2h q3 i) with (l2h (set_l1 l q) i) in *. destruct (so_T _ _ _ Hs i Hi) as [Hm Ht]. exists (l2h (set_l1 l q) i / cluster_size q).
  split_and!; [by rewrite (aligned_cluster q _ (owns_phys _ _ _ _ Ho) Hm)|done|]. left. by exists i.
Qed.
Lemma swap_good c : P c → good q3 (c * cluster_size q).
Proof.
  intros Hc. pose proof (good_P _ q c (on_ok _ _ _ _ Ho) Hc) as ((? & ? & ?) & _ & Hnb). unfold good, table_at. rewrite swap_cs.
  pose proof (phys_cs q (owns_phys _ _ _ _ Ho)). pose proof (ke_len _ _ _ _ Hk). rewrite Z.div_mul by lia. split_and!; try done; [change (q_file q3) with (q_file q2); lia|by apply swap_rc|].
  unfold is_block, rt_host. change (refcount_table q3) with (refcount_table q2). by rewrite Hrt.
Qed.

Lemma swap_alloc : alloc_ok q3.
Proof. pose proof Ha2 as [[] ? ? ?]. by constructor. Qed.
Lemma swap_entries : l2_entries q3 = l2_entries q.
Proof. unfold l2_entries. by rewrite swap_cs. Qed.
Lemma swap_write_ok : write_ok P q3.
Proof.
  pose proof (on_ok _ _ _ _ Ho) as Hw. pose proof (on_owned _ _ _ _ Ho) as Hoo. pose proof (owns_phys _ _ _ _ Ho) as Hp. pose proof (phys_cs q Hp) as Hcs.
  pose proof Hs as [S1 S2 S3 S4]. constructor; rewrite ?swap_entries, ?swap_cs.
  - exact swap_alloc.
  - change (q_size q3) with (q_size q2). rewrite (ke_size _ _ _ _ Hk). apply Hw.
  - exact S1.
  - intros b. change (backing_image q3) with (backing_image q2). rewrite Hb. apply Hw.
  - intros o. unfold backing_byte. change (backing_image q3) with (backing_image q2). rewrite Hb. apply (wo_bytes _ _ Hw o).
  - intros i Hi. destruct (swap_table i Hi) as (c & -> & Ht & _). apply swap_good. by left.
  - exact S3.
  - intros i j Hj. rewrite swap_ge, swap_dh. unfold dh, ge. destruct (Z.eqb_spec (l2h (set_l1 l q) i) 0) as [|Hi]; [done|].
    destruct (S2 i Hi) as [Hm Ht]. destruct (ow_entries _ _ _ _ Hoo _ j Ht Hj) as (? & ? & _). by rewrite (aligned_cluster q _ Hp Hm) in *.
  - intros i j Hj Hd. destruct (swap_data i j Hj Hd) as (c & Hce & Hdd & _). rewrite Hce in Hd |- *. split_and!.
    + apply swap_good. by right; left.
    + destruct (swap_off c (or_introl Hdd) (ow_D _ _ _ _ Hoo c Hdd)) as [_ Hn]. by rewrite swap_cs in Hn.
    + intros i' Heq. destruct (swap_table i') as (c' & Hc' & Ht & _); [by rewrite Heq|]. rewrite Heq in Hc'. apply Z.mul_reg_r in Hc'; [|lia]. subst c'.
      by apply (ow_TD _ _ _ _ Hoo c).
  - intros i j i' j'. rewrite !swap_dh. apply S4.
  - intros c Hc. destruct (swap_good c Hc) as ((? & ? & ?) & ? & ?). rewrite swap_cs in *. rewrite Z.div_mul in * by lia. split_and!; try done; [nia|lia].
  - intros i Hi Hc. destruct (swap_table i Hi) as (c & Hce & _ & Hr). rewrite Hce, Z.div_mul in * by lia. by apply swap_rc.
  - intros i j Hj Hd _. destruct (swap_data i j Hj Hd) as (c & Hce & Hdd & Hr). rewrite Hce, Z.div_mul by lia. split; [by apply swap_rc; [right; left|]|].
    rewrite swap_dh in Hd. rewrite swap_ge. unfold dh, ge in Hd |- *. destruct (Z.eqb_spec (l2h (set_l1 l q) i) 0) as [|Hi]; [done|].
    destruct (S2 i Hi) as [Hm Ht]. destruct (ow_entries _ _ _ _ Hoo _ j Ht Hj) as (_ & _ & He). rewrite (aligned_cluster q _ Hp Hm) in He. by apply He.
Qed.
Lemma swap_meta_kept : meta_kept q q3.
Proof. destruct (ke_meta _ _ _ _ Hk) as (Hst & _ & _ & Hrd & Hru). by split_and!; try apply Hst. Qed.
Lemma swap_stays : stays T D S q q3.
Proof.
  pose proof (on_owned _ _ _ _ Ho) as Hoo. destruct swap_meta_kept as ((_ & B2 & B3 & B4 & B5 & B6 & B7 & _ & _ & B10) & _).
  constructor; try done.
  - exact swap_cs.
  - exact (ke_bits _ _ _ _ Hk).
  - exact (ke_size _ _ _ _ Hk).
  - intros c Hc _. by apply swap_P.
  - intros c Hc. apply swap_rc; [by right; right|done].
  - exact swap_off.
  - intros c Hc _ i j. rewrite swap_entries, swap_cs. intros Hj Hd Heq. destruct (swap_data i j Hj Hd) as (c' & Hce & Hdd & _). rewrite Heq in Hce.
    pose proof (phys_cs q (owns_phys _ _ _ _ Ho)). apply Z.mul_reg_r in Hce; [|lia]. subst c'. by apply (ow_TD _ _ _ _ Hoo c).
  - intros c. unfold is_meta, l1_region, rt_region. by rewrite B2, B3, B4, B5, swap_cs.
  - intros o. unfold backing_byte. change (backing_image q3) with (backing_image q2). by rewrite Hb.
Qed.
Lemma swap_owns : owns T D S q3.
Proof.
  apply (owns_kept T D S q); [done|exact swap_write_ok|exact swap_stays|exact swap_meta_kept|exact (ke_rtlen _ _ _ _ Hk)|exact swap_P].
Qed.
(** The guest has the snapshot's disk. *)
Lemma swap_guest o : guest_byte q3 o = snap_byte q l o.
Proof.
  rewrite (guest_byte_entry P q3 o swap_write_ok). rewrite <-(snap_byte_stays T D S q q3 l (owns_phys _ _ _ _ Ho) (on_owned _ _ _ _ Ho)); [|..].
  - unfold snap_byte. change (set_l1 l q3) with (set_l1 (l1 q3) q3). by rewrite set_l1_same.
  - intros c. by apply (owns_top T D S).
  - exact swap_stays.
  - exact Hs.
Qed.
(** The guest's references went, and those of its new mapping came. *)
Lemma swap_accounted ls : Forall (snap_ok T q) ls → accounted T D q ls → accounted T D q3 ls.
Proof.
  intros Hls Hac x Hx. assert (0 ≤ x) as Hx0 by (apply (any_nonneg T D S q); [done|unfold any; tauto]). specialize (Hac x Hx).
  rewrite (total_same T q q3 ls x (stays_refs T D S q q3 Ho swap_stays) Hls). change (l1 q3) with l. rewrite (refs_stays T D S q q3 l Ho swap_stays Hs).
  change (rc q3 x) with (rc q2 x). rewrite Hrc by done. lia.
Qed.
End swap.

(** ** The whole *)

Lemma owns_writable T D S q : owns T D S q → check_writable q = (q, DOk tt).
Proof. intros Ho. unfold check_writable. rewrite (dbind_ok _ _ q q q) by done. unfold id. by rewrite (ph_rw q (owns_phys _ _ _ _ Ho)). Qed.
Lemma owns_l1_size T D S q : owns T D S q → l1_size q = Z.of_nat (length (l1 q)).
Proof. intros Ho. by destruct (mo_fields _ _ (on_meta _ _ _ _ Ho)) as [_ [_ ->] _ _ _ _ _]. Qed.
Lemma owns_flush T D S q : owns T D S q → ∃ q', flush_metadata q = (q', DOk tt) ∧ owns T D S q' ∧ stays T D S q q' ∧ served (any T D S) q q' ∧ (∀ x, any T D S x → settled q q' x) ∧ flushed q'.
Proof.
  intros Ho. destruct (flush_spec _ q (on_ok _ _ _ _ Ho) (on_meta _ _ _ _ Ho)) as (q' & Hrun & Hw' & Hm' & Hsv & Hfd). exists q'.
  assert (stays T D S q q') as Hst by (apply served_stays; [intros c Hc; apply (any_nonneg T D S q); [done|by right; right]|done]).
  split_and!; try done; [|by apply (owns_stays T D S q)|intros x Hx; apply (served_settled _ _ _ _ Hsv); by apply (any_nonneg T D S q)]. rewrite <-Hrun. unfold qcow2_flush. rewrite (dbind_ok _ _ q q q) by done. unfold id.
  by rewrite (ph_rw q (owns_phys _ _ _ _ Ho)).
Qed.
Lemma owns_copied T D S q : owns T D S q → ∃ q', rewrite_active_copied_bits q = (q', DOk tt) ∧ repaired (any T D S) (λ _ _, true) q q' ∧
  owns T D S q' ∧ stays T D S q q' ∧ (∀ x, any T D S x → settled q q' x) ∧ ∀ o, 0 ≤ o → guest_byte q' o = guest_byte q o.
Proof.
  intros Ho. pose proof (on_ok _ _ _ _ Ho) as Hw. destruct (rewrite_copied_spec _ q Hw (owned_closed T D S q Hw (on_owned _ _ _ _ Ho))) as (q' & Hrun & Hr).
  exists q'. pose proof (repaired_wrote _ _ _ _ 0 Hw Hr) as Hwr. destruct (owns_wrote T D S 0 [] q q' Ho (rp_ok _ _ _ _ Hr) Hwr) as [Ho' Hst]. split_and!; try done; [intros x; by apply (wrote_settled _ _ _ _ _ _ Hwr)|].
  intros o Hoo. rewrite (wr_guest _ _ _ _ _ Hwr) by done. apply wrote_nothing.
Qed.

Lemma apply_spec T D S q es name pos e l :
  snaps T D S q es → list_find (λ e, entry_named name e = true) es = Some (pos, e) → listed T S q e l →
  refcount_bits q < 64 → (∀ x, T x ∨ D x → rc q x + 1 < 2 ^ refcount_bits q) →
  ∃ q', snapshot_apply name q = (q', DOk (snapshot_info e)) ∧ snaps T D S q' es ∧ stays T D S q q' ∧ (∀ o, 0 ≤ o → guest_byte q' o = snap_byte q l o) ∧
    (∀ ls, Forall (snap_ok T q) ls → accounted T D q ls → accounted T D q' ls) ∧ room q ≤ room q' ∧ ∀ x, 0 ≤ x → rc q' x ≤ rc q x + 1.
Proof.
  intros Hsn Hfind Hli Hwid Hmax. pose proof (sn_owns _ _ _ _ _ Hsn) as Ho. pose proof (on_ok _ _ _ _ Ho) as Hw. pose proof (owns_phys _ _ _ _ Ho) as Hp.
  pose proof (on_owned _ _ _ _ Ho) as Hoo. pose proof (li_snap _ _ _ _ _ Hli) as Hs. destruct (li_len _ _ _ _ _ Hli) as [Hsz Hlen].
  unfold snapshot_apply. rewrite (dbind_ok _ _ _ _ _ (owns_writable _ _ _ _ Ho)). destruct (find_snapshot_spec T D S q es name pos e Hsn Hfind) as [Hf _].
  rewrite (dbind_ok _ _ _ _ _ Hf), (dbind_ok _ _ _ _ _ (read_l1_spec T D S q e l Ho Hli)).
  pose proof (snap_mapped T D S q l Hp Hoo Hs) as Hml. pose proof (snap_countable T D S q l Ho Hs) as Hcl.
  pose proof (guest_mapped _ q Hw) as Hma. pose proof (guest_countable _ q Hw) as Hca.
  destruct (walk_up q l (wo_alloc _ _ Hw) Hml Hcl Hwid) as (q1 & Hrun1 & Hm1); [intros x Hx; by apply Hmax, (snap_reach T D S q l)|].
  rewrite (dbind_ok _ _ _ _ _ Hrun1), (dbind_ok _ _ q1 q1 (l1 q)) by (unfold dgets; by rewrite (mv_l1 _ _ _ _ _ Hm1)).
  pose proof (moved_mapped _ _ _ _ _ _ Hp Hm1 Hca Hma) as Hma1.
  assert (countable_at q1 (l1 q)) as Hca1.
  { apply (moved_countable _ _ _ _ _ _ Hp Hm1 Hca). intros x Hx. destruct (reach_good q (l1 q) x Hp Hca Hx) as [(_ & Hrx & _) Hx0].
    pose proof (phys_cs q Hp). rewrite Z.div_mul in Hrx by lia. rewrite (mv_rc _ _ _ _ _ Hm1) by lia. pose proof (rc_bound q x Hp ltac:(lia)).
    pose proof (cnt_nonneg (l ≫= refs q) x). lia. }
  destruct (walk_down q1 (l1 q) (mv_ok _ _ _ _ _ Hm1) Hma1 Hca1) as (q2 & Hrun2 & Hm2). rewrite (dbind_ok _ _ _ _ _ Hrun2).
  rewrite (moved_refs _ _ _ _ _ _ Hp Hm1 Hca) in Hm2.
  assert (keeps nowhere (λ k, tables_of q l k ∨ tables_of q (l1 q) k) q q2) as Hk.
  { eapply keeps_weaken; [| |exact (keeps_trans _ _ _ _ _ _ _ Hp (mv_keeps _ _ _ _ _ Hm1) (mv_keeps _ _ _ _ _ Hm2))]; [by intros c [[]|[]]|done]. }
  assert (refcount_table q2 = refcount_table q) as Hrt by (by rewrite (mv_rt _ _ _ _ _ Hm2), (mv_rt _ _ _ _ _ Hm1)).
  assert (backing_image q2 = backing_image q) as Hb by (by rewrite (mv_backing _ _ _ _ _ Hm2), (mv_backing _ _ _ _ _ Hm1)).
  assert (∀ x, 0 ≤ x → rc q2 x = rc q x + cnt (l ≫= refs q) x - cnt (l1 q ≫= refs q) x) as Hrc.
  { intros x Hx. rewrite (mv_rc _ _ _ _ _ Hm2), (mv_rc _ _ _ _ _ Hm1) by done. lia. }
  assert (l1 q2 = l1 q) as Hl2 by (by rewrite (mv_l1 _ _ _ _ _ Hm2), (mv_l1 _ _ _ _ _ Hm1)).
  destruct (ke_meta _ _ _ _ Hk) as ((_ & Hls & _) & _). pose proof (owns_l1_size _ _ _ _ Ho) as Hl1s.
  rewrite (dbind_ok _ _ q2 q2 tt).
  2: { unfold ensure_l1_size. rewrite (dbind_ok _ _ q2 q2 q2) by done. unfold id. rewrite Hls, Hl2, (proj2 (Z.leb_le _ _)), (proj2 (Z.ltb_ge _ _)) by lia. done. }
  rewrite (li_disk _ _ _ _ _ Hli).
  rewrite (dbind_ok _ _ q2 (set_l1_size (s_l1_size e) (set_l1 l q2)) tt) by done. rewrite (dbind_ok _ _ _ (set_size (q_size q) (set_l1_size (s_l1_size e) (set_l1 l q2))) tt) by done.
  rewrite (dbind_ok _ _ _ (installed q2 l) tt).
  2: { unfold dmodify, installed. do 2 f_equal. replace (s_l1_size e) with (l1_size q2) by lia. rewrite <-(ke_size _ _ _ _ Hk). by destruct q2. }
  pose proof (swap_owns T D S q q2 l Ho Hs Hlen (mv_ok _ _ _ _ _ Hm2) Hk Hrt Hb Hrc) as Ho3.
  pose proof (swap_stays T D S q q2 l Ho Hs Hlen Hk Hb Hrc) as Hst3.
  pose proof (swap_guest T D S q q2 l Ho Hs Hlen (mv_ok _ _ _ _ _ Hm2) Hk Hrt Hb Hrc) as Hg3.
  destruct (owns_copied T D S _ Ho3) as (q4 & Hrun4 & Hr4 & Ho4 & Hst4 & Hset4 & Hg4). rewrite (dbind_ok _ _ _ _ _ Hrun4).
  destruct (owns_flush T D S q4 Ho4) as (q5 & Hrun5 & Ho5 & Hst5 & Hsv5 & Hset5 & _). rewrite (dbind_ok _ _ _ _ _ Hrun5). exists q5. split; [done|].
  assert (stays T D S q q5) as Hst by (eapply stays_trans; [exact Hst3|]; by eapply stays_trans). split_and!; [by apply (snaps_stays T D S q)|done|..].
  - intros o Hoo'. by rewrite (sv_guest _ _ _ Hsv5), Hg4, Hg3.
  - intros ls Hok Hac. pose proof (swap_accounted T D S q q2 l Ho Hs Hlen Hk Hb Hrc ls Hok Hac) as Hac3.
    assert (Forall (snap_ok T (installed q2 l)) ls) as Hls3 by (eapply Forall_impl; [exact Hok|]; intros l0 Hl0; by eapply (snaps_ok_stays T D S q)).
    apply (accounted_keep T D S S (installed q2 l)); try done; [apply (stays_refs T D S); [done|by eapply stays_trans]|]. intros x Hx. assert (any T D S x) by (unfold any; tauto). eapply settled_trans; auto.
  - pose proof (mv_room _ _ _ _ _ Hm1). pose proof (mv_room _ _ _ _ _ Hm2). pose proof (rp_room _ _ _ _ Hr4) as Hroom4. change (room (installed q2 l)) with (room q2) in Hroom4.
    pose proof (sv_room _ _ _ Hsv5). lia.
  - intros x Hx. rewrite (sv_rc _ _ _ Hsv5), (rp_rc _ _ _ _ Hr4) by done. change (rc (installed q2 l) x) with (rc q2 x). rewrite Hrc by done.
    destruct (reach_cnt q l x Hp Hml) as (? & _). pose proof (cnt_nonneg (l1 q ≫= refs q) x). lia.
Qed.
End apply.
