(* ===== verification/Qcow2SnapTake.v ===== *)
(** * qcow2 images: taking a snapshot

    [snapshot_create] counts what the guest's disk references once more,
    clears the copied bits, stores the L1 table in a cluster of its own and
    the snapshot table in another: from then on snapshots own the guest's
    tables and data of that moment. *)

From S2P Require Import Prelude TableCache Disk Qcow2 Qcow2Alloc Qcow2Read Qcow2Phys Qcow2Steps Qcow2Free Qcow2Write Qcow2Guest Qcow2Correct Qcow2Open Qcow2Durable Qcow2Header Qcow2Create Qcow2Snapshot Qcow2Walk Qcow2Copied Qcow2Owned Qcow2SnapTable Qcow2Snaps Qcow2Reach Qcow2Counted Qcow2SnapApply.

Section take.
Context {B : Type} `{HB : DiskContents B} `{HI : InflateLaws}.
Implicit Types q : Qcow2Image B.

(** ** Ownership that grows and shrinks *)

Lemma meta_ok_mono (P Q : Z → Prop) q : (∀ c, 0 ≤ c → is_meta q c → P c → Q c) → meta_ok P q → meta_ok Q q.
Proof.
  intros HPQ [M1 M2 M3 M4 M5 M6 M7]. constructor; try done. intros c Hc Hi. destruct (M6 c Hc Hi) as (? & ? & ?). split_and!; try done. by apply HPQ.
Qed.

(** A cluster nothing uses. *)
Lemma owns_add T D S q h :
  owns T D S q → unused (any T D S) q h → good q (h * cluster_size q) → c_map (l2_cache q) !! (h * cluster_size q) = None → rc q h = 1 → 0 < h →
  owns T D (also S (λ c, c = h)) q.
Proof.
  intros [Hw [A1 A2 A3 A4 A5 A6 A7] Hm Htop] (Hu1 & Hu2 & Hu3) Hg Hn Hone Hh. pose proof (phys_cs q (write_phys _ q Hw)) as Hcs.
  assert (∀ c, any T D (also S (λ c, c = h)) c → any T D S c ∨ c = h) as Hany by (intros c; unfold any, also; tauto). constructor.
  - apply (write_ok_extend _ (any T D S)); [done|]. intros c Hc. destruct (Hany c Hc) as [?| ->]; [by left|right]. destruct Hg as ((? & _ & ?) & ? & ?).
    rewrite Z.div_mul in * by lia. split_and!; try done; lia.
  - constructor; try done.
    + intros c Ht [Hs| ->]; [by apply (A2 c)|]. apply Hu3. by left.
    + intros c Hd [Hs| ->]; [by apply (A3 c)|]. apply Hu3. by right; left.
    + intros c [Hs| ->]; [by apply A4|]. split; [done|]. split; [|done]. intros i Hi Heq. apply (Hu1 i Hi). rewrite Heq. apply Z.div_mul. lia.
  - eapply meta_ok_mono; [|exact Hm]. intros c _ _. unfold any, also. tauto.
  - intros c Hc Hi. left. by apply Htop.
Qed.
(** What the guest has, once it has two references. *)
Lemma owns_share T D S q :
  owns T D S q → (∀ x, reach q (l1 q) x → 2 ≤ rc q x) →
  (∀ i j, 0 ≤ j < l2_entries q → dh q i j ≠ 0 → Z.land (ge q i j) COPIED_BIT = 0) →
  owns (also T (guest_table q)) (also D (guest_data q)) S q.
Proof.
  intros [Hw Ho Hm Htop] Hrc HC. unfold reach in Hrc. rewrite set_l1_same in Hrc. destruct (share_guest T D S q Hw Ho) as [Hw' Ho']; try done.
  - intros i Hi. apply Hrc. left. by exists i.
  - intros i j Hj Hd. apply Hrc. right. by exists i, j.
  - constructor; try done. eapply meta_ok_mono; [|exact Hm]. intros c _ _. unfold any, also. tauto.
Qed.

(** The guest's mapping, counted once more, is that of [l] as well. *)
Lemma share_accounted T D S S' q q1 q4 l ls :
  owns T D S q → owns T D S q1 → stays T D S q q4 → owns (also T (guest_table q4)) (also D (guest_data q4)) S' q4 →
  mapped q4 l → Forall (snap_ok T q) ls → (∀ x, 0 ≤ x → rc q1 x = rc q x + cnt (l1 q ≫= refs q) x) →
  (∀ x, also T (guest_table q4) x ∨ also D (guest_data q4) x → rc q4 x = rc q1 x) →
  (∀ x, reach q4 (l1 q4) x → 2 ≤ rc q1 x ∧ reach q (l1 q) x) → (∀ x, reach q4 l x → reach q4 (l1 q4) x) →
  accounted T D q ls → accounted (also T (guest_table q4)) (also D (guest_data q4)) q4 (ls ++ [l]).
Proof.
  intros Ho Ho1 Hst Ho4 Hml Hls Hrc1 Hrc4 Hre Hrl Hac x Hx. pose proof (owns_phys _ _ _ _ Ho) as Hp. pose proof (owns_phys _ _ _ _ Ho4) as Hp4.
  assert (0 ≤ x) as Hx0 by (apply (any_nonneg _ _ _ _ x Ho4); unfold any; tauto).
  rewrite total_app, (total_same T q q4 ls x (stays_refs T D S q q4 Ho Hst) Hls), total_cons, Hrc4 by done. change (total q4 [] x) with 0.
  destruct (reach_cnt q4 l x Hp4 Hml) as (Hl1 & Hl2 & _), (reach_cnt q4 (l1 q4) x Hp4 (guest_mapped _ q4 (on_ok _ _ _ _ Ho4))) as (Ha1 & Ha2 & _).
  destruct (reach_cnt q (l1 q) x Hp (guest_mapped _ q (on_ok _ _ _ _ Ho))) as (Hg1 & Hg2 & _). pose proof (cnt_nonneg (l ≫= refs q4) x). pose proof (cnt_nonneg (l1 q4 ≫= refs q4) x).
  pose proof (cnt_nonneg (l1 q ≫= refs q) x).
  assert (cnt (l1 q4 ≫= refs q4) x ≤ cnt (l1 q ≫= refs q) x ∧ (cnt (l1 q4 ≫= refs q4) x = 1 → 2 ≤ rc q1 x)) as [Hle Htwo].
  { destruct (decide (cnt (l1 q4 ≫= refs q4) x = 1)) as [E|E]; [|lia]. apply Ha2, Hre in E as [? E]. apply Hg2 in E. lia. }
  assert (cnt (l ≫= refs q4) x ≤ cnt (l1 q4 ≫= refs q4) x) as Hle'.
  { destruct (decide (cnt (l ≫= refs q4) x = 1)) as [E|E]; [|lia]. apply Hl2, Hrl, Ha2 in E. lia. }
  pose proof (rc_bound q1 x (owns_phys _ _ _ _ Ho1) Hx0). destruct (decide (total q ls x = 0)) as [->|Hne]; [lia|]. pose proof (total_pos q ls x).
  destruct (total_some q ls x) as (l0 & Hl0 & Hr0); [lia|]. rewrite Forall_forall in Hls.
  pose proof (Hac x (snap_reach T D S q l0 x Hp (on_owned _ _ _ _ Ho) (Hls l0 Hl0) Hr0)). rewrite Hrc1 by done. lia.
Qed.

Definition without (S : Z → Prop) (c : Z) : Z → Prop := λ x, S x ∧ x ≠ c.
Lemma owns_without T D S q c : owns T D S q → ¬ is_meta q c → owns T D (without S c) q.
Proof.
  intros [Hw [A1 A2 A3 A4 A5 A6 A7] Hm Htop] Hc. constructor.
  - eapply write_ok_mono; [|exact Hw]. unfold any, without. tauto.
  - constructor; try done.
    + intros x Ht [Hs _]. by apply (A2 x).
    + intros x Hd [Hs _]. by apply (A3 x).
    + intros x [Hs _]. by apply A4.
  - eapply meta_ok_mono; [|exact Hm]. intros x Hx Hi _. right. right. split; [by apply Htop|]. by intros ->.
  - intros x Hx Hi. split; [by apply Htop|]. by intros ->.
Qed.
(** One of the single clusters is freed. *)
Lemma owns_drop T D S q c :
  owns T D S q → S c → ¬ is_meta q c →
  ∃ q', dec_refcount c q = (q', DOk tt) ∧ owns T D (without S c) q' ∧ stays T D (without S c) q q' ∧ l1 q' = l1 q ∧ room q ≤ room q' ∧
    (∀ o, 0 ≤ o → guest_byte q' o = guest_byte q o) ∧ (∀ x, T x ∨ D x → settled q q' x) ∧ low q q'.
Proof.
  intros Ho Hs Hm. pose proof (on_ok _ _ _ _ Ho) as Hw. pose proof (owns_phys _ _ _ _ Ho) as Hp. pose proof (on_owned _ _ _ _ Ho) as Hoo.
  assert (any T D S c) as HPc by (by right; right). destruct (wo_P _ _ Hw c HPc) as (Hc0 & _ & Hnb & _). destruct (ow_S _ _ _ _ Hoo c Hs) as [Hone _].
  destruct (dec_refcount_counted q c (wo_alloc _ _ Hw) Hc0) as (q' & Hrun & Hco); [lia|intros _; split; [|done]; intros ->; apply Hm; by left|].
  exists q'. split; [done|]. pose proof (owns_without T D S q c Ho Hm) as Ho1. pose proof (on_ok _ _ _ _ Ho1) as Hw1.
  assert (∀ x, 0 ≤ x → rc q' x = if x =? c then 0 else rc q x) as Hrc by (intros x Hx; rewrite (co_rc _ _ _ _ Hco), Hone by done; done).
  assert (unused (any T D (without S c)) q c) as Hun.
  { destruct (private_unused _ q c Hw HPc Hone) as [Hu1 Hu2]. split_and!; try done. unfold any, without. intros [Ht|[Hd|[_ Hne]]]; [|by apply (ow_DS _ _ _ _ Hoo c)|done].
    by apply (ow_TS _ _ _ _ Hoo c). }
  destruct (frame_step (any T D (without S c)) nowhere nowhere q q' Hw1 (co_ok _ _ _ _ Hco) (co_keeps _ _ _ _ Hco)) as [Hw' Hsg]; try done.
  { exact (co_l1 _ _ _ _ Hco). } { intros b. rewrite (co_backing _ _ _ _ Hco). apply Hw. } { intros o. unfold backing_byte. by rewrite (co_backing _ _ _ _ Hco). }
  { intros x Hx Hnu. rewrite Hrc by done. destruct (Z.eqb_spec x c) as [->|]; done. }
  { intros x Hx. rewrite Hrc by done. case_match; lia. }
  pose proof (same_guest_wrote _ q q' 0 Hw1 Hw' Hsg) as Hwr. destruct (owns_wrote _ _ _ _ _ _ _ Ho1 Hw' Hwr) as [Ho' Hst]. split_and!; try done.
  - exact (co_l1 _ _ _ _ Hco).
  - exact (co_room _ _ _ _ Hco).
  - intros o Hoff. rewrite (wr_guest _ _ _ _ _ Hwr) by done. apply wrote_nothing.
  - intros x Hx. apply (wrote_settled _ _ _ _ _ _ Hwr). unfold any. tauto.
  - by apply (wrote_low _ _ _ _ _ Hwr).
Qed.

(** A new region. *)
Lemma owns_region T D S q b :
  owns T D S q → 1 ≤ room q → bytes_ok b → len b ≤ cluster_size q →
  ∃ q' h, write_region 1 b q = (q', DOk (h * cluster_size q)) ∧ owns T D (also S (λ c, c = h)) q' ∧ stays T D S q q' ∧
    holds (also S (λ c, c = h)) q' (h * cluster_size q) b ∧ ¬ any T D S h ∧ placed (any T D S) q q' h (resize_zero b (cluster_size q)) ∧
    (∀ o, 0 ≤ o → guest_byte q' o = guest_byte q o).
Proof.
  intros Ho Hr Hb Hl. pose proof (on_ok _ _ _ _ Ho) as Hw. pose proof (phys_cs q (owns_phys _ _ _ _ Ho)) as Hcs.
  destruct (write_region_spec _ q b Hw Hr Hb) as (q' & h & Hrun & Hpl). exists q', h. split; [done|]. pose proof Hpl as [P1 P2 P3 P4 P5 P6 P7 P8 P9 P10 P11 P12 P13].
  pose proof (same_guest_wrote _ q q' 0 Hw P1 P2) as Hwr. destruct (owns_wrote _ _ _ _ _ _ _ Ho P1 Hwr) as [Ho' Hst]. pose proof (st_cs _ _ _ _ _ Hst) as Hcs'.
  assert (¬ any T D S h) as Hnh by apply P7. split_and!; try done.
  - apply owns_add; rewrite ?Hcs'; done.
  - exists h. rewrite Hcs', P10. split_and!; try done; [by right| |by apply resize_prefix]. intros Hi. apply Hnh. right. right. apply (on_top _ _ _ _ Ho'); [lia|done].
  - intros o Hoff. rewrite (wr_guest _ _ _ _ _ Hwr) by done. apply wrote_nothing.
Qed.

(** The fields of the header. *)
Definition with_table q (n off : Z) : Qcow2Image B := set_header_dirty true (set_snapshots_offset off (set_nb_snapshots n q)).
Lemma owns_with_table T D S q n off : owns T D S q → is_u32 n → is_u64 off → off mod cluster_size q = 0 → owns T D S (with_table q n off).
Proof.
  intros [Hw [A1 A2 A3 A4 A5 A6 A7] Hm Htop] Hn Hoff Hal. destruct Hw as [W1 W2 W3 W4 W5 W6 W7 W8 W9 W10 W11 W12 W13]. constructor; try done.
  - constructor; try done. destruct W1 as [[] ? ? ?]. by constructor.
  - destruct Hm as [[] [] M3 M4 M5 M6 M7]. constructor; try done; constructor; done.
Qed.
Lemma listed_with_table T S q n off e l : listed T S q e l → listed T S (with_table q n off) e l.
Proof. intros [A1 A2 A3 [S1 S2 S3 S4]]. by constructor. Qed.

Lemma with_table_refs T q n off : same_refs T q (with_table q n off).
Proof. intros l [S1 S2 S3 S4]. split; [by constructor|done]. Qed.

(** ** Counting the guest's disk once more *)

Section shared_walk.
Context (T D S : Z → Prop) (q q' : Qcow2Image B) (Ho : owns T D S q) (Hm : recounted 1 (l1 q ≫= refs q) (tables_of q (l1 q)) q q').

Lemma walked_table k : tables_of q (l1 q) k → ∃ i, l2h q i = k ∧ k ≠ 0.
Proof. unfold tables_of. by rewrite set_l1_same. Qed.
Lemma walked_apart k c : tables_of q (l1 q) k → D c ∨ S c → off_table q c → k ≠ c * cluster_size q.
Proof. intros (i & Hi & Hne)%walked_table _ [Hnt _] Heq. apply (Hnt i); congruence. Qed.
Lemma walked_not_data k : tables_of q (l1 q) k → ∀ i j, 0 ≤ j < l2_entries q → dh q i j ≠ 0 → dh q i j ≠ k.
Proof. intros (i' & <- & _)%walked_table i j Hj Hd. by destruct (wo_data _ _ (on_ok _ _ _ _ Ho) i j Hj Hd) as (_ & _ & Ht); apply not_eq_sym. Qed.
Lemma walked_private c : S c → c ∉ l1 q ≫= refs q.
Proof.
  rewrite reach_elem. intros Hs Hr. pose proof (guest_reach_P _ q c (on_ok _ _ _ _ Ho) ltac:(by right; right) Hr). destruct (ow_S _ _ _ _ (on_owned _ _ _ _ Ho) c Hs). lia.
Qed.
Lemma walked_up x : 0 ≤ x → rc q x ≤ rc q' x.
Proof. intros Hx. rewrite (mv_rc _ _ _ _ _ Hm) by done. pose proof (cnt_nonneg (l1 q ≫= refs q) x). lia. Qed.
Lemma shared_owns : owns T D S q' ∧ stays T D S q q'.
Proof.
  pose proof (on_ok _ _ _ _ Ho) as Hw. pose proof (guest_countable _ q Hw) as Hc. pose proof Hm as [M1 M2 M3 M4 M5 M6 M7]. split.
  - apply (recount_owns 1 _ _ T D S q q' Ho Hm walked_private walked_apart Hc). destruct (frame_up (any T D S) nowhere (tables_of q (l1 q)) q q') as [Hw' _]; try done.
    + intros b. rewrite M6. apply Hw.
    + intros o. unfold backing_byte. by rewrite M6.
    + intros x Hx _. by apply walked_up.
  - exact (recount_stays 1 _ _ T D S q q' Ho Hm walked_private walked_apart Hc).
Qed.
Lemma shared_guest o : 0 ≤ o → guest_byte q' o = guest_byte q o.
Proof.
  pose proof (on_ok _ _ _ _ Ho) as Hw. apply (recount_guest 1 _ _ T D S q q' Ho Hm (guest_countable _ q Hw)).
  - exact walked_not_data.
  - intros x Hg. assert (reach q (l1 q) x) as Hr by (unfold reach; by rewrite set_l1_same). destruct (reach_good q (l1 q) x (write_phys _ q Hw) (guest_countable _ q Hw) Hr) as [(_ & Hrx & _) Hx0].
    pose proof (phys_cs q (write_phys _ q Hw)). rewrite Z.div_mul in Hrx by lia. pose proof (walked_up x ltac:(lia)). pose proof (rc_bound q x (write_phys _ q Hw) ltac:(lia)). lia.
Qed.
End shared_walk.

Lemma share_walk T D S q :
  owns T D S q → refcount_bits q < 64 → (∀ x, reach q (l1 q) x → rc q x + 1 < 2 ^ refcount_bits q) →
  ∃ q', walk_refcounts (l1 q) 1 q = (q', DOk tt) ∧ owns T D S q' ∧ stays T D S q q' ∧ l1 q' = l1 q ∧ room q ≤ room q' ∧
    (∀ o, 0 ≤ o → guest_byte q' o = guest_byte q o) ∧ (∀ x, reach q' (l1 q') x → 2 ≤ rc q' x ∧ reach q (l1 q) x) ∧ ∀ x, 0 ≤ x → rc q' x = rc q x + cnt (l1 q ≫= refs q) x.
Proof.
  intros Ho Hwid Hmax. pose proof (on_ok _ _ _ _ Ho) as Hw. pose proof (owns_phys _ _ _ _ Ho) as Hp. pose proof (guest_mapped _ q Hw) as Hma.
  pose proof (guest_countable _ q Hw) as Hca. destruct (walk_up q (l1 q) (wo_alloc _ _ Hw) Hma Hca Hwid Hmax) as (q' & Hrun & Hm). exists q'. pose proof Hm as [M1 M2 M3 M4 M5 M6 M7].
  split_and!; [done|by apply (shared_owns T D S q)|by apply (shared_owns T D S q)|done|done|intros o; by apply (shared_guest T D S)| |].
  - intros x Hx. rewrite M5, <-reach_elem, (moved_refs _ _ _ _ _ _ Hp Hm Hca), reach_elem in Hx. destruct (reach_good q (l1 q) x Hp Hca Hx) as [(_ & Hrx & _) Hx0].
    pose proof (phys_cs q Hp). rewrite Z.div_mul in Hrx by lia. rewrite M3 by lia. pose proof (rc_bound q x Hp ltac:(lia)).
    destruct (reach_cnt q (l1 q) x Hp Hma) as (_ & Hc & _). rewrite (proj1 Hc Hx). split; [lia|done].
  - intros x Hx. rewrite M3 by done. lia.
Qed.

(** ** Storing its L1 table *)

Lemma same_tables_reach q l l' x : (∀ i, l2h (set_l1 l q) i = l2h (set_l1 l' q) i) → reach q l x ↔ reach q l' x.
Proof.
  intros Hl. assert (∀ i j, dh (set_l1 l q) i j = dh (set_l1 l' q) i j) as Hd by (intros i j; unfold dh, ge; by rewrite Hl).
  unfold reach, guest_table, guest_data. setoid_rewrite Hl. by setoid_rewrite Hd.
Qed.

(** The copied bits, once everything has two references. *)
Lemma copied_shared P q q' i j : write_ok P q → repaired P (λ _ _, true) q q' → (∀ x, reach q (l1 q) x → 2 ≤ rc q x) → 0 ≤ j < l2_entries q → dh q i j ≠ 0 →
  Z.land (ge q' i j) COPIED_BIT = 0.
Proof.
  intros Hw Hr Htwo Hj Hd. rewrite (rp_ge _ _ _ _ Hr) by done. unfold fix_entry. fold (dh q i j). rewrite (proj2 (Z.eqb_neq _ _)) by done.
  assert (want q (dh q i j) = 0) as ->; [|by apply with_copied_bit; left]. unfold want. rewrite (proj2 (Z.eqb_neq _ 1)); [done|].
  assert (2 ≤ rc q (dh q i j / cluster_size q)); [|lia]. apply Htwo. unfold reach. rewrite set_l1_same. right. by exists i, j.
Qed.
Lemma repaired_reach P R q q' x : repaired P R q q' → reach q' (l1 q') x → reach q (l1 q) x.
Proof.
  intros Hr. unfold reach. rewrite !set_l1_same. unfold guest_table, guest_data, l2_entries. rewrite (rp_cs _ _ _ _ Hr).
  intros [(i & Hi & <-)|(i & j & Hj & Hd & <-)]; [left; exists i; by rewrite (rp_l2h _ _ _ _ Hr) in *|]. right. exists i, j. by rewrite (repaired_dh _ _ _ _ i j Hr) in *.
Qed.
Lemma same_guest_reach P q q' x : l1 q' = l1 q → same_guest P q q' → reach q' (l1 q') x → reach q (l1 q) x.
Proof.
  intros Hl Hs. unfold reach. rewrite !set_l1_same. unfold guest_table, guest_data, l2_entries, l2h, dh. rewrite (sg_cs _ _ _ Hs), Hl.
  intros [?|(i & j & Hj & Hd & <-)]; [by left|]. right. exists i, j. by rewrite (sg_ge _ _ _ Hs) in * by done.
Qed.
Lemma fix_entry_u64 q e : is_u64 e → is_u64 (fix_entry q e).
Proof. intros He. unfold fix_entry. case_match; [done|]. apply with_copied_range, want_bit. Qed.

Lemma take_l1 T D S q :
  owns T D S q → (∀ x, reach q (l1 q) x → 2 ≤ rc q x) → 1 ≤ room q → 8 * Z.of_nat (length (l1 q)) ≤ cluster_size q →
  ∃ q2 q3 q4 h l, rewrite_active_copied_bits q = (q2, DOk tt) ∧ snapshot_l1 (l1 q) q2 = (q3, DOk l) ∧ length l = length (l1 q) ∧
    wrap32 (Z.of_nat (length l)) = Z.of_nat (length l) ∧
    write_region (l1_bytes_clusters q3 (Z.of_nat (length l))) (table_bytes l) q3 = (q4, DOk (h * cluster_size q)) ∧
    stays T D S q q4 ∧ room q - 1 ≤ room q4 ∧ (∀ o, 0 ≤ o → guest_byte q4 o = guest_byte q o) ∧
    (∀ x, also T (guest_table q4) x ∨ also D (guest_data q4) x → rc q4 x = rc q x) ∧ ¬ any T D S h ∧ 0 < h ∧ (h + 1) * cluster_size q ≤ 2 ^ 56 ∧ holds (also S (λ c, c = h)) q4 (h * cluster_size q) (table_bytes l) ∧
    owns (also T (guest_table q4)) (also D (guest_data q4)) (also S (λ c, c = h)) q4 ∧ snap_ok (also T (guest_table q4)) q4 l ∧
    (∀ o, 0 ≤ o → snap_byte q4 l o = guest_byte q o) ∧ (∀ x, reach q4 (l1 q4) x → reach q (l1 q) x) ∧ (∀ x, reach q4 l x → reach q4 (l1 q4) x) ∧ low q q4.
Proof.
  intros Ho Htwo Hroom Hfit. pose proof (on_ok _ _ _ _ Ho) as Hw. pose proof (owns_phys _ _ _ _ Ho) as Hp. pose proof (phys_cs q Hp) as Hcs0.
  destruct (owns_copied T D S q Ho) as (q2 & Hrun2 & Hr2 & Ho2 & Hst2 & _ & Hg2). pose proof (on_ok _ _ _ _ Ho2) as Hw2.
  destruct (snapshot_l1_spec _ (l1 q) q2 Hw2) as (q3 & Hrun3 & Hr3 & Hl3); [eapply Forall_impl; [exact (wo_l1 _ _ Hw)|]; by intros ? []|]. set (l := fix_entry q2 <$> l1 q) in *.
  pose proof (repaired_trans _ _ _ _ _ _ Hw Hr2 Hr3) as Hr. pose proof (repaired_wrote _ _ _ _ 0 Hw Hr) as Hwr.
  destruct (owns_wrote _ _ _ _ _ _ _ Ho (rp_ok _ _ _ _ Hr3) Hwr) as [Ho3 Hst3]. pose proof (st_cs _ _ _ _ _ Hst3) as Hcs3.
  assert (length l = length (l1 q)) as Hlen by (unfold l; by rewrite length_fmap).
  pose proof (rp_room _ _ _ _ Hr) as Hroom3.
  pose proof (len_table_bytes l) as Hlb. destruct (owns_region T D S q3 (table_bytes l) Ho3) as (q4 & h & Hrun4 & Ho4 & Hst4 & Hh4 & Hnh & Hpl & Hg4);
    [lia|apply bytes_ok_table_bytes|rewrite Hcs3; lia|].
  exists q2, q3, q4, h, l. rewrite Hcs3 in *. pose proof Hpl as [P1 P2 P3 P4 P5 P6 P7 P8 P9 P10 P11 P12 P13].
  assert (Z.of_nat (length l) < 2 ^ 32) as Hl32 by (rewrite Hlen, <-(owns_l1_size _ _ _ _ Ho); apply (mo_fields _ _ (on_meta _ _ _ _ Ho))).
  assert (∀ x, 0 ≤ x → rc q x ≠ 0 → rc q4 x = rc q x) as Hrc4 by (intros x Hx Hne; rewrite <-(rp_rc _ _ _ _ Hr x Hx) in Hne |- *; by apply P11).
  assert (repaired (any T D S) (λ _ _, true) q q3) as Hrt by (by eapply repaired_ext; [|exact Hr]).
  assert (∀ x, reach q4 (l1 q4) x → reach q (l1 q) x) as Hreach by (intros x Hx; by eapply repaired_reach, same_guest_reach; [exact Hr|exact P3|exact P2|]).
  assert (∀ o, 0 ≤ o → guest_byte q4 o = guest_byte q o) as Hg by (intros o Hoff; rewrite Hg4, (wr_guest _ _ _ _ _ Hwr) by done; apply wrote_nothing).
  assert (∀ i, l2h (set_l1 l q4) i = l2h q4 i) as Hl4h.
  { intros i. transitivity (l2h q i); [|unfold l2h at 2; rewrite P3; exact (eq_sym (rp_l2h _ _ _ _ Hr i))].
    unfold l2h. cbn [l1 set_l1]. unfold l. rewrite list_lookup_fmap. destruct (l1 q !! i); [|done]. apply fix_entry_host. }
  destruct (guest_snap T D (also S (λ c, c = h)) q4 l (on_ok _ _ _ _ Ho4)) as [Hsnap Hbyte]; [|exact Hl4h|].
  { apply Forall_fmap. eapply Forall_impl; [exact (wo_l1 _ _ Hw)|]. intros e. apply fix_entry_u64. }
  split_and!; try done.
  - unfold wrap32. apply Z.mod_small. lia.
  - rewrite <-Hrun4. f_equal. unfold l1_bytes_clusters. rewrite Hcs3. unfold div_ceil. assert ((Z.of_nat (length l) * 8 + cluster_size q - 1) / cluster_size q ≤ 1); [|lia].
    apply Z.lt_succ_r, Z.div_lt_upper_bound; lia.
  - by eapply stays_trans.
  - lia.
  - intros x Hx. assert (any T D S x ∨ reach q (l1 q) x) as [HPx|Hrx].
    { destruct Hx as [[Ht|Ht]|[Hd|Hd]]; [left; by left|right; apply Hreach; left; by rewrite set_l1_same|left; by right; left|right; apply Hreach; right; by rewrite set_l1_same]. }
    + destruct (wo_P _ _ Hw x HPx) as (? & ? & _). by apply Hrc4.
    + destruct (reach_good q (l1 q) x Hp (guest_countable _ q Hw) Hrx). specialize (Htwo x Hrx). apply Hrc4; lia.
  - by rewrite <-Hcs3.
  - apply owns_share; [done| |].
    + intros x Hx. apply Hreach in Hx. specialize (Htwo x Hx). assert (0 ≤ x) by (destruct (reach_good q (l1 q) x Hp (guest_countable _ q Hw) Hx); lia). rewrite Hrc4; lia.
    + assert (l2_entries q4 = l2_entries q) as -> by (unfold l2_entries; by rewrite (sg_cs _ _ _ P2), Hcs3). intros i j Hj.
      assert (l2_entries q3 = l2_entries q) as He3 by (unfold l2_entries; by rewrite Hcs3). unfold dh. rewrite (sg_ge _ _ _ P2) by (by rewrite He3). fold (dh q3 i j).
      rewrite (repaired_dh _ _ _ _ i j Hr) by done. by apply (copied_shared (any T D S)).
  - intros o Hoff. by rewrite Hbyte, Hg.
  - intros x. by rewrite (same_tables_reach q4 l (l1 q4) x) by (intros i; by rewrite set_l1_same).
  - eapply low_trans; [|exact (placed_low _ _ _ _ _ Hpl)]. apply low_same. exact (rp_rc _ _ _ _ Hr).
Qed.

(** ** Storing the snapshot table *)

Lemma one_cluster q n : 0 < n ≤ cluster_size q → div_ceil n (cluster_size q) = 1.
Proof. intros Hn. unfold div_ceil. symmetry. apply (Z.div_unique _ _ _ (n - 1)); lia. Qed.
Lemma len_table es : len (es ≫= serialize) = foldr Z.add 0 (padded_size <$> es).
Proof. induction es as [|e es IH]; [done|]. cbn [mbind list_bind fmap list_fmap foldr]. by rewrite len_app, len_serialize, IH. Qed.
Lemma table_pos es : es ≠ [] → 0 < len (es ≫= serialize).
Proof.
  destruct es as [|e es]; [done|]. intros _. cbn [mbind list_bind]. rewrite len_app, len_serialize. pose proof (len_nonneg (es ≫= serialize)).
  pose proof (len_nonneg (s_id e)). pose proof (len_nonneg (s_name e)). unfold padded_size.
  assert (8 ≤ div_ceil (40 + 24 + len (s_id e) + len (s_name e)) 8) by (unfold div_ceil; apply Z.div_le_lower_bound; lia). lia.
Qed.

(** The clusters of the table on disk. *)
Lemma old_table_clusters T D S q es : shelved T D S q es → es ≠ [] → old_snapshot_table_clusters q = (q, DOk 1).
Proof.
  intros Hs Hne. unfold old_snapshot_table_clusters. rewrite (dbind_ok _ _ _ _ _ (parse_shelved _ _ _ _ _ Hs)), (dbind_ok _ _ q q q) by done. unfold id.
  destruct Hs as (_ & _ & [_ Ht]). rewrite decide_False in Ht by done. destruct Ht as (_ & (c & _ & _ & _ & Hl & _) & _).
  rewrite <-len_table, one_cluster; [done|]. split; [by apply table_pos|done].
Qed.

(** Freeing it. *)
Lemma free_table T D S q c :
  owns T D S q → S c → ¬ is_meta q c → ∃ q', free_region (c * cluster_size q) 1 q = (q', DOk tt) ∧ owns T D (without S c) q' ∧ stays T D (without S c) q q' ∧
    room q ≤ room q' ∧ (∀ o, 0 ≤ o → guest_byte q' o = guest_byte q o) ∧ (∀ x, T x ∨ D x → settled q q' x) ∧ low q q'.
Proof.
  intros Ho Hs Hm. pose proof (phys_cs q (owns_phys _ _ _ _ Ho)) as Hcs. destruct (owns_drop T D S q c Ho Hs Hm) as (q' & Hrun & Ho' & Hst & _ & Hrt & Hg & Hset & Hlow).
  exists q'. split_and!; try done. unfold free_region. rewrite (dbind_ok _ _ q q q) by done. unfold id. change (seqZ 0 1) with [0]. cbn [dfor].
  rewrite Z.div_mul, Z.add_0_r by lia. by rewrite (dbind_ok _ _ _ _ _ Hrun).
Qed.

(** Entries whose L1 tables are not where the table was. *)
Lemma snap_ok_mono (T T' : Z → Prop) q l : (∀ c, T c → T' c) → snap_ok T q l → snap_ok T' q l.
Proof. intros HT [S1 S2 S3 S4]. constructor; try done. intros i Hi. destruct (S2 i Hi). auto. Qed.
Lemma listed_mono (T T' S S' : Z → Prop) q e l :
  (∀ c, T c → T' c) → (∀ c, S c → s_l1_table_offset e = c * cluster_size q → S' c) → listed T S q e l → listed T' S' q e l.
Proof.
  intros HT HS [A1 A2 A3 A4]. constructor; try done; [by eapply holds_mono|by eapply snap_ok_mono].
Qed.
Lemma tabled_mono (S S' : Z → Prop) q es : (∀ c, S c → S' c) → tabled S q es → tabled S' q es.
Proof. intros HS [Hn Ht]. split; [done|]. case_decide; [done|]. destruct Ht as (? & Hh & ?). split_and!; try done. eapply holds_mono; [|exact Hh]. auto. Qed.

Lemma snaps_with_table T D S q es h :
  owns T D S q → Forall entry_ok es → es ≠ [] → Z.of_nat (length es) < 2 ^ 32 → 0 < h → (h + 1) * cluster_size q ≤ 2 ^ 56 →
  holds S q (h * cluster_size q) (es ≫= serialize) → Forall (λ e, s_l1_table_offset e ≠ h * cluster_size q) es → (∀ e, e ∈ es → ∃ l, listed T S q e l) →
  snaps T D S (with_table q (wrap32 (Z.of_nat (length es))) (h * cluster_size q)) es.
Proof.
  intros Ho Hf Hne Hlen Hh Hfit Hho Hap Hli. pose proof (phys_cs q (owns_phys _ _ _ _ Ho)) as Hcs.
  assert (wrap32 (Z.of_nat (length es)) = Z.of_nat (length es)) as Hw by (unfold wrap32; apply Z.mod_small; lia). rewrite Hw. constructor; try done.
  - apply owns_with_table; [done|unfold is_u32; lia|unfold is_u64; nia|apply Z.mod_mul; lia].
  - split; [done|]. rewrite decide_False by done. split_and!; [change (h * cluster_size q ≠ 0); nia|exact Hho|exact Hap].
  - intros e He. destruct (Hli e He) as [l Hl]. exists l. by apply listed_with_table.
Qed.

(** What every operation on the image keeps. *)
Record alike q' q : Prop := mkAlike {
  ak_cs : cluster_size q' = cluster_size q;
  ak_size : q_size q' = q_size q;
  ak_l1 : length (l1 q') = length (l1 q);
  ak_width : refcount_bits q' = refcount_bits q;
  ak_backing o : backing_byte q' o = backing_byte q o }.
#[export] Instance alike_equiv : Equivalence alike.
Proof.
  split.
  - intros q. by constructor.
  - intros q q' [A1 A2 A3 A4 A5]. by constructor.
  - intros q1 q2 q3 [A1 A2 A3 A4 A5] [B1 B2 B3 B4 B5]. constructor; try congruence.
Qed.
Lemma stays_alike T D S q q' : stays T D S q q' → alike q' q.
Proof. intros [A1 A2 A3 A4 _ _ _ _ _ A10 (_ & _ & A13)]. by constructor. Qed.

(** What is left of the old table, if there was one, is free. *)
Lemma drop_table T D S S1 q q1 es :
  tabled S q es → owns T D S1 q1 → cluster_size q1 = cluster_size q → (∀ c, is_meta q1 c ↔ is_meta q c) → (∀ c, S c → S1 c) →
  ∃ q' S2, match (if decide (es = []) then None else Some 1) with Some n => free_region (snapshots_offset q) n | None => mret tt end q1 = (q', DOk tt) ∧
    owns T D S2 q1 ∧ owns T D S2 q' ∧ stays T D S2 q1 q' ∧ room q1 ≤ room q' ∧ (∀ o, 0 ≤ o → guest_byte q' o = guest_byte q1 o) ∧
    (∀ x, T x ∨ D x → settled q1 q' x) ∧ low q1 q' ∧ (∀ c, S1 c → es = [] ∨ c * cluster_size q ≠ snapshots_offset q → S2 c).
Proof.
  intros [_ Ht] Ho1 Hcs Hme HS. destruct (decide (es = [])) as [He|He].
  - exists q1, S1. split_and!; try done; [intros x _; by apply settled_same|by apply low_same].
  - destruct Ht as (_ & (c & Hc & Hsc & Hnm & _) & _). rewrite Hc, <-Hcs.
    destruct (free_table T D S1 q1 c Ho1 (HS c Hsc)) as (q' & Hrun & Ho' & Hst' & Hrt & Hg & Hset & Hlow); [by rewrite Hme|].
    exists q', (without S1 c). split_and!; try done; [apply owns_without; [done|by rewrite Hme]|].
    intros x Hx [?|Hne]; [done|]. split; [done|]. intros ->. by rewrite Hcs in Hne.
Qed.

Lemma retable T D S q es es' :
  shelved T D S q es → Forall entry_ok es' → es' ≠ [] → Z.of_nat (length es') < 2 ^ 32 → len (es' ≫= serialize) ≤ cluster_size q → 1 ≤ room q →
  (∀ e, e ∈ es' → (∃ l, listed T S q e l) ∧ (es ≠ [] → s_l1_table_offset e ≠ snapshots_offset q)) →
  ∃ q' S', rewrite_snapshot_table es' q = (q', DOk tt) ∧ snaps T D S' q' es' ∧ room q - 1 ≤ room q' ∧ alike q' q ∧
    (∀ o, 0 ≤ o → guest_byte q' o = guest_byte q o) ∧ (∀ x, T x ∨ D x → settled q q' x) ∧ low q q' ∧ same_refs T q q' ∧
    ∀ e l, e ∈ es' → listed T S q e l → listed T S' q' e l ∧ ∀ o, snap_byte q' l o = snap_byte q l o.
Proof.
  intros Hs Hf Hne Hlen Hfit Hroom Hli. pose proof Hs as (Ho & _ & Htab). pose proof (phys_cs q (owns_phys _ _ _ _ Ho)) as Hcs0. pose proof (table_pos es' Hne) as Hpos.
  assert (bytes_ok (es' ≫= serialize)) as Hb by (clear -Hf; induction Hf as [|e es He Hes IH]; [constructor|]; apply bytes_ok_app; [by apply bytes_ok_serialize|done]).
  destruct (owns_region T D S q _ Ho Hroom Hb Hfit) as (q1 & h & Hrun1 & Ho1 & Hst1 & Hh1 & Hnh & Hpl & Hg1). pose proof (st_cs _ _ _ _ _ Hst1) as Hcs1.
  destruct (drop_table T D S (also S (λ c, c = h)) q q1 es Htab Ho1 Hcs1 (st_meta _ _ _ _ _ Hst1)) as (q2 & S2 & Hrun2 & Ho12 & Ho2 & Hst2 & Hrt2 & Hg2 & Hset2 & Hlow2 & HS2); [intros c Hc; by left|].
  pose proof (st_cs _ _ _ _ _ Hst2) as Hcs2. exists (with_table q2 (wrap32 (Z.of_nat (length es'))) (h * cluster_size q)), S2.
  assert (∀ e l, e ∈ es' → listed T S q e l → listed T S2 q2 e l ∧ ∀ o, snap_byte q2 l o = snap_byte q l o) as Hl2.
  { intros e l He Hl. destruct (listed_stays T D S q q1 e l Ho Hst1 Hl) as [Hl1 Hb1].
    assert (listed T S2 q1 e l) as Hl1'.
    { eapply listed_mono; [done| |exact Hl1]. intros c Hc Heq. apply HS2; [by left|]. destruct (decide (es = [])) as [|Hes]; [by left|right].
      rewrite <-Hcs1, <-Heq. by apply (Hli e He). }
    destruct (listed_stays T D S2 q1 q2 e l Ho12 Hst2 Hl1') as [Hl2 Hb2]. split; [done|]. intros o. by rewrite Hb2, Hb1. }
  assert (holds S2 q2 (h * cluster_size q2) (es' ≫= serialize)) as Hh2.
  { rewrite Hcs2, Hcs1. apply (holds_stays T D S2 q1); [done|]. eapply holds_mono; [|exact Hh1]. intros c Hc Heq. apply HS2; [done|]. rewrite Hcs1 in Heq.
    destruct (decide (es = [])) as [|Hes]; [by left|right]. rewrite <-Heq. destruct Htab as [_ Ht]. rewrite decide_False in Ht by done.
    destruct Ht as (_ & (c' & -> & Hs' & _) & _). intros Hx. apply Z.mul_reg_r in Hx; [|lia]. subst c'. apply Hnh. by right; right. }
  split_and!.
  - unfold rewrite_snapshot_table. rewrite (dbind_ok _ _ q q q) by done. unfold id.
    rewrite (dbind_ok _ _ q q (if decide (es = []) then None else Some 1)).
    2: { destruct Htab as [_ Ht]. case_decide as Hes; [by rewrite Ht|]. destruct Ht as (Hoff & _). rewrite (proj2 (Z.eqb_neq _ _)) by done. cbn [negb].
         by rewrite (dbind_ok _ _ _ _ _ (old_table_clusters T D S q es Hs Hes)). }
    rewrite (proj2 (Z.eqb_neq _ 0)), one_cluster by lia. rewrite (dbind_ok _ _ _ _ _ Hrun1), (dbind_ok _ _ _ _ _ Hrun2). done.
  - rewrite <-Hcs1, <-Hcs2. apply snaps_with_table; try done; [apply Hpl|rewrite Hcs2, Hcs1; apply Hpl| |].
    + apply Forall_forall. intros e He Heq. rewrite Hcs2, Hcs1 in Heq. destruct (Hli e He) as [[l [(c & Hc & Hsc & _) _ _ _]] _]. rewrite Hc in Heq. apply Z.mul_reg_r in Heq; [|lia]. subst c.
      apply Hnh. by right; right.
    + intros e He. destruct (Hli e He) as [[l Hl] _]. exists l. by apply Hl2.
  - pose proof (pl_room _ _ _ _ _ Hpl). change (room q - 1 ≤ room q2). lia.
  - transitivity q2; [by constructor|]. by rewrite (stays_alike _ _ _ _ _ Hst2), (stays_alike _ _ _ _ _ Hst1).
  - intros o Hoff. change (guest_byte q2 o = guest_byte q o). by rewrite Hg2, Hg1.
  - intros x Hx. change (settled q q2 x). eapply settled_trans; [|by apply Hset2]. apply (placed_settled _ _ _ _ _ _ Hpl). unfold any. tauto.
  - change (low q q2). eapply low_trans; [exact (placed_low _ _ _ _ _ Hpl)|done].
  - apply (same_refs_trans T q q2); [eapply same_refs_trans; [by apply (stays_refs T D S)|by apply (stays_refs T D S2)]|apply with_table_refs].
  - intros e l He Hl. destruct (Hl2 e l He Hl). split; [by apply listed_with_table|done].
Qed.

(** ** The whole *)

Lemma table_entries es : 64 * Z.of_nat (length es) ≤ len (es ≫= serialize).
Proof.
  induction es as [|e es IH]; [done|]. cbn [mbind list_bind length]. rewrite len_app, len_serialize. pose proof (len_nonneg (s_id e)). pose proof (len_nonneg (s_name e)).
  unfold padded_size. assert (8 ≤ div_ceil (40 + 24 + len (s_id e) + len (s_name e)) 8) by (unfold div_ceil; apply Z.div_le_lower_bound; lia). lia.
Qed.
Lemma phys_cs_max q : phys q → cluster_size q ≤ 2 ^ 21.
Proof. intros Hp. rewrite (ph_cluster q Hp). pose proof (ph_bits q Hp). apply Z.pow_le_mono_r; lia. Qed.

(** The disk at this moment as an entry of the table. *)
Lemma take_entries T D S q q4 es e h l :
  snaps T D S q es → stays T D S q q4 → ¬ any T D S h → s_l1_table_offset e = h * cluster_size q → s_l1_size e = Z.of_nat (length l) → length l = length (l1 q) →
  s_disk_size e = Some (q_size q4) → holds (also S (λ c, c = h)) q4 (h * cluster_size q) (table_bytes l) →
  owns (also T (guest_table q4)) (also D (guest_data q4)) (also S (λ c, c = h)) q4 → snap_ok (also T (guest_table q4)) q4 l →
  let T' := also T (guest_table q4) in let S' := also S (λ c, c = h) in
  snaps T' (also D (guest_data q4)) S' q4 es ∧ listed T' S' q4 e l ∧
  (∀ e0 l0, e0 ∈ es → listed T S q e0 l0 → listed T' S' q4 e0 l0 ∧ ∀ o, snap_byte q4 l0 o = snap_byte q l0 o) ∧
  ∀ e0, e0 ∈ es ++ [e] → es ≠ [] → s_l1_table_offset e0 ≠ snapshots_offset q4.
Proof.
  intros Hs Hst Hnh Hoff Hsz Hlen Hdisk Hho Ho4 Hsn T' S'. pose proof Hs as [Ho Hf Ht Hl]. pose proof (phys_cs q (owns_phys _ _ _ _ Ho)) as Hcs0.
  assert (∀ e0 l0, listed T S q e0 l0 → listed T' S' q4 e0 l0 ∧ ∀ o, snap_byte q4 l0 o = snap_byte q l0 o) as Hl4.
  { intros e0 l0 Hl0. destruct (listed_stays T D S q q4 e0 l0 Ho Hst Hl0) as [Hl1 Hb1]. split; [|done]. eapply listed_mono; [| |exact Hl1]; [by left|by left]. }
  split_and!.
  - constructor; try done; [eapply tabled_mono; [|by eapply (tabled_stays T D S q q4)]; by left|]. intros e0 He0. destruct (Hl e0 He0) as [l0 Hl0]. exists l0. by apply Hl4.
  - constructor; try done; [by rewrite Hoff|by rewrite (st_l1 _ _ _ _ _ Hst)].
  - intros e0 l0 _. apply Hl4.
  - intros e0 He0 Hne. destruct (st_snaps _ _ _ _ _ Hst) as (_ & -> & _). destruct Ht as [_ Ht]. rewrite decide_False in Ht by done. destruct Ht as (_ & (c & Hc & Hsc & _) & Hap).
    apply elem_of_app in He0 as [He0|He0%list_elem_of_singleton]; [by eapply Forall_forall in Hap|]. subst e0. rewrite Hoff, Hc. intros Heq. apply Z.mul_reg_r in Heq; [|lia]. subst c.
    apply Hnh. by right; right.
Qed.

(** A snapshot that can be taken: a name that is free, counts that can grow,
    and an L1 table and a snapshot table that fit a cluster each. *)
Record takeable q (es : list SnapshotEntry) (now : Z * Z) (name sid : bytes) (vm_clock : Z) : Prop := mkTakeable {
  tk_id : next_snapshot_id es = Ret sid;
  tk_free e : e ∈ es → s_name e ≠ name;
  tk_name : text_ok name ∧ 0 < len name ≤ 1023;
  tk_time : is_u32 now.2 ∧ is_u64 vm_clock;
  tk_width : refcount_bits q < 64;
  tk_count x : 0 ≤ x → rc q x + 1 < 2 ^ refcount_bits q;
  tk_room : 2 ≤ room q;
  tk_l1 : 8 * Z.of_nat (length (l1 q)) ≤ cluster_size q;
  tk_table : len (es ≫= serialize) + div_ceil (40 + 24 + len sid + len name) 8 * 8 ≤ cluster_size q }.

Lemma new_entry_ok q h n sid name (now : Z * Z) vm_clock :
  phys q → text_ok sid → 0 < len sid ≤ 20 → text_ok name → 0 < len name ≤ 1023 → is_u32 now.2 → is_u64 vm_clock → 0 < h → (h + 1) * cluster_size q ≤ 2 ^ 56 →
  is_u32 n → is_u64 (q_size q) →
  entry_ok (mkSnapshotEntry (h * cluster_size q) n sid name (wrap32 now.1) now.2 vm_clock (Z.min 0 (2 ^ 32 - 1)) (Some 0) (Some (q_size q))).
Proof.
  intros Hp ? ? ? ? ? ? ? ? ? ?. pose proof (phys_cs q Hp). constructor; cbn [s_l1_table_offset s_l1_size s_id s_name s_date_sec s_date_nsec s_vm_clock_nsec s_vm_state_size s_vm_state_size_large s_disk_size].
  - unfold is_u64. nia.
  - done.
  - split; [done|unfold is_u16; lia].
  - split; [done|unfold is_u16; lia].
  - split_and!; try done; unfold wrap32; apply Z.mod_pos_bound; lia.
  - split; [done|]. exists 0. split; [done|unfold is_u64; lia].
  - by exists (q_size q).
Qed.

(** The run of the steps. *)
Lemma take_run T D S q q1 q2 q3 q4 q5 q6 es now name sid vm_clock l off :
  snaps T D S q es → next_snapshot_id es = Ret sid → (∀ e, e ∈ es → s_name e ≠ name) → 0 < len name ≤ 1023 →
  walk_refcounts (l1 q) 1 q = (q1, DOk tt) → rewrite_active_copied_bits q1 = (q2, DOk tt) → snapshot_l1 (l1 q) q2 = (q3, DOk l) →
  wrap32 (Z.of_nat (length l)) = Z.of_nat (length l) → write_region (l1_bytes_clusters q3 (Z.of_nat (length l))) (table_bytes l) q3 = (q4, DOk off) →
  rewrite_snapshot_table (es ++ [mkSnapshotEntry off (Z.of_nat (length l)) sid name (wrap32 now.1) now.2 vm_clock (Z.min 0 (2 ^ 32 - 1)) (Some 0) (Some (q_size q4))]) q4 =
    (q5, DOk tt) → flush_metadata q5 = (q6, DOk tt) →
  snapshot_create now name 0 vm_clock q = (q6, DOk tt).
Proof.
  intros Hs K1 K2 K4 Hrun1 Hrun2 Hrun3 Hw32 Hrun4 Hrun5 Hrun6. unfold snapshot_create. rewrite (dbind_ok _ _ _ _ _ (owns_writable _ _ _ _ (sn_owns _ _ _ _ _ Hs))).
  rewrite (proj2 (Z.eqb_neq (len name) 0)), (proj2 (Z.ltb_ge 1023 _)) by lia. cbn [orb]. rewrite (dbind_ok _ _ _ _ _ (parse_table_spec _ _ _ _ _ Hs)).
  assert (existsb (λ e, bool_decide (s_name e = name)) es = false) as ->.
  { apply not_true_is_false. rewrite existsb_exists. intros (e0 & He0 & Hn%bool_decide_eq_true). apply (K2 e0); [by apply list_elem_of_In|done]. }
  rewrite (dbind_ok _ _ q q sid) by (unfold dpure; by rewrite K1). rewrite (dbind_ok _ _ q q q) by done. change (0 <? 0) with false. cbn [id].
  rewrite (dbind_ok _ _ q q tt) by done. rewrite (dbind_ok _ _ q q (l1 q)) by done. rewrite (dbind_ok _ _ _ _ _ Hrun1), (dbind_ok _ _ q1 q1 tt) by done.
  rewrite (dbind_ok _ _ _ _ _ Hrun2), (dbind_ok _ _ _ _ _ Hrun3), (dbind_ok _ _ q3 q3 q3) by done. unfold id. rewrite Hw32, (dbind_ok _ _ _ _ _ Hrun4), (dbind_ok _ _ q4 q4 q4) by done.
  by rewrite (dbind_ok _ _ _ _ _ Hrun5).
Qed.

Lemma take_spec T D S q es now name sid vm_clock :
  snaps T D S q es → takeable q es now name sid vm_clock →
  ∃ q' T' D' S' e l, snapshot_create now name 0 vm_clock q = (q', DOk tt) ∧ snaps T' D' S' q' (es ++ [e]) ∧ s_name e = name ∧ s_id e = sid ∧ snapshot_info e = mkSnapshotInfo sid name 0 (wrap32 now.1) now.2 vm_clock ∧ listed T' S' q' e l ∧
    (∀ o, 0 ≤ o → snap_byte q' l o = guest_byte q o) ∧ (∀ o, 0 ≤ o → guest_byte q' o = guest_byte q o) ∧ room q - 2 ≤ room q' ∧ alike q' q ∧
    (∀ x, 0 ≤ x → rc q' x ≤ Z.max 1 (rc q x) + 1) ∧ (∀ ls, Forall (snap_ok T q) ls → accounted T D q ls → accounted T' D' q' (ls ++ [l])) ∧
    (∀ e0 l0, e0 ∈ es → listed T S q e0 l0 → s_l1_table_offset e0 ≠ s_l1_table_offset e) ∧
    ∀ e0 l0, e0 ∈ es → listed T S q e0 l0 → listed T' S' q' e0 l0 ∧ ∀ o, snap_byte q' l0 o = snap_byte q l0 o.
Proof.
  intros Hs [K1 K2 [K3 K4] [K5 K6] K7 K8 K9 K10 K11]. pose proof (sn_owns _ _ _ _ _ Hs) as Ho. destruct (next_id_spec es sid K1) as (_ & Hidt & Hidl).
  destruct (share_walk T D S q Ho K7) as (q1 & Hrun1 & Ho1 & Hst1 & Hl1 & Hroom1 & Hg1 & Htwo & Hrc1).
  { intros x Hx. apply K8. destruct (reach_good q (l1 q) x (owns_phys _ _ _ _ Ho) (guest_countable _ q (on_ok _ _ _ _ Ho)) Hx). lia. }
  pose proof (snaps_stays T D S q q1 es Hs Ho1 Hst1) as Hs1. pose proof (st_cs _ _ _ _ _ Hst1) as Hcs1.
  destruct (take_l1 T D S q1 Ho1 (λ x Hx, proj1 (Htwo x Hx))) as (q2 & q3 & q4 & h & l & Hrun2 & Hrun3 & Hlen & Hw32 & Hrun4 & Hst4 & Hroom4 & Hg4 & Hrc4 & Hnh & Hh0 & Hhf & Hho & Ho4 & Hsn & Hsb & Hre4 & Hrl4 & Hlow4);
    [lia|by rewrite Hl1, Hcs1|]. pose proof (st_cs _ _ _ _ _ Hst4) as Hcs4.
  set (e := mkSnapshotEntry (h * cluster_size q1) (Z.of_nat (length l)) sid name (wrap32 now.1) now.2 vm_clock (Z.min 0 (2 ^ 32 - 1)) (Some 0) (Some (q_size q4))).
  destruct (take_entries T D S q1 q4 es e h l Hs1 Hst4 Hnh) as (Hs4 & Hle & Hl4 & Hap); try done. set (T' := also T (guest_table q4)) in *. set (D' := also D (guest_data q4)) in *.
  set (S1 := also S (λ c, c = h)) in *.
  assert (entry_ok e) as Heok.
  { unfold e. rewrite <-Hcs4. apply new_entry_ok; try done; [by eapply owns_phys|by rewrite Hcs4|rewrite <-Hw32; unfold wrap32; apply Z.mod_pos_bound; lia|].
    apply (mo_fields _ _ (on_meta _ _ _ _ Ho4)). }
  destruct (retable T' D' S1 q4 es (es ++ [e]) (snaps_shelved _ _ _ _ _ Hs4)) as (q5 & S2 & Hrun5 & Hs5 & Hroom5 & Hsh5 & Hg5 & Hset5 & Hlow5 & Hsr5 & Hl5).
  { apply Forall_app. split; [apply Hs|]. by apply Forall_singleton. } { by destruct es. }
  { pose proof (table_entries (es ++ [e])) as Hte. rewrite bind_app, len_app in Hte. cbn [mbind list_bind] in Hte. rewrite app_nil_r, len_serialize in Hte.
    pose proof (phys_cs_max q (owns_phys _ _ _ _ Ho)). unfold padded_size in Hte. cbn [s_id s_name e] in Hte. lia. }
  { rewrite bind_app, len_app. cbn [mbind list_bind]. rewrite app_nil_r, len_serialize, Hcs4, Hcs1. exact K11. } { lia. }
  { intros e0 He0. split; [|intros Hne; by apply Hap]. apply elem_of_app in He0 as [He0|He0%list_elem_of_singleton]; [by apply (sn_l1 _ _ _ _ _ Hs4)|]. subst e0. by exists l. }
  destruct (owns_flush T' D' S2 q5 (sn_owns _ _ _ _ _ Hs5)) as (q6 & Hrun6 & Ho6 & Hst6 & Hsv6 & Hset6 & _).
  assert (∀ e0 l0, e0 ∈ es ++ [e] → listed T' S1 q4 e0 l0 → listed T' S2 q6 e0 l0 ∧ ∀ o, snap_byte q6 l0 o = snap_byte q4 l0 o) as Hl6.
  { intros e0 l0 He0 Hl0. destruct (Hl5 e0 l0 He0 Hl0) as [Hl0' Hb0]. destruct (listed_stays T' D' S2 q5 q6 e0 l0 (sn_owns _ _ _ _ _ Hs5) Hst6 Hl0') as [Hl0'' Hb0'].
    split; [done|]. intros o. by rewrite Hb0', Hb0. }
  destruct (Hl6 e l ltac:(apply elem_of_app; right; by left) Hle) as [Hle6 Hbe6]. exists q6, T', D', S2, e, l. split_and!; try done.
  - rewrite Hl1 in Hrun3. eapply (take_run T D S q q1 q2 q3 q4 q5 q6 es now name sid vm_clock l); try done.
  - by apply (snaps_stays T' D' S2 q5).
  - intros o Hoff. by rewrite Hbe6, Hsb, Hg1.
  - intros o Hoff. by rewrite (sv_guest _ _ _ Hsv6), Hg5, Hg4, Hg1.
  - pose proof (sv_room _ _ _ Hsv6). lia.
  - by rewrite (stays_alike _ _ _ _ _ Hst6), Hsh5, (stays_alike _ _ _ _ _ Hst4), (stays_alike _ _ _ _ _ Hst1).
  - intros x Hx. rewrite (sv_rc _ _ _ Hsv6) by done. specialize (Hlow5 x Hx). specialize (Hlow4 x Hx). specialize (Hrc1 x Hx).
    destruct (reach_cnt q (l1 q) x (owns_phys _ _ _ _ Ho) (guest_mapped _ q (on_ok _ _ _ _ Ho))) as (? & _). lia.
  - intros ls Hok Hac. assert (accounted T' D' q4 (ls ++ [l])) as Hac4.
    { apply (share_accounted T D S S1 q q1 q4 l ls); try done; [by eapply stays_trans| |intros x Hx; apply Htwo; by apply Hre4]. apply (snap_mapped T' D' S1 q4); [by eapply owns_phys|apply Ho4|done]. }
    assert (Forall (snap_ok T' q4) (ls ++ [l])) as Hok4.
    { apply Forall_app. split; [|by apply Forall_singleton]. eapply Forall_impl; [exact Hok|]. intros l0 Hl0. apply (snap_ok_mono T); [by left|]. eapply (snaps_ok_stays T D S q); [done|by eapply stays_trans|done]. }
    apply (accounted_keep T' D' S1 S2 q4); try done; [eapply same_refs_trans; [exact Hsr5|exact (stays_refs _ _ _ _ _ (sn_owns _ _ _ _ _ Hs5) Hst6)]|].
    intros x Hx. eapply settled_trans; [by apply Hset5|apply Hset6]. unfold any. tauto.
  - intros e0 l0 He0 [(c & Hc & Hsc & _) _ _ _]. cbn [s_l1_table_offset e]. rewrite Hc, Hcs1. intros Heq. pose proof (phys_cs q (owns_phys _ _ _ _ Ho)). apply Z.mul_reg_r in Heq; [|lia]. subst c.
    apply Hnh. by right; right.
  - intros e0 l0 He0 Hl0. destruct (listed_stays T D S q q1 e0 l0 Ho Hst1 Hl0) as [Hla Hba]. destruct (Hl4 e0 l0 He0 Hla) as [Hlb Hbb].
    destruct (Hl6 e0 l0 ltac:(apply elem_of_app; by left) Hlb) as [Hlc Hbc]. split; [done|]. intros o. by rewrite Hbc, Hbb, Hba.
Qed.
End take.
