(* ===== verification/Qcow2SnapDelete.v ===== *)
(** * qcow2 images: deleting a snapshot

    [snapshot_delete] drops the references of the snapshot's L1 table, frees
    that table and writes the snapshot table without the entry. Because every
    reference is counted, what the guest and the other snapshots reach keeps
    one. *)

From S2P Require Import Prelude TableCache Disk Qcow2 Qcow2Alloc Qcow2Read Qcow2Phys Qcow2Steps Qcow2Free Qcow2Write Qcow2Guest Qcow2Correct Qcow2Open Qcow2Durable Qcow2Header Qcow2Create Qcow2Snapshot Qcow2Walk Qcow2Copied Qcow2Owned Qcow2SnapTable Qcow2Snaps Qcow2Reach Qcow2Counted Qcow2SnapApply Qcow2SnapTake.

(** One element removed. *)
Lemma elem_of_delete {A} (xs : list A) i y : y ∈ delete i xs → y ∈ xs.
Proof. apply sublist_subseteq, sublist_delete. Qed.
Lemma NoDup_delete_ne {A C} (f : A → C) (xs : list A) i x y : NoDup (f <$> xs) → xs !! i = Some x → y ∈ delete i xs → f y ≠ f x.
Proof.
  intros Hnd Hi Hy Heq. rewrite <-(take_drop_middle xs i x Hi) in Hnd. rewrite fmap_app, fmap_cons in Hnd. rewrite delete_take_drop, elem_of_app in Hy.
  apply NoDup_app in Hnd as (_ & Hd & (Hnx & _)%NoDup_cons). destruct Hy as [Hy|Hy].
  - apply (Hd (f y)); [by apply list_elem_of_fmap_2|]. rewrite Heq. by left.
  - apply Hnx. rewrite <-Heq. by apply list_elem_of_fmap_2.
Qed.
Lemma NoDup_delete_fmap {A C} (f : A → C) (xs : list A) i : NoDup (f <$> xs) → NoDup (f <$> delete i xs).
Proof.
  intros Hnd. rewrite delete_take_drop, fmap_app. destruct (xs !! i) as [x|] eqn:Hi.
  - rewrite <-(take_drop_middle xs i x Hi) in Hnd. rewrite fmap_app, fmap_cons in Hnd. apply NoDup_app in Hnd as (H1 & H2 & [_ H3]%NoDup_cons).
    apply NoDup_app. split_and!; try done. intros y Hy Hy'. apply (H2 y Hy). by right.
  - apply lookup_ge_None in Hi. by rewrite (drop_ge xs (S i)), fmap_nil, app_nil_r, take_ge by lia.
Qed.

Section delete.
Context {B : Type} `{HB : DiskContents B} `{HI : InflateLaws}.
Implicit Types q : Qcow2Image B.

(** ** The snapshot table without the entry *)

Lemma retable_nil T D S q es :
  shelved T D S q es →
  ∃ q' S', rewrite_snapshot_table [] q = (q', DOk tt) ∧ snaps T D S' q' [] ∧ room q ≤ room q' ∧ alike q' q ∧
    (∀ o, 0 ≤ o → guest_byte q' o = guest_byte q o) ∧ (∀ x, T x ∨ D x → settled q q' x) ∧ low q q' ∧ same_refs T q q'.
Proof.
  intros Hs. pose proof Hs as (Ho & _ & Htab). set (q1 := with_table q 0 0).
  assert (owns T D S q1) as Ho1 by (apply owns_with_table; [done|done|done|]; apply Z.mod_0_l; pose proof (phys_cs q (owns_phys _ _ _ _ Ho)); lia).
  destruct (drop_table T D S S q q1 es Htab Ho1) as (q2 & S2 & Hrun2 & Ho12 & Ho2 & Hst2 & Hrt2 & Hg2 & Hset2 & Hlow2 & HS2); try done.
  exists q2, S2. split_and!; try done.
  - unfold rewrite_snapshot_table. rewrite (dbind_ok _ _ q q q) by done. unfold id. rewrite (dbind_ok _ _ q q (if decide (es = []) then None else Some 1)).
    2: { destruct Htab as [_ Ht]. case_decide as Hes; [by rewrite Ht|]. destruct Ht as (Hoff & _). rewrite (proj2 (Z.eqb_neq _ _)) by done. cbn [negb].
         by rewrite (dbind_ok _ _ _ _ _ (old_table_clusters T D S q es Hs Hes)). }
    change (len ([] ≫= serialize) =? 0) with true. cbv iota. by rewrite (dbind_ok _ _ q q1 tt).
  - constructor; [done|constructor| |by intros e ?%elem_of_nil]. apply (tabled_stays T D S2 q1); [done|]. done.
  - by rewrite (stays_alike _ _ _ _ _ Hst2).
  - apply (same_refs_trans T q q1); [apply with_table_refs|by apply (stays_refs T D S2)].
Qed.
Lemma retable_any T D S q es es' :
  shelved T D S q es → Forall entry_ok es' → len (es' ≫= serialize) ≤ cluster_size q → (es' ≠ [] → 1 ≤ room q) →
  (∀ e, e ∈ es' → (∃ l, listed T S q e l) ∧ (es ≠ [] → s_l1_table_offset e ≠ snapshots_offset q)) →
  ∃ q' S', rewrite_snapshot_table es' q = (q', DOk tt) ∧ snaps T D S' q' es' ∧ room q - 1 ≤ room q' ∧ alike q' q ∧
    (∀ o, 0 ≤ o → guest_byte q' o = guest_byte q o) ∧ (∀ x, T x ∨ D x → settled q q' x) ∧ low q q' ∧ same_refs T q q' ∧
    ∀ e l, e ∈ es' → listed T S q e l → listed T S' q' e l ∧ ∀ o, snap_byte q' l o = snap_byte q l o.
Proof.
  intros Hs Hf Hfit Hroom Hli. destruct (decide (es' = [])) as [->|Hne].
  - destruct (retable_nil T D S q es Hs) as (q' & S' & Hrun & Hs' & Hr & Hsh & Hg & Hset & Hlow & Hsr). exists q', S'. split_and!; try done; [lia|by intros e l ?%elem_of_nil].
  - apply (retable T D S q es); auto. pose proof (table_entries es'). pose proof (phys_cs_max q (owns_phys _ _ _ _ (proj1 Hs))). lia.
Qed.
(** ** What the other snapshots reach *)

Definition tables_in q (ls : list (list Z)) (x : Z) : Prop := ∃ l, l ∈ ls ∧ guest_table (set_l1 l q) x.
Definition data_in q (ls : list (list Z)) (x : Z) : Prop := ∃ l, l ∈ ls ∧ guest_data (set_l1 l q) x.

Lemma in_reach q ls x : tables_in q ls x ∨ data_in q ls x ↔ 1 ≤ total q ls x.
Proof.
  split.
  - intros [(l & Hl & Hx)|(l & Hl & Hx)]; apply (total_reach q ls l x Hl); [by left|by right].
  - intros (l & Hl & [Hx|Hx])%total_some; [left|right]; by exists l.
Qed.
Lemma in_owned T D S q ls : owns T D S q → Forall (snap_ok T q) ls → (∀ x, tables_in q ls x → T x) ∧ (∀ x, data_in q ls x → D x).
Proof.
  intros Ho Hls. rewrite Forall_forall in Hls. split.
  - intros x (l & Hl & (i & Hi & <-)). by apply (so_T _ _ _ (Hls l Hl)).
  - intros x (l & Hl & (i & j & Hj & Hd & <-)). by apply (snap_data T D S q l i j (owns_phys _ _ _ _ Ho) (on_owned _ _ _ _ Ho) (Hls l Hl)).
Qed.
(** They own that much, and the rest can go. *)
Lemma owns_reached T D S q ls : owns T D S q → Forall (snap_ok T q) ls → owns (tables_in q ls) (data_in q ls) S q.
Proof.
  intros Ho Hls. destruct (in_owned T D S q ls Ho Hls) as [HT HD]. pose proof (owns_phys _ _ _ _ Ho) as Hp. pose proof Ho as [Hw [A1 A2 A3 A4 A5 A6 A7] Hm Htop]. constructor; try done.
  - eapply write_ok_mono; [|exact Hw]. intros c [?|[?|?]]; unfold any; auto.
  - constructor; [intros c Ht Hd; apply (A1 c); auto|intros c Ht; apply A2; auto|intros c Hd; apply A3; auto|done|intros c Ht; apply A5; auto|intros c Hd; apply A6; auto|].
    intros c j (l & Hl & (i & Hi & <-)) Hj. change (cluster_size (set_l1 l q)) with (cluster_size q). destruct (so_T T q l) with (i := i) as [Hmod Ht]; [by eapply Forall_forall in Hls|done|].
    destruct (A7 _ j Ht Hj) as (Hc & Hz & He). split_and!; try done. intros Hh. destruct (He Hh) as (? & _ & ?). split_and!; try done.
    exists l. split; [done|]. exists i, j. rewrite (aligned_cluster q _ Hp Hmod) in Hh |- *. unfold dh, ge. rewrite (proj2 (Z.eqb_neq _ _)) by done. done.
  - eapply meta_ok_mono; [|exact Hm]. intros c Hc Hi _. right. right. by apply Htop.
Qed.
Lemma snap_ok_reached T q ls l : l ∈ ls → snap_ok T q l → snap_ok (tables_in q ls) q l.
Proof.
  intros Hl [S1 S2 S3 S4]. constructor; try done. intros i Hi. split; [by apply S2|]. exists l. split; [done|]. by exists i.
Qed.

(** ** Dropping its references *)

Section forget.
Context (T D S : Z → Prop) (q q1 : Qcow2Image B) (es : list SnapshotEntry) (ls : list (list Z)) (pos : nat) (l : list Z).
Context (Hk : kept T D S q es ls) (Hl : ls !! pos = Some l) (Hm : recounted (-1) (l ≫= refs q) (tables_of q l) q q1).
#[local] Abbreviation ls' := (delete pos ls).
#[local] Abbreviation T1 := (tables_in q ls').
#[local] Abbreviation D1 := (data_in q ls').

Lemma forget_ho : owns T D S q.
Proof. apply (sn_owns _ _ _ _ es), Hk. Qed.
Lemma forget_all : Forall (snap_ok T q) ls.
Proof. eapply listed_snap_ok, Hk. Qed.
Lemma forget_ok : snap_ok T q l.
Proof. eapply Forall_lookup_1; [exact forget_all|exact Hl]. Qed.
Lemma forget_rest : Forall (snap_ok T q) ls'.
Proof. apply Forall_delete, forget_all. Qed.
Lemma forget_owns0 : owns T1 D1 S q.
Proof. exact (owns_reached T D S q ls' forget_ho forget_rest). Qed.
Lemma forget_sub x : T1 x ∨ D1 x → T x ∨ D x.
Proof. destruct (in_owned T D S q ls' forget_ho forget_rest) as [HT HD]. intros [?|?]; auto. Qed.
Lemma forget_reach x : reach q l x → T x ∨ D x.
Proof. apply (snap_reach T D S q l x (owns_phys _ _ _ _ forget_ho) (on_owned _ _ _ _ forget_ho) forget_ok). Qed.
Lemma forget_rc x : T x ∨ D x → cnt (l1 q ≫= refs q) x + total q ls' x ≤ rc q1 x.
Proof.
  intros Hx. assert (0 ≤ x) as Hx0 by (apply (any_nonneg T D S q x forget_ho); unfold any; tauto). pose proof (kp_count _ _ _ _ _ _ Hk x Hx) as Hc.
  rewrite (total_delete q ls pos l x Hl) in Hc. rewrite (mv_rc _ _ _ _ _ Hm) by done. lia.
Qed.
Lemma forget_other x : 0 ≤ x → ¬ reach q l x → rc q1 x = rc q x.
Proof.
  intros Hx Hn. rewrite (mv_rc _ _ _ _ _ Hm) by done. rewrite <-reach_elem, cnt_elem in Hn. pose proof (cnt_nonneg (l ≫= refs q) x). assert (cnt (l ≫= refs q) x = 0) as -> by lia. lia.
Qed.
Lemma forget_single c : S c → ¬ reach q l c.
Proof.
  intros Hs Hr. pose proof (on_owned _ _ _ _ forget_ho) as Hoo. destruct (forget_reach c Hr) as [Ht|Hd]; [by apply (ow_TS _ _ _ _ Hoo c)|by apply (ow_DS _ _ _ _ Hoo c)].
Qed.
Lemma forget_guest x : guest_has q x → 1 ≤ rc q1 x ∧ (any T1 D1 S x → 2 ≤ rc q1 x).
Proof.
  intros Hg. pose proof forget_ho as Ho. pose proof (on_ok _ _ _ _ Ho) as Hw. pose proof (owns_phys _ _ _ _ Ho) as Hp. destruct (guest_cnt T D S q x Ho) as (_ & Hc & _). apply Hc in Hg as Hone.
  assert (reach q (l1 q) x) as Hr by (unfold reach; by rewrite set_l1_same). destruct (reach_good q (l1 q) x Hp (guest_countable _ q Hw) Hr) as [(_ & Hrx & _) Hx0].
  pose proof (phys_cs q Hp). rewrite Z.div_mul in Hrx by lia. pose proof (rc_bound q x Hp ltac:(lia)).
  assert (T1 x ∨ D1 x → 2 ≤ rc q1 x) as Htwo by (intros Hx; pose proof (forget_rc x (forget_sub x Hx)); apply in_reach in Hx; lia). split.
  - destruct (decide (x ∈ l ≫= refs q)) as [Hin|Hin]; [|rewrite reach_elem in Hin; rewrite forget_other by (done || lia); lia].
    apply reach_elem, forget_reach, forget_rc in Hin. pose proof (total_pos q ls' x). lia.
  - intros [?|[?|Hs]]; auto. pose proof (guest_reach_P _ q x Hw ltac:(by right; right) Hr). destruct (ow_S _ _ _ _ (on_owned _ _ _ _ Ho) x Hs). lia.
Qed.
Lemma forget_apart k c : tables_of q l k → D c ∨ S c → k ≠ c * cluster_size q.
Proof.
  intros (i & Hi & Hne) Hc ->. pose proof forget_ho as Ho. pose proof (on_owned _ _ _ _ Ho) as Hoo. pose proof (phys_cs q (owns_phys _ _ _ _ Ho)).
  destruct (so_T _ _ _ forget_ok i) as [_ Ht]; [by rewrite Hi|]. rewrite Hi, Z.div_mul in Ht by lia. destruct Hc as [Hd|Hs]; [by apply (ow_TD _ _ _ _ Hoo c)|by apply (ow_TS _ _ _ _ Hoo c)].
Qed.
Lemma forget_not_data k : tables_of q l k → ∀ i j, 0 ≤ j < l2_entries q → dh q i j ≠ 0 → dh q i j ≠ k.
Proof.
  intros (i' & <- & Hne) i j Hj Hd. destruct (so_T _ _ _ forget_ok i' Hne) as [Hmod Ht]. pose proof (ow_T _ _ _ _ (on_owned _ _ _ _ forget_ho) _ Ht i j Hj Hd) as Ho.
  by rewrite (aligned_cluster q _ (owns_phys _ _ _ _ forget_ho) Hmod) in Ho.
Qed.
Lemma forget_write_ok : write_ok (any T1 D1 S) q1.
Proof.
  pose proof (on_ok _ _ _ _ forget_owns0) as Hw. pose proof Hm as [M1 M2 M3 M4 M5 M6].
  destruct (frame_count (any T1 D1 S) nowhere (tables_of q l) q q1 Hw M1 M2) as [Hw' _]; try done.
  - exact forget_not_data.
  - intros b. rewrite M6. apply Hw.
  - intros o. unfold backing_byte. by rewrite M6.
  - intros x Hx Hu Hz. apply Hu. split_and!.
    + intros i Hi <-. destruct (forget_guest (l2h q i / cluster_size q)) as [? _]; [left; by exists i|lia].
    + intros i j Hj Hd <-. destruct (forget_guest (dh q i j / cluster_size q)) as [? _]; [right; by exists i, j|lia].
    + intros HP. assert (T1 x ∨ D1 x ∨ S x) as [Hx'|[Hx'|Hs]] by exact HP.
      1,2: assert (T1 x ∨ D1 x) as Hor by auto; pose proof (forget_rc x (forget_sub x Hor)); pose proof (cnt_nonneg (l1 q ≫= refs q) x); apply in_reach in Hor; lia.
      rewrite forget_other in Hz by (done || by apply forget_single). destruct (ow_S _ _ _ _ (on_owned _ _ _ _ forget_ho) x Hs). lia.
  - intros x HP Hg. by apply forget_guest.
Qed.
Lemma forget_stays : stays T1 D1 S q q1.
Proof.
  destruct (in_owned T D S q ls' forget_ho forget_rest) as [_ HD].
  apply (recount_stays (-1) (l ≫= refs q) (tables_of q l) T1 D1 S q q1 forget_owns0 Hm); [|intros k c Hkk Hc _; apply forget_apart; [done|destruct Hc; auto]|exact (guest_countable _ q (on_ok _ _ _ _ forget_ho))].
  intros c Hs. rewrite reach_elem. by apply forget_single.
Qed.
Lemma forget_owns : owns T1 D1 S q1.
Proof.
  pose proof (mv_keeps _ _ _ _ _ Hm) as Hkp. apply (owns_kept T1 D1 S q); [exact forget_owns0|exact forget_write_ok|exact forget_stays|exact (ke_meta _ _ _ _ Hkp)|exact (ke_rtlen _ _ _ _ Hkp)|].
  intros c. apply (recount_P (-1) _ _ T1 D1 S q q1 forget_owns0 Hm).
Qed.
Lemma forget_bytes o : 0 ≤ o → guest_byte q1 o = guest_byte q o.
Proof.
  apply (recount_guest (-1) _ _ T D S q q1 forget_ho Hm (guest_countable _ q (on_ok _ _ _ _ forget_ho)) o forget_not_data). intros x Hg. destruct (forget_guest x Hg). lia.
Qed.
Lemma forget_accounted : accounted T1 D1 q1 ls'.
Proof.
  intros x Hx. assert (Forall (snap_ok T1 q) ls') as Hls by (apply Forall_forall; intros l0 Hl0; apply (snap_ok_reached T); [done|]; pose proof forget_rest as Hr; rewrite Forall_forall in Hr; auto).
  rewrite (total_same T1 q q1 ls' x (stays_refs T1 D1 S q q1 forget_owns0 forget_stays) Hls). rewrite (mv_l1 _ _ _ _ _ Hm).
  rewrite (moved_refs _ _ _ _ _ _ (owns_phys _ _ _ _ forget_ho) Hm (guest_countable _ q (on_ok _ _ _ _ forget_ho))). apply forget_rc. by apply forget_sub.
Qed.
End forget.
(** Its L1 table is one cluster. *)
Lemma l1_cluster q n : 0 ≤ n → 8 * n ≤ cluster_size q → 0 < cluster_size q → l1_bytes_clusters q n = 1.
Proof.
  intros Hn Hle Hcs. unfold l1_bytes_clusters, div_ceil. assert ((n * 8 + cluster_size q - 1) / cluster_size q ≤ 1); [|lia]. apply Z.lt_succ_r, Z.div_lt_upper_bound; lia.
Qed.
Lemma len_delete_table es pos : len (delete pos es ≫= serialize) ≤ len (es ≫= serialize).
Proof.
  revert pos. induction es as [|e es IH]; intros [|pos]; [done|done|..]; cbn [mbind list_bind]; rewrite ?len_app; pose proof (len_nonneg (serialize e)).
  - change (delete 0%nat (e :: es)) with es. lia.
  - change (delete (S pos) (e :: es)) with (e :: delete pos es). cbn [mbind list_bind]. rewrite len_app. specialize (IH pos). lia.
Qed.

(** ** The whole *)

(** References dropped and the L1 table freed. *)
Lemma delete_walk T D S q es ls pos e l :
  kept T D S q es ls → es !! pos = Some e → ls !! pos = Some l →
  let ls' := delete pos ls in let T1 := tables_in q ls' in let D1 := data_in q ls' in
  ∃ q1 q2 S1, walk_refcounts l (-1) q = (q1, DOk tt) ∧ free_region (s_l1_table_offset e) (l1_bytes_clusters q1 (s_l1_size e)) q1 = (q2, DOk tt) ∧
    shelved T1 D1 S1 q2 es ∧ room q ≤ room q2 ∧ alike q2 q ∧ (∀ o, 0 ≤ o → guest_byte q2 o = guest_byte q o) ∧ accounted T1 D1 q2 ls' ∧ low q q2 ∧
    snapshots_offset q2 = snapshots_offset q ∧
    ∀ e0 l0, e0 ∈ delete pos es → l0 ∈ ls' → listed T S q e0 l0 → listed T1 S1 q2 e0 l0 ∧ ∀ o, snap_byte q2 l0 o = snap_byte q l0 o.
Proof.
  intros Hk Hpos Hl ls' T1 D1. pose proof (sn_owns _ _ _ _ _ (kp_snaps _ _ _ _ _ _ Hk)) as Ho. pose proof (owns_phys _ _ _ _ Ho) as Hp. pose proof (phys_cs q Hp) as Hcs.
  assert (listed T S q e l) as Hli by (eapply Forall2_lookup_lr; [exact (kp_listed _ _ _ _ _ _ Hk)|done|done]). pose proof Hli as [(c & Hc & Hsc & Hnm & Hfit & _) [Hsz _] _ Hs].
  destruct (walk_down q l (wo_alloc _ _ (on_ok _ _ _ _ Ho)) (snap_mapped T D S q l Hp (on_owned _ _ _ _ Ho) Hs) (snap_countable T D S q l Ho Hs)) as (q1 & Hrun1 & Hm).
  pose proof (forget_owns T D S q q1 es ls pos l Hk Hl Hm) as Ho1. pose proof (forget_stays T D S q q1 es ls pos l Hk Hl Hm) as Hst1.
  pose proof (forget_owns0 T D S q es ls pos Hk) as Ho0. pose proof (st_cs _ _ _ _ _ Hst1) as Hcs1. fold ls' T1 D1 in Ho1, Hst1, Ho0.
  assert (¬ is_meta q1 c) as Hnm1 by (by rewrite (st_meta _ _ _ _ _ Hst1)).
  destruct (free_table T1 D1 S q1 c Ho1 Hsc Hnm1) as (q2 & Hrun2 & Ho2 & Hst2 & Hrt2 & Hg2 & Hset2 & Hlow2). pose proof (owns_without T1 D1 S q1 c Ho1 Hnm1) as Ho1'.
  exists q1, q2, (without S c). pose proof (st_snaps _ _ _ _ _ Hst1) as (Hn1 & Hoff1 & _). pose proof (st_snaps _ _ _ _ _ Hst2) as (Hn2 & Hoff2 & _).
  assert (∀ l0, l0 ∈ ls' → snap_ok T1 q l0) as Hok.
  { intros l0 Hl0. apply (snap_ok_reached T); [done|]. pose proof (forget_rest T D S q es ls pos Hk) as Hr. rewrite Forall_forall in Hr. auto. }
  assert (Forall (snap_ok T1 q1) ls') as Hok1 by (apply Forall_forall; intros l0 Hl0; by eapply (snaps_ok_stays T1 D1 S q); [| |apply Hok]).
  split_and!.
  - done.
  - rewrite <-Hrun2, Hc, Hcs1. f_equal. rewrite len_table_bytes in Hfit. apply l1_cluster; lia.
  - split_and!; [done|apply (sn_fields _ _ _ _ _ (kp_snaps _ _ _ _ _ _ Hk))|]. apply (tabled_stays T1 D1 (without S c) q1); [done|].
    pose proof (tabled_stays T1 D1 S q q1 es Hst1 (sn_table _ _ _ _ _ (kp_snaps _ _ _ _ _ _ Hk))) as [Hn Ht]. split; [done|]. case_decide; [done|]. destruct Ht as (? & Hh & Hap).
    split_and!; try done. eapply holds_mono; [|exact Hh]. intros c' Hs' Heq. split; [done|]. intros ->. rewrite Forall_forall in Hap.
    apply (Hap e); [by eapply list_elem_of_lookup_2|]. by rewrite Heq, Hcs1.
  - pose proof (mv_room _ _ _ _ _ Hm). lia.
  - by rewrite (stays_alike _ _ _ _ _ Hst2), (stays_alike _ _ _ _ _ Hst1).
  - intros o Hoo. rewrite Hg2 by done. by apply (forget_bytes T D S q q1 es ls pos l).
  - apply (accounted_keep T1 D1 S (without S c) q1); try done; [by apply (stays_refs T1 D1 (without S c))|]. by apply (forget_accounted T D S q q1 es ls pos l).
  - eapply low_trans; [|exact Hlow2]. intros x Hx. rewrite (mv_rc _ _ _ _ _ Hm) by done. pose proof (cnt_nonneg (l ≫= refs q) x). lia.
  - congruence.
  - intros e0 l0 He0 Hl0 [Hh0 Hlen0 Hd0 Hs0]. assert (listed T1 S q e0 l0) as Hli0 by (constructor; auto).
    destruct (listed_stays T1 D1 S q q1 e0 l0 Ho0 Hst1 Hli0) as [Hli1 Hb1].
    assert (listed T1 (without S c) q1 e0 l0) as Hli1'.
    { eapply listed_mono; [done| |exact Hli1]. intros c' Hs' Heq. split; [done|]. intros ->. apply (NoDup_delete_ne s_l1_table_offset es pos e e0 (kp_apart _ _ _ _ _ _ Hk) Hpos He0). congruence. }
    destruct (listed_stays T1 D1 (without S c) q1 q2 e0 l0 Ho1' Hst2 Hli1') as [Hli2 Hb2]. split; [done|]. intros o. by rewrite Hb2, Hb1.
Qed.

Lemma delete_spec T D S q es ls name pos e :
  kept T D S q es ls → list_find (λ e, entry_named name e = true) es = Some (pos, e) → (delete pos es ≠ [] → 1 ≤ room q) →
  ∃ q' T' D' S', snapshot_delete name q = (q', DOk tt) ∧ kept T' D' S' q' (delete pos es) (delete pos ls) ∧ alike q' q ∧ room q - 1 ≤ room q' ∧ low q q' ∧
    (∀ o, 0 ≤ o → guest_byte q' o = guest_byte q o) ∧ ∀ l0, l0 ∈ delete pos ls → ∀ o, snap_byte q' l0 o = snap_byte q l0 o.
Proof.
  intros Hk Hfind Hroom. pose proof (kp_snaps _ _ _ _ _ _ Hk) as Hsn. pose proof (sn_owns _ _ _ _ _ Hsn) as Ho. pose proof Hfind as (Hpos & _)%list_find_Some.
  destruct (Forall2_lookup_l _ _ _ _ _ (kp_listed _ _ _ _ _ _ Hk) Hpos) as (l & Hl & Hli). pose proof (sn_table _ _ _ _ _ Hsn) as [_ Htab].
  assert (es ≠ []) as Hne by (by intros ->). rewrite decide_False in Htab by done. destruct Htab as (_ & (_ & _ & _ & _ & Hfit & _) & Hap).
  assert (Forall2 (listed T S q) (delete pos es) (delete pos ls)) as Hrest by apply Forall2_delete, Hk.
  destruct (delete_walk T D S q es ls pos e l Hk Hpos Hl) as (q1 & q2 & S1 & Hrun1 & Hrun2 & Hsh2 & Hroom2 & Hshape2 & Hg2 & Hac2 & Hlow2 & Hoff2 & Hl2).
  set (es' := delete pos es) in *. set (ls' := delete pos ls) in *. set (T1 := tables_in q ls') in *. set (D1 := data_in q ls') in *.
  assert (Forall2 (λ e0 l0, listed T1 S1 q2 e0 l0 ∧ ∀ o, snap_byte q2 l0 o = snap_byte q l0 o) es' ls') as Hall2.
  { apply Forall2_same_length_lookup_2; [by eapply Forall2_length|]. intros i e0 l0 He0 Hl0. apply Hl2; [by eapply list_elem_of_lookup_2|by eapply list_elem_of_lookup_2|].
    by eapply Forall2_lookup_lr. }
  pose proof (ak_cs _ _ Hshape2) as Hcs2.
  destruct (retable_any T1 D1 S1 q2 es es' Hsh2) as (q3 & S3 & Hrun3 & Hs3 & Hroom3 & Hshape3 & Hg3 & Hset3 & Hlow3 & Hsr3 & Hl3).
  { apply Forall_delete, Hsn. } { rewrite Hcs2. pose proof (len_delete_table es pos). unfold es'. lia. } { intros Hne'. specialize (Hroom Hne'). lia. }
  { intros e0 He0. split; [|intros _; rewrite Hoff2; rewrite Forall_forall in Hap; by eapply Hap, elem_of_delete].
    apply list_elem_of_lookup in He0 as [i Hi]. destruct (Forall2_lookup_l _ _ _ _ _ Hall2 Hi) as (l0 & _ & [? _]). by exists l0. }
  pose proof (sn_owns _ _ _ _ _ Hs3) as Ho3. destruct (owns_copied T1 D1 S3 q3 Ho3) as (q4 & Hrun4 & Hr4 & Ho4 & Hst4 & Hset4 & Hg4).
  destruct (owns_flush T1 D1 S3 q4 Ho4) as (q5 & Hrun5 & Ho5 & Hst5 & Hsv5 & Hset5 & _). pose proof (stays_trans _ _ _ _ _ _ Hst4 Hst5) as Hst35.
  assert (Forall2 (λ e0 l0, listed T1 S3 q3 e0 l0 ∧ ∀ o, snap_byte q3 l0 o = snap_byte q l0 o) es' ls') as Hall3.
  { apply Forall2_same_length_lookup_2; [by eapply Forall2_length|]. intros i e0 l0 He0 Hl0. destruct (Forall2_lookup_lr _ _ _ _ _ _ Hall2 He0 Hl0) as [Hla Hba].
    destruct (Hl3 e0 l0 ltac:(by eapply list_elem_of_lookup_2) Hla) as [Hlb Hbb]. split; [done|]. intros o. by rewrite Hbb, Hba. }
  assert (kept T1 D1 S3 q3 es' ls') as Hk3.
  { constructor; [done|eapply Forall2_impl; [exact Hall3|]; by intros ? ? []|apply NoDup_delete_fmap, Hk|]. apply (accounted_keep T1 D1 S1 S3 q2); try done; [apply Hsh2|].
    eapply (listed_snap_ok T1 S1 q2 es'), Forall2_impl; [exact Hall2|]. by intros ? ? []. }
  exists q5, T1, D1, S3. split_and!.
  - unfold snapshot_delete. rewrite (dbind_ok _ _ _ _ _ (owns_writable _ _ _ _ Ho)), (dbind_ok _ _ _ _ _ (parse_table_spec _ _ _ _ _ Hsn)), Hfind.
    rewrite (dbind_ok _ _ _ _ _ (read_l1_spec T D S q e l Ho Hli)), (dbind_ok _ _ _ _ _ Hrun1), (dbind_ok _ _ q1 q1 q1) by done. unfold id.
    by rewrite (dbind_ok _ _ _ _ _ Hrun2), (dbind_ok _ _ _ _ _ Hrun3), (dbind_ok _ _ _ _ _ Hrun4).
  - apply (kept_stays T1 D1 S3 q3); try done. intros x Hx. assert (any T1 D1 S3 x) by (unfold any; tauto). eapply settled_trans; auto.
  - by rewrite (stays_alike _ _ _ _ _ Hst35), Hshape3.
  - pose proof (sv_room _ _ _ Hsv5). pose proof (rp_room _ _ _ _ Hr4). lia.
  - eapply low_trans; [exact Hlow2|]. eapply low_trans; [exact Hlow3|]. apply low_same. intros x Hx. by rewrite (sv_rc _ _ _ Hsv5), (rp_rc _ _ _ _ Hr4).
  - intros o Hoo. by rewrite (sv_guest _ _ _ Hsv5), Hg4, Hg3, Hg2.
  - intros l0 (i & Hi)%list_elem_of_lookup o. destruct (Forall2_lookup_r _ _ _ _ _ Hall3 Hi) as (e0 & _ & [Hl0 Hb0]).
    by rewrite (proj2 (listed_stays T1 D1 S3 q3 q5 e0 l0 Ho3 Hst35 Hl0)), Hb0.
Qed.
End delete.
