(* ===== verification/Qcow2History.v ===== *)
(** * qcow2 images: a disk with named versions

    What a guest and a user see of a qcow2 image is a disk and a list of named
    versions of it. [vstep] says what reading, writing, discarding, flushing,
    reopening, and listing, taking, applying and deleting snapshots do to it,
    errors included; the image implements that for every sequence of operations. *)

From S2P Require Import Prelude TableCache Disk Qcow2 Qcow2Alloc Qcow2Read Qcow2Phys Qcow2Steps Qcow2Free Qcow2Write Qcow2Guest Qcow2Correct Qcow2Reads Qcow2Discard Qcow2Open Qcow2Durable Qcow2Header Qcow2Create Qcow2Snapshot Qcow2Walk Qcow2Copied Qcow2Owned Qcow2SnapTable Qcow2Snaps Qcow2Reach Qcow2Counted Qcow2SnapApply Qcow2SnapTake Qcow2SnapDelete.

(** ** The specification *)

(** [v_base] is what the backing image shows, [v_cluster] the unit of
    discarding. *)
Record vdisk := mkVdisk { v_size : Z; v_cluster : Z; v_base : Z → Z; v_byte : Z → Z; v_snaps : list (SnapshotInfo * (Z → Z)) }.
Definition v_set (byte : Z → Z) (snps : list (SnapshotInfo * (Z → Z))) (v : vdisk) : vdisk := mkVdisk (v_size v) (v_cluster v) (v_base v) byte snps.
Inductive vop :=
| VRead (off n : Z)
| VWrite (off : Z) (b : bytes)
| VDiscard (off n : Z)
| VFlush
| VReopen
| VList
| VTake (now : Z * Z) (name : bytes) (vm_clock : Z)
| VApply (name : bytes)
| VDelete (name : bytes).
Inductive vout := ONone | OBytes (b : bytes) | OInfo (i : SnapshotInfo) | OInfos (infos : list SnapshotInfo).

(** A snapshot goes by its name or its id; the first one counts. *)
Definition v_find (name : bytes) (v : vdisk) : option (nat * (SnapshotInfo * (Z → Z))) :=
  list_find (λ p, i_name p.1 = name ∨ i_id p.1 = name) (v_snaps v).
(** Ids are numbers, and a new one is larger than all of them. *)
Definition v_next_id (v : vdisk) : Z := 1 + foldr Z.max 0 (omap (parse_u64 ∘ i_id ∘ fst) (v_snaps v)).
Definition v_taken (name : bytes) (v : vdisk) : bool := existsb (λ p, bool_decide (i_name p.1 = name)) (v_snaps v).

(** The cluster of [o] lies wholly in the range. *)
Definition in_whole (cs off n o : Z) : bool := let c := o / cs * cs in (off <=? c) && (c + cs <=? off + n).

Definition vstep (op : vop) (v : vdisk) : vdisk * dres vout :=
  match op with
  | VRead off n => (v, if v_size v <? off + n then DErr Unsupported else DOk (OBytes (content_at (v_byte v) off n)))
  | VWrite off b =>
      if v_size v <? off + len b then (v, DErr Unsupported)
      else (v_set (λ o, if (off <=? o) && (o <? off + len b) then idx b (o - off) else v_byte v o) (v_snaps v) v, DOk ONone)
  | VDiscard off n =>
      if v_size v <? off + n then (v, DErr Unsupported)
      else (v_set (λ o, if in_whole (v_cluster v) off n o then v_base v o else v_byte v o) (v_snaps v) v, DOk ONone)
  | VFlush | VReopen => (v, DOk ONone)
  | VList => (v, DOk (OInfos (fst <$> v_snaps v)))
  | VTake now name vm_clock =>
      if (len name =? 0) || (1023 <? len name) || v_taken name v then (v, DErr Unsupported)
      else if U64_MAX <? v_next_id v then (v, DPanic)
      else
        let i := mkSnapshotInfo (u64_to_string (v_next_id v)) name 0 (wrap32 now.1) now.2 vm_clock in
        (v_set (v_byte v) (v_snaps v ++ [(i, v_byte v)]) v, DOk ONone)
  | VApply name =>
      match v_find name v with
      | None => (v, DErr SnapshotNotFound)
      | Some (_, (i, d)) => (v_set d (v_snaps v) v, DOk (OInfo i))
      end
  | VDelete name =>
      match v_find name v with
      | None => (v, DErr SnapshotNotFound)
      | Some (pos, _) => (v_set (v_byte v) (delete pos (v_snaps v)) v, DOk ONone)
      end
  end.
Fixpoint vrun (ops : list vop) (v : vdisk) : vdisk * list (dres vout) :=
  match ops with
  | [] => (v, [])
  | op :: ops => let '(v, r) := vstep op v in let '(v, rs) := vrun ops v in (v, r :: rs)
  end.

(** Lists that match find the same element. *)
Lemma list_find_Forall2 {A C} (R : A → C → Prop) (P : A → Prop) (Q : C → Prop) `{∀ x, Decision (P x)} `{∀ y, Decision (Q y)} xs ys :
  (∀ x y, R x y → P x ↔ Q y) → Forall2 R xs ys →
  match list_find Q ys with Some (i, y) => ∃ x, list_find P xs = Some (i, x) ∧ xs !! i = Some x ∧ ys !! i = Some y ∧ R x y | None => list_find P xs = None end.
Proof.
  intros HR. induction 1 as [|x y xs ys Hxy Hxys IH]; [done|]. cbn [list_find]. destruct (decide (Q y)) as [Hy|Hy].
  - exists x. by rewrite decide_True by (by apply (HR x y)).
  - rewrite (decide_False (P := P x)) by (by rewrite (HR x y)). destruct (list_find Q ys) as [[i y']|]; cbn.
    + destruct IH as (x' & -> & ? & ? & ?). by exists x'.
    + by rewrite IH.
Qed.

Section history.
Context {B : Type} `{HB : DiskContents B} `{HI : InflateLaws}.
Implicit Types q : Qcow2Image B.

(** ** The image's operations *)

(** Flushed, closed, and opened from the file again over the same backing
    image. *)
Definition reopen : dstate (Qcow2Image B) unit := λ q,
  match qcow2_flush q with
  | (q1, DOk _) => match parse (q_file q1) false with
                   | DOk q2 => (set_backing_image (backing_image q1) q2, DOk tt)
                   | DErr e => (q1, DErr e)
                   | DPanic => (q1, DPanic)
                   | DFuel => (q1, DFuel)
                   end
  | r => r
  end.
Definition run_op (op : vop) : dstate (Qcow2Image B) vout :=
  match op with
  | VRead off n => b ← qcow2_read_at off n; mret (OBytes b)
  | VWrite off b => _ ← qcow2_write_at off b; mret ONone
  | VDiscard off n => _ ← qcow2_discard off n; mret ONone
  | VFlush => _ ← qcow2_flush; mret ONone
  | VReopen => _ ← reopen; mret ONone
  | VList => infos ← list_snapshots; mret (OInfos infos)
  | VTake now name vm_clock => _ ← snapshot_create now name 0 vm_clock; mret ONone
  | VApply name => i ← snapshot_apply name; mret (OInfo i)
  | VDelete name => _ ← snapshot_delete name; mret ONone
  end.
Fixpoint run_all (ops : list vop) (q : Qcow2Image B) : Qcow2Image B * list (dres vout) :=
  match ops with
  | [] => (q, [])
  | op :: ops => let '(q, r) := run_op op q in let '(q, rs) := run_all ops q in (q, r :: rs)
  end.

(** ** The image as such a disk *)

Definition matches q (x : SnapshotEntry * list Z) (y : SnapshotInfo * (Z → Z)) : Prop :=
  snapshot_info x.1 = y.1 ∧ ∀ o, 0 ≤ o → snap_byte q x.2 o = y.2 o.
Record versions (T D S : Z → Prop) q (xs : list (SnapshotEntry * list Z)) (v : vdisk) : Prop := mkVersions {
  vs_kept : kept T D S q xs.*1 xs.*2;
  vs_covers : l1_covers q;
  vs_size : q_size q = v_size v;
  vs_cluster : cluster_size q = v_cluster v;
  vs_base o : 0 ≤ o → backing_byte q o = v_base v o;
  vs_guest o : 0 ≤ o → guest_byte q o = v_byte v o;
  vs_snaps : Forall2 (matches q) xs (v_snaps v) }.

Lemma kept_listed T D S q xs x : kept T D S q xs.*1 xs.*2 → x ∈ xs → listed T S q x.1 x.2.
Proof.
  intros Hk (i & Hi)%list_elem_of_lookup. eapply Forall2_lookup_lr; [exact (kp_listed _ _ _ _ _ _ Hk)| |]; by rewrite list_lookup_fmap, Hi.
Qed.
Lemma kept_owns T D S q es ls : kept T D S q es ls → owns T D S q.
Proof. intros Hk. apply (sn_owns _ _ _ _ es), Hk. Qed.
Lemma alike_covers q q' : alike q' q → l1_covers q → l1_covers q'.
Proof. intros [E1 E2 E3 _ _]. unfold l1_covers, l2_span, l2_entries. by rewrite E1, E2, E3. Qed.
Lemma matches_same q q' xs vs :
  (∀ x, x ∈ xs → ∀ o, snap_byte q' x.2 o = snap_byte q x.2 o) → Forall2 (matches q) xs vs → Forall2 (matches q') xs vs.
Proof.
  intros Hb Hm. apply Forall2_same_length_lookup_2; [by eapply Forall2_length|]. intros i x y Hx Hy. destruct (Forall2_lookup_lr _ _ _ _ _ _ Hm Hx Hy) as [Hi Hd].
  split; [done|]. intros o Ho. rewrite Hb by (by eapply list_elem_of_lookup_2). by apply Hd.
Qed.
(** Steps that leave the snapshots alone. *)
Lemma versions_stays T D S q q' xs v byte :
  versions T D S q xs v → kept T D S q' xs.*1 xs.*2 → stays T D S q q' → (∀ o, 0 ≤ o → guest_byte q' o = byte o) → versions T D S q' xs (v_set byte (v_snaps v) v).
Proof.
  intros [V1 V2 V3 V4 V5 V6 V7] Hk Hst Hg. constructor; try done.
  - by apply (alike_covers q); [eapply stays_alike|].
  - by rewrite (st_size _ _ _ _ _ Hst).
  - by rewrite (st_cs _ _ _ _ _ Hst).
  - intros o Ho. rewrite (st_backing _ _ _ _ _ Hst). by apply V5.
  - apply (matches_same q); [|done]. intros x Hx. exact (proj2 (listed_stays T D S q q' x.1 x.2 (kept_owns _ _ _ _ _ _ V1) Hst (kept_listed _ _ _ _ _ _ V1 Hx))).
Qed.
Lemma kept_wrote T D S lo part q q' es ls :
  kept T D S q es ls → write_ok (any T D S) q' → wrote (any T D S) lo part q q' → kept T D S q' es ls ∧ stays T D S q q'.
Proof.
  intros Hk Hw' Hwr. destruct (owns_wrote T D S lo part q q' (kept_owns _ _ _ _ _ _ Hk) Hw' Hwr) as [Ho' Hst]. split; [|done].
  apply (kept_stays T D S q); try done. intros x Hx. apply (wrote_settled _ _ _ _ _ _ Hwr). unfold any. tauto.
Qed.
(** Steps that serve the guest and change none of its bytes. *)
Lemma versions_same_guest T D S q q' xs v :
  versions T D S q xs v → write_ok (any T D S) q' → same_guest (any T D S) q q' → versions T D S q' xs v ∧ alike q' q ∧ low q q'.
Proof.
  intros Hv Hw' Hs. pose proof (vs_kept _ _ _ _ _ _ Hv) as Hk. pose proof (same_guest_wrote _ q q' 0 (on_ok _ _ _ _ (kept_owns _ _ _ _ _ _ Hk)) Hw' Hs) as Hwr.
  destruct (kept_wrote T D S 0 [] q q' _ _ Hk Hw' Hwr) as [Hk' Hst]. split_and!; [|by eapply stays_alike|by eapply wrote_low].
  destruct v as [sz cl base byte snps]. apply (versions_stays T D S q q' xs (mkVdisk sz cl base byte snps) byte Hv Hk' Hst). intros o Ho. rewrite (wr_guest _ _ _ _ _ Hwr), wrote_nothing by done. exact (vs_guest _ _ _ _ _ _ Hv o Ho).
Qed.

(** ** What a sequence of operations needs *)

Definition op_ok (op : vop) : Prop :=
  match op with
  | VRead off n | VDiscard off n => 0 ≤ off ∧ 0 ≤ n
  | VWrite off b => 0 ≤ off ∧ bytes_ok b
  | VTake now name vm_clock => text_ok name ∧ is_u32 now.2 ∧ is_u64 vm_clock
  | _ => True
  end.
(** Clusters of the refcount table's room, references, bytes of the snapshot
    table: ids have at most twenty digits. *)
Definition needs q (op : vop) : Z :=
  match op with VWrite off b => 2 * touched q off (len b) | VDiscard off n => whole_count (cluster_size q) off n | VTake _ _ _ => 2 | VDelete _ => 1 | _ => 0 end.
Definition raises (op : vop) : Z := match op with VTake _ _ _ | VApply _ => 1 | _ => 0 end.
Definition adds (op : vop) : Z := match op with VTake _ name _ => div_ceil (40 + 24 + 20 + len name) 8 * 8 | _ => 0 end.
Definition sum_of (f : vop → Z) (ops : list vop) : Z := foldr Z.add 0 (f <$> ops).

Record budget q (xs : list (SnapshotEntry * list Z)) (ops : list vop) : Prop := mkBudget {
  bd_room : sum_of (needs q) ops ≤ room q;
  bd_count x : 0 ≤ x → Z.max 1 (rc q x) + sum_of raises ops < 2 ^ refcount_bits q;
  bd_width : refcount_bits q < 64;
  bd_l1 : 8 * Z.of_nat (length (l1 q)) ≤ cluster_size q;
  bd_table : len (xs.*1 ≫= serialize) + sum_of adds ops ≤ cluster_size q }.

Lemma sum_of_cons f op ops : sum_of f (op :: ops) = f op + sum_of f ops.
Proof. done. Qed.
Lemma sum_of_nonneg f ops : (∀ op, 0 ≤ f op) → 0 ≤ sum_of f ops.
Proof. intros Hf. induction ops as [|op ops IH]; [done|]. rewrite sum_of_cons. specialize (Hf op). lia. Qed.
Lemma touched_nonneg q off n : 0 < cluster_size q → 0 ≤ n → 0 ≤ touched q off n.
Proof.
  intros Hcs Hn. unfold touched. case_match; [done|]. bsplit. pose proof (Z.div_le_mono off (off + n - 1) (cluster_size q) Hcs ltac:(lia)). lia.
Qed.
Lemma needs_nonneg q op : 0 < cluster_size q → 0 ≤ needs q op.
Proof. intros Hcs. destruct op; cbn; try lia; [|unfold whole_count; lia]. pose proof (touched_nonneg q off (len b) Hcs (len_nonneg b)). lia. Qed.
Lemma raises_nonneg op : 0 ≤ raises op.
Proof. by destruct op. Qed.
Lemma adds_nonneg op : 0 ≤ adds op.
Proof. destruct op; cbn [adds]; try lia. pose proof (len_nonneg name). unfold div_ceil. pose proof (Z.div_pos (40 + 24 + 20 + len name + 8 - 1) 8). lia. Qed.
Lemma budget_step q q' xs xs' op ops :
  budget q xs (op :: ops) → alike q' q → room q - needs q op ≤ room q' → (∀ x, 0 ≤ x → rc q' x ≤ Z.max 1 (rc q x) + raises op) →
  len (xs'.*1 ≫= serialize) ≤ len (xs.*1 ≫= serialize) + adds op → budget q' xs' ops.
Proof.
  intros [B1 B2 B3 B4 B5] [E1 E2 E3 E4 _] Hr Hrc Hl. rewrite !sum_of_cons in *. assert (∀ op, needs q' op = needs q op) as Hn by (intros [| | | | | | | |]; cbn; unfold touched; by rewrite ?E1).
  constructor; rewrite ?E1, ?E3, ?E4; try done.
  - assert (sum_of (needs q') ops = sum_of (needs q) ops) as ->; [|lia]. unfold sum_of. f_equal. by apply list_fmap_ext.
  - intros x Hx. specialize (Hrc x Hx). specialize (B2 x Hx). pose proof (raises_nonneg op). lia.
  - lia.
Qed.

(** ** The operations *)

(** One operation, with [ops] to follow. *)
Definition serves q v op ops : Prop :=
  ∃ q' T' D' S' xs', run_op op q = (q', (vstep op v).2) ∧ versions T' D' S' q' xs' (vstep op v).1 ∧ budget q' xs' ops.

Section operations.
Context (T D S : Z → Prop) (q : Qcow2Image B) (xs : list (SnapshotEntry * list Z)) (v : vdisk) (ops : list vop) (Hv : versions T D S q xs v).

Lemma vs_owns : owns T D S q.
Proof. exact (kept_owns _ _ _ _ _ _ (vs_kept _ _ _ _ _ _ Hv)). Qed.
Lemma vs_ok : write_ok (any T D S) q.
Proof. exact (on_ok _ _ _ _ vs_owns). Qed.
Lemma vs_cs : 0 < cluster_size q.
Proof. pose proof (phys_cs q (owns_phys _ _ _ _ vs_owns)). lia. Qed.
Lemma vs_entries : snaps T D S q xs.*1.
Proof. exact (kp_snaps _ _ _ _ _ _ (vs_kept _ _ _ _ _ _ Hv)). Qed.

(** Refused: nothing changes. *)
Lemma serves_refused op : budget q xs (op :: ops) → vstep op v = (v, (vstep op v).2) → run_op op q = (q, (vstep op v).2) → serves q v op ops.
Proof.
  intros Hb Hst Hrun. exists q, T, D, S, xs. rewrite Hst. cbn [fst snd]. split_and!; [done|done|]. apply (budget_step q q xs xs op); try done.
  - pose proof (needs_nonneg q op vs_cs). lia.
  - intros x Hx. pose proof (raises_nonneg op). lia.
  - pose proof (adds_nonneg op). lia.
Qed.
(** Served without a change to what the guest sees. *)
Lemma serves_quiet op q' r :
  budget q xs (op :: ops) → vstep op v = (v, r) → run_op op q = (q', r) → write_ok (any T D S) q' → same_guest (any T D S) q q' → room q ≤ room q' → serves q v op ops.
Proof.
  intros Hb Hst Hrun Hw' Hs Hr. destruct (versions_same_guest T D S q q' xs v Hv Hw' Hs) as (Hv' & Hsh & Hlow). exists q', T, D, S, xs. rewrite Hst. cbn [fst snd].
  split_and!; [done|done|]. apply (budget_step q q' xs xs op); try done.
  - pose proof (needs_nonneg q op vs_cs). lia.
  - intros x Hx. specialize (Hlow x Hx). pose proof (raises_nonneg op). lia.
  - pose proof (adds_nonneg op). lia.
Qed.

Lemma serves_read off n : 0 ≤ off ∧ 0 ≤ n → budget q xs (VRead off n :: ops) → serves q v (VRead off n) ops.
Proof.
  intros [Ho Hn] Hb. pose proof (vs_size _ _ _ _ _ _ Hv) as Hsz. destruct (Z.ltb_spec (v_size v) (off + n)) as [Hlt|Hle].
  - apply serves_refused; [done|done|]. cbn [run_op vstep snd]. rewrite (proj2 (Z.ltb_lt _ _)) by done. unfold qcow2_read_at, mbind, dstate_bind, dgets, id.
    rewrite (proj2 (Z.ltb_lt (q_size q) _)) by lia. by destruct (U64_MAX <? off + n).
  - destruct (read_at_spec _ q off n vs_ok Ho Hn ltac:(lia)) as (q' & Hrun & Hw' & Hs & Hr). apply (serves_quiet _ q' (DOk (OBytes (content_at (v_byte v) off n)))); try done.
    + cbn [vstep]. by rewrite (proj2 (Z.ltb_ge _ _)) by lia.
    + cbn [run_op]. rewrite (dbind_ok _ _ _ _ _ Hrun). unfold mret, dstate_ret. do 3 f_equal. apply content_at_ext. intros i Hi. apply (vs_guest _ _ _ _ _ _ Hv). lia.
Qed.
Lemma serves_write off b : 0 ≤ off ∧ bytes_ok b → budget q xs (VWrite off b :: ops) → serves q v (VWrite off b) ops.
Proof.
  intros [Ho Hb] Hbd. pose proof (vs_size _ _ _ _ _ _ Hv) as Hsz. pose proof (bd_room _ _ _ Hbd) as Hroom. rewrite sum_of_cons in Hroom. cbn [needs] in Hroom.
  pose proof (sum_of_nonneg (needs q) ops ltac:(intros op; apply needs_nonneg, vs_cs)). destruct (Z.ltb_spec (v_size v) (off + len b)) as [Hlt|Hle].
  - apply serves_refused; [done|cbn [vstep]; by rewrite (proj2 (Z.ltb_lt _ _)) by done|]. cbn [run_op vstep]. rewrite (proj2 (Z.ltb_lt _ _)) by done.
    unfold qcow2_write_at. unfold mbind at 1, dstate_bind at 1. rewrite (dbind_ok _ _ _ _ _ (owns_writable _ _ _ _ vs_owns)), (dbind_ok _ _ q q q) by done. unfold id.
    rewrite (proj2 (Z.ltb_lt (q_size q) _)) by lia. by destruct (U64_MAX <? off + len b).
  - destruct (write_at_spec _ q off b vs_ok (vs_covers _ _ _ _ _ _ Hv) Ho ltac:(lia) Hb ltac:(lia)) as (q' & Hrun & Hw' & Hwr & _ & Hr).
    destruct (kept_wrote T D S off b q q' _ _ (vs_kept _ _ _ _ _ _ Hv) Hw' Hwr) as [Hk' Hst]. exists q', T, D, S, xs. cbn [vstep run_op]. rewrite (proj2 (Z.ltb_ge _ _)) by lia. cbn [fst snd].
    split_and!; [by rewrite (dbind_ok _ _ _ _ _ Hrun)| |].
    + apply (versions_stays T D S q); try done. intros o Hoo. rewrite (wr_guest _ _ _ _ _ Hwr) by done. case_match; [done|]. by apply (vs_guest _ _ _ _ _ _ Hv).
    + apply (budget_step q q' xs xs (VWrite off b)); try done; [by eapply stays_alike|intros x Hx; pose proof (wrote_low _ _ _ _ _ Hwr x Hx); cbn [raises]; lia|cbn [adds]; lia].
Qed.
Lemma in_whole_spec cs off n o :
  0 < cs → 0 ≤ o → in_whole cs off n o = (whole_first cs off * cs <=? o) && (o <? whole_first cs off * cs + whole_count cs off n * cs).
Proof.
  intros Hcs Ho. unfold in_whole, whole_first, whole_count, div_ceil. set (c := o / cs). set (f := (off + cs - 1) / cs). set (l := (off + n) / cs).
  assert (c * cs ≤ o < (c + 1) * cs) by (unfold c; pose proof (Z.div_mod o cs); pose proof (Z.mod_pos_bound o cs); lia).
  assert (f * cs ≤ off + cs - 1 < (f + 1) * cs) by (unfold f; pose proof (Z.div_mod (off + cs - 1) cs); pose proof (Z.mod_pos_bound (off + cs - 1) cs); lia).
  assert (l * cs ≤ off + n < (l + 1) * cs) by (unfold l; pose proof (Z.div_mod (off + n) cs); pose proof (Z.mod_pos_bound (off + n) cs); lia).
  clearbody c f l. assert (off ≤ c * cs ↔ f ≤ c) as E1 by nia. assert (c * cs + cs ≤ off + n ↔ c < l) as E2 by nia.
  assert (f * cs ≤ o ↔ f ≤ c) as E3 by nia. assert (o < f * cs + Z.max 0 (l - f) * cs ↔ c < f + Z.max 0 (l - f)) as E4 by nia.
  apply eq_true_iff_eq. rewrite !andb_true_iff, !Z.leb_le, Z.ltb_lt, E1, E2, E3, E4. lia.
Qed.
Lemma serves_discard off n : 0 ≤ off ∧ 0 ≤ n → budget q xs (VDiscard off n :: ops) → serves q v (VDiscard off n) ops.
Proof.
  intros [Ho Hn] Hbd. pose proof (vs_size _ _ _ _ _ _ Hv) as Hsz. pose proof (bd_room _ _ _ Hbd) as Hroom. rewrite sum_of_cons in Hroom. cbn [needs] in Hroom.
  pose proof (sum_of_nonneg (needs q) ops ltac:(intros op; apply needs_nonneg, vs_cs)). destruct (Z.ltb_spec (v_size v) (off + n)) as [Hlt|Hle].
  - apply serves_refused; [done|cbn [vstep]; by rewrite (proj2 (Z.ltb_lt _ _)) by done|]. cbn [run_op vstep]. rewrite (proj2 (Z.ltb_lt _ _)) by done.
    unfold qcow2_discard. unfold mbind at 1, dstate_bind at 1. rewrite (dbind_ok _ _ _ _ _ (owns_writable _ _ _ _ vs_owns)), (dbind_ok _ _ q q q) by done. unfold id.
    rewrite (proj2 (Z.ltb_lt (q_size q) _)) by lia. by destruct (U64_MAX <? off + n).
  - destruct (discard_spec _ q off n vs_ok Ho Hn ltac:(lia) ltac:(lia)) as (q' & Hrun & Hw' & Hwr & Hr).
    destruct (kept_wrote T D S _ _ q q' _ _ (vs_kept _ _ _ _ _ _ Hv) Hw' Hwr) as [Hk' Hst]. exists q', T, D, S, xs. cbn [vstep run_op]. rewrite (proj2 (Z.ltb_ge _ _)) by lia. cbn [fst snd].
    split_and!; [by rewrite (dbind_ok _ _ _ _ _ Hrun)| |].
    + apply (versions_stays T D S q); try done. intros o Hoo. pose proof vs_cs. rewrite (wr_guest _ _ _ _ _ Hwr), <-(vs_cluster _ _ _ _ _ _ Hv), in_whole_spec by done.
      rewrite len_content_at by (unfold whole_count; nia). case_match eqn:E; [|by apply (vs_guest _ _ _ _ _ _ Hv)]. bsplit.
      rewrite idx_content_at, <-(vs_base _ _ _ _ _ _ Hv) by lia. f_equal. lia.
    + apply (budget_step q q' xs xs (VDiscard off n)); try done; [by eapply stays_alike|intros x Hx; pose proof (wrote_low _ _ _ _ _ Hwr x Hx); cbn [raises]; lia|cbn [adds]; lia].
Qed.
Lemma owns_qflush : ∃ q', qcow2_flush q = (q', DOk tt) ∧ owns T D S q' ∧ stays T D S q q' ∧ served (any T D S) q q' ∧ (∀ x, any T D S x → settled q q' x) ∧ flushed q'.
Proof.
  destruct (owns_flush T D S q vs_owns) as (q' & Hrun & Hrest). exists q'. split; [|done]. unfold qcow2_flush. rewrite (dbind_ok _ _ q q q) by done. unfold id.
  by rewrite (ph_rw q (owns_phys _ _ _ _ vs_owns)).
Qed.
Lemma flushed_versions q' : owns T D S q' → stays T D S q q' → served (any T D S) q q' → (∀ x, any T D S x → settled q q' x) →
  versions T D S q' xs v ∧ alike q' q ∧ low q q' ∧ room q ≤ room q'.
Proof.
  intros Ho' Hst Hsv Hset. split_and!; [|by eapply stays_alike|apply low_same; exact (sv_rc _ _ _ Hsv)|exact (sv_room _ _ _ Hsv)].
  assert (kept T D S q' xs.*1 xs.*2) as Hk' by (apply (kept_stays T D S q); try done; [apply (vs_kept _ _ _ _ _ _ Hv)|intros x Hx; apply Hset; unfold any; tauto]).
  pose proof (versions_stays T D S q q' xs v (v_byte v) Hv Hk' Hst) as Hv'. destruct v. apply Hv'. intros o Ho. rewrite (sv_guest _ _ _ Hsv) by done. exact (vs_guest _ _ _ _ _ _ Hv o Ho).
Qed.
Lemma serves_flush : budget q xs (VFlush :: ops) → serves q v VFlush ops.
Proof.
  intros Hb. destruct owns_qflush as (q' & Hrun & Ho' & Hst & Hsv & Hset & _). destruct (flushed_versions q' Ho' Hst Hsv Hset) as (Hv' & Hsh & Hlow & Hr).
  exists q', T, D, S, xs. split_and!; [cbn [run_op]; by rewrite (dbind_ok _ _ _ _ _ Hrun)|done|].
  apply (budget_step q q' xs xs VFlush); try done; [cbn; lia|intros x Hx; specialize (Hlow x Hx); cbn; lia|cbn [adds]; lia].
Qed.
Lemma serves_reopen : budget q xs (VReopen :: ops) → serves q v VReopen ops.
Proof.
  intros Hb. destruct owns_qflush as (q1 & Hrun & Ho1 & Hst & Hsv & Hset & Hfl). destruct (flushed_versions q1 Ho1 Hst Hsv Hset) as (Hv1 & Hsh1 & Hlow1 & Hr1).
  destruct (reopen_spec _ q1 (on_ok _ _ _ _ Ho1) (on_meta _ _ _ _ Ho1) Hfl) as (Hpa & Hw2 & _ & Hs2 & Hr2). set (q2 := set_backing_image _ _) in *.
  destruct (versions_same_guest T D S q1 q2 xs v Hv1 Hw2 Hs2) as (Hv2 & Hsh2 & Hlow2). exists q2, T, D, S, xs. split_and!; [|done|].
  - cbn [run_op vstep snd]. rewrite (dbind_ok _ _ q q2 tt); [done|]. unfold reopen. by rewrite Hrun, Hpa.
  - apply (budget_step q q2 xs xs VReopen); try done; [by rewrite Hsh2|cbn; lia| |cbn [adds]; lia]. intros x Hx. pose proof (low_trans _ _ _ Hlow1 Hlow2 x Hx). cbn. lia.
Qed.
Lemma infos_same : snapshot_info <$> xs.*1 = (v_snaps v).*1.
Proof.
  pose proof (vs_snaps _ _ _ _ _ _ Hv) as Hm. clear -Hm. induction Hm as [|x y xs ys [Hi _] _ IH]; [done|]. rewrite !fmap_cons. by rewrite Hi, IH.
Qed.
Lemma serves_list : budget q xs (VList :: ops) → serves q v VList ops.
Proof.
  intros Hb. apply serves_refused; [done|done|]. cbn [run_op vstep snd]. unfold list_snapshots.
  rewrite (dbind_ok _ _ q q (snapshot_info <$> xs.*1)) by (by rewrite (dbind_ok _ _ _ _ _ (parse_table_spec _ _ _ _ _ vs_entries))). by rewrite infos_same.
Qed.

(** ** Snapshots *)

Lemma found name :
  match v_find name v with
  | Some (i, y) => ∃ x, list_find (λ e, entry_named name e = true) xs.*1 = Some (i, x.1) ∧ xs !! i = Some x ∧ v_snaps v !! i = Some y ∧ matches q x y
  | None => list_find (λ e, entry_named name e = true) xs.*1 = None
  end.
Proof.
  assert (Forall2 (λ e y, snapshot_info e = y.1) xs.*1 (v_snaps v)) as Hm by (apply Forall2_fmap_l; eapply Forall2_impl; [exact (vs_snaps _ _ _ _ _ _ Hv)|]; by intros x y []).
  assert (∀ e (y : SnapshotInfo * (Z → Z)), snapshot_info e = y.1 → entry_named name e = true ↔ i_name y.1 = name ∨ i_id y.1 = name) as Hn.
  { intros e y <-. unfold entry_named. by rewrite orb_true_iff, !bool_decide_eq_true. }
  pose proof (list_find_Forall2 _ _ _ _ _ Hn Hm) as Hf.
  unfold v_find. destruct (list_find _ (v_snaps v)) as [[i y]|]; [|done]. destruct Hf as (e & -> & He & Hy & _). rewrite list_lookup_fmap in He.
  destruct (xs !! i) as [x|] eqn:Hx; simplify_eq/=. exists x. split_and!; try done. exact (Forall2_lookup_lr _ _ _ _ _ _ (vs_snaps _ _ _ _ _ _ Hv) Hx Hy).
Qed.
Lemma serves_apply name : budget q xs (VApply name :: ops) → serves q v (VApply name) ops.
Proof.
  intros Hb. pose proof (found name) as Hf. destruct (v_find name v) as [[i [info d]]|] eqn:Hfind.
  2: { apply serves_refused; [done|cbn [vstep]; by rewrite Hfind|]. cbn [run_op vstep]. rewrite Hfind. cbn [snd]. unfold snapshot_apply. unfold mbind at 1, dstate_bind at 1.
       rewrite (dbind_ok _ _ _ _ _ (owns_writable _ _ _ _ vs_owns)). unfold find_snapshot, mbind, dstate_bind. rewrite (parse_table_spec _ _ _ _ _ vs_entries). by rewrite Hf. }
  destruct Hf as (x & Hlf & Hx & _ & [Hi Hd]). pose proof (vs_kept _ _ _ _ _ _ Hv) as Hk. pose proof (kept_listed T D S q xs x Hk ltac:(by eapply list_elem_of_lookup_2)) as Hli.
  pose proof (bd_count _ _ _ Hb) as Hc. pose proof (sum_of_nonneg raises ops raises_nonneg). rewrite sum_of_cons in Hc. cbn [raises] in Hc.
  destruct (apply_spec T D S q xs.*1 name i x.1 x.2 vs_entries Hlf Hli (bd_width _ _ _ Hb)) as (q' & Hrun & Hs' & Hst & Hg & Hac & Hr & Hrc).
  { intros c HTD. specialize (Hc c ltac:(apply (any_nonneg T D S q c vs_owns); unfold any; tauto)). lia. }
  pose proof (listed_snap_ok _ _ _ _ _ (kp_listed _ _ _ _ _ _ Hk)) as Hok.
  assert (kept T D S q' xs.*1 xs.*2) as Hk'.
  { constructor; [done|exact (listed_all_stays T D S q q' _ _ vs_owns Hst (kp_listed _ _ _ _ _ _ Hk))|apply Hk|]. by apply Hac, Hk. }
  exists q', T, D, S, xs. cbn [vstep run_op]. rewrite Hfind. cbn [fst snd]. split_and!.
  - rewrite (dbind_ok _ _ _ _ _ Hrun). cbn [fst] in Hi. by rewrite Hi.
  - apply (versions_stays T D S q); try done. intros o Ho. rewrite Hg by done. by apply Hd.
  - apply (budget_step q q' xs xs (VApply name)); try done; [by eapply stays_alike|cbn; lia|intros c Hc0; specialize (Hrc c Hc0); cbn; lia|cbn [adds]; lia].
Qed.
Lemma serves_delete name : budget q xs (VDelete name :: ops) → serves q v (VDelete name) ops.
Proof.
  intros Hb. pose proof (found name) as Hf. destruct (v_find name v) as [[i [info d]]|] eqn:Hfind.
  2: { apply serves_refused; [done|cbn [vstep]; by rewrite Hfind|]. cbn [run_op vstep]. rewrite Hfind. cbn [snd]. unfold snapshot_delete. unfold mbind at 1, dstate_bind at 1.
       rewrite (dbind_ok _ _ _ _ _ (owns_writable _ _ _ _ vs_owns)), (dbind_ok _ _ _ _ _ (parse_table_spec _ _ _ _ _ vs_entries)). by rewrite Hf. }
  destruct Hf as (x & Hlf & Hx & _ & _). pose proof (vs_kept _ _ _ _ _ _ Hv) as Hk. pose proof (bd_room _ _ _ Hb) as Hroom. rewrite sum_of_cons in Hroom. cbn [needs] in Hroom.
  pose proof (sum_of_nonneg (needs q) ops ltac:(intros op; apply needs_nonneg, vs_cs)).
  destruct (delete_spec T D S q xs.*1 xs.*2 name i x.1 Hk Hlf ltac:(lia)) as (q' & T' & D' & S' & Hrun & Hk' & Hsh & Hr & Hlow & Hg & Hsb).
  rewrite <-!list_fmap_delete in Hk'. exists q', T', D', S', (delete i xs). cbn [vstep run_op]. rewrite Hfind. cbn [fst snd]. split_and!.
  - by rewrite (dbind_ok _ _ _ _ _ Hrun).
  - constructor; [done|by apply (alike_covers q), Hv|..].
    + rewrite (ak_size _ _ Hsh). exact (vs_size _ _ _ _ _ _ Hv).
    + rewrite (ak_cs _ _ Hsh). exact (vs_cluster _ _ _ _ _ _ Hv).
    + intros o Ho. rewrite (ak_backing _ _ Hsh). exact (vs_base _ _ _ _ _ _ Hv o Ho).
    + intros o Ho. rewrite Hg by done. exact (vs_guest _ _ _ _ _ _ Hv o Ho).
    + apply (matches_same q); [|apply Forall2_delete, Hv]. intros y Hy. apply Hsb. rewrite <-list_fmap_delete. by apply list_elem_of_fmap_2.
  - apply (budget_step q q' xs (delete i xs) (VDelete name)); try done; [cbn [raises]; intros c Hc0; specialize (Hlow c Hc0); lia|].
    rewrite list_fmap_delete. cbn [adds]. pose proof (len_delete_table xs.*1 i). lia.
Qed.

Lemma same_taken name : existsb (λ e, bool_decide (s_name e = name)) xs.*1 = v_taken name v.
Proof.
  unfold v_taken. pose proof (vs_snaps _ _ _ _ _ _ Hv) as Hm. clear -Hm. induction Hm as [|x y xs' ys [Hi _] _ IH]; [done|]. rewrite fmap_cons. cbn [existsb]. by rewrite IH, <-Hi.
Qed.
Lemma same_next_id : next_snapshot_id xs.*1 = if U64_MAX <? v_next_id v then Panic else Ret (u64_to_string (v_next_id v)).
Proof.
  unfold next_snapshot_id, v_next_id. assert (omap (parse_u64 ∘ s_id) xs.*1 = omap (parse_u64 ∘ i_id ∘ fst) (v_snaps v)) as ->; [|by rewrite Z.add_comm].
  pose proof (vs_snaps _ _ _ _ _ _ Hv) as Hm. clear -Hm. induction Hm as [|x y xs' ys [Hi _] _ IH]; [done|]. rewrite fmap_cons. cbn. unfold compose in *. rewrite <-Hi. cbn. by rewrite IH.
Qed.
Lemma take_refused now name vm_clock :
  budget q xs (VTake now name vm_clock :: ops) → (len name =? 0) || (1023 <? len name) || v_taken name v = true → serves q v (VTake now name vm_clock) ops.
Proof.
  intros Hb Hc. apply serves_refused; [done|cbn [vstep]; by rewrite Hc|]. cbn [vstep run_op]. rewrite Hc. cbn [snd]. unfold snapshot_create. unfold mbind at 1, dstate_bind at 1.
  rewrite (dbind_ok _ _ _ _ _ (owns_writable _ _ _ _ vs_owns)). destruct ((len name =? 0) || (1023 <? len name)); [done|]. cbn [orb] in Hc.
  rewrite (dbind_ok _ _ _ _ _ (parse_table_spec _ _ _ _ _ vs_entries)). by rewrite same_taken, Hc.
Qed.
Lemma take_overflow now name vm_clock :
  budget q xs (VTake now name vm_clock :: ops) → (len name =? 0) || (1023 <? len name) || v_taken name v = false → U64_MAX < v_next_id v → serves q v (VTake now name vm_clock) ops.
Proof.
  intros Hb Hc Hid. pose proof same_next_id as Hn. rewrite (proj2 (Z.ltb_lt _ _)) in Hn by done.
  apply serves_refused; [done|cbn [vstep]; by rewrite Hc, (proj2 (Z.ltb_lt _ _))|]. cbn [vstep run_op]. rewrite Hc, (proj2 (Z.ltb_lt _ _)) by done. cbn [snd].
  unfold snapshot_create. unfold mbind at 1, dstate_bind at 1. rewrite (dbind_ok _ _ _ _ _ (owns_writable _ _ _ _ vs_owns)). apply orb_false_iff in Hc as [-> Ht].
  rewrite (dbind_ok _ _ _ _ _ (parse_table_spec _ _ _ _ _ vs_entries)), same_taken, Ht. unfold mbind at 1, dstate_bind at 1, dpure. by rewrite Hn.
Qed.
Lemma take_takeable now name vm_clock sid :
  text_ok name ∧ is_u32 now.2 ∧ is_u64 vm_clock → budget q xs (VTake now name vm_clock :: ops) → (len name =? 0) || (1023 <? len name) || v_taken name v = false →
  next_snapshot_id xs.*1 = Ret sid → takeable q xs.*1 now name sid vm_clock ∧ div_ceil (40 + 24 + len sid + len name) 8 * 8 ≤ adds (VTake now name vm_clock).
Proof.
  intros (Htx & Hn & Hck) [B1 B2 B3 B4 B5] Hc Hid. rewrite sum_of_cons in B1, B5. cbn [needs] in B1. cbn [adds] in B5 |- *. destruct (next_id_spec _ _ Hid) as (_ & _ & Hl).
  apply orb_false_iff in Hc as [[Hc1 Hc2]%orb_false_iff Hc3]. bsplit. pose proof (len_nonneg name). pose proof (sum_of_nonneg adds ops adds_nonneg).
  pose proof (sum_of_nonneg (needs q) ops ltac:(intros op; apply needs_nonneg, vs_cs)). pose proof (sum_of_nonneg raises ops raises_nonneg).
  assert (div_ceil (40 + 24 + len sid + len name) 8 ≤ div_ceil (40 + 24 + 20 + len name) 8) as Hle by (unfold div_ceil; apply Z.div_le_mono; lia).
  split; [|lia]. constructor; try done; try lia.
  - intros e He Hne. apply not_true_iff_false in Hc3. apply Hc3. rewrite <-same_taken, existsb_exists. exists e. split; [by apply list_elem_of_In|]. by apply bool_decide_eq_true.
  - split; [done|]. lia.
  - intros x Hx. specialize (B2 x Hx). rewrite sum_of_cons in B2. cbn [raises] in B2. lia.
Qed.
Lemma serves_take now name vm_clock :
  text_ok name ∧ is_u32 now.2 ∧ is_u64 vm_clock → budget q xs (VTake now name vm_clock :: ops) → serves q v (VTake now name vm_clock) ops.
Proof.
  intros Hop Hb. destruct ((len name =? 0) || (1023 <? len name) || v_taken name v) eqn:Hc; [by apply take_refused|].
  destruct (Z.ltb_spec U64_MAX (v_next_id v)) as [Hid|Hid]; [by apply take_overflow|]. pose proof same_next_id as Hn. rewrite (proj2 (Z.ltb_ge _ _)) in Hn by done.
  set (sid := u64_to_string (v_next_id v)) in *. destruct (take_takeable now name vm_clock sid Hop Hb Hc Hn) as [Htk Hadd]. pose proof (vs_kept _ _ _ _ _ _ Hv) as Hk.
  destruct (take_spec T D S q xs.*1 now name sid vm_clock vs_entries Htk)
    as (q' & T' & D' & S' & e & l & Hrun & Hs' & Hen & Hei & Hinfo & Hli & Hsb & Hg & Hr & Hsh & Hrc & Hac & Hoff & Hold).
  exists q', T', D', S', (xs ++ [(e, l)]). cbn [vstep run_op]. rewrite Hc, (proj2 (Z.ltb_ge _ _)) by done. cbn [fst snd]. split_and!; [by rewrite (dbind_ok _ _ _ _ _ Hrun)| |].
  - assert (∀ x, x ∈ xs → listed T S q x.1 x.2 ∧ x.1 ∈ xs.*1) as Hx by (intros x Hx; split; [by eapply kept_listed|by apply list_elem_of_fmap_2]).
    constructor; [|by apply (alike_covers q), Hv|rewrite (ak_size _ _ Hsh); exact (vs_size _ _ _ _ _ _ Hv)|rewrite (ak_cs _ _ Hsh); exact (vs_cluster _ _ _ _ _ _ Hv)|intros o Ho; rewrite (ak_backing _ _ Hsh); exact (vs_base _ _ _ _ _ _ Hv o Ho)|intros o Ho; rewrite Hg by done; exact (vs_guest _ _ _ _ _ _ Hv o Ho)|].
    + rewrite !fmap_app. cbn [fmap list_fmap fst snd]. constructor; [done| | |apply Hac; [eapply listed_snap_ok|]; apply Hk].
      * apply Forall2_app; [|by constructor]. apply Forall2_same_length_lookup_2; [by rewrite !length_fmap|]. intros i e0 l0. rewrite !list_lookup_fmap.
        destruct (xs !! i) as [x|] eqn:Hi; [|done]. intros [= <-] [= <-]. destruct (Hx x ltac:(by eapply list_elem_of_lookup_2)). by apply Hold.
      * rewrite fmap_app. apply NoDup_app. split_and!; [apply Hk| |apply NoDup_singleton]. intros y (e0 & -> & He0)%list_elem_of_fmap Hy%list_elem_of_singleton.
        apply list_elem_of_fmap in He0 as (x & -> & Hxx). destruct (Hx x Hxx) as [Hlx Hex]. by apply (Hoff x.1 x.2).
    + apply Forall2_app; [|constructor; [|constructor]; split; [done|intros o Ho; cbn [snd]; rewrite Hsb by done; exact (vs_guest _ _ _ _ _ _ Hv o Ho)]].
      apply (matches_same q); [|apply Hv]. intros x Hxx. destruct (Hx x Hxx) as [Hlx Hex]. by apply (Hold x.1 x.2).
  - apply (budget_step q q' xs (xs ++ [(e, l)]) (VTake now name vm_clock)); try done. rewrite fmap_app, bind_app, len_app. cbn [fmap list_fmap fst mbind list_bind].
    rewrite app_nil_r, len_serialize. unfold padded_size. rewrite Hen, Hei. lia.
Qed.
End operations.

Lemma serves_op T D S q xs v op ops : versions T D S q xs v → op_ok op → budget q xs (op :: ops) → serves q v op ops.
Proof.
  intros Hv Hop Hb. destruct op.
  - by eapply serves_read.
  - by eapply serves_write.
  - by eapply serves_discard.
  - by eapply serves_flush.
  - by eapply serves_reopen.
  - by eapply serves_list.
  - by eapply serves_take.
  - by eapply serves_apply.
  - by eapply serves_delete.
Qed.

(** C1: an image with snapshots is a disk with named versions. On a valid
    image with counted references, any sequence of reads, writes,
    discards, flushes, restarts from the file, and listing, taking, applying and deleting of
    snapshots, refused ones included, returns what the same sequence returns
    on the disk [vrun] describes, as long as the image has room for the
    clusters, references and table entries they need; and the image is again
    valid and represents the disk that [vrun] ends with. *)
Theorem qcow2_versions_refine T D S q xs v ops :
  versions T D S q xs v → Forall op_ok ops → budget q xs ops →
  ∃ q', run_all ops q = (q', (vrun ops v).2) ∧ ∃ T' D' S' xs', versions T' D' S' q' xs' (vrun ops v).1.
Proof.
  intros Hv Hops. revert T D S q xs v Hv. induction Hops as [|op ops Hop Hops IH]; intros T D S q xs v Hv Hb.
  { exists q. split; [done|]. by exists T, D, S, xs. }
  destruct (serves_op T D S q xs v op ops Hv Hop Hb) as (q1 & T1 & D1 & S1 & xs1 & Hrun1 & Hv1 & Hb1). cbn [vrun run_all]. rewrite Hrun1. destruct (vstep op v) as [v1 r1]. cbn [fst snd] in *.
  destruct (IH T1 D1 S1 q1 xs1 v1 Hv1 Hb1) as (q2 & Hrun2 & Hv2). rewrite Hrun2. destruct (vrun ops v1) as [v2 rs]. by exists q2.
Qed.

(** ** A new image has no versions yet *)

Lemma top_snaps q : write_ok (is_meta q) q → meta_ok (is_meta q) q → nb_snapshots q = 0 → snapshots_offset q = 0 → snaps nowhere nowhere (is_meta q) q [].
Proof.
  intros Hw Hm Hn Hoff. assert (∀ c, any nowhere nowhere (is_meta q) c ↔ is_meta q c) as Hany by (intros c; unfold any, nowhere; tauto).
  constructor; [|constructor|done|by intros e ?%elem_of_nil]. constructor; try done.
  - eapply write_ok_mono; [|exact Hw]. intros c. by rewrite Hany.
  - constructor; try done. intros c Hc. destruct (wo_P _ _ Hw c Hc) as (Hc0 & _). destruct (mo_region _ _ Hm c Hc0 Hc) as (_ & Hr & Hnc). split; [done|]. by apply (private_off (is_meta q)).
  - eapply meta_ok_mono; [|exact Hm]. intros c _ _. by rewrite Hany.
Qed.
Lemma top_versions q base byte :
  write_ok (is_meta q) q → meta_ok (is_meta q) q → nb_snapshots q = 0 → snapshots_offset q = 0 → l1_covers q → (∀ o, 0 ≤ o → backing_byte q o = base o) →
  (∀ o, 0 ≤ o → guest_byte q o = byte o) → versions nowhere nowhere (is_meta q) q [] (mkVdisk (q_size q) (cluster_size q) base byte []).
Proof.
  intros Hw Hm Hn Ho Hc Hb Hg. constructor; try done. constructor; [by apply top_snaps|constructor|constructor|]. by intros x [[]|[]].
Qed.
End history.

(** ** Witness: a history of the overlay *)
Section overlay.
#[local] Existing Instance sample_inflate.
#[local] Existing Instance sample_inflate_laws.
Lemma overlay_fresh : fresh 4000 9 1 (Some overlay_ref) (Some overlay_base) overlay.
Proof.
  destruct (create_run 4000 9 (Some overlay_ref) (Some overlay_base)) as (q & Hrun & Hf); [lia|by vm_compute|by vm_compute|apply overlay_fits|]. unfold overlay. by rewrite Hrun.
Qed.
#[local] Opaque overlay.
(** The base is 1800 bytes of 44. *)
Definition overlay_disk : vdisk := let base o := if o <? 1800 then 44 else 0 in mkVdisk 4000 512 base base [].
Lemma overlay_versions : versions nowhere nowhere (is_meta overlay) overlay [] overlay_disk.
Proof.
  destruct overlay_ok as (Hw & Hm & Hc & Hs & Hcs & _ & Hg), (fr_top _ _ _ _ _ _ overlay_fresh) as (_ & _ & _ & _ & Hn & Ho), (fr_backing _ _ _ _ _ _ overlay_fresh) as [_ Hb].
  unfold overlay_disk. set (q := overlay) in *. clearbody q.
  assert (∀ o, 0 ≤ o → backing_byte q o = if o <? 1800 then 44 else 0) as Hbase.
  { intros o Hoo. unfold backing_byte. rewrite Hb. change (size overlay_base) with 1800. destruct (Z.ltb_spec o 1800); [|done].
    change (content overlay_base o) with (idx (replicate 1800 44) o). unfold idx. rewrite nth_lookup, lookup_replicate_2 by lia. done. }
  rewrite <-Hs, <-Hcs. apply top_versions; try done. intros o Hoo. rewrite Hg. by apply Hbase.
Qed.

(** Two snapshots, [a] and [b], with writes between; [a] applied, the image
    reopened, [a] deleted, [b] applied, two of its clusters discarded and [b]
    applied again, and a third that is not there. *)
Definition overlay_history : list vop :=
  [VTake (1, 0) [97] 0; VWrite 500 (replicate 600 7); VTake (2, 0) [98] 0; VApply [97]; VRead 498 4; VReopen; VRead 1098 4; VDelete [97]; VApply [98]; VRead 498 4;
   VDiscard 500 1200; VRead 510 4; VApply [98]; VRead 510 4; VTake (3, 0) [98] 0; VList; VDelete [99]].
Lemma overlay_ops_ok : Forall op_ok overlay_history.
Proof.
  assert (∀ c, c = 97 ∨ c = 98 → text_ok [c]) as Ht by (intros c [->| ->]; by repeat constructor).
  assert (∀ n : nat, bytes_ok (replicate n 7)) as Hb by (intros n; apply Forall_replicate; unfold is_u8; lia).
  unfold overlay_history. repeat (apply Forall_cons; split); try exact I; cbn [op_ok snd]; unfold is_u32, is_u64; split_and?; auto; try lia.
Qed.
Lemma overlay_budget : budget overlay [] overlay_history.
Proof.
  destruct overlay_ok as (_ & _ & _ & _ & Hcs & Hr & _), (fr_geometry _ _ _ _ _ _ overlay_fresh) as (_ & _ & _ & Hb & _).
  pose proof (fr_rc _ _ _ _ _ _ overlay_fresh) as Hrc. pose proof (fr_l1 _ _ _ _ _ _ overlay_fresh) as Hl. set (q := overlay) in *. clearbody q.
  constructor; rewrite ?Hb, ?Hcs, ?Hl.
  - refine (Z.le_trans _ _ _ _ Hr). unfold sum_of, needs, touched, overlay_history. rewrite Hcs. vm_compute. discriminate.
  - intros x Hx. rewrite Hrc by done. change (sum_of raises overlay_history) with 6. case_match; lia.
  - lia.
  - vm_compute. discriminate.
  - vm_compute. discriminate.
Qed.

Lemma qcow2_versions_refine_witness :
  ∃ q', run_all overlay_history overlay = (q', [DOk ONone; DOk ONone; DOk ONone; DOk (OInfo (mkSnapshotInfo [49] [97] 0 1 0 0)); DOk (OBytes [44; 44; 44; 44]); DOk ONone;
    DOk (OBytes [44; 44; 44; 44]); DOk ONone; DOk (OInfo (mkSnapshotInfo [50] [98] 0 2 0 0)); DOk (OBytes [44; 44; 7; 7]);
    DOk ONone; DOk (OBytes [7; 7; 44; 44]); DOk (OInfo (mkSnapshotInfo [50] [98] 0 2 0 0)); DOk (OBytes [7; 7; 7; 7]);
    DErr Unsupported; DOk (OInfos [mkSnapshotInfo [50] [98] 0 2 0 0]); DErr SnapshotNotFound]).
Proof.
  destruct (qcow2_versions_refine nowhere nowhere (is_meta overlay) overlay [] overlay_disk overlay_history overlay_versions) as (q' & Hrun & _).
  - exact overlay_ops_ok.
  - exact overlay_budget.
  - exists q'. rewrite Hrun. reflexivity.
Defined.
End overlay.

(** ** Where snapshots go wrong *)
Section wrong.
#[local] Existing Instance sample_inflate.

(** A name may be another snapshot's id, and the lookup takes the first entry
    that has it as either: the snapshot taken last cannot be applied, the
    other one is. *)
Definition two_snapshots : Qcow2Image RawImage :=
  let q := (snapshot_create (1, 0) [97] 0 0 overlay).1 in (snapshot_create (2, 0) [49] 0 0 (qcow2_write_at 0 [7] q).1).1.
Lemma name_of_an_id :
  (list_snapshots two_snapshots).2 = DOk [mkSnapshotInfo [49] [97] 0 1 0 0; mkSnapshotInfo [50] [49] 0 2 0 0] ∧
  (snapshot_apply [49] two_snapshots).2 = DOk (mkSnapshotInfo [49] [97] 0 1 0 0).
Proof. vm_compute. done. Qed.

(** A table written with other extra data than the 24 bytes written here: its
    size is taken as if it had them, so that more clusters than it has lose a
    reference when it is replaced. Eight entries without extra data fit one
    cluster of 512 bytes. *)
Definition bare_entry : bytes := replicate 12 0 ++ be16 1 ++ be16 7 ++ replicate 24 0 ++ replicate 8 97.
Definition bare_table : Qcow2Image RawImage :=
  set_snapshots_offset 2048 (set_nb_snapshots 8 (set_file (replicate 2048 0 ++ (replicate 8 bare_entry ≫= id) ++ replicate 128 0) overlay)).
Lemma old_table_overcounts : len (replicate 8 bare_entry ≫= id) = 384 ∧ cluster_size bare_table = 512 ∧ (old_snapshot_table_clusters bare_table).2 = DOk 2.
Proof. vm_compute. done. Qed.
End wrong.
